(* ===== verification/_CoqProject ===== *)
-Q . S2P
Prelude.v
Floats.v
Geometry.v
CircularBuffer.v
Str.v
LruCache.v
Threads.v
PriorityMutex.v
BufferedConsumer.v
BufferedProducer.v
Batcher.v
BatcherRuns.v
SubBatch.v
Trainer.v
TrainerRuns.v
Evaluator.v
Algorithms.v
BuildTypes.v
GameMechanics.v
Units.v
UnitsInfo.v
UnitGroups.v
UnitsUpdate.v
UnitsKept.v
Tiles.v
FogOfWar.v
TilesInfo.v
TilesUpdate.v
StateUpdate.v
Upc.v
UpcStorage.v
UpcFilter.v
Tasks.v
BoardTasks.v
Blackboard.v
BlackboardUpcs.v
BlackboardUpdate.v
ResourceWorkers.v
Gatherer.v
GathererSteps.v
AreaCache.v
UpcToCommand.v
UpcCommands.v
Controllers.v
ControllerTasks.v
Player.v
PlayerRuns.v
BoardPlayer.v
Trackers.v
Builder.v
BuilderSteps.v
BuilderModule.v
BuilderFunds.v
BuilderExample.v
Placement.v
PlacementRules.v
PlacementLayout.v
PlacementSearch.v
PlacementUpc.v
PlacementKept.v
BuildingPlacer.v
BuildingPlacerKept.v
BuildingPlacerRuns.v
PlacementExample.v
Scouting.v
ScoutingSteps.v
CombatSim.v
CombatRuns.v
AutoBuild.v
AutoBuildTask.v
AutoBuildSchedule.v
