(* ===== verification/Prelude.v ===== *)
(** * CherryPi core: a verification development

    CherryPi (the bot of TorchCraftAI) plays StarCraft: Brood War.  Its modules
    run one after the other in every frame and talk through a _blackboard_: a
    module posts UPC tuples (distributions over Units, Positions and Commands),
    others consume them and post more specific ones, and the last module turns
    sharp tuples into game commands.  Work that takes several frames is a
    _task_ on the board, a _tracker_ follows a command until it is
    accomplished, and the _build planner_ simulates the economy to decide what
    to build next.  A _player_ drives it all: it receives a frame, brings the
    state (units, tiles, areas, trackers, board) up to date, steps the modules
    and sends the commands on the board.  The development models these parts
    from the C++ sources under [src/] and proves what they promise one another.

    ** Files

    - [Prelude]: outcomes of C++ code ([res], with undefined behaviour,
      exceptions and exhausted fuel as values), loops over them, machine
      integers, association lists and sorted maps, tactics and the hint
      database [cpp].
    - [Floats]: [float] and [double] as the Standard Library's [spec_float].
    - [Geometry]: [Vec2T] and [Rect2T] of [src/src/basetypes.h].
    - [CircularBuffer], [LruCache], [Str]: the containers and the string
      functions of [src/common/] ([circularbuffer.h], [language.h], [str.cpp]).
    - [BuildTypes], [Units], [GameMechanics]: the types of units, upgrades and
      technologies ([src/src/buildtype.cpp]), the members of a unit
      ([src/src/unitsinfo.h]), and distances ([src/src/utils/gamemechanics.h]).
      BWAPI's numbers for each type are the class [BuildTable], a parameter.
    - [Upc], [UpcStorage], [UpcFilter]: tuples ([src/src/upc.cpp]), the graph of
      all posts ([upcstorage.cpp]), and the filters a tuple passes before it
      reaches the board ([upcfilter.cpp]).
    - [Tasks]: [Task], [ProxyTask], [MultiProxyTask] ([src/src/task.cpp]) over a
      heap of shared task objects.  What a task needs of the board is the class
      [TaskBoard]; which class of the modules an object has, and with it which
      override of [cancel], is the class [Classes].
    - [BoardTasks], [Blackboard]: [src/src/blackboard.cpp].  [BoardTasks] has the
      list of tasks and its three indexes of iterators; [Blackboard] the whole
      board, which is the instance of [TaskBoard], and [update].  The virtual
      [update] of the tasks the modules write is a parameter that may change the
      board and every task; what the theorems ask of it is [user_ok], which
      [AutoBuildSchedule] proves of [AutoBuildTask::update].
    - [BlackboardUpcs], [BlackboardUpdate]: the theorems about the board.
    - [UnitsInfo], [UnitGroups], [UnitsUpdate], [UnitsKept]: the units of the
      game ([src/src/unitsinfo.cpp]) with the containers they are grouped in;
      the first file has the definitions, the others the theorems.
    - [Tiles], [FogOfWar], [TilesInfo], [TilesUpdate]: the grid and its
      reservations, the tables of what a unit sees, and their update from the
      units of a frame ([tilesinfo.cpp], [fogofwar.cpp]); [StateUpdate] runs units
      and tiles together over the frames of a game ([state.cpp]).
    - [AreaCache]: the nearest area of every walk tile ([areainfo.cpp]); BWEM's
      map is a parameter.
    - [UpcToCommand], [UpcCommands]: [src/src/modules/upctocommand.cpp], the
      module that turns UPCs into commands, and its theorems.
    - [Controllers], [ControllerTasks]: [src/src/controller.cpp], controllers
      that own the units of a task and collect UPCs for them; the virtual
      methods are the class [Virtual].
    - [Algorithms], [ResourceWorkers], [Gatherer], [GathererSteps]: which worker
      gathers from which resource ([src/src/modules/gatherer/],
      [utils/algorithms.h]).
    - [Player], [PlayerRuns], [BoardPlayer]: [baseplayer.cpp] and [player.cpp].
      What a player uses of client and state is the class [Bot], what it relies
      on the class [Laws]; [BoardPlayer] instantiates both with the blackboard.
    - [Threads], [PriorityMutex], [BufferedConsumer], [BufferedProducer]: the
      mutex with priorities of [src/cpid/prioritymutex.h] and the work queues of
      [src/common/parallel.h], as step relations over threads.
    - [Batcher], [BatcherRuns]: [AsyncBatcher] of [src/cpid/batcher.cpp], which
      answers the queries of many threads in batches, in the same style;
      [SubBatch]: how [SubBatchAsyncBatcher] puts queries together and takes
      answers apart, over the class [Tensors] of what it uses of Torch.
    - [Trainer], [TrainerRuns]: [src/cpid/trainer.cpp], the replay buffer, the
      episodes of a trainer and the handles that own them, as sequences of calls;
      [Evaluator]: [src/cpid/evaluator.cpp], a trainer that takes the mean reward
      of a number of games.
    - [Trackers]: [tracker.cpp], [commandtrackers.cpp], [State::updateTrackers].
    - [Builder], [BuilderModule]: [src/src/modules/builderc.cpp] and
      [builder.cpp], the controllers that produce a unit, building or upgrade and
      the module that makes and steps them.  BWAPI's facts are the class [Kinds]
      and the record [env], which also has placement, safe paths and bases.
      [BuilderSteps] and [BuilderFunds] have the theorems, [BuilderExample] a
      frame with two orders and money for one.
    - [Placement], [PlacementUpc]: [src/src/modules/builderhelper.cpp], where a
      building can stand, the layout of a base, the search for a place, and the
      position a UPC gets.  [PlacementRules] says what a free place is,
      [PlacementLayout] what a good layout is, [PlacementSearch] and
      [PlacementKept] have the theorems about the search.
    - [BuildingPlacer]: [buildingplacer.cpp], the module that posts UPCs with
      positions and keeps the places reserved; [BuildingPlacerKept] has the
      invariant of its reservations, [BuildingPlacerRuns] what follows from it,
      [PlacementExample] a small map.
    - [Scouting], [ScoutingSteps]: [src/src/modules/scouting.cpp], the module that
      sends scouts to the start locations, and its theorems.
    - [CombatSim], [CombatRuns]: [src/src/combatsim.cpp], the simulation of a
      fight, and the score [src/src/modules/tactics.cpp] makes of it.
    - [AutoBuild], [AutoBuildTask]: [src/src/modules/autobuild.cpp], the
      simulation ([advance], [depbuild], [nodelay]) and the tasks on top of it
      ([getMyState], the queue of requests, [simEvaluateFor]);
      [AutoBuildSchedule], how a task keeps a UPC on the board for every item
      that is due ([update] and the second half of [evaluate]).

    A doc comment [[src/path:first-last] symbol] before a definition names the
    lines it translates.  One C++ function is one definition, long ones are cut
    at their loops and lambdas; member assignments are [set_] functions.

    ** Theorems

    - The board: [update] returns on a consistent board and leaves a consistent
      one, drops exactly the tasks marked for removal and records the status of
      the others as of their turn, and assigns every unit to the first task that
      holds it, where no task cancelled in the meantime does ([BlackboardUpdate]);
      no operation on tasks follows a dangling iterator and the indexes, that of
      owners included, agree with the list ([BoardTasks]); which tuples are posted
      and what the filters make of them, pruning the active ones and posting
      commands ([BlackboardUpcs]).
    - Tasks: cancelling reaches exactly the tasks a proxy leads to, and what it
      does to each depends on its class; the policies of a multi-proxy.
    - UPCs: what each filter lets through, chains of sources end, argmax.
    - Trackers: updating is defined, moves along the edges of the status
      machine, waits no longer than its timeout, and reports success only when
      the command is accomplished.
    - The planner: [advance] and [depbuild] return, keep the schedules sorted,
      never go back in time, and [advance] waits for a state in which the thing is
      affordable and pays its price there; squeezing a request in does not put off
      the next step towards the thing, which is the thing or a dependency; a
      simulation ends exactly at its last frame;
      every item due is scheduled under a UPC of its own.
    - Builders: in a frame every controller with a task is stepped once, in the
      order of priorities, and orders nothing that the resources do not cover
      beside what earlier controllers have put aside ([BuilderFunds]); over any
      run a controller orders its building at most fourteen times and reports
      success only when a tracker has seen it through ([BuilderSteps]).
    - Placement: [canBuildAt] and [buildingLayoutValid] decide what they are meant
      to decide, the latter by two searches that end; trying a place leaves no
      trace; the search returns a best one of the places it finds
      ([PlacementSearch]), and a UPC only gets a position at which the building
      can stand ([PlacementUpc]).  Over any sequence of frames the marks on the
      tiles are the ones the placer's tasks hold, and giving a place back never
      fails ([BuildingPlacerRuns]).
    - Batching: a caller gets what the model gave for its own query, and while the
      batching is on every caller is answered ([BatcherRuns]); taking a batch
      apart gives back what was put together ([SubBatch]).
    - Training: an episode under way has exactly one handle, and what is stored is
      either under way or finished ([TrainerRuns]); an evaluation is over exactly
      when all its games are, and never fails ([Evaluator]).
    - Scouting: the scout is a best one of those that may be sent, and goes to a
      location visited longest ago; finished tasks are removed ([ScoutingSteps]).
    - Combat: a simulated fight ends without overflow, only takes hit points
      away and only from units an enemy can shoot at, and goes through deeds of
      units that are alive at that moment ([CombatRuns]).
    - The game: over any sequence of frames the units, their groups, the tiles
      and what is visible stay consistent; a visible tile is within reach of a unit
      of the player, and what such a unit has in clear sight is visible, both in
      terms of distances and not of the tables of [FogOfWar]; a building stands
      where the tiles say ([StateUpdate], [TilesUpdate], [UnitsKept]).  Reservations of an area are checked, take
      all of it or nothing, and can be undone ([Tiles]).
    - Commands: a step of [UPCToCommandModule] returns, sends orders only to the
      units of the UPCs they come from, and takes those UPCs off the board;
      the UPCs a controller collected are executed ([ControllerTasks]); with the
      player around it a sharp UPC reaches the game in the same step
      ([BoardPlayer]).
    - Players: what a step sends, and that a whole run follows the protocol of
      start, frames and end and returns ([PlayerRuns]).
    - Controllers: task and controller agree on the units, also when several
      tasks share a controller.
    - Gathering: the two-way map is a function from workers to resources; a
      step keeps assignments to valid resources and moves a bounded number of
      workers, each to a resource of best score, unless an even random draw makes
      a new cooldown overflow, which is undefined.
    - Areas: the breadth-first search gives every tile the area of a closest
      walkable one.
    - Threads: mutual exclusion, priorities, calls that return; items are
      consumed in order.  The models do not end an object's lifetime: a step on it
      after its destructor has returned is not told apart.
    - Common code: ring buffer, LRU cache, glob matching, splitting, rectangles,
      distances.

    ** Bounds and fuel

    Loops that are not structural take fuel, and the theorems say how much is
    enough: one unit per post for chains of sources, the nesting of proxies for
    tasks, one round per frame for [advance], 9000 frames (its horizon) and the
    rank in the tech tree for [depbuild].  [simEvaluateFor] takes as many rounds
    as requests succeed, which its theorem states.  Identifiers, frames and
    coordinates are unbounded integers where the code cannot overflow in
    practice; [GameMechanics], [Tiles] and [FogOfWar] keep 32- and 64-bit
    arithmetic, [CombatSim] all [int] arithmetic, and [Player] the [int] of its
    frame counters.  The tables of
    sight are checked by evaluation; coordinates there are those of maps of at
    most 256 by 256 build tiles.  The search of [AreaCache] takes one round per
    walk tile, a run of [Player] one per frame of the game, a simulated fight one
    per frame; its coordinates are those of maps of at most 1024 walk tiles.  The
    two searches of a layout take one round per tile of the grid, and the search
    for a place the 1024 of the code.  The gas ratio and
    the cooldowns of [Gatherer] are checked by evaluation, for up to 400 workers
    and the first 2880 frames.

    ** Not modelled

    The modules for combat and harassment, the path of a sneaking overlord, the
    build orders, the gatherer controller, the rest of the areas (bases, paths,
    start locations), learned models and the algorithms that train them, the
    connection to the game behind [tc::Client], drawing, logging and dumps. *)

From Stdlib Require Export ZArith Lia.
From stdpp Require Export prelude gmap list sorting strings.
#[global] Open Scope Z_scope.

(** ** Outcomes of C++ code *)

(** A piece of C++ code ends in a value, an exception, undefined behaviour
    (a dangling pointer, an index past the end of a vector), or, in the model
    of a loop, with its fuel used up. *)
Inductive res (A : Type) : Type :=
| Ok (a : A)
| Throw (msg : string)
| Undefined
| OutOfFuel.
Arguments Ok {A} _.
Arguments Throw {A} _.
Arguments Undefined {A}.
Arguments OutOfFuel {A}.

Definition rbind {A B} (m : res A) (k : A → res B) : res B :=
  match m with
  | Ok a => k a
  | Throw s => Throw s
  | Undefined => Undefined
  | OutOfFuel => OutOfFuel
  end.

Definition of_option {A} (o : option A) : res A :=
  match o with Some a => Ok a | None => Undefined end.

Declare Scope cpp_scope.
Delimit Scope cpp_scope with cpp.
Notation "'let?' x := m 'in' k" := (rbind m (λ x, k))
  (at level 10, x pattern, m at level 100, k at level 200) : cpp_scope.
#[global] Open Scope cpp_scope.

Lemma rbind_Ok_inv {A B} (m : res A) (k : A → res B) b :
  rbind m k = Ok b → ∃ a, m = Ok a ∧ k a = Ok b.
Proof. destruct m; simpl; try discriminate; eauto. Qed.

Lemma of_option_Ok {A} (o : option A) a : of_option o = Ok a ↔ o = Some a.
Proof. destruct o; simpl; split; congruence. Qed.

(** [for (x : l) acc = f(acc, x)], stopping at the first failure. *)
Fixpoint rfold {A B} (f : B → A → res B) (l : list A) (acc : B) : res B :=
  match l with
  | [] => Ok acc
  | x :: l => rbind (f acc x) (rfold f l)
  end.

(** A property of the accumulator that every round keeps holds at the end. *)
Lemma rfold_inv {A B} (P : B → Prop) (f : B → A → res B) l acc b :
  (∀ acc x b, x ∈ l → P acc → f acc x = Ok b → P b) →
  P acc → rfold f l acc = Ok b → P b.
Proof.
  revert acc. induction l as [|x l IH]; simpl; intros acc Hf Hacc H; [congruence|].
  apply rbind_Ok_inv in H as (b' & H1 & H2).
  eapply IH; [|eapply Hf; [|done|done]|done]; [|set_solver].
  intros. eapply Hf; [|done|done]. set_solver.
Qed.

Lemma rfold_total {A B} (P : B → Prop) (f : B → A → res B) l acc :
  (∀ acc x, x ∈ l → P acc → ∃ acc', f acc x = Ok acc' ∧ P acc') → P acc →
  ∃ acc', rfold f l acc = Ok acc' ∧ P acc'.
Proof.
  revert acc. induction l as [|x l IH]; intros acc Hf Ha; cbn [rfold]; [by exists acc|].
  destruct (Hf acc x) as (acc1 & -> & H1); [by left|done|]. cbn [rbind].
  apply IH; [|done]. intros acc2 y Hy. apply Hf. by right.
Qed.

(** [for (i = 0; i != l.size(); ++i)] over the elements of [l]. *)
Lemma rfold_seq {A B} (f : B → nat → res B) (g : B → A → res B) l acc :
  (∀ i x acc, l !! i = Some x → f acc i = g acc x) → rfold f (seq 0 (length l)) acc = rfold g l acc.
Proof.
  assert (∀ k, (∀ i x acc, l !! i = Some x → f acc (k + i)%nat = g acc x) →
               rfold f (seq k (length l)) acc = rfold g l acc) as H; [|by apply (H O)].
  revert acc. induction l as [|x l IH]; intros acc k Hf; cbn [length seq rfold]; [done|].
  rewrite <-(Hf O x acc eq_refl), Nat.add_0_r. destruct (f acc k); cbn [rbind]; [|done..].
  apply IH. intros i y acc1 Hi. by rewrite <-(Hf (S i) y acc1 Hi), Nat.add_succ_r.
Qed.

Lemma rfold_defined {A B} (f : B → A → res B) l acc :
  (∀ acc x, x ∈ l → ∃ b, f acc x = Ok b) → ∃ b, rfold f l acc = Ok b.
Proof.
  intros Hf. destruct (rfold_total (λ _, True) f l acc) as (b & E & _); [|done|eauto].
  intros acc1 x Hx _. destruct (Hf acc1 x Hx) as [b Hb]. eauto.
Qed.

Lemma rfold_app {A B} (f : B → A → res B) l1 l2 acc :
  rfold f (l1 ++ l2) acc = rbind (rfold f l1 acc) (rfold f l2).
Proof. revert acc. induction l1 as [|x l1 IH]; intros acc; simpl; [done|]. by destruct (f acc x); simpl. Qed.

(** Two nested loops as one. *)
Lemma rfold_nested {A B C} (f : A → C → B → res C) (ys : list A) (xs : list B) (acc : C) :
  rfold (λ acc y, rfold (f y) xs acc) ys acc = rfold (λ acc p, f p.1 acc p.2) (ys ≫= λ y, pair y <$> xs) acc.
Proof.
  revert acc. induction ys as [|y ys IH]; intros acc; [done|]. cbn [rfold mbind list_bind]. rewrite rfold_app.
  assert (rfold (f y) xs acc = rfold (λ acc p, f p.1 acc p.2) (pair y <$> xs) acc) as ->.
  { clear IH. revert acc. induction xs as [|x xs IHx]; intros acc; [done|].
    rewrite fmap_cons. cbn [rfold fst snd]. destruct (f y acc x); cbn [rbind]; [apply IHx|done..]. }
  destruct (rfold _ (pair y <$> xs) acc); cbn [rbind]; [apply IH|done..].
Qed.

(** The indices of [for (i = a; i < b; i++)]. *)
Definition range (a b : Z) : list Z := seqZ a (b - a).

Lemma elem_of_range a b i : i ∈ range a b ↔ a ≤ i < b.
Proof. unfold range. rewrite elem_of_seqZ. lia. Qed.

(** A loop [for (i = a; i < b; i++)] with an invariant that depends on [i]. *)
Lemma rfold_range {B} (P : Z → B → Prop) (f : B → Z → res B) a b acc :
  (∀ i acc, a ≤ i < b → P i acc → ∃ acc', f acc i = Ok acc' ∧ P (i + 1) acc') →
  a ≤ b → P a acc → ∃ acc', rfold f (range a b) acc = Ok acc' ∧ P b acc'.
Proof.
  intros Hf Hab. unfold range. remember (Z.to_nat (b - a)) as n eqn:En. revert a acc Hf Hab En.
  induction n as [|n IH]; intros a acc Hf Hab En Ha.
  { replace (b - a) with 0 by lia. replace b with a by lia. eauto. }
  rewrite seqZ_cons by lia. cbn [rfold]. destruct (Hf a acc) as (acc1 & -> & H1); [lia|done|]. cbn [rbind].
  replace (Z.succ a) with (a + 1) by lia. replace (Z.pred (b - a)) with (b - (a + 1)) by lia.
  apply IH; [|lia|lia|done]. intros i acc' Hi. apply Hf. lia.
Qed.

(** ** Machine integers *)

(** [static_cast<uint32_t>] and the wrap-around of 32-bit unsigned arithmetic. *)
Definition u32 (z : Z) : Z := z mod 2 ^ 32.
(** [static_cast<uint8_t>]. *)
Definition u8 (z : Z) : Z := z mod 2 ^ 8.
(** The values of a 32-bit [int]. *)
Definition in_int (z : Z) : Prop := - 2 ^ 31 ≤ z < 2 ^ 31.
Definition INT_MAX : Z := 2 ^ 31 - 1.

Lemma u32_small z : 0 ≤ z < 2 ^ 32 → u32 z = z.
Proof. intros. apply Z.mod_small. lia. Qed.
Lemma u32_range z : 0 ≤ u32 z < 2 ^ 32.
Proof. apply Z.mod_pos_bound. lia. Qed.
Lemma u8_range z : 0 ≤ u8 z < 2 ^ 8.
Proof. apply Z.mod_pos_bound. lia. Qed.
Lemma u8_small z : 0 ≤ z < 2 ^ 8 → u8 z = z.
Proof. intros. apply Z.mod_small. lia. Qed.

(** ** Automation *)

Create HintDb cpp discriminated.
#[export] Hint Resolve u32_range u8_range : cpp.

(** Case analysis on the boolean and comparison tests of the code. *)
Ltac case_test :=
  match goal with
  | |- context [Z.eqb ?a ?b] => destruct (Z.eqb_spec a b)
  | |- context [Z.ltb ?a ?b] => destruct (Z.ltb_spec a b)
  | |- context [Z.leb ?a ?b] => destruct (Z.leb_spec a b)
  | H : context [Z.eqb ?a ?b] |- _ => destruct (Z.eqb_spec a b)
  | H : context [Z.ltb ?a ?b] |- _ => destruct (Z.ltb_spec a b)
  | H : context [Z.leb ?a ?b] |- _ => destruct (Z.leb_spec a b)
  end.

(** Decides a boolean comparison of integers, to be used in [replace]. *)
Ltac blia :=
  try match goal with |- true = _ => symmetry | |- false = _ => symmetry end;
  first [apply Z.ltb_lt | apply Z.leb_le | apply Z.eqb_eq
        |apply Z.ltb_ge | apply Z.leb_gt | apply Z.eqb_neq]; lia.

(** Splits [rbind]s and [if]s of a successful run into its steps. *)
Ltac inv_res :=
  repeat match goal with
  | H : rbind _ _ = Ok _ |- _ =>
      apply rbind_Ok_inv in H; destruct H as (? & ? & H)
  | H : of_option _ = Ok _ |- _ => apply of_option_Ok in H
  | H : Ok _ = Ok _ |- _ => injection H as H; subst
  | H : Throw _ = Ok _ |- _ => discriminate H
  | H : Undefined = Ok _ |- _ => discriminate H
  | H : OutOfFuel = Ok _ |- _ => discriminate H
  end.

(** ** Association lists: hash maps with their iteration order *)

Section assoc.
Context {K V : Type} `{EqDecision K}.
Implicit Types l : list (K * V).

(** [m.find(k)] *)
Fixpoint al_find (k : K) l : option V :=
  match l with
  | [] => None
  | (k', v) :: l => if decide (k = k') then Some v else al_find k l
  end.

(** [m[k] = v]: in place when the key is present, else a new entry. *)
Fixpoint al_set (k : K) (v : V) l : list (K * V) :=
  match l with
  | [] => [(k, v)]
  | (k', v') :: l =>
      if decide (k = k') then (k', v) :: l else (k', v') :: al_set k v l
  end.

(** [m.erase(k)] *)
Definition al_erase (k : K) l : list (K * V) := filter (λ p, p.1 ≠ k) l.

Definition al_wf l : Prop := NoDup l.*1.

Lemma al_find_set k v l k' :
  al_find k' (al_set k v l) = if decide (k' = k) then Some v else al_find k' l.
Proof.
  induction l as [|[k0 v0] l IH]; simpl; [done|].
  repeat (case_decide; simpl; try congruence); rewrite ?IH;
    repeat (case_decide; simpl; try congruence).
Qed.

Lemma al_find_erase k l k' :
  al_find k' (al_erase k l) = if decide (k' = k) then None else al_find k' l.
Proof.
  unfold al_erase. induction l as [|[k0 v0] l IH]; simpl; [by case_decide|].
  rewrite filter_cons; simpl.
  repeat (case_decide; simpl in *; try congruence; try done).
Qed.

Lemma al_find_Some_in k v l : al_find k l = Some v → (k, v) ∈ l.
Proof.
  induction l as [|[k0 v0] l IH]; simpl; [done|].
  case_decide; intros; simplify_eq; set_solver.
Qed.

Lemma al_find_None k l : al_find k l = None ↔ k ∉ l.*1.
Proof.
  induction l as [|[k0 v0] l IH]; simpl; [set_solver|].
  rewrite not_elem_of_cons. case_decide; naive_solver.
Qed.

Lemma al_in_find k v l : al_wf l → (k, v) ∈ l → al_find k l = Some v.
Proof.
  unfold al_wf. induction l as [|[k0 v0] l IH]; simpl; [set_solver|].
  intros [Hn Hnd]%NoDup_cons [E|Hin]%elem_of_cons.
  - injection E as -> ->. by rewrite decide_True.
  - rewrite decide_False; [by apply IH|].
    intros ->. apply Hn. apply list_elem_of_fmap. by exists (k0, v).
Qed.

Lemma al_set_fst k v l :
  (al_set k v l).*1 = if decide (k ∈ l.*1) then l.*1 else l.*1 ++ [k].
Proof.
  induction l as [|[k0 v0] l IH]; csimpl.
  - done.
  - destruct (decide (k = k0)) as [->|Hne]; csimpl.
    + rewrite decide_True; [done|set_solver].
    + rewrite IH. destruct (decide (k ∈ l.*1)) as [Hin|Hin].
      * rewrite decide_True; [done|set_solver].
      * rewrite decide_False; [done|set_solver].
Qed.

Lemma al_set_wf k v l : al_wf l → al_wf (al_set k v l).
Proof.
  unfold al_wf. rewrite al_set_fst. case_decide; [done|].
  intros. apply NoDup_app. repeat split; [done| |apply NoDup_singleton].
  intros x Hx ->%list_elem_of_singleton. done.
Qed.

Lemma al_erase_wf k l : al_wf l → al_wf (al_erase k l).
Proof.
  unfold al_wf, al_erase. induction l as [|[k0 v0] l IH]; csimpl; [done|].
  intros [Hn Hnd]%NoDup_cons. rewrite filter_cons.
  case_decide; csimpl; [|by apply IH]. apply NoDup_cons; split; [|by apply IH].
  intros (p & -> & Hp)%list_elem_of_fmap. apply Hn.
  apply list_elem_of_filter in Hp as [_ Hp]. apply list_elem_of_fmap. eauto.
Qed.
End assoc.

#[export] Hint Resolve al_set_wf al_erase_wf : cpp.

(** ** Ordered maps: [std::map] as the list of its entries by increasing key *)

Section smap.
Context {V : Type}.
Implicit Types l : list (Z * V).

(** [m[k] = v] *)
Fixpoint smap_set (k : Z) (v : V) l : list (Z * V) :=
  match l with
  | [] => [(k, v)]
  | (k', v') :: l =>
      if k <? k' then (k, v) :: (k', v') :: l
      else if k =? k' then (k, v) :: l
      else (k', v') :: smap_set k v l
  end.

Definition smap_wf l : Prop := StronglySorted Z.lt l.*1.

Lemma al_find_smap_set k v l k' :
  al_find k' (smap_set k v l) = if decide (k' = k) then Some v else al_find k' l.
Proof.
  induction l as [|[k0 v0] l IH]; simpl; [done|].
  repeat case_test; simpl; rewrite ?IH; repeat (case_decide; simpl; try congruence; try lia).
Qed.

Lemma smap_set_elem k v l x : x ∈ (smap_set k v l).*1 ↔ x = k ∨ x ∈ l.*1.
Proof.
  induction l as [|[k0 v0] l IH]; csimpl; [set_solver|].
  repeat case_test; csimpl; set_solver.
Qed.

Lemma smap_set_wf k v l : smap_wf l → smap_wf (smap_set k v l).
Proof.
  unfold smap_wf. induction l as [|[k0 v0] l IH]; csimpl; [repeat constructor|].
  intros H. inversion H as [|? ? Hs Hf]; subst.
  destruct (Z.ltb_spec k k0); [|destruct (Z.eqb_spec k k0)]; csimpl.
  - constructor; [done|]. constructor; [lia|]. eapply Forall_impl; [done|]. simpl. lia.
  - subst. by constructor.
  - constructor; [by apply IH|]. rewrite Forall_forall in *. intros x Hx%smap_set_elem.
    destruct Hx as [->|Hx]; [lia|by apply Hf].
Qed.

Lemma smap_erase_wf k l : smap_wf l → smap_wf (al_erase k l).
Proof.
  unfold smap_wf, al_erase. induction l as [|[k0 v0] l IH]; csimpl; [done|].
  intros H. inversion H as [|? ? Hs Hf]; subst. rewrite filter_cons.
  case_decide; csimpl; [|by apply IH]. constructor; [by apply IH|].
  rewrite Forall_forall in *. intros x (p & -> & Hp)%list_elem_of_fmap. apply Hf.
  apply list_elem_of_filter in Hp as [_ Hp]. apply list_elem_of_fmap. eauto.
Qed.

Lemma smap_wf_al l : smap_wf l → al_wf l.
Proof.
  unfold smap_wf, al_wf. induction 1 as [|x l' Hs IH Hf]; constructor; [|done].
  rewrite Forall_forall in Hf. intros Hx. specialize (Hf _ Hx). lia.
Qed.
End smap.

#[export] Hint Resolve smap_set_wf smap_erase_wf smap_wf_al : cpp.

(** ** Lists *)

Lemma snoc_lookup {A} (l : list A) x : (l ++ [x]) !! length l = Some x.
Proof. rewrite lookup_app_r by lia. by rewrite Nat.sub_diag. Qed.

Lemma Forall2_in_r {A B} (R : A → B → Prop) l k y : Forall2 R l k → y ∈ k → ∃ x, x ∈ l ∧ R x y.
Proof.
  induction 1 as [|x z l k HR _ IH]; [by intros ?%not_elem_of_nil|]. intros [->|Hy]%elem_of_cons.
  - exists x. split; [by left|done].
  - destruct (IH Hy) as (x' & ? & ?). exists x'. split; [by right|done].
Qed.

Lemma Forall2_in_l {A B} (R : A → B → Prop) l k x : Forall2 R l k → x ∈ l → ∃ y, y ∈ k ∧ R x y.
Proof. intros H. by apply (Forall2_in_r (flip R)), Forall2_flip. Qed.

(** [for (x : l) if (b(x)) result.push_back(f(x))] *)
Lemma fold_push_filter {A B} (P : A → Prop) `{∀ x, Decision (P x)} (b : A → bool) (f : A → B) l acc :
  (∀ x, x ∈ l → b x = true ↔ P x) →
  fold_left (λ r x, if b x then r ++ [f x] else r) l acc = acc ++ map f (filter P l).
Proof.
  revert acc. induction l as [|x l IH]; intros acc Hb; cbn [fold_left]; [by rewrite app_nil_r|].
  rewrite IH by (intros; apply Hb; set_solver). rewrite filter_cons.
  pose proof (Hb x (list_elem_of_here _ _)) as Hx. case_decide as Hp; destruct (b x); simpl; [by rewrite <-app_assoc| | |done].
  - by discriminate (proj2 Hx Hp).
  - by destruct Hp; apply Hx.
Qed.

Lemma list_filter_all {A} (P : A → Prop) `{∀ x, Decision (P x)} (l : list A) :
  (∀ x, x ∈ l → P x) → filter P l = l.
Proof.
  induction l as [|x l IH]; intros Hl; [done|].
  rewrite filter_cons_True by (apply Hl; set_solver). f_equal. apply IH. intros. apply Hl. set_solver.
Qed.

Lemma list_filter_none {A} (P : A → Prop) `{∀ x, Decision (P x)} (l : list A) :
  (∀ x, x ∈ l → ¬ P x) → filter P l = [].
Proof.
  induction l as [|x l IH]; intros Hl; [done|].
  rewrite filter_cons_False by (apply Hl; set_solver). apply IH. intros. apply Hl. set_solver.
Qed.

(** Straight-line code does not run out of fuel. *)
Lemma rbind_fuel {A B} (m : res A) (k : A → res B) :
  m ≠ OutOfFuel → (∀ a, m = Ok a → k a ≠ OutOfFuel) → rbind m k ≠ OutOfFuel.
Proof. intros Hm Hk. destruct m; simpl; auto; done. Qed.

Lemma of_option_fuel {A} (o : option A) : of_option o ≠ OutOfFuel.
Proof. by destruct o. Qed.

#[export] Hint Resolve of_option_fuel : cpp.
