(* ===== verification/Floats.v ===== *)
(** * IEEE-754 numbers

    [float] and [double] values are the Standard Library's [spec_float]
    (binary32: 24 bits of precision, exponent bound 128; binary64: 53 and
    1024), with the operations the sources use, and the order facts about
    comparisons that the proofs of the components need. *)

From S2P Require Import Prelude.
From Stdlib Require Import SpecFloat.

(** C++ [float] and [double]. *)
Abbreviation float32 := spec_float.
Abbreviation float64 := spec_float.

Definition f32_of_Z (z : Z) : float32 := binary_normalize 24 128 z 0 false.
Definition f64_of_Z (z : Z) : float64 := binary_normalize 53 1024 z 0 false.

(** The literal [n / d]: the rounding of the exact quotient. *)
Definition f32_lit (n d : Z) : float32 := SFdiv 24 128 (f32_of_Z n) (f32_of_Z d).
Definition f64_lit (n d : Z) : float64 := SFdiv 53 1024 (f64_of_Z n) (f64_of_Z d).

Definition f64_add : float64 → float64 → float64 := SFadd 53 1024.
Definition f64_sub : float64 → float64 → float64 := SFsub 53 1024.
Definition f64_mul : float64 → float64 → float64 := SFmul 53 1024.
Definition f64_div : float64 → float64 → float64 := SFdiv 53 1024.
Definition f64_sqrt : float64 → float64 := SFsqrt 53 1024.
Definition f32_add : float32 → float32 → float32 := SFadd 24 128.

(** The implicit promotion of a [float] to [double], which is exact. *)
Definition f64_of_f32 (f : float32) : float64 :=
  match f with
  | S754_finite s m e =>
      binary_normalize 53 1024 (if s then Z.neg m else Z.pos m) e false
  | _ => f
  end.

(** [==], [<], [<=] and [>] on floating-point operands. *)
Definition feqb (a b : spec_float) : bool := SFeqb a b.
Definition fltb (a b : spec_float) : bool := SFltb a b.
Definition fleb (a b : spec_float) : bool := SFleb a b.

(** [std::isnan] *)
Definition isnan (a : spec_float) : bool :=
  match a with S754_nan => true | _ => false end.

(** [std::max(a, b)] returns [b] only when [a < b]; [std::min(a, b)] returns
    [b] only when [b < a]. *)
Definition fmax (a b : spec_float) : spec_float := if fltb a b then b else a.
Definition fmin (a b : spec_float) : spec_float := if fltb b a then b else a.

Abbreviation f32_0 := (S754_zero false).
Abbreviation f64_0 := (S754_zero false).
Definition f32_1 : float32 := f32_of_Z 1.
Definition f64_1 : float64 := f64_of_Z 1.

#[export] Instance spec_float_eq_dec : EqDecision spec_float.
Proof. solve_decision. Defined.

(** ** The order of the comparisons *)

Lemma SFcompare_swap a b : SFcompare b a = CompOpp <$> SFcompare a b.
Proof.
  destruct a as [s|s| |s m e], b as [s'|s'| |s' m' e']; simpl;
    try destruct s; try destruct s'; try done;
    rewrite (Z.compare_antisym e e'); destruct (e ?= e')%Z; simpl; try done;
    f_equal; change (Pos.compare_cont Eq m' m) with (m' ?= m)%positive;
    change (Pos.compare_cont Eq m m') with (m ?= m')%positive;
    rewrite (Pos.compare_antisym m m'); by destruct (m ?= m')%positive.
Qed.

Lemma fltb_fleb a b : fltb a b = true → fleb a b = true.
Proof. unfold fltb, fleb, SFltb, SFleb. by destruct (SFcompare a b) as [[]|]. Qed.

Lemma fleb_antisym_feqb a b : fleb a b = true → fleb b a = true → feqb a b = true.
Proof.
  unfold fleb, feqb, SFleb, SFeqb. rewrite (SFcompare_swap a b).
  by destruct (SFcompare a b) as [[]|].
Qed.

Lemma fltb_asym a b : fltb a b = true → fleb b a = false.
Proof.
  unfold fltb, fleb, SFltb, SFleb. rewrite (SFcompare_swap a b).
  by destruct (SFcompare a b) as [[]|].
Qed.

Lemma fltb_irrefl a : fltb a a = false.
Proof.
  destruct (fltb a a) eqn:E; [|done].
  pose proof (fltb_fleb _ _ E). apply fltb_asym in E. congruence.
Qed.

Lemma not_nan_compare a b :
  isnan a = false → isnan b = false → is_Some (SFcompare a b).
Proof. destruct a, b; simpl; try done; intros; eauto. Qed.

(** On numbers the order is total: [not (a < b)] is [b <= a]. *)
Lemma fltb_false_fleb a b :
  isnan a = false → isnan b = false → fltb a b = false → fleb b a = true.
Proof.
  intros Ha Hb. destruct (not_nan_compare a b Ha Hb) as [c Hc].
  unfold fltb, fleb, SFltb, SFleb. rewrite (SFcompare_swap a b), Hc.
  by destruct c.
Qed.

Lemma fltb_not_nan a b : fltb a b = true → isnan a = false ∧ isnan b = false.
Proof. destruct a, b; simpl; done. Qed.

Lemma fleb_not_nan a b : fleb a b = true → isnan a = false ∧ isnan b = false.
Proof. destruct a, b; simpl; done. Qed.

Lemma fleb_refl a : isnan a = false → fleb a a = true.
Proof. intros. apply fltb_false_fleb; auto using fltb_irrefl. Qed.

(** Transitivity, through an order-preserving view of the numbers. *)
Definition rank (a : spec_float) : Z * Z * Z :=
  match a with
  | S754_zero _ => (0, 0, 0)
  | S754_infinity s => if s then (-2, 0, 0) else (2, 0, 0)
  | S754_nan => (0, 0, 0)
  | S754_finite s m e => if s then (-1, - e, - Z.pos m) else (1, e, Z.pos m)
  end.

Definition rank_lt (a b : Z * Z * Z) : Prop :=
  match a, b with
  | (a1, a2, a3), (b1, b2, b3) =>
      a1 < b1 ∨ a1 = b1 ∧ (a2 < b2 ∨ a2 = b2 ∧ a3 < b3)
  end.

Ltac float_cases :=
  repeat match goal with
  | |- context [(?e ?= ?e')%Z] => destruct (Z.compare_spec e e')
  | |- context [Pos.compare_cont Eq ?m ?m'] =>
      change (Pos.compare_cont Eq m m') with (m ?= m')%positive;
      destruct (Pos.compare_spec m m')
  end.

Lemma fltb_rank a b :
  isnan a = false → isnan b = false → (fltb a b = true ↔ rank_lt (rank a) (rank b)).
Proof.
  intros Ha Hb. unfold fltb, SFltb.
  destruct a as [s|s| |s m e], b as [s'|s'| |s' m' e']; try done;
    try destruct s; try destruct s'; simpl; float_cases; simpl;
    split; intros; try done; try lia.
Qed.

Lemma fltb_trans a b c : fltb a b = true → fltb b c = true → fltb a c = true.
Proof.
  intros H1 H2. destruct (fltb_not_nan _ _ H1), (fltb_not_nan _ _ H2).
  apply fltb_rank; [done..|]. apply fltb_rank in H1, H2; [|done..].
  destruct (rank a) as [[??]?], (rank b) as [[??]?], (rank c) as [[??]?].
  simpl in *. lia.
Qed.

Lemma fleb_fltb_false a b :
  isnan a = false → isnan b = false → (fleb a b = true ↔ fltb b a = false).
Proof.
  intros Ha Hb. split; [|by apply fltb_false_fleb].
  intros H. destruct (fltb b a) eqn:E; [|done].
  apply fltb_asym in E. congruence.
Qed.

Lemma fleb_trans a b c : fleb a b = true → fleb b c = true → fleb a c = true.
Proof.
  intros H1 H2. destruct (fleb_not_nan _ _ H1), (fleb_not_nan _ _ H2).
  apply fleb_fltb_false in H1, H2; [|done..]. apply fleb_fltb_false; [done..|].
  destruct (fltb c a) eqn:E; [|done]. exfalso.
  apply (fltb_rank c a) in E; [|done..].
  assert (¬ rank_lt (rank b) (rank a)) by (rewrite <- fltb_rank by done; congruence).
  assert (¬ rank_lt (rank c) (rank b)) by (rewrite <- fltb_rank by done; congruence).
  destruct (rank a) as [[??]?], (rank b) as [[??]?], (rank c) as [[??]?].
  simpl in *. lia.
Qed.

(** [fltb a b] together with [fleb b c] (or the other way round). *)
Lemma fltb_fleb_trans a b c : fltb a b = true → fleb b c = true → fltb a c = true.
Proof.
  intros H1 H2. destruct (fltb_not_nan _ _ H1), (fleb_not_nan _ _ H2).
  destruct (fltb a c) eqn:E; [done|].
  apply fltb_false_fleb in E; [|done..].
  pose proof (fleb_trans _ _ _ H2 E). apply fltb_asym in H1. congruence.
Qed.

Lemma fmin_le_r a b : isnan a = false → isnan b = false → fleb (fmin a b) b = true.
Proof.
  intros. unfold fmin. destruct (fltb b a) eqn:E; [by apply fleb_refl|].
  by apply fltb_false_fleb.
Qed.

Lemma fmin_not_nan a b : isnan a = false → isnan b = false → isnan (fmin a b) = false.
Proof. unfold fmin. by case_match. Qed.

Lemma fmax_ge_l a b : isnan a = false → fleb a (fmax a b) = true.
Proof.
  intros. unfold fmax. destruct (fltb a b) eqn:E; [by apply fltb_fleb|].
  by apply fleb_refl.
Qed.

Lemma fmax_le a b c : fleb a c = true → fleb b c = true → fleb (fmax a b) c = true.
Proof. unfold fmax. by case_match. Qed.

(** [std::max(0.f, std::min(1.f, p))] is a probability, for every number [p]. *)
Lemma clamp01 p : isnan p = false →
  let q := fmax f32_0 (fmin f32_1 p) in
  fleb f32_0 q = true ∧ fleb q f32_1 = true.
Proof.
  intros Hp. simpl. split; [by apply fmax_ge_l|]. apply fmax_le; [done|].
  unfold fmin. destruct (fltb p f32_1) eqn:E; [by apply fltb_fleb|done].
Qed.

#[export] Hint Resolve fltb_fleb fleb_refl fmax_ge_l : cpp.

(** ** Integers are finite doubles *)

Lemma digits_shift p n : Z.pos (digits2_pos (shift_pos n p)) = Z.pos (digits2_pos p) + Z.pos n.
Proof.
  unfold shift_pos. induction n as [|n IH] using Pos.peano_ind; simpl; [lia|].
  rewrite Pos.iter_succ. cbn [digits2_pos]. lia.
Qed.

Lemma digits_bound p k : 0 ≤ k → Z.pos p < 2 ^ k → Z.pos (digits2_pos p) ≤ k.
Proof.
  revert k. induction p as [p IH|p IH|]; intros k Hk H; cbn [digits2_pos].
  - destruct (decide (k = 0)) as [->|]; [simpl in H; lia|]. replace k with (Z.succ (k - 1)) in H by lia.
    rewrite Z.pow_succ_r in H by lia. specialize (IH (k - 1) ltac:(lia) ltac:(lia)). lia.
  - destruct (decide (k = 0)) as [->|]; [simpl in H; lia|]. replace k with (Z.succ (k - 1)) in H by lia.
    rewrite Z.pow_succ_r in H by lia. specialize (IH (k - 1) ltac:(lia) ltac:(lia)). lia.
  - destruct (decide (k = 0)) as [->|]; [simpl in H; lia|]. lia.
Qed.

Lemma round_small s p : Z.pos p < 2 ^ 53 → ∃ m e, binary_round 53 1024 s p 0 = S754_finite s m e.
Proof.
  intros H. apply digits_bound in H; [|lia]. unfold binary_round, shl_align.
  set (d := Z.pos (digits2_pos p)) in *.
  assert (fexp 53 1024 (d + 0) = d - 53) as -> by (unfold fexp, emin; lia).
  rewrite Z.sub_0_r.
  assert (∀ q e, Z.pos (digits2_pos q) + e = d → e = d - 53 →
    binary_round_aux 53 1024 s (Z.pos q) e loc_Exact = S754_finite s q (d - 53)) as Hq.
  { intros q e Hd He. unfold binary_round_aux, shr_fexp. cbn [Zdigits2].
    assert (fexp 53 1024 (Z.pos (digits2_pos q) + e) - e = 0) as E0 by (unfold fexp, emin; lia).
    rewrite E0. cbn. rewrite E0. cbn. rewrite (proj2 (Z.leb_le _ _)) by lia. by subst e. }
  destruct (d - 53) as [|k|k] eqn:Ek; [|lia|].
  - eexists _, _. apply (Hq p); lia.
  - eexists _, _. apply (Hq (shift_pos k p)); [|done]. rewrite digits_shift. lia.
Qed.

Lemma f64_of_Z_finite z : Z.abs z < 2 ^ 53 → feqb (f64_of_Z z) (S754_infinity false) = false.
Proof.
  intros H. destruct z as [|p|p]; [done|..]; simpl in H; unfold f64_of_Z, binary_normalize;
    [destruct (round_small false p H) as (m & e & ->)|destruct (round_small true p H) as (m & e & ->)]; done.
Qed.
