(* ===== verification/Geometry.v ===== *)
(** * Positions and rectangles ([src/basetypes.h])

    [Vec2T<int>] ([Position]) and [Rect2T<int>] ([Rect]) with the operations
    the bot uses.  Coordinates are integers: the statements hold of the code
    as long as no signed sum leaves the range of [int]. *)

From S2P Require Import Prelude Floats.

Module Vec2.

(** [src/src/basetypes.h:40-54] Vec2T *)
Record t := Pos { x : Z; y : Z }.

#[export] Instance t_eq_dec : EqDecision t.
Proof. solve_decision. Defined.

(** [src/src/basetypes.h:46-46] Vec2T::Vec2T *)
Definition origin : t := Pos 0 0.
(** [src/src/basetypes.h:179-179] kInvalidPosition *)
Definition kInvalidPosition : t := Pos (-1) (-1).

(** [src/src/basetypes.h:62-64] Vec2T::operator== *)
Definition eqb (a b : t) : bool := (x a =? x b) && (y a =? y b).
(** [src/src/basetypes.h:65-67] Vec2T::operator!= *)
Definition neqb (a b : t) : bool := negb (x a =? x b) || negb (y a =? y b).
(** [src/src/basetypes.h:68-71] Vec2T::operator< *)
Definition ltb (a b : t) : bool := (x a <? x b) || ((x a =? x b) && (y a <? y b)).
(** [src/src/basetypes.h:79-81] Vec2T::operator* *)
Definition scale (a : t) (s : Z) : t := Pos (x a * s) (y a * s).
(** [src/src/basetypes.h:111-115] Vec2T::operator+= *)
Definition add (a b : t) : t := Pos (x a + x b) (y a + y b).
(** [src/src/basetypes.h:106-110] Vec2T::operator/= *)
Definition div (a : t) (s : Z) : t := Pos (Z.quot (x a) s) (Z.quot (y a) s).

(** [src/src/basetypes.h:129-131] Vec2T::length *)
Definition length (a : t) : float64 := f64_sqrt (f64_of_Z (x a * x a + y a * y a)).
(** [src/src/basetypes.h:122-124] Vec2T::distanceTo *)
Definition distanceTo (a b : t) : float64 := length (Pos (x b - x a) (y b - y a)).

Lemma eqb_eq a b : eqb a b = true ↔ a = b.
Proof.
  destruct a, b. unfold eqb; simpl. rewrite andb_true_iff, !Z.eqb_eq.
  split; [intros [-> ->]; done|intros [= -> ->]; done].
Qed.

Lemma neqb_negb a b : neqb a b = negb (eqb a b).
Proof. unfold neqb, eqb. by rewrite negb_andb. Qed.

(** The key order of [std::map<Position, ...>] is a strict total order. *)
Lemma ltb_trichotomy a b :
  {ltb a b = true} + {a = b} + {ltb b a = true}.
Proof.
  destruct a as [ax ay], b as [bx by_]. unfold ltb; simpl.
  destruct (Ztrichotomy_inf ax bx) as [[H|H]|H].
  - left; left. apply orb_true_iff; left. lia.
  - subst. destruct (Ztrichotomy_inf ay by_) as [[H|H]|H].
    + left; left. rewrite Z.eqb_refl. apply orb_true_iff; right. simpl. lia.
    + subst. left; right. done.
    + right. rewrite Z.eqb_refl. apply orb_true_iff; right. simpl. lia.
  - right. apply orb_true_iff; left. lia.
Defined.

Lemma ltb_trans a b c : ltb a b = true → ltb b c = true → ltb a c = true.
Proof. unfold ltb. rewrite !orb_true_iff, !andb_true_iff. lia. Qed.

Lemma ltb_irrefl a : ltb a a = false.
Proof. unfold ltb. by rewrite !Z.ltb_irrefl, andb_false_r. Qed.

End Vec2.
Abbreviation Position := Vec2.t.

Module Rect.

(** [src/src/basetypes.h:181-190] Rect2T *)
Record t := Rect { x : Z; y : Z; w : Z; h : Z }.

(** [src/src/basetypes.h:189-189] Rect2T::Rect2T *)
Definition null_rect : t := Rect 0 0 0 0.
(** [src/src/basetypes.h:191-195] Rect2T::Rect2T *)
Definition of_corners (topLeft bottomRight : Position) : t :=
  Rect (Vec2.x topLeft) (Vec2.y topLeft)
       (Vec2.x bottomRight - Vec2.x topLeft) (Vec2.y bottomRight - Vec2.y topLeft).

(** [src/src/basetypes.h:208-210] Rect2T::operator== *)
Definition eqb (a r : t) : bool :=
  (x a =? x r) && (y a =? y r) && (w a =? w r) && (h a =? w r).

(** [src/src/basetypes.h:212-214] Rect2T::left *)
Definition left (a : t) : Z := x a.
(** [src/src/basetypes.h:215-217] Rect2T::right *)
Definition right (a : t) : Z := x a + w a.
(** [src/src/basetypes.h:218-220] Rect2T::top *)
Definition top (a : t) : Z := y a.
(** [src/src/basetypes.h:221-223] Rect2T::bottom *)
Definition bottom (a : t) : Z := y a + h a.

(** [src/src/basetypes.h:231-233] Rect2T::center *)
Definition center (a : t) : Position :=
  Vec2.Pos (x a + Z.quot (w a) 2) (y a + Z.quot (h a) 2).
(** [src/src/basetypes.h:234-241] Rect2T::centeredWithSize *)
Definition centeredWithSize (c : Position) (width height : Z) : t :=
  Rect (Vec2.x c - Z.quot width 2) (Vec2.y c - Z.quot height 2) width height.

(** [src/src/basetypes.h:243-245] Rect2T::null *)
Definition null (a : t) : bool := (w a =? 0) && (h a =? 0).
(** [src/src/basetypes.h:246-248] Rect2T::empty *)
Definition empty (a : t) : bool := (w a <=? 0) && (h a <=? 0).

(** [src/src/basetypes.h:250-264] Rect2T::united *)
Definition united (a r : t) : t :=
  if empty a then r else
  if empty r then a else
  let tx := Z.min (x a) (x r) in
  let ty := Z.min (y a) (y r) in
  Rect tx ty (Z.max (x a + w a) (x r + w r) - tx) (Z.max (y a + h a) (y r + h r) - ty).

(** [src/src/basetypes.h:266-297] Rect2T::intersected *)
Definition intersected (a r : t) : t :=
  if empty a || empty r then null_rect else
  let left1 := x a in
  let right1 := x a + w a in
  let left2 := x r in
  let right2 := x r + w r in
  if (right2 <=? left1) || (right1 <=? left2) then null_rect else
  let top1 := y a in
  let bottom1 := y a + h a in
  let top2 := y r in
  let bottom2 := y r + h r in
  if (bottom2 <=? top1) || (bottom1 <=? top2) then null_rect else
  let tx := Z.max left1 left2 in
  let ty := Z.max top1 top2 in
  Rect tx ty (Z.min right1 right2 - tx) (Z.min bottom1 bottom2 - ty).

(** [src/src/basetypes.h:299-301] Rect2T::contains *)
Definition contains (a : t) (pt : Position) : bool :=
  (left a <=? Vec2.x pt) && (Vec2.x pt <? right a) &&
  (top a <=? Vec2.y pt) && (Vec2.y pt <? bottom a).

(** ** Rectangles as sets of points *)

Lemma contains_spec a pt :
  contains a pt = true ↔
  x a ≤ Vec2.x pt < x a + w a ∧ y a ≤ Vec2.y pt < y a + h a.
Proof.
  unfold contains, left, right, top, bottom.
  rewrite !andb_true_iff, !Z.leb_le, !Z.ltb_lt. tauto.
Qed.

Lemma contains_empty a pt : empty a = true → contains a pt = false.
Proof.
  intros He. apply not_true_iff_false. rewrite contains_spec.
  unfold empty in He. rewrite andb_true_iff, !Z.leb_le in He. lia.
Qed.

(** The points of [intersected] are exactly the points of both rectangles. *)
Theorem intersected_contains a r pt :
  contains (intersected a r) pt = contains a pt && contains r pt.
Proof.
  apply eq_true_iff_eq. rewrite andb_true_iff, !contains_spec.
  unfold intersected, empty.
  repeat match goal with |- context [?a <=? ?b] => destruct (Z.leb_spec a b) end;
    simpl; lia.
Qed.

(** [united] covers both rectangles, and any rectangle that contains the
    corner points of two non-degenerate rectangles contains their union:
    it is the bounding box. *)
Theorem united_bounding_box a r :
  (∀ pt, contains a pt || contains r pt = true → contains (united a r) pt = true) ∧
  (0 < w a → 0 < h a → 0 < w r → 0 < h r →
   ∀ c, (∀ pt, contains a pt || contains r pt = true → contains c pt = true) →
   ∀ pt, contains (united a r) pt = true → contains c pt = true).
Proof.
  split.
  - intros pt. rewrite orb_true_iff, !contains_spec. unfold united, empty.
    repeat match goal with |- context [?a <=? ?b] => destruct (Z.leb_spec a b) end;
      simpl; lia.
  - intros Hwa Hha Hwr Hhr c Hc pt.
    assert (∀ q, contains a q = true → contains c q = true) as Ha
      by (intros q Hq; apply Hc; by rewrite Hq).
    assert (∀ q, contains r q = true → contains c q = true) as Hr
      by (intros q Hq; apply Hc; rewrite Hq; apply orb_true_r).
    clear Hc. setoid_rewrite contains_spec in Ha.
    setoid_rewrite contains_spec in Hr. rewrite !contains_spec.
    pose proof (Ha (Vec2.Pos (x a) (y a))) as H1; simpl in H1.
    pose proof (Ha (Vec2.Pos (x a + w a - 1) (y a + h a - 1))) as H2; simpl in H2.
    pose proof (Hr (Vec2.Pos (x r) (y r))) as H3; simpl in H3.
    pose proof (Hr (Vec2.Pos (x r + w r - 1) (y r + h r - 1))) as H4; simpl in H4.
    unfold united, empty.
    repeat match goal with |- context [?a <=? ?b] => destruct (Z.leb_spec a b) end;
      simpl; lia.
Qed.

(** [Rect2T::operator==] compares the height with the other rectangle's
    width: a rectangle equals itself only when it is a square. *)
Theorem eqb_refl_iff_square a : eqb a a = true ↔ h a = w a.
Proof. unfold eqb. rewrite !Z.eqb_refl; simpl. apply Z.eqb_eq. Qed.

End Rect.
