(* ===== verification/CircularBuffer.v ===== *)
(** * The ring buffer ([common/circularbuffer.h])

    [CircularBuffer<T>] as a record of its four members, and the refinement
    to the abstract history of pushed values, most recent first. *)

From S2P Require Import Prelude.

Module CircularBuffer.
Section circular.
Context {T : Type} (T0 : T).

(** [src/common/circularbuffer.h:66-75] CircularBuffer *)
Record t := Buf { buf_ : list T; pos_ : Z; size_ : Z; max_ : Z }.

(** [src/common/circularbuffer.h:22-24] CircularBuffer::CircularBuffer *)
Definition make (capacity : nat) : t :=
  Buf (replicate capacity T0) (-1) 0 (Z.of_nat capacity).

(** The element type's [buf_[i] = v]. *)
Definition store (b : list T) (i : Z) (v : T) : res (list T) :=
  if (0 <=? i) && (i <? Z.of_nat (length b)) then Ok (<[Z.to_nat i := v]> b) else Undefined.
Definition load (b : list T) (i : Z) : res T :=
  if (0 <=? i) && (i <? Z.of_nat (length b)) then of_option (b !! Z.to_nat i) else Undefined.

(** [src/common/circularbuffer.h:34-38] CircularBuffer::push *)
Definition push (b : t) (value : T) : res t :=
  if max_ b =? 0 then Undefined else
  let pos := Z.rem (pos_ b + 1) (max_ b) in
  let? buf := store (buf_ b) pos value in
  Ok (Buf buf pos (Z.min (size_ b + 1) (max_ b)) (max_ b)).

(** [src/common/circularbuffer.h:29-33] CircularBuffer::push *)
Definition push_default (b : t) : res t := push b T0.

(** [src/common/circularbuffer.h:45-47] CircularBuffer::size *)
Definition size (b : t) : Z := size_ b.

(** The loop [while (pos < 0) pos = max_ + pos]. *)
Fixpoint at_loop (fuel : nat) (max pos : Z) : res Z :=
  if pos <? 0 then
    match fuel with O => OutOfFuel | S fuel => at_loop fuel max (max + pos) end
  else Ok pos.

(** [src/common/circularbuffer.h:52-55] CircularBuffer::at *)
Definition index (b : t) (pos : Z) : res Z :=
  if max_ b =? 0 then Undefined else at_loop 1 (max_ b) (Z.rem (pos + pos_ b) (max_ b)).

(** [src/common/circularbuffer.h:49-57] CircularBuffer::at *)
Definition at_ (b : t) (pos : Z) : res T :=
  let? i := index b pos in load (buf_ b) i.

(** [src/common/circularbuffer.h:58-64] CircularBuffer::at *)
Definition at_modify (b : t) (pos : Z) (f : T → T) : res t :=
  let? i := index b pos in
  let? v := load (buf_ b) i in
  let? buf := store (buf_ b) i (f v) in
  Ok (Buf buf (pos_ b) (size_ b) (max_ b)).

(** ** Invariant and abstraction *)

Definition wf (b : t) : Prop :=
  0 < max_ b ∧ Z.of_nat (length (buf_ b)) = max_ b ∧
  -1 ≤ pos_ b < max_ b ∧ 0 ≤ size_ b ≤ max_ b ∧ (pos_ b = -1 → size_ b = 0).

(** [h] lists the values pushed so far, the most recent first. *)
Definition models (b : t) (h : list T) : Prop :=
  wf b ∧ size_ b = Z.min (Z.of_nat (length h)) (max_ b) ∧
  (h ≠ [] → pos_ b ≠ -1) ∧
  ∀ i : nat, Z.of_nat i < size_ b → ∃ v, h !! i = Some v ∧ at_ b (- Z.of_nat i) = Ok v.

Lemma at_loop_one max pos : 0 < max → - max < pos < max → at_loop 1 max pos = Ok (pos mod max).
Proof.
  intros. simpl. destruct (Z.ltb_spec pos 0).
  - replace (max + pos <? 0) with false by lia.
    by rewrite <- (Z.mod_small (max + pos) max), Z.add_comm, <- (Z.mul_1_l max) at 1
      by lia; rewrite Z_mod_plus_full.
  - by rewrite Z.mod_small by lia.
Qed.

(** The index computed by [at] is the mathematical residue: one round of the
    loop is always enough and the index is in range. *)
Lemma index_spec b pos : wf b → index b pos = Ok ((pos + pos_ b) mod max_ b).
Proof.
  intros (Hm & _). unfold index. destruct (Z.eqb_spec (max_ b) 0); [lia|].
  pose proof (Z.rem_bound_abs (pos + pos_ b) (max_ b)).
  rewrite at_loop_one by lia. f_equal.
  set (q := Z.quot (pos + pos_ b) (max_ b)).
  replace (Z.rem (pos + pos_ b) (max_ b)) with (pos + pos_ b + (- q) * max_ b).
  - apply Z_mod_plus_full.
  - pose proof (Z.quot_rem' (pos + pos_ b) (max_ b)). unfold q. lia.
Qed.

Lemma load_in_range b i : 0 ≤ i < Z.of_nat (length b) → ∃ v, load b i = Ok v ∧ b !! Z.to_nat i = Some v.
Proof.
  intros. unfold load. replace ((0 <=? i) && (i <? Z.of_nat (length b))) with true by lia.
  destruct (lookup_lt_is_Some_2 b (Z.to_nat i)) as [v Hv]; [lia|].
  rewrite Hv. simpl. eauto.
Qed.

Lemma store_in_range b i v : 0 ≤ i < Z.of_nat (length b) → store b i v = Ok (<[Z.to_nat i := v]> b).
Proof.
  intros. unfold store. by replace ((0 <=? i) && (i <? Z.of_nat (length b))) with true by lia.
Qed.

Lemma make_models n : (0 < n)%nat → models (make n) [].
Proof.
  intros. unfold models, wf, make; simpl. rewrite length_replicate.
  repeat split; try lia; try done.
Qed.

Lemma push_eq b v : wf b →
  push b v = Ok (Buf (<[Z.to_nat ((pos_ b + 1) mod max_ b) := v]> (buf_ b))
                     ((pos_ b + 1) mod max_ b) (Z.min (size_ b + 1) (max_ b)) (max_ b)).
Proof.
  intros (Hm & Hl & Hp & Hs & _). unfold push. destruct (Z.eqb_spec (max_ b) 0); [lia|].
  rewrite Z.rem_mod_nonneg by lia.
  pose proof (Z.mod_pos_bound (pos_ b + 1) (max_ b) Hm).
  by rewrite store_in_range by lia.
Qed.

(** Reading any offset of a non-degenerate buffer is defined: [at] never
    leaves the array, for past and future offsets and on an empty buffer. *)
Theorem at_total b pos : wf b → ∃ v, at_ b pos = Ok v.
Proof.
  intros Hwf. unfold at_. rewrite index_spec by done. simpl.
  destruct Hwf as (Hm & Hl & _). pose proof (Z.mod_pos_bound (pos + pos_ b) (max_ b) Hm).
  destruct (load_in_range (buf_ b) ((pos + pos_ b) mod max_ b)) as (v & -> & _); [lia|eauto].
Qed.

Lemma at_lookup b pos : wf b →
  at_ b pos = of_option (buf_ b !! Z.to_nat ((pos + pos_ b) mod max_ b)).
Proof.
  intros Hwf. unfold at_. rewrite index_spec by done. simpl.
  destruct Hwf as (Hm & Hl & _). pose proof (Z.mod_pos_bound (pos + pos_ b) (max_ b) Hm).
  destruct (load_in_range (buf_ b) ((pos + pos_ b) mod max_ b)) as (v & -> & ->); [lia|done].
Qed.

Lemma push_wf b v b' : wf b → push b v = Ok b' → wf b' ∧ pos_ b' ≠ -1.
Proof.
  intros Hwf. rewrite push_eq by done. intros [= <-].
  destruct Hwf as (Hm & Hl & Hp & Hs & _).
  pose proof (Z.mod_pos_bound (pos_ b + 1) (max_ b) Hm).
  unfold wf; simpl. rewrite length_insert. lia.
Qed.

(** The ring buffer refines a bounded history: a push makes the pushed value
    the one read by [at(0)] and shifts every older value that is still held
    to the next offset. *)
Theorem push_models b h v : models b h → ∃ b', push b v = Ok b' ∧ models b' (v :: h).
Proof.
  intros (Hwf & Hsize & Hne & Hat). eexists. split; [by apply push_eq|].
  destruct (push_wf b v _ Hwf (push_eq b v Hwf)) as [Hwf' Hp'].
  split; [done|]. split; [simpl; lia|]. split; [done|].
  intros i Hi. rewrite at_lookup by done. simpl in *.
  destruct Hwf as (Hm & Hl & Hp & Hs & H0).
  pose proof (Z.mod_pos_bound (pos_ b + 1) (max_ b) Hm).
  set (p := (pos_ b + 1) mod max_ b) in *.
  destruct i as [|i].
  - exists v. split; [done|]. simpl. rewrite (Z.mod_small p) by lia.
    rewrite list_lookup_insert_eq by lia. done.
  - destruct (Hat i) as (u & Hu & Hrd); [lia|]. exists u. split; [done|].
    rewrite at_lookup in Hrd by (unfold wf; lia).
    assert ((- Z.of_nat (S i) + p) mod max_ b = (- Z.of_nat i + pos_ b) mod max_ b) as ->.
    { unfold p. rewrite Z.add_mod_idemp_r by lia. f_equal. lia. }
    rewrite list_lookup_insert_ne; [done|].
    intros E. apply Z2Nat.inj in E; [|lia|apply Z.mod_pos_bound; lia].
    unfold p in E. assert ((- Z.of_nat i + pos_ b) = (pos_ b + 1) + (- (Z.of_nat i + 1))) as Heq by lia.
    rewrite Heq in E. clear Heq.
    assert ((pos_ b + 1 + - (Z.of_nat i + 1) - (pos_ b + 1)) mod max_ b = 0) as E'.
    { rewrite Zminus_mod, <- E, Z.sub_diag. apply Z.mod_0_l. lia. }
    replace (pos_ b + 1 + - (Z.of_nat i + 1) - (pos_ b + 1)) with (- (Z.of_nat i + 1)) in E' by lia.
    apply Z_mod_zero_opp_full in E'. rewrite Z.opp_involutive in E'.
    rewrite Z.mod_small in E' by lia. lia.
Qed.

Lemma at_modify_wf b pos f b' : wf b → at_modify b pos f = Ok b' → wf b'.
Proof.
  intros Hwf. unfold at_modify. rewrite index_spec by done. simpl.
  destruct Hwf as (Hm & Hl & ?). pose proof (Z.mod_pos_bound (pos + pos_ b) (max_ b) Hm).
  destruct (load_in_range (buf_ b) ((pos + pos_ b) mod max_ b)) as (v & -> & _); [lia|].
  simpl. rewrite store_in_range by lia. intros [= <-]. unfold wf; simpl.
  by rewrite length_insert.
Qed.

Lemma at_modify_total b pos f : wf b → ∃ b', at_modify b pos f = Ok b'.
Proof.
  intros Hwf. unfold at_modify. rewrite index_spec by done. simpl.
  destruct Hwf as (Hm & Hl & ?). pose proof (Z.mod_pos_bound (pos + pos_ b) (max_ b) Hm).
  destruct (load_in_range (buf_ b) ((pos + pos_ b) mod max_ b)) as (v & -> & _); [lia|].
  simpl. rewrite store_in_range by lia. simpl. eauto.
Qed.

(** Changing the current value changes no other offset that is in range. *)
Lemma at_modify_spec b f b' : wf b → 0 < size_ b → at_modify b 0 f = Ok b' →
  ∃ v, at_ b 0 = Ok v ∧ at_ b' 0 = Ok (f v) ∧ size_ b' = size_ b ∧
    ∀ k, 0 < k < size_ b → at_ b' (- k) = at_ b (- k).
Proof.
  intros Hwf Hsz Hm. pose proof (at_modify_wf _ _ _ _ Hwf Hm) as Hwf'. revert Hm.
  unfold at_modify. rewrite index_spec, Z.add_0_l by done. cbn [rbind].
  destruct Hwf as (Hmx & Hl & Hp & Hs & H0) eqn:EH. clear EH.
  pose proof (Z.mod_pos_bound (pos_ b) (max_ b) Hmx).
  destruct (load_in_range (buf_ b) (pos_ b mod max_ b)) as (v & -> & Hv); [lia|].
  simpl. rewrite store_in_range by lia. simpl. intros [= <-]. exists v.
  rewrite !at_lookup by done. rewrite !Z.add_0_l. simpl. rewrite Hv. split_and!; [done| |done|].
  - by rewrite list_lookup_insert_eq by lia.
  - intros k Hk. rewrite !at_lookup by done. simpl. rewrite list_lookup_insert_ne; [done|].
    rewrite (Z.mod_small (pos_ b)) by lia. intros E.
    apply Z2Nat.inj in E; [|lia|apply Z.mod_pos_bound; lia].
    destruct (Z.leb_spec 0 (- k + pos_ b)).
    + rewrite Z.mod_small in E by lia. lia.
    + rewrite <-(Z_mod_plus_full _ 1), Z.mod_small in E by lia. lia.
Qed.

(** A push moves the value at offset [-k] to offset [-(k+1)]. *)
Lemma push_shift b v : wf b →
  ∃ b', push b v = Ok b' ∧ wf b' ∧ size_ b' = Z.min (size_ b + 1) (max_ b) ∧ at_ b' 0 = Ok v ∧
    ∀ k, 0 ≤ k < size_ b → k + 1 < max_ b → at_ b' (- (k + 1)) = at_ b (- k).
Proof.
  intros Hwf. eexists. split; [by apply push_eq|].
  destruct (push_wf b v _ Hwf (push_eq b v Hwf)) as [Hwf' _]. split; [done|]. split; [done|].
  pose proof Hwf as (Hm & Hl & Hp & Hs & H0).
  pose proof (Z.mod_pos_bound (pos_ b + 1) (max_ b) Hm). split.
  - rewrite at_lookup, Z.add_0_l by done. simpl. rewrite Z.mod_mod by lia.
    by rewrite list_lookup_insert_eq by lia.
  - intros k Hk Hk'. rewrite !at_lookup by done. simpl.
    assert ((- (k + 1) + (pos_ b + 1) mod max_ b) mod max_ b = (- k + pos_ b) mod max_ b) as ->.
    { rewrite Z.add_mod_idemp_r by lia. f_equal. lia. }
    rewrite list_lookup_insert_ne; [done|]. intros E.
    apply Z2Nat.inj in E; [|lia|apply Z.mod_pos_bound; lia].
    assert (((pos_ b + 1) - (- k + pos_ b)) mod max_ b = 0) as E'.
    { rewrite Zminus_mod, E, Z.sub_diag. apply Z.mod_0_l. lia. }
    replace (pos_ b + 1 - (- k + pos_ b)) with (k + 1) in E' by lia.
    rewrite Z.mod_small in E' by lia. lia.
Qed.

End circular.
Arguments t : clear implicits.

Lemma push_models_witness :
  ∃ b', push (make 0 2) 7 = Ok b' ∧ models b' [7].
Proof. apply (push_models (make 0 2) [] 7). apply make_models. lia. Defined.
End CircularBuffer.
