(* ===== verification/Str.v ===== *)
(** * String utilities ([common/str.h], [common/str.cpp], [common/checksum.cpp])

    Strings are lists of [ascii].  A pattern is read the way the code reads a
    NUL-terminated buffer: past its last character there is a NUL, which is
    none of the special characters. *)

From S2P Require Import Prelude.
From Stdlib Require Import Ascii.

Abbreviation str := (list ascii).

Module Str.

(** [(int)c] for a signed [char]. *)
Definition code (c : ascii) : Z :=
  let n := Z.of_nat (nat_of_ascii c) in if n <? 128 then n else n - 256.

(** [tolower] in the C locale. *)
Definition tolower (c : ascii) : ascii :=
  let n := nat_of_ascii c in
  if (65 <=? n)%nat && (n <=? 90)%nat then ascii_of_nat (n + 32) else c.

Definition ceq (a b : ascii) : bool := Ascii.eqb a b.

(** [src/common/str.cpp:116-122] stringmatchlen *)
Definition char_match (nocase : bool) (p c : ascii) : bool :=
  if nocase then ceq (tolower p) (tolower c) else ceq p c.

(** [src/common/str.cpp:74-91] stringmatchlen *)
Definition range_match (nocase : bool) (a b c : ascii) : bool :=
  let '(start, end_) := if code b <? code a then (b, a) else (a, b) in
  let lower x := if nocase then tolower x else x in
  (code (lower start) <=? code (lower c)) && (code (lower c) <=? code (lower end_)).

(** The body of a bracket expression, from the first character after the
    optional negation: whether the subject character matches, and the pattern
    after the closing bracket (or its end when the bracket is not closed).

    [src/common/str.cpp:61-102] stringmatchlen *)
Fixpoint class_loop (fuel : nat) (nocase : bool) (p : str) (c : ascii) (m : bool)
  : bool * str :=
  match fuel with
  | O => (m, p)
  | S fuel =>
    match p with
    | [] => (m, [])
    | a :: r =>
        if ceq a "\" && (2 <=? length p)%nat then
          match r with
          | d :: r => class_loop fuel nocase r c (m || ceq d c)
          | [] => (m, [])
          end
        else if ceq a "]" then (m, r)
        else
          match r with
          | d :: b :: r' =>
              if ceq d "-" then class_loop fuel nocase r' c (m || range_match nocase a b c)
              else class_loop fuel nocase r c (m || char_match nocase a c)
          | _ => class_loop fuel nocase r c (m || char_match nocase a c)
          end
    end
  end.

(** [src/common/str.cpp:49-107] stringmatchlen *)
Definition class_match (nocase : bool) (p : str) (c : ascii) : bool * str :=
  if bool_decide (head p = Some "^"%char) then
    let '(m, r) := class_loop (length (tail p)) nocase (tail p) c false in (negb m, r)
  else class_loop (length p) nocase p c false.

(** [src/common/str.cpp:131-134] stringmatchlen *)
Fixpoint skip_stars (p : str) : str :=
  match p with
  | a :: q => if ceq a "*" then skip_stars q else p
  | [] => []
  end.

(** One round of the outer loop that consumes the character [c] of the
    subject: [None] when it does not match, else the rest of the pattern.

    [src/common/str.cpp:43-127] stringmatchlen *)
Definition step (nocase : bool) (p : str) (c : ascii) : option str :=
  match p with
  | [] => None
  | a :: q =>
      if ceq a "?" then Some q
      else if ceq a "[" then
        let '(m, r) := class_match nocase q c in if m then Some r else None
      else
        match q with
        | d :: q' =>
            if ceq a "\" then (if char_match nocase d c then Some q' else None)
            else if char_match nocase a c then Some q else None
        | [] => if char_match nocase a c then Some q else None
        end
  end.

(** The search for a suffix of the subject that matches what follows a star.

    [src/common/str.cpp:34-41] stringmatchlen *)
Fixpoint star_loop (rec : str → option bool) (s : str) : option bool :=
  match s with
  | [] => Some false
  | _ :: s' =>
      match rec s with
      | Some true => Some true
      | Some false => star_loop rec s'
      | None => None
      end
  end.

(** [src/common/str.cpp:15-141] stringmatchlen *)
Fixpoint stringmatchlen (fuel : nat) (nocase : bool) (p s : str) : option bool :=
  match fuel with
  | O => None
  | S fuel =>
    match p, s with
    | [], _ | _, [] => Some (bool_decide (p = []) && bool_decide (s = []))
    | a :: q, c :: s' =>
        if ceq a "*" then
          let q := skip_stars q in
          if bool_decide (q = []) then Some true else
          star_loop (stringmatchlen fuel nocase q) s
        else
          match step nocase p c with
          | None => Some false
          | Some p' =>
              if bool_decide (s' = []) then Some (bool_decide (skip_stars p' = []))
              else stringmatchlen fuel nocase p' s'
          end
    end
  end.

(** [src/common/str.cpp:201-204] gmatch *)
Definition gmatch (s pattern : str) : option bool :=
  stringmatchlen (S (length pattern)) false pattern s.
(** [src/common/str.cpp:206-209] gmatchi *)
Definition gmatchi (s pattern : str) : option bool :=
  stringmatchlen (S (length pattern)) true pattern s.

(** The loop of [stringSplit]: [b] is the current part (from [bptr] to [eptr]),
    [s] what is left, [n] the number of parts already in the result.

    [src/common/str.cpp:161-174] stringSplit *)
Fixpoint split_loop (sep : ascii) (max : Z) (n : Z) (b s : str) : list str :=
  match s with
  | [] => [b]
  | c :: s' =>
      if ceq c sep then
        if (n + 1 =? max) && bool_decide (s' ≠ []) then [b; s']
        else b :: split_loop sep max (n + 1) [] s'
      else split_loop sep max n (b ++ [c]) s'
  end.

(** [max] is a [size_t]; its default [-1] is [2^64 - 1].

    [src/common/str.cpp:144-176] stringSplit *)
Definition stringSplit (s : str) (sep : ascii) (max : Z) : list str :=
  if max =? 0 then [s] else split_loop sep max 0 [] s.

Definition default_max : Z := 2 ^ 64 - 1.

(** [src/common/str.h:60-70] joinVector *)
Fixpoint joinVector (v : list str) (sep : ascii) : str :=
  match v with
  | [] => []
  | [x] => x
  | x :: v => x ++ sep :: joinVector v sep
  end.

(** [src/common/str.cpp:187-192] startsWith *)
Definition startsWith (s prefix : str) : bool :=
  if (length s <? length prefix)%nat then false
  else bool_decide (take (length prefix) s = prefix).

(** [src/common/str.cpp:194-199] endsWith *)
Definition endsWith (s suffix : str) : bool :=
  if (length s <? length suffix)%nat then false
  else bool_decide (take (length suffix) (drop (length s - length suffix) s) = suffix).

(** [src/common/str.h:52-58] stringToLower *)
Definition stringToLower (s : str) : str := map tolower s.

Definition alphabet : str := String.list_ascii_of_string "0123456789abcdef".

(** [src/common/checksum.cpp:15-24] toHex *)
Definition toHex (digest : list Z) : str :=
  concat (map (λ b, [nth (Z.to_nat (Z.shiftr b 4)) alphabet "0"%char;
                     nth (Z.to_nat (Z.land b 15)) alphabet "0"%char]) digest).

(** ** What a glob pattern means *)

(** The declarative reading of a pattern: a star stands for any text, a
    question mark for any character, a bracket expression for a character it
    lists, a backslash for the character after it. *)
Inductive Glob (nocase : bool) : str → str → Prop :=
| Glob_end : Glob nocase [] []
| Glob_star p s1 s2 : Glob nocase p s2 → Glob nocase ("*"%char :: p) (s1 ++ s2)
| Glob_any p c s : Glob nocase p s → Glob nocase ("?"%char :: p) (c :: s)
| Glob_class p c s r :
    class_match nocase p c = (true, r) → Glob nocase r s → Glob nocase ("["%char :: p) (c :: s)
| Glob_escaped p d c s :
    char_match nocase d c = true → Glob nocase p s → Glob nocase ("\"%char :: d :: p) (c :: s)
| Glob_literal p d c s :
    d ≠ "*"%char → d ≠ "?"%char → d ≠ "["%char → (d = "\"%char → p = []) →
    char_match nocase d c = true → Glob nocase p s → Glob nocase (d :: p) (c :: s).


Lemma ceq_spec a b : reflect (a = b) (ceq a b).
Proof. apply Ascii.eqb_spec. Qed.

Lemma skip_stars_star p : skip_stars ("*"%char :: p) = skip_stars p.
Proof. done. Qed.
Lemma skip_stars_other d p : d ≠ "*"%char → skip_stars (d :: p) = d :: p.
Proof. intros. simpl. by destruct (ceq_spec d "*"%char). Qed.

Ltac star_cases d := destruct (decide (d = "*"%char)) as [->|];
  [rewrite ?skip_stars_star|rewrite ?skip_stars_other by done].

Lemma skip_stars_hd p : head (skip_stars p) ≠ Some "*"%char.
Proof. induction p as [|d p IH]; [done|]. star_cases d; simpl; congruence. Qed.

Lemma skip_stars_length p : (length (skip_stars p) ≤ length p)%nat.
Proof. induction p as [|d p IH]; [done|]. star_cases d; simpl; lia. Qed.

Lemma skip_stars_Glob_nil nocase p : Glob nocase p [] ↔ skip_stars p = [].
Proof.
  induction p as [|d p IH]; [split; [done|constructor]|]. star_cases d.
  - rewrite <- IH. split.
    + inversion 1; subst.
      match goal with E : _ ++ _ = [] |- _ => apply app_eq_nil in E as [-> ->] end. done.
    + intros Hg. apply (Glob_star nocase p [] [] Hg).
  - split; [inversion 1; subst; done|done].
Qed.

Lemma skip_stars_Glob nocase p s :
  Glob nocase ("*"%char :: skip_stars p) s ↔ Glob nocase ("*"%char :: p) s.
Proof.
  induction p as [|d p IH]; [done|]. star_cases d; [|done].
  rewrite IH. split.
  - inversion 1; subst; try done. apply (Glob_star nocase _ [] _). by constructor.
  - inversion 1; subst; try done.
    match goal with Hg : Glob _ ("*"%char :: _) _ |- _ => inversion Hg; subst; try done end.
    rewrite app_assoc. by constructor.
Qed.

Lemma class_loop_length fuel nocase p c m :
  (length (class_loop fuel nocase p c m).2 ≤ length p)%nat.
Proof.
  revert p m. induction fuel as [|fuel IH]; intros p m; [done|].
  simpl. destruct p as [|a r]; [done|].
  destruct (ceq a "\" && _).
  { destruct r as [|d r]; simpl; [lia|]. etrans; [apply IH|lia]. }
  destruct (ceq a "]"); [simpl; lia|].
  destruct r as [|d [|b r]]; [simpl; etrans; [apply IH|simpl; lia]..|].
  destruct (ceq d "-"); etrans; try apply IH; simpl; lia.
Qed.

Lemma class_match_length nocase p c : (length (class_match nocase p c).2 ≤ length p)%nat.
Proof.
  unfold class_match. case_bool_decide as E; [|apply class_loop_length].
  destruct p as [|a p]; [done|]. simpl.
  pose proof (class_loop_length (length p) nocase p c false).
  destruct (class_loop _ _ _ _ _). simpl in *. lia.
Qed.

Lemma step_length nocase p c q : step nocase p c = Some q → (length q < length p)%nat.
Proof.
  destruct p as [|a p]; [done|]. simpl.
  pose proof (class_match_length nocase p c).
  destruct (ceq a "?"); [intros [= ->]; lia|].
  destruct (ceq a "["); [destruct (class_match _ _ _) as [[] ?]; intros; simplify_eq/=; lia|].
  destruct p as [|d p]; [case_match; intros; simplify_eq/=; lia|].
  repeat case_match; intros; simplify_eq/=; lia.
Qed.

(** A round of the loop is one step of the declarative reading. *)
Lemma Glob_step nocase p c s :
  head p ≠ Some "*"%char →
  Glob nocase p (c :: s) ↔ ∃ q, step nocase p c = Some q ∧ Glob nocase q s.
Proof.
  intros Hhd. split.
  - inversion 1; subst; simpl in *; try done.
    + eauto.
    + match goal with E : class_match _ _ _ = _ |- _ => rewrite E end. eauto.
    + match goal with E : char_match _ _ _ = _ |- _ => rewrite E end. eauto.
    + match goal with E : char_match _ _ _ = true |- _ => rewrite E end.
      destruct (ceq_spec d "?"), (ceq_spec d "["), (ceq_spec d "\"); try done;
        destruct p0; eauto. naive_solver.
  - intros (q & Hst & Hq). destruct p as [|a p]; [done|]. simpl in *.
    destruct (ceq_spec a "?") as [->|]; [simplify_eq; by constructor|].
    destruct (ceq_spec a "[") as [->|].
    { destruct (class_match nocase p c) as [[] r] eqn:E; simplify_eq.
      by eapply Glob_class. }
    destruct p as [|d p].
    + destruct (char_match nocase a c) eqn:E; simplify_eq.
      apply Glob_literal; try done; congruence.
    + destruct (ceq_spec a "\") as [->|].
      * destruct (char_match nocase d c) eqn:E; simplify_eq. by constructor.
      * destruct (char_match nocase a c) eqn:E; simplify_eq.
        apply Glob_literal; try done; congruence.
Qed.

Lemma stringmatchlen_Glob fuel nocase p s :
  (length p < fuel)%nat → s ≠ [] →
  ∃ b, stringmatchlen fuel nocase p s = Some b ∧ (b = true ↔ Glob nocase p s).
Proof.
  revert p s. induction fuel as [|fuel IH]; intros p s Hlen Hs; [lia|].
  destruct p as [|a q]; cbn [stringmatchlen].
  { exists false. destruct s as [|c s]; [done|]. split; [done|]. split; [done|inversion 1]. }
  destruct s as [|c s]; [done|]. simpl in Hlen.
  destruct (ceq_spec a "*") as [->|Ha].
  - pose proof (skip_stars_length q). pose proof (skip_stars_hd q) as Hhd.
    setoid_rewrite <- skip_stars_Glob. set (q' := skip_stars q) in *.
    case_bool_decide as Hq.
    { exists true. split; [done|]. split; [intros _|done].
      rewrite <- (app_nil_r (c :: s)). constructor. rewrite Hq. constructor. }
    clearbody q'. clear Hs. revert Hhd. generalize (c :: s) as s0. intros s0 Hhd.
    assert (∀ t, Glob nocase ("*"%char :: q') t ↔ ∃ t1 t2, t = t1 ++ t2 ∧ Glob nocase q' t2) as Hstar.
    { intros t. split; [inversion 1; subst; try done; eauto|].
      intros (t1 & t2 & -> & ?). by constructor. }
    assert (¬ Glob nocase q' []) as Hnil.
    { destruct q' as [|d q'']; [done|]. rewrite skip_stars_Glob_nil, skip_stars_other; [done|].
      simpl in Hhd. congruence. }
    induction s0 as [|d s0 IHs].
    + exists false. split; [done|]. split; [done|]. rewrite Hstar.
      intros (t1 & t2 & E & Ht). symmetry in E. apply app_eq_nil in E as [-> ->]. done.
    + simpl. destruct (IH q' (d :: s0)) as (b & -> & Hb); [lia|done|].
      destruct b.
      * exists true. split; [done|]. rewrite Hstar. split; [|done]. intros _.
        exists [], (d :: s0). split; [done|]. by apply Hb.
      * destruct IHs as (b & -> & Hb'). exists b. split; [done|]. rewrite Hb', !Hstar. split.
        -- intros (t1 & t2 & -> & Ht). exists (d :: t1), t2. done.
        -- intros ([|d' t1] & t2 & E & Ht); simplify_eq/=; [|eauto].
           exfalso. apply Hb in Ht. done.
  - destruct (step nocase (a :: q) c) as [p'|] eqn:Est.
    + pose proof (step_length _ _ _ _ Est) as Hl. simpl in Hl.
      assert (Glob nocase (a :: q) (c :: s) ↔ Glob nocase p' s) as Heq.
      { rewrite Glob_step by (simpl; congruence). rewrite Est. naive_solver. }
      setoid_rewrite Heq.
      case_bool_decide as E; [subst s|apply IH; [lia|done]].
      eexists. split; [done|]. rewrite bool_decide_eq_true. symmetry.
      apply skip_stars_Glob_nil.
    + exists false. split; [done|]. split; [done|].
      rewrite Glob_step by (simpl; congruence). rewrite Est. naive_solver.
Qed.

(** Glob matching is correct: on a non-empty subject [gmatch] (and [gmatchi])
    terminates and answers [true] exactly when the subject matches the
    declarative reading of the pattern. *)
Theorem gmatch_correct nocase p s :
  s ≠ [] →
  ∃ b, stringmatchlen (S (length p)) nocase p s = Some b ∧ (b = true ↔ Glob nocase p s).
Proof. intros. apply stringmatchlen_Glob; [lia|done]. Qed.

Lemma gmatch_correct_witness :
  Glob false (String.list_ascii_of_string "a[b-d]*") (String.list_ascii_of_string "acid").
Proof.
  destruct (gmatch_correct false (String.list_ascii_of_string "a[b-d]*")
              (String.list_ascii_of_string "acid")) as (b & E & H); [discriminate|].
  apply H. vm_compute in E. congruence.
Defined.

(** The empty subject is the exception: the loop does not run, so only the
    empty pattern is accepted although a pattern of stars describes the
    empty text. *)
Theorem gmatch_empty_subject p :
  gmatch [] p = Some (bool_decide (p = [])) ∧ (gmatch [] ["*"%char] = Some false ∧ Glob false ["*"%char] []).
Proof.
  split; [|split; [done|]].
  - unfold gmatch. by destruct p.
  - apply (Glob_star false [] [] []). constructor.
Qed.

(** ** Splitting and joining *)

Lemma split_loop_nonempty sep max n b s : split_loop sep max n b s ≠ [].
Proof.
  revert n b. induction s as [|c s IH]; intros n b; simpl; [done|].
  repeat case_match; done.
Qed.

Lemma joinVector_cons x v sep : v ≠ [] → joinVector (x :: v) sep = x ++ sep :: joinVector v sep.
Proof. destruct v; done. Qed.

Lemma split_loop_join sep max n b s : joinVector (split_loop sep max n b s) sep = b ++ s.
Proof.
  revert n b. induction s as [|c s IH]; intros n b; simpl; [by rewrite app_nil_r|].
  destruct (ceq_spec c sep) as [->|].
  - destruct (_ && _); [done|]. rewrite joinVector_cons by apply split_loop_nonempty.
    by rewrite IH.
  - rewrite IH. by rewrite <- app_assoc.
Qed.

(** Splitting loses nothing: joining the parts of [stringSplit] with the
    separator gives the string back, whatever the limit on the splits. *)
Theorem stringSplit_join s sep max : joinVector (stringSplit s sep max) sep = s.
Proof. unfold stringSplit. destruct (max =? 0); [done|]. apply split_loop_join. Qed.

Lemma split_loop_no_sep sep max n b s :
  n + Z.of_nat (length s) < max → sep ∉ b → Forall (λ x, sep ∉ x) (split_loop sep max n b s).
Proof.
  revert n b. induction s as [|c s IH]; intros n b Hn Hb; simpl; [by repeat constructor|].
  simpl in Hn. destruct (ceq_spec c sep) as [->|Hc].
  - destruct (Z.eqb_spec (n + 1) max) as [E|E]; simpl.
    + exfalso. lia.
    + constructor; [done|]. apply IH; [lia|set_solver].
  - apply IH; [lia|set_solver].
Qed.

Lemma split_loop_length sep max n b s :
  n < max → Z.of_nat (length (split_loop sep max n b s)) ≤ max - n + 1.
Proof.
  revert n b. induction s as [|c s IH]; intros n b Hn; simpl; [lia|].
  destruct (ceq c sep); [|by apply IH].
  destruct (Z.eqb_spec (n + 1) max) as [E|E]; simpl.
  - case_bool_decide; simpl; [lia|]. destruct s; [simpl; lia|done].
  - specialize (IH (n + 1) []). lia.
Qed.

(** At most [max] splits are made, and with the default limit no part holds
    the separator (so the result is the full split). *)
Theorem stringSplit_parts s sep max :
  0 ≤ max →
  Z.of_nat (length (stringSplit s sep max)) ≤ max + 1 ∧
  (Z.of_nat (length s) < max → Forall (λ x, sep ∉ x) (stringSplit s sep max)).
Proof.
  intros Hmax. unfold stringSplit. destruct (Z.eqb_spec max 0) as [->|].
  - split; [simpl; lia|lia].
  - split.
    + pose proof (split_loop_length sep max 0 [] s). lia.
    + intros. apply split_loop_no_sep; [lia|set_solver].
Qed.

Lemma stringSplit_parts_witness :
  let s := String.list_ascii_of_string "a,b,,c" in
  Z.of_nat (length (stringSplit s "," default_max)) ≤ default_max + 1 ∧
  Forall (λ x, ","%char ∉ x) (stringSplit s "," default_max) ∧
  stringSplit s "," 1 = map String.list_ascii_of_string ["a"; "b,,c"]%string.
Proof.
  split; [|split].
  - apply (stringSplit_parts (String.list_ascii_of_string "a,b,,c") "," default_max).
    unfold default_max; lia.
  - apply (stringSplit_parts (String.list_ascii_of_string "a,b,,c") "," default_max);
      unfold default_max; simpl; lia.
  - reflexivity.
Defined.

Lemma startsWith_spec s p : startsWith s p = true ↔ p `prefix_of` s.
Proof.
  unfold startsWith. destruct (Nat.ltb_spec (length s) (length p)).
  - split; [done|]. intros [k ->]. rewrite length_app in *. lia.
  - rewrite bool_decide_eq_true. split.
    + intros E. exists (drop (length p) s). by rewrite <- E at 1; rewrite take_drop.
    + intros [k ->]. apply take_app_length.
Qed.

Lemma endsWith_spec s p : endsWith s p = true ↔ p `suffix_of` s.
Proof.
  unfold endsWith. destruct (Nat.ltb_spec (length s) (length p)).
  - split; [done|]. intros [k ->]. rewrite length_app in *. lia.
  - rewrite bool_decide_eq_true. split.
    + intros E. exists (take (length s - length p) s).
      rewrite take_ge in E by (rewrite length_drop; lia).
      by rewrite <- E at 2; rewrite take_drop.
    + intros [k ->]. rewrite length_app.
      replace (length k + length p - length p)%nat with (length k) by lia.
      rewrite drop_app_length. by apply take_ge.
Qed.

End Str.
