(* ===== verification/LruCache.v ===== *)
(** * The LRU cache ([common/language.h])

    [LRUCache<K, V>] keeps its keys in a linked list, most recently used first,
    and a hash map from a key to its list node and value.  A key occurs at
    most once in the list, so the node of a key is the place of the key. *)

From S2P Require Import Prelude.

Module LruCache.
Section lru.
Context {K V : Type} `{Countable K}.

(** [src/common/language.h:107-118] LRUCache *)
Record t := Cache { dq_ : list K; map_ : gmap K V; csize_ : nat }.

(** [src/common/language.h:121-121] LRUCache::LRUCache *)
Definition make (n : nat) : t := Cache [] ∅ n.

(** [dq_.erase(node)] for the node of [k]. *)
Definition unlink (k : K) (l : list K) : list K := filter (λ x, x ≠ k) l.

(** The eviction of [put]; [back()] of an empty list is undefined.

    [src/common/language.h:125-129] LRUCache::put *)
Definition evict (c : t) : res t :=
  if bool_decide (length (dq_ c) = csize_ c) then
    match last (dq_ c) with
    | Some k => Ok (Cache (removelast (dq_ c)) (delete k (map_ c)) (csize_ c))
    | None => Undefined
    end
  else Ok c.

(** [src/common/language.h:123-137] LRUCache::put *)
Definition put (c : t) (k : K) (v : V) : res t :=
  let? c := match map_ c !! k with
            | None => evict c
            | Some _ => Ok (Cache (unlink k (dq_ c)) (map_ c) (csize_ c))
            end in
  Ok (Cache (k :: dq_ c) (<[k := v]> (map_ c)) (csize_ c)).

(** [src/common/language.h:139-148] LRUCache::get *)
Definition get (c : t) (k : K) : option V * t :=
  match map_ c !! k with
  | None => (None, c)
  | Some v => (Some v, Cache (k :: unlink k (dq_ c)) (map_ c) (csize_ c))
  end.

(** ** Invariant *)

Definition wf (c : t) : Prop :=
  NoDup (dq_ c) ∧ (∀ k, k ∈ dq_ c ↔ is_Some (map_ c !! k)) ∧
  (length (dq_ c) ≤ csize_ c)%nat.

Lemma empty_cache_wf n : wf (make n).
Proof.
  split; [constructor|]. split; [|simpl; lia]. intros k. simpl.
  rewrite lookup_empty. split; [set_solver|by intros [? ?]].
Qed.

Lemma unlink_NoDup k l : NoDup l → NoDup (unlink k l).
Proof. apply NoDup_filter. Qed.

Lemma elem_of_unlink x k l : x ∈ unlink k l ↔ x ≠ k ∧ x ∈ l.
Proof. unfold unlink. by rewrite list_elem_of_filter. Qed.

Lemma unlink_notin k l : k ∉ l → unlink k l = l.
Proof.
  unfold unlink. induction l as [|x l IH]; [done|]. intros Hk.
  rewrite filter_cons, decide_True by set_solver. f_equal. apply IH. set_solver.
Qed.

Lemma unlink_length k l : NoDup l → k ∈ l → S (length (unlink k l)) = length l.
Proof.
  induction l as [|x l IH]; [set_solver|]. intros [Hx Hnd]%NoDup_cons Hk.
  unfold unlink. rewrite filter_cons. destruct (decide (x = k)) as [->|Hne].
  - rewrite decide_False by naive_solver. fold (unlink k l). by rewrite unlink_notin.
  - rewrite decide_True by done. simpl. f_equal. apply IH; set_solver.
Qed.

(** [get] preserves the invariant, moves the key it finds to the front and
    changes neither the values nor the relative order of the other keys. *)
Theorem get_spec c k : wf c →
  let '(r, c') := get c k in
  wf c' ∧ r = map_ c !! k ∧ map_ c' = map_ c ∧
  dq_ c' = match r with Some _ => k :: unlink k (dq_ c) | None => dq_ c end.
Proof.
  intros (Hnd & Hdom & Hlen). unfold get.
  destruct (map_ c !! k) as [v|] eqn:E; [|done]. split_and!; try done.
  assert (k ∈ dq_ c) as Hk by (apply Hdom; eauto).
  split_and!; simpl.
  - apply NoDup_cons. split; [rewrite elem_of_unlink; naive_solver|by apply unlink_NoDup].
  - intros x. rewrite elem_of_cons, elem_of_unlink, Hdom.
    destruct (decide (x = k)) as [->|]; [|naive_solver]. rewrite E. naive_solver.
  - rewrite unlink_length by done. done.
Qed.

Lemma last_removelast (l : list K) k : last l = Some k → l = removelast l ++ [k].
Proof.
  destruct l as [|x l] using rev_ind; [done|]. rewrite last_snoc, removelast_last. congruence.
Qed.

Lemma evict_spec c : wf c → (0 < csize_ c)%nat →
  ∃ c', evict c = Ok c' ∧ wf c' ∧ csize_ c' = csize_ c ∧ (length (dq_ c') < csize_ c)%nat ∧
        (∀ k, map_ c !! k = None → map_ c' !! k = None) ∧
        (∃ old, dq_ c = dq_ c' ++ old ∧ (length old ≤ 1)%nat) ∧
        (∀ k, k ∈ dq_ c' → map_ c' !! k = map_ c !! k).
Proof.
  intros (Hnd & Hdom & Hlen) Hpos. unfold evict.
  case_bool_decide as E.
  - destruct (last (dq_ c)) as [k|] eqn:El.
    2:{ apply last_None in El. rewrite El in E. simpl in E. lia. }
    pose proof (last_removelast _ _ El) as Hl. set (r := removelast (dq_ c)) in *.
    rewrite Hl in Hnd, Hdom, Hlen, E. apply NoDup_app in Hnd as (Hndr & Hdis & _).
    rewrite length_app in *. simpl in *.
    assert (∀ x, x ∈ r → x ≠ k) as Hne by (intros x Hx ->; apply (Hdis k Hx); set_solver).
    eexists; split_and!; [done| |done|simpl; lia| | |].
    + split_and!; simpl; [done| |lia]. intros x.
      rewrite lookup_delete_is_Some, <- Hdom. set_solver.
    + simpl. intros x Hx. destruct (decide (k = x)) as [->|].
      * apply lookup_delete_eq.
      * by rewrite lookup_delete_ne.
    + exists [k]. done.
    + simpl. intros x Hx. rewrite lookup_delete_ne; [done|]. intros ->. by eapply Hne.
  - eexists; split_and!; [done| |done|lia|done| |done].
    + done.
    + exists []. rewrite app_nil_r. simpl. split; [done|lia].
Qed.

(** [put] on a cache of positive capacity always succeeds, keeps the
    invariant (in particular the capacity bound), makes the key the most
    recent one with the new value, and drops at most the least recently used
    key: every other key keeps its value and its place in the order. *)
Theorem put_spec c k v : wf c → (0 < csize_ c)%nat →
  ∃ c' kept old, put c k v = Ok c' ∧ wf c' ∧ csize_ c' = csize_ c ∧
    map_ c' !! k = Some v ∧ dq_ c' = k :: kept ∧
    unlink k (dq_ c) = kept ++ old ∧ (length old ≤ 1)%nat ∧
    (∀ x, x ∈ kept → map_ c' !! x = map_ c !! x).
Proof.
  intros Hwf Hpos. unfold put. destruct (map_ c !! k) as [v0|] eqn:E.
  - destruct Hwf as (Hnd & Hdom & Hlen). assert (k ∈ dq_ c) as Hk by (apply Hdom; eauto).
    simpl. eexists _, _, []. split_and!; [done| |done|apply lookup_insert_eq|done| |simpl; lia|].
    + split_and!; simpl.
      * apply NoDup_cons. split; [rewrite elem_of_unlink; naive_solver|by apply unlink_NoDup].
      * intros x. rewrite elem_of_cons, elem_of_unlink, Hdom, lookup_insert_is_Some.
        destruct (decide (x = k)); naive_solver.
      * rewrite unlink_length by done. done.
    + by rewrite app_nil_r.
    + intros x Hx. apply elem_of_unlink in Hx as [Hne _]. by apply lookup_insert_ne.
  - destruct (evict_spec c Hwf Hpos) as (c' & -> & Hwf' & Hcs & Hlt & Hno & (old & Hdq & Hold) & Hkeep).
    destruct Hwf' as (Hnd' & Hdom' & _). simpl.
    assert (k ∉ dq_ c') as Hk by (rewrite Hdom', (Hno k E); by intros [? ?]).
    assert (k ∉ dq_ c) as Hk0 by (destruct Hwf as (_ & Hdom & _); rewrite Hdom, E; by intros [? ?]).
    eexists _, (dq_ c'), old. split_and!; [done| |done|apply lookup_insert_eq|done| |done|].
    + split_and!; simpl; [by apply NoDup_cons| |lia].
      intros x. rewrite elem_of_cons, Hdom', lookup_insert_is_Some. destruct (decide (x = k)); naive_solver.
    + by rewrite unlink_notin.
    + simpl. intros x Hx. rewrite lookup_insert_ne by (by intros ->). by apply Hkeep.
Qed.

End lru.
Arguments t : clear implicits.

(** A cache of capacity 0 cannot take a key: [put] reads [back()] of the
    empty list. *)
Theorem put_capacity_zero {K V : Type} `{Countable K} (k : K) (v : V) :
  put (make 0) k v = Undefined.
Proof. unfold put. simpl. by rewrite lookup_empty. Qed.

Definition two_keys : t Z Z _ _ := Cache [1; 2] {[1 := 10; 2 := 20]} 2.

Lemma two_keys_wf : wf two_keys.
Proof.
  split; [by apply (bool_decide_eq_true_1 (NoDup [1; 2]))|]. split; [|simpl; lia].
  intros k. simpl. rewrite lookup_insert_is_Some, lookup_singleton_is_Some.
  rewrite !elem_of_cons. destruct (decide (k = 1)); set_solver.
Qed.

Lemma put_spec_witness :
  ∃ c' kept old, put two_keys 3 30 = Ok c' ∧ wf c' ∧ csize_ c' = csize_ two_keys ∧
    map_ c' !! 3 = Some 30 ∧ dq_ c' = 3 :: kept ∧ unlink 3 (dq_ two_keys) = kept ++ old ∧
    (length old ≤ 1)%nat ∧ (∀ x, x ∈ kept → map_ c' !! x = map_ two_keys !! x).
Proof. apply (put_spec two_keys 3 30 two_keys_wf). simpl. lia. Defined.

Lemma get_spec_witness :
  wf (get two_keys 2).2 ∧ (get two_keys 2).1 = Some 20 ∧ dq_ (get two_keys 2).2 = [2; 1].
Proof.
  pose proof (get_spec two_keys 2 two_keys_wf) as H. vm_compute (get two_keys 2) in H.
  destruct H as (H & _). split; [exact H|]. split; reflexivity.
Defined.

End LruCache.
