(* ===== verification/Threads.v ===== *)
(** * Interleaved threads

    The concurrent classes are labelled transition systems: a label says which
    thread moves and, where the language leaves a choice, which one is taken.
    [step s l] is [None] when the move is not enabled (the thread is blocked),
    and otherwise the outcome of the code between two blocking points.  The
    file has what these systems share: runs, invariants over runs, and counting
    the threads at a program point. *)

From S2P Require Import Prelude.

(** ** Runs *)

Section runs.
Context {S L : Type} (step : S → L → option (res S)).

(** The state after a sequence of moves, each of them enabled and defined. *)
Fixpoint run (tr : list L) (s : S) : option S :=
  match tr with
  | [] => Some s
  | l :: tr => match step s l with Some (Ok s') => run tr s' | _ => None end
  end.

Definition reachable (s0 s : S) : Prop := ∃ tr, run tr s0 = Some s.

Lemma run_app tr1 tr2 s : run (tr1 ++ tr2) s = run tr1 s ≫= run tr2.
Proof.
  revert s. induction tr1 as [|l tr1 IH]; intros s; simpl; [done|].
  by destruct (step s l) as [[]|].
Qed.

Lemma reachable_refl s : reachable s s.
Proof. by exists []. Qed.

Lemma reachable_step s0 s l s' :
  reachable s0 s → step s l = Some (Ok s') → reachable s0 s'.
Proof. intros [tr Htr] H. exists (tr ++ [l]). rewrite run_app, Htr. simpl. by rewrite H. Qed.

(** A property that holds at the start and that every move keeps. *)
Lemma reachable_inv (I : S → Prop) s0 s :
  (∀ s l s', I s → step s l = Some (Ok s') → I s') →
  I s0 → reachable s0 s → I s.
Proof.
  intros Hstep H0 [tr Htr]. revert s0 H0 Htr.
  induction tr as [|l tr IH]; intros s0 H0; simpl; [congruence|].
  destruct (step s0 l) as [[s1| | |]|] eqn:E; try done. eauto.
Qed.

(** Moves that use up a measure come to an end. *)
Lemma run_bounded (quiet : L → bool) (mu : S → Z) tr s s' :
  (∀ s l s', quiet l = true → step s l = Some (Ok s') → mu s' < mu s) →
  Forall (λ l, quiet l = true) tr → run tr s = Some s' →
  Z.of_nat (length tr) ≤ mu s - mu s'.
Proof.
  intros Hmu. revert s. induction tr as [|l tr IH]; intros s Hq; simpl; [intros [= ->]; lia|].
  inversion Hq as [|? ? Hl Htr]; subst. destruct (step s l) as [[s1| | |]|] eqn:E; try done.
  intros Hr. specialize (Hmu _ _ _ Hl E). specialize (IH _ Htr Hr). lia.
Qed.
End runs.

#[export] Hint Resolve reachable_refl : cpp.

(** ** Counting threads *)

Section count.
Context {A : Type}.
Implicit Types (f : A → bool) (l : list A).

Fixpoint count f l : Z :=
  match l with [] => 0 | x :: l => Z.b2z (f x) + count f l end.

Lemma count_nonneg f l : 0 ≤ count f l.
Proof. induction l as [|x l IH]; simpl; [lia|]. destruct (f x); simpl; lia. Qed.

Lemma count_insert f l i x y :
  l !! i = Some x → count f (<[i := y]> l) = count f l - Z.b2z (f x) + Z.b2z (f y).
Proof.
  revert i. induction l as [|z l IH]; intros [|i] H; simplify_eq/=; [lia|].
  rewrite (IH i H). lia.
Qed.

Lemma count_pos f l : 0 < count f l ↔ ∃ i x, l !! i = Some x ∧ f x = true.
Proof.
  induction l as [|z l IH]; simpl.
  - split; [lia|]. intros (i & x & H & _). by rewrite lookup_nil in H.
  - pose proof (count_nonneg f l). split.
    + destruct (f z) eqn:E; simpl; [by exists 0%nat, z|].
      intros Hc. destruct IH as [IH _]. destruct IH as (i & x & Hx); [lia|]. by exists (Datatypes.S i), x.
    + intros ([|i] & x & H1 & H2); simplify_eq/=; [rewrite H2; simpl; lia|].
      assert (0 < count f l) by (apply IH; eauto). destruct (f z); simpl; lia.
Qed.

Lemma count_zero f l : count f l = 0 ↔ ∀ i x, l !! i = Some x → f x = false.
Proof.
  pose proof (count_nonneg f l) as Hn. pose proof (count_pos f l) as Hp. split.
  - intros H0 i x Hx. destruct (f x) eqn:E; [|done].
    assert (0 < count f l) by (apply Hp; eauto). lia.
  - intros H. destruct (decide (count f l = 0)); [done|].
    destruct Hp as [Hp _]. destruct Hp as (i & x & H1 & H2); [lia|]. rewrite (H i x H1) in H2. done.
Qed.

Lemma count_lookup f l i x : l !! i = Some x → f x = true → 0 < count f l.
Proof. intros. apply count_pos. eauto. Qed.

(** Two different positions that satisfy [f] count twice. *)
Lemma count_two f l i j x y :
  i ≠ j → l !! i = Some x → l !! j = Some y → f x = true → f y = true → 2 ≤ count f l.
Proof.
  intros Hij Hi Hj Hx Hy. revert i j Hij Hi Hj.
  induction l as [|z l IH]; intros [|i] [|j] Hij Hi Hj; simplify_eq/=; try done.
  - rewrite Hx. pose proof (count_lookup f l j y Hj Hy). simpl. lia.
  - rewrite Hy. pose proof (count_lookup f l i x Hi Hx). simpl. lia.
  - assert (2 ≤ count f l) by (apply (IH i j); congruence). destruct (f z); simpl; lia.
Qed.

Lemma count_fmap f (g : A → A) l : (∀ x, f (g x) = f x) → count f (g <$> l) = count f l.
Proof. intros H. induction l as [|x l IH]; csimpl; [done|]. by rewrite H, IH. Qed.

Lemma count_replicate f n x : f x = false → count f (replicate n x) = 0.
Proof. intros H. induction n; simpl; [done|]. by rewrite H. Qed.

Lemma count_le f g l : (∀ x, f x = true → g x = true) → count f l ≤ count g l.
Proof.
  intros H. induction l as [|x l IH]; simpl; [lia|].
  destruct (f x) eqn:E; [rewrite (H x E); simpl; lia|]. destruct (g x); simpl; lia.
Qed.
End count.

(** The sum of a weight over the threads. *)
Section wsum.
Context {A : Type} (f : A → Z).

Fixpoint wsum (l : list A) : Z :=
  match l with [] => 0 | x :: l => f x + wsum l end.

Lemma wsum_nonneg l : (∀ x, 0 ≤ f x) → 0 ≤ wsum l.
Proof. intros H. induction l as [|x l IH]; simpl; [lia|]. specialize (H x). lia. Qed.

Lemma wsum_insert l i x y : l !! i = Some x → wsum (<[i := y]> l) = wsum l - f x + f y.
Proof.
  revert i. induction l as [|z l IH]; intros [|i] H; simplify_eq/=; [lia|]. rewrite (IH i H). lia.
Qed.

Lemma wsum_fmap_le (g : A → A) k l :
  (∀ x, f (g x) ≤ f x + k) → wsum (g <$> l) ≤ wsum l + k * Z.of_nat (length l).
Proof. intros H. induction l as [|x l IH]; csimpl; [lia|]. specialize (H x). lia. Qed.
End wsum.

(** Looking up a thread after one of them moved. *)
Ltac thread_cases H :=
  apply list_lookup_insert_Some in H;
  destruct H as [(? & ? & ?)|(? & H)]; simplify_eq.

(** Arithmetic over booleans counted as 0 or 1. *)
Lemma b2z_range b : 0 ≤ Z.b2z b ≤ 1.
Proof. destruct b; simpl; lia. Qed.

Lemma b2z_le a b : (a = true → b = true) → Z.b2z a ≤ Z.b2z b.
Proof. destruct a, b; simpl; intros H; try lia; by specialize (H eq_refl). Qed.

Ltac b2z_lia :=
  repeat match goal with
  | |- context [Z.b2z true] => change (Z.b2z true) with 1
  | |- context [Z.b2z false] => change (Z.b2z false) with 0
  | H : context [Z.b2z true] |- _ => change (Z.b2z true) with 1 in H
  | H : context [Z.b2z false] |- _ => change (Z.b2z false) with 0 in H
  end;
  repeat match goal with
  | |- context [Z.b2z ?b] => pose proof (b2z_range b); generalize dependent (Z.b2z b); intros
  | H : context [Z.b2z ?b] |- _ => pose proof (b2z_range b); generalize dependent (Z.b2z b); intros
  end; lia.
Lemma count_lookup_b2z {A} (f : A → bool) l i x : l !! i = Some x → Z.b2z (f x) ≤ count f l.
Proof.
  intros H. destruct (f x) eqn:E.
  - pose proof (count_lookup f l i x H E). b2z_lia.
  - pose proof (count_nonneg f l). b2z_lia.
Qed.

(** The items some threads hold, when one thread moves. *)
Lemma omap_insert {A B} (f : A → option B) (l : list A) i x y :
  l !! i = Some x → option_list (f x) ++ omap f (<[i := y]> l) ≡ₚ option_list (f y) ++ omap f l.
Proof.
  revert i. induction l as [|z l IH]; intros [|i] H; simplify_eq/=.
  - destruct (f x), (f y); simpl; try done. apply Permutation_swap.
  - specialize (IH i H). destruct (f z); [|done]. by rewrite <-!Permutation_middle, IH.
Qed.

Lemma omap_insert_same {A B} (f : A → option B) (l : list A) i x y :
  l !! i = Some x → f x = f y → omap f (<[i := y]> l) = omap f l.
Proof.
  intros H Hf. revert i H. induction l as [|z l IH]; intros [|i] H; simplify_eq/=; [by rewrite Hf|].
  by rewrite (IH i H).
Qed.

Lemma omap_fmap_same {A B} (f : A → option B) (g : A → A) (l : list A) :
  (∀ x, f (g x) = f x) → omap f (g <$> l) = omap f l.
Proof. intros H. induction l as [|x l IH]; csimpl; [done|]. by rewrite H, IH. Qed.

Lemma omap_replicate_None {A B} (f : A → option B) n x : f x = None → omap f (replicate n x) = [].
Proof. intros H. induction n; csimpl; [done|]. by rewrite H. Qed.
