(* ===== verification/PriorityMutex.v ===== *)
(** * The mutex with priorities ([cpid/prioritymutex.h])

    [priority_mutex] as a system of threads that call [lock], [try_lock] and
    [unlock].  A step is the code between two points where a thread can block
    or be interrupted with an effect: the blocks under [queueMutex_] are single
    steps, since [queueCount_] is only touched inside them and none of them
    blocks.  The wait on the condition variable is split into the test of its
    predicate, going to sleep, and being woken. *)

From S2P Require Import Prelude Threads.

Module PriorityMutex.

(** ** The mutex *)

(** [src/cpid/prioritymutex.h:101-105] priority_mutex *)
Record mutex := Mutex { maxPrio_ : Z; queueCount_ : list Z; dataMutex_ : bool }.

Definition set_queueCount (m : mutex) (q : list Z) : mutex := Mutex (maxPrio_ m) q (dataMutex_ m).
Definition set_dataMutex (m : mutex) (b : bool) : mutex := Mutex (maxPrio_ m) (queueCount_ m) b.

(** [src/cpid/prioritymutex.h:53-55] priority_mutex::priority_mutex *)
Definition priority_mutex (maxPrio : Z) : res mutex :=
  if maxPrio + 1 <? 0 then Throw "vector::_M_default_append"
  else Ok (Mutex maxPrio (replicate (Z.to_nat (maxPrio + 1)) 0) false).

(** [queueCount_[i]] *)
Definition at_count (q : list Z) (i : Z) : res Z :=
  if i <? 0 then Undefined else of_option (q !! Z.to_nat i).

(** [src/cpid/prioritymutex.h:61-63] priority_mutex::lock *)
Definition check_prio (m : mutex) (prio : Z) : res () :=
  if (prio <? 0) || (maxPrio_ m <? prio) then Throw "Invalid priority level" else Ok ().

(** [src/cpid/prioritymutex.h:64-67] priority_mutex::lock *)
Definition enqueue (m : mutex) (prio : Z) : res mutex :=
  let? n := at_count (queueCount_ m) prio in
  Ok (set_queueCount m (<[Z.to_nat prio := n + 1]> (queueCount_ m))).

(** [src/cpid/prioritymutex.h:71-74] priority_mutex::lock *)
Definition dequeue (m : mutex) (prio : Z) : res mutex :=
  let? n := at_count (queueCount_ m) prio in
  Ok (set_queueCount m (<[Z.to_nat prio := n - 1]> (queueCount_ m))).

(** [src/cpid/prioritymutex.h:94-98] priority_mutex::canGo *)
Fixpoint canGo_loop (q : list Z) (idx : list Z) : res bool :=
  match idx with
  | [] => Ok true
  | i :: idx =>
      let? n := at_count q i in
      if negb (n =? 0) then Ok false else canGo_loop q idx
  end.

(** [src/cpid/prioritymutex.h:92-99] priority_mutex::canGo *)
Definition canGo (m : mutex) (prio : Z) : res bool :=
  canGo_loop (queueCount_ m) (range (prio + 1) (maxPrio_ m + 1)).

#[local] Arguments at_count : simpl never.
#[local] Arguments canGo : simpl never.

(** ** Threads *)

(** Where a thread is.  [Idle] and [Threw] are outside of the mutex, the
    latter after a call that threw. *)
Inductive pc :=
| Idle
| Threw
| LockEnter (prio : Z)   (** in [lock], priority checked, not yet counted *)
| LockData (prio : Z)    (** counted, blocked in [dataMutex_.lock()] *)
| LockCheck (prio : Z)   (** holds [dataMutex_], about to call [canGo] *)
| LockPark (prio : Z)    (** [canGo] was false, about to release and sleep *)
| LockSleep (prio : Z)   (** asleep on [queueCV_] *)
| LockLeave (prio : Z)   (** [canGo] was true, still counted *)
| Holding                (** [lock] returned, or [try_lock] returned true *)
| UnlockNotify.          (** in [unlock], before [notify_all] *)

#[export] Instance pc_eq_dec : EqDecision pc.
Proof. solve_decision. Defined.

Record state := State { mtx : mutex; threads : list pc }.

Inductive label :=
| Lock (t : nat) (prio : Z)
| TryLock (t : nat) (prio : Z)
| Unlock (t : nat)
| Go (t : nat)              (** the thread continues in its call *)
| Spurious (t : nat).       (** a wake-up without a notification *)

Definition move (s : state) (t : nat) (m : mutex) (p : pc) : state :=
  State m (<[t := p]> (threads s)).

(** [notify_all]: every sleeper goes on to lock [dataMutex_] again. *)
Definition wake (p : pc) : pc :=
  match p with LockSleep prio => LockData prio | _ => p end.

(** [src/cpid/prioritymutex.h:60-63] priority_mutex::lock *)
Definition call_lock (s : state) (t : nat) (prio : Z) : state :=
  match check_prio (mtx s) prio with
  | Ok _ => move s t (mtx s) (LockEnter prio)
  | _ => move s t (mtx s) Threw
  end.

(** [src/cpid/prioritymutex.h:77-84] priority_mutex::try_lock *)
Definition call_try_lock (s : state) (t : nat) (prio : Z) : state :=
  match check_prio (mtx s) prio with
  | Ok _ =>
      if dataMutex_ (mtx s) then move s t (mtx s) Idle
      else move s t (set_dataMutex (mtx s) true) Holding
  | _ => move s t (mtx s) Threw
  end.

(** [src/cpid/prioritymutex.h:86-87] priority_mutex::unlock *)
Definition call_unlock (s : state) (t : nat) : state :=
  move s t (set_dataMutex (mtx s) false) UnlockNotify.

(** [src/cpid/prioritymutex.h:88-89] priority_mutex::unlock *)
Definition notify_all (s : state) (t : nat) : state :=
  State (mtx s) (wake <$> <[t := Idle]> (threads s)).

(** [src/cpid/prioritymutex.h:64-75] priority_mutex::lock *)
Definition go (s : state) (t : nat) (p : pc) : option (res state) :=
  let m := mtx s in
  match p with
  | LockEnter prio => Some (let? m := enqueue m prio in Ok (move s t m (LockData prio)))
  | LockData prio =>
      if dataMutex_ m then None
      else Some (Ok (move s t (set_dataMutex m true) (LockCheck prio)))
  | LockCheck prio =>
      Some (let? b := canGo m prio in
            Ok (move s t m (if b : bool then LockLeave prio else LockPark prio)))
  | LockPark prio => Some (Ok (move s t (set_dataMutex m false) (LockSleep prio)))
  | LockLeave prio => Some (let? m := dequeue m prio in Ok (move s t m Holding))
  | UnlockNotify => Some (Ok (notify_all s t))
  | Idle | Threw | LockSleep _ | Holding => None
  end.

Definition step (s : state) (l : label) : option (res state) :=
  match l with
  | Lock t prio =>
      match threads s !! t with
      | Some Idle | Some Threw => Some (Ok (call_lock s t prio))
      | _ => None
      end
  | TryLock t prio =>
      match threads s !! t with
      | Some Idle | Some Threw => Some (Ok (call_try_lock s t prio))
      | _ => None
      end
  | Unlock t =>
      match threads s !! t with
      | Some Holding => Some (Ok (call_unlock s t))
      | _ => None
      end
  | Go t => threads s !! t ≫= go s t
  | Spurious t =>
      match threads s !! t with
      | Some (LockSleep prio) => Some (Ok (move s t (mtx s) (LockData prio)))
      | _ => None
      end
  end.

Definition init (m : mutex) (n : nat) : state := State m (replicate n Idle).

(** ** Invariant *)

(** The priority a thread is counted under in [queueCount_]. *)
Definition counted (c : pc) : option Z :=
  match c with
  | LockData p | LockCheck p | LockPark p | LockSleep p | LockLeave p => Some p
  | _ => None
  end.
Definition queued (p : Z) (c : pc) : bool :=
  match counted c with Some q => q =? p | None => false end.
Definition above (p : Z) (c : pc) : bool :=
  match counted c with Some q => p <? q | None => false end.
(** The thread holds [dataMutex_]. *)
Definition owns (c : pc) : bool :=
  match c with LockCheck _ | LockPark _ | LockLeave _ | Holding => true | _ => false end.
(** The thread will call [notify_all] without waiting for anyone. *)
Definition owes (c : pc) : bool :=
  match c with Holding | UnlockNotify => true | _ => false end.
Definition valid_pc (max : Z) (c : pc) : Prop :=
  match c with
  | LockEnter p | LockData p | LockCheck p | LockPark p | LockSleep p | LockLeave p => 0 ≤ p ≤ max
  | _ => True
  end.

Record Inv (s : state) : Prop := {
  inv_len : Z.of_nat (length (queueCount_ (mtx s))) = Z.max 0 (maxPrio_ (mtx s) + 1);
  inv_count : ∀ i n, queueCount_ (mtx s) !! i = Some n → n = count (queued (Z.of_nat i)) (threads s);
  inv_valid : ∀ t c, threads s !! t = Some c → valid_pc (maxPrio_ (mtx s)) c;
  inv_owner : count owns (threads s) = Z.b2z (dataMutex_ (mtx s));
  inv_park : ∀ t p, threads s !! t = Some (LockPark p) → 0 < count (above p) (threads s);
  inv_sleep : ∀ t p, threads s !! t = Some (LockSleep p) →
    0 < count (above p) (threads s) + count owes (threads s)
}.

Lemma init_inv max m n : priority_mutex max = Ok m → Inv (init m n).
Proof.
  unfold priority_mutex. case_test; [done|]. intros [= <-].
  assert (∀ t c, replicate n Idle !! t = Some c → c = Idle) as Hr
    by (intros t c Hc; by apply lookup_replicate in Hc as [-> _]).
  constructor; simpl.
  - rewrite length_replicate. lia.
  - intros i k [-> _]%lookup_replicate. by rewrite count_replicate.
  - by intros t c ->%Hr.
  - by rewrite count_replicate.
  - by intros t p ?%Hr.
  - by intros t p ?%Hr.
Qed.

(** *** What the pieces of the mutex do *)

Lemma at_count_lookup q i : 0 ≤ i < Z.of_nat (length q) →
  ∃ n, q !! Z.to_nat i = Some n ∧ at_count q i = Ok n.
Proof.
  intros H. destruct (lookup_lt_is_Some_2 q (Z.to_nat i)) as [n Hn]; [lia|].
  exists n. split; [done|]. unfold at_count. case_test; [lia|]. by rewrite Hn.
Qed.

Lemma canGo_loop_spec q idx :
  (∀ i, i ∈ idx → 0 ≤ i < Z.of_nat (length q)) →
  ∃ b, canGo_loop q idx = Ok b ∧ (b = true ↔ ∀ i, i ∈ idx → q !! Z.to_nat i = Some 0).
Proof.
  induction idx as [|i idx IH]; intros Hr; simpl.
  - exists true. split; [done|]. split; [set_solver|done].
  - destruct (at_count_lookup q i) as (n & Hn & ->); [apply Hr; by left|]. simpl.
    destruct (Z.eqb_spec n 0) as [->|Hne]; simpl.
    + destruct IH as (b & -> & Hb); [intros; apply Hr; by right|].
      exists b. split; [done|]. rewrite Hb. split.
      * intros H j [->|Hj]%elem_of_cons; auto.
      * intros H j Hj. apply H. by right.
    + exists false. split; [done|]. split; [done|]. intros H.
      rewrite (H i (list_elem_of_here _ _)) in Hn. congruence.
Qed.

(** [canGo] tells whether a thread of a higher priority is counted. *)
Lemma canGo_above s prio : Inv s → 0 ≤ prio →
  ∃ b, canGo (mtx s) prio = Ok b ∧ (b = true ↔ count (above prio) (threads s) = 0).
Proof.
  intros HI Hp. destruct (canGo_loop_spec (queueCount_ (mtx s)) (range (prio + 1) (maxPrio_ (mtx s) + 1)))
    as (b & Hb & Hiff).
  { intros i Hi%elem_of_range. rewrite (inv_len _ HI). lia. }
  exists b. split; [done|]. rewrite Hiff, count_zero. split.
  - intros H t c Hc. unfold above. destruct (counted c) as [q|] eqn:Eq; [|done].
    assert (0 ≤ q ≤ maxPrio_ (mtx s)) as Hq
      by (pose proof (inv_valid _ HI t c Hc); destruct c; simplify_eq/=; lia).
    case_test; [|done]. exfalso.
    pose proof (inv_count _ HI _ _ (H q ltac:(apply elem_of_range; lia))) as Hz.
    assert (0 < count (queued (Z.of_nat (Z.to_nat q))) (threads s)); [|lia].
    eapply count_lookup; [done|]. unfold queued. rewrite Eq. apply Z.eqb_eq. lia.
  - intros H i Hi%elem_of_range. destruct (lookup_lt_is_Some_2 (queueCount_ (mtx s)) (Z.to_nat i)) as [n Hn].
    { pose proof (inv_len _ HI). lia. }
    rewrite Hn. f_equal. rewrite (inv_count _ HI _ _ Hn). apply count_zero.
    intros t c Hc. specialize (H t c Hc). unfold queued, above in *.
    destruct (counted c); [|done]. repeat case_test; try done; lia.
Qed.

Lemma change_count s prio d :
  Inv s → 0 ≤ prio ≤ maxPrio_ (mtx s) →
  ∃ n, at_count (queueCount_ (mtx s)) prio = Ok n ∧
    ∀ i k, <[Z.to_nat prio := n + d]> (queueCount_ (mtx s)) !! i = Some k →
      k = count (queued (Z.of_nat i)) (threads s) + if Z.of_nat i =? prio then d else 0.
Proof.
  intros HI Hp. destruct (at_count_lookup (queueCount_ (mtx s)) prio) as (n & Hn & ->).
  { rewrite (inv_len _ HI). lia. }
  exists n. split; [done|]. intros i k Hk. thread_cases Hk.
  - rewrite Z2Nat.id by lia. rewrite Z.eqb_refl. rewrite (inv_count _ HI _ _ Hn).
    rewrite Z2Nat.id by lia. done.
  - rewrite (inv_count _ HI _ _ Hk). case_test; lia.
Qed.

(** *** Every step keeps the invariant *)

(** One thread moves: what has to be checked of the new program point. *)
Lemma move_inv s t c m c' :
  Inv s → threads s !! t = Some c →
  maxPrio_ m = maxPrio_ (mtx s) → length (queueCount_ m) = length (queueCount_ (mtx s)) →
  (∀ i n, queueCount_ m !! i = Some n →
     n = count (queued (Z.of_nat i)) (threads s) - Z.b2z (queued (Z.of_nat i) c) + Z.b2z (queued (Z.of_nat i) c')) →
  valid_pc (maxPrio_ m) c' →
  Z.b2z (dataMutex_ m) = Z.b2z (dataMutex_ (mtx s)) - Z.b2z (owns c) + Z.b2z (owns c') →
  (∀ p, c' = LockPark p → 0 < count (above p) (threads s) ∧ above p c = false) →
  (∀ p, c' = LockSleep p → c = LockPark p) →
  (∀ p, Z.b2z (above p c) ≤ Z.b2z (above p c') ∨ (owns c = true ∧ owes c' = true)) →
  (owes c = true → owes c' = true) →
  Inv (move s t m c').
Proof.
  intros HI Hc Hmax Hlen Hcnt Hval Hdm Hpark Hsleep Hab How.
  pose proof (λ f, count_insert f _ _ _ c' Hc) as Hci.
  pose proof (b2z_le _ _ How) as Hle.
  constructor; simpl.
  - rewrite Hlen, Hmax. apply HI.
  - intros i n Hn. rewrite Hci. by apply Hcnt.
  - intros u d Hd. rewrite Hmax in *. thread_cases Hd; [done|]. by apply (inv_valid _ HI u).
  - rewrite Hci, (inv_owner _ HI). lia.
  - intros u p Hu. rewrite Hci. thread_cases Hu.
    + destruct (Hpark p eq_refl) as [Hp Hf]. rewrite Hf. b2z_lia.
    + pose proof (inv_park _ HI u p Hu). destruct (Hab p) as [?|[Ho _]]; [lia|].
      pose proof (count_two owns _ _ _ _ _ H Hc Hu Ho eq_refl). rewrite (inv_owner _ HI) in *. b2z_lia.
  - intros u p Hu. rewrite !Hci. thread_cases Hu.
    + rewrite (Hsleep p eq_refl) in *. pose proof (inv_park _ HI _ p Hc).
      pose proof (count_nonneg owes (threads s)).
      change (above p (LockSleep p)) with (above p (LockPark p)).
      change (owes (LockPark p)) with false. change (owes (LockSleep p)) with false. b2z_lia.
    + pose proof (inv_sleep _ HI u p Hu). destruct (Hab p) as [?|[Ho Ho']]; [lia|].
      pose proof (count_lookup_b2z (above p) _ _ _ Hc). pose proof (count_lookup_b2z owes _ _ _ Hc).
      rewrite Ho'. b2z_lia.
Qed.

Lemma notify_inv s t : Inv s → threads s !! t = Some UnlockNotify →
  Inv (State (mtx s) (wake <$> <[t := Idle]> (threads s))).
Proof.
  intros HI Hc. pose proof (λ f, count_insert f _ _ _ Idle Hc) as Hci.
  assert (∀ u c, (wake <$> <[t := Idle]> (threads s)) !! u = Some c →
    ∃ d, c = wake d ∧ (d = Idle ∨ u ≠ t ∧ threads s !! u = Some d)) as Hl.
  { intros u c (d & -> & Hd)%list_lookup_fmap_Some. exists d. split; [done|].
    thread_cases Hd; auto. }
  constructor; simpl.
  - apply HI.
  - intros i n Hn. rewrite count_fmap by (by intros []). rewrite Hci, (inv_count _ HI _ _ Hn). simpl. lia.
  - intros u c (d & -> & [->|[_ Hd]])%Hl; [done|]. pose proof (inv_valid _ HI _ _ Hd). by destruct d.
  - rewrite count_fmap by (by intros []). rewrite Hci, (inv_owner _ HI). simpl. lia.
  - intros u p Hu. apply Hl in Hu as (d & Hd & [->|[_ Hu]]); [done|].
    rewrite count_fmap by (by intros []). rewrite Hci. simpl.
    destruct d; simplify_eq/=. pose proof (inv_park _ HI _ _ Hu). lia.
  - intros u p Hu. apply Hl in Hu as (d & Hd & [->|[_ Hu]]); [done|]. by destruct d.
Qed.

(** A move that leaves the queue as it is. *)
Lemma move_same_inv s t c b c' :
  Inv s → threads s !! t = Some c → counted c = counted c' → valid_pc (maxPrio_ (mtx s)) c' →
  Z.b2z b = Z.b2z (dataMutex_ (mtx s)) - Z.b2z (owns c) + Z.b2z (owns c') →
  (∀ p, c' = LockPark p → 0 < count (above p) (threads s)) →
  (∀ p, c' = LockSleep p → c = LockPark p) →
  (owes c = true → owes c' = true) →
  Inv (move s t (set_dataMutex (mtx s) b) c').
Proof.
  intros HI Hc Hcnt Hv Hb Hpark Hsleep How.
  assert (∀ p, queued p c = queued p c') as Hq by (intros; unfold queued; by rewrite Hcnt).
  assert (∀ p, above p c = above p c') as Ha by (intros; unfold above; by rewrite Hcnt).
  eapply move_inv; [done|done|done|done| |done|done| |done| |done].
  - intros i n Hn. rewrite (inv_count _ HI _ _ Hn), Hq. lia.
  - intros p ->. split; [by apply Hpark|]. rewrite Ha. apply Z.ltb_irrefl.
  - intros p. left. rewrite Ha. lia.
Qed.

Lemma set_dataMutex_id m : set_dataMutex m (dataMutex_ m) = m.
Proof. by destruct m. Qed.

Lemma queued_eq p q c : counted c = Some p → queued q c = (q =? p).
Proof. intros H. unfold queued. rewrite H. apply Z.eqb_sym. Qed.

(** A step of a call: defined, and it keeps the invariant. *)
Lemma go_inv s t c : Inv s → threads s !! t = Some c →
  match go s t c with Some r => ∃ s', r = Ok s' ∧ Inv s' | None => True end.
Proof.
  intros HI Hc. pose proof (inv_valid _ HI t c Hc) as Hv.
  destruct c as [| |p|p|p|p|p|p| |]; simpl; try done; simpl in Hv.
  - destruct (change_count s p 1 HI Hv) as (n & E & Hn). unfold enqueue. rewrite E. simpl. eexists. split; [done|].
    eapply move_inv; [done|done|done| |..]; simpl; try done; try lia; try (intros q; left; simpl; b2z_lia).
    + by rewrite length_insert.
    + intros i k Hk%Hn. rewrite !(queued_eq p) by done. case_test; simpl; lia.
  - destruct (dataMutex_ (mtx s)) eqn:Ed; [done|]. eexists. split; [done|].
    eapply move_same_inv; try done. by rewrite Ed.
  - destruct (canGo_above s p HI) as (b & -> & Hb); [lia|]. simpl. eexists. split; [done|].
    rewrite <-(set_dataMutex_id (mtx s)). pose proof (count_nonneg (above p) (threads s)).
    eapply move_same_inv; try done; destruct b; try done; try (simpl; lia).
    intros q [= <-]. destruct (decide (count (above p) (threads s) = 0)) as [Hz|]; [|lia].
    by apply Hb in Hz.
  - eexists. split; [done|]. eapply move_same_inv; try done; [|congruence].
    pose proof (count_lookup owns _ _ _ Hc eq_refl) as Ho. rewrite (inv_owner _ HI) in Ho.
    destruct (dataMutex_ (mtx s)); simpl in *; lia.
  - destruct (change_count s p (-1) HI Hv) as (n & E & Hn). unfold dequeue. rewrite E. simpl. eexists. split; [done|].
    eapply move_inv; [done|done|done| |..]; simpl; try done; try lia; try (intros q; by right).
    + by rewrite length_insert.
    + intros i k Hk%Hn. rewrite !(queued_eq p) by done. case_test; simpl; lia.
  - eexists. split; [done|]. by apply notify_inv.
Qed.

Lemma step_inv s l : Inv s →
  match step s l with Some r => ∃ s', r = Ok s' ∧ Inv s' | None => True end.
Proof.
  intros HI. destruct l as [t prio|t prio|t|t|t]; simpl;
    destruct (threads s !! t) as [c|] eqn:Hc; try done.
  - assert (c = Idle ∨ c = Threw → Inv (call_lock s t prio)) as H.
    { intros Hc'. unfold call_lock, check_prio. rewrite <-(set_dataMutex_id (mtx s)).
      repeat case_test; simpl; eapply move_same_inv; try done; destruct Hc' as [->| ->]; try done; simpl; lia. }
    destruct c; eauto 10.
  - assert (c = Idle ∨ c = Threw → Inv (call_try_lock s t prio)) as H.
    { intros Hc'. unfold call_try_lock, check_prio.
      destruct (_ || _); [|destruct (dataMutex_ (mtx s)) eqn:Ed]; simpl;
        try rewrite <-(set_dataMutex_id (mtx s)) at 1;
        eapply move_same_inv; try done; destruct Hc' as [->| ->]; try done; rewrite ?Ed; simpl; lia. }
    destruct c; eauto 10.
  - destruct c; try done. eexists. split; [done|]. eapply move_same_inv; try done.
    pose proof (count_lookup owns _ _ _ Hc eq_refl) as Ho. rewrite (inv_owner _ HI) in Ho.
    destruct (dataMutex_ (mtx s)); simpl in *; lia.
  - by apply go_inv.
  - destruct c; try done. eexists. split; [done|]. rewrite <-(set_dataMutex_id (mtx s)).
    pose proof (inv_valid _ HI _ _ Hc). eapply move_same_inv; try done. simpl. lia.
Qed.

Lemma reachable_Inv max m n s :
  priority_mutex max = Ok m → reachable step (init m n) s → Inv s.
Proof.
  intros Hm. apply reachable_inv; [|by eapply init_inv].
  intros s1 l s2 H1 E. pose proof (step_inv s1 l H1) as H. rewrite E in H.
  destruct H as (s' & [= <-] & H). done.
Qed.

(** ** Theorems *)

Section mutex.
Context (max : Z) (m : mutex) (Hm : priority_mutex max = Ok m) (n : nat).

(** C33 At every reachable state at most one thread is between its lock of
    [dataMutex_] and its release of it, and [dataMutex_] is locked exactly when
    there is one; in particular two threads are never both past [lock]. *)
Theorem mutual_exclusion s : reachable step (init m n) s →
  (∀ t u c d, threads s !! t = Some c → threads s !! u = Some d →
     owns c = true → owns d = true → t = u) ∧
  (dataMutex_ (mtx s) = true ↔ ∃ t c, threads s !! t = Some c ∧ owns c = true).
Proof.
  intros HI%(reachable_Inv _ _ _ _ Hm). pose proof (inv_owner _ HI) as Ho. split.
  - intros t u c d Ht Hu Hc Hd. destruct (decide (t = u)); [done|].
    pose proof (count_two _ _ _ _ _ _ n0 Ht Hu Hc Hd). b2z_lia.
  - rewrite <-count_pos, Ho. destruct (dataMutex_ (mtx s)); simpl; split; done || lia.
Qed.

(** A thread that holds [dataMutex_] and tests the condition of its wait leaves
    the wait exactly when no thread of a higher priority is waiting at that
    moment; the test itself never reads outside of [queueCount_]. *)
Theorem priority_respected s t prio : reachable step (init m n) s →
  threads s !! t = Some (LockCheck prio) →
  ∃ s', step s (Go t) = Some (Ok s') ∧
    (threads s' !! t = Some (LockLeave prio) ↔
     ∀ u c q, threads s !! u = Some c → counted c = Some q → q ≤ prio).
Proof.
  intros HI%(reachable_Inv _ _ _ _ Hm) Ht. pose proof (inv_valid _ HI _ _ Ht) as Hv.
  destruct (canGo_above s prio HI) as (b & Hb & Hiff); [simpl in Hv; lia|].
  cbn [step]. rewrite Ht. cbn [mbind option_bind go]. rewrite Hb. eexists. split; [done|]. simpl.
  rewrite list_lookup_insert_eq by (by eapply lookup_lt_Some).
  trans (b = true); [destruct b; naive_solver|]. rewrite Hiff, count_zero. split.
  - intros H u c q Hu Hq. specialize (H u c Hu). unfold above in H. rewrite Hq in H.
    by apply Z.ltb_ge in H.
  - intros H u c Hu. unfold above. destruct (counted c) as [q|] eqn:Hq; [|done].
    apply Z.ltb_ge. eauto.
Qed.

(** [queueCount_[i]] is the number of threads that wait with priority [i], in
    every reachable state, and no step reads or writes outside of it. *)
Theorem queueCount_counts s : reachable step (init m n) s →
  (∀ i k, queueCount_ (mtx s) !! i = Some k → k = count (queued (Z.of_nat i)) (threads s)) ∧
  (∀ l r, step s l = Some r → ∃ s', r = Ok s').
Proof.
  intros HI%(reachable_Inv _ _ _ _ Hm). split; [apply HI|].
  intros l r E. pose proof (step_inv s l HI) as H. rewrite E in H. naive_solver.
Qed.
End mutex.

(** *** Calls return *)

(** Labels that are not new calls of [lock] or [try_lock]. *)
Definition closing (l : label) : bool :=
  match l with Go _ | Unlock _ => true | _ => false end.

(** What a thread can still do, [n] being the number of threads: a
    notification sends every sleeper back to [dataMutex_]. *)
Definition work (n : Z) (c : pc) : Z :=
  match c with
  | Idle | Threw => 0
  | UnlockNotify => 3 * n + 1
  | Holding => 3 * n + 2
  | LockLeave _ => 3 * n + 3
  | LockSleep _ => 3 * n + 4
  | LockPark _ => 3 * n + 5
  | LockCheck _ => 3 * n + 6
  | LockData _ => 3 * n + 7
  | LockEnter _ => 3 * n + 8
  end.

Definition work_left (s : state) : Z := wsum (work (Z.of_nat (length (threads s)))) (threads s).

Lemma closing_decreases s l s' :
  closing l = true → step s l = Some (Ok s') →
  length (threads s') = length (threads s) ∧ work_left s' < work_left s.
Proof.
  assert (∀ t c m c', threads s !! t = Some c →
    work (Z.of_nat (length (threads s))) c' < work (Z.of_nat (length (threads s))) c →
    length (threads (move s t m c')) = length (threads s) ∧ work_left (move s t m c') < work_left s) as Hmove.
  { intros t c m c' Hc Hw. unfold work_left. simpl. rewrite length_insert. split; [done|].
    rewrite (wsum_insert _ _ _ _ _ Hc). lia. }
  intros Hcl Hs. destruct l as [| |t|t|]; simplify_eq/=;
    destruct (threads s !! t) as [c|] eqn:Hc; simplify_eq/=.
  - destruct c; simplify_eq. eapply Hmove; [done|]. simpl. lia.
  - destruct c as [| |p|p|p|p|p|p| |]; simplify_eq/=; inv_res;
      try (eapply Hmove; [done|]; simpl; lia).
    + destruct (dataMutex_ (mtx s)); [done|]. injection Hs as <-. eapply Hmove; [done|]. simpl. lia.
    + eapply Hmove; [done|]. case_match; simpl; lia.
    + unfold work_left. simpl. rewrite length_fmap, length_insert. split; [done|].
      pose proof (wsum_fmap_le (work (Z.of_nat (length (threads s)))) wake 3 (<[t := Idle]> (threads s))) as Hw.
      rewrite length_insert, (wsum_insert _ _ _ _ _ Hc) in Hw. simpl in Hw.
      specialize (Hw ltac:(intros []; simpl; lia)). lia.
Qed.

(** Whenever a thread is inside of a call or holds the mutex, some thread can move. *)
Lemma closing_progress s t c :
  Inv s → threads s !! t = Some c → c ≠ Idle → c ≠ Threw →
  ∃ l, closing l = true ∧ step s l ≠ None.
Proof.
  intros HI.
  assert (∀ u d, threads s !! u = Some d → owns d = true ∨ owes d = true →
    ∃ l, closing l = true ∧ step s l ≠ None) as Hown.
  { intros u d Hu Hd. destruct d; try (by destruct Hd);
      first [exists (Go u); simpl; rewrite Hu; done | exists (Unlock u); simpl; rewrite Hu; done]. }
  assert (∀ k u d p, threads s !! u = Some d → counted d = Some p →
    maxPrio_ (mtx s) - p < Z.of_nat k → ∃ l, closing l = true ∧ step s l ≠ None) as Hq.
  { induction k as [|k IH]; intros u d p Hu Hp Hk.
    - pose proof (inv_valid _ HI _ _ Hu). destruct d; simplify_eq/=; lia.
    - destruct d; simplify_eq/=; try (eapply (Hown u); [done|by left]).
      + destruct (dataMutex_ (mtx s)) eqn:Ed.
        * pose proof (inv_owner _ HI) as Ho. rewrite Ed in Ho.
          destruct (proj1 (count_pos owns (threads s))) as (v & e & Hv & He); [simpl in Ho; lia|]. eauto.
        * exists (Go u). simpl. rewrite Hu. simpl. by rewrite Ed.
      + pose proof (inv_sleep _ HI _ _ Hu). destruct (decide (0 < count owes (threads s))) as [Hc|Hc].
        * apply count_pos in Hc as (v & e & Hv & He). eauto.
        * destruct (proj1 (count_pos (above p) (threads s))) as (v & e & Hv & He); [lia|].
          unfold above in He. destruct (counted e) as [q|] eqn:Eq; [|done]. apply Z.ltb_lt in He.
          eapply (IH v); [done..|lia]. }
  intros Ht H1 H2. destruct (counted c) as [p|] eqn:Ep.
  - eapply (Hq (Z.to_nat (maxPrio_ (mtx s) - p + 1))); [done..|]. pose proof (inv_valid _ HI _ _ Ht).
    destruct c; simplify_eq/=; lia.
  - destruct c; simplify_eq/=; try (eapply (Hown t); [done|by right]).
    exists (Go t). simpl. by rewrite Ht.
Qed.

(** Every call returns, in every schedule: without new calls a run from a
    reachable state has at most [work_left] steps, and a state in which no
    thread can move has no thread left inside of the mutex.  So no wake-up is
    lost, although [unlock] notifies without holding a mutex. *)
Theorem lock_calls_return max m n s tr s' :
  priority_mutex max = Ok m → reachable step (init m n) s →
  Forall (λ l, closing l = true) tr → run step tr s = Some s' →
  Z.of_nat (length tr) ≤ work_left s ∧
  ((∀ l, closing l = true → step s' l = None) →
   ∀ t c, threads s' !! t = Some c → c = Idle ∨ c = Threw).
Proof.
  intros Hm Hs Htr Hr. pose proof (run_bounded step closing work_left _ _ _ (λ s l s' H1 H2, proj2 (closing_decreases s l s' H1 H2)) Htr Hr).
  pose proof (wsum_nonneg (work (Z.of_nat (length (threads s')))) (threads s') ltac:(intros []; simpl; lia)) as Hn. split.
  - unfold work_left in *. lia.
  - intros Hstuck t c Ht.
    assert (Inv s') as HI.
    { eapply reachable_Inv; [done|]. destruct Hs as [tr0 H0]. exists (tr0 ++ tr). by rewrite run_app, H0. }
    destruct (decide (c = Idle)); [by left|]. destruct (decide (c = Threw)); [by right|].
    destruct (closing_progress s' t c HI Ht) as (l & Hl & Hne); [done..|]. by destruct Hne; apply Hstuck.
Qed.

(** *** Two threads and a high-priority one *)

Definition example_mutex : mutex := Mutex 2 [0; 0; 0] false.

(** Thread 0 (low) holds the mutex, thread 1 (low) sleeps since thread 2 (high) waits. *)
Definition example_trace : list label :=
  [Lock 0 0; Go 0; Go 0; Go 0; Go 0; Lock 1 0; Lock 2 2; Go 1; Go 2;
   Unlock 0; Go 1; Go 1; Go 1; Go 0; Go 2].

Definition example_end : state :=
  State (Mutex 2 [1; 0; 1] true) [Idle; LockData 0; LockCheck 2].

Lemma example_reachable : reachable step (init example_mutex 3) example_end.
Proof. exists example_trace. vm_compute. reflexivity. Qed.

Lemma mutual_exclusion_witness :
  dataMutex_ (mtx example_end) = true ↔ ∃ t c, threads example_end !! t = Some c ∧ owns c = true.
Proof. exact (proj2 (mutual_exclusion 2 example_mutex eq_refl 3 example_end example_reachable)). Defined.

Lemma priority_respected_witness :
  ∃ s', step example_end (Go 2) = Some (Ok s') ∧
    (threads s' !! 2%nat = Some (LockLeave 2) ↔
     ∀ u c q, threads example_end !! u = Some c → counted c = Some q → q ≤ 2).
Proof. exact (priority_respected 2 example_mutex eq_refl 3 example_end 2 2 example_reachable eq_refl). Defined.

Lemma queueCount_counts_witness :
  ∀ l r, step example_end l = Some r → ∃ s', r = Ok s'.
Proof. exact (proj2 (queueCount_counts 2 example_mutex eq_refl 3 example_end example_reachable)). Defined.

Lemma lock_calls_return_witness :
  Z.of_nat (length [Go 2; Go 2; Unlock 2; Go 1; Go 2; Go 1; Go 1; Unlock 1; Go 1]) ≤ work_left example_end.
Proof.
  refine (proj1 (lock_calls_return 2 example_mutex 3 example_end _ (State example_mutex [Idle; Idle; Idle])
    eq_refl example_reachable _ _)); [repeat constructor|vm_compute; reflexivity].
Defined.

(** ** Lock objects *)

(** The calls a lock object makes on a mutex. *)
Inductive call := CLock (prio : Z) | CTryLock (prio : Z) | CUnlock.

(** [src/cpid/prioritymutex.h:110-113] priority_lock *)
Record priority_lock := PriorityLock { pl_m : option nat; pl_locked : bool; default_prio_ : Z }.

(** [src/cpid/prioritymutex.h:116-116] priority_lock::priority_lock *)
Definition pl_default : priority_lock := PriorityLock None false 0.

(** [src/cpid/prioritymutex.h:117-118] priority_lock::priority_lock *)
Definition pl_make (m : nat) (default_prio : Z) : priority_lock := PriorityLock (Some m) false default_prio.

(** [src/cpid/prioritymutex.h:159-161] priority_lock::owns_lock *)
Definition pl_owns_lock (l : priority_lock) : bool := pl_locked l.

(** [src/cpid/prioritymutex.h:122-126] priority_lock::~priority_lock *)
Definition pl_destroy (l : priority_lock) : res (list (nat * call)) :=
  if pl_locked l then let? m := of_option (pl_m l) in Ok [(m, CUnlock)] else Ok [].

(** [src/cpid/prioritymutex.h:128-135] priority_lock::operator= *)
Definition pl_assign (l o : priority_lock) : res (list (nat * call) * priority_lock * priority_lock) :=
  let? calls := if pl_owns_lock l then let? m := of_option (pl_m l) in Ok [(m, CUnlock)] else Ok [] in
  Ok (calls, PriorityLock (pl_m o) (pl_locked o) (default_prio_ l), PriorityLock None false (default_prio_ o)).

(** [src/cpid/prioritymutex.h:137-140] priority_lock::lock *)
Definition pl_lock (l : priority_lock) (prio : Z) : res (list (nat * call) * priority_lock) :=
  let? m := of_option (pl_m l) in Ok ([(m, CLock prio)], PriorityLock (Some m) true (default_prio_ l)).

(** [src/cpid/prioritymutex.h:142-144] priority_lock::lock *)
Definition pl_lock_default (l : priority_lock) : res (list (nat * call) * priority_lock) :=
  pl_lock l (default_prio_ l).

(** [src/cpid/prioritymutex.h:146-149] priority_lock::unlock *)
Definition pl_unlock (l : priority_lock) : res (list (nat * call) * priority_lock) :=
  let? m := of_option (pl_m l) in Ok ([(m, CUnlock)], PriorityLock (Some m) false (default_prio_ l)).

(** [src/cpid/prioritymutex.h:151-157] priority_lock::try_lock, given what the mutex answers *)
Definition pl_try_lock (l : priority_lock) (prio : Z) (answer : bool) : res (list (nat * call) * priority_lock * bool) :=
  let? m := of_option (pl_m l) in
  Ok ([(m, CTryLock prio)], PriorityLock (Some m) (answer || pl_locked l) (default_prio_ l), answer).

(** After a move assignment [lock()] still asks for the target's own default
    priority: the priority of the lock that was moved in is lost. *)
Theorem assign_loses_priority :
  ∃ calls l o, pl_assign pl_default (pl_make 0 2) = Ok (calls, l, o) ∧
    (pl_lock_default l = Ok ([(0%nat, CLock 0)], PriorityLock (Some 0%nat) true 0)).
Proof. by eexists _, _, _. Qed.
End PriorityMutex.
