(* ===== verification/BufferedConsumer.v ===== *)
(** * Work queues with consumer threads ([common/parallel.h])

    [BufferedConsumer<T>]: a bounded queue whose items a pool of threads hands
    to a function.  The model has the worker threads of the pool and any number
    of client threads that call [enqueue], [enqueueOrReplaceOldest], [wait] and
    the destructor.  A step is the code a thread runs from one point where it
    can block to the next: taking [mutex_] or waking up, up to the release of
    [mutex_] or the end of a call of [fn_].  This is exact because every member
    the conditions of the waits read is written under [mutex_].  A log of what
    happened to each item is kept beside the members; no step reads it. *)

From S2P Require Import Prelude Threads.

Module BufferedConsumer.
Section consumer.
Context {T : Type}.

(** ** State *)

(** [src/common/parallel.h:71-79] BufferedConsumer *)
Record consumer := Consumer {
  maxQueueSize_ : nat; stop_ : bool; consuming_ : Z; queue_ : list T; nthreads : nat }.

(** Where a thread of the pool is. *)
Inductive worker :=
| WReady            (** awake, about to take [mutex_] and test its condition *)
| WSleep            (** asleep on [itemReady_] *)
| WBusy (item : T)  (** in [fn_], without [mutex_] *)
| WDone.            (** [run] returned *)

(** Where a client is. *)
Inductive client :=
| CIdle
| CThrew
| CReturned (replaced : bool)   (** [enqueueOrReplaceOldest] returned *)
| CEnqueue (arg : T)            (** in [enqueue], awake *)
| CEnqueueSleep (arg : T)       (** asleep on [itemDone_] *)
| CPushed                       (** pushed, before [itemReady_.notify_one()] *)
| CInline (arg : T)             (** no threads: in [fn_], holding [mutex_] *)
| CInlineDone                   (** no threads: before [itemDone_.notify_all()] *)
| CReplace (arg : T)            (** in [enqueueOrReplaceOldest], awake *)
| CReplaced (replaced : bool)   (** pushed, before [itemReady_.notify_one()] *)
| CWait                         (** in [wait], awake *)
| CWaitSleep                    (** asleep on [itemDone_] *)
| CDestroy                      (** in the destructor, before taking [mutex_] *)
| CStopped                      (** [stop_] set, before [itemReady_.notify_all()] *)
| CStopped2                     (** before [itemDone_.notify_all()] *)
| CJoin                         (** in the [join]s *)
| CDestroyed.

(** What happened to an item. *)
Inductive event :=
| Pushed (x : T)    (** put at the end of the queue, or taken on directly *)
| Taken (x : T)     (** [fn_(x)] was called *)
| Dropped (x : T)   (** replaced by a newer item *)
| Finished (x : T)  (** [fn_(x)] returned *)
| Failed (x : T).   (** [fn_(x)] threw *)

Record state := State {
  obj : consumer;
  held : bool;            (** a client holds [mutex_] while it is in [fn_] *)
  workers : list worker;
  clients : list client;
  log : list event }.

(** Assignments to the members. *)
Definition with_queue (c : consumer) (q : list T) (n : Z) : consumer :=
  Consumer (maxQueueSize_ c) (stop_ c) n q (nthreads c).
Definition with_stop (c : consumer) : consumer :=
  Consumer (maxQueueSize_ c) true (consuming_ c) (queue_ c) (nthreads c).

(** [src/common/parallel.h:125-138] BufferedConsumer::BufferedConsumer *)
Definition construct (nthreads maxQueueSize : nat) : res consumer :=
  if Nat.eqb maxQueueSize 0 && Nat.ltb 0 nthreads
  then Throw "Cannot construct BufferedConsumer with > 0 threads but zero-sized queue"
  else Ok (Consumer maxQueueSize false 0 [] nthreads).

(** The pool starts with the constructor, the clients come later. *)
Definition init (c : consumer) (nclients : nat) : state :=
  State c false (replicate (nthreads c) WReady) (replicate nclients CIdle) [].

(** ** Waking up *)

Definition wake_client (c : client) : client :=
  match c with CEnqueueSleep x => CEnqueue x | CWaitSleep => CWait | _ => c end.
Definition wake_worker (w : worker) : worker :=
  match w with WSleep => WReady | _ => w end.
Definition asleep (w : worker) : bool := match w with WSleep => true | _ => false end.

(** [itemReady_.notify_one()]: wakes [w], a sleeper if there is any. *)
Definition notify_one (ws : list worker) (w : nat) : option (list worker) :=
  match ws !! w with
  | Some WSleep => Some (<[w := WReady]> ws)
  | _ => if existsb asleep ws then None else Some ws
  end.

(** ** The pool *)

(** [src/common/parallel.h:214-226] BufferedConsumer::run *)
Definition run_head (s : state) (w : nat) : state :=
  let c := obj s in
  let go c' p ev := State c' (held s) (<[w := p]> (workers s)) (clients s) (log s ++ ev) in
  if stop_ c || negb (Nat.eqb (length (queue_ c)) 0) then
    if stop_ c then go c WDone [] else
    match queue_ c with
    | [] => go c WReady []
    | x :: q => go (with_queue c q (consuming_ c + 1)) (WBusy x) [Taken x]
    end
  else go c WSleep [].

(** [src/common/parallel.h:228-236] BufferedConsumer::run *)
Definition run_tail (s : state) (x : T) : state :=
  State (with_queue (obj s) (queue_ (obj s)) (consuming_ (obj s) - 1)) (held s) (workers s)
    (wake_client <$> clients s) (log s ++ [Finished x]).

(** [src/common/parallel.h:211-238] BufferedConsumer::run *)
Definition worker_go (s : state) (w : nat) : option (res state) :=
  if held s then None else
  match workers s !! w with
  | Some WReady => Some (Ok (run_head s w))
  | Some (WBusy x) => Some (Ok (run_head (run_tail s x) w))
  | _ => None
  end.

(** ** Clients *)

Definition at_client (s : state) (i : nat) (c : consumer) (p : client) (ev : list event) : state :=
  State c (held s) (workers s) (<[i := p]> (clients s)) (log s ++ ev).

(** [src/common/parallel.h:164-174] BufferedConsumer::enqueue *)
Definition enqueue_threads (s : state) (i : nat) (arg : T) : state :=
  let c := obj s in
  if stop_ c || Nat.ltb (length (queue_ c)) (maxQueueSize_ c) then
    if stop_ c then at_client s i c CThrew []
    else at_client s i (with_queue c (queue_ c ++ [arg]) (consuming_ c)) CPushed [Pushed arg]
  else at_client s i c (CEnqueueSleep arg) [].

(** [src/common/parallel.h:177-181] BufferedConsumer::enqueue *)
Definition enqueue_inline (s : state) (i : nat) (arg : T) : state :=
  let c := obj s in
  if stop_ c then at_client s i c CThrew []
  else State (with_queue c (queue_ c) (consuming_ c + 1)) true (workers s)
         (<[i := CInline arg]> (clients s)) (log s ++ [Pushed arg; Taken arg]).

(** [src/common/parallel.h:182-184] BufferedConsumer::enqueue *)
Definition enqueue_inline_return (s : state) (i : nat) (arg : T) : state :=
  State (with_queue (obj s) (queue_ (obj s)) (consuming_ (obj s) - 1)) false (workers s)
    (<[i := CInlineDone]> (clients s)) (log s ++ [Finished arg]).

(** An exception of [fn_] leaves the block, which releases [mutex_]. *)
Definition enqueue_inline_throw (s : state) (i : nat) (arg : T) : state :=
  State (obj s) false (workers s) (<[i := CThrew]> (clients s)) (log s ++ [Failed arg]).

(** [src/common/parallel.h:163-187] BufferedConsumer::enqueue *)
Definition enqueue (s : state) (i : nat) (arg : T) : state :=
  if Nat.ltb 0 (nthreads (obj s)) then enqueue_threads s i arg else enqueue_inline s i arg.

(** [src/common/parallel.h:194-208] BufferedConsumer::enqueueOrReplaceOldest *)
Definition enqueueOrReplaceOldest (s : state) (i : nat) (arg : T) : res state :=
  let c := obj s in
  if stop_ c then Ok (at_client s i c CThrew []) else
  if Nat.leb (maxQueueSize_ c) (length (queue_ c)) then
    match queue_ c with
    | [] => Undefined
    | x :: q => Ok (at_client s i (with_queue c (q ++ [arg]) (consuming_ c)) (CReplaced true) [Dropped x; Pushed arg])
    end
  else Ok (at_client s i (with_queue c (queue_ c ++ [arg]) (consuming_ c)) (CReplaced false) [Pushed arg]).

(** [src/common/parallel.h:156-160] BufferedConsumer::wait *)
Definition wait (s : state) (i : nat) : state :=
  let c := obj s in
  if stop_ c || (Nat.eqb (length (queue_ c)) 0 && (consuming_ c =? 0))
  then at_client s i c CIdle [] else at_client s i c CWaitSleep [].

Definition is_done (w : worker) : bool := match w with WDone => true | _ => false end.

(** [src/common/parallel.h:142-153] BufferedConsumer::~BufferedConsumer *)
Definition destroy (s : state) (i : nat) (p : client) : option state :=
  match p with
  | CDestroy => if held s then None else Some (at_client s i (with_stop (obj s)) CStopped [])
  | CStopped => Some (State (obj s) (held s) (wake_worker <$> workers s) (<[i := CStopped2]> (clients s)) (log s))
  | CStopped2 => Some (State (obj s) (held s) (workers s) (wake_client <$> <[i := CJoin]> (clients s)) (log s))
  | CJoin => if forallb is_done (workers s) then Some (at_client s i (obj s) CDestroyed []) else None
  | _ => None
  end.

(** What client [i] does next; [w] is the thread a [notify_one] wakes. *)
Definition client_go (s : state) (i w : nat) : option (res state) :=
  match clients s !! i with
  | Some (CEnqueue x) => if held s then None else Some (Ok (enqueue s i x))
  | Some (CInline x) => Some (Ok (enqueue_inline_return s i x))
  | Some CInlineDone => Some (Ok (State (obj s) (held s) (workers s) (wake_client <$> <[i := CIdle]> (clients s)) (log s)))
  | Some (CReplace x) => if held s then None else Some (enqueueOrReplaceOldest s i x)
  | Some CWait => if held s then None else Some (Ok (wait s i))
  | Some CPushed =>
      ws ← notify_one (workers s) w; Some (Ok (State (obj s) (held s) ws (<[i := CIdle]> (clients s)) (log s)))
  | Some (CReplaced b) =>
      ws ← notify_one (workers s) w; Some (Ok (State (obj s) (held s) ws (<[i := CReturned b]> (clients s)) (log s)))
  | Some p => s' ← destroy s i p; Some (Ok s')
  | None => None
  end.

(** ** Steps *)

Inductive label :=
| Enqueue (i : nat) (x : T) | Replace (i : nat) (x : T) | Wait (i : nat) | Destroy (i : nat)
| ClientGo (i w : nat) | WorkerGo (w : nat)
| FnThrows (i : nat)                              (** [fn_] throws in [enqueue] without threads *)
| SpuriousClient (i : nat) | SpuriousWorker (w : nat).

(** [src/common/parallel.h:190-193] BufferedConsumer::enqueueOrReplaceOldest *)
Definition replace_entry (s : state) (x : T) : client :=
  if Nat.ltb 0 (nthreads (obj s)) then CReplace x else CThrew.

(** A call starts in a client that is in none. *)
Definition call (s : state) (i : nat) (p : client) : option (res state) :=
  match clients s !! i with
  | Some CIdle | Some CThrew | Some (CReturned _) => Some (Ok (at_client s i (obj s) p []))
  | _ => None
  end.

Definition step (s : state) (l : label) : option (res state) :=
  match l with
  | Enqueue i x => call s i (CEnqueue x)
  | Replace i x => call s i (replace_entry s x)
  | Wait i => call s i CWait
  | Destroy i => call s i CDestroy
  | ClientGo i w => client_go s i w
  | WorkerGo w => worker_go s w
  | FnThrows i =>
      match clients s !! i with Some (CInline x) => Some (Ok (enqueue_inline_throw s i x)) | _ => None end
  | SpuriousClient i =>
      match clients s !! i with
      | Some (CEnqueueSleep x) => Some (Ok (at_client s i (obj s) (CEnqueue x) []))
      | Some CWaitSleep => Some (Ok (at_client s i (obj s) CWait []))
      | _ => None
      end
  | SpuriousWorker w =>
      match workers s !! w with
      | Some WSleep => Some (Ok (State (obj s) (held s) (<[w := WReady]> (workers s)) (clients s) (log s)))
      | _ => None
      end
  end.

(** ** What the log says *)

Definition pushed (l : list event) : list T := omap (λ e, match e with Pushed x => Some x | _ => None end) l.
Definition removed (l : list event) : list T :=
  omap (λ e, match e with Taken x | Dropped x => Some x | _ => None end) l.
Definition taken (l : list event) : list T := omap (λ e, match e with Taken x => Some x | _ => None end) l.
Definition dropped (l : list event) : list T := omap (λ e, match e with Dropped x => Some x | _ => None end) l.
Definition finished (l : list event) : list T := omap (λ e, match e with Finished x => Some x | _ => None end) l.
Definition failed (l : list event) : list T := omap (λ e, match e with Failed x => Some x | _ => None end) l.

Definition busy_item (w : worker) : option T := match w with WBusy x => Some x | _ => None end.
Definition inline_item (c : client) : option T := match c with CInline x => Some x | _ => None end.
Definition in_progress (s : state) : list T :=
  omap busy_item (workers s) ++ omap inline_item (clients s).

(** The members and the log agree. *)
Record DataInv (s : state) : Prop := {
  d_pool : length (workers s) = nthreads (obj s);
  d_cap : (0 < nthreads (obj s) → 0 < maxQueueSize_ (obj s))%nat;
  d_queue : (length (queue_ (obj s)) ≤ maxQueueSize_ (obj s))%nat;
  d_held : Z.of_nat (length (omap inline_item (clients s))) = Z.b2z (held s);
  d_inline : (0 < nthreads (obj s))%nat → omap inline_item (clients s) = [] ∧ failed (log s) = [];
  d_nopool : nthreads (obj s) = 0%nat →
    queue_ (obj s) = [] ∧
    ∀ i c, clients s !! i = Some c → match c with CReplace _ | CReplaced _ | CPushed | CEnqueueSleep _ => False | _ => True end;
  d_consuming : consuming_ (obj s) = Z.of_nat (length (in_progress s)) + Z.of_nat (length (failed (log s)));
  d_fifo : pushed (log s) = removed (log s) ++ queue_ (obj s);
  d_once : taken (log s) ≡ₚ in_progress s ++ finished (log s) ++ failed (log s)
}.

Definition pool_only (c : client) : Prop :=
  match c with CReplace _ | CReplaced _ | CPushed | CEnqueueSleep _ => False | _ => True end.

(** The data only depends on who has which item. *)
Lemma data_ext s c h ws cs :
  DataInv s →
  maxQueueSize_ c = maxQueueSize_ (obj s) → consuming_ c = consuming_ (obj s) →
  queue_ c = queue_ (obj s) → nthreads c = nthreads (obj s) → h = held s →
  length ws = length (workers s) → omap busy_item ws = omap busy_item (workers s) →
  omap inline_item cs = omap inline_item (clients s) →
  (nthreads (obj s) = 0%nat → ∀ i p, cs !! i = Some p → pool_only p) →
  DataInv (State c h ws cs (log s)).
Proof.
  intros [] H1 H2 H3 H4 -> H5 H6 H7 H8.
  constructor; unfold in_progress in *; simpl; rewrite ?H1, ?H2, ?H3, ?H4, ?H5, ?H6, ?H7; try done.
  intros H0. split; [by apply d_nopool0|]. intros i p Hp. by apply H8 in Hp.
Qed.

Lemma pool_only_insert s i p :
  DataInv s → (nthreads (obj s) = 0%nat → pool_only p) →
  nthreads (obj s) = 0%nat → ∀ j q, <[i := p]> (clients s) !! j = Some q → pool_only q.
Proof.
  intros HD Hp H0 j q Hq. thread_cases Hq; [by apply Hp|].
  by apply (proj2 (d_nopool _ HD H0) j).
Qed.

Lemma data_client s i p p' c :
  DataInv s → clients s !! i = Some p → inline_item p = inline_item p' →
  (nthreads (obj s) = 0%nat → pool_only p') →
  maxQueueSize_ c = maxQueueSize_ (obj s) → consuming_ c = consuming_ (obj s) →
  queue_ c = queue_ (obj s) → nthreads c = nthreads (obj s) →
  DataInv (at_client s i c p' []).
Proof.
  intros HD Hp Hi Hn H1 H2 H3 H4. unfold at_client. rewrite app_nil_r.
  apply data_ext; try done; [by eapply omap_insert_same|]. by apply pool_only_insert.
Qed.

Lemma data_wake s ws cs :
  DataInv s → length ws = length (workers s) → omap busy_item ws = omap busy_item (workers s) →
  omap inline_item cs = omap inline_item (clients s) →
  (nthreads (obj s) = 0%nat → ∀ i p, cs !! i = Some p → pool_only p) →
  DataInv (State (obj s) (held s) ws (wake_client <$> cs) (log s)).
Proof.
  intros HD H1 H2 H3 H4. apply data_ext; try done.
  - rewrite omap_fmap_same; [done|]. by intros [].
  - intros H0 i p (q & -> & Hq)%list_lookup_fmap_Some. specialize (H4 H0 _ _ Hq). by destruct q.
Qed.

Lemma notify_one_spec ws w ws' : notify_one ws w = Some ws' →
  (∃ u, ws !! u = Some WSleep ∧ ws' = <[u := WReady]> ws) ∨ (ws' = ws ∧ count asleep ws = 0).
Proof.
  unfold notify_one. intros H.
  assert (existsb asleep ws = false → count asleep ws = 0) as Hn.
  { clear. induction ws as [|x ws IH]; simpl; [done|]. intros [-> H]%orb_false_iff. by rewrite IH. }
  destruct (ws !! w) as [[]|] eqn:Ew; simplify_eq; eauto;
    destruct (existsb asleep ws) eqn:E; simplify_eq; eauto.
Qed.

Lemma data_notify s i p p' ws w :
  DataInv s → clients s !! i = Some p → inline_item p = inline_item p' →
  (nthreads (obj s) = 0%nat → pool_only p') →
  notify_one (workers s) w = Some ws →
  DataInv (State (obj s) (held s) ws (<[i := p']> (clients s)) (log s)).
Proof.
  intros HD Hp Hi Hn Hw. apply data_ext; try done.
  - apply notify_one_spec in Hw as [(u & Hu & ->)|[-> _]]; [by rewrite length_insert|done].
  - apply notify_one_spec in Hw as [(u & Hu & ->)|[-> _]]; [by eapply omap_insert_same|done].
  - by eapply omap_insert_same.
  - by apply pool_only_insert.
Qed.

Ltac log_simpl :=
  unfold in_progress, pushed, removed, taken, dropped, finished, failed in *; simpl;
  rewrite ?omap_app; simpl; rewrite ?app_nil_r.

(** [fn_] is called on the head of the queue. *)
Lemma data_take s w p x q :
  DataInv s → workers s !! w = Some p → busy_item p = None → queue_ (obj s) = x :: q →
  DataInv (State (with_queue (obj s) q (consuming_ (obj s) + 1)) (held s)
             (<[w := WBusy x]> (workers s)) (clients s) (log s ++ [Taken x])).
Proof.
  intros [] Hw Hp Hq. pose proof (omap_insert busy_item _ _ _ (WBusy x) Hw) as Hperm.
  rewrite Hp in Hperm. simpl in Hperm.
  assert (nthreads (obj s) ≠ 0%nat) as Hn.
  { rewrite <-d_pool0. apply lookup_lt_Some in Hw. lia. }
  constructor; log_simpl; try done.
  - by rewrite length_insert.
  - rewrite Hq in d_queue0. simpl in d_queue0. lia.
  - rewrite d_consuming0, !length_app, Hperm. simpl. lia.
  - by rewrite d_fifo0, Hq, <-app_assoc.
  - rewrite d_once0, Hperm. simpl. by rewrite Permutation_app_comm.
Qed.

Lemma data_run_head s w p :
  DataInv s → workers s !! w = Some p → busy_item p = None → DataInv (run_head s w).
Proof.
  intros HD Hw Hp. unfold run_head.
  assert (∀ p', busy_item p' = None →
    DataInv (State (obj s) (held s) (<[w := p']> (workers s)) (clients s) (log s ++ []))) as Hsame.
  { intros p' Hp'. rewrite app_nil_r. apply data_ext; try done; [by rewrite length_insert| |].
    - eapply omap_insert_same; [done|congruence].
    - intros H0. by apply (d_nopool _ HD H0). }
  destruct (stop_ (obj s)); simpl; [by apply Hsame|].
  destruct (queue_ (obj s)) as [|x q] eqn:Eq; simpl; [by apply Hsame|]. by eapply data_take.
Qed.

Lemma perm_move {A} (x : A) l1 l2 l3 : x :: l1 ++ l2 ++ l3 ≡ₚ l1 ++ (l2 ++ [x]) ++ l3.
Proof. rewrite <-app_assoc. simpl. rewrite !app_assoc. apply Permutation_middle. Qed.

(** Permutations of concatenations that differ in where one item is. *)
Ltac to_front :=
  rewrite <-?Permutation_cons_append, <-?app_assoc; simpl;
  rewrite <-?Permutation_cons_append, <-?Permutation_middle; done.

(** [fn_] returned; the worker is not in [fn_] any more once its next move is made. *)
Lemma data_run_tail s w x :
  DataInv s → workers s !! w = Some (WBusy x) → DataInv (run_head (run_tail s x) w).
Proof.
  intros HD Hw. set (s1 := run_tail s x).
  assert (DataInv (State (obj s1) (held s1) (<[w := WReady]> (workers s)) (clients s1) (log s1))) as H1.
  { pose proof HD as []. pose proof (omap_insert busy_item _ _ _ WReady Hw) as Hperm. simpl in Hperm.
    assert (omap inline_item (wake_client <$> clients s) = omap inline_item (clients s)) as Hin
      by (apply omap_fmap_same; by intros []).
    assert (nthreads (obj s) ≠ 0%nat) as Hn.
    { rewrite <-d_pool0. apply lookup_lt_Some in Hw. lia. }
    constructor; log_simpl; try rewrite Hin; try done.
    - by rewrite length_insert.
    - rewrite d_consuming0, !length_app, <-Hperm. simpl. lia.
    - rewrite d_once0, <-Hperm. apply perm_move. }
  assert (run_head s1 w = run_head (State (obj s1) (held s1) (<[w := WReady]> (workers s)) (clients s1) (log s1)) w) as ->.
  { unfold run_head. simpl. destruct (stop_ (obj s)), (queue_ (obj s)); simpl; rewrite list_insert_insert_eq; reflexivity. }
  apply (data_run_head _ _ WReady); [done| |done]. simpl. rewrite list_lookup_insert_eq; [done|]. by eapply lookup_lt_Some.
Qed.

(** An item is put into the queue, maybe in place of the oldest one. *)
Lemma data_push s i p p' arg old q :
  DataInv s → clients s !! i = Some p → inline_item p = inline_item p' →
  (0 < nthreads (obj s))%nat → queue_ (obj s) = old ++ q → (length q < maxQueueSize_ (obj s))%nat →
  DataInv (at_client s i (with_queue (obj s) (q ++ [arg]) (consuming_ (obj s))) p' ((Dropped <$> old) ++ [Pushed arg])).
Proof.
  intros [] Hp Hi Hn Hq Hlen. pose proof (omap_insert_same inline_item _ _ _ p' Hp Hi) as Hin.
  set (ev := (Dropped <$> old) ++ [Pushed arg]).
  assert (∀ f : event → option T, (∀ x, f (Dropped x) = None) → omap f (log s ++ ev) = omap f (log s) ++ omap f [Pushed arg]) as Hold.
  { intros f Hf. unfold ev. rewrite !omap_app. f_equal. clear Hq.
    induction old as [|x l IH]; csimpl; [done|]. by rewrite Hf. }
  assert (removed (log s ++ ev) = removed (log s) ++ old) as Hrem.
  { unfold removed, ev. rewrite !omap_app. simpl. rewrite app_nil_r. f_equal. clear.
    induction old as [|x l IH]; csimpl; [done|]. by rewrite IH. }
  assert (failed (log s ++ ev) = failed (log s)) as Hf by (unfold failed; rewrite Hold by done; apply app_nil_r).
  constructor; unfold in_progress in *; simpl; rewrite ?Hin, ?Hf; try done; try lia.
  - rewrite length_app. simpl. lia.
  - rewrite Hrem. unfold pushed in *. rewrite Hold by done. simpl. rewrite d_fifo0, Hq. by rewrite <-!app_assoc.
  - unfold taken, finished in *. rewrite !Hold by done. simpl. by rewrite !app_nil_r.
Qed.

(** *** The zero-thread variant *)

Lemma data_inline s i arg :
  DataInv s → clients s !! i = Some (CEnqueue arg) → nthreads (obj s) = 0%nat → held s = false →
  DataInv (State (with_queue (obj s) (queue_ (obj s)) (consuming_ (obj s) + 1)) true (workers s)
             (<[i := CInline arg]> (clients s)) (log s ++ [Pushed arg; Taken arg])).
Proof.
  intros HD Hp Hn Hh. pose proof HD as []. pose proof (omap_insert inline_item _ _ _ (CInline arg) Hp) as Hperm.
  simpl in Hperm. destruct (d_nopool0 Hn) as [Hq _]. rewrite Hh in d_held0. simpl in d_held0.
  constructor; log_simpl; try done; try lia.
  - rewrite Hperm. simpl. lia.
  - intros H0. split; [done|]. by apply (pool_only_insert s i (CInline arg)).
  - rewrite d_consuming0, !length_app, Hperm. simpl. lia.
  - rewrite d_fifo0, Hq. by rewrite !app_nil_r.
  - rewrite d_once0, Hperm. to_front.
Qed.

Lemma data_inline_end s i arg p c ev :
  DataInv s → clients s !! i = Some (CInline arg) →
  (p = CInlineDone ∧ c = with_queue (obj s) (queue_ (obj s)) (consuming_ (obj s) - 1) ∧ ev = Finished arg) ∨
  (p = CThrew ∧ c = obj s ∧ ev = Failed arg) →
  DataInv (State c false (workers s) (<[i := p]> (clients s)) (log s ++ [ev])).
Proof.
  intros HD Hp Hcase. pose proof HD as []. pose proof (omap_insert inline_item _ _ _ p Hp) as Hperm.
  assert (arg ∈ omap inline_item (clients s)) as Harg
    by (apply list_elem_of_omap; eexists; split; [by eapply list_elem_of_lookup_2|done]).
  assert (nthreads (obj s) = 0%nat) as Hn.
  { destruct (decide (nthreads (obj s) = 0%nat)) as [|Hne]; [done|].
    destruct d_inline0 as [E _]; [lia|]. rewrite E in Harg. by apply not_elem_of_nil in Harg. }
  assert (omap inline_item (clients s) ≡ₚ arg :: omap inline_item (<[i := p]> (clients s))) as Hin
    by (destruct Hcase as [(-> & _)|(-> & _)]; by rewrite <-Hperm).
  assert (length (omap inline_item (<[i := p]> (clients s))) = 0%nat) as H0.
  { rewrite Hin in d_held0. simpl in d_held0. destruct (held s); simpl in d_held0; lia. }
  apply nil_length_inv in H0. rewrite H0 in Hin.
  assert (nthreads c = nthreads (obj s) ∧ maxQueueSize_ c = maxQueueSize_ (obj s) ∧ queue_ c = queue_ (obj s))
    as (Hc1 & Hc2 & Hc3) by (by destruct Hcase as [(_ & -> & _)|(_ & -> & _)]).
  constructor; log_simpl; rewrite ?Hc1, ?Hc2, ?Hc3, ?H0; try done; try lia.
  - intros _. split; [by apply d_nopool0|]. apply (pool_only_insert s i p); [done| |done].
    by destruct Hcase as [(-> & _)|(-> & _)].
  - destruct Hcase as [(_ & -> & ->)|(_ & -> & ->)]; simpl;
      rewrite d_consuming0, ?length_app, Hin; simpl; rewrite ?app_nil_r; lia.
  - destruct Hcase as [(_ & _ & ->)|(_ & _ & ->)]; simpl; by rewrite !app_nil_r.
  - rewrite Hin in d_once0. destruct Hcase as [(_ & _ & ->)|(_ & _ & ->)]; simpl; rewrite !app_nil_r, d_once0.
    + to_front.
    + to_front.
Qed.

Lemma data_inv_init nt mx c n : construct nt mx = Ok c → DataInv (init c n).
Proof.
  unfold construct. destruct (Nat.eqb_spec mx 0); [destruct (Nat.ltb_spec 0 nt); [done|]|]; simpl;
    intros [= <-]; constructor; unfold in_progress; simpl; rewrite ?length_replicate; try done; try lia.
  all: rewrite ?(omap_replicate_None busy_item), ?(omap_replicate_None inline_item) by done; try done.
  all: intros _; split; [done|]; by intros i q [-> _]%lookup_replicate.
Qed.

(** *** Every step keeps the data *)

Lemma data_call s i p r :
  DataInv s → inline_item p = None → (nthreads (obj s) = 0%nat → pool_only p) →
  call s i p = Some r → ∃ s', r = Ok s' ∧ DataInv s'.
Proof.
  unfold call. intros HD Hp Hn H. destruct (clients s !! i) as [[]|] eqn:Ei; simplify_eq;
    (eexists; split; [done|]; by eapply data_client).
Qed.

Lemma data_enqueue s i x :
  DataInv s → clients s !! i = Some (CEnqueue x) → held s = false → DataInv (enqueue s i x).
Proof.
  intros HD Hi Hh. unfold enqueue, enqueue_threads, enqueue_inline.
  destruct (Nat.ltb_spec 0 (nthreads (obj s))) as [Hn|Hn]; destruct (stop_ (obj s)); simpl.
  - by eapply data_client.
  - destruct (Nat.ltb_spec (length (queue_ (obj s))) (maxQueueSize_ (obj s))).
    + by apply (data_push s i (CEnqueue x) CPushed x [] _).
    + eapply data_client; try done. lia.
  - by eapply data_client.
  - apply data_inline; [done..|lia|done].
Qed.

Lemma data_replace s i x :
  DataInv s → clients s !! i = Some (CReplace x) →
  ∃ s', enqueueOrReplaceOldest s i x = Ok s' ∧ DataInv s'.
Proof.
  intros HD Hi. unfold enqueueOrReplaceOldest.
  assert (0 < nthreads (obj s))%nat as Hn.
  { destruct (decide (nthreads (obj s) = 0%nat)) as [H0|]; [|lia].
    by apply (d_nopool _ HD H0) in Hi. }
  pose proof (d_cap _ HD Hn). pose proof (d_queue _ HD).
  destruct (stop_ (obj s)); [eexists; split; [done|]; by eapply data_client|].
  destruct (Nat.leb_spec (maxQueueSize_ (obj s)) (length (queue_ (obj s)))).
  - destruct (queue_ (obj s)) as [|y q] eqn:Eq; simpl in *; [lia|]. eexists. split; [done|].
    apply (data_push s i (CReplace x) (CReplaced true) x [y] q); done || lia.
  - eexists. split; [done|]. by apply (data_push s i (CReplace x) (CReplaced false) x [] _).
Qed.

Lemma data_destroy s i p s' :
  DataInv s → clients s !! i = Some p → destroy s i p = Some s' → DataInv s'.
Proof.
  intros HD Hi H. destruct p; simplify_eq/=.
  - destruct (held s); simplify_eq. by eapply data_client.
  - apply data_ext; try done; [by rewrite length_fmap| |by eapply omap_insert_same|by apply pool_only_insert].
    apply omap_fmap_same. by intros [].
  - apply data_wake; try done; [by eapply omap_insert_same|by apply pool_only_insert].
  - destruct (forallb _ _); simplify_eq. by eapply data_client.
Qed.

Lemma data_client_go s i w r :
  DataInv s → client_go s i w = Some r → ∃ s', r = Ok s' ∧ DataInv s'.
Proof.
  intros HD H. unfold client_go in H. destruct (clients s !! i) as [p|] eqn:Ei; [|done].
  assert (destroy s i p ≫= (λ s', Some (Ok s')) = Some r → ∃ s', r = Ok s' ∧ DataInv s') as Hd.
  { intros (s' & Hs & [= <-])%bind_Some. eexists. split; [done|]. by eapply data_destroy. }
  destruct p; try (by apply Hd); clear Hd.
  - destruct (held s) eqn:Eh; simplify_eq. eexists. split; [done|]. by apply data_enqueue.
  - apply bind_Some in H as (ws & Hw & [= <-]). eexists. split; [done|]. by eapply data_notify.
  - injection H as <-. eexists. split; [done|]. eapply data_inline_end; [done..|left; done].
  - injection H as <-. eexists. split; [done|].
    apply data_wake; try done; [by eapply omap_insert_same|by apply pool_only_insert].
  - destruct (held s) eqn:Eh; simplify_eq. destruct (data_replace s i arg) as (s' & -> & Hs'); eauto.
  - apply bind_Some in H as (ws & Hw & [= <-]). eexists. split; [done|]. by eapply data_notify.
  - destruct (held s) eqn:Eh; simplify_eq. eexists. split; [done|].
    unfold wait. case_match; by eapply data_client.
Qed.

Lemma data_step s l r : DataInv s → step s l = Some r → ∃ s', r = Ok s' ∧ DataInv s'.
Proof.
  intros HD H. destruct l as [i x|i x|i|i|i w|w|i|i|w]; simpl in H.
  - by apply (data_call s i (CEnqueue x) r).
  - apply (data_call s i (replace_entry s x) r); try done; unfold replace_entry; destruct (Nat.ltb_spec 0 (nthreads (obj s))); done || lia.
  - by apply (data_call s i CWait r).
  - by apply (data_call s i CDestroy r).
  - by eapply data_client_go.
  - unfold worker_go in H. destruct (held s); [done|].
    destruct (workers s !! w) as [[]|] eqn:Ew; simplify_eq; (eexists; split; [done|]).
    + by apply (data_run_head s w WReady).
    + by apply data_run_tail.
  - destruct (clients s !! i) as [[]|] eqn:Ei; simplify_eq. eexists. split; [done|].
    eapply data_inline_end; [done..|right; done].
  - destruct (clients s !! i) as [[]|] eqn:Ei; simplify_eq; (eexists; split; [done|]); by eapply data_client.
  - destruct (workers s !! w) as [[]|] eqn:Ew; simplify_eq. eexists. split; [done|].
    apply data_ext; try done; [by rewrite length_insert|by eapply omap_insert_same|].
    intros H0. apply (d_nopool _ HD H0).
Qed.

Lemma reachable_data nt mx c n s :
  construct nt mx = Ok c → reachable step (init c n) s → DataInv s.
Proof.
  intros Hc. apply reachable_inv; [|by eapply data_inv_init].
  intros s1 l s2 H1 E. destruct (data_step _ _ _ H1 E) as (s' & [= <-] & H). done.
Qed.

(** ** No wake-up is lost *)

Definition active (w : worker) : bool := match w with WReady | WBusy _ => true | _ => false end.
Definition busy (w : worker) : bool := match w with WBusy _ => true | _ => false end.
(** About to call [itemReady_.notify_one()]. *)
Definition pushing (c : client) : bool := match c with CPushed | CReplaced _ => true | _ => false end.
(** About to call [itemDone_.notify_all()] after a call of [fn_]. *)
Definition inline_done (c : client) : bool := match c with CInlineDone => true | _ => false end.
(** About to call both [notify_all]s of the destructor, or the second one. *)
Definition stopping (c : client) : bool := match c with CStopped => true | _ => false end.
Definition stopping2 (c : client) : bool := match c with CStopped | CStopped2 => true | _ => false end.
Definition client_asleep (c : client) : bool := match c with CEnqueueSleep _ | CWaitSleep => true | _ => false end.

Record Wake (c : consumer) (ws : list worker) (cs : list client) : Prop := {
  w_ready : stop_ c = false → queue_ c ≠ [] → 0 < count active ws + count pushing cs;
  w_done : stop_ c = false → count is_done ws = 0;
  w_enqueue : ∀ i x, stop_ c = false → cs !! i = Some (CEnqueueSleep x) →
    (maxQueueSize_ c ≤ length (queue_ c))%nat ∨ 0 < count busy ws;
  w_wait : ∀ i, stop_ c = false → cs !! i = Some CWaitSleep →
    queue_ c ≠ [] ∨ consuming_ c ≠ 0 ∨ 0 < count inline_done cs;
  w_stop_workers : stop_ c = true → 0 < count asleep ws → 0 < count stopping cs;
  w_stop_clients : stop_ c = true → 0 < count client_asleep cs → 0 < count stopping2 cs
}.

(** A client moves on; a sleeper says what it waits for. *)
Lemma wake_client_move c ws cs i p p' :
  Wake c ws cs → cs !! i = Some p →
  (∀ f, f ∈ [pushing; inline_done; stopping; stopping2] → f p = true → f p' = true) →
  match p' with
  | CEnqueueSleep _ => stop_ c = false ∧ (maxQueueSize_ c ≤ length (queue_ c))%nat
  | CWaitSleep => stop_ c = false ∧ (queue_ c ≠ [] ∨ consuming_ c ≠ 0)
  | _ => True
  end →
  Wake c ws (<[i := p']> cs).
Proof.
  intros [] Hp Hf Hs. pose proof (λ f, count_insert f _ _ _ p' Hp) as Hci.
  assert (∀ f, f ∈ [pushing; inline_done; stopping; stopping2] → count f cs ≤ count f (<[i := p']> cs)) as Hle.
  { intros f Hin. rewrite Hci. pose proof (b2z_le _ _ (Hf f Hin)). lia. }
  pose proof (Hle pushing ltac:(set_solver)) as L1. pose proof (Hle inline_done ltac:(set_solver)) as L2.
  pose proof (Hle stopping ltac:(set_solver)) as L3. pose proof (Hle stopping2 ltac:(set_solver)) as L4.
  constructor.
  - intros H1 H2. specialize (w_ready0 H1 H2). lia.
  - done.
  - intros j x H1 Hj. thread_cases Hj; [left; by apply Hs|by eapply w_enqueue0].
  - intros j H1 Hj. thread_cases Hj; [naive_solver|]. destruct (w_wait0 _ H1 Hj) as [?|[?|?]]; auto. right. right. lia.
  - intros H1 H2. specialize (w_stop_workers0 H1 H2). lia.
  - intros H1. destruct (client_asleep p') eqn:Ea.
    + destruct p'; try done; by destruct Hs as [E _]; rewrite E in H1.
    + intros H2. assert (0 < count client_asleep cs) as Hc; [|specialize (w_stop_clients0 H1 Hc); lia].
      rewrite Hci, Ea in H2. b2z_lia.
Qed.

(** [itemDone_.notify_all()] *)
Lemma wake_clients_all c ws cs :
  Wake c ws cs →
  Wake c ws (wake_client <$> cs) ∧ count client_asleep (wake_client <$> cs) = 0.
Proof.
  intros []. assert (count client_asleep (wake_client <$> cs) = 0) as Ha.
  { apply count_zero. intros i p (q & -> & _)%list_lookup_fmap_Some. by destruct q. }
  split; [|done]. constructor; rewrite ?Ha, ?count_fmap by (by intros []); try done.
  - intros i x _ (q & E & _)%list_lookup_fmap_Some. by destruct q.
  - intros i _ (q & E & _)%list_lookup_fmap_Some. by destruct q.
Qed.

(** Without sleeping clients only the pool matters. *)
Lemma wake_no_sleepers c c' ws cs :
  Wake c ws cs → count client_asleep cs = 0 →
  stop_ c' = stop_ c → (queue_ c' ≠ [] → queue_ c ≠ []) → Wake c' ws cs.
Proof.
  intros [] H0 Hs Hq. rewrite count_zero in H0.
  constructor; rewrite ?Hs; try done; auto.
  - by intros i x _ H%H0.
  - by intros i _ H%H0.
Qed.

Lemma wake_push c ws cs q :
  Wake c ws cs → 0 < count pushing cs → (length (queue_ c) ≤ length q)%nat → q ≠ [] →
  Wake (with_queue c q (consuming_ c)) ws cs.
Proof.
  intros [] Hp Hq Hne. pose proof (count_nonneg active ws) as L1. constructor; simpl; try done.
  - intros. lia.
  - intros i y H1 Hi. destruct (w_enqueue0 _ _ H1 Hi); [left; lia|by right].
  - intros i H1 Hi. by left.
Qed.

(** A client moves on and wakes all of them. *)
Lemma wake_client_move_all c ws cs i p p' :
  Wake c ws cs → cs !! i = Some p → pushing p = false → stopping p = false →
  Wake c ws (wake_client <$> <[i := p']> cs).
Proof.
  intros [] Hp H1 H2. pose proof (λ f, count_insert f _ _ _ p' Hp) as Hci.
  assert (∀ j q, (wake_client <$> <[i := p']> cs) !! j = Some q → client_asleep q = false) as Ha.
  { intros j q (v & -> & _)%list_lookup_fmap_Some. by destruct v. }
  constructor; rewrite ?(count_fmap pushing), ?(count_fmap stopping), ?Hci, ?H1, ?H2 by (by intros []); simpl; try done.
  - intros H3 H4. specialize (w_ready0 H3 H4). b2z_lia.
  - by intros j x _ Hj%Ha.
  - by intros j _ Hj%Ha.
  - intros H3 H4. specialize (w_stop_workers0 H3 H4). b2z_lia.
  - intros _ (j & q & Hj & Hq)%count_pos. by rewrite (Ha _ _ Hj) in Hq.
Qed.

(** A worker at the head of its loop. *)
Lemma wake_run_head s w p :
  Wake (obj s) (workers s) (clients s) → workers s !! w = Some p → active p = true →
  (busy p = true → count client_asleep (clients s) = 0) → 0 ≤ consuming_ (obj s) →
  Wake (obj (run_head s w)) (workers (run_head s w)) (clients (run_head s w)).
Proof.
  intros HW Hw Hp Hb Hc. pose proof HW as [].
  pose proof (λ p' f, count_insert f _ _ _ p' Hw) as Hci.
  assert (asleep p = false) as Has by (by destruct p). assert (is_done p = false) as Hd by (by destruct p).
  pose proof (count_nonneg busy (workers s)) as L1. pose proof (count_nonneg pushing (clients s)) as L2.
  pose proof (count_lookup_b2z active _ _ _ Hw) as L3. pose proof (count_lookup_b2z busy _ _ _ Hw) as L4.
  unfold run_head. destruct (stop_ (obj s)) eqn:Es; simpl.
  - constructor; rewrite ?Hci, ?Es, ?Has; try done. simpl. intros _ H1. apply w_stop_workers0; [done|lia].
  - destruct (queue_ (obj s)) as [|x q] eqn:Eq; simpl.
    + constructor; rewrite ?Hci, ?Es, ?Eq, ?Hd; simpl; try done.
      * intros _. rewrite w_done0; done.
      * intros i x _ Hi. destruct (w_enqueue0 i x eq_refl Hi) as [?|?]; [by left|].
        destruct (busy p) eqn:Eb; [|simpl; right; lia].
        by rewrite count_zero in Hb; specialize (Hb eq_refl _ _ Hi).
    + constructor; simpl; rewrite ?Hci, ?Es, ?Hd; simpl; try done.
      * intros. b2z_lia.
      * intros _. rewrite w_done0; done.
      * intros i y _ Hi. right. b2z_lia.
      * intros i _ Hi. right. left. lia.
Qed.

Lemma wake_notify_one c ws cs i p p' w ws' :
  Wake c ws cs → cs !! i = Some p → pushing p = true →
  (p' = CIdle ∨ ∃ b, p' = CReturned b) → (queue_ c ≠ [] → (0 < length ws)%nat) →
  notify_one ws w = Some ws' → Wake c ws' (<[i := p']> cs).
Proof.
  intros HW Hp Hpush Hp' Hn Hw. pose proof HW as [].
  pose proof (λ f, count_insert f _ _ _ p' Hp) as Hci.
  assert (∀ f, f ∈ [inline_done; stopping; stopping2; client_asleep] → count f (<[i := p']> cs) = count f cs) as Heq.
  { intros f Hf. rewrite Hci. assert (f p = false ∧ f p' = false) as [-> ->]; [|lia].
    rewrite !elem_of_cons in Hf. destruct Hf as [->|[->|[->|[->|?%not_elem_of_nil]]]]; try done;
      destruct p; try done; destruct Hp' as [->|[b ->]]; done. }
  pose proof (count_nonneg pushing (<[i := p']> cs)) as L1.
  assert (∀ j q, <[i := p']> cs !! j = Some q → client_asleep q = true → cs !! j = Some q) as Hsl.
  { intros j q Hj Hq. thread_cases Hj; [|done]. by destruct Hp' as [->|[b ->]]. }
  pose proof (Heq inline_done ltac:(set_solver)) as E1. pose proof (Heq stopping ltac:(set_solver)) as E2.
  pose proof (Heq stopping2 ltac:(set_solver)) as E3. pose proof (Heq client_asleep ltac:(set_solver)) as E4.
  constructor; rewrite ?E1, ?E2, ?E3, ?E4.
  - intros H1 H2. apply notify_one_spec in Hw as [(u & Hu & ->)|[-> H0]].
    + assert (0 < count active (<[u := WReady]> ws)); [|lia].
      apply (count_lookup _ _ u WReady); [|done]. rewrite list_lookup_insert_eq; [done|]. by eapply lookup_lt_Some.
    + assert (0 < count active ws); [|lia]. specialize (w_done0 H1). rewrite count_zero in H0, w_done0.
      destruct (lookup_lt_is_Some_2 ws 0%nat (Hn H2)) as [v Hv].
      eapply count_lookup; [done|]. specialize (H0 _ _ Hv). specialize (w_done0 _ _ Hv). by destruct v.
  - intros H1. apply notify_one_spec in Hw as [(u & Hu & ->)|[-> _]]; [|by apply w_done0].
    rewrite (count_insert _ _ _ _ _ Hu), w_done0; done.
  - intros j x H1 Hj. assert (count busy ws' = count busy ws) as ->; [|eauto].
    apply notify_one_spec in Hw as [(u & Hu & ->)|[-> _]]; [|done]. rewrite (count_insert _ _ _ _ _ Hu). simpl. lia.
  - eauto.
  - intros H1 H2. apply w_stop_workers0; [done|]. apply notify_one_spec in Hw as [(u & Hu & ->)|[-> _]]; [|done].
    rewrite (count_insert _ _ _ _ _ Hu) in H2. simpl in H2. lia.
  - done.
Qed.

(** *** Every step keeps it *)

Definition Woken (s : state) : Prop := Wake (obj s) (workers s) (clients s).

Lemma consuming_nonneg s : DataInv s → 0 ≤ consuming_ (obj s).
Proof. intros HD. rewrite (d_consuming _ HD). lia. Qed.

(** The four kinds of client that owe a notification owe it until they made it. *)
Ltac owes_nothing :=
  intros f Hf; rewrite !elem_of_cons in Hf;
  destruct Hf as [->|[->|[->|[->|?%not_elem_of_nil]]]]; done.

Lemma woken_call s i p s' :
  Woken s → client_asleep p = false → call s i p = Some (Ok s') → Woken s'.
Proof.
  unfold call, Woken. intros HW Hp H. destruct (clients s !! i) as [[]|] eqn:Ei; simplify_eq;
    (eapply wake_client_move; [done|done|owes_nothing|by destruct p]).
Qed.

Lemma woken_push s i p p' old q arg :
  Woken s → clients s !! i = Some p → (∃ x, p = CEnqueue x ∨ p = CReplace x) → pushing p' = true →
  queue_ (obj s) = old ++ q → (length old ≤ 1)%nat →
  Wake (with_queue (obj s) (q ++ [arg]) (consuming_ (obj s))) (workers s) (<[i := p']> (clients s)).
Proof.
  intros HW Hi Hp Hp' Hq Hold. apply wake_push.
  - eapply wake_client_move; [done|done| |by destruct p'].
    destruct Hp as [x [->| ->]]; owes_nothing.
  - apply (count_lookup _ _ i p'); [|done]. rewrite list_lookup_insert_eq; [done|]. by eapply lookup_lt_Some.
  - rewrite Hq, !length_app. simpl. lia.
  - by destruct q.
Qed.

Lemma woken_enqueue s i x :
  Woken s → DataInv s → clients s !! i = Some (CEnqueue x) → Woken (enqueue s i x).
Proof.
  intros HW HD Hi. unfold enqueue, enqueue_threads, enqueue_inline, Woken. pose proof (consuming_nonneg s HD).
  assert (∀ p', client_asleep p' = false → Wake (obj s) (workers s) (<[i := p']> (clients s))) as Hmove.
  { intros p' Hp'. eapply wake_client_move; [done|done|owes_nothing|by destruct p']. }
  destruct (Nat.ltb 0 (nthreads (obj s))); destruct (stop_ (obj s)) eqn:Es; simpl; try by apply Hmove.
  - destruct (Nat.ltb_spec (length (queue_ (obj s))) (maxQueueSize_ (obj s))); simpl.
    + apply (woken_push s i (CEnqueue x) CPushed [] _); eauto.
    + eapply wake_client_move; [done|done|owes_nothing|done].
  - destruct (Hmove (CInline x) eq_refl). constructor; simpl; try done.
    intros j H1 Hj. right. left. lia.
Qed.

Lemma woken_replace s i x s' :
  Woken s → clients s !! i = Some (CReplace x) → enqueueOrReplaceOldest s i x = Ok s' → Woken s'.
Proof.
  intros HW Hi H. unfold enqueueOrReplaceOldest, Woken in *. destruct (stop_ (obj s)) eqn:Es; simplify_eq.
  - eapply wake_client_move; [done|done|owes_nothing|done].
  - destruct (Nat.leb _ _); [destruct (queue_ (obj s)) as [|y q] eqn:Eq|]; simplify_eq; simpl.
    + apply (woken_push s i (CReplace x) (CReplaced true) [y] q); eauto.
    + apply (woken_push s i (CReplace x) (CReplaced false) [] _); eauto.
Qed.

Lemma woken_destroy s i p s' :
  Woken s → clients s !! i = Some p → destroy s i p = Some s' → Woken s'.
Proof.
  unfold Woken. intros HW Hi H. destruct p; simplify_eq/=.
  - destruct (held s); simplify_eq; simpl.
    assert (<[i := CStopped]> (clients s) !! i = Some CStopped) as Hin
      by (rewrite list_lookup_insert_eq; [done|]; by eapply lookup_lt_Some).
    constructor; simpl; try done; intros _ _; by eapply count_lookup.
  - destruct (wake_client_move _ _ _ i CStopped CStopped HW Hi) as []; [by intros|done|].
    pose proof (λ f, count_insert f _ _ _ CStopped2 Hi) as Hci.
    assert (count asleep (wake_worker <$> workers s) = 0) as Ha.
    { apply count_zero. intros w q (v & -> & _)%list_lookup_fmap_Some. by destruct v. }
    assert (<[i := CStopped2]> (clients s) !! i = Some CStopped2) as Hin
      by (rewrite list_lookup_insert_eq; [done|]; by eapply lookup_lt_Some).
    constructor; rewrite ?(count_fmap busy), ?(count_fmap is_done) by (by intros []).
    + intros H1 H2. rewrite Hci. simpl. pose proof (w_ready _ _ _ HW H1 H2) as Hr.
      assert (count active (workers s) ≤ count active (wake_worker <$> workers s)); [|lia].
      clear. induction (workers s) as [|v l IH]; csimpl; [done|]. destruct v; simpl; lia.
    + apply HW.
    + intros j x H1 Hj. thread_cases Hj. by eapply HW.
    + intros j H1 Hj. thread_cases Hj. rewrite Hci. destruct (w_wait _ _ _ HW _ H1 Hj) as [?|[?|?]]; auto.
      right. right. simpl. lia.
    + by rewrite Ha.
    + intros _ _. by eapply count_lookup.
  - by eapply wake_client_move_all.
  - destruct (forallb _ _); simplify_eq; simpl. eapply wake_client_move; [done|done|owes_nothing|done].
Qed.

Lemma woken_client_go s i w s' :
  Woken s → DataInv s → client_go s i w = Some (Ok s') → Woken s'.
Proof.
  intros HW HD H. unfold client_go in H. destruct (clients s !! i) as [p|] eqn:Ei; [|done].
  assert (destroy s i p ≫= (λ s', Some (Ok s')) = Some (Ok s') → Woken s') as Hd.
  { intros (s1 & Hs & [= <-])%bind_Some. by eapply woken_destroy. }
  assert (queue_ (obj s) ≠ [] → (0 < length (workers s))%nat) as Hn.
  { intros Hq. rewrite (d_pool _ HD). destruct (decide (nthreads (obj s) = 0%nat)) as [H0|]; [|lia].
    by destruct (d_nopool _ HD H0). }
  destruct p; try (by apply Hd); clear Hd.
  - destruct (held s); simplify_eq. by apply woken_enqueue.
  - apply bind_Some in H as (ws & Hw & [= <-]). eapply wake_notify_one; eauto.
  - injection H as <-. unfold Woken in *. simpl.
    assert (Wake (obj s) (workers s) (<[i := CInlineDone]> (clients s))) as []
      by (eapply wake_client_move; [done|done|owes_nothing|done]).
    constructor; simpl; try done. intros j H1 Hj. right. right.
    apply (count_lookup _ _ i CInlineDone); [|done]. rewrite list_lookup_insert_eq; [done|]. by eapply lookup_lt_Some.
  - injection H as <-. unfold Woken in *. simpl. by eapply wake_client_move_all.
  - destruct (held s); simplify_eq. by eapply woken_replace.
  - apply bind_Some in H as (ws & Hw & [= <-]). eapply wake_notify_one; eauto.
  - destruct (held s); simplify_eq. unfold wait, Woken. destruct (stop_ (obj s)) eqn:Es; simpl.
    + eapply wake_client_move; [done|done|owes_nothing|done].
    + destruct (Nat.eqb_spec (length (queue_ (obj s))) 0); simpl;
        [destruct (Z.eqb_spec (consuming_ (obj s)) 0); simpl|]; simpl;
        (eapply wake_client_move; [done|done|owes_nothing|]); try done; split; try done; [by right|].
      left. intros E. by rewrite E in *.
Qed.

Lemma woken_step s l s' : Woken s → DataInv s → step s l = Some (Ok s') → Woken s'.
Proof.
  intros HW HD H. destruct l as [i x|i x|i|i|i w|w|i|i|w]; simpl in H.
  - by apply (woken_call s i (CEnqueue x)).
  - apply (woken_call s i (replace_entry s x)); try done. unfold replace_entry. by case_match.
  - by apply (woken_call s i CWait).
  - by apply (woken_call s i CDestroy).
  - by eapply woken_client_go.
  - pose proof (consuming_nonneg s HD). unfold worker_go in H. destruct (held s); [done|].
    destruct (workers s !! w) as [[| |x|]|] eqn:Ew; simplify_eq; unfold Woken in *.
    + by eapply wake_run_head.
    + destruct (wake_clients_all _ _ _ HW) as [HW' Hno]. eapply wake_run_head; simpl; try done.
      * by eapply wake_no_sleepers.
      * rewrite (d_consuming _ HD). assert (x ∈ in_progress s) as Hx.
        { apply elem_of_app. left. apply list_elem_of_omap. eexists. split; [by eapply list_elem_of_lookup_2|done]. }
        destruct (in_progress s); [by apply not_elem_of_nil in Hx|]. simpl. lia.
  - destruct (clients s !! i) as [[]|] eqn:Ei; simplify_eq. unfold Woken in *. simpl.
    eapply wake_client_move; [done|done|owes_nothing|done].
  - destruct (clients s !! i) as [[]|] eqn:Ei; simplify_eq; unfold Woken in *; simpl;
      (eapply wake_client_move; [done|done|owes_nothing|done]).
  - destruct (workers s !! w) as [[]|] eqn:Ew; simplify_eq. unfold Woken in *. simpl.
    pose proof (λ f, count_insert f _ _ _ WReady Ew) as Hci. destruct HW.
    constructor; rewrite ?Hci; simpl; try done.
    + intros H1 H2. specialize (w_ready0 H1 H2). lia.
    + intros H1. rewrite w_done0; done.
    + intros j x H1 Hj. replace (_ - 0 + 0) with (count busy (workers s)) by lia. eauto.
    + intros H1 H2. apply w_stop_workers0; [done|lia].
Qed.

Lemma woken_init c n : queue_ c = [] → stop_ c = false → Woken (init c n).
Proof.
  intros Hq Hs. unfold Woken, init. simpl.
  constructor; rewrite ?Hs, ?Hq, ?count_replicate by done; try done.
  - by intros i x _ [? _]%lookup_replicate.
  - by intros i _ [? _]%lookup_replicate.
Qed.

Lemma construct_fields nt mx c : construct nt mx = Ok c →
  queue_ c = [] ∧ stop_ c = false ∧ nthreads c = nt ∧ maxQueueSize_ c = mx.
Proof. unfold construct. by case_match; intros [= <-]. Qed.

Lemma reachable_woken nt mx c n s :
  construct nt mx = Ok c → reachable step (init c n) s → DataInv s ∧ Woken s.
Proof.
  intros Hc. apply (reachable_inv step (λ s, DataInv s ∧ Woken s)).
  - intros s1 l s2 [H1 H2] E. split; [|by eapply woken_step].
    destruct (data_step _ _ _ H1 E) as (s' & [= <-] & H). done.
  - split; [by eapply data_inv_init|]. apply construct_fields in Hc as (Hq & Hs & _). by apply woken_init.
Qed.

(** ** Theorems *)

Lemma step_const s l s' : step s l = Some (Ok s') →
  maxQueueSize_ (obj s') = maxQueueSize_ (obj s) ∧ length (workers s') = length (workers s) ∧
  length (clients s') = length (clients s).
Proof.
  intros H. destruct l as [i x|i x|i|i|i w|w|i|i|w]; simpl in H.
  1-4: unfold call in H; destruct (clients s !! i) as [[]|]; simplify_eq; simpl; by rewrite length_insert.
  - unfold client_go in H. destruct (clients s !! i) as [p|]; [|done].
    assert (∀ ws, notify_one (workers s) w = Some ws → length ws = length (workers s)) as Hn.
    { intros ws [(u & _ & ->)|[-> _]]%notify_one_spec; [by rewrite length_insert|done]. }
    destruct p; simpl in H; simplify_eq; try (apply bind_Some in H as (ws & Hw & [= <-]); simpl; rewrite length_insert, (Hn _ Hw); done);
      unfold enqueue, enqueue_threads, enqueue_inline, enqueueOrReplaceOldest, wait in *;
      repeat case_match; simplify_eq/=; rewrite ?length_fmap, ?length_insert; done.
  - unfold worker_go, run_head in H. repeat case_match; simplify_eq/=; rewrite ?length_fmap, ?length_insert; done.
  - destruct (clients s !! i) as [[]|]; simplify_eq; simpl; by rewrite length_insert.
  - destruct (clients s !! i) as [[]|]; simplify_eq; simpl; by rewrite length_insert.
  - destruct (workers s !! w) as [[]|]; simplify_eq; simpl; by rewrite length_insert.
Qed.

Lemma removed_split l : removed l ≡ₚ taken l ++ dropped l.
Proof.
  unfold removed, taken, dropped. induction l as [|e l IH]; [done|].
  destruct e; csimpl; rewrite IH; try done. apply Permutation_middle.
Qed.

(** C34 The queue is a bounded FIFO and every item is handled once: in every
    reachable state what was accepted is, in order, what was taken out and what
    is still queued, the queue is within its bound, the items [fn_] was called
    on are those it runs on now and those it is done with, and no step of a
    client or of the pool is undefined while the object lives (the model does not
    end its lifetime: what a client does with it after its destructor has
    returned is outside of this). *)
Theorem consumer_fifo nt mx c n s :
  construct nt mx = Ok c → reachable step (init c n) s →
  pushed (log s) = removed (log s) ++ queue_ (obj s) ∧
  (length (queue_ (obj s)) ≤ mx)%nat ∧
  taken (log s) ≡ₚ in_progress s ++ finished (log s) ++ failed (log s) ∧
  (∀ l r, step s l = Some r → ∃ s', r = Ok s').
Proof.
  intros Hc Hs. pose proof (reachable_data _ _ _ _ _ Hc Hs) as HD.
  assert (maxQueueSize_ (obj s) = mx) as Hmx.
  { apply construct_fields in Hc as (_ & _ & _ & <-). revert Hs.
    apply (reachable_inv step (λ s, maxQueueSize_ (obj s) = maxQueueSize_ c)); [|done].
    intros s1 l s2 H1 H. apply step_const in H as [-> _]. done. }
  pose proof HD as []. rewrite Hmx in *. repeat split; try done.
  intros l r E. destruct (data_step _ _ _ HD E) as (s' & -> & _). eauto.
Qed.

(** [wait] returns exactly when the consumer is stopped or all the items that
    were accepted so far have been handled by [fn_] or replaced by newer ones. *)
Theorem wait_until_done nt mx c n s i w :
  construct nt mx = Ok c → reachable step (init c n) s →
  clients s !! i = Some CWait → held s = false →
  ∃ s', step s (ClientGo i w) = Some (Ok s') ∧
    (clients s' !! i = Some CIdle ↔
     stop_ (obj s) = true ∨ (pushed (log s) ≡ₚ finished (log s) ++ dropped (log s) ∧ failed (log s) = [])).
Proof.
  intros Hc Hs Hi Hh. pose proof (reachable_data _ _ _ _ _ Hc Hs) as [].
  cbn [step]. unfold client_go. rewrite Hi, Hh. eexists. split; [done|]. unfold wait.
  assert (Nat.eqb (length (queue_ (obj s))) 0 && (consuming_ (obj s) =? 0) = true ↔
    pushed (log s) ≡ₚ finished (log s) ++ dropped (log s) ∧ failed (log s) = []) as Hiff.
  { rewrite andb_true_iff, Nat.eqb_eq, Z.eqb_eq, d_consuming0. split.
    - intros [Hq%nil_length_inv Hc0]. assert (failed (log s) = []) as Hf by (apply nil_length_inv; lia).
      assert (in_progress s = []) as Hp by (apply nil_length_inv; lia).
      split; [|done]. rewrite d_fifo0, Hq, app_nil_r, removed_split, d_once0, Hp, Hf. by rewrite app_nil_r.
    - intros [Hp Hf]. rewrite d_fifo0, removed_split, d_once0, Hf, app_nil_r in Hp.
      apply Permutation_length in Hp. rewrite !length_app in Hp. rewrite Hf. simpl. lia. }
  pose proof (lookup_lt_Some _ _ _ Hi) as Hlt.
  destruct (stop_ (obj s)); simpl; [rewrite list_lookup_insert_eq by done; tauto|].
  destruct (_ && _); simpl; rewrite list_lookup_insert_eq by done; naive_solver.
Qed.

(** *** Calls return *)

Definition closing (l : label) : bool := match l with ClientGo _ _ | WorkerGo _ => true | _ => false end.

(** What a thread can still do, for [C] clients and [W] workers: an item in the
    queue will be taken on and will wake every client when it is done. *)
Definition worker_work (C : Z) (w : worker) : Z :=
  match w with WDone => 0 | WSleep => 1 | WReady => 2 | WBusy _ => C + 3 end.
Definition client_work (C W : Z) (c : client) : Z :=
  match c with
  | CIdle | CThrew | CReturned _ | CDestroyed => 0
  | CEnqueue _ => C + 8 | CEnqueueSleep _ => C + 7 | CPushed => 2
  | CInline _ => C + 4 | CInlineDone => C + 2
  | CReplace _ => C + 7 | CReplaced _ => 2
  | CWait => 2 | CWaitSleep => 1
  | CDestroy => C + W + 6 | CStopped => C + W + 4 | CStopped2 => C + 2 | CJoin => 1
  end.
Definition work_left (s : state) : Z :=
  let C := Z.of_nat (length (clients s)) in let W := Z.of_nat (length (workers s)) in
  wsum (worker_work C) (workers s) + wsum (client_work C W) (clients s) + (C + 3) * Z.of_nat (length (queue_ (obj s))).

Lemma consumer_work_nonneg s : 0 ≤ work_left s.
Proof.
  unfold work_left.
  pose proof (wsum_nonneg (worker_work (Z.of_nat (length (clients s)))) (workers s) ltac:(intros []; simpl; lia)).
  pose proof (wsum_nonneg (client_work (Z.of_nat (length (clients s))) (Z.of_nat (length (workers s)))) (clients s) ltac:(intros []; simpl; lia)).
  lia.
Qed.

Section decreases.
Context (s : state).
#[local] Abbreviation C := (Z.of_nat (length (clients s))).
#[local] Abbreviation W := (Z.of_nat (length (workers s))).

(** A client moves and may wake the others. *)
Lemma work_client i p p' : clients s !! i = Some p →
  wsum (client_work C W) (<[i := p']> (clients s)) = wsum (client_work C W) (clients s) - client_work C W p + client_work C W p' ∧
  wsum (client_work C W) (wake_client <$> <[i := p']> (clients s)) ≤ wsum (client_work C W) (clients s) - client_work C W p + client_work C W p' + C.
Proof.
  intros Hi. pose proof (wsum_insert (client_work C W) _ _ _ p' Hi) as E. split; [done|].
  pose proof (wsum_fmap_le (client_work C W) wake_client 1 (<[i := p']> (clients s)) ltac:(intros []; simpl; lia)) as H.
  rewrite length_insert in H. lia.
Qed.

Lemma work_notify_one w ws : notify_one (workers s) w = Some ws →
  length ws = length (workers s) ∧ wsum (worker_work C) ws ≤ wsum (worker_work C) (workers s) + 1.
Proof.
  intros [(u & Hu & ->)|[-> _]]%notify_one_spec; [|split; [done|lia]].
  rewrite length_insert. split; [done|]. rewrite (wsum_insert _ _ _ _ _ Hu). simpl. lia.
Qed.
End decreases.

Lemma work_run_head s w p :
  workers s !! w = Some p → active p = true →
  work_left (run_head s w) ≤ work_left s - (if busy p then Z.of_nat (length (clients s)) + 2 else 1).
Proof.
  intros Hw Hp. unfold run_head, work_left. destruct (stop_ (obj s)); [|destruct (queue_ (obj s)) as [|x q] eqn:Eq];
    simpl; rewrite length_insert, (wsum_insert _ _ _ _ _ Hw), ?Eq; destruct p; simplify_eq/=; lia.
Qed.

Lemma consumer_closing_decreases s l s' :
  closing l = true → step s l = Some (Ok s') → work_left s' < work_left s.
Proof.
  intros Hl H. destruct l as [| | | |i w|w| | |]; try done; simpl in H.
  - unfold client_go in H. destruct (clients s !! i) as [p|] eqn:Ei; [|done].
    pose proof (λ p', work_client s i p p' Ei) as Hc. destruct p; simplify_eq/=.
    + destruct (held s); simplify_eq. unfold enqueue, enqueue_threads, enqueue_inline, work_left.
      repeat case_match; simpl; rewrite length_insert, ?length_app; simpl; rewrite (proj1 (Hc _)); simpl; lia.
    + apply bind_Some in H as (ws & Hw & [= <-]). destruct (work_notify_one s w ws Hw) as [E Hle].
      unfold work_left. simpl. rewrite length_insert, E, (proj1 (Hc _)). simpl. lia.
    + unfold work_left. simpl. rewrite length_insert, (proj1 (Hc _)). simpl. lia.
    + unfold work_left. simpl. rewrite length_fmap, length_insert. pose proof (proj2 (Hc CIdle)). simpl in *. lia.
    + destruct (held s); simplify_eq. unfold enqueueOrReplaceOldest in H.
      unfold work_left. repeat case_match; simplify_eq; simpl; rewrite length_insert, ?length_app, (proj1 (Hc _)); simpl; lia.
    + apply bind_Some in H as (ws & Hw & [= <-]). destruct (work_notify_one s w ws Hw) as [E Hle].
      unfold work_left. simpl. rewrite length_insert, E, (proj1 (Hc _)). simpl. lia.
    + destruct (held s); simplify_eq. unfold wait, work_left.
      case_match; simpl; rewrite length_insert, (proj1 (Hc _)); simpl; lia.
    + destruct (held s); simplify_eq/=. unfold work_left. simpl. rewrite length_insert, (proj1 (Hc _)). simpl. lia.
    + unfold work_left. simpl. rewrite length_fmap, length_insert, (proj1 (Hc _)).
      pose proof (wsum_fmap_le (worker_work (Z.of_nat (length (clients s)))) wake_worker 1 (workers s) ltac:(intros []; simpl; lia)).
      simpl. lia.
    + unfold work_left. simpl. rewrite length_fmap, length_insert. pose proof (proj2 (Hc CJoin)). simpl in *. lia.
    + destruct (forallb _ _); simplify_eq/=. unfold work_left. simpl. rewrite length_insert, (proj1 (Hc _)). simpl. lia.
  - unfold worker_go in H. destruct (held s); [done|].
    destruct (workers s !! w) as [[| |x|]|] eqn:Ew; simplify_eq.
    + pose proof (work_run_head s w _ Ew eq_refl). simpl in *. lia.
    + pose proof (work_run_head (run_tail s x) w (WBusy x) Ew eq_refl) as Hh. simpl in Hh.
      rewrite length_fmap in Hh.
      assert (work_left (run_tail s x) ≤ work_left s + Z.of_nat (length (clients s))); [|lia].
      unfold work_left. simpl. rewrite length_fmap.
      pose proof (wsum_fmap_le (client_work (Z.of_nat (length (clients s))) (Z.of_nat (length (workers s)))) wake_client 1 (clients s) ltac:(intros []; simpl; lia)).
      lia.
Qed.

(** A client past its [stop_ = true]. *)
Definition after_stop (c : client) : bool :=
  match c with CStopped | CStopped2 | CJoin | CDestroyed => true | _ => false end.
Definition Stopped (s : state) : Prop := 0 < count after_stop (clients s) → stop_ (obj s) = true.

Lemma stopped_step s l s' : Stopped s → step s l = Some (Ok s') → Stopped s'.
Proof.
  unfold Stopped. intros HS H.
  assert (∀ i p p', clients s !! i = Some p → (after_stop p' = true → after_stop p = true) →
    0 < count after_stop (<[i := p']> (clients s)) → stop_ (obj s) = true) as Hmove.
  { intros i p p' Hi Hp Hc. apply HS. rewrite (count_insert _ _ _ _ _ Hi) in Hc.
    pose proof (b2z_le _ _ Hp). lia. }
  destruct l as [i x|i x|i|i|i w|w|i|i|w]; simpl in H.
  1-4: unfold call, replace_entry in H; destruct (clients s !! i) as [[]|] eqn:Ei; simplify_eq; simpl;
    (eapply Hmove; [done|]; repeat case_match; done).
  - unfold client_go in H. destruct (clients s !! i) as [p|] eqn:Ei; [|done].
    destruct p; simpl in H; simplify_eq;
      unfold enqueue, enqueue_threads, enqueue_inline, enqueueOrReplaceOldest, wait in *;
      try (apply bind_Some in H as (ws & Hw & [= <-])); repeat case_match; simplify_eq/=;
      rewrite ?(count_fmap after_stop wake_client) by (by intros []); try done;
      (intros Hc; eapply Hmove in Hc; [congruence|done|done]).
  - unfold worker_go, run_head in H. repeat case_match; simplify_eq/=;
      rewrite ?(count_fmap after_stop wake_client) by (by intros []); done || by intros ?%HS.
  - destruct (clients s !! i) as [[]|] eqn:Ei; simplify_eq; simpl. by eapply Hmove.
  - destruct (clients s !! i) as [[]|] eqn:Ei; simplify_eq; simpl; by eapply Hmove.
  - destruct (workers s !! w) as [[]|]; simplify_eq; simpl. done.
Qed.

(** In no call of the consumer. *)
Definition outside (c : client) : bool :=
  match c with CIdle | CThrew | CReturned _ | CDestroyed => true | _ => false end.

Definition stuck (s : state) : Prop := ∀ l, closing l = true → step s l = None.

Lemma stuck_threads s : DataInv s → stuck s →
  held s = false ∧ count active (workers s) = 0 ∧
  ∀ i p, clients s !! i = Some p →
    match p with CEnqueueSleep _ | CWaitSleep | CJoin => True | _ => outside p = true end.
Proof.
  intros HD Hst.
  assert (held s = false) as Hh.
  { destruct (held s) eqn:Eh; [|done]. pose proof (d_held _ HD) as Hl. rewrite Eh in Hl. simpl in Hl.
    destruct (omap inline_item (clients s)) as [|x r] eqn:E; simpl in Hl; [lia|].
    assert (x ∈ omap inline_item (clients s)) as (p & Hp & Hx)%list_elem_of_omap by (rewrite E; by left).
    apply list_elem_of_lookup in Hp as [i Hi]. destruct p; simplify_eq/=.
    specialize (Hst (ClientGo i 0) eq_refl). simpl in Hst. unfold client_go in Hst. by rewrite Hi in Hst. }
  split_and!; [done| |].
  - apply count_zero. intros w p Hw. specialize (Hst (WorkerGo w) eq_refl). simpl in Hst.
    unfold worker_go in Hst. rewrite Hh, Hw in Hst. by destruct p.
  - intros i p Hi. assert (∃ w, is_Some (notify_one (workers s) w)) as [w Hw].
    { destruct (decide (0 < count asleep (workers s))) as [(u & q & Hu & Hq)%count_pos|Hz].
      - exists u. unfold notify_one. rewrite Hu. by destruct q.
      - exists 0%nat. unfold notify_one. assert (existsb asleep (workers s) = false) as E.
        { apply not_true_iff_false. rewrite existsb_exists. intros (q & Hq & Hq'). destruct Hz.
          apply list_elem_of_In, list_elem_of_lookup in Hq as [u Hu]. by eapply count_lookup. }
        rewrite E. by destruct (workers s !! 0%nat) as [[]|]. }
    pose proof (Hst (ClientGo i w) eq_refl) as H. simpl in H. unfold client_go in H.
    rewrite Hi, Hh in H. destruct Hw as [ws Hw]. rewrite Hw in H.
    destruct p; try done; simpl in H; rewrite ?Hh in H; done.
Qed.

Lemma stuck_done s : DataInv s → Woken s → Stopped s → stuck s → failed (log s) = [] →
  (∀ i p, clients s !! i = Some p → outside p = true) ∧ (stop_ (obj s) = true ∨ queue_ (obj s) = []).
Proof.
  intros HD [] HS Hst Hf. destruct (stuck_threads s HD Hst) as (Hh & Ha & Hcl).
  assert (∀ f : client → bool, (∀ p, f p = true → outside p = false ∧ client_asleep p = false ∧ p ≠ CJoin) →
    count f (clients s) = 0) as Hnone.
  { intros f Hf'. apply count_zero. intros i p Hi. destruct (f p) eqn:E; [|done].
    destruct (Hf' p E) as (H1 & H2 & H3). specialize (Hcl i p Hi). destruct p; simplify_eq/=. }
  assert (count pushing (clients s) = 0) as Hpush by (apply Hnone; by intros []).
  assert (count inline_done (clients s) = 0) as Hid by (apply Hnone; by intros []).
  assert (count stopping2 (clients s) = 0) as Hst2 by (apply Hnone; by intros []).
  assert (count stopping (clients s) = 0) as Hst1 by (apply Hnone; by intros []).
  assert (stop_ (obj s) = true ∨ queue_ (obj s) = []) as Hq.
  { destruct (stop_ (obj s)) eqn:Es; [by left|right]. destruct (queue_ (obj s)) eqn:Eq; [done|].
    specialize (w_ready0 eq_refl ltac:(done)). lia. }
  assert (omap busy_item (workers s) = []) as Hb.
  { apply elem_of_nil_inv. intros x (p & Hp & Hx)%list_elem_of_omap.
    apply list_elem_of_lookup in Hp as [w Hw]. rewrite count_zero in Ha. specialize (Ha _ _ Hw). by destruct p. }
  assert (omap inline_item (clients s) = []) as Hin.
  { apply nil_length_inv. pose proof (d_held _ HD) as E. rewrite Hh in E. simpl in E. lia. }
  split; [|done]. intros i p Hi. pose proof (Hcl i p Hi) as Hp. destruct p; try done; exfalso.
  - destruct (stop_ (obj s)) eqn:Es.
    + specialize (w_stop_clients0 eq_refl (count_lookup _ _ _ _ Hi eq_refl)). lia.
    + destruct Hq as [?|Hq]; [done|].
      assert (0 < nthreads (obj s))%nat as Hn.
      { destruct (decide (nthreads (obj s) = 0%nat)) as [H0|]; [|lia]. by apply (d_nopool _ HD H0) in Hi. }
      pose proof (d_cap _ HD Hn). destruct (w_enqueue0 _ _ eq_refl Hi) as [H1|H1]; [rewrite Hq in H1; simpl in H1; lia|].
      apply count_pos in H1 as (w & q & Hw & Hq'). rewrite count_zero in Ha. specialize (Ha _ _ Hw). by destruct q.
  - destruct (stop_ (obj s)) eqn:Es.
    + specialize (w_stop_clients0 eq_refl (count_lookup _ _ _ _ Hi eq_refl)). lia.
    + destruct Hq as [?|Hq]; [done|]. destruct (w_wait0 _ eq_refl Hi) as [?|[H1|?]]; [done| |lia].
      apply H1. rewrite (d_consuming _ HD), Hf. unfold in_progress. by rewrite Hb, Hin.
  - pose proof (HS (count_lookup _ _ _ _ Hi eq_refl)) as Es.
    assert (count asleep (workers s) = 0) as Hz.
    { pose proof (count_nonneg asleep (workers s)). destruct (decide (0 < count asleep (workers s))) as [H1|]; [|lia].
      specialize (w_stop_workers0 Es H1). lia. }
    assert (forallb is_done (workers s) = true) as Hd.
    { apply forallb_forall. intros q Hq'. apply list_elem_of_In, list_elem_of_lookup in Hq' as [w Hw].
      rewrite count_zero in Ha, Hz. specialize (Ha _ _ Hw). specialize (Hz _ _ Hw). by destruct q. }
    specialize (Hst (ClientGo i 0) eq_refl). simpl in Hst. unfold client_go in Hst. rewrite Hi in Hst. simpl in Hst.
    by rewrite Hd in Hst.
Qed.

(** Every call returns, in every schedule, as long as [fn_] returns: without
    new calls a run has at most [work_left] steps, and when nothing can move
    and no call of [fn_] failed, every client is out of its call and the queue
    is empty or the consumer stopped. *)
Theorem consumer_calls_return nt mx c n s tr s' :
  construct nt mx = Ok c → reachable step (init c n) s →
  Forall (λ l, closing l = true) tr → run step tr s = Some s' →
  Z.of_nat (length tr) ≤ work_left s ∧
  (stuck s' → failed (log s') = [] →
   (∀ i p, clients s' !! i = Some p → outside p = true) ∧ (stop_ (obj s') = true ∨ queue_ (obj s') = [])).
Proof.
  intros Hc Hs Htr Hr. pose proof (run_bounded step closing work_left _ _ _ consumer_closing_decreases Htr Hr).
  pose proof (consumer_work_nonneg s'). split; [lia|].
  assert (reachable step (init c n) s') as Hs'.
  { destruct Hs as [tr0 H1]. exists (tr0 ++ tr). by rewrite run_app, H1. }
  destruct (reachable_woken _ _ _ _ _ Hc Hs') as [HD HW]. apply stuck_done; try done.
  revert Hs'. apply (reachable_inv step Stopped); [intros; by eapply stopped_step|].
  unfold Stopped. simpl. rewrite count_replicate by done. lia.
Qed.

(** The constructor throws exactly for a pool without room in its queue;
    [enqueue] and [enqueueOrReplaceOldest] throw exactly when the consumer is
    stopped, and then they leave it and its queue as they were. *)
Theorem consumer_errors nt mx :
  ((∃ msg, construct nt mx = Throw msg) ↔ mx = 0%nat ∧ (0 < nt)%nat) ∧
  ∀ c n s i p x w, construct nt mx = Ok c → reachable step (init c n) s →
    clients s !! i = Some p → p = CEnqueue x ∨ p = CReplace x → held s = false →
    ∃ s', step s (ClientGo i w) = Some (Ok s') ∧
      (clients s' !! i = Some CThrew ↔ stop_ (obj s) = true) ∧
      (stop_ (obj s) = true → obj s' = obj s ∧ log s' = log s) ∧
      (stop_ (obj s) = false → clients s' !! i = Some (CEnqueueSleep x) ∨ x ∈ pushed (log s')).
Proof.
  split.
  - unfold construct. destruct (Nat.eqb_spec mx 0), (Nat.ltb_spec 0 nt); simpl; split; intros Hx; try (by destruct Hx); eauto; lia.
  - intros c n s i p x w Hc Hs Hi Hp Hh. pose proof (reachable_data _ _ _ _ _ Hc Hs) as HD.
    pose proof (lookup_lt_Some _ _ _ Hi) as Hlt.
    assert (∀ q ev, x ∈ pushed (q ++ Pushed x :: ev)) as Hin.
    { intros q ev. unfold pushed. rewrite omap_app. simpl. apply elem_of_app. right. by left. }
    cbn [step]. unfold client_go. rewrite Hi. destruct Hp as [->| ->]; rewrite Hh.
    + eexists. split; [done|]. unfold enqueue, enqueue_threads, enqueue_inline, at_client.
      destruct (stop_ (obj s)) eqn:Es; simpl;
        repeat case_match; simpl; rewrite list_lookup_insert_eq, ?app_nil_r by done; simplify_eq/=;
        (split; [split; congruence|]; split; [by intros|]); intros; eauto; congruence.
    + destruct (data_replace s i x HD Hi) as (s' & E & _). rewrite E. eexists. split; [done|].
      unfold enqueueOrReplaceOldest, at_client in E. repeat case_match; simplify_eq/=;
        rewrite list_lookup_insert_eq, ?app_nil_r by done;
        (split; [split; congruence|]; split; [by intros|]); intros; eauto; try congruence.
      right. rewrite (cons_middle _ (log s)), app_assoc. apply Hin.
Qed.

End consumer.

(** ** Examples *)

(** One thread and room for one item: client 0's item is being handled, client
    1 replaced a queued item, client 2 is in [wait]. *)
Definition example_consumer : @consumer Z := Consumer 1 false 0 [] 1.
Definition example_trace : list (@label Z) :=
  [Enqueue 0 5; ClientGo 0 0; ClientGo 0 0; WorkerGo 0; Enqueue 0 6; ClientGo 0 0; ClientGo 0 0;
   Replace 1 7; ClientGo 1 0; ClientGo 1 0; Enqueue 0 8; ClientGo 0 0; Wait 2].
Definition example_end : @state Z :=
  State (Consumer 1 false 1 [7] 1) false [WBusy 5] [CEnqueueSleep 8; CReturned true; CWait]
    [Pushed 5; Taken 5; Pushed 6; Dropped 6; Pushed 7].

Lemma consumer_example_reachable : reachable step (init example_consumer 3) example_end.
Proof. exists example_trace. vm_compute. reflexivity. Qed.

Lemma consumer_fifo_witness :
  pushed (log example_end) = removed (log example_end) ++ queue_ (obj example_end).
Proof. exact (proj1 (consumer_fifo 1 1 example_consumer 3 example_end eq_refl consumer_example_reachable)). Defined.

Lemma wait_until_done_witness :
  ∃ s', step example_end (ClientGo 2 0) = Some (Ok s') ∧
    (clients s' !! 2%nat = Some CIdle ↔
     stop_ (obj example_end) = true ∨
     (pushed (log example_end) ≡ₚ finished (log example_end) ++ dropped (log example_end) ∧ failed (log example_end) = [])).
Proof. exact (wait_until_done 1 1 example_consumer 3 example_end 2 0 eq_refl consumer_example_reachable eq_refl eq_refl). Defined.

(** The rest of the run: the items are handled, then both callers return. *)
Definition example_rest : list (@label Z) :=
  [ClientGo 2 0; WorkerGo 0; ClientGo 0 0; ClientGo 0 0; ClientGo 2 0; WorkerGo 0; WorkerGo 0; ClientGo 2 0].

Lemma consumer_calls_return_witness : Z.of_nat (length example_rest) ≤ work_left example_end.
Proof.
  refine (proj1 (consumer_calls_return 1 1 example_consumer 3 example_end example_rest
    (State (Consumer 1 false 0 [] 1) false [WSleep] [CIdle; CReturned true; CIdle]
      [Pushed 5; Taken 5; Pushed 6; Dropped 6; Pushed 7; Finished 5; Taken 7; Pushed 8; Finished 7; Taken 8; Finished 8])
    eq_refl consumer_example_reachable _ _)); [repeat constructor|vm_compute; reflexivity].
Defined.

Lemma consumer_errors_witness :
  ∃ s', step (State (Consumer 1 true 0 [7] 1) false [WReady] [CEnqueue 8; CStopped] [Pushed 7]) (ClientGo 0 0) = Some (Ok s') ∧
    clients s' !! 0%nat = Some CThrew.
Proof.
  destruct (proj2 (consumer_errors 1 1) example_consumer 2%nat (State (Consumer 1 true 0 [7] 1) false [WReady] [CEnqueue 8; CStopped] [Pushed 7])
    0%nat (CEnqueue 8) 8 0%nat) as (s' & H & Hiff & _).
  - reflexivity.
  - exists [Enqueue 0 7; ClientGo 0 0; ClientGo 0 0; Enqueue 0 8; Destroy 1; ClientGo 1 0]. vm_compute. reflexivity.
  - reflexivity.
  - by left.
  - reflexivity.
  - exists s'. split; [exact H|]. by apply Hiff.
Defined.

(** Without threads, an exception of [fn_] leaves [consuming_] at 1: a later
    [wait] sleeps although nothing is being consumed, and nothing can wake it. *)
Theorem inline_exception_blocks_wait :
  ∃ s, run step [Enqueue 0 5; ClientGo 0 0; FnThrows 0; Wait 0; ClientGo 0 0] (init (Consumer 0 false 0 [] 0) 1) = Some s ∧
    clients s = [CWaitSleep] ∧ consuming_ (obj s) = 1 ∧ in_progress s = [] ∧ stuck s.
Proof.
  eexists. split; [vm_compute; reflexivity|]. split_and!; try done.
  intros [i x|i x|i|i|[|i] w|w|i|i|w] H; try done.
Qed.
End BufferedConsumer.
