(* ===== verification/BufferedProducer.v ===== *)
(** * Producer threads behind a queue ([common/parallel.h])

    [BufferedProducer<T>]: threads that call a function until it has no more
    values, and a bounded queue from which [get] takes what they produced.  A
    step is the code between two points where a thread can block, as in
    [BufferedConsumer]; what [fn] returns is part of the label of the step that
    ends the call.  The constructor starts the threads before it assigns
    [running_], so the assignment is a step of its own. *)

From S2P Require Import Prelude Threads.

Module BufferedProducer.
Section producer.
Context {T : Type}.

(** ** State *)

(** [src/common/parallel.h:111-119] BufferedProducer *)
Record producer := Producer {
  maxQueueSize_ : nat; stop_ : bool; working_ : Z; nThreads_ : nat; running_ : Z; queue_ : list T }.

(** Where a producer thread is. *)
Inductive worker :=
| PReady      (** awake, about to take [mutex_] and test its condition *)
| PSleep      (** asleep on [queueCV_] *)
| PWorking    (** in [fn] *)
| PDone       (** [fn] had no more values *)
| PExit.      (** left the loop since [stop_] was set *)

(** Where a client is. *)
Inductive client :=
| GIdle
| GThrew
| GGot (r : option T)   (** [get] returned *)
| GGet                  (** in [get], awake *)
| GSleep                (** asleep on [queueCV_] *)
| GDestroy              (** in the destructor, before taking [mutex_] *)
| GJoin                 (** in the [join]s *)
| GDestroyed.

Inductive event := Produced (x : T) | Delivered (x : T).

Record state := State {
  obj : producer;
  ready : bool;              (** the constructor has assigned [running_] *)
  early : Z;                 (** threads that were done before that *)
  workers : list worker;
  clients : list client;
  log : list event }.

Definition with_working (p : producer) (n : Z) : producer :=
  Producer (maxQueueSize_ p) (stop_ p) n (nThreads_ p) (running_ p) (queue_ p).
Definition with_running (p : producer) (n : Z) : producer :=
  Producer (maxQueueSize_ p) (stop_ p) (working_ p) (nThreads_ p) n (queue_ p).
Definition with_queue (p : producer) (q : list T) : producer :=
  Producer (maxQueueSize_ p) (stop_ p) (working_ p) (nThreads_ p) (running_ p) q.
Definition with_stop (p : producer) : producer :=
  Producer (maxQueueSize_ p) true (working_ p) (nThreads_ p) (running_ p) (queue_ p).

(** [src/common/parallel.h:241-255] BufferedProducer::BufferedProducer;
    [garbage] is the value an atomic has before it is first assigned. *)
Definition construct (nThreads maxQueueSize : nat) (garbage : Z) : res producer :=
  if Nat.eqb nThreads 0 then Throw "Cannot use a buffered producer with no threads" else
  if Nat.eqb maxQueueSize 0 then Throw "Cannot consturct a BufferedProducer with 0 queue size" else
  Ok (Producer maxQueueSize false 0 nThreads garbage []).

Definition init (p : producer) (nclients : nat) : state :=
  State p false 0 (replicate (nThreads_ p) PReady) (replicate nclients GIdle) [].

(** ** Steps *)

(** [queueCV_.notify_all()] *)
Definition wake_worker (w : worker) : worker := match w with PSleep => PReady | _ => w end.
Definition wake_client (c : client) : client := match c with GSleep => GGet | _ => c end.
Definition notify_all (s : state) : state :=
  State (obj s) (ready s) (early s) (wake_worker <$> workers s) (wake_client <$> clients s) (log s).

Definition is_done (w : worker) : bool := match w with PDone => true | _ => false end.
Definition exited (w : worker) : bool := match w with PDone | PExit => true | _ => false end.

Definition at_worker (s : state) (p : producer) (w : nat) (c : worker) (ev : list event) : state :=
  State p (ready s) (early s) (<[w := c]> (workers s)) (clients s) (log s ++ ev).
Definition at_client (s : state) (p : producer) (i : nat) (c : client) (ev : list event) : state :=
  State p (ready s) (early s) (workers s) (<[i := c]> (clients s)) (log s ++ ev).

(** [src/common/parallel.h:256-257] BufferedProducer::BufferedProducer *)
Definition set_running (s : state) : state :=
  State (with_running (obj s) (Z.of_nat (nThreads_ (obj s)))) true (count is_done (workers s))
    (workers s) (clients s) (log s).

(** [src/common/parallel.h:292-303] BufferedProducer::run *)
Definition run_head (s : state) (w : nat) : state :=
  let p := obj s in
  if stop_ p || (Z.of_nat (length (queue_ p)) + working_ p <? Z.of_nat (maxQueueSize_ p)) then
    if stop_ p then at_worker s p w PExit []
    else at_worker s (with_working p (working_ p + 1)) w PWorking []
  else at_worker s p w PSleep [].

(** [src/common/parallel.h:304-317] BufferedProducer::run *)
Definition run_tail (s : state) (w : nat) (result : option T) : state :=
  let p := with_working (obj s) (working_ (obj s) - 1) in
  match result with
  | None => notify_all (at_worker s (with_running p (running_ p - 1)) w PDone [])
  | Some x => notify_all (at_worker s (with_queue p (queue_ p ++ [x])) w PReady [Produced x])
  end.

(** [src/common/parallel.h:273-287] BufferedProducer::get *)
Definition get (s : state) (i : nat) : state :=
  let p := obj s in
  if stop_ p || negb (Nat.eqb (length (queue_ p)) 0) || (running_ p =? 0) then
    if stop_ p then at_client s p i GThrew [] else
    match queue_ p with
    | [] => at_client s p i (GGot None) []
    | x :: q => notify_all (at_client s (with_queue p q) i (GGot (Some x)) [Delivered x])
    end
  else at_client s p i GSleep [].

(** [src/common/parallel.h:261-270] BufferedProducer::~BufferedProducer *)
Definition destroy (s : state) (i : nat) (c : client) : option state :=
  match c with
  | GDestroy => Some (notify_all (at_client s (with_stop (obj s)) i GJoin []))
  | GJoin => if forallb exited (workers s) then Some (at_client s (obj s) i GDestroyed []) else None
  | _ => None
  end.

Inductive label :=
| Ready                                    (** the constructor returns *)
| Get (i : nat) | Destroy (i : nat)
| ClientGo (i : nat)
| WorkerGo (w : nat)
| Return (w : nat) (r : option T)          (** [fn] returns [r] in thread [w] *)
| SpuriousClient (i : nat) | SpuriousWorker (w : nat).

(** A call starts in a client that is in none, once the object is constructed. *)
Definition call (s : state) (i : nat) (c : client) : option (res state) :=
  if ready s then
    match clients s !! i with
    | Some GIdle | Some GThrew | Some (GGot _) => Some (Ok (at_client s (obj s) i c []))
    | _ => None
    end
  else None.

Definition step (s : state) (l : label) : option (res state) :=
  match l with
  | Ready => if ready s then None else Some (Ok (set_running s))
  | Get i => call s i GGet
  | Destroy i => call s i GDestroy
  | ClientGo i =>
      match clients s !! i with
      | Some GGet => Some (Ok (get s i))
      | Some c => s' ← destroy s i c; Some (Ok s')
      | None => None
      end
  | WorkerGo w => match workers s !! w with Some PReady => Some (Ok (run_head s w)) | _ => None end
  | Return w r => match workers s !! w with Some PWorking => Some (Ok (run_tail s w r)) | _ => None end
  | SpuriousClient i =>
      match clients s !! i with Some GSleep => Some (Ok (at_client s (obj s) i GGet [])) | _ => None end
  | SpuriousWorker w =>
      match workers s !! w with Some PSleep => Some (Ok (at_worker s (obj s) w PReady [])) | _ => None end
  end.

(** ** Invariant *)

Definition produced (l : list event) : list T := omap (λ e, match e with Produced x => Some x | _ => None end) l.
Definition delivered (l : list event) : list T := omap (λ e, match e with Delivered x => Some x | _ => None end) l.
Definition in_fn (w : worker) : bool := match w with PWorking => true | _ => false end.
Definition worker_asleep (w : worker) : bool := match w with PSleep => true | _ => false end.
Definition client_asleep (c : client) : bool := match c with GSleep => true | _ => false end.
Definition is_exit (w : worker) : bool := match w with PExit => true | _ => false end.
Definition started (c : client) : bool := match c with GIdle => false | _ => true end.
Definition after_stop (c : client) : bool := match c with GJoin | GDestroyed => true | _ => false end.

Record Inv (s : state) : Prop := {
  i_pool : length (workers s) = nThreads_ (obj s);
  i_cap : (0 < nThreads_ (obj s) ∧ 0 < maxQueueSize_ (obj s))%nat;
  i_working : working_ (obj s) = count in_fn (workers s);
  i_bound : Z.of_nat (length (queue_ (obj s))) + working_ (obj s) ≤ Z.of_nat (maxQueueSize_ (obj s));
  i_fifo : produced (log s) = delivered (log s) ++ queue_ (obj s);
  i_started : ready s = false → count started (clients s) = 0;
  i_running : ready s = true →
    running_ (obj s) = Z.of_nat (nThreads_ (obj s)) + early s - count is_done (workers s) ∧ 0 ≤ early s;
  i_worker_sleep : stop_ (obj s) = false → 0 < count worker_asleep (workers s) →
    Z.of_nat (maxQueueSize_ (obj s)) ≤ Z.of_nat (length (queue_ (obj s))) + working_ (obj s);
  i_client_sleep : stop_ (obj s) = false → 0 < count client_asleep (clients s) →
    queue_ (obj s) = [] ∧ running_ (obj s) ≠ 0;
  i_stop : stop_ (obj s) = true → count worker_asleep (workers s) = 0 ∧ count client_asleep (clients s) = 0;
  i_exit : stop_ (obj s) = false → count is_exit (workers s) = 0 ∧ count after_stop (clients s) = 0
}.

Lemma producer_init_inv nt mx g p n : construct nt mx g = Ok p → Inv (init p n).
Proof.
  unfold construct. destruct (Nat.eqb_spec nt 0); [done|]. destruct (Nat.eqb_spec mx 0); [done|].
  intros [= <-]. constructor; simpl; rewrite ?length_replicate, ?count_replicate by done; try done; try lia.
Qed.

(** Everybody is awake after a notification. *)
Lemma notify_all_inv s :
  length (workers s) = nThreads_ (obj s) →
  (0 < nThreads_ (obj s) ∧ 0 < maxQueueSize_ (obj s))%nat →
  working_ (obj s) = count in_fn (workers s) →
  Z.of_nat (length (queue_ (obj s))) + working_ (obj s) ≤ Z.of_nat (maxQueueSize_ (obj s)) →
  produced (log s) = delivered (log s) ++ queue_ (obj s) →
  (ready s = false → count started (clients s) = 0) →
  (ready s = true →
    running_ (obj s) = Z.of_nat (nThreads_ (obj s)) + early s - count is_done (workers s) ∧ 0 ≤ early s) →
  (stop_ (obj s) = false → count is_exit (workers s) = 0 ∧ count after_stop (clients s) = 0) →
  Inv (notify_all s).
Proof.
  intros H1 H2 H3 H4 H5 H6 H7 H8.
  assert (count worker_asleep (wake_worker <$> workers s) = 0) as Hw.
  { apply count_zero. intros i p (q & -> & _)%list_lookup_fmap_Some. by destruct q. }
  assert (count client_asleep (wake_client <$> clients s) = 0) as Hc.
  { apply count_zero. intros i p (q & -> & _)%list_lookup_fmap_Some. by destruct q. }
  constructor; simpl; rewrite ?Hw, ?Hc, ?length_fmap, ?(count_fmap in_fn), ?(count_fmap started),
    ?(count_fmap is_done), ?(count_fmap is_exit), ?(count_fmap after_stop) by (by intros []); try done; lia.
Qed.

(** A client moves, the object does not change. *)
Lemma inv_client s i c c' :
  Inv s → clients s !! i = Some c → ready s = true →
  (after_stop c' = true → after_stop c = true) →
  (client_asleep c' = true → stop_ (obj s) = false ∧ queue_ (obj s) = [] ∧ running_ (obj s) ≠ 0) →
  Inv (at_client s (obj s) i c' []).
Proof.
  intros [] Hi Hr Hst Hsl. pose proof (λ f, count_insert f _ _ _ c' Hi) as Hci.
  unfold at_client. rewrite app_nil_r. constructor; simpl; try done.
  - by rewrite Hr.
  - intros H1 H2. destruct (client_asleep c') eqn:E; [by apply Hsl|]. apply i_client_sleep0; [done|].
    rewrite Hci, E in H2. b2z_lia.
  - intros H1. destruct (i_stop0 H1) as [? H2]. split; [done|]. rewrite Hci, H2.
    destruct (client_asleep c') eqn:E; [destruct Hsl as [? _]; congruence|].
    pose proof (count_lookup_b2z client_asleep _ _ _ Hi). b2z_lia.
  - intros H1. destruct (i_exit0 H1) as [? H2]. split; [done|]. rewrite Hci, H2.
    pose proof (b2z_le _ _ Hst). pose proof (count_lookup_b2z after_stop _ _ _ Hi).
    pose proof (count_nonneg after_stop (<[i := c']> (clients s))) as Hn. rewrite Hci, H2 in Hn. lia.
Qed.

Lemma called_ready s i c : Inv s → clients s !! i = Some c → started c = true → ready s = true.
Proof.
  intros HI Hi Hc. destruct (ready s) eqn:E; [done|].
  pose proof (i_started _ HI E) as H. rewrite count_zero in H. by rewrite (H _ _ Hi) in Hc.
Qed.

Lemma inv_get s i : Inv s → clients s !! i = Some GGet → Inv (get s i).
Proof.
  intros HI Hi. pose proof (called_ready _ _ _ HI Hi eq_refl) as Hr. unfold get.
  destruct (stop_ (obj s)) eqn:Es; simpl; [by eapply inv_client|].
  destruct (queue_ (obj s)) as [|x q] eqn:Eq; simpl.
  - destruct (Z.eqb_spec (running_ (obj s)) 0); by eapply inv_client.
  - pose proof HI as []. pose proof (λ f, count_insert f _ _ _ (GGot (Some x)) Hi) as Hci.
    rewrite Eq in *. simpl in *. apply notify_all_inv; simpl; try done; [lia| | |].
    + unfold produced, delivered in *. rewrite !omap_app, i_fifo0. simpl. by rewrite app_nil_r, <-app_assoc.
    + by rewrite Hr.
    + intros _. destruct (i_exit0 Es) as [? H2]. rewrite Hci, H2. simpl. split; [done|lia].
Qed.

Lemma inv_destroy s i c s' :
  Inv s → clients s !! i = Some c → destroy s i c = Some s' → Inv s'.
Proof.
  intros HI Hi H. pose proof HI as []. destruct c; simplify_eq/=.
  - pose proof (called_ready _ _ _ HI Hi eq_refl) as Hr.
    apply notify_all_inv; simpl; rewrite ?app_nil_r; try done. by rewrite Hr.
  - destruct (forallb _ _); simplify_eq. pose proof (called_ready _ _ _ HI Hi eq_refl). by eapply inv_client.
Qed.

Lemma inv_run_head s w : Inv s → workers s !! w = Some PReady → Inv (run_head s w).
Proof.
  intros [] Hw. pose proof (λ c f, count_insert f _ _ _ c Hw) as Hci. unfold run_head, at_worker.
  destruct (stop_ (obj s)) eqn:Es; simpl; rewrite app_nil_r;
    [|destruct (Z.ltb_spec (Z.of_nat (length (queue_ (obj s))) + working_ (obj s)) (Z.of_nat (maxQueueSize_ (obj s))))];
    constructor; simpl; rewrite ?length_insert, ?Hci, ?Es; simpl; try done; try lia;
    try (intros H1; destruct (i_running0 H1); lia);
    try (intros _; destruct (i_exit0 eq_refl) as [-> ?]; done).
Qed.

Lemma inv_run_tail s w r : Inv s → workers s !! w = Some PWorking → Inv (run_tail s w r).
Proof.
  intros [] Hw. pose proof (λ c f, count_insert f _ _ _ c Hw) as Hci.
  pose proof (count_lookup _ _ _ _ Hw (eq_refl : in_fn PWorking = true)).
  unfold run_tail, at_worker. destruct r as [x|]; apply notify_all_inv; simpl;
    rewrite ?length_insert, ?length_app, ?Hci; simpl; try done; try lia;
    try (intros H1; destruct (i_running0 H1); lia);
    try (intros H1; destruct (i_exit0 H1) as [-> ?]; done).
  - unfold produced, delivered in *. rewrite !omap_app, i_fifo0. simpl. by rewrite app_nil_r, <-app_assoc.
  - by rewrite app_nil_r.
Qed.

Lemma inv_step s l r : Inv s → step s l = Some r → ∃ s', r = Ok s' ∧ Inv s'.
Proof.
  intros HI H. destruct l as [|i|i|i|w|w x|i|w]; simpl in H.
  - destruct (ready s) eqn:Er; simplify_eq. eexists. split; [done|]. pose proof HI as [].
    assert (count client_asleep (clients s) = 0) as Hz.
    { pose proof (count_le client_asleep started (clients s) ltac:(by intros [])).
      pose proof (count_nonneg client_asleep (clients s)). specialize (i_started0 Er). lia. }
    pose proof (count_nonneg is_done (workers s)).
    constructor; simpl; rewrite ?Hz; try done; try lia; intros Hs; by destruct (i_stop0 Hs).
  - unfold call in H. destruct (ready s) eqn:Er; [|done].
    destruct (clients s !! i) as [[]|] eqn:Ei; simplify_eq; (eexists; split; [done|]; by eapply inv_client).
  - unfold call in H. destruct (ready s) eqn:Er; [|done].
    destruct (clients s !! i) as [[]|] eqn:Ei; simplify_eq; (eexists; split; [done|]; by eapply inv_client).
  - destruct (clients s !! i) as [c|] eqn:Ei; [|done].
    assert (destroy s i c ≫= (λ s', Some (Ok s')) = Some r → ∃ s', r = Ok s' ∧ Inv s') as Hd.
    { intros (s' & Hs & [= <-])%bind_Some. eexists. split; [done|]. by eapply inv_destroy. }
    destruct c; try (by apply Hd). injection H as <-. eexists. split; [done|]. by apply inv_get.
  - destruct (workers s !! w) as [[]|] eqn:Ew; simplify_eq. eexists. split; [done|]. by apply inv_run_head.
  - destruct (workers s !! w) as [[]|] eqn:Ew; simplify_eq. eexists. split; [done|]. by apply inv_run_tail.
  - destruct (clients s !! i) as [[]|] eqn:Ei; simplify_eq. eexists. split; [done|].
    pose proof (called_ready _ _ _ HI Ei eq_refl). by eapply inv_client.
  - destruct (workers s !! w) as [[]|] eqn:Ew; simplify_eq. eexists. split; [done|]. pose proof HI as [].
    pose proof (λ f, count_insert f _ _ _ PReady Ew) as Hci. unfold at_worker.
    constructor; simpl; rewrite ?app_nil_r, ?length_insert, ?Hci; simpl; try done; try lia.
    all: intros H1; first [destruct (i_running0 H1); lia | by destruct (i_exit0 H1) as [-> ?] | idtac].
    + intros H2. apply i_worker_sleep0; [done|lia].
    + pose proof (count_lookup _ _ _ _ Ew (eq_refl : worker_asleep PSleep = true)). destruct (i_stop0 H1). lia.
Qed.

Lemma producer_reachable_Inv nt mx g p n s :
  construct nt mx g = Ok p → reachable step (init p n) s → Inv s.
Proof.
  intros Hp. apply reachable_inv; [|by eapply producer_init_inv].
  intros s1 l s2 H1 E. destruct (inv_step _ _ _ H1 E) as (s' & [= <-] & H). done.
Qed.

(** ** Theorems *)

(** What [get] delivers is what the threads produced, in the order in which it
    was queued and without loss: in every reachable state the values produced
    are those delivered followed by the queue; together with the calls of [fn]
    that are running the queue is within its bound; and no step is undefined. *)
Theorem producer_fifo nt mx g p n s :
  construct nt mx g = Ok p → reachable step (init p n) s →
  produced (log s) = delivered (log s) ++ queue_ (obj s) ∧
  Z.of_nat (length (queue_ (obj s))) + count in_fn (workers s) ≤ Z.of_nat (maxQueueSize_ (obj s)) ∧
  (∀ l r, step s l = Some r → ∃ s', r = Ok s').
Proof.
  intros Hp Hs. pose proof (producer_reachable_Inv _ _ _ _ _ _ Hp Hs) as HI. pose proof HI as [].
  rewrite <-i_working0. split_and!; try done.
  intros l r E. destruct (inv_step _ _ _ HI E) as (s' & -> & _). eauto.
Qed.

(** [get] returns an empty optional only when every thread has come to the end
    of its values and everything they produced has been delivered. *)
Theorem get_none_at_end nt mx g p n s i s' :
  construct nt mx g = Ok p → reachable step (init p n) s →
  clients s !! i = Some GGet → step s (ClientGo i) = Some (Ok s') → clients s' !! i = Some (GGot None) →
  (∀ w c, workers s !! w = Some c → c = PDone) ∧ produced (log s) = delivered (log s).
Proof.
  intros Hp Hs Hi H Hg. pose proof (producer_reachable_Inv _ _ _ _ _ _ Hp Hs) as HI. pose proof HI as [].
  cbn [step] in H. rewrite Hi in H. injection H as <-. pose proof (lookup_lt_Some _ _ _ Hi) as Hlt.
  unfold get in Hg. destruct (stop_ (obj s)) eqn:Es; simpl in Hg; [by rewrite list_lookup_insert_eq in Hg|].
  destruct (queue_ (obj s)) as [|x q] eqn:Eq; simpl in Hg.
  - destruct (Z.eqb_spec (running_ (obj s)) 0) as [E0|]; simpl in Hg; [|by rewrite list_lookup_insert_eq in Hg].
    destruct i_running0 as [Er He]; [by apply (called_ready s i GGet)|].
    split; [|by rewrite i_fifo0, app_nil_r].
    assert (count (λ c, negb (is_done c)) (workers s) = Z.of_nat (length (workers s)) - count is_done (workers s)) as Hn.
    { clear. induction (workers s) as [|c l IH]; simpl; [done|]. destruct (is_done c); simpl; lia. }
    pose proof (count_nonneg (λ c, negb (is_done c)) (workers s)).
    assert (count (λ c, negb (is_done c)) (workers s) = 0) as Hz by lia. rewrite count_zero in Hz.
    intros w c Hc. specialize (Hz _ _ Hc). by destruct c.
  - rewrite list_lookup_fmap, list_lookup_insert_eq in Hg; done.
Qed.

(** *** Calls return *)

Definition closing (l : label) : bool :=
  match l with ClientGo _ | WorkerGo _ | Return _ _ => true | _ => false end.

(** What a thread can still do, [N] being the number of all threads: room in
    the queue may be used once, a notification wakes up to [N] sleepers. *)
Definition worker_work (N : Z) (w : worker) : Z :=
  match w with
  | PDone | PExit => 0 | PSleep => N + 3 | PReady => N + 4 | PWorking => 2 * N + 5
  end.
Definition client_work (N : Z) (c : client) : Z :=
  match c with
  | GIdle | GThrew | GGot _ | GDestroyed => 0
  | GGet => 2 * N + 4 | GSleep => 2 * N + 3 | GDestroy => N + 3 | GJoin => 1
  end.
Definition size (s : state) : Z := Z.of_nat (length (workers s)) + Z.of_nat (length (clients s)).
Definition room (s : state) : Z :=
  Z.of_nat (maxQueueSize_ (obj s)) - Z.of_nat (length (queue_ (obj s))) - working_ (obj s).
Definition work_left (s : state) : Z :=
  wsum (worker_work (size s)) (workers s) + wsum (client_work (size s)) (clients s) + (size s + 2) * room s.

Lemma producer_work_nonneg s : Inv s → 0 ≤ work_left s.
Proof.
  intros []. unfold work_left, room.
  assert (0 ≤ size s) by (unfold size; lia).
  pose proof (wsum_nonneg (worker_work (size s)) (workers s) ltac:(intros []; simpl; lia)).
  pose proof (wsum_nonneg (client_work (size s)) (clients s) ltac:(intros []; simpl; lia)). nia.
Qed.

(** A notification makes at most one more move possible for each thread. *)
Lemma work_notify s : work_left (notify_all s) ≤ work_left s + size s.
Proof.
  assert (size (notify_all s) = size s) as Hsz by (unfold size; simpl; by rewrite !length_fmap).
  unfold work_left. rewrite Hsz. unfold room. simpl.
  pose proof (wsum_fmap_le (worker_work (size s)) wake_worker 1 (workers s) ltac:(intros []; simpl; lia)).
  pose proof (wsum_fmap_le (client_work (size s)) wake_client 1 (clients s) ltac:(intros []; simpl; lia)).
  unfold size in *. lia.
Qed.

Lemma work_at_client s p i c c' ev : clients s !! i = Some c →
  work_left (at_client s p i c' ev) =
  work_left s - client_work (size s) c + client_work (size s) c' + (size s + 2) * (room (at_client s p i c' ev) - room s).
Proof.
  intros Hi. assert (size (at_client s p i c' ev) = size s) as Hsz by (unfold size; simpl; by rewrite length_insert).
  unfold work_left. rewrite Hsz. simpl. rewrite (wsum_insert _ _ _ _ _ Hi). lia.
Qed.

Lemma work_at_worker s p w c c' ev : workers s !! w = Some c →
  work_left (at_worker s p w c' ev) =
  work_left s - worker_work (size s) c + worker_work (size s) c' + (size s + 2) * (room (at_worker s p w c' ev) - room s).
Proof.
  intros Hw. assert (size (at_worker s p w c' ev) = size s) as Hsz by (unfold size; simpl; by rewrite length_insert).
  unfold work_left. rewrite Hsz. simpl. rewrite (wsum_insert _ _ _ _ _ Hw). lia.
Qed.

Lemma size_at s p i c w d ev : size (at_client s p i c ev) = size s ∧ size (at_worker s p w d ev) = size s.
Proof. unfold size. simpl. by rewrite !length_insert. Qed.

Lemma producer_closing_decreases s l s' :
  closing l = true → step s l = Some (Ok s') → work_left s' < work_left s.
Proof.
  intros Hl H. assert (0 ≤ size s) as Hsz by (unfold size; lia).
  destruct l as [|i|i|i|w|w r|i|w]; try done; simpl in H.
  - destruct (clients s !! i) as [c|] eqn:Ei; [|done]. destruct c; simplify_eq/=.
    + unfold get. destruct (stop_ (obj s)); simpl;
        [|destruct (queue_ (obj s)) as [|x q] eqn:Eq; simpl; [destruct (running_ (obj s) =? 0); simpl|]].
      1-3: rewrite (work_at_client _ _ _ _ _ _ Ei); unfold room; simpl; lia.
      pose proof (work_notify (at_client s (with_queue (obj s) q) i (GGot (Some x)) [Delivered x])) as Hn.
      rewrite (proj1 (size_at s _ i _ 0 PReady _)), (work_at_client _ _ _ _ _ _ Ei) in Hn.
      unfold room in Hn. simpl in Hn. rewrite Eq in Hn. simpl in Hn. lia.
    + pose proof (work_notify (at_client s (with_stop (obj s)) i GJoin [])) as Hn.
      rewrite (proj1 (size_at s _ i _ 0 PReady _)), (work_at_client _ _ _ _ _ _ Ei) in Hn.
      unfold room in Hn. simpl in Hn. lia.
    + destruct (forallb _ _); simplify_eq/=. rewrite (work_at_client _ _ _ _ _ _ Ei). unfold room. simpl. lia.
  - destruct (workers s !! w) as [[]|] eqn:Ew; simplify_eq. unfold run_head.
    repeat case_match; rewrite (work_at_worker _ _ _ _ _ _ Ew); unfold room; simpl; lia.
  - destruct (workers s !! w) as [[]|] eqn:Ew; simplify_eq. unfold run_tail. destruct r as [x|]; simpl.
    + match goal with |- work_left (notify_all ?u) < _ => pose proof (work_notify u) as Hn end.
      rewrite (proj2 (size_at s _ 0 GIdle w _ _)), (work_at_worker _ _ _ _ _ _ Ew) in Hn.
      unfold room in Hn. simpl in Hn. rewrite length_app in Hn. simpl in Hn. lia.
    + match goal with |- work_left (notify_all ?u) < _ => pose proof (work_notify u) as Hn end.
      rewrite (proj2 (size_at s _ 0 GIdle w _ _)), (work_at_worker _ _ _ _ _ _ Ew) in Hn.
      unfold room in Hn. simpl in Hn. lia.
Qed.

(** In no call of the producer. *)
Definition outside (c : client) : bool :=
  match c with GIdle | GThrew | GGot _ | GDestroyed => true | _ => false end.

Definition stuck (s : state) : Prop := ∀ l, closing l = true → step s l = None.

Lemma stuck_outside s : Inv s → stuck s → early s = 0 → ∀ i c, clients s !! i = Some c → outside c = true.
Proof.
  intros HI Hst He i c Hi. pose proof HI as [].
  assert (∀ w d, workers s !! w = Some d → d = PSleep ∨ exited d = true) as Hw.
  { intros w d Hd. destruct d; auto; exfalso.
    - specialize (Hst (WorkerGo w) eq_refl). simpl in Hst. by rewrite Hd in Hst.
    - specialize (Hst (Return w None) eq_refl). simpl in Hst. by rewrite Hd in Hst. }
  assert (working_ (obj s) = 0) as H0.
  { rewrite i_working0. apply count_zero. intros w d Hd. by destruct (Hw w d Hd) as [->|]; [|destruct d]. }
  pose proof (Hst (ClientGo i) eq_refl) as Hg. simpl in Hg. rewrite Hi in Hg. destruct c; try done; exfalso.
  - destruct (stop_ (obj s)) eqn:Es.
    + destruct (i_stop0 eq_refl) as [_ Hz]. rewrite count_zero in Hz. by specialize (Hz _ _ Hi).
    + destruct (i_client_sleep0 eq_refl (count_lookup _ _ _ _ Hi eq_refl)) as [Hq Hr].
      destruct (i_running0 (called_ready _ _ _ HI Hi eq_refl)) as [Er _].
      assert (count is_done (workers s) = Z.of_nat (length (workers s))) as Hd.
      { assert (∀ w d, workers s !! w = Some d → is_done d = true) as Hall.
        { intros w d Hd. destruct (Hw w d Hd) as [->|Hx].
          - pose proof (i_worker_sleep0 eq_refl (count_lookup _ _ _ _ Hd eq_refl)) as Hm.
            rewrite Hq in Hm. simpl in Hm. lia.
          - destruct d; try done. destruct (i_exit0 eq_refl) as [Hz _]. rewrite count_zero in Hz. by specialize (Hz _ _ Hd). }
        clear -Hall. induction (workers s) as [|d l IH]; simpl; [done|].
        rewrite (Hall 0%nat d eq_refl), IH; [simpl; lia|]. intros w e He. by apply (Hall (S w)). }
      lia.
  - destruct (stop_ (obj s)) eqn:Es.
    + assert (forallb exited (workers s) = true) as Hd; [|simpl in Hg; by rewrite Hd in Hg].
      apply forallb_forall. intros d Hd. apply list_elem_of_In, list_elem_of_lookup in Hd as [w Hd].
      destruct (Hw w d Hd) as [->|]; [|done]. destruct (i_stop0 eq_refl) as [Hz _].
      rewrite count_zero in Hz. by specialize (Hz _ _ Hd).
    + destruct (i_exit0 eq_refl) as [_ Hz]. rewrite count_zero in Hz. by specialize (Hz _ _ Hi).
Qed.

(** Every call returns, in every schedule, as long as [fn] returns and no
    thread was done before the constructor set [running_]: without new calls a
    run has at most [work_left] steps, and when nothing can move every client
    is out of its call. *)
Theorem producer_calls_return nt mx g p n s tr s' :
  construct nt mx g = Ok p → reachable step (init p n) s →
  Forall (λ l, closing l = true) tr → run step tr s = Some s' →
  Z.of_nat (length tr) ≤ work_left s ∧
  (stuck s' → early s' = 0 → ∀ i c, clients s' !! i = Some c → outside c = true).
Proof.
  intros Hc Hs Htr Hr. pose proof (run_bounded step closing work_left _ _ _ producer_closing_decreases Htr Hr).
  assert (Inv s') as HI.
  { eapply producer_reachable_Inv; [done|]. destruct Hs as [tr0 H1]. exists (tr0 ++ tr). by rewrite run_app, H1. }
  pose proof (producer_work_nonneg s' HI). split; [lia|]. intros. by eapply stuck_outside.
Qed.

(** The constructor throws exactly without threads or without room in the
    queue, and [get] throws exactly when the producer has been stopped, without
    taking anything out of the queue. *)
Theorem producer_errors nt mx g :
  ((∃ msg, construct nt mx g = Throw msg) ↔ nt = 0%nat ∨ mx = 0%nat) ∧
  ∀ s i, clients s !! i = Some GGet →
    ∃ s', step s (ClientGo i) = Some (Ok s') ∧
      (clients s' !! i = Some GThrew ↔ stop_ (obj s) = true) ∧
      (stop_ (obj s) = true → obj s' = obj s ∧ log s' = log s).
Proof.
  split.
  - unfold construct. destruct (Nat.eqb_spec nt 0), (Nat.eqb_spec mx 0); simpl; split; intros Hx;
      try (by destruct Hx); eauto; lia.
  - intros s i Hi. pose proof (lookup_lt_Some _ _ _ Hi) as Hlt. cbn [step]. rewrite Hi. eexists. split; [done|].
    unfold get. destruct (stop_ (obj s)) eqn:Es; simpl.
    + rewrite list_lookup_insert_eq, app_nil_r by done. done.
    + destruct (queue_ (obj s)); simpl; [destruct (running_ (obj s) =? 0); simpl|];
        rewrite ?list_lookup_fmap, list_lookup_insert_eq by done; simpl; split; done || (split; congruence).
Qed.
End producer.

(** ** Examples *)

(** One thread and room for two values; client 0 got the first of them. *)
Definition example_producer : @producer Z := Producer 2 false 0 1 0 [].
Definition example_trace : list (@label Z) :=
  [Ready; WorkerGo 0; Return 0 (Some 4); WorkerGo 0; Get 0; Return 0 (Some 9); ClientGo 0;
   WorkerGo 0; Get 0; Return 0 None; ClientGo 0; Get 0].
Definition example_end : @state Z :=
  State (Producer 2 false 0 1 0 []) true 0 [PDone] [GGet]
    [Produced 4; Produced 9; Delivered 4; Delivered 9].

Lemma producer_example_reachable : reachable step (init example_producer 1) example_end.
Proof. exists example_trace. vm_compute. reflexivity. Qed.

Lemma producer_fifo_witness :
  produced (log example_end) = delivered (log example_end) ++ queue_ (obj example_end).
Proof. exact (proj1 (producer_fifo 1 2 0 example_producer 1 example_end eq_refl producer_example_reachable)). Defined.

Lemma get_none_at_end_witness :
  (∀ w c, workers example_end !! w = Some c → c = PDone) ∧ produced (log example_end) = delivered (log example_end).
Proof.
  exact (get_none_at_end 1 2 0 example_producer 1 example_end 0%nat (get example_end 0)
    eq_refl producer_example_reachable eq_refl eq_refl eq_refl).
Defined.

Lemma producer_calls_return_witness : Z.of_nat (length [ClientGo (T:=Z) 0]) ≤ work_left example_end.
Proof.
  refine (proj1 (producer_calls_return 1 2 0 example_producer 1 example_end [ClientGo 0] (get example_end 0)
    eq_refl producer_example_reachable _ eq_refl)). repeat constructor.
Defined.

Lemma producer_errors_witness :
  ∃ s', step (State (Producer 2 true 0 1 1 [7]) true 0 [PExit] [GGet; GJoin] [Produced 7]) (ClientGo 0) = Some (Ok s') ∧
    clients s' !! 0%nat = Some GThrew.
Proof.
  destruct (proj2 (producer_errors 1 2 0) (State (Producer 2 true 0 1 1 [7]) true 0 [PExit] [GGet; GJoin] [Produced 7]) 0%nat eq_refl)
    as (s' & H & Hiff & _).
  exists s'. split; [exact H|]. by apply Hiff.
Defined.

(** A thread whose [fn] has no value before the constructor assigns [running_]
    is counted as running for good: [get] sleeps although the only thread is
    done and the queue is empty, and nothing can wake it. *)
Theorem early_end_blocks_get :
  ∃ s, run step [WorkerGo 0; Return 0 (@None Z); Ready; Get 0; ClientGo 0] (init example_producer 1) = Some s ∧
    clients s = [GSleep] ∧ workers s = [PDone] ∧ running_ (obj s) = 1 ∧ stuck s.
Proof.
  eexists. split; [vm_compute; reflexivity|]. split_and!; try done.
  intros [|i|i|[|i]|[|w]|[|w] r|i|w] H; try done.
Qed.
End BufferedProducer.
