(* ===== verification/Batcher.v ===== *)
(** * The asynchronous batcher ([cpid/batcher.h], [cpid/batcher.cpp])

    [AsyncBatcher]: threads ask for the answer of a model to one query each, and a
    thread of the batcher's own answers several queries with one call of the
    model.  The model has that thread, any number of callers of [batchedForward],
    and the owner, which starts and stops the batching.  A step is the code a
    thread runs from one point where another thread can interfere to the next.
    How queries are put together and answers taken apart are virtual functions,
    so they are arguments here ([SubBatch] has an implementation); so is the
    model's [forward].  A caller that waits for [accessMutex_] may get it whenever
    it is free: the priorities only rule out some of these interleavings. *)

From S2P Require Import Prelude Threads.

Module AsyncBatcher.

Section batcher.
Context {V M : Type}.

(** ** State *)

(** What [std::promise] is set to. *)
Inductive outcome := Value (v : V) | Exception (msg : string).

(** Promises are indices into the table of all promises.

    [src/cpid/batcher.h:99-120] AsyncBatcher *)
Record batcher := Batcher {
  model_ : M; consumeThreadStarted_ : bool; batchSize_ : Z;
  querySize_ : Z; queries_ : list V; replies_ : list nat;
  shouldStop_ : bool; lastBatchSize_ : Z }.

(** Where the thread of the batcher is. *)
Inductive consumer :=
| KNone                                       (** not joinable *)
| KTop                                        (** about to take [accessMutex_] and to test the condition *)
| KTested                                     (** holding [accessMutex_], the condition was false *)
| KSleep                                      (** asleep on [batchReadyCV_] *)
| KBatch (queries : list V) (replies : list nat)  (** a batch taken, without [accessMutex_] *)
| KReply (todo : list (nat * outcome))        (** promises to be set *)
| KDone.                                      (** returned *)

(** Where a caller is. *)
Inductive client :=
| CIdle
| CThrew                               (** no batching: [batchedForward] threw *)
| CLock (state : V) (prio : Z)         (** about to take [accessMutex_] *)
| CPushed (state : V) (p : nat)        (** before [batchReadyCV_.notify_all()] *)
| CWait (state : V) (p : nat)          (** in [get_future().get()] *)
| CGot (state : V) (reply : outcome).  (** returned, or the exception was rethrown *)

(** Where the owner is. *)
Inductive owner :=
| OIdle
| OStored    (** [shouldStop_] set, before [batchReadyCV_.notify_all()] *)
| OJoin.     (** in [join] *)

(** A promise is kept with the query it was made for, which no step reads. *)
Record state := State {
  obj : batcher; thread : consumer; clients : list client; boss : owner;
  promises : list (V * option outcome) }.

Definition with_queue (b : batcher) qs ps : batcher :=
  Batcher (model_ b) (consumeThreadStarted_ b) (batchSize_ b) (Z.of_nat (length qs)) qs ps (shouldStop_ b) (lastBatchSize_ b).
Definition set_last (b : batcher) n : batcher :=
  Batcher (model_ b) (consumeThreadStarted_ b) (batchSize_ b) (querySize_ b) (queries_ b) (replies_ b) (shouldStop_ b) n.
Definition set_stop (b : batcher) : batcher :=
  Batcher (model_ b) (consumeThreadStarted_ b) (batchSize_ b) (querySize_ b) (queries_ b) (replies_ b) true (lastBatchSize_ b).

Context (makeBatch : list V → res V) (unBatch : V → res (list V)) (forward : M → V → res V).

(** ** Starting and stopping *)

(** [src/cpid/batcher.cpp:41-52] AsyncBatcher::startBatching *)
Definition startBatching (b : batcher) (batchSize : Z) : res batcher :=
  if consumeThreadStarted_ b then Throw "Consumer thread already started" else
  if batchSize <? 1 then Throw "Batchsize must be at least 1" else
  Ok (Batcher (model_ b) true batchSize (querySize_ b) (queries_ b) (replies_ b) false (lastBatchSize_ b)).

(** [querySize_] is not initialised, so its value is an argument.

    [src/cpid/batcher.cpp:17-35] AsyncBatcher::AsyncBatcher *)
Definition construct (model : M) (batchSize : Z) (nclients : nat) (querySize : Z) : res state :=
  let b := Batcher model false 0 querySize [] [] false 0 in
  let cs := replicate nclients CIdle in
  if 0 <? batchSize then let? b := startBatching b batchSize in Ok (State b KTop cs OIdle [])
  else Ok (State b KNone cs OIdle []).

Definition wake (k : consumer) : consumer := match k with KSleep => KTop | _ => k end.

(** The owner calls [startBatching]; an exception leaves the batcher as it was. *)
Definition start_go (s : state) (batchSize : Z) : option (res state) :=
  match boss s with
  | OIdle => match startBatching (obj s) batchSize with
             | Ok b => Some (Ok (State b KTop (clients s) OIdle (promises s)))
             | _ => Some (Ok s)
             end
  | _ => None
  end.

(** The owner calls [stopBatching] (so does the destructor).

    [src/cpid/batcher.cpp:54-56] AsyncBatcher::stopBatching *)
Definition stop_go (s : state) : option (res state) :=
  match boss s with
  | OIdle => match thread s with
             | KNone => Some (Ok s)
             | _ => Some (Ok (State (set_stop (obj s)) (thread s) (clients s) OStored (promises s)))
             end
  | _ => None
  end.

(** [src/cpid/batcher.cpp:57-61] AsyncBatcher::stopBatching *)
Definition owner_go (s : state) : option (res state) :=
  match boss s with
  | OIdle => None
  | OStored => Some (Ok (State (obj s) (wake (thread s)) (clients s) OJoin (promises s)))
  | OJoin =>
      match thread s with
      | KDone => let b := obj s in
          Some (Ok (State (Batcher (model_ b) false (batchSize_ b) (querySize_ b) (queries_ b) (replies_ b) (shouldStop_ b) (lastBatchSize_ b))
                      KNone (clients s) OIdle (promises s)))
      | _ => None
      end
  end.

(** [src/cpid/batcher.cpp:184-187] AsyncBatcher::setModel *)
Definition setModel (b : batcher) (m : M) : batcher :=
  Batcher m (consumeThreadStarted_ b) (batchSize_ b) (querySize_ b) (queries_ b) (replies_ b) (shouldStop_ b) (lastBatchSize_ b).

(** ** Callers *)

(** [src/cpid/batcher.cpp:91-93] AsyncBatcher::shouldConsume *)
Definition shouldConsume (b : batcher) : bool := batchSize_ b <=? querySize_ b.

Definition at_client (s : state) (i : nat) (c : client) : state :=
  State (obj s) (thread s) (<[i := c]> (clients s)) (boss s) (promises s).

(** [src/cpid/batcher.cpp:63-73] AsyncBatcher::batchedForward *)
Definition call_go (s : state) (i : nat) (v : V) : option (res state) :=
  match clients s !! i with
  | Some CIdle | Some CThrew | Some (CGot _ _) =>
      Some (Ok (at_client s i (if consumeThreadStarted_ (obj s) then CLock v (if shouldConsume (obj s) then 0 else 2) else CThrew)))
  | _ => None
  end.

(** [src/cpid/batcher.cpp:74-84] AsyncBatcher::batchedForward *)
Definition push (s : state) (i : nat) (v : V) : res state :=
  let b := obj s in
  let p := length (promises s) in
  let ps := replies_ b ++ [p] in
  let qs := queries_ b ++ [v] in
  if negb (length ps =? length qs)%nat then Throw "Size mismatch between replies and queries" else
  Ok (State (with_queue b qs ps) (thread s) (<[i := CPushed v p]> (clients s)) (boss s) (promises s ++ [(v, None)])).

(** [src/cpid/batcher.cpp:74-89] AsyncBatcher::batchedForward *)
Definition client_go (s : state) (i : nat) : option (res state) :=
  match clients s !! i with
  | Some (CLock v _) => match thread s with KTested => None | _ => Some (push s i v) end
  | Some (CPushed v p) => Some (Ok (State (obj s) (wake (thread s)) (<[i := CWait v p]> (clients s)) (boss s) (promises s)))
  | Some (CWait v p) =>
      match promises s !! p with
      | Some (_, Some o) => Some (Ok (at_client s i (CGot v o)))
      | _ => None
      end
  | _ => None
  end.

(** ** The thread *)

Definition at_thread (s : state) (b : batcher) (k : consumer) : state := State b k (clients s) (boss s) (promises s).

(** The queries that are taken, and those that are left.

    [src/cpid/batcher.cpp:103-133] AsyncBatcher::consumeThread *)
Definition take_batch (s : state) : state :=
  let b := obj s in
  if shouldStop_ b || negb (length (queries_ b) =? 0)%nat then
    if shouldStop_ b then at_thread s b KDone else
    let todoSize := Nat.min (Z.to_nat (batchSize_ b)) (length (queries_ b)) in
    at_thread s (with_queue b (drop todoSize (queries_ b)) (drop todoSize (replies_ b)))
      (KBatch (take todoSize (queries_ b)) (take todoSize (replies_ b)))
  else at_thread s b KTested.

(** [src/cpid/batcher.cpp:136-144] AsyncBatcher::consumeThread *)
Definition answers (m : M) (queries : list V) : res (list V) :=
  let? input := makeBatch queries in
  let? out := forward m input in
  unBatch out.

(** [src/cpid/batcher.cpp:135-160] AsyncBatcher::consumeThread *)
Definition answer_batch (s : state) (queries : list V) (replies : list nat) : res state :=
  match answers (model_ (obj s)) queries with
  | Ok vs =>
      if negb (length replies =? length vs)%nat then Throw "The batch size of the reply doesn't match the expected batch size"
      else Ok (at_thread s (set_last (obj s) (Z.of_nat (length queries))) (KReply (zip replies (Value <$> vs))))
  | Throw msg => Ok (at_thread s (obj s) (KReply ((λ p, (p, Exception msg)) <$> replies)))
  | Undefined => Undefined
  | OutOfFuel => OutOfFuel
  end.

(** Setting a promise twice throws within the handler, which ends the process.

    [src/cpid/batcher.cpp:153-159] AsyncBatcher::consumeThread *)
Definition set_promise (s : state) (p : nat) (o : outcome) (todo : list (nat * outcome)) : res state :=
  match promises s !! p with
  | Some (v, None) => Ok (State (obj s) (KReply todo) (clients s) (boss s) (<[p := (v, Some o)]> (promises s)))
  | Some (_, Some _) => Throw "Promise already satisfied"
  | None => Undefined
  end.

(** [src/cpid/batcher.cpp:95-162] AsyncBatcher::consumeThread *)
Definition consumeThread_go (s : state) : option (res state) :=
  match thread s with
  | KNone | KDone | KSleep => None
  | KTop => Some (Ok (take_batch s))
  | KTested => Some (Ok (at_thread s (obj s) KSleep))
  | KBatch queries replies => Some (answer_batch s queries replies)
  | KReply [] => Some (Ok (at_thread s (obj s) KTop))
  | KReply ((p, o) :: todo) => Some (set_promise s p o todo)
  end.

(** ** Steps *)

Inductive label :=
| LStart (batchSize : Z) | LStop | LOwner | LModel (m : M)
| LCall (i : nat) (v : V) | LClient (i : nat)
| LThread | LSpurious.

Definition step (s : state) (l : label) : option (res state) :=
  match l with
  | LStart n => start_go s n
  | LStop => stop_go s
  | LOwner => owner_go s
  | LModel m => Some (Ok (State (setModel (obj s) m) (thread s) (clients s) (boss s) (promises s)))
  | LCall i v => call_go s i v
  | LClient i => client_go s i
  | LThread => consumeThread_go s
  | LSpurious => match thread s with KSleep => Some (Ok (at_thread s (obj s) KTop)) | _ => None end
  end.

End batcher.
Arguments outcome : clear implicits.
Arguments batcher : clear implicits.
Arguments consumer : clear implicits.
Arguments client : clear implicits.
Arguments state : clear implicits.
Arguments label : clear implicits.
End AsyncBatcher.
