(* ===== verification/BatcherRuns.v ===== *)
(** * What callers of the batcher get

    Over all runs of [AsyncBatcher]: every reply is the answer to the caller's own
    query ([replies_own_query]), promises are set once, batches have between one
    and [batchSize_] queries, and while the batching is not being stopped every
    caller gets its reply ([callers_answered]).  Stopping it leaves callers
    waiting for ever, and can hang itself. *)

From S2P Require Import Prelude Threads Batcher.

Module BatcherRuns.
Import AsyncBatcher.

Section runs.
Context {V M : Type} (makeBatch : list V → res V) (unBatch : V → res (list V)) (forward : M → V → res V).
Implicit Types (s : state V M) (q : V) (p : nat).
#[local] Abbreviation step := (AsyncBatcher.step makeBatch unBatch forward).
#[local] Abbreviation answers := (AsyncBatcher.answers makeBatch unBatch forward).

(** [o] is what a batch with the query [q] in it gave for [q]. *)
Definition answer q (o : outcome V) : Prop := ∃ m qs k, qs !! k = Some q ∧
  match answers m qs with
  | Ok vs => length vs = length qs ∧ Value <$> vs !! k = Some o
  | Throw msg => o = Exception msg
  | _ => False
  end.

(** The promises the thread has taken and not set yet. *)
Definition taken (k : consumer V) : list nat :=
  match k with KBatch _ ps => ps | KReply todo => todo.*1 | _ => [] end.

Definition unset s q p : Prop := promises s !! p = Some (q, None).
Definition made_for s q p : Prop := fst <$> promises s !! p = Some q.

Definition thread_ok s : Prop :=
  match thread s with
  | KNone => True
  | KTop | KDone => True
  | KTested => queries_ (obj s) = [] 
  | KSleep => queries_ (obj s) = [] ∨ ∃ i q p, clients s !! i = Some (CPushed q p)
  | KBatch qs ps => Forall2 (unset s) qs ps ∧ (1 ≤ length qs)%nat ∧ Z.of_nat (length qs) ≤ batchSize_ (obj s)
  | KReply todo => ∀ p o, (p, o) ∈ todo → ∃ q, unset s q p ∧ answer q o
  end.

Definition client_ok s (c : client V) : Prop :=
  match c with
  | CPushed q p | CWait q p => made_for s q p
  | CGot q o => answer q o
  | _ => True
  end.

Record inv s : Prop := {
  inv_queue : Forall2 (unset s) (queries_ (obj s)) (replies_ (obj s));
  inv_once : NoDup (replies_ (obj s) ++ taken (thread s));
  inv_thread : thread_ok s;
  inv_set p q o : promises s !! p = Some (q, Some o) → answer q o;
  inv_unset p q : unset s q p → p ∈ replies_ (obj s) ++ taken (thread s);
  inv_clients i c : clients s !! i = Some c → client_ok s c;
  inv_started : consumeThreadStarted_ (obj s) = true ↔ thread s ≠ KNone;
  inv_size : thread s ≠ KNone → 1 ≤ batchSize_ (obj s);
  inv_stop : thread s = KDone → shouldStop_ (obj s) = true;
  inv_boss : shouldStop_ (obj s) = false → boss s = OIdle }.

(** ** Promises *)

Lemma pending_unset s p : inv s → p ∈ replies_ (obj s) ++ taken (thread s) → ∃ q, unset s q p.
Proof.
  intros [Hq _ Ht _ _ _ _ _ _ _] [Hp|Hp]%elem_of_app.
  - apply list_elem_of_lookup in Hp as [k Hk]. eapply Forall2_lookup_r in Hk as (q & _ & Hu); [|done]. by exists q.
  - unfold thread_ok, taken in *. destruct (thread s) as [| | | |qs ps|todo|]; try by apply not_elem_of_nil in Hp.
    + destruct Ht as (Hf & _). apply list_elem_of_lookup in Hp as [k Hk]. eapply Forall2_lookup_r in Hk as (q & _ & Hu); [|done]. by exists q.
    + apply list_elem_of_fmap in Hp as ([p' o] & -> & Hp). apply Ht in Hp as (q & Hu & _). by exists q.
Qed.

Lemma pending_lt s p : inv s → p ∈ replies_ (obj s) ++ taken (thread s) → (p < length (promises s))%nat.
Proof. intros Hi Hp. apply pending_unset in Hp as [q Hu]; [|done]. by eapply lookup_lt_Some. Qed.

Lemma made_for_unset s q p : unset s q p → made_for s q p.
Proof. unfold unset, made_for. by intros ->. Qed.

(** A caller moves to another point: nothing but its own state changes. *)
Lemma client_move s i c : inv s → client_ok s c → (∀ q p, clients s !! i = Some (CPushed q p) → thread s ≠ KSleep) → inv (at_client s i c).
Proof.
  intros Hi Hc Hn. pose proof (inv_thread _ Hi) as Ht. destruct Hi as [Hq Ho _ Hs Hu Hcl Hst Hsz Hsp Hb]. constructor; try done.
  - unfold thread_ok in *. cbn. destruct (thread s); try done. destruct Ht as [?|(j & q & p & Hj)]; [by left|right].
    exists j, q, p. rewrite list_lookup_insert_ne; [done|]. intros ->. by eapply (Hn q p).
  - intros j c' Hj. cbn in Hj. apply list_lookup_insert_Some in Hj as [(-> & <- & _)|[_ Hj]]; [done|by eapply Hcl].
Qed.

(** A step of the owner or of the thread that leaves queue and promises alone. *)
Lemma quiet_move s k b' o' : inv s → taken k = taken (thread s) →
  queries_ b' = queries_ (obj s) → replies_ b' = replies_ (obj s) →
  thread_ok (State b' k (clients s) o' (promises s)) →
  (consumeThreadStarted_ b' = true ↔ k ≠ KNone) → (k ≠ KNone → 1 ≤ batchSize_ b') →
  (k = KDone → shouldStop_ b' = true) → (shouldStop_ b' = false → o' = OIdle) →
  inv (State b' k (clients s) o' (promises s)).
Proof.
  intros [Hq Ho Ht Hs Hu Hcl Hst Hsz Hsp Hb] Ek E1 E2 Ht' Hst' Hsz' Hsp' Hb'.
  constructor; cbn; try done.
  - by rewrite E1, E2.
  - by rewrite E2, Ek.
  - rewrite E2, Ek. apply Hu.
Qed.

(** ** The steps keep the invariant *)

Lemma push_inv s i q prio s' : inv s → clients s !! i = Some (CLock q prio) → thread s ≠ KTested → push s i q = Ok s' → inv s'.
Proof.
  intros Hi Hc Hk H. pose proof (λ p, pending_lt s p Hi) as Hlt. pose proof (inv_queue _ Hi) as Hq. unfold push in H.
  destruct (negb _); [done|]. injection H as <-. destruct Hi as [_ Ho Ht Hs Hu Hcl Hst Hsz Hsp Hb].
  assert (∀ q' p', unset s q' p' → (promises s ++ [(q, None)]) !! p' = Some (q', None)) as Hmono by (intros q' p' H; by apply lookup_app_l_Some).
  assert (∀ q' p', made_for s q' p' → fst <$> (promises s ++ [(q, None)]) !! p' = Some q') as Hmono'.
  { unfold made_for. intros q' p'. destruct (promises s !! p') as [x|] eqn:E; [|done]. by rewrite (lookup_app_l_Some _ _ _ _ E). }
  assert ((promises s ++ [(q, None)]) !! length (promises s) = Some (q, None : option (outcome V))) as Hnew by by rewrite list_lookup_middle.
  assert (clients s !! i = Some (CLock q prio) → (i < length (clients s))%nat) as Hlen by apply lookup_lt_Some.
  constructor; cbn; try done.
  - apply Forall2_app; [by eapply Forall2_impl; [exact Hq|apply Hmono]|]. by constructor.
  - rewrite <- app_assoc. cbn [app]. rewrite <- Permutation_middle. apply NoDup_cons. split; [|done].
    intros Hin. apply Hlt in Hin. lia.
  - unfold thread_ok in *. cbn. destruct (thread s) as [| | | |qs ps|todo|]; try done.
    + right. exists i, q, (length (promises s)). rewrite list_lookup_insert_eq; [done|auto].
    + destruct Ht as (Hf & H1 & H2). split_and!; [|done|done]. by eapply Forall2_impl; [exact Hf|apply Hmono].
    + intros p o Hp. apply Ht in Hp as (q' & Hu' & Ha). exists q'. split; [by apply Hmono|done].
  - intros p q' o Hp. apply lookup_app_Some in Hp as [Hp|[_ Hp]]; [by eapply Hs|]. by apply list_lookup_singleton_Some in Hp as [_ [=]].
  - intros p q' Hp. unfold unset in Hp. cbn in Hp. apply lookup_app_Some in Hp as [Hp|[Hge Hp]]; [apply Hu in Hp; set_solver|].
    apply list_lookup_singleton_Some in Hp as [Hp _]. assert (p = length (promises s)) as -> by lia. set_solver.
  - intros j c Hj. apply list_lookup_insert_Some in Hj as [(-> & <- & _)|[_ Hj]].
    + unfold client_ok, made_for. cbn. by rewrite Hnew.
    + specialize (Hcl j c Hj). unfold client_ok, made_for in *. destruct c; try done; by apply Hmono'.
Qed.

(** [batchReadyCV_.notify_all()] by a caller or by the owner. *)
Lemma wake_taken (k : consumer V) : taken (wake k) = taken k.
Proof. by destruct k. Qed.
Lemma wake_none (k : consumer V) : wake k ≠ KNone ↔ k ≠ KNone.
Proof. by destruct k. Qed.
Lemma wake_done (k : consumer V) : wake k = KDone → k = KDone.
Proof. by destruct k. Qed.
Lemma wake_ok s b' o' : thread_ok s → queries_ b' = queries_ (obj s) → batchSize_ b' = batchSize_ (obj s) →
  thread_ok (State b' (wake (thread s)) (clients s) o' (promises s)).
Proof. unfold thread_ok, unset. intros Ht E1 E2. destruct s as [b k cs o ps]. cbn in *. destruct k; cbn; by rewrite ?E1, ?E2. Qed.

Lemma caller_notify_inv s i q p : inv s → clients s !! i = Some (CPushed q p) →
  inv (State (obj s) (wake (thread s)) (<[i := CWait q p]> (clients s)) (boss s) (promises s)).
Proof.
  intros Hi Hc. pose proof (inv_clients _ Hi _ _ Hc) as Hm.
  assert (inv (State (obj s) (wake (thread s)) (clients s) (boss s) (promises s))) as Hw.
  { destruct Hi as [Hq Ho Ht Hs Hu Hcl Hst Hsz Hsp Hb] eqn:Ei. apply quiet_move; try done.
    - apply wake_taken.
    - by apply wake_ok.
    - by rewrite wake_none.
    - intros H. apply Hsz. by apply wake_none.
    - intros H%wake_done. by apply Hsp. }
  apply (client_move _ i (CWait q p) Hw Hm). intros q' p' _. cbn. by destruct (thread s).
Qed.

(** The parts of the invariant on which the point of the thread has no bearing. *)
Ltac kept Ek Hst Hsz Hb :=
  try done; try (by rewrite Ek); try (intros _; by apply Hsz); try (split; [done|intros _; by apply Hst]); try congruence; try (intros _; by apply Hb).

Lemma take_batch_inv s : inv s → thread s = KTop → inv (take_batch s).
Proof.
  intros Hi Ek. pose proof Hi as [Hq Ho Ht Hs Hu Hcl Hst Hsz Hsp Hb]. unfold take_batch. rewrite Ek in *.
  destruct (shouldStop_ (obj s)) eqn:Es; cbn [orb].
  { apply quiet_move; cbn; kept Ek Hst Hsz Hb. }
  destruct (Nat.eqb_spec (length (queries_ (obj s))) 0) as [Eq|Eq]; cbn [negb].
  { apply nil_length_inv in Eq. apply quiet_move; cbn; kept Ek Hst Hsz Hb. }
  set (n := Nat.min (Z.to_nat (batchSize_ (obj s))) (length (queries_ (obj s)))).
  assert (1 ≤ n ≤ length (queries_ (obj s)))%nat as Hn by (specialize (Hsz ltac:(done)); unfold n; lia).
  assert (Z.of_nat n ≤ batchSize_ (obj s)) as Hn' by (unfold n; lia).
  assert (replies_ (obj s) = take n (replies_ (obj s)) ++ drop n (replies_ (obj s))) as Er by by rewrite take_drop.
  constructor; cbn; kept Ek Hst Hsz Hb.
  - by apply Forall2_drop.
  - rewrite Permutation_app_comm, take_drop. cbn in Ho. by rewrite app_nil_r in Ho.
  - unfold thread_ok. cbn. split_and!; [by apply Forall2_take|rewrite length_take; lia|rewrite length_take; lia].
  - intros p q Hp. specialize (Hu p q Hp). cbn in Hu. rewrite app_nil_r, Er in Hu. set_solver.
Qed.

Lemma answer_batch_inv s qs ps s' : inv s → thread s = KBatch qs ps → answer_batch makeBatch unBatch forward s qs ps = Ok s' → inv s'.
Proof.
  intros Hi Ek H. pose proof Hi as [Hq Ho Ht Hs Hu Hcl Hst Hsz Hsp Hb]. unfold thread_ok in Ht. rewrite Ek in *. destruct Ht as (Hf & Hl & _).
  pose proof (Forall2_length _ _ _ Hf) as Hlen. unfold answer_batch in H.
  destruct (answers (model_ (obj s)) qs) as [vs|msg| |] eqn:Ea; try done.
  - destruct (Nat.eqb_spec (length ps) (length vs)) as [El|]; cbn [negb] in H; [|done]. injection H as <-.
    apply quiet_move; cbn; kept Ek Hst Hsz Hb.
    + rewrite Ek. cbn. rewrite fst_zip; [done|]. rewrite length_fmap. lia.
    + unfold thread_ok. cbn. intros p o Hp. apply list_elem_of_lookup in Hp as [k Hk]. apply lookup_zip_Some in Hk as [Hkp Hko].
      destruct (Forall2_lookup_r _ _ _ _ _ Hf Hkp) as (q & Hkq & Hun). exists q. split; [done|].
      exists (model_ (obj s)), qs, k. split; [done|]. rewrite Ea. split; [lia|]. by rewrite list_lookup_fmap in Hko.
  - injection H as <-. apply quiet_move; cbn; kept Ek Hst Hsz Hb.
    + rewrite Ek. cbn. rewrite <- list_fmap_compose. apply list_fmap_id.
    + unfold thread_ok. cbn. intros p o Hp. apply list_elem_of_fmap in Hp as (p' & [= -> ->] & Hp). apply list_elem_of_lookup in Hp as [k Hkp].
      destruct (Forall2_lookup_r _ _ _ _ _ Hf Hkp) as (q & Hkq & Hun). exists q. split; [done|].
      exists (model_ (obj s)), qs, k. split; [done|]. by rewrite Ea.
Qed.

Lemma set_promise_ok s p o todo : inv s → thread s = KReply ((p, o) :: todo) → ∃ q, unset s q p ∧ answer q o.
Proof. intros Hi Ek. pose proof (inv_thread _ Hi) as Ht. unfold thread_ok in Ht. rewrite Ek in Ht. apply Ht. by left. Qed.

Lemma set_promise_inv s p o todo s' : inv s → thread s = KReply ((p, o) :: todo) → set_promise s p o todo = Ok s' → inv s'.
Proof.
  intros Hi Ek H. destruct (set_promise_ok s p o todo Hi Ek) as (q & Hun & Ha).
  pose proof Hi as [Hq Ho Ht Hs Hu Hcl Hst Hsz Hsp Hb]. unfold thread_ok in Ht. rewrite Ek in *. cbn in Ho, Hu.
  unfold set_promise in H. unfold unset in Hun. rewrite Hun in H. injection H as <-.
  assert (p ∉ replies_ (obj s) ++ todo.*1) as Hp by (rewrite <- Permutation_middle in Ho; by apply NoDup_cons in Ho as [? _]).
  assert (∀ q' p', p' ≠ p → unset s q' p' → <[p := (q, Some o)]> (promises s) !! p' = Some (q', None)) as Hne
    by (intros q' p' ? ?; by rewrite list_lookup_insert_ne).
  assert (p < length (promises s))%nat as Hlt by by eapply lookup_lt_Some.
  constructor; cbn; kept Ek Hst Hsz Hb.
  - apply Forall2_same_length_lookup_2; [by eapply Forall2_length|]. intros k q' p' Hk1 Hk2.
    apply Hne; [intros ->; apply Hp; apply elem_of_app; left; by eapply list_elem_of_lookup_2|]. by eapply Forall2_lookup_lr.
  - rewrite <- Permutation_middle in Ho. by apply NoDup_cons in Ho as [_ ?].
  - unfold thread_ok. cbn. intros p' o' Hin. destruct (Ht p' o' ltac:(by right)) as (q' & Hu' & Ha'). exists q'. split; [|done].
    apply Hne; [|done]. intros ->. apply Hp. apply elem_of_app. right. apply list_elem_of_fmap. by exists (p, o').
  - intros p' q' o' Hp'. apply list_lookup_insert_Some in Hp' as [(-> & [= <- <-] & _)|[_ Hp']]; [done|by eapply Hs].
  - intros p' q' Hp'. unfold unset in Hp'. cbn in Hp'. apply list_lookup_insert_Some in Hp' as [(_ & [=] & _)|[Hn Hp']].
    specialize (Hu p' q' Hp'). set_solver.
  - intros j c Hj. specialize (Hcl j c Hj). unfold client_ok, made_for in *. cbn. destruct c as [| | |q' p'|q' p'|]; try done;
      (destruct (decide (p' = p)) as [->|]; [rewrite list_lookup_insert_eq by done; rewrite Hun in Hcl; exact Hcl|by rewrite list_lookup_insert_ne]).
Qed.

Lemma thread_inv s s' : inv s → consumeThread_go makeBatch unBatch forward s = Some (Ok s') → inv s'.
Proof.
  intros Hi H. unfold consumeThread_go in H. destruct (thread s) as [| | | |qs ps|[|[p o] todo]|] eqn:Ek; try done; injection H as H.
  - subst s'. by apply take_batch_inv.
  - subst s'. pose proof Hi as [Hq Ho Ht Hs Hu Hcl Hst Hsz Hsp Hb]. unfold thread_ok in Ht. rewrite Ek in *.
    apply quiet_move; cbn; kept Ek Hst Hsz Hb. by left.
  - by eapply answer_batch_inv.
  - subst s'. pose proof Hi as [Hq Ho Ht Hs Hu Hcl Hst Hsz Hsp Hb]. rewrite Ek in *. apply quiet_move; cbn; kept Ek Hst Hsz Hb.
  - by eapply set_promise_inv.
Qed.

Lemma client_inv s i s' : inv s → client_go s i = Some (Ok s') → inv s'.
Proof.
  intros Hi H. unfold client_go in H. destruct (clients s !! i) as [[| |q prio|q p|q p|q o]|] eqn:Ec; try done.
  - assert (thread s ≠ KTested ∧ push s i q = Ok s') as [Hk Hp] by (destruct (thread s); try done; by injection H). by eapply push_inv.
  - injection H as <-. by apply caller_notify_inv.
  - destruct (promises s !! p) as [[q' [o|]]|] eqn:Ep; try done. injection H as <-.
    apply client_move; [done| |by intros ? ?; rewrite Ec].
    pose proof (inv_clients _ Hi _ _ Ec) as Hm. unfold client_ok, made_for in Hm. rewrite Ep in Hm. injection Hm as ->. by eapply inv_set.
Qed.

Lemma owner_inv s s' : inv s → owner_go s = Some (Ok s') → inv s'.
Proof.
  intros Hi H. pose proof Hi as [Hq Ho Ht Hs Hu Hcl Hst Hsz Hsp Hb]. unfold owner_go in H. destruct (boss s) eqn:Eb; [done|..].
  - injection H as <-. apply quiet_move; try done.
    + apply wake_taken.
    + by apply wake_ok.
    + by rewrite wake_none.
    + intros H. apply Hsz. by apply wake_none.
    + intros H%wake_done. by apply Hsp.
    + intros H. by apply Hb in H.
  - destruct (thread s) eqn:Ek; try done. injection H as <-. apply quiet_move; cbn; kept Ek Hst Hsz Hb.
Qed.

Lemma batcher_step_inv s l s' : inv s → step s l = Some (Ok s') → inv s'.
Proof.
  intros Hi H. pose proof Hi as [Hq Ho Ht Hs Hu Hcl Hst Hsz Hsp Hb]. destruct l as [n| | |m|i q|i| |]; cbn [AsyncBatcher.step] in H.
  - unfold start_go, startBatching in H. destruct (boss s) eqn:Eb; try done.
    destruct (consumeThreadStarted_ (obj s)) eqn:Ec; [by injection H as <-|]. destruct (Z.ltb_spec n 1); [by injection H as <-|]. injection H as <-.
    assert (thread s = KNone) as Ek by (destruct (thread s); try done; by assert (false = true) by by apply Hst).
    apply quiet_move; cbn; try done. by rewrite Ek.
  - unfold stop_go in H. destruct (boss s); try done. destruct (thread s) eqn:Ek; injection H as <-; try done;
      (apply quiet_move; cbn; try done; [by rewrite Ek|..]; unfold thread_ok in *; rewrite Ek in Ht; done).
  - by eapply owner_inv.
  - injection H as <-. by apply quiet_move.
  - unfold call_go in H. assert (∃ c, s' = at_client s i c ∧ client_ok s c ∧ ∀ q p, clients s !! i ≠ Some (CPushed q p)) as (c & -> & Hc & Hn).
    { destruct (clients s !! i) as [[]|]; try done; injection H as <-; (eexists; split; [done|]; split; [by destruct (consumeThreadStarted_ _)|done]). }
    apply client_move; [done|done|]. intros q' p Hp. by destruct (Hn q' p).
  - by eapply client_inv.
  - by eapply thread_inv.
  - destruct (thread s) eqn:Ek; try done. injection H as <-. apply quiet_move; cbn; kept Ek Hst Hsz Hb.
Qed.

Lemma construct_inv m n nc qsz s : construct m n nc qsz = Ok s → inv s.
Proof.
  unfold construct, startBatching. cbn. intros H. destruct (Z.ltb_spec 0 n).
  - destruct (Z.ltb_spec n 1); [lia|]. injection H as <-. constructor; cbn; try done; try lia; [constructor|].
    intros i c Hc. by apply lookup_replicate in Hc as [-> _].
  - injection H as <-. constructor; cbn; try done; [constructor|]. intros i c Hc. by apply lookup_replicate in Hc as [-> _].
Qed.

Lemma reachable_ok m n nc qsz s0 s : construct m n nc qsz = Ok s0 → reachable step s0 s → inv s.
Proof. intros H0. apply reachable_inv; [by intros; eapply batcher_step_inv|by eapply construct_inv]. Qed.

(** ** Replies *)

(** C35 What callers of the batcher get, in any run: a reply is what some batch that
    contains the caller's own query gave at the place of that query, or the
    exception the batch ended with.  No promise is set twice, queries and replies
    stay in step, and a batch has at least one and at most [batchSize_] queries. *)
Theorem replies_own_query m n nc qsz s0 s : construct m n nc qsz = Ok s0 → reachable step s0 s →
  (∀ i q o, clients s !! i = Some (CGot q o) → answer q o) ∧
  (∀ qs ps, thread s = KBatch qs ps → length qs = length ps ∧ 1 ≤ Z.of_nat (length qs) ≤ batchSize_ (obj s)) ∧
  (∀ p o todo, thread s = KReply ((p, o) :: todo) → ∃ s', step s LThread = Some (Ok s')) ∧
  (∀ i q prio, clients s !! i = Some (CLock q prio) → ∃ s', push s i q = Ok s').
Proof.
  intros H0 Hr. pose proof (reachable_ok _ _ _ _ _ _ H0 Hr) as Hi. split_and!.
  - intros i q o Hc. apply (inv_clients _ Hi _ _ Hc).
  - intros qs ps Ek. pose proof (inv_thread _ Hi) as Ht. unfold thread_ok in Ht. rewrite Ek in Ht. destruct Ht as (Hf & H1 & H2).
    split; [by eapply Forall2_length|lia].
  - intros p o todo Ek. destruct (set_promise_ok _ _ _ _ Hi Ek) as (q & Hu & _). cbn. unfold consumeThread_go, set_promise. rewrite Ek.
    unfold unset in Hu. rewrite Hu. by eexists.
  - intros i q prio _. unfold push. rewrite !length_app, (Forall2_length _ _ _ (inv_queue _ Hi)). cbn [length]. rewrite Nat.eqb_refl. by eexists.
Qed.

(** If the batch gives every query what the model gives it alone, callers cannot
    tell that their queries were batched. *)
Theorem batching_transparent (f : M → V → V) m n nc qsz s0 s i q o : (∀ m qs, qs ≠ [] → answers m qs = Ok (f m <$> qs)) →
  construct m n nc qsz = Ok s0 → reachable step s0 s → clients s !! i = Some (CGot q o) → ∃ m', o = Value (f m' q).
Proof.
  intros Hf H0 Hr Hc. destruct (inv_clients _ (reachable_ok _ _ _ _ _ _ H0 Hr) _ _ Hc) as (m' & qs & k & Hk & Ha).
  rewrite Hf in Ha by (intros ->; by rewrite lookup_nil in Hk). exists m'. destruct Ha as [_ Ha]. rewrite list_lookup_fmap, Hk in Ha. by injection Ha.
Qed.

(** ** Every caller is answered *)

(** The steps of callers that have called and of the thread. *)
Definition inner (l : label V M) : bool := match l with LThread | LClient _ => true | _ => false end.

Definition thread_weight (k : consumer V) : Z :=
  match k with
  | KNone | KSleep | KDone => 0
  | KTested => 1
  | KTop => 2
  | KReply todo => 3 + Z.of_nat (length todo)
  | KBatch _ ps => 4 + Z.of_nat (length ps)
  end.
Definition client_weight (c : client V) : Z :=
  match c with CLock _ _ => 9 | CPushed _ _ => 4 | CWait _ _ => 1 | _ => 0 end.
(** The steps that are left, at most. *)
Definition weight s : Z := 4 * Z.of_nat (length (queries_ (obj s))) + thread_weight (thread s) + wsum client_weight (clients s).

Lemma weight_nonneg s : 0 ≤ weight s.
Proof.
  unfold weight. pose proof (wsum_nonneg client_weight (clients s) ltac:(intros []; cbn; lia)).
  assert (0 ≤ thread_weight (thread s)) by (destruct (thread s); cbn; lia). lia.
Qed.

Lemma thread_decreases s s' : inv s → consumeThread_go makeBatch unBatch forward s = Some (Ok s') → weight s' < weight s.
Proof.
  intros Hi H. pose proof (inv_thread _ Hi) as Ht. unfold consumeThread_go, thread_ok, weight in *.
  destruct (thread s) as [| | | |qs ps|[|[p o] todo]|] eqn:Ek; try done; injection H as H.
  - subst s'. pose proof (inv_size _ Hi ltac:(by rewrite Ek)) as Hsz. unfold take_batch.
    destruct (shouldStop_ (obj s)); cbn [orb]; [cbn; lia|]. destruct (Nat.eqb_spec (length (queries_ (obj s))) 0) as [Eq|Eq]; cbn [negb]; [cbn; lia|].
    pose proof (Forall2_length _ _ _ (inv_queue _ Hi)) as Hl. cbn. rewrite length_drop, length_take. lia.
  - subst s'. cbn. lia.
  - destruct Ht as (Hf & _). unfold answer_batch in H. destruct (answers (model_ (obj s)) qs) as [vs|msg| |]; try done.
    + destruct (Nat.eqb_spec (length ps) (length vs)); cbn [negb] in H; [|done]. injection H as <-. cbn. rewrite length_zip_with, length_fmap. lia.
    + injection H as <-. cbn. rewrite length_fmap. lia.
  - subst s'. cbn. lia.
  - unfold set_promise in H. destruct (promises s !! p) as [[q [o'|]]|]; try done. injection H as <-. cbn. lia.
Qed.

Lemma client_decreases s i s' : client_go s i = Some (Ok s') → weight s' < weight s.
Proof.
  unfold client_go, weight. intros H. destruct (clients s !! i) as [[| |q prio|q p|q p|q o]|] eqn:Ec; try done.
  - assert (push s i q = Ok s') as Hp by (destruct (thread s); try done; by injection H).
    unfold push in Hp. destruct (negb _); [done|]. injection Hp as <-. cbn. rewrite (wsum_insert _ _ _ _ _ Ec), length_app. cbn. lia.
  - injection H as <-. cbn. rewrite (wsum_insert _ _ _ _ _ Ec). cbn. assert (thread_weight (wake (thread s)) ≤ thread_weight (thread s) + 2) by (destruct (thread s); cbn; lia). lia.
  - destruct (promises s !! p) as [[q' [o|]]|]; try done. injection H as <-. cbn. rewrite (wsum_insert _ _ _ _ _ Ec). cbn. lia.
Qed.

(** The switches stay while only callers and the thread move. *)
Lemma inner_switches s l s' : inner l = true → step s l = Some (Ok s') →
  consumeThreadStarted_ (obj s') = consumeThreadStarted_ (obj s) ∧ shouldStop_ (obj s') = shouldStop_ (obj s).
Proof.
  intros Hl H. destruct l as [| | | | |i| |]; try done; cbn [AsyncBatcher.step] in H.
  - unfold client_go in H. destruct (clients s !! i) as [[| |q prio|q p|q p|q o]|]; try done.
    + assert (push s i q = Ok s') as Hp by (destruct (thread s); try done; by injection H).
      unfold push in Hp. destruct (negb _); [done|]. by injection Hp as <-.
    + by injection H as <-.
    + destruct (promises s !! p) as [[q' [o|]]|]; try done. by injection H as <-.
  - unfold consumeThread_go in H. destruct (thread s) as [| | | |qs ps|[|[p o] todo]|]; try done; injection H as H.
    + subst s'. unfold take_batch. destruct (_ || _); [|done]. destruct (shouldStop_ (obj s)) eqn:E; cbn; by rewrite ?E.
    + by subst s'.
    + unfold answer_batch in H. destruct (answers (model_ (obj s)) qs); try done; [|by injection H as <-]. destruct (negb _); [done|]. by injection H as <-.
    + by subst s'.
    + unfold set_promise in H. destruct (promises s !! p) as [[q [o'|]]|]; try done. by injection H as <-.
Qed.

Lemma inner_run tr s s' : inv s → Forall (λ l, inner l = true) tr → run step tr s = Some s' →
  inv s' ∧ Z.of_nat (length tr) ≤ weight s - weight s' ∧
  consumeThreadStarted_ (obj s') = consumeThreadStarted_ (obj s) ∧ shouldStop_ (obj s') = shouldStop_ (obj s).
Proof.
  revert s. induction tr as [|l tr IH]; intros s Hi Hl Hr; cbn [run] in Hr; [injection Hr as <-; cbn; split_and!; [done|lia|done..]|].
  apply Forall_cons in Hl as [Hl Htr]. destruct (step s l) as [[s1| | |]|] eqn:E; try done.
  destruct (inner_switches _ _ _ Hl E) as [E1 E2]. destruct (IH s1 (batcher_step_inv _ _ _ Hi E) Htr Hr) as (Hi' & Hw & E3 & E4).
  assert (weight s1 < weight s) by (destruct l; try done; [by eapply client_decreases|by eapply thread_decreases]).
  cbn [length]. split_and!; [done|lia|congruence..].
Qed.

(** A caller in the middle of its call. *)
Definition calling (c : client V) : bool := match c with CLock _ _ | CPushed _ _ | CWait _ _ => true | _ => false end.

Lemma not_stuck s i c : inv s → consumeThreadStarted_ (obj s) = true → shouldStop_ (obj s) = false →
  clients s !! i = Some c → calling c = true → ∃ l, inner l = true ∧ step s l ≠ None.
Proof.
  intros Hi Hst Hsp Hc Hcall. apply (inv_started _ Hi) in Hst.
  assert (∀ j q p, clients s !! j = Some (CPushed q p) → ∃ l, inner l = true ∧ step s l ≠ None) as Hpush.
  { intros j q p Hj. exists (LClient j). split; [done|]. cbn. unfold client_go. by rewrite Hj. }
  destruct (thread s) as [| | | |qs ps|todo|] eqn:Ek; try done;
    try (exists LThread; split; [done|]; cbn; unfold consumeThread_go; rewrite Ek; by try destruct todo as [|[? ?] ?]).
  2: { pose proof (inv_stop _ Hi Ek). congruence. }
  destruct c as [| |q prio|q p|q p|q o]; try done; [|by eapply Hpush|].
  - exists (LClient i). split; [done|]. cbn. unfold client_go. by rewrite Hc, Ek.
  - pose proof (inv_clients _ Hi _ _ Hc) as Hm. unfold client_ok, made_for in Hm. destruct (promises s !! p) as [[q' [o|]]|] eqn:Ep; [..|done].
    + exists (LClient i). split; [done|]. cbn. unfold client_go. by rewrite Hc, Ep.
    + assert (p ∈ replies_ (obj s) ++ taken (thread s)) as Hp by by eapply inv_unset. rewrite Ek in Hp. cbn in Hp. rewrite app_nil_r in Hp.
      pose proof (inv_thread _ Hi) as Ht. unfold thread_ok in Ht. rewrite Ek in Ht. destruct Ht as [Hq|(j & q2 & p2 & Hj)]; [|by eapply Hpush].
      pose proof (inv_queue _ Hi) as Hf. rewrite Hq in Hf. apply Forall2_nil_inv_l in Hf. rewrite Hf in Hp. by apply not_elem_of_nil in Hp.
Qed.

(** C36 While the batching is on, every caller is answered: the calls that are under
    way and the batcher's thread take a bounded number of steps, and when none of
    them can move any more every call has returned. *)
Theorem callers_answered m n nc qsz s0 s tr s' : construct m n nc qsz = Ok s0 → reachable step s0 s →
  consumeThreadStarted_ (obj s) = true → shouldStop_ (obj s) = false →
  Forall (λ l, inner l = true) tr → run step tr s = Some s' →
  Z.of_nat (length tr) ≤ weight s ∧
  ((∀ l, inner l = true → step s' l = None) → ∀ i c, clients s' !! i = Some c → calling c = false).
Proof.
  intros H0 Hr Hst Hsp Htr Hrun. destruct (inner_run tr s s') as (Hi & Hw & E1 & E2); [by eapply reachable_ok|done|done|].
  pose proof (weight_nonneg s'). split; [lia|]. intros Hstuck i c Hc. destruct (calling c) eqn:Ec; [|done].
  destruct (not_stuck s' i c) as (l & Hl & Hn); [done|congruence|congruence|done|done|]. by apply Hstuck in Hl.
Qed.
End runs.

(** ** A batcher of numbers *)

(** Queries are lists with one number, a batch is their concatenation, the model
    adds its number to all of them. *)
Definition example_make (qs : list (list Z)) : res (list Z) := Ok (concat qs).
Definition example_forward (m : Z) (q : list Z) : res (list Z) := Ok (Z.add m <$> q).
Definition example_split (q : list Z) : res (list (list Z)) := Ok ((λ x, [x]) <$> q).
Abbreviation example_step := (AsyncBatcher.step example_make example_split example_forward).
Abbreviation example_run := (run example_step).

Definition example_start : state (list Z) Z :=
  match construct 10 2 2 0 with Ok s => s | _ => State (Batcher 10 false 0 0 [] [] false 0) KNone [] OIdle [] end.

(** Two calls, answered in one batch. *)
Definition example_asked : list (label (list Z) Z) := [LCall 0 [1]; LCall 1 [2]; LClient 0; LClient 1; LClient 0; LClient 1].
Definition example_inner : list (label (list Z) Z) := [LThread; LThread; LThread; LThread; LClient 0; LClient 1; LThread; LThread; LThread].

Definition example_after (tr : list (label (list Z) Z)) : state (list Z) Z := default example_start (example_run tr example_start).

Lemma replies_own_query_witness : clients (example_after (example_asked ++ example_inner)) !! 1%nat = Some (CGot [2] (Value [12])) ∧
  answer example_make example_split example_forward [2] (Value [12]).
Proof.
  split; [vm_compute; reflexivity|].
  apply (replies_own_query example_make example_split example_forward 10 2 2 0 example_start (example_after (example_asked ++ example_inner))
    eq_refl) with (i := 1%nat); [|vm_compute; reflexivity]. exists (example_asked ++ example_inner). vm_compute. reflexivity.
Defined.

Lemma callers_answered_witness : 9 ≤ weight (example_after example_asked).
Proof.
  destruct (callers_answered example_make example_split example_forward 10 2 2 0 example_start (example_after example_asked) example_inner
    (example_after (example_asked ++ example_inner))) as [H _]; [reflexivity|..|exact H].
  - exists example_asked. vm_compute. reflexivity.
  - vm_compute. reflexivity.
  - vm_compute. reflexivity.
  - repeat constructor.
  - vm_compute. reflexivity.
Defined.

(** ** Stopping *)

(** Nothing but a new call, a restart or a change of the model is possible. *)
Definition dead (s : state (list Z) Z) : Prop :=
  example_step s LThread = None ∧ example_step s LOwner = None ∧ ∀ i, example_step s (LClient i) = None.

(** A caller whose query is in the queue when the batching is stopped waits for
    ever: nobody sets its promise, which the caller itself keeps alive. *)
Theorem stop_strands_caller : ∃ tr s, example_run tr example_start = Some s ∧
  clients s !! 0%nat = Some (CWait [1] 0%nat) ∧ thread s = KNone ∧ boss s = OIdle ∧ dead s ∧ example_step s LSpurious = None.
Proof.
  exists [LCall 0 [1]; LClient 0; LClient 0; LStop; LOwner; LThread; LOwner]. eexists. split; [vm_compute; reflexivity|].
  split; [reflexivity|]. split; [reflexivity|]. split; [reflexivity|]. split; [|reflexivity].
  split; [reflexivity|]. split; [reflexivity|]. intros [|[|i]]; reflexivity.
Qed.

(** [shouldStop_] is set and the notification sent between the test of the
    condition and the wait, without the mutex: the thread sleeps and the owner
    waits for it, for ever unless the wait ends spuriously. *)
Theorem stop_can_hang : ∃ tr s, example_run tr example_start = Some s ∧ shouldStop_ (obj s) = true ∧
  thread s = KSleep ∧ boss s = OJoin ∧ dead s ∧ ∀ n, example_step s (LStart n) = None ∧ example_step s LStop = None.
Proof.
  exists [LThread; LStop; LOwner; LThread]. eexists. split; [vm_compute; reflexivity|].
  split; [reflexivity|]. split; [reflexivity|]. split; [reflexivity|]. split; [|done].
  split; [reflexivity|]. split; [reflexivity|]. intros [|[|i]]; reflexivity.
Qed.
End BatcherRuns.
