(* ===== verification/SubBatch.v ===== *)
(** * Batches of batches ([SubBatchAsyncBatcher], [cpid/batcher.cpp])

    How the queries of a batch are put together and its answers taken apart when
    tensors differ in their first dimension: tensors are concatenated, and the
    sizes of the parts travel with the batch under a reserved key.  What the code
    uses of Torch is the class [Tensors], what it relies on the class
    [TensorLaws]. *)

From S2P Require Import Prelude Threads Batcher BatcherRuns.

(** The operations on tensors that are used.  [copy_at b start t] copies [t] into
    the part of [b] that begins at [start] in the first dimension and at zero in
    the others. *)
Class Tensors := {
  tensor : Type;
  sizes : tensor → list Z;
  unsqueeze0 : tensor → tensor;
  squeeze0 : tensor → tensor;
  cat : list tensor → res tensor;
  split1 : tensor → list tensor;
  split_with_sizes : tensor → list Z → res (list tensor);
  of_longs : list Z → tensor;
  to_longs : tensor → list Z;
  filled : list Z → Z → tensor;
  copy_at : tensor → Z → tensor → res tensor }.

Definition dim `{Tensors} (t : tensor) : nat := length (sizes t).
(** [t.size(0)] *)
Definition size0 `{Tensors} (t : tensor) : Z := hd 0 (sizes t).

(** [split_with_sizes] undoes [cat] of tensors with the same number of
    dimensions, and vectors of integers are kept. *)
Class TensorLaws `{Tensors} : Prop := {
  split_cat ts b d : cat ts = Ok b → ts ≠ [] → (∀ t, t ∈ ts → dim t = S d) → split_with_sizes b (size0 <$> ts) = Ok ts;
  longs_kept l : to_longs (of_longs l) = l }.

Module SubBatch.
Section subbatch.
Context {ops : Tensors}.

(** [src/3rdparty/include/autogradpp/variant.h:15-25] Variant *)
Inductive Variant :=
| VTensor (t : tensor)
| VTensorList (l : list tensor)
| VList (l : list Variant)
| VDict (d : gmap string Variant)
| VOther (which : Z).

Definition which (v : Variant) : Z :=
  match v with VTensor _ => 0 | VTensorList _ => 1 | VList _ => 8 | VDict _ => 9 | VOther w => w end.

(** [src/3rdparty/include/autogradpp/variant.h:154-156] Variant::get *)
Definition get (v : Variant) : res tensor := match v with VTensor t => Ok t | _ => Throw "in get<T>()" end.
(** [src/3rdparty/include/autogradpp/variant.h:164-170] Variant::getDict *)
Definition getDict (v : Variant) : res (gmap string Variant) := match v with VDict d => Ok d | _ => Throw "in get<T>()" end.

(** [src/cpid/batcher.h:135-135] SubBatchAsyncBatcher::kBatchInfoKey *)
Definition kBatchInfoKey : string := "batch_info".

(** ** Tensors *)

(** [src/cpid/batcher.cpp:227-244] SubBatchAsyncBatcher::unBatchTensor *)
Definition unBatchTensor (out : tensor) (batchSizes : list Z) : res (list tensor) :=
  match batchSizes with
  | [] => if (dim out =? 0)%nat then Throw "unBatchTensor: can't unbatch a leaf tensor" else
          Ok ((λ t, if (1 <? dim t)%nat then squeeze0 t else t) <$> split1 out)
  | _ => split_with_sizes out batchSizes
  end.

(** [src/cpid/batcher.cpp:253-255] SubBatchAsyncBatcher::makeBatchTensors *)
Fixpoint maxes (ss es : list Z) : res (list Z) :=
  match es, ss with
  | [], _ => Ok ss
  | _ :: _, [] => Undefined
  | e :: es, s :: ss => let? r := maxes ss es in Ok (Z.max s e :: r)
  end.

(** [src/cpid/batcher.cpp:251-257] SubBatchAsyncBatcher::makeBatchTensors *)
Definition grow (ss es : list Z) : res (list Z) :=
  match ss, es with
  | s :: ss, e :: es => let? r := maxes ss es in Ok (s + e :: r)
  | _, _ => Undefined
  end.

(** [src/cpid/batcher.cpp:262-270] SubBatchAsyncBatcher::makeBatchTensors *)
Definition copy_next (acc : tensor * Z) (t : tensor) : res (tensor * Z) :=
  let? b := copy_at acc.1 acc.2 t in
  match sizes t with [] => Undefined | e :: _ => Ok (b, acc.2 + e) end.

(** [src/cpid/batcher.cpp:246-279] SubBatchAsyncBatcher::makeBatchTensors *)
Definition makeBatchTensors (allowPadding_ : bool) (lst : list tensor) (padValue : Z) : res tensor :=
  if allowPadding_ then
    match lst with
    | [] => Undefined
    | t0 :: ts =>
        let? ss := rfold (λ ss t, grow ss (sizes t)) ts (sizes t0) in
        let? b := rfold copy_next lst (filled ss padValue, 0) in
        Ok b.1
    end
  else cat ((λ t, if (0 <? dim t)%nat then t else unsqueeze0 t) <$> lst).

(** ** Putting queries together *)

Definition isTensor (v : Variant) : bool := match v with VTensor _ => true | _ => false end.
Definition isDict (v : Variant) : bool := match v with VDict _ => true | _ => false end.

Definition push_back (m : gmap string (list Variant)) (k : string) (v : Variant) : gmap string (list Variant) :=
  <[k := default [] (m !! k) ++ [v]]> m.

(** [src/cpid/batcher.cpp:362-376] SubBatchAsyncBatcher::makeBatch *)
Definition add_entry (acc : gmap string (list Variant)) (p : string * Variant) : res (gmap string (list Variant)) :=
  if bool_decide (p.1 = kBatchInfoKey) then Throw "Can't batch a Dict that contains reserved key" else
  if negb (isTensor p.2) && negb (isDict p.2) then Throw "variant is neither a tensor nor a dict" else
  Ok (push_back acc p.1 p.2).

(** The values of each key, or [None] when there is a tensor among the queries.

    [src/cpid/batcher.cpp:349-377] SubBatchAsyncBatcher::makeBatch *)
Fixpoint collect (queries : list Variant) (acc : gmap string (list Variant)) : res (option (gmap string (list Variant))) :=
  match queries with
  | [] => Ok (Some acc)
  | VTensor _ :: _ => Ok None
  | VDict d :: queries => let? acc := rfold add_entry (map_to_list d) acc in collect queries acc
  | _ => Throw "makeBatch inputs have to be Tensors or VariantDict"
  end.

(** [src/cpid/batcher.cpp:383-403] SubBatchAsyncBatcher::makeBatch *)
Definition same_kind (total : nat) (vs : list Variant) : res unit :=
  if negb (length vs =? total)%nat then Throw "makeBatch: items missing for key" else
  match vs with
  | [] => Ok ()
  | v0 :: _ =>
      rfold (λ _ v,
        if negb (which v =? which v0) then Throw "makeBatch: Value for key has multiple types" else
        match v, v0 with
        | VTensor t, VTensor t0 => if negb (dim t =? dim t0)%nat then Throw "makeBatch: found tensors with different dimensions" else Ok ()
        | _, _ => Ok ()
        end) vs ()
  end.

(** [src/cpid/batcher.cpp:414-414] SubBatchAsyncBatcher::makeBatch *)
Definition part_size (t : tensor) : Z := if (0 <? dim t)%nat then size0 t else 1.

Definition mapR {A B} (f : A → res B) (l : list A) : res (list B) := rfold (λ acc a, let? b := f a in Ok (acc ++ [b])) l [].

(** [src/cpid/batcher.cpp:381-419] SubBatchAsyncBatcher::makeBatch *)
Definition batch_key (again : list Variant → res Variant) (allowPadding_ : bool) (padValue : Z)
    (total : nat) (acc : gmap string Variant * gmap string Variant) (q : string * list Variant) : res (gmap string Variant * gmap string Variant) :=
  let '(batchVariant, batchInfo) := acc in
  let? _ := same_kind total q.2 in
  match q.2 with
  | [] => Undefined
  | VDict _ :: _ => let? b := again q.2 in Ok (<[q.1 := b]> batchVariant, batchInfo)
  | _ =>
      let? ts := mapR get q.2 in
      let? b := makeBatchTensors allowPadding_ ts padValue in
      Ok (<[q.1 := VTensor b]> batchVariant, <[q.1 := VTensor (of_longs (part_size <$> ts))]> batchInfo)
  end.

(** The fuel is the depth of the dicts.

    [src/cpid/batcher.cpp:346-422] SubBatchAsyncBatcher::makeBatch *)
Fixpoint makeBatch (fuel : nat) (allowPadding_ : bool) (queries : list Variant) (padValue : Z) : res Variant :=
  match fuel with
  | O => OutOfFuel
  | S fuel =>
      let? o := collect queries ∅ in
      match o with
      | None => let? ts := mapR get queries in let? b := makeBatchTensors allowPadding_ ts padValue in Ok (VTensor b)
      | Some batchTensorVec =>
          let? acc := rfold (batch_key (λ vs, makeBatch fuel allowPadding_ vs padValue) allowPadding_ padValue (length queries))
                        (map_to_list batchTensorVec) (∅, ∅) in
          Ok (VDict (<[kBatchInfoKey := VDict acc.2]> acc.1))
      end
  end.

(** ** Taking answers apart *)

(** [src/cpid/batcher.cpp:424-435] SubBatchAsyncBatcher::findBatchInfo *)
Definition findBatchInfo (batchInfoVar : Variant) (variableName : string) : res (list Z) :=
  match batchInfoVar with
  | VDict d => match d !! variableName with
               | Some v => let? t := get v in Ok (to_longs t)
               | None => Ok []
               end
  | _ => Throw "Wrong format for batch info variable"
  end.

(** The answers under one key; [None] for the reserved key.

    [src/cpid/batcher.cpp:299-320] SubBatchAsyncBatcher::unBatch *)
Definition unbatch_key (again : Variant → res (list Variant)) (batched : gmap string Variant) (k : string) (v : Variant)
    : res (option (list Variant)) :=
  match v with
  | VDict _ => if bool_decide (k = kBatchInfoKey) then Ok None else let? l := again v in Ok (Some l)
  | VTensorList l => Ok (Some (VTensor <$> l))
  | VList l => Ok (Some l)
  | VTensor t =>
      let? batchInfo := match batched !! kBatchInfoKey with Some i => findBatchInfo i k | None => Ok [] end in
      let? ts := unBatchTensor t batchInfo in
      Ok (Some (VTensor <$> ts))
  | VOther _ => Throw "unBatch: unable to process key of unsupported type"
  end.

(** [src/cpid/batcher.cpp:298-332] SubBatchAsyncBatcher::unBatch *)
Definition unbatch_entry (again : Variant → res (list Variant)) (batched : gmap string Variant)
    (acc : gmap string (list Variant) * nat) (q : string * Variant) : res (gmap string (list Variant) * nat) :=
  let '(unbatchedPerKey, batchSize) := acc in
  let? o := unbatch_key again batched q.1 q.2 in
  match o with
  | None => Ok acc
  | Some l => if negb (batchSize =? 0)%nat && negb (length l =? batchSize)%nat then Throw "unBatch error: found different batch sizes"
              else Ok (<[q.1 := l]> unbatchedPerKey, length l)
  end.

(** [src/cpid/batcher.cpp:337-341] SubBatchAsyncBatcher::unBatch *)
Definition pick (m : gmap string (list Variant)) (i : nat) : res Variant :=
  let? d := rfold (λ cur kl, let? v := of_option (kl.2 !! i) in Ok (<[kl.1 := v]> cur)) (map_to_list m) ∅ in
  Ok (VDict d).

(** [src/cpid/batcher.cpp:281-344] SubBatchAsyncBatcher::unBatch *)
Fixpoint unBatch (fuel : nat) (out : Variant) : res (list Variant) :=
  match fuel with
  | O => OutOfFuel
  | S fuel =>
      match out with
      | VDict batched =>
          let? acc := rfold (unbatch_entry (unBatch fuel) batched) (map_to_list batched) (∅, 0%nat) in
          mapR (pick acc.1) (seq 0 acc.2)
      | _ => Throw "unbatch expects an ag::Variant of type map<string, tensor>"
      end
  end.

(** [src/cpid/batcher.cpp:437-452] SubBatchAsyncBatcher::forEachSubbatch *)
Definition forEachSubbatch (input : Variant) (inputName : string) (batchedInput : tensor) (do_fn : tensor → res tensor) : res (list tensor) :=
  let? d := getDict input in
  let? batchInfo := match d !! kBatchInfoKey with Some i => findBatchInfo i inputName | None => Ok [] end in
  let? unbatched := unBatchTensor batchedInput batchInfo in
  mapR do_fn unbatched.

(** ** The round trip *)

Context {laws : TensorLaws}.

(** The values under [k], query by query. *)
Definition column (k : string) (ms : list (gmap string Variant)) : list Variant := omap (λ m, m !! k) ms.

(** Queries that can be batched: dicts with the same keys, under each of which
    there are tensors that can be concatenated, or such dicts again. *)
Fixpoint alike (n : nat) (queries : list Variant) : Prop :=
  match n with
  | O => False
  | S n => ∃ (ms : list (gmap string Variant)) (D : gset string), queries = (VDict <$> ms) ∧ ms ≠ [] ∧ D ≠ ∅ ∧ kBatchInfoKey ∉ D ∧
      (∀ m, m ∈ ms → dom m = D) ∧
      ∀ k, k ∈ D →
        (∃ ts d b, column k ms = VTensor <$> ts ∧ (∀ t, t ∈ ts → dim t = S d) ∧ cat ts = Ok b) ∨
        alike n (column k ms)
  end.

Lemma mapR_ok {A B} (f : A → res B) l l' : Forall2 (λ a b, f a = Ok b) l l' → mapR f l = Ok l'.
Proof.
  unfold mapR. intros H. assert (∀ acc, rfold (λ acc a, let? b := f a in Ok (acc ++ [b])) l acc = Ok (acc ++ l')) as Hg; [|by rewrite Hg].
  induction H as [|a b l l' Ha H IH]; intros acc; cbn [rfold]; [by rewrite app_nil_r|]. rewrite Ha. cbn [rbind]. rewrite IH. by rewrite <- app_assoc.
Qed.

Lemma column_length k ms (D : gset string) : (∀ m, m ∈ ms → dom m = D) → k ∈ D → length (column k ms) = length ms.
Proof.
  intros HD Hk. induction ms as [|m ms IH]; [done|]. cbn. assert (k ∈ dom m) as [v Hv]%elem_of_dom by (rewrite HD by (by left); done).
  rewrite Hv. cbn. f_equal. apply IH. intros m' ?. apply HD. by right.
Qed.

Lemma column_lookup k ms (D : gset string) i m : (∀ m, m ∈ ms → dom m = D) → k ∈ D → ms !! i = Some m → column k ms !! i = m !! k.
Proof.
  intros HD Hk. revert i. induction ms as [|m0 ms IH]; intros i Hi; [done|]. cbn.
  assert (k ∈ dom m0) as [v Hv]%elem_of_dom by (rewrite HD by (by left); done). rewrite Hv.
  destruct i as [|i]; cbn in *; [injection Hi as <-; by rewrite Hv|]. apply IH; [|done]. intros m' ?. apply HD. by right.
Qed.

(** One query's entries, put at the ends of the columns. *)
Lemma add_entries_ok l acc : NoDup l.*1 → (∀ k v, (k, v) ∈ l → k ≠ kBatchInfoKey ∧ (isTensor v || isDict v) = true) →
  ∃ acc', rfold add_entry l acc = Ok acc' ∧ ∀ k, acc' !! k = match (list_to_map l : gmap string Variant) !! k with
    | Some v => Some (default [] (acc !! k) ++ [v])
    | None => acc !! k
    end.
Proof.
  revert acc. induction l as [|[k v] l IH]; intros acc Hnd Hl; cbn [rfold]; [by eexists|].
  csimpl in Hnd. apply NoDup_cons in Hnd as [Hk Hnd]. destruct (Hl k v ltac:(by left)) as [Hi Hv].
  unfold add_entry at 1. cbn [fst snd]. rewrite bool_decide_false by done.
  replace (negb (isTensor v) && negb (isDict v)) with false by (by destruct (isTensor v), (isDict v)). cbn [rbind].
  destruct (IH (push_back acc k v) Hnd) as (acc' & E & H); [intros k' v' ?; apply Hl; by right|]. exists acc'. split; [done|].
  intros k'. rewrite H. csimpl. unfold push_back. destruct (decide (k' = k)) as [->|Hne].
  - rewrite lookup_insert_eq. assert ((list_to_map l : gmap string Variant) !! k = None) as -> by by apply not_elem_of_list_to_map_1. by rewrite lookup_insert_eq.
  - rewrite (lookup_insert_ne _ k k') by done. by rewrite lookup_insert_ne.
Qed.

Definition good_dict (m : gmap string Variant) : Prop := ∀ k v, m !! k = Some v → k ≠ kBatchInfoKey ∧ (isTensor v || isDict v) = true.

Lemma collect_ok ms acc : (∀ m, m ∈ ms → good_dict m) →
  ∃ r, collect (VDict <$> ms) acc = Ok (Some r) ∧ ∀ k, r !! k = match column k ms with [] => acc !! k | vs => Some (default [] (acc !! k) ++ vs) end.
Proof.
  revert acc. induction ms as [|m ms IH]; intros acc Hg; [by eexists|]. csimpl.
  destruct (add_entries_ok (map_to_list m) acc) as (acc1 & E1 & H1).
  { apply NoDup_fst_map_to_list. }
  { intros k v ?%elem_of_map_to_list. by apply (Hg m ltac:(by left)). }
  rewrite E1. cbn [rbind]. rewrite list_to_map_to_list in H1.
  destruct (IH acc1) as (r & E & H); [intros m' ?; apply Hg; by right|]. exists r. split; [done|]. intros k. rewrite H, H1.
  fold (column k ms). destruct (m !! k) as [v|]; [|done]. destruct (column k ms) as [|v' vs]; [done|]. cbn. by rewrite <- app_assoc.
Qed.

Lemma same_kind_ok vs total : length vs = total →
  (∀ v0 v, hd_error vs = Some v0 → v ∈ vs → which v = which v0 ∧ ∀ t t0, v = VTensor t → v0 = VTensor t0 → dim t = dim t0) → same_kind total vs = Ok ().
Proof.
  intros <- H. unfold same_kind. rewrite Nat.eqb_refl. cbn [negb]. destruct vs as [|v0 vs]; [done|].
  match goal with |- rfold ?f ?l ?a = _ => destruct (rfold_defined f l a) as [[] E] end; [|exact E].
  intros acc v Hv. destruct (H v0 v eq_refl Hv) as [Hw Hd]. rewrite Hw, Z.eqb_refl. cbn [negb].
  destruct v as [t| | | |], v0 as [t0| | | |]; eauto. rewrite (Hd t t0 eq_refl eq_refl), Nat.eqb_refl. cbn. eauto.
Qed.

Lemma column_nil k ms : (∀ m, m ∈ ms → k ∉ dom m) → column k ms = [].
Proof.
  intros H. induction ms as [|m ms IH]; [done|]. cbn. rewrite (not_elem_of_dom_1 m k) by (apply H; by left). apply IH. intros m' ?. apply H. by right.
Qed.

(** A loop over the keys that adds to two dicts. *)
Lemma rfold_keys {A} (f : gmap string Variant * gmap string Variant → string * A → res (gmap string Variant * gmap string Variant))
    (R : string → A → Variant → option Variant → Prop) l bv bi : NoDup l.*1 →
  (∀ k a, (k, a) ∈ l → ∃ b info, R k a b info ∧
     ∀ bv bi, f (bv, bi) (k, a) = Ok (<[k := b]> bv, match info with Some i => <[k := i]> bi | None => bi end)) →
  ∃ bv' bi', rfold f l (bv, bi) = Ok (bv', bi') ∧ (∀ k, k ∉ l.*1 → bv' !! k = bv !! k ∧ bi' !! k = bi !! k) ∧
    ∀ k a, (k, a) ∈ l → ∃ b info, R k a b info ∧ bv' !! k = Some b ∧ bi' !! k = match info with Some i => Some i | None => bi !! k end.
Proof.
  revert bv bi. induction l as [|[k a] l IH]; intros bv bi Hnd Hl; cbn [rfold].
  - eexists _, _. split; [done|]. split; [done|]. by intros k a ?%not_elem_of_nil.
  - csimpl in Hnd. apply NoDup_cons in Hnd as [Hk Hnd]. destruct (Hl k a ltac:(by left)) as (b & info & HR & Hf). rewrite Hf. cbn [rbind].
    destruct (IH (<[k := b]> bv) (match info with Some i => <[k := i]> bi | None => bi end) Hnd) as (bv' & bi' & E & Hout & Hin).
    { intros k' a' ?. apply Hl. by right. }
    exists bv', bi'. split; [done|]. split.
    + intros k' [Hne Hk']%not_elem_of_cons. destruct (Hout k' Hk') as [-> ->]. rewrite lookup_insert_ne by done.
      split; [done|]. destruct info; [|done]. by rewrite lookup_insert_ne.
    + intros k' a' [[= -> ->]|Hk']%elem_of_cons.
      * exists b, info. split; [done|]. destruct (Hout k Hk) as [-> ->]. rewrite lookup_insert_eq. split; [done|]. destruct info; [by rewrite lookup_insert_eq|done].
      * destruct (Hin k' a' Hk') as (b' & info' & HR' & Eb & Ei). exists b', info'. split_and!; [done|done|]. rewrite Ei. destruct info'; [done|].
        assert (k' ≠ k) by (intros ->; apply Hk, list_elem_of_fmap; by exists (k, a')). destruct info; [|done]. by rewrite lookup_insert_ne.
Qed.

(** The loop that takes the keys apart, all into as many parts. *)
Lemma unbatch_entries again batched (col : string → option (list Variant)) N l m n0 : NoDup l.*1 →
  (∀ k v, (k, v) ∈ l → unbatch_key again batched k v = Ok (col k) ∧ ∀ c, col k = Some c → length c = N) → (n0 = 0 ∨ n0 = N)%nat →
  ∃ m' n', rfold (unbatch_entry again batched) l (m, n0) = Ok (m', n') ∧
    (∀ k, m' !! k = if decide (k ∈ l.*1) then match col k with Some c => Some c | None => m !! k end else m !! k) ∧
    (n' = n0 ∨ n' = N)%nat ∧ ((∃ k, k ∈ l.*1 ∧ is_Some (col k)) → n' = N).
Proof.
  revert m n0. induction l as [|[k v] l IH]; intros m n0 Hnd Hl Hn; cbn [rfold].
  - eexists _, _. split; [done|]. split; [intros k; by rewrite decide_False by apply not_elem_of_nil|]. split; [by left|]. by intros (k & ?%not_elem_of_nil & _).
  - csimpl in Hnd. apply NoDup_cons in Hnd as [Hk Hnd]. destruct (Hl k v ltac:(by left)) as [Hu Hc]. unfold unbatch_entry at 1. cbn [fst snd]. rewrite Hu. cbn [rbind].
    assert (∀ k' v', (k', v') ∈ l → unbatch_key again batched k' v' = Ok (col k') ∧ ∀ c, col k' = Some c → length c = N) as Hl' by (intros k' v' ?; apply Hl; by right).
    destruct (col k) as [c|] eqn:Ec.
    + specialize (Hc c eq_refl). replace (negb (n0 =? 0)%nat && negb (length c =? n0)%nat) with false
        by (destruct (Nat.eqb_spec n0 0), (Nat.eqb_spec (length c) n0); cbn; lia || done).
      cbn [rbind]. rewrite Hc. destruct (IH (<[k := c]> m) N Hnd Hl') as (m' & n' & E & Hm & Hn' & Hd); [by right|].
      exists m', n'. split; [done|]. assert (n' = N) as -> by (by destruct Hn'). split; [|split; [by right|done]].
      intros k'. rewrite Hm. csimpl. destruct (decide (k' = k)) as [->|Hne].
      * rewrite decide_False by done. rewrite decide_True by (by left). by rewrite lookup_insert_eq, Ec.
      * rewrite lookup_insert_ne by done. destruct (decide (k' ∈ l.*1)); [rewrite decide_True by (by right)|rewrite decide_False by (by intros [?|?]%elem_of_cons)]; done.
    + destruct (IH m n0 Hnd Hl' Hn) as (m' & n' & E & Hm & Hn' & Hd). exists m', n'. split; [done|]. split; [|split; [done|]].
      * intros k'. rewrite Hm. csimpl. destruct (decide (k' = k)) as [->|Hne].
        -- rewrite decide_False by done. rewrite decide_True by (by left). by rewrite Ec.
        -- destruct (decide (k' ∈ l.*1)); [rewrite decide_True by (by right)|rewrite decide_False by (by intros [?|?]%elem_of_cons)]; done.
      * intros (k' & Hk' & Hs). apply Hd. exists k'. split; [|done]. csimpl in Hk'. apply elem_of_cons in Hk' as [->|?]; [|done]. rewrite Ec in Hs. by destruct Hs.
Qed.

Lemma pick_ok (m : gmap string (list Variant)) i (d : gmap string Variant) : (∀ k, d !! k = m !! k ≫= λ l, l !! i) → (∀ k l, m !! k = Some l → is_Some (l !! i)) →
  pick m i = Ok (VDict d).
Proof.
  intros Hd Hi. unfold pick.
  assert (∀ (l : list (string * list Variant)) (cur : gmap string Variant), NoDup l.*1 → (∀ k c, (k, c) ∈ l → is_Some (c !! i)) →
    ∃ d', rfold (λ cur kl, let? v := of_option (kl.2 !! i) in Ok (<[kl.1 := v]> cur)) l cur = Ok d' ∧
      ∀ k, d' !! k = match (list_to_map l : gmap string (list Variant)) !! k with Some c => c !! i | None => cur !! k end) as Hl.
  { induction l as [|[k c] l IH]; intros cur Hnd Hc; cbn [rfold]; [by eexists|]. csimpl in Hnd. apply NoDup_cons in Hnd as [Hk Hnd].
    destruct (Hc k c ltac:(by left)) as [v Hv]. cbn [fst snd]. rewrite Hv. cbn [of_option rbind].
    destruct (IH (<[k := v]> cur) Hnd) as (d' & E & H); [intros k' c' ?; apply (Hc k'); by right|]. exists d'. split; [done|].
    intros k'. rewrite H. csimpl. destruct (decide (k' = k)) as [->|Hne].
    - rewrite lookup_insert_eq. assert ((list_to_map l : gmap string (list Variant)) !! k = None) as -> by by apply not_elem_of_list_to_map_1. by rewrite lookup_insert_eq, Hv.
    - rewrite (lookup_insert_ne _ k k') by done. by rewrite lookup_insert_ne. }
  destruct (Hl (map_to_list m) ∅) as (d' & E & H); [apply NoDup_fst_map_to_list|intros k c ?%elem_of_map_to_list; by eapply Hi|].
  rewrite E. cbn [rbind]. do 2 f_equal. apply map_eq. intros k. rewrite H, Hd, list_to_map_to_list. by destruct (m !! k).
Qed.

(** What one key becomes: a tensor with the sizes of its parts, or a dict. *)
Definition key_batch (n : nat) (vs : list Variant) (b : Variant) (info : option Variant) : Prop :=
  (∃ ts t, vs = VTensor <$> ts ∧ b = VTensor t ∧ cat ts = Ok t ∧ (∃ d, ∀ t, t ∈ ts → dim t = S d) ∧ info = Some (VTensor (of_longs (size0 <$> ts)))) ∨
  (isDict b = true ∧ unBatch n b = Ok vs ∧ info = None).

Lemma alike_dicts n vs : alike n vs → ∃ ms : list (gmap string Variant), vs = VDict <$> ms ∧ ms ≠ [].
Proof. destruct n; [done|]. intros (ms & D & -> & Hne & _). by exists ms. Qed.

Lemma batch_tensors n pv again total k ts d b bv bi : length ts = total → ts ≠ [] → (∀ t, t ∈ ts → dim t = S d) → cat ts = Ok b →
  key_batch n (VTensor <$> ts) (VTensor b) (Some (VTensor (of_longs (size0 <$> ts)))) ∧
  batch_key again false pv total (bv, bi) (k, VTensor <$> ts) = Ok (<[k := VTensor b]> bv, <[k := VTensor (of_longs (size0 <$> ts))]> bi).
Proof.
  intros Hlen Hne Hd Hc. split.
  { left. exists ts, b. split_and!; try done. by exists d. }
  assert ((λ t, if (0 <? dim t)%nat then t else unsqueeze0 t) <$> ts = ts) as E1.
  { rewrite <- (list_fmap_id ts) at 2. apply list_fmap_ext. intros i t Ht. apply list_elem_of_lookup_2 in Ht. by rewrite (Hd t Ht). }
  assert (part_size <$> ts = size0 <$> ts) as E2.
  { apply list_fmap_ext. intros i t Ht. apply list_elem_of_lookup_2 in Ht. unfold part_size. by rewrite (Hd t Ht). }
  unfold batch_key. cbn [fst snd]. rewrite same_kind_ok; [|by rewrite length_fmap|].
  2: { intros v0 v Hv0 Hv. apply list_elem_of_fmap in Hv as (t & -> & Ht). destruct ts as [|t0 ts]; [done|]. injection Hv0 as <-. split; [done|].
       intros t' t0' [= <-] [= <-]. by rewrite (Hd t Ht), (Hd t0 ltac:(by left)). }
  cbn [rbind]. destruct ts as [|t0 ts]; [done|]. change (VTensor <$> t0 :: ts) with (VTensor t0 :: (VTensor <$> ts)). cbn iota.
  assert (mapR get (VTensor t0 :: (VTensor <$> ts)) = Ok (t0 :: ts)) as ->.
  { apply mapR_ok. change (VTensor t0 :: (VTensor <$> ts)) with (VTensor <$> (t0 :: ts)). apply Forall2_fmap_l. by apply Forall_Forall2_diag, Forall_true. }
  cbn [rbind]. unfold makeBatchTensors. rewrite E1, Hc. cbn [rbind]. by rewrite E2.
Qed.

Lemma batch_dicts n pv total k vs bv bi b : alike n vs → length vs = total → makeBatch n false vs pv = Ok b →
  batch_key (λ vs, makeBatch n false vs pv) false pv total (bv, bi) (k, vs) = Ok (<[k := b]> bv, bi).
Proof.
  intros Ha Hlen Hb. destruct (alike_dicts n vs Ha) as (ms & -> & Hne). unfold batch_key. cbn [fst snd].
  rewrite same_kind_ok; [|done|].
  2: { intros v0 v Hv0 Hv. apply list_elem_of_fmap in Hv as (m & -> & _). destruct ms; [done|]. injection Hv0 as <-. done. }
  cbn [rbind]. destruct ms as [|m ms]; [done|]. csimpl in *. by rewrite Hb.
Qed.

(** One key of the batch is taken apart into the values it was made of. *)
Lemma unbatch_key_ok n batched bi k vs b info : batched !! kBatchInfoKey = Some (VDict bi) → bi !! k = info → k ≠ kBatchInfoKey → vs ≠ [] →
  key_batch n vs b info → unbatch_key (unBatch n) batched k b = Ok (Some vs).
Proof.
  intros Hinfo Hk Hne Hvs [(ts & t & -> & -> & Hc & [d Hd] & Hi)|(Hb & Hu & _)].
  - unfold unbatch_key. rewrite Hinfo. cbn [findBatchInfo]. rewrite Hk, Hi. cbn [get rbind]. rewrite longs_kept.
    unfold unBatchTensor. destruct ts as [|t0 ts]; [done|]. change (size0 <$> t0 :: ts) with (size0 t0 :: (size0 <$> ts)). cbn iota.
    change (size0 t0 :: (size0 <$> ts)) with (size0 <$> (t0 :: ts)). by rewrite (split_cat _ _ d Hc) by done.
  - destruct b; try done. unfold unbatch_key. rewrite bool_decide_false by done. by rewrite Hu.
Qed.

(** The batch of alike dicts, given that the dicts below can be batched. *)
Lemma make_level n pv ms (D : gset string) : ms ≠ [] → kBatchInfoKey ∉ D → (∀ m, m ∈ ms → dom m = D) →
  (∀ k, k ∈ D → (∃ ts d b, column k ms = VTensor <$> ts ∧ (∀ t, t ∈ ts → dim t = S d) ∧ cat ts = Ok b) ∨
    (alike n (column k ms) ∧ ∃ b, makeBatch n false (column k ms) pv = Ok b ∧ isDict b = true ∧ unBatch n b = Ok (column k ms))) →
  ∃ bv bi, makeBatch (S n) false (VDict <$> ms) pv = Ok (VDict (<[kBatchInfoKey := VDict bi]> bv)) ∧ dom bv = D ∧
    ∀ k, k ∈ D → ∃ b info, key_batch n (column k ms) b info ∧ bv !! k = Some b ∧ bi !! k = info.
Proof.
  intros Hne Hinfo HD Hcol.
  assert (∀ k, k ∈ D → length (column k ms) = length ms) as Hlen by (intros; by eapply column_length).
  assert (∀ m, m ∈ ms → good_dict m) as Hgood.
  { intros m Hm k v Hv. assert (k ∈ D) as Hk by (rewrite <- (HD m Hm); by apply elem_of_dom_2 in Hv). split; [by intros ->|].
    assert (v ∈ column k ms) as Hin by (apply list_elem_of_omap; by exists m).
    destruct (Hcol k Hk) as [(ts & d & b & E & _)|(Ha & _)].
    - rewrite E in Hin. by apply list_elem_of_fmap in Hin as (t & -> & _).
    - destruct (alike_dicts _ _ Ha) as (ms' & E & _). rewrite E in Hin. by apply list_elem_of_fmap in Hin as (d & -> & _). }
  destruct (collect_ok ms ∅ Hgood) as (r & Er & Hr).
  assert (∀ k vs, r !! k = Some vs ↔ k ∈ D ∧ vs = column k ms) as Hr'.
  { intros k vs. rewrite Hr, lookup_empty. destruct (decide (k ∈ D)) as [Hk|Hk].
    - specialize (Hlen k Hk). destruct (column k ms) as [|v vs']; [destruct ms; done|]. cbn. naive_solver.
    - rewrite column_nil by (intros m Hm; by rewrite (HD m Hm)). naive_solver. }
  destruct (rfold_keys (batch_key (λ vs, makeBatch n false vs pv) false pv (length (VDict <$> ms))) (λ k vs b info, key_batch n vs b info)
    (map_to_list r) ∅ ∅) as (bv & bi & Eb & Hout & Hin).
  { apply NoDup_fst_map_to_list. }
  { intros k vs Hk. apply elem_of_map_to_list, Hr' in Hk as [Hk ->]. specialize (Hlen k Hk). rewrite length_fmap.
    destruct (Hcol k Hk) as [(ts & d & b & E & Hd & Hc)|(Ha & b & Hm & Hb & Hu)].
    - rewrite E in *. rewrite length_fmap in Hlen. assert (ts ≠ []) by (intros ->; destruct ms; done).
      eexists (VTensor b), (Some _). split; [by eapply (batch_tensors n pv (λ _, OutOfFuel) _ k ts d b ∅ ∅)|]. intros bv bi. by eapply batch_tensors.
    - exists b, None. split; [by right|]. intros bv bi. by eapply batch_dicts. }
  exists bv, bi. split.
  { cbn [makeBatch]. rewrite Er. cbn [rbind]. rewrite Eb. done. }
  assert (∀ k, k ∈ D → (k, column k ms) ∈ map_to_list r) as HrD by (intros k Hk; apply elem_of_map_to_list, Hr'; done).
  assert (∀ k, k ∉ D → k ∉ (map_to_list r).*1) as HrN.
  { intros k Hk ([k' vs] & -> & Hv)%list_elem_of_fmap. apply elem_of_map_to_list, Hr' in Hv as [? _]. done. }
  split.
  - apply set_eq. intros k. rewrite elem_of_dom. destruct (decide (k ∈ D)) as [Hk|Hk].
    + destruct (Hin k _ (HrD k Hk)) as (b & info & _ & -> & _). naive_solver.
    + destruct (Hout k (HrN k Hk)) as [-> _]. rewrite lookup_empty. split; [by intros []|done].
  - intros k Hk. destruct (Hin k _ (HrD k Hk)) as (b & info & HR & Ebv & Ebi). exists b, info. split_and!; [done|done|]. rewrite Ebi, lookup_empty. by destruct info.
Qed.

Lemma unmake_level n ms (D : gset string) bv bi : ms ≠ [] → D ≠ ∅ → kBatchInfoKey ∉ D → (∀ m, m ∈ ms → dom m = D) → dom bv = D →
  (∀ k, k ∈ D → ∃ b info, key_batch n (column k ms) b info ∧ bv !! k = Some b ∧ bi !! k = info) →
  unBatch (S n) (VDict (<[kBatchInfoKey := VDict bi]> bv)) = Ok (VDict <$> ms).
Proof.
  intros Hne HDne Hinfo HD Hdom Hkeys. set (batched := <[kBatchInfoKey := VDict bi]> bv).
  assert (∀ k, k ∈ D → length (column k ms) = length ms) as Hlen by (intros; by eapply column_length).
  assert (batched !! kBatchInfoKey = Some (VDict bi)) as Hbi by apply lookup_insert_eq.
  pose (col := λ k, if decide (k = kBatchInfoKey) then None else Some (column k ms)).
  destruct (unbatch_entries (unBatch n) batched col (length ms) (map_to_list batched) ∅ 0%nat) as (m' & n' & E & Hm & _ & Hn).
  { apply NoDup_fst_map_to_list. }
  { intros k v Hv. apply elem_of_map_to_list in Hv. unfold col. destruct (decide (k = kBatchInfoKey)) as [->|Hk].
    - rewrite Hbi in Hv. injection Hv as <-. split; [by cbn; rewrite bool_decide_true|done].
    - unfold batched in Hv. rewrite lookup_insert_ne in Hv by done.
      assert (k ∈ D) as HkD by (rewrite <- Hdom; by apply elem_of_dom_2 in Hv). destruct (Hkeys k HkD) as (b & info & HR & Eb & Ei).
      assert (b = v) as -> by congruence. split; [|intros c [= <-]; by apply Hlen].
      eapply unbatch_key_ok; try done. intros E0. specialize (Hlen k HkD). rewrite E0 in Hlen. destruct ms; done. }
  { by left. }
  assert (∀ k, k ∈ (map_to_list batched).*1 ↔ k = kBatchInfoKey ∨ k ∈ D) as Hks.
  { intros k. transitivity (is_Some (batched !! k)).
    - split; [intros ([k' v] & -> & ?%elem_of_map_to_list)%list_elem_of_fmap; by exists v|].
      intros [v Hv]. apply list_elem_of_fmap. exists (k, v). split; [done|by apply elem_of_map_to_list].
    - rewrite <- elem_of_dom. unfold batched. rewrite dom_insert, Hdom. set_solver. }
  assert (n' = length ms) as ->.
  { apply Hn. apply set_choose_L in HDne as [k Hk]. exists k. split; [apply Hks; by right|]. unfold col. rewrite decide_False by (by intros ->). done. }
  cbn [unBatch]. rewrite E. cbn [rbind fst snd].
  assert (∀ k, m' !! k = if decide (k ∈ D) then Some (column k ms) else None) as Hm'.
  { intros k. rewrite Hm, lookup_empty. unfold col. destruct (decide (k ∈ D)) as [Hk|Hk].
    - rewrite decide_True by (apply Hks; by right). by rewrite decide_False by (by intros ->).
    - destruct (decide (k ∈ _)) as [Hk'|]; [|done]. apply Hks in Hk' as [->|?]; [by rewrite decide_True|done]. }
  apply mapR_ok. apply Forall2_same_length_lookup_2; [by rewrite length_seq, length_fmap|].
  intros i j v Hj Hv. apply lookup_seq in Hj as [-> Hi]. rewrite list_lookup_fmap in Hv. destruct (ms !! i) as [m|] eqn:Em; [|done]. injection Hv as <-.
  assert (m ∈ ms) as Hmin by by eapply list_elem_of_lookup_2. cbn [Nat.add].
  apply pick_ok.
  - intros k. rewrite Hm'. destruct (decide (k ∈ D)) as [Hk|Hk]; cbn.
    + by rewrite (column_lookup k ms D i m).
    + apply not_elem_of_dom. by rewrite (HD m Hmin).
  - intros k l Hl. rewrite Hm' in Hl. destruct (decide (k ∈ D)) as [Hk|]; [|done]. injection Hl as <-. apply lookup_lt_is_Some. by rewrite (Hlen k Hk).
Qed.

Lemma round_trip n pv queries : alike n queries → ∃ b, makeBatch n false queries pv = Ok b ∧ isDict b = true ∧ unBatch n b = Ok queries.
Proof.
  revert queries. induction n as [|n IH]; intros queries H; [done|].
  destruct H as (ms & D & -> & Hne & HDne & Hinfo & HD & Hcol).
  destruct (make_level n pv ms D Hne Hinfo HD) as (bv & bi & Em & Hdom & Hkeys).
  { intros k Hk. destruct (Hcol k Hk) as [?|Ha]; [by left|right]. split; [done|]. by apply IH. }
  eexists. split; [exact Em|]. split; [done|]. by eapply unmake_level.
Qed.

(** C37 Batching undone: queries that are dicts with the same keys, with tensors that
    can be concatenated or such dicts again below them, are put together into one
    batch, and taking that batch apart gives exactly the queries back. *)
Theorem subbatch_roundtrip n pv queries : alike n queries → ∃ b, makeBatch n false queries pv = Ok b ∧ unBatch n b = Ok queries.
Proof. intros H. destruct (round_trip n pv queries H) as (b & E & _ & U). by exists b. Qed.

(** A model that works on each query of a batch alone. *)
Definition pointwise {M} (n : nat) (pv : Z) (forward : M → Variant → res Variant) (f : M → Variant → Variant) : Prop :=
  ∀ m queries b, alike n queries → makeBatch n false queries pv = Ok b →
    alike n (f m <$> queries) ∧ ∃ b', forward m b = Ok b' ∧ makeBatch n false (f m <$> queries) pv = Ok b'.

(** The batcher of batches with such a model gives every query of a batch of alike
    queries the answer it would get alone. *)
Theorem subbatch_answers {M} n pv (forward : M → Variant → res Variant) f m queries : pointwise n pv forward f → alike n queries →
  AsyncBatcher.answers (λ qs, makeBatch n false qs pv) (unBatch n) forward m queries = Ok (f m <$> queries).
Proof.
  intros Hf Ha. destruct (round_trip n pv queries Ha) as (b & E & _). destruct (Hf m queries b Ha E) as (Ha' & b' & E1 & E2).
  destruct (round_trip n pv _ Ha') as (b2 & E3 & _ & U). assert (b2 = b') as -> by congruence.
  unfold AsyncBatcher.answers. rewrite E. cbn [rbind]. rewrite E1. cbn [rbind]. exact U.
Qed.

Lemma pointwise_id n pv : pointwise n pv (λ (_ : unit) b, Ok b) (λ _ v, v).
Proof. intros m queries b Ha Hb. rewrite list_fmap_id. eauto. Qed.
End subbatch.

(** ** Vectors of integers *)

Fixpoint cut (v : list Z) (sizes : list Z) : list (list Z) :=
  match sizes with [] => [] | n :: sizes => take (Z.to_nat n) v :: cut (drop (Z.to_nat n) v) sizes end.

#[local] Instance vectors : Tensors := {|
  tensor := list Z; sizes v := [Z.of_nat (length v)]; unsqueeze0 v := v; squeeze0 v := v; cat vs := Ok (concat vs);
  split1 v := (λ x, [x]) <$> v; split_with_sizes v l := Ok (cut v l); of_longs l := l; to_longs l := l;
  filled l x := replicate (Z.to_nat (hd 0 l)) x; copy_at b start v := Ok (take (Z.to_nat start) b ++ v ++ drop (Z.to_nat start + length v) b) |}.

#[local] Instance vectors_laws : TensorLaws.
Proof.
  constructor; [|done]. intros ts b d [= <-] _ _. cbn. f_equal. induction ts as [|t ts IH]; [done|]. cbn.
  rewrite Nat2Z.id, take_app_length, drop_app_length. f_equal. exact IH.
Qed.

(** Two queries with a vector and a dict with another one. *)
Definition vec (v : list Z) : Variant := @VTensor vectors v.
Definition example_query (a b : list Z) : Variant := VDict {["units" := vec a; "map" := VDict {["tiles" := vec b]}]}.
Definition example_queries : list Variant := [example_query [1; 2] [3]; example_query [4] [5; 6]].

Lemma example_alike : alike 2 example_queries.
Proof.
  exists [{["units" := vec [1; 2]; "map" := VDict {["tiles" := vec [3]]}]}; {["units" := vec [4]; "map" := VDict {["tiles" := vec [5; 6]]}]}],
    {["units"; "map"]}. split_and!; try done.
  - intros m [->|[->|?%not_elem_of_nil]%elem_of_cons]%elem_of_cons; [vm_compute; reflexivity..|done].
  - intros k [->%elem_of_singleton| ->%elem_of_singleton]%elem_of_union.
    + left. exists ([[1; 2]; [4]] : list (list Z)), 0%nat, ([1; 2; 4] : list Z). split_and!; [vm_compute; reflexivity|done|done].
    + right. exists [{["tiles" := vec [3]]}; {["tiles" := vec [5; 6]]}], {["tiles"]}. split_and!; try done.
      * intros m [->|[->|?%not_elem_of_nil]%elem_of_cons]%elem_of_cons; [vm_compute; reflexivity..|done].
      * intros k ->%elem_of_singleton. left. exists ([[3]; [5; 6]] : list (list Z)), 0%nat, ([3; 5; 6] : list Z). split_and!; [vm_compute; reflexivity|done|done].
Qed.

Lemma subbatch_roundtrip_witness : ∃ b, makeBatch 2 false example_queries 0 = Ok b ∧ unBatch 2 b = Ok example_queries.
Proof. apply (subbatch_roundtrip 2 0 example_queries). apply example_alike. Defined.

(** The key whose answers are none escapes the test of the sizes, and its answers
    are then read past the end. *)
Theorem unbatch_past_end : unBatch 1 (VDict {["a" := @VTensorList vectors []; "b" := @VTensorList vectors [[1]]]}) = Undefined.
Proof. vm_compute. reflexivity. Qed.
End SubBatch.
