(* ===== verification/Trainer.v ===== *)
(** * Episodes of a trainer ([cpid/trainer.h], [cpid/trainer.cpp])

    [ReplayBuffer] keeps the frames of episodes and which of them are finished,
    [Trainer] which episodes are under way, and an [EpisodeHandle] owns one of
    these: it can be moved but not copied, and stops its episode when it goes.
    Each function takes the mutex for all it does, so sequences of calls are what
    threads can observe.  The hooks [stepFrame] and [stepEpisode], which the base
    class leaves empty, are not called; frames are of any type. *)

From S2P Require Import Prelude.
From stdpp Require Import pretty.

Abbreviation GameUID := string.
Abbreviation EpisodeKey := string.

(** [src/cpid/trainer.h:33-33] kDefaultEpisodeKey *)
Definition kDefaultEpisodeKey : EpisodeKey := "".

(** An [unordered_map] of [unordered_set]s. *)
Abbreviation UIDKeyStore := (gmap GameUID (gset EpisodeKey)).

(** [m[uid]] reads an entry, and makes one when there is none. *)
Definition keys (m : UIDKeyStore) (uid : GameUID) : gset EpisodeKey := default ∅ (m !! uid).
Definition listed (m : UIDKeyStore) (uid : GameUID) (k : EpisodeKey) : bool := bool_decide (k ∈ keys m uid).

(** [m[uid].erase(k); if (m[uid].size() == 0) m.erase(uid);] *)
Definition erase_key (m : UIDKeyStore) (uid : GameUID) (k : EpisodeKey) : UIDKeyStore :=
  let ks := keys m uid ∖ {[k]} in if bool_decide (ks = ∅) then delete uid m else <[uid := ks]> m.
Definition insert_key (m : UIDKeyStore) (uid : GameUID) (k : EpisodeKey) : UIDKeyStore := <[uid := keys m uid ∪ {[k]}]> m.

(** ** The replay buffer *)

Module ReplayBuffer.
Section buffer.
Context {F : Type}.

Abbreviation Episode := (list F).
Abbreviation Store := (gmap GameUID (gmap EpisodeKey Episode)).

(** [src/cpid/trainer.h:121-122] ReplayBuffer *)
Record t := Buffer { storage_ : Store; dones_ : UIDKeyStore }.

Definition empty : t := Buffer ∅ ∅.

Definition game (b : t) (uid : GameUID) : gmap EpisodeKey Episode := default ∅ (storage_ b !! uid).
Definition episode (b : t) (uid : GameUID) (k : EpisodeKey) : option Episode := game b uid !! k.

(** The frames of the episode with the new one are returned.

    [src/cpid/trainer.cpp:49-72] ReplayBuffer::append *)
Definition append (b : t) (uid : GameUID) (key : EpisodeKey) (value : F) (isDone : bool) : t * Episode :=
  let vec := default [] (episode b uid key) ++ [value] in
  (Buffer (<[uid := <[key := vec]> (game b uid)]> (storage_ b))
     (if isDone then insert_key (dones_ b) uid key else dones_ b), vec).

(** [src/cpid/trainer.cpp:74-81] ReplayBuffer::size *)
Definition size (b : t) : nat := map_fold (λ _ (g : gmap EpisodeKey Episode) n, (n + base.size g)%nat) 0%nat (storage_ b).
(** [src/cpid/trainer.cpp:83-86] ReplayBuffer::size *)
Definition size_of (b : t) (id : GameUID) : res nat :=
  match storage_ b !! id with Some g => Ok (base.size g) | None => Throw "at" end.
(** [src/cpid/trainer.cpp:88-95] ReplayBuffer::sizeDone *)
Definition sizeDone (b : t) : nat := map_fold (λ _ (ks : gset EpisodeKey) n, (n + base.size ks)%nat) 0%nat (dones_ b).
(** [src/cpid/trainer.cpp:97-100] ReplayBuffer::sizeDone *)
Definition sizeDone_of (b : t) (id : GameUID) : res nat :=
  match dones_ b !! id with Some ks => Ok (base.size ks) | None => Throw "at" end.

(** [src/cpid/trainer.cpp:102-105] ReplayBuffer::get *)
Definition get (b : t) (uid : GameUID) (key : EpisodeKey) : t * Episode :=
  let vec := default [] (episode b uid key) in
  (Buffer (<[uid := <[key := vec]> (game b uid)]> (storage_ b)) (dones_ b), vec).

(** [src/cpid/trainer.cpp:107-117] ReplayBuffer::has *)
Definition has (b : t) (uid : GameUID) (key : EpisodeKey) : bool :=
  match storage_ b !! uid with
  | None => false
  | Some g => match g !! key with None => false | Some _ => true end
  end.

(** [src/cpid/trainer.cpp:119-129] ReplayBuffer::isDone *)
Definition isDone (b : t) (uid : GameUID) (key : EpisodeKey) : bool :=
  match dones_ b !! uid with
  | None => false
  | Some ks => bool_decide (key ∈ ks)
  end.

(** [src/cpid/trainer.cpp:131-141] ReplayBuffer::erase *)
Definition erase (b : t) (id : GameUID) (key : EpisodeKey) : t :=
  let g := delete key (game b id) in
  Buffer (if bool_decide (g = ∅) then delete id (storage_ b) else <[id := g]> (storage_ b)) (erase_key (dones_ b) id key).

(** [src/cpid/trainer.cpp:143-147] ReplayBuffer::clear *)
Definition clear (b : t) : t := empty.

(** [src/cpid/trainer.cpp:149-161] ReplayBuffer::getAllEpisodes *)
Definition add_episode (acc : t * list (GameUID * EpisodeKey * Episode)) (e : GameUID * EpisodeKey) :=
  let '(b, vec) := get acc.1 e.1 e.2 in (b, acc.2 ++ [(e, vec)]).
Definition getAllEpisodes (b : t) : t * list (GameUID * EpisodeKey * Episode) :=
  fold_left add_episode (map_to_list (dones_ b) ≫= λ g, pair g.1 <$> elements g.2) (b, []).

(** The generator's draws are the indices of the game and of its episode.

    [src/cpid/trainer.h:318-332] ReplayBuffer::sample_ *)
Definition sample_ (b : t) (draw : nat * nat) : res (t * (GameUID * EpisodeKey * Episode)) :=
  if bool_decide (dones_ b = ∅) then Throw "No finished episodes yet..." else
  let? game := of_option (map_to_list (dones_ b) !! draw.1) in
  if bool_decide (game.2 = ∅) then Throw "no episodes in game" else
  let? ep := of_option (elements game.2 !! draw.2) in
  let '(b, vec) := get b game.1 ep in
  Ok (b, (game.1, ep, vec)).

(** [src/cpid/trainer.h:307-316] ReplayBuffer::sample *)
Definition sample (b : t) (draws : list (nat * nat)) : res (t * list (GameUID * EpisodeKey * Episode)) :=
  rfold (λ acc d, let? r := sample_ acc.1 d in Ok (r.1, acc.2 ++ [r.2])) draws (b, []).
End buffer.
Arguments t : clear implicits.
End ReplayBuffer.

(** ** The trainer *)

Module Trainer.
Section trainer.
Context {F : Type} (host prefix : string).

(** [src/cpid/trainer.cpp:41-47] genGameUID *)
Definition genGameUID (id : N) : GameUID := host +:+ "-" +:+ prefix +:+ "-" +:+ pretty id.

(** What a handle's pointer is: null, the trainer, or not initialised. *)
Inductive ptr := Null | This | Garbage.

(** [guard_] is whether there is a [HandleGuard] behind the weak pointer.

    [src/cpid/trainer.h:184-187] EpisodeHandle *)
Record handle := Handle { trainer_ : ptr; gameID_ : GameUID; episodeKey_ : EpisodeKey; guard_ : bool }.

(** The trainer with the global counter; [alive] until it is destroyed.

    [src/cpid/trainer.h:273-298] Trainer *)
Record state := State {
  atomicID_ : N; actives_ : UIDKeyStore; replayer_ : ReplayBuffer.t F; alive : bool }.

Definition set_actives (s : state) a := State (atomicID_ s) a (replayer_ s) (alive s).
Definition set_replayer (s : state) r := State (atomicID_ s) (actives_ s) r (alive s).

(** *** Handles *)

(** [src/cpid/trainer.h:162-162] EpisodeHandle::EpisodeHandle *)
Definition default_handle : handle := Handle Garbage "" "" false.

(** [src/cpid/trainer.cpp:336-338] EpisodeHandle::operator bool *)
Definition valid (s : state) (h : handle) : res bool :=
  match trainer_ h with
  | Null => Ok false
  | This => Ok (guard_ h && alive s)
  | Garbage => Undefined
  end.

(** [src/cpid/trainer.cpp:372-377] EpisodeHandle::gameID *)
Definition gameID (s : state) (h : handle) : res GameUID :=
  let? ok := valid s h in if (ok : bool) then Ok (gameID_ h) else Throw "Stale EpisodeHandle".
(** [src/cpid/trainer.cpp:365-370] EpisodeHandle::episodeKey *)
Definition episodeKey (s : state) (h : handle) : res EpisodeKey :=
  let? ok := valid s h in if (ok : bool) then Ok (episodeKey_ h) else Throw "Stale EpisodeHandle".

(** *** Calls of the trainer *)

(** [src/cpid/trainer.cpp:206-229] Trainer::step *)
Definition step (s : state) (h : handle) (v : F) (isDone : bool) : res state :=
  let? uid := gameID s h in
  let? k := episodeKey s h in
  if negb (listed (actives_ s) uid k) then Ok s else
  let s := set_replayer s (ReplayBuffer.append (replayer_ s) uid k v isDone).1 in
  Ok (if isDone then set_actives s (erase_key (actives_ s) uid k) else s).

(** [src/cpid/trainer.cpp:271-276] Trainer::startEpisode *)
Definition startEpisode (s : state) : state * handle :=
  let uid := genGameUID (atomicID_ s) in
  (State (atomicID_ s + 1) (insert_key (actives_ s) uid kDefaultEpisodeKey) (replayer_ s) (alive s),
   Handle This uid kDefaultEpisodeKey true).

(** An episode that is under way is given up.

    [src/cpid/trainer.cpp:282-289] Trainer::forceStopEpisode *)
Definition stop (s : state) (uid : GameUID) (k : EpisodeKey) : state :=
  if listed (actives_ s) uid k
  then set_actives (set_replayer s (ReplayBuffer.erase (replayer_ s) uid k)) (erase_key (actives_ s) uid k)
  else s.

(** [src/cpid/trainer.cpp:278-290] Trainer::forceStopEpisode *)
Definition forceStopEpisode (s : state) (h : handle) : res state :=
  let? uid := gameID s h in
  let? k := episodeKey s h in
  Ok (stop s uid k).

(** [src/cpid/trainer.cpp:292-298] Trainer::isActive *)
Definition isActive (s : state) (h : handle) : res bool :=
  let? uid := gameID s h in
  let? k := episodeKey s h in
  Ok (listed (actives_ s) uid k).

(** [src/cpid/trainer.cpp:300-320] Trainer::reset *)
Definition reset (s : state) : state :=
  let activesCopy := map_to_list (actives_ s) ≫= λ g, pair g.1 <$> elements g.2 in
  set_actives (fold_left (λ s e, stop s e.1 e.2) activesCopy s) ∅.

(** *** Moving and destroying handles *)

(** [src/cpid/trainer.cpp:340-345] EpisodeHandle::~EpisodeHandle *)
Definition destroy (s : state) (h : handle) : res state :=
  let? ok := valid s h in if (ok : bool) then forceStopEpisode s h else Ok s.

(** The new handle and the one it was made from.  The constructor reads the guard
    of the other one's trainer, whether or not that is still there.

    [src/cpid/trainer.cpp:330-334] EpisodeHandle::EpisodeHandle
    [src/cpid/trainer.cpp:347-350] EpisodeHandle::EpisodeHandle *)
Definition move (s : state) (other : handle) : res (handle * handle) :=
  match trainer_ other with
  | This => if alive s then
      Ok (Handle This (gameID_ other) (episodeKey_ other) true, Handle Null (gameID_ other) (episodeKey_ other) (guard_ other))
      else Undefined
  | _ => Undefined
  end.

(** The handle, and the other one without its identifiers (moved-from strings are
    taken to be empty, and the guard is gone).

    [src/cpid/trainer.cpp:352-363] EpisodeHandle::operator= *)
Definition assign (s : state) (this other : handle) : res (state * handle * handle) :=
  let? s := destroy s this in
  match trainer_ other with
  | Garbage => Undefined
  | p => Ok (s, Handle p (gameID_ other) (episodeKey_ other) (guard_ other), Handle Null "" "" false)
  end.
End trainer.
Arguments state : clear implicits.
End Trainer.
