(* ===== verification/TrainerRuns.v ===== *)
(** * Who owns an episode

    Over all sequences of calls of a [Trainer] through handles: an episode under way
    belongs to exactly one handle, no episode is both under way and finished, what
    is stored is one or the other, and sampling always finds a finished episode
    when it does not say that there is none ([episodes_owned]). *)

From S2P Require Import Prelude Threads Trainer.
From stdpp Require Import pretty.

(** ** Maps of sets *)

(** No entry is left empty. *)
Definition tidy (m : UIDKeyStore) : Prop := ∀ uid, m !! uid ≠ Some ∅.

Lemma keys_insert m uid k uid' k' : k' ∈ keys (insert_key m uid k) uid' ↔ (uid' = uid ∧ k' = k) ∨ k' ∈ keys m uid'.
Proof.
  unfold keys, insert_key. destruct (decide (uid' = uid)) as [->|Hne].
  - rewrite lookup_insert_eq. cbn. unfold keys. set_solver.
  - rewrite lookup_insert_ne by done. naive_solver.
Qed.

Lemma keys_erase m uid k uid' k' : k' ∈ keys (erase_key m uid k) uid' ↔ k' ∈ keys m uid' ∧ ¬ (uid' = uid ∧ k' = k).
Proof.
  unfold erase_key. destruct (decide (uid' = uid)) as [->|Hne].
  - case_bool_decide as E.
    + unfold keys at 1. rewrite lookup_delete_eq. cbn. set_solver.
    + unfold keys at 1. rewrite lookup_insert_eq. cbn. set_solver.
  - case_bool_decide; unfold keys at 1; [rewrite lookup_delete_ne by done|rewrite lookup_insert_ne by done]; fold (keys m uid'); naive_solver.
Qed.

Lemma tidy_insert m uid k : tidy m → tidy (insert_key m uid k).
Proof.
  intros H uid'. unfold insert_key. destruct (decide (uid' = uid)) as [->|Hne].
  - rewrite lookup_insert_eq. intros [= E]. set_solver.
  - by rewrite lookup_insert_ne.
Qed.

Lemma tidy_erase m uid k : tidy m → tidy (erase_key m uid k).
Proof.
  intros H uid'. unfold erase_key. case_bool_decide as E.
  - destruct (decide (uid' = uid)) as [->|Hne]; [by rewrite lookup_delete_eq|by rewrite lookup_delete_ne].
  - destruct (decide (uid' = uid)) as [->|Hne]; [rewrite lookup_insert_eq; congruence|by rewrite lookup_insert_ne].
Qed.

Lemma listed_spec m uid k : listed m uid k = true ↔ k ∈ keys m uid.
Proof. unfold listed. by rewrite bool_decide_eq_true. Qed.

Lemma tidy_empty m : tidy m → (∀ uid k, k ∉ keys m uid) → m = ∅.
Proof.
  intros Ht H. apply map_eq. intros uid. rewrite lookup_empty. destruct (m !! uid) as [ks|] eqn:E; [|done]. exfalso. apply (Ht uid).
  rewrite E. f_equal. apply set_eq. intros k. specialize (H uid k). unfold keys in H. rewrite E in H. cbn in H. set_solver.
Qed.

(** ** The buffer *)

Section buffer.
Context {F : Type}.
Implicit Types (b : ReplayBuffer.t F).
Import ReplayBuffer.

Lemma episode_put b uid k vec uid' k' ds :
  episode (Buffer (<[uid := <[k := vec]> (game b uid)]> (storage_ b)) ds) uid' k' =
  if decide (uid' = uid ∧ k' = k) then Some vec else episode b uid' k'.
Proof.
  unfold episode, game at 1. cbn. destruct (decide (uid' = uid)) as [->|Hne].
  - rewrite lookup_insert_eq. cbn. destruct (decide (k' = k)) as [->|Hk].
    + by rewrite lookup_insert_eq, decide_True.
    + rewrite lookup_insert_ne by done. rewrite decide_False; [done|]. by intros [_ ?].
  - rewrite lookup_insert_ne by done. rewrite decide_False; [done|]. by intros [? _].
Qed.

Lemma episode_append b uid k v d uid' k' :
  episode (append b uid k v d).1 uid' k' = if decide (uid' = uid ∧ k' = k) then Some (default [] (episode b uid k) ++ [v]) else episode b uid' k'.
Proof. apply episode_put. Qed.

Lemma episode_erase b uid k uid' k' :
  episode (erase b uid k) uid' k' = if decide (uid' = uid ∧ k' = k) then None else episode b uid' k'.
Proof.
  unfold erase, episode, game at 1. cbn [storage_]. destruct (decide (uid' = uid)) as [->|Hne].
  - destruct (decide (k' = k)) as [->|Hk].
    + rewrite decide_True by done. case_bool_decide; [by rewrite lookup_delete_eq|]. rewrite lookup_insert_eq. cbn. by rewrite lookup_delete_eq.
    + rewrite decide_False by (by intros [_ ?]). rewrite <- (lookup_delete_ne (game b uid) k k') by done.
      case_bool_decide as E; [rewrite lookup_delete_eq; by rewrite E|by rewrite lookup_insert_eq].
  - rewrite decide_False by (by intros [? _]). case_bool_decide; [by rewrite lookup_delete_ne|by rewrite lookup_insert_ne].
Qed.
End buffer.

Module TrainerRuns.
Import Trainer.

Section runs.
Context {F : Type} (host prefix : string).
Implicit Types (s : state F) (h : handle) (b : ReplayBuffer.t F).
#[local] Abbreviation genGameUID := (Trainer.genGameUID host prefix).

Lemma genGameUID_inj id id' : genGameUID id = genGameUID id' → id = id'.
Proof. unfold Trainer.genGameUID. intros H. repeat apply (inj (String.app _)) in H. by apply (inj pretty) in H. Qed.

(** ** The trainer alone *)

Definition active s uid k : Prop := k ∈ keys (actives_ s) uid.
Definition done b uid k : Prop := k ∈ keys (ReplayBuffer.dones_ b) uid.
Definition stored b uid k : Prop := is_Some (ReplayBuffer.episode b uid k).

Record consistent s : Prop := {
  c_actives : tidy (actives_ s);
  c_dones : tidy (ReplayBuffer.dones_ (replayer_ s));
  c_apart uid k : active s uid k → ¬ done (replayer_ s) uid k;
  c_done uid k : done (replayer_ s) uid k → stored (replayer_ s) uid k;
  c_stored uid k : stored (replayer_ s) uid k → active s uid k ∨ done (replayer_ s) uid k;
  c_frames uid k : ReplayBuffer.episode (replayer_ s) uid k ≠ Some [];
  c_known uid k : active s uid k ∨ done (replayer_ s) uid k → ∃ id, (id < atomicID_ s)%N ∧ uid = genGameUID id }.

Lemma initial_consistent n a : consistent (State n ∅ ReplayBuffer.empty a).
Proof.
  assert (∀ uid k, k ∉ keys ∅ uid) as Hk by (intros uid k; unfold keys; by rewrite lookup_empty).
  assert (∀ uid k, ReplayBuffer.episode (@ReplayBuffer.empty F) uid k = None) as He
    by (intros uid k; unfold ReplayBuffer.episode, ReplayBuffer.game; cbn; by rewrite lookup_empty).
  constructor; cbn; intros uid; try intros k; unfold active, done, stored; cbn; rewrite ?He, ?lookup_empty; try done;
    first [by intros ?%Hk|by intros [?%Hk|?%Hk]|by intros []].
Qed.

(** An entry of the buffer and of a set disappears. *)
Lemma forget_consistent s uid k a : consistent s →
  (∀ uid' k', k' ∈ keys a uid' ↔ active s uid' k' ∧ ¬ (uid' = uid ∧ k' = k)) → tidy a →
  consistent (set_actives (set_replayer s (ReplayBuffer.erase (replayer_ s) uid k)) a).
Proof.
  intros [Ha Hd Hap Hdo Hst Hfr Hkn] Hk Hta. constructor; cbn; try done.
  - by apply tidy_erase.
  - intros uid' k' [Hac _]%Hk. unfold done. cbn. rewrite keys_erase. intros [Hdn _]. by eapply Hap.
  - intros uid' k'. unfold done, stored. cbn. rewrite keys_erase, episode_erase. intros [Hdn Hne]. rewrite decide_False by done. by apply Hdo.
  - intros uid' k'. unfold stored, active, done. cbn. rewrite episode_erase, keys_erase, Hk. case_decide; [by intros []|]. intros [?|?]%Hst; [left|right]; done.
  - intros uid' k'. rewrite episode_erase. case_decide; [done|]. apply Hfr.
  - intros uid' k'. unfold active, done. cbn. rewrite keys_erase, Hk. intros [[? _]|[? _]]; apply (Hkn uid' k'); [by left|by right].
Qed.

Lemma active_stop s uid k uid' k' : active (stop s uid k) uid' k' ↔ active s uid' k' ∧ ¬ (uid' = uid ∧ k' = k).
Proof.
  unfold stop. destruct (listed (actives_ s) uid k) eqn:E; [apply keys_erase|]. split; [|by intros []].
  intros H. split; [done|]. intros [-> ->]. apply listed_spec in H. congruence.
Qed.

Lemma stop_consistent s uid k : consistent s → consistent (stop s uid k).
Proof.
  intros Hc. unfold stop. destruct (listed _ _ _); [|done]. apply forget_consistent; [done| |by apply tidy_erase, c_actives].
  intros. apply keys_erase.
Qed.

Lemma stop_alive s uid k : alive (stop s uid k) = alive s ∧ atomicID_ (stop s uid k) = atomicID_ s.
Proof. unfold stop. by destruct (listed _ _ _). Qed.

Lemma stop_all s l : consistent s → let s' := fold_left (λ s e, stop s e.1 e.2) l s in
  consistent s' ∧ alive s' = alive s ∧ atomicID_ s' = atomicID_ s ∧ ∀ uid k, active s' uid k ↔ active s uid k ∧ (uid, k) ∉ l.
Proof.
  revert s. induction l as [|[uid0 k0] l IH]; intros s Hc; cbn [fold_left fst snd].
  - split_and!; try done. intros uid k. split; [|by intros []]. intros H. split; [done|apply not_elem_of_nil].
  - destruct (IH _ (stop_consistent s uid0 k0 Hc)) as (H1 & H2 & H3 & H4). destruct (stop_alive s uid0 k0) as [E1 E2].
    split_and!; [done|congruence|congruence|]. intros uid k. rewrite H4, active_stop, not_elem_of_cons. naive_solver.
Qed.

Lemma in_copy (m : UIDKeyStore) uid k : k ∈ keys m uid → (uid, k) ∈ map_to_list m ≫= λ g, pair g.1 <$> elements g.2.
Proof.
  unfold keys. intros H. destruct (m !! uid) as [ks|] eqn:E; [|by apply elem_of_empty in H]. apply list_elem_of_bind. exists (uid, ks).
  split; [|by apply elem_of_map_to_list]. cbn. apply list_elem_of_fmap. exists k. split; [done|by apply elem_of_elements].
Qed.

(** Nothing is under way after [reset]; what is finished stays. *)
Lemma reset_spec s : consistent s → consistent (reset s) ∧ (∀ uid k, ¬ active (reset s) uid k) ∧ alive (reset s) = alive s ∧ atomicID_ (reset s) = atomicID_ s.
Proof.
  intros Hc. unfold reset. destruct (stop_all s (map_to_list (actives_ s) ≫= λ g, pair g.1 <$> elements g.2) Hc) as (H1 & H2 & H3 & H4).
  set (s' := fold_left _ _ _) in *.
  assert (∀ uid k, ¬ active s' uid k) as Hno by (intros uid k [Ha Hn]%H4; by apply Hn, in_copy).
  assert (actives_ s' = ∅) as E by (apply tidy_empty; [apply H1|apply Hno]).
  assert (set_actives s' ∅ = s') as -> by (destruct s'; cbn in *; by rewrite E). done.
Qed.

Lemma step_consistent s uid k v d s2 : consistent s → listed (actives_ s) uid k = true →
  s2 = (let s' := set_replayer s (ReplayBuffer.append (replayer_ s) uid k v d).1 in
        if d then set_actives s' (erase_key (actives_ s') uid k) else s') → consistent s2.
Proof.
  intros Hc Hl%listed_spec E2. pose proof Hc as [Ha Hd Hap Hdo Hst Hfr Hkn].
  assert (replayer_ s2 = (ReplayBuffer.append (replayer_ s) uid k v d).1) as Er by (subst s2; by destruct d).
  assert (atomicID_ s2 = atomicID_ s) as En by (subst s2; by destruct d).
  assert (∀ uid' k', done (replayer_ s2) uid' k' ↔ done (replayer_ s) uid' k' ∨ (d = true ∧ uid' = uid ∧ k' = k)) as Hdone.
  { intros uid' k'. rewrite Er. unfold done, ReplayBuffer.append. cbn. destruct d; [rewrite keys_insert|]; naive_solver. }
  assert (∀ uid' k', active s2 uid' k' ↔ active s uid' k' ∧ ¬ (d = true ∧ uid' = uid ∧ k' = k)) as Hact.
  { intros uid' k'. subst s2. unfold active. destruct d; cbn; [rewrite keys_erase|]; naive_solver. }
  constructor.
  - subst s2. destruct d; cbn; [by apply tidy_erase|done].
  - rewrite Er. cbn. destruct d; [by apply tidy_insert|done].
  - intros uid' k' [Hac Hn]%Hact. rewrite Hdone. intros [Hdn|?]; [by eapply Hap|done].
  - intros uid' k'. rewrite Hdone, Er. unfold stored. rewrite episode_append. case_decide; [done|]. intros [?|?]; [by apply Hdo|naive_solver].
  - intros uid' k'. rewrite Hact, Hdone, Er. unfold stored. rewrite episode_append. case_decide as E.
    + destruct E as [-> ->]. intros _. destruct d; [right; by right|left; split; [done|by intros [? _]]].
    + intros [?|?]%Hst; [left; split; [done|naive_solver]|right; by left].
  - intros uid' k'. rewrite Er, episode_append. case_decide; [|apply Hfr]. intros [= E]. by destruct (default [] _).
  - intros uid' k'. rewrite Hdone, Hact, En. intros H. apply (Hkn uid' k'). destruct H as [[? _]|[?|(_ & -> & ->)]]; [by left|by right|by left].
Qed.

Lemma start_consistent s : consistent s → consistent (startEpisode host prefix s).1.
Proof.
  intros [Ha Hd Hap Hdo Hst Hfr Hkn]. cbn.
  assert (∀ uid k, (active s uid k ∨ done (replayer_ s) uid k) → uid ≠ genGameUID (atomicID_ s)) as Hfresh.
  { intros uid k H ->. apply Hkn in H as (id & Hid & E). apply genGameUID_inj in E. lia. }
  constructor; cbn; try done.
  - by apply tidy_insert.
  - intros uid k. unfold active. cbn. rewrite keys_insert. intros [[-> ->]|?]; [|by apply Hap]. intros Hdn. by eapply Hfresh; [right|].
  - intros uid k [?|?]%Hst; [left|by right]. unfold active. cbn. apply keys_insert. by right.
  - intros uid k. unfold active at 1. cbn. rewrite keys_insert. intros [[[-> ->]|Hac]|Hdn].
    + exists (atomicID_ s). split; [lia|done].
    + destruct (Hkn uid k (or_introl Hac)) as (id & ? & ->). exists id. split; [lia|done].
    + destruct (Hkn uid k (or_intror Hdn)) as (id & ? & ->). exists id. split; [lia|done].
Qed.

(** What algorithms do with a finished episode they have used. *)
Lemma used_consistent s uid k : consistent s → done (replayer_ s) uid k → consistent (set_replayer s (ReplayBuffer.erase (replayer_ s) uid k)).
Proof.
  intros Hc Hd. apply (forget_consistent s uid k (actives_ s)); [done| |apply Hc].
  intros uid' k'. split; [|by intros []]. intros Hac. split; [done|]. intros [-> ->]. by eapply c_apart.
Qed.

(** ** Handles *)

(** The trainer and the handles there are. *)
Record world := World { tr : state F; handles : gmap nat handle }.

Inductive op :=
| OStart (i : nat)                      (** a new handle for a new episode *)
| OStep (i : nat) (v : F) (isDone : bool)
| OForceStop (i : nat)
| OReset
| OMove (i j : nat)                     (** a new handle [j] made from [i] *)
| OAssign (i j : nat)                   (** [i = std::move(j)] *)
| ODestroy (i : nat)
| OUsed (uid : GameUID) (k : EpisodeKey)  (** the algorithm erases a finished episode *)
| ODie.                                 (** the trainer is destroyed *)

Definition with_tr w s := World s (handles w).

Definition on_handle w i (f : state F → handle → res (state F)) : option (res world) :=
  match handles w !! i with
  | Some h => if alive (tr w) then Some (let? s := f (tr w) h in Ok (with_tr w s)) else None
  | None => None
  end.

Definition exec w (o : op) : option (res world) :=
  let s := tr w in
  match o with
  | OStart i => if alive s && bool_decide (handles w !! i = None)
                then let '(s, h) := startEpisode host prefix s in Some (Ok (World s (<[i := h]> (handles w)))) else None
  | OStep i v d => on_handle w i (λ s h, step s h v d)
  | OForceStop i => on_handle w i forceStopEpisode
  | OReset => if alive s then Some (Ok (with_tr w (reset s))) else None
  | OMove i j =>
      match handles w !! i, handles w !! j with
      | Some h, None => Some (let? hh := move s h in Ok (World s (<[j := hh.1]> (<[i := hh.2]> (handles w)))))
      | _, _ => None
      end
  | OAssign i j =>
      match handles w !! i, handles w !! j with
      | Some this, Some other => if bool_decide (i = j) then None else
          Some (let? r := assign s this other in let '(s, h, h') := r in Ok (World s (<[j := h']> (<[i := h]> (handles w)))))
      | _, _ => None
      end
  | ODestroy i =>
      match handles w !! i with
      | Some h => Some (let? s := destroy s h in Ok (World s (delete i (handles w))))
      | None => None
      end
  | OUsed uid k => if alive s && ReplayBuffer.isDone (replayer_ s) uid k
                   then Some (Ok (with_tr w (set_replayer s (ReplayBuffer.erase (replayer_ s) uid k)))) else None
  | ODie => Some (Ok (with_tr w (State (atomicID_ s) (actives_ s) (replayer_ s) false)))
  end.

Definition start_world (n : N) : world := World (State n ∅ ReplayBuffer.empty true) ∅.

(** [i] is the handle of the episode. *)
Definition of_episode uid k h : Prop := trainer_ h = This ∧ gameID_ h = uid ∧ episodeKey_ h = k.
Definition owns w i uid k : Prop := ∃ h, handles w !! i = Some h ∧ of_episode uid k h.

Record owned w : Prop := {
  o_trainer : consistent (tr w);
  o_active uid k : alive (tr w) = true → active (tr w) uid k → ∃ i, owns w i uid k;
  o_once i j uid k : owns w i uid k → owns w j uid k → i = j;
  o_known i uid k : owns w i uid k → ∃ id, (id < atomicID_ (tr w))%N ∧ uid = genGameUID id;
  o_handles i h : handles w !! i = Some h → trainer_ h ≠ Garbage ∧ (trainer_ h = This → guard_ h = true) }.

Lemma valid_spec s h : trainer_ h ≠ Garbage → (trainer_ h = This → guard_ h = true) →
  valid s h = Ok (match trainer_ h with This => alive s | _ => false end).
Proof. unfold valid. destruct (trainer_ h); try done. intros _ H. by rewrite (H eq_refl). Qed.

(** Destroying a handle stops its episode, if there is one. *)
Lemma destroy_spec s h : trainer_ h ≠ Garbage → (trainer_ h = This → guard_ h = true) →
  destroy s h = Ok (match trainer_ h with This => if alive s then stop s (gameID_ h) (episodeKey_ h) else s | _ => s end).
Proof.
  intros H1 H2. unfold destroy, forceStopEpisode, gameID, episodeKey. rewrite (valid_spec s h H1 H2). cbn [rbind].
  destruct (trainer_ h); try done. by destruct (alive s).
Qed.

Lemma owned_with_tr w s : owned w → consistent s → (alive s = true → alive (tr w) = true) → atomicID_ s = atomicID_ (tr w) →
  (∀ uid k, active s uid k → active (tr w) uid k) → owned (with_tr w s).
Proof.
  intros [Ht Ha Ho Hk Hh] Hc Hal En Hac. constructor; cbn; try done.
  - intros uid k E Hact. apply Ha; auto.
  - intros i uid k Hi. rewrite En. by eapply Hk.
Qed.

(** The trainer after the handle [i] has given up its episode. *)
Lemma owned_destroyed w i h : owned w → handles w !! i = Some h → ∃ s, destroy (tr w) h = Ok s ∧ consistent s ∧ alive s = alive (tr w) ∧
  atomicID_ s = atomicID_ (tr w) ∧ ∀ uid k, alive s = true → active s uid k → active (tr w) uid k ∧ ¬ of_episode uid k h.
Proof.
  intros [Ht Ha Ho Hk Hh] Hi. destruct (Hh i h Hi) as [Hg Hgd]. rewrite (destroy_spec _ _ Hg Hgd). eexists. split; [done|].
  destruct (trainer_ h) eqn:Et; [..|done].
  - split_and!; try done. intros uid k _ Hac. split; [done|]. intros [E _]. congruence.
  - destruct (alive (tr w)) eqn:Eal.
    + destruct (stop_alive (tr w) (gameID_ h) (episodeKey_ h)) as [E1 E2]. split_and!; [by apply stop_consistent|congruence|done|].
      intros uid k _ [Hac Hn]%active_stop. split; [done|]. intros (_ & <- & <-). by apply Hn.
    + split_and!; try done. congruence.
Qed.

(** The owners after the handles have changed. *)
Lemma owned_handles w s hs : consistent s → owned w → atomicID_ s = atomicID_ (tr w) →
  (∀ i h, hs !! i = Some h → trainer_ h ≠ Garbage ∧ (trainer_ h = This → guard_ h = true)) →
  (∀ i uid k, owns (World s hs) i uid k → ∃ j, owns w j uid k) →
  (∀ i j uid k, owns (World s hs) i uid k → owns (World s hs) j uid k → i = j) →
  (∀ uid k, alive s = true → active s uid k → ∃ i, owns (World s hs) i uid k) → owned (World s hs).
Proof.
  intros Hc [Ht Ha Ho Hk Hh] En Hhs Hback Honce Hact. constructor; cbn; try done.
  intros i uid k Hi. destruct (Hback i uid k Hi) as [j Hj]. rewrite En. by eapply Hk.
Qed.

Lemma start_owned w i : owned w → alive (tr w) = true → handles w !! i = None →
  let r := startEpisode host prefix (tr w) in owned (World r.1 (<[i := r.2]> (handles w))).
Proof.
  intros Hw Hal Hi r. pose proof Hw as [Ht Ha Ho Hk Hh]. set (new := genGameUID (atomicID_ (tr w))).
  assert (∀ j uid k, owns (World r.1 (<[i := r.2]> (handles w))) j uid k ↔ (j = i ∧ uid = new ∧ k = kDefaultEpisodeKey) ∨ owns w j uid k) as Hown.
  { intros j uid k. unfold owns, of_episode. cbn. destruct (decide (j = i)) as [->|Hne].
    - rewrite lookup_insert_eq, Hi. split; [intros (h & [= <-] & _ & <- & <-); by left|]. intros [(_ & -> & ->)|(h & [=] & _)]. by eexists.
    - rewrite lookup_insert_ne by done. naive_solver. }
  assert (∀ j uid k, owns w j uid k → uid ≠ new) as Hfresh.
  { intros j uid k Hj ->. destruct (Hk j _ k Hj) as (id & Hid & E). apply genGameUID_inj in E. lia. }
  constructor; cbn.
  - by apply start_consistent.
  - intros uid k _. unfold active. cbn. rewrite keys_insert. intros [[-> ->]|Hac]; [exists i; apply Hown; by left|].
    destruct (Ha uid k Hal Hac) as [j Hj]. exists j. apply Hown. by right.
  - intros j j' uid k [(-> & -> & ->)|Hj]%Hown [(-> & E & _)|Hj']%Hown; try done; [by apply Hfresh in Hj'|by apply Hfresh in Hj|by eapply Ho].
  - intros j uid k [(-> & -> & ->)|Hj]%Hown; [exists (atomicID_ (tr w)); split; [lia|done]|].
    destruct (Hk j uid k Hj) as (id & ? & ->). exists id. split; [lia|done].
  - intros j h Hj. apply lookup_insert_Some in Hj as [[_ <-]|[_ Hj]]; [done|by eapply Hh].
Qed.

Lemma move_owned w i j h : owned w → handles w !! i = Some h → handles w !! j = None → trainer_ h = This →
  owned (World (tr w) (<[j := Handle This (gameID_ h) (episodeKey_ h) true]> (<[i := Handle Null (gameID_ h) (episodeKey_ h) (guard_ h)]> (handles w)))).
Proof.
  intros Hw Hi Hj Et. pose proof Hw as [Ht Ha Ho Hk Hh]. assert (i ≠ j) as Hij by congruence.
  set (hs := <[j := _]> _).
  assert (∀ x uid k, owns (World (tr w) hs) x uid k ↔ x ≠ i ∧ ((x = j ∧ owns w i uid k) ∨ (x ≠ j ∧ owns w x uid k))) as Hown.
  { intros x uid k. unfold owns, of_episode, hs. cbn. destruct (decide (x = j)) as [->|Hxj].
    - rewrite lookup_insert_eq, Hi. split; [intros (h' & [= <-] & _ & <- & <-); split; [done|]; left; split; [done|by exists h]|].
      intros (_ & [(_ & h' & [= <-] & _ & <- & <-)|[? _]]); [by eexists|done].
    - rewrite lookup_insert_ne by done. destruct (decide (x = i)) as [->|Hxi].
      + rewrite lookup_insert_eq. split; [by intros (h' & [= <-] & [=] & _)|by intros [? _]].
      + rewrite lookup_insert_ne by done. naive_solver. }
  apply (owned_handles w); try done.
  - intros x h' Hx. unfold hs in Hx. apply lookup_insert_Some in Hx as [[_ <-]|[_ Hx]]; [done|]. apply lookup_insert_Some in Hx as [[_ <-]|[_ Hx]]; [done|by eapply Hh].
  - intros x uid k (_ & [[_ ?]|[_ ?]])%Hown; eauto.
  - intros x y uid k (Hx & [[-> Hx']|[Hxj Hx']])%Hown (Hy & [[-> Hy']|[Hyj Hy']])%Hown; [done|..].
    + by destruct (Ho _ _ _ _ Hx' Hy').
    + by destruct (Ho _ _ _ _ Hx' Hy').
    + by eapply Ho.
  - intros uid k Hal Hac. destruct (Ha uid k Hal Hac) as [x Hx]. destruct (decide (x = i)) as [->|Hxi].
    + exists j. apply Hown. split; [done|]. by left.
    + exists x. apply Hown. split; [done|]. right. split; [|done]. intros ->. destruct Hx as (h' & Hx & _). congruence.
Qed.

Lemma assign_owned w i j this other s : owned w → handles w !! i = Some this → handles w !! j = Some other → i ≠ j → destroy (tr w) this = Ok s →
  owned (World s (<[j := Handle Null "" "" false]> (<[i := Handle (trainer_ other) (gameID_ other) (episodeKey_ other) (guard_ other)]> (handles w)))).
Proof.
  intros Hw Hi Hj Hij Hs. pose proof Hw as [Ht Ha Ho Hk Hh]. destruct (owned_destroyed w i this Hw Hi) as (s' & E & Hc & Hal & En & Hac).
  assert (s' = s) as -> by congruence. set (hs := <[j := _]> _).
  assert (∀ x uid k, owns (World s hs) x uid k ↔ x ≠ j ∧ ((x = i ∧ owns w j uid k) ∨ (x ≠ i ∧ owns w x uid k))) as Hown.
  { intros x uid k. unfold owns, of_episode, hs. cbn. destruct (decide (x = j)) as [->|Hxj].
    - rewrite lookup_insert_eq. split; [by intros (h' & [= <-] & [=] & _)|by intros [? _]].
    - rewrite lookup_insert_ne by done. destruct (decide (x = i)) as [->|Hxi].
      + rewrite lookup_insert_eq, Hj. split; [intros (h' & [= <-] & ?); split; [done|]; left; split; [done|by exists other]|].
        intros (_ & [(_ & h' & [= <-] & ?)|[? _]]); [by eexists|done].
      + rewrite lookup_insert_ne by done. naive_solver. }
  apply (owned_handles w); try done.
  - intros x h' Hx. unfold hs in Hx. apply lookup_insert_Some in Hx as [[_ <-]|[_ Hx]]; [done|].
    apply lookup_insert_Some in Hx as [[_ <-]|[_ Hx]]; [by apply (Hh j other)|by eapply Hh].
  - intros x uid k (_ & [[_ ?]|[_ ?]])%Hown; eauto.
  - intros x y uid k (Hx & [[-> Hx']|[Hxj Hx']])%Hown (Hy & [[-> Hy']|[Hyj Hy']])%Hown; [done|..].
    + by destruct (Ho _ _ _ _ Hx' Hy').
    + by destruct (Ho _ _ _ _ Hx' Hy').
    + by eapply Ho.
  - intros uid k Hal' Hac'. destruct (Hac uid k Hal' Hac') as [Hac0 Hn]. destruct (Ha uid k ltac:(congruence) Hac0) as [x Hx].
    destruct (decide (x = j)) as [->|Hxj].
    + exists i. apply Hown. split; [done|]. by left.
    + exists x. apply Hown. split; [done|]. right. split; [|done]. intros ->. destruct Hx as (h' & Hx & Hof). assert (h' = this) as -> by congruence. done.
Qed.

Lemma delete_owned w i h s : owned w → handles w !! i = Some h → destroy (tr w) h = Ok s → owned (World s (delete i (handles w))).
Proof.
  intros Hw Hi Hs. pose proof Hw as [Ht Ha Ho Hk Hh]. destruct (owned_destroyed w i h Hw Hi) as (s' & E & Hc & Hal & En & Hac).
  assert (s' = s) as -> by congruence.
  assert (∀ x uid k, owns (World s (delete i (handles w))) x uid k ↔ x ≠ i ∧ owns w x uid k) as Hown.
  { intros x uid k. unfold owns. cbn. destruct (decide (x = i)) as [->|Hne]; [rewrite lookup_delete_eq|rewrite lookup_delete_ne by done]; naive_solver. }
  apply (owned_handles w); try done.
  - intros x h' [_ Hx]%lookup_delete_Some. by eapply Hh.
  - intros x uid k [_ ?]%Hown. eauto.
  - intros x y uid k [_ Hx]%Hown [_ Hy]%Hown. by eapply Ho.
  - intros uid k Hal' Hac'. destruct (Hac uid k Hal' Hac') as [Hac0 Hn]. destruct (Ha uid k ltac:(congruence) Hac0) as [x Hx].
    exists x. apply Hown. split; [|done]. intros ->. destruct Hx as (h' & Hx & Hof). assert (h' = h) as -> by congruence. done.
Qed.

Lemma exec_owned w o w' : owned w → exec w o = Some (Ok w') → owned w'.
Proof.
  intros Hw H. pose proof Hw as [Ht Ha Ho Hk Hh]. destruct o as [i|i v d|i| |i j|i j|i|uid k|]; cbn [exec] in H.
  - destruct (alive (tr w)) eqn:Eal; cbn [andb] in H; [|done]. case_bool_decide as Ei; [|done].
    injection H as <-. by apply start_owned.
  - unfold on_handle in H. destruct (handles w !! i) as [h|] eqn:Ei; [|done]. destruct (alive (tr w)) eqn:Eal; [|done]. injection H as H.
    destruct (Hh i h Ei) as [Hg Hgd]. unfold step, gameID, episodeKey in H. rewrite (valid_spec _ _ Hg Hgd) in H. cbn [rbind] in H.
    destruct (trainer_ h) eqn:Et; try done. rewrite Eal in H. cbn [rbind] in H.
    destruct (listed (actives_ (tr w)) (gameID_ h) (episodeKey_ h)) eqn:El; cbn [negb] in H; injection H as <-; [|by apply owned_with_tr].
    apply owned_with_tr; [done|by eapply step_consistent|by destruct d|by destruct d|].
    intros uid k. unfold active. destruct d; cbn; [|done]. by intros [? _]%keys_erase.
  - unfold on_handle in H. destruct (handles w !! i) as [h|] eqn:Ei; [|done]. destruct (alive (tr w)) eqn:Eal; [|done]. injection H as H.
    destruct (Hh i h Ei) as [Hg Hgd]. unfold forceStopEpisode, gameID, episodeKey in H. rewrite (valid_spec _ _ Hg Hgd) in H. cbn [rbind] in H.
    destruct (trainer_ h) eqn:Et; try done. rewrite Eal in H. cbn [rbind] in H. injection H as <-.
    destruct (stop_alive (tr w) (gameID_ h) (episodeKey_ h)) as [E1 E2].
    apply owned_with_tr; [done|by apply stop_consistent|done|done|]. by intros uid k [? _]%active_stop.
  - destruct (alive (tr w)) eqn:Eal; [|done]. injection H as <-. destruct (reset_spec (tr w) Ht) as (Hc & Hno & E1 & E2).
    apply owned_with_tr; [done|done|done|done|]. by intros uid k ?%Hno.
  - destruct (handles w !! i) as [h|] eqn:Ei; [|done]. destruct (handles w !! j) eqn:Ej; [done|]. injection H as H.
    unfold move in H. destruct (trainer_ h) eqn:Et; try done. destruct (alive (tr w)); [|done]. injection H as <-. by apply move_owned.
  - destruct (handles w !! i) as [this|] eqn:Ei; [|done]. destruct (handles w !! j) as [other|] eqn:Ej; [|done]. case_bool_decide as Eij; [done|].
    injection H as H. unfold assign in H. destruct (destroy (tr w) this) as [s| | |] eqn:Es; try done. cbn [rbind] in H.
    pose proof (assign_owned w i j this other s Hw Ei Ej Eij Es) as Hn. by destruct (trainer_ other); try done; injection H as <-.
  - destruct (handles w !! i) as [h|] eqn:Ei; [|done]. injection H as H. destruct (destroy (tr w) h) as [s| | |] eqn:Es; try done.
    injection H as <-. by eapply delete_owned.
  - destruct (alive (tr w)) eqn:Eal; cbn [andb] in H; [|done]. destruct (ReplayBuffer.isDone (replayer_ (tr w)) uid k) eqn:Ed; [|done]. injection H as <-.
    assert (done (replayer_ (tr w)) uid k) as Hd.
    { unfold ReplayBuffer.isDone in Ed. unfold done, keys. destruct (ReplayBuffer.dones_ _ !! uid); [|done]. by apply bool_decide_eq_true in Ed. }
    apply owned_with_tr; [done|by apply used_consistent|done|done|done].
  - injection H as <-. apply owned_with_tr; try done. by destruct Ht; constructor.
Qed.

Lemma start_world_owned n : owned (start_world n).
Proof.
  constructor; cbn.
  - apply initial_consistent.
  - intros uid k _ H. unfold active, keys in H. cbn in H. by rewrite lookup_empty in H.
  - intros i j uid k (h & H & _). cbn in H. by rewrite lookup_empty in H.
  - intros i uid k (h & H & _). cbn in H. by rewrite lookup_empty in H.
  - intros i h H. by rewrite lookup_empty in H.
Qed.

Lemma reachable_owned n w : reachable exec (start_world n) w → owned w.
Proof. apply reachable_inv; [intros w1 o w2; apply exec_owned|apply start_world_owned]. Qed.

(** Reading a stored episode changes nothing. *)
Lemma get_stored b uid k vec : ReplayBuffer.episode b uid k = Some vec → ReplayBuffer.get b uid k = (b, vec).
Proof.
  intros H. unfold ReplayBuffer.get. rewrite H. cbn. f_equal. unfold ReplayBuffer.episode, ReplayBuffer.game in *.
  destruct (ReplayBuffer.storage_ b !! uid) as [g|] eqn:Eg; cbn in *; [|by rewrite lookup_empty in H].
  rewrite (insert_id g) by done. rewrite insert_id by done. by destruct b.
Qed.

Lemma sample_finished s i j : consistent s → (i < base.size (ReplayBuffer.dones_ (replayer_ s)))%nat →
  (∀ uid, (j < base.size (keys (ReplayBuffer.dones_ (replayer_ s)) uid))%nat ∨ keys (ReplayBuffer.dones_ (replayer_ s)) uid = ∅) →
  ∃ uid k vec, ReplayBuffer.sample_ (replayer_ s) (i, j) = Ok (replayer_ s, (uid, k, vec)) ∧ done (replayer_ s) uid k ∧
    ReplayBuffer.episode (replayer_ s) uid k = Some vec ∧ vec ≠ [].
Proof.
  intros Hc Hi Hj. unfold ReplayBuffer.sample_. rewrite bool_decide_false by (intros E; rewrite E, map_size_empty in Hi; lia).
  rewrite <- length_map_to_list in Hi. apply lookup_lt_is_Some in Hi as [[uid ks] Huid]. cbn [fst snd]. rewrite Huid. cbn [of_option rbind fst snd].
  apply list_elem_of_lookup_2, elem_of_map_to_list in Huid.
  rewrite bool_decide_false by (intros ->; by apply (c_dones _ Hc uid)).
  assert (keys (ReplayBuffer.dones_ (replayer_ s)) uid = ks) as Ek by (unfold keys; by rewrite Huid).
  destruct (Hj uid) as [Hlt|E]; [|exfalso; apply (c_dones _ Hc uid); congruence].
  rewrite Ek in Hlt. unfold base.size, set_size in Hlt. cbn in Hlt. apply lookup_lt_is_Some in Hlt as [k Hk]. rewrite Hk. cbn [of_option rbind].
  apply list_elem_of_lookup_2, elem_of_elements in Hk. assert (done (replayer_ s) uid k) as Hd by (unfold done; by rewrite Ek).
  destruct (c_done _ Hc uid k Hd) as [vec Hv]. rewrite (get_stored _ _ _ _ Hv). exists uid, k, vec. split_and!; try done.
  intros ->. by apply (c_frames _ Hc uid k).
Qed.

(** C38 Over any sequence of calls of a trainer: an episode under way belongs to
    exactly one handle; no episode is both under way and finished; what is stored
    is one or the other and has frames, and what is finished is stored; and
    sampling returns a finished episode, and leaves the buffer as it is, whenever
    there is one. *)
Theorem episodes_owned n w : reachable exec (start_world n) w →
  (∀ uid k, alive (tr w) = true → active (tr w) uid k → ∃ i, owns w i uid k ∧ ∀ j, owns w j uid k → j = i) ∧
  (∀ uid k, active (tr w) uid k → ¬ done (replayer_ (tr w)) uid k) ∧
  (∀ uid k vec, ReplayBuffer.episode (replayer_ (tr w)) uid k = Some vec → vec ≠ [] ∧ (active (tr w) uid k ∨ done (replayer_ (tr w)) uid k)) ∧
  (∀ uid k, done (replayer_ (tr w)) uid k → stored (replayer_ (tr w)) uid k) ∧
  (∀ i j, (i < base.size (ReplayBuffer.dones_ (replayer_ (tr w))))%nat →
     (∀ uid, (j < base.size (keys (ReplayBuffer.dones_ (replayer_ (tr w))) uid))%nat ∨ keys (ReplayBuffer.dones_ (replayer_ (tr w))) uid = ∅) →
     ∃ uid k vec, ReplayBuffer.sample_ (replayer_ (tr w)) (i, j) = Ok (replayer_ (tr w), (uid, k, vec)) ∧
       done (replayer_ (tr w)) uid k ∧ ReplayBuffer.episode (replayer_ (tr w)) uid k = Some vec).
Proof.
  intros Hr. destruct (reachable_owned n w Hr) as [Hc Ha Ho _ _]. split_and!.
  - intros uid k Hal Hac. destruct (Ha uid k Hal Hac) as [i Hi]. exists i. split; [done|]. intros j Hj. by eapply Ho.
  - apply Hc.
  - intros uid k vec Hv. split; [intros ->; by apply (c_frames _ Hc uid k)|]. apply (c_stored _ Hc). by exists vec.
  - apply Hc.
  - intros i j Hi Hj. destruct (sample_finished (tr w) i j Hc Hi Hj) as (uid & k & vec & E & Hd & Hv & _). by exists uid, k, vec.
Qed.

(** A frame goes to the end of the handle's episode and to no other; an episode
    that is not under way any more takes none. *)
Theorem step_frames s h v d : valid s h = Ok true →
  ∃ s', step s h v d = Ok s' ∧
    if listed (actives_ s) (gameID_ h) (episodeKey_ h) then
      (∀ uid k, ReplayBuffer.episode (replayer_ s') uid k =
         if decide (uid = gameID_ h ∧ k = episodeKey_ h) then Some (default [] (ReplayBuffer.episode (replayer_ s) uid k) ++ [v])
         else ReplayBuffer.episode (replayer_ s) uid k) ∧
      (∀ uid k, active s' uid k ↔ active s uid k ∧ ¬ (d = true ∧ uid = gameID_ h ∧ k = episodeKey_ h)) ∧
      (∀ uid k, done (replayer_ s') uid k ↔ done (replayer_ s) uid k ∨ (d = true ∧ uid = gameID_ h ∧ k = episodeKey_ h))
    else s' = s.
Proof.
  intros Hv. unfold step, gameID, episodeKey. rewrite Hv. cbn [rbind]. destruct (listed _ _ _); cbn [negb]; [|by eexists].
  eexists. split; [done|]. set (s1 := set_replayer _ _).
  split_and!; intros uid k.
  - assert (replayer_ (if d then set_actives s1 (erase_key (actives_ s1) (gameID_ h) (episodeKey_ h)) else s1) =
      (ReplayBuffer.append (replayer_ s) (gameID_ h) (episodeKey_ h) v d).1) as -> by by destruct d.
    rewrite episode_append. case_decide as E; [|done]. by destruct E as [-> ->].
  - unfold active. destruct d; cbn; [rewrite keys_erase|]; naive_solver.
  - unfold done. destruct d; cbn; [rewrite keys_insert|]; naive_solver.
Qed.
End runs.

(** ** Two episodes *)

(** One is finished after two frames, the other one has just begun. *)
Definition example_ops : list (@op Z) := [OStart 0; OStep 0 10%Z false; OStep 0 11%Z true; OStart 1; OMove 1 2; ODestroy 1].
Definition example_world : world := default (start_world 7) (run (exec "host" "abcde") example_ops (start_world 7)).

Lemma episodes_owned_witness : ∃ i, owns example_world i "host-abcde-8" "" ∧ ∀ j, owns example_world j "host-abcde-8" "" → j = i.
Proof.
  apply (episodes_owned "host" "abcde" 7 example_world); [|vm_compute; reflexivity|].
  - exists example_ops. vm_compute. reflexivity.
  - apply listed_spec. vm_compute. reflexivity.
Defined.

(** A handle that was moved from cannot be moved from again: the constructor reads
    the guard through the null pointer. *)
Theorem moved_twice : ∃ w, run (exec "host" "abcde") [OStart 0; OMove 0 1] (start_world (F := Z) 7) = Some w ∧
  exec "host" "abcde" w (OMove 0 2) = Some Undefined.
Proof. eexists. split; vm_compute; reflexivity. Qed.

(** A handle that is a member without an initialiser has a pointer without a value,
    which the assignment of the first episode reads. *)
Theorem default_handle_assigned s h : assign (F := Z) s default_handle h = Undefined.
Proof. reflexivity. Qed.
End TrainerRuns.
