(* ===== verification/Evaluator.v ===== *)
(** * Evaluating a model on a number of games ([cpid/evaluator.h], [cpid/evaluator.cpp])

    An [Evaluator] is a [Trainer] that starts [batchSize_] episodes, waits until
    all of them are finished, and reports their mean reward.  Calls are atomic, as
    those of [Trainer]; [update] is too: no game is under way when it gets past
    its first test ([evaluation_complete]). *)

From Stdlib Require Import SpecFloat.
From S2P Require Import Prelude Threads Floats Trainer TrainerRuns.

Module Evaluator.
Section evaluator.
Context (host prefix : string).

(** Frames are rewards.

    [src/cpid/evaluator.h:21-28] Evaluator *)
Record t := Evaluator {
  base : Trainer.state float32; batchSize_ : Z; newGames_ : list (GameUID * EpisodeKey); gamesStarted_ : Z }.

Definition set_base (e : t) s := Evaluator s (batchSize_ e) (newGames_ e) (gamesStarted_ e).
Definition set_started (e : t) n := Evaluator (base e) (batchSize_ e) (newGames_ e) n.

(** [src/cpid/evaluator.cpp:15-24] Evaluator::Evaluator *)
Definition make (n : N) (batchSize : Z) : t := Evaluator (Trainer.State n ∅ ReplayBuffer.empty true) batchSize [] 0.

(** [src/cpid/evaluator.cpp:26-32] Evaluator::stepEpisode *)
Definition stepEpisode (e : t) (uid : GameUID) (k : EpisodeKey) : t :=
  Evaluator (base e) (batchSize_ e) (newGames_ e ++ [(uid, k)]) (gamesStarted_ e).

(** The inherited function, with the hook of this class.

    [src/cpid/trainer.cpp:206-229] Trainer::step *)
Definition step (e : t) (h : Trainer.handle) (v : float32) (isDone : bool) : res t :=
  let? uid := Trainer.gameID (base e) h in
  let? k := Trainer.episodeKey (base e) h in
  let was_active := listed (Trainer.actives_ (base e)) uid k in
  let? s := Trainer.step (base e) h v isDone in
  Ok (if was_active && isDone then stepEpisode (set_base e s) uid k else set_base e s).

(** The rewards of an episode, one after the other.

    [src/cpid/evaluator.cpp:61-63] Evaluator::update *)
Definition add_rewards (mean : float32) (episode : list float32) : float32 := fold_left f32_add episode mean.

(** [src/cpid/evaluator.cpp:50-64] Evaluator::update *)
Definition add_game (acc : t * float32) : res (t * float32) :=
  let '(e, mean) := acc in
  let? game := of_option (last (newGames_ e)) in
  let '(r, episode) := ReplayBuffer.get (Trainer.replayer_ (base e)) game.1 game.2 in
  Ok (Evaluator (Trainer.set_replayer (base e) r) (batchSize_ e) (removelast (newGames_ e)) (gamesStarted_ e), add_rewards mean episode).

(** The mean reward, or [None] while games are missing.

    [src/cpid/evaluator.cpp:34-80] Evaluator::update *)
Definition update (e : t) : res (t * option float32) :=
  if Z.of_nat (length (newGames_ e)) <? batchSize_ e then Ok (e, None) else
  if batchSize_ e <? gamesStarted_ e then Throw "We have too many games playing/played" else
  let? acc := rfold (λ acc _, add_game acc) (seq 0 (Z.to_nat (batchSize_ e))) (e, f32_0) in
  let '(e, sum) := acc in
  let mean := SFdiv 24 128 sum (f32_of_Z (batchSize_ e)) in
  if negb (bool_decide (Trainer.actives_ (base e) = ∅)) then Throw "Somehow we have games at the end of the evaluation!" else
  Ok (Evaluator (Trainer.set_replayer (base e) (ReplayBuffer.clear (Trainer.replayer_ (base e)))) (batchSize_ e) [] 0, Some mean).

(** With all games started it waits, and gives up after 100 ms with no handle.

    [src/cpid/evaluator.cpp:82-100] Evaluator::startEpisode *)
Definition startEpisode (e : t) : t * Trainer.handle :=
  if gamesStarted_ e <? batchSize_ e then
    let '(s, h) := Trainer.startEpisode host prefix (base e) in
    (Evaluator s (batchSize_ e) (newGames_ e) (gamesStarted_ e + 1), h)
  else (e, Trainer.Handle Trainer.Null "" "" false).

(** [src/cpid/evaluator.cpp:102-108] Evaluator::forceStopEpisode *)
Definition forceStopEpisode (e : t) (h : Trainer.handle) : res t :=
  let? a := Trainer.isActive (base e) h in
  let e := if (a : bool) && (0 <? gamesStarted_ e) then set_started e (gamesStarted_ e - 1) else e in
  let? s := Trainer.forceStopEpisode (base e) h in
  Ok (set_base e s).

(** [src/cpid/evaluator.cpp:116-121] Evaluator::reset *)
Definition reset (e : t) : t := set_started (set_base e (Trainer.reset (base e))) 0.

(** The destructor of a handle, which calls the function of this class.

    [src/cpid/trainer.cpp:340-345] EpisodeHandle::~EpisodeHandle *)
Definition destroy (e : t) (h : Trainer.handle) : res t :=
  let? ok := Trainer.valid (base e) h in if (ok : bool) then forceStopEpisode e h else Ok e.
End evaluator.

(** ** The games of an evaluation *)

Section runs.
Context (host prefix : string).
Import TrainerRuns.
#[local] Abbreviation consistent := (TrainerRuns.consistent (F := float32) host prefix).

(** Calls with any handle, also a stale one: an exception leaves things as they are. *)
Inductive op :=
| OStart | OStep (h : Trainer.handle) (v : float32) (isDone : bool) | OForceStop (h : Trainer.handle) | ODestroy (h : Trainer.handle) | OUpdate.

Definition exec (e : t) (o : op) : option (res t) :=
  match o with
  | OStart => Some (Ok (startEpisode host prefix e).1)
  | OStep h v d => Some (step e h v d)
  | OForceStop h => Some (forceStopEpisode e h)
  | ODestroy h => Some (destroy e h)
  | OUpdate => Some (let? r := update e in Ok r.1)
  end.

(** Every game that was started is under way or waits for the evaluation. *)
Record counted (e : t) : Prop := {
  e_trainer : consistent (base e);
  e_key uid k : active (base e) uid k ∨ done (Trainer.replayer_ (base e)) uid k → k = kDefaultEpisodeKey;
  e_count : gamesStarted_ e = Z.of_nat (size (Trainer.actives_ (base e))) + Z.of_nat (length (newGames_ e));
  e_most : gamesStarted_ e ≤ batchSize_ e;
  e_new uid k : (uid, k) ∈ newGames_ e → done (Trainer.replayer_ (base e)) uid k }.

Lemma active_lookup (m : UIDKeyStore) uid k : tidy m → (∀ k', k' ∈ keys m uid → k' = k) → k ∈ keys m uid → m !! uid = Some {[k]}.
Proof.
  unfold keys. intros Ht Hk Hin. destruct (m !! uid) as [ks|] eqn:E; [|by apply elem_of_empty in Hin]. f_equal. apply set_eq. intros k'. cbn in *. set_solver.
Qed.

Lemma erase_size (m : UIDKeyStore) uid k : tidy m → (∀ k', k' ∈ keys m uid → k' = k) → k ∈ keys m uid →
  Z.of_nat (size (erase_key m uid k)) = Z.of_nat (size m) - 1.
Proof.
  intros Ht Hk Hin. pose proof (active_lookup m uid k Ht Hk Hin) as E. unfold erase_key. rewrite bool_decide_true by (unfold keys; rewrite E; cbn; set_solver).
  rewrite map_size_delete_Some by by rewrite E. assert (size m ≠ 0%nat) by (intros H; apply map_size_empty_inv in H; subst m; done). lia.
Qed.

Lemma insert_size (m : UIDKeyStore) uid k : (∀ k', k' ∉ keys m uid) → tidy m → Z.of_nat (size (insert_key m uid k)) = Z.of_nat (size m) + 1.
Proof.
  intros Hk Ht. unfold insert_key. rewrite map_size_insert_None; [lia|]. destruct (m !! uid) as [ks|] eqn:E; [|done]. exfalso. apply (Ht uid).
  rewrite E. f_equal. apply set_eq. intros k'. specialize (Hk k'). unfold keys in Hk. rewrite E in Hk. cbn in Hk. set_solver.
Qed.

Lemma make_counted n b : 0 ≤ b → counted (make n b).
Proof.
  intros Hb. constructor; cbn; try done.
  - apply initial_consistent.
  - intros uid k. unfold active, done, keys. cbn. rewrite !lookup_empty. cbn. set_solver.
  - by intros uid k ?%not_elem_of_nil.
Qed.

Lemma start_counted e : counted e → counted (startEpisode host prefix e).1.
Proof.
  intros [Ht Hk Hc Hm Hn]. unfold startEpisode. destruct (Z.ltb_spec (gamesStarted_ e) (batchSize_ e)); [|done]. cbn.
  set (new := Trainer.genGameUID host prefix (Trainer.atomicID_ (base e))).
  assert (∀ k, k ∉ keys (Trainer.actives_ (base e)) new) as Hfresh.
  { intros k Hin. destruct (c_known _ _ _ Ht new k (or_introl Hin)) as (id & Hid & E). apply genGameUID_inj in E. lia. }
  constructor; cbn; try done.
  - by apply start_consistent.
  - intros uid k. unfold active. cbn. rewrite keys_insert. intros [[[_ ->]|?]|?]; [done|apply (Hk uid); by left|apply (Hk uid); by right].
  - rewrite insert_size by (done || apply Ht). lia.
  - lia.
Qed.

Lemma step_counted e h v d e' : counted e → step e h v d = Ok e' → counted e'.
Proof.
  intros [Ht Hk Hc Hm Hn] H. unfold step, Trainer.step, Trainer.gameID, Trainer.episodeKey in H.
  destruct (Trainer.valid (base e) h) as [[]| | |]; try done. cbn [rbind] in H.
  destruct (listed (Trainer.actives_ (base e)) (Trainer.gameID_ h) (Trainer.episodeKey_ h)) eqn:El; cbn [negb rbind andb] in H.
  2: { injection H as <-. by destruct e. }
  set (uid := Trainer.gameID_ h) in *. set (k := Trainer.episodeKey_ h) in *.
  pose proof (step_consistent host prefix (base e) uid k v d _ Ht El eq_refl) as Hc'. cbn in Hc'.
  apply listed_spec in El as Hac. assert (∀ k', k' ∈ keys (Trainer.actives_ (base e)) uid → k' = k) as Hone.
  { intros k' Hk'. rewrite (Hk uid k) by by left. apply (Hk uid). by left. }
  assert (k = kDefaultEpisodeKey) as Ek by (apply (Hk uid); by left).
  destruct d; injection H as <-; constructor; cbn; try done.
  - intros uid' k'. unfold active, done. cbn. rewrite keys_erase, keys_insert. intros [[? _]|[[_ ->]|?]]; [apply (Hk uid'); by left|done|apply (Hk uid'); by right].
  - rewrite length_app, erase_size by (done || apply Ht). cbn. lia.
  - intros uid' k' [Hin|[= -> ->]%list_elem_of_singleton]%elem_of_app; unfold done; cbn; rewrite keys_insert; [right; by apply Hn|by left].
Qed.

Lemma stop_counted e uid k : counted e →
  counted (set_base (if listed (Trainer.actives_ (base e)) uid k && (0 <? gamesStarted_ e) then set_started e (gamesStarted_ e - 1) else e) (Trainer.stop (base e) uid k)).
Proof.
  intros [Ht Hk Hc Hm Hn]. pose proof (stop_consistent host prefix (base e) uid k Ht) as Hc'. unfold Trainer.stop in *.
  destruct (listed (Trainer.actives_ (base e)) uid k) eqn:El; cbn [andb]; [|by destruct e]. apply listed_spec in El as Hac.
  assert (∀ k', k' ∈ keys (Trainer.actives_ (base e)) uid → k' = k) as Hone.
  { intros k' Hk'. rewrite (Hk uid k) by by left. apply (Hk uid). by left. }
  pose proof (erase_size (Trainer.actives_ (base e)) uid k (c_actives _ _ _ Ht) Hone Hac) as Hsz.
  rewrite (proj2 (Z.ltb_lt _ _)) by lia. constructor; cbn; try done.
  - intros uid' k'. unfold active, done. cbn. rewrite !keys_erase. intros [[? _]|[? _]]; apply (Hk uid'); [by left|by right].
  - lia.
  - lia.
  - intros uid' k' Hin. unfold done. cbn. rewrite keys_erase. split; [by apply Hn|]. intros [-> ->]. by eapply (c_apart _ _ _ Ht); [|apply Hn].
Qed.

Lemma forceStop_counted e h e' : counted e → forceStopEpisode e h = Ok e' → counted e'.
Proof.
  intros He H. unfold forceStopEpisode, Trainer.isActive, Trainer.forceStopEpisode, Trainer.gameID, Trainer.episodeKey in H.
  destruct (Trainer.valid (base e) h) as [[]| | |] eqn:Ev; try done. cbn [rbind] in H.
  pose proof (stop_counted e (Trainer.gameID_ h) (Trainer.episodeKey_ h) He) as Hs.
  destruct (listed _ _ _ && _); cbn [base set_started] in H; rewrite Ev in H; cbn [rbind] in H; by injection H as <-.
Qed.

(** ** The evaluation itself *)

(** The rewards of the games, from the last one that was finished to the first. *)
Definition total (b : ReplayBuffer.t float32) (games : list (GameUID * EpisodeKey)) : float32 :=
  fold_left (λ sum g, add_rewards sum (default [] (ReplayBuffer.episode b g.1 g.2))) (rev games) f32_0.

Lemma add_game_ok e mean games g : newGames_ e = games ++ [g] → is_Some (ReplayBuffer.episode (Trainer.replayer_ (base e)) g.1 g.2) →
  add_game (e, mean) = Ok (Evaluator (base e) (batchSize_ e) games (gamesStarted_ e),
    add_rewards mean (default [] (ReplayBuffer.episode (Trainer.replayer_ (base e)) g.1 g.2))).
Proof.
  intros Eg [vec Hv]. unfold add_game. rewrite Eg, last_snoc. cbn [of_option rbind]. rewrite (get_stored _ _ _ _ Hv), Hv, removelast_last. by destruct e as [[] ? ? ?].
Qed.

Lemma add_games_ok games e mean l : newGames_ e = games → length l = length games →
  (∀ g, g ∈ games → is_Some (ReplayBuffer.episode (Trainer.replayer_ (base e)) g.1 g.2)) →
  rfold (λ acc (_ : nat), add_game acc) l (e, mean) = Ok (Evaluator (base e) (batchSize_ e) [] (gamesStarted_ e),
    fold_left (λ sum g, add_rewards sum (default [] (ReplayBuffer.episode (Trainer.replayer_ (base e)) g.1 g.2))) (rev games) mean).
Proof.
  revert e mean l. induction games as [|g games IH] using rev_ind; intros e mean l Eg Hl Hs.
  - destruct l; [|done]. cbn. by destruct e as [? ? ? ?]; cbn in *; subst.
  - rewrite length_app in Hl. cbn in Hl. destruct l as [|x l]; [cbn in Hl; lia|]. cbn [rfold length] in *.
    rewrite (add_game_ok e mean games g Eg) by (apply Hs; set_solver). cbn [rbind]. rewrite IH; [|done|lia|].
    + cbn. by rewrite rev_app_distr.
    + cbn. intros g' Hg'. apply Hs. set_solver.
Qed.

Lemma update_ok e : counted e → 0 ≤ batchSize_ e → update e = Ok (
  if Z.of_nat (length (newGames_ e)) <? batchSize_ e then (e, None) else
  (Evaluator (Trainer.set_replayer (base e) ReplayBuffer.empty) (batchSize_ e) [] 0,
   Some (SFdiv 24 128 (total (Trainer.replayer_ (base e)) (newGames_ e)) (f32_of_Z (batchSize_ e))))) ∧
  (batchSize_ e ≤ Z.of_nat (length (newGames_ e)) → Trainer.actives_ (base e) = ∅).
Proof.
  intros [Ht Hk Hc Hm Hn] Hb.
  assert (batchSize_ e ≤ Z.of_nat (length (newGames_ e)) → Trainer.actives_ (base e) = ∅) as Hno by (intros H; apply map_size_empty_inv; lia).
  split; [|done]. unfold update. destruct (Z.ltb_spec (Z.of_nat (length (newGames_ e))) (batchSize_ e)) as [|Hge]; [done|].
  rewrite (proj2 (Z.ltb_ge _ _)) by lia. rewrite (add_games_ok (newGames_ e)); [|done|rewrite length_seq; lia|].
  - cbn [rbind base]. rewrite (Hno Hge). rewrite bool_decide_true by done. done.
  - intros [uid k] Hg. apply (c_done _ _ _ Ht). by apply Hn.
Qed.

Lemma update_counted e r : counted e → 0 ≤ batchSize_ e → update e = Ok r → counted r.1.
Proof.
  intros He Hb H. destruct (update_ok e He Hb) as [E Hno]. rewrite E in H. injection H as <-.
  destruct (Z.ltb_spec (Z.of_nat (length (newGames_ e))) (batchSize_ e)) as [|Hge]; [done|]. specialize (Hno Hge). cbn [fst].
  destruct e as [s b games n]. cbn in *. destruct He as [Ht Hk _ _ _]. cbn in *.
  assert (∀ uid k, ¬ active s uid k) as Hna by (intros uid k; unfold active; rewrite Hno; unfold keys; by rewrite lookup_empty).
  pose proof (initial_consistent (F := float32) host prefix (Trainer.atomicID_ s) (Trainer.alive s)) as Hi.
  assert (Trainer.set_replayer s ReplayBuffer.empty = Trainer.State (Trainer.atomicID_ s) ∅ ReplayBuffer.empty (Trainer.alive s)) as Es
    by (unfold Trainer.set_replayer; by rewrite Hno).
  rewrite Es. constructor; cbn; try done.
  - intros uid k. unfold active, done, keys. cbn. rewrite !lookup_empty. cbn. set_solver.
  - by intros uid k ?%not_elem_of_nil.
Qed.

Lemma destroy_counted e h e' : counted e → destroy e h = Ok e' → counted e'.
Proof.
  intros He H. unfold destroy in H. destruct (Trainer.valid (base e) h) as [[]| | |]; try done; [by eapply forceStop_counted|]. by injection H as <-.
Qed.

Lemma exec_batchSize e o e' : exec e o = Some (Ok e') → batchSize_ e' = batchSize_ e.
Proof.
  destruct o; cbn; intros [= H].
  - subst e'. unfold startEpisode. by destruct (_ <? _).
  - unfold step in H. repeat (apply rbind_Ok_inv in H as (? & _ & H)). injection H as <-. by destruct (_ && _).
  - unfold forceStopEpisode in H. apply rbind_Ok_inv in H as (a & _ & H). apply rbind_Ok_inv in H as (s & _ & [= <-]). by destruct (a && _).
  - unfold destroy in H. apply rbind_Ok_inv in H as ([] & _ & H); [|by injection H as <-].
    unfold forceStopEpisode in H. apply rbind_Ok_inv in H as (a & _ & H). apply rbind_Ok_inv in H as (s & _ & [= <-]). by destruct (a && _).
  - apply rbind_Ok_inv in H as (r & H & [= <-]). unfold update in H. destruct (_ <? _); [by injection H as <-|]. destruct (_ <? _); [done|].
    apply rbind_Ok_inv in H as ([e2 m] & Hf & H). destruct (negb _); [done|]. injection H as <-. cbn.
    apply (rfold_inv (λ acc : t * float32, batchSize_ acc.1 = batchSize_ e) _ _ _ _) in Hf; [done| |done].
    intros [e3 m3] x b _ He Hg. unfold add_game in Hg. apply rbind_Ok_inv in Hg as (g & _ & Hg). destruct (ReplayBuffer.get _ _ _). by injection Hg as <-.
Qed.

Lemma exec_counted e o e' : counted e → 0 ≤ batchSize_ e → exec e o = Some (Ok e') → counted e'.
Proof.
  intros He Hb. destruct o; cbn; intros [= H].
  - subst e'. by apply start_counted.
  - by eapply step_counted.
  - by eapply forceStop_counted.
  - by eapply destroy_counted.
  - apply rbind_Ok_inv in H as (r & H & [= <-]). by eapply update_counted.
Qed.

(** C39 An evaluation, over any sequence of calls without [reset]: the games that were
    started are the ones under way and the ones finished, at most [batchSize_] in
    all; [update] never fails, answers only when [batchSize_] games are finished,
    with no game under way, gives the mean of their rewards, and starts over. *)
Theorem evaluation_complete n b e : 0 ≤ b → reachable exec (make n b) e →
  gamesStarted_ e = Z.of_nat (size (Trainer.actives_ (base e))) + Z.of_nat (length (newGames_ e)) ∧ gamesStarted_ e ≤ b ∧
  (Z.of_nat (length (newGames_ e)) < b → update e = Ok (e, None)) ∧
  (b ≤ Z.of_nat (length (newGames_ e)) → Trainer.actives_ (base e) = ∅ ∧
     update e = Ok (Evaluator (Trainer.set_replayer (base e) ReplayBuffer.empty) b [] 0,
                    Some (SFdiv 24 128 (total (Trainer.replayer_ (base e)) (newGames_ e)) (f32_of_Z b)))).
Proof.
  intros Hb Hr. assert (counted e ∧ batchSize_ e = b) as [He Eb].
  { revert Hr. apply (reachable_inv exec (λ e, counted e ∧ batchSize_ e = b)); [|split; [by apply make_counted|done]].
    intros e1 o e2 [H1 H2] Hx. split; [eapply exec_counted; [exact H1|lia|exact Hx]|]. by rewrite (exec_batchSize _ _ _ Hx). }
  destruct (update_ok e He ltac:(lia)) as [E Hno]. rewrite Eb in *. pose proof (e_most _ He). split_and!.
  - apply He.
  - lia.
  - intros Hlt. rewrite E. by rewrite (proj2 (Z.ltb_lt _ _)).
  - intros Hge. split; [by apply Hno|]. rewrite E. by rewrite (proj2 (Z.ltb_ge _ _)).
Qed.
End runs.

(** ** Two games *)

Definition example_handle (id : string) : Trainer.handle := Trainer.Handle Trainer.This ("h-p-" +:+ id) "" true.
Definition example_ops : list op :=
  [OStart; OStart; OStart; OStep (example_handle "0") f32_1 false; OStep (example_handle "1") f32_1 true; OUpdate; OStep (example_handle "0") f32_1 true].
Definition example_evaluator : t := default (make 0 2) (run (exec "h" "p") example_ops (make 0 2)).

Lemma evaluation_complete_witness : ∃ e', update example_evaluator = Ok (e', Some (SFdiv 24 128 (f32_of_Z 3) (f32_of_Z 2))) ∧ gamesStarted_ e' = 0.
Proof.
  destruct (evaluation_complete "h" "p" 0 2 example_evaluator) as (_ & _ & _ & H); [lia|exists example_ops; vm_compute; reflexivity|].
  eexists. split; [|].
  - etransitivity; [apply H; vm_compute; discriminate|]. do 2 f_equal.
  - reflexivity.
Defined.

(** [reset] forgets the finished games only in its count: more games than there
    should be are then started, and the evaluation ends the process. *)
Theorem reset_miscounts : ∃ e, run (exec "h" "p") [OStart; OStep (example_handle "0") f32_1 true] (make 0 2) = Some e ∧
  ∃ e', run (exec "h" "p") [OStart; OStart; OStep (example_handle "1") f32_1 true] (reset e) = Some e' ∧
    update e' = Throw "Somehow we have games at the end of the evaluation!".
Proof. eexists. split; [vm_compute; reflexivity|]. eexists. split; [vm_compute; reflexivity|]. vm_compute. reflexivity. Qed.
End Evaluator.
