(* ===== verification/Algorithms.v ===== *)
(** * Generic algorithms ([src/utils/algorithms.h])

    [getBestScore]: the element of a range with the lowest score.  A range is
    the list of its elements and the end iterator is [None].  A score type
    comes with its [operator<]; [isEqualButNotNoValue] against the invalid and
    the best possible score are predicates, constantly false without one. *)

From S2P Require Import Prelude Floats.

Module Algorithms.
Section best.
Context {A S : Type} (ltb : S → S → bool) (score : A → S).
Context (invalid bestPossible : S → bool).

(** [src/src/utils/algorithms.h:87-100] getBestScore *)
Fixpoint best_loop (i : list A) (best : option A) (bestScore : S) : option A :=
  match i with
  | [] => best
  | x :: i' =>
      let s := score x in
      if invalid s then best_loop i' best bestScore
      else if ltb s bestScore then
        if bestPossible s then Some x else best_loop i' (Some x) s
      else best_loop i' best bestScore
  end.

(** The search for the first valid score; it leaves the iterator there.

    [src/src/utils/algorithms.h:73-86] getBestScore *)
Fixpoint first_valid (i : list A) (bestScore : S) : option A :=
  match i with
  | [] => None
  | x :: i' =>
      let s := score x in
      if invalid s then first_valid i' bestScore
      else if bestPossible s then Some x
      else best_loop i (Some x) s
  end.

(** [src/src/utils/algorithms.h:59-101] getBestScore *)
Definition getBestScore (range : list A) : option A :=
  match range with
  | [] => None
  | x :: i =>
      let bestScore := score x in
      if invalid bestScore then first_valid i bestScore
      else best_loop i (Some x) bestScore
  end.

(** [src/src/utils/algorithms.h:134-150] getBestScoreCopy *)
Definition getBestScoreCopy (dflt : A) (range : list A) : A := default dflt (getBestScore range).

(** *** What is returned *)

Context (Htrans : ∀ a b c, ltb a b = true → ltb b c = true → ltb a c = true).
Context (Hirrefl : ∀ a, ltb a a = false).
Context (Hbest : ∀ s s', bestPossible s = true → ltb s' s = false).

(** No valid element of [l] beats [x]. *)
Definition unbeaten (x : A) (l : list A) : Prop :=
  ∀ y, y ∈ l → invalid (score y) = false → ltb (score y) (score x) = false.

Lemma best_loop_spec i x : invalid (score x) = false → ∀ seen, unbeaten x seen →
  ∃ y, best_loop i (Some x) (score x) = Some y ∧ (y = x ∨ y ∈ i) ∧ invalid (score y) = false ∧
    unbeaten y (seen ++ i).
Proof using Htrans Hbest Hirrefl.
  revert x. induction i as [|z i IH]; intros x Hx seen Hs; cbn [best_loop].
  { exists x. rewrite app_nil_r. auto. }
  assert (∀ b, unbeaten b seen → unbeaten b [z] → unbeaten b (seen ++ [z])) as Happ.
  { intros b H1 H2 y [?|?]%elem_of_app; auto. }
  destruct (invalid (score z)) eqn:Ez; [|destruct (ltb (score z) (score x)) eqn:El; [destruct (bestPossible (score z)) eqn:Eb|]].
  - destruct (IH x Hx (seen ++ [z])) as (y & -> & Hy & Hv & Hu).
    { apply Happ; [done|]. intros y ->%list_elem_of_singleton. congruence. }
    rewrite <-app_assoc in Hu. exists y. split_and!; try done. destruct Hy; [by left|right; by right].
  - exists z. split_and!; try done; [right; by left|]. intros y _ _. by apply Hbest.
  - destruct (IH z Ez (seen ++ [z])) as (y & -> & Hy & Hv & Hu).
    { apply Happ.
      - intros y Hy Hyv. destruct (ltb (score y) (score z)) eqn:E; [|done].
        specialize (Hs y Hy Hyv). by rewrite (Htrans _ _ _ E El) in Hs.
      - intros y ->%list_elem_of_singleton _. destruct (ltb (score z) (score z)) eqn:E; [|done].
        by rewrite Hirrefl in E. }
    rewrite <-app_assoc in Hu. exists y. split_and!; try done. right. destruct Hy as [->|]; [by left|by right].
  - destruct (IH x Hx (seen ++ [z])) as (y & -> & Hy & Hv & Hu).
    { apply Happ; [done|]. by intros y ->%list_elem_of_singleton. }
    rewrite <-app_assoc in Hu. exists y. split_and!; try done. destruct Hy; [by left|right; by right].
Qed.

Lemma first_valid_spec i b : match first_valid i b with
  | Some x => x ∈ i ∧ invalid (score x) = false ∧ unbeaten x i
  | None => ∀ y, y ∈ i → invalid (score y) = true
  end.
Proof using Htrans Hbest Hirrefl.
  induction i as [|z i IH]; cbn [first_valid]; [by intros y ?%not_elem_of_nil|].
  destruct (invalid (score z)) eqn:Ez; [|destruct (bestPossible (score z)) eqn:Eb].
  - destruct (first_valid i b) as [x|].
    + destruct IH as (Hin & Hv & Hu). split_and!; [by right|done|].
      intros y [->|Hy]%elem_of_cons Hyv; [congruence|by apply Hu].
    + intros y [->|Hy]%elem_of_cons; [done|by apply IH].
  - split_and!; [by left|done|]. intros y _ _. by apply Hbest.
  - destruct (best_loop_spec (z :: i) z Ez []) as (y & -> & Hy & Hv & Hu).
    { by intros ? ?%not_elem_of_nil. }
    split_and!; [|done|done]. destruct Hy as [->|]; [by left|done].
Qed.

(** [getBestScore] returns a valid element that no valid element beats, and
    the end iterator exactly when there is no valid element. *)
Lemma getBestScore_spec range : match getBestScore range with
  | Some x => x ∈ range ∧ invalid (score x) = false ∧ unbeaten x range
  | None => ∀ y, y ∈ range → invalid (score y) = true
  end.
Proof using Htrans Hbest Hirrefl.
  destruct range as [|z i]; cbn [getBestScore]; [by intros y ?%not_elem_of_nil|].
  destruct (invalid (score z)) eqn:Ez.
  - pose proof (first_valid_spec i (score z)) as IH. destruct (first_valid i (score z)) as [x|].
    + destruct IH as (Hin & Hv & Hu). split_and!; [by right|done|].
      intros y [->|Hy]%elem_of_cons Hyv; [congruence|by apply Hu].
    + intros y [->|Hy]%elem_of_cons; [done|by apply IH].
  - destruct (best_loop_spec i z Ez [z]) as (y & -> & Hy & Hv & Hu).
    { intros y ->%list_elem_of_singleton _. apply Hirrefl. }
    split_and!; [|done|done]. destruct Hy as [->|]; [by left|by right].
Qed.
End best.
End Algorithms.
