(* ===== verification/BuildTypes.v ===== *)
(** * Build types ([src/buildtype.h], [src/buildtype.cpp])

    A [BuildType const*] is the identity of a unit type, a technology or one
    level of an upgrade: the C++ code keeps exactly one object per type, so
    pointer comparison is equality of identities.  The attributes of a type
    come from BWAPI's tables; they are the fields of [Table], a parameter of
    every definition that reads them. *)

From S2P Require Import Prelude Floats.

Module BuildType.

(** [src/src/buildtype.cpp:27-31] BuildTypeUnitArray *)
Inductive t :=
| UnitType (unit : Z)
| TechType (tech : Z)
| UpgradeType (upgrade level : Z).

#[global] Instance t_eq_dec : EqDecision t.
Proof. solve_decision. Defined.

#[global] Instance t_countable : Countable t.
Proof.
  refine (inj_countable'
    (λ b, match b with
          | UnitType n => inl n
          | TechType n => inr (inl n)
          | UpgradeType n l => inr (inr (n, l))
          end)
    (λ c, match c with
          | inl n => UnitType n
          | inr (inl n) => TechType n
          | inr (inr (n, l)) => UpgradeType n l
          end) _).
  by intros [].
Defined.

(** The members [unit], [upgrade], [tech] and [level] of [struct BuildType].

    [src/src/buildtype.h:37-37] BuildType::unit *)
Definition unit (b : t) : Z := match b with UnitType n => n | _ => -1 end.
(** [src/src/buildtype.h:38-38] BuildType::upgrade *)
Definition upgrade (b : t) : Z := match b with UpgradeType n _ => n | _ => -1 end.
(** [src/src/buildtype.h:39-39] BuildType::tech *)
Definition tech (b : t) : Z := match b with TechType n => n | _ => -1 end.
(** [src/src/buildtype.h:48-48] BuildType::level *)
Definition level (b : t) : Z :=
  match b with UnitType _ => 0 | TechType _ => 1 | UpgradeType _ l => l end.

(** [src/src/buildtype.h:113-115] BuildType::isUnit *)
Definition isUnit (b : t) : bool := negb (unit b =? -1).

(** The attributes a type gets from BWAPI, those the modelled code reads.

    [src/src/buildtype.h:40-45] BuildType *)
Class Table := {
  builder : t → option t;
  mineralCost : t → float64;
  gasCost : t → float64;
  prerequisites : t → list t;
  buildTime : t → Z;
  race : t → Z;
  isAddon : t → bool;
  isWorker : t → bool;
  supplyProvided : t → float64;
  supplyRequired : t → float64;
  isTwoUnitsInOneEgg : t → bool;
  isRefinery : t → bool;
  isBuilding : t → bool;
  isResourceDepot : t → bool
}.

Definition Race_Zerg : Z := 0.
Definition Race_Terran : Z := 1.
Definition Race_Protoss : Z := 2.

(** [src/src/buildtype.cpp:502-502] buildtypes::initialize *)
Definition Terran_Marine : t := UnitType 0.
(** [src/src/buildtype.cpp:503-503] buildtypes::initialize *)
Definition Terran_Ghost : t := UnitType 1.
(** [src/src/buildtype.cpp:504-504] buildtypes::initialize *)
Definition Terran_Vulture : t := UnitType 2.
(** [src/src/buildtype.cpp:505-505] buildtypes::initialize *)
Definition Terran_Goliath : t := UnitType 3.
(** [src/src/buildtype.cpp:506-506] buildtypes::initialize *)
Definition Terran_Siege_Tank_Tank_Mode : t := UnitType 5.
(** [src/src/buildtype.cpp:507-507] buildtypes::initialize *)
Definition Terran_SCV : t := UnitType 7.
(** [src/src/buildtype.cpp:508-508] buildtypes::initialize *)
Definition Terran_Wraith : t := UnitType 8.
(** [src/src/buildtype.cpp:509-509] buildtypes::initialize *)
Definition Terran_Science_Vessel : t := UnitType 9.
(** [src/src/buildtype.cpp:510-510] buildtypes::initialize *)
Definition Terran_Dropship : t := UnitType 11.
(** [src/src/buildtype.cpp:511-511] buildtypes::initialize *)
Definition Terran_Battlecruiser : t := UnitType 12.
(** [src/src/buildtype.cpp:512-512] buildtypes::initialize *)
Definition Terran_Vulture_Spider_Mine : t := UnitType 13.
(** [src/src/buildtype.cpp:513-513] buildtypes::initialize *)
Definition Terran_Nuclear_Missile : t := UnitType 14.
(** [src/src/buildtype.cpp:514-514] buildtypes::initialize *)
Definition Terran_Civilian : t := UnitType 15.
(** [src/src/buildtype.cpp:515-515] buildtypes::initialize *)
Definition Terran_Siege_Tank_Siege_Mode : t := UnitType 30.
(** [src/src/buildtype.cpp:516-516] buildtypes::initialize *)
Definition Terran_Firebat : t := UnitType 32.
(** [src/src/buildtype.cpp:517-517] buildtypes::initialize *)
Definition Spell_Scanner_Sweep : t := UnitType 33.
(** [src/src/buildtype.cpp:518-518] buildtypes::initialize *)
Definition Terran_Medic : t := UnitType 34.
(** [src/src/buildtype.cpp:519-519] buildtypes::initialize *)
Definition Zerg_Larva : t := UnitType 35.
(** [src/src/buildtype.cpp:520-520] buildtypes::initialize *)
Definition Zerg_Egg : t := UnitType 36.
(** [src/src/buildtype.cpp:521-521] buildtypes::initialize *)
Definition Zerg_Zergling : t := UnitType 37.
(** [src/src/buildtype.cpp:522-522] buildtypes::initialize *)
Definition Zerg_Hydralisk : t := UnitType 38.
(** [src/src/buildtype.cpp:523-523] buildtypes::initialize *)
Definition Zerg_Ultralisk : t := UnitType 39.
(** [src/src/buildtype.cpp:524-524] buildtypes::initialize *)
Definition Zerg_Broodling : t := UnitType 40.
(** [src/src/buildtype.cpp:525-525] buildtypes::initialize *)
Definition Zerg_Drone : t := UnitType 41.
(** [src/src/buildtype.cpp:526-526] buildtypes::initialize *)
Definition Zerg_Overlord : t := UnitType 42.
(** [src/src/buildtype.cpp:527-527] buildtypes::initialize *)
Definition Zerg_Mutalisk : t := UnitType 43.
(** [src/src/buildtype.cpp:528-528] buildtypes::initialize *)
Definition Zerg_Guardian : t := UnitType 44.
(** [src/src/buildtype.cpp:529-529] buildtypes::initialize *)
Definition Zerg_Queen : t := UnitType 45.
(** [src/src/buildtype.cpp:530-530] buildtypes::initialize *)
Definition Zerg_Defiler : t := UnitType 46.
(** [src/src/buildtype.cpp:531-531] buildtypes::initialize *)
Definition Zerg_Scourge : t := UnitType 47.
(** [src/src/buildtype.cpp:532-532] buildtypes::initialize *)
Definition Zerg_Infested_Terran : t := UnitType 50.
(** [src/src/buildtype.cpp:533-533] buildtypes::initialize *)
Definition Terran_Valkyrie : t := UnitType 58.
(** [src/src/buildtype.cpp:534-534] buildtypes::initialize *)
Definition Zerg_Cocoon : t := UnitType 59.
(** [src/src/buildtype.cpp:535-535] buildtypes::initialize *)
Definition Protoss_Corsair : t := UnitType 60.
(** [src/src/buildtype.cpp:536-536] buildtypes::initialize *)
Definition Protoss_Dark_Templar : t := UnitType 61.
(** [src/src/buildtype.cpp:537-537] buildtypes::initialize *)
Definition Zerg_Devourer : t := UnitType 62.
(** [src/src/buildtype.cpp:538-538] buildtypes::initialize *)
Definition Protoss_Dark_Archon : t := UnitType 63.
(** [src/src/buildtype.cpp:539-539] buildtypes::initialize *)
Definition Protoss_Probe : t := UnitType 64.
(** [src/src/buildtype.cpp:540-540] buildtypes::initialize *)
Definition Protoss_Zealot : t := UnitType 65.
(** [src/src/buildtype.cpp:541-541] buildtypes::initialize *)
Definition Protoss_Dragoon : t := UnitType 66.
(** [src/src/buildtype.cpp:542-542] buildtypes::initialize *)
Definition Protoss_High_Templar : t := UnitType 67.
(** [src/src/buildtype.cpp:543-543] buildtypes::initialize *)
Definition Protoss_Archon : t := UnitType 68.
(** [src/src/buildtype.cpp:544-544] buildtypes::initialize *)
Definition Protoss_Shuttle : t := UnitType 69.
(** [src/src/buildtype.cpp:545-545] buildtypes::initialize *)
Definition Protoss_Scout : t := UnitType 70.
(** [src/src/buildtype.cpp:546-546] buildtypes::initialize *)
Definition Protoss_Arbiter : t := UnitType 71.
(** [src/src/buildtype.cpp:547-547] buildtypes::initialize *)
Definition Protoss_Carrier : t := UnitType 72.
(** [src/src/buildtype.cpp:548-548] buildtypes::initialize *)
Definition Protoss_Interceptor : t := UnitType 73.
(** [src/src/buildtype.cpp:549-549] buildtypes::initialize *)
Definition Protoss_Reaver : t := UnitType 83.
(** [src/src/buildtype.cpp:550-550] buildtypes::initialize *)
Definition Protoss_Observer : t := UnitType 84.
(** [src/src/buildtype.cpp:551-551] buildtypes::initialize *)
Definition Protoss_Scarab : t := UnitType 85.
(** [src/src/buildtype.cpp:552-552] buildtypes::initialize *)
Definition Critter_Rhynadon : t := UnitType 89.
(** [src/src/buildtype.cpp:553-553] buildtypes::initialize *)
Definition Critter_Bengalaas : t := UnitType 90.
(** [src/src/buildtype.cpp:554-554] buildtypes::initialize *)
Definition Critter_Scantid : t := UnitType 93.
(** [src/src/buildtype.cpp:555-555] buildtypes::initialize *)
Definition Critter_Kakaru : t := UnitType 94.
(** [src/src/buildtype.cpp:556-556] buildtypes::initialize *)
Definition Critter_Ragnasaur : t := UnitType 95.
(** [src/src/buildtype.cpp:557-557] buildtypes::initialize *)
Definition Critter_Ursadon : t := UnitType 96.
(** [src/src/buildtype.cpp:558-558] buildtypes::initialize *)
Definition Zerg_Lurker_Egg : t := UnitType 97.
(** [src/src/buildtype.cpp:559-559] buildtypes::initialize *)
Definition Zerg_Lurker : t := UnitType 103.
(** [src/src/buildtype.cpp:560-560] buildtypes::initialize *)
Definition Spell_Disruption_Web : t := UnitType 105.
(** [src/src/buildtype.cpp:561-561] buildtypes::initialize *)
Definition Terran_Command_Center : t := UnitType 106.
(** [src/src/buildtype.cpp:562-562] buildtypes::initialize *)
Definition Terran_Comsat_Station : t := UnitType 107.
(** [src/src/buildtype.cpp:563-563] buildtypes::initialize *)
Definition Terran_Nuclear_Silo : t := UnitType 108.
(** [src/src/buildtype.cpp:564-564] buildtypes::initialize *)
Definition Terran_Supply_Depot : t := UnitType 109.
(** [src/src/buildtype.cpp:565-565] buildtypes::initialize *)
Definition Terran_Refinery : t := UnitType 110.
(** [src/src/buildtype.cpp:566-566] buildtypes::initialize *)
Definition Terran_Barracks : t := UnitType 111.
(** [src/src/buildtype.cpp:567-567] buildtypes::initialize *)
Definition Terran_Academy : t := UnitType 112.
(** [src/src/buildtype.cpp:568-568] buildtypes::initialize *)
Definition Terran_Factory : t := UnitType 113.
(** [src/src/buildtype.cpp:569-569] buildtypes::initialize *)
Definition Terran_Starport : t := UnitType 114.
(** [src/src/buildtype.cpp:570-570] buildtypes::initialize *)
Definition Terran_Control_Tower : t := UnitType 115.
(** [src/src/buildtype.cpp:571-571] buildtypes::initialize *)
Definition Terran_Science_Facility : t := UnitType 116.
(** [src/src/buildtype.cpp:572-572] buildtypes::initialize *)
Definition Terran_Covert_Ops : t := UnitType 117.
(** [src/src/buildtype.cpp:573-573] buildtypes::initialize *)
Definition Terran_Physics_Lab : t := UnitType 118.
(** [src/src/buildtype.cpp:574-574] buildtypes::initialize *)
Definition Terran_Machine_Shop : t := UnitType 120.
(** [src/src/buildtype.cpp:575-575] buildtypes::initialize *)
Definition Terran_Engineering_Bay : t := UnitType 122.
(** [src/src/buildtype.cpp:576-576] buildtypes::initialize *)
Definition Terran_Armory : t := UnitType 123.
(** [src/src/buildtype.cpp:577-577] buildtypes::initialize *)
Definition Terran_Missile_Turret : t := UnitType 124.
(** [src/src/buildtype.cpp:578-578] buildtypes::initialize *)
Definition Terran_Bunker : t := UnitType 125.
(** [src/src/buildtype.cpp:579-579] buildtypes::initialize *)
Definition Zerg_Infested_Command_Center : t := UnitType 130.
(** [src/src/buildtype.cpp:580-580] buildtypes::initialize *)
Definition Zerg_Hatchery : t := UnitType 131.
(** [src/src/buildtype.cpp:581-581] buildtypes::initialize *)
Definition Zerg_Lair : t := UnitType 132.
(** [src/src/buildtype.cpp:582-582] buildtypes::initialize *)
Definition Zerg_Hive : t := UnitType 133.
(** [src/src/buildtype.cpp:583-583] buildtypes::initialize *)
Definition Zerg_Nydus_Canal : t := UnitType 134.
(** [src/src/buildtype.cpp:584-584] buildtypes::initialize *)
Definition Zerg_Hydralisk_Den : t := UnitType 135.
(** [src/src/buildtype.cpp:585-585] buildtypes::initialize *)
Definition Zerg_Defiler_Mound : t := UnitType 136.
(** [src/src/buildtype.cpp:586-586] buildtypes::initialize *)
Definition Zerg_Greater_Spire : t := UnitType 137.
(** [src/src/buildtype.cpp:587-587] buildtypes::initialize *)
Definition Zerg_Queens_Nest : t := UnitType 138.
(** [src/src/buildtype.cpp:588-588] buildtypes::initialize *)
Definition Zerg_Evolution_Chamber : t := UnitType 139.
(** [src/src/buildtype.cpp:589-589] buildtypes::initialize *)
Definition Zerg_Ultralisk_Cavern : t := UnitType 140.
(** [src/src/buildtype.cpp:590-590] buildtypes::initialize *)
Definition Zerg_Spire : t := UnitType 141.
(** [src/src/buildtype.cpp:591-591] buildtypes::initialize *)
Definition Zerg_Spawning_Pool : t := UnitType 142.
(** [src/src/buildtype.cpp:592-592] buildtypes::initialize *)
Definition Zerg_Creep_Colony : t := UnitType 143.
(** [src/src/buildtype.cpp:593-593] buildtypes::initialize *)
Definition Zerg_Spore_Colony : t := UnitType 144.
(** [src/src/buildtype.cpp:594-594] buildtypes::initialize *)
Definition Zerg_Sunken_Colony : t := UnitType 146.
(** [src/src/buildtype.cpp:595-595] buildtypes::initialize *)
Definition Zerg_Extractor : t := UnitType 149.
(** [src/src/buildtype.cpp:596-596] buildtypes::initialize *)
Definition Protoss_Nexus : t := UnitType 154.
(** [src/src/buildtype.cpp:597-597] buildtypes::initialize *)
Definition Protoss_Robotics_Facility : t := UnitType 155.
(** [src/src/buildtype.cpp:598-598] buildtypes::initialize *)
Definition Protoss_Pylon : t := UnitType 156.
(** [src/src/buildtype.cpp:599-599] buildtypes::initialize *)
Definition Protoss_Assimilator : t := UnitType 157.
(** [src/src/buildtype.cpp:600-600] buildtypes::initialize *)
Definition Protoss_Observatory : t := UnitType 159.
(** [src/src/buildtype.cpp:601-601] buildtypes::initialize *)
Definition Protoss_Gateway : t := UnitType 160.
(** [src/src/buildtype.cpp:602-602] buildtypes::initialize *)
Definition Protoss_Photon_Cannon : t := UnitType 162.
(** [src/src/buildtype.cpp:603-603] buildtypes::initialize *)
Definition Protoss_Citadel_of_Adun : t := UnitType 163.
(** [src/src/buildtype.cpp:604-604] buildtypes::initialize *)
Definition Protoss_Cybernetics_Core : t := UnitType 164.
(** [src/src/buildtype.cpp:605-605] buildtypes::initialize *)
Definition Protoss_Templar_Archives : t := UnitType 165.
(** [src/src/buildtype.cpp:606-606] buildtypes::initialize *)
Definition Protoss_Forge : t := UnitType 166.
(** [src/src/buildtype.cpp:607-607] buildtypes::initialize *)
Definition Protoss_Stargate : t := UnitType 167.
(** [src/src/buildtype.cpp:608-608] buildtypes::initialize *)
Definition Protoss_Fleet_Beacon : t := UnitType 169.
(** [src/src/buildtype.cpp:609-609] buildtypes::initialize *)
Definition Protoss_Arbiter_Tribunal : t := UnitType 170.
(** [src/src/buildtype.cpp:610-610] buildtypes::initialize *)
Definition Protoss_Robotics_Support_Bay : t := UnitType 171.
(** [src/src/buildtype.cpp:611-611] buildtypes::initialize *)
Definition Protoss_Shield_Battery : t := UnitType 172.
(** [src/src/buildtype.cpp:612-612] buildtypes::initialize *)
Definition Resource_Mineral_Field : t := UnitType 176.
(** [src/src/buildtype.cpp:613-613] buildtypes::initialize *)
Definition Resource_Mineral_Field_Type_2 : t := UnitType 177.
(** [src/src/buildtype.cpp:614-614] buildtypes::initialize *)
Definition Resource_Mineral_Field_Type_3 : t := UnitType 178.
(** [src/src/buildtype.cpp:615-615] buildtypes::initialize *)
Definition Resource_Vespene_Geyser : t := UnitType 188.
(** [src/src/buildtype.cpp:616-616] buildtypes::initialize *)
Definition Spell_Dark_Swarm : t := UnitType 202.
(** [src/src/buildtype.cpp:617-617] buildtypes::initialize *)
Definition Special_Pit_Door : t := UnitType 207.
(** [src/src/buildtype.cpp:618-618] buildtypes::initialize *)
Definition Special_Right_Pit_Door : t := UnitType 208.
(** [src/src/buildtype.cpp:619-619] buildtypes::initialize *)
Definition Special_Map_Revealer : t := UnitType 101.
(** [src/src/buildtype.cpp:621-621] buildtypes::initialize *)
Definition Terran_Infantry_Armor_1 : t := UpgradeType 0 1.
(** [src/src/buildtype.cpp:622-622] buildtypes::initialize *)
Definition Terran_Infantry_Armor_2 : t := UpgradeType 0 2.
(** [src/src/buildtype.cpp:623-623] buildtypes::initialize *)
Definition Terran_Infantry_Armor_3 : t := UpgradeType 0 3.
(** [src/src/buildtype.cpp:624-624] buildtypes::initialize *)
Definition Terran_Vehicle_Plating_1 : t := UpgradeType 1 1.
(** [src/src/buildtype.cpp:625-625] buildtypes::initialize *)
Definition Terran_Vehicle_Plating_2 : t := UpgradeType 1 2.
(** [src/src/buildtype.cpp:626-626] buildtypes::initialize *)
Definition Terran_Vehicle_Plating_3 : t := UpgradeType 1 3.
(** [src/src/buildtype.cpp:627-627] buildtypes::initialize *)
Definition Terran_Ship_Plating_1 : t := UpgradeType 2 1.
(** [src/src/buildtype.cpp:628-628] buildtypes::initialize *)
Definition Terran_Ship_Plating_2 : t := UpgradeType 2 2.
(** [src/src/buildtype.cpp:629-629] buildtypes::initialize *)
Definition Terran_Ship_Plating_3 : t := UpgradeType 2 3.
(** [src/src/buildtype.cpp:630-630] buildtypes::initialize *)
Definition Zerg_Carapace_1 : t := UpgradeType 3 1.
(** [src/src/buildtype.cpp:631-631] buildtypes::initialize *)
Definition Zerg_Carapace_2 : t := UpgradeType 3 2.
(** [src/src/buildtype.cpp:632-632] buildtypes::initialize *)
Definition Zerg_Carapace_3 : t := UpgradeType 3 3.
(** [src/src/buildtype.cpp:633-633] buildtypes::initialize *)
Definition Zerg_Flyer_Carapace_1 : t := UpgradeType 4 1.
(** [src/src/buildtype.cpp:634-634] buildtypes::initialize *)
Definition Zerg_Flyer_Carapace_2 : t := UpgradeType 4 2.
(** [src/src/buildtype.cpp:635-635] buildtypes::initialize *)
Definition Zerg_Flyer_Carapace_3 : t := UpgradeType 4 3.
(** [src/src/buildtype.cpp:636-636] buildtypes::initialize *)
Definition Protoss_Ground_Armor_1 : t := UpgradeType 5 1.
(** [src/src/buildtype.cpp:637-637] buildtypes::initialize *)
Definition Protoss_Ground_Armor_2 : t := UpgradeType 5 2.
(** [src/src/buildtype.cpp:638-638] buildtypes::initialize *)
Definition Protoss_Ground_Armor_3 : t := UpgradeType 5 3.
(** [src/src/buildtype.cpp:639-639] buildtypes::initialize *)
Definition Protoss_Air_Armor_1 : t := UpgradeType 6 1.
(** [src/src/buildtype.cpp:640-640] buildtypes::initialize *)
Definition Protoss_Air_Armor_2 : t := UpgradeType 6 2.
(** [src/src/buildtype.cpp:641-641] buildtypes::initialize *)
Definition Protoss_Air_Armor_3 : t := UpgradeType 6 3.
(** [src/src/buildtype.cpp:642-642] buildtypes::initialize *)
Definition Terran_Infantry_Weapons_1 : t := UpgradeType 7 1.
(** [src/src/buildtype.cpp:643-643] buildtypes::initialize *)
Definition Terran_Infantry_Weapons_2 : t := UpgradeType 7 2.
(** [src/src/buildtype.cpp:644-644] buildtypes::initialize *)
Definition Terran_Infantry_Weapons_3 : t := UpgradeType 7 3.
(** [src/src/buildtype.cpp:645-645] buildtypes::initialize *)
Definition Terran_Vehicle_Weapons_1 : t := UpgradeType 8 1.
(** [src/src/buildtype.cpp:646-646] buildtypes::initialize *)
Definition Terran_Vehicle_Weapons_2 : t := UpgradeType 8 2.
(** [src/src/buildtype.cpp:647-647] buildtypes::initialize *)
Definition Terran_Vehicle_Weapons_3 : t := UpgradeType 8 3.
(** [src/src/buildtype.cpp:648-648] buildtypes::initialize *)
Definition Terran_Ship_Weapons_1 : t := UpgradeType 9 1.
(** [src/src/buildtype.cpp:649-649] buildtypes::initialize *)
Definition Terran_Ship_Weapons_2 : t := UpgradeType 9 2.
(** [src/src/buildtype.cpp:650-650] buildtypes::initialize *)
Definition Terran_Ship_Weapons_3 : t := UpgradeType 9 3.
(** [src/src/buildtype.cpp:651-651] buildtypes::initialize *)
Definition Zerg_Melee_Attacks_1 : t := UpgradeType 10 1.
(** [src/src/buildtype.cpp:652-652] buildtypes::initialize *)
Definition Zerg_Melee_Attacks_2 : t := UpgradeType 10 2.
(** [src/src/buildtype.cpp:653-653] buildtypes::initialize *)
Definition Zerg_Melee_Attacks_3 : t := UpgradeType 10 3.
(** [src/src/buildtype.cpp:654-654] buildtypes::initialize *)
Definition Zerg_Missile_Attacks_1 : t := UpgradeType 11 1.
(** [src/src/buildtype.cpp:655-655] buildtypes::initialize *)
Definition Zerg_Missile_Attacks_2 : t := UpgradeType 11 2.
(** [src/src/buildtype.cpp:656-656] buildtypes::initialize *)
Definition Zerg_Missile_Attacks_3 : t := UpgradeType 11 3.
(** [src/src/buildtype.cpp:657-657] buildtypes::initialize *)
Definition Zerg_Flyer_Attacks_1 : t := UpgradeType 12 1.
(** [src/src/buildtype.cpp:658-658] buildtypes::initialize *)
Definition Zerg_Flyer_Attacks_2 : t := UpgradeType 12 2.
(** [src/src/buildtype.cpp:659-659] buildtypes::initialize *)
Definition Zerg_Flyer_Attacks_3 : t := UpgradeType 12 3.
(** [src/src/buildtype.cpp:660-660] buildtypes::initialize *)
Definition Protoss_Ground_Weapons_1 : t := UpgradeType 13 1.
(** [src/src/buildtype.cpp:661-661] buildtypes::initialize *)
Definition Protoss_Ground_Weapons_2 : t := UpgradeType 13 2.
(** [src/src/buildtype.cpp:662-662] buildtypes::initialize *)
Definition Protoss_Ground_Weapons_3 : t := UpgradeType 13 3.
(** [src/src/buildtype.cpp:663-663] buildtypes::initialize *)
Definition Protoss_Air_Weapons_1 : t := UpgradeType 14 1.
(** [src/src/buildtype.cpp:664-664] buildtypes::initialize *)
Definition Protoss_Air_Weapons_2 : t := UpgradeType 14 2.
(** [src/src/buildtype.cpp:665-665] buildtypes::initialize *)
Definition Protoss_Air_Weapons_3 : t := UpgradeType 14 3.
(** [src/src/buildtype.cpp:666-666] buildtypes::initialize *)
Definition Protoss_Plasma_Shields_1 : t := UpgradeType 15 1.
(** [src/src/buildtype.cpp:667-667] buildtypes::initialize *)
Definition Protoss_Plasma_Shields_2 : t := UpgradeType 15 2.
(** [src/src/buildtype.cpp:668-668] buildtypes::initialize *)
Definition Protoss_Plasma_Shields_3 : t := UpgradeType 15 3.
(** [src/src/buildtype.cpp:670-670] buildtypes::initialize *)
Definition U_238_Shells : t := UpgradeType 16 1.
(** [src/src/buildtype.cpp:671-671] buildtypes::initialize *)
Definition Ion_Thrusters : t := UpgradeType 17 1.
(** [src/src/buildtype.cpp:672-672] buildtypes::initialize *)
Definition Titan_Reactor : t := UpgradeType 19 1.
(** [src/src/buildtype.cpp:673-673] buildtypes::initialize *)
Definition Ocular_Implants : t := UpgradeType 20 1.
(** [src/src/buildtype.cpp:674-674] buildtypes::initialize *)
Definition Moebius_Reactor : t := UpgradeType 21 1.
(** [src/src/buildtype.cpp:675-675] buildtypes::initialize *)
Definition Apollo_Reactor : t := UpgradeType 22 1.
(** [src/src/buildtype.cpp:676-676] buildtypes::initialize *)
Definition Colossus_Reactor : t := UpgradeType 23 1.
(** [src/src/buildtype.cpp:677-677] buildtypes::initialize *)
Definition Ventral_Sacs : t := UpgradeType 24 1.
(** [src/src/buildtype.cpp:678-678] buildtypes::initialize *)
Definition Antennae : t := UpgradeType 25 1.
(** [src/src/buildtype.cpp:679-680] buildtypes::initialize *)
Definition Pneumatized_Carapace : t := UpgradeType 26 1.
(** [src/src/buildtype.cpp:681-681] buildtypes::initialize *)
Definition Metabolic_Boost : t := UpgradeType 27 1.
(** [src/src/buildtype.cpp:682-682] buildtypes::initialize *)
Definition Adrenal_Glands : t := UpgradeType 28 1.
(** [src/src/buildtype.cpp:683-684] buildtypes::initialize *)
Definition Muscular_Augments : t := UpgradeType 29 1.
(** [src/src/buildtype.cpp:685-685] buildtypes::initialize *)
Definition Grooved_Spines : t := UpgradeType 30 1.
(** [src/src/buildtype.cpp:686-686] buildtypes::initialize *)
Definition Gamete_Meiosis : t := UpgradeType 31 1.
(** [src/src/buildtype.cpp:687-688] buildtypes::initialize *)
Definition Metasynaptic_Node : t := UpgradeType 32 1.
(** [src/src/buildtype.cpp:689-690] buildtypes::initialize *)
Definition Singularity_Charge : t := UpgradeType 33 1.
(** [src/src/buildtype.cpp:691-691] buildtypes::initialize *)
Definition Leg_Enhancements : t := UpgradeType 34 1.
(** [src/src/buildtype.cpp:692-692] buildtypes::initialize *)
Definition Scarab_Damage : t := UpgradeType 35 1.
(** [src/src/buildtype.cpp:693-693] buildtypes::initialize *)
Definition Reaver_Capacity : t := UpgradeType 36 1.
(** [src/src/buildtype.cpp:694-694] buildtypes::initialize *)
Definition Gravitic_Drive : t := UpgradeType 37 1.
(** [src/src/buildtype.cpp:695-695] buildtypes::initialize *)
Definition Sensor_Array : t := UpgradeType 38 1.
(** [src/src/buildtype.cpp:696-697] buildtypes::initialize *)
Definition Gravitic_Boosters : t := UpgradeType 39 1.
(** [src/src/buildtype.cpp:698-698] buildtypes::initialize *)
Definition Khaydarin_Amulet : t := UpgradeType 40 1.
(** [src/src/buildtype.cpp:699-699] buildtypes::initialize *)
Definition Apial_Sensors : t := UpgradeType 41 1.
(** [src/src/buildtype.cpp:700-701] buildtypes::initialize *)
Definition Gravitic_Thrusters : t := UpgradeType 42 1.
(** [src/src/buildtype.cpp:702-702] buildtypes::initialize *)
Definition Carrier_Capacity : t := UpgradeType 43 1.
(** [src/src/buildtype.cpp:703-703] buildtypes::initialize *)
Definition Khaydarin_Core : t := UpgradeType 44 1.
(** [src/src/buildtype.cpp:704-704] buildtypes::initialize *)
Definition Argus_Jewel : t := UpgradeType 47 1.
(** [src/src/buildtype.cpp:705-705] buildtypes::initialize *)
Definition Argus_Talisman : t := UpgradeType 49 1.
(** [src/src/buildtype.cpp:706-706] buildtypes::initialize *)
Definition Caduceus_Reactor : t := UpgradeType 51 1.
(** [src/src/buildtype.cpp:707-708] buildtypes::initialize *)
Definition Chitinous_Plating : t := UpgradeType 52 1.
(** [src/src/buildtype.cpp:709-710] buildtypes::initialize *)
Definition Anabolic_Synthesis : t := UpgradeType 53 1.
(** [src/src/buildtype.cpp:711-711] buildtypes::initialize *)
Definition Charon_Boosters : t := UpgradeType 54 1.
(** [src/src/buildtype.cpp:713-713] buildtypes::initialize *)
Definition Stim_Packs : t := TechType 0.
(** [src/src/buildtype.cpp:714-714] buildtypes::initialize *)
Definition Lockdown : t := TechType 1.
(** [src/src/buildtype.cpp:715-715] buildtypes::initialize *)
Definition EMP_Shockwave : t := TechType 2.
(** [src/src/buildtype.cpp:716-716] buildtypes::initialize *)
Definition Spider_Mines : t := TechType 3.
(** [src/src/buildtype.cpp:717-717] buildtypes::initialize *)
Definition Scanner_Sweep : t := TechType 4.
(** [src/src/buildtype.cpp:718-718] buildtypes::initialize *)
Definition Tank_Siege_Mode : t := TechType 5.
(** [src/src/buildtype.cpp:719-719] buildtypes::initialize *)
Definition Defensive_Matrix : t := TechType 6.
(** [src/src/buildtype.cpp:720-720] buildtypes::initialize *)
Definition Irradiate : t := TechType 7.
(** [src/src/buildtype.cpp:721-721] buildtypes::initialize *)
Definition Yamato_Gun : t := TechType 8.
(** [src/src/buildtype.cpp:722-722] buildtypes::initialize *)
Definition Cloaking_Field : t := TechType 9.
(** [src/src/buildtype.cpp:723-723] buildtypes::initialize *)
Definition Personnel_Cloaking : t := TechType 10.
(** [src/src/buildtype.cpp:724-724] buildtypes::initialize *)
Definition Burrowing : t := TechType 11.
(** [src/src/buildtype.cpp:725-725] buildtypes::initialize *)
Definition Infestation : t := TechType 12.
(** [src/src/buildtype.cpp:726-726] buildtypes::initialize *)
Definition Spawn_Broodlings : t := TechType 13.
(** [src/src/buildtype.cpp:727-727] buildtypes::initialize *)
Definition Dark_Swarm : t := TechType 14.
(** [src/src/buildtype.cpp:728-728] buildtypes::initialize *)
Definition Plague : t := TechType 15.
(** [src/src/buildtype.cpp:729-729] buildtypes::initialize *)
Definition Consume : t := TechType 16.
(** [src/src/buildtype.cpp:730-730] buildtypes::initialize *)
Definition Ensnare : t := TechType 17.
(** [src/src/buildtype.cpp:731-731] buildtypes::initialize *)
Definition Parasite : t := TechType 18.
(** [src/src/buildtype.cpp:732-732] buildtypes::initialize *)
Definition Psionic_Storm : t := TechType 19.
(** [src/src/buildtype.cpp:733-733] buildtypes::initialize *)
Definition Hallucination : t := TechType 20.
(** [src/src/buildtype.cpp:734-734] buildtypes::initialize *)
Definition Recall : t := TechType 21.
(** [src/src/buildtype.cpp:735-735] buildtypes::initialize *)
Definition Stasis_Field : t := TechType 22.
(** [src/src/buildtype.cpp:736-736] buildtypes::initialize *)
Definition Archon_Warp : t := TechType 23.
(** [src/src/buildtype.cpp:737-737] buildtypes::initialize *)
Definition Restoration : t := TechType 24.
(** [src/src/buildtype.cpp:738-738] buildtypes::initialize *)
Definition Disruption_Web : t := TechType 25.
(** [src/src/buildtype.cpp:739-739] buildtypes::initialize *)
Definition Mind_Control : t := TechType 27.
(** [src/src/buildtype.cpp:740-740] buildtypes::initialize *)
Definition Dark_Archon_Meld : t := TechType 28.
(** [src/src/buildtype.cpp:741-741] buildtypes::initialize *)
Definition Feedback : t := TechType 29.
(** [src/src/buildtype.cpp:742-742] buildtypes::initialize *)
Definition Optical_Flare : t := TechType 30.
(** [src/src/buildtype.cpp:743-743] buildtypes::initialize *)
Definition Maelstrom : t := TechType 31.
(** [src/src/buildtype.cpp:744-744] buildtypes::initialize *)
Definition Lurker_Aspect : t := TechType 32.
(** [src/src/buildtype.cpp:745-745] buildtypes::initialize *)
Definition Healing : t := TechType 34.

(** [src/src/buildtype.h:394-403] getRaceRefinery *)
Definition getRaceRefinery (race : Z) : t :=
  if race =? Race_Protoss then Protoss_Assimilator
  else if race =? Race_Zerg then Zerg_Extractor
  else Terran_Refinery.

(** [src/src/buildtype.h:404-413] getRaceSupplyDepot *)
Definition getRaceSupplyDepot (race : Z) : t :=
  if race =? Race_Protoss then Protoss_Pylon
  else if race =? Race_Zerg then Zerg_Overlord
  else Terran_Supply_Depot.

(** [a == b] on pointers. *)
Definition eqb (a b : t) : bool := bool_decide (a = b).

Lemma eqb_spec a b : reflect (a = b) (eqb a b).
Proof. unfold eqb. apply bool_decide_reflect. Qed.

Lemma eqb_refl a : eqb a a = true.
Proof. by apply bool_decide_eq_true. Qed.

Lemma eqb_false a b : a ≠ b → eqb a b = false.
Proof. apply bool_decide_eq_false_2. Qed.

End BuildType.
Abbreviation BuildType := BuildType.t.
Abbreviation BuildTable := BuildType.Table.
