(* ===== verification/GameMechanics.v ===== *)
(** * Distances ([src/utils/gamemechanics.h])

    The engine's integer approximation of the Euclidean distance, on 32-bit
    unsigned pixels, and the distance between bounding boxes. *)

From S2P Require Import Prelude Floats.

Module GameMechanics.

(** [unsigned] arithmetic wraps; the quotients are of non-negative numbers.

    [src/src/utils/gamemechanics.h:27-39] disthelper *)
Definition disthelper (dx0 dy0 : Z) : Z :=
  let dx := if dx0 <? dy0 then dy0 else dx0 in
  let dy := if dx0 <? dy0 then dx0 else dy0 in
  if dx / 4 <? dy then
    u32 (dx - dx / 16 + u32 (dy * 3) / 8 - dx / 64 + u32 (dy * 3) / 256)
  else dx.

(** [src/src/utils/gamemechanics.h:41-46] pxdistance *)
Definition pxdistance (px1 py1 px2 py2 : Z) : Z :=
  disthelper (Z.abs (px1 - px2)) (Z.abs (py1 - py2)).

(** [src/src/utils/gamemechanics.h:48-53] distance *)
Definition distance (x1 y1 x2 y2 : Z) : float32 :=
  let dx := u32 (Z.abs (x1 - x2) * 8) in
  let dy := u32 (Z.abs (y1 - y2) * 8) in
  SpecFloat.SFdiv 24 128 (f32_of_Z (disthelper dx dy)) (f32_of_Z 8).

(** [src/src/utils/gamemechanics.h:75-108] pxDistanceBB *)
Definition pxDistanceBB (xminA yminA xmaxA ymaxA xminB yminB xmaxB ymaxB : Z) : Z :=
  if xmaxB <? xminA then
    if ymaxB <? yminA then pxdistance xmaxB ymaxB xminA yminA
    else if ymaxA <? yminB then pxdistance xmaxB yminB xminA ymaxA
    else xminA - xmaxB
  else if xmaxA <? xminB then
    if ymaxB <? yminA then pxdistance xminB ymaxB xmaxA yminA
    else if ymaxA <? yminB then pxdistance xminB yminB xmaxA ymaxA
    else xminB - xmaxA
  else if ymaxB <? yminA then yminA - ymaxB
  else if ymaxA <? yminB then yminB - ymaxA
  else 0.

(** ** Bounds *)

(** Pixel offsets on any map are far below [2^28]. *)
Definition px_range (d : Z) : Prop := 0 ≤ d < 2 ^ 28.

Lemma disthelper_plain dx dy : px_range dx → px_range dy → dy ≤ dx → dx / 4 < dy →
  disthelper dx dy = dx - dx / 16 + dy * 3 / 8 - dx / 64 + dy * 3 / 256.
Proof.
  intros Hx Hy Hle Hd. unfold px_range, disthelper in *.
  replace (dx <? dy) with false by lia. replace (dx / 4 <? dy) with true by lia.
  rewrite (u32_small (dy * 3)) by lia. rewrite u32_small; [done|].
  Z.div_mod_to_equations. lia.
Qed.

Lemma disthelper_comm dx dy : disthelper dx dy = disthelper dy dx.
Proof.
  unfold disthelper. destruct (Z.ltb_spec dx dy), (Z.ltb_spec dy dx); try lia; try done.
  by replace dx with dy by lia.
Qed.

(** On map-sized offsets nothing overflows and the engine's distance lies
    between the larger offset and the sum of the two (the Chebyshev and the
    Manhattan distance), as the Euclidean distance does; it is symmetric. *)
Theorem disthelper_bounds dx dy : px_range dx → px_range dy →
  Z.max dx dy ≤ disthelper dx dy ≤ dx + dy ∧ disthelper dx dy = disthelper dy dx.
Proof.
  intros Hx Hy. split; [|apply disthelper_comm].
  assert (∀ a b, px_range a → px_range b → b ≤ a → a ≤ disthelper a b ≤ a + b) as Hmain.
  { intros a b Ha Hb Hle. destruct (Z.lt_ge_cases (a / 4) b) as [Hd|Hd].
    - rewrite disthelper_plain by done. unfold px_range in *.
      Z.div_mod_to_equations. lia.
    - unfold disthelper. replace (a <? b) with false by lia.
      replace (a / 4 <? b) with false by lia. unfold px_range in *. lia. }
  destruct (Z.le_gt_cases dy dx).
  - rewrite Z.max_l by lia. by apply Hmain.
  - rewrite Z.max_r by lia. rewrite disthelper_comm, Z.add_comm. apply Hmain; [done..|lia].
Qed.

Lemma disthelper_bounds_witness :
  Z.max 300 400 ≤ disthelper 300 400 ≤ 300 + 400 ∧ disthelper 300 400 = disthelper 400 300.
Proof. apply (disthelper_bounds 300 400); unfold px_range; lia. Defined.

(** The boxes share a point (borders count). *)
Definition boxes_meet (xminA yminA xmaxA ymaxA xminB yminB xmaxB ymaxB : Z) : Prop :=
  ∃ x y, xminA ≤ x ≤ xmaxA ∧ yminA ≤ y ≤ ymaxA ∧ xminB ≤ x ≤ xmaxB ∧ yminB ≤ y ≤ ymaxB.

Lemma pxdistance_pos a b c d : px_range (Z.abs (a - c)) → px_range (Z.abs (b - d)) →
  a ≠ c → 0 < pxdistance a b c d.
Proof.
  intros. unfold pxdistance.
  destruct (disthelper_bounds (Z.abs (a - c)) (Z.abs (b - d))) as [? _]; [done..|].
  lia.
Qed.

(** The bounding-box distance is zero exactly when the boxes touch or
    overlap, and positive otherwise. *)
Theorem pxDistanceBB_zero_iff xminA yminA xmaxA ymaxA xminB yminB xmaxB ymaxB :
  Forall (λ z, 0 ≤ z < 2 ^ 27) [xminA; yminA; xmaxA; ymaxA; xminB; yminB; xmaxB; ymaxB] →
  xminA ≤ xmaxA → yminA ≤ ymaxA → xminB ≤ xmaxB → yminB ≤ ymaxB →
  0 ≤ pxDistanceBB xminA yminA xmaxA ymaxA xminB yminB xmaxB ymaxB ∧
  (pxDistanceBB xminA yminA xmaxA ymaxA xminB yminB xmaxB ymaxB = 0 ↔
   boxes_meet xminA yminA xmaxA ymaxA xminB yminB xmaxB ymaxB).
Proof.
  rewrite !Forall_cons. intros (?&?&?&?&?&?&?&?&_) HxA HyA HxB HyB.
  assert (boxes_meet xminA yminA xmaxA ymaxA xminB yminB xmaxB ymaxB ↔
    xminA ≤ xmaxB ∧ xminB ≤ xmaxA ∧ yminA ≤ ymaxB ∧ yminB ≤ ymaxA) as ->.
  { unfold boxes_meet. split; [intros (x & y & ?); lia|].
    intros. exists (Z.max xminA xminB), (Z.max yminA yminB). lia. }
  unfold pxDistanceBB.
  repeat match goal with
  | |- context [?a <? ?b] => destruct (Z.ltb_spec a b)
  end;
  try match goal with
  | |- context [pxdistance ?a ?b ?c ?d] =>
      assert (0 < pxdistance a b c d) by (apply pxdistance_pos; unfold px_range; lia)
  end; lia.
Qed.

Lemma pxDistanceBB_zero_iff_witness :
  0 ≤ pxDistanceBB 0 0 10 10 20 30 40 50 ∧
  (pxDistanceBB 0 0 10 10 20 30 40 50 = 0 ↔ boxes_meet 0 0 10 10 20 30 40 50).
Proof.
  apply (pxDistanceBB_zero_iff 0 0 10 10 20 30 40 50); [|lia..].
  repeat (apply Forall_cons; split; [lia|]). apply Forall_nil. exact I.
Defined.

End GameMechanics.
