(* ===== verification/Units.v ===== *)
(** * Units ([src/unitsinfo.h])

    A [Unit*] is the identifier of the unit: the objects live as long as the
    game and [UnitsInfo] holds one object per identifier.  [Unit] has the
    members the modelled components read or write. *)

From S2P Require Import Prelude Floats Geometry BuildTypes.

Abbreviation UnitId := Z (only parsing).
(** A [Unit*] that may be null. *)
Abbreviation UnitPtr := (option Z) (only parsing).
Abbreviation UpcId := Z (only parsing).
(** A [Module*] that may be null. *)
Abbreviation ModulePtr := (option Z) (only parsing).

(** [src/src/basetypes.h:24-24] kRootUpcId *)
Definition kRootUpcId : Z := 0.
(** [src/src/basetypes.h:25-25] kInvalidUpcId *)
Definition kInvalidUpcId : Z := -1.
(** [src/src/basetypes.h:26-26] kFilteredUpcId *)
Definition kFilteredUpcId : Z := -2.
(** [src/src/basetypes.h:37-37] kForever *)
Definition kForever : Z := 24 * 60 * 60 * 24 * 7.
(** [src/src/basetypes.h:38-38] kLarvaFrames *)
Definition kLarvaFrames : Z := 342.

Module Unit.

(** An order of the game, as TorchCraft reports it. *)
Record order := Order { order_type : Z; targetId : Z }.

(** [src/src/unitsinfo.h:35-89] Unit *)
Record t := Unit {
  id : Z;
  x : Z;
  y : Z;
  dead : bool;
  gone : bool;
  isMine : bool;
  isEnemy : bool;
  lastSeen : Z;
  type : BuildType;
  constructingType : option BuildType;
  upgradingType : option BuildType;
  researchingType : option BuildType;
  remainingBuildTrainTime : Z;
  remainingUpgradeResearchTime : Z;
  associatedUnit : UnitPtr;
  associatedCount : Z;
  addon : UnitPtr;
  flags : Z;
  velocityX : float64;
  velocityY : float64;
  groundCD : Z;
  airCD : Z;
  orders : list order;
  lastUpcId : Z;
  lastUpcCommands : Z
}.

(** [src/src/unitsinfo.h:112-114] Unit::flag *)
Definition flag (u : t) (n : Z) : bool := negb (Z.land (flags u) n =? 0).

Definition Flag_BeingConstructed : Z := Z.shiftl 1 3.
Definition Flag_Completed : Z := Z.shiftl 1 12.
Definition Flag_Morphing : Z := Z.shiftl 1 31.
Definition Flag_Researching : Z := Z.shiftl 1 38.
Definition Flag_Upgrading : Z := Z.shiftl 1 51.

(** [src/src/unitsinfo.h:128-130] Unit::completed *)
Definition completed (u : t) : bool := flag u Flag_Completed.
(** [src/src/unitsinfo.h:134-136] Unit::morphing *)
Definition morphing (u : t) : bool := flag u Flag_Morphing.
(** [src/src/unitsinfo.h:170-172] Unit::upgrading *)
Definition upgrading (u : t) : bool := flag u Flag_Upgrading.
(** [src/src/unitsinfo.h:173-175] Unit::researching *)
Definition researching (u : t) : bool := flag u Flag_Researching.
(** [src/src/unitsinfo.h:179-181] Unit::beingConstructed *)
Definition beingConstructed (u : t) : bool := flag u Flag_BeingConstructed.

(** [src/src/unitsinfo.h:245-247] Unit::pos *)
Definition pos (u : t) : Position := Vec2.Pos (x u) (y u).

(** The assignment [unit->lastUpcId = v]. *)
Definition set_lastUpcId (v : Z) (u : t) : t :=
  match u with
  | Unit i px py d g m e ls ty c up re rb ru a ac ad f vx vy gc air o _ lc =>
      Unit i px py d g m e ls ty c up re rb ru a ac ad f vx vy gc air o v lc
  end.

(** The assignment [unit->lastUpcCommands = v]. *)
Definition set_lastUpcCommands (v : Z) (u : t) : t :=
  match u with
  | Unit i px py d g m e ls ty c up re rb ru a ac ad f vx vy gc air o li _ =>
      Unit i px py d g m e ls ty c up re rb ru a ac ad f vx vy gc air o li v
  end.

(** A live unit of ours with no flags set. *)
Definition blank (i : Z) (ty : BuildType) : t :=
  Unit i 0 0 false false true false 0 ty None None None 0 0 None 0 None 0
       f64_0 f64_0 0 0 [] kInvalidUpcId 0.

End Unit.
Abbreviation Unit := Unit.t.
