(* ===== verification/UnitsInfo.v ===== *)
(** * The units of the game and their groups ([src/unitsinfo.cpp])

    [UnitsInfo] keeps one object per unit ever seen, brings the objects up to
    date with every frame, and sorts them into containers (live, visible,
    hidden, my workers, enemies, ...) so that modules iterate over the units
    they need.  A unit stores its position in each container, and leaves one by
    swapping places with the last member.

    Modelled: [updateUnit] (without the speed estimate), [updateGroups], and
    [update] for the default configuration, without position inference and
    without map hack, up to the lists of units in sight.  A [Unit*] is the
    identifier of the unit, as [unitsMap_] never moves or erases an object. *)

From S2P Require Import Prelude Floats Geometry BuildTypes.

Module UnitsInfo.

(** ** Data *)

(** [src/3rdparty/torchcraft/include/torchcraft/frame.h:54-58] Order *)
Record order := Order { order_type : Z; targetId : Z }.

(** The members of a unit of the game the code reads.

    [src/3rdparty/torchcraft/include/torchcraft/frame.h:81-106] Unit *)
Record tcunit := TcUnit {
  tc_id : Z; tc_x : Z; tc_y : Z; tc_playerId : Z; tc_type : Z; tc_flags : Z;
  tc_groundCD : Z; tc_airCD : Z; tc_pixel_x : Z; tc_pixel_y : Z;
  tc_buildTechUpgradeType : Z; tc_remainingBuildTrainTime : Z; tc_remainingUpgradeResearchTime : Z;
  tc_associatedUnit : Z; tc_associatedCount : Z; tc_orders : list order }.

(** What [updateUnit] assigns anew whenever the unit is in the frame. *)
Record seen := Seen {
  id : Z; x : Z; y : Z; playerId : Z; isMine : bool; isEnemy : bool; isNeutral : bool;
  type : option BuildType; buildX : Z; buildY : Z;
  constructingType : option BuildType; upgradingType : option BuildType; researchingType : option BuildType;
  remainingBuildTrainTime : Z; remainingUpgradeResearchTime : Z;
  associatedUnit : option Z; associatedCount : Z; addon : option Z;
  sightRange : Z; hasCollision : bool; lastSeenPos : Z * Z; unit : tcunit }.

(** [src/src/unitsinfo.h:35-110] Unit *)
Record obj := Obj {
  info : seen;
  visible : bool; dead : bool; gone : bool;
  firstSeen : Z; lastSeen : Z; goneFrame : Z; lastLarvaSpawn : Z; lastAttacked : Z;
  attackingTarget : option Z; beingAttackedByEnemies : list Z;
  containerIndices : list Z }.

(** [src/src/unitsinfo.h:106-106] Unit::invalidIndex *)
Definition invalidIndex : Z := 2 ^ 64 - 1.

Definition tc0 : tcunit := TcUnit 0 0 0 0 0 0 0 0 0 0 0 0 0 0 0 [].
(** [src/src/unitsinfo.h:108-110] Unit::Unit *)
Definition newUnit : obj :=
  Obj (Seen (-1) 0 0 (-1) false false false None 0 0 None None None 0 0 None 0 None 0 true (0, 0) tc0)
    false false false 0 0 0 0 0 None [] (replicate 16 invalidIndex).

(** Assignments to members. *)
Definition set_info (v : seen) (o : obj) : obj :=
  Obj v (visible o) (dead o) (gone o) (firstSeen o) (lastSeen o) (goneFrame o) (lastLarvaSpawn o)
    (lastAttacked o) (attackingTarget o) (beingAttackedByEnemies o) (containerIndices o).
Definition set_visible (v : bool) (o : obj) : obj :=
  Obj (info o) v (dead o) (gone o) (firstSeen o) (lastSeen o) (goneFrame o) (lastLarvaSpawn o)
    (lastAttacked o) (attackingTarget o) (beingAttackedByEnemies o) (containerIndices o).
Definition set_dead (v : bool) (o : obj) : obj :=
  Obj (info o) (visible o) v (gone o) (firstSeen o) (lastSeen o) (goneFrame o) (lastLarvaSpawn o)
    (lastAttacked o) (attackingTarget o) (beingAttackedByEnemies o) (containerIndices o).
Definition set_gone (v : bool) (o : obj) : obj :=
  Obj (info o) (visible o) (dead o) v (firstSeen o) (lastSeen o) (goneFrame o) (lastLarvaSpawn o)
    (lastAttacked o) (attackingTarget o) (beingAttackedByEnemies o) (containerIndices o).
Definition set_firstSeen (v : Z) (o : obj) : obj :=
  Obj (info o) (visible o) (dead o) (gone o) v (lastSeen o) (goneFrame o) (lastLarvaSpawn o)
    (lastAttacked o) (attackingTarget o) (beingAttackedByEnemies o) (containerIndices o).
Definition set_lastSeen (v : Z) (o : obj) : obj :=
  Obj (info o) (visible o) (dead o) (gone o) (firstSeen o) v (goneFrame o) (lastLarvaSpawn o)
    (lastAttacked o) (attackingTarget o) (beingAttackedByEnemies o) (containerIndices o).
Definition set_goneFrame (v : Z) (o : obj) : obj :=
  Obj (info o) (visible o) (dead o) (gone o) (firstSeen o) (lastSeen o) v (lastLarvaSpawn o)
    (lastAttacked o) (attackingTarget o) (beingAttackedByEnemies o) (containerIndices o).
Definition set_lastLarvaSpawn (v : Z) (o : obj) : obj :=
  Obj (info o) (visible o) (dead o) (gone o) (firstSeen o) (lastSeen o) (goneFrame o) v
    (lastAttacked o) (attackingTarget o) (beingAttackedByEnemies o) (containerIndices o).
Definition set_lastAttacked (v : Z) (o : obj) : obj :=
  Obj (info o) (visible o) (dead o) (gone o) (firstSeen o) (lastSeen o) (goneFrame o) (lastLarvaSpawn o)
    v (attackingTarget o) (beingAttackedByEnemies o) (containerIndices o).
Definition set_attackingTarget (v : option Z) (o : obj) : obj :=
  Obj (info o) (visible o) (dead o) (gone o) (firstSeen o) (lastSeen o) (goneFrame o) (lastLarvaSpawn o)
    (lastAttacked o) v (beingAttackedByEnemies o) (containerIndices o).
Definition set_beingAttacked (v : list Z) (o : obj) : obj :=
  Obj (info o) (visible o) (dead o) (gone o) (firstSeen o) (lastSeen o) (goneFrame o) (lastLarvaSpawn o)
    (lastAttacked o) (attackingTarget o) v (containerIndices o).
Definition set_indices (v : list Z) (o : obj) : obj :=
  Obj (info o) (visible o) (dead o) (gone o) (firstSeen o) (lastSeen o) (goneFrame o) (lastLarvaSpawn o)
    (lastAttacked o) (attackingTarget o) (beingAttackedByEnemies o) v.

(** ** Flags *)

(** [src/3rdparty/torchcraft/include/torchcraft/frame.h:113-113] Unit::Flags *)
Definition BeingConstructed : Z := Z.shiftl 1 3.
(** [src/3rdparty/torchcraft/include/torchcraft/frame.h:116-116] Unit::Flags *)
Definition Blind : Z := Z.shiftl 1 6.
(** [src/3rdparty/torchcraft/include/torchcraft/frame.h:118-118] Unit::Flags *)
Definition Burrowed : Z := Z.shiftl 1 8.
(** [src/3rdparty/torchcraft/include/torchcraft/frame.h:122-122] Unit::Flags *)
Definition Completed : Z := Z.shiftl 1 12.
(** [src/3rdparty/torchcraft/include/torchcraft/frame.h:127-127] Unit::Flags *)
Definition Flying : Z := Z.shiftl 1 17.
(** [src/3rdparty/torchcraft/include/torchcraft/frame.h:137-137] Unit::Flags *)
Definition Lifted : Z := Z.shiftl 1 27.
(** [src/3rdparty/torchcraft/include/torchcraft/frame.h:138-138] Unit::Flags *)
Definition Loaded : Z := Z.shiftl 1 28.
(** [src/3rdparty/torchcraft/include/torchcraft/frame.h:139-139] Unit::Flags *)
Definition LockedDown : Z := Z.shiftl 1 29.
(** [src/3rdparty/torchcraft/include/torchcraft/frame.h:140-140] Unit::Flags *)
Definition Maelstrommed : Z := Z.shiftl 1 30.
(** [src/3rdparty/torchcraft/include/torchcraft/frame.h:141-141] Unit::Flags *)
Definition Morphing : Z := Z.shiftl 1 31.
(** [src/3rdparty/torchcraft/include/torchcraft/frame.h:146-146] Unit::Flags *)
Definition Powered : Z := Z.shiftl 1 36.
(** [src/3rdparty/torchcraft/include/torchcraft/frame.h:148-148] Unit::Flags *)
Definition Researching : Z := Z.shiftl 1 38.
(** [src/3rdparty/torchcraft/include/torchcraft/frame.h:152-152] Unit::Flags *)
Definition Stasised : Z := Z.shiftl 1 42.
(** [src/3rdparty/torchcraft/include/torchcraft/frame.h:154-154] Unit::Flags *)
Definition Stuck : Z := Z.shiftl 1 44.
(** [src/3rdparty/torchcraft/include/torchcraft/frame.h:161-161] Unit::Flags *)
Definition Upgrading : Z := Z.shiftl 1 51.

Definition flags (o : obj) : Z := tc_flags (unit (info o)).
(** [src/src/unitsinfo.h:112-114] Unit::flag *)
Definition flag (o : obj) (n : Z) : bool := negb (Z.land (flags o) n =? 0).
(** [src/src/unitsinfo.h:128-130] Unit::completed *)
Definition completed (o : obj) : bool := flag o Completed.
(** [src/src/unitsinfo.h:134-136] Unit::morphing *)
Definition morphing (o : obj) : bool := flag o Morphing.
(** [src/src/unitsinfo.h:140-151] Unit::active *)
Definition active (o : obj) : bool :=
  if dead o then false else
  let flip := Z.lor Powered Completed in
  let mask := Z.lor BeingConstructed (Z.lor Completed (Z.lor Loaded (Z.lor LockedDown
    (Z.lor Maelstrommed (Z.lor Powered (Z.lor Stasised Stuck)))))) in
  Z.land (Z.lxor (flags o) flip) mask =? 0.
(** [src/src/unitsinfo.h:152-154] Unit::powered *)
Definition powered (o : obj) : bool := flag o Powered.
(** [src/src/unitsinfo.h:155-157] Unit::lifted *)
Definition lifted (o : obj) : bool := flag o Lifted.
(** [src/src/unitsinfo.h:122-124] Unit::burrowed *)
Definition burrowed (o : obj) : bool := flag o Burrowed.
(** [src/src/unitsinfo.h:170-172] Unit::upgrading *)
Definition upgrading (o : obj) : bool := flag o Upgrading.
(** [src/src/unitsinfo.h:173-175] Unit::researching *)
Definition researching (o : obj) : bool := flag o Researching.
(** [src/src/unitsinfo.h:176-178] Unit::blind *)
Definition blind (o : obj) : bool := flag o Blind.
(** [src/src/unitsinfo.h:182-184] Unit::flying *)
Definition flying (o : obj) : bool := flag o Flying.

(** ** Build types by number *)

(** The conversion of a number to a BWAPI type maps unknown ones to [Unknown].

    [src/3rdparty/openbw/bwapi/bwapi/include/BWAPI/Type.h:66-66] Type::Type *)
Definition bwapi_id (unknown n : Z) : Z := if (n <? 0) || (unknown <? n) then unknown else n.

(** [src/src/buildtype.cpp:54-60] getBuildType *)
Definition getUnitBuildType (n : Z) : option BuildType :=
  let i := bwapi_id 233 n in if i =? 228 then None else Some (BuildType.UnitType i).

(** [src/src/buildtype.cpp:184-192] getBuildType *)
Definition getTechBuildType (n : Z) : option BuildType :=
  let i := bwapi_id 46 n in if i =? 44 then None else Some (BuildType.TechType i).

(** [src/src/buildtype.cpp:218-226] getBuildType *)
Definition getUpgradeBuildType (n level : Z) : res (option BuildType) :=
  let i := bwapi_id 62 n in
  if i =? 61 then Ok None else
  let idx := 63 * (level - 1) + i in
  if (0 <=? idx) && (idx <? 63 * 3) then Ok (Some (BuildType.UpgradeType i level))
  else Throw "array::at: __n (which is %zu) >= _Nm (which is %zu)".

(** [src/src/utils/commands.h:105-305] tcOrderIsAttack *)
Definition tcOrderIsAttack (orderId : Z) : bool :=
  existsb (Z.eqb orderId)
    [2; 3; 4; 5; 8; 9; 10; 11; 12; 14; 18; 19; 20; 21; 22; 27; 28; 29; 53; 54; 56; 57; 59; 60; 61; 62;
     64; 65; 107; 113; 114; 115; 120; 121; 122; 127; 128; 134; 136; 143; 152; 157; 158; 159; 182; 184; 185].

(** ** State *)

(** What [UnitsInfo] asks of the game state in a frame.  [upgradeLevel] is
    absent for a number that is no upgrade; [tileVisible] is absent outside of
    the map. *)
Record frame := Frame {
  currentFrame : Z; myPlayerId : Z; neutralId : Z; mapWidth : Z; mapHeight : Z;
  frame_units : list (Z * tcunit); deaths : list Z;
  upgradeLevel : Z → option Z; tileVisible : Z → Z → option bool }.

(** [src/src/unitsinfo.h:414-444] UnitsInfo *)
Record state := State {
  units : gmap Z obj;
  containers : list (list Z);
  newUnits : list Z; startedMorphingUnits : list Z; completedOrMorphedUnits : list Z;
  showUnits : list Z; hideUnits : list Z; destroyUnits : list Z;
  myUnitsOfType_ : gmap Z (list Z); myCompletedUnitsOfType_ : gmap Z (list Z) }.

Definition init : state := State ∅ (replicate 16 []) [] [] [] [] [] [] ∅ ∅.

Definition set_units (s : state) (us : gmap Z obj) : state :=
  State us (containers s) (newUnits s) (startedMorphingUnits s) (completedOrMorphedUnits s)
    (showUnits s) (hideUnits s) (destroyUnits s) (myUnitsOfType_ s) (myCompletedUnitsOfType_ s).
Definition set_containers (s : state) (cs : list (list Z)) : state :=
  State (units s) cs (newUnits s) (startedMorphingUnits s) (completedOrMorphedUnits s)
    (showUnits s) (hideUnits s) (destroyUnits s) (myUnitsOfType_ s) (myCompletedUnitsOfType_ s).
Definition set_events (s : state) (nw mo co sh hi de : list Z) : state :=
  State (units s) (containers s) nw mo co sh hi de (myUnitsOfType_ s) (myCompletedUnitsOfType_ s).
Definition set_myGroups (s : state) (g c : gmap Z (list Z)) : state :=
  State (units s) (containers s) (newUnits s) (startedMorphingUnits s) (completedOrMorphedUnits s)
    (showUnits s) (hideUnits s) (destroyUnits s) g c.

(** [src/src/unitsinfo.cpp:226-232] UnitsInfo::getUnit *)
Definition getUnit (s : state) (i : Z) : option Z :=
  match units s !! i with Some _ => Some i | None => None end.

(** [*u], and an assignment to members of [*u]. *)
Definition deref (s : state) (u : Z) : res obj := of_option (units s !! u).
Definition modify (s : state) (u : Z) (f : obj → obj) : res state :=
  let? o := deref s u in Ok (set_units s (<[u := f o]> (units s))).

(** ** Containers *)

(** [src/src/unitsinfo.h:419-419] UnitsInfo::allUnitsEver_ *)
Definition allUnitsEver_ : nat := 0.
(** [src/src/unitsinfo.h:420-420] UnitsInfo::liveUnits_ *)
Definition liveUnits_ : nat := 1.
(** [src/src/unitsinfo.h:421-421] UnitsInfo::visibleUnits_ *)
Definition visibleUnits_ : nat := 2.
(** [src/src/unitsinfo.h:422-422] UnitsInfo::hiddenUnits_ *)
Definition hiddenUnits_ : nat := 3.
(** [src/src/unitsinfo.h:423-423] UnitsInfo::visibleBuildings_ *)
Definition visibleBuildings_ : nat := 4.
(** [src/src/unitsinfo.h:424-424] UnitsInfo::resourceUnits_ *)
Definition resourceUnits_ : nat := 5.
(** [src/src/unitsinfo.h:426-426] UnitsInfo::myUnits_ *)
Definition myUnits_ : nat := 6.
(** [src/src/unitsinfo.h:427-427] UnitsInfo::myWorkers_ *)
Definition myWorkers_ : nat := 7.
(** [src/src/unitsinfo.h:428-428] UnitsInfo::myBuildings_ *)
Definition myBuildings_ : nat := 8.
(** [src/src/unitsinfo.h:429-429] UnitsInfo::myResourceDepots_ *)
Definition myResourceDepots_ : nat := 9.
(** [src/src/unitsinfo.h:431-431] UnitsInfo::enemyUnits_ *)
Definition enemyUnits_ : nat := 10.
(** [src/src/unitsinfo.h:432-432] UnitsInfo::visibleEnemyUnits_ *)
Definition visibleEnemyUnits_ : nat := 11.
(** [src/src/unitsinfo.h:434-434] UnitsInfo::neutralUnits_ *)
Definition neutralUnits_ : nat := 12.

Definition container (s : state) (k : nat) : list Z := default [] (containers s !! k).

(** [src/src/unitsinfo.cpp:737-756] UnitsInfo::updateGroups *)
Definition updateUnitContainer (s : state) (u : Z) (k : nat) (contain : bool) : res state :=
  let? o := deref s u in
  let? cont := of_option (containers s !! k) in
  let? uIndex := of_option (containerIndices o !! k) in
  let size := Z.of_nat (length cont) in
  let setIndex v n s := modify s v (λ o, set_indices (<[k := n]> (containerIndices o)) o) in
  if contain then
    if uIndex =? invalidIndex then
      let? s := setIndex u size s in
      Ok (set_containers s (<[k := cont ++ [u]]> (containers s)))
    else Ok s
  else
    if negb (uIndex =? invalidIndex) then
      let? back := of_option (last cont) in
      let? r :=
        if negb (uIndex =? size - 1) then
          let? s := setIndex back uIndex s in
          if uIndex <? size then Ok (s, <[Z.to_nat uIndex := back]> cont) else Undefined
        else Ok (s, cont) in
      let '(s, cont) := r in
      let? s := setIndex u invalidIndex s in
      Ok (set_containers s (<[k := removelast cont]> (containers s)))
    else Ok s.

(** The attributes of a unit type that [UnitsInfo] and [TilesInfo] read.

    [src/src/buildtype.h:81-113] BuildType *)
Class Attributes := {
  isResourceContainer : BuildType → bool;
  canBuildAddon : BuildType → bool;
  tileWidth : BuildType → Z;
  tileHeight : BuildType → Z;
  typeSightRange : BuildType → Z;
  isFlyer : BuildType → bool;
  producesCreep : BuildType → bool;
  dimensionLeft : BuildType → Z;
  dimensionUp : BuildType → Z
}.

Section units.
Context {table : BuildType.Table} {attributes : Attributes}.

(** *** Which containers a unit belongs to *)

(** The conditions [updateGroups] passes for each container.

    [src/src/unitsinfo.cpp:758-786] UnitsInfo::updateGroups *)
Definition member (f : frame) (o : obj) (ty : BuildType) (k : nat) : bool :=
  match k with
  | 0%nat => true
  | 1%nat => negb (dead o)
  | 2%nat => negb (dead o) && visible o
  | 3%nat => negb (dead o) && negb (visible o)
  | 4%nat => negb (dead o) && visible o && BuildType.isBuilding ty
  | 5%nat => negb (dead o) && negb (gone o) && isResourceContainer ty
  | 6%nat => negb (dead o) && visible o && (playerId (info o) =? myPlayerId f) && powered o
  | 7%nat => negb (dead o) && visible o && (playerId (info o) =? myPlayerId f) && BuildType.isWorker ty && completed o
  | 8%nat => negb (dead o) && visible o && (playerId (info o) =? myPlayerId f) && BuildType.isBuilding ty
  | 9%nat => negb (dead o) && visible o && (playerId (info o) =? myPlayerId f) && BuildType.isResourceDepot ty
  | 10%nat => negb (dead o) && isEnemy (info o)
  | 11%nat => negb (dead o) && visible o && isEnemy (info o)
  | 12%nat => negb (dead o) && isNeutral (info o)
  | _ => false
  end.

(** [src/src/unitsinfo.cpp:736-787] UnitsInfo::updateGroups *)
Definition updateGroups (f : frame) (s : state) (u : Z) : res state :=
  rfold (λ s k,
    let? o := deref s u in
    let? ty := of_option (type (info o)) in
    updateUnitContainer s u k (member f o ty k)) (seq 0 13) s.

(** ** Bringing a unit up to date *)

(** [src/src/unitsinfo.cpp:560-577] unitSightRange *)
Definition isMorphingBuilding (ty : BuildType) : bool :=
  existsb (λ t, bool_decide (ty = t))
    [BuildType.Zerg_Hive; BuildType.Zerg_Lair; BuildType.Zerg_Greater_Spire;
     BuildType.Zerg_Spore_Colony; BuildType.Zerg_Sunken_Colony].

Definition hasUpgrade (f : frame) (up : Z) : bool :=
  match upgradeLevel f up with Some n => negb (n =? 0) | None => false end.

(** [src/src/unitsinfo.cpp:559-607] unitSightRange *)
Definition unitSightRange (f : frame) (o : obj) (ty : BuildType) : Z :=
  if BuildType.isBuilding ty && negb (lifted o) && negb (completed o) && negb (isMorphingBuilding ty) then 4 * 4
  else if blind o then 4 * 2
  else if bool_decide (ty = BuildType.Terran_Ghost) && hasUpgrade f 20 then 4 * 11
  else if bool_decide (ty = BuildType.Zerg_Overlord) && hasUpgrade f 25 then 4 * 11
  else if bool_decide (ty = BuildType.Protoss_Observer) && hasUpgrade f 38 then 4 * 11
  else if bool_decide (ty = BuildType.Protoss_Scout) && hasUpgrade f 41 then 4 * 11
  else typeSightRange ty.

(** [src/src/unitsinfo.cpp:618-632] UnitsInfo::updateUnit *)
Definition clamp (size v : Z) : Z :=
  let v := if v <? 0 then 0 else v in if v >=? size then size - 1 else v.

(** [src/src/unitsinfo.cpp:637-639] UnitsInfo::updateUnit *)
Definition updatedType (o : obj) (tcu : tcunit) : option BuildType :=
  match type (info o) with
  | Some ty => if BuildType.unit ty =? tc_type tcu then Some ty else getUnitBuildType (tc_type tcu)
  | None => getUnitBuildType (tc_type tcu)
  end.

(** [src/src/unitsinfo.cpp:652-671] UnitsInfo::updateUnit *)
Definition producing (f : frame) (o : obj) (mine : bool) (tcu : tcunit)
    : res (option BuildType * option BuildType * option BuildType) :=
  if mine then
    if upgrading o then
      match upgradeLevel f (tc_buildTechUpgradeType tcu) with
      | Some n => let? t := getUpgradeBuildType (tc_buildTechUpgradeType tcu) (n + 1) in Ok (None, t, None)
      | None => Ok (None, None, None)
      end
    else if researching o then Ok (None, None, getTechBuildType (tc_buildTechUpgradeType tcu))
    else Ok (getUnitBuildType (tc_buildTechUpgradeType tcu), None, None)
  else Ok (None, None, None).

(** [src/src/unitsinfo.cpp:683-696] UnitsInfo::updateUnit *)
Fixpoint updateAttack (f : frame) (s : state) (u : Z) (orders : list order) : res state :=
  match orders with
  | [] => Ok s
  | o :: orders =>
      if tcOrderIsAttack (order_type o) then
        match getUnit s (targetId o) with
        | Some t =>
            let? s := modify s t (λ v, set_beingAttacked (beingAttackedByEnemies v ++ [u]) v) in
            let? s := modify s u (set_attackingTarget (Some t)) in
            modify s t (set_lastAttacked (currentFrame f))
        | None => updateAttack f s u orders
        end
      else updateAttack f s u orders
  end.

(** [src/src/unitsinfo.cpp:712-716] UnitsInfo::updateUnit *)
Definition updateLarva (f : frame) (s : state) (u : Z) : res state :=
  let? o := deref s u in
  match associatedUnit (info o) with
  | Some h =>
      if (firstSeen o =? currentFrame f) && bool_decide (type (info o) = Some BuildType.Zerg_Larva)
      then modify s h (set_lastLarvaSpawn (firstSeen o)) else Ok s
  | None => Ok s
  end.

(** [src/src/unitsinfo.cpp:609-682] UnitsInfo::updateUnit *)
Definition updateUnit (f : frame) (s : state) (u : Z) (tcu : tcunit) : res state :=
  let? o := deref s u in
  let pid := tc_playerId tcu in
  let mine := pid =? myPlayerId f in
  let? ty := of_option (updatedType o tcu) in
  let attacked := if Z.max (tc_groundCD (unit (info o))) (tc_airCD (unit (info o))) <? Z.max (tc_groundCD tcu) (tc_airCD tcu)
                  then currentFrame f else lastAttacked o in
  let assoc := getUnit s (tc_associatedUnit tcu) in
  (* [u->unit = tcu], so that the flags are the new ones *)
  let o1 := set_info (Seen 0 0 0 0 false false false None 0 0 None None None 0 0 None 0 None 0 false (0, 0) tcu) o in
  let? types := producing f o1 mine tcu in
  let '(constructing, upgradingT, researchingT) := types in
  let i := Seen (tc_id tcu) (clamp (mapWidth f) (tc_x tcu)) (clamp (mapHeight f) (tc_y tcu)) pid
    mine (negb mine && negb (pid =? neutralId f)) (pid =? neutralId f) (Some ty)
    (Z.quot (tc_pixel_x tcu - tileWidth ty * 16) 8) (Z.quot (tc_pixel_y tcu - tileHeight ty * 16) 8)
    constructing upgradingT researchingT (tc_remainingBuildTrainTime tcu) (tc_remainingUpgradeResearchTime tcu)
    assoc (tc_associatedCount tcu) (if canBuildAddon ty then assoc else None)
    (unitSightRange f o1 ty) (negb (flying o1) && negb (burrowed o1)) (tc_x tcu, tc_y tcu) tcu in
  let? s := modify s u (λ o, set_lastAttacked attacked (set_lastSeen (currentFrame f) (set_visible true (set_info i o)))) in
  let? s := updateAttack f s u (tc_orders tcu) in
  updateLarva f s u.

(** ** A frame *)

(** [src/src/unitsinfo.cpp:288-294] UnitsInfo::update *)
Definition clear_events (s : state) : state := set_events s [] [] [] [] [] [].

(** [unitsMap_[id]]: finds the object or inserts a new one. *)
Definition find_or_insert (s : state) (i : Z) : state :=
  match units s !! i with Some _ => s | None => set_units s (<[i := newUnit]> (units s)) end.

(** [src/src/unitsinfo.cpp:331-339] UnitsInfo::update *)
Definition clear_lists (s : state) (p : Z * tcunit) : res state :=
  modify (find_or_insert s p.1) p.1 (set_beingAttacked []).

Definition push_if (b : bool) (u : Z) (l : list Z) : list Z := if b then l ++ [u] else l.

(** [src/src/unitsinfo.cpp:341-395] UnitsInfo::update *)
Definition see_unit (f : frame) (acc : state * bool) (p : Z * tcunit) : res (state * bool) :=
  let '(s, updateMyGroups) := acc in
  let '(u, tcu) := p in
  let s := find_or_insert s u in
  let? o := deref s u in
  let isNew := match type (info o) with None => true | Some _ => false end in
  let? s := if isNew then modify s u (set_firstSeen (currentFrame f)) else Ok s in
  let? s := updateUnit f s u tcu in
  let? o' := deref s u in
  let typeChanged := negb (bool_decide (type (info o') = type (info o))) in
  let startsMorphing := morphing o' && (negb (morphing o) || typeChanged) in
  let? s := if typeChanged then modify s u (set_firstSeen (currentFrame f)) else Ok s in
  let stateChanged := negb (eqb (completed o') (completed o)) || negb (eqb (morphing o') (morphing o)) in
  let finished := (negb (completed o) && completed o') || (morphing o && negb (morphing o')) in
  let doUpdateGroups :=
    isNew || negb (visible o) || startsMorphing || typeChanged || stateChanged ||
    negb (eqb (active o') (active o)) || negb (playerId (info o') =? playerId (info o)) in
  let s := set_events s (push_if isNew u (newUnits s)) (push_if startsMorphing u (startedMorphingUnits s))
    (push_if (stateChanged && finished) u (completedOrMorphedUnits s))
    (push_if (negb (visible o)) u (showUnits s)) (hideUnits s) (destroyUnits s) in
  if doUpdateGroups then
    let? s := updateGroups f s u in
    Ok (s, updateMyGroups || (playerId (info o) =? myPlayerId f) || (playerId (info o') =? myPlayerId f))
  else Ok (s, updateMyGroups).

(** [src/src/unitsinfo.cpp:397-408] UnitsInfo::update *)
Definition see_death (f : frame) (acc : state * bool) (i : Z) : res (state * bool) :=
  let '(s, updateMyGroups) := acc in
  match getUnit s i with
  | Some u =>
      let? s := modify s u (λ o, set_goneFrame (currentFrame f) (set_dead true o)) in
      let s := set_events s (newUnits s) (startedMorphingUnits s) (completedOrMorphedUnits s)
        (showUnits s) (hideUnits s) (destroyUnits s ++ [u]) in
      let? s := updateGroups f s u in
      let? o := deref s u in
      Ok (s, updateMyGroups || isMine (info o))
  | None => Ok (s, updateMyGroups)
  end.

(** [src/src/unitsinfo.cpp:411-421] UnitsInfo::update *)
Definition see_visible (f : frame) (acc : state * list Z) (u : Z) : res (state * list Z) :=
  let '(s, needUpdateGroups) := acc in
  let? o := deref s u in
  let? s := if gone o then modify s u (set_gone false) else Ok s in
  let need := push_if (gone o) u needUpdateGroups in
  if negb (lastSeen o =? currentFrame f) then
    let? s := modify s u (set_visible false) in
    let s := set_events s (newUnits s) (startedMorphingUnits s) (completedOrMorphedUnits s)
      (showUnits s) (hideUnits s ++ [u]) (destroyUnits s) in
    Ok (s, need ++ [u])
  else Ok (s, need).

(** Looking at the tile where a hidden unit was last.  A change of the list
    that is being iterated over would invalidate the iterator.

    [src/src/unitsinfo.cpp:426-450] UnitsInfo::update *)
Definition see_hidden (f : frame) (s : state) (u : Z) : res state :=
  let? o := deref s u in
  if negb (gone o) then
    let seen := match tileVisible f (x (info o)) (y (info o)) with None => true | Some v => v end in
    if seen then
      if currentFrame f - goneFrame o >=? 40 then modify s u (set_goneFrame (currentFrame f))
      else if currentFrame f - goneFrame o >=? 20 then
        let? s := modify s u (set_gone true) in
        let? s' := updateGroups f s u in
        if bool_decide (container s' hiddenUnits_ = container s hiddenUnits_) then Ok s' else Undefined
      else Ok s
    else Ok s
  else Ok s.

(** [src/src/unitsinfo.cpp:510-515] UnitsInfo::update *)
Definition group_by_type (s : state) (keep : obj → bool) (g : gmap Z (list Z)) : res (gmap Z (list Z)) :=
  rfold (λ g u,
    let? o := deref s u in
    if keep o then
      let? ty := of_option (type (info o)) in
      Ok (<[BuildType.unit ty := default [] (g !! BuildType.unit ty) ++ [u]]> g)
    else Ok g) (container s myUnits_) ((λ _, []) <$> g).

(** [src/src/unitsinfo.cpp:509-524] UnitsInfo::update *)
Definition update_myGroups (s : state) : res state :=
  let? g := group_by_type s (λ _, true) (myUnitsOfType_ s) in
  let? c := group_by_type s completed (myCompletedUnitsOfType_ s) in
  Ok (set_myGroups s g c).

(** [src/src/unitsinfo.cpp:287-298] UnitsInfo::update *)
Definition update (f : frame) (s : state) : res state :=
  let s := clear_events s in
  let? s := rfold clear_lists (frame_units f) s in
  let? r := rfold (see_unit f) (frame_units f) (s, false) in
  let? r := rfold (see_death f) (deaths f) r in
  let '(s, updateMyGroups) := r in
  let? r := rfold (see_visible f) (container s visibleUnits_) (s, []) in
  let '(s, need) := r in
  let? s := rfold (updateGroups f) need s in
  let? s := rfold (see_hidden f) (container s hiddenUnits_) s in
  if updateMyGroups then update_myGroups s else Ok s.
End units.
End UnitsInfo.
