(* ===== verification/UnitGroups.v ===== *)
(** * The containers of [UnitsInfo] ([src/unitsinfo.cpp])

    The invariant that ties the containers to the positions the units store,
    and the refinement of [updateGroups] to sets: after it, a unit is in exactly
    the containers whose condition holds for it, and the other units are where
    they were. *)

From S2P Require Import Prelude Floats BuildTypes UnitsInfo.

Module UnitGroups.
Import UnitsInfo.

(** ** Invariant *)

(** The position a unit stores for container [k]. *)
Definition index (us : gmap Z obj) (u : Z) (k : nat) : Z :=
  match us !! u with Some o => default invalidIndex (containerIndices o !! k) | None => invalidIndex end.

(** A container and the stored positions agree. *)
Record group_ok (us : gmap Z obj) (cont : list Z) (k : nat) : Prop := {
  g_known : ∀ u, u ∈ cont → is_Some (us !! u);
  g_index : ∀ j u, cont !! j = Some u → index us u k = Z.of_nat j;
  g_member : ∀ u, index us u k ≠ invalidIndex → 0 ≤ index us u k ∧ cont !! Z.to_nat (index us u k) = Some u
}.

Record WF (s : state) : Prop := {
  wf_containers : length (containers s) = 16%nat;
  wf_unit : ∀ u o, units s !! u = Some o → length (containerIndices o) = 16%nat ∧ in_int u;
  wf_group : ∀ k cont, (k < 13)%nat → containers s !! k = Some cont → group_ok (units s) cont k
}.

Lemma init_wf : WF init.
Proof.
  constructor; simpl; [done|by intros u o ?|].
  intros k cont Hk Hc. apply (lookup_replicate 16) in Hc as [-> _].
  constructor; [by intros u ?%not_elem_of_nil|by intros j u ?|].
  intros u. unfold index. by rewrite lookup_empty.
Qed.

(** ** Lemmas about one container *)

Lemma group_nodup us cont k : group_ok us cont k → NoDup cont.
Proof.
  intros H. apply NoDup_alt. intros i j u Hi Hj.
  pose proof (g_index _ _ _ H _ _ Hi). pose proof (g_index _ _ _ H _ _ Hj). lia.
Qed.

(** Identifiers are 32-bit integers, so a container has a size. *)
Lemma group_size us cont k :
  group_ok us cont k → (∀ u, is_Some (us !! u) → in_int u) → Z.of_nat (length cont) ≤ 2 ^ 32.
Proof.
  intros H Hint. assert (cont ⊆+ seqZ (- 2 ^ 31) (2 ^ 32)) as Hs.
  { apply NoDup_submseteq; [by eapply group_nodup|]. intros u Hu. apply elem_of_seqZ.
    destruct (Hint u (g_known _ _ _ H u Hu)). lia. }
  apply submseteq_length in Hs. rewrite length_seqZ in Hs. lia.
Qed.

Lemma group_member us cont k u :
  group_ok us cont k → (∀ u, is_Some (us !! u) → in_int u) →
  u ∈ cont ↔ index us u k ≠ invalidIndex.
Proof.
  intros H Hint. split.
  - intros [j Hj]%list_elem_of_lookup. rewrite (g_index _ _ _ H _ _ Hj).
    pose proof (group_size _ _ _ H Hint). apply lookup_lt_Some in Hj. unfold invalidIndex. lia.
  - intros Hi. apply (g_member _ _ _ H) in Hi as [_ Hi]. by eapply list_elem_of_lookup_2.
Qed.

Definition at_index (k : nat) (n : Z) (o : obj) : obj := set_indices (<[k := n]> (containerIndices o)) o.

Lemma index_insert us v o k n w k' :
  us !! v = Some o → (k < length (containerIndices o))%nat →
  index (<[v := at_index k n o]> us) w k' = if decide (w = v ∧ k' = k) then n else index us w k'.
Proof.
  intros Hv Hk. unfold index. destruct (decide (w = v)) as [->|Hw].
  - rewrite lookup_insert_eq, Hv. simpl. destruct (decide (k' = k)) as [->|Hk'].
    + rewrite list_lookup_insert_eq by done. by rewrite decide_True.
    + rewrite list_lookup_insert_ne by done. by rewrite decide_False by tauto.
  - rewrite lookup_insert_ne by done. by rewrite decide_False by tauto.
Qed.

(** A container whose positions did not change. *)
Lemma group_ext us us' cont k :
  (∀ u, is_Some (us !! u) → is_Some (us' !! u)) → (∀ u, index us' u k = index us u k) →
  group_ok us cont k → group_ok us' cont k.
Proof.
  intros Hd Hi []. constructor; [eauto|intros; rewrite Hi; eauto|intros u; rewrite Hi; eauto].
Qed.

(** [push_back] *)
Lemma group_push us cont k u o :
  group_ok us cont k → us !! u = Some o → (k < length (containerIndices o))%nat → index us u k = invalidIndex →
  (∀ u, is_Some (us !! u) → in_int u) →
  group_ok (<[u := at_index k (Z.of_nat (length cont)) o]> us) (cont ++ [u]) k.
Proof.
  intros H Hu Hk Hi Hint.
  assert (u ∉ cont) as Hn by (rewrite (group_member _ _ _ _ H Hint), Hi; naive_solver).
  pose proof (λ w, index_insert us u o k (Z.of_nat (length cont)) w k Hu Hk) as Hix. destruct H. constructor.
  - intros v [Hv|Hv]%elem_of_app; apply lookup_insert_is_Some'; [eauto|left; set_solver].
  - intros j v Hj. rewrite Hix. apply lookup_snoc_Some in Hj as [[Hlt Hj]|[-> ->]].
    + rewrite decide_False; [eauto|]. intros [-> _]. apply Hn. by eapply list_elem_of_lookup_2.
    + by rewrite decide_True.
  - intros v. rewrite Hix. destruct (decide (v = u ∧ k = k)) as [[-> _]|Hd].
    + intros _. split; [lia|]. rewrite Nat2Z.id. apply snoc_lookup.
    + intros [H0 Hv]%g_member0. split; [done|]. by apply lookup_app_l_Some.
Qed.

(** [pop_back] of the last member. *)
Lemma group_pop us cont k u o :
  group_ok us (cont ++ [u]) k → us !! u = Some o → (k < length (containerIndices o))%nat →
  group_ok (<[u := at_index k invalidIndex o]> us) cont k.
Proof.
  intros H Hu Hk. pose proof (group_nodup _ _ _ H) as Hnd. apply NoDup_app in Hnd as (_ & Hnd & _).
  pose proof (λ w, index_insert us u o k invalidIndex w k Hu Hk) as Hix. destruct H. constructor.
  - intros v Hv. apply lookup_insert_is_Some'. right. apply g_known0. set_solver.
  - intros j v Hj. rewrite Hix. rewrite decide_False.
    + apply g_index0. by apply lookup_app_l_Some.
    + intros [-> _]. apply (Hnd u); [by eapply list_elem_of_lookup_2|set_solver].
  - intros v. rewrite Hix. destruct (decide (v = u ∧ k = k)) as [[-> _]|Hd]; [done|].
    intros Hv. destruct (g_member0 v Hv) as [H0 Hl].
    split; [done|]. apply lookup_snoc_Some in Hl as [[_ Hl]|[_ ->]]; [done|]. by destruct Hd.
Qed.

(** The last member takes the place of [u], and [u] the last place. *)
Lemma group_swap us cont k u o back ob i :
  group_ok us (cont ++ [back]) k → u ≠ back → index us u k = Z.of_nat i →
  us !! u = Some o → us !! back = Some ob →
  (k < length (containerIndices o))%nat → (k < length (containerIndices ob))%nat →
  (∀ u, is_Some (us !! u) → in_int u) → Z.of_nat i ≠ invalidIndex →
  (i < length cont)%nat ∧
  group_ok (<[u := at_index k (Z.of_nat (length cont)) o]> (<[back := at_index k (Z.of_nat i) ob]> us))
    (<[i := back]> cont ++ [u]) k.
Proof.
  intros H Hne Hi Hu Hb Hk Hkb Hint Hinv.
  pose proof (group_nodup _ _ _ H) as Hnd. apply NoDup_app in Hnd as (Hnd & Hbk & _).
  destruct (g_member _ _ _ H u) as [_ Hl]; [by rewrite Hi|]. rewrite Hi, Nat2Z.id in Hl.
  assert (cont !! i = Some u) as Hci by (apply lookup_snoc_Some in Hl as [[_ Hl]|[_ ?]]; [done|congruence]).
  pose proof (lookup_lt_Some _ _ _ Hci) as Hlt. split; [done|].
  assert (∀ w, index (<[u := at_index k (Z.of_nat (length cont)) o]> (<[back := at_index k (Z.of_nat i) ob]> us)) w k =
    if decide (w = u) then Z.of_nat (length cont) else if decide (w = back) then Z.of_nat i else index us w k) as Hix.
  { intros w. rewrite index_insert; [|by rewrite lookup_insert_ne|done].
    rewrite (index_insert us back ob k (Z.of_nat i) w k Hb Hkb).
    repeat case_decide; try tauto; destruct_and?; congruence. }
  assert (index us back k = Z.of_nat (length cont)) as Hbi by (apply (g_index _ _ _ H); apply snoc_lookup).
  destruct H. constructor.
  - intros v Hv. apply lookup_insert_is_Some'. destruct (decide (u = v)); [by left|right].
    apply lookup_insert_is_Some'. destruct (decide (back = v)); [by left|right]. apply g_known0.
    apply elem_of_app in Hv as [Hv|Hv]; [|set_solver].
    apply list_elem_of_lookup in Hv as [j Hj]. apply list_lookup_insert_Some in Hj as [(-> & -> & _)|[_ Hj]]; [done|].
    apply elem_of_app. left. by eapply list_elem_of_lookup_2.
  - intros j v Hj. rewrite Hix. apply lookup_snoc_Some in Hj as [[Hjl Hj]|[-> ->]]; [|by rewrite decide_True, length_insert].
    apply list_lookup_insert_Some in Hj as [(-> & <- & _)|[Hji Hj]].
    + by rewrite decide_False, decide_True.
    + rewrite decide_False by (intros ->; apply Hji; by eapply NoDup_lookup).
      rewrite decide_False; [apply g_index0; by apply lookup_app_l_Some|].
      intros ->. apply (Hbk back); [by eapply list_elem_of_lookup_2|set_solver].
  - intros v. rewrite Hix. case_decide as H1; [|case_decide as H2].
    + subst v. intros _. split; [lia|]. rewrite Nat2Z.id, <-(length_insert cont i back). apply snoc_lookup.
    + subst v. intros _. split; [lia|]. rewrite Nat2Z.id. apply lookup_app_l_Some.
      by rewrite list_lookup_insert_eq.
    + intros Hv. destruct (g_member0 v Hv) as [H0 Hl']. split; [done|].
      apply lookup_snoc_Some in Hl' as [[Hjl Hl']|[_ ?]]; [|congruence]. apply lookup_app_l_Some.
      rewrite list_lookup_insert_ne; [done|]. intros ->. congruence.
Qed.

(** ** Changing a container *)

(** A unit without its positions, and the rest of the state. *)
Definition strip (o : obj) : obj := set_indices [] o.
Definition lists (s : state) :=
  (newUnits s, startedMorphingUnits s, completedOrMorphedUnits s, showUnits s, hideUnits s, destroyUnits s,
   myUnitsOfType_ s, myCompletedUnitsOfType_ s).

(** Only positions and containers may differ. *)
Definition same (s s' : state) : Prop :=
  (∀ v, strip <$> units s' !! v = strip <$> units s !! v) ∧ lists s' = lists s.

Lemma same_refl s : same s s.
Proof. done. Qed.
Lemma same_trans s1 s2 s3 : same s1 s2 → same s2 s3 → same s1 s3.
Proof. intros [H1 H2] [H3 H4]. split; [intros v; by rewrite H3|by rewrite H4]. Qed.

Lemma same_lookup s s' v o : same s s' → units s !! v = Some o → ∃ o', units s' !! v = Some o' ∧ strip o' = strip o.
Proof.
  intros [H _] Hv. specialize (H v). rewrite Hv in H.
  destruct (units s' !! v) as [o'|]; [|done]. injection H as H. exists o'. split; [done|]. unfold strip, set_indices. congruence.
Qed.

Lemma at_index_at_index k a b o : at_index k a (at_index k b o) = at_index k a o.
Proof. unfold at_index. destruct o. simpl. by rewrite list_insert_insert_eq. Qed.

Lemma strip_at_index k n o : strip (at_index k n o) = strip o.
Proof. done. Qed.

Lemma same_insert s us v o k n cs :
  (∀ w, strip <$> us !! w = strip <$> units s !! w) → us !! v = Some o →
  same s (set_containers (set_units s (<[v := at_index k n o]> us)) cs).
Proof.
  intros Hus Hv. split; [|done]. intros w. simpl. destruct (decide (w = v)) as [->|].
  - rewrite lookup_insert_eq. simpl. rewrite strip_at_index, <-Hus, Hv. done.
  - by rewrite lookup_insert_ne.
Qed.

(** Container [k] and the positions in it are replaced, the others stay. *)
Lemma wf_replace s us k cont :
  WF s → (k < 13)%nat → (∀ v, is_Some (us !! v) ↔ is_Some (units s !! v)) →
  (∀ v o, us !! v = Some o → length (containerIndices o) = 16%nat) →
  (∀ v k', k' ≠ k → index us v k' = index (units s) v k') → group_ok us cont k →
  WF (set_containers (set_units s us) (<[k := cont]> (containers s))).
Proof.
  intros [] Hk Hd Hl Hi Hg. constructor; simpl.
  - by rewrite length_insert.
  - intros v o Hv. split; [by eapply Hl|]. destruct (proj1 (Hd v)) as [o' Ho']; [by eexists|]. by eapply wf_unit0.
  - intros k' c Hk' Hc. apply list_lookup_insert_Some in Hc as [(-> & -> & _)|[Hne Hc]]; [done|].
    eapply group_ext; [apply Hd|intros; by apply Hi|by apply wf_group0].
Qed.

Lemma wf_int s : WF s → ∀ u, is_Some (units s !! u) → in_int u.
Proof. intros HW u [o Ho]. by apply (wf_unit _ HW u o). Qed.

Lemma wf_lookup s k : WF s → (k < 13)%nat → ∃ cont, containers s !! k = Some cont ∧ group_ok (units s) cont k ∧ container s k = cont.
Proof.
  intros HW Hk. destruct (lookup_lt_is_Some_2 (containers s) k) as [cont Hc]; [rewrite (wf_containers _ HW); lia|].
  exists cont. split_and!; [done|by apply (wf_group _ HW)|]. unfold container. by rewrite Hc.
Qed.

Lemma container_insert s us k cont k' :
  (k < length (containers s))%nat →
  container (set_containers (set_units s us) (<[k := cont]> (containers s))) k' =
  if decide (k' = k) then cont else container s k'.
Proof.
  intros Hk. unfold container. simpl. case_decide as Hd; [subst; by rewrite list_lookup_insert_eq|].
  by rewrite list_lookup_insert_ne.
Qed.

Lemma removelast_insert_last (cont : list Z) x i : removelast (<[i := x]> (cont ++ [x])) = <[i := x]> cont.
Proof.
  destruct (decide (i < length cont)%nat) as [Hi|Hi].
  - rewrite insert_app_l by done. by rewrite removelast_last.
  - rewrite (list_insert_ge cont) by lia. destruct (decide (i = length cont)) as [->|].
    + rewrite insert_app_r_alt by lia. rewrite Nat.sub_diag. simpl. by rewrite removelast_last.
    + rewrite list_insert_ge by (rewrite length_app; simpl; lia). by rewrite removelast_last.
Qed.

(** A unit joins container [k]. *)
Lemma container_join s u o k cont :
  WF s → units s !! u = Some o → (k < 13)%nat → containers s !! k = Some cont → index (units s) u k = invalidIndex →
  let s' := set_containers (set_units s (<[u := at_index k (Z.of_nat (length cont)) o]> (units s))) (<[k := cont ++ [u]]> (containers s)) in
  WF s' ∧ same s s' ∧ (∀ k', k' ≠ k → container s' k' = container s k') ∧
  (∀ v, v ∈ container s' k ↔ v = u ∨ v ∈ container s k).
Proof.
  intros HW Hu Hk Hc Hi s'. destruct (wf_unit _ HW _ _ Hu) as [Hlen _].
  assert (k < length (containers s))%nat as Hkl by (rewrite (wf_containers _ HW); lia).
  split_and!.
  - apply wf_replace; try done.
    + intros v. rewrite lookup_insert_is_Some'. naive_solver.
    + intros v o' [(<- & <-)|[_ Hv]]%lookup_insert_Some; [simpl; by rewrite length_insert|by apply (wf_unit _ HW v)].
    + intros v k' Hne. rewrite index_insert by (done || lia). rewrite decide_False; [done|naive_solver].
    + apply group_push; [by apply (wf_group _ HW)|done|lia|done|by apply wf_int].
  - by apply same_insert.
  - intros k' Hne. subst s'. rewrite container_insert by done. by rewrite decide_False.
  - intros v. subst s'. rewrite container_insert by done. rewrite decide_True by done.
    unfold container. rewrite Hc. simpl. set_solver.
Qed.

(** The last member leaves container [k]. *)
Lemma container_pop s u o k cont :
  WF s → units s !! u = Some o → (k < 13)%nat → containers s !! k = Some (cont ++ [u]) →
  let s' := set_containers (set_units s (<[u := at_index k invalidIndex o]> (units s))) (<[k := cont]> (containers s)) in
  WF s' ∧ same s s' ∧ (∀ k', k' ≠ k → container s' k' = container s k') ∧
  (∀ v, v ∈ container s' k ↔ v ≠ u ∧ v ∈ container s k).
Proof.
  intros HW Hu Hk Hc s'. destruct (wf_unit _ HW _ _ Hu) as [Hlen _]. pose proof (wf_group _ HW k _ Hk Hc) as Hg.
  pose proof (group_nodup _ _ _ Hg) as Hnd. apply NoDup_app in Hnd as (_ & Hnd & _).
  assert (k < length (containers s))%nat as Hkl by (rewrite (wf_containers _ HW); lia).
  split_and!.
  - apply wf_replace; try done.
    + intros v. rewrite lookup_insert_is_Some'. naive_solver.
    + intros v o' [(<- & <-)|[_ Hv]]%lookup_insert_Some; [simpl; by rewrite length_insert|by apply (wf_unit _ HW v)].
    + intros v k' Hne. rewrite index_insert by (done || lia). rewrite decide_False; [done|naive_solver].
    + apply group_pop; [done|done|lia].
  - by apply same_insert.
  - intros k' Hne. subst s'. rewrite container_insert by done. by rewrite decide_False.
  - intros v. subst s'. rewrite container_insert by done. rewrite decide_True by done.
    unfold container. rewrite Hc. simpl. set_solver.
Qed.

(** Two members change places. *)
Lemma container_swap s u o back ob k cont i :
  WF s → units s !! u = Some o → units s !! back = Some ob → u ≠ back → (k < 13)%nat →
  containers s !! k = Some (cont ++ [back]) → index (units s) u k = Z.of_nat i → Z.of_nat i ≠ invalidIndex →
  let us := <[u := at_index k (Z.of_nat (length cont)) o]> (<[back := at_index k (Z.of_nat i) ob]> (units s)) in
  let s' := set_containers (set_units s us) (<[k := <[i := back]> cont ++ [u]]> (containers s)) in
  (i < length cont)%nat ∧ WF s' ∧ same s s' ∧ (∀ k', k' ≠ k → container s' k' = container s k') ∧
  (∀ v, v ∈ container s' k ↔ v ∈ container s k).
Proof.
  intros HW Hu Hb Hne Hk Hc Hi Hinv us s'.
  destruct (wf_unit _ HW _ _ Hu) as [Hlen _]. destruct (wf_unit _ HW _ _ Hb) as [Hlenb _].
  pose proof (wf_group _ HW k _ Hk Hc) as Hg.
  destruct (group_swap (units s) cont k u o back ob i) as [Hlt Hg']; try done; [lia|lia|by apply wf_int|].
  assert (k < length (containers s))%nat as Hkl by (rewrite (wf_containers _ HW); lia).
  destruct (g_member _ _ _ Hg u) as [_ Hl]; [by rewrite Hi|]. rewrite Hi, Nat2Z.id in Hl.
  apply lookup_app_l_Some in Hl || (apply lookup_snoc_Some in Hl as [[_ Hl]|[? _]]; [|lia]).
  assert (∀ w, strip <$> (<[back := at_index k (Z.of_nat i) ob]> (units s)) !! w = strip <$> units s !! w) as Hs.
  { intros w. destruct (decide (w = back)) as [->|]; [rewrite lookup_insert_eq, Hb; done|by rewrite lookup_insert_ne]. }
  split_and!; [done| | | |].
  - apply wf_replace; try done; unfold us.
    + intros v. rewrite !lookup_insert_is_Some'. naive_solver.
    + intros v o' [(<- & <-)|[_ Hv]]%lookup_insert_Some; [simpl; by rewrite length_insert|].
      apply lookup_insert_Some in Hv as [(<- & <-)|[_ Hv]]; [simpl; by rewrite length_insert|by apply (wf_unit _ HW v)].
    + intros v k' Hk'. rewrite index_insert; [|by rewrite lookup_insert_ne|lia]. rewrite decide_False by naive_solver.
      rewrite index_insert by (done || lia). rewrite decide_False; [done|naive_solver].
  - apply same_insert; [done|by rewrite lookup_insert_ne].
  - intros k' Hk'. subst s'. rewrite container_insert by done. by rewrite decide_False.
  - intros v. subst s'. rewrite container_insert by done. rewrite decide_True by done.
    unfold container. rewrite Hc. simpl.
    assert (cont = take i cont ++ u :: drop (S i) cont) as E by (symmetry; by apply take_drop_middle).
    rewrite (insert_take_drop cont) by done. rewrite E at 3. set_solver.
Qed.

Lemma index_lookup s u o k :
  WF s → units s !! u = Some o → (k < 16)%nat → containerIndices o !! k = Some (index (units s) u k).
Proof.
  intros HW Hu Hk. destruct (wf_unit _ HW _ _ Hu) as [Hlen _]. unfold index. rewrite Hu.
  destruct (lookup_lt_is_Some_2 (containerIndices o) k) as [n Hn]; [lia|]. by rewrite Hn.
Qed.

(** What one call of [updateUnitContainer] does. *)
Definition contained (s s' : state) (u : Z) (k : nat) (b : bool) : Prop :=
  WF s' ∧ same s s' ∧ (∀ k', k' ≠ k → container s' k' = container s k') ∧
  (∀ v, v ∈ container s' k ↔ if decide (v = u) then b = true else v ∈ container s k) ∧
  ((u ∈ container s k ↔ b = true) → s' = s).

Lemma leave_spec s u o k :
  WF s → units s !! u = Some o → (k < 13)%nat → index (units s) u k ≠ invalidIndex →
  ∃ s', updateUnitContainer s u k false = Ok s' ∧ contained s s' u k false.
Proof.
  intros HW Hu Hk Hi. destruct (wf_lookup s k HW Hk) as (cont & Hc & Hg & Hcs).
  pose proof (proj2 (group_member _ _ _ u Hg (wf_int s HW)) Hi) as Hin.
  destruct (g_member _ _ _ Hg u Hi) as [H0 Hl].
  unfold updateUnitContainer, deref. rewrite Hu. cbn [of_option rbind]. rewrite Hc. cbn [of_option rbind].
  rewrite (index_lookup s u o k HW Hu) by lia. cbn [of_option rbind].
  destruct (Z.eqb_spec (index (units s) u k) invalidIndex) as [|_]; [done|]. cbn [negb].
  destruct (exists_last (l := cont)) as (cont' & back & ->); [by intros ->|].
  rewrite last_snoc. cbn [of_option rbind]. rewrite length_app. cbn [length].
  replace (Z.of_nat (length cont' + 1) - 1) with (Z.of_nat (length cont')) by lia.
  destruct (Z.eqb_spec (index (units s) u k) (Z.of_nat (length cont'))) as [E|E]; cbn [negb rbind].
  - rewrite E, Nat2Z.id, snoc_lookup in Hl. injection Hl as ->. rewrite removelast_last.
    unfold modify, deref. rewrite Hu. cbn [of_option rbind]. eexists. split; [done|].
    destruct (container_pop s u o k cont' HW Hu Hk Hc) as (H1 & H2 & H3 & H4).
    split_and!; [done..| |].
    + intros v. rewrite H4. case_decide; naive_solver.
    + intros Hiff. apply Hiff in Hin || (rewrite Hcs in Hiff; by apply Hiff in Hin).
  - assert (u ≠ back) as Hne.
    { intros ->. apply E. apply (g_index _ _ _ Hg). apply snoc_lookup. }
    destruct (g_known _ _ _ Hg back) as [ob Hb]; [set_solver|].
    set (i := Z.to_nat (index (units s) u k)).
    assert (index (units s) u k = Z.of_nat i) as Hii by (unfold i; lia). rewrite Hii.
    destruct (container_swap s u o back ob k cont' i HW Hu Hb Hne Hk Hc Hii) as (Hlt & H1 & H2 & H3 & H4); [by rewrite <-Hii|].
    unfold modify, deref. rewrite Hb. cbn [of_option rbind].
    destruct (Z.ltb_spec (Z.of_nat i) (Z.of_nat (length cont' + 1))); [|lia]. cbn [rbind set_units units].
    rewrite lookup_insert_ne by done. rewrite Hu. cbn [of_option rbind]. eexists. split; [done|].
    rewrite removelast_insert_last.
    match type of H1 with WF ?t => set (s1 := t) in * end.
    destruct (container_pop s1 u (at_index k (Z.of_nat (length cont')) o) k (<[i := back]> cont') H1) as (P1 & P2 & P3 & P4).
    { subst s1. simpl. by rewrite lookup_insert_eq. }
    { done. }
    { subst s1. simpl. rewrite list_lookup_insert_eq; [done|]. rewrite (wf_containers _ HW). lia. }
    match goal with |- contained _ ?t _ _ _ => set (s2 := t) in * end.
    match type of P1 with WF ?t => assert (t = s2) as E2 end.
    { subst s1 s2. unfold set_containers, set_units. simpl.
      by rewrite at_index_at_index, insert_insert_eq, list_insert_insert_eq. }
    rewrite E2 in *. split_and!; [done|by eapply same_trans|intros k' Hk'; rewrite P3, H3; done| |].
    + intros v. rewrite P4, H4. case_decide; naive_solver.
    + intros Hiff. rewrite Hcs in Hiff. by apply Hiff in Hin.
Qed.

Lemma updateUnitContainer_spec s u o k b :
  WF s → units s !! u = Some o → (k < 13)%nat →
  ∃ s', updateUnitContainer s u k b = Ok s' ∧ contained s s' u k b.
Proof.
  intros HW Hu Hk. destruct (wf_lookup s k HW Hk) as (cont & Hc & Hg & Hcs).
  pose proof (group_member _ _ _ u Hg (wf_int s HW)) as Hin. rewrite <-Hcs in Hin.
  assert (b = negb (index (units s) u k =? invalidIndex) → contained s s u k b) as Hid.
  { intros Hb. split_and!; [done|apply same_refl|done| |done]. intros v. case_decide as Hd; [|done]. subst v.
    rewrite Hin, Hb. destruct (Z.eqb_spec (index (units s) u k) invalidIndex); naive_solver. }
  destruct (Z.eqb_spec (index (units s) u k) invalidIndex) as [E|E]; destruct b.
  - unfold updateUnitContainer, deref. rewrite Hu. cbn [of_option rbind]. rewrite Hc. cbn [of_option rbind].
    rewrite (index_lookup s u o k HW Hu), E by lia. cbn [of_option rbind].
    unfold modify, deref. rewrite Hu. cbn [of_option rbind]. eexists. split; [done|].
    destruct (container_join s u o k cont HW Hu Hk Hc E) as (H1 & H2 & H3 & H4).
    split_and!; [done..| |].
    + intros v. rewrite H4. case_decide; naive_solver.
    + intros Hiff. exfalso. by apply Hin; [apply Hiff|].
  - exists s. split; [|by apply Hid]. unfold updateUnitContainer, deref. rewrite Hu. cbn [of_option rbind].
    rewrite Hc. cbn [of_option rbind]. by rewrite (index_lookup s u o k HW Hu), E by lia.
  - exists s. split; [|by apply Hid]. unfold updateUnitContainer, deref. rewrite Hu. cbn [of_option rbind].
    rewrite Hc. cbn [of_option rbind]. rewrite (index_lookup s u o k HW Hu) by lia. cbn [of_option rbind].
    by destruct (Z.eqb_spec (index (units s) u k) invalidIndex).
  - by eapply leave_spec.
Qed.

(** ** Changing all containers *)

Section groups.
Context {table : BuildType.Table} {attributes : Attributes}.

Lemma member_strip f o o' ty k : strip o' = strip o → member f o' ty k = member f o ty k.
Proof. destruct o, o'. unfold strip. simpl. intros [= -> -> -> -> -> -> -> -> -> -> ->]. by destruct k as [|[|[|[|[|[|[|[|[|[|[|[|[|]]]]]]]]]]]]]. Qed.

Lemma strip_info o o' : strip o' = strip o → info o' = info o.
Proof. destruct o, o'. by intros [=]. Qed.

(** [u] is in container [k] of [s'] if it should be, the rest is as in [s]. *)
Definition regrouped (f : frame) (s s' : state) (u : Z) (o : obj) (ty : BuildType) (k : nat) : Prop :=
  (∀ v, v ∈ container s' k ↔ if decide (v = u) then member f o ty k = true else v ∈ container s k) ∧
  ((u ∈ container s k ↔ member f o ty k = true) → container s' k = container s k).

Lemma updateGroups_fold f u o ty ks s0 s :
  WF s → same s0 s → units s0 !! u = Some o → type (info o) = Some ty → NoDup ks → (∀ k, k ∈ ks → (k < 13)%nat) →
  ∃ s', rfold (λ s k,
    let? o := deref s u in
    let? ty := of_option (type (info o)) in
    updateUnitContainer s u k (member f o ty k)) ks s = Ok s' ∧
  WF s' ∧ same s s' ∧
  (∀ k, k ∈ ks → regrouped f s s' u o ty k) ∧ (∀ k, k ∉ ks → container s' k = container s k).
Proof.
  intros HW Hs0 Hu Hty. revert s HW Hs0. induction ks as [|k ks IH]; intros s HW Hs0 Hnd Hk; cbn [rfold].
  { exists s. split_and!; [done..|apply same_refl|by intros k ?%not_elem_of_nil|done]. }
  apply NoDup_cons in Hnd as [Hn Hnd].
  destruct (same_lookup _ _ _ _ Hs0 Hu) as (o1 & Ho1 & Hst).
  unfold deref at 1. rewrite Ho1. cbn [of_option rbind]. rewrite (strip_info _ _ Hst), Hty. cbn [of_option rbind].
  rewrite (member_strip f o o1 ty k Hst).
  destruct (updateUnitContainer_spec s u o1 k (member f o ty k) HW Ho1) as (s1 & -> & H1 & H2 & H3 & H4 & H5);
    [by apply Hk; left|]. cbn [rbind].
  destruct (IH s1 H1) as (s' & -> & P1 & P2 & P3 & P4); [by eapply same_trans|done|intros; by apply Hk; right|].
  exists s'. split_and!; [done|done|by eapply same_trans| |].
  - intros k' [->|Hk']%elem_of_cons.
    + split; [intros v; by rewrite P4|]. intros Hiff. rewrite P4 by done. by rewrite (H5 Hiff).
    + assert (k' ≠ k) as Hne by congruence. destruct (P3 k' Hk') as [Q1 Q2]. rewrite (H3 k' Hne) in Q1, Q2. done.
  - intros k' [Hne Hk']%not_elem_of_cons. rewrite P4 by done. by apply H3.
Qed.

Lemma updateGroups_spec f s u o ty :
  WF s → units s !! u = Some o → type (info o) = Some ty →
  ∃ s', updateGroups f s u = Ok s' ∧ WF s' ∧ same s s' ∧ ∀ k, (k < 13)%nat → regrouped f s s' u o ty k.
Proof.
  intros HW Hu Hty.
  destruct (updateGroups_fold f u o ty (seq 0 13) s s HW (same_refl s) Hu Hty) as (s' & E & H1 & H2 & H3 & _).
  - apply NoDup_seq.
  - intros k Hk. apply elem_of_seq in Hk. lia.
  - exists s'. split_and!; [done..|]. intros k Hk. apply H3. apply elem_of_seq. lia.
Qed.

(** C29 The containers are sets without duplicates, the units know their positions
    in them, and [updateGroups] puts a unit exactly into the containers whose
    condition it meets: it returns, keeps every other unit where it was, and
    changes no container the unit is already right about. *)
Theorem updateGroups_regroups f s u o ty :
  WF s → units s !! u = Some o → type (info o) = Some ty →
  ∃ s', updateGroups f s u = Ok s' ∧ WF s' ∧
    ∀ k, (k < 13)%nat →
      NoDup (container s' k) ∧
      (u ∈ container s' k ↔ member f o ty k = true) ∧
      (∀ v, v ≠ u → v ∈ container s' k ↔ v ∈ container s k) ∧
      ((u ∈ container s k ↔ member f o ty k = true) → container s' k = container s k).
Proof.
  intros HW Hu Hty. destruct (updateGroups_spec f s u o ty HW Hu Hty) as (s' & E & H1 & H2 & H3).
  exists s'. split_and!; [done|done|]. intros k Hk. destruct (H3 k Hk) as [H4 H5]. split_and!.
  - destruct (wf_lookup s' k H1 Hk) as (cont & _ & Hg & ->). by eapply group_nodup.
  - specialize (H4 u). by rewrite decide_True in H4.
  - intros v Hv. specialize (H4 v). by rewrite decide_False in H4.
  - done.
Qed.
End groups.

(** ** Examples *)

(** A table with a worker, a pylon, a photon cannon and mineral fields. *)
Definition example_types : BuildType.Table := {|
  BuildType.builder := λ _, None; BuildType.mineralCost := λ _, f64_0; BuildType.gasCost := λ _, f64_0;
  BuildType.prerequisites := λ _, []; BuildType.buildTime := λ _, 0; BuildType.race := λ _, BuildType.Race_Protoss;
  BuildType.isAddon := λ _, false; BuildType.isWorker := λ t, bool_decide (t = BuildType.Protoss_Probe);
  BuildType.supplyProvided := λ _, f64_0; BuildType.supplyRequired := λ _, f64_0;
  BuildType.isTwoUnitsInOneEgg := λ _, false; BuildType.isRefinery := λ _, false;
  BuildType.isBuilding := λ t, bool_decide (t = BuildType.Protoss_Photon_Cannon) || bool_decide (t = BuildType.Protoss_Pylon);
  BuildType.isResourceDepot := λ _, false |}.

Definition example_attributes : Attributes := {|
  isResourceContainer := λ _, false; canBuildAddon := λ _, false;
  tileWidth := λ _, 2; tileHeight := λ _, 2; typeSightRange := λ _, 28;
  isFlyer := λ _, false; producesCreep := λ _, false; dimensionLeft := λ _, 16; dimensionUp := λ _, 16 |}.

(** A unit of the player 0 of type [ty] with the given flags. *)
Definition example_tcu (u ty flags : Z) : tcunit := TcUnit u 10 20 0 ty flags 0 0 80 160 228 0 0 (-1) 0 [].

Definition example_frame (n : Z) (us : list (Z * tcunit)) (ds : list Z) : frame :=
  Frame n 0 (-1) 512 512 us ds (λ _, None) (λ _ _, None).

Definition example_probe : obj :=
  set_visible true (set_info (Seen 7 10 20 0 true false false (Some BuildType.Protoss_Probe) 0 0 None None None 0 0 None 0 None
    28 true (10, 20) (example_tcu 7 64 (Z.lor Powered Completed))) newUnit).

Lemma single_wf u o : containerIndices o = replicate 16 invalidIndex → in_int u → WF (set_units init {[u := o]}).
Proof.
  intros Hi Hu. constructor; simpl; [done| |].
  - intros v ov [<- <-]%lookup_singleton_Some. by rewrite Hi.
  - intros k cont Hk Hc. apply (lookup_replicate 16) in Hc as [-> _].
    assert (∀ v, index {[u := o]} v k = invalidIndex) as Hx.
    { intros v. unfold index. destruct ({[u := o]} !! v) as [ov|] eqn:E; [|done].
      apply lookup_singleton_Some in E as [_ <-]. rewrite Hi.
      destruct (replicate 16 invalidIndex !! k) eqn:E; [|done]. by apply lookup_replicate in E as [-> _]. }
    constructor; [by intros v ?%not_elem_of_nil|by intros j v ?|]. intros v. by rewrite Hx.
Qed.

(** A probe that is seen for the first time becomes one of my workers. *)
Lemma updateGroups_regroups_witness :
  ∃ s', updateGroups (table := example_types) (attributes := example_attributes) (example_frame 1 [] [])
          (set_units init {[7 := example_probe]}) 7 = Ok s' ∧ 7 ∈ container s' myWorkers_.
Proof.
  destruct (updateGroups_regroups (table := example_types) (attributes := example_attributes) (example_frame 1 [] [])
    (set_units init {[7 := example_probe]}) 7 example_probe BuildType.Protoss_Probe) as (s' & E & _ & H).
  - by apply single_wf.
  - simpl. apply lookup_singleton_eq.
  - reflexivity.
  - exists s'. split; [exact E|]. destruct (H myWorkers_) as (_ & H2 & _); [unfold myWorkers_; lia|].
    apply H2. vm_compute. reflexivity.
Defined.
End UnitGroups.
