(* ===== verification/UnitsUpdate.v ===== *)
(** * The groups follow the game ([src/unitsinfo.cpp])

    [UnitsInfo::update] regroups a unit only when it noticed a change.  This
    file shows that it notices enough: after every frame each unit is in exactly
    the containers whose condition it meets, up to one exception that the code
    has, the [Powered] flag of a unit that is not active. *)

From S2P Require Import Prelude BuildTypes UnitsInfo UnitGroups.

Module UnitsUpdate.
Import UnitsInfo UnitGroups.

Section update.
Context {table : BuildType.Table} {attributes : Attributes}.

(** ** Invariant *)

(** The allegiance of a unit as [updateUnit] computes it. *)
Definition sides (f : frame) (i : seen) : Prop :=
  isMine i = (playerId i =? myPlayerId f) ∧
  isEnemy i = negb (playerId i =? myPlayerId f) && negb (playerId i =? neutralId f) ∧
  isNeutral i = (playerId i =? neutralId f).

Definition mine_visible (f : frame) (o : obj) : bool :=
  negb (dead o) && visible o && (playerId (info o) =? myPlayerId f).

(** Unit [u] is in the containers it should be in.  [myUnits_] is only
    guaranteed for active units, and never has a unit that is dead, hidden or
    someone else's. *)
Definition synced (f : frame) (s : state) (u : Z) (o : obj) : Prop :=
  match type (info o) with
  | None => ∀ k, (k < 13)%nat → u ∉ container s k
  | Some ty =>
      sides f (info o) ∧
      (∀ k, (k < 13)%nat → k ≠ myUnits_ → u ∈ container s k ↔ member f o ty k = true) ∧
      (u ∈ container s myUnits_ → mine_visible f o = true) ∧
      (active o = true → u ∈ container s myUnits_ ↔ member f o ty myUnits_ = true)
  end.

Record Inv (f : frame) (s : state) : Prop := {
  inv_wf : WF s;
  inv_sync : ∀ u o, units s !! u = Some o → synced f s u o
}.

Definition typed (s : state) : Prop := ∀ u o, units s !! u = Some o → type (info o) ≠ None.

(** The part of a unit the containers depend on. *)
Definition core (o : obj) := (info o, visible o, dead o, gone o, lastSeen o).

(** Nothing the containers depend on changes, except for [u]. *)
Definition quiet (s s' : state) (P : Z → Prop) : Prop :=
  containers s' = containers s ∧
  (∀ v, is_Some (units s' !! v) ↔ is_Some (units s !! v)) ∧
  (∀ v, ¬ P v → core <$> units s' !! v = core <$> units s !! v) ∧
  (∀ v, containerIndices <$> units s' !! v = containerIndices <$> units s !! v).

Lemma quiet_refl s P : quiet s s P.
Proof. done. Qed.
Lemma quiet_trans s1 s2 s3 P : quiet s1 s2 P → quiet s2 s3 P → quiet s1 s3 P.
Proof.
  intros (A1 & A3 & A4 & A5) (B1 & B3 & B4 & B5). split_and!.
  - by rewrite B1.
  - intros v. by rewrite B3.
  - intros v Hv. by rewrite B4, A4.
  - intros v. by rewrite B5.
Qed.
Lemma quiet_weaken s s' (P Q : Z → Prop) : (∀ v, P v → Q v) → quiet s s' P → quiet s s' Q.
Proof. intros HPQ (A1 & A3 & A4 & A5). split_and!; auto. Qed.

Lemma quiet_modify s u o g (P : Z → Prop) :
  units s !! u = Some o → containerIndices (g o) = containerIndices o → (¬ P u → core (g o) = core o) →
  quiet s (set_units s (<[u := g o]> (units s))) P.
Proof.
  intros Hu Hi Hc. split_and!; simpl; try done.
  - intros v. rewrite lookup_insert_is_Some'. naive_solver.
  - intros v Hv. destruct (decide (v = u)) as [->|]; [|by rewrite lookup_insert_ne].
    rewrite lookup_insert_eq, Hu. simpl. by rewrite Hc.
  - intros v. destruct (decide (v = u)) as [->|]; [|by rewrite lookup_insert_ne].
    rewrite lookup_insert_eq, Hu. simpl. by rewrite Hi.
Qed.

Lemma modify_quiet s u g (P : Z → Prop) :
  is_Some (units s !! u) → (∀ o, containerIndices (g o) = containerIndices o) → (¬ P u → ∀ o, core (g o) = core o) →
  ∃ s', modify s u g = Ok s' ∧ quiet s s' P.
Proof.
  intros [o Hu] Hi Hc. unfold modify, deref. rewrite Hu. simpl. eexists. split; [done|].
  apply quiet_modify; auto.
Qed.

Lemma index_quiet s s' P u k : quiet s s' P → index (units s') u k = index (units s) u k.
Proof.
  intros (_ & _ & _ & H). specialize (H u). unfold index.
  destruct (units s' !! u), (units s !! u); simplify_eq/=; congruence.
Qed.

Lemma wf_quiet s s' P : WF s → quiet s s' P → WF s'.
Proof.
  intros [] Hq. pose proof Hq as (H1 & H3 & _ & H5). constructor.
  - by rewrite H1.
  - intros u o Hu. specialize (H5 u). rewrite Hu in H5.
    destruct (units s !! u) as [o1|] eqn:E; simplify_eq/=. rewrite H5. by eapply wf_unit0.
  - intros k cont Hk Hc. rewrite H1 in Hc. eapply group_ext; [|intros; by eapply index_quiet|by apply wf_group0].
    intros v. apply H3.
Qed.

Lemma core_synced f s s' u o o' :
  core o' = core o → (∀ k, (k < 13)%nat → u ∈ container s' k ↔ u ∈ container s k) → synced f s u o → synced f s' u o'.
Proof.
  unfold core. intros [= E1 E2 E3 E4 E5] Hc. unfold synced. rewrite E1.
  assert (active o' = active o) as Ea by (unfold active, flags; by rewrite E1, E3).
  assert (mine_visible f o' = mine_visible f o) as Em by (unfold mine_visible; by rewrite E1, E2, E3).
  destruct (type (info o)) as [ty|].
  - assert (∀ k, member f o' ty k = member f o ty k) as Hm.
    { intros k. unfold member, powered, completed, flag, flags. by rewrite E1, E2, E3, E4. }
    intros (H1 & H2 & H3 & H4). rewrite Ea, Em, Hm. rewrite !Hc by (unfold myUnits_; lia).
    split_and!; [done| |done|done]. intros k Hk Hne. rewrite Hm, Hc by done. by apply H2.
  - intros H k Hk. rewrite Hc by done. by apply H.
Qed.

(** Units outside of [P] stay in sync. *)
Lemma quiet_synced f s s' (P : Z → Prop) u o' :
  quiet s s' P → (∀ o, units s !! u = Some o → synced f s u o) → ¬ P u →
  units s' !! u = Some o' → synced f s' u o'.
Proof.
  intros (H1 & _ & H4 & _) Hs HP Hu. specialize (H4 u HP). rewrite Hu in H4.
  destruct (units s !! u) as [o|] eqn:E; [|done]. simpl in H4. injection H4 as H4.
  eapply core_synced; [|intros k _; unfold container; by rewrite H1|by apply Hs].
  unfold core. congruence.
Qed.

(** ** A unit is brought up to date *)

Definition nobody : Z → Prop := λ _, False.

(** The type and the upgrade the game reports are known ones. *)
Definition valid_tcu (f : frame) (tcu : tcunit) : Prop :=
  getUnitBuildType (tc_type tcu) ≠ None ∧
  ∀ n, upgradeLevel f (tc_buildTechUpgradeType tcu) = Some n → 0 ≤ n < 3.

Lemma quiet_known s s' P u : quiet s s' P → is_Some (units s !! u) → is_Some (units s' !! u).
Proof. intros (_ & H & _). apply H. Qed.

Lemma getUnit_known s i t : getUnit s i = Some t → t = i ∧ is_Some (units s !! i).
Proof. unfold getUnit. destruct (units s !! i); naive_solver. Qed.

Lemma updateAttack_quiet f s u os :
  is_Some (units s !! u) → ∃ s', updateAttack f s u os = Ok s' ∧ quiet s s' nobody.
Proof.
  induction os as [|o os IH]; intros Hu; cbn [updateAttack]; [exists s; split; [done|apply quiet_refl]|].
  destruct (tcOrderIsAttack _); [|by apply IH]. destruct (getUnit s (targetId o)) as [t|] eqn:Et; [|by apply IH].
  apply getUnit_known in Et as [-> Ht].
  edestruct (modify_quiet s (targetId o)) as (s1 & -> & Q1); [done| | |]; [done|done|]. cbn [rbind].
  edestruct (modify_quiet s1 u) as (s2 & -> & Q2); [by eapply quiet_known| | |]; [done|done|]. cbn [rbind].
  edestruct (modify_quiet s2 (targetId o)) as (s3 & -> & Q3);
    [eapply quiet_known; [done|]; by eapply quiet_known| | |]; [done|done|].
  exists s3. split; [done|]. eapply quiet_trans; [done|]. by eapply quiet_trans.
Qed.

Lemma updateLarva_quiet f s u o :
  units s !! u = Some o → (∀ h, associatedUnit (info o) = Some h → is_Some (units s !! h)) →
  ∃ s', updateLarva f s u = Ok s' ∧ quiet s s' nobody.
Proof.
  intros Hu Hh. unfold updateLarva, deref. rewrite Hu. simpl.
  destruct (associatedUnit (info o)) as [h|]; [|exists s; split; [done|apply quiet_refl]].
  destruct (_ && _); [|exists s; split; [done|apply quiet_refl]].
  apply modify_quiet; [by apply Hh|done|done].
Qed.

Lemma producing_ok f o mine tcu : valid_tcu f tcu → ∃ r, producing f o mine tcu = Ok r.
Proof.
  intros [_ Hv]. unfold producing. destruct mine; [|eauto]. destruct (upgrading o).
  - destruct (upgradeLevel f (tc_buildTechUpgradeType tcu)) as [n|] eqn:E; [|eauto].
    specialize (Hv n eq_refl). unfold getUpgradeBuildType. set (i := bwapi_id 62 _).
    assert (0 ≤ i ≤ 62) by (unfold i, bwapi_id; repeat case_test; simpl; lia).
    destruct (i =? 61); [simpl; eauto|]. repeat case_test; simpl; eauto; lia.
  - destruct (researching o); eauto.
Qed.

Lemma updatedType_ok f o tcu : valid_tcu f tcu → ∃ ty, updatedType o tcu = Some ty.
Proof.
  intros [Hv _]. unfold updatedType. destruct (type (info o)) as [ty|]; [destruct (_ =? _); [eauto|]|];
    by destruct (getUnitBuildType _); eauto.
Qed.

Lemma quiet_core s s' P u o :
  quiet s s' P → ¬ P u → units s !! u = Some o → ∃ o', units s' !! u = Some o' ∧ core o' = core o.
Proof.
  intros (_ & _ & H & _) HP Hu. specialize (H u HP). rewrite Hu in H.
  destruct (units s' !! u) as [o'|]; [|done]. exists o'. split; [done|].
  change (Some (core o') = Some (core o)) in H. congruence.
Qed.

(** What [updateUnit] does to the unit itself and to nobody else. *)
Lemma updateUnit_spec f s u o tcu :
  units s !! u = Some o → valid_tcu f tcu →
  ∃ s' o' ty, updateUnit f s u tcu = Ok s' ∧ quiet s s' (eq u) ∧ units s' !! u = Some o' ∧
    type (info o') = Some ty ∧ sides f (info o') ∧ playerId (info o') = tc_playerId tcu ∧
    unit (info o') = tcu ∧ visible o' = true ∧ dead o' = dead o ∧ gone o' = gone o ∧
    lastSeen o' = currentFrame f.
Proof.
  intros Hu Hv. destruct (updatedType_ok f o tcu Hv) as [ty Hty].
  unfold updateUnit. unfold deref at 1. rewrite Hu. cbn [of_option rbind]. rewrite Hty. cbn [of_option rbind].
  match goal with |- context [producing f ?o1 ?m tcu] => destruct (producing_ok f o1 m tcu Hv) as [[[c up] re] ->] end.
  cbn [rbind]. unfold modify, deref. rewrite Hu. cbn [of_option rbind].
  match goal with |- context [set_units s (<[u := ?g]> _)] => set (o1 := g) end.
  set (s1 := set_units s (<[u := o1]> (units s))).
  assert (quiet s s1 (eq u)) as Q1.
  { apply (quiet_modify s u o (λ _, o1)); [done|done|]. by intros ?; destruct H. }
  assert (units s1 !! u = Some o1) as Hu1 by (unfold s1; simpl; by rewrite lookup_insert_eq).
  destruct (updateAttack_quiet f s1 u (tc_orders tcu)) as (s2 & -> & Q2); [by eexists|]. cbn [rbind].
  destruct (quiet_core _ _ _ _ _ Q2 (λ H, H) Hu1) as (o2 & Hu2 & C2).
  assert (info o2 = info o1) as I2 by (unfold core in C2; congruence).
  destruct (updateLarva_quiet f s2 u o2 Hu2) as (s3 & -> & Q3).
  { intros h Hh. rewrite I2 in Hh. unfold o1 in Hh. simpl in Hh. apply getUnit_known in Hh as [-> Hh].
    eapply quiet_known; [done|]. by eapply quiet_known. }
  destruct (quiet_core _ _ _ _ _ Q3 (λ H, H) Hu2) as (o3 & Hu3 & C3).
  assert (core o3 = core o1) as C by congruence. unfold core in C. injection C as C1 C4 C5 C6 C7.
  exists s3, o3, ty. split_and!; rewrite ?C1, ?C4, ?C5, ?C6, ?C7; try done.
  eapply quiet_trans; [done|]. eapply quiet_trans; (eapply quiet_weaken; [|done]); done.
Qed.

(** ** Regrouping *)

Lemma strip_core o o' : strip o' = strip o → core o' = core o.
Proof. destruct o, o'. unfold strip, core, set_indices. simpl. intros [=]. by subst. Qed.

Lemma same_core s s' v o' :
  same s s' → units s' !! v = Some o' → ∃ o, units s !! v = Some o ∧ core o' = core o.
Proof.
  intros [H _] Hv. specialize (H v). rewrite Hv in H. destruct (units s !! v) as [o|]; [|done].
  exists o. split; [done|]. apply strip_core. change (Some (strip o') = Some (strip o)) in H. congruence.
Qed.

(** [updateGroups] brings its unit in sync and leaves the others as they are. *)
Lemma regroup f s u o ty :
  WF s → units s !! u = Some o → type (info o) = Some ty → sides f (info o) →
  ∃ s', updateGroups f s u = Ok s' ∧ WF s' ∧ same s s' ∧
    (∀ v o', units s' !! v = Some o' →
       (v = u ∨ ∀ o, units s !! v = Some o → synced f s v o) → synced f s' v o') ∧
    (∀ k, (k < 13)%nat → (u ∈ container s k ↔ member f o ty k = true) → container s' k = container s k) ∧
    (∀ k v, (k < 13)%nat → v ≠ u → v ∈ container s' k ↔ v ∈ container s k).
Proof.
  intros HW Hu Hty Hs. destruct (updateGroups_spec f s u o ty HW Hu Hty) as (s' & E & H1 & H2 & H3).
  exists s'. split_and!; [done..| | |].
  - intros v o' Hv Hd. destruct (same_core _ _ _ _ H2 Hv) as (ov & Hov & Hc).
    destruct (decide (v = u)) as [->|Hne].
    + assert (ov = o) as -> by congruence.
      assert (synced f s' u o) as Hsy.
      { unfold synced. rewrite Hty.
        assert (∀ k, (k < 13)%nat → u ∈ container s' k ↔ member f o ty k = true) as Hm.
        { intros k Hk. destruct (H3 k Hk) as [H4 _]. specialize (H4 u). by rewrite decide_True in H4. }
        split_and!; [done|intros; by apply Hm| |intros; apply Hm; unfold myUnits_; lia].
        rewrite Hm by (unfold myUnits_; lia). unfold mine_visible. simpl. by intros [? _]%andb_true_iff. }
      by eapply core_synced.
    + eapply core_synced; [done| |destruct Hd as [?|Hd]; [done|by apply Hd]].
      intros k Hk. destruct (H3 k Hk) as [H4 _]. specialize (H4 v). by rewrite decide_False in H4.
  - intros k Hk. by destruct (H3 k Hk).
  - intros k v Hk Hne. destruct (H3 k Hk) as [H4 _]. specialize (H4 v). by rewrite decide_False in H4.
Qed.

(** ** New units *)

Lemma newUnit_index k : default invalidIndex (containerIndices newUnit !! k) = invalidIndex.
Proof.
  destruct (containerIndices newUnit !! k) as [n|] eqn:E; [|done]. by apply (lookup_replicate 16) in E as [-> _].
Qed.

Lemma find_or_insert_inv f s u :
  Inv f s → in_int u → Inv f (find_or_insert s u) ∧ (∀ v, v = u ∨ is_Some (units s !! v) → is_Some (units (find_or_insert s u) !! v)) ∧
  ∀ v o, units (find_or_insert s u) !! v = Some o → units s !! v = Some o ∨ (v = u ∧ o = newUnit).
Proof.
  intros [HW HS] Hint. unfold find_or_insert. destruct (units s !! u) as [o|] eqn:Eu.
  { split_and!; [done|intros v [->|?]; [by eexists|done]|auto]. }
  assert (∀ v k, index (<[u := newUnit]> (units s)) v k = index (units s) v k) as Hix.
  { intros v k. unfold index. destruct (decide (v = u)) as [->|].
    - rewrite lookup_insert_eq, Eu. apply newUnit_index.
    - by rewrite lookup_insert_ne. }
  assert (WF (set_units s (<[u := newUnit]> (units s)))) as HW'.
  { pose proof HW as []. constructor; simpl; [done| |].
    - intros v o [(<- & <-)|[_ Hv]]%lookup_insert_Some; [done|by eapply wf_unit0].
    - intros k cont Hk Hc. eapply group_ext; [|intros; apply Hix|by apply wf_group0].
      intros v Hv. apply lookup_insert_is_Some'. by right. }
  split_and!; simpl.
  - split; [done|]. simpl. intros v o [(<- & <-)|[Hne Hv]]%lookup_insert_Some.
    + intros k Hk Hin. change (container _ k) with (container s k) in Hin.
      destruct (wf_lookup s k HW Hk) as (cont & _ & Hg & E). rewrite E in Hin.
      apply (g_known _ _ _ Hg) in Hin. rewrite Eu in Hin. by destruct Hin.
    + by apply HS.
  - intros v Hv. apply lookup_insert_is_Some'. naive_solver.
  - intros v o [(<- & <-)|[_ Hv]]%lookup_insert_Some; auto.
Qed.

Lemma quiet_inv f s s' : quiet s s' nobody → Inv f s → Inv f s'.
Proof.
  intros Hq [HW HS]. split; [by eapply wf_quiet|]. intros u o Hu.
  eapply quiet_synced; [done|by intros; apply HS|intros H; exact H|done].
Qed.

Lemma clear_lists_inv f s p :
  Inv f s → in_int p.1 → ∃ s', clear_lists s p = Ok s' ∧ Inv f s' ∧
    (∀ v, v = p.1 ∨ is_Some (units s !! v) → is_Some (units s' !! v)) ∧
    ∀ v o, units s' !! v = Some o → v = p.1 ∨ ∃ o0, units s !! v = Some o0 ∧ core o = core o0.
Proof.
  intros HI Hint. destruct (find_or_insert_inv f s p.1 HI Hint) as (HI' & Hk & Hn). unfold clear_lists.
  destruct (modify_quiet (find_or_insert s p.1) p.1 (set_beingAttacked []) nobody) as (s' & -> & Hq); [by apply Hk; left|done|done|].
  exists s'. split_and!; [done|by eapply quiet_inv|intros v Hv; eapply quiet_known; [done|by apply Hk]|]. intros v o Hv. destruct (decide (v = p.1)); [by left|right].
  destruct Hq as (_ & _ & Hc & _). specialize (Hc v (λ H, H)). rewrite Hv in Hc.
  destruct (units (find_or_insert s p.1) !! v) as [o0|] eqn:E0; [|done].
  destruct (Hn v o0 E0) as [H0|[? _]]; [|done]. exists o0. split; [done|].
  change (Some (core o) = Some (core o0)) in Hc. congruence.
Qed.

(** ** A unit of the frame *)

Lemma active_powered o : active o = true → powered o = true.
Proof.
  unfold active, powered, flag. destruct (dead o); [done|]. intros H%Z.eqb_eq.
  apply (f_equal (λ z, Z.testbit z 36)) in H. rewrite Z.land_spec, Z.lxor_spec, Z.testbit_0_l in H.
  change (Z.testbit (Z.lor Powered Completed) 36) with true in H.
  match type of H with _ && ?b = false => change b with true in H end.
  rewrite andb_true_r in H. apply negb_true_iff, Z.eqb_neq. intros E.
  apply (f_equal (λ z, Z.testbit z 36)) in E. rewrite Z.land_spec, Z.testbit_0_l in E.
  change (Z.testbit Powered 36) with true in E. rewrite andb_true_r in E. by rewrite E in H.
Qed.

(** A unit for which [update] sees no reason to regroup it is still in sync. *)
Lemma unnoticed_synced f s s' u o o' ty :
  containers s' = containers s → synced f s u o → type (info o) = Some ty → type (info o') = Some ty →
  sides f (info o') → visible o = true → visible o' = true → dead o' = dead o → gone o' = gone o →
  completed o' = completed o → active o' = active o → playerId (info o') = playerId (info o) →
  synced f s' u o'.
Proof.
  intros Hc Hs Ht Ht' Hsd Hv Hv' Hd Hg Hco Ha Hp. unfold synced in *. rewrite Ht, Ht' in *.
  destruct Hs as ((S1 & S2 & S3) & H2 & H3 & H4). destruct Hsd as (T1 & T2 & T3).
  assert (∀ k, container s' k = container s k) as Hcc by (intros; unfold container; by rewrite Hc).
  assert (isEnemy (info o') = isEnemy (info o)) as He by (rewrite T2, S2, Hp; done).
  assert (isNeutral (info o') = isNeutral (info o)) as Hn by (rewrite T3, S3, Hp; done).
  assert (∀ k, k ≠ 6%nat → member f o' ty k = member f o ty k) as Hm.
  { intros k Hk. unfold member. rewrite Hd, Hv, Hv', Hg, Hco, He, Hn, Hp.
    destruct k as [|[|[|[|[|[|[|k]]]]]]]; done. }
  rewrite !Hcc. split_and!; [done| | |].
  - intros k Hk Hne. rewrite Hcc, Hm by done. by apply H2.
  - intros Hin. apply H3 in Hin. unfold mine_visible in *. rewrite Hd, Hv', Hp. by rewrite Hv in Hin.
  - rewrite Ha. intros Hact. rewrite (H4 Hact). unfold myUnits_. cbn [member].
    rewrite Hd, Hv, Hv', Hp, (active_powered o Hact), (active_powered o') by congruence. done.
Qed.

(** Events are not part of the invariant. *)
Lemma inv_events f s nw mo co sh hi de : Inv f s → Inv f (set_events s nw mo co sh hi de).
Proof. intros [[] HS]. split; [by constructor|]. apply HS. Qed.
Lemma wf_events s nw mo co sh hi de : WF s → WF (set_events s nw mo co sh hi de).
Proof. intros []. by constructor. Qed.

Lemma maybe_modify_quiet s u g (b : bool) :
  is_Some (units s !! u) → (∀ o, containerIndices (g o) = containerIndices o) → (∀ o, core (g o) = core o) →
  ∃ s', (if b then modify s u g else Ok s) = Ok s' ∧ quiet s s' nobody.
Proof.
  intros Hu Hi Hc. destruct b; [by apply modify_quiet|]. exists s. split; [done|apply quiet_refl].
Qed.

Lemma see_unit_inv f s b u tcu :
  Inv f s → in_int u → valid_tcu f tcu →
  ∃ s' b', see_unit f (s, b) (u, tcu) = Ok (s', b') ∧ Inv f s' ∧
    (∀ v, v = u ∨ is_Some (units s !! v) → is_Some (units s' !! v)) ∧
    ∀ v o', units s' !! v = Some o' →
      (v = u ∧ type (info o') ≠ None ∧ visible o' = true ∧ lastSeen o' = currentFrame f) ∨
      (v ≠ u ∧ ∃ o, units s !! v = Some o ∧ core o' = core o).
Proof.
  intros HI Hint Hv. destruct (find_or_insert_inv f s u HI Hint) as (HI0 & Hk & Hn).
  unfold see_unit. set (s0 := find_or_insert s u) in *. destruct (Hk u (or_introl eq_refl)) as [o Ho].
  unfold deref at 1. rewrite Ho. cbn [of_option rbind].
  set (isNew := match type (info o) with None => true | Some _ => false end).
  destruct (maybe_modify_quiet s0 u (set_firstSeen (currentFrame f)) isNew) as (s1 & -> & Q1); [by eexists|done|done|].
  cbn [rbind]. destruct (quiet_core _ _ _ _ _ Q1 (λ H, H) Ho) as (o1 & Ho1 & C1).
  destruct (updateUnit_spec f s1 u o1 tcu Ho1 Hv) as (s2 & o2 & ty & -> & Q2 & Ho2 & Hty & Hsd & Hpl & Htc & Hvis & Hdead & Hgone & Hls).
  cbn [rbind]. unfold deref at 1. rewrite Ho2. cbn [of_option rbind].
  set (tch := negb (bool_decide (type (info o2) = type (info o)))).
  destruct (maybe_modify_quiet s2 u (set_firstSeen (currentFrame f)) tch) as (s3 & -> & Q3); [by eexists|done|done|].
  cbn [rbind]. destruct (quiet_core _ _ _ _ _ Q3 (λ H, H) Ho2) as (o3 & Ho3 & C3).
  assert (Q : quiet s0 s3 (eq u)).
  { eapply quiet_trans; [eapply quiet_weaken; [|exact Q1]; done|]. eapply quiet_trans; [exact Q2|].
    eapply quiet_weaken; [|exact Q3]. done. }
  assert (core o1 = core o) as Ec1 by done. unfold core in C1, C3.
  assert (info o3 = info o2 ∧ visible o3 = visible o2 ∧ dead o3 = dead o2 ∧ gone o3 = gone o2 ∧ lastSeen o3 = lastSeen o2)
    as (I3 & V3 & D3 & G3 & L3) by (by injection C3).
  assert (dead o1 = dead o ∧ gone o1 = gone o ∧ visible o1 = visible o) as (D1 & G1 & V1) by (by injection C1).
  match goal with |- context [set_events s3 ?a ?b ?c ?d ?e ?g] => set (s4 := set_events s3 a b c d e g) end.
  assert (WF s4) as HW4 by (apply wf_events; eapply wf_quiet; [apply HI0|exact Q]).
  assert (∀ v o', v ≠ u → units s4 !! v = Some o' → synced f s4 v o') as Hoth.
  { intros v o' Hne Hv'. change (synced f s4 v o') with (synced f s3 v o').
    eapply quiet_synced; [exact Q|by intros; apply HI0|congruence|done]. }
  assert (∀ v o', units s4 !! v = Some o' → v ≠ u → ∃ o, units s !! v = Some o ∧ core o' = core o) as Hcore.
  { intros v o' Hv' Hne. destruct Q as (_ & _ & Qc & _). specialize (Qc v ltac:(congruence)).
    change (units s4 !! v) with (units s3 !! v) in Hv'. rewrite Hv' in Qc.
    destruct (units s0 !! v) as [o0|] eqn:E0; [|done].
    destruct (Hn v o0 E0) as [H0|[? _]]; [|done]. exists o0. split; [done|].
    change (Some (core o') = Some (core o0)) in Qc. congruence. }
  match goal with |- context [if ?d then rbind _ _ else _] => destruct d eqn:Ed end.
  - destruct (regroup f s4 u o3 ty HW4 Ho3) as (s5 & -> & HW5 & Hsame & Hsync & _); [by rewrite I3|by rewrite I3|].
    cbn [rbind]. eexists s5, _. split_and!; [done| | |].
    + split; [done|]. intros v o' Hv'. apply (Hsync v o' Hv'). destruct (decide (v = u)); [by left|right].
      intros o0 H0. by apply Hoth.
    + intros v Hv'. destruct (quiet_known _ _ _ v Q (Hk v Hv')) as [ov Hov].
      destruct (same_lookup s4 s5 v ov Hsame Hov) as (o5 & Ho5 & _). by eexists.
    + intros v o' Hv'. destruct (same_core _ _ _ _ Hsame Hv') as (o4 & Ho4 & C4).
      destruct (decide (v = u)) as [->|Hne]; [left|right].
      * change (units s4 !! u) with (units s3 !! u) in Ho4. assert (o4 = o3) as -> by congruence.
        unfold core in C4. injection C4 as A1 A2 A3 A4 A5. rewrite A1, A2, A5, I3, V3, L3. split_and!; congruence.
      * split; [done|]. destruct (Hcore v o4 Ho4 Hne) as (oo & ? & ?). exists oo. split; [done|congruence].
  - eexists s4, b. split_and!; [done| |intros v Hv'; by apply (quiet_known s0 s3 (eq u)), Hk|].
    + rewrite !orb_false_iff in Ed. destruct Ed as ((((((E1 & E2) & E3) & E4) & E5 & E5') & E6) & E7).
      apply negb_false_iff in E2, E4, E5, E6, E7. apply eqb_prop in E5, E6. apply Z.eqb_eq in E7.
      apply bool_decide_eq_true in E4.
      assert (type (info o) = Some ty) as Hto by congruence.
      split; [done|]. intros v o' Hv'. destruct (decide (v = u)) as [->|]; [|by apply Hoth].
      change (units s4 !! u) with (units s3 !! u) in Hv'. assert (o' = o3) as -> by congruence.
      apply (unnoticed_synced f s0 s4 u o o3 ty); try congruence.
      * by destruct Q.
      * by apply HI0.
      * unfold completed, flag, flags in *. by rewrite I3.
      * unfold active, flags in *. by rewrite I3, D3.
    + intros v o' Hv'. destruct (decide (v = u)) as [->|Hne]; [left|right; split; [done|by apply Hcore]].
      change (units s4 !! u) with (units s3 !! u) in Hv'. assert (o' = o3) as -> by congruence.
      rewrite I3, V3, L3. split_and!; congruence.
Qed.

(** ** The loops of [update] *)

Definition valid_frame (f : frame) : Prop :=
  ∀ u tcu, (u, tcu) ∈ frame_units f → in_int u ∧ valid_tcu f tcu.

Lemma clear_lists_loop f l s :
  Inv f s → (∀ p, p ∈ l → in_int p.1) →
  ∃ s', rfold clear_lists l s = Ok s' ∧ Inv f s' ∧
    (∀ v, is_Some (units s !! v) → is_Some (units s' !! v)) ∧
    ∀ v o, units s' !! v = Some o → v ∈ l.*1 ∨ ∃ o0, units s !! v = Some o0 ∧ core o = core o0.
Proof.
  revert s. induction l as [|p l IH]; intros s HI Hl; cbn [rfold].
  { exists s. split_and!; [done..|]. eauto. }
  destruct (clear_lists_inv f s p HI) as (s1 & -> & H1 & H2 & H3); [apply Hl; by left|]. cbn [rbind].
  destruct (IH s1 H1) as (s' & -> & P1 & P2 & P3); [intros; apply Hl; by right|].
  exists s'. split_and!; [done|done|auto|]. intros v o Hv. csimpl. rewrite elem_of_cons.
  destruct (P3 v o Hv) as [?|(o1 & Ho1 & C1)]; [auto|]. destruct (H3 v o1 Ho1) as [?|(o0 & Ho0 & C0)]; [auto|].
  right. exists o0. split; congruence.
Qed.

Lemma see_unit_loop f l s b :
  Inv f s → (∀ u tcu, (u, tcu) ∈ l → in_int u ∧ valid_tcu f tcu) →
  ∃ s' b', rfold (see_unit f) l (s, b) = Ok (s', b') ∧ Inv f s' ∧
    (∀ v, v ∈ l.*1 ∨ is_Some (units s !! v) → is_Some (units s' !! v)) ∧
    ∀ v o', units s' !! v = Some o' →
      (v ∈ l.*1 ∧ type (info o') ≠ None ∧ visible o' = true ∧ lastSeen o' = currentFrame f) ∨
      ((v ∉ l.*1) ∧ ∃ o, units s !! v = Some o ∧ core o' = core o).
Proof.
  revert s b. induction l as [|[u tcu] l IH]; intros s b HI Hl; cbn [rfold].
  { exists s, b. split_and!; [done|done|by intros v [?%not_elem_of_nil|?]|].
    intros v o' Hv. right. split; [set_solver|eauto]. }
  destruct (Hl u tcu) as [Hi Hv]; [by left|].
  destruct (see_unit_inv f s b u tcu HI Hi Hv) as (s1 & b1 & -> & H1 & H2 & H3). cbn [rbind].
  destruct (IH s1 b1 H1) as (s' & b' & -> & P1 & P2 & P3); [intros; apply Hl; by right|].
  exists s', b'. split_and!; [done|done| |].
  - intros v Hd. csimpl in *. rewrite elem_of_cons in Hd. apply P2. destruct Hd as [[->|?]|?]; auto.
  - intros v o' Hv'. csimpl. rewrite !elem_of_cons.
    destruct (P3 v o' Hv') as [(Hin & ?)|(Hn & o1 & Ho1 & C1)]; [left; tauto|].
    destruct (H3 v o1 Ho1) as [(-> & A1 & A2 & A3)|(Hne & o0 & Ho0 & C0)].
    + left. unfold core in C1. injection C1 as E1 E2 E3 E4 E5. rewrite E1, E2, E5. auto.
    + right. split; [tauto|]. exists o0. split; congruence.
Qed.

(** The state between the phases: in sync, every type known, and the units of
    the frame are those that are visible now. *)
Record Phase (f : frame) (s : state) : Prop := {
  p_inv : Inv f s;
  p_typed : typed s;
  p_seen : ∀ v o, units s !! v = Some o → v ∈ (frame_units f).*1 → visible o = true ∧ lastSeen o = currentFrame f;
  p_unseen : ∀ v o, units s !! v = Some o → v ∉ (frame_units f).*1 → lastSeen o < currentFrame f
}.

Lemma synced_typed f s u o : synced f s u o → type (info o) ≠ None →
  ∃ ty, type (info o) = Some ty ∧ sides f (info o).
Proof. unfold synced. destruct (type (info o)) as [ty|]; [|done]. intros (H & _) _. eauto. Qed.

(** The unit [u] has been changed by [g], then its groups are updated. *)
Lemma change_regroup f s s1 u o g :
  Inv f s → typed s → units s !! u = Some o →
  units s1 = <[u := g o]> (units s) → containers s1 = containers s →
  containerIndices (g o) = containerIndices o → info (g o) = info o →
  ∃ s', updateGroups f s1 u = Ok s' ∧ Inv f s' ∧ typed s' ∧
    (∀ v, is_Some (units s !! v) ↔ is_Some (units s' !! v)) ∧
    (∀ v o', units s' !! v = Some o' →
       if decide (v = u) then core o' = core (g o) else ∃ ov, units s !! v = Some ov ∧ core o' = core ov) ∧
    (∀ k ty, (k < 13)%nat → k ≠ myUnits_ → type (info o) = Some ty → member f (g o) ty k = member f o ty k →
       container s' k = container s k).
Proof.
  intros HI Ht Hu Hus Hcs Hix Hinf. pose proof HI as [HW HS].
  destruct (synced_typed f s u o (HS u o Hu) (Ht u o Hu)) as (ty & Hty & Hsd).
  assert (quiet s s1 (eq u)) as Q.
  { assert (quiet s (set_units s (<[u := g o]> (units s))) (eq u)) as (Q1 & Q2 & Q3 & Q4)
      by (apply (quiet_modify s u o g); [done|done|by intros []]).
    simpl in *. split_and!; rewrite ?Hus; done. }
  assert (units s1 !! u = Some (g o)) as Hu1 by (rewrite Hus; apply lookup_insert_eq).
  destruct (regroup f s1 u (g o) ty) as (s' & E & HW' & Hsame & Hsync & Hk & _); [by eapply wf_quiet|done|congruence|congruence|].
  assert (∀ v o', units s' !! v = Some o' →
       if decide (v = u) then core o' = core (g o) else ∃ ov, units s !! v = Some ov ∧ core o' = core ov) as Hc.
  { intros v o' Hv. destruct (same_core _ _ _ _ Hsame Hv) as (o1 & Ho1 & C1). rewrite Hus in Ho1.
    case_decide as Hd; [subst; rewrite lookup_insert_eq in Ho1; congruence|].
    rewrite lookup_insert_ne in Ho1 by done. eauto. }
  exists s'. split_and!; [done| | | |done|].
  - split; [done|]. intros v o' Hv. apply (Hsync v o' Hv). destruct (decide (v = u)); [by left|right].
    intros o1 Ho1. eapply quiet_synced; [done|by intros; apply HS|congruence|done].
  - intros v o' Hv. specialize (Hc v o' Hv). case_decide as Hd.
    + unfold core in Hc. injection Hc as -> _ _ _ _. rewrite Hinf. congruence.
    + destruct Hc as (ov & Hov & Hc). unfold core in Hc. injection Hc as -> _ _ _ _. by apply (Ht v).
  - intros v. destruct Q as (_ & Q2 & _). rewrite <-Q2. destruct Hsame as [Hst _]. specialize (Hst v).
    destruct (units s1 !! v), (units s' !! v); try done; split; intros [? ?]; done.
  - intros k ty' Hk13 Hne Hty' Hm. assert (ty' = ty) as -> by congruence.
    assert (container s1 k = container s k) as Ec by (unfold container; by rewrite Hcs).
    rewrite <-Ec. apply Hk; [done|]. rewrite Ec, Hm.
    pose proof (HS u o Hu) as Hsy. unfold synced in Hsy. rewrite Hty in Hsy. by apply Hsy.
Qed.

Lemma see_death_phase f s b i :
  Phase f s → ∃ s' b', see_death f (s, b) i = Ok (s', b') ∧ Phase f s' ∧
    (∀ v, is_Some (units s !! v) → is_Some (units s' !! v)).
Proof.
  intros [HI Ht Hse Hun]. unfold see_death, getUnit. destruct (units s !! i) as [o|] eqn:Ei.
  2:{ exists s, b. by split_and!. }
  unfold modify, deref at 1. rewrite Ei. cbn [of_option rbind].
  match goal with |- context [updateGroups f ?t i] => set (s1 := t) end.
  destruct (change_regroup f s s1 i o (λ o, set_goneFrame (currentFrame f) (set_dead true o)) HI Ht Ei)
    as (s' & -> & H1 & H2 & H3 & H4 & _); try done. cbn [rbind].
  destruct (proj1 (H3 i)) as [o' Ho']; [by eexists|]. unfold deref. rewrite Ho'. cbn [of_option rbind].
  eexists _, _. split_and!; [done| |by intros; apply H3].
  assert (∀ v o', units s' !! v = Some o' → ∃ ov, units s !! v = Some ov ∧ visible o' = visible ov ∧ lastSeen o' = lastSeen ov) as Hv.
  { intros v ov Hov. specialize (H4 v ov Hov). case_decide as Hd; [subst|].
    - unfold core in H4. injection H4 as _ -> _ _ ->. by exists o.
    - destruct H4 as (ov' & ? & Hc). unfold core in Hc. injection Hc as _ -> _ _ ->. by exists ov'. }
  split; try done.
  - intros v ov Hov Hin. destruct (Hv v ov Hov) as (? & ? & -> & ->). by eapply Hse.
  - intros v ov Hov Hin. destruct (Hv v ov Hov) as (? & ? & _ & ->). by eapply Hun.
Qed.

Lemma see_death_loop f l s b :
  Phase f s → ∃ s' b', rfold (see_death f) l (s, b) = Ok (s', b') ∧ Phase f s' ∧
    (∀ v, is_Some (units s !! v) → is_Some (units s' !! v)).
Proof.
  revert s b. induction l as [|i l IH]; intros s b HP; cbn [rfold]; [by exists s, b|].
  destruct (see_death_phase f s b i HP) as (s1 & b1 & -> & H1 & H2). cbn [rbind].
  destruct (IH s1 b1 H1) as (s' & b' & -> & P1 & P2). exists s', b'. split_and!; auto.
Qed.

(** ** Units that are no longer visible *)

(** The members of [o'] that the loop over the visible units keeps; whether
    the unit is visible depends on [hide]. *)
Definition looked (f : frame) (hide : bool) (o o' : obj) : Prop :=
  info o' = info o ∧ dead o' = dead o ∧ lastSeen o' = lastSeen o ∧
  visible o' = (visible o && negb (hide && negb (lastSeen o =? currentFrame f))) ∧
  gone o' = (gone o && negb hide).

Lemma look_insert f s s' u o o1 (P : Z → Prop) :
  units s !! u = Some o → units s' = <[u := o1]> (units s) → containers s' = containers s →
  containerIndices o1 = containerIndices o → (¬ P u → core o1 = core o) → looked f true o o1 →
  quiet s s' P ∧ ∀ v o', units s' !! v = Some o' → ∃ o, units s !! v = Some o ∧ looked f (bool_decide (v = u)) o o'.
Proof.
  intros Hu Hus Hcs Hix Hc Hl. split.
  - destruct (quiet_modify s u o (λ _, o1) P Hu Hix Hc) as (Q1 & Q2 & Q3 & Q4).
    simpl in *. split_and!; rewrite ?Hus; done.
  - rewrite Hus. intros v o' [(<- & <-)|[Hne Hv]]%lookup_insert_Some.
    + exists o. by rewrite bool_decide_true.
    + exists o'. split; [done|]. rewrite bool_decide_false by done. unfold looked. simpl. by rewrite !andb_true_r.
Qed.

Lemma see_visible_step f s need u :
  is_Some (units s !! u) →
  ∃ s' need', see_visible f (s, need) u = Ok (s', need') ∧ quiet s s' (λ v, v ∈ need') ∧
    (∀ v, v ∈ need → v ∈ need') ∧ (∀ v, v ∈ need' → v ∈ need ∨ v = u) ∧
    ∀ v o', units s' !! v = Some o' → ∃ o, units s !! v = Some o ∧ looked f (bool_decide (v = u)) o o'.
Proof.
  intros [o Hu]. unfold see_visible, modify, deref. rewrite Hu. cbn [of_option rbind]. unfold push_if.
  destruct (gone o) eqn:Eg; [destruct (lastSeen o =? currentFrame f) eqn:El|
    destruct (lastSeen o =? currentFrame f) eqn:El]; cbn [negb rbind of_option]; simpl;
    rewrite ?lookup_insert_eq, ?Hu; cbn [rbind of_option]; simpl; eexists _, _; split; try done.
  all: match goal with |- quiet _ ?t ?P ∧ _ =>
    assert (∃ o1, units t = <[u := o1]> (units s) ∧ containers t = containers s ∧ containerIndices o1 = containerIndices o ∧
                  looked f true o o1 ∧ (¬ P u → core o1 = core o)) as (o1 & H1 & H2 & H3 & H4 & H5);
      [|destruct (look_insert f s t u o o1 P Hu H1 H2 H3 H5 H4) as [HQ HL]] end;
    [|split_and!; [done|set_solver|set_solver|done]].
  - exists (set_gone false o). unfold looked. simpl. rewrite El, Eg, andb_true_r. split_and!; try done. set_solver.
  - exists (set_visible false (set_gone false o)). unfold looked. simpl. rewrite El, Eg, andb_false_r.
    split_and!; try done; [by rewrite insert_insert_eq|set_solver].
  - exists o. unfold looked. simpl. rewrite El, Eg, andb_true_r. split_and!; try done. by rewrite insert_id.
  - exists (set_visible false o). unfold looked. simpl. rewrite El, Eg, andb_false_r. split_and!; try done. set_solver.
Qed.

Lemma see_visible_loop f l s need :
  (∀ u, u ∈ l → is_Some (units s !! u)) →
  ∃ s' need', rfold (see_visible f) l (s, need) = Ok (s', need') ∧ quiet s s' (λ v, v ∈ need') ∧
    (∀ v, v ∈ need → v ∈ need') ∧ (∀ v, v ∈ need' → v ∈ need ∨ v ∈ l) ∧
    ∀ v o', units s' !! v = Some o' → ∃ o, units s !! v = Some o ∧ looked f (bool_decide (v ∈ l)) o o'.
Proof.
  revert s need. induction l as [|u l IH]; intros s need Hl; cbn [rfold].
  { exists s, need. split_and!; [done|apply quiet_refl|auto..|]. intros v o Hv. exists o. split; [done|].
    rewrite bool_decide_false by apply not_elem_of_nil. unfold looked. simpl. by rewrite !andb_true_r. }
  destruct (see_visible_step f s need u) as (s1 & n1 & -> & Q1 & A1 & B1 & L1); [apply Hl; by left|]. cbn [rbind].
  destruct (IH s1 n1) as (s' & n' & -> & Q2 & A2 & B2 & L2).
  { intros v Hv. eapply quiet_known; [done|]. apply Hl. by right. }
  exists s', n'. split_and!; [done| |auto| |].
  - eapply quiet_trans; [|done]. eapply quiet_weaken; [|done]. auto.
  - intros v Hv. rewrite elem_of_cons. destruct (B2 v Hv) as [?|?]; [|auto]. destruct (B1 v); auto.
  - intros v o' Hv. destruct (L2 v o' Hv) as (o1 & Ho1 & I2 & D2 & S2 & V2 & G2).
    destruct (L1 v o1 Ho1) as (o & Ho & I1 & D1 & S1 & V1 & G1). exists o. split; [done|].
    assert (negb (bool_decide (v = u)) && negb (bool_decide (v ∈ l)) = negb (bool_decide (v ∈ u :: l))) as Eh
      by (repeat case_bool_decide; set_solver).
    unfold looked. split_and!; [congruence..| |by rewrite G2, G1, <-andb_assoc, Eh]. rewrite V2, V1, S1, <-andb_assoc. f_equal.
    destruct (lastSeen o =? currentFrame f); [by rewrite !andb_false_r|]. by rewrite !andb_true_r.
Qed.

(** [updateGroups] for every unit of [need] restores the invariant. *)
Lemma regroup_loop f need s :
  WF s → (∀ v o, units s !! v = Some o → ∃ ty, type (info o) = Some ty ∧ sides f (info o)) →
  (∀ v, v ∈ need → is_Some (units s !! v)) →
  (∀ v o, units s !! v = Some o → v ∉ need → synced f s v o) →
  ∃ s', rfold (updateGroups f) need s = Ok s' ∧ Inv f s' ∧
    (∀ v, is_Some (units s' !! v) ↔ is_Some (units s !! v)) ∧
    (∀ v o', units s' !! v = Some o' → ∃ o, units s !! v = Some o ∧ core o' = core o).
Proof.
  revert s. induction need as [|u need IH]; intros s HW Hsh Hk Hs; cbn [rfold].
  { exists s. split_and!; [done| |done|eauto]. split; [done|]. intros v o Hv. apply Hs; [done|apply not_elem_of_nil]. }
  destruct (Hk u) as [o Hu]; [by left|]. destruct (Hsh u o Hu) as (ty & Hty & Hsd).
  destruct (regroup f s u o ty HW Hu Hty Hsd) as (s1 & -> & HW1 & Hsame & Hsync & _). cbn [rbind].
  assert (∀ v, is_Some (units s1 !! v) ↔ is_Some (units s !! v)) as Hdom.
  { intros v. destruct Hsame as [Hst _]. specialize (Hst v).
    destruct (units s1 !! v), (units s !! v); try done; split; intros [? ?]; done. }
  destruct (IH s1 HW1) as (s' & -> & P1 & P2 & P3).
  - intros v o1 Ho1. destruct (same_core _ _ _ _ Hsame Ho1) as (o0 & Ho0 & C). unfold core in C.
    injection C as -> _ _ _ _. by eapply Hsh.
  - intros v Hv. apply Hdom, Hk. by right.
  - intros v o1 Ho1 Hn. apply (Hsync v o1 Ho1). destruct (decide (v = u)); [by left|right].
    intros o0 Ho0. apply Hs; [done|]. set_solver.
  - exists s'. split_and!; [done|done|intros v; by rewrite P2|]. intros v o' Hv.
    destruct (P3 v o' Hv) as (o1 & Ho1 & C1). destruct (same_core _ _ _ _ Hsame Ho1) as (o0 & Ho0 & C0).
    exists o0. split; congruence.
Qed.

(** After the units that went out of sight have been hidden. *)
Record Settled (f : frame) (s : state) : Prop := {
  t_inv : Inv f s;
  t_typed : typed s;
  t_visible : ∀ v o, units s !! v = Some o → dead o = false → visible o = true ↔ v ∈ (frame_units f).*1;
  t_known : ∀ v, v ∈ (frame_units f).*1 → is_Some (units s !! v);
  t_last : ∀ v o, units s !! v = Some o → lastSeen o ≤ currentFrame f;
  t_gone : ∀ v o, units s !! v = Some o → visible o = true → dead o = false → gone o = false
}.

Lemma hide_settled f s :
  Phase f s → (∀ v, v ∈ (frame_units f).*1 → is_Some (units s !! v)) →
  ∃ s1 need s2, rfold (see_visible f) (container s visibleUnits_) (s, []) = Ok (s1, need) ∧
    rfold (updateGroups f) need s1 = Ok s2 ∧ Settled f s2.
Proof.
  intros [HI Ht Hse Hun] Hkn. pose proof HI as [HW HS].
  destruct (wf_lookup s visibleUnits_ HW) as (cont & _ & Hg & Ec); [unfold visibleUnits_; lia|].
  destruct (see_visible_loop f (container s visibleUnits_) s []) as (s1 & need & E1 & Q & _ & B & L).
  { rewrite Ec. apply Hg. }
  destruct (regroup_loop f need s1) as (s2 & E2 & HI2 & Hdom & Hc).
  - by eapply wf_quiet.
  - intros v o' Hv. destruct (L v o' Hv) as (o & Ho & -> & _). eapply synced_typed; [by apply HS|by eapply Ht].
  - intros v Hv. eapply quiet_known; [done|]. destruct (B v Hv) as [?%not_elem_of_nil|Hin]; [done|].
    rewrite Ec in Hin. by apply Hg.
  - intros v o Hv Hn. eapply quiet_synced; [done|by intros; apply HS|done|done].
  - exists s1, need, s2. split_and!; [done|done|].
    assert (∀ v o2, units s2 !! v = Some o2 → ∃ o, units s !! v = Some o ∧ info o2 = info o ∧
              looked f (bool_decide (v ∈ container s visibleUnits_)) o o2) as HL.
    { intros v o2 Hv. destruct (Hc v o2 Hv) as (o1 & Ho1 & C1). destruct (L v o1 Ho1) as (o & Ho & I & D & S & V & G).
      unfold core in C1. injection C1 as A1 A2 A3 A4 A5. exists o. unfold looked. split_and!; congruence. }
    assert (∀ v o, units s !! v = Some o → dead o = false → visible o = true → v ∈ container s visibleUnits_) as Hvc.
    { intros v o Ho Hd Hvis. pose proof (HS v o Ho) as Hsy.
      destruct (synced_typed f s v o Hsy (Ht v o Ho)) as (ty & Hty & _).
      unfold synced in Hsy. rewrite Hty in Hsy. apply Hsy; [unfold visibleUnits_; lia|done|].
      unfold visibleUnits_. cbn [member]. by rewrite Hd, Hvis. }
    split; [done| | | | |].
    + intros v o2 Hv. destruct (HL v o2 Hv) as (o & Ho & -> & _). by eapply Ht.
    + intros v o2 Hv Hd. destruct (HL v o2 Hv) as (o & Ho & _ & _ & D & _ & -> & _). rewrite D in Hd.
      split.
      * intros [Hvis Hh]%andb_true_iff. destruct (decide (v ∈ (frame_units f).*1)) as [|Hn]; [done|exfalso].
        specialize (Hun v o Ho Hn). apply Z.lt_neq, Z.eqb_neq in Hun. rewrite Hun, andb_true_r in Hh.
        apply negb_true_iff, bool_decide_eq_false in Hh. apply Hh. by eapply Hvc.
      * intros Hin. destruct (Hse v o Ho Hin) as [-> ->]. by rewrite Z.eqb_refl, andb_false_r.
    + intros v Hv. apply Hdom. eapply quiet_known; [done|]. auto.
    + intros v o2 Hv. destruct (HL v o2 Hv) as (o & Ho & _ & _ & _ & -> & _).
      destruct (decide (v ∈ (frame_units f).*1)) as [Hin|Hn].
      * destruct (Hse v o Ho Hin) as [_ ->]. lia.
      * specialize (Hun v o Ho Hn). lia.
    + intros v o2 Hv Hvis Hd. destruct (HL v o2 Hv) as (o & Ho & _ & _ & D & _ & V & ->). rewrite D in Hd. rewrite V in Hvis.
      apply andb_true_iff in Hvis as [Hvis _]. rewrite bool_decide_true by (by eapply Hvc). apply andb_false_r.
Qed.

(** ** Units that are gone *)

Lemma settled_quiet f s s' : Settled f s → quiet s s' nobody → Settled f s'.
Proof.
  intros [HI Ht Hv Hk Hl Hgo] Q.
  assert (∀ v o', units s' !! v = Some o' → ∃ o, units s !! v = Some o ∧ core o' = core o) as Hc.
  { intros v o' Hv'. destruct Q as (_ & _ & Q & _). specialize (Q v (λ H, H)). rewrite Hv' in Q.
    destruct (units s !! v) as [o|]; [|done]. exists o. split; [done|].
    change (Some (core o') = Some (core o)) in Q. congruence. }
  split.
  - split; [eapply wf_quiet; [apply HI|done]|]. intros v o' Hv'.
    eapply quiet_synced; [done|by intros; apply HI|by intros H|done].
  - intros v o' Hv'. destruct (Hc v o' Hv') as (o & Ho & C). unfold core in C. injection C as -> _ _ _ _. by eapply Ht.
  - intros v o' Hv'. destruct (Hc v o' Hv') as (o & Ho & C). unfold core in C. injection C as _ -> -> _ _. by eapply Hv.
  - intros v Hin. by eapply quiet_known, Hk.
  - intros v o' Hv'. destruct (Hc v o' Hv') as (o & Ho & C). unfold core in C. injection C as _ _ _ _ ->. by eapply Hl.
  - intros v o' Hv'. destruct (Hc v o' Hv') as (o & Ho & C). unfold core in C. injection C as _ -> -> -> _. by eapply Hgo.
Qed.

Lemma quiet_visible s s' P : quiet s s' P → (∀ v, ¬ P v) →
  ∀ v o', units s' !! v = Some o' → ∃ o, units s !! v = Some o ∧ visible o' = visible o.
Proof.
  intros (_ & _ & Q & _) HP v o' Hv. specialize (Q v (HP v)). rewrite Hv in Q.
  destruct (units s !! v) as [o|]; [|done]. exists o. split; [done|].
  change (Some (core o') = Some (core o)) in Q. unfold core in Q. congruence.
Qed.

Lemma see_hidden_settled f s u o :
  Settled f s → units s !! u = Some o → visible o = false →
  ∃ s', see_hidden f s u = Ok s' ∧ Settled f s' ∧ (∀ v, is_Some (units s !! v) → is_Some (units s' !! v)) ∧
    ∀ v o', units s' !! v = Some o' → ∃ ov, units s !! v = Some ov ∧ visible o' = visible ov.
Proof.
  intros HP Hu Hvis. unfold see_hidden. unfold deref at 1. rewrite Hu. cbn [of_option rbind].
  assert (∃ s', Ok s = Ok s' ∧ Settled f s' ∧ (∀ v, is_Some (units s !! v) → is_Some (units s' !! v)) ∧
    ∀ v o', units s' !! v = Some o' → ∃ ov, units s !! v = Some ov ∧ visible o' = visible ov) as Hnop by (exists s; split_and!; eauto).
  destruct (negb (gone o)); [|done].
  match goal with |- context [if ?b then _ else Ok s] => destruct b; [|done] end.
  destruct (_ >=? 40).
  { destruct (modify_quiet s u (set_goneFrame (currentFrame f)) nobody) as (s' & -> & Q); [by eexists|done|done|].
    exists s'. split_and!; [done|by eapply settled_quiet| |eapply quiet_visible; [done|by intros v []]].
    intros v. by apply quiet_known with (P := nobody). }
  destruct (_ >=? 20); [|done]. unfold modify, deref. rewrite Hu. cbn [of_option rbind].
  pose proof HP as [HI Ht Hv Hk Hl Hgo].
  match goal with |- context [updateGroups f ?t u] => set (s1 := t) end.
  destruct (change_regroup f s s1 u o (set_gone true) HI Ht Hu) as (s' & -> & H1 & H2 & H3 & H4 & H5); try done.
  cbn [rbind]. destruct (type (info o)) as [ty|] eqn:Hty; [|by destruct (Ht u o Hu)].
  rewrite bool_decide_true; [|apply (H5 _ ty); [unfold hiddenUnits_; lia|done|done|done]].
  assert (∀ v o', units s' !! v = Some o' → ∃ ov, units s !! v = Some ov ∧ visible o' = visible ov ∧
            dead o' = dead ov ∧ lastSeen o' = lastSeen ov ∧ (v = u ∨ gone o' = gone ov)) as Hc.
  { intros v ov Hov. specialize (H4 v ov Hov). case_decide as Hd; [subst|].
    - unfold core in H4. injection H4 as _ -> -> _ ->. exists o. split_and!; auto.
    - destruct H4 as (ov' & ? & Hc). unfold core in Hc. injection Hc as _ -> -> -> ->. exists ov'. split_and!; auto. }
  exists s'. split_and!; [done| |by intros; apply H3|].
  - split; try done.
    + intros v o' Hv'. destruct (Hc v o' Hv') as (? & ? & -> & -> & _). by eapply Hv.
    + intros v Hin. by apply H3, Hk.
    + intros v o' Hv'. destruct (Hc v o' Hv') as (? & ? & _ & _ & -> & _). by eapply Hl.
    + intros v o' Hv' Hvis' Hd'. destruct (Hc v o' Hv') as (ov & Hov & E1 & E2 & _ & [->| ->]); [congruence|].
      eapply Hgo; [done|congruence|congruence].
  - intros v o' Hv'. destruct (Hc v o' Hv') as (ov & ? & ? & _). by exists ov.
Qed.

Lemma see_hidden_loop f l s :
  Settled f s → (∀ u, u ∈ l → ∃ o, units s !! u = Some o ∧ visible o = false) →
  ∃ s', rfold (see_hidden f) l s = Ok s' ∧ Settled f s'.
Proof.
  revert s. induction l as [|u l IH]; intros s HP Hl; cbn [rfold]; [eauto|].
  destruct (Hl u) as (o & Hu & Hv); [by left|].
  destruct (see_hidden_settled f s u o HP Hu Hv) as (s1 & -> & H1 & H2 & H3). cbn [rbind].
  apply IH; [done|]. intros v Hin. destruct (Hl v) as (ov & Hov & Hvis); [by right|].
  destruct (H2 v) as [o' Ho']; [by eexists|]. exists o'. split; [done|].
  destruct (H3 v o' Ho') as (ov' & ? & ->). congruence.
Qed.

(** ** My units by type *)

Lemma group_by_type_ok f s keep g : Inv f s → typed s → ∃ g', group_by_type s keep g = Ok g'.
Proof.
  intros [HW _] Ht. unfold group_by_type. destruct (wf_lookup s myUnits_ HW) as (cont & _ & Hg & ->); [unfold myUnits_; lia|].
  pose proof (g_known _ _ _ Hg) as Hk. clear Hg HW. generalize ((λ _ : list Z, @nil Z) <$> g) as a.
  induction cont as [|u cont IH]; intros a; cbn [rfold]; [eauto|].
  destruct (Hk u) as [o Hu]; [by left|]. unfold deref at 1. rewrite Hu. cbn [of_option rbind].
  pose proof (Ht u o Hu). destruct (type (info o)); [|done].
  destruct (keep o); cbn [of_option rbind]; apply IH; intros; apply Hk; by right.
Qed.

Lemma update_myGroups_settled f s : Settled f s → ∃ s', update_myGroups s = Ok s' ∧ Settled f s'.
Proof.
  intros HP. pose proof HP as [HI Ht _ _ _ _]. unfold update_myGroups.
  destruct (group_by_type_ok f s (λ _, true) (myUnitsOfType_ s) HI Ht) as [g ->]. cbn [rbind].
  destruct (group_by_type_ok f s completed (myCompletedUnitsOfType_ s) HI Ht) as [c ->]. cbn [rbind].
  eexists. split; [done|]. by apply (settled_quiet f s).
Qed.

(** ** A frame *)

(** What holds of the state when frame [f] arrives. *)
Record Ready (f : frame) (s : state) : Prop := {
  r_inv : Inv f s;
  r_typed : typed s;
  r_last : ∀ v o, units s !! v = Some o → lastSeen o < currentFrame f
}.

Lemma update_settled f s : Ready f s → valid_frame f → ∃ s', update f s = Ok s' ∧ Settled f s'.
Proof.
  intros [HI Ht Hl] Hf. unfold update.
  destruct (clear_lists_loop f (frame_units f) (clear_events s)) as (s1 & -> & I1 & K1 & C1).
  { by apply inv_events. }
  { intros [u tcu] Hp. by eapply Hf. }
  cbn [rbind]. destruct (see_unit_loop f (frame_units f) s1 false I1 Hf) as (s2 & b & -> & I2 & K2 & C2). cbn [rbind].
  assert (Phase f s2) as P2.
  { split; [done| | |].
    - intros v o2 Hv. destruct (C2 v o2 Hv) as [(_ & ? & _)|(Hn & o1 & Ho1 & C)]; [done|].
      destruct (C1 v o1 Ho1) as [?|(o & Ho & C')]; [done|]. unfold core in C, C'.
      injection C as -> _ _ _ _. injection C' as -> _ _ _ _. by eapply Ht.
    - intros v o2 Hv Hin. destruct (C2 v o2 Hv) as [(_ & _ & ? & ?)|(Hn & _)]; done.
    - intros v o2 Hv Hn. destruct (C2 v o2 Hv) as [(? & _)|(_ & o1 & Ho1 & C)]; [done|].
      destruct (C1 v o1 Ho1) as [?|(o & Ho & C')]; [done|]. unfold core in C, C'.
      injection C as _ _ _ _ ->. injection C' as _ _ _ _ ->. by eapply Hl. }
  destruct (see_death_loop f (deaths f) s2 b P2) as (s3 & b' & -> & P3 & K3). cbn [rbind].
  destruct (hide_settled f s3 P3) as (s4 & need & s5 & -> & E & P5); [auto|]. cbn [rbind]. rewrite E. cbn [rbind].
  destruct (wf_lookup s5 hiddenUnits_) as (cont & _ & Hg & Ec); [apply P5|unfold hiddenUnits_; lia|].
  destruct (see_hidden_loop f (container s5 hiddenUnits_) s5 P5) as (s6 & -> & P6).
  { intros u Hu. destruct (g_known _ _ _ Hg u) as [o Ho]; [by rewrite <-Ec|]. exists o. split; [done|].
    pose proof P5 as [[_ HS5] Ht5 _ _ _ _]. pose proof (HS5 u o Ho) as Hsy.
    destruct (synced_typed f s5 u o Hsy (Ht5 u o Ho)) as (ty & Hty & _). unfold synced in Hsy. rewrite Hty in Hsy.
    apply Hsy in Hu; [|unfold hiddenUnits_; lia|done]. unfold hiddenUnits_ in Hu. cbn [member] in Hu.
    apply andb_true_iff in Hu as [_ ?]. by apply negb_true_iff. }
  cbn [rbind]. destruct b'; [by apply update_myGroups_settled|eauto].
Qed.

(** ** The game *)

(** The frames of a game arrive in order, seen by the same player. *)
Definition next_frame (f f' : frame) : Prop :=
  myPlayerId f' = myPlayerId f ∧ neutralId f' = neutralId f ∧ currentFrame f < currentFrame f'.

Lemma synced_frame f f' s u o :
  myPlayerId f' = myPlayerId f → neutralId f' = neutralId f → synced f s u o → synced f' s u o.
Proof.
  intros E1 E2. unfold synced, sides, mine_visible. destruct (type (info o)) as [ty|]; [|done].
  assert (∀ k, member f' o ty k = member f o ty k) as Hm by (intros k; unfold member; by rewrite E1).
  rewrite E1, E2, Hm. intros (? & H & ?). split_and!; try tauto. intros k. rewrite Hm. apply H.
Qed.

Lemma settled_ready f f' s : Settled f s → next_frame f f' → Ready f' s.
Proof.
  intros [[HW HS] Ht _ _ Hl _] (E1 & E2 & Hlt). split; [split; [done|]|done|].
  - intros u o Hu. by eapply synced_frame, HS.
  - intros u o Hu. specialize (Hl u o Hu). lia.
Qed.

Lemma init_ready f : Ready f init.
Proof. split; [split; [apply init_wf|]| |]; intros u o Hu; done. Qed.

(** All the frames of a game. *)
Definition play (fs : list frame) (s : state) : res state := rfold (λ s f, update f s) fs s.

Lemma play_settled fs f s :
  Forall valid_frame (f :: fs) → Sorted next_frame (f :: fs) → Ready f s →
  ∃ s' f', play (f :: fs) s = Ok s' ∧ last (f :: fs) = Some f' ∧ Settled f' s'.
Proof.
  unfold play. revert f s. induction fs as [|f1 fs IH]; intros f s Hv Hs HR; inversion_clear Hv as [|?? Hf Hv'];
    destruct (update_settled f s HR Hf) as (s1 & E & P); cbn [rfold]; rewrite E; cbn [rbind].
  - exists s1, f. by split_and!.
  - inversion_clear Hs as [|?? Hs' Hn]. inversion_clear Hn as [|?? Hn'].
    destruct (IH f1 s1 Hv' Hs' (settled_ready f f1 s1 P Hn')) as (s' & f' & E' & L & P').
    exists s', f'. by split_and!.
Qed.

Lemma settled_visible f s v :
  Settled f s → v ∈ container s visibleUnits_ ↔ v ∈ (frame_units f).*1 ∧ ∃ o, units s !! v = Some o ∧ dead o = false.
Proof.
  intros [[HW HS] Ht Hv Hk _ _]. destruct (wf_lookup s visibleUnits_ HW) as (cont & _ & Hg & Ec); [unfold visibleUnits_; lia|].
  assert (∀ o, units s !! v = Some o → v ∈ container s visibleUnits_ ↔ dead o = false ∧ visible o = true) as H.
  { intros o Ho. pose proof (HS v o Ho) as Hsy. destruct (synced_typed f s v o Hsy (Ht v o Ho)) as (ty & Hty & _).
    unfold synced in Hsy. rewrite Hty in Hsy. destruct Hsy as (_ & H & _).
    rewrite (H visibleUnits_); [|unfold visibleUnits_; lia|done]. unfold visibleUnits_. cbn [member].
    by rewrite andb_true_iff, negb_true_iff. }
  split.
  - intros Hin. destruct (g_known _ _ _ Hg v) as [o Ho]; [by rewrite <-Ec|].
    destruct (proj1 (H o Ho) Hin) as [Hdead Hvis]. split; [by eapply Hv|by exists o].
  - intros [Hin [o [Ho Hdead]]]. apply (H o Ho). split; [done|]. by eapply Hv.
Qed.

(** Played through [update], the frames of a game never fail, and after the
    last one: every unit has a type, is in exactly the containers whose
    condition it meets (but see [synced] for [myUnits_]), and the visible units
    are the units of that frame that are not dead. *)
Theorem play_groups fs f f' :
  Forall valid_frame (f :: fs) → Sorted next_frame (f :: fs) → last (f :: fs) = Some f' →
  ∃ s, play (f :: fs) init = Ok s ∧ WF s ∧ typed s ∧
    (∀ u o, units s !! u = Some o → synced f' s u o) ∧
    ∀ v, v ∈ container s visibleUnits_ ↔ v ∈ (frame_units f').*1 ∧ ∃ o, units s !! v = Some o ∧ dead o = false.
Proof.
  intros Hv Hs Hl. destruct (play_settled fs f init Hv Hs (init_ready f)) as (s & f1 & E & L & P).
  assert (f1 = f') as -> by congruence. exists s. split_and!; [done|apply P..|].
  intros v. by apply settled_visible.
Qed.
End update.

(** ** Examples *)

(** A probe (7) and a photon cannon (8) that is powered while it is built.  In
    the second frame the pylon that powered it is lost; in the third the probe
    is out of sight. *)
Definition probe_tcu : tcunit := example_tcu 7 64 (Z.lor Powered Completed).
Definition cannon_tcu (powered : bool) : tcunit :=
  example_tcu 8 162 (Z.lor BeingConstructed (if powered then Powered else 0)).
Definition frame1 : frame := example_frame 1 [(7, probe_tcu); (8, cannon_tcu true)] [].
Definition frame2 : frame := example_frame 2 [(7, probe_tcu); (8, cannon_tcu false)] [].
Definition frame3 : frame := example_frame 3 [(8, cannon_tcu false)] [].

Lemma example_valid n us ds :
  Forall (λ p, in_int p.1 ∧ getUnitBuildType (tc_type p.2) ≠ None) us → valid_frame (example_frame n us ds).
Proof.
  intros H u tcu Hin. rewrite Forall_forall in H. destruct (H (u, tcu) Hin) as [H1 H2]. by split.
Qed.

(** Three frames: the probe disappears from the visible units. *)
Lemma play_groups_witness :
  ∃ s, play (table := example_types) (attributes := example_attributes) [frame1; frame2; frame3] init = Ok s ∧
    7 ∉ container s visibleUnits_.
Proof.
  destruct (play_groups (table := example_types) (attributes := example_attributes) [frame2; frame3] frame1 frame3)
    as (s & E & _ & _ & _ & H).
  - repeat apply Forall_cons_2; [apply example_valid..|apply Forall_nil_2];
      repeat constructor; simpl; try done; vm_compute; intros; done.
  - repeat constructor.
  - reflexivity.
  - exists s. split; [exact E|]. intros [Hin _]%H. apply list_elem_of_singleton in Hin. discriminate Hin.
Defined.

(** The exception in [synced] is real: a photon cannon that loses its power
    while it is being built stays in [myUnits_], whose condition asks for
    power, because [update] regroups a unit only when [active] changed. *)
Theorem unpowered_stays_mine :
  ∃ s o, play (table := example_types) (attributes := example_attributes) [frame1; frame2] init = Ok s ∧
    units s !! 8 = Some o ∧ 8 ∈ container s myUnits_ ∧
    member (table := example_types) (attributes := example_attributes) frame2 o BuildType.Protoss_Photon_Cannon myUnits_ = false.
Proof.
  eexists _, _. split; [vm_compute; reflexivity|]. split; [vm_compute; reflexivity|]. split.
  - vm_compute. right. left.
  - vm_compute. reflexivity.
Qed.
End UnitsUpdate.
