(* ===== verification/UnitsKept.v ===== *)
(** * What [UnitsInfo::update] keeps ([src/unitsinfo.cpp])

    A unit's data is what the game reported when the unit was last in a frame,
    no unit is ever forgotten, and the lists of the player's units by type only
    have units that exist. *)

From S2P Require Import Prelude BuildTypes UnitsInfo UnitGroups UnitsUpdate.

Module UnitsKept.
Import UnitsInfo.

Section kept.
Context {table : BuildType.Table} {attributes : Attributes}.
Context (f : frame).

(** What [updateUnit] computes from a report. *)
Definition reported (tcu : tcunit) (i : seen) : Prop :=
  unit i = tcu ∧ x i = clamp (mapWidth f) (tc_x tcu) ∧ y i = clamp (mapHeight f) (tc_y tcu) ∧
  ∃ ty o, type i = Some ty ∧ sightRange i = unitSightRange f o ty ∧
    buildX i = Z.quot (tc_pixel_x tcu - tileWidth ty * 16) 8 ∧ buildY i = Z.quot (tc_pixel_y tcu - tileHeight ty * 16) 8.

(** The lists are [M], the units of [D] exist, and every unit is as new or
    satisfies [Q]. *)
Context (M : gmap Z (list Z)) (Q : seen → Prop) (D : Z → Prop).
Context (HQ : ∀ u tcu i, (u, tcu) ∈ frame_units f → reported tcu i → Q i).

Record Kept (s : state) : Prop := {
  k_mine : myUnitsOfType_ s = M;
  k_info : ∀ v o, units s !! v = Some o → info o = info newUnit ∨ Q (info o);
  k_known : ∀ v, D v → is_Some (units s !! v)
}.

Lemma kept_insert s u o o' :
  Kept s → units s !! u = Some o → info o' = info o ∨ Q (info o') → Kept (set_units s (<[u := o']> (units s))).
Proof.
  intros [H1 H2 H3] Hu Hi. split; [done|cbn [units set_units]..].
  - intros v ov [(<- & <-)|[_ Hv]]%lookup_insert_Some; [|by eapply H2].
    destruct Hi as [->|]; [by eapply H2|by right].
  - intros v Hv. apply lookup_insert_is_Some'. right. by apply H3.
Qed.

Lemma kept_modify s u g s' : Kept s → modify s u g = Ok s' → (∀ o, info (g o) = info o) → Kept s'.
Proof. unfold modify, deref. intros HK E Hg. inv_res. eapply kept_insert; [done..|]. by left. Qed.

Lemma kept_events s nw mo co sh hi de : Kept s → Kept (set_events s nw mo co sh hi de).
Proof. intros []. by constructor. Qed.
Lemma kept_containers s cs : Kept s → Kept (set_containers s cs).
Proof. intros []. by constructor. Qed.

Lemma kept_find_or_insert s u : Kept s → Kept (find_or_insert s u).
Proof.
  intros HK. unfold find_or_insert. destruct (units s !! u) eqn:E; [done|]. destruct HK as [H1 H2 H3]. split; [done|cbn [units set_units]..].
  - intros v o [(<- & <-)|[_ Hv]]%lookup_insert_Some; [by left|by eapply H2].
  - intros v Hv. apply lookup_insert_is_Some'. right. by apply H3.
Qed.

Lemma kept_container s u k b s' : Kept s → updateUnitContainer s u k b = Ok s' → Kept s'.
Proof.
  intros HK E. unfold updateUnitContainer in E. inv_res. destruct b.
  - case_match; inv_res; [|done]. apply kept_containers. eapply kept_modify; [done|eassumption|by intros].
  - case_match; inv_res; [|done]. case_match; inv_res. apply kept_containers.
    eapply kept_modify; [|eassumption|by intros]. case_match; inv_res; [|by simplify_eq].
    case_match; [|done]. simplify_eq. eapply kept_modify; [done|eassumption|by intros].
Qed.

Lemma kept_groups s u s' : Kept s → updateGroups f s u = Ok s' → Kept s'.
Proof.
  intros HK. unfold updateGroups. apply (rfold_inv Kept); [|done].
  intros s1 k s2 _ H1 E. inv_res. by eapply kept_container.
Qed.

Lemma kept_attack u os s s' : Kept s → updateAttack f s u os = Ok s' → Kept s'.
Proof.
  revert s. induction os as [|o os IH]; intros s HK E; cbn [updateAttack] in E; [by inv_res|].
  destruct (tcOrderIsAttack _); [|by eapply IH]. destruct (getUnit s (targetId o)); [|by eapply IH].
  inv_res. eapply kept_modify; [|eassumption|by intros]. eapply kept_modify; [|eassumption|by intros]. eapply kept_modify; [done|eassumption|by intros].
Qed.

Lemma kept_larva s u s' : Kept s → updateLarva f s u = Ok s' → Kept s'.
Proof.
  intros HK E. unfold updateLarva in E. inv_res. case_match; [|by inv_res]. case_match; [|by inv_res].
  eapply kept_modify; [done|eassumption|by intros].
Qed.

Lemma kept_updateUnit s u tcu s' :
  (u, tcu) ∈ frame_units f → Kept s → updateUnit f s u tcu = Ok s' → Kept s'.
Proof using HQ.
  intros Hin HK E. unfold updateUnit in E. inv_res.
  match goal with p : (_ * _ * _)%type |- _ => destruct p as [[c up] re] end. inv_res.
  eapply kept_larva; [|done]. eapply kept_attack; [|done].
  match goal with H : modify s u _ = Ok _ |- _ => unfold modify in H end. inv_res. unfold deref in *. inv_res.
  eapply kept_insert; [done|done|]. right. apply (HQ u tcu); [done|]. split_and!; [done..|].
  eexists _, _. split_and!; [done|done|done|done].
Qed.

Lemma kept_clear s p s' : Kept s → clear_lists s p = Ok s' → Kept s'.
Proof. intros HK E. eapply kept_modify; [by apply kept_find_or_insert|exact E|by intros]. Qed.

Lemma kept_maybe s u g (b : bool) s' :
  Kept s → (if b then modify s u g else Ok s) = Ok s' → (∀ o, info (g o) = info o) → Kept s'.
Proof. intros HK E Hg. destruct b; inv_res; [by eapply kept_modify|done]. Qed.

Lemma kept_see_unit s b p s' b' :
  p ∈ frame_units f → Kept s → see_unit f (s, b) p = Ok (s', b') → Kept s'.
Proof using HQ.
  intros Hin HK E. destruct p as [u tcu]. unfold see_unit in E. inv_res.
  assert (∀ s1, Kept s1 → ∀ nw mo co sh hi de, Kept (set_events s1 nw mo co sh hi de)) as Hev by (intros; by apply kept_events).
  match goal with H : (if ?d then _ else _) = Ok (s', b') |- _ => destruct d end; inv_res.
  all: try match goal with H : Ok (_, _) = Ok (_, _) |- _ => injection H as <- <- end.
  - eapply kept_groups; [|eassumption]. apply Hev. eapply kept_maybe; [|eassumption|by intros].
    eapply kept_updateUnit; [done| |eassumption]. eapply kept_maybe; [|eassumption|by intros]. by apply kept_find_or_insert.
  - apply Hev. eapply kept_maybe; [|eassumption|by intros].
    eapply kept_updateUnit; [done| |eassumption]. eapply kept_maybe; [|eassumption|by intros]. by apply kept_find_or_insert.
Qed.

Lemma kept_see_death s b i s' b' : Kept s → see_death f (s, b) i = Ok (s', b') → Kept s'.
Proof.
  intros HK E. unfold see_death in E. destruct (getUnit s i); [|by inv_res; simplify_eq]. inv_res. simplify_eq.
  eapply kept_groups; [|eassumption]. apply kept_events. eapply kept_modify; [done|eassumption|by intros].
Qed.

Lemma kept_see_visible s n u s' n' : Kept s → see_visible f (s, n) u = Ok (s', n') → Kept s'.
Proof.
  intros HK E. unfold see_visible in E. inv_res.
  match goal with H : (if ?d then _ else _) = Ok (s', n') |- _ => destruct d end; inv_res; simplify_eq.
  - apply kept_events. eapply kept_modify; [|eassumption|by intros]. eapply kept_maybe; [done|eassumption|by intros].
  - eapply kept_maybe; [done|eassumption|by intros].
Qed.

Lemma kept_see_hidden s u s' : Kept s → see_hidden f s u = Ok s' → Kept s'.
Proof.
  intros HK E. unfold see_hidden in E. inv_res. repeat (case_match; inv_res; try done).
  all: first [eapply kept_modify; [done|eassumption|by intros]
             |eapply kept_groups; [|eassumption]; eapply kept_modify; [done|eassumption|by intros]].
Qed.

(** All but the last step of [update]. *)
Lemma kept_loops s s1 r2 r3 r4 s5 s6 :
  Kept s → rfold clear_lists (frame_units f) s = Ok s1 → rfold (see_unit f) (frame_units f) (s1, false) = Ok r2 →
  rfold (see_death f) (deaths f) r2 = Ok r3 →
  rfold (see_visible f) (container r3.1 visibleUnits_) (r3.1, []) = Ok r4 →
  rfold (updateGroups f) r4.2 r4.1 = Ok s5 → rfold (see_hidden f) (container s5 hiddenUnits_) s5 = Ok s6 → Kept s6.
Proof using HQ.
  intros HK E1 E2 E3 E4 E5 E6.
  assert (Kept s1) as K1 by (eapply (rfold_inv Kept); [|done|done]; intros; by eapply kept_clear).
  assert (Kept r2.1) as K2.
  { eapply (rfold_inv (λ r, Kept r.1) (see_unit f) _ (s1, false)); [|exact K1|exact E2]. intros [? ?] p [? ?] Hp H E. by eapply kept_see_unit. }
  assert (Kept r3.1) as K3.
  { eapply (rfold_inv (λ r, Kept r.1) (see_death f) _ r2); [|exact K2|exact E3]. intros [? ?] p [? ?] _ H E. by eapply kept_see_death. }
  assert (Kept r4.1) as K4.
  { eapply (rfold_inv (λ r, Kept r.1) (see_visible f) _ (r3.1, [])); [|exact K3|exact E4]. intros [? ?] p [? ?] _ H E. by eapply kept_see_visible. }
  assert (Kept s5) as K5 by (eapply (rfold_inv Kept); [|exact K4|done]; intros; by eapply kept_groups).
  eapply (rfold_inv Kept); [|exact K5|done]. intros. by eapply kept_see_hidden.
Qed.
End kept.

Section update.
Context {table : BuildType.Table} {attributes : Attributes}.

(** The lists only have units that exist. *)
Definition listed (s : state) : Prop :=
  ∀ k l u, myUnitsOfType_ s !! k = Some l → u ∈ l → is_Some (units s !! u).

Lemma group_by_type_listed s keep g g' :
  group_by_type s keep g = Ok g' → ∀ k l u, g' !! k = Some l → u ∈ l → is_Some (units s !! u).
Proof.
  intros E. revert E. apply (rfold_inv (λ g, ∀ k l u, g !! k = Some l → u ∈ l → is_Some (units s !! u))).
  - intros g1 v g2 _ H1 E k l u Hk Hu. inv_res. unfold deref in *. inv_res. case_match; inv_res; [|by eapply H1].
    apply lookup_insert_Some in Hk as [(<- & <-)|[_ Hk]]; [|by eapply H1].
    apply elem_of_app in Hu as [Hu|Hu%list_elem_of_singleton]; [|subst; by eexists].
    destruct (g1 !! _) as [l1|] eqn:El; [|by apply not_elem_of_nil in Hu]. by eapply H1.
  - intros k l u Hk Hu. rewrite lookup_fmap in Hk. destruct (g !! k); [|done]. injection Hk as <-. by apply not_elem_of_nil in Hu.
Qed.

(** A frame keeps a property of the reported data, and the lists in order. *)
Lemma update_kept f (Q : seen → Prop) s s' :
  (∀ u tcu i, (u, tcu) ∈ frame_units f → reported f tcu i → Q i) →
  (∀ v o, units s !! v = Some o → info o = info newUnit ∨ Q (info o)) → listed s → update f s = Ok s' →
  (∀ v o, units s' !! v = Some o → info o = info newUnit ∨ Q (info o)) ∧ listed s' ∧
  ∀ v, is_Some (units s !! v) → is_Some (units s' !! v).
Proof.
  intros HQ Hi Hl E. unfold update in E. inv_res.
  repeat match goal with H : (let '(_, _) := ?p in _) = Ok _ |- _ => destruct p end. inv_res.
  repeat match goal with H : (let '(_, _) := ?p in _) = Ok _ |- _ => destruct p end. inv_res.
  assert (Kept (myUnitsOfType_ s) Q (λ v, is_Some (units s !! v)) (clear_events s)) as HK by (by split).
  match goal with H : rfold (see_hidden f) _ _ = Ok ?t |- _ =>
    assert (Kept (myUnitsOfType_ s) Q (λ v, is_Some (units s !! v)) t) as [K1 K2 K3];
      [eapply (kept_loops f _ _ _ HQ _ _ _ _ _ _ _ HK); try eassumption; by cbn|] end.
  match goal with H : (if ?b then _ else _) = Ok s' |- _ => destruct b end; inv_res.
  - match goal with H : update_myGroups _ = Ok _ |- _ => unfold update_myGroups in H end. inv_res. split_and!; [done| |done].
    intros k lu u Hk Hu. cbn in Hk |- *. eapply group_by_type_listed; [|exact Hk|exact Hu]. eassumption.
  - split_and!; [done| |done]. intros k lu u Hk Hu. rewrite K1 in Hk. by eapply K3, Hl.
Qed.
End update.
End UnitsKept.
