(* ===== verification/Tiles.v ===== *)
(** * The tiles of the map ([src/tilesinfo.cpp])

    [TilesInfo] keeps a fixed grid of 256 by 256 build tiles, of which the map
    fills the upper left corner.  This file has the data, the constructor, the
    lookup by walk tile, and the reservation of areas for buildings, which
    either reserves the whole area or leaves the grid as it was. *)

From S2P Require Import Prelude Floats BuildTypes UnitsInfo UnitGroups.

Module Tiles.

(** ** Data *)

(** [src/src/basetypes.h:37-37] kForever *)
Definition kForever : Z := 24 * 60 * 60 * 24 * 7.

(** [src/src/tilesinfo.h:29-76] Tile *)
Record tile := Tile {
  x : Z; y : Z; visible : bool; buildable : bool; reservedAsUnbuildable : bool; hasCreep : bool;
  lazyUpdateFrame : Z; expectsCreepUpdated_ : Z; expectsCreepFrame_ : Z;
  reservedForGathering : bool; resourceDepotUnbuildable : bool; reservedForResourceDepot : bool;
  blockedUntil : Z; building : option Z; entirelyWalkable : bool; height : Z;
  lastSeen : Z; lastSlowUpdate : Z }.

Definition tile0 : tile :=
  Tile 0 0 false false false false (- kForever) (- kForever) kForever false false false 0 None false 0 0 0.

(** A building with the tiles it occupies.

    [src/src/tilesinfo.h:118-124] TilesInfo::TileOccupyingBuilding *)
Record occupant := Occupant { v_u : Z; v_type : BuildType; pixelX : Z; pixelY : Z; v_tiles : list Z }.

(** A [Tile*] is an index into [tiles].

    [src/src/tilesinfo.h:113-136] TilesInfo *)
Record state := State {
  tiles : list tile; mapTileWidth_ : Z; mapTileHeight_ : Z;
  tileOccupyingBuildings_ : list (Z * occupant);
  lastSlowTileUpdate_ : Z; lastUpdateBuildings_ : Z; lastFowCreepUpdate_ : Z }.

(** [src/src/tilesinfo.h:98-98] TilesInfo::tilesWidth *)
Definition tilesWidth : Z := 256.
(** [src/src/tilesinfo.h:99-99] TilesInfo::tilesHeight *)
Definition tilesHeight : Z := 256.
Definition XYWalktilesPerBuildtile : Z := 4.

(** *** Assignments to members *)

Definition set_visible (v : bool) (t : tile) : tile :=
  Tile (x t) (y t) v (buildable t) (reservedAsUnbuildable t) (hasCreep t) (lazyUpdateFrame t)
    (expectsCreepUpdated_ t) (expectsCreepFrame_ t) (reservedForGathering t) (resourceDepotUnbuildable t)
    (reservedForResourceDepot t) (blockedUntil t) (building t) (entirelyWalkable t) (height t) (lastSeen t) (lastSlowUpdate t).
Definition set_lastSeen (v : Z) (t : tile) : tile :=
  Tile (x t) (y t) (visible t) (buildable t) (reservedAsUnbuildable t) (hasCreep t) (lazyUpdateFrame t)
    (expectsCreepUpdated_ t) (expectsCreepFrame_ t) (reservedForGathering t) (resourceDepotUnbuildable t)
    (reservedForResourceDepot t) (blockedUntil t) (building t) (entirelyWalkable t) (height t) v (lastSlowUpdate t).
Definition set_reserved (v : bool) (t : tile) : tile :=
  Tile (x t) (y t) (visible t) (buildable t) v (hasCreep t) (lazyUpdateFrame t)
    (expectsCreepUpdated_ t) (expectsCreepFrame_ t) (reservedForGathering t) (resourceDepotUnbuildable t)
    (reservedForResourceDepot t) (blockedUntil t) (building t) (entirelyWalkable t) (height t) (lastSeen t) (lastSlowUpdate t).
Definition set_hasCreep (v : bool) (t : tile) : tile :=
  Tile (x t) (y t) (visible t) (buildable t) (reservedAsUnbuildable t) v (lazyUpdateFrame t)
    (expectsCreepUpdated_ t) (expectsCreepFrame_ t) (reservedForGathering t) (resourceDepotUnbuildable t)
    (reservedForResourceDepot t) (blockedUntil t) (building t) (entirelyWalkable t) (height t) (lastSeen t) (lastSlowUpdate t).
Definition set_expectsCreep (updated frame : Z) (t : tile) : tile :=
  Tile (x t) (y t) (visible t) (buildable t) (reservedAsUnbuildable t) (hasCreep t) (lazyUpdateFrame t)
    updated frame (reservedForGathering t) (resourceDepotUnbuildable t)
    (reservedForResourceDepot t) (blockedUntil t) (building t) (entirelyWalkable t) (height t) (lastSeen t) (lastSlowUpdate t).
Definition set_reservedForGathering (v : bool) (t : tile) : tile :=
  Tile (x t) (y t) (visible t) (buildable t) (reservedAsUnbuildable t) (hasCreep t) (lazyUpdateFrame t)
    (expectsCreepUpdated_ t) (expectsCreepFrame_ t) v (resourceDepotUnbuildable t)
    (reservedForResourceDepot t) (blockedUntil t) (building t) (entirelyWalkable t) (height t) (lastSeen t) (lastSlowUpdate t).
Definition set_resourceDepotUnbuildable (v : bool) (t : tile) : tile :=
  Tile (x t) (y t) (visible t) (buildable t) (reservedAsUnbuildable t) (hasCreep t) (lazyUpdateFrame t)
    (expectsCreepUpdated_ t) (expectsCreepFrame_ t) (reservedForGathering t) v
    (reservedForResourceDepot t) (blockedUntil t) (building t) (entirelyWalkable t) (height t) (lastSeen t) (lastSlowUpdate t).
Definition set_reservedForResourceDepot (v : bool) (t : tile) : tile :=
  Tile (x t) (y t) (visible t) (buildable t) (reservedAsUnbuildable t) (hasCreep t) (lazyUpdateFrame t)
    (expectsCreepUpdated_ t) (expectsCreepFrame_ t) (reservedForGathering t) (resourceDepotUnbuildable t)
    v (blockedUntil t) (building t) (entirelyWalkable t) (height t) (lastSeen t) (lastSlowUpdate t).
Definition set_blockedUntil (v : Z) (t : tile) : tile :=
  Tile (x t) (y t) (visible t) (buildable t) (reservedAsUnbuildable t) (hasCreep t) (lazyUpdateFrame t)
    (expectsCreepUpdated_ t) (expectsCreepFrame_ t) (reservedForGathering t) (resourceDepotUnbuildable t)
    (reservedForResourceDepot t) v (building t) (entirelyWalkable t) (height t) (lastSeen t) (lastSlowUpdate t).
Definition set_building (v : option Z) (t : tile) : tile :=
  Tile (x t) (y t) (visible t) (buildable t) (reservedAsUnbuildable t) (hasCreep t) (lazyUpdateFrame t)
    (expectsCreepUpdated_ t) (expectsCreepFrame_ t) (reservedForGathering t) (resourceDepotUnbuildable t)
    (reservedForResourceDepot t) (blockedUntil t) v (entirelyWalkable t) (height t) (lastSeen t) (lastSlowUpdate t).
Definition set_lastSlowUpdate (v : Z) (t : tile) : tile :=
  Tile (x t) (y t) (visible t) (buildable t) (reservedAsUnbuildable t) (hasCreep t) (lazyUpdateFrame t)
    (expectsCreepUpdated_ t) (expectsCreepFrame_ t) (reservedForGathering t) (resourceDepotUnbuildable t)
    (reservedForResourceDepot t) (blockedUntil t) (building t) (entirelyWalkable t) (height t) (lastSeen t) v.
(** What the constructor sets. *)
Definition set_static (px py : Z) (b : bool) (h : Z) (w : bool) (t : tile) : tile :=
  Tile px py (visible t) b (reservedAsUnbuildable t) (hasCreep t) (lazyUpdateFrame t)
    (expectsCreepUpdated_ t) (expectsCreepFrame_ t) (reservedForGathering t) (resourceDepotUnbuildable t)
    (reservedForResourceDepot t) (blockedUntil t) (building t) w h (lastSeen t) (lastSlowUpdate t).

Definition set_tiles (s : state) (ts : list tile) : state :=
  State ts (mapTileWidth_ s) (mapTileHeight_ s) (tileOccupyingBuildings_ s) (lastSlowTileUpdate_ s)
    (lastUpdateBuildings_ s) (lastFowCreepUpdate_ s).
Definition set_occupants (s : state) (m : list (Z * occupant)) : state :=
  State (tiles s) (mapTileWidth_ s) (mapTileHeight_ s) m (lastSlowTileUpdate_ s)
    (lastUpdateBuildings_ s) (lastFowCreepUpdate_ s).
Definition set_lastSlowTileUpdate (s : state) (v : Z) : state :=
  State (tiles s) (mapTileWidth_ s) (mapTileHeight_ s) (tileOccupyingBuildings_ s) v
    (lastUpdateBuildings_ s) (lastFowCreepUpdate_ s).
Definition set_lastUpdateBuildings (s : state) (v : Z) : state :=
  State (tiles s) (mapTileWidth_ s) (mapTileHeight_ s) (tileOccupyingBuildings_ s) (lastSlowTileUpdate_ s)
    v (lastFowCreepUpdate_ s).

(** ** Access *)

(** [v[i]] for a vector; undefined outside of it. *)
Definition at_ {A} (v : list A) (i : Z) : res A :=
  if 0 <=? i then of_option (v !! Z.to_nat i) else Undefined.

(** [*ptr], and an assignment to members of [*ptr]. *)
Definition getAt (s : state) (ptr : Z) : res tile := at_ (tiles s) ptr.
Definition modify (f : tile → tile) (s : state) (ptr : Z) : res state :=
  let? t := getAt s ptr in Ok (set_tiles s (<[Z.to_nat ptr := f t]> (tiles s))).

(** [src/src/tilesinfo.cpp:375-382] TilesInfo::tryGetTile *)
Definition tryGetTile (s : state) (walkX walkY : Z) : option Z :=
  let tileX := u32 walkX / XYWalktilesPerBuildtile in
  let tileY := u32 walkY / XYWalktilesPerBuildtile in
  if (tileX >=? mapTileWidth_ s) || (tileY >=? mapTileHeight_ s) then None
  else Some (u32 (tilesWidth * tileY + tileX)).

(** [src/src/tilesinfo.cpp:363-369] TilesInfo::getTile *)
Definition getTile (s : state) (walkX walkY : Z) : res Z :=
  match tryGetTile s walkX walkY with
  | None => Throw "attempt to get invalid tile"
  | Some t => Ok t
  end.

(** ** Walking over the grid *)

(** [for (n = cols; n; --n, ++ptr) f( *ptr)] *)
Fixpoint for_cols {A} (f : A → Z → res A) (cols : nat) (acc : A) (ptr : Z) : res (A * Z) :=
  match cols with
  | O => Ok (acc, ptr)
  | S cols => let? acc := f acc ptr in for_cols f cols acc (ptr + 1)
  end.

(** [for (n = rows; n; --n, ptr += stride)] around the above *)
Fixpoint for_rows {A} (f : A → Z → res A) (rows cols : nat) (stride : Z) (acc : A) (ptr : Z) : res (A * Z) :=
  match rows with
  | O => Ok (acc, ptr)
  | S rows =>
      let? p := for_cols f cols acc ptr in
      for_rows f rows cols stride p.1 (p.2 + stride)
  end.

(** [src/src/tilesinfo.cpp:57-67] forAllTiles *)
Definition forAllTiles (f : state → Z → res state) (s : state) : res state :=
  let stride := u32 (tilesWidth - mapTileWidth_ s) in
  let? p := for_rows f (Z.to_nat (mapTileHeight_ s)) (Z.to_nat (mapTileWidth_ s)) stride s 0 in
  Ok p.1.

(** ** Constructor *)

(** The map as TorchCraft sends it, at walk tile resolution. *)
Record mapdata := MapData {
  map_width : Z; map_height : Z;
  buildable_data : list Z; ground_height_data : list Z; walkable_data : list Z }.

(** [src/src/tilesinfo.cpp:41-51] TilesInfo::TilesInfo *)
Definition allWalkable (d : mapdata) (px py : Z) : res bool :=
  rfold (λ acc suby,
    (* the break leaves the inner loop only *)
    let? r := rfold (λ acc subx,
      let '(w, stopped) := acc in
      if (stopped : bool) then Ok (w, true) else
      let? v := at_ (walkable_data d) ((py + suby) * map_width d + (px + subx)) in
      if v =? 0 then Ok (false, true) else Ok (w, false))
      (range 0 XYWalktilesPerBuildtile) (acc, false) in
    Ok r.1) (range 0 XYWalktilesPerBuildtile) true.

(** [src/src/tilesinfo.cpp:36-52] TilesInfo::TilesInfo *)
Definition initTile (d : mapdata) (tileY : Z) (s : state) (tileX : Z) : res state :=
  let px := tileX * XYWalktilesPerBuildtile in
  let py := tileY * XYWalktilesPerBuildtile in
  let? b := at_ (buildable_data d) (py * map_width d + px) in
  let? h := at_ (ground_height_data d) (py * map_width d + px) in
  let? w := allWalkable d px py in
  modify (set_static px py (negb (b =? 0)) h w) s (tilesWidth * tileY + tileX).

(** [src/src/tilesinfo.cpp:22-55] TilesInfo::TilesInfo *)
Definition construct (d : mapdata) : res state :=
  let w := u32 (map_width d) / XYWalktilesPerBuildtile in
  let h := u32 (map_height d) / XYWalktilesPerBuildtile in
  if tilesWidth <? w then Throw "bad map width" else
  if tilesHeight <? h then Throw "bad map height" else
  let s := State (replicate (Z.to_nat (tilesHeight * tilesWidth)) tile0) w h [] 0 0 0 in
  rfold (λ s tileY, rfold (initTile d tileY) (range 0 w) s) (range 0 h) s.

(** ** Reservations *)

Section reserve.
Context {table : BuildType.Table} {attributes : UnitsInfo.Attributes}.

(** The loop over the area: an exception leaves with the tiles as they are
    after the rollback.

    [src/src/tilesinfo.cpp:408-430] reserveAreaImpl *)
Definition reserveTile (reserve : bool) (acc : state * list Z * option string) (ptr : Z)
    : res (state * list Z * option string) :=
  let '(s, changedTiles, exn) := acc in
  match exn with
  | Some _ => Ok acc
  | None =>
      let? t := getAt s ptr in
      if negb (eqb (reservedAsUnbuildable t) (negb reserve)) then
        let? s := rfold (modify (set_reserved (negb reserve))) changedTiles s in
        Ok (s, changedTiles, Some (if reserve then "attempt to reserve reserved tile" else "attempt to unreserve unreserved tile")%string)
      else
        let? s := modify (set_reserved reserve) s ptr in
        Ok (s, changedTiles ++ [ptr], None)
  end.

(** The state afterwards and the exception that is thrown, if any.

    [src/src/tilesinfo.cpp:388-432] reserveAreaImpl *)
Definition reserveAreaImpl (reserve : bool) (s : state) (ty : BuildType) (walkX walkY : Z) : res (state * option string) :=
  let beginX := u32 walkX / XYWalktilesPerBuildtile in
  let beginY := u32 walkY / XYWalktilesPerBuildtile in
  let endX := u32 (beginX + UnitsInfo.tileWidth ty) in
  let endY := u32 (beginY + UnitsInfo.tileHeight ty) in
  if (beginX >=? mapTileWidth_ s) || (endX >=? mapTileWidth_ s) ||
     (beginY >=? mapTileHeight_ s) || (endY >=? mapTileHeight_ s) then
    Ok (s, Some (if reserve then "attempt to reserve area out of bounds" else "attempt to unreserve area out of bounds")%string)
  else
    let tileWidth := u32 (endX - beginX) in
    let tileHeight := u32 (endY - beginY) in
    let stride := u32 (tilesWidth - u32 (endX - beginX)) in
    let? r := for_rows (reserveTile reserve) (Z.to_nat tileHeight) (Z.to_nat tileWidth) stride
                (s, [], None) (u32 (tilesWidth * beginY + beginX)) in
    let '(s, _, exn) := r.1 in Ok (s, exn).

(** [src/src/tilesinfo.cpp:434-436] TilesInfo::reserveArea *)
Definition reserveArea := reserveAreaImpl true.
(** [src/src/tilesinfo.cpp:438-440] TilesInfo::unreserveArea *)
Definition unreserveArea := reserveAreaImpl false.
End reserve.

(** [src/src/tilesinfo.cpp:442-444] Tile::expectsCreepBy *)
Definition expectsCreepBy (t : tile) : Z :=
  if expectsCreepUpdated_ t >=? lastSlowUpdate t then expectsCreepFrame_ t else kForever.

(** ** Well-formed grids *)

Definition size : Z := tilesHeight * tilesWidth.

Record WF (s : state) : Prop := {
  wf_size : length (tiles s) = Z.to_nat size;
  wf_width : 0 ≤ mapTileWidth_ s ≤ tilesWidth;
  wf_height : 0 ≤ mapTileHeight_ s ≤ tilesHeight
}.

(** The tile with build tile coordinates [tx] and [ty] is on the map. *)
Definition on_map (s : state) (tx ty : Z) : Prop := 0 ≤ tx < mapTileWidth_ s ∧ 0 ≤ ty < mapTileHeight_ s.
Definition tile_index (tx ty : Z) : Z := tilesWidth * ty + tx.

Lemma tile_index_inj s tx ty tx' ty' :
  WF s → on_map s tx ty → on_map s tx' ty' → tile_index tx ty = tile_index tx' ty' → tx = tx' ∧ ty = ty'.
Proof. intros [_ Hw _] Ha Hb. unfold on_map, tile_index, tilesWidth in *. lia. Qed.

Lemma tile_index_range s tx ty : WF s → on_map s tx ty → 0 ≤ tile_index tx ty < size.
Proof. intros [_ Hw Hh] Ha. unfold on_map, tile_index, size, tilesWidth, tilesHeight in *. lia. Qed.

(** A walk tile outside of the map, also one with negative coordinates, which
    wrap around, has no tile. *)
Lemma tryGetTile_spec s walkX walkY p :
  WF s → in_int walkX → in_int walkY →
  tryGetTile s walkX walkY = Some p ↔
    on_map s (walkX / 4) (walkY / 4) ∧ p = tile_index (walkX / 4) (walkY / 4).
Proof.
  intros [_ Hw Hh] HX HY. unfold tryGetTile, on_map, tile_index, in_int, tilesWidth, tilesHeight, XYWalktilesPerBuildtile, u32 in *.
  rewrite !Z.geb_leb.
  assert (∀ z, - 2 ^ 31 ≤ z < 2 ^ 31 → z mod 2 ^ 32 / 4 = if 0 <=? z then z / 4 else z / 4 + 2 ^ 30) as E.
  { intros z Hz. destruct (Z.leb_spec 0 z); [by rewrite Z.mod_small by lia|].
    replace (z mod 2 ^ 32) with (z + 2 ^ 32) by (apply (Z.mod_unique_pos _ _ (-1)); lia).
    rewrite (Z.div_add _ (2 ^ 30) 4); lia. }
  rewrite !E by lia. pose proof (Z.div_mod walkX 4). pose proof (Z.div_mod walkY 4).
  pose proof (Z.mod_pos_bound walkX 4). pose proof (Z.mod_pos_bound walkY 4).
  destruct (Z.leb_spec 0 walkX), (Z.leb_spec 0 walkY);
    repeat match goal with |- context [Z.leb ?a ?b] => destruct (Z.leb_spec a b) end; simpl;
    split; try (intros [=]; fail); try (intros (? & ?); lia); intros Hp; try lia.
  - injection Hp as <-. rewrite Z.mod_small by lia. lia.
  - destruct Hp as [_ ->]. f_equal. rewrite Z.mod_small; lia.
Qed.

(** ** Assignments to several tiles *)

(** [f] applied to the tiles at [l], in this order. *)
Definition upd (f : tile → tile) (l : list Z) (ts : list tile) : list tile :=
  foldl (λ ts p, alter f (Z.to_nat p) ts) ts l.

Definition in_grid (l : list Z) : Prop := ∀ p, p ∈ l → 0 ≤ p < size.

Lemma upd_app f l1 l2 ts : upd f (l1 ++ l2) ts = upd f l2 (upd f l1 ts).
Proof. apply foldl_app. Qed.
Lemma length_upd f l ts : length (upd f l ts) = length ts.
Proof. revert ts. induction l as [|p l IH]; intros ts; simpl; [done|]. rewrite IH. apply length_alter. Qed.

Lemma lookup_upd f l ts i :
  NoDup l → in_grid l → upd f l ts !! i = if decide (Z.of_nat i ∈ l) then f <$> ts !! i else ts !! i.
Proof.
  revert ts. induction l as [|p l IH]; intros ts Hn Hl; [by rewrite decide_False by apply not_elem_of_nil|].
  unfold upd in *. cbn [foldl].
  apply NoDup_cons in Hn as [Hp Hn]. rewrite IH; [|done|intros q Hq; apply Hl; by right].
  destruct (Hl p) as [Hp0 _]; [by left|]. destruct (decide (Z.of_nat i = p)) as [<-|Hne].
  - rewrite Nat2Z.id, list_lookup_alter_eq. by rewrite decide_False, decide_True by (done || by left).
  - rewrite list_lookup_alter_ne by lia. apply decide_ext. rewrite elem_of_cons. naive_solver.
Qed.

(** For an idempotent assignment it does not matter if a tile occurs twice. *)
Lemma lookup_upd_idemp f l ts i :
  (∀ t, f (f t) = f t) → in_grid l → upd f l ts !! i = if decide (Z.of_nat i ∈ l) then f <$> ts !! i else ts !! i.
Proof.
  intros Hf. revert ts. induction l as [|p l IH]; intros ts Hl; [by rewrite decide_False by apply not_elem_of_nil|].
  unfold upd in *. cbn [foldl].
  rewrite IH by (intros q Hq; apply Hl; by right). destruct (Hl p) as [Hp0 _]; [by left|].
  destruct (decide (Z.of_nat i = p)) as [<-|Hne].
  - rewrite Nat2Z.id, list_lookup_alter_eq. rewrite (decide_True (P := Z.of_nat i ∈ _ :: l)) by (by left).
    case_decide; [|done]. destruct (ts !! i); simpl; [by rewrite Hf|done].
  - rewrite list_lookup_alter_ne by lia. apply decide_ext. rewrite elem_of_cons. naive_solver.
Qed.

Lemma getAt_ok s p : WF s → 0 ≤ p < size → ∃ t, getAt s p = Ok t ∧ tiles s !! Z.to_nat p = Some t.
Proof.
  intros [Hs _ _] Hp. unfold getAt, at_. replace (0 <=? p) with true by lia.
  destruct (lookup_lt_is_Some_2 (tiles s) (Z.to_nat p)) as [t Ht]; [lia|]. rewrite Ht. by exists t.
Qed.

Lemma alter_insert (f : tile → tile) (ts : list tile) (i : nat) t : ts !! i = Some t → alter f i ts = <[i := f t]> ts.
Proof.
  intros Ht. apply list_eq. intros j. destruct (decide (j = i)) as [->|].
  - rewrite list_lookup_alter_eq, list_lookup_insert_eq by (by eapply lookup_lt_Some). by rewrite Ht.
  - by rewrite list_lookup_alter_ne, list_lookup_insert_ne.
Qed.

Lemma modify_ok f s p : WF s → 0 ≤ p < size → modify f s p = Ok (set_tiles s (upd f [p] (tiles s))).
Proof.
  intros HW Hp. unfold modify. destruct (getAt_ok s p HW Hp) as (t & -> & Ht). cbn [rbind upd foldl].
  do 2 f_equal. symmetry. by apply alter_insert.
Qed.

Lemma wf_upd f l s : WF s → WF (set_tiles s (upd f l (tiles s))).
Proof. intros []. constructor; simpl; [by rewrite length_upd|done|done]. Qed.

Lemma set_tiles_twice s ts ts' : set_tiles (set_tiles s ts) ts' = set_tiles s ts'.
Proof. done. Qed.
Lemma set_tiles_same s : set_tiles s (tiles s) = s.
Proof. by destruct s. Qed.

Lemma modify_list f l s : WF s → in_grid l → rfold (modify f) l s = Ok (set_tiles s (upd f l (tiles s))).
Proof.
  revert s. induction l as [|p l IH]; intros s HW Hl; cbn [rfold]; [by rewrite set_tiles_same|].
  rewrite modify_ok by (done || apply Hl; by left). cbn [rbind].
  rewrite IH; [done|by apply wf_upd|intros q Hq; apply Hl; by right].
Qed.

(** ** The cells of a rectangle *)

(** [rows] rows of [cols] cells each, [pitch] apart, from [ptr] on. *)
Fixpoint cells (rows cols : nat) (pitch ptr : Z) : list Z :=
  match rows with
  | O => []
  | S rows => seqZ ptr (Z.of_nat cols) ++ cells rows cols pitch (ptr + pitch)
  end.

Lemma elem_of_cells rows cols pitch ptr p :
  p ∈ cells rows cols pitch ptr ↔ ∃ r c, 0 ≤ r < Z.of_nat rows ∧ 0 ≤ c < Z.of_nat cols ∧ p = ptr + r * pitch + c.
Proof.
  revert ptr. induction rows as [|rows IH]; intros ptr; cbn [cells].
  { split; [by intros ?%not_elem_of_nil|]. intros (r & c & ? & _). lia. }
  rewrite elem_of_app, elem_of_seqZ, IH. split.
  - intros [?|(r & c & ? & ? & ->)]; [exists 0, (p - ptr)|exists (r + 1), c]; lia.
  - intros (r & c & Hr & Hc & ->). destruct (decide (r = 0)) as [->|]; [left; lia|right; exists (r - 1), c; lia].
Qed.

Lemma NoDup_cells rows cols pitch ptr : Z.of_nat cols ≤ pitch → NoDup (cells rows cols pitch ptr).
Proof.
  intros Hp. revert ptr. induction rows as [|rows IH]; intros ptr; cbn [cells]; [constructor|].
  apply NoDup_app. split_and!; [apply NoDup_seqZ| |apply IH].
  intros q Hq%elem_of_seqZ (r & c & Hr & Hc & ->)%elem_of_cells. nia.
Qed.

Lemma for_cols_rfold {A} (f : A → Z → res A) cols acc ptr :
  for_cols f cols acc ptr = let? a := rfold f (seqZ ptr (Z.of_nat cols)) acc in Ok (a, ptr + Z.of_nat cols).
Proof.
  revert acc ptr. induction cols as [|cols IH]; intros acc ptr; cbn [for_cols]; [by rewrite Z.add_0_r|].
  rewrite seqZ_cons by lia. cbn [rfold]. destruct (f acc ptr); cbn [rbind]; try done. rewrite IH.
  replace (Z.succ ptr) with (ptr + 1) by lia. replace (Z.pred (Z.of_nat (S cols))) with (Z.of_nat cols) by lia.
  destruct (rfold _ _ _); cbn [rbind]; try done. do 2 f_equal. lia.
Qed.

Lemma for_rows_rfold {A} (f : A → Z → res A) rows cols stride acc ptr :
  for_rows f rows cols stride acc ptr =
  let? a := rfold f (cells rows cols (Z.of_nat cols + stride) ptr) acc in
  Ok (a, ptr + Z.of_nat rows * (Z.of_nat cols + stride)).
Proof.
  revert acc ptr. induction rows as [|rows IH]; intros acc ptr; cbn [for_rows cells].
  { cbn [rfold rbind]. do 2 f_equal. lia. }
  rewrite for_cols_rfold, rfold_app. destruct (rfold f (seqZ ptr (Z.of_nat cols)) acc); cbn [rbind]; try done.
  rewrite IH. simpl. replace (ptr + Z.of_nat cols + stride) with (ptr + (Z.of_nat cols + stride)) by lia.
  destruct (rfold _ _ _); cbn [rbind]; try done. do 2 f_equal. lia.
Qed.

(** The tiles of the map, row by row. *)
Definition map_cells (s : state) : list Z :=
  cells (Z.to_nat (mapTileHeight_ s)) (Z.to_nat (mapTileWidth_ s)) tilesWidth 0.

Lemma elem_of_map_cells s p :
  WF s → p ∈ map_cells s ↔ ∃ tx ty, on_map s tx ty ∧ p = tile_index tx ty.
Proof.
  intros [_ Hw Hh]. unfold map_cells, on_map, tile_index. rewrite elem_of_cells. split.
  - intros (r & c & ? & ? & ->). exists c, r. lia.
  - intros (tx & ty & [? ?] & ->). exists ty, tx. lia.
Qed.

Lemma map_cells_grid s : WF s → in_grid (map_cells s).
Proof. intros HW p (tx & ty & H & ->)%elem_of_map_cells; [|done]. by eapply tile_index_range. Qed.

Lemma NoDup_map_cells s : WF s → NoDup (map_cells s).
Proof. intros [_ Hw _]. apply NoDup_cells. lia. Qed.

(** [forAllTiles] visits the tiles of the map, and only those. *)
Lemma forAllTiles_rfold f s : WF s → forAllTiles f s = rfold f (map_cells s) s.
Proof.
  intros [_ Hw Hh]. unfold forAllTiles. rewrite for_rows_rfold.
  assert (Z.of_nat (Z.to_nat (mapTileWidth_ s)) + u32 (tilesWidth - mapTileWidth_ s) = tilesWidth) as ->.
  { rewrite u32_small by (unfold tilesWidth in *; lia). lia. }
  unfold map_cells. by destruct (rfold _ _ _).
Qed.

(** ** Reservations are all or nothing *)

Section reservations.
Context {table : BuildType.Table} {attributes : UnitsInfo.Attributes}.

(** The tiles of the area of a building, and when [reserveArea] accepts it. *)
Definition area (ty : BuildType) (walkX walkY : Z) : list Z :=
  cells (Z.to_nat (UnitsInfo.tileHeight ty)) (Z.to_nat (UnitsInfo.tileWidth ty)) tilesWidth (tile_index (walkX / 4) (walkY / 4)).
Definition fits (s : state) (ty : BuildType) (walkX walkY : Z) : Prop :=
  0 ≤ walkX ∧ 0 ≤ walkY ∧
  walkX / 4 + UnitsInfo.tileWidth ty < mapTileWidth_ s ∧ walkY / 4 + UnitsInfo.tileHeight ty < mapTileHeight_ s.
Definition all_reserved (b : bool) (s : state) (l : list Z) : Prop :=
  ∀ p t, p ∈ l → tiles s !! Z.to_nat p = Some t → reservedAsUnbuildable t = b.
#[export] Instance fits_dec s ty walkX walkY : Decision (fits s ty walkX walkY).
Proof. unfold fits. apply _. Defined.

Lemma set_reserved_undo b t : reservedAsUnbuildable t = negb b → set_reserved (negb b) (set_reserved b t) = t.
Proof. by destruct t; simpl; intros ->. Qed.

Lemma upd_undo b l ts :
  NoDup l → in_grid l → (∀ p t, p ∈ l → ts !! Z.to_nat p = Some t → reservedAsUnbuildable t = negb b) →
  upd (set_reserved (negb b)) l (upd (set_reserved b) l ts) = ts.
Proof.
  intros Hn Hl Hf. apply list_eq. intros i. rewrite !lookup_upd by done. case_decide as Hi; [|done].
  destruct (ts !! i) as [t|] eqn:Et; simpl; [|done]. f_equal. apply set_reserved_undo.
  apply (Hf (Z.of_nat i)); [done|]. by rewrite Nat2Z.id.
Qed.

Lemma reserve_stopped b l s ch msg : rfold (reserveTile b) l (s, ch, Some msg) = Ok (s, ch, Some msg).
Proof. induction l as [|q l IH]; [done|]. exact IH. Qed.

(** One round of the loop, [ch] being the tiles changed so far. *)
Lemma reserve_loop b l ch s :
  WF s → NoDup (ch ++ l) → in_grid (ch ++ l) → all_reserved (negb b) s ch →
  (all_reserved (negb b) s l →
     rfold (reserveTile b) l (set_tiles s (upd (set_reserved b) ch (tiles s)), ch, None) =
     Ok (set_tiles s (upd (set_reserved b) (ch ++ l) (tiles s)), ch ++ l, None)) ∧
  (¬ all_reserved (negb b) s l → ∃ ch' msg,
     rfold (reserveTile b) l (set_tiles s (upd (set_reserved b) ch (tiles s)), ch, None) = Ok (s, ch', Some msg)).
Proof.
  revert ch. induction l as [|p l IH]; intros ch HW Hn Hg Hch; cbn [rfold].
  { rewrite app_nil_r. split; [done|]. intros []. intros p t Hp. by apply not_elem_of_nil in Hp. }
  set (s1 := set_tiles s (upd (set_reserved b) ch (tiles s))).
  assert (WF s1) as HW1 by (by apply wf_upd).
  assert (0 ≤ p < size) as Hp by (apply Hg; set_solver).
  assert (p ∉ ch) as Hpch by (intros ?; apply NoDup_app in Hn as (_ & Hn & _); eapply Hn; [done|by left]).
  assert (NoDup ch) as Hnch by (by apply NoDup_app in Hn as [? _]).
  assert (in_grid ch) as Hgch by (intros q Hq; apply Hg; set_solver).
  destruct (getAt_ok s1 p HW1 Hp) as (t & Et & Ht). cbn [reserveTile]. rewrite !Et. cbn [rbind].
  assert (tiles s !! Z.to_nat p = Some t) as Ht0.
  { unfold s1 in Ht. simpl in Ht. rewrite lookup_upd, decide_False in Ht; [done|by rewrite Z2Nat.id by lia|done|done]. }
  destruct (eqb (reservedAsUnbuildable t) (negb b)) eqn:Eb; cbn [negb].
  - apply eqb_prop in Eb. rewrite modify_ok by done. cbn [rbind]. unfold s1. rewrite set_tiles_twice. cbn [tiles set_tiles].
    rewrite <-upd_app. change (p :: l) with ([p] ++ l) in *. rewrite (assoc_L (++)) in Hn, Hg.
    assert (all_reserved (negb b) s (ch ++ [p])) as Hch'.
    { intros q tq [Hq|Hq%list_elem_of_singleton]%elem_of_app Htq; [by eapply Hch|]. subst. congruence. }
    destruct (IH (ch ++ [p]) HW Hn Hg Hch') as [H1 H2]. rewrite (assoc_L (++) ch [p] l). split.
    + intros Hall. apply H1. intros q tq Hq. apply Hall. by right.
    + intros Hnot. apply H2. intros Hall. apply Hnot. intros q tq [->%list_elem_of_singleton|Hq]%elem_of_app; [|by apply Hall].
      intros ?. congruence.
  - split.
    + intros Hall. assert (reservedAsUnbuildable t = negb b) as E by (apply (Hall p); [by left|done]).
      rewrite E in Eb. by destruct b.
    + intros _. rewrite modify_list by done. cbn [rbind]. unfold s1. rewrite set_tiles_twice. cbn [tiles set_tiles].
      rewrite upd_undo by done. rewrite set_tiles_same.
      match goal with |- context [Some (if b then ?m1 else ?m2)] => exists ch, (if b then m1 else m2) end.
      apply reserve_stopped.
Qed.

Lemma u32_div4 z : 0 ≤ z < 2 ^ 32 → u32 z / 4 = z / 4.
Proof. intros. by rewrite u32_small. Qed.

Lemma u32_negative z : - 2 ^ 31 ≤ z < 0 → 2 ^ 29 ≤ u32 z / 4.
Proof.
  intros Hz. unfold u32. replace (z mod 2 ^ 32) with (z + 2 ^ 32) by (apply (Z.mod_unique_pos _ _ (-1)); lia).
  apply Z.div_le_lower_bound; lia.
Qed.

(** The area is inside of the grid when it fits. *)
Lemma area_grid s ty walkX walkY : WF s → fits s ty walkX walkY → in_grid (area ty walkX walkY).
Proof.
  intros [_ Hw Hh] (HX & HY & Ha & Hb) p (r & c & ? & ? & ->)%elem_of_cells.
  unfold tile_index, size, tilesWidth, tilesHeight in *.
  pose proof (Z.div_pos walkX 4). pose proof (Z.div_pos walkY 4). lia.
Qed.

(** The dimensions of a building. *)
Definition sane_size (ty : BuildType) : Prop := 0 ≤ UnitsInfo.tileWidth ty ≤ 256 ∧ 0 ≤ UnitsInfo.tileHeight ty ≤ 256.

Lemma reserveArea_unfold b s ty walkX walkY :
  WF s → in_int walkX → in_int walkY → sane_size ty →
  (fits s ty walkX walkY → reserveAreaImpl b s ty walkX walkY =
     let? r := rfold (reserveTile b) (area ty walkX walkY) (s, [], None) in let '(s, _, exn) := r in Ok (s, exn)) ∧
  (¬ fits s ty walkX walkY → ∃ msg, reserveAreaImpl b s ty walkX walkY = Ok (s, Some msg)).
Proof.
  intros HW HX HY [Hw Hh]. unfold reserveAreaImpl, XYWalktilesPerBuildtile. rewrite !Z.geb_leb.
  pose proof HW as [_ HmW HmH]. unfold tilesWidth, tilesHeight in HmW, HmH. unfold in_int in *.
  split.
  - intros (HX0 & HY0 & Ha & Hb). rewrite !u32_div4 by lia.
    pose proof (Z.div_pos walkX 4). pose proof (Z.div_pos walkY 4).
    rewrite !(u32_small (walkX / 4 + _)), !(u32_small (walkY / 4 + _)) by lia.
    repeat match goal with |- context [Z.leb ?a ?b] => replace (Z.leb a b) with false by lia end. cbn [orb].
    rewrite for_rows_rfold, !(u32_small (_ + _ - _)) by lia. rewrite (u32_small (tilesWidth - _)) by (unfold tilesWidth; lia).
    rewrite (u32_small (tilesWidth * _ + _)) by (unfold tilesWidth; lia). unfold area, tile_index.
    replace (walkX / 4 + UnitsInfo.tileWidth ty - walkX / 4) with (UnitsInfo.tileWidth ty) by lia.
    replace (walkY / 4 + UnitsInfo.tileHeight ty - walkY / 4) with (UnitsInfo.tileHeight ty) by lia.
    replace (Z.of_nat (Z.to_nat (UnitsInfo.tileWidth ty)) + (tilesWidth - UnitsInfo.tileWidth ty)) with tilesWidth by lia.
    by destruct (rfold _ _ _).
  - intros Hf. match goal with |- context [if ?c then _ else _] => destruct c eqn:E end; [by eexists|exfalso].
    rewrite !orb_false_iff, !Z.leb_gt in E. destruct E as [[[E1 E2] E3] E4]. apply Hf.
    assert (0 ≤ walkX) as HX0 by (destruct (Z_lt_le_dec walkX 0); [pose proof (u32_negative walkX); lia|done]).
    assert (0 ≤ walkY) as HY0 by (destruct (Z_lt_le_dec walkY 0); [pose proof (u32_negative walkY); lia|done]).
    rewrite !u32_div4 in * by lia.
    pose proof (Z.div_pos walkX 4). pose proof (Z.div_pos walkY 4).
    rewrite u32_small in E2, E4 by lia. by split_and!.
Qed.

Lemma reserveAreaImpl_ok b s ty walkX walkY :
  WF s → in_int walkX → in_int walkY → sane_size ty →
  (fits s ty walkX walkY → all_reserved (negb b) s (area ty walkX walkY) →
     reserveAreaImpl b s ty walkX walkY = Ok (set_tiles s (upd (set_reserved b) (area ty walkX walkY) (tiles s)), None)) ∧
  (¬ (fits s ty walkX walkY ∧ all_reserved (negb b) s (area ty walkX walkY)) →
     ∃ msg, reserveAreaImpl b s ty walkX walkY = Ok (s, Some msg)).
Proof.
  intros HW HX HY Hsz. destruct (reserveArea_unfold b s ty walkX walkY HW HX HY Hsz) as [H1 H2].
  destruct (decide (fits s ty walkX walkY)) as [Hf|Hf]; [|split; [by intros|by intros _; apply H2]].
  rewrite (H1 Hf). destruct (reserve_loop b (area ty walkX walkY) [] s HW) as [L1 L2].
  - apply NoDup_cells. destruct Hsz. unfold tilesWidth. lia.
  - by eapply area_grid.
  - intros p t Hp. by apply not_elem_of_nil in Hp.
  - change (upd (set_reserved b) [] (tiles s)) with (tiles s) in L1, L2. rewrite set_tiles_same in L1, L2. split.
    + intros _ Hall. by rewrite (L1 Hall).
    + intros Hn. destruct L2 as (ch' & msg & ->); [tauto|]. by exists msg.
Qed.

Lemma reserved_upd b l s p :
  WF s → NoDup l → in_grid l → 0 ≤ p → 
  tiles (set_tiles s (upd (set_reserved b) l (tiles s))) !! Z.to_nat p =
  if decide (p ∈ l) then set_reserved b <$> tiles s !! Z.to_nat p else tiles s !! Z.to_nat p.
Proof. intros HW Hn Hl Hp. simpl. rewrite lookup_upd by done. by rewrite Z2Nat.id. Qed.

(** C32 [reserveArea] marks exactly the tiles of the area when the area is on the
    map (away from its last row and column) and none of them is reserved.  In
    every other case it throws and leaves the grid as it was, also when it had
    already marked some of the tiles. *)
Theorem reserveArea_spec s ty walkX walkY :
  WF s → in_int walkX → in_int walkY → sane_size ty →
  (fits s ty walkX walkY → all_reserved false s (area ty walkX walkY) →
     ∃ s', reserveArea s ty walkX walkY = Ok (s', None) ∧ WF s' ∧
       ∀ p, 0 ≤ p → tiles s' !! Z.to_nat p =
         if decide (p ∈ area ty walkX walkY) then set_reserved true <$> tiles s !! Z.to_nat p else tiles s !! Z.to_nat p) ∧
  (¬ (fits s ty walkX walkY ∧ all_reserved false s (area ty walkX walkY)) →
     ∃ msg, reserveArea s ty walkX walkY = Ok (s, Some msg)).
Proof.
  intros HW HX HY Hsz. destruct (reserveAreaImpl_ok true s ty walkX walkY HW HX HY Hsz) as [H1 H2].
  split; [|done]. intros Hf Hall. eexists. split; [by apply H1|]. split; [by apply wf_upd|].
  intros p Hp. apply reserved_upd; [done| |by eapply area_grid|done].
  apply NoDup_cells. destruct Hsz. unfold tilesWidth. lia.
Qed.

(** What [reserveArea] has reserved, [unreserveArea] gives back: the grid is
    what it was before. *)
Theorem unreserve_reserve s ty walkX walkY s' :
  WF s → in_int walkX → in_int walkY → sane_size ty →
  reserveArea s ty walkX walkY = Ok (s', None) → unreserveArea s' ty walkX walkY = Ok (s, None).
Proof.
  intros HW HX HY Hsz E. destruct (reserveAreaImpl_ok true s ty walkX walkY HW HX HY Hsz) as [H1 H2].
  destruct (decide (fits s ty walkX walkY)) as [Hf|Hf].
  2:{ destruct H2 as [msg H2]; [tauto|]. unfold reserveArea in E. congruence. }
  assert (NoDup (area ty walkX walkY)) as Hn by (apply NoDup_cells; destruct Hsz; unfold tilesWidth; lia).
  assert (in_grid (area ty walkX walkY)) as Hg by (by eapply area_grid).
  assert (all_reserved false s (area ty walkX walkY)) as Hall.
  { destruct (reserveArea_unfold true s ty walkX walkY HW HX HY Hsz) as [U _].
    unfold reserveArea in E. rewrite (U Hf) in E.
    destruct (reserve_loop true (area ty walkX walkY) [] s HW Hn Hg) as [L1 L2]; [by intros p t Hp%not_elem_of_nil|].
    change (upd (set_reserved true) [] (tiles s)) with (tiles s) in L1, L2. rewrite set_tiles_same in L1, L2.
    intros p t Hp Ht. destruct (reservedAsUnbuildable t) eqn:Er; [exfalso|done].
    destruct L2 as (ch' & msg & L2); [|rewrite L2 in E; done].
    intros Ha. specialize (Ha p t Hp Ht). by rewrite Er in Ha. }
  assert (s' = set_tiles s (upd (set_reserved true) (area ty walkX walkY) (tiles s))) as ->.
  { specialize (H1 Hf Hall). unfold reserveArea in E. congruence. }
  set (s' := set_tiles _ _). assert (WF s') as HW' by (by apply wf_upd).
  destruct (reserveAreaImpl_ok false s' ty walkX walkY HW' HX HY Hsz) as [H3 _].
  unfold unreserveArea. rewrite H3; [|done|].
  - unfold s'. rewrite set_tiles_twice. cbn [tiles set_tiles].
    rewrite (upd_undo true) by done. by rewrite set_tiles_same.
  - intros p t Hp Ht. unfold s' in Ht. rewrite reserved_upd in Ht; [|done..|by apply Hg].
    rewrite decide_True in Ht by done. destruct (tiles s !! Z.to_nat p); [|done]. by injection Ht as <-.
Qed.
End reservations.

(** ** The constructor *)

(** The data has a byte for every walk tile. *)
Record valid_map (d : mapdata) : Prop := {
  vm_width : 0 ≤ map_width d < 2 ^ 15;
  vm_height : 0 ≤ map_height d < 2 ^ 15;
  vm_buildable : length (buildable_data d) = Z.to_nat (map_width d * map_height d);
  vm_ground : length (ground_height_data d) = Z.to_nat (map_width d * map_height d);
  vm_walkable : length (walkable_data d) = Z.to_nat (map_width d * map_height d)
}.

(** The byte of the walk tile at [px], [py]. *)
Definition byte (data : list Z) (d : mapdata) (px py : Z) : Z := default 0 (data !! Z.to_nat (py * map_width d + px)).

Lemma at_byte d data px py :
  valid_map d → length data = Z.to_nat (map_width d * map_height d) → 0 ≤ px < map_width d → 0 ≤ py < map_height d →
  at_ data (py * map_width d + px) = Ok (byte data d px py).
Proof.
  intros Hd Hl Hx Hy. unfold at_, byte. replace (0 <=? _) with true by nia.
  destruct (lookup_lt_is_Some_2 data (Z.to_nat (py * map_width d + px))) as [v ->]; [|done]. rewrite Hl. nia.
Qed.

Definition walkable (d : mapdata) (px py : Z) : bool := negb (byte (walkable_data d) d px py =? 0).

Lemma walkable_row d px py l w :
  valid_map d → (∀ i, i ∈ l → 0 ≤ px + i < map_width d) → 0 ≤ py < map_height d →
  ∃ b, rfold (λ acc subx,
      let '(w, stopped) := acc in
      if (stopped : bool) then Ok (w, true) else
      let? v := at_ (walkable_data d) (py * map_width d + (px + subx)) in
      if v =? 0 then Ok (false, true) else Ok (w, false)) l (w, false) = Ok (w && forallb (λ i, walkable d (px + i) py) l, b).
Proof.
  intros Hd Hl Hy. revert w. induction l as [|i l IH]; intros w; cbn [rfold forallb].
  { exists false. by rewrite andb_true_r. }
  rewrite at_byte; [|done|apply Hd|apply Hl; by left|done]. cbn [rbind]. unfold walkable at 1.
  destruct (byte (walkable_data d) d (px + i) py =? 0); cbn [rbind negb andb].
  - exists true. rewrite andb_false_r. clear. induction l as [|j l IH]; [done|exact IH].
  - apply IH. intros j Hj. apply Hl. by right.
Qed.

Definition square : list Z := [0; 1; 2; 3].
Lemma allWalkable_ok d px py :
  valid_map d → 0 ≤ px → px + 4 ≤ map_width d → 0 ≤ py → py + 4 ≤ map_height d →
  allWalkable d px py = Ok (forallb (λ j, forallb (λ i, walkable d (px + i) (py + j)) square) square).
Proof.
  intros Hd Hx Hx' Hy Hy'. unfold allWalkable. change (range 0 XYWalktilesPerBuildtile) with square.
  assert (∀ l w, (∀ j, j ∈ l → 0 ≤ j < 4) → rfold (λ acc suby,
    let? r := rfold (λ acc subx, let '(w, stopped) := acc in
      if (stopped : bool) then Ok (w, true) else
      let? v := at_ (walkable_data d) ((py + suby) * map_width d + (px + subx)) in
      if v =? 0 then Ok (false, true) else Ok (w, false)) square (acc, false) in Ok r.1) l w =
    Ok (w && forallb (λ j, forallb (λ i, walkable d (px + i) (py + j)) square) l)) as H.
  { induction l as [|j l IH]; intros w Hl; cbn [rfold]; [by rewrite andb_true_r|].
    assert (0 ≤ j < 4) by (apply Hl; by left).
    destruct (walkable_row d px (py + j) square w Hd) as [b ->]; [|lia|].
    { intros i Hi. assert (0 ≤ i < 4) by (unfold square in Hi; set_solver by lia). lia. }
    cbn [rbind fst]. rewrite IH by (intros; apply Hl; by right). cbn [forallb]. by rewrite andb_assoc. }
  rewrite H; [done|]. intros j Hj. unfold square in Hj. set_solver by lia.
Qed.

Lemma square_all (f : Z → Z → bool) :
  forallb (λ j, forallb (λ i, f i j) square) square = true ↔ ∀ i j, 0 ≤ i < 4 → 0 ≤ j < 4 → f i j = true.
Proof.
  assert (∀ i, In i square ↔ 0 ≤ i < 4) as Hs by (intros i; unfold square; simpl; lia).
  rewrite forallb_forall. setoid_rewrite forallb_forall. setoid_rewrite Hs. naive_solver.
Qed.

(** What the constructor stores for the tile at [tx], [ty]. *)
Definition static (d : mapdata) (tx ty : Z) : tile → tile :=
  set_static (tx * 4) (ty * 4) (negb (byte (buildable_data d) d (tx * 4) (ty * 4) =? 0))
    (byte (ground_height_data d) d (tx * 4) (ty * 4))
    (forallb (λ j, forallb (λ i, walkable d (tx * 4 + i) (ty * 4 + j)) square) square).

Lemma initTile_ok d s tx ty :
  valid_map d → WF s → mapTileWidth_ s = map_width d / 4 → mapTileHeight_ s = map_height d / 4 → on_map s tx ty →
  initTile d ty s tx = Ok (set_tiles s (upd (static d tx ty) [tile_index tx ty] (tiles s))).
Proof.
  intros Hd HW Ew Eh Hon. pose proof (tile_index_range s tx ty HW Hon) as Hr. destruct Hon as [Hx Hy].
  unfold initTile, XYWalktilesPerBuildtile.
  pose proof (Z.div_mod (map_width d) 4). pose proof (Z.div_mod (map_height d) 4).
  pose proof (Z.mod_pos_bound (map_width d) 4). pose proof (Z.mod_pos_bound (map_height d) 4).
  rewrite !at_byte; [|done|apply Hd|lia|lia|done|apply Hd|lia|lia]. cbn [rbind].
  rewrite allWalkable_ok by (done || lia). cbn [rbind]. by apply modify_ok.
Qed.

(** A loop that assigns to a different tile in every round. *)
Lemma modify_each {A} (f : state → A → res state) (g : A → tile → tile) (idx : A → Z) l s :
  WF s → NoDup (idx <$> l) → (∀ a, a ∈ l → 0 ≤ idx a < size) →
  (∀ s' a, a ∈ l → WF s' → set_tiles s' (tiles s) = s → f s' a = Ok (set_tiles s' (upd (g a) [idx a] (tiles s')))) →
  ∃ ts, rfold f l s = Ok (set_tiles s ts) ∧ length ts = length (tiles s) ∧
    (∀ a, a ∈ l → ts !! Z.to_nat (idx a) = g a <$> tiles s !! Z.to_nat (idx a)) ∧
    (∀ i, Z.of_nat i ∉ idx <$> l → ts !! i = tiles s !! i).
Proof.
  intros HW Hn Hr Hf.
  assert (∀ l0 ts, l0 ⊆ l → NoDup (idx <$> l0) → length ts = length (tiles s) →
    ∃ ts', rfold f l0 (set_tiles s ts) = Ok (set_tiles s ts') ∧ length ts' = length ts ∧
    (∀ a, a ∈ l0 → ts' !! Z.to_nat (idx a) = g a <$> ts !! Z.to_nat (idx a)) ∧
    (∀ i, Z.of_nat i ∉ idx <$> l0 → ts' !! i = ts !! i)) as H.
  { induction l0 as [|a l0 IH]; intros ts Hsub Hn0 Hlen; cbn [rfold].
    { exists ts. split_and!; [done|done|by intros a ?%not_elem_of_nil|done]. }
    assert (a ∈ l) as Ha by (apply Hsub; by left). pose proof (Hr a Ha) as Hra.
    rewrite Hf; [|done|destruct HW; by constructor; simpl; rewrite ?Hlen|by destruct s]. cbn [rbind].
    rewrite set_tiles_twice. cbn [tiles set_tiles]. rewrite fmap_cons in Hn0. apply NoDup_cons in Hn0 as [Hni Hn0].
    destruct (IH (upd (g a) [idx a] ts)) as (ts' & E & L & Hin & Hout);
      [intros b Hb; apply Hsub; by right|done|by rewrite length_upd|].
    exists ts'. split_and!; [done|by rewrite L, length_upd| |].
    - intros b [->|Hb]%elem_of_cons.
      + rewrite Hout by (by rewrite Z2Nat.id by lia). cbn [upd foldl]. apply list_lookup_alter_eq.
      + rewrite Hin by done. cbn [upd foldl]. rewrite list_lookup_alter_ne; [done|].
        assert (0 ≤ idx b) by (apply Hr, Hsub; by right). intros E'. apply Z2Nat.inj in E'; [|lia..].
        apply Hni. rewrite E'. apply list_elem_of_fmap. by exists b.
    - intros i Hi. rewrite fmap_cons, not_elem_of_cons in Hi. destruct Hi as [Hi1 Hi2].
      rewrite Hout by done. cbn [upd foldl]. apply list_lookup_alter_ne. lia. }
  destruct (H l (tiles s)) as (ts & E & L & H1 & H2); [done|done|done|].
  rewrite set_tiles_same in E. by exists ts.
Qed.

(** The grid the constructor starts from. *)
Definition blank (d : mapdata) : state :=
  State (replicate (Z.to_nat (tilesHeight * tilesWidth)) tile0) (map_width d / 4) (map_height d / 4) [] 0 0 0.

Lemma blank_wf d : valid_map d → map_width d / 4 ≤ 256 → map_height d / 4 ≤ 256 → WF (blank d).
Proof.
  intros [Hw Hh _ _ _] ? ?. pose proof (Z.div_pos (map_width d) 4). pose proof (Z.div_pos (map_height d) 4).
  constructor; unfold blank; cbn [tiles mapTileWidth_ mapTileHeight_]; [by rewrite length_replicate|unfold tilesWidth; lia|unfold tilesHeight; lia].
Qed.

(** The rounds of the constructor as pairs [(tileY, tileX)]. *)
Definition rounds (d : mapdata) : list (Z * Z) := range 0 (map_height d / 4) ≫= λ y, pair y <$> range 0 (map_width d / 4).

Lemma elem_of_rounds d p : p ∈ rounds d ↔ on_map (blank d) p.2 p.1.
Proof.
  destruct p as [ty tx]. unfold rounds, on_map, blank. rewrite list_elem_of_bind. cbn [fst snd mapTileWidth_ mapTileHeight_]. split.
  - intros (y' & (x' & [= <- <-] & Hx')%list_elem_of_fmap & Hy'). by rewrite elem_of_range in *.
  - intros [Hx Hy]. exists ty. split; [apply list_elem_of_fmap; exists tx; split; [done|]|]; by apply elem_of_range.
Qed.

Lemma NoDup_rounds d : NoDup (rounds d).
Proof.
  apply NoDup_bind; [| |apply NoDup_seqZ].
  - intros y1 y2 p _ _ (? & -> & _)%list_elem_of_fmap (? & [= ->] & _)%list_elem_of_fmap. done.
  - intros y' _. apply NoDup_fmap_2; [by intros ? ? [= ->]|apply NoDup_seqZ].
Qed.

(** The grid the constructor returns, tile by tile. *)
Lemma construct_ok d :
  valid_map d → map_width d / 4 ≤ 256 → map_height d / 4 ≤ 256 →
  ∃ ts, construct d = Ok (set_tiles (blank d) ts) ∧ WF (set_tiles (blank d) ts) ∧
    (∀ tx ty, on_map (blank d) tx ty → ts !! Z.to_nat (tile_index tx ty) = Some (static d tx ty tile0)) ∧
    (∀ p t, ts !! p = Some t → t = tile0 ∨ ∃ tx ty, t = static d tx ty tile0).
Proof.
  intros Hd Hw4 Hh4. pose proof Hd as [Hw Hh _ _ _]. unfold construct, XYWalktilesPerBuildtile.
  rewrite !u32_small by lia. replace (tilesWidth <? map_width d / 4) with false by (unfold tilesWidth; lia).
  replace (tilesHeight <? map_height d / 4) with false by (unfold tilesHeight; lia).
  rewrite rfold_nested. fold (blank d) (rounds d). pose proof (blank_wf d Hd Hw4 Hh4) as HW0.
  destruct (modify_each (λ s p, initTile d p.1 s p.2) (λ p, static d p.2 p.1) (λ p, tile_index p.2 p.1) (rounds d) (blank d) HW0)
    as (ts & E & L & Hin & Hout).
  - apply NoDup_fmap_2_strong; [|apply NoDup_rounds].
    intros [ty tx] [ty' tx'] Ha%elem_of_rounds Hb%elem_of_rounds E. cbn [fst snd] in *.
    destruct (tile_index_inj (blank d) tx ty tx' ty' HW0 Ha Hb E). by subst.
  - intros p Hp%elem_of_rounds. by eapply tile_index_range.
  - intros s' [ty tx] Hp%elem_of_rounds HW' Es. cbn [fst snd] in *.
    pose proof (f_equal mapTileWidth_ Es) as Fw. pose proof (f_equal mapTileHeight_ Es) as Fh. cbn in Fw, Fh.
    apply initTile_ok; [done|done|done|done|]. unfold on_map. by rewrite Fw, Fh.
  - assert (∀ p, tiles (blank d) !! p = None ∨ tiles (blank d) !! p = Some tile0) as Hblank.
    { intros p. destruct (tiles (blank d) !! p) as [t|] eqn:Ep; [right|by left].
      unfold blank in Ep. cbn [tiles] in Ep. by apply lookup_replicate in Ep as [-> _]. }
    exists ts. split_and!; [exact E|destruct HW0; constructor; [by rewrite <-L in *|done|done]| |].
    + intros tx ty Hon. specialize (Hin (ty, tx)). cbn [fst snd] in Hin. rewrite Hin by (by apply elem_of_rounds).
      pose proof (tile_index_range (blank d) tx ty HW0 Hon) as Hr. destruct (getAt_ok (blank d) _ HW0 Hr) as (t & _ & Ht).
      rewrite Ht. destruct (Hblank (Z.to_nat (tile_index tx ty))); [congruence|]. cbn. congruence.
    + intros p t Hp. destruct (decide (Z.of_nat p ∈ (λ q, tile_index q.2 q.1) <$> rounds d)) as [Hr|Hr].
      * apply list_elem_of_fmap in Hr as ([ty tx] & Eq & Hr). cbn [fst snd] in Eq. right. exists tx, ty.
        specialize (Hin (ty, tx) Hr). cbn [fst snd] in Hin. rewrite <-Eq, Nat2Z.id, Hp in Hin.
        destruct (Hblank p) as [Hb|Hb]; rewrite Hb in Hin; cbn in Hin; congruence.
      * rewrite Hout in Hp by done. left. destruct (Hblank p); congruence.
Qed.

(** On a map of at most 256 by 256 build tiles the constructor returns a
    well-formed grid in which every tile of the map has its position, its
    height, whether it is buildable, and whether all of its sixteen walk tiles
    are walkable; larger maps are rejected. *)
Theorem construct_spec d :
  valid_map d →
  (256 < map_width d / 4 → construct d = Throw "bad map width") ∧
  (map_width d / 4 ≤ 256 → 256 < map_height d / 4 → construct d = Throw "bad map height") ∧
  (map_width d / 4 ≤ 256 → map_height d / 4 ≤ 256 → ∃ s, construct d = Ok s ∧ WF s ∧
     mapTileWidth_ s = map_width d / 4 ∧ mapTileHeight_ s = map_height d / 4 ∧
     ∀ tx ty, on_map s tx ty → ∃ t, tiles s !! Z.to_nat (tile_index tx ty) = Some t ∧
       x t = tx * 4 ∧ y t = ty * 4 ∧ visible t = false ∧ reservedAsUnbuildable t = false ∧ building t = None ∧
       (buildable t = true ↔ byte (buildable_data d) d (tx * 4) (ty * 4) ≠ 0) ∧
       height t = byte (ground_height_data d) d (tx * 4) (ty * 4) ∧
       (entirelyWalkable t = true ↔
          ∀ i j, 0 ≤ i < 4 → 0 ≤ j < 4 → byte (walkable_data d) d (tx * 4 + i) (ty * 4 + j) ≠ 0)).
Proof.
  intros Hd. pose proof Hd as [Hw Hh _ _ _]. split_and!.
  - intros ?. unfold construct, XYWalktilesPerBuildtile. rewrite !u32_small by lia.
    by replace (tilesWidth <? map_width d / 4) with true by (unfold tilesWidth; lia).
  - intros ? ?. unfold construct, XYWalktilesPerBuildtile. rewrite !u32_small by lia.
    replace (tilesWidth <? map_width d / 4) with false by (unfold tilesWidth; lia).
    by replace (tilesHeight <? map_height d / 4) with true by (unfold tilesHeight; lia).
  - intros Hw4 Hh4. destruct (construct_ok d Hd Hw4 Hh4) as (ts & E & HW & Hin & _).
    exists (set_tiles (blank d) ts). split_and!; [done|done|done|done|].
    intros tx ty Hon. exists (static d tx ty tile0). split_and!; try done; [by apply Hin|..].
    + unfold static. cbn [buildable set_static]. by rewrite negb_true_iff, Z.eqb_neq.
    + unfold static. cbn [entirelyWalkable set_static]. rewrite square_all.
      unfold walkable. setoid_rewrite negb_true_iff. by setoid_rewrite Z.eqb_neq.
Qed.

(** ** Examples *)

(** An empty map of 8 by 8 build tiles. *)
Definition example_map : mapdata :=
  MapData 32 32 (replicate (Z.to_nat 1024) 1) (replicate (Z.to_nat 1024) 2) (replicate (Z.to_nat 1024) 1).
Definition example_grid : state := State (replicate (Z.to_nat size) tile0) 8 8 [] 0 0 0.

Lemma example_map_valid : valid_map example_map.
Proof. constructor; unfold example_map; cbn [map_width map_height buildable_data ground_height_data walkable_data]; [lia|lia|apply length_replicate..]. Qed.

Lemma example_grid_wf : WF example_grid.
Proof.
  constructor; unfold example_grid; cbn [tiles mapTileWidth_ mapTileHeight_]; [by rewrite length_replicate|..];
    unfold tilesWidth, tilesHeight; lia.
Qed.

Lemma example_grid_free l : all_reserved false example_grid l.
Proof. intros p t _ Ht. unfold example_grid in Ht. cbn [tiles] in Ht. by apply lookup_replicate in Ht as [-> _]. Qed.

Lemma example_fits : fits (attributes := UnitGroups.example_attributes) example_grid BuildType.Protoss_Pylon 8 8.
Proof.
  unfold fits, example_grid. cbn [mapTileWidth_ mapTileHeight_ UnitsInfo.tileWidth UnitsInfo.tileHeight UnitGroups.example_attributes].
  change (8 / 4) with 2. lia.
Qed.

Lemma construct_spec_witness : ∃ s, construct example_map = Ok s ∧ mapTileWidth_ s = 8 ∧ mapTileHeight_ s = 8.
Proof.
  destruct (construct_spec example_map example_map_valid) as (_ & _ & H).
  destruct H as (s & E & _ & Hw & Hh & _).
  - vm_compute. discriminate.
  - vm_compute. discriminate.
  - exists s. split; [exact E|]. split; [exact Hw|exact Hh].
Defined.

(** A pylon fits at walk tile (8, 8) and is refused in the last column, which
    is free. *)
Lemma reserveArea_spec_witness :
  (∃ s, reserveArea (attributes := UnitGroups.example_attributes) example_grid BuildType.Protoss_Pylon 8 8 = Ok (s, None)) ∧
  ∃ msg, reserveArea (attributes := UnitGroups.example_attributes) example_grid BuildType.Protoss_Pylon 24 8 = Ok (example_grid, Some msg).
Proof.
  split.
  - destruct (reserveArea_spec (attributes := UnitGroups.example_attributes) example_grid BuildType.Protoss_Pylon 8 8 example_grid_wf)
      as [H _]; [unfold in_int; lia|unfold in_int; lia|unfold sane_size; simpl; lia|].
    destruct H as (s & E & _); [by vm_compute|apply example_grid_free|]. exists s. exact E.
  - apply (reserveArea_spec (attributes := UnitGroups.example_attributes) example_grid BuildType.Protoss_Pylon 24 8 example_grid_wf);
      [unfold in_int; lia|unfold in_int; lia|unfold sane_size; simpl; lia|].
    intros [(_ & _ & H & _) _]. by vm_compute in H.
Defined.

Lemma unreserve_reserve_witness :
  ∃ s, reserveArea (attributes := UnitGroups.example_attributes) example_grid BuildType.Protoss_Pylon 8 8 = Ok (s, None) ∧
    unreserveArea (attributes := UnitGroups.example_attributes) s BuildType.Protoss_Pylon 8 8 = Ok (example_grid, None).
Proof.
  destruct (reserveAreaImpl_ok (attributes := UnitGroups.example_attributes) true example_grid BuildType.Protoss_Pylon 8 8 example_grid_wf)
    as [H _]; [unfold in_int; lia|unfold in_int; lia|unfold sane_size; simpl; lia|].
  eexists. split; [apply H; [apply example_fits|apply example_grid_free]|].
  apply (unreserve_reserve (attributes := UnitGroups.example_attributes) example_grid BuildType.Protoss_Pylon 8 8 _ example_grid_wf);
    [unfold in_int; lia|unfold in_int; lia|unfold sane_size; simpl; lia|].
  apply H; [apply example_fits|apply example_grid_free].
Defined.
End Tiles.
