(* ===== verification/FogOfWar.v ===== *)
(** * Fog of war ([src/fogofwar.cpp])

    [FogOfWar] computes which build tiles a unit sees.  For each of the twelve
    sight ranges a table lists the tiles of a disc in a spiral from the centre,
    each with the one or two tiles nearer to the centre that light has to pass.
    [revealSightAt] walks over the table and marks tiles as visible.

    The tables do not depend on anything, so the facts about them are checked by
    evaluating [generateSightValues]. *)

From S2P Require Import Prelude Tiles.

Module FogOfWar.

(** ** Data *)

(** [src/src/fogofwar.h:25-31] FogOfWar::sight_values_t::maskdat_node_t *)
Record maskdat_node_t := Node { prev : Z; prev2 : Z; relative_tile_index : Z; nx : Z; ny : Z }.

(** [src/src/fogofwar.h:24-37] FogOfWar::sight_values_t *)
Record sight_values_t := SightValues {
  max_width : Z; max_height : Z; min_width : Z; min_height : Z;
  min_mask_size : Z; ext_masked_count : Z; maskdat : list maskdat_node_t }.

(** The index of the null pointer, [(size_t)-1]. *)
Definition npos : Z := 2 ^ 64 - 1.
Definition u64 (z : Z) : Z := z mod 2 ^ 64.

(** ** The disc *)

(** [src/src/fogofwar.cpp:112-115] FogOfWar::generateSightValues *)
Record base_mask_t := BaseMask { maskdat_node : option Z; masked : bool }.

(** [src/src/fogofwar.cpp:120-120] FogOfWar::generateSightValues *)
Definition mask (bm : list base_mask_t) (index : Z) : res (list base_mask_t) :=
  let? e := Tiles.at_ bm index in Ok (<[Z.to_nat index := BaseMask (maskdat_node e) true]> bm).

(** [src/src/fogofwar.cpp:121-128] FogOfWar::generateSightValues *)
Definition mask_center (v : sight_values_t) (bm : list base_mask_t) : res (list base_mask_t) :=
  let offx := Z.quot (max_width v) 2 - Z.quot (min_width v) 2 in
  let offy := Z.quot (max_height v) 2 - Z.quot (min_height v) 2 in
  rfold (λ bm y, rfold (λ bm x, mask bm ((offy + y) * max_width v + offx + x)) (range 0 (min_width v)) bm)
    (range 0 (min_height v)) bm.

(** The local variables of [generate_base_mask]. *)
Record circle := Circle {
  max_x2 : Z; max_x1 : Z; cur_x1 : Z; cur_x2 : Z; ci : Z; max_i : Z;
  cursize1 : Z; cursize2 : Z; min_cursize2 : Z; min_cursize2_chg : Z }.

(** [src/src/fogofwar.cpp:142-153] FogOfWar::generateSightValues *)
Definition circle_rows (v : sight_values_t) (offset : Z) (c : circle) (bm : list base_mask_t) : res (list base_mask_t) :=
  let? bm :=
    if cur_x1 c <=? max_x1 c then
      rfold (λ bm i,
        let? bm := mask bm ((offset + cur_x2 c) * max_width v + cur_x1 c + i) in
        mask bm ((offset + max_x2 c) * max_width v + cur_x1 c + i)) (range 0 (max_x1 c - cur_x1 c + 1)) bm
    else Ok bm in
  if cur_x2 c <=? max_x2 c then
    rfold (λ bm i,
      let? bm := mask bm ((offset + cur_x1 c) * max_width v + cur_x2 c + i) in
      mask bm ((offset + max_x1 c) * max_width v + cur_x2 c + i)) (range 0 (max_x2 c - cur_x2 c + 1)) bm
  else Ok bm.

(** [src/src/fogofwar.cpp:154-166] FogOfWar::generateSightValues *)
Definition circle_next (c : circle) : circle :=
  let cursize2' := cursize2 c + (1 - cursize1 c - 2) in
  let c := Circle (max_x2 c + 1) (max_x1 c) (cur_x1 c) (cur_x2 c - 1) (ci c) (max_i c)
             (cursize1 c + 2) cursize2' (min_cursize2 c) (min_cursize2_chg c) in
  let c :=
    if cursize2 c <=? min_cursize2 c then
      Circle (max_x2 c) (max_x1 c - 1) (cur_x1 c + 1) (cur_x2 c) (ci c) (max_i c - 1)
        (cursize1 c) (cursize2 c) (min_cursize2 c - (min_cursize2_chg c - 2)) (min_cursize2_chg c - 2)
    else c in
  Circle (max_x2 c) (max_x1 c) (cur_x1 c) (cur_x2 c) (ci c + 1) (max_i c)
    (cursize1 c) (cursize2 c) (min_cursize2 c) (min_cursize2_chg c).

(** [src/src/fogofwar.cpp:141-170] FogOfWar::generateSightValues *)
Fixpoint circle_loop (fuel : nat) (v : sight_values_t) (offset : Z) (c : circle) (bm : list base_mask_t) : res (list base_mask_t) :=
  match fuel with
  | O => OutOfFuel
  | S fuel =>
      let? bm := circle_rows v offset c bm in
      let c := circle_next c in
      if max_i c <? ci c then Ok bm else circle_loop fuel v offset c bm
  end.

(** [src/src/fogofwar.cpp:129-171] FogOfWar::generateSightValues *)
Definition generate_base_mask (fuel : nat) (v : sight_values_t) (bm : list base_mask_t) : res (list base_mask_t) :=
  let offset := Z.quot (max_height v) 2 - Z.quot (max_width v) 2 in
  let half_width := Z.quot (max_width v) 2 in
  circle_loop fuel v offset
    (Circle half_width (half_width * 2) 0 half_width 0 half_width 0 (half_width * half_width)
       (half_width * (half_width - 1)) (half_width * 2)) bm.

(** ** The spiral *)

(** [src/src/fogofwar.cpp:198-198] FogOfWar::generateSightValues *)
Definition direction_x (dir : nat) : Z := nth dir [1; 0; -1; 0] 0.
(** [src/src/fogofwar.cpp:199-199] FogOfWar::generateSightValues *)
Definition direction_y (dir : nat) : Z := nth dir [0; 1; 0; -1] 0.

(** The variables that the loops change. *)
Record spiral := Spiral {
  nodes : list maskdat_node_t; base_mask : list base_mask_t; next_entry_index : Z; added_count : Z;
  cur_x : Z; cur_y : Z; this_x : Z; this_y : Z }.

Definition set_this (s : spiral) (px py : Z) : spiral :=
  Spiral (nodes s) (base_mask s) (next_entry_index s) (added_count s) (cur_x s) (cur_y s) px py.
Definition set_cur (s : spiral) (px py : Z) : spiral :=
  Spiral (nodes s) (base_mask s) (next_entry_index s) (added_count s) px py (this_x s) (this_y s).

(** [src/src/fogofwar.cpp:183-189] FogOfWar::generateSightValues *)
Definition center_index (v : sight_values_t) : Z :=
  Z.quot (max_height v) 2 * max_width v + Z.quot (max_width v) 2.
Definition at_cell (v : sight_values_t) (bm : list base_mask_t) (px py : Z) : res base_mask_t :=
  Tiles.at_ bm (u64 (center_index v + (py * max_width v + px))).

(** [src/src/fogofwar.cpp:208-212] FogOfWar::generateSightValues *)
Definition index (n : option Z) : Z := match n with None => npos | Some i => i end.

(** One step towards 0. *)
Definition toward (z : Z) : Z := if 0 <? z then z - 1 else if z <? 0 then z + 1 else z.

(** [src/src/fogofwar.cpp:214-250] FogOfWar::generateSightValues *)
Definition sources (v : sight_values_t) (bm : list base_mask_t) (dir : nat) (px py : Z) : res (Z * Z) :=
  let prev_x := toward px in
  let prev_y := toward py in
  let? p := at_cell v bm prev_x prev_y in
  if (Z.abs prev_x =? Z.abs prev_y) ||
     ((px =? 0) && negb (direction_x dir =? 0)) || ((py =? 0) && negb (direction_y dir =? 0)) then
    Ok (index (maskdat_node p), npos)
  else
    let '(prev2_x, prev2_y) :=
      if Z.abs prev_x <=? Z.abs prev_y then (if 0 <=? px then prev_x + 1 else prev_x - 1, prev_y)
      else (prev_x, if 0 <=? py then prev_y + 1 else prev_y - 1) in
    let? p2 := at_cell v bm prev2_x prev2_y in
    Ok (index (maskdat_node p), index (maskdat_node p2)).

(** [src/src/fogofwar.cpp:204-256] FogOfWar::generateSightValues *)
Definition add_entry (v : sight_values_t) (dir : nat) (s : spiral) : res spiral :=
  let? c := at_cell v (base_mask s) (this_x s) (this_y s) in
  if masked c && (negb (this_x s =? 0) || negb (this_y s =? 0)) then
    if next_entry_index s <? Z.of_nat (length (nodes s)) then
      let e := next_entry_index s in
      let? p := sources v (base_mask s) dir (this_x s) (this_y s) in
      let node := Node p.1 p.2 (this_y s * Tiles.tilesWidth + this_x s) (this_x s) (this_y s) in
      let k := Z.to_nat (u64 (center_index v + (this_y s * max_width v + this_x s))) in
      Ok (Spiral (<[Z.to_nat e := node]> (nodes s)) (<[k := BaseMask (Some e) true]> (base_mask s))
            (next_entry_index s + 1) (added_count s + 1) (cur_x s) (cur_y s) (this_x s) (this_y s))
    else Throw "vector::_M_range_check"
  else Ok s.

(** [src/src/fogofwar.cpp:202-260] FogOfWar::generateSightValues *)
Definition do_n (v : sight_values_t) (dir : nat) (n : Z) (s : spiral) : res spiral :=
  rfold (λ s _,
    let? s := add_entry v dir s in
    Ok (set_this s (this_x s + direction_x dir) (this_y s + direction_y dir))) (range 0 n) s.

(** [src/src/fogofwar.cpp:198-273] FogOfWar::generateSightValues *)
Definition do_dir (v : sight_values_t) (i : Z) (s : spiral) (dir : nat) : res spiral :=
  let max_i d := nth d [max_height v; max_width v; max_height v; max_width v] 0 in
  let? s :=
    if max_i dir <? i then
      do_n v dir 1 (set_this s (cur_x s + i * direction_x dir) (cur_y s + i * direction_y dir))
    else
      do_n v dir (Z.min (max_i ((dir + 1) mod 4)%nat - 1) i)
        (set_this s (cur_x s + direction_x dir) (cur_y s + direction_y dir)) in
  Ok (set_cur s (this_x s - direction_x dir) (this_y s - direction_y dir)).

(** [src/src/fogofwar.cpp:196-279] FogOfWar::generateSightValues *)
Fixpoint spiral_loop (fuel : nat) (v : sight_values_t) (masked_count i : Z) (s : spiral) : res spiral :=
  match fuel with
  | O => OutOfFuel
  | S fuel =>
      if added_count s <? masked_count then
        let? s := rfold (do_dir v i) [0; 1; 2; 3]%nat s in
        let s := set_cur s (if i <? max_width v - 1 then cur_x s - 1 else cur_x s)
                   (if i <? max_height v - 1 then cur_y s - 1 else cur_y s) in
        spiral_loop fuel v masked_count (i + 2) s
      else Ok s
  end.

(** [src/src/fogofwar.cpp:102-110] FogOfWar::generateSightValues *)
Definition empty_values (i : Z) : sight_values_t := SightValues (3 + i * 2) (3 + i * 2) 3 3 0 0 [].

(** [src/src/fogofwar.cpp:117-280] FogOfWar::generateSightValues *)
Definition generate (fuel : nat) (v : sight_values_t) : res sight_values_t :=
  let bm := replicate (Z.to_nat (max_width v * max_height v)) (BaseMask None false) in
  let? bm := mask_center v bm in
  let? bm := generate_base_mask fuel v bm in
  let masked_count := Z.of_nat (length (filter (λ e, masked e = true) bm)) in
  let nodes := replicate (Z.to_nat masked_count) (Node 0 0 0 0 0) in
  let? c := Tiles.at_ bm (center_index v) in
  let? _ := of_option (head nodes) in
  let bm := <[Z.to_nat (center_index v) := BaseMask (Some 0) (masked c)]> bm in
  let? s := spiral_loop fuel v masked_count 2 (Spiral nodes bm 1 1 (-1) (-1) 0 0) in
  let size := min_width v * min_height v in
  Ok (SightValues (max_width v) (max_height v) (min_width v) (min_height v) size (masked_count - size) (FogOfWar.nodes s)).

(** [src/src/fogofwar.cpp:101-281] FogOfWar::generateSightValues *)
Definition generateSightValues (fuel : nat) : res (list sight_values_t) :=
  rfold (λ vs i, let? v := generate fuel (empty_values i) in Ok (vs ++ [v])) (range 0 12) [].

(** Forty rounds of each loop are enough. *)
Definition value_of {A} (d : A) (r : res A) : A := match r with Ok a => a | _ => d end.
Definition sight_values : list sight_values_t := value_of [] (generateSightValues 40).

(** ** Revealing *)

(** [src/src/fogofwar.cpp:35-45] FogOfWar::revealSightAt *)
Definition heightMask (in_air : bool) (bwapi_height : Z) : Z :=
  let flag_very_high := 0x100 in let flag_middle := 0x200 in let flag_high := 0x400 in
  if in_air then 0 else
  let height := if negb (Z.land bwapi_height 4 =? 0) then 2 else if negb (Z.land bwapi_height 2 =? 0) then 1 else 0 in
  if height =? 2 then flag_very_high
  else if height =? 1 then Z.lor flag_very_high flag_high
  else Z.lor (Z.lor flag_very_high flag_high) flag_middle.

(** The array is not initialised; [None] is an indeterminate value. *)
Abbreviation propagation := (list (option Z)).
Definition get_vp (vp : propagation) (i : Z) : res Z := let? o := Tiles.at_ vp i in of_option o.
Definition set_vp (vp : propagation) (i : Z) (v : Z) : res propagation :=
  let? _ := Tiles.at_ vp i in Ok (<[Z.to_nat i := Some (u8 v)]> vp).

Section reveal.
(** The unit, in build tiles, and the tile it is on. *)
Context (tile_x tile_y base_tile currentFrame : Z).

(** [src/src/fogofwar.cpp:59-62] FogOfWar::revealSightAt *)
Definition outside (s : Tiles.state) (cur : maskdat_node_t) : bool :=
  (u64 (tile_x + nx cur) >=? Tiles.mapTileWidth_ s) || (u64 (tile_y + ny cur) >=? Tiles.mapTileHeight_ s).

(** [src/src/fogofwar.cpp:63-65] FogOfWar::revealSightAt *)
Definition reveal (s : Tiles.state) (cur : maskdat_node_t) : res Tiles.state :=
  Tiles.modify (λ t, Tiles.set_lastSeen currentFrame (Tiles.set_visible true t)) s (base_tile + relative_tile_index cur).

(** [src/src/fogofwar.cpp:63-66] FogOfWar::revealSightAt *)
Definition reveal_ground (s : Tiles.state) (vp : propagation) (index : Z) (cur : maskdat_node_t)
    : res (Tiles.state * propagation) :=
  let? s := reveal s cur in
  let? t := Tiles.getAt s (base_tile + relative_tile_index cur) in
  let? vp := set_vp vp index (u32 (u32 (Tiles.height t * 2 ^ 8) * 2 ^ 16)) in
  Ok (s, vp).

(** [src/src/fogofwar.cpp:56-67] FogOfWar::revealSightAt *)
Definition inner_tile (v : sight_values_t) (acc : Tiles.state * propagation) (index : Z) : res (Tiles.state * propagation) :=
  let '(s, vp) := acc in
  let? cur := Tiles.at_ (maskdat v) index in
  let? vp := set_vp vp index 0xff in
  if outside s cur then Ok (s, vp) else reveal_ground s vp index cur.

(** [src/src/fogofwar.cpp:76-80] FogOfWar::revealSightAt *)
Definition blocked (required_tile_mask : Z) (vp : propagation) (cur : maskdat_node_t) : res bool :=
  let? a := get_vp vp (prev cur) in
  if negb (Z.land a required_tile_mask =? 0) then
    if prev2 cur =? npos then Ok true else
    let? b := get_vp vp (prev2 cur) in Ok (negb (Z.land b required_tile_mask =? 0))
  else Ok false.

(** [src/src/fogofwar.cpp:69-85] FogOfWar::revealSightAt *)
Definition outer_tile (required_tile_mask : Z) (v : sight_values_t) (acc : Tiles.state * propagation) (index : Z)
    : res (Tiles.state * propagation) :=
  let '(s, vp) := acc in
  let? cur := Tiles.at_ (maskdat v) index in
  let? vp := set_vp vp index 0xff in
  if outside s cur then Ok (s, vp) else
  let? b := blocked required_tile_mask vp cur in
  if (b : bool) then Ok (s, vp) else reveal_ground s vp index cur.

(** [src/src/fogofwar.cpp:89-97] FogOfWar::revealSightAt *)
Definition air_tile (v : sight_values_t) (s : Tiles.state) (index : Z) : res Tiles.state :=
  let? cur := Tiles.at_ (maskdat v) index in
  if outside s cur then Ok s else reveal s cur.
End reveal.

(** [src/src/fogofwar.cpp:19-99] FogOfWar::revealSightAt *)
Definition revealSightAt (sv : list sight_values_t) (s : Tiles.state) (x y range : Z) (in_air : bool) (currentFrame : Z)
    : res Tiles.state :=
  let range := Z.quot range Tiles.XYWalktilesPerBuildtile in
  match Tiles.tryGetTile s x y with
  | None => Ok s
  | Some startTile =>
      let? t := Tiles.getAt s startTile in
      let required_tile_mask := Z.lor (u32 (heightMask in_air (Tiles.height t) * 2 ^ 16)) 1 in
      if (range <? 0) || (Z.of_nat (length sv) <=? range) then Throw "array::at: __n (which is %zu) >= _Nm (which is %zu)" else
      let? v := of_option (sv !! Z.to_nat range) in
      let tile_x := u64 x / Tiles.XYWalktilesPerBuildtile in
      let tile_y := u64 y / Tiles.XYWalktilesPerBuildtile in
      if in_air then
        rfold (air_tile tile_x tile_y startTile currentFrame v) (Prelude.range 0 (ext_masked_count v)) s
      else
        let? r := rfold (inner_tile tile_x tile_y startTile currentFrame v) (Prelude.range 0 (min_mask_size v))
                    (s, replicate 625 None) in
        let? r := rfold (outer_tile tile_x tile_y startTile currentFrame required_tile_mask v)
                    (Prelude.range (min_mask_size v) (min_mask_size v + ext_masked_count v)) r in
        Ok r.1
  end.

(** ** The tables *)

Definition is_ok {A} (r : res A) : bool := match r with Ok _ => true | _ => false end.

(** [prev] and [prev2] of the entry at [i] come before it, and each of their
    coordinates is between the coordinate of the entry and 0. *)
Definition nearer (a b : Z) : bool := (Z.min 0 b <=? a) && (a <=? Z.max 0 b).
Definition source_ok (ns : list maskdat_node_t) (n : maskdat_node_t) (i p : Z) : bool :=
  if (0 <=? p) && (p <? i) then
    match ns !! Z.to_nat p with Some m => nearer (nx m) (nx n) && nearer (ny m) (ny n) | None => false end
  else false.
Definition entry_ok (R : Z) (ns : list maskdat_node_t) (i : Z) (n : maskdat_node_t) : bool :=
  (relative_tile_index n =? ny n * Tiles.tilesWidth + nx n) &&
  (Z.abs (nx n) <=? R) && (Z.abs (ny n) <=? R) &&
  ((i <? 9) || (source_ok ns n i (prev n) && ((prev2 n =? npos) || source_ok ns n i (prev2 n)))) &&
  ((nx n * nx n + ny n * ny n <? R * R + R) || (Z.abs (nx n) <=? 1) && (Z.abs (ny n) <=? 1)) &&
  (negb (i <? 9) || (Z.abs (nx n) <=? 1) && (Z.abs (ny n) <=? 1)).

Fixpoint distinct (ns : list maskdat_node_t) : bool :=
  match ns with
  | [] => true
  | n :: ns => forallb (λ m, negb ((nx m =? nx n) && (ny m =? ny n))) ns && distinct ns
  end.

(** All tiles whose squared distance is up to [bound] and for which [P] holds are
    among the entries [ns]. *)
Definition all_within (R bound : Z) (P : Z → Z → bool) (ns : list maskdat_node_t) : bool :=
  forallb (λ y, forallb (λ x, (bound <? x * x + y * y) || negb (P x y) ||
      existsb (λ n, (nx n =? x) && (ny n =? y)) ns) (range (- R) (R + 1))) (range (- R) (R + 1)).

(** A table for the radius [R]. *)
Definition table_ok (R : Z) (v : sight_values_t) : bool :=
  (min_mask_size v =? 9) && (0 <=? ext_masked_count v) &&
  (Z.of_nat (length (maskdat v)) =? 9 + ext_masked_count v) && (length (maskdat v) <=? 625)%nat &&
  forallb (λ p, entry_ok R (maskdat v) (Z.of_nat p.1) p.2) (zip (seq 0 (length (maskdat v))) (maskdat v)) &&
  distinct (maskdat v) &&
  all_within R (R * R + Z.max 0 (R - 3)) (λ _ _, true) (maskdat v) &&
  all_within R (R * R + Z.max 0 (R - 3)) (λ x y, (1 <? R) && (Z.abs x <? R) && (Z.abs y <? R))
    (take (Z.to_nat (ext_masked_count v)) (maskdat v)).

Definition tables_ok (vs : list sight_values_t) : bool :=
  (length vs =? 12)%nat && forallb (λ p, table_ok (Z.of_nat p.1 + 1) p.2) (zip (seq 0 12) vs).

Lemma sight_values_checked :
  is_ok (generateSightValues 40) = true ∧ tables_ok sight_values = true.
Proof. split; vm_compute; reflexivity. Qed.
#[global] Opaque sight_values.

(** What the check says about a table. *)
Definition source (ns : list maskdat_node_t) (n : maskdat_node_t) (i p : Z) : Prop :=
  0 ≤ p < i ∧ ∃ m, ns !! Z.to_nat p = Some m ∧
    Z.min 0 (nx n) ≤ nx m ≤ Z.max 0 (nx n) ∧ Z.min 0 (ny n) ≤ ny m ≤ Z.max 0 (ny n).

Definition beside (n : maskdat_node_t) : Prop := Z.abs (nx n) ≤ 1 ∧ Z.abs (ny n) ≤ 1.

Record Entry (R : Z) (ns : list maskdat_node_t) (i : nat) (n : maskdat_node_t) : Prop := {
  e_relative : relative_tile_index n = ny n * Tiles.tilesWidth + nx n;
  e_x : Z.abs (nx n) ≤ R;
  e_y : Z.abs (ny n) ≤ R;
  e_source : (9 ≤ i)%nat → source ns n (Z.of_nat i) (prev n) ∧ (prev2 n = npos ∨ source ns n (Z.of_nat i) (prev2 n));
  e_disc : nx n * nx n + ny n * ny n < R * R + R ∨ beside n
}.

Record Table (R : Z) (v : sight_values_t) : Prop := {
  tb_min : min_mask_size v = 9;
  tb_ext : 0 ≤ ext_masked_count v;
  tb_length : Z.of_nat (length (maskdat v)) = 9 + ext_masked_count v;
  tb_bound : (length (maskdat v) ≤ 625)%nat;
  tb_entry : ∀ i n, maskdat v !! i = Some n → Entry R (maskdat v) i n;
  tb_full : ∀ dx dy, dx * dx + dy * dy ≤ R * R + Z.max 0 (R - 3) → ∃ n, n ∈ maskdat v ∧ nx n = dx ∧ ny n = dy;
  tb_air : ∀ dx dy, dx * dx + dy * dy ≤ R * R + Z.max 0 (R - 3) → 1 < R → Z.abs dx < R → Z.abs dy < R →
    ∃ n, n ∈ take (Z.to_nat (ext_masked_count v)) (maskdat v) ∧ nx n = dx ∧ ny n = dy
}.

Lemma source_ok_spec ns n i p : source_ok ns n i p = true → source ns n i p.
Proof.
  unfold source_ok, source, nearer. destruct ((0 <=? p) && (p <? i)) eqn:E; [|done].
  destruct (ns !! Z.to_nat p) as [m|]; [|done]. rewrite !andb_true_iff, !Z.leb_le in *. rewrite Z.ltb_lt in E.
  intros H. split; [tauto|]. exists m. split; [done|]. tauto.
Qed.

Lemma entry_ok_spec R ns i n : entry_ok R ns (Z.of_nat i) n = true → Entry R ns i n.
Proof.
  unfold entry_ok, beside. rewrite !andb_true_iff, !orb_true_iff, !andb_true_iff, !Z.eqb_eq, !Z.leb_le, !Z.ltb_lt.
  intros (((((H1 & H2) & H3) & H4) & H5) & _). constructor; try done.
  intros Hi. destruct H4 as [?|[Ha Hb]]; [lia|]. split; [by apply source_ok_spec|].
  rewrite orb_true_iff, Z.eqb_eq in Hb. destruct Hb; [by left|right; by apply source_ok_spec].
Qed.

Lemma zip_seq_lookup {A} (l : list A) i x : l !! i = Some x → (i, x) ∈ zip (seq 0 (length l)) l.
Proof.
  intros Hi. apply list_elem_of_lookup. exists i. apply lookup_zip_with_Some.
  exists i, x. split_and!; [done| |done]. apply lookup_seq. apply lookup_lt_Some in Hi. lia.
Qed.

Lemma all_within_spec R bound P ns dx dy : bound < (R + 1) * (R + 1) → 0 ≤ R → all_within R bound P ns = true →
  dx * dx + dy * dy ≤ bound → P dx dy = true → ∃ n, n ∈ ns ∧ nx n = dx ∧ ny n = dy.
Proof.
  intros Hb HR H Hd HP. unfold all_within in H. rewrite forallb_forall in H.
  assert (∀ z, z * z ≤ bound → In z (range (- R) (R + 1))) as Hr.
  { intros z Hz. apply list_elem_of_In, elem_of_range. nia. }
  specialize (H dy (Hr dy ltac:(nia))). rewrite forallb_forall in H. specialize (H dx (Hr dx ltac:(nia))).
  rewrite HP in H. cbn [negb] in H. rewrite orb_false_r in H.
  apply orb_true_iff in H as [?%Z.ltb_lt|H]; [lia|]. apply existsb_exists in H as (n & Hn & E).
  apply andb_true_iff in E as [?%Z.eqb_eq ?%Z.eqb_eq]. exists n. split; [by apply list_elem_of_In|done].
Qed.

Lemma table_ok_spec R v : 0 ≤ R → table_ok R v = true → Table R v.
Proof.
  intros HR. unfold table_ok. rewrite !andb_true_iff. intros (((((((H1 & H2) & H3) & H4) & H5) & _) & H6) & H7).
  rewrite Z.eqb_eq in H1, H3. rewrite Z.leb_le in H2. rewrite Nat.leb_le in H4.
  constructor; try done.
  - intros i n Hi. apply entry_ok_spec. rewrite forallb_forall in H5. apply (H5 (i, n)).
    by apply list_elem_of_In, zip_seq_lookup.
  - intros dx dy Hd. by eapply all_within_spec; [|exact HR|exact H6|exact Hd|]; [lia|].
  - intros dx dy Hd H1R Hx Hy. eapply all_within_spec; [|exact HR|exact H7|exact Hd|]; [lia|].
    rewrite !andb_true_iff, !Z.ltb_lt. done.
Qed.

Lemma tables_ok_spec vs :
  tables_ok vs = true → length vs = 12%nat ∧ ∀ r v, vs !! r = Some v → Table (Z.of_nat r + 1) v.
Proof.
  unfold tables_ok. rewrite andb_true_iff, Nat.eqb_eq, forallb_forall. intros [Hl H]. split; [done|].
  intros r v Hr. apply table_ok_spec; [lia|]. apply (H (r, v)). apply list_elem_of_In. rewrite <-Hl.
  by apply zip_seq_lookup.
Qed.

(** Entry [r] of [sight_values] is the table for a disc of radius [r + 1]. *)
Lemma sight_values_table r v : sight_values !! r = Some v → Table (Z.of_nat r + 1) v.
Proof. apply (tables_ok_spec sight_values (proj2 sight_values_checked)). Qed.

Lemma sight_values_length : length sight_values = 12%nat.
Proof. apply (tables_ok_spec sight_values (proj2 sight_values_checked)). Qed.

(** ** What is revealed *)

(** The entries that are on the map when the unit is at [tx], [ty]. *)
Definition on (s : Tiles.state) (tx ty : Z) (n : maskdat_node_t) : Prop := Tiles.on_map s (tx + nx n) (ty + ny n).
#[export] Instance on_dec s tx ty n : Decision (on s tx ty n).
Proof. unfold on, Tiles.on_map. apply _. Defined.

Definition lit_cells (s : Tiles.state) (tx ty : Z) (ns : list maskdat_node_t) : list Z :=
  (λ n, Tiles.tile_index (tx + nx n) (ty + ny n)) <$> filter (on s tx ty) ns.

Definition lit (currentFrame : Z) (t : Tiles.tile) : Tiles.tile :=
  Tiles.set_lastSeen currentFrame (Tiles.set_visible true t).

Definition lighten (s : Tiles.state) (tx ty currentFrame : Z) (ns : list maskdat_node_t) : Tiles.state :=
  Tiles.set_tiles s (Tiles.upd (lit currentFrame) (lit_cells s tx ty ns) (Tiles.tiles s)).

Lemma lit_cells_grid s tx ty ns : Tiles.WF s → Tiles.in_grid (lit_cells s tx ty ns).
Proof.
  intros HW p (n & -> & [Hn _]%list_elem_of_filter)%list_elem_of_fmap. by eapply Tiles.tile_index_range.
Qed.

Lemma lighten_wf s tx ty f ns : Tiles.WF s → Tiles.WF (lighten s tx ty f ns).
Proof. apply Tiles.wf_upd. Qed.

Lemma lighten_snoc_on s tx ty f ns n :
  Tiles.WF s → on s tx ty n →
  Tiles.modify (lit f) (lighten s tx ty f ns) (Tiles.tile_index (tx + nx n) (ty + ny n)) = Ok (lighten s tx ty f (ns ++ [n])).
Proof.
  intros HW Hn. rewrite Tiles.modify_ok; [|by apply lighten_wf|by eapply Tiles.tile_index_range]. unfold lighten.
  rewrite Tiles.set_tiles_twice. cbn [Tiles.tiles Tiles.set_tiles]. rewrite <-Tiles.upd_app. do 3 f_equal.
  unfold lit_cells. rewrite filter_app, fmap_app. f_equal. rewrite filter_cons_True by done. done.
Qed.

Lemma lighten_snoc_off s tx ty f ns n : ¬ on s tx ty n → lighten s tx ty f (ns ++ [n]) = lighten s tx ty f ns.
Proof.
  intros Hn. unfold lighten, lit_cells. rewrite filter_app, fmap_app, filter_cons_False by done. by rewrite app_nil_r.
Qed.

Section reveal_spec.
Context (s : Tiles.state) (tx ty currentFrame R : Z) (v : sight_values_t).
Context (HW : Tiles.WF s) (Hon : Tiles.on_map s tx ty) (HR : 0 ≤ R ≤ 12) (HT : Table R v).

Lemma outside_on s' n i :
  Tiles.mapTileWidth_ s' = Tiles.mapTileWidth_ s → Tiles.mapTileHeight_ s' = Tiles.mapTileHeight_ s →
  maskdat v !! i = Some n → outside tx ty s' n = negb (bool_decide (on s tx ty n)).
Proof using HW Hon HR HT.
  intros Ew Eh Hi. destruct (tb_entry _ _ HT i n Hi) as [_ Hx Hy _ _]. destruct HW as [_ Hw Hh]. destruct Hon as [Hox Hoy].
  unfold outside, on, Tiles.on_map. rewrite Ew, Eh, !Z.geb_leb. unfold Tiles.tilesWidth, Tiles.tilesHeight in *.
  assert (∀ z, - 20 ≤ z < 300 → u64 z = if 0 <=? z then z else z + 2 ^ 64) as E.
  { intros z Hz. unfold u64. destruct (Z.leb_spec 0 z); [by apply Z.mod_small; lia|].
    symmetry. apply (Z.mod_unique_pos _ _ (-1)); lia. }
  rewrite !E by lia. case_bool_decide as Hd; simpl.
  - apply orb_false_iff. rewrite !Z.leb_gt. split; case_match; lia.
  - apply orb_true_iff. rewrite !Z.leb_le. destruct (Z.leb_spec 0 (tx + nx n)), (Z.leb_spec 0 (ty + ny n)); lia.
Qed.

Lemma relative_index n i :
  maskdat v !! i = Some n → Tiles.tile_index tx ty + relative_tile_index n = Tiles.tile_index (tx + nx n) (ty + ny n).
Proof using HT.
  intros Hi. destruct (tb_entry _ _ HT i n Hi) as [E _ _ _ _]. rewrite E. unfold Tiles.tile_index. lia.
Qed.

(** After the first [k] entries: the propagation is 0 for those on the map,
    whatever the heights. *)
Definition progress (k : Z) (acc : Tiles.state * propagation) : Prop :=
  acc.1 = lighten s tx ty currentFrame (take (Z.to_nat k) (maskdat v)) ∧ length acc.2 = 625%nat ∧
  ∀ i n, Z.of_nat i < k → maskdat v !! i = Some n →
    acc.2 !! i = Some (Some (if decide (on s tx ty n) then 0 else 0xff)).

Lemma at_index_lookup {A} (l : list A) (i : Z) a : 0 ≤ i → l !! Z.to_nat i = Some a → Tiles.at_ l i = Ok a.
Proof. intros Hi Hl. unfold Tiles.at_. replace (0 <=? i) with true by lia. by rewrite Hl. Qed.

Lemma set_vp_ok vp i z : 0 ≤ i < Z.of_nat (length vp) → set_vp vp i z = Ok (<[Z.to_nat i := Some (u8 z)]> vp).
Proof.
  intros Hi. unfold set_vp. destruct (lookup_lt_is_Some_2 vp (Z.to_nat i)) as [o Ho]; [lia|].
  by rewrite (at_index_lookup vp i o) by (done || lia).
Qed.

Lemma height_lost h : u8 (u32 (u32 (h * 2 ^ 8) * 2 ^ 16)) = 0.
Proof.
  unfold u8, u32. generalize ((h * 2 ^ 8) mod 2 ^ 32) as a. intros a. Z.div_mod_to_equations. lia.
Qed.

Lemma reveal_ground_ok k vp n :
  0 ≤ k < 625 → length vp = 625%nat → maskdat v !! Z.to_nat k = Some n → on s tx ty n →
  reveal_ground (Tiles.tile_index tx ty) currentFrame
    (lighten s tx ty currentFrame (take (Z.to_nat k) (maskdat v))) vp k n =
  Ok (lighten s tx ty currentFrame (take (S (Z.to_nat k)) (maskdat v)), <[Z.to_nat k := Some 0]> vp).
Proof using HW HT.
  intros Hk Hl Hn Ho. unfold reveal_ground, reveal. rewrite (relative_index n (Z.to_nat k)) by done.
  fold (lit currentFrame). rewrite lighten_snoc_on by done. cbn [rbind]. rewrite (take_S_r _ _ n) by done.
  destruct (Tiles.getAt_ok (lighten s tx ty currentFrame (take (Z.to_nat k) (maskdat v) ++ [n]))
    (Tiles.tile_index (tx + nx n) (ty + ny n))) as (t & -> & _);
    [by apply lighten_wf|by eapply Tiles.tile_index_range|]. cbn [rbind].
  rewrite set_vp_ok, height_lost by lia. done.
Qed.

(** The last two cases of a round: the entry is off the map, or it is revealed. *)
Lemma progress_off k vp n :
  0 ≤ k → maskdat v !! Z.to_nat k = Some n → ¬ on s tx ty n →
  progress k (lighten s tx ty currentFrame (take (Z.to_nat k) (maskdat v)), vp) →
  progress (k + 1) (lighten s tx ty currentFrame (take (Z.to_nat k) (maskdat v)), <[Z.to_nat k := Some 0xff]> vp).
Proof.
  intros Hk Hn Ho (_ & Hl & Hp). cbn [fst snd] in *. split_and!; cbn [fst snd].
  - replace (Z.to_nat (k + 1)) with (S (Z.to_nat k)) by lia. rewrite (take_S_r _ _ n) by done. by rewrite lighten_snoc_off.
  - by rewrite length_insert.
  - intros i m Hi Hm. destruct (decide (i = Z.to_nat k)) as [->|Hne].
    + assert (m = n) as -> by congruence. rewrite decide_False by done. apply list_lookup_insert_eq.
      destruct HT. apply lookup_lt_Some in Hn. lia.
    + rewrite list_lookup_insert_ne by done. apply Hp; [lia|done].
Qed.

Lemma progress_on k vp n :
  0 ≤ k → maskdat v !! Z.to_nat k = Some n → on s tx ty n →
  progress k (lighten s tx ty currentFrame (take (Z.to_nat k) (maskdat v)), vp) →
  progress (k + 1) (lighten s tx ty currentFrame (take (S (Z.to_nat k)) (maskdat v)), <[Z.to_nat k := Some 0]> vp).
Proof.
  intros Hk Hn Ho (_ & Hl & Hp). cbn [fst snd] in *. split_and!; cbn [fst snd].
  - by replace (Z.to_nat (k + 1)) with (S (Z.to_nat k)) by lia.
  - by rewrite length_insert.
  - intros i m Hi Hm. destruct (decide (i = Z.to_nat k)) as [->|Hne].
    + assert (m = n) as -> by congruence. rewrite decide_True by done. apply list_lookup_insert_eq.
      destruct HT. apply lookup_lt_Some in Hn. lia.
    + rewrite list_lookup_insert_ne by done. apply Hp; [lia|done].
Qed.

Lemma progress_state k acc : progress k acc → acc = (lighten s tx ty currentFrame (take (Z.to_nat k) (maskdat v)), acc.2).
Proof. destruct acc as [st vp]. intros (E & _). cbn [fst snd] in *. by rewrite E. Qed.

Lemma entry_at k : 0 ≤ k < 9 + ext_masked_count v → ∃ n, maskdat v !! Z.to_nat k = Some n ∧ Tiles.at_ (maskdat v) k = Ok n.
Proof using HT.
  intros Hk. destruct HT as [_ _ Hlen _ _ _ _]. destruct (lookup_lt_is_Some_2 (maskdat v) (Z.to_nat k)) as [n Hn]; [lia|].
  exists n. split; [done|]. apply at_index_lookup; [lia|done].
Qed.

Lemma inner_step k acc :
  0 ≤ k < 9 → progress k acc →
  ∃ acc', inner_tile tx ty (Tiles.tile_index tx ty) currentFrame v acc k = Ok acc' ∧ progress (k + 1) acc'.
Proof using HW Hon HR HT.
  intros Hk Hp. rewrite (progress_state k acc Hp) in Hp |- *. pose proof Hp as (_ & Hl & _). cbn [snd] in Hl.
  destruct HT as [_ He _ _ _ _ _]. destruct (entry_at k) as (n & Hn & Ea); [lia|].
  unfold inner_tile. rewrite Ea. cbn [rbind]. rewrite set_vp_ok by lia. cbn [rbind].
  rewrite (outside_on _ n (Z.to_nat k)) by done. case_bool_decide as Ho; cbn [negb].
  - rewrite reveal_ground_ok by (done || lia || by rewrite length_insert). eexists. split; [done|].
    rewrite list_insert_insert_eq. by apply (progress_on k _ n); [lia|..].
  - eexists. split; [done|]. by apply (progress_off k _ n); [lia|..].
Qed.

(** A source of an entry on the map is on the map and lets the light pass. *)
Lemma source_clear k vp n p st :
  progress k (st, vp) → maskdat v !! Z.to_nat k = Some n → on s tx ty n → source (maskdat v) n k p →
  get_vp (<[Z.to_nat k := Some 0xff]> vp) p = Ok 0.
Proof using Hon.
  intros (_ & Hl & Hp) Hn Ho (Hr & m & Hm & Hx & Hy). cbn [snd] in *. unfold get_vp.
  assert (on s tx ty m) as Hom by (unfold on, Tiles.on_map in *; lia).
  rewrite (at_index_lookup _ p (Some 0)); [done|lia|]. rewrite list_lookup_insert_ne by lia.
  rewrite (Hp (Z.to_nat p) m) by (done || lia). by rewrite decide_True.
Qed.

Lemma outer_step required k acc :
  9 ≤ k < 9 + ext_masked_count v → progress k acc →
  ∃ acc', outer_tile tx ty (Tiles.tile_index tx ty) currentFrame required v acc k = Ok acc' ∧ progress (k + 1) acc'.
Proof using HW Hon HR HT.
  intros Hk Hp. rewrite (progress_state k acc Hp) in Hp |- *. pose proof Hp as (_ & Hl & _). cbn [snd] in Hl.
  pose proof HT as [_ _ Hlen Hb He _ _]. destruct (entry_at k) as (n & Hn & Ea); [lia|].
  unfold outer_tile. rewrite Ea. cbn [rbind]. rewrite set_vp_ok by lia. cbn [rbind].
  rewrite (outside_on _ n (Z.to_nat k)) by done. case_bool_decide as Ho; cbn [negb].
  - destruct (e_source _ _ _ _ (He _ _ Hn)) as [Hs _]; [lia|]. rewrite Z2Nat.id in Hs by lia.
    unfold blocked. change (u8 255) with 255. rewrite (source_clear k acc.2 n (prev n) _ Hp Hn Ho Hs). cbn [rbind].
    rewrite Z.land_0_l. cbn [Z.eqb negb].
    rewrite reveal_ground_ok by (done || lia || by rewrite length_insert). eexists. split; [done|].
    rewrite list_insert_insert_eq. by apply (progress_on k _ n); [lia|..].
  - eexists. split; [done|]. by apply (progress_off k _ n); [lia|..].
Qed.

Lemma ground_ok required :
  ∃ r, (let? r := rfold (inner_tile tx ty (Tiles.tile_index tx ty) currentFrame v) (range 0 (min_mask_size v)) (s, replicate 625 None) in
        rfold (outer_tile tx ty (Tiles.tile_index tx ty) currentFrame required v)
          (range (min_mask_size v) (min_mask_size v + ext_masked_count v)) r) = Ok r ∧
    r.1 = lighten s tx ty currentFrame (maskdat v).
Proof using HW Hon HR HT.
  pose proof HT as [-> He Hlen _ _ _ _].
  destruct (rfold_range progress (inner_tile tx ty (Tiles.tile_index tx ty) currentFrame v) 0 9 (s, replicate 625 None))
    as (r1 & -> & H1); [by intros; apply inner_step|lia| |].
  { split_and!; cbn [fst snd]; [|apply length_replicate|lia]. unfold lighten. simpl. by rewrite Tiles.set_tiles_same. }
  cbn [rbind].
  destruct (rfold_range progress (outer_tile tx ty (Tiles.tile_index tx ty) currentFrame required v) 9 (9 + ext_masked_count v) r1)
    as (r2 & -> & H2); [by intros; apply outer_step|lia|done|].
  exists r2. split; [done|]. destruct H2 as (-> & _). by rewrite firstn_all2 by lia.
Qed.

Lemma air_ok :
  rfold (air_tile tx ty (Tiles.tile_index tx ty) currentFrame v) (range 0 (ext_masked_count v)) s =
  Ok (lighten s tx ty currentFrame (take (Z.to_nat (ext_masked_count v)) (maskdat v))).
Proof using HW Hon HR HT.
  pose proof HT as [_ He _ _ _ _ _].
  destruct (rfold_range (λ k st, st = lighten s tx ty currentFrame (take (Z.to_nat k) (maskdat v)))
    (air_tile tx ty (Tiles.tile_index tx ty) currentFrame v) 0 (ext_masked_count v) s) as (st & -> & ->).
  - intros k st Hk ->. destruct (entry_at k) as (n & Hn & Ea); [lia|]. unfold air_tile. rewrite Ea. cbn [rbind].
    rewrite (outside_on _ n (Z.to_nat k)) by done. replace (Z.to_nat (k + 1)) with (S (Z.to_nat k)) by lia.
    rewrite (take_S_r _ _ n) by done. case_bool_decide as Ho; cbn [negb].
    + unfold reveal. rewrite (relative_index n (Z.to_nat k)) by done. fold (lit currentFrame).
      rewrite lighten_snoc_on by done. eauto.
    + rewrite lighten_snoc_off by done. eauto.
  - lia.
  - unfold lighten. simpl. by rewrite Tiles.set_tiles_same.
  - done.
Qed.
End reveal_spec.

(** The state after [revealSightAt], for any heights of the tiles. *)
Lemma revealSightAt_table sv v s x y range in_air currentFrame :
  length sv = 12%nat → sv !! Z.to_nat (range / 4) = Some v → Table (range / 4 + 1) v →
  Tiles.WF s → in_int x → in_int y → 0 ≤ range < 48 →
  revealSightAt sv s x y range in_air currentFrame =
  Ok (if decide (Tiles.on_map s (x / 4) (y / 4))
      then lighten s (x / 4) (y / 4) currentFrame (if in_air then take (Z.to_nat (ext_masked_count v)) (maskdat v) else maskdat v)
      else s).
Proof.
  intros Hlen Hv HT HW Hx Hy Hr. unfold revealSightAt. pose proof (Tiles.tryGetTile_spec s x y) as Ht.
  case_decide as Hon.
  - rewrite (proj2 (Ht (Tiles.tile_index (x / 4) (y / 4)) HW Hx Hy)) by done.
    destruct (Tiles.getAt_ok s (Tiles.tile_index (x / 4) (y / 4))) as (t & -> & _); [done|by eapply Tiles.tile_index_range|].
    cbn [rbind]. unfold Tiles.XYWalktilesPerBuildtile. rewrite Z.quot_div_nonneg by lia.
    assert (0 ≤ range / 4 < 12) by (Z.div_mod_to_equations; lia). rewrite Hlen.
    replace (range / 4 <? 0) with false by blia. replace (Z.of_nat 12 <=? range / 4) with false by blia. cbn [orb].
    rewrite Hv. cbn [of_option rbind].
    assert (0 ≤ x ∧ 0 ≤ y) as [Hx0 Hy0] by (destruct Hon; Z.div_mod_to_equations; lia).
    assert (∀ z, 0 ≤ z → in_int z → u64 z / 4 = z / 4) as E.
    { intros z Hz Hz'. unfold in_int in Hz'. unfold u64. by rewrite Z.mod_small by lia. }
    rewrite !E by done. destruct in_air.
    + apply (air_ok s (x / 4) (y / 4) currentFrame (range / 4 + 1)); (done || lia).
    + edestruct (ground_ok s (x / 4) (y / 4) currentFrame (range / 4 + 1) v HW Hon ltac:(lia) HT)
        as (r & Eq & Er). apply rbind_Ok_inv in Eq as (r1 & -> & Eq). cbn [rbind]. rewrite Eq. cbn [rbind]. by rewrite Er.
  - destruct (Tiles.tryGetTile s x y) as [p|]; [|done]. destruct (proj1 (Ht p HW Hx Hy) eq_refl). tauto.
Qed.

(** The table for a sight range in walk tiles, and the entries of it that
    count: all of them on the ground, all but the last nine in the air. *)
Definition sight_table (range : Z) : sight_values_t := nth (Z.to_nat (range / 4)) sight_values (empty_values 0).
Definition sight_nodes (range : Z) (in_air : bool) : list maskdat_node_t :=
  let v := sight_table range in if in_air then take (Z.to_nat (ext_masked_count v)) (maskdat v) else maskdat v.

Lemma sight_table_ok range : 0 ≤ range < 48 →
  sight_values !! Z.to_nat (range / 4) = Some (sight_table range) ∧ Table (range / 4 + 1) (sight_table range).
Proof.
  intros Hr. assert (0 ≤ range / 4 < 12) by (Z.div_mod_to_equations; lia).
  destruct (lookup_lt_is_Some_2 sight_values (Z.to_nat (range / 4))) as [v Hv]; [rewrite sight_values_length; lia|].
  assert (sight_table range = v) as ->.
  { unfold sight_table. by rewrite nth_lookup, Hv. }
  split; [done|]. apply sight_values_table in Hv. by rewrite Z2Nat.id in Hv by lia.
Qed.

Lemma revealSightAt_lighten s x y range in_air currentFrame :
  Tiles.WF s → in_int x → in_int y → 0 ≤ range < 48 →
  revealSightAt sight_values s x y range in_air currentFrame =
  Ok (if decide (Tiles.on_map s (x / 4) (y / 4)) then lighten s (x / 4) (y / 4) currentFrame (sight_nodes range in_air) else s).
Proof.
  intros HW Hx Hy Hr. destruct (sight_table_ok range Hr) as [Hv HT].
  exact (revealSightAt_table sight_values (sight_table range) s x y range in_air currentFrame
    sight_values_length Hv HT HW Hx Hy Hr).
Qed.

Lemma lighten_lookup s tx ty f ns p :
  Tiles.WF s → Tiles.tiles (lighten s tx ty f ns) !! p =
  if decide (Z.of_nat p ∈ lit_cells s tx ty ns) then lit f <$> Tiles.tiles s !! p else Tiles.tiles s !! p.
Proof. intros HW. apply Tiles.lookup_upd_idemp; [done|by apply lit_cells_grid]. Qed.

Lemma elem_of_lit_cells s ux uy ns tx ty :
  Tiles.WF s → Tiles.on_map s tx ty →
  Tiles.tile_index tx ty ∈ lit_cells s ux uy ns ↔ ∃ n, n ∈ ns ∧ nx n = tx - ux ∧ ny n = ty - uy.
Proof.
  intros HW Ht. unfold lit_cells. rewrite list_elem_of_fmap. split.
  - intros (n & E & [Hon Hn]%list_elem_of_filter). exists n. split; [done|].
    destruct (Tiles.tile_index_inj s tx ty (ux + nx n) (uy + ny n) HW Ht Hon E). lia.
  - intros (n & Hn & Ex & Ey). exists n. rewrite Ex, Ey. split; [f_equal; lia|].
    apply list_elem_of_filter. split; [|done]. unfold on. rewrite Ex, Ey. by replace (ux + (tx - ux)) with tx by lia; replace (uy + (ty - uy)) with ty by lia.
Qed.

(** ** Sight in geometric terms

    A unit sees a disc of build tiles around its own tile, whatever the heights
    in between; its radius is one more than the sight range in build tiles, plus
    one half, so that the square of the distance is below [R * R + R].  At the
    very rim, where the square is at most two below that, the tables decide.  A
    flying unit is only sure to see tiles that are fewer than [R] rows and columns
    away. *)
Definition within_reach (range dx dy : Z) : Prop :=
  let R := range / 4 + 1 in dx * dx + dy * dy < R * R + R ∨ Z.abs dx ≤ 1 ∧ Z.abs dy ≤ 1.
Definition in_clear_sight (range : Z) (in_air : bool) (dx dy : Z) : Prop :=
  let R := range / 4 + 1 in
  dx * dx + dy * dy ≤ R * R + Z.max 0 (R - 3) ∧ (in_air = true → 1 < R ∧ Z.abs dx < R ∧ Z.abs dy < R).

Lemma sight_nodes_reach range in_air n : 0 ≤ range < 48 → n ∈ sight_nodes range in_air → within_reach range (nx n) (ny n).
Proof.
  intros Hr Hn. destruct (sight_table_ok range Hr) as [_ HT].
  assert (n ∈ maskdat (sight_table range)) as Hn'.
  { unfold sight_nodes in Hn. destruct in_air; [|done].
    rewrite <-(take_drop (Z.to_nat (ext_masked_count (sight_table range))) (maskdat _)). apply elem_of_app. by left. }
  apply list_elem_of_lookup in Hn' as [i Hn']. exact (e_disc _ _ _ _ (tb_entry _ _ HT i n Hn')).
Qed.

Lemma sight_nodes_clear range in_air dx dy : 0 ≤ range < 48 → in_clear_sight range in_air dx dy →
  ∃ n, n ∈ sight_nodes range in_air ∧ nx n = dx ∧ ny n = dy.
Proof.
  intros Hr [Hd Ha]. destruct (sight_table_ok range Hr) as [_ HT]. unfold sight_nodes. destruct in_air.
  - destruct (Ha eq_refl) as (? & ? & ?). by apply (tb_air _ _ HT).
  - by apply (tb_full _ _ HT).
Qed.

(** [revealSightAt] never fails for a sight range below 48 walk tiles.  It
    marks tiles of the map as visible and seen now, and changes nothing else.
    A unit on the ground reveals every tile within the radius [R] of its own
    tile, whatever the heights in between, and no unit reveals a tile farther
    away than [R] plus one half, apart from those next to it. *)
Theorem revealSightAt_spec s x y range in_air currentFrame :
  Tiles.WF s → in_int x → in_int y → 0 ≤ range < 48 →
  ∃ s', revealSightAt sight_values s x y range in_air currentFrame = Ok s' ∧ Tiles.WF s' ∧
    (¬ Tiles.on_map s (x / 4) (y / 4) → s' = s) ∧
    (∀ p t, Tiles.tiles s !! p = Some t →
       Tiles.tiles s' !! p = Some t ∨ Tiles.tiles s' !! p = Some (lit currentFrame t)) ∧
    ∀ tx ty t, Tiles.on_map s (x / 4) (y / 4) → Tiles.on_map s tx ty →
      Tiles.tiles s !! Z.to_nat (Tiles.tile_index tx ty) = Some t →
      let R := range / 4 + 1 in let d := (tx - x / 4) ^ 2 + (ty - y / 4) ^ 2 in
      (in_air = false → d ≤ R * R → Tiles.tiles s' !! Z.to_nat (Tiles.tile_index tx ty) = Some (lit currentFrame t)) ∧
      (R * R + R ≤ d → 2 < d → Tiles.tiles s' !! Z.to_nat (Tiles.tile_index tx ty) = Some t).
Proof.
  intros HW Hx Hy Hr. rewrite revealSightAt_lighten by done. eexists. split; [done|].
  destruct (sight_table_ok range Hr) as [_ HT]. case_decide as Hon.
  2:{ split_and!; [done|done|by left|by intros]. }
  split_and!; [by apply lighten_wf|done| |].
  - intros p t Ht. rewrite lighten_lookup, Ht by done. case_decide; [by right|by left].
  - intros tx ty t _ Ht Hl R d. pose proof (Tiles.tile_index_range s tx ty HW Ht) as Hi.
    rewrite lighten_lookup, Z2Nat.id, Hl by (done || lia). pose proof (elem_of_lit_cells s (x / 4) (y / 4)
      (sight_nodes range in_air) tx ty HW Ht) as He. unfold d, R. split.
    + intros -> Hd. rewrite decide_True; [done|]. apply He. apply sight_nodes_clear; [done|]. split; [lia|done].
    + intros Hd H2. rewrite decide_False; [done|]. rewrite He. intros (n & Hn & Ex & Ey).
      destruct (sight_nodes_reach _ _ _ Hr Hn) as [Hlt|[Ha Hb]]; rewrite Ex, Ey in *; [lia|nia].
Qed.

(** ** Flying units *)

(** The loop for flying units stops nine entries early. *)
Definition missed (R : Z) (v : sight_values_t) : bool :=
  let seen := take (Z.to_nat (ext_masked_count v)) (maskdat v) in
  existsb (λ n, (nx n * nx n + ny n * ny n <=? R * R) &&
    forallb (λ m, negb ((nx m =? nx n) && (ny m =? ny n))) seen) (maskdat v).

Lemma tables_missed : forallb (λ p, missed (Z.of_nat p.1 + 1) p.2) (zip (seq 0 12) sight_values) = true.
Proof. vm_compute. reflexivity. Qed.

Lemma missed_spec vs r v :
  length vs = 12%nat → forallb (λ p, missed (Z.of_nat p.1 + 1) p.2) (zip (seq 0 12) vs) = true → vs !! r = Some v →
  ∃ n, n ∈ maskdat v ∧ nx n * nx n + ny n * ny n ≤ (Z.of_nat r + 1) * (Z.of_nat r + 1) ∧
    ∀ m, m ∈ take (Z.to_nat (ext_masked_count v)) (maskdat v) → ¬ (nx m = nx n ∧ ny m = ny n).
Proof.
  intros Hl H Hv. rewrite forallb_forall in H. specialize (H (r, v)). cbn [fst snd] in H.
  unfold missed in H. rewrite existsb_exists in H. destruct H as (n & Hn & E).
  { apply list_elem_of_In. rewrite <-Hl. by apply zip_seq_lookup. }
  apply andb_true_iff in E as [E1%Z.leb_le E2]. exists n. split_and!; [by apply list_elem_of_In|done|].
  intros m Hm [Ex Ey]. rewrite forallb_forall in E2. specialize (E2 m). apply list_elem_of_In in Hm.
  specialize (E2 Hm). by rewrite Ex, Ey, !Z.eqb_refl in E2.
Qed.

(** For every range there is a tile within the radius that a unit on the
    ground reveals and a flying unit at the same place does not. *)
Theorem flyer_misses range :
  0 ≤ range < 48 → ∃ n, n ∈ sight_nodes range false ∧ nx n * nx n + ny n * ny n ≤ (range / 4 + 1) * (range / 4 + 1) ∧
    ∀ m, m ∈ sight_nodes range true → ¬ (nx m = nx n ∧ ny m = ny n).
Proof.
  intros Hr. destruct (sight_table_ok range Hr) as [Hv _].
  assert (0 ≤ range / 4) by (apply Z.div_pos; lia).
  destruct (missed_spec _ _ _ sight_values_length tables_missed Hv) as (n & H1 & H2 & H3).
  rewrite Z2Nat.id in H2 by assumption. exists n. split; [exact H1|]. split; [exact H2|exact H3].
Qed.

(** ** Examples *)

(** A unit in the corner of the map that sees seven tiles far. *)
Lemma revealSightAt_spec_witness :
  ∃ s', revealSightAt sight_values Tiles.example_grid 0 0 28 false 5 = Ok s' ∧
    Tiles.tiles s' !! Z.to_nat (Tiles.tile_index 7 0) = Some (lit 5 Tiles.tile0).
Proof.
  destruct (revealSightAt_spec Tiles.example_grid 0 0 28 false 5 Tiles.example_grid_wf)
    as (s' & E & _ & _ & _ & H); [unfold in_int; lia|unfold in_int; lia|lia|].
  exists s'. split; [exact E|]. destruct (H 7 0 Tiles.tile0) as [H1 _].
  - unfold Tiles.on_map, Tiles.example_grid. cbn [Tiles.mapTileWidth_ Tiles.mapTileHeight_]. change (0 / 4) with 0. lia.
  - unfold Tiles.on_map, Tiles.example_grid. cbn [Tiles.mapTileWidth_ Tiles.mapTileHeight_]. lia.
  - unfold Tiles.example_grid. cbn [Tiles.tiles]. apply lookup_replicate_2.
    unfold Tiles.size, Tiles.tilesHeight, Tiles.tilesWidth, Tiles.tile_index. lia.
  - apply H1; [reflexivity|]. vm_compute. discriminate.
Defined.

Lemma flyer_misses_witness :
  0 ≤ 28 < 48 ∧ ∃ n, n ∈ sight_nodes 28 false ∧ nx n * nx n + ny n * ny n ≤ 64 ∧
    ∀ m, m ∈ sight_nodes 28 true → ¬ (nx m = nx n ∧ ny m = ny n).
Proof. split; [lia|]. apply (flyer_misses 28). lia. Defined.
End FogOfWar.
