(* ===== verification/TilesInfo.v ===== *)
(** * Keeping the tiles up to date ([src/tilesinfo.cpp])

    [TilesInfo::postUnitsUpdate] runs after [UnitsInfo::update] in every frame.
    It recomputes which tiles are visible and carry creep, predicts where creep
    will spread, and at longer intervals marks the tiles around resources,
    records which building stands on a tile, and blocks tiles under larvae. *)

From S2P Require Import Prelude Floats BuildTypes GameMechanics UnitsInfo Tiles FogOfWar.

Module TilesInfo.
Import Tiles.

Section update.
Context {table : BuildType.Table} {attributes : UnitsInfo.Attributes}.
(** The current frame, the units, and the creep map of the frame, a bit per
    build tile. *)
Context (frame : Z) (us : UnitsInfo.state) (creep_map : list Z).

(** [*u] and [u->type] *)
Definition deref (u : Z) : res (UnitsInfo.obj * BuildType) :=
  let? o := UnitsInfo.deref us u in
  let? ty := of_option (UnitsInfo.type (UnitsInfo.info o)) in Ok (o, ty).

(** [t = tryGetTile(x, y); if (t) f(t)] *)
Definition tryModify (f : tile → tile) (s : state) (walkX walkY : Z) : res state :=
  match tryGetTile s walkX walkY with None => Ok s | Some p => modify f s p end.

(** ** Visibility and creep *)

(** [src/src/tilesinfo.cpp:77-85] TilesInfo::postUnitsUpdate *)
Definition revealUnit (s : state) (u : Z) : res state :=
  let? p := deref u in
  let '(o, ty) := p in
  let i := UnitsInfo.info o in
  FogOfWar.revealSightAt FogOfWar.sight_values s (UnitsInfo.x i) (UnitsInfo.y i) (UnitsInfo.sightRange i)
    (UnitsInfo.isFlyer ty || UnitsInfo.lifted o) frame.

(** [src/src/tilesinfo.cpp:89-96] TilesInfo::postUnitsUpdate *)
Definition updateCreep (stride : Z) (s : state) (ptr : Z) : res state :=
  let? t := getAt s ptr in
  if visible t then
    let index := u32 (u32 (y t) / XYWalktilesPerBuildtile * stride + u32 (x t) / XYWalktilesPerBuildtile) in
    let? b := at_ creep_map (index / 8) in
    modify (set_hasCreep (negb (Z.land (Z.shiftr b (index mod 8)) 1 =? 0))) s ptr
  else Ok s.

(** [src/src/tilesinfo.cpp:74-97] TilesInfo::postUnitsUpdate *)
Definition updateVisible (s : state) : res state :=
  if (lastFowCreepUpdate_ s =? 0) || (frame - lastFowCreepUpdate_ s >=? 9) then
    let? s := forAllTiles (modify (set_visible false)) s in
    let? s := rfold revealUnit (UnitsInfo.container us UnitsInfo.myUnits_) s in
    forAllTiles (updateCreep (mapTileWidth_ s)) s
  else Ok s.

(** ** Creep *)

(** [src/src/tilesinfo.cpp:112-121] TilesInfo::postUnitsUpdate *)
Definition firstSpewFrame (o : UnitsInfo.obj) (ty : BuildType) : Z :=
  let isHatch := bool_decide (ty = BuildType.Zerg_Hatchery) in
  let wasHatch := bool_decide (ty = BuildType.Zerg_Lair) || bool_decide (ty = BuildType.Zerg_Hive) in
  let wasCreep := bool_decide (ty = BuildType.Zerg_Sunken_Colony) || bool_decide (ty = BuildType.Zerg_Spore_Colony) in
  if UnitsInfo.completed o || wasHatch || wasCreep then
    UnitsInfo.firstSeen o +
      (if isHatch || wasHatch then BuildType.buildTime BuildType.Zerg_Hatchery
       else BuildType.buildTime BuildType.Zerg_Creep_Colony)
  else frame + UnitsInfo.remainingBuildTrainTime (UnitsInfo.info o).

(** [src/src/tilesinfo.cpp:155-159] TilesInfo::postUnitsUpdate *)
Definition expectCreep (spewFrame : Z) (t : tile) : tile :=
  if hasCreep t then t else
  set_expectsCreep frame
    (if expectsCreepUpdated_ t =? frame then Z.min spewFrame (expectsCreepFrame_ t) else spewFrame) t.

(** [src/src/tilesinfo.cpp:137-177] TilesInfo::postUnitsUpdate *)
Definition creepTile (first buildX32 buildY32 width32 height32 dx32 : Z) (s : state) (dy32 : Z) : res state :=
  if (0 <=? dx32) && (dx32 <? width32) && (0 <=? dy32) && (dy32 <? height32) then Ok s else
  let distance32 := Z.max (Z.max (- dx32) (dx32 - width32)) (Z.max (- dy32) (dy32 - height32)) in
  let ahead := if distance32 <? 3 then 0 else 240 * (distance32 - 2) * (distance32 - 2) in
  tryModify (expectCreep (first + ahead)) s ((buildX32 + dx32) * XYWalktilesPerBuildtile) ((buildY32 + dy32) * XYWalktilesPerBuildtile).

(** [src/src/tilesinfo.cpp:103-180] TilesInfo::postUnitsUpdate *)
Definition anticipateCreep (s : state) (u : Z) : res state :=
  let? p := deref u in
  let '(o, ty) := p in
  if negb (UnitsInfo.producesCreep ty) then Ok s else
  let first := firstSpewFrame o ty in
  if 24 * 60 * 2 <? frame - first then Ok s else
  let buildX32 := Z.quot (UnitsInfo.buildX (UnitsInfo.info o)) XYWalktilesPerBuildtile in
  let buildY32 := Z.quot (UnitsInfo.buildY (UnitsInfo.info o)) XYWalktilesPerBuildtile in
  let width32 := UnitsInfo.tileWidth ty in
  let height32 := UnitsInfo.tileHeight ty in
  rfold (λ s dx32, rfold (creepTile first buildX32 buildY32 width32 height32 dx32) (range (- 4) (height32 + 4)) s)
    (range (- 4) (width32 + 4)) s.

(** ** Resources *)

(** [src/src/tilesinfo.cpp:189-194] TilesInfo::postUnitsUpdate *)
Definition resetSlow (t : tile) : tile :=
  set_lastSlowUpdate frame (set_reservedForResourceDepot false (set_resourceDepotUnbuildable false (set_reservedForGathering false t))).

(** [src/src/tilesinfo.cpp:200-215] TilesInfo::postUnitsUpdate *)
Definition markResource (s : state) (u : Z) : res state :=
  let? p := deref u in
  let '(o, ty) := p in
  let tcu := UnitsInfo.unit (UnitsInfo.info o) in
  let tileLeft := Z.quot (UnitsInfo.tc_pixel_x tcu - UnitsInfo.dimensionLeft ty) 32 in
  let tileTop := Z.quot (UnitsInfo.tc_pixel_y tcu - UnitsInfo.dimensionUp ty) 32 in
  rfold (λ s y, rfold (λ s x, tryModify (set_resourceDepotUnbuildable true) s
      (XYWalktilesPerBuildtile * (tileLeft + x)) (XYWalktilesPerBuildtile * (tileTop + y)))
    (range (- 3) (3 + UnitsInfo.tileWidth ty)) s) (range (- 3) (3 + UnitsInfo.tileHeight ty)) s.

(** [src/src/tilesinfo.cpp:224-229] TilesInfo::postUnitsUpdate *)
Definition reserve (s : state) (px py : Z) : res state := tryModify (set_reservedForGathering true) s px py.

(** [src/src/tilesinfo.cpp:230-238] TilesInfo::postUnitsUpdate *)
Definition reserveLine (ux uy relx rely : Z) (s : state) (i : Z) : res state :=
  let px := ux + Z.quot (relx * i) 8 in
  let py := uy + Z.quot (rely * i) 8 in
  let? s := reserve s px py in
  let? s := reserve s (px - 8) (py - 8) in
  let? s := reserve s (px + 8) (py - 8) in
  let? s := reserve s (px + 8) (py + 8) in
  reserve s (px - 8) (py + 8).

(** [src/src/tilesinfo.cpp:219-240] TilesInfo::postUnitsUpdate *)
Definition reserveMinerals (u : Z) (s : state) (r : Z) : res state :=
  let? ou := UnitsInfo.deref us u in
  let? or := UnitsInfo.deref us r in
  let iu := UnitsInfo.info ou in let ir := UnitsInfo.info or in
  if fleb (f32_of_Z 48) (GameMechanics.distance (UnitsInfo.x iu) (UnitsInfo.y iu) (UnitsInfo.x ir) (UnitsInfo.y ir)) then Ok s else
  rfold (reserveLine (UnitsInfo.x iu) (UnitsInfo.y iu) (UnitsInfo.x ir - UnitsInfo.x iu) (UnitsInfo.y ir - UnitsInfo.y iu))
    (range 0 8) s.

(** [src/src/tilesinfo.cpp:186-241] TilesInfo::postUnitsUpdate *)
Definition slowUpdate (s : state) : res state :=
  if (lastSlowTileUpdate_ s =? 0) || (frame - lastSlowTileUpdate_ s >=? 15 * 10) then
    let s := set_lastSlowTileUpdate s frame in
    let? s := forAllTiles (modify resetSlow) s in
    let? s := rfold markResource (UnitsInfo.container us UnitsInfo.resourceUnits_) s in
    rfold (λ s u, rfold (reserveMinerals u) (UnitsInfo.container us UnitsInfo.resourceUnits_) s)
      (UnitsInfo.container us UnitsInfo.myResourceDepots_) s
  else Ok s.

(** ** Buildings *)

(** The building is still what and where it was.

    [src/src/tilesinfo.cpp:253-254] TilesInfo::postUnitsUpdate *)
Definition stays (o : UnitsInfo.obj) (v : occupant) : bool :=
  let tcu := UnitsInfo.unit (UnitsInfo.info o) in
  negb (UnitsInfo.lifted o || UnitsInfo.gone o || UnitsInfo.dead o ||
    negb (bool_decide (UnitsInfo.type (UnitsInfo.info o) = Some (v_type v))) ||
    negb (UnitsInfo.tc_pixel_x tcu =? pixelX v) || negb (UnitsInfo.tc_pixel_y tcu =? pixelY v)).

(** [src/src/tilesinfo.cpp:255-258] TilesInfo::postUnitsUpdate *)
Definition vacate (u : Z) (t : tile) : tile := if bool_decide (building t = Some u) then set_building None t else t.
(** [src/src/tilesinfo.cpp:261-264] TilesInfo::postUnitsUpdate *)
Definition occupy (u : Z) (t : tile) : tile := match building t with None => set_building (Some u) t | Some _ => t end.

(** A round of the loop, [kept] being the entries that are not erased.

    [src/src/tilesinfo.cpp:249-267] TilesInfo::postUnitsUpdate *)
Definition checkOccupant (acc : state * list (Z * occupant)) (e : Z * occupant) : res (state * list (Z * occupant)) :=
  let '(s, kept) := acc in
  let v := e.2 in
  let? o := UnitsInfo.deref us (v_u v) in
  if negb (stays o v) then
    let? s := rfold (modify (vacate (v_u v))) (v_tiles v) s in Ok (s, kept)
  else
    let? s := rfold (modify (occupy (v_u v))) (v_tiles v) s in Ok (s, kept ++ [e]).

(** The rounds of [for (c = from; c != from + 4 * n; c += 4)]. *)
Definition steps (from n : Z) : list Z := (λ i, from + XYWalktilesPerBuildtile * i) <$> range 0 n.

(** [src/src/tilesinfo.cpp:291-301] TilesInfo::postUnitsUpdate *)
Definition occupyTile (u py : Z) (acc : state * list Z) (px : Z) : res (state * list Z) :=
  let '(s, l) := acc in
  match tryGetTile s px py with
  | Some t => let? s := modify (occupy u) s t in Ok (s, l ++ [t])
  | None => Ok (s, l)
  end.

(** [src/src/tilesinfo.cpp:302-311] TilesInfo::postUnitsUpdate *)
Definition addonOf (ty : BuildType) : option BuildType :=
  if bool_decide (ty = BuildType.Terran_Command_Center) then Some BuildType.Terran_Comsat_Station
  else if bool_decide (ty = BuildType.Terran_Factory) then Some BuildType.Terran_Machine_Shop
  else if bool_decide (ty = BuildType.Terran_Starport) then Some BuildType.Terran_Control_Tower
  else if bool_decide (ty = BuildType.Terran_Science_Facility) then Some BuildType.Terran_Physics_Lab
  else None.

(** The walk tiles of the building and of the addon it may have, as pairs
    [(y, x)].

    [src/src/tilesinfo.cpp:279-328] TilesInfo::postUnitsUpdate *)
Definition footprint (o : UnitsInfo.obj) (ty : BuildType) : list (Z * Z) :=
  let tcu := UnitsInfo.unit (UnitsInfo.info o) in
  let left := Z.quot (UnitsInfo.tc_pixel_x tcu - UnitsInfo.dimensionLeft ty) 8 in
  let top := Z.quot (UnitsInfo.tc_pixel_y tcu - UnitsInfo.dimensionUp ty) 8 in
  (steps top (UnitsInfo.tileHeight ty) ≫= λ y, pair y <$> steps left (UnitsInfo.tileWidth ty)) ++
  match addonOf ty with
  | None => []
  | Some addon =>
      let addonX := UnitsInfo.buildX (UnitsInfo.info o) + XYWalktilesPerBuildtile * UnitsInfo.tileWidth ty in
      let addonY := UnitsInfo.buildY (UnitsInfo.info o) +
                    XYWalktilesPerBuildtile * (UnitsInfo.tileHeight ty - UnitsInfo.tileHeight addon) in
      steps addonY (UnitsInfo.tileHeight addon) ≫= λ y, pair y <$> steps addonX (UnitsInfo.tileWidth addon)
  end.

(** [src/src/tilesinfo.cpp:269-333] TilesInfo::postUnitsUpdate *)
Definition addBuilding (s : state) (u : Z) : res state :=
  let? p := deref u in
  let '(o, ty) := p in
  if UnitsInfo.lifted o then Ok s else
  match al_find u (tileOccupyingBuildings_ s) with
  | Some _ => Ok s
  | None =>
      let? r := rfold (λ acc q, occupyTile u q.1 acc q.2) (footprint o ty) (s, []) in
      let '(s, l) := r in
      let tcu := UnitsInfo.unit (UnitsInfo.info o) in
      Ok (set_occupants s (al_set u (Occupant u ty (UnitsInfo.tc_pixel_x tcu) (UnitsInfo.tc_pixel_y tcu) l)
                             (tileOccupyingBuildings_ s)))
  end.

(** ** Larvae *)

(** [src/src/tilesinfo.cpp:335-340] TilesInfo::postUnitsUpdate *)
Definition blockTile (s : state) (walkX walkY : Z) : res state :=
  tryModify (λ t, set_blockedUntil (Z.max (blockedUntil t) (frame + 30)) t) s walkX walkY.

(** [src/src/tilesinfo.cpp:342-348] TilesInfo::postUnitsUpdate *)
Definition blockAt (s : state) (u : Z) : res state :=
  let? o := UnitsInfo.deref us u in
  let px := UnitsInfo.x (UnitsInfo.info o) in let py := UnitsInfo.y (UnitsInfo.info o) in
  let? s := blockTile s px py in
  let? s := blockTile s (px - 2) (py - 2) in
  let? s := blockTile s (px + 2) (py - 2) in
  let? s := blockTile s (px + 2) (py + 2) in
  blockTile s (px - 2) (py + 2).

(** [src/src/unitsinfo.cpp:234-236] UnitsInfo::myUnitsOfType *)
Definition myUnitsOfType (ty : BuildType) : list Z :=
  default [] (UnitsInfo.myUnitsOfType_ us !! BuildType.unit ty).

(** [src/src/tilesinfo.cpp:243-360] TilesInfo::postUnitsUpdate *)
Definition updateBuildings (s : state) : res state :=
  if (lastUpdateBuildings_ s =? 0) || (frame - lastUpdateBuildings_ s >=? 4) then
    let s := set_lastUpdateBuildings s frame in
    let? r := rfold checkOccupant (tileOccupyingBuildings_ s) (s, []) in
    let s := set_occupants r.1 r.2 in
    let? s := rfold addBuilding (UnitsInfo.container us UnitsInfo.visibleBuildings_) s in
    let? s := rfold blockAt (myUnitsOfType BuildType.Zerg_Larva) s in
    let? s := rfold blockAt (myUnitsOfType BuildType.Zerg_Egg) s in
    rfold blockAt (myUnitsOfType BuildType.Zerg_Lurker_Egg) s
  else Ok s.

(** [src/src/tilesinfo.cpp:71-361] TilesInfo::postUnitsUpdate *)
Definition postUnitsUpdate (s : state) : res state :=
  let? s := updateVisible s in
  let? s := rfold anticipateCreep (UnitsInfo.container us UnitsInfo.myResourceDepots_) s in
  let? s := slowUpdate s in
  updateBuildings s.
End update.
End TilesInfo.
