(* ===== verification/TilesUpdate.v ===== *)
(** * What the tiles show ([src/tilesinfo.cpp])

    After [TilesInfo::postUnitsUpdate] a visible tile is within reach of one of the
    player's units and what they have in clear sight is visible, the building
    recorded on a tile is one that is known to stand there, and nothing else about the map or about reservations has
    changed. *)

From S2P Require Import Prelude BuildTypes UnitsInfo UnitGroups Tiles FogOfWar TilesInfo.

Module TilesUpdate.
Import Tiles TilesInfo.

(** ** Evolution of the tiles *)

(** [s'] has the tiles of [s], each changed according to [R]. *)
Record evolves (R : tile → tile → Prop) (s s' : state) : Prop := {
  ev_wf : WF s';
  ev_width : mapTileWidth_ s' = mapTileWidth_ s;
  ev_height : mapTileHeight_ s' = mapTileHeight_ s;
  ev_occupants : tileOccupyingBuildings_ s' = tileOccupyingBuildings_ s;
  ev_fow : lastFowCreepUpdate_ s' = lastFowCreepUpdate_ s;
  ev_due : lastUpdateBuildings_ s' = lastUpdateBuildings_ s;
  ev_tiles : ∀ p t', tiles s' !! p = Some t' → ∃ t, tiles s !! p = Some t ∧ R t t'
}.

Section evolves.
Context (R : tile → tile → Prop) `{!PreOrder R}.

Lemma evolves_refl s : WF s → evolves R s s.
Proof. constructor; try done. intros p t Ht. exists t. split; [done|reflexivity]. Qed.
Lemma evolves_trans s1 s2 s3 : evolves R s1 s2 → evolves R s2 s3 → evolves R s1 s3.
Proof.
  intros [A1 A2 A3 A4 A5 A7 A6] [B1 B2 B3 B4 B5 B7 B6]. constructor; try congruence; try done.
  intros p t3 H3. destruct (B6 p t3 H3) as (t2 & H2 & R2). destruct (A6 p t2 H2) as (t1 & H1 & R1).
  exists t1. split; [done|]. by etrans.
Qed.

Lemma evolves_upd f l s : WF s → in_grid l → (∀ t, R t (f t)) → evolves R s (set_tiles s (upd f l (tiles s))).
Proof.
  intros HW Hl Hf. constructor; try done; [by apply wf_upd|]. cbn [tiles set_tiles]. clear HW.
  generalize (tiles s) as ts. intros ts. revert ts. unfold upd.
  induction l as [|q l IH]; intros ts p t' Ht; cbn [foldl] in Ht; [exists t'; split; [done|reflexivity]|].
  destruct (IH ltac:(intros r Hr; apply Hl; by right) _ p t' Ht) as (t1 & H1 & R1).
  destruct (decide (p = Z.to_nat q)) as [->|].
  - rewrite list_lookup_alter_eq in H1. destruct (ts !! Z.to_nat q) as [t|]; [|done]. injection H1 as <-.
    exists t. split; [done|]. etrans; [apply Hf|done].
  - rewrite list_lookup_alter_ne in H1 by done. by exists t1.
Qed.

Lemma modify_evolves f s p :
  WF s → 0 ≤ p < size → (∀ t, R t (f t)) → ∃ s', modify f s p = Ok s' ∧ evolves R s s'.
Proof.
  intros HW Hp Hf. rewrite modify_ok by done. eexists. split; [done|]. apply evolves_upd; [done| |done].
  by intros q ->%list_elem_of_singleton.
Qed.

Lemma rfold_evolves {A} (f : state → A → res state) l s :
  WF s → (∀ s' a, a ∈ l → evolves R s s' → ∃ s'', f s' a = Ok s'' ∧ evolves R s' s'') →
  ∃ s', rfold f l s = Ok s' ∧ evolves R s s'.
Proof.
  intros HW Hf. apply (rfold_total (evolves R s)); [|by apply evolves_refl].
  intros s1 a Ha H1. destruct (Hf s1 a Ha H1) as (s2 & E & H2). exists s2. split; [done|]. by eapply evolves_trans.
Qed.

Lemma forAll_evolves f s :
  WF s → (∀ t, R t (f t)) → ∃ s', forAllTiles (modify f) s = Ok s' ∧ evolves R s s' ∧
    s' = set_tiles s (upd f (map_cells s) (tiles s)).
Proof.
  intros HW Hf. rewrite forAllTiles_rfold by done. rewrite modify_list by (done || by apply map_cells_grid).
  eexists. split_and!; [done| |done]. apply evolves_upd; [done|by apply map_cells_grid|done].
Qed.

Lemma tryModify_evolves f s walkX walkY :
  WF s → in_int walkX → in_int walkY → (∀ t, R t (f t)) → ∃ s', tryModify f s walkX walkY = Ok s' ∧ evolves R s s'.
Proof.
  intros HW HX HY Hf. unfold tryModify. destruct (tryGetTile s walkX walkY) as [p|] eqn:E.
  - apply tryGetTile_spec in E as [Hon ->]; [|done..]. apply modify_evolves; [done|by eapply tile_index_range|done].
  - exists s. split; [done|]. by apply evolves_refl.
Qed.
End evolves.

Lemma evolves_weaken (R R' : tile → tile → Prop) s s' :
  (∀ t t', R t t' → R' t t') → evolves R s s' → evolves R' s s'.
Proof.
  intros H [A1 A2 A3 A4 A5 A7 A6]. constructor; try done. intros p t' Ht. destruct (A6 p t' Ht) as (t & ? & ?). eauto.
Qed.

Lemma wf_occupants s m : WF s → WF (set_occupants s m).
Proof. intros []. by constructor. Qed.

(** ** What the phases leave alone *)

(** The map itself and the reservations. *)
Definition base (t : tile) := (x t, y t, buildable t, reservedAsUnbuildable t, entirelyWalkable t, height t).

(** Relations for the phases: visibility; creep and resources; buildings. *)
Definition sight_only (t t' : tile) : Prop :=
  base t' = base t ∧ building t' = building t ∧ blockedUntil t' = blockedUntil t.
Definition marks_only (t t' : tile) : Prop := sight_only t t' ∧ visible t' = visible t.
Definition blocks_only (t t' : tile) : Prop :=
  base t' = base t ∧ visible t' = visible t ∧ building t' = building t ∧ blockedUntil t ≤ blockedUntil t'.
Definition builds_only (t t' : tile) : Prop :=
  base t' = base t ∧ visible t' = visible t ∧ blockedUntil t' = blockedUntil t.
Definition stable (t t' : tile) : Prop := base t' = base t ∧ blockedUntil t ≤ blockedUntil t'.

#[export] Instance sight_only_preorder : PreOrder sight_only.
Proof. split; [by intros t|]. intros t1 t2 t3 (? & ? & ?) (? & ? & ?). unfold sight_only. split_and!; congruence. Qed.
#[export] Instance marks_only_preorder : PreOrder marks_only.
Proof.
  split; [by intros t; split|]. intros t1 t2 t3 [H1 ?] [H2 ?]. split; [by etrans|congruence].
Qed.
#[export] Instance blocks_only_preorder : PreOrder blocks_only.
Proof.
  split; [by intros t|]. intros t1 t2 t3 (? & ? & ? & ?) (? & ? & ? & ?). unfold blocks_only. split_and!; [congruence..|lia].
Qed.
#[export] Instance builds_only_preorder : PreOrder builds_only.
Proof. split; [by intros t|]. intros t1 t2 t3 (? & ? & ?) (? & ? & ?). unfold builds_only. split_and!; congruence. Qed.
#[export] Instance stable_preorder : PreOrder stable.
Proof. split; [by intros t|]. intros t1 t2 t3 (? & ?) (? & ?). unfold stable. split; [congruence|lia]. Qed.

Section update.
Context {table : BuildType.Table} {attributes : UnitsInfo.Attributes}.
Context (frame : Z) (us : UnitsInfo.state) (creep_map : list Z).

(** Numbers that are far from overflowing an [int]. *)
Definition small (z : Z) : Prop := Z.abs z ≤ 2 ^ 20.

Definition sane_unit (o : UnitsInfo.obj) : Prop :=
  let i := UnitsInfo.info o in
  small (UnitsInfo.x i) ∧ small (UnitsInfo.y i) ∧ small (UnitsInfo.buildX i) ∧ small (UnitsInfo.buildY i) ∧
  small (UnitsInfo.tc_pixel_x (UnitsInfo.unit i)) ∧ small (UnitsInfo.tc_pixel_y (UnitsInfo.unit i)) ∧
  0 ≤ UnitsInfo.sightRange i < 48.

(** What the update relies on: the units of the groups are known and have
    types, coordinates are sane, and the sizes of the types are, too.  A unit's
    build position follows from its type and its pixel position. *)
Record Sane : Prop := {
  sane_known : ∀ k u, (k < 13)%nat → u ∈ UnitsInfo.container us k →
    ∃ o ty, UnitsInfo.units us !! u = Some o ∧ UnitsInfo.type (UnitsInfo.info o) = Some ty;
  sane_mine : ∀ ty u, u ∈ myUnitsOfType us ty → is_Some (UnitsInfo.units us !! u);
  sane_units : ∀ u o, UnitsInfo.units us !! u = Some o → sane_unit o;
  sane_types : ∀ ty, 0 ≤ UnitsInfo.tileWidth ty ≤ 256 ∧ 0 ≤ UnitsInfo.tileHeight ty ≤ 256 ∧
    small (UnitsInfo.dimensionLeft ty) ∧ small (UnitsInfo.dimensionUp ty);
  sane_buildings : ∀ u o, u ∈ UnitsInfo.container us UnitsInfo.visibleBuildings_ → UnitsInfo.units us !! u = Some o →
    UnitsInfo.gone o = false ∧ UnitsInfo.dead o = false;
  sane_place : ∀ u o ty, UnitsInfo.units us !! u = Some o → UnitsInfo.type (UnitsInfo.info o) = Some ty →
    let i := UnitsInfo.info o in
    UnitsInfo.buildX i = Z.quot (UnitsInfo.tc_pixel_x (UnitsInfo.unit i) - UnitsInfo.tileWidth ty * 16) 8 ∧
    UnitsInfo.buildY i = Z.quot (UnitsInfo.tc_pixel_y (UnitsInfo.unit i) - UnitsInfo.tileHeight ty * 16) 8
}.

(** Every tile of the map knows its position, and the creep map has a bit for it. *)
Definition placed (s : state) : Prop :=
  ∀ tx ty t, on_map s tx ty → tiles s !! Z.to_nat (tile_index tx ty) = Some t → x t = tx * 4 ∧ y t = ty * 4.
Definition creep_covers (s : state) : Prop := mapTileWidth_ s * mapTileHeight_ s ≤ 8 * Z.of_nat (length creep_map).

Hypothesis HS : Sane.

Lemma deref_group k u : (k < 13)%nat → u ∈ UnitsInfo.container us k →
  ∃ o ty, UnitsInfo.units us !! u = Some o ∧ deref us u = Ok (o, ty) ∧ UnitsInfo.type (UnitsInfo.info o) = Some ty ∧ sane_unit o.
Proof using HS.
  intros Hk Hu. destruct (sane_known HS k u Hk Hu) as (o & ty & Ho & Ht). exists o, ty. split_and!; [done| |done|by eapply HS].
  unfold deref, UnitsInfo.deref. by rewrite Ho; cbn [of_option rbind]; rewrite Ht.
Qed.

(** ** Visibility *)

(** The tile at [tx], [ty] is in the part of the table that [revealSightAt] goes
    through for unit [u]. *)
Definition in_table (s : state) (u tx ty : Z) : Prop :=
  ∃ o ut n, deref us u = Ok (o, ut) ∧
    on_map s (UnitsInfo.x (UnitsInfo.info o) / 4) (UnitsInfo.y (UnitsInfo.info o) / 4) ∧
    n ∈ FogOfWar.sight_nodes (UnitsInfo.sightRange (UnitsInfo.info o)) (UnitsInfo.isFlyer ut || UnitsInfo.lifted o) ∧
    FogOfWar.nx n = tx - UnitsInfo.x (UnitsInfo.info o) / 4 ∧ FogOfWar.ny n = ty - UnitsInfo.y (UnitsInfo.info o) / 4.

Lemma small_int z : small z → in_int z.
Proof. unfold small, in_int. lia. Qed.

Lemma revealUnit_ok s u :
  WF s → u ∈ UnitsInfo.container us UnitsInfo.myUnits_ →
  ∃ s', revealUnit frame us s u = Ok s' ∧ evolves sight_only s s' ∧
    ∀ tx ty t t', on_map s tx ty → tiles s !! Z.to_nat (tile_index tx ty) = Some t →
      tiles s' !! Z.to_nat (tile_index tx ty) = Some t' → visible t' = true ↔ visible t = true ∨ in_table s u tx ty.
Proof using HS.
  intros HW Hu. destruct (deref_group UnitsInfo.myUnits_ u) as (o & ut & _ & E & _ & Hs); [unfold UnitsInfo.myUnits_; lia|done|].
  destruct Hs as (Hx & Hy & _ & _ & _ & _ & Hr). unfold revealUnit. rewrite E. cbn [rbind].
  rewrite FogOfWar.revealSightAt_lighten by (done || by apply small_int). eexists. split; [done|].
  set (ns := FogOfWar.sight_nodes _ _). case_decide as Hon.
  - split.
    + apply evolves_upd; [apply _|done|by apply FogOfWar.lit_cells_grid|done].
    + intros tx ty t t' Ht Hl Hl'. pose proof (tile_index_range s tx ty HW Ht).
      rewrite FogOfWar.lighten_lookup, Z2Nat.id, Hl in Hl' by (done || lia).
      pose proof (FogOfWar.elem_of_lit_cells s (UnitsInfo.x (UnitsInfo.info o) / 4) (UnitsInfo.y (UnitsInfo.info o) / 4) ns tx ty HW Ht) as He.
      case_decide as Hin; injection Hl' as <-.
      * cbn. split; [intros _; right|done]. apply He in Hin as (n & Hn & ? & ?). by exists o, ut, n.
      * split; [by left|]. intros [?|(o' & ut' & n & E' & _ & Hn & ? & ?)]; [done|].
        rewrite E in E'. injection E' as <- <-. destruct Hin. apply He. by exists n.
  - split; [by apply evolves_refl; [apply _|]|]. intros tx ty t t' _ Hl Hl'. assert (t' = t) as -> by congruence.
    split; [by left|]. intros [?|(o' & ut' & n & E' & Hon' & _)]; [done|].
    rewrite E in E'. injection E' as <- <-. done.
Qed.

Lemma on_map_evolves R s s' tx ty : evolves R s s' → on_map s' tx ty ↔ on_map s tx ty.
Proof. intros [_ Hw Hh _ _ _ _]. unfold on_map. by rewrite Hw, Hh. Qed.

Lemma in_table_evolves R s s' u tx ty : evolves R s s' → in_table s' u tx ty ↔ in_table s u tx ty.
Proof. intros H. unfold in_table. by setoid_rewrite (on_map_evolves R s s' _ _ H). Qed.

Lemma tile_known s tx ty : WF s → on_map s tx ty → ∃ t, tiles s !! Z.to_nat (tile_index tx ty) = Some t.
Proof.
  intros HW Ht. destruct (getAt_ok s (tile_index tx ty) HW) as (t & _ & Hl); [by eapply tile_index_range|]. by exists t.
Qed.

Lemma reveal_loop l s :
  WF s → (∀ u, u ∈ l → u ∈ UnitsInfo.container us UnitsInfo.myUnits_) →
  ∃ s', rfold (revealUnit frame us) l s = Ok s' ∧ evolves sight_only s s' ∧
    ∀ tx ty t t', on_map s tx ty → tiles s !! Z.to_nat (tile_index tx ty) = Some t →
      tiles s' !! Z.to_nat (tile_index tx ty) = Some t' →
      visible t' = true ↔ visible t = true ∨ ∃ u, u ∈ l ∧ in_table s u tx ty.
Proof using HS.
  revert s. induction l as [|u l IH]; intros s HW Hl; cbn [rfold].
  { exists s. split_and!; [done|by apply evolves_refl; [apply _|]|]. intros tx ty t t' _ H1 H2.
    assert (t' = t) as -> by congruence. split; [by left|]. intros [?|(u & ?%not_elem_of_nil & _)]; done. }
  destruct (revealUnit_ok s u HW) as (s1 & -> & H1 & V1); [apply Hl; by left|]. cbn [rbind].
  destruct (IH s1) as (s2 & -> & H2 & V2); [apply H1|intros; apply Hl; by right|].
  exists s2. split_and!; [done|by eapply evolves_trans; [apply _|..]|]. intros tx ty t t' Ht Hl0 Hl2.
  destruct (tile_known s1 tx ty) as [t1 Hl1]; [apply H1|by rewrite on_map_evolves|].
  rewrite (V2 tx ty t1 t'), (V1 tx ty t t1) by (done || by rewrite on_map_evolves).
  setoid_rewrite (in_table_evolves _ s s1 _ tx ty H1). setoid_rewrite elem_of_cons. naive_solver.
Qed.

(** A loop over the tiles of the map whose rounds need the tile to be placed. *)
Lemma placed_evolves R s s' : (∀ t t', R t t' → base t' = base t) → evolves R s s' → placed s → placed s'.
Proof.
  intros HR H Hp tx ty t' Ht Hl. destruct (ev_tiles _ _ _ H _ _ Hl) as (t & Hlt & HRt). apply HR in HRt.
  unfold base in HRt. injection HRt as -> -> _ _ _ _. eapply Hp; [|done]. by rewrite on_map_evolves in Ht.
Qed.

Lemma updateCreep_ok s p :
  WF s → placed s → creep_covers s → p ∈ map_cells s →
  ∃ s', updateCreep creep_map (mapTileWidth_ s) s p = Ok s' ∧ evolves marks_only s s'.
Proof.
  intros HW Hp Hc (tx & ty & Ht & ->)%elem_of_map_cells; [|done]. unfold updateCreep.
  pose proof (tile_index_range s tx ty HW Ht) as Hr.
  destruct (getAt_ok s (tile_index tx ty) HW Hr) as (t & -> & Hl). cbn [rbind].
  destruct (visible t); [|exists s; split; [done|by apply evolves_refl; [apply _|]]].
  destruct (Hp tx ty t Ht Hl) as [-> ->]. unfold XYWalktilesPerBuildtile. destruct Ht as [Hx Hy].
  pose proof HW as [_ Hw Hh]. unfold tilesWidth, tilesHeight in *. rewrite (u32_small (ty * 4)), (u32_small (tx * 4)) by lia.
  rewrite !Z.div_mul by lia. unfold creep_covers in Hc.
  rewrite (u32_small (ty * mapTileWidth_ s + tx)) by nia.
  destruct (lookup_lt_is_Some_2 creep_map (Z.to_nat ((ty * mapTileWidth_ s + tx) / 8))) as [b Hb].
  { assert ((ty * mapTileWidth_ s + tx) / 8 < Z.of_nat (length creep_map)) by (apply Z.div_lt_upper_bound; nia).
    assert (0 ≤ (ty * mapTileWidth_ s + tx) / 8) by (apply Z.div_pos; nia). lia. }
  rewrite (FogOfWar.at_index_lookup creep_map _ b) by (done || apply Z.div_pos; nia). cbn [rbind].
  apply modify_evolves; [apply _|done|done|done].
Qed.

Lemma map_cells_evolves R s s' : evolves R s s' → map_cells s' = map_cells s.
Proof. intros [_ Hw Hh _ _ _ _]. unfold map_cells. by rewrite Hw, Hh. Qed.

Lemma creep_loop s :
  WF s → placed s → creep_covers s →
  ∃ s', forAllTiles (updateCreep creep_map (mapTileWidth_ s)) s = Ok s' ∧ evolves marks_only s s'.
Proof.
  intros HW Hp Hc. rewrite forAllTiles_rfold by done. apply (rfold_evolves marks_only); [done|].
  intros s' p Hin H. rewrite <-(ev_width _ _ _ H). apply updateCreep_ok; [apply H| | |].
  - eapply placed_evolves; [|done|done]. by intros t t' [[? _] _].
  - unfold creep_covers. by rewrite (ev_width _ _ _ H), (ev_height _ _ _ H).
  - by rewrite (map_cells_evolves _ _ _ H).
Qed.

(** The tiles that are visible now are those in the sight of a unit of the
    player, when the visibility is recomputed. *)
Lemma updateVisible_ok s :
  WF s → placed s → creep_covers s →
  ∃ s', updateVisible frame us creep_map s = Ok s' ∧ evolves sight_only s s' ∧
    (lastFowCreepUpdate_ s = 0 → ∀ tx ty t', on_map s tx ty → tiles s' !! Z.to_nat (tile_index tx ty) = Some t' →
       visible t' = true ↔ ∃ u, u ∈ UnitsInfo.container us UnitsInfo.myUnits_ ∧ in_table s u tx ty).
Proof using HS.
  intros HW Hp Hc. unfold updateVisible. destruct (_ || _) eqn:Ed.
  2:{ exists s. split_and!; [done|by apply evolves_refl; [apply _|]|]. intros E.
      apply orb_false_iff in Ed as [Ed%Z.eqb_neq _]. done. }
  destruct (forAll_evolves sight_only (set_visible false) s HW) as (s1 & -> & H1 & E1); [done|]. cbn [rbind].
  destruct (reveal_loop (UnitsInfo.container us UnitsInfo.myUnits_) s1) as (s2 & -> & H2 & V2); [apply H1|done|]. cbn [rbind].
  assert (evolves sight_only s s2) as H12 by (by eapply evolves_trans; [apply _|..]).
  destruct (creep_loop s2) as (s3 & -> & H3).
  { apply H2. }
  { eapply placed_evolves; [|exact H12|done]. by intros t t' [? _]. }
  { unfold creep_covers. by rewrite (ev_width _ _ _ H12), (ev_height _ _ _ H12). }
  exists s3. split_and!; [done| |].
  - eapply evolves_trans; [apply _|exact H12|]. eapply evolves_weaken; [|exact H3]. by intros t t' [? _].
  - intros _ tx ty t3 Ht Hl3. destruct (ev_tiles _ _ _ H3 _ _ Hl3) as (t2 & Hl2 & [_ ->]).
    destruct (tile_known s1 tx ty) as [t1 Hl1]; [apply H1|by rewrite on_map_evolves|].
    rewrite (V2 tx ty t1 t2) by (done || by rewrite on_map_evolves).
    setoid_rewrite (in_table_evolves _ s s1 _ tx ty H1).
    assert (visible t1 = false) as ->; [|naive_solver].
    subst s1. cbn [tiles set_tiles] in Hl1. pose proof (tile_index_range s tx ty HW Ht).
    rewrite lookup_upd_idemp, Z2Nat.id, decide_True in Hl1; [| |lia|done|by apply map_cells_grid].
    + destruct (tiles s !! _); [|done]. by injection Hl1 as <-.
    + apply elem_of_map_cells; [done|]. by exists tx, ty.
Qed.

(** ** Creep and resources *)

Lemma creepTile_ok first bx by_ w h dx s dy :
  WF s → small bx → small by_ → small dx → small dy →
  ∃ s', creepTile frame first bx by_ w h dx s dy = Ok s' ∧ evolves marks_only s s'.
Proof.
  intros HW Hbx Hby Hdx Hdy. unfold creepTile. destruct (_ && _); [exists s; split; [done|by apply evolves_refl; [apply _|]]|].
  unfold XYWalktilesPerBuildtile, small in *.
  apply tryModify_evolves; [apply _|done|unfold in_int; lia|unfold in_int; lia|].
  intros t. unfold expectCreep. by destruct (hasCreep t).
Qed.

Lemma small_quot z d : small z → 0 < d → small (Z.quot z d).
Proof.
  unfold small. intros Hz Hd. pose proof (Z.quot_rem' z d). pose proof (Z.rem_bound_abs z d). 
  destruct (Z_lt_le_dec z 0).
  - pose proof (Z.rem_nonpos z d). nia.
  - pose proof (Z.rem_nonneg z d). nia.
Qed.

Lemma anticipate_ok s u :
  WF s → u ∈ UnitsInfo.container us UnitsInfo.myResourceDepots_ →
  ∃ s', anticipateCreep frame us s u = Ok s' ∧ evolves marks_only s s'.
Proof using HS.
  intros HW Hu. destruct (deref_group UnitsInfo.myResourceDepots_ u) as (o & ut & _ & E & _ & Hs);
    [unfold UnitsInfo.myResourceDepots_; lia|done|].
  destruct Hs as (_ & _ & Hbx & Hby & _). destruct (sane_types HS ut) as (Hw & Hh & _).
  assert (∃ s', Ok s = Ok s' ∧ evolves marks_only s s') as Hnop by (exists s; split; [done|by apply evolves_refl; [apply _|]]).
  unfold anticipateCreep. rewrite E. cbn [rbind]. destruct (negb _); [done|]. destruct (_ <? _); [done|].
  apply (rfold_evolves marks_only); [done|]. intros s1 dx Hdx%elem_of_range H1.
  apply (rfold_evolves marks_only); [apply H1|]. intros s2 dy Hdy%elem_of_range H2.
  apply creepTile_ok; [apply H2|by apply small_quot|by apply small_quot|unfold small; lia|unfold small; lia].
Qed.

Lemma markResource_ok s u :
  WF s → u ∈ UnitsInfo.container us UnitsInfo.resourceUnits_ →
  ∃ s', markResource us s u = Ok s' ∧ evolves marks_only s s'.
Proof using HS.
  intros HW Hu. destruct (deref_group UnitsInfo.resourceUnits_ u) as (o & ut & _ & E & _ & Hs);
    [unfold UnitsInfo.resourceUnits_; lia|done|].
  destruct Hs as (_ & _ & _ & _ & Hpx & Hpy & _). destruct (sane_types HS ut) as (Hw & Hh & Hl & Hup).
  unfold markResource. rewrite E. cbn [rbind].
  assert (∀ a b, small a → small b → Z.abs (Z.quot (a - b) 32) ≤ 2 ^ 20) as Hq.
  { intros a b Ha Hb. unfold small in *. pose proof (Z.quot_rem' (a - b) 32). pose proof (Z.rem_bound_abs (a - b) 32). lia. }
  apply (rfold_evolves marks_only); [done|]. intros s1 dy Hdy%elem_of_range H1.
  apply (rfold_evolves marks_only); [apply H1|]. intros s2 dx Hdx%elem_of_range H2.
  pose proof (Hq _ _ Hpx Hl). pose proof (Hq _ _ Hpy Hup). unfold XYWalktilesPerBuildtile.
  apply tryModify_evolves; [apply _|apply H2|unfold in_int; lia|unfold in_int; lia|done].
Qed.

Lemma reserve_ok s px py : WF s → Z.abs px ≤ 2 ^ 30 → Z.abs py ≤ 2 ^ 30 → ∃ s', reserve s px py = Ok s' ∧ evolves marks_only s s'.
Proof. intros HW Hx Hy. apply tryModify_evolves; [apply _|done|unfold in_int; lia|unfold in_int; lia|done]. Qed.

Lemma reserveLine_ok ux uy rx ry s i :
  WF s → small ux → small uy → Z.abs rx ≤ 2 ^ 21 → Z.abs ry ≤ 2 ^ 21 → 0 ≤ i < 8 →
  ∃ s', reserveLine ux uy rx ry s i = Ok s' ∧ evolves marks_only s s'.
Proof.
  intros HW Hx Hy Hrx Hry Hi. unfold reserveLine, small in *.
  assert (∀ r, Z.abs r ≤ 2 ^ 21 → Z.abs (Z.quot (r * i) 8) ≤ 2 ^ 24) as Hq.
  { intros r Hr. pose proof (Z.quot_rem' (r * i) 8). pose proof (Z.rem_bound_abs (r * i) 8). nia. }
  pose proof (Hq rx Hrx). pose proof (Hq ry Hry).
  destruct (reserve_ok s (ux + Z.quot (rx * i) 8) (uy + Z.quot (ry * i) 8)) as (s1 & -> & H1); [done|lia|lia|]. cbn [rbind].
  destruct (reserve_ok s1 (ux + Z.quot (rx * i) 8 - 8) (uy + Z.quot (ry * i) 8 - 8)) as (s2 & -> & H2); [apply H1|lia|lia|]. cbn [rbind].
  destruct (reserve_ok s2 (ux + Z.quot (rx * i) 8 + 8) (uy + Z.quot (ry * i) 8 - 8)) as (s3 & -> & H3); [apply H2|lia|lia|]. cbn [rbind].
  destruct (reserve_ok s3 (ux + Z.quot (rx * i) 8 + 8) (uy + Z.quot (ry * i) 8 + 8)) as (s4 & -> & H4); [apply H3|lia|lia|]. cbn [rbind].
  destruct (reserve_ok s4 (ux + Z.quot (rx * i) 8 - 8) (uy + Z.quot (ry * i) 8 + 8)) as (s5 & -> & H5); [apply H4|lia|lia|].
  exists s5. split; [done|]. repeat (eapply evolves_trans; [apply _|eassumption|]). by apply evolves_refl; [apply _|apply H5].
Qed.

Lemma reserveMinerals_ok s u r :
  WF s → u ∈ UnitsInfo.container us UnitsInfo.myResourceDepots_ → r ∈ UnitsInfo.container us UnitsInfo.resourceUnits_ →
  ∃ s', reserveMinerals us u s r = Ok s' ∧ evolves marks_only s s'.
Proof using HS.
  intros HW Hu Hr.
  destruct (deref_group UnitsInfo.myResourceDepots_ u) as (o & ut & Ho & _ & _ & Hs); [unfold UnitsInfo.myResourceDepots_; lia|done|].
  destruct (deref_group UnitsInfo.resourceUnits_ r) as (o' & ut' & Ho' & _ & _ & Hs'); [unfold UnitsInfo.resourceUnits_; lia|done|].
  destruct Hs as (Hx & Hy & _). destruct Hs' as (Hx' & Hy' & _).
  unfold reserveMinerals, UnitsInfo.deref. rewrite Ho, Ho'. cbn [of_option rbind].
  destruct (Floats.fleb _ _); [exists s; split; [done|by apply evolves_refl; [apply _|]]|].
  apply (rfold_evolves marks_only); [done|]. intros s1 i Hi%elem_of_range H1. unfold small in *.
  apply reserveLine_ok; [apply H1|done|done|lia|lia|lia].
Qed.

Lemma slowUpdate_ok s : WF s → ∃ s', slowUpdate frame us s = Ok s' ∧ evolves marks_only s s'.
Proof using HS.
  intros HW. unfold slowUpdate. destruct (_ || _); [|exists s; split; [done|by apply evolves_refl; [apply _|]]].
  set (s0 := set_lastSlowTileUpdate s frame).
  assert (evolves marks_only s s0) as H0.
  { destruct HW. constructor; try done. intros p t Ht. exists t. split; [done|reflexivity]. }
  destruct (forAll_evolves marks_only (resetSlow frame) s0) as (s1 & -> & H1 & _); [apply H0|done|]. cbn [rbind].
  destruct (rfold_evolves marks_only (markResource us) (UnitsInfo.container us UnitsInfo.resourceUnits_) s1)
    as (s2 & -> & H2); [apply H1|intros; apply markResource_ok; [by eapply ev_wf|done]|]. cbn [rbind].
  destruct (rfold_evolves marks_only (λ s u, rfold (reserveMinerals us u) (UnitsInfo.container us UnitsInfo.resourceUnits_) s)
    (UnitsInfo.container us UnitsInfo.myResourceDepots_) s2) as (s3 & -> & H3); [apply H2| |].
  { intros s' u Hu H'. apply (rfold_evolves marks_only); [apply H'|]. intros s'' r Hr H''.
    apply reserveMinerals_ok; [apply H''|done|done]. }
  exists s3. split; [done|]. repeat (eapply evolves_trans; [apply _|eassumption|]). by apply evolves_refl; [apply _|apply H3].
Qed.

(** ** Buildings *)

(** A building of type [ty] with its centre at pixel [px], [py] stands on the
    build tile [tx], [tile_y], or keeps it free for its addon. *)
Definition covers (ty : BuildType) (px py tx tile_y : Z) : Prop :=
  let left := Z.quot (px - UnitsInfo.dimensionLeft ty) 8 / 4 in
  let top := Z.quot (py - UnitsInfo.dimensionUp ty) 8 / 4 in
  left ≤ tx < left + UnitsInfo.tileWidth ty ∧ top ≤ tile_y < top + UnitsInfo.tileHeight ty ∨
  ∃ addon, addonOf ty = Some addon ∧
    let ax := Z.quot (px - UnitsInfo.tileWidth ty * 16) 8 / 4 + UnitsInfo.tileWidth ty in
    let ay := Z.quot (py - UnitsInfo.tileHeight ty * 16) 8 / 4 + UnitsInfo.tileHeight ty - UnitsInfo.tileHeight addon in
    ax ≤ tx < ax + UnitsInfo.tileWidth addon ∧ ay ≤ tile_y < ay + UnitsInfo.tileHeight addon.

Lemma steps_div from n c : c ∈ steps from n → from / 4 ≤ c / 4 < from / 4 + n.
Proof.
  intros (i & -> & Hi%elem_of_range)%list_elem_of_fmap. unfold XYWalktilesPerBuildtile.
  rewrite (Z.mul_comm 4), Z.div_add by lia. lia.
Qed.

(** The walk tiles of the footprint are those of the covered build tiles. *)
Lemma footprint_covers u o ty q : UnitsInfo.units us !! u = Some o → UnitsInfo.type (UnitsInfo.info o) = Some ty →
  q ∈ footprint o ty →
  covers ty (UnitsInfo.tc_pixel_x (UnitsInfo.unit (UnitsInfo.info o)))
    (UnitsInfo.tc_pixel_y (UnitsInfo.unit (UnitsInfo.info o))) (q.2 / 4) (q.1 / 4).
Proof using HS.
  intros Hu Ht Hq. destruct (sane_place HS u o ty Hu Ht) as [Ex Ey]. unfold footprint in Hq. unfold covers.
  apply elem_of_app in Hq as [Hq|Hq].
  - left. apply list_elem_of_bind in Hq as (py & (px & -> & Hx)%list_elem_of_fmap & Hy). cbn [fst snd].
    split; by apply steps_div.
  - destruct (addonOf ty) as [addon|]; [|by apply not_elem_of_nil in Hq]. right. exists addon. split; [done|].
    apply list_elem_of_bind in Hq as (py & (px & -> & Hx%steps_div)%list_elem_of_fmap & Hy%steps_div). cbn [fst snd].
    rewrite Ex in Hx. rewrite Ey in Hy. unfold XYWalktilesPerBuildtile in *.
    rewrite (Z.mul_comm 4), Z.div_add in Hx, Hy by lia. lia.
Qed.

(** The tiles of an occupant are those covered by a building of its type at its
    place. *)
Definition traced (v : occupant) : Prop :=
  ∀ p, p ∈ v_tiles v → ∃ tx ty, p = tile_index tx ty ∧ 0 ≤ tx < tilesWidth ∧ 0 ≤ ty < tilesHeight ∧
    covers (v_type v) (pixelX v) (pixelY v) tx ty.

(** The building of a tile has an entry in [es] that lists the tile. *)
Definition owned (es : list (Z * occupant)) (s : state) : Prop :=
  ∀ p t u, tiles s !! p = Some t → building t = Some u → ∃ v, (u, v) ∈ es ∧ Z.of_nat p ∈ v_tiles v.

Record entries_ok (es : list (Z * occupant)) : Prop := {
  en_wf : al_wf es;
  en_entry : ∀ u v, (u, v) ∈ es → v_u v = u ∧ in_grid (v_tiles v) ∧ is_Some (UnitsInfo.units us !! u);
  en_traced : ∀ u v, (u, v) ∈ es → traced v
}.

Definition stands (e : Z * occupant) : Prop :=
  ∃ o, UnitsInfo.units us !! e.1 = Some o ∧ stays o e.2 = true.

Lemma vacate_twice u t : vacate u (vacate u t) = vacate u t.
Proof. unfold vacate. repeat case_bool_decide; try done. Qed.
Lemma occupy_twice u t : occupy u (occupy u t) = occupy u t.
Proof. unfold occupy. by destruct (building t) eqn:E; cbn; rewrite ?E. Qed.
Lemma vacate_builds u t : builds_only t (vacate u t).
Proof. unfold vacate. by case_bool_decide. Qed.
Lemma occupy_builds u t : builds_only t (occupy u t).
Proof. unfold occupy. by destruct (building t). Qed.

Lemma entries_app_r es1 e es2 : entries_ok (es1 ++ e :: es2) → entries_ok (es1 ++ es2).
Proof.
  intros [Hw He Ht]. split.
  - unfold al_wf in *. rewrite fmap_app in *. cbn in Hw. apply NoDup_app in Hw as (H1 & H2 & [_ H3]%NoDup_cons).
    apply NoDup_app. split_and!; [done| |done]. intros z Hz Hz'. eapply H2; [done|by right].
  - intros u v Hin. apply He. rewrite elem_of_app in *. destruct Hin; [by left|right; by right].
  - intros u v Hin. apply (Ht u). rewrite elem_of_app in *. destruct Hin; [by left|right; by right].
Qed.

Lemma entries_unique es u v v' : entries_ok es → (u, v) ∈ es → (u, v') ∈ es → v = v'.
Proof. intros [Hw _ _] H1 H2. apply al_in_find in H1, H2; [congruence|done..]. Qed.

Lemma vacate_owned es1 u v es2 s :
  entries_ok (es1 ++ (u, v) :: es2) → owned (es1 ++ (u, v) :: es2) s → in_grid (v_tiles v) →
  owned (es1 ++ es2) (set_tiles s (upd (vacate u) (v_tiles v) (tiles s))).
Proof.
  intros Hok Ho Hg p t w Hl Hb. cbn [tiles set_tiles] in Hl.
  rewrite lookup_upd_idemp in Hl by (done || apply vacate_twice).
  destruct (tiles s !! p) as [t0|] eqn:E0; [|by case_decide].
  assert (building t0 = Some w ∧ (w = u → Z.of_nat p ∉ v_tiles v)) as [Hb0 Hnot].
  { case_decide as Hin; injection Hl as <-; [|done]. unfold vacate in Hb.
    case_bool_decide as Hd; [done|]. split; [done|]. intros ->. done. }
  destruct (Ho p t0 w E0 Hb0) as (v' & Hv' & Hp). exists v'. split; [|done].
  rewrite elem_of_app in *. destruct Hv' as [?|[E|?]%elem_of_cons]; [by left| |by right].
  injection E as -> ->. by destruct (Hnot eq_refl).
Qed.

Lemma occupy_owned es u v s :
  (u, v) ∈ es → owned es s → in_grid (v_tiles v) → owned es (set_tiles s (upd (occupy u) (v_tiles v) (tiles s))).
Proof.
  intros Hin Ho Hg p t w Hl Hb. cbn [tiles set_tiles] in Hl.
  rewrite lookup_upd_idemp in Hl by (done || apply occupy_twice).
  destruct (tiles s !! p) as [t0|] eqn:E0; [|by case_decide].
  case_decide as Hp; injection Hl as <-; [|by eapply Ho].
  unfold occupy in Hb. destruct (building t0) as [w0|] eqn:Eb; [eapply Ho; [done|congruence]|].
  injection Hb as <-. by exists v.
Qed.

Lemma check_loop es kept s :
  WF s → entries_ok (kept ++ es) → owned (kept ++ es) s → Forall stands kept →
  ∃ s' kept', rfold (checkOccupant us) es (s, kept) = Ok (s', kept') ∧ evolves builds_only s s' ∧
    entries_ok kept' ∧ owned kept' s' ∧ Forall stands kept'.
Proof.
  revert kept s. induction es as [|[u v] es IH]; intros kept s HW Hok Ho Hst; cbn [rfold].
  { rewrite app_nil_r in *. exists s, kept. split_and!; try done. by apply evolves_refl; [apply _|]. }
  destruct (en_entry _ Hok u v) as (Ev & Hg & [o Hu]); [apply elem_of_app; right; by left|].
  cbn [checkOccupant snd]. rewrite Ev. unfold UnitsInfo.deref. rewrite Hu. cbn [of_option rbind].
  destruct (stays o v) eqn:Es; cbn [negb]; rewrite modify_list by done; cbn [rbind].
  - set (s1 := set_tiles _ _).
    assert (evolves builds_only s s1) as H1 by (apply evolves_upd; [apply _|done|done|apply occupy_builds]).
    change ((u, v) :: es) with ([(u, v)] ++ es) in *. rewrite (assoc_L (++)) in Hok, Ho.
    destruct (IH (kept ++ [(u, v)]) s1) as (s2 & kept' & E & H2 & R2).
    + apply H1.
    + done.
    + apply occupy_owned; [|done|done]. rewrite !elem_of_app. left. right. by left.
    + apply Forall_app. split; [done|]. apply Forall_singleton. by exists o.
    + exists s2, kept'. split_and!; [done| |apply R2..]. by eapply evolves_trans; [apply _|..].
  - set (s1 := set_tiles _ _).
    assert (evolves builds_only s s1) as H1 by (apply evolves_upd; [apply _|done|done|apply vacate_builds]).
    destruct (IH kept s1) as (s2 & kept' & E & H2 & R2).
    + apply H1.
    + by eapply entries_app_r.
    + by apply vacate_owned.
    + done.
    + exists s2, kept'. split_and!; [done| |apply R2..]. by eapply evolves_trans; [apply _|..].
Qed.

Lemma occupy_loop u qs s l :
  WF s → in_grid l → (∀ q, q ∈ qs → in_int q.1 ∧ in_int q.2) →
  ∃ s' l', rfold (λ acc q, occupyTile u q.1 acc q.2) qs (s, l) = Ok (s', l') ∧ evolves builds_only s s' ∧ in_grid l' ∧
    (∀ p, p ∈ l → p ∈ l') ∧
    (∀ p, p ∈ l' → p ∈ l ∨ ∃ q, q ∈ qs ∧ on_map s (q.2 / 4) (q.1 / 4) ∧ p = tile_index (q.2 / 4) (q.1 / 4)) ∧
    ∀ p t w, tiles s' !! p = Some t → building t = Some w →
      (∃ t0, tiles s !! p = Some t0 ∧ building t0 = Some w) ∨ (w = u ∧ Z.of_nat p ∈ l').
Proof.
  revert s l. induction qs as [|[py px] qs IH]; intros s l HW Hl Hq; cbn [rfold].
  { exists s, l. split_and!; [done|by apply evolves_refl; [apply _|]|done|done|by left|]. intros. left. eauto. }
  destruct (Hq (py, px)) as [Hy Hx]; [by left|]. cbn [fst snd] in *.
  assert (∀ q, q ∈ qs → in_int q.1 ∧ in_int q.2) as Hq' by (intros; apply Hq; by right).
  cbn [occupyTile]. destruct (tryGetTile s px py) as [i|] eqn:E; cbn [rbind].
  2:{ destruct (IH s l HW Hl Hq') as (s2 & l2 & -> & H2 & Hg & Hsub & Hnew & Ho). exists s2, l2. split_and!; try done.
      intros p [?|(q & ? & ?)]%Hnew; [by left|right; exists q; split; [by right|done]]. }
  apply tryGetTile_spec in E as [Hon ->]; [|done..]. pose proof (tile_index_range _ _ _ HW Hon) as Hr.
  set (i := tile_index _ _) in *. rewrite modify_ok by done. cbn [rbind]. set (s1 := set_tiles _ _).
  assert (in_grid [i]) as Hi by (by intros q ->%list_elem_of_singleton).
  assert (evolves builds_only s s1) as H1 by (apply evolves_upd; [apply _|done|done|apply occupy_builds]).
  destruct (IH s1 (l ++ [i])) as (s2 & l2 & -> & H2 & Hg & Hsub & Hnew & Ho); [apply H1| |done|].
  { intros q [?|?]%elem_of_app; [by apply Hl|by apply Hi]. }
  exists s2, l2. split_and!; [done|by eapply evolves_trans; [apply _|..]|done| | |].
  - intros q Hq0. apply Hsub, elem_of_app. by left.
  - intros p [[?| ->%list_elem_of_singleton]%elem_of_app|(q & Hq0 & Honq & ->)]%Hnew; [by left|..]; right.
    + exists (py, px). split; [by left|done].
    + exists q. split; [by right|]. by rewrite (on_map_evolves _ _ _ _ _ H1) in Honq.
  - intros p t w Hlp Hb. destruct (Ho p t w Hlp Hb) as [(t1 & Hl1 & Hb1)|?]; [|by right].
    unfold s1 in Hl1. cbn [tiles set_tiles] in Hl1. rewrite lookup_upd_idemp in Hl1 by (done || apply occupy_twice).
    destruct (tiles s !! p) as [t0|] eqn:E0; [|by case_decide].
    case_decide as Hp; injection Hl1 as <-; [|left; by exists t0].
    unfold occupy in Hb1. destruct (building t0) as [w0|] eqn:Eb; [left; exists t0; split; [done|congruence]|].
    injection Hb1 as <-. right. split; [done|]. apply Hsub, elem_of_app. by right.
Qed.

Lemma steps_int from n c : Z.abs from ≤ 2 ^ 22 → 0 ≤ n ≤ 256 → c ∈ steps from n → in_int c.
Proof.
  intros Hf Hn (i & -> & Hi%elem_of_range)%list_elem_of_fmap. unfold XYWalktilesPerBuildtile, in_int. lia.
Qed.

Lemma footprint_int o ty q : sane_unit o → q ∈ footprint o ty → in_int q.1 ∧ in_int q.2.
Proof using HS.
  intros (_ & _ & Hbx & Hby & Hpx & Hpy & _) Hq. destruct (sane_types HS ty) as (Hw & Hh & Hl & Hu).
  assert (∀ a b, small a → small b → Z.abs (Z.quot (a - b) 8) ≤ 2 ^ 22) as Hquot.
  { intros a b Ha Hb. unfold small in *. pose proof (Z.quot_rem' (a - b) 8). pose proof (Z.rem_bound_abs (a - b) 8). lia. }
  unfold footprint in Hq. apply elem_of_app in Hq as [Hq|Hq].
  - apply list_elem_of_bind in Hq as (py & (px & -> & Hx)%list_elem_of_fmap & Hy). cbn [fst snd].
    split; eapply steps_int; [| |exact Hy| | |exact Hx]; try done; by apply Hquot.
  - destruct (addonOf ty) as [addon|]; [|by apply not_elem_of_nil in Hq].
    destruct (sane_types HS addon) as (Hw' & Hh' & _). unfold XYWalktilesPerBuildtile, small in *.
    apply list_elem_of_bind in Hq as (py & (px & -> & Hx)%list_elem_of_fmap & Hy). cbn [fst snd].
    split; eapply steps_int; [| |exact Hy| | |exact Hx]; try done; lia.
Qed.

(** Unit [u] has an entry, unless it is in the air. *)
Definition filed (u : Z) (s : state) : Prop :=
  ∀ o, UnitsInfo.units us !! u = Some o → UnitsInfo.lifted o = false → is_Some (al_find u (tileOccupyingBuildings_ s)).

(** The occupants after the update: their tiles are theirs, and they stand. *)
Record Occupied (s : state) : Prop := {
  oc_entries : entries_ok (tileOccupyingBuildings_ s);
  oc_owned : owned (tileOccupyingBuildings_ s) s
}.

Lemma addBuilding_ok s u :
  WF s → Occupied s → Forall stands (tileOccupyingBuildings_ s) →
  u ∈ UnitsInfo.container us UnitsInfo.visibleBuildings_ →
  ∃ s', addBuilding us s u = Ok s' ∧ evolves builds_only s (set_occupants s' (tileOccupyingBuildings_ s)) ∧
    Occupied s' ∧ Forall stands (tileOccupyingBuildings_ s') ∧ filed u s' ∧ ∀ w, filed w s → filed w s'.
Proof using HS.
  intros HW [[Hw He Htr] Ho] Hst Hu.
  destruct (deref_group UnitsInfo.visibleBuildings_ u) as (o & ut & Hlu & E & Hty & Hs);
    [unfold UnitsInfo.visibleBuildings_; lia|done|].
  assert (filed u s → ∃ s', Ok s = Ok s' ∧ evolves builds_only s (set_occupants s' (tileOccupyingBuildings_ s)) ∧
    Occupied s' ∧ Forall stands (tileOccupyingBuildings_ s') ∧ filed u s' ∧ ∀ w, filed w s → filed w s') as Hnop.
  { intros Hf. exists s. split_and!; try done. destruct s. by apply evolves_refl; [apply _|]. }
  unfold addBuilding. rewrite E. cbn [rbind]. destruct (UnitsInfo.lifted o) eqn:El.
  { apply Hnop. intros o' Ho'. congruence. }
  destruct (al_find u (tileOccupyingBuildings_ s)) as [v|] eqn:Ef; [apply Hnop; intros ? _ _; by rewrite Ef|].
  destruct (occupy_loop u (footprint o ut) s []) as (s1 & l & -> & H1 & Hg & _ & Hnew & Hb); [done|by intros q ?%not_elem_of_nil| |].
  { intros q Hq. by eapply footprint_int. }
  cbn [rbind]. rewrite (ev_occupants _ _ _ H1). set (v := Occupant _ _ _ _ _).
  eexists. split; [done|]. cbn [tileOccupyingBuildings_ set_occupants].
  assert (∀ w v', (w, v') ∈ al_set u v (tileOccupyingBuildings_ s) ↔ (w, v') ∈ tileOccupyingBuildings_ s ∨ (w = u ∧ v' = v)) as Hset.
  { apply al_find_None in Ef. intros w v'. clear -Ef. induction (tileOccupyingBuildings_ s) as [|[k a] m IH]; cbn [al_set].
    - rewrite list_elem_of_singleton. split; [intros [= -> ->]; by right|]. intros [?%not_elem_of_nil|[-> ->]]; done.
    - csimpl in Ef. apply not_elem_of_cons in Ef as [Hne Hn]. rewrite decide_False by done.
      rewrite !elem_of_cons, IH by done. tauto. }
  split_and!.
  - destruct H1 as [HW1 A1 A2 A3 A4 A5 A6]. split; [by apply wf_occupants, wf_occupants|done..].
  - split.
    + split; [by apply al_set_wf|..]; intros w v' [Hin|[-> ->]]%Hset; [by apply He|split_and!; [done|done|by exists o]|by eapply Htr|].
      intros p [?%not_elem_of_nil|(q & Hq & Hon & ->)]%Hnew; [done|]. exists (q.2 / 4), (q.1 / 4).
      destruct HW as [_ Hmw Hmh]. pose proof Hon as [Hon1 Hon2]. split_and!; [done|lia..|].
      by eapply footprint_covers.
    + intros p t w Hl Hbw. cbn [tiles set_occupants] in Hl. destruct (Hb p t w Hl Hbw) as [(t0 & Hl0 & Hb0)|[-> Hp]].
      * destruct (Ho p t0 w Hl0 Hb0) as (v' & Hv' & Hp'). exists v'. split; [|done]. apply Hset. by left.
      * exists v. split; [|done]. apply Hset. by right.
  - apply Forall_forall. intros [w v'] [Hin|[-> ->]]%Hset; [by rewrite Forall_forall in Hst; apply Hst|].
    exists o. split; [done|]. destruct (sane_buildings HS u o Hu Hlu) as [Eg Ed]. unfold stays. cbn.
    rewrite El, Eg, Ed, Hty, bool_decide_true, !Z.eqb_refl by done. done.
  - intros o' _ _. cbn [tileOccupyingBuildings_ set_occupants]. rewrite al_find_set. by case_decide.
  - intros w Hf o' Hw' Hl. cbn [tileOccupyingBuildings_ set_occupants]. rewrite al_find_set. case_decide; [done|].
    by eapply Hf.
Qed.

Lemma evolves_occupants R s s' m : evolves R s (set_occupants s' (tileOccupyingBuildings_ s)) →
  evolves R (set_occupants s m) (set_occupants s' m).
Proof. intros [[A1 A2 A3] A4 A5 A6 A7 A8 A9]. split; try done. Qed.

Lemma addBuildings l s :
  WF s → Occupied s → Forall stands (tileOccupyingBuildings_ s) →
  (∀ u, u ∈ l → u ∈ UnitsInfo.container us UnitsInfo.visibleBuildings_) →
  ∃ s', rfold (addBuilding us) l s = Ok s' ∧ evolves builds_only s (set_occupants s' (tileOccupyingBuildings_ s)) ∧
    Occupied s' ∧ Forall stands (tileOccupyingBuildings_ s') ∧ (∀ u, u ∈ l → filed u s') ∧ ∀ w, filed w s → filed w s'.
Proof using HS.
  revert s. induction l as [|u l IH]; intros s HW Ho Hst Hl; cbn [rfold].
  { exists s. split_and!; try done; [destruct s; by apply evolves_refl; [apply _|]|by intros u ?%not_elem_of_nil]. }
  destruct (addBuilding_ok s u HW Ho Hst) as (s1 & -> & H1 & Ho1 & Hst1 & Hf1 & Hm1); [apply Hl; by left|]. cbn [rbind].
  destruct (IH s1) as (s2 & -> & H2 & Ho2 & Hst2 & Hf2 & Hm2); [|done|done|intros; apply Hl; by right|].
  { destruct H1 as [[A1 A2 A3] _ _ _ _ _ _]. by constructor. }
  exists s2. split_and!; try done.
  - apply (evolves_occupants _ _ _ (tileOccupyingBuildings_ s)) in H2. by eapply evolves_trans; [apply _|..].
  - intros w [->|Hw]%elem_of_cons; auto.
  - auto.
Qed.

(** ** Larvae *)

Lemma blockTile_ok s px py : WF s → Z.abs px ≤ 2 ^ 30 → Z.abs py ≤ 2 ^ 30 →
  ∃ s', blockTile frame s px py = Ok s' ∧ evolves blocks_only s s'.
Proof.
  intros HW Hx Hy. apply tryModify_evolves; [apply _|done|unfold in_int; lia|unfold in_int; lia|].
  intros t. unfold blocks_only. cbn. split_and!; [done..|lia].
Qed.

Lemma blockAt_ok s ty u : WF s → u ∈ myUnitsOfType us ty → ∃ s', blockAt frame us s u = Ok s' ∧ evolves blocks_only s s'.
Proof using HS.
  intros HW Hu. destruct (sane_mine HS ty u Hu) as [o Ho]. destruct (sane_units HS u o Ho) as (Hx & Hy & _).
  unfold blockAt, UnitsInfo.deref. rewrite Ho. cbn [of_option rbind].
  set (px := UnitsInfo.x _) in *. set (py := UnitsInfo.y _) in *. unfold small in *.
  destruct (blockTile_ok s px py) as (s1 & -> & H1); [done|lia|lia|]. cbn [rbind].
  destruct (blockTile_ok s1 (px - 2) (py - 2)) as (s2 & -> & H2); [apply H1|lia|lia|]. cbn [rbind].
  destruct (blockTile_ok s2 (px + 2) (py - 2)) as (s3 & -> & H3); [apply H2|lia|lia|]. cbn [rbind].
  destruct (blockTile_ok s3 (px + 2) (py + 2)) as (s4 & -> & H4); [apply H3|lia|lia|]. cbn [rbind].
  destruct (blockTile_ok s4 (px - 2) (py + 2)) as (s5 & -> & H5); [apply H4|lia|lia|].
  exists s5. split; [done|]. repeat (eapply evolves_trans; [apply _|eassumption|]). by apply evolves_refl; [apply _|apply H5].
Qed.

Lemma block_loop s ty : WF s → ∃ s', rfold (blockAt frame us) (myUnitsOfType us ty) s = Ok s' ∧ evolves blocks_only s s'.
Proof using HS.
  intros HW. apply (rfold_evolves blocks_only); [done|]. intros s' u Hu H'. eapply blockAt_ok; [apply H'|done].
Qed.

Lemma owned_evolves es s s' R : (∀ t t', R t t' → building t' = building t) → evolves R s s' → owned es s → owned es s'.
Proof.
  intros HR H Ho p t' u Hl Hb. destruct (ev_tiles _ _ _ H p t' Hl) as (t & Hlt & Ht). apply HR in Ht.
  apply (Ho p t u Hlt). congruence.
Qed.

(** Buildings are due to be checked. *)
Definition buildings_due (s : state) : bool := (lastUpdateBuildings_ s =? 0) || (frame - lastUpdateBuildings_ s >=? 4).

(** The occupants right after they are checked. *)
Definition checked (s : state) : Prop :=
  Forall stands (tileOccupyingBuildings_ s) ∧ ∀ u, u ∈ UnitsInfo.container us UnitsInfo.visibleBuildings_ → filed u s.

Lemma updateBuildings_ok s :
  WF s → Occupied s →
  ∃ s', updateBuildings frame us s = Ok s' ∧ WF s' ∧ Occupied s' ∧
    mapTileWidth_ s' = mapTileWidth_ s ∧ mapTileHeight_ s' = mapTileHeight_ s ∧ lastFowCreepUpdate_ s' = lastFowCreepUpdate_ s ∧
    (∀ p t', tiles s' !! p = Some t' → ∃ t, tiles s !! p = Some t ∧ stable t t' ∧ visible t' = visible t) ∧
    (buildings_due s = true → checked s').
Proof using HS.
  intros HW [Hen Ho]. unfold updateBuildings. fold (buildings_due s). destruct (buildings_due s) eqn:Ed.
  2:{ exists s. split_and!; try done. intros p t' Hl. exists t'. split_and!; [done|reflexivity|done]. }
  set (s0 := set_lastUpdateBuildings s frame).
  assert (WF s0) as HW0 by (destruct HW; by constructor).
  destruct (check_loop (tileOccupyingBuildings_ s0) [] s0) as (s1 & kept & -> & H1 & Hen1 & Ho1 & Hst1);
    [done|done|done|done|]. cbn [rbind fst snd].
  set (s1' := set_occupants s1 kept).
  assert (WF s1') as HW1 by (apply wf_occupants, H1).
  destruct (addBuildings (UnitsInfo.container us UnitsInfo.visibleBuildings_) s1') as (s2 & -> & H2 & Ho2 & Hst2 & Hf2 & _);
    [done|by split|done|done|]. cbn [rbind].
  assert (WF s2) as HW2 by (destruct H2 as [[] _ _ _ _ _ _]; by constructor).
  destruct (block_loop s2 BuildType.Zerg_Larva HW2) as (s3 & -> & H3). cbn [rbind].
  destruct (block_loop s3 BuildType.Zerg_Egg) as (s4 & -> & H4); [apply H3|]. cbn [rbind].
  destruct (block_loop s4 BuildType.Zerg_Lurker_Egg) as (s5 & -> & H5); [apply H4|].
  assert (evolves blocks_only s2 s5) as H25.
  { eapply evolves_trans; [apply _|exact H3|]. by eapply evolves_trans; [apply _|..]. }
  pose proof H1 as [_ W1 G1 _ F1 _ T1]. pose proof H2 as [_ W2 G2 _ F2 _ T2]. pose proof H25 as [W5 W3 G3 Et F3 _ T3].
  cbn in W1, G1, F1, T1, W2, G2, F2, T2. exists s5. split_and!; [done|done| |congruence|congruence|congruence| |intros _; unfold checked, filed; by rewrite Et].
  - destruct Ho2 as [Hen2 Ho2]. split; rewrite Et; [done|].
    eapply owned_evolves; [|exact H25|done]. by intros t t' (? & ? & ? & ?).
  - intros p t5 Hl5. destruct (T3 p t5 Hl5) as (t2 & Hl2 & (? & ? & ? & ?)). destruct (T2 p t2 Hl2) as (t1 & Hl1 & (? & ? & ?)).
    destruct (T1 p t1 Hl1) as (t0 & Hl0 & (? & ? & ?)). exists t0. unfold stable. split_and!; [done|congruence|lia|congruence].
Qed.

(** ** A frame *)

Lemma marks_phase s :
  WF s → ∃ s1 s2, rfold (anticipateCreep frame us) (UnitsInfo.container us UnitsInfo.myResourceDepots_) s = Ok s1 ∧
    slowUpdate frame us s1 = Ok s2 ∧ evolves marks_only s s2.
Proof using HS.
  intros HW. destruct (rfold_evolves marks_only (anticipateCreep frame us) (UnitsInfo.container us UnitsInfo.myResourceDepots_) s)
    as (s1 & E1 & H1); [done|intros; apply anticipate_ok; [by eapply ev_wf|done]|].
  destruct (slowUpdate_ok s1) as (s2 & E2 & H2); [apply H1|]. exists s1, s2. split_and!; [done|done|].
  by eapply evolves_trans; [apply _|..].
Qed.

(** What holds of the tiles between two frames. *)
Record Ready (s : state) : Prop := {
  rd_wf : WF s;
  rd_placed : placed s;
  rd_creep : creep_covers s;
  rd_occupied : Occupied s;
  rd_fow : lastFowCreepUpdate_ s = 0
}.

Lemma post_ok s :
  Ready s → ∃ s', postUnitsUpdate frame us creep_map s = Ok s' ∧ Ready s' ∧
    mapTileWidth_ s' = mapTileWidth_ s ∧ mapTileHeight_ s' = mapTileHeight_ s ∧
    (∀ p t', tiles s' !! p = Some t' → ∃ t, tiles s !! p = Some t ∧ stable t t') ∧
    (∀ tx ty t', on_map s tx ty → tiles s' !! Z.to_nat (tile_index tx ty) = Some t' →
       visible t' = true ↔ ∃ u, u ∈ UnitsInfo.container us UnitsInfo.myUnits_ ∧ in_table s u tx ty) ∧
    (buildings_due s = true → checked s').
Proof using HS.
  intros [HW Hp Hc [Hen Ho] Hf]. unfold postUnitsUpdate.
  destruct (updateVisible_ok s HW Hp Hc) as (s1 & -> & H1 & V1). cbn [rbind].
  destruct (marks_phase s1) as (s2 & s3 & -> & E3 & H3); [apply H1|]. cbn [rbind]. rewrite E3. cbn [rbind].
  pose proof H1 as [HW1 A1 A2 A3 A4 A5 A6]. pose proof H3 as [HW3 B1 B2 B3 B4 B5 B6].
  destruct (updateBuildings_ok s3) as (s4 & -> & HW4 & Ho4 & C1 & C2 & C3 & C4 & C5); [done| |].
  { split; rewrite B3, A3; [done|]. eapply owned_evolves; [|exact H3|].
    - by intros t t' [(? & ? & ?) ?].
    - eapply owned_evolves; [|exact H1|done]. by intros t t' (? & ? & ?). }
  assert (∀ p t', tiles s4 !! p = Some t' → ∃ t, tiles s !! p = Some t ∧ stable t t') as Hst.
  { intros p t4 Hl4. destruct (C4 p t4 Hl4) as (t3 & Hl3 & (? & ?) & ?). destruct (B6 p t3 Hl3) as (t1 & Hl1 & [(? & ? & ?) ?]).
    destruct (A6 p t1 Hl1) as (t0 & Hl0 & (? & ? & ?)). exists t0. unfold stable. split_and!; [done|congruence|lia]. }
  exists s4. split_and!; [done| |congruence|congruence|done| |].
  - split; [done| | |done|congruence].
    + intros tx ty t4 Hon Hl4. destruct (Hst _ _ Hl4) as (t & Hl & [Eb _]). unfold base in Eb. injection Eb as -> -> _ _ _ _.
      eapply Hp; [|done]. unfold on_map in *. by rewrite C1, C2, B1, B2, A1, A2 in Hon.
    + unfold creep_covers. by rewrite C1, C2, B1, B2, A1, A2.
  - intros tx ty t4 Hon Hl4. destruct (C4 _ _ Hl4) as (t3 & Hl3 & _ & ->). destruct (B6 _ _ Hl3) as (t1 & Hl1 & [_ ->]).
    by apply V1.
  - intros Hd. apply C5. unfold buildings_due in *. by rewrite B5, A5.
Qed.

(** Unit [u] has the tile at [tx], [ty] in clear sight; it is in its reach. *)
Definition sees_clearly (s : state) (u tx ty : Z) : Prop :=
  ∃ o ut, deref us u = Ok (o, ut) ∧
    let i := UnitsInfo.info o in
    on_map s (UnitsInfo.x i / 4) (UnitsInfo.y i / 4) ∧
    FogOfWar.in_clear_sight (UnitsInfo.sightRange i) (UnitsInfo.isFlyer ut || UnitsInfo.lifted o)
      (tx - UnitsInfo.x i / 4) (ty - UnitsInfo.y i / 4).
Definition reaches (s : state) (u tx ty : Z) : Prop :=
  ∃ o ut, deref us u = Ok (o, ut) ∧
    let i := UnitsInfo.info o in
    on_map s (UnitsInfo.x i / 4) (UnitsInfo.y i / 4) ∧
    FogOfWar.within_reach (UnitsInfo.sightRange i) (tx - UnitsInfo.x i / 4) (ty - UnitsInfo.y i / 4).

Lemma in_table_geometry s u tx ty : u ∈ UnitsInfo.container us UnitsInfo.myUnits_ →
  (in_table s u tx ty → reaches s u tx ty) ∧ (sees_clearly s u tx ty → in_table s u tx ty).
Proof using HS.
  intros Hu. destruct (deref_group UnitsInfo.myUnits_ u) as (o & ut & _ & E & _ & Hs); [unfold UnitsInfo.myUnits_; lia|done|].
  destruct Hs as (_ & _ & _ & _ & _ & _ & Hr). split.
  - intros (o' & ut' & n & E' & Hon & Hn & Ex & Ey). rewrite E in E'. injection E' as <- <-. exists o, ut.
    split; [done|]. cbn zeta. split; [done|]. rewrite <-Ex, <-Ey. by eapply FogOfWar.sight_nodes_reach.
  - intros (o' & ut' & E' & Hon & Hc). rewrite E in E'. injection E' as <- <-.
    destruct (FogOfWar.sight_nodes_clear _ _ _ _ Hr Hc) as (n & Hn & ? & ?). by exists o, ut, n.
Qed.

(** What the visibility of the tiles of [s] says about the player's units. *)
Definition shown (s : state) : Prop :=
  ∀ tx ty t, on_map s tx ty → tiles s !! Z.to_nat (tile_index tx ty) = Some t →
    (visible t = true → ∃ u, u ∈ UnitsInfo.container us UnitsInfo.myUnits_ ∧ reaches s u tx ty) ∧
    (∀ u, u ∈ UnitsInfo.container us UnitsInfo.myUnits_ → sees_clearly s u tx ty → visible t = true).

Lemma post_shown s : Ready s → ∃ s', postUnitsUpdate frame us creep_map s = Ok s' ∧ Ready s' ∧
  mapTileWidth_ s' = mapTileWidth_ s ∧ mapTileHeight_ s' = mapTileHeight_ s ∧
  (∀ p t', tiles s' !! p = Some t' → ∃ t, tiles s !! p = Some t ∧ stable t t') ∧ shown s' ∧
  (buildings_due s = true → checked s').
Proof using HS.
  intros HR. destruct (post_ok s HR) as (s' & E & HR' & Ew & Eh & Hst & Hv & Hb). exists s'. split_and!; try done.
  intros tx ty t Hon Hl. assert (on_map s tx ty) as Hon' by (unfold on_map in *; congruence).
  assert (∀ u, in_table s u tx ty ↔ in_table s' u tx ty) as Hs by (intros u; unfold in_table, on_map; by rewrite Ew, Eh).
  pose proof (Hv tx ty t Hon' Hl) as Hvis. split.
  - intros (u & Hu & Hin%Hs)%Hvis. exists u. split; [done|]. by apply in_table_geometry.
  - intros u Hu Hc. apply Hvis. exists u. split; [done|]. apply Hs. by apply in_table_geometry.
Qed.

(** C30 [postUnitsUpdate] succeeds in every frame.  Afterwards a visible tile of
    the map is within reach of one of the player's units: the distance in build
    tiles is less than the sight range, in build tiles, plus one and a half.  A
    tile that a unit has in clear sight is visible: at such a distance, not at the
    very rim, whatever the heights in between, and for a flying unit fewer than
    range plus one rows and columns away.  The map, the reservations and the
    blocked tiles are as before (a tile may be blocked for longer). *)
Theorem visible_within_sight s :
  Ready s → ∃ s', postUnitsUpdate frame us creep_map s = Ok s' ∧ WF s' ∧ shown s' ∧
    mapTileWidth_ s' = mapTileWidth_ s ∧ mapTileHeight_ s' = mapTileHeight_ s ∧
    ∀ p t', tiles s' !! p = Some t' → ∃ t, tiles s !! p = Some t ∧
      x t' = x t ∧ y t' = y t ∧ buildable t' = buildable t ∧ height t' = height t ∧
      reservedAsUnbuildable t' = reservedAsUnbuildable t ∧ blockedUntil t ≤ blockedUntil t'.
Proof using HS.
  intros HR. destruct (post_shown s HR) as (s' & E & [HW' _ _ _ _] & Ew & Eh & Hst & Hv & _). exists s'. split_and!; try done.
  intros p t' Hl. destruct (Hst p t' Hl) as (t & Hlt & Eb & Hb). exists t. unfold base in Eb. injection Eb as ? ? ? ? ? ?. by split_and!.
Qed.

(** C31 Whenever buildings are checked (every fourth frame), every visible building
    that has not lifted off is filed afterwards, and the building recorded on a
    tile is one that stands there: a known unit, alive, not gone,
    landed, that covers the tile with its present type at its present place (or
    with the place kept free for its addon).  It is the building the tile is
    filed under: the entry of the unit lists the tile, and its recorded type and
    pixel position are the unit's. *)
Theorem building_stands s :
  Ready s → buildings_due s = true → ∃ s', postUnitsUpdate frame us creep_map s = Ok s' ∧
    (∀ u o, u ∈ UnitsInfo.container us UnitsInfo.visibleBuildings_ → UnitsInfo.units us !! u = Some o →
       UnitsInfo.lifted o = false → is_Some (al_find u (tileOccupyingBuildings_ s'))) ∧
    ∀ p t u, tiles s' !! p = Some t → building t = Some u →
      ∃ o ut v tx ty, UnitsInfo.units us !! u = Some o ∧
        UnitsInfo.dead o = false ∧ UnitsInfo.gone o = false ∧ UnitsInfo.lifted o = false ∧
        let tcu := UnitsInfo.unit (UnitsInfo.info o) in
        UnitsInfo.type (UnitsInfo.info o) = Some ut ∧
        Z.of_nat p = tile_index tx ty ∧ 0 ≤ tx < tilesWidth ∧ 0 ≤ ty < tilesHeight ∧
        covers ut (UnitsInfo.tc_pixel_x tcu) (UnitsInfo.tc_pixel_y tcu) tx ty ∧
        al_find u (tileOccupyingBuildings_ s') = Some v ∧ Z.of_nat p ∈ v_tiles v ∧ v_u v = u ∧ v_type v = ut ∧
        pixelX v = UnitsInfo.tc_pixel_x tcu ∧ pixelY v = UnitsInfo.tc_pixel_y tcu.
Proof using HS.
  intros HR Hd. destruct (post_ok s HR) as (s' & E & [_ _ _ [Hen Ho] _] & _ & _ & _ & _ & Hck). destruct (Hck Hd) as [Hst Hf].
  exists s'. split; [done|]. split; [intros u o Hu; by apply Hf|].
  intros p t u Hl Hb. destruct (Ho p t u Hl Hb) as (v & Hv & Hp). rewrite Forall_forall in Hst.
  destruct (Hst (u, v) Hv) as (o & Hu & Hs). destruct (en_entry _ Hen u v Hv) as [Ev _].
  destruct (en_traced _ Hen u v Hv _ Hp) as (tx & ty & Ep & Hx & Hy & Hc). unfold stays in Hs. cbn [fst snd] in *.
  rewrite negb_true_iff, !orb_false_iff, !negb_false_iff, bool_decide_eq_true, !Z.eqb_eq in Hs.
  destruct Hs as [[[[[Hli Hgo] Hde] Hty] Epx] Epy]. exists o, (v_type v), v, tx, ty. rewrite Epx, Epy.
  split_and!; try done; try lia. by apply al_in_find; [apply Hen|].
Qed.
End update.

(** The constructor gives a state that is ready for the first frame. *)
Lemma construct_ready {attributes : UnitsInfo.Attributes} us creep_map d :
  valid_map d → map_width d / 4 ≤ 256 → map_height d / 4 ≤ 256 →
  (map_width d / 4) * (map_height d / 4) ≤ 8 * Z.of_nat (length creep_map) →
  ∃ s, construct d = Ok s ∧ Ready us creep_map s ∧ mapTileWidth_ s = map_width d / 4 ∧ mapTileHeight_ s = map_height d / 4 ∧
    lastUpdateBuildings_ s = 0.
Proof.
  intros Hd Hw Hh Hc. destruct (construct_ok d Hd Hw Hh) as (ts & E & HW & Hin & Hall).
  exists (set_tiles (blank d) ts). split_and!; try done. split; try done.
  - intros tx ty t Hon Hl. cbn [tiles set_tiles] in Hl. rewrite Hin in Hl by done. by injection Hl as <-.
  - split; [split|].
    + constructor.
    + by intros u v ?%not_elem_of_nil.
    + by intros u v ?%not_elem_of_nil.
    + intros p t u Hl Hb. cbn [tiles set_tiles] in Hl. destruct (Hall p t Hl) as [->|(tx & ty & ->)]; done.
Qed.

(** ** Examples *)

(** A pylon (unit 8) near the upper left corner of a map of 8 by 8 tiles. *)
Definition example_pylon : UnitsInfo.obj :=
  UnitsInfo.set_visible true (UnitsInfo.set_info
    (UnitsInfo.Seen 8 10 20 0 true false false (Some BuildType.Protoss_Pylon) 6 16 None None None 0 0 None 0 None
       28 true (10, 20) (UnitGroups.example_tcu 8 156 (Z.lor UnitsInfo.Powered UnitsInfo.Completed))) UnitsInfo.newUnit).
Definition example_units : UnitsInfo.state :=
  UnitsInfo.set_containers (UnitsInfo.set_units UnitsInfo.init {[8 := example_pylon]})
    [[8]; [8]; [8]; []; [8]; []; [8]; []; [8]; []; []; []; []; []; []; []].
Definition example_creep : list Z := replicate 8 0.

Lemma example_sane : Sane (attributes := UnitGroups.example_attributes) example_units.
Proof.
  assert (∀ u o, UnitsInfo.units example_units !! u = Some o → u = 8 ∧ o = example_pylon) as Hu.
  { intros u o Ho. cbn in Ho. by apply lookup_singleton_Some in Ho as [<- <-]. }
  constructor.
  - intros k u Hk Hin. exists example_pylon, BuildType.Protoss_Pylon.
    assert (u = 8) as ->; [|split; [apply lookup_singleton_eq|done]].
    unfold UnitsInfo.container in Hin. do 13 (destruct k as [|k]; [cbn in Hin; set_solver|]). lia.
  - intros ty u Hin. unfold myUnitsOfType in Hin. cbn in Hin. by apply not_elem_of_nil in Hin.
  - intros u o Ho. apply Hu in Ho as [-> ->]. unfold sane_unit, small. cbn. lia.
  - intros ty. unfold small. cbn. lia.
  - intros u o _ Ho. by apply Hu in Ho as [-> ->].
  - intros u o ty Ho. apply Hu in Ho as [-> ->]. by intros [= <-].
Qed.

Lemma example_tiles_ready : ∃ s, construct example_map = Ok s ∧ Ready (attributes := UnitGroups.example_attributes) example_units example_creep s ∧
  mapTileWidth_ s = 8 ∧ mapTileHeight_ s = 8 ∧ lastUpdateBuildings_ s = 0.
Proof. apply (construct_ready _ _ _ example_map_valid); by vm_compute. Qed.

(** The pylon sees its own tile. *)
Lemma visible_within_sight_witness :
  ∃ s s' t, Ready (attributes := UnitGroups.example_attributes) example_units example_creep s ∧
    postUnitsUpdate (table := UnitGroups.example_types) (attributes := UnitGroups.example_attributes) 1 example_units example_creep s = Ok s' ∧
    tiles s' !! Z.to_nat (tile_index 2 5) = Some t ∧ visible t = true.
Proof.
  destruct example_tiles_ready as (s & _ & HR & Ew & Eh & _).
  destruct (visible_within_sight (table := UnitGroups.example_types) (attributes := UnitGroups.example_attributes)
    1 example_units example_creep example_sane s HR) as (s' & E & HW & Hs & Ew' & Eh' & _).
  assert (on_map s' 2 5) as Hon by (unfold on_map; rewrite Ew', Eh', Ew, Eh; lia).
  destruct (tile_known s' 2 5 HW Hon) as [t Ht]. exists s, s', t. split; [exact HR|]. split; [exact E|]. split; [exact Ht|].
  destruct (Hs 2 5 t Hon Ht) as [_ H]. apply (H 8); [cbn; left|]. exists example_pylon, BuildType.Protoss_Pylon.
  split; [reflexivity|]. split; [exact Hon|]. split; [vm_compute; discriminate|discriminate].
Defined.

(** The pylon is filed. *)
Lemma building_stands_witness :
  ∃ s s', Ready (attributes := UnitGroups.example_attributes) example_units example_creep s ∧ buildings_due 1 s = true ∧
    postUnitsUpdate (table := UnitGroups.example_types) (attributes := UnitGroups.example_attributes) 1 example_units example_creep s = Ok s' ∧
    is_Some (al_find 8 (tileOccupyingBuildings_ s')).
Proof.
  destruct example_tiles_ready as (s & _ & HR & _ & _ & H0).
  assert (buildings_due 1 s = true) as Hd by (unfold buildings_due; rewrite H0; reflexivity).
  destruct (building_stands (table := UnitGroups.example_types) (attributes := UnitGroups.example_attributes)
    1 example_units example_creep example_sane s HR Hd) as (s' & E & Hf & _).
  exists s, s'. split; [exact HR|split; [exact Hd|split; [exact E|]]].
  apply (Hf 8 example_pylon); [cbn; left|reflexivity|reflexivity].
Defined.
End TilesUpdate.
