(* ===== verification/StateUpdate.v ===== *)
(** * A frame of the game ([src/state.cpp])

    [State::update] chooses the units the player may know about, hands them to
    [UnitsInfo], which looks at the tiles of the previous frame, and then brings
    the tiles up to date with the new units.  The theorem puts the invariants of
    both together over the frames of a whole game.

    Modelled: the part of [State::update] from the choice of the units to
    [TilesInfo::postUnitsUpdate]; the map analysis before and the areas, the
    trackers and the blackboard after it do not touch this state. *)

From S2P Require Import Prelude BuildTypes UnitsInfo UnitGroups UnitsUpdate UnitsKept Tiles FogOfWar TilesInfo TilesUpdate.

Module StateUpdate.
Import UnitsInfo.

(** A unit as the game reports it, with the players that can see it. *)
Record report := Report { r_unit : tcunit; r_visible : Z }.

(** What the game sends in a frame, units by player. *)
Record input := Input {
  frame_from_bwapi : Z; reports : list (Z * list report); in_deaths : list Z; creep_map : list Z;
  in_upgrades : Z → option Z }.

Record game := Game { started : bool; unitsInfo_ : UnitsInfo.state; tilesInfo_ : Tiles.state }.

Section state.
Context {table : BuildType.Table} {attributes : Attributes}.
(** The numbers TorchCraft has a unit type for, the players, and the map. *)
Context (isUnitType : Z → bool) (playerId_ neutralId_ : Z) (d : Tiles.mapdata).

(** [src/src/state.cpp:166-180] State::update *)
Definition observed (firstFrame : bool) (owner : Z) (r : report) : bool :=
  isUnitType (tc_type (r_unit r)) &&
  (Z.testbit (r_visible r) playerId_ || ((owner =? neutralId_) && firstFrame)).

(** [src/src/state.cpp:162-183] State::update *)
Definition updateUnitsMap (firstFrame : bool) (us : list (Z * list report)) : list (Z * tcunit) :=
  fold_left (λ m e, fold_left (λ m r,
    if observed firstFrame e.1 r then al_set (tc_id (r_unit r)) (r_unit r) m else m) e.2 m) us [].

(** The visibility of the tile at a walk position, absent off the map. *)
Definition lookAt (ts : Tiles.state) (px py : Z) : option bool :=
  match Tiles.tryGetTile ts px py with
  | None => None
  | Some p => Tiles.visible <$> Tiles.tiles ts !! Z.to_nat p
  end.

Definition frame_of (g : game) (i : input) : frame :=
  Frame (frame_from_bwapi i) playerId_ neutralId_ (Tiles.map_width d) (Tiles.map_height d)
    (updateUnitsMap (negb (started g)) (reports i)) (in_deaths i) (in_upgrades i) (lookAt (tilesInfo_ g)).

(** [src/src/state.cpp:160-197] State::update *)
Definition update (g : game) (i : input) : res game :=
  let? ui := UnitsInfo.update (frame_of g i) (unitsInfo_ g) in
  let? ti := TilesInfo.postUnitsUpdate (frame_from_bwapi i) ui (creep_map i) (tilesInfo_ g) in
  Ok (Game true ui ti).

(** A game from its first frame. *)
Definition start : res game := let? ts := Tiles.construct d in Ok (Game false init ts).
Definition play (ins : list input) : res game := let? g := start in rfold update ins g.

(** ** Hypotheses *)

(** Reports the game can send. *)
Record sane_report (i : input) (r : report) : Prop := {
  sr_id : in_int (tc_id (r_unit r));
  sr_type : isUnitType (tc_type (r_unit r)) = true → getUnitBuildType (tc_type (r_unit r)) ≠ None;
  sr_upgrade : ∀ n, in_upgrades i (tc_buildTechUpgradeType (r_unit r)) = Some n → 0 ≤ n < 3;
  sr_pixel : 0 ≤ tc_pixel_x (r_unit r) < 2 ^ 15 ∧ 0 ≤ tc_pixel_y (r_unit r) < 2 ^ 15
}.

Record sane_input (i : input) : Prop := {
  si_reports : ∀ owner rs r, (owner, rs) ∈ reports i → r ∈ rs → sane_report i r;
  si_creep : (Tiles.map_width d / 4) * (Tiles.map_height d / 4) ≤ 8 * Z.of_nat (length (creep_map i))
}.

Definition sane_map : Prop :=
  Tiles.valid_map d ∧ 4 ≤ Tiles.map_width d ≤ 1024 ∧ 4 ≤ Tiles.map_height d ≤ 1024.

Definition sane_table : Prop :=
  ∀ ty, 0 ≤ tileWidth ty ≤ 256 ∧ 0 ≤ tileHeight ty ≤ 256 ∧ 0 ≤ typeSightRange ty < 48 ∧
    TilesUpdate.small (dimensionLeft ty) ∧ TilesUpdate.small (dimensionUp ty).

(** ** The units of a frame *)

Lemma observe_spec first us u tcu :
  (u, tcu) ∈ updateUnitsMap first us → ∃ owner rs r, (owner, rs) ∈ us ∧ r ∈ rs ∧ r_unit r = tcu ∧ tc_id tcu = u ∧
    isUnitType (tc_type tcu) = true.
Proof.
  assert (∀ m, (u, tcu) ∈ fold_left (λ m e, fold_left (λ m r,
    if observed first e.1 r then al_set (tc_id (r_unit r)) (r_unit r) m else m) e.2 m) us m →
    (u, tcu) ∈ m ∨ ∃ owner rs r, (owner, rs) ∈ us ∧ r ∈ rs ∧ r_unit r = tcu ∧ tc_id tcu = u ∧ isUnitType (tc_type tcu) = true) as H.
  2:{ intros Hin. destruct (H [] Hin) as [?%not_elem_of_nil|?]; done. }
  induction us as [|[owner rs] us IH]; intros m Hin; cbn [fold_left] in Hin; [by left|].
  destruct (IH _ Hin) as [Hin'|(ow & rs' & r & ? & ?)]; [|right; exists ow, rs', r; split; [by right|done]].
  assert (∀ rs0 m, rs0 ⊆ rs → (u, tcu) ∈ fold_left (λ m r, if observed first owner r then al_set (tc_id (r_unit r)) (r_unit r) m else m) rs0 m →
    (u, tcu) ∈ m ∨ ∃ r, r ∈ rs ∧ r_unit r = tcu ∧ tc_id tcu = u ∧ isUnitType (tc_type tcu) = true) as Hr.
  { clear. induction rs0 as [|r rs0 IH]; intros m Hsub Hin; cbn [fold_left] in Hin; [by left|].
    destruct (IH _ ltac:(intros z Hz; apply Hsub; by right) Hin) as [Hin'|?]; [|by right].
    destruct (observed first owner r) eqn:Eo; [|by left].
    assert (∀ k v (m : list (Z * tcunit)), (u, tcu) ∈ al_set k v m → (u, tcu) ∈ m ∨ (u = k ∧ tcu = v)) as Ha.
    { clear. intros k v. induction m as [|[k' v'] m IH]; cbn [al_set]; [intros [= -> ->]%list_elem_of_singleton|].
      - by right.
      - case_decide as Hd; rewrite !elem_of_cons; intros [E|E].
        + injection E as -> ->. right. by subst.
        + by left; right.
        + left. by left.
        + destruct (IH E) as [?|?]; [left; by right|by right]. }
    destruct (Ha _ _ _ Hin') as [?|[-> ->]]; [by left|right]. exists r. apply andb_true_iff in Eo as [Ht _].
    split_and!; [apply Hsub; by left|done|done|done]. }
  destruct (Hr rs m) as [?|(r & ? & ? & ? & ?)]; [done|done|by left|]. right. exists owner, rs, r. split; [by left|done].
Qed.

Lemma frame_valid g i : sane_input i → UnitsUpdate.valid_frame (frame_of g i).
Proof.
  intros [Hr _] u tcu Hin. cbn in Hin. destruct (observe_spec _ _ _ _ Hin) as (ow & rs & r & H1 & H2 & <- & <- & Ht).
  destruct (Hr ow rs r H1 H2) as [A1 A2 A3 _]. split; [done|]. split; [by apply A2|done].
Qed.

(** The reported data is sane. *)
Definition sane_seen (s : seen) : Prop :=
  TilesUpdate.small (x s) ∧ TilesUpdate.small (y s) ∧ TilesUpdate.small (buildX s) ∧ TilesUpdate.small (buildY s) ∧
  TilesUpdate.small (tc_pixel_x (unit s)) ∧ TilesUpdate.small (tc_pixel_y (unit s)) ∧ 0 ≤ sightRange s < 48.

(** The build position follows from the pixel position and the type. *)
Definition placed_seen (s : seen) : Prop := ∀ ty, type s = Some ty →
  buildX s = Z.quot (tc_pixel_x (unit s) - tileWidth ty * 16) 8 ∧ buildY s = Z.quot (tc_pixel_y (unit s) - tileHeight ty * 16) 8.

Lemma clamp_range n z : 0 < n → 0 ≤ clamp n z < n.
Proof.
  intros Hn. unfold clamp. rewrite Z.geb_leb. destruct (Z.ltb_spec z 0), (Z.leb_spec n 0), (Z.leb_spec n z); lia.
Qed.

Lemma reported_sane g i u tcu s :
  sane_map → sane_table → sane_input i → (u, tcu) ∈ frame_units (frame_of g i) →
  UnitsKept.reported (frame_of g i) tcu s → sane_seen s ∧ placed_seen s.
Proof.
  intros (Hd & Hw & Hh) Htab [Hr _] Hin (Eu & Ex & Ey & ty & o & Ht & Es & Ebx & Eby). cbn in Hin. split.
  2:{ intros ty' Ht'. rewrite Eu. assert (ty' = ty) as -> by congruence. done. }
  destruct (observe_spec _ _ _ _ Hin) as (ow & rs & r & H1 & H2 & <- & _ & _).
  destruct (Hr ow rs r H1 H2) as [_ _ _ [Hpx Hpy]]. destruct (Htab ty) as (Htw & Hth & Hs & _).
  pose proof (clamp_range (Tiles.map_width d) (tc_x (r_unit r)) ltac:(lia)).
  pose proof (clamp_range (Tiles.map_height d) (tc_y (r_unit r)) ltac:(lia)).
  unfold sane_seen, TilesUpdate.small. rewrite Eu, Ex, Ey, Ebx, Eby. cbn [mapWidth mapHeight frame_of].
  assert (∀ a b, 0 ≤ a < 2 ^ 15 → 0 ≤ b ≤ 256 → Z.abs (Z.quot (a - b * 16) 8) ≤ 2 ^ 20) as Hq.
  { intros a b Ha Hb. pose proof (Z.quot_rem' (a - b * 16) 8). pose proof (Z.rem_bound_abs (a - b * 16) 8). lia. }
  pose proof (Hq _ _ Hpx Htw). pose proof (Hq _ _ Hpy Hth). split_and!; try lia.
  rewrite Es. unfold unitSightRange. repeat case_match; lia.
  rewrite Es. unfold unitSightRange. repeat case_match; lia.
Qed.

(** ** Putting the invariants together *)

(** What the tiles rely on holds of the units after [UnitsInfo::update]. *)
Lemma settled_sane f us :
  sane_table → UnitsUpdate.Settled f us → UnitsKept.listed us →
  (∀ v o, units us !! v = Some o → info o = info newUnit ∨ sane_seen (info o) ∧ placed_seen (info o)) → TilesUpdate.Sane us.
Proof.
  intros Htab [[HW HS] Ht _ _ _ Hg] Hl Hi. constructor.
  - intros k u Hk Hu. destruct (UnitGroups.wf_lookup us k HW Hk) as (cont & _ & Hgr & Ec). rewrite Ec in Hu.
    destruct (UnitGroups.g_known _ _ _ Hgr u Hu) as [o Ho]. specialize (Ht u o Ho).
    destruct (type (info o)) as [ty|] eqn:E; [|done]. by exists o, ty.
  - intros ty u Hu. unfold TilesInfo.myUnitsOfType in Hu.
    destruct (myUnitsOfType_ us !! BuildType.unit ty) as [l|] eqn:E; [|by apply not_elem_of_nil in Hu]. by eapply Hl.
  - intros u o Ho. destruct (Hi u o Ho) as [E|[H _]]; [|exact H]. exfalso. apply (Ht u o Ho). by rewrite E.
  - intros ty. destruct (Htab ty) as (? & ? & _ & ? & ?). tauto.
  - intros u o Hu Ho. pose proof (HS u o Ho) as Hsy.
    destruct (UnitsUpdate.synced_typed f us u o Hsy (Ht u o Ho)) as (ty & Hty & _).
    unfold UnitsUpdate.synced in Hsy. rewrite Hty in Hsy. apply Hsy in Hu; [|unfold visibleBuildings_; lia|done].
    unfold visibleBuildings_ in Hu. cbn [member] in Hu. apply andb_true_iff in Hu as [Hu _].
    apply andb_true_iff in Hu as [Hd%negb_true_iff Hv]. split; [by eapply Hg|done].
  - intros u o ty Ho Hty. destruct (Hi u o Ho) as [E|[_ H]]; [|by apply H]. by rewrite E in Hty.
Qed.

Lemma ready_mono us us' creep creep' s :
  (∀ v, is_Some (units us !! v) → is_Some (units us' !! v)) → TilesUpdate.creep_covers creep' s →
  TilesUpdate.Ready us creep s → TilesUpdate.Ready us' creep' s.
Proof.
  intros Hd Hc [H1 H2 _ [[H4 H5 H5'] H6] H7]. split; try done. split; [split; [done| |done]|done].
  intros u v Hv. destruct (H5 u v Hv) as (? & ? & ?). split_and!; auto.
Qed.

(** Between two frames, [n] being the number of the last one. *)
Record Between (n : Z) (g : game) : Prop := {
  b_units : ∀ f, myPlayerId f = playerId_ → neutralId f = neutralId_ → n < currentFrame f → UnitsUpdate.Ready f (unitsInfo_ g);
  b_info : ∀ v o, units (unitsInfo_ g) !! v = Some o → info o = info newUnit ∨ sane_seen (info o) ∧ placed_seen (info o);
  b_listed : UnitsKept.listed (unitsInfo_ g);
  b_tiles : ∃ creep, TilesUpdate.Ready (unitsInfo_ g) creep (tilesInfo_ g);
  b_width : Tiles.mapTileWidth_ (tilesInfo_ g) = Tiles.map_width d / 4;
  b_height : Tiles.mapTileHeight_ (tilesInfo_ g) = Tiles.map_height d / 4
}.

Lemma start_between (creep : list Z) n :
  sane_map → (Tiles.map_width d / 4) * (Tiles.map_height d / 4) ≤ 8 * Z.of_nat (length creep) →
  ∃ g, start = Ok g ∧ Between n g.
Proof.
  intros (Hd & Hw & Hh) Hc. unfold start.
  destruct (TilesUpdate.construct_ready init creep d Hd) as (ts & -> & HR & Ew & Eh & _);
    [Z.div_mod_to_equations; lia|Z.div_mod_to_equations; lia|done|]. cbn [rbind].
  eexists. split; [done|]. split; cbn [unitsInfo_ tilesInfo_]; try done.
  - intros f _ _ _. apply UnitsUpdate.init_ready.
  - by exists creep.
Qed.

Lemma update_between n g i :
  sane_map → sane_table → sane_input i → n < frame_from_bwapi i → Between n g →
  ∃ g', update g i = Ok g' ∧ Between (frame_from_bwapi i) g' ∧ UnitsUpdate.Settled (frame_of g i) (unitsInfo_ g') ∧
    TilesUpdate.shown (unitsInfo_ g') (tilesInfo_ g').
Proof.
  intros Hm Htab Hi Hn [B1 B2 B3 [creep B4] B5 B6]. unfold update.
  destruct (UnitsUpdate.update_settled (frame_of g i) (unitsInfo_ g)) as (ui & Eu & HS);
    [by apply B1|by apply frame_valid|]. rewrite Eu. cbn [rbind].
  destruct (UnitsKept.update_kept (frame_of g i) (λ s, sane_seen s ∧ placed_seen s) (unitsInfo_ g) ui) as (K1 & K2 & K3); [|done|done|done|].
  { intros u tcu s Hin Hr. by eapply reported_sane. }
  pose proof (settled_sane _ _ Htab HS K2 K1) as Hsane.
  destruct (TilesUpdate.post_shown (frame_from_bwapi i) ui (creep_map i) Hsane (tilesInfo_ g)) as (ti & -> & HR & W & H & _ & V & _).
  { apply (ready_mono (unitsInfo_ g) ui creep); [done| |done]. unfold TilesUpdate.creep_covers. rewrite B5, B6. apply Hi. }
  cbn [rbind]. eexists. split; [done|]. split_and!; cbn [unitsInfo_ tilesInfo_]; [|done|done].
  split; cbn [unitsInfo_ tilesInfo_]; try done; [|by exists (creep_map i)|congruence|congruence].
  intros f E1 E2 Hf. by eapply UnitsUpdate.settled_ready.
Qed.

Lemma play_between ins g n :
  sane_map → sane_table → Between n g → Forall sane_input ins → StronglySorted Z.lt (n :: (frame_from_bwapi <$> ins)) →
  ∃ g' n', rfold update ins g = Ok g' ∧ Between n' g' ∧ (n' = n ∨ n' ∈ frame_from_bwapi <$> ins).
Proof.
  intros Hm Htab. revert g n. induction ins as [|i ins IH]; intros g n HB Hs Hlt; cbn [rfold].
  { exists g, n. split_and!; auto. }
  apply Forall_cons in Hs as [Hi Hs]. apply StronglySorted_inv in Hlt as [Hlt Hn]. csimpl in *.
  apply Forall_cons in Hn as [Hn _].
  destruct (update_between n g i Hm Htab Hi Hn HB) as (g1 & -> & HB1 & _). cbn [rbind].
  destruct (IH g1 (frame_from_bwapi i) HB1 Hs Hlt) as (g' & n' & E & HB' & [->|Hin]).
  - exists g', (frame_from_bwapi i). split_and!; [done|done|right; by left].
  - exists g', n'. split_and!; [done|done|right; by right].
Qed.

(** A number below those of all frames. *)
Lemma before_all (l : list input) : ∃ n, ∀ j, j ∈ l → n < frame_from_bwapi j.
Proof.
  exists (foldr (λ j a, Z.min a (frame_from_bwapi j)) 0 l - 1).
  induction l as [|j l IH]; intros k Hk; [by apply not_elem_of_nil in Hk|]. cbn [foldr].
  apply elem_of_cons in Hk as [->|Hk]; [lia|]. specialize (IH k Hk). lia.
Qed.

(** A living unit of the player that is in view. *)
Definition mine (o : obj) : Prop := dead o = false ∧ visible o = true ∧ playerId (info o) = playerId_.

Lemma settled_groups f us : myPlayerId f = playerId_ ∧ neutralId f = neutralId_ → UnitsUpdate.Settled f us →
  ∀ u o, units us !! u = Some o → ∃ ty, type (info o) = Some ty ∧
    (∀ k, (k < 13)%nat → k ≠ myUnits_ →
      u ∈ container us k ↔
      member (Frame 0 playerId_ neutralId_ 0 0 [] [] (λ _, None) (λ _ _, None)) o ty k = true) ∧
    (u ∈ container us myUnits_ → mine o) ∧ (active o = true → mine o → u ∈ container us myUnits_).
Proof.
  intros [Ef En] [[_ HS] Ht _ _ _ _] u o Ho. specialize (HS u o Ho).
  destruct (type (info o)) as [ty|] eqn:E; [|by destruct (Ht u o Ho)].
  exists ty. split; [done|]. unfold UnitsUpdate.synced in HS. rewrite E in HS. destruct HS as (_ & HG & HM & HA).
  split_and!.
  - intros k Hk Hne. rewrite HG by done. unfold member. simpl. by rewrite Ef.
  - intros Hin. apply HM in Hin. unfold UnitsUpdate.mine_visible in Hin.
    rewrite !andb_true_iff, negb_true_iff, Z.eqb_eq, Ef in Hin. unfold mine. tauto.
  - intros Ha (Hd & Hv & Hp). apply (HA Ha). unfold myUnits_. cbn [member].
    by rewrite Hd, Hv, Hp, Ef, Z.eqb_refl, (UnitsUpdate.active_powered o Ha).
Qed.

Lemma frame_of_sides g i : myPlayerId (frame_of g i) = playerId_ ∧ neutralId (frame_of g i) = neutralId_.
Proof. done. Qed.

(** C28 The frames of a game, played from its start, never fail.  After the last
    of them every unit has a type and is in exactly the groups whose condition it
    meets.  Of the group of the player's units this holds for active units: it
    has every active living unit of the player that is in view, and none that is
    dead, hidden or someone else's (a unit that is not active stays where it was
    when that was last checked).  A visible tile of the map is within the reach of
    a living unit of the player, and a tile that an active unit of the player has
    in clear sight is visible. *)
Theorem play_consistent ins i :
  sane_map → sane_table → Forall sane_input (ins ++ [i]) → StronglySorted Z.lt (frame_from_bwapi <$> ins ++ [i]) →
  ∃ g, play (ins ++ [i]) = Ok g ∧
    (∀ u o, units (unitsInfo_ g) !! u = Some o → ∃ ty, type (info o) = Some ty ∧
       (∀ k, (k < 13)%nat → k ≠ myUnits_ →
         u ∈ container (unitsInfo_ g) k ↔
         member (Frame 0 playerId_ neutralId_ 0 0 [] [] (λ _, None) (λ _ _, None)) o ty k = true) ∧
       (u ∈ container (unitsInfo_ g) myUnits_ → mine o) ∧
       (active o = true → mine o → u ∈ container (unitsInfo_ g) myUnits_)) ∧
    ∀ tx ty t, Tiles.on_map (tilesInfo_ g) tx ty → Tiles.tiles (tilesInfo_ g) !! Z.to_nat (Tiles.tile_index tx ty) = Some t →
      (Tiles.visible t = true → ∃ u o, units (unitsInfo_ g) !! u = Some o ∧ mine o ∧
         TilesUpdate.reaches (unitsInfo_ g) (tilesInfo_ g) u tx ty) ∧
      (∀ u o, units (unitsInfo_ g) !! u = Some o → active o = true → mine o →
         TilesUpdate.sees_clearly (unitsInfo_ g) (tilesInfo_ g) u tx ty → Tiles.visible t = true).
Proof.
  intros Hm Htab Hs Hlt. unfold play.
  apply Forall_app in Hs as [Hs Hi]. apply Forall_cons in Hi as [Hi _].
  destruct (before_all (ins ++ [i])) as [n Hn].
  destruct (start_between (creep_map i) n Hm) as (g0 & -> & HB0); [apply Hi|]. cbn [rbind]. rewrite rfold_app.
  rewrite fmap_app in Hlt. cbn in Hlt.
  assert (StronglySorted Z.lt (n :: (frame_from_bwapi <$> ins)) ∧ ∀ m, m = n ∨ m ∈ frame_from_bwapi <$> ins → m < frame_from_bwapi i)
    as [Hlt1 Hlast].
  { apply StronglySorted_app in Hlt as (Hx & Hlt & _). split.
    - constructor; [done|]. apply Forall_forall. intros m (j & -> & Hj)%list_elem_of_fmap. apply Hn, elem_of_app. by left.
    - intros m [->|Hm']; [apply Hn, elem_of_app; right; by left|]. apply Hx; [done|by left]. }
  destruct (play_between ins g0 n Hm Htab HB0 Hs Hlt1) as (g1 & n1 & -> & HB1 & Hn1). cbn [rbind rfold].
  destruct (update_between n1 g1 i Hm Htab Hi (Hlast n1 Hn1) HB1) as (g & -> & _ & HS & HV). cbn [rbind].
  pose proof (settled_groups _ _ (frame_of_sides g1 i) HS) as HG. exists g. split_and!; [done|exact HG|].
  intros tx ty t Hon Hl. destruct (HV tx ty t Hon Hl) as [Hv1 Hv2]. split.
  - intros (u & Hu & Hr)%Hv1. destruct HS as [[HW _] _ _ _ _ _].
    destruct (UnitGroups.wf_lookup (unitsInfo_ g) myUnits_ HW) as (cont & _ & Hgr & Ec); [unfold myUnits_; lia|].
    destruct (UnitGroups.g_known _ _ _ Hgr u) as [o Ho]; [by rewrite <-Ec|].
    destruct (HG u o Ho) as (ut & _ & _ & Hmine & _). exists u, o. split_and!; try done; by apply Hmine.
  - intros u o Ho Ha Hmi Hc. destruct (HG u o Ho) as (ut & _ & _ & _ & Hin). apply (Hv2 u); auto.
Qed.
End state.

(** ** Examples *)

(** Two frames with a probe. *)
Definition example_input (n : Z) : input :=
  Input n [(0, [Report (UnitGroups.example_tcu 7 64 (Z.lor Powered Completed)) 1])] [] (replicate 8 0) (λ _, None).

Lemma example_input_sane n : sane_input (λ t, t <? 228) Tiles.example_map (example_input n).
Proof.
  split; [|by vm_compute].
  intros owner rs r [E|?%not_elem_of_nil]%elem_of_cons; [|done]. injection E as -> ->.
  intros ->%list_elem_of_singleton. split; cbn; [unfold in_int; lia|done|done|lia].
Qed.

Lemma play_consistent_witness :
  ∃ g, play (table := UnitGroups.example_types) (attributes := UnitGroups.example_attributes)
         (λ t, t <? 228) 0 (-1) Tiles.example_map [example_input 1; example_input 2] = Ok g ∧
    ∀ u o, units (unitsInfo_ g) !! u = Some o → is_Some (type (info o)).
Proof.
  destruct (play_consistent (table := UnitGroups.example_types) (attributes := UnitGroups.example_attributes)
    (λ t, t <? 228) 0 (-1) Tiles.example_map [example_input 1] (example_input 2)) as (g & E & H & _).
  - split; [exact Tiles.example_map_valid|]. cbn. lia.
  - intros ty. unfold TilesUpdate.small. cbn. lia.
  - repeat (apply Forall_cons_2; [apply example_input_sane|]). apply Forall_nil_2.
  - cbn. repeat constructor.
  - exists g. split; [exact E|]. intros u o Ho. destruct (H u o Ho) as (ty & Ht & _). exists ty. exact Ht.
Defined.
End StateUpdate.
