(* ===== verification/Upc.v ===== *)
(** * UPC tuples ([src/upc.h], [src/upc.cpp], [src/utils/upcs.h])

    The (unit, position, command) distributions modules exchange.  A hash map
    is the list of its entries in iteration order, so what is proved holds for
    every order the implementation may use. *)

From S2P Require Import Prelude Floats Geometry BuildTypes Units.

Module Command.
(** [src/src/basetypes.h:316-316] Command::None *)
Definition None : Z := 0.
(** [src/src/basetypes.h:317-317] Command::Create *)
Definition Create : Z := Z.shiftl 1 0.
(** [src/src/basetypes.h:318-318] Command::Move *)
Definition Move : Z := Z.shiftl 1 1.
(** [src/src/basetypes.h:319-319] Command::Delete *)
Definition Delete : Z := Z.shiftl 1 2.
(** [src/src/basetypes.h:320-320] Command::Gather *)
Definition Gather : Z := Z.shiftl 1 3.
(** [src/src/basetypes.h:321-321] Command::Scout *)
Definition Scout : Z := Z.shiftl 1 4.
(** [src/src/basetypes.h:322-322] Command::Cancel *)
Definition Cancel : Z := Z.shiftl 1 5.
(** [src/src/basetypes.h:323-323] Command::Harass *)
Definition Harass : Z := Z.shiftl 1 6.
(** [src/src/basetypes.h:324-324] Command::Flee *)
Definition Flee : Z := Z.shiftl 1 7.
(** [src/src/basetypes.h:325-325] Command::SetCreatePriority *)
Definition SetCreatePriority : Z := Z.shiftl 1 8.
(** [src/src/basetypes.h:326-326] Command::ReturnCargo *)
Definition ReturnCargo : Z := Z.shiftl 1 9.
(** [src/src/basetypes.h:327-327] Command::Cast *)
Definition Cast : Z := Z.shiftl 1 10.
(** [src/src/basetypes.h:328-328] Command::MAX *)
Definition MAX : Z := Z.shiftl 1 11.
End Command.

(** The portable branch of [numUpcCommands]: count the trailing zeros.

    [src/src/basetypes.h:338-344] numUpcCommands *)
Fixpoint trailing_zeros (fuel : nat) (n count : Z) : res Z :=
  if n mod 2 =? 0 then
    match fuel with
    | O => OutOfFuel
    | S fuel => trailing_zeros fuel (Z.shiftr n 1) (count + 1)
    end
  else Ok count.

(** [src/src/basetypes.h:332-346] numUpcCommands *)
Definition numUpcCommands : res Z := trailing_zeros 64 Command.MAX 0.

Module Upc.

(** [std::unordered_map<Unit*, float>] and its siblings. *)
Abbreviation UnitMap := (list (UnitPtr * float32)).
Abbreviation CommandMap := (list (Z * float32)).
Abbreviation BuildTypeMap := (list (option BuildType * float32)).

(** The members of an [Area] the code reads. *)
Record area := Area { area_id : Z; area_x : Z; area_y : Z; topLeft : Position; bottomRight : Position }.

(** A [torch::Tensor]: undefined, a matrix of [h] rows and [w] columns, or
    something else than two-dimensional. *)
Inductive tensor :=
| TUndefined
| TMatrix (h w : Z) (cells : list (list float32))
| TOther.

(** [src/src/upc.h:58-71] UPCTuple::PositionT *)
Inductive PositionT :=
| PEmpty
| PPosition (p : Position)
| PArea (a : area)
| PUnitMap (m : UnitMap)
| PTensor (t : tensor).

(** [src/src/upc.h:74-89] UPCTuple::StateT *)
Inductive StateT :=
| SEmpty
| SBuildTypeMap (m : BuildTypeMap)
| SString (s : string)
| SPosition (p : Position)
| SSetCreatePriority (id : Z) (prio : float32)
| STensor (t : tensor).

(** [src/src/upc.h:42-106] UPCTuple *)
Record t := UPCTuple {
  unit : UnitMap;
  position : PositionT;
  command : CommandMap;
  state : StateT;
  scale : Z
}.

(** [make_shared<UPCTuple>()] *)
Definition fresh : t := UPCTuple [] PEmpty [] SEmpty 1.

(** The loop shared by the two argmax functions.

    [src/src/upc.cpp:39-44] UPCTuple::positionUArgMax *)
Definition argmax_loop {K} (m : list (option K * float32)) : option K * float32 :=
  fold_left (λ '(k, maxP) el, if fltb maxP (snd el) then (fst el, snd el) else (k, maxP))
            m (None, f32_0).

(** [src/src/upc.cpp:34-47] UPCTuple::positionUArgMax *)
Definition positionUArgMax (u : t) : UnitPtr * float32 :=
  match position u with
  | PUnitMap m => argmax_loop m
  | _ => (None, f32_0)
  end.

(** [src/src/upc.cpp:172-185] UPCTuple::createTypeArgMax *)
Definition createTypeArgMax (u : t) : option BuildType * float32 :=
  match state u with
  | SBuildTypeMap m => argmax_loop m
  | _ => (None, f32_0)
  end.

(** [src/src/upc.cpp:101-107] UPCTuple::commandProb *)
Definition commandProb (u : t) (c : Z) : float32 :=
  match al_find c (command u) with Some p => p | None => f32_0 end.

(** [std::numeric_limits<float>::lowest()]

    [src/src/basetypes.h:30-30] kfLowest *)
Definition kfLowest : float32 := SpecFloat.S754_finite true (2 ^ 24 - 1) 104.

(** The cell [acc[y][x]] of a matrix. *)
Definition cell (m : list (list float32)) (y x : Z) : option float32 :=
  if (0 <=? y) && (0 <=? x) then m !! Z.to_nat y ≫= λ r, r !! Z.to_nat x else None.

(** [src/src/utils/algorithms.h:256-278] argmax *)
Definition argmax (t : tensor) (scale : Z) : res (Z * Z * float32) :=
  match t with
  | TMatrix h w m =>
      let? r := rfold (λ best y,
        rfold (λ '(xmax, ymax, mx) x,
          let? el := of_option (cell m y x) in
          if fltb mx el then Ok (x, y, el) else Ok (xmax, ymax, mx)) (range 0 w) best)
        (range 0 h) (0, 0, kfLowest) in
      let '(xmax, ymax, mx) := r in Ok (xmax * scale, ymax * scale, mx)
  | _ => Throw "Two-dimensional tensor expected"
  end.

Section with_units.
Context (units : gmap Z Unit).
(** [AreaInfo::tryGetArea], the identifier of the area at a position. *)
Context (tryGetArea : Position → option Z).

Definition deref (p : UnitPtr) : res Unit :=
  match p with Some i => of_option (units !! i) | None => Undefined end.

(** [src/src/upc.cpp:15-32] UPCTuple::positionArgMax *)
Definition positionArgMax (u : t) : res (Position * float32) :=
  match position u with
  | PEmpty => Ok (Vec2.Pos (-1) (-1), f32_0)
  | PPosition p => Ok (Vec2.scale p (scale u), f32_1)
  | PArea ar => Ok (Vec2.Pos (area_x ar) (area_y ar), f32_lit 1 2)
  | PUnitMap _ =>
      let amax := positionUArgMax u in
      let? unit := deref amax.1 in Ok (Unit.pos unit, amax.2)
  | PTensor t =>
      let? am := argmax t (scale u) in
      let '(x, y, v) := am in Ok (Vec2.Pos x y, v)
  end.

(** [src/src/upc.cpp:75-82] UPCTuple::positionProb *)
Fixpoint unitmap_prob (m : UnitMap) (x y : Z) : res float32 :=
  match m with
  | [] => Ok f32_0
  | (p, pr) :: m =>
      let? unit := deref p in
      if (Unit.x unit =? x) && (Unit.y unit =? y) then Ok pr else unitmap_prob m x y
  end.

(** [src/src/upc.cpp:49-99] UPCTuple::positionProb *)
Definition positionProb (u : t) (x y : Z) : res float32 :=
  match position u with
  | PEmpty => Ok (f32_lit 1 2)
  | PPosition p =>
      if scale u =? 1 then
        if (Vec2.x p =? x) && (Vec2.y p =? y) then Ok f32_1 else Ok f32_0
      else if scale u =? 0 then Undefined
      else
        if (Vec2.x p =? Z.quot x (scale u)) && (Vec2.y p =? Z.quot y (scale u))
        then Ok f32_1 else Ok f32_0
  | PArea ar =>
      if bool_decide (tryGetArea (Vec2.Pos x y) = Some (area_id ar))
      then Ok (f32_lit 1 2) else Ok f32_0
  | PUnitMap m => unitmap_prob m x y
  | PTensor (TMatrix h w m) =>
      if scale u =? 0 then Undefined else
      let sx := Z.quot x (scale u) in
      let sy := Z.quot y (scale u) in
      if (sx <? 0) || (sy <? 0) || (w <=? sx) || (h <=? sy) then Ok f32_0
      else of_option (cell m sy sx)
  | PTensor _ => Ok (f32_lit 1 2)
  end.

(** [row[dx] = v] through an unchecked accessor. *)
Definition set_cell (m : list (list float32)) (y x : Z) (v : float32) : res (list (list float32)) :=
  match cell m y x with
  | Some _ => Ok (alter (λ r, <[Z.to_nat x := v]> r) (Z.to_nat y) m)
  | None => Undefined
  end.

(** The map the tensor is filled for: its size and the sum ATen computes. *)
Context (mapHeight mapWidth : Z) (tensor_sum : list (list float32) → float32).
(** [AreaInfo::getArea(pos).id]; it throws outside of every area. *)
Context (getArea : Position → res Z).

Definition zeros : list (list float32) :=
  replicate (Z.to_nat mapHeight) (replicate (Z.to_nat mapWidth) f32_0).

(** The innermost loop of the tensor case, with its increment of [x].

    [src/src/upc.cpp:129-131] UPCTuple::positionTensor *)
Fixpoint tensor_dx (fuel : nat) (sc dy dx x : Z) (p : float32) (m : list (list float32))
  : res (Z * list (list float32)) :=
  if dx <? (x + 1) * sc then
    match fuel with
    | O => OutOfFuel
    | S fuel => let? m := set_cell m dy dx p in tensor_dx fuel sc dy dx (x + 1) p m
    end
  else Ok (x, m).

(** [src/src/upc.cpp:127-132] UPCTuple::positionTensor *)
Fixpoint tensor_dy (fuel : nat) (sc dy x y : Z) (p : float32) (m : list (list float32))
  : res (Z * Z * list (list float32)) :=
  if dy <? (y + 1) * sc then
    match fuel with
    | O => OutOfFuel
    | S fuel =>
        let? r := tensor_dx fuel sc dy (x * sc) x p m in
        let '(x, m) := r in tensor_dy fuel sc dy x (y + 1) p m
    end
  else Ok (x, y, m).

(** [src/src/upc.cpp:118-134] UPCTuple::positionTensor *)
Fixpoint tensor_loop (fuel : nat) (sc h w : Z) (pacc : list (list float32)) (y x : Z)
    (m : list (list float32)) : res (list (list float32)) :=
  match fuel with
  | O => OutOfFuel
  | S fuel =>
    if y <? h then
      if x <? w then
        let? p := of_option (cell pacc y x) in
        if fleb p f32_0 then tensor_loop fuel sc h w pacc y (x + 1) m
        else
          let p := SpecFloat.SFdiv 24 128 p (f32_of_Z (sc * sc)) in
          let? r := tensor_dy fuel sc (y * sc) x y p m in
          let '(x, y, m) := r in tensor_loop fuel sc h w pacc y (x + 1) m
      else tensor_loop fuel sc h w pacc (y + 1) 0 m
    else Ok m
  end.

(** [src/src/upc.cpp:109-170] UPCTuple::positionTensor *)
Definition positionTensor (fuel : nat) (u : t) : res (list (list float32)) :=
  match position u with
  | PTensor (TMatrix h w pacc) => tensor_loop fuel (scale u) h w pacc 0 0 zeros
  | PTensor _ => Throw "expected a tensor with 2 dims"
  | PUnitMap map =>
      rfold (λ m pr, let? unit := deref pr.1 in set_cell m (Unit.y unit) (Unit.x unit) pr.2) map zeros
  | PPosition pos =>
      let sc := scale u in
      let v := SpecFloat.SFdiv 24 128 f32_1 (f32_of_Z (sc * sc)) in
      rfold (λ m dy,
        rfold (λ m dx, set_cell m dy dx v) (range (Vec2.x pos * sc) ((Vec2.x pos + 1) * sc)) m)
        (range (Vec2.y pos * sc) ((Vec2.y pos + 1) * sc)) zeros
  | PArea ar =>
      let? m := rfold (λ m y,
        rfold (λ m x,
          let? id := getArea (Vec2.Pos x y) in
          if id =? area_id ar then set_cell m y x f32_1 else Ok m)
          (range (Vec2.x (topLeft ar)) (Vec2.x (bottomRight ar))) m)
        (range (Vec2.y (topLeft ar)) (Vec2.y (bottomRight ar))) zeros in
      let k := SpecFloat.SFdiv 24 128 f32_1 (tensor_sum m) in
      Ok (map (map (SpecFloat.SFmul 24 128 k)) m)
  | PEmpty =>
      let v := SpecFloat.SFdiv 24 128 f32_1 (f32_of_Z (mapWidth * mapHeight)) in
      Ok (map (map (λ _, v)) zeros)
  end.

End with_units.

(** [src/src/upc.cpp:190-192] UPCTuple::uniformCommand *)
Fixpoint uniform_loop (fuel : nat) (i : Z) (v : float32) (command : CommandMap) : res CommandMap :=
  if i <? Command.MAX then
    match fuel with
    | O => OutOfFuel
    | S fuel => uniform_loop fuel (Z.shiftl i 1) v (al_set i v command)
    end
  else Ok command.

(** [src/src/upc.cpp:187-194] UPCTuple::uniformCommand *)
Definition uniformCommand : res CommandMap :=
  let? n := numUpcCommands in
  uniform_loop 64 1 (SpecFloat.SFdiv 24 128 f32_1 (f32_of_Z n)) [].

(** ** Sharp tuples *)

(** [src/src/utils/upcs.h:17-22] makeSharpUPC *)
Definition makeSharpUPC (u : UnitPtr) (c : Z) : t :=
  UPCTuple [(u, f32_1)] PEmpty [(c, f32_1)] SEmpty 1.
(** [src/src/utils/upcs.h:23-29] makeSharpUPC *)
Definition makeSharpUPC_pos (u : UnitPtr) (p : Position) (c : Z) : t :=
  UPCTuple [(u, f32_1)] (PPosition p) [(c, f32_1)] SEmpty 1.
(** [src/src/utils/upcs.h:30-36] makeSharpUPC *)
Definition makeSharpUPC_target (u p : UnitPtr) (c : Z) : t :=
  UPCTuple [(u, f32_1)] (PUnitMap [(p, f32_1)]) [(c, f32_1)] SEmpty 1.
(** [src/src/utils/upcs.h:37-44] makeSharpUPC *)
Definition makeSharpUPC_pos_type (u : UnitPtr) (p : Position) (c : Z) (ct : option BuildType) : t :=
  UPCTuple [(u, f32_1)] (PPosition p) [(c, f32_1)] (SBuildTypeMap [(ct, f32_1)]) 1.
(** [src/src/utils/upcs.h:45-52] makeSharpUPC *)
Definition makeSharpUPC_target_type (u p : UnitPtr) (c : Z) (ct : option BuildType) : t :=
  UPCTuple [(u, f32_1)] (PUnitMap [(p, f32_1)]) [(c, f32_1)] (SBuildTypeMap [(ct, f32_1)]) 1.
(** [src/src/utils/upcs.h:53-58] makeSharpUPC *)
Definition makeSharpUPC_from (other : t) (u : UnitPtr) (c : Z) : t :=
  UPCTuple (al_set u f32_1 (unit other)) (position other) (al_set c f32_1 (command other))
           (state other) (scale other).

(** ** The most likely entry *)

Lemma argmax_loop_gen {K} (m : list (option K * float32)) k0 p0 :
  isnan p0 = false →
  let '(k, p) := fold_left (λ '(k, maxP) el, if fltb maxP (snd el) then (fst el, snd el) else (k, maxP))
                           m (k0, p0) in
  isnan p = false ∧ fleb p0 p = true ∧
  ((k, p) ∈ m ∧ fltb p0 p = true ∨ (k, p) = (k0, p0)) ∧
  ∀ k' p', (k', p') ∈ m → isnan p' = false → fleb p' p = true.
Proof.
  revert k0 p0. induction m as [|[k1 p1] m IH]; intros k0 p0 H0; simpl.
  - split_and!; auto using fleb_refl. set_solver.
  - destruct (fltb p0 p1) eqn:E.
    + destruct (fltb_not_nan _ _ E) as [_ H1]. specialize (IH k1 p1 H1).
      destruct (fold_left _ m (k1, p1)) as [k p]. destruct IH as (Hn & Hle & Hin & Hall).
      split_and!; [done|by eapply fleb_trans; [apply fltb_fleb|]| |].
      * left. destruct Hin as [[Hin Hlt]|[= -> ->]]; [|set_solver].
        split; [set_solver|by eapply fltb_trans].
      * intros k' p' [[= -> ->]|Hin']%elem_of_cons ?; [done|by eapply Hall].
    + specialize (IH k0 p0 H0). destruct (fold_left _ m (k0, p0)) as [k p].
      destruct IH as (Hn & Hle & Hin & Hall). split_and!; [done|done| |].
      * destruct Hin as [[Hin ?]|]; [left; set_solver|by right].
      * intros k' p' [[= -> ->]|Hin']%elem_of_cons Hp; [|by eapply Hall].
        apply fltb_false_fleb in E; [|done..]. by eapply fleb_trans.
Qed.

(** The argmax functions return an entry of maximal probability: the
    reported probability bounds every entry, and when it is positive it is
    that of the reported key (otherwise the key is null). *)
Theorem argmax_loop_spec {K} (m : list (option K * float32)) :
  let '(k, p) := argmax_loop m in
  (∀ k' p', (k', p') ∈ m → isnan p' = false → fleb p' p = true) ∧
  ((k, p) ∈ m ∧ fltb f32_0 p = true ∨ (k = None ∧ p = f32_0 ∧
     ∀ k' p', (k', p') ∈ m → fltb f32_0 p' = false)).
Proof.
  unfold argmax_loop. pose proof (argmax_loop_gen m None f32_0 eq_refl) as H.
  destruct (fold_left _ m _) as [k p]. destruct H as (Hn & _ & Hin & Hall).
  split; [done|]. destruct Hin as [?|[= -> ->]]; [by left|]. right. split_and!; [done..|].
  intros k' p' Hin. destruct (fltb f32_0 p') eqn:E; [|done].
  destruct (fltb_not_nan _ _ E) as [_ Hp]. specialize (Hall _ _ Hin Hp).
  apply fltb_asym in E. congruence.
Qed.

(** A uniform command distribution has exactly the eleven commands, each
    with the probability [1/11]. *)
Theorem uniformCommand_spec :
  numUpcCommands = Ok 11 ∧
  ∃ m, uniformCommand = Ok m ∧ m.*1 = map (Z.shiftl 1) (seqZ 0 11) ∧
       Forall (λ p, p = f32_lit 1 11) m.*2.
Proof.
  split; [reflexivity|]. eexists. split; [vm_compute; reflexivity|]. split; [reflexivity|].
  repeat constructor.
Qed.

(** ** Position tensors *)

Lemma set_cell_spec m y x v : is_Some (cell m y x) →
  ∃ m', set_cell m y x v = Ok m' ∧
    ∀ y' x', cell m' y' x' = if decide (y' = y ∧ x' = x) then Some v else cell m y' x'.
Proof.
  intros [old Hc]. unfold set_cell. rewrite Hc. eexists. split; [done|].
  intros y' x'. destruct (decide (y' = y ∧ x' = x)) as [[-> ->]|Hne]; revert Hc; unfold cell.
  - destruct (Z.leb_spec 0 y), (Z.leb_spec 0 x); simpl; try done.
    rewrite list_lookup_alter_eq. destruct (m !! Z.to_nat y) as [r|]; simpl; [|done].
    intros Hc%lookup_lt_Some. by apply list_lookup_insert_eq.
  - destruct (Z.leb_spec 0 y), (Z.leb_spec 0 x); simpl; try done. intros Hc.
    destruct (Z.leb_spec 0 y'), (Z.leb_spec 0 x'); simpl; try done.
    destruct (decide (y' = y)) as [->|Hy].
    + rewrite list_lookup_alter_eq. destruct (m !! Z.to_nat y) as [r|]; simpl; [|done].
      apply list_lookup_insert_ne. lia.
    + rewrite list_lookup_alter_ne by lia. done.
Qed.

Lemma fill_row m y xs v : (∀ x, x ∈ xs → is_Some (cell m y x)) →
  ∃ m', rfold (λ m dx, set_cell m y dx v) xs m = Ok m' ∧
    ∀ y' x', cell m' y' x' = if decide (y' = y ∧ x' ∈ xs) then Some v else cell m y' x'.
Proof.
  revert m. induction xs as [|x xs IH]; intros m Hm; cbn [rfold].
  - eexists. split; [done|]. intros. rewrite decide_False; [done|set_solver].
  - destruct (set_cell_spec m y x v) as (m1 & -> & H1); [apply Hm; set_solver|]. cbn [rbind].
    destruct (IH m1) as (m2 & -> & H2).
    { intros x' Hx'. rewrite H1. case_decide; [done|]. apply Hm. set_solver. }
    eexists. split; [done|]. intros y' x'. rewrite H2, H1.
    repeat case_decide; try done; set_solver.
Qed.

Lemma fill_block m ys xs v : (∀ y x, y ∈ ys → x ∈ xs → is_Some (cell m y x)) →
  ∃ m', rfold (λ m dy, rfold (λ m dx, set_cell m dy dx v) xs m) ys m = Ok m' ∧
    ∀ y' x', cell m' y' x' = if decide (y' ∈ ys ∧ x' ∈ xs) then Some v else cell m y' x'.
Proof.
  revert m. induction ys as [|y ys IH]; intros m Hm; cbn [rfold].
  - eexists. split; [done|]. intros. rewrite decide_False; [done|set_solver].
  - destruct (fill_row m y xs v) as (m1 & -> & H1); [intros; apply Hm; set_solver|]. cbn [rbind].
    destruct (IH m1) as (m2 & -> & H2).
    { intros y' x' Hy' Hx'. rewrite H1. case_decide; [done|]. apply Hm; set_solver. }
    eexists. split; [done|]. intros y' x'. rewrite H2, H1.
    repeat case_decide; try done; set_solver.
Qed.

Lemma cell_zeros h w y x : cell (zeros h w) y x =
  if decide (0 ≤ y < h ∧ 0 ≤ x < w) then Some f32_0 else None.
Proof.
  unfold cell, zeros. destruct (decide (0 ≤ y < h ∧ 0 ≤ x < w)) as [Hd|Hd].
  - destruct (Z.leb_spec 0 y), (Z.leb_spec 0 x); simpl; try lia.
    rewrite lookup_replicate_2 by lia. apply lookup_replicate_2. lia.
  - destruct (Z.leb_spec 0 y), (Z.leb_spec 0 x); simpl; try done.
    destruct (replicate _ _ !! Z.to_nat y) as [r|] eqn:E; [|done]. simpl.
    apply lookup_replicate in E as [-> ?].
    apply lookup_ge_None_2. rewrite length_replicate. lia.
Qed.

(** The tensor of a single position spreads the probability evenly over the
    [scale x scale] block the position stands for and is zero elsewhere. *)
Theorem positionTensor_position units h w tsum getArea fuel u p :
  position u = PPosition p → 0 < scale u →
  0 ≤ Vec2.x p → (Vec2.x p + 1) * scale u ≤ w →
  0 ≤ Vec2.y p → (Vec2.y p + 1) * scale u ≤ h →
  ∃ m, positionTensor units h w tsum getArea fuel u = Ok m ∧
    ∀ y x, 0 ≤ y < h → 0 ≤ x < w →
      cell m y x = Some (if decide (y / scale u = Vec2.y p ∧ x / scale u = Vec2.x p)
                         then SpecFloat.SFdiv 24 128 f32_1 (f32_of_Z (scale u * scale u))
                         else f32_0).
Proof.
  intros Hp Hsc Hx1 Hx2 Hy1 Hy2. unfold positionTensor. rewrite Hp.
  set (v := SpecFloat.SFdiv _ _ _ _). set (sc := scale u) in *.
  destruct (fill_block (zeros h w) (range (Vec2.y p * sc) ((Vec2.y p + 1) * sc))
              (range (Vec2.x p * sc) ((Vec2.x p + 1) * sc)) v) as (m & -> & Hm).
  { intros y x Hy Hx. apply elem_of_range in Hy, Hx. rewrite cell_zeros.
    rewrite decide_True; [done|]. nia. }
  eexists. split; [done|]. intros y x Hy Hx. rewrite Hm, cell_zeros.
  rewrite (decide_True (P := 0 ≤ y < h ∧ 0 ≤ x < w)) by done.
  assert (∀ a b, 0 ≤ a → (a ∈ range (b * sc) ((b + 1) * sc) ↔ a / sc = b)) as Hr.
  { intros a b Ha. rewrite elem_of_range. split.
    - intros. symmetry. apply (Z.div_unique a sc b (a - b * sc)); lia.
    - intros <-. pose proof (Z.div_mod a sc). pose proof (Z.mod_pos_bound a sc). lia. }
  destruct (decide (y / sc = Vec2.y p ∧ x / sc = Vec2.x p)) as [[E1 E2]|E].
  - rewrite decide_True; [done|]. by rewrite !Hr by lia.
  - rewrite decide_False; [done|]. by rewrite !Hr by lia.
Qed.

Lemma tensor_dx_diverges fuel sc dy dx x p m r :
  0 < sc → dx < (x + 1) * sc → tensor_dx fuel sc dy dx x p m ≠ Ok r.
Proof.
  revert x m. induction fuel as [|fuel IH]; intros x m Hsc Hd; simpl;
    replace (dx <? (x + 1) * sc) with true by lia; [done|].
  destruct (set_cell m dy dx p); simpl; try done. apply IH; [done|nia].
Qed.

Lemma tensor_dy_diverges fuel sc x y p m r :
  0 < sc → tensor_dy fuel sc (y * sc) x y p m ≠ Ok r.
Proof.
  intros Hsc. destruct fuel as [|fuel]; simpl;
    replace (y * sc <? (y + 1) * sc) with true by lia; [done|].
  destruct (tensor_dx fuel sc (y * sc) (x * sc) x p m) eqn:E; simpl; try done.
  exfalso. eapply tensor_dx_diverges; [| |exact E]; lia.
Qed.

(** The tensor case of [positionTensor] never returns a tensor when some
    probability is positive: its inner loops advance the outer counters
    instead of their own, so their conditions stay true for ever. *)
Theorem positionTensor_tensor_diverges units h w tsum getArea fuel u th tw pacc y0 x0 p0 :
  position u = PTensor (TMatrix th tw pacc) → 0 < scale u →
  0 ≤ y0 < th → 0 ≤ x0 < tw → cell pacc y0 x0 = Some p0 → fleb p0 f32_0 = false →
  ∀ m, positionTensor units h w tsum getArea fuel u ≠ Ok m.
Proof.
  intros Hp Hsc Hy Hx Hc Hpos. unfold positionTensor. rewrite Hp.
  generalize (zeros h w) as m0.
  assert (∀ y x, y < y0 ∨ y = y0 ∧ x ≤ x0 →
    ∀ m0 m, tensor_loop fuel (scale u) th tw pacc y x m0 ≠ Ok m) as Hmain.
  { induction fuel as [|fuel IH]; intros y x Hle m0 m; simpl; [done|].
    replace (y <? th) with true by lia. destruct (Z.ltb_spec x tw).
    - destruct (cell pacc y x) as [p|] eqn:E; simpl; [|done].
      destruct (fleb p f32_0) eqn:Ep.
      + apply IH. destruct Hle as [?|[-> Hle]]; [by left|]. right. split; [done|].
        destruct (decide (x = x0)) as [->|]; [congruence|lia].
      + destruct (tensor_dy _ _ _ _ _ _ _) eqn:Ed; simpl; try done.
        exfalso. by eapply tensor_dy_diverges.
    - apply IH. lia. }
  intros m0. apply Hmain. lia.
Qed.

Lemma positionTensor_position_witness :
  ∃ m, positionTensor ∅ 4 4 (λ _, f32_1) (λ _, Undefined) 0
         (UPCTuple [] (PPosition (Vec2.Pos 1 0)) [] SEmpty 2) = Ok m ∧
    ∀ y x, 0 ≤ y < 4 → 0 ≤ x < 4 →
      cell m y x = Some (if decide (y / 2 = 0 ∧ x / 2 = 1) then f32_lit 1 4 else f32_0).
Proof.
  apply (positionTensor_position ∅ 4 4 (λ _, f32_1) (λ _, Undefined) 0
           (UPCTuple [] (PPosition (Vec2.Pos 1 0)) [] SEmpty 2) (Vec2.Pos 1 0)); simpl; try lia; reflexivity.
Defined.

Lemma positionTensor_tensor_diverges_witness :
  ∀ fuel m, positionTensor ∅ 4 4 (λ _, f32_1) (λ _, Undefined) fuel
    (UPCTuple [] (PTensor (TMatrix 1 1 [[f32_1]])) [] SEmpty 4) ≠ Ok m.
Proof.
  intros fuel. apply (positionTensor_tensor_diverges ∅ 4 4 (λ _, f32_1) (λ _, Undefined) fuel
    (UPCTuple [] (PTensor (TMatrix 1 1 [[f32_1]])) [] SEmpty 4) 1 1 [[f32_1]] 0 0 f32_1);
    simpl; try lia; reflexivity.
Defined.

(** Sharp tuples are sharp: the command has probability one, any other zero. *)
Lemma makeSharpUPC_commandProb u c c' :
  commandProb (makeSharpUPC u c) c' = if decide (c' = c) then f32_1 else f32_0.
Proof. unfold commandProb, makeSharpUPC; simpl. by case_decide. Qed.

Lemma makeSharpUPC_from_commandProb o u c : commandProb (makeSharpUPC_from o u c) c = f32_1.
Proof. unfold commandProb; simpl. by rewrite al_find_set, decide_True. Qed.

End Upc.
