(* ===== verification/UpcStorage.v ===== *)
(** * The graph of posted UPCs ([src/upcstorage.h], [src/upcstorage.cpp])

    [posts_] is the vector of all posts; the identifier of a post is its index
    plus one.  Identifiers are unbounded here: a vector of 2^31 posts does not
    fit in memory, so the cast to [int] in [addUpc] never wraps.

    The chain of sources is followed by loops that the code runs to the root.
    They terminate because a source is always posted before the UPCs it spawns
    ([wf]); without that they do not ([sourceIds_self_source_diverges]). *)

From S2P Require Import Prelude Floats Units Upc.

Module UpcPost.
(** [UpcPostData] is an opaque class: its objects are identifiers.

    [src/src/upcstorage.h:33-62] UpcPost *)
Record t := UpcPost {
  frame : Z;
  upcId : Z;
  sourceId : Z;
  module : ModulePtr;
  upc : option Upc.t;
  data : option Z
}.
End UpcPost.

Module UpcStorage.

(** [src/src/upcstorage.h:72-120] UpcStorage *)
Record t := UpcStorage { posts_ : list UpcPost.t; persistent_ : bool }.

(** [src/src/upcstorage.cpp:12-12] UpcStorage::UpcStorage *)
Definition make : t := UpcStorage [] true.

(** [src/src/upcstorage.cpp:16-18] UpcStorage::setPersistent *)
Definition setPersistent (st : t) (persistent : bool) : t := UpcStorage (posts_ st) persistent.

Definition size (st : t) : Z := Z.of_nat (length (posts_ st)).

(** [src/src/upcstorage.cpp:20-34] UpcStorage::addUpc *)
Definition addUpc (st : t) (frame sourceId : Z) (source : ModulePtr)
    (upc : option Upc.t) (data : option Z) : t * Z :=
  let id := size st + 1 in
  let p := if persistent_ st
           then UpcPost.UpcPost frame id sourceId source upc data
           else UpcPost.UpcPost frame id sourceId source None None in
  (UpcStorage (posts_ st ++ [p]) (persistent_ st), id).

(** [src/src/upcstorage.cpp:64-69] UpcStorage::post *)
Definition post (st : t) (id : Z) : option UpcPost.t :=
  if (0 <? id) && (id <=? size st) then posts_ st !! Z.to_nat (id - 1) else None.

(** [src/src/upcstorage.cpp:36-41] UpcStorage::sourceId *)
Definition sourceId (st : t) (id : Z) : Z :=
  if (0 <? id) && (id <=? size st) then
    match posts_ st !! Z.to_nat (id - 1) with
    | Some p => UpcPost.sourceId p
    | None => kInvalidUpcId
    end
  else kInvalidUpcId.

(** [src/src/upcstorage.cpp:57-62] UpcStorage::upc *)
Definition upc (st : t) (id : Z) : option Upc.t :=
  if (0 <? id) && (id <=? size st) then posts_ st !! Z.to_nat (id - 1) ≫= UpcPost.upc else None.

(** [src/src/upcstorage.cpp:46-53] UpcStorage::sourceIds *)
Fixpoint sourceIds_loop (fuel : nat) (st : t) (id : Z) (upTo : ModulePtr) (curId : Z)
    (sources : list Z) : res (list Z) :=
  if (0 <? curId) && (curId <=? size st) then
    match fuel with
    | O => OutOfFuel
    | S fuel =>
        let? p := of_option (posts_ st !! Z.to_nat (curId - 1)) in
        if negb (curId =? id) && bool_decide (upTo ≠ None) && bool_decide (UpcPost.module p = upTo)
        then Ok sources
        else sourceIds_loop fuel st id upTo (UpcPost.sourceId p) (sources ++ [UpcPost.sourceId p])
    end
  else Ok sources.

(** [src/src/upcstorage.cpp:43-55] UpcStorage::sourceIds *)
Definition sourceIds (fuel : nat) (st : t) (id : Z) (upTo : ModulePtr) : res (list Z) :=
  sourceIds_loop fuel st id upTo id [].

(** [src/src/upcstorage.cpp:71-81] UpcStorage::upcPostsFrom *)
Definition upcPostsFrom (st : t) (module : ModulePtr) (frame : Z) : list UpcPost.t :=
  fold_left (λ result p,
    if bool_decide (UpcPost.module p = module) && ((frame <? 0) || (UpcPost.frame p =? frame))
    then result ++ [p] else result) (posts_ st) [].

(** ** Invariant *)

(** Identifiers are positions, and a source precedes what it spawned. *)
Definition wf (st : t) : Prop :=
  ∀ i p, posts_ st !! i = Some p →
    UpcPost.upcId p = Z.of_nat i + 1 ∧ UpcPost.sourceId p < UpcPost.upcId p.

Lemma no_posts_wf : wf make.
Proof. intros i p H. by destruct i. Qed.

Lemma setPersistent_wf st b : wf st → wf (setPersistent st b).
Proof. auto. Qed.

Lemma addUpc_wf st f s m u d : wf st → s ≤ size st → wf (addUpc st f s m u d).1.
Proof.
  intros Hwf Hs i p. unfold addUpc. simpl. intros [H|[Hl H]]%lookup_app_Some; [by apply Hwf|].
  apply list_lookup_singleton_Some in H as [Hi <-]. unfold size in *.
  destruct (persistent_ st); simpl; lia.
Qed.

Lemma size_addUpc st f s m u d : size (addUpc st f s m u d).1 = size st + 1.
Proof. unfold size, addUpc. simpl. rewrite length_app. simpl. lia. Qed.

Lemma post_valid st id : 0 < id ≤ size st → ∃ p, posts_ st !! Z.to_nat (id - 1) = Some p.
Proof. intros. apply lookup_lt_is_Some_2. unfold size in *. lia. Qed.

Lemma sourceId_lt st id : wf st → 0 ≤ id → sourceId st id < id.
Proof.
  intros Hwf Hid. unfold sourceId. destruct ((0 <? id) && _) eqn:E; [|unfold kInvalidUpcId; lia].
  destruct (post_valid st id) as [p Hp]; [lia|]. rewrite Hp.
  destruct (Hwf _ _ Hp). lia.
Qed.

Lemma sourceId_addUpc st f s m u d id : id ≤ size st →
  sourceId (addUpc st f s m u d).1 id = sourceId st id.
Proof.
  intros Hid. unfold sourceId. rewrite size_addUpc. simpl.
  destruct (Z.ltb_spec 0 id); simpl; [|done].
  replace (id <=? size st) with true by lia. replace (id <=? size st + 1) with true by lia.
  rewrite lookup_app_l; [done|]. unfold size in *. lia.
Qed.

Lemma addUpc_lookup_source st f s m u d :
  let '(st', id) := addUpc st f s m u d in sourceId st' id = s.
Proof.
  unfold addUpc, sourceId. unfold size. simpl. rewrite length_app, Nat2Z.inj_add. simpl.
  change (Z.of_nat 1) with 1. set (n := length (posts_ st)).
  replace (0 <? Z.of_nat n + 1) with true by blia.
  replace (Z.of_nat n + 1 <=? Z.of_nat n + 1) with true by blia. simpl.
  replace (Z.to_nat (Z.of_nat n + 1 - 1)) with n by lia. unfold n. rewrite snoc_lookup.
  by destruct (persistent_ st).
Qed.

(** Posting then looking up: the new identifier is fresh and the storage
    answers for it with what was posted (the tuple and data only when
    persistent), while every older identifier answers as before. *)
Theorem addUpc_lookup st f s m u d :
  let '(st', id) := addUpc st f s m u d in
  post st id = None ∧ sourceId st' id = s ∧
  upc st' id = (if persistent_ st then u else None) ∧
  post st' id = Some (UpcPost.UpcPost f id s m (if persistent_ st then u else None)
                        (if persistent_ st then d else None)) ∧
  ∀ old, old ≠ id → post st' old = post st old ∧ upc st' old = upc st old.
Proof.
  assert (size st = Z.of_nat (length (posts_ st))) as Hsz by done.
  unfold addUpc, post, sourceId, upc. unfold size in *. simpl.
  rewrite !length_app, !Nat2Z.inj_add. simpl. change (Z.of_nat 1) with 1.
  set (n := length (posts_ st)) in *.
  replace (Z.of_nat n + 1 <=? Z.of_nat n) with false by lia.
  replace (0 <? Z.of_nat n + 1) with true by lia.
  replace (Z.of_nat n + 1 <=? Z.of_nat n + 1) with true by lia. simpl.
  replace (Z.to_nat (Z.of_nat n + 1 - 1)) with n by lia. subst n. rewrite snoc_lookup. simpl.
  remember (length (posts_ st)) as n eqn:Hn.
  split_and!; try (by destruct (persistent_ st)).
  intros old Hold. destruct (Z.ltb_spec 0 old); simpl; [|done].
  destruct (Z.leb_spec old (Z.of_nat n)).
  - replace (old <=? Z.of_nat n + 1) with true by lia.
    rewrite lookup_app_l by lia. done.
  - replace (old <=? Z.of_nat n + 1) with false by lia. done.
Qed.

(** ** Chains of sources *)

(** The chain of sources of [id] up to module [upTo], as the header documents
    it: [id]'s source, the source of that one, and so on. *)
Inductive chain (st : t) (id : Z) (upTo : ModulePtr) : Z → list Z → Prop :=
| chain_root cur : ¬ (0 < cur ≤ size st) → chain st id upTo cur []
| chain_stop cur p : posts_ st !! Z.to_nat (cur - 1) = Some p → 0 < cur ≤ size st →
    cur ≠ id → upTo ≠ None → UpcPost.module p = upTo → chain st id upTo cur []
| chain_step cur p l : posts_ st !! Z.to_nat (cur - 1) = Some p → 0 < cur ≤ size st →
    ¬ (cur ≠ id ∧ upTo ≠ None ∧ UpcPost.module p = upTo) →
    chain st id upTo (UpcPost.sourceId p) l →
    chain st id upTo cur (UpcPost.sourceId p :: l).

Lemma sourceIds_loop_chain st id upTo fuel cur acc : wf st → cur < Z.of_nat fuel →
  ∃ l, sourceIds_loop fuel st id upTo cur acc = Ok (acc ++ l) ∧ chain st id upTo cur l.
Proof.
  intros Hwf. revert cur acc. induction fuel as [|fuel IH]; intros cur acc Hf; simpl.
  { replace (0 <? cur) with false by lia. exists []. rewrite app_nil_r.
    split; [done|]. constructor. lia. }
  destruct ((0 <? cur) && (cur <=? size st)) eqn:E.
  2:{ exists []. rewrite app_nil_r. split; [done|]. constructor. lia. }
  destruct (post_valid st cur) as [p Hp]; [lia|]. rewrite Hp. simpl.
  destruct (Hwf _ _ Hp) as [Hid Hlt].
  destruct (negb (cur =? id) && _ && _) eqn:Es.
  - exists []. rewrite app_nil_r. split; [done|].
    apply andb_prop in Es as [[E1 E2%bool_decide_eq_true]%andb_prop E3%bool_decide_eq_true].
    eapply chain_stop; eauto; lia.
  - destruct (IH (UpcPost.sourceId p) (acc ++ [UpcPost.sourceId p])) as (l & -> & Hl); [lia|].
    exists (UpcPost.sourceId p :: l). rewrite <-app_assoc. split; [done|].
    eapply chain_step; eauto; [lia|]. intros (H1 & H2 & H3).
    rewrite !bool_decide_true in Es by done. lia.
Qed.

Lemma chain_sorted st id upTo cur l : wf st → chain st id upTo cur l →
  StronglySorted Z.gt (cur :: l).
Proof.
  intros Hwf. induction 1 as [| |cur p l Hp Hc _ _ IH]; [repeat constructor..|].
  destruct (Hwf _ _ Hp). inversion IH as [|? ? H1 H2]; subst.
  constructor; [done|]. constructor; [lia|]. eapply Forall_impl; [done|]. simpl. lia.
Qed.

(** On a storage in which sources precede what they spawn, [sourceIds]
    returns (one unit of fuel per post is enough) the chain of sources, whose
    identifiers decrease strictly: no identifier is visited twice. *)
Theorem sourceIds_terminates st id upTo fuel : wf st → size st < Z.of_nat fuel →
  ∃ l, sourceIds fuel st id upTo = Ok l ∧ chain st id upTo id l ∧
       StronglySorted Z.gt (id :: l).
Proof.
  intros Hwf Hf. unfold sourceIds. destruct (decide (id ≤ size st)) as [Hid|Hid].
  - destruct (sourceIds_loop_chain st id upTo fuel id []) as (l & -> & Hl); [done|lia|].
    eauto using chain_sorted.
  - exists []. split_and!; [|apply chain_root; lia|repeat constructor].
    destruct fuel; simpl; by replace (id <=? size st) with false by lia; rewrite andb_false_r.
Qed.

Lemma sourceIds_terminates_witness :
  let st := (addUpc (addUpc make 0 kRootUpcId (Some 7) None None).1 1 1 (Some 8) None None).1 in
  sourceIds 3 st 2 None = Ok [1; 0] ∧
  ∃ l, sourceIds 3 st 2 None = Ok l ∧ chain st 2 None 2 l ∧ StronglySorted Z.gt (2 :: l).
Proof.
  split; [reflexivity|]. apply (sourceIds_terminates _ 2 None 3); [|done].
  apply addUpc_wf; [apply addUpc_wf; [apply no_posts_wf|done]|done].
Defined.

(** Nothing in [addUpc] checks the source: a UPC posted with its own
    identifier as its source makes [sourceIds] run for ever. *)
Theorem sourceIds_self_source_diverges st f m u d fuel :
  let '(st', id) := addUpc st f (size st + 1) m u d in
  sourceIds fuel st' id None = OutOfFuel.
Proof.
  pose proof (size_addUpc st f (size st + 1) m u d) as Hsz. revert Hsz.
  unfold addUpc, sourceIds. set (p := if persistent_ st then _ else _). simpl.
  set (st' := UpcStorage _ _). intros Hsz.
  assert (UpcPost.sourceId p = size st + 1) as Hs by (unfold p; by destruct (persistent_ st)).
  assert (0 ≤ size st) by (unfold size; lia).
  generalize (@nil Z) as acc. induction fuel as [|fuel IH]; intros acc; simpl; rewrite Hsz;
    replace (0 <? size st + 1) with true by blia;
    replace (size st + 1 <=? size st + 1) with true by blia; simpl; [done|].
  replace (Z.to_nat (size st + 1 - 1)) with (length (posts_ st)) by (unfold size; lia).
  rewrite snoc_lookup. simpl. rewrite Hs, andb_false_r. simpl. apply IH.
Qed.

(** Posts are reported in order, each exactly when its module and frame match. *)
Lemma upcPostsFrom_filter st m f :
  upcPostsFrom st m f =
  filter (λ p, UpcPost.module p = m ∧ (f < 0 ∨ UpcPost.frame p = f)) (posts_ st).
Proof.
  unfold upcPostsFrom.
  rewrite (fold_push_filter (λ p, UpcPost.module p = m ∧ (f < 0 ∨ UpcPost.frame p = f)) _ id).
  - by rewrite map_id.
  - intros p _. rewrite andb_true_iff, orb_true_iff, bool_decide_eq_true, Z.ltb_lt, Z.eqb_eq. done.
Qed.

End UpcStorage.

#[export] Hint Resolve UpcStorage.no_posts_wf UpcStorage.addUpc_wf UpcStorage.setPersistent_wf : cpp.
