(* ===== verification/UpcFilter.v ===== *)
(** * UPC filters ([src/upcfilter.h], [src/upcfilter.cpp])

    A filter takes the tuple about to be posted and returns whether it may be
    posted, together with the tuple as the filter left it. *)

From S2P Require Import Prelude Floats Geometry BuildTypes Units Upc.

(** ** Assigned units *)

Module AssignedUnitsFilter.
Section filter.
(** [board->taskDataWithUnit]: the task (null when there is none) and its owner. *)
Context (taskDataWithUnit : UnitPtr → res (option Z * ModulePtr)).

(** [src/src/upcfilter.cpp:27-40] AssignedUnitsFilter::filter *)
Definition filter_loop (origin : ModulePtr) (entries unit : Upc.UnitMap) : res Upc.UnitMap :=
  rfold (λ unit it,
    if fleb it.2 f32_0 then Ok unit
    else
      let? td := taskDataWithUnit it.1 in
      if bool_decide (td.1 = None) || bool_decide (td.2 = origin) then Ok unit
      else Ok (al_set it.1 f32_0 unit)) entries unit.

(** [src/src/upcfilter.cpp:17-44] AssignedUnitsFilter::filter *)
Definition filter (u : Upc.t) (origin : ModulePtr) : res (bool * Upc.t) :=
  if feqb (Upc.commandProb u Command.Gather) f32_1 then
    let? unit := filter_loop origin (Upc.unit u) (Upc.unit u) in
    Ok (true, Upc.UPCTuple unit (Upc.position u) (Upc.command u) (Upc.state u) (Upc.scale u))
  else Ok (true, u).

(** Whether the loop zeroes the entry of a unit. *)
Definition assigned_elsewhere (origin : ModulePtr) (it : UnitPtr * float32) : Prop :=
  fleb it.2 f32_0 = false ∧
  ∃ task owner, taskDataWithUnit it.1 = Ok (Some task, owner) ∧ owner ≠ origin.

Lemma filter_loop_find origin entries unit unit' : al_wf entries →
  filter_loop origin entries unit = Ok unit' →
  ∀ k, al_find k unit' = al_find k unit ∧
         (∀ p, al_find k entries = Some p → ¬ assigned_elsewhere origin (k, p)) ∨
       al_find k unit' = Some f32_0 ∧
         ∃ p, al_find k entries = Some p ∧ assigned_elsewhere origin (k, p).
Proof.
  revert unit. unfold filter_loop, al_wf.
  induction entries as [|[k0 p0] l IH]; intros unit; simpl; intros Hnd H k.
  - inv_res. left. done.
  - apply NoDup_cons in Hnd as [Hni Hnd].
    apply rbind_Ok_inv in H as (unit1 & Hb & Hl). specialize (IH _ Hnd Hl k).
    assert (al_find k0 l = None) as Hk0 by by apply al_find_None.
    destruct (decide (k = k0)) as [->|Hne].
    + destruct IH as [[IH _]|(_ & p & Hp & _)]; [|congruence]. rewrite IH.
      destruct (fleb p0 f32_0) eqn:Ep.
      { inv_res. left. split; [done|]. intros p [= <-] [? _]. simpl in *. congruence. }
      apply rbind_Ok_inv in Hb as ([tk ow] & Ht & Hb). simpl in *.
      destruct tk as [tk|]; simpl in Hb.
      2:{ inv_res. left. split; [done|]. intros p [= <-] (_ & ? & ? & ? & _). simpl in *. congruence. }
      destruct (decide (ow = origin)) as [->|Hown].
      * rewrite bool_decide_true in Hb by done. simpl in Hb. inv_res. left. split; [done|].
        intros p [= <-] (_ & ? & ? & ? & ?). simpl in *. congruence.
      * rewrite bool_decide_false in Hb by done. simpl in Hb. inv_res. right.
        rewrite al_find_set, decide_True by done. split; [done|].
        exists p0. split; [done|]. split; [done|]. eauto.
    + assert (al_find k unit1 = al_find k unit) as Hk.
      { destruct (fleb p0 f32_0); [by inv_res|].
        apply rbind_Ok_inv in Hb as ([tk ow] & Ht & Hb). simpl in *.
        destruct (bool_decide _ || _); inv_res; [done|].
        by rewrite al_find_set, decide_False. }
      rewrite Hk in IH. done.
Qed.

(** A gather UPC keeps the probability of every unit except of those with a
    positive probability that another module's task holds: these get zero.
    Nothing but the unit distribution changes, and the UPC is never rejected. *)
Theorem filter_gather u origin ok u' : al_wf (Upc.unit u) →
  filter u origin = Ok (ok, u') →
  ok = true ∧ Upc.position u' = Upc.position u ∧ Upc.command u' = Upc.command u ∧
  Upc.state u' = Upc.state u ∧
  ∀ k p, al_find k (Upc.unit u) = Some p →
    (feqb (Upc.commandProb u Command.Gather) f32_1 = true ∧ assigned_elsewhere origin (k, p) →
       al_find k (Upc.unit u') = Some f32_0) ∧
    (feqb (Upc.commandProb u Command.Gather) f32_1 = false ∨ ¬ assigned_elsewhere origin (k, p) →
       al_find k (Upc.unit u') = Some p).
Proof.
  intros Hwf. unfold filter. destruct (feqb _ _) eqn:E; intros H; inv_res;
    simpl; split_and!; try done.
  - intros k p Hk. destruct (filter_loop_find origin _ _ _ Hwf H0 k)
      as [[-> Hn]|(-> & p' & Hp' & Ha)]; split.
    + intros [_ Ha]. destruct (Hn p); done.
    + done.
    + done.
    + assert (p' = p) as -> by congruence. intros [?|?]; done.
  - intros k p Hk. split; [|done]. by intros [? _].
Qed.
End filter.

(** Unit 1 belongs to module 9's task, unit 2 to no task. *)
Definition example_board (u : UnitPtr) : res (option Z * ModulePtr) :=
  if bool_decide (u = Some 1) then Ok (Some 4, Some 9) else Ok (None, None).
Definition example_upc : Upc.t :=
  Upc.UPCTuple [(Some 1, f32_1); (Some 2, f32_1)] Upc.PEmpty [(Command.Gather, f32_1)] Upc.SEmpty 1.

Lemma filter_gather_witness :
  ∃ u', filter example_board example_upc (Some 3) = Ok (true, u') ∧
    al_find (Some 1) (Upc.unit u') = Some f32_0 ∧ al_find (Some 2) (Upc.unit u') = Some f32_1.
Proof.
  eexists. split; [vm_compute; reflexivity|].
  set (u' := Upc.UPCTuple _ _ _ _ _).
  assert (filter example_board example_upc (Some 3) = Ok (true, u')) as H by (vm_compute; reflexivity).
  assert (al_wf (Upc.unit example_upc)) as Hwf by (apply (bool_decide_unpack _); vm_compute; exact I).
  destruct (filter_gather example_board example_upc (Some 3) true u' Hwf H) as (_ & _ & _ & _ & Hk).
  split.
  - apply (Hk (Some 1) f32_1 eq_refl). split; [reflexivity|]. split; [reflexivity|].
    exists 4, (Some 9). split; [reflexivity|discriminate].
  - apply (Hk (Some 2) f32_1 eq_refl). right. intros (_ & t & o & H2 & _). discriminate H2.
Defined.
End AssignedUnitsFilter.

(** ** Sanity *)

Module SanityFilter.

(** [src/src/upcfilter.cpp:47-63] fixProba *)
Fixpoint fixProba {K} (map : list (K * float32)) : bool * list (K * float32) :=
  match map with
  | [] => (true, [])
  | (k, p) :: rest =>
      if fltb p f32_0 || fltb f32_1 p then
        let '(ok, rest) := fixProba rest in
        (ok, (k, fmax f32_0 (fmin f32_1 p)) :: rest)
      else if isnan p then (false, (k, p) :: rest)
      else let '(ok, rest) := fixProba rest in (ok, (k, p) :: rest)
  end.

(** [if (map.count(nullptr) != 0) map.erase(nullptr)]

    [src/src/upcfilter.cpp:70-73] SanityFilter::filter *)
Definition remove_null {K} `{EqDecision K} (map : list (option K * float32)) : list (option K * float32) :=
  match al_find None map with
  | Some _ => al_erase None map
  | None => map
  end.

(** [src/src/upcfilter.cpp:75-84] SanityFilter::filter *)
Definition fix_position (p : Upc.PositionT) : Upc.PositionT :=
  match p with
  | Upc.PUnitMap m =>
      match al_find None m with
      | Some _ => match al_erase None m with [] => Upc.PEmpty | m => Upc.PUnitMap m end
      | None => Upc.PUnitMap m
      end
  | p => p
  end.

(** [src/src/upcfilter.cpp:86-95] SanityFilter::filter *)
Definition fix_state (s : Upc.StateT) : Upc.StateT :=
  match s with
  | Upc.SBuildTypeMap m =>
      match al_find None m with
      | Some _ => match al_erase None m with [] => Upc.SEmpty | m => Upc.SBuildTypeMap m end
      | None => Upc.SBuildTypeMap m
      end
  | s => s
  end.

(** [src/src/upcfilter.cpp:66-124] SanityFilter::filter *)
Definition filter (u : Upc.t) : bool * Upc.t :=
  let unit := remove_null (Upc.unit u) in
  let position := fix_position (Upc.position u) in
  let state := fix_state (Upc.state u) in
  let '(v1, unit) := fixProba unit in
  let '(v2, position) :=
    match position with
    | Upc.PUnitMap m => let '(v, m) := fixProba m in (v, Upc.PUnitMap m)
    | p => (true, p)
    end in
  let '(v3, command) := fixProba (Upc.command u) in
  let '(v4, state) :=
    match state with
    | Upc.SBuildTypeMap m => let '(v, m) := fixProba m in (v, Upc.SBuildTypeMap m)
    | s => (true, s)
    end in
  (v1 && v2 && v3 && v4, Upc.UPCTuple unit position command state (Upc.scale u)).

(** *** What is promised *)

Definition is_prob (p : float32) : Prop := fleb f32_0 p = true ∧ fleb p f32_1 = true.
Definition probs {K} (m : list (K * float32)) : Prop := Forall (λ e, is_prob e.2) m.
Definition no_null {K} (m : list (option K * float32)) : Prop := Forall (λ e, e.1 ≠ None) m.

Definition sane_position (p : Upc.PositionT) : Prop :=
  match p with Upc.PUnitMap m => probs m ∧ no_null m | _ => True end.
Definition sane_state (s : Upc.StateT) : Prop :=
  match s with Upc.SBuildTypeMap m => probs m ∧ no_null m | _ => True end.

(** A tuple a consumer can use without further checks. *)
Definition sane (u : Upc.t) : Prop :=
  probs (Upc.unit u) ∧ no_null (Upc.unit u) ∧ sane_position (Upc.position u) ∧
  probs (Upc.command u) ∧ sane_state (Upc.state u).

Definition no_nan {K} (m : list (K * float32)) : Prop := Forall (λ e, isnan e.2 = false) m.
(** The entries that survive the removal of null have no NaN. *)
Definition nonnull_no_nan {K} (m : list (option K * float32)) : Prop :=
  Forall (λ e, e.1 ≠ None → isnan e.2 = false) m.

Lemma is_prob_tests p : is_prob p → (fltb p f32_0 || fltb f32_1 p) = false ∧ isnan p = false.
Proof.
  intros [H0 H1]. destruct (fleb_not_nan _ _ H0) as [_ Hn]. split; [|done].
  apply orb_false_iff. split; apply not_true_iff_false; intros E%fltb_asym; congruence.
Qed.

Lemma fixProba_fst {K} (m : list (K * float32)) : (fixProba m).2.*1 = m.*1.
Proof.
  induction m as [|[k p] m IH]; [done|]. cbn [fixProba].
  destruct (fixProba m) as [ok r]. csimpl in *.
  repeat case_match; csimpl; congruence.
Qed.

Lemma fixProba_ok_iff {K} (m : list (K * float32)) : (fixProba m).1 = true ↔ no_nan m.
Proof.
  unfold no_nan. induction m as [|[k p] m IH]; [simpl; split; auto|]. rewrite Forall_cons. simpl.
  destruct (fixProba m) as [ok r]. simpl in *.
  destruct (fltb p f32_0 || fltb f32_1 p) eqn:E; simpl.
  - rewrite IH. assert (isnan p = false); [|naive_solver].
    apply orb_true_iff in E as [E|E]; by destruct (fltb_not_nan _ _ E).
  - destruct (isnan p); simpl; naive_solver.
Qed.

Lemma fixProba_sound {K} (m : list (K * float32)) : (fixProba m).1 = true → probs (fixProba m).2.
Proof.
  unfold probs. induction m as [|[k p] m IH]; [simpl; auto|]. simpl.
  destruct (fixProba m) as [ok r]. simpl in *.
  destruct (fltb p f32_0 || fltb f32_1 p) eqn:E; simpl; [|destruct (isnan p) eqn:En; simpl; [done|]].
  - intros. constructor; [|auto]. apply clamp01.
    apply orb_true_iff in E as [E|E]; by destruct (fltb_not_nan _ _ E).
  - intros. constructor; [|auto]. apply orb_false_iff in E as [E1 E2]. simpl.
    split; apply fltb_false_fleb; done.
Qed.

Lemma fixProba_id {K} (m : list (K * float32)) : probs m → fixProba m = (true, m).
Proof.
  unfold probs. induction m as [|[k p] m IH]; [done|]. rewrite Forall_cons. intros [Hp Hm]. simpl.
  rewrite (IH Hm). apply is_prob_tests in Hp as [E1 E2]. simpl in E1, E2. by rewrite E1, E2.
Qed.

Lemma al_erase_null {K} `{EqDecision K} (m : list (option K * float32)) : no_null (al_erase None m).
Proof. apply Forall_forall. intros [k p] [? _]%list_elem_of_filter. done. Qed.

Lemma find_null_None {K} `{EqDecision K} (m : list (option K * float32)) :
  al_find None m = None → no_null m.
Proof.
  intros H%al_find_None. apply Forall_forall. intros [k p] Hin Hk. simpl in Hk. subst k. apply H.
  apply list_elem_of_fmap. by exists (None, p).
Qed.

Lemma no_null_find {K} `{EqDecision K} (m : list (option K * float32)) :
  no_null m → al_find None m = None.
Proof.
  intros H. apply al_find_None. intros ([k p] & E & Hin)%list_elem_of_fmap. simpl in E.
  unfold no_null in H. rewrite Forall_forall in H. by apply (H _ Hin).
Qed.

Lemma no_null_fst {K} (m m' : list (option K * float32)) : m'.*1 = m.*1 → no_null m → no_null m'.
Proof.
  unfold no_null. rewrite !Forall_forall. intros Hf H [k p] Hin.
  assert (k ∈ m.*1) as ([k0 p0] & -> & Hin')%list_elem_of_fmap.
  { rewrite <-Hf. apply list_elem_of_fmap. by exists (k, p). }
  by apply (H _ Hin').
Qed.

Lemma remove_null_no_null {K} `{EqDecision K} (m : list (option K * float32)) : no_null (remove_null m).
Proof.
  unfold remove_null. destruct (al_find None m) eqn:E; [apply al_erase_null|by apply find_null_None].
Qed.

Lemma remove_null_id {K} `{EqDecision K} (m : list (option K * float32)) :
  no_null m → remove_null m = m.
Proof. intros H. unfold remove_null. by rewrite no_null_find. Qed.

Lemma remove_null_nan {K} `{EqDecision K} (m : list (option K * float32)) :
  no_nan (remove_null m) ↔ nonnull_no_nan m.
Proof.
  unfold no_nan, nonnull_no_nan, remove_null. rewrite !Forall_forall.
  destruct (al_find None m) eqn:E.
  - split; intros H [k p] Hin; [intros Hk|]; simpl in *.
    + apply (H (k, p)). apply list_elem_of_filter. done.
    + apply list_elem_of_filter in Hin as [? ?]. by apply (H (k, p)).
  - apply find_null_None in E. unfold no_null in E. rewrite Forall_forall in E. naive_solver.
Qed.

Lemma fix_position_eq p : fix_position p =
  match p with
  | Upc.PUnitMap m => if decide (remove_null m = [] ∧ m ≠ []) then Upc.PEmpty else Upc.PUnitMap (remove_null m)
  | p => p
  end.
Proof.
  destruct p as [| | |m|]; try done. simpl. unfold remove_null. destruct (al_find None m) eqn:E.
  - destruct m as [|a m]; [done|]. destruct (al_erase None (a :: m)); case_decide; naive_solver.
  - case_decide; [naive_solver|done].
Qed.

Lemma fix_state_eq s : fix_state s =
  match s with
  | Upc.SBuildTypeMap m => if decide (remove_null m = [] ∧ m ≠ []) then Upc.SEmpty else Upc.SBuildTypeMap (remove_null m)
  | s => s
  end.
Proof.
  destruct s as [|m| | | |]; try done. simpl. unfold remove_null. destruct (al_find None m) eqn:E.
  - destruct m as [|a m]; [done|]. destruct (al_erase None (a :: m)); case_decide; naive_solver.
  - case_decide; [naive_solver|done].
Qed.

(** The null-free, clamped map of each component, as one step. *)
Lemma clean_map {K} `{EqDecision K} (m : list (option K * float32)) ok m' :
  fixProba (remove_null m) = (ok, m') →
  (ok = true ↔ nonnull_no_nan m) ∧ (ok = true → probs m' ∧ no_null m').
Proof.
  intros H. pose proof (fixProba_ok_iff (remove_null m)) as Hok.
  pose proof (fixProba_sound (remove_null m)) as Hs. pose proof (fixProba_fst (remove_null m)) as Hf.
  rewrite H in *. simpl in *. rewrite Hok, remove_null_nan. split; [done|].
  intros E. split; [apply Hs, Hok, remove_null_nan, E|].
  eapply no_null_fst; [exact Hf|]. apply remove_null_no_null.
Qed.

(** No probability the filter looks at is NaN. *)
Definition clean (u : Upc.t) : Prop :=
  nonnull_no_nan (Upc.unit u) ∧
  (∀ m, Upc.position u = Upc.PUnitMap m → nonnull_no_nan m) ∧
  no_nan (Upc.command u) ∧
  (∀ m, Upc.state u = Upc.SBuildTypeMap m → nonnull_no_nan m).

Lemma nil_nonnull {K} `{EqDecision K} (m : list (option K * float32)) :
  remove_null m = [] → nonnull_no_nan m.
Proof. intros H. apply remove_null_nan. rewrite H. constructor. Qed.

Lemma filter_accepts_sane_aux u :
  ((filter u).1 = true ↔ clean u) ∧ ((filter u).1 = true → sane (filter u).2).
Proof.
  unfold filter, clean, sane. rewrite fix_position_eq, fix_state_eq.
  destruct (fixProba (remove_null (Upc.unit u))) as [v1 m1] eqn:E1.
  destruct (clean_map _ _ _ E1) as [Hv1 Hs1].
  set (P := match Upc.position u with Upc.PUnitMap m => _ | _ => _ end).
  destruct (match P with Upc.PUnitMap m => _ | _ => _ end) as [v2 p2] eqn:E2.
  assert ((v2 = true ↔ ∀ m, Upc.position u = Upc.PUnitMap m → nonnull_no_nan m) ∧
          (v2 = true → sane_position p2)) as [Hv2 Hs2].
  { unfold P in E2. destruct (Upc.position u) as [| | |m|]; try (injection E2 as <- <-; naive_solver).
    destruct (decide (remove_null m = [] ∧ m ≠ [])) as [[Hn _]|Hn].
    - injection E2 as <- <-. split; [|done]. split; [|done]. intros _ m0 [= <-]. by apply nil_nonnull.
    - destruct (fixProba (remove_null m)) as [v m'] eqn:E. injection E2 as <- <-.
      destruct (clean_map _ _ _ E) as [-> Hs]. naive_solver. }
  destruct (fixProba (Upc.command u)) as [v3 m3] eqn:E3.
  pose proof (fixProba_ok_iff (Upc.command u)) as Hv3. pose proof (fixProba_sound (Upc.command u)) as Hs3.
  rewrite E3 in Hv3, Hs3. simpl in Hv3, Hs3.
  set (S := match Upc.state u with Upc.SBuildTypeMap m => _ | _ => _ end).
  destruct (match S with Upc.SBuildTypeMap m => _ | _ => _ end) as [v4 s4] eqn:E4.
  assert ((v4 = true ↔ ∀ m, Upc.state u = Upc.SBuildTypeMap m → nonnull_no_nan m) ∧
          (v4 = true → sane_state s4)) as [Hv4 Hs4].
  { unfold S in E4. destruct (Upc.state u) as [|m| | | |]; try (injection E4 as <- <-; naive_solver).
    destruct (decide (remove_null m = [] ∧ m ≠ [])) as [[Hn _]|Hn].
    - injection E4 as <- <-. split; [|done]. split; [|done]. intros _ m0 [= <-]. by apply nil_nonnull.
    - destruct (fixProba (remove_null m)) as [v m'] eqn:E. injection E4 as <- <-.
      destruct (clean_map _ _ _ E) as [-> Hs]. naive_solver. }
  simpl. rewrite !andb_true_iff, Hv1, Hv2, Hv3, Hv4. split; [tauto|]. naive_solver.
Qed.

(** The sanity filter accepts a tuple exactly when no probability of a
    non-null key is NaN, and what it accepts is sane: no null keys and every
    probability in [[0,1]]. *)
Theorem filter_accepts_sane u :
  ((filter u).1 = true ↔ clean u) ∧ ((filter u).1 = true → sane (filter u).2).
Proof. apply filter_accepts_sane_aux. Qed.

(** *** What the filter makes of a tuple it accepts *)

(** A probability stays; a number below or above the range becomes its end. *)
Definition clamped (p p' : float32) : Prop :=
  (is_prob p → p' = p) ∧ (fltb p f32_0 = true → p' = f32_0) ∧ (fltb f32_1 p = true → p' = f32_1).
Definition all_clamped {K} (m m' : list (K * float32)) : Prop :=
  Forall2 (λ e e', e'.1 = e.1 ∧ clamped e.2 e'.2) m m'.
Definition nonnull {K} (m : list (option K * float32)) : list (option K * float32) := base.filter (λ e, e.1 ≠ None) m.

(** Entries for null go, probabilities are clamped, and a position or a state
    that was about null only becomes empty; nothing else changes. *)
Record cleaned (u u' : Upc.t) : Prop := {
  cl_unit : all_clamped (nonnull (Upc.unit u)) (Upc.unit u');
  cl_command : all_clamped (Upc.command u) (Upc.command u');
  cl_scale : Upc.scale u' = Upc.scale u;
  cl_position : match Upc.position u with
    | Upc.PUnitMap m => if decide (nonnull m = [] ∧ m ≠ []) then Upc.position u' = Upc.PEmpty
                        else ∃ m', Upc.position u' = Upc.PUnitMap m' ∧ all_clamped (nonnull m) m'
    | p => Upc.position u' = p
    end;
  cl_state : match Upc.state u with
    | Upc.SBuildTypeMap m => if decide (nonnull m = [] ∧ m ≠ []) then Upc.state u' = Upc.SEmpty
                             else ∃ m', Upc.state u' = Upc.SBuildTypeMap m' ∧ all_clamped (nonnull m) m'
    | s => Upc.state u' = s
    end
}.

Lemma clamp_clamped p : (fltb p f32_0 || fltb f32_1 p) = true → clamped p (fmax f32_0 (fmin f32_1 p)).
Proof.
  intros H. assert (fltb f32_0 f32_1 = true) as H01 by done. unfold clamped, fmax, fmin. destruct (fltb p f32_0) eqn:E0.
  - rewrite (fltb_trans _ _ _ E0 H01). assert (fltb f32_0 p = false) as ->.
    { apply not_true_iff_false. intros E%fltb_asym. apply fltb_fleb in E0. congruence. }
    split_and!; [intros [Hp _]; apply fltb_asym in E0; congruence|done|]. intros E1.
    pose proof (fltb_trans _ _ _ (fltb_trans _ _ _ H01 E1) E0) as E. by rewrite fltb_irrefl in E.
  - simpl in H. assert (fltb p f32_1 = false) as ->.
    { apply not_true_iff_false. intros E%fltb_asym. apply fltb_fleb in H. congruence. }
    split_and!; [intros [_ Hp]; apply fltb_asym in H; congruence|done|done].
Qed.

Lemma fixProba_clamped {K} (m : list (K * float32)) : (fixProba m).1 = true → all_clamped m (fixProba m).2.
Proof.
  unfold all_clamped. induction m as [|[k p] m IH]; cbn [fixProba]; [constructor|].
  destruct (fixProba m) as [ok r]. cbn [fst snd] in *. destruct (fltb p f32_0 || fltb f32_1 p) eqn:E.
  - intros H. constructor; [split; [done|by apply clamp_clamped]|by apply IH].
  - destruct (isnan p); [done|]. intros H. constructor; [split; [done|]|by apply IH].
    apply orb_false_iff in E as [E0 E1]. unfold clamped. cbn [fst snd]. split; [done|]. by rewrite E0, E1.
Qed.

Lemma remove_null_nonnull {K} `{EqDecision K} (m : list (option K * float32)) : remove_null m = nonnull m.
Proof.
  unfold remove_null. destruct (al_find None m) eqn:Ef.
  - unfold al_erase, nonnull. apply list_filter_iff. intros [k p]. done.
  - apply find_null_None in Ef. unfold nonnull. induction Ef as [|e m He Hm IH]; [done|].
    rewrite filter_cons, decide_True by done. by rewrite <-IH.
Qed.

Lemma filter_cleaned u : (filter u).1 = true → cleaned u (filter u).2.
Proof.
  unfold filter. rewrite fix_position_eq, fix_state_eq, remove_null_nonnull.
  pose proof (fixProba_clamped (nonnull (Upc.unit u))) as H1. pose proof (fixProba_clamped (Upc.command u)) as H3.
  destruct (fixProba (nonnull (Upc.unit u))) as [v1 m1]. destruct (fixProba (Upc.command u)) as [v3 m3].
  cbn [fst snd] in H1, H3.
  set (P := match Upc.position u with Upc.PUnitMap m => _ | _ => _ end).
  destruct (match P with Upc.PUnitMap m => _ | _ => _ end) as [v2 p2] eqn:E2.
  set (S := match Upc.state u with Upc.SBuildTypeMap m => _ | _ => _ end).
  destruct (match S with Upc.SBuildTypeMap m => _ | _ => _ end) as [v4 s4] eqn:E4.
  cbn [fst snd]. rewrite !andb_true_iff. intros [[[-> ->] ->] ->]. split; cbn; [auto..| |].
  - unfold P in E2. destruct (Upc.position u) as [| | |m|]; try by injection E2 as <-.
    rewrite remove_null_nonnull in E2. case_decide; [by injection E2 as <-|].
    pose proof (fixProba_clamped (nonnull m)) as Hm. destruct (fixProba (nonnull m)) as [v m']. injection E2 as -> <-. eauto.
  - unfold S in E4. destruct (Upc.state u) as [|m| | | |]; try by injection E4 as <-.
    rewrite remove_null_nonnull in E4. case_decide; [by injection E4 as <-|].
    pose proof (fixProba_clamped (nonnull m)) as Hm. destruct (fixProba (nonnull m)) as [v m']. injection E4 as -> <-. eauto.
Qed.

(** Sane tuples are fixed points. *)
Lemma filter_sane_id u : sane u → filter u = (true, u).
Proof.
  intros (H1 & H2 & H3 & H4 & H5). unfold filter. rewrite fix_position_eq, fix_state_eq.
  rewrite (remove_null_id _ H2), (fixProba_id _ H1), (fixProba_id _ H4).
  destruct u as [un po co st sc]. simpl in *.
  destruct po as [| | |m|]; destruct st as [|m'| | | |]; simpl in *; try done;
    repeat match goal with H : _ ∧ _ |- _ => destruct H end;
    repeat (rewrite remove_null_id by done);
    repeat (rewrite decide_False by naive_solver); by repeat (rewrite fixProba_id by done).
Qed.

(** The filter is idempotent: filtering an accepted tuple again accepts it
    and leaves it as it is. *)
Theorem filter_idempotent u u' : filter u = (true, u') → filter u' = (true, u').
Proof.
  intros H. apply filter_sane_id. destruct (filter_accepts_sane_aux u) as [_ Hs].
  rewrite H in Hs. by apply Hs.
Qed.

Lemma filter_idempotent_witness :
  let u := Upc.UPCTuple [(Some 1, f32_lit 3 2); (None, f32_1)] Upc.PEmpty [(Command.Move, f32_1)] Upc.SEmpty 1 in
  ∃ u', filter u = (true, u') ∧ u' ≠ u ∧ filter u' = (true, u').
Proof.
  eexists. split; [vm_compute; reflexivity|]. split; [discriminate|].
  apply (filter_idempotent
    (Upc.UPCTuple [(Some 1, f32_lit 3 2); (None, f32_1)] Upc.PEmpty [(Command.Move, f32_1)] Upc.SEmpty 1)).
  vm_compute. reflexivity.
Defined.

End SanityFilter.
