(* ===== verification/Tasks.v ===== *)
(** * Tasks ([src/task.h], [src/task.cpp])

    Tasks are shared objects: the blackboard, the proxies and the modules hold
    pointers to them.  They live in a heap from references to objects, so that
    a proxy sees the status its target has now.

    [update] and [cancel] are virtual.  The classes of [task.cpp] are modelled
    here, and so is every class that overrides [cancel]: [class_of] tells them
    apart.  The [update] of a module's own class is a parameter of the
    blackboard.

    The blackboard, and what else a task's [cancel] reaches, is used through
    the operations tasks call, stated as the class [TaskBoard]. *)

From S2P Require Import Prelude Units.

(** [src/src/task.h:23-33] TaskStatus *)
Inductive TaskStatus := Unknown | Ongoing | Success | Cancelled | Failure.

#[global] Instance TaskStatus_eq_dec : EqDecision TaskStatus.
Proof. solve_decision. Defined.

(** [src/src/task.h:148-155] ProxyPolicy *)
Inductive ProxyPolicy := ANY | MOST | ALL.

Module Task.

(** A [std::shared_ptr<Task>] that is not null. *)
Abbreviation ref := Z (only parsing).

(** The class of the object and the members the class adds.

    [src/src/task.h:129-196] ProxyTask *)
Inductive kind :=
| KTask (data : Z)
| KProxy (targetUpcId : Z) (target : option ref)
| KMulti (targetUpcIds : list Z) (targets : list (option ref)) (proxied : gset Z)
         (policy : list (TaskStatus * ProxyPolicy)) (defaultTargetStatus : TaskStatus).

(** [src/src/task.h:50-121] Task *)
Record t := Task { status : TaskStatus; upcId : Z; units : gset Z; cls : kind }.

Abbreviation heap := (gmap Z t).

(** [src/src/task.h:52-53] Task::Task *)
Definition make (upcId : Z) (units : gset Z) (data : Z) : t := Task Unknown upcId units (KTask data).

(** [src/src/task.cpp:49-50] ProxyTask::ProxyTask *)
Definition ProxyTask (targetUpcId upcId : Z) : t := Task Unknown upcId ∅ (KProxy targetUpcId None).

(** [src/src/task.cpp:93-101] MultiProxyTask::MultiProxyTask *)
Definition MultiProxyTask (targetUpcIds : list Z) (upcId : Z) : t :=
  Task Unknown upcId ∅
    (KMulti targetUpcIds (replicate (length targetUpcIds) None) ∅
       [(Unknown, ALL); (Ongoing, ANY); (Failure, ANY); (Cancelled, ALL); (Success, ALL)] Unknown).

(** [src/src/task.h:80-82] Task::setStatus *)
Definition setStatus (s : TaskStatus) (t : t) : Task.t := Task s (upcId t) (units t) (cls t).
(** [src/src/task.h:84-87] Task::finished *)
Definition finished (t : t) : bool :=
  bool_decide (status t = Success) || bool_decide (status t = Failure) ||
  bool_decide (status t = Cancelled).
Definition set_cls (k : kind) (t : t) : Task.t := Task (status t) (upcId t) (units t) k.
Definition set_units (us : gset Z) (t : t) : Task.t := Task (status t) (upcId t) us (cls t).

(** [src/src/task.cpp:23-34] Task::removeUnit *)
Definition removeUnit (u : Z) (t : t) : Task.t :=
  if decide (u ∈ units t) then set_units (units t ∖ {[u]}) t else t.

(** [src/src/task.cpp:103-105] MultiProxyTask::setPolicyForStatus *)
Definition setPolicyForStatus (s : TaskStatus) (p : ProxyPolicy) (t : t) : Task.t :=
  match cls t with
  | KMulti ids ts pu pol d => set_cls (KMulti ids ts pu (al_set s p pol) d) t
  | _ => t
  end.

(** The objects a task forwards to. *)
Definition targets_of (t : t) : list ref :=
  match cls t with
  | KTask _ => []
  | KProxy _ o => option_list o
  | KMulti _ ts _ _ _ => omap id ts
  end.

(** ** Policies *)

(** [getStatus] of [matchStatus].

    [src/src/task.cpp:175-180] MultiProxyTask::matchStatus *)
Definition getStatus (h : heap) (dflt : TaskStatus) (o : option ref) : res TaskStatus :=
  match o with
  | None => Ok dflt
  | Some r => let? t := of_option (h !! r) in Ok (status t)
  end.

(** [src/src/task.cpp:182-188] MultiProxyTask::matchStatus *)
Fixpoint match_any (h : heap) (dflt s : TaskStatus) (ts : list (option ref)) : res bool :=
  match ts with
  | [] => Ok false
  | o :: ts =>
      let? s' := getStatus h dflt o in
      if decide (s' = s) then Ok true else match_any h dflt s ts
  end.

(** [src/src/task.cpp:197-203] MultiProxyTask::matchStatus *)
Fixpoint match_all (h : heap) (dflt s : TaskStatus) (ts : list (option ref)) : res bool :=
  match ts with
  | [] => Ok true
  | o :: ts =>
      let? s' := getStatus h dflt o in
      if decide (s' = s) then match_all h dflt s ts else Ok false
  end.

(** [src/src/task.cpp:190-195] MultiProxyTask::matchStatus *)
Fixpoint match_count (h : heap) (dflt s : TaskStatus) (ts : list (option ref)) (n : Z) : res Z :=
  match ts with
  | [] => Ok n
  | o :: ts =>
      let? s' := getStatus h dflt o in
      match_count h dflt s ts (if decide (s' = s) then n + 1 else n)
  end.

(** [policy_[status]] value-initialises a missing policy.

    [src/src/task.cpp:173-207] MultiProxyTask::matchStatus *)
Definition matchStatus (h : heap) (ts : list (option ref)) (policy : list (TaskStatus * ProxyPolicy))
    (dflt s : TaskStatus) : res bool :=
  match default ANY (al_find s policy) with
  | ANY => match_any h dflt s ts
  | MOST =>
      let? n := match_count h dflt s ts 0 in
      Ok (Z.quot (Z.of_nat (length ts)) 2 <? n)
  | ALL => match_all h dflt s ts
  end.

(** [src/src/task.cpp:122-134] MultiProxyTask::update *)
Fixpoint first_match (h : heap) (ts : list (option ref)) policy (dflt : TaskStatus)
    (candidates : list TaskStatus) : res TaskStatus :=
  match candidates with
  | [] => Ok Unknown
  | s :: rest =>
      let? m := matchStatus h ts policy dflt s in
      if (m : bool) then Ok s else first_match h ts policy dflt rest
  end.

(** ** The board as tasks see it *)

(** [board_release] stands for what an override of [cancel] gives up outside
    the board and the tasks: the units of the controller, the reserved tiles. *)
Class TaskBoard (B : Type) := {
  board_taskForId : B → Z → res (option ref);
  board_removeUPCs : B → list Z → B;
  board_updateTasksByUnit : B → heap → ref → res B;
  board_release : B → ref → t → B;
  board_taskForId_removeUPCs b ids id :
    board_taskForId (board_removeUPCs b ids) id = board_taskForId b id;
  board_updateTasksByUnit_ok b h r : is_Some (h !! r) → ∃ b', board_updateTasksByUnit b h r = Ok b'
}.

(** The classes derived from [Task] itself, by the [cancel] they have: the one
    they inherit, that of a task with a controller, or that of [TacticsTask]. *)
Inductive tclass := CTask | CControllerTask | CSharedControllerTask | CTacticsTask.

#[global] Instance tclass_eq_dec : EqDecision tclass.
Proof. solve_decision. Defined.

(** The private data of an object tells its class. *)
Class Classes := class_of : Z → tclass.

(** [proxiedUnits]: virtual, a proxy asks its target.

    [src/src/task.cpp:83-91] ProxyTask::proxiedUnits *)
Fixpoint proxiedUnits (fuel : nat) (h : heap) (r : ref) : res (gset Z) :=
  match fuel with
  | O => OutOfFuel
  | S fuel =>
      let? t := of_option (h !! r) in
      match cls t with
      | KTask _ => Ok (units t)
      | KProxy _ (Some r') => proxiedUnits fuel h r'
      | KProxy _ None => Ok (units t)
      | KMulti _ _ proxied _ _ => Ok proxied
      end
  end.

Section with_board.
Context {B : Type} `{TaskBoard B}.

(** [src/src/task.cpp:52-69] ProxyTask::update *)
Definition proxy_update (b : B) (h : heap) (r : ref) (t : t) (targetUpcId : Z) (target : option ref)
    : res heap :=
  let? target :=
    match target with
    | Some r' => Ok (Some r')
    | None => board_taskForId b targetUpcId
    end in
  match target with
  | None => Ok h
  | Some r' =>
      let? t' := of_option (h !! r') in
      Ok (<[r := setStatus (status t') (set_cls (KProxy targetUpcId (Some r')) t)]> h)
  end.

(** [src/src/task.cpp:109-117] MultiProxyTask::update *)
Fixpoint find_targets (b : B) (ids : list Z) (ts : list (option ref)) : res (list (option ref)) :=
  match ids, ts with
  | [], ts => Ok ts
  | id :: ids, [] => Undefined
  | id :: ids, o :: ts =>
      let? o := match o with Some r => Ok (Some r) | None => board_taskForId b id end in
      let? ts := find_targets b ids ts in Ok (o :: ts)
  end.

(** [src/src/task.cpp:137-144] MultiProxyTask::update *)
Definition collect_units (fuel : nat) (h : heap) (ts : list (option ref)) : res (gset Z) :=
  rfold (λ acc o,
    match o with
    | None => Ok acc
    | Some r => let? us := proxiedUnits fuel h r in Ok (acc ∪ us)
    end) ts ∅.

(** [src/src/task.cpp:107-145] MultiProxyTask::update *)
Definition multi_update (fuel : nat) (b : B) (h : heap) (r : ref) (t : t) ids ts pu policy dflt : res heap :=
  let? ts := find_targets b ids ts in
  let t := setStatus Unknown (set_cls (KMulti ids ts pu policy dflt) t) in
  let h := <[r := t]> h in
  let? s := first_match h ts policy dflt [Success; Cancelled; Failure; Ongoing; Unknown] in
  let t := setStatus s t in
  let h := <[r := t]> h in
  (* [proxiedUnits_.clear()] comes before the targets are asked *)
  let h := <[r := set_cls (KMulti ids ts ∅ policy dflt) t]> h in
  let? pu := collect_units fuel h ts in
  Ok (<[r := set_cls (KMulti ids ts pu policy dflt) t]> h).

(** [src/src/task.cpp:18-21] Task::cancel *)
Definition base_cancel (h : heap) (r : ref) : res heap :=
  let? t := of_option (h !! r) in Ok (<[r := setStatus Cancelled t]> h).

(** The loop of [MultiProxyTask::cancel] over the recursive call.

    [src/src/task.cpp:151-162] MultiProxyTask::cancel *)
Fixpoint cancel_targets (rec : B → heap → ref → res (B * heap)) (b : B) (h : heap)
    (ids : list Z) (ts : list (option ref)) : res (B * heap) :=
  match ids, ts with
  | [], _ => Ok (b, h)
  | id :: ids, [] => Undefined
  | id :: ids, Some r :: ts =>
      let? bh := rec b h r in cancel_targets rec bh.1 bh.2 ids ts
  | id :: ids, None :: ts => cancel_targets rec (board_removeUPCs b [id]) h ids ts
  end.

(** Both classes with a controller: the units that it controls for the task are
    taken from it.

    [src/src/controller.cpp:136-150] ControllerTask::cancel *)
Definition controller_cancel (b : B) (h : heap) (r : ref) (t : t) : res (B * heap) :=
  if decide (status t = Ongoing) then
    let b := board_release b r t in
    let h := <[r := set_units ∅ t]> h in
    let? h := base_cancel h r in Ok (b, h)
  else Ok (b, h).

(** [src/src/modules/tactics.h:31-36] TacticsTask::cancel *)
Definition tactics_cancel (b : B) (h : heap) (r : ref) (t : t) : res (B * heap) :=
  let h := <[r := set_units ∅ t]> h in
  let? b := board_updateTasksByUnit b h r in
  let? h := base_cancel h r in Ok (b, h).

Section classes.
Context `{Classes}.

(** [BuildingPlacerTask::cancel] gives up its reservation after the [cancel] of
    [ProxyTask]; for another proxy [board_release] has nothing to do.

    [src/src/task.cpp:71-81] ProxyTask::cancel *)
Fixpoint cancel (fuel : nat) (b : B) (h : heap) (r : ref) : res (B * heap) :=
  match fuel with
  | O => OutOfFuel
  | S fuel =>
      let? t := of_option (h !! r) in
      match cls t with
      | KTask d =>
          match class_of d with
          | CTask => let? h := base_cancel h r in Ok (b, h)
          | CControllerTask | CSharedControllerTask => controller_cancel b h r t
          | CTacticsTask => tactics_cancel b h r t
          end
      | KProxy _ (Some r') =>
          let? bh := cancel fuel b h r' in Ok (board_release bh.1 r t, bh.2)
      | KProxy targetUpcId None =>
          let b := board_removeUPCs b [targetUpcId] in
          let? h := base_cancel h r in Ok (board_release b r t, h)
      | KMulti ids ts _ _ _ =>
          let? bh := cancel_targets (cancel fuel) b h ids ts in
          let '(b, h) := bh in
          let? t := of_option (h !! r) in
          match cls t with
          | KMulti ids ts pu policy _ =>
              let h := <[r := set_cls (KMulti ids ts pu policy Cancelled) t]> h in
              let? h := base_cancel h r in Ok (b, h)
          | _ => Undefined
          end
      end
  end.
End classes.

End with_board.

(** ** Policies: what they mean *)

Definition status_of (h : heap) (dflt : TaskStatus) (o : option ref) : TaskStatus :=
  match o with
  | None => dflt
  | Some r => match h !! r with Some t => status t | None => dflt end
  end.

(** Every target that was found exists. *)
Definition live (h : heap) (ts : list (option ref)) : Prop :=
  ∀ r, Some r ∈ ts → is_Some (h !! r).

Lemma getStatus_live h dflt o ts : live h ts → o ∈ ts → getStatus h dflt o = Ok (status_of h dflt o).
Proof.
  intros Hl Ho. destruct o as [r|]; simpl; [|done]. destruct (Hl r Ho) as [t ->]. done.
Qed.

Lemma live_cons h o ts : live h (o :: ts) → live h ts.
Proof. intros Hl r Hr. apply Hl. set_solver. Qed.

Lemma match_any_spec h dflt s ts : live h ts →
  match_any h dflt s ts = Ok (bool_decide (Exists (λ o, status_of h dflt o = s) ts)).
Proof.
  induction ts as [|o ts IH]; intros Hl; cbn [match_any].
  - rewrite bool_decide_false; [done|]. by intros ?%Exists_nil.
  - rewrite (getStatus_live _ _ _ (o :: ts)) by (done || set_solver). simpl.
    case_decide as E; [by rewrite bool_decide_true by by constructor|].
    rewrite IH by by eapply live_cons. f_equal. apply bool_decide_ext. rewrite Exists_cons. tauto.
Qed.

Lemma match_all_spec h dflt s ts : live h ts →
  match_all h dflt s ts = Ok (bool_decide (Forall (λ o, status_of h dflt o = s) ts)).
Proof.
  induction ts as [|o ts IH]; intros Hl; cbn [match_all].
  - by rewrite bool_decide_true by constructor.
  - rewrite (getStatus_live _ _ _ (o :: ts)) by (done || set_solver). simpl.
    case_decide as E; [|rewrite bool_decide_false; [done|by rewrite Forall_cons; intros []]].
    rewrite IH by by eapply live_cons. f_equal. apply bool_decide_ext. rewrite Forall_cons. tauto.
Qed.

Lemma match_count_spec h dflt s ts n : live h ts →
  match_count h dflt s ts n =
  Ok (n + Z.of_nat (length (filter (λ o, status_of h dflt o = s) ts))).
Proof.
  revert n. induction ts as [|o ts IH]; intros n Hl; cbn [match_count]; [f_equal; cbn; lia|].
  rewrite (getStatus_live _ _ _ (o :: ts)) by (done || set_solver). simpl.
  rewrite IH by by eapply live_cons. rewrite filter_cons. f_equal. case_decide; cbn [length]; lia.
Qed.

(** What a policy promises, in the words of the header. *)
Definition policy_holds (p : ProxyPolicy) (n total : nat) : Prop :=
  match p with
  | ANY => (0 < n)%nat
  | MOST => (total < 2 * n)%nat
  | ALL => n = total
  end.

(** A policy matches a status when one ([ANY]), more than half ([MOST]) or
    all ([ALL]) of the targets have it. *)
Theorem matchStatus_policy h ts policy dflt s : live h ts →
  ∃ b, matchStatus h ts policy dflt s = Ok b ∧
    (b = true ↔ policy_holds (default ANY (al_find s policy))
                  (length (filter (λ o, status_of h dflt o = s) ts)) (length ts)).
Proof.
  intros Hl. unfold matchStatus. destruct (default ANY _); simpl.
  - rewrite match_any_spec by done. eexists. split; [done|].
    rewrite bool_decide_eq_true, Exists_exists. split.
    + intros (o & Ho & E). destruct (filter _ ts) eqn:F; simpl; [|lia].
      exfalso. apply (not_elem_of_nil o). rewrite <-F. by apply list_elem_of_filter.
    + intros Hn. destruct (filter _ ts) as [|o l] eqn:F; simpl in *; [lia|].
      exists o. assert (o ∈ filter (λ o, status_of h dflt o = s) ts) as Ho
        by (rewrite F; set_solver). by apply list_elem_of_filter in Ho as [? ?].
  - rewrite match_count_spec by done. simpl. eexists. split; [done|].
    set (n := length (filter _ ts)). set (m := length ts). rewrite Z.ltb_lt.
    rewrite Z.quot_div_nonneg by lia. split.
    + intros. assert (Z.of_nat m < 2 * Z.of_nat n); [|lia].
      pose proof (Z.div_mod (Z.of_nat m) 2). pose proof (Z.mod_pos_bound (Z.of_nat m) 2). lia.
    + intros. apply Z.div_lt_upper_bound; lia.
  - rewrite match_all_spec by done. eexists. split; [done|]. rewrite bool_decide_eq_true.
    clear Hl. induction ts as [|o ts IH]; [split; constructor|].
    rewrite Forall_cons, filter_cons. pose proof (length_filter (λ o, status_of h dflt o = s) ts).
    case_decide; simpl; [|naive_solver lia]. rewrite IH. naive_solver lia.
Qed.

(** Two tasks, one ongoing and one failed. *)
Definition example_heap : heap :=
  <[1 := Task Ongoing 1 ∅ (KTask 0)]> (<[2 := Task Failure 2 ∅ (KTask 0)]> ∅).

Lemma example_heap_live ts : ts ⊆ [Some 1; None; Some 2] → live example_heap ts.
Proof.
  intros Hs r Hr%Hs.
  apply elem_of_cons in Hr as [[= ->]|[[=]|[[= ->]|[]%not_elem_of_nil]%elem_of_cons]%elem_of_cons];
    eexists; reflexivity.
Qed.

Lemma matchStatus_policy_witness :
  ∃ b, matchStatus example_heap [Some 1; None; Some 2] [(Unknown, MOST)] Unknown Failure = Ok b ∧
       b = true.
Proof.
  destruct (matchStatus_policy example_heap [Some 1; None; Some 2] [(Unknown, MOST)] Unknown Failure)
    as (b & H1 & H2); [by apply example_heap_live|].
  exists b. split; [exact H1|]. apply H2. vm_compute. lia.
Defined.

Definition default_policy : list (TaskStatus * ProxyPolicy) :=
  [(Unknown, ALL); (Ongoing, ANY); (Failure, ANY); (Cancelled, ALL); (Success, ALL)].

(** With the policies of the constructor a multi-proxy mirrors its targets:
    it succeeds when all succeeded, is cancelled when all were, else fails as
    soon as one failed, else is ongoing as soon as one is, else unknown. *)
Theorem multi_default_status h ts dflt : live h ts →
  let all s := Forall (λ o, status_of h dflt o = s) ts in
  let any s := Exists (λ o, status_of h dflt o = s) ts in
  ∃ s, first_match h ts default_policy dflt [Success; Cancelled; Failure; Ongoing; Unknown] = Ok s ∧
    (s = Success ↔ all Success) ∧
    (s = Cancelled ↔ ¬ all Success ∧ all Cancelled) ∧
    (s = Failure ↔ ¬ all Success ∧ any Failure) ∧
    (s = Ongoing ↔ ¬ any Failure ∧ any Ongoing).
Proof.
  intros Hl all any. cbn [first_match]. unfold matchStatus, default_policy; simpl.
  rewrite !match_all_spec, !match_any_spec by done. simpl. fold all any.
  assert (∀ s s', s ≠ s' → all s → any s' → False) as Hex.
  { intros s s' Hne Ha (o & Ho & E)%Exists_exists. unfold all in Ha. rewrite Forall_forall in Ha.
    specialize (Ha o Ho). congruence. }
  destruct (decide (all Success)) as [A1|A1];
    [rewrite bool_decide_true by done|rewrite bool_decide_false by done; simpl].
  { exists Success. split; [done|].
    split_and!; (split; [intros E; first [discriminate E|tauto]|]); try tauto; intros [? ?]; try done;
      exfalso; (eapply Hex; [|exact A1|eassumption]); done. }
  destruct (decide (all Cancelled)) as [A2|A2];
    [rewrite bool_decide_true by done|rewrite bool_decide_false by done; simpl].
  { exists Cancelled. split; [done|].
    split_and!; (split; [intros E; first [discriminate E|tauto]|]); try tauto; intros [? ?]; try done;
      exfalso; (eapply Hex; [|exact A2|eassumption]); done. }
  destruct (decide (any Failure)) as [A3|A3];
    [rewrite bool_decide_true by done|rewrite bool_decide_false by done; simpl].
  { exists Failure. split; [done|]. split_and!; (split; [intros E; first [discriminate E|tauto]|]); tauto. }
  destruct (decide (any Ongoing)) as [A4|A4];
    [rewrite bool_decide_true by done|rewrite bool_decide_false by done; simpl].
  { exists Ongoing. split; [done|]. split_and!; (split; [intros E; first [discriminate E|tauto]|]); tauto. }
  exists Unknown. split; [by case_match|].
  split_and!; (split; [intros E; first [discriminate E|tauto]|]); tauto.
Qed.

Lemma multi_default_status_witness :
  ∃ s, first_match example_heap [Some 1; Some 2] default_policy Unknown
         [Success; Cancelled; Failure; Ongoing; Unknown] = Ok s ∧ s = Failure.
Proof.
  destruct (multi_default_status example_heap [Some 1; Some 2] Unknown) as (s & H1 & _ & _ & H2 & _).
  - apply example_heap_live. set_solver.
  - exists s. split; [exact H1|]. apply H2. split.
    + intros Ha. inversion Ha as [|? ? Hb _]. discriminate Hb.
    + apply Exists_cons_tl, Exists_cons_hd. reflexivity.
Defined.

(** ** Cancellation *)

(** [r] forwards to [r']. *)
Definition edge (h : heap) (r r' : ref) : Prop := ∃ t, h !! r = Some t ∧ r' ∈ targets_of t.

(** A proxy that found its target only forwards [cancel]. *)
Definition forwards (t : t) : bool :=
  match cls t with KProxy _ (Some _) => true | _ => false end.

(** A class whose tasks command their units through a controller. *)
Definition with_controller `{Classes} (t : t) : bool :=
  match cls t with
  | KTask d => bool_decide (class_of d = CControllerTask) || bool_decide (class_of d = CSharedControllerTask)
  | _ => false
  end.

(** A class that gives up its units when it is cancelled. *)
Definition gives_up `{Classes} (t : t) : bool :=
  match cls t with KTask d => bool_decide (class_of d ≠ CTask) | _ => false end.

(** What cancelling makes of a task it reaches: nothing of a proxy that
    forwards, and of a task with a controller that is not ongoing. *)
Definition effect `{Classes} (t : t) : Task.t :=
  if forwards t then t
  else if with_controller t && bool_decide (status t ≠ Ongoing) then t
  else Task Cancelled (upcId t) (if gives_up t then ∅ else units t)
         (match cls t with KMulti ids ts pu pol _ => KMulti ids ts pu pol Cancelled | k => k end).

(** What cancelling leaves alone: everything but statuses and units. *)
Definition skel (t : t) : Task.t :=
  Task Unknown (upcId t) ∅
    (match cls t with KMulti ids ts pu pol _ => KMulti ids ts pu pol Unknown | k => k end).

Lemma skel_targets t t' : skel t = skel t' → targets_of t = targets_of t'.
Proof.
  destruct t as [? ? ? k], t' as [? ? ? k']. unfold skel, targets_of. simpl.
  destruct k, k'; simpl; intros; simplify_eq; done.
Qed.

(** Two heaps that differ in statuses and units only. *)
Definition same_skel (h h' : heap) : Prop := skel <$> h = skel <$> h'.

#[global] Instance same_skel_equiv : Equivalence same_skel.
Proof. split; red; unfold same_skel; congruence. Qed.

Lemma same_skel_lookup h h' r t : same_skel h h' → h !! r = Some t →
  ∃ t', h' !! r = Some t' ∧ skel t' = skel t.
Proof.
  intros Hs Hr. pose proof (f_equal (λ m : heap, m !! r) Hs) as E. simpl in E.
  rewrite !lookup_fmap, Hr in E. destruct (h' !! r) as [t'|]; simpl in E; [|discriminate].
  apply (inj Some) in E. exists t'. done.
Qed.

#[global] Instance edge_proper : Proper (same_skel ==> eq ==> eq ==> iff) edge.
Proof.
  intros h h' Hs r _ <- r' _ <-. split; intros (t & Ht & Hin).
  - destruct (same_skel_lookup h h' r t Hs Ht) as (t' & ? & E).
    exists t'. split; [done|]. by rewrite (skel_targets _ _ E).
  - symmetry in Hs. destruct (same_skel_lookup h' h r t Hs Ht) as (t' & ? & E).
    exists t'. split; [done|]. by rewrite (skel_targets _ _ E).
Qed.

Lemma rtc_edge_skel h h' r r' : same_skel h h' → rtc (edge h) r r' → rtc (edge h') r r'.
Proof.
  intros Hs. induction 1 as [|x y z Hxy _ IH]; [done|]. econstructor; [|done].
  rewrite <-Hs. done.
Qed.

(** Targets exist, are below their proxies, and the two vectors of a
    multi-proxy have the same length. *)
Definition acyclic (rank : ref → nat) (h : heap) : Prop :=
  ∀ r t, h !! r = Some t →
    (∀ r', r' ∈ targets_of t → is_Some (h !! r') ∧ (rank r' < rank r)%nat) ∧
    match cls t with KMulti ids ts _ _ _ => length ids = length ts | _ => True end.

Lemma acyclic_skel rank h h' : same_skel h h' → acyclic rank h → acyclic rank h'.
Proof.
  intros Hs Ha r t Ht. symmetry in Hs. destruct (same_skel_lookup h' h r t Hs Ht) as (t0 & Ht0 & E).
  destruct (Ha _ _ Ht0) as [H1 H2]. split.
  - intros r' Hr'. rewrite <-(skel_targets _ _ E) in Hr'. destruct (H1 r' Hr') as [[t1 Ht1] ?].
    split; [|done]. symmetry in Hs. destruct (same_skel_lookup h h' r' t1 Hs Ht1) as (? & ? & _). eauto.
  - destruct t as [? ? ? k], t0 as [? ? ? k0]. unfold skel in E. simpl in *.
    destruct k, k0; simplify_eq; done.
Qed.

Lemma rtc_edge_inv h r t r' : h !! r = Some t →
  rtc (edge h) r r' ↔ r' = r ∨ ∃ r1, r1 ∈ targets_of t ∧ rtc (edge h) r1 r'.
Proof.
  intros Hr. split.
  - intros [->|(r1 & (t1 & E & ?) & ?)]%rtc_inv; [by left|]. simplify_eq. eauto.
  - intros [->|(r1 & ? & ?)]; [done|]. econstructor; [|done]. exists t. done.
Qed.

Section cancel.
Context `{Classes}.

Lemma effect_skel t : skel (effect t) = skel t.
Proof.
  destruct t as [s i us k]. unfold effect. destruct (forwards _); [done|]. destruct (with_controller _ && _); [done|].
  unfold skel. simpl. by destruct k.
Qed.

Lemma effect_idem t : effect (effect t) = effect t.
Proof.
  destruct t as [s i us k]. unfold effect at 2 3.
  destruct (forwards _) eqn:Ef; [unfold effect; by rewrite Ef|].
  destruct (with_controller _ && _) eqn:Ec; [unfold effect; by rewrite Ef, Ec|].
  unfold effect, forwards, with_controller, gives_up in *. simpl in *.
  destruct k as [d|tid [r'|]|ids ts pu pol df]; simpl in *; try done.
  repeat case_bool_decide; done.
Qed.

(** [h'] is [h] after cancelling the tasks of [R]. *)
Definition cancelled (h : heap) (R : ref → Prop) (h' : heap) : Prop := ∀ r,
  (h' !! r = h !! r ∧ (R r → effect <$> h !! r = h !! r)) ∨ (R r ∧ h' !! r = effect <$> h !! r).

Lemma cancelled_refl h R : (∀ r, ¬ R r) → cancelled h R h.
Proof. intros HR r. left. split; [done|]. by intros ?%HR. Qed.

Lemma cancelled_trans h1 h2 h3 R1 R2 : cancelled h1 R1 h2 → cancelled h2 R2 h3 →
  cancelled h1 (λ r, R1 r ∨ R2 r) h3.
Proof.
  intros C1 C2 r. specialize (C1 r). specialize (C2 r).
  destruct C1 as [[E1 F1]|[HR1 E1]], C2 as [[E2 F2]|[HR2 E2]]; rewrite E2; rewrite E1 in *.
  - left. split; [done|tauto].
  - right. tauto.
  - right. tauto.
  - right. split; [tauto|]. destruct (h1 !! r) as [t|]; simpl; [|done]. by rewrite effect_idem.
Qed.

(** Tasks that cancelling does not change may be counted in. *)
Lemma cancelled_weaken h (R R' : ref → Prop) h' : (∀ r, R r → R' r) →
  (∀ r, R' r → R r ∨ effect <$> h !! r = h !! r) → cancelled h R h' → cancelled h R' h'.
Proof.
  intros H1 H2 C r. destruct (C r) as [[E F]|[HR E]]; [|right; by eauto].
  left. split; [done|]. intros [?|?]%H2; eauto.
Qed.

Lemma cancelled_ext h R R' h' : (∀ r, R r ↔ R' r) → cancelled h R h' → cancelled h R' h'.
Proof. intros E. apply cancelled_weaken; intros r; rewrite E; tauto. Qed.

Lemma cancelled_one h r t : h !! r = Some t → cancelled h (λ r', r' = r) (<[r := effect t]> h).
Proof.
  intros Hr r'. destruct (decide (r' = r)) as [->|].
  - right. by rewrite lookup_insert_eq, Hr.
  - left. rewrite lookup_insert_ne by done. split; [done|]. by intros ?.
Qed.

Lemma cancelled_skel h R h' : cancelled h R h' → same_skel h h'.
Proof.
  intros C. unfold same_skel. apply map_eq. intros r. rewrite !lookup_fmap.
  destruct (C r) as [[-> _]|[_ ->]]; [done|]. destruct (h !! r) as [t|]; simpl; [|done]. by rewrite effect_skel.
Qed.

Context {B : Type} `{TaskBoard B} (rank : ref → nat).

Definition cancel_ok (rec : B → heap → ref → res (B * heap)) (n : nat) : Prop :=
  ∀ b h r, acyclic rank h → is_Some (h !! r) → (rank r < n)%nat →
    ∃ b' h', rec b h r = Ok (b', h') ∧ cancelled h (rtc (edge h) r) h'.

Lemma cancel_targets_ok rec n ids ts b h : cancel_ok rec n → acyclic rank h →
  length ids = length ts →
  (∀ r, Some r ∈ ts → is_Some (h !! r) ∧ (rank r < n)%nat) →
  ∃ b' h', cancel_targets rec b h ids ts = Ok (b', h') ∧
    cancelled h (λ r', ∃ r, Some r ∈ ts ∧ rtc (edge h) r r') h'.
Proof.
  intros Hrec. revert ts b h. induction ids as [|id ids IH]; intros [|o ts] b h Ha Hlen Hts;
    simplify_eq/=.
  { exists b, h. split; [done|]. apply cancelled_refl. intros r (? & ?%not_elem_of_nil & _). done. }
  destruct o as [r|].
  - destruct (Hts r) as [Hr Hn]; [set_solver|].
    destruct (Hrec b h r Ha Hr Hn) as (b1 & h1 & -> & C1). simpl.
    pose proof (cancelled_skel _ _ _ C1) as S1.
    destruct (IH ts b1 h1) as (b2 & h2 & -> & C2);
      [by eapply acyclic_skel|done| |].
    { intros r1 Hr1. destruct (Hts r1) as [[t1 Ht1] ?]; [set_solver|]. split; [|done].
      destruct (same_skel_lookup _ _ _ _ S1 Ht1) as (? & ? & _). eauto. }
    exists b2, h2. split; [done|]. eapply cancelled_ext; [|eapply cancelled_trans; [exact C1|exact C2]].
    intros r'. simpl. split.
    + intros [Hr'|(r1 & ? & Hr')]; [exists r; split; [set_solver|done]|].
      exists r1. split; [set_solver|]. eapply rtc_edge_skel; [|done]. by symmetry.
    + intros (r1 & [[= ->]|Hr1]%elem_of_cons & Hr'); [by left|right].
      exists r1. split; [done|]. by eapply rtc_edge_skel.
  - destruct (IH ts (board_removeUPCs b [id]) h) as (b2 & h2 & -> & C2); [done..| |].
    { intros r1 Hr1. apply Hts. set_solver. }
    exists b2, h2. split; [done|]. eapply cancelled_ext; [|exact C2].
    intros r'. simpl. split; intros (r1 & Hin & ?); exists r1; (split; [set_solver|done]).
Qed.

Lemma base_cancel_Ok h r t : h !! r = Some t → base_cancel h r = Ok (<[r := setStatus Cancelled t]> h).
Proof. intros Hr. unfold base_cancel. by rewrite Hr. Qed.

(** The objects without targets. *)
Lemma cancel_leaf b h r t : h !! r = Some t → targets_of t = [] →
  match cls t with KMulti _ _ _ _ _ => False | _ => True end →
  ∃ b', (match cls t with
         | KTask d =>
             match class_of d with
             | CTask => let? h := base_cancel h r in Ok (b, h)
             | CControllerTask | CSharedControllerTask => controller_cancel b h r t
             | CTacticsTask => tactics_cancel b h r t
             end
         | KProxy tid _ =>
             let b := board_removeUPCs b [tid] in let? h := base_cancel h r in Ok (board_release b r t, h)
         | KMulti _ _ _ _ _ => Undefined
         end) = Ok (b', <[r := effect t]> h).
Proof.
  intros Hr Ht Hk. destruct t as [s i us k]. unfold targets_of in Ht. simpl in *.
  unfold controller_cancel, tactics_cancel, effect, forwards, with_controller, gives_up. simpl.
  pose proof (λ t' h', base_cancel_Ok (<[r := t']> h') r t' (lookup_insert_eq _ _ _)) as Hb.
  destruct k as [d|tid [r'|]|]; simpl in *; try done; [|rewrite (base_cancel_Ok _ _ _ Hr); simpl; eauto].
  destruct (class_of d) eqn:Ed; simpl; [rewrite (base_cancel_Ok _ _ _ Hr); simpl; eauto|..].
  - case_decide as Es; subst; simpl; [|rewrite bool_decide_true by done; rewrite insert_id by done; eauto].
    rewrite Hb. simpl. rewrite insert_insert_eq. eauto.
  - case_decide as Es; subst; simpl; [|rewrite bool_decide_true by done; rewrite insert_id by done; eauto].
    rewrite Hb. simpl. rewrite insert_insert_eq. eauto.
  - destruct (board_updateTasksByUnit_ok b (<[r := set_units ∅ (Task s i us (KTask d))]> h) r) as (b' & ->);
      [rewrite lookup_insert_eq; eauto|]. simpl. rewrite Hb. simpl. rewrite insert_insert_eq. eauto.
Qed.

Lemma cancel_ok_fuel n : cancel_ok (cancel n) n.
Proof.
  induction n as [|n IH]; intros b h r Ha [t Ht] Hn; [lia|].
  destruct (Ha _ _ Ht) as [Htg Hlen]. cbn [cancel]. rewrite Ht. cbn [of_option rbind].
  pose proof (λ r', rtc_edge_inv h r t r' Ht) as Hrtc.
  pose proof (cancel_leaf b h r t Ht) as Hleaf. pose proof (cancelled_one h r t Ht) as C1.
  unfold targets_of in Hrtc, Htg, Hleaf. destruct (cls t) as [d|tid [r1|]|ids ts pu pol df] eqn:Ek.
  - destruct Hleaf as (b' & ->); [done|done|]. do 2 eexists. split; [done|].
    eapply cancelled_ext; [|exact C1]. set_solver.
  - destruct (Htg r1) as [Hr1 Hlt]; [set_solver|]. destruct (IH b h r1 Ha Hr1) as (b' & h' & -> & C); [lia|].
    cbn [rbind fst snd]. do 2 eexists. split; [done|]. eapply cancelled_weaken; [| |exact C].
    + intros r' ?. apply Hrtc. set_solver.
    + intros r' [->|(r2 & ->%list_elem_of_singleton & ?)]%Hrtc; [right|by left].
      rewrite Ht. unfold effect, forwards. simpl. by rewrite Ek.
  - destruct Hleaf as (b' & E); [done|done|]. cbv zeta in E. rewrite E.
    do 2 eexists. split; [done|]. eapply cancelled_ext; [|exact C1]. set_solver.
  - destruct (cancel_targets_ok (cancel n) n ids ts b h) as (b1 & h1 & -> & C); [done..| |].
    { intros r1 Hr1. destruct (Htg r1) as [? ?]; [|split; [done|lia]].
      apply list_elem_of_omap. exists (Some r1). done. }
    cbn [rbind]. destruct (same_skel_lookup _ _ _ _ (cancelled_skel _ _ _ C) Ht) as (t1 & Ht1 & E).
    rewrite Ht1. cbn [of_option rbind].
    assert (∃ pu' pol' df', cls t1 = KMulti ids ts pu' pol' df' ) as (pu' & pol' & df' & Ek1).
    { unfold skel in E. rewrite Ek in E. destruct (cls t1); simplify_eq. eauto. }
    rewrite Ek1. rewrite (base_cancel_Ok _ _ _ (lookup_insert_eq _ _ _)). cbn [rbind].
    do 2 eexists. split; [done|]. rewrite insert_insert_eq.
    assert (setStatus Cancelled (set_cls (KMulti ids ts pu' pol' Cancelled) t1) = effect t1) as ->.
    { destruct t1. simpl in Ek1. subst. done. }
    eapply cancelled_ext; [|eapply cancelled_trans; [exact C|by eapply cancelled_one]].
    intros r'. simpl. rewrite Hrtc. split.
    + intros [(r1 & Hr1 & ?)| ->]; [right|by left]. exists r1. split; [|done].
      apply list_elem_of_omap. exists (Some r1). done.
    + intros [->|(r1 & (o & Ho & Eo)%list_elem_of_omap & ?)]; [by right|left].
      exists r1. simpl in Eo. subst o. done.
Qed.

(** What relates the board and the tasks survives [cancel] when it survives
    what [cancel] does to each. *)
Section board.
Context (P : B → heap → Prop).
Context (P_remove : ∀ b h ids, P b h → P (board_removeUPCs b ids) h).
Context (P_release : ∀ b h r t, P b h → P (board_release b r t) h).
Context (P_units : ∀ b h r t b', h !! r = Some t → units t = ∅ → P b h →
  board_updateTasksByUnit b h r = Ok b' → P b' h).
Context (P_heap : ∀ b h r t t', h !! r = Some t → skel t' = skel t → units t' ⊆ units t → P b h →
  P b (<[r := t']> h)).

Lemma base_cancel_board b h r h' : P b h → base_cancel h r = Ok h' → P b h'.
Proof using P_heap. unfold base_cancel. intros Hb (t & Hr%of_option_Ok & [= <-])%rbind_Ok_inv. by eapply P_heap. Qed.

Lemma cancel_board n b h r b' h' : P b h → cancel n b h r = Ok (b', h') → P b' h'.
Proof using P_remove P_release P_units P_heap.
  revert b h r b' h'. induction n as [|n IH]; intros b h r b' h' Hb; cbn [cancel]; [done|].
  assert (∀ ids ts b h b' h', P b h → cancel_targets (cancel n) b h ids ts = Ok (b', h') → P b' h') as Hts.
  { induction ids as [|id ids IHids]; intros [|[r1|] ts] b1 h1 b2 h2 H1; cbn [cancel_targets]; try congruence.
    - intros E. apply rbind_Ok_inv in E as ([b3 h3] & E1 & E). simpl in E. by eapply IHids, E; eapply IH.
    - intros E. eapply IHids, E. by apply P_remove. }
  intros E. apply rbind_Ok_inv in E as (t & Ht%of_option_Ok & E). destruct (cls t) as [d|tid [r1|]|ids ts pu pol df].
  - assert (∀ b, P b h → P b (<[r := set_units ∅ t]> h)) as Hu by (intros b0 ?; eapply P_heap; set_solver).
    assert (∀ b h b' h', P b h → (let? h := base_cancel h r in Ok (b, h)) = Ok (b', h') → P b' h') as Hbase.
    { intros b0 h0 b1 h1 Hb0 (h2 & E2 & [= <- <-])%rbind_Ok_inv. by eapply base_cancel_board. }
    unfold controller_cancel, tactics_cancel in E. destruct (class_of d).
    + by eapply Hbase, E.
    + case_decide; [|congruence]. eapply Hbase, E. by apply Hu, P_release.
    + case_decide; [|congruence]. eapply Hbase, E. by apply Hu, P_release.
    + apply rbind_Ok_inv in E as (b1 & E1 & E). eapply Hbase, E. eapply P_units, E1; [apply lookup_insert_eq|done|by apply Hu].
  - apply rbind_Ok_inv in E as ([b1 h1] & E1 & [= <- <-]). by eapply P_release, IH.
  - apply rbind_Ok_inv in E as (h1 & E1 & [= <- <-]). apply P_release. by eapply base_cancel_board, E1; apply P_remove.
  - apply rbind_Ok_inv in E as ([b1 h1] & E1 & E). apply Hts in E1; [|done].
    apply rbind_Ok_inv in E as (t1 & Ht1%of_option_Ok & E). destruct (cls t1) eqn:Ek; try done.
    apply rbind_Ok_inv in E as (h2 & E2 & [= <- <-]). eapply base_cancel_board, E2.
    eapply P_heap; [exact Ht1| |done|exact E1]. unfold skel, set_cls. simpl. by rewrite Ek.
Qed.
End board.

(** C7 Cancelling terminates when proxies form no cycle (as deep a recursion
    as the nesting of proxies), and what it does to the tasks is determined.
    Tasks the proxy does not lead to are unchanged.  A task it leads to keeps
    its identifier and its targets; a proxy that forwards is otherwise unchanged
    too, and so is a task with a controller that is not ongoing; any other ends
    cancelled, without units if its class gives them up (tasks with a controller
    and those of the tactics) and with the units it had if not. *)
Theorem cancel_spec fuel (b : B) h r : acyclic rank h → is_Some (h !! r) → (rank r < fuel)%nat →
  ∃ b' h', cancel fuel b h r = Ok (b', h') ∧
    (∀ r', ¬ rtc (edge h) r r' → h' !! r' = h !! r') ∧
    (∀ r' t, rtc (edge h) r r' → h !! r' = Some t → ∃ t', h' !! r' = Some t' ∧
       upcId t' = upcId t ∧ targets_of t' = targets_of t ∧
       if forwards t || with_controller t && bool_decide (status t ≠ Ongoing) then t' = t
       else status t' = Cancelled ∧ units t' = if gives_up t then ∅ else units t).
Proof.
  intros Ha Hr Hf. destruct (cancel_ok_fuel fuel b h r Ha Hr Hf) as (b' & h' & E & C).
  exists b', h'. split_and!; [done| |].
  - intros r' Hn. destruct (C r') as [[? _]|[? _]]; done.
  - intros r' t Hr' Ht. assert (h' !! r' = Some (effect t)) as Ht'.
    { destruct (C r') as [[E1 E2]|[_ E1]]; rewrite E1; [rewrite <-E2 by done|]; by rewrite Ht. }
    exists (effect t). split; [done|]. pose proof (effect_skel t) as Es. split_and!.
    + unfold skel in Es. congruence.
    + by apply skel_targets.
    + unfold effect. destruct (forwards t); [done|]. by destruct (with_controller t && _).
Qed.

End cancel.

(** The smallest board: it knows no task. *)
#[global] Instance no_board : TaskBoard unit.
Proof.
  refine {| board_taskForId _ _ := Ok None; board_removeUPCs b _ := b; board_updateTasksByUnit b _ _ := Ok b;
            board_release b _ _ := b; board_taskForId_removeUPCs _ _ _ := eq_refl |}.
  intros b h r _. by exists b.
Defined.

(** Private data [1] is that of a task with a controller. *)
Definition example_classes : Classes := λ d, if d =? 1 then CControllerTask else CTask.

(** A multi-proxy for two tasks with controllers, one of which has failed, and
    a task beside them. *)
Definition example_proxies : heap :=
  <[4 := Task Ongoing 4 {[8]} (KTask 0)]> (
  <[3 := Task Ongoing 3 ∅ (KMulti [1; 2; 7] [Some 1; Some 2; None] ∅ default_policy Unknown)]> (
  <[2 := Task Failure 2 {[6]} (KTask 1)]> (<[1 := Task Ongoing 1 {[5]} (KTask 1)]> ∅))).

Definition example_rank (r : ref) : nat := if decide (r = 3) then 1 else 0.

Lemma example_acyclic : acyclic example_rank example_proxies.
Proof.
  intros r t Ht. unfold example_proxies in Ht. apply lookup_insert_Some in Ht as [[<- <-]|[_ Ht]]; [split; [set_solver|done]|].
  apply lookup_insert_Some in Ht as [[<- <-]|[_ Ht]].
  - split; [|done]. intros r' Hr'. vm_compute in Hr'.
    apply elem_of_cons in Hr' as [->| ->%list_elem_of_singleton]; (split; [by eexists|]); vm_compute; lia.
  - apply lookup_insert_Some in Ht as [[<- <-]|[_ Ht]]; [split; [set_solver|done]|].
    apply lookup_insert_Some in Ht as [[<- <-]|[_ Ht]]; [split; [set_solver|done]|]. by rewrite lookup_empty in Ht.
Qed.

Lemma cancel_spec_witness :
  ∃ b' h', @cancel unit no_board example_classes 2 tt example_proxies 3 = Ok (b', h') ∧
    h' !! 4 = example_proxies !! 4 ∧
    (∃ t, h' !! 1 = Some t ∧ status t = Cancelled ∧ units t = ∅) ∧ h' !! 2 = example_proxies !! 2.
Proof.
  destruct (@cancel_spec example_classes unit no_board example_rank 2 tt example_proxies 3)
    as (b' & h' & H1 & H2 & H3).
  - apply example_acyclic.
  - by eexists.
  - vm_compute. lia.
  - assert (∀ r' t, example_proxies !! r' = Some t → r' ∈ [1; 2] → rtc (edge example_proxies) 3 r') as Hr.
    { intros r' t Ht Hin. apply rtc_once. eexists. split; [reflexivity|]. vm_compute. exact Hin. }
    exists b', h'. split_and!; [exact H1| | |].
    + apply H2. intros [?|(y & (t & Ht & Hy) & Hy')]%rtc_inv; [discriminate|].
      vm_compute in Ht. injection Ht as <-. vm_compute in Hy.
      apply elem_of_cons in Hy as [->| ->%list_elem_of_singleton];
        apply rtc_inv in Hy' as [?|(z & (t & Ht & Hz) & _)]; try discriminate; vm_compute in Ht; injection Ht as <-;
        by apply not_elem_of_nil in Hz.
    + destruct (H3 1 (Task Ongoing 1 {[5]} (KTask 1))) as (t & Ht & _ & _ & Hs & Hu);
        [by eapply (Hr 1); [reflexivity|left]|reflexivity|]. exists t. split; [exact Ht|]. split; [exact Hs|exact Hu].
    + destruct (H3 2 (Task Failure 2 {[6]} (KTask 1))) as (t & Ht & _ & _ & E);
        [by eapply (Hr 2); [reflexivity|right; left]|reflexivity|]. simpl in E. rewrite Ht, E. reflexivity.
Defined.
End Task.
