(* ===== verification/BoardTasks.v ===== *)
(** * The blackboard's tasks ([src/blackboard.h], [src/blackboard.cpp])

    The list [tasks_] and the three indexes of iterators into it.  A list node
    is an identifier that is never reused, an iterator is the identifier of its
    node, and reading through an iterator whose node has been erased (or the
    end iterator [0]) is undefined.  [wf] states that the indexes agree with
    the list; every operation keeps it, so no operation dereferences a dangling
    iterator. *)

From S2P Require Import Prelude Units Tasks.

Module BoardTasks.

(** [src/src/blackboard.h:48-65] TaskData *)
Record TaskData := TD {
  task : option Task.ref;
  owner : ModulePtr;
  autoRemove : bool;
  creationFrame : Z
}.

(** [src/src/blackboard.h:55-55] TaskData::TaskData *)
Definition no_data : TaskData := TD None None true (-1).

(** The task members of the class.

    [src/src/blackboard.h:273-284] Blackboard *)
Record t := BoardTasks {
  tasks_ : list (Z * TaskData);
  next_ : Z;
  tasksById_ : list (Z * Z);
  tasksByModule_ : list (ModulePtr * Z);
  tasksByUnit_ : gmap Z Z;
  tasksToBeRemoved_ : list Z;
  lastTaskStatus_ : gmap Z TaskStatus;
  taskTimeStats_ : list (Z * ModulePtr * Z);
  collectTimers_ : bool
}.

Definition make : t := BoardTasks [] 1 [] [] ∅ [] ∅ [] false.

(** [tasks_.end()] *)
Definition end_ : Z := 0.

Definition deref (b : t) (it : Z) : res TaskData := of_option (al_find it (tasks_ b)).

(** [for (Unit* u : task->units()) tasksByUnit_[u] = it;]

    [src/src/blackboard.cpp:187-189] Blackboard::postTask *)
Definition assign_units (m : gmap Z Z) (us : gset Z) (it : Z) : gmap Z Z :=
  foldr (λ u m, <[u := it]> m) m (elements us).

(** The loop that erases every entry whose iterator is [it].

    [src/src/blackboard.cpp:368-374] Blackboard::update *)
Definition erase_iter (m : gmap Z Z) (it : Z) : gmap Z Z := filter (λ p, p.2 ≠ it) m.

(** [src/src/blackboard.cpp:175-190] Blackboard::postTask *)
Definition postTask (h : Task.heap) (b : t) (r : Task.ref) (ow : ModulePtr) (autoRm : bool) (frame : Z)
    : res t :=
  let? tk := of_option (h !! r) in
  match al_find (Task.upcId tk) (tasksById_ b) with
  | Some _ => Throw "Existing task found"
  | None =>
      let it := next_ b in
      Ok (BoardTasks (tasks_ b ++ [(it, TD (Some r) ow autoRm frame)]) (it + 1)
            (smap_set (Task.upcId tk) it (tasksById_ b))
            (tasksByModule_ b ++ [(ow, it)])
            (assign_units (tasksByUnit_ b) (Task.units tk) it)
            (tasksToBeRemoved_ b) (lastTaskStatus_ b) (taskTimeStats_ b) (collectTimers_ b))
  end.

(** [src/src/blackboard.cpp:192-198] Blackboard::taskForId *)
Definition taskForId (b : t) (id : Z) : res (option Task.ref) :=
  match al_find id (tasksById_ b) with
  | None => Ok None
  | Some it => let? td := deref b it in Ok (task td)
  end.

(** [src/src/blackboard.cpp:200-208] Blackboard::tasksOfModule *)
Definition tasksOfModule (b : t) (m : ModulePtr) : res (list (option Task.ref)) :=
  rfold (λ result e,
    if decide (e.1 = m) then let? td := deref b e.2 in Ok (result ++ [task td]) else Ok result)
    (tasksByModule_ b) [].

(** [src/src/blackboard.cpp:218-224] Blackboard::taskDataWithUnit *)
Definition taskDataWithUnit (b : t) (u : Z) : res TaskData :=
  match tasksByUnit_ b !! u with
  | None => Ok no_data
  | Some it => deref b it
  end.

(** [src/src/blackboard.cpp:210-216] Blackboard::taskWithUnit *)
Definition taskWithUnit (b : t) (u : Z) : res (option Task.ref) :=
  match tasksByUnit_ b !! u with
  | None => Ok None
  | Some it => let? td := deref b it in Ok (task td)
  end.

(** [src/src/blackboard.cpp:226-237] Blackboard::taskWithUnitOfModule *)
Definition taskWithUnitOfModule (b : t) (u : Z) (m : ModulePtr) : res (option Task.ref) :=
  match tasksByUnit_ b !! u with
  | None => Ok None
  | Some it =>
      let? td := deref b it in
      if decide (owner td = m) then Ok (task td) else Ok None
  end.

(** [src/src/blackboard.cpp:239-242] Blackboard::markTaskForRemoval *)
Definition markTaskForRemoval (b : t) (id : Z) : t :=
  BoardTasks (tasks_ b) (next_ b) (tasksById_ b) (tasksByModule_ b) (tasksByUnit_ b)
    (tasksToBeRemoved_ b ++ [id]) (lastTaskStatus_ b) (taskTimeStats_ b) (collectTimers_ b).

(** [src/src/blackboard.cpp:244-250] Blackboard::lastStatusOfTask *)
Definition lastStatusOfTask (b : t) (id : Z) : TaskStatus :=
  match lastTaskStatus_ b !! id with Some s => s | None => Unknown end.

(** [src/src/blackboard.cpp:84-86] Blackboard::setCollectTimers *)
Definition setCollectTimers (b : t) (collect : bool) : t :=
  BoardTasks (tasks_ b) (next_ b) (tasksById_ b) (tasksByModule_ b) (tasksByUnit_ b)
    (tasksToBeRemoved_ b) (lastTaskStatus_ b) (taskTimeStats_ b) collect.

Definition set_tasksByUnit (b : t) (m : gmap Z Z) : t :=
  BoardTasks (tasks_ b) (next_ b) (tasksById_ b) (tasksByModule_ b) m
    (tasksToBeRemoved_ b) (lastTaskStatus_ b) (taskTimeStats_ b) (collectTimers_ b).

(** [std::find_if] over [tasks_] for the node of a task.

    [src/src/blackboard.cpp:329-331] Blackboard::updateTasksByUnit *)
Fixpoint find_task (r : Task.ref) (l : list (Z * TaskData)) : Z :=
  match l with
  | [] => end_
  | (it, td) :: l => if decide (task td = Some r) then it else find_task r l
  end.

(** [src/src/blackboard.cpp:328-342] Blackboard::updateTasksByUnit *)
Definition updateTasksByUnit (h : Task.heap) (b : t) (r : Task.ref) : res t :=
  let it := find_task r (tasks_ b) in
  let m := erase_iter (tasksByUnit_ b) it in
  let? tk := of_option (h !! r) in
  Ok (set_tasksByUnit b (assign_units m (Task.units tk) it)).

(** [src/src/task.cpp:36-47] Task::removeDeadOrReassignedUnits *)
Definition removeDeadOrReassignedUnits (b : t) (r : Task.ref) (tk : Task.t) : res Task.t :=
  let? us := rfold (λ us u,
    let? r' := taskWithUnit b u in
    if decide (r' = Some r) then Ok us else Ok (us ∖ {[u]})) (elements (Task.units tk)) (Task.units tk) in
  Ok (Task.set_units us tk).

(** The search in the range of the owner, which erases the first match.

    [src/src/blackboard.cpp:360-366] Blackboard::update *)
Fixpoint erase_module (h : Task.heap) (b : t) (ow : ModulePtr) (id : Z) (l : list (ModulePtr * Z))
    : res (list (ModulePtr * Z)) :=
  match l with
  | [] => Ok []
  | (m, it) :: l =>
      if decide (m = ow) then
        let? td := deref b it in
        let? r := of_option (task td) in
        let? tk := of_option (h !! r) in
        if Task.upcId tk =? id then Ok l
        else let? l := erase_module h b ow id l in Ok ((m, it) :: l)
      else let? l := erase_module h b ow id l in Ok ((m, it) :: l)
  end.

(** [src/src/blackboard.cpp:351-376] Blackboard::update *)
Definition remove_task (h : Task.heap) (b : t) (id : Z) : res t :=
  match al_find id (tasksById_ b) with
  | None => Ok b
  | Some it =>
      let? td := deref b it in
      let? byModule := erase_module h b (owner td) id (tasksByModule_ b) in
      Ok (BoardTasks (al_erase it (tasks_ b)) (next_ b) (al_erase id (tasksById_ b)) byModule
            (erase_iter (tasksByUnit_ b) it)
            (tasksToBeRemoved_ b) (lastTaskStatus_ b) (taskTimeStats_ b) (collectTimers_ b))
  end.

(** [src/src/blackboard.cpp:349-378] Blackboard::update *)
Definition remove_pending (h : Task.heap) (b : t) : res t :=
  let? b := rfold (remove_task h) (tasksToBeRemoved_ b) b in
  Ok (BoardTasks (tasks_ b) (next_ b) (tasksById_ b) (tasksByModule_ b) (tasksByUnit_ b)
        [] (lastTaskStatus_ b) (taskTimeStats_ b) (collectTimers_ b)).

(** [src/src/blackboard.cpp:407-415] Blackboard::update *)
Definition remove_destroyed (b : t) (destroyed : list Z) : t :=
  set_tasksByUnit b (fold_left (λ m u, match m !! u with Some _ => delete u m | None => m end)
                       destroyed (tasksByUnit_ b)).

(** [src/src/blackboard.cpp:417-418] Blackboard::update *)
Definition clear_stats (b : t) : t :=
  BoardTasks (tasks_ b) (next_ b) (tasksById_ b) (tasksByModule_ b) (tasksByUnit_ b)
    (tasksToBeRemoved_ b) (lastTaskStatus_ b) [] (collectTimers_ b).

(** What the update loop records about a task whose [update] has run ([ms] is
    the time it took, when it ran and timers are collected).

    [src/src/blackboard.cpp:431-462] Blackboard::update *)
Definition record_task (h : Task.heap) (b : t) (id it : Z) (td : TaskData) (r : Task.ref)
    (ms : option Z) : res t :=
  let stats := match ms with
               | Some n => if collectTimers_ b && (0 <? n) then taskTimeStats_ b ++ [(id, owner td, n)]
                           else taskTimeStats_ b
               | None => taskTimeStats_ b
               end in
  let? tk := of_option (h !! r) in
  let m := assign_units (erase_iter (tasksByUnit_ b) it) (Task.units tk) it in
  let removed := if autoRemove td && Task.finished tk then tasksToBeRemoved_ b ++ [id]
                 else tasksToBeRemoved_ b in
  Ok (BoardTasks (tasks_ b) (next_ b) (tasksById_ b) (tasksByModule_ b) m removed
        (<[Task.upcId tk := Task.status tk]> (lastTaskStatus_ b)) stats (collectTimers_ b)).

(** The warnings about units two tasks share: unit, task, task seen before.

    [src/src/blackboard.cpp:465-498] Blackboard::update *)
Definition overlaps (h : Task.heap) (b : t) : res (list (Z * Z * Z)) :=
  let? r := rfold (λ '(dup, warn) e,
    let? td := deref b e.2 in
    let? r := of_option (task td) in
    let? tk := of_option (h !! r) in
    if decide (Task.upcId tk ∈ tasksToBeRemoved_ b) then Ok (dup, warn)
    else Ok (fold_left (λ '(dup, warn) u,
               match (dup : gmap Z Z) !! u with
               | Some other => (dup, warn ++ [(u, Task.upcId tk, other)])
               | None => (<[u := Task.upcId tk]> dup, warn)
               end) (elements (Task.units tk)) (dup, warn)))
    (reverse (tasksById_ b)) (∅ : gmap Z Z, []) in
  Ok r.2.

(** ** Invariant *)

Record wf (h : Task.heap) (b : t) : Prop := {
  wf_nodes : al_wf (tasks_ b);
  wf_next : 0 < next_ b ∧ ∀ it, it ∈ (tasks_ b).*1 → 0 < it < next_ b;
  wf_live it td : al_find it (tasks_ b) = Some td →
    ∃ r tk, task td = Some r ∧ h !! r = Some tk ∧ al_find (Task.upcId tk) (tasksById_ b) = Some it;
  wf_sorted : smap_wf (tasksById_ b);
  wf_byId id it : al_find id (tasksById_ b) = Some it →
    ∃ td r tk, al_find it (tasks_ b) = Some td ∧ task td = Some r ∧ h !! r = Some tk ∧
               Task.upcId tk = id;
  wf_byModule : tasksByModule_ b ≡ₚ map (λ e, (owner e.2, e.1)) (tasks_ b);
  wf_byUnit u it : tasksByUnit_ b !! u = Some it → it ∈ (tasks_ b).*1
}.

Lemma no_tasks_wf h : wf h make.
Proof.
  split; simpl; try done.
  - constructor.
  - split; [lia|set_solver].
  - constructor.
Qed.

(** Tasks keep their identifier; that is all the invariant needs of the heap. *)
Definition keeps_ids (h h' : Task.heap) : Prop :=
  ∀ r tk, h !! r = Some tk → ∃ tk', h' !! r = Some tk' ∧ Task.upcId tk' = Task.upcId tk.

Lemma keeps_ids_refl h : keeps_ids h h.
Proof. intros r tk H. eauto. Qed.

Lemma keeps_ids_trans h1 h2 h3 : keeps_ids h1 h2 → keeps_ids h2 h3 → keeps_ids h1 h3.
Proof.
  intros H1 H2 r tk Hr. destruct (H1 _ _ Hr) as (t2 & Hr2 & E2).
  destruct (H2 _ _ Hr2) as (t3 & Hr3 & E3). exists t3. split; [done|congruence].
Qed.

Lemma keeps_ids_insert h r tk tk' : h !! r = Some tk → Task.upcId tk' = Task.upcId tk →
  keeps_ids h (<[r := tk']> h).
Proof.
  intros Hr E r' t0 H0. destruct (decide (r' = r)) as [->|].
  - rewrite lookup_insert_eq. exists tk'. split; [done|congruence].
  - rewrite lookup_insert_ne by done. eauto.
Qed.

Lemma wf_heap h h' b : keeps_ids h h' → wf h b → wf h' b.
Proof.
  intros Hk [H1 H2 H3 H4 H5 H6 H7]. split; try done.
  - intros it td (r & tk & Hr & Htk & E)%H3. destruct (Hk _ _ Htk) as (tk' & ? & E').
    exists r, tk'. rewrite E'. done.
  - intros id it (td & r & tk & ? & ? & Htk & ?)%H5. destruct (Hk _ _ Htk) as (tk' & ? & E').
    exists td, r, tk'. rewrite E'. done.
Qed.

Lemma assign_units_lookup m us it u :
  assign_units m us it !! u = if decide (u ∈ us) then Some it else m !! u.
Proof.
  unfold assign_units. transitivity (if decide (u ∈ elements us) then Some it else m !! u).
  - induction (elements us) as [|x l IH]; cbn [foldr]; [by rewrite decide_False by set_solver|].
    destruct (decide (u = x)) as [->|].
    + rewrite lookup_insert_eq. by rewrite decide_True by set_solver.
    + rewrite lookup_insert_ne, IH by done. repeat case_decide; set_solver.
  - repeat case_decide; set_solver.
Qed.

Lemma erase_iter_lookup m it u it' :
  erase_iter m it !! u = Some it' ↔ m !! u = Some it' ∧ it' ≠ it.
Proof. unfold erase_iter. rewrite map_lookup_filter_Some. done. Qed.

Lemma wf_set_byUnit h b m : wf h b → (∀ u it, m !! u = Some it → it ∈ (tasks_ b).*1) →
  wf h (set_tasksByUnit b m).
Proof. intros [] ?. by split. Qed.

Lemma al_find_snoc {K V} `{EqDecision K} (l : list (K * V)) k v k' :
  al_find k' (l ++ [(k, v)]) = match al_find k' l with Some x => Some x | None => if decide (k' = k) then Some v else None end.
Proof. induction l as [|[k0 v0] l IH]; simpl; [done|].
  destruct (decide (k' = k0)); [done|apply IH]. Qed.

Lemma al_find_elem {K V} `{EqDecision K} (l : list (K * V)) k v : al_find k l = Some v → k ∈ l.*1.
Proof. intros H%al_find_Some_in. apply list_elem_of_fmap. by exists (k, v). Qed.

Lemma al_elem_find {K V} `{EqDecision K} (l : list (K * V)) k : k ∈ l.*1 → is_Some (al_find k l).
Proof.
  intros H. destruct (al_find k l) eqn:E; [eauto|]. apply al_find_None in E. done.
Qed.

Lemma al_erase_absent {K V} `{EqDecision K} (l : list (K * V)) k : al_find k l = None → al_erase k l = l.
Proof.
  intros H%al_find_None. unfold al_erase. induction l as [|[k0 v0] l IH]; [done|].
  csimpl in H. rewrite filter_cons, decide_True by set_solver. f_equal. apply IH. set_solver.
Qed.

Lemma al_erase_perm {K V} `{EqDecision K} (l : list (K * V)) k v : al_wf l →
  al_find k l = Some v → l ≡ₚ (k, v) :: al_erase k l.
Proof.
  unfold al_wf. induction l as [|[k0 v0] l IH]; [done|]. csimpl.
  intros [Hn Hnd]%NoDup_cons Hf. unfold al_erase. rewrite filter_cons. csimpl.
  destruct (decide (k = k0)) as [->|Hne]; simplify_eq.
  - rewrite decide_False by naive_solver. fold (al_erase k0 l).
    rewrite al_erase_absent; [done|by apply al_find_None].
  - rewrite decide_True by done. rewrite (IH Hnd Hf) at 1. apply perm_swap.
Qed.

Lemma al_find_erase_Some {K V} `{EqDecision K} (l : list (K * V)) k k' v :
  al_find k' (al_erase k l) = Some v ↔ k' ≠ k ∧ al_find k' l = Some v.
Proof. rewrite al_find_erase. case_decide; naive_solver. Qed.

(** ** Posting *)

(** The node of a posted task is determined by its identifier. *)
Lemma wf_node_id h b it td r tk id : wf h b → al_find it (tasks_ b) = Some td → task td = Some r →
  h !! r = Some tk → (Task.upcId tk = id ↔ al_find id (tasksById_ b) = Some it).
Proof.
  intros Hwf Hit Hr Htk. destruct (wf_live _ _ Hwf _ _ Hit) as (r' & tk' & ? & ? & E). simplify_eq.
  split; [by intros <-|]. intros E2. destruct (wf_byId _ _ Hwf _ _ E2) as (td2 & r2 & tk2 & ? & ? & ? & ?).
  simplify_eq. done.
Qed.

Lemma postTask_ok h b r tk ow ar f : wf h b → h !! r = Some tk →
  al_find (Task.upcId tk) (tasksById_ b) = None →
  ∃ b', postTask h b r ow ar f = Ok b' ∧ wf h b' ∧
    tasks_ b' = tasks_ b ++ [(next_ b, TD (Some r) ow ar f)] ∧
    tasksById_ b' = smap_set (Task.upcId tk) (next_ b) (tasksById_ b) ∧
    tasksByModule_ b' = tasksByModule_ b ++ [(ow, next_ b)] ∧
    tasksByUnit_ b' = assign_units (tasksByUnit_ b) (Task.units tk) (next_ b).
Proof.
  intros Hwf Hr Hnew. unfold postTask. rewrite Hr. cbn [of_option rbind]. rewrite Hnew.
  eexists. split; [done|]. split; [|done]. destruct Hwf as [H1 [H2 H2'] H3 H4 H5 H6 H7].
  assert (next_ b ∉ (tasks_ b).*1) as Hfresh by (intros ?%H2'; lia).
  split; simpl.
  - unfold al_wf. rewrite fmap_app. apply NoDup_app. split_and!; [done| |apply NoDup_singleton].
    intros x Hx ->%list_elem_of_singleton. done.
  - split; [lia|]. intros it. rewrite fmap_app, elem_of_app. intros [?%H2'|?%list_elem_of_singleton]; simpl in *; lia.
  - intros it td. rewrite al_find_snoc. destruct (al_find it (tasks_ b)) as [td0|] eqn:E.
    + intros [= ->]. destruct (H3 _ _ E) as (r0 & tk0 & ? & ? & E0). exists r0, tk0.
      rewrite al_find_smap_set, decide_False by congruence. done.
    + case_decide; [|done]. intros [= <-]. subst. exists r, tk.
      by rewrite al_find_smap_set, decide_True.
  - by apply smap_set_wf.
  - intros id it. rewrite al_find_smap_set. case_decide; [intros [= <-]; subst|].
    + exists (TD (Some r) ow ar f), r, tk. rewrite al_find_snoc.
      apply al_find_None in Hfresh. rewrite Hfresh, decide_True by done. done.
    + intros (td & r0 & tk0 & E & ?)%H5. exists td, r0, tk0. rewrite al_find_snoc, E. done.
  - rewrite map_app, H6. done.
  - intros u it. rewrite assign_units_lookup, fmap_app, elem_of_app. case_decide.
    + intros [= <-]. right. simpl. set_solver.
    + intros ?%H7. by left.
Qed.

(** The tasks of a module, each found through its iterator. *)
Definition add_owned (b : t) (m : ModulePtr) (acc : list (option Task.ref)) (e : ModulePtr * Z)
    : res (list (option Task.ref)) :=
  if decide (e.1 = m) then let? td := deref b e.2 in Ok (acc ++ [task td]) else Ok acc.

Lemma tasksOfModule_posted h b b' m it td : wf h b → al_find it (tasks_ b) = None →
  tasks_ b' = tasks_ b ++ [(it, td)] → tasksByModule_ b' = tasksByModule_ b ++ [(owner td, it)] →
  ∃ l, tasksOfModule b m = Ok l ∧
    tasksOfModule b' m = Ok (if decide (owner td = m) then l ++ [task td] else l).
Proof.
  intros Hwf Hnew Et Em.
  assert (∀ e, e ∈ tasksByModule_ b → ∃ td0, al_find e.2 (tasks_ b) = Some td0) as Hin.
  { intros e He. rewrite (wf_byModule _ _ Hwf) in He. apply list_elem_of_fmap in He as ([it0 td0] & -> & He).
    exists td0. apply al_in_find; [apply Hwf|done]. }
  assert (∀ l acc, (∀ e, e ∈ l → ∃ td0, al_find e.2 (tasks_ b) = Some td0) →
    ∃ r, rfold (add_owned b m) l acc = Ok r ∧ rfold (add_owned b' m) l acc = Ok r) as Hl.
  { induction l as [|e l IH]; intros acc Hl; cbn [rfold]; [eauto|]. destruct (Hl e) as [td0 E0]; [by left|].
    unfold add_owned, deref at 1 3. rewrite Et, al_find_snoc, E0. case_decide; cbn [of_option rbind]; apply IH; set_solver. }
  destruct (Hl (tasksByModule_ b) []) as (l & E1 & E2); [done|]. exists l. split; [exact E1|].
  unfold tasksOfModule. fold (add_owned b' m). rewrite Em, rfold_app. setoid_rewrite E2. cbn [rbind rfold].
  unfold add_owned, deref. cbn [fst snd]. rewrite Et, al_find_snoc, Hnew. case_decide; [|done]. by rewrite decide_True.
Qed.

(** C5 Posting a task twice under one UPC throws; otherwise the indexes stay
    consistent, the task is found by its identifier, in the list of its owner
    and by each of its units, with its owner, its removal policy and its frame
    as they were given, and no other task is found differently by identifier,
    by owner or by unit. *)
Theorem postTask_spec h b r tk ow ar f : wf h b → h !! r = Some tk →
  match taskForId b (Task.upcId tk) with
  | Ok (Some _) => postTask h b r ow ar f = Throw "Existing task found"
  | _ => ∃ b', postTask h b r ow ar f = Ok b' ∧ wf h b' ∧
      taskForId b' (Task.upcId tk) = Ok (Some r) ∧
      (∃ it, al_find (Task.upcId tk) (tasksById_ b') = Some it ∧ deref b' it = Ok (TD (Some r) ow ar f)) ∧
      (∃ l, tasksOfModule b ow = Ok l ∧ tasksOfModule b' ow = Ok (l ++ [Some r])) ∧
      (∀ m, m ≠ ow → tasksOfModule b' m = tasksOfModule b m) ∧
      (∀ id, id ≠ Task.upcId tk → taskForId b' id = taskForId b id) ∧
      (∀ u, u ∈ Task.units tk → taskDataWithUnit b' u = Ok (TD (Some r) ow ar f)) ∧
      (∀ u, u ∉ Task.units tk → taskDataWithUnit b' u = taskDataWithUnit b u)
  end.
Proof.
  intros Hwf Hr. unfold taskForId at 1. destruct (al_find (Task.upcId tk) (tasksById_ b)) as [it|] eqn:E.
  - destruct (wf_byId _ _ Hwf _ _ E) as (td & r0 & tk0 & Ht & Ho & _).
    unfold deref. rewrite Ht. simpl. rewrite Ho. unfold postTask. rewrite Hr. simpl. by rewrite E.
  - destruct (postTask_ok h b r tk ow ar f Hwf Hr E) as (b' & Hp & Hwf' & Et & Ei & Em & Eu).
    destruct (wf_next _ _ Hwf) as [_ Hnx].
    assert (al_find (next_ b) (tasks_ b) = None) as Hfresh by (apply al_find_None; intros ?%Hnx; lia).
    assert (∀ m, ∃ l, tasksOfModule b m = Ok l ∧ tasksOfModule b' m = Ok (if decide (ow = m) then l ++ [Some r] else l))
      as Hm by (intros m; by eapply (tasksOfModule_posted h b b' m _ (TD (Some r) ow ar f))).
    exists b'. split_and!; [done|done|..].
    + unfold taskForId, deref. rewrite Ei, Et, al_find_smap_set, decide_True by done.
      by rewrite al_find_snoc, Hfresh, decide_True.
    + exists (next_ b). unfold deref. rewrite Ei, Et, al_find_smap_set, decide_True by done.
      by rewrite al_find_snoc, Hfresh, decide_True.
    + destruct (Hm ow) as (l & E1 & E2). rewrite decide_True in E2 by done. eauto.
    + intros m Hne. destruct (Hm m) as (l & -> & ->). by rewrite decide_False.
    + intros id Hid. unfold taskForId, deref. rewrite Ei, Et, al_find_smap_set, decide_False by done.
      destruct (al_find id (tasksById_ b)) as [it|] eqn:E2; [|done].
      destruct (wf_byId _ _ Hwf _ _ E2) as (td & ? & ? & Hf & _). by rewrite al_find_snoc, Hf.
    + intros u Hu. unfold taskDataWithUnit, deref. rewrite Eu, Et, assign_units_lookup, decide_True by done.
      by rewrite al_find_snoc, Hfresh, decide_True.
    + intros u Hu. unfold taskDataWithUnit, deref. rewrite Eu, Et, assign_units_lookup, decide_False by done.
      destruct (tasksByUnit_ b !! u) as [it|] eqn:E2; [|done].
      apply (wf_byUnit _ _ Hwf) in E2. apply al_elem_find in E2 as [td Hf]. by rewrite al_find_snoc, Hf.
Qed.

(** ** Removal *)

Lemma erase_module_spec h b ow id it l :
  (∀ m it', (m, it') ∈ l → ∃ td r tk, al_find it' (tasks_ b) = Some td ∧ task td = Some r ∧
     h !! r = Some tk ∧ (Task.upcId tk = id ↔ it' = it)) →
  (ow, it) ∈ l → ∃ l', erase_module h b ow id l = Ok l' ∧ l ≡ₚ (ow, it) :: l'.
Proof.
  induction l as [|[m it'] l IH]; intros Hl Hin; [set_solver|]. cbn [erase_module].
  destruct (Hl m it') as (td & r & tk & Ht & Ho & Hr & Hid); [set_solver|].
  assert ((ow, it) ∈ l → ∃ l', (let? l' := erase_module h b ow id l in Ok ((m, it') :: l')) = Ok l' ∧
            (m, it') :: l ≡ₚ (ow, it) :: l') as Hrec.
  { intros Hin'. destruct (IH (λ m i H, Hl m i ltac:(set_solver)) Hin') as (l' & -> & Hp).
    eexists. split; [done|]. rewrite Hp. apply perm_swap. }
  destruct (decide (m = ow)) as [->|Hne].
  - unfold deref. rewrite Ht. simpl. rewrite Ho. simpl. rewrite Hr. simpl.
    destruct (Z.eqb_spec (Task.upcId tk) id) as [E|E].
    + apply Hid in E as ->. eauto.
    + apply Hrec. apply elem_of_cons in Hin as [[= <-]|?]; [tauto|done].
  - apply Hrec. apply elem_of_cons in Hin as [[= ? ?]|?]; [congruence|done].
Qed.

Lemma remove_task_ok h b id : wf h b →
  ∃ b', remove_task h b id = Ok b' ∧ wf h b' ∧
    tasksById_ b' = al_erase id (tasksById_ b) ∧
    tasksToBeRemoved_ b' = tasksToBeRemoved_ b ∧ lastTaskStatus_ b' = lastTaskStatus_ b ∧
    (∀ it td, al_find it (tasks_ b') = Some td → al_find it (tasks_ b) = Some td).
Proof.
  intros Hwf. unfold remove_task. destruct (al_find id (tasksById_ b)) as [it|] eqn:E.
  2:{ exists b. rewrite al_erase_absent by done. eauto 10. }
  destruct (wf_byId _ _ Hwf _ _ E) as (td & r & tk & Ht & Ho & Hr & Hid).
  unfold deref. rewrite Ht. cbn [of_option rbind].
  destruct (erase_module_spec h b (owner td) id it (tasksByModule_ b)) as (l' & -> & Hp).
  { intros m it' Hin. rewrite (wf_byModule _ _ Hwf) in Hin.
    apply list_elem_of_fmap in Hin as ([it0 td0] & [= -> ->] & Hin).
    apply al_in_find in Hin; [|apply Hwf].
    destruct (wf_live _ _ Hwf _ _ Hin) as (r0 & tk0 & Ho0 & Hr0 & _).
    exists td0, r0, tk0. split_and!; try done.
    rewrite (wf_node_id h b it0 td0 r0 tk0 id Hwf Hin Ho0 Hr0), E. naive_solver. }
  { rewrite (wf_byModule _ _ Hwf). apply list_elem_of_fmap. exists (it, td).
    split; [done|]. by apply al_find_Some_in. }
  cbn [rbind]. eexists. split; [done|]. simpl. split_and!; try done.
  2:{ intros it0 td0. rewrite al_find_erase_Some. naive_solver. }
  destruct Hwf as [H1 [H2 H2'] H3 H4 H5 H6 H7]. split; simpl.
  - by apply al_erase_wf.
  - split; [done|]. intros it0 (td0 & Hf)%al_elem_find.
    apply al_find_erase_Some in Hf as [_ Hf]. by eapply H2', al_find_elem.
  - intros it0 td0 [Hne Hf]%al_find_erase_Some. destruct (H3 _ _ Hf) as (r0 & tk0 & ? & ? & E0).
    exists r0, tk0. rewrite al_find_erase, decide_False; [done|]. congruence.
  - by apply smap_erase_wf.
  - intros id0 it0 [Hne Hf]%al_find_erase_Some. destruct (H5 _ _ Hf) as (td0 & r0 & tk0 & Hf0 & ? & Hr0 & Hid0).
    exists td0, r0, tk0. rewrite al_find_erase, decide_False; [done|].
    intros ->. congruence.
  - rewrite H6, (al_erase_perm _ _ _ H1 Ht) in Hp. simpl in Hp. by apply Permutation_cons_inv in Hp.
  - intros u it0 [Hu Hne]%erase_iter_lookup. apply H7, al_elem_find in Hu as [td0 Hf].
    apply (al_find_elem _ _ td0). by rewrite al_find_erase_Some.
Qed.

Lemma remove_all_ok h l b : wf h b →
  ∃ b', rfold (remove_task h) l b = Ok b' ∧ wf h b' ∧
    (∀ id, al_find id (tasksById_ b') = if decide (id ∈ l) then None else al_find id (tasksById_ b)) ∧
    lastTaskStatus_ b' = lastTaskStatus_ b ∧
    (∀ it td, al_find it (tasks_ b') = Some td → al_find it (tasks_ b) = Some td).
Proof.
  revert b. induction l as [|id l IH]; intros b Hwf; cbn [rfold].
  - exists b. by split_and!.
  - destruct (remove_task_ok h b id Hwf) as (b1 & -> & Hwf1 & E1 & _ & L1 & T1). cbn [rbind].
    destruct (IH b1 Hwf1) as (b2 & -> & Hwf2 & E2 & L2 & T2). exists b2.
    split_and!; [done|done| |congruence|naive_solver].
    intros id'. rewrite E2, E1, al_find_erase. repeat case_decide; set_solver.
Qed.

Lemma remove_pending_ok h b : wf h b →
  ∃ b', remove_pending h b = Ok b' ∧ wf h b' ∧ tasksToBeRemoved_ b' = [] ∧
    (∀ id, al_find id (tasksById_ b') =
       if decide (id ∈ tasksToBeRemoved_ b) then None else al_find id (tasksById_ b)) ∧
    lastTaskStatus_ b' = lastTaskStatus_ b ∧
    (∀ it td, al_find it (tasks_ b') = Some td → al_find it (tasks_ b) = Some td).
Proof.
  intros Hwf. unfold remove_pending.
  destruct (remove_all_ok h (tasksToBeRemoved_ b) b Hwf) as (b1 & -> & [] & E1 & L1 & T1).
  eexists. split; [done|]. split; [by split|]. done.
Qed.

(** C6 Removing the tasks marked for removal never follows a dangling
    iterator, keeps the indexes consistent and afterwards exactly the marked
    tasks are gone: every other identifier finds the task it found before. *)
Theorem remove_pending_spec h b : wf h b →
  ∃ b', remove_pending h b = Ok b' ∧ wf h b' ∧ tasksToBeRemoved_ b' = [] ∧
    ∀ id, taskForId b' id = if decide (id ∈ tasksToBeRemoved_ b) then Ok None else taskForId b id.
Proof.
  intros Hwf. destruct (remove_pending_ok h b Hwf) as (b' & Hr & Hwf' & Hn & Hi & _ & Ht).
  exists b'. split_and!; try done. intros id. unfold taskForId, deref. rewrite Hi.
  case_decide; [done|]. destruct (al_find id (tasksById_ b)) as [it|] eqn:E; [|done].
  specialize (Hi id). rewrite decide_False, E in Hi by done.
  destruct (wf_byId _ _ Hwf' _ _ Hi) as (td & _ & _ & Hf & _). by rewrite Hf, (Ht _ _ Hf).
Qed.

(** ** Units *)

Lemma remove_destroyed_lookup b l u :
  tasksByUnit_ (remove_destroyed b l) !! u = if decide (u ∈ l) then None else tasksByUnit_ b !! u.
Proof.
  unfold remove_destroyed. simpl. generalize (tasksByUnit_ b) as m.
  induction l as [|x l IH]; intros m; cbn [fold_left]; [by rewrite decide_False by set_solver|].
  assert (match m !! x with Some _ => delete x m | None => m end = delete x m) as ->.
  { destruct (m !! x) eqn:E; [done|]. by rewrite delete_id. }
  rewrite IH. destruct (decide (u = x)) as [->|].
  - rewrite lookup_delete_eq. rewrite (decide_True (P := x ∈ x :: l)) by set_solver. by case_decide.
  - rewrite lookup_delete_ne by done. repeat case_decide; set_solver.
Qed.

Lemma remove_destroyed_wf h b l : wf h b → wf h (remove_destroyed b l).
Proof.
  intros Hwf. apply wf_set_byUnit; [done|]. intros u it Hu.
  assert (tasksByUnit_ (remove_destroyed b l) !! u = Some it) as Hu' by done.
  rewrite remove_destroyed_lookup in Hu'. case_decide; [done|]. by eapply wf_byUnit.
Qed.

Lemma find_task_posted h b r it td : wf h b → al_find it (tasks_ b) = Some td → task td = Some r →
  find_task r (tasks_ b) = it.
Proof.
  intros Hwf Hit Ho. assert (∀ it' td', al_find it' (tasks_ b) = Some td' → task td' = Some r → it' = it) as Hu.
  { intros it' td' Hit' Ho'. destruct (wf_live _ _ Hwf _ _ Hit) as (? & ? & ? & ? & ?).
    destruct (wf_live _ _ Hwf _ _ Hit') as (? & ? & ? & ? & ?). simplify_eq. done. }
  pose proof (wf_nodes _ _ Hwf) as Hnd. unfold al_wf in Hnd. revert Hnd Hit Hu.
  induction (tasks_ b) as [|[it0 td0] l IH]; csimpl; [done|]. intros [Hn Hnd]%NoDup_cons Hit Hu.
  destruct (decide (task td0 = Some r)) as [E|E].
  - apply (Hu it0 td0); [|done]. by rewrite decide_True.
  - case_decide; simplify_eq. apply IH; [done|done|]. intros it' td' Hf' Ho'.
    apply (Hu it' td'); [|done]. rewrite decide_False; [done|].
    intros ->. by apply Hn, (al_find_elem _ _ td').
Qed.

Lemma find_task_node b r it td : al_find it (tasks_ b) = Some td → find_task r (tasks_ b) = it → al_wf (tasks_ b) →
  it ≠ end_ → task td = Some r.
Proof.
  unfold al_wf. induction (tasks_ b) as [|[it0 td0] l IH]; csimpl; [done|]. intros Hit Hf [Hn Hnd]%NoDup_cons Hne.
  destruct (decide (task td0 = Some r)) as [E|E].
  - rewrite decide_True in Hit by done. congruence.
  - case_decide as Ei; [|by apply IH]. simplify_eq. exfalso. destruct Hne.
    assert (∀ l', find_task r l' ∉ l'.*1 → find_task r l' = end_) as Hx.
    { induction l' as [|[i d] l' IHl]; csimpl; [done|]. case_decide; [set_solver|]. intros Hi. apply IHl. set_solver. }
    by apply Hx.
Qed.

Lemma find_task_unposted r l : (∀ it td, (it, td) ∈ l → task td ≠ Some r) → find_task r l = end_.
Proof.
  induction l as [|[it td] l IH]; intros Hl; [done|]. simpl.
  rewrite decide_False by (apply (Hl it td); set_solver). apply IH. intros i d ?. apply (Hl i d). set_solver.
Qed.

(** It only needs the task; a task without units leaves the indexes consistent
    even when it is not on the board. *)
Lemma updateTasksByUnit_no_units h b r tk : wf h b → h !! r = Some tk → Task.units tk = ∅ →
  updateTasksByUnit h b r = Ok (set_tasksByUnit b (erase_iter (tasksByUnit_ b) (find_task r (tasks_ b)))) ∧
  wf h (set_tasksByUnit b (erase_iter (tasksByUnit_ b) (find_task r (tasks_ b)))).
Proof.
  intros Hwf Hr Hu. unfold updateTasksByUnit. rewrite Hr. cbn [of_option rbind]. rewrite Hu. split; [done|].
  apply wf_set_byUnit; [done|]. intros u it [? _]%erase_iter_lookup. by eapply wf_byUnit.
Qed.

(** After [setUnits], [updateTasksByUnit] maps exactly the task's units to
    it and leaves the units of other tasks mapped where they were. *)
Theorem updateTasksByUnit_spec h b r tk it td : wf h b → h !! r = Some tk →
  al_find it (tasks_ b) = Some td → task td = Some r →
  ∃ b', updateTasksByUnit h b r = Ok b' ∧ wf h b' ∧
    ∀ u, tasksByUnit_ b' !! u =
      if decide (u ∈ Task.units tk) then Some it
      else match tasksByUnit_ b !! u with
           | Some it' => if decide (it' = it) then None else Some it'
           | None => None
           end.
Proof.
  intros Hwf Hr Hit Ho. unfold updateTasksByUnit. rewrite (find_task_posted h b r it td) by done.
  rewrite Hr. cbn [of_option rbind]. eexists. split; [done|]. split.
  - apply wf_set_byUnit; [done|]. intros u it'. rewrite assign_units_lookup. case_decide.
    + intros [= <-]. by eapply al_find_elem.
    + intros [? _]%erase_iter_lookup. by eapply wf_byUnit.
  - intros u. simpl. rewrite assign_units_lookup. case_decide; [done|].
    apply option_eq. intros it'. rewrite erase_iter_lookup.
    destruct (tasksByUnit_ b !! u); [case_decide|]; naive_solver.
Qed.

(** The guard is missing for a task that is not on the board: its units get
    the end iterator, and looking one of them up is undefined. *)
Theorem updateTasksByUnit_unposted h b r tk u : wf h b → h !! r = Some tk →
  (∀ it td, (it, td) ∈ tasks_ b → task td ≠ Some r) → u ∈ Task.units tk →
  ∃ b', updateTasksByUnit h b r = Ok b' ∧ taskWithUnit b' u = Undefined.
Proof.
  intros Hwf Hr Hno Hu. unfold updateTasksByUnit. rewrite find_task_unposted by done.
  rewrite Hr. cbn [of_option rbind]. eexists. split; [done|].
  unfold taskWithUnit, deref. simpl. rewrite assign_units_lookup, decide_True by done.
  destruct (al_find end_ (tasks_ b)) eqn:E; [|done].
  apply al_find_elem, (wf_next _ _ Hwf) in E. unfold end_ in E. lia.
Qed.

Lemma record_task_ok h b id it td r tk ms : wf h b → al_find it (tasks_ b) = Some td →
  h !! r = Some tk →
  ∃ b', record_task h b id it td r ms = Ok b' ∧ wf h b' ∧
    tasksById_ b' = tasksById_ b ∧ tasks_ b' = tasks_ b ∧
    tasksByUnit_ b' = assign_units (erase_iter (tasksByUnit_ b) it) (Task.units tk) it ∧
    lastTaskStatus_ b' = <[Task.upcId tk := Task.status tk]> (lastTaskStatus_ b) ∧
    tasksToBeRemoved_ b' =
      (if autoRemove td && Task.finished tk then tasksToBeRemoved_ b ++ [id] else tasksToBeRemoved_ b).
Proof.
  intros Hwf Hit Hr. unfold record_task. rewrite Hr. cbn [of_option rbind].
  eexists. split; [done|]. split; [|done].
  destruct Hwf as [H1 H2 H3 H4 H5 H6 H7]. split; simpl; try done.
  intros u it'. rewrite assign_units_lookup. case_decide.
  - intros [= <-]. by eapply al_find_elem.
  - intros [? _]%erase_iter_lookup. by eapply H7.
Qed.

(** ** An example board *)

(** A task for UPC 5 that holds unit 10, and a proxy for it. *)
Definition example_heap : Task.heap :=
  <[1 := Task.make 5 {[10]} 0]> (<[2 := Task.ProxyTask 5 3]> ∅).
Definition example_board : t :=
  match postTask example_heap make 1 (Some 7) true 0 with Ok b => b | _ => make end.

Lemma example_board_consistent : wf example_heap example_board.
Proof.
  destruct (postTask_ok example_heap make 1 (Task.make 5 {[10]} 0) (Some 7) true 0)
    as (b & E & Hwf & _); [apply no_tasks_wf|done|done|].
  unfold example_board. by rewrite E.
Qed.

Lemma postTask_spec_witness :
  ∃ b', postTask example_heap example_board 2 (Some 7) false 1 = Ok b' ∧ wf example_heap b' ∧
        taskForId b' 3 = Ok (Some 2) ∧ tasksOfModule b' (Some 7) = Ok [Some 1; Some 2].
Proof.
  destruct (postTask_spec example_heap example_board 2 (Task.ProxyTask 5 3) (Some 7) false 1)
    as (b' & H1 & H2 & H3 & _ & (l & El & El') & _); [apply example_board_consistent|reflexivity|].
  vm_compute in El. injection El as <-.
  exists b'. split; [exact H1|]. split; [exact H2|]. split; [exact H3|exact El'].
Defined.

Lemma remove_pending_spec_witness :
  ∃ b', remove_pending example_heap (markTaskForRemoval example_board 5) = Ok b' ∧
        taskForId b' 5 = Ok None.
Proof.
  destruct (remove_pending_spec example_heap (markTaskForRemoval example_board 5))
    as (b' & H1 & _ & _ & H2); [destruct example_board_consistent; by split|].
  exists b'. split; [exact H1|]. rewrite H2. reflexivity.
Defined.

(** The example's task after it has exchanged its unit for another. *)
Definition example_moved : Task.heap := <[1 := Task.make 5 {[11]} 0]> example_heap.

Lemma updateTasksByUnit_spec_witness :
  ∃ b', updateTasksByUnit example_moved example_board 1 = Ok b' ∧
        tasksByUnit_ b' !! 11 = Some 1 ∧ tasksByUnit_ b' !! 10 = None.
Proof.
  destruct (updateTasksByUnit_spec example_moved example_board 1 (Task.make 5 {[11]} 0) 1
              (TD (Some 1) (Some 7) true 0)) as (b' & H1 & _ & H2).
  - eapply wf_heap; [|apply example_board_consistent]. by eapply keeps_ids_insert.
  - reflexivity.
  - reflexivity.
  - reflexivity.
  - exists b'. split; [exact H1|]. rewrite !H2. split; reflexivity.
Defined.

Lemma updateTasksByUnit_unposted_witness :
  ∃ b', updateTasksByUnit (<[3 := Task.make 6 {[12]} 0]> example_heap) example_board 3 = Ok b' ∧
        taskWithUnit b' 12 = Undefined.
Proof.
  apply (updateTasksByUnit_unposted (<[3 := Task.make 6 {[12]} 0]> example_heap) example_board 3
           (Task.make 6 {[12]} 0) 12).
  - eapply wf_heap; [|apply example_board_consistent]. intros r tk Hr.
    exists tk. split; [|reflexivity]. rewrite lookup_insert_ne; [exact Hr|]. intros <-. discriminate Hr.
  - reflexivity.
  - intros it td Hin. vm_compute in Hin.
    apply list_elem_of_singleton in Hin. injection Hin as _ E2. subst td. intros E3. discriminate E3.
  - set_solver.
Defined.

End BoardTasks.
