(* ===== verification/Blackboard.v ===== *)
(** * The blackboard ([src/blackboard.h], [src/blackboard.cpp])

    The whole board: its key-value store, the UPCs on it and the active ones,
    the tasks ([BoardTasks]), the commands of the last sixteen steps, and the
    per-step [update].  Drawing and logging (off by default) are left out.

    What comes from elsewhere is a parameter: the [update] that a module's task
    class overrides, the clock, and the code of the unit command. *)

From S2P Require Import Prelude Floats Geometry CircularBuffer BuildTypes Units Upc UpcStorage.
From S2P Require Import UpcFilter Tasks BoardTasks.

Module Blackboard.

(** [src/src/blackboard.h:36-45] UPCData *)
Record UPCData := UD { upc : Upc.t; source : Z; origin : ModulePtr }.

(** [tc::Client::Command] *)
Record ClientCommand := CC { code : Z; args : list Z }.

(** [src/src/blackboard.h:70-73] CommandPost *)
Record CommandPost := CP { command : ClientCommand; sourceId : Z }.

(** A value of the key-value store; controllers and tensors are opaque.

    [src/src/blackboard.h:91-100] Blackboard::Data *)
Inductive Data :=
| DBool (b : bool)
| DInt (z : Z)
| DFloat (f : float32)
| DDouble (f : float64)
| DString (s : string)
| DPosition (p : Position)
| DController (p : Z)
| DIntMap (m : gmap Z Z)
| DTensor (t : Upc.tensor).

(** The filters of [upcfilter.cpp], each an object with its address. *)
Inductive UPCFilter := FAssignedUnits (p : Z) | FSanity (p : Z).

#[global] Instance UPCFilter_eq_dec : EqDecision UPCFilter.
Proof. solve_decision. Defined.

(** [src/src/blackboard.h:261-285] Blackboard *)
Record t := Board {
  map_ : gmap string Data;
  commands_ : CircularBuffer.t (list CommandPost);
  upcs_ : list (Z * UPCData);
  upcStorage_ : UpcStorage.t;
  activeUpcs_ : gmap Z Upc.t;
  upcFilters_ : list UPCFilter;
  tracked_ : gset Z;
  tasks : BoardTasks.t;
  unitAccessCounts_ : gmap Z Z
}.

(** [src/src/blackboard.cpp:63-69] Blackboard::Blackboard *)
Definition make : t :=
  Board ∅ (CircularBuffer.make [] 16) [] UpcStorage.make ∅ [] ∅ BoardTasks.make ∅.

Definition set_upcs (b : t) v := Board (map_ b) (commands_ b) v (upcStorage_ b) (activeUpcs_ b) (upcFilters_ b) (tracked_ b) (tasks b) (unitAccessCounts_ b).
Definition set_tasks (b : t) v := Board (map_ b) (commands_ b) (upcs_ b) (upcStorage_ b) (activeUpcs_ b) (upcFilters_ b) (tracked_ b) v (unitAccessCounts_ b).
Definition set_map (b : t) v := Board v (commands_ b) (upcs_ b) (upcStorage_ b) (activeUpcs_ b) (upcFilters_ b) (tracked_ b) (tasks b) (unitAccessCounts_ b).
Definition set_commands (b : t) v := Board (map_ b) v (upcs_ b) (upcStorage_ b) (activeUpcs_ b) (upcFilters_ b) (tracked_ b) (tasks b) (unitAccessCounts_ b).
Definition set_active (b : t) v := Board (map_ b) (commands_ b) (upcs_ b) (upcStorage_ b) v (upcFilters_ b) (tracked_ b) (tasks b) (unitAccessCounts_ b).
Definition set_filters (b : t) v := Board (map_ b) (commands_ b) (upcs_ b) (upcStorage_ b) (activeUpcs_ b) v (tracked_ b) (tasks b) (unitAccessCounts_ b).
Definition set_tracked (b : t) v := Board (map_ b) (commands_ b) (upcs_ b) (upcStorage_ b) (activeUpcs_ b) (upcFilters_ b) v (tasks b) (unitAccessCounts_ b).
Definition set_counts (b : t) v := Board (map_ b) (commands_ b) (upcs_ b) (upcStorage_ b) (activeUpcs_ b) (upcFilters_ b) (tracked_ b) (tasks b) v.

(** ** The key-value store *)

(** [src/src/blackboard.h:133-135] Blackboard::post *)
Definition post (b : t) (key : string) (d : Data) : t := set_map b (<[key := d]> (map_ b)).
(** [src/src/blackboard.h:136-138] Blackboard::hasKey *)
Definition hasKey (b : t) (key : string) : bool := bool_decide (is_Some (map_ b !! key)).
(** [src/src/blackboard.h:142-145] Blackboard::get *)
Definition get {T} (proj : Data → option T) (b : t) (key : string) : res T :=
  match map_ b !! key with
  | None => Throw "out_of_range"
  | Some d => match proj d with Some v => Ok v | None => Throw "bad_variant_access" end
  end.
(** [src/src/blackboard.h:146-153] Blackboard::get *)
Definition get_default {T} (proj : Data → option T) (b : t) (key : string) (dflt : T) : res T :=
  match map_ b !! key with
  | None => Ok dflt
  | Some d => match proj d with Some v => Ok v | None => Throw "bad_variant_access" end
  end.
(** [src/src/blackboard.h:154-156] Blackboard::remove *)
Definition remove (b : t) (key : string) : t := set_map b (delete key (map_ b)).

(** [src/src/blackboard.cpp:74-76] Blackboard::isTracked *)
Definition isTracked (b : t) (uid : Z) : bool := bool_decide (uid ∈ tracked_ b).
(** [src/src/blackboard.cpp:77-79] Blackboard::track *)
Definition track (b : t) (uid : Z) : t := set_tracked b (tracked_ b ∪ {[uid]}).
(** [src/src/blackboard.cpp:80-82] Blackboard::untrack *)
Definition untrack (b : t) (uid : Z) : t := set_tracked b (tracked_ b ∖ {[uid]}).

(** ** UPCs *)

Definition task_of_unit (b : t) (u : UnitPtr) : res (option Z * ModulePtr) :=
  let? td := match u with
             | Some u => BoardTasks.taskDataWithUnit (tasks b) u
             | None => Ok BoardTasks.no_data
             end in
  Ok (BoardTasks.task td, BoardTasks.owner td).

(** [filter->filter(state_, upc, origin)] *)
Definition run_filter (b : t) (f : UPCFilter) (u : Upc.t) (org : ModulePtr) : res (bool * Upc.t) :=
  match f with
  | FAssignedUnits _ => AssignedUnitsFilter.filter (task_of_unit b) u org
  | FSanity _ => Ok (SanityFilter.filter u)
  end.

(** [src/src/blackboard.cpp:93-105] Blackboard::postUPC *)
Fixpoint run_filters (b : t) (fs : list UPCFilter) (u : Upc.t) (org : ModulePtr) : res (bool * Upc.t) :=
  match fs with
  | [] => Ok (true, u)
  | f :: fs =>
      let? r := run_filter b f u org in
      let '(valid, u) := r in
      if (valid : bool) then run_filters b fs u org else Ok (false, u)
  end.

(** [src/src/blackboard.cpp:88-114] Blackboard::postUPC *)
Definition postUPC (b : t) (frame : Z) (u : Upc.t) (src : Z) (org : ModulePtr) (data : option Z)
    : res (t * Z) :=
  let? r := run_filters b (upcFilters_ b) u org in
  let '(valid, u) := r in
  if (valid : bool) then
    let '(st, id) := UpcStorage.addUpc (upcStorage_ b) frame src org (Some u) data in
    Ok (Board (map_ b) (commands_ b) (smap_set id (UD u src org) (upcs_ b)) st
          (<[id := u]> (activeUpcs_ b)) (upcFilters_ b) (tracked_ b) (tasks b) (unitAccessCounts_ b), id)
  else Ok (b, kFilteredUpcId).

(** [src/src/blackboard.cpp:116-122] Blackboard::consumeUPCs *)
Definition consumeUPCs (b : t) (ids : list Z) : t :=
  set_upcs b (fold_left (λ m id, al_erase id m) ids (upcs_ b)).

(** [src/src/blackboard.cpp:124-130] Blackboard::removeUPCs *)
Definition removeUPCs (b : t) (ids : list Z) : t :=
  set_upcs b (fold_left (λ m id, al_erase id m) ids (upcs_ b)).

(** [std::find_if(it, upcs.end(), pred)] *)
Fixpoint find_if (pred : Z * UPCData → bool) (l : list (Z * UPCData)) : list (Z * UPCData) :=
  match l with
  | [] => []
  | e :: l' => if pred e then l else find_if pred l'
  end.

(** [src/src/blackboard.cpp:27-42] selectUpcs *)
Fixpoint selectUpcs (fuel : nat) (pred : Z * UPCData → bool) (it : list (Z * UPCData))
    (result : list (Z * Upc.t)) : res (list (Z * Upc.t)) :=
  match find_if pred it with
  | [] => Ok result
  | e :: it' =>
      match fuel with
      | O => OutOfFuel
      | S fuel => selectUpcs fuel pred it' (result ++ [(e.1, upc e.2)])
      end
  end.

Definition select (b : t) (pred : Z * UPCData → bool) : res (list (Z * Upc.t)) :=
  selectUpcs (length (upcs_ b)) pred (upcs_ b) [].

(** [src/src/blackboard.cpp:132-134] Blackboard::upcs *)
Definition upcs (b : t) := select b (λ _, true).
(** [src/src/blackboard.cpp:136-140] Blackboard::upcsFrom *)
Definition upcsFrom (b : t) (org : ModulePtr) := select b (λ d, bool_decide (origin d.2 = org)).
(** [src/src/blackboard.cpp:142-146] Blackboard::upcsWithSharpCommand *)
Definition upcsWithSharpCommand (b : t) (cmd : Z) :=
  select b (λ d, feqb (Upc.commandProb (upc d.2) cmd) f32_1).
(** [src/src/blackboard.cpp:148-153] Blackboard::upcsWithCommand *)
Definition upcsWithCommand (b : t) (cmd : Z) (minProb : float32) :=
  select b (λ d, fleb minProb (Upc.commandProb (upc d.2) cmd)).
(** [src/src/blackboard.cpp:155-161] Blackboard::upcWithId *)
Definition upcWithId (b : t) (id : Z) : option Upc.t := upc <$> al_find id (upcs_ b).

(** [src/src/blackboard.cpp:167-169] Blackboard::addUPCFilter *)
Definition addUPCFilter (b : t) (f : UPCFilter) : t := set_filters b (upcFilters_ b ++ [f]).
(** [src/src/blackboard.cpp:171-173] Blackboard::removeUPCFilter *)
Definition removeUPCFilter (b : t) (f : UPCFilter) : t :=
  set_filters b (filter (λ g, g ≠ f) (upcFilters_ b)).

(** ** Tasks *)

(** [src/src/blackboard.cpp:328-342] Blackboard::updateTasksByUnit *)
Definition updateTasksByUnit (b : t) (h : Task.heap) (r : Task.ref) : res t :=
  let? ts := BoardTasks.updateTasksByUnit h (tasks b) r in Ok (set_tasks b ts).

(** Neither controllers nor tiles are on the board. *)
#[global] Instance board : Task.TaskBoard t.
Proof.
  refine {| Task.board_taskForId b id := BoardTasks.taskForId (tasks b) id;
            Task.board_removeUPCs := removeUPCs;
            Task.board_updateTasksByUnit := updateTasksByUnit;
            Task.board_release b _ _ := b;
            Task.board_taskForId_removeUPCs _ _ _ := eq_refl |}.
  intros b h r [tk Hr]. unfold updateTasksByUnit, BoardTasks.updateTasksByUnit. rewrite Hr. simpl. eauto.
Defined.

(** [src/src/blackboard.cpp:175-190] Blackboard::postTask *)
Definition postTask (h : Task.heap) (b : t) (r : Task.ref) (ow : ModulePtr) (autoRm : bool) (frame : Z) : res t :=
  let? ts := BoardTasks.postTask h (tasks b) r ow autoRm frame in Ok (set_tasks b ts).

(** ** Commands *)

Section commands.
(** [tc::BW::Command::CommandUnit] *)
Context (CommandUnit : Z).

(** [src/src/blackboard.cpp:252-264] Blackboard::updateUnitAccessCounts *)
Definition updateUnitAccessCounts (b : t) (c : ClientCommand) : t :=
  if code c =? CommandUnit then
    match args c with
    | unitId :: _ =>
        set_counts b (<[unitId := match unitAccessCounts_ b !! unitId with
                                  | None => 0
                                  | Some n => n + 1
                                  end]> (unitAccessCounts_ b))
    | [] => b
    end
  else b.

(** [src/src/unitsinfo.h:89-89] Unit::kLastUpcCommandThreshold *)
Definition kLastUpcCommandThreshold : float32 := f32_lit 1 2.

(** [src/src/blackboard.cpp:296-304] Blackboard::postCommand *)
Definition or_commands (acc : Z) (m : Upc.CommandMap) : Z :=
  fold_left (λ acc cit, if fleb kLastUpcCommandThreshold cit.2 then Z.lor acc cit.1 else acc) m acc.

(** [src/src/blackboard.cpp:287-307] Blackboard::postCommand *)
Fixpoint chain_commands (fuel : nat) (b : t) (curId acc : Z) : res Z :=
  if kRootUpcId <? curId then
    match fuel with
    | O => OutOfFuel
    | S fuel =>
        match activeUpcs_ b !! curId with
        | None => Ok acc
        | Some u => chain_commands fuel b (UpcStorage.sourceId (upcStorage_ b) curId) (or_commands acc (Upc.command u))
        end
    end
  else Ok acc.

(** [src/src/blackboard.cpp:266-317] Blackboard::postCommand *)
Definition postCommand (fuel : nat) (units : gmap Z Unit) (b : t) (c : ClientCommand) (src : Z)
    : res (gmap Z Unit * t) :=
  let b := updateUnitAccessCounts b c in
  let? cs := CircularBuffer.at_modify (commands_ b) 0 (λ l, l ++ [CP c src]) in
  let b := set_commands b cs in
  if code c =? CommandUnit then
    match args c with
    | [] => Ok (units, b)
    | unitId :: _ =>
        match units !! unitId with
        | None => Ok (units, b)
        | Some u =>
            let? cmds := chain_commands fuel b src Command.None in
            Ok (<[unitId := Unit.set_lastUpcCommands cmds (Unit.set_lastUpcId src u)]> units, b)
        end
    end
  else Ok (units, b).

(** [src/src/blackboard.cpp:319-326] Blackboard::commands *)
Definition commands (b : t) (stepsBack : Z) : res (list ClientCommand) :=
  let? l := CircularBuffer.at_ (commands_ b) (- Z.min stepsBack (CircularBuffer.size (commands_ b) - 1)) in
  Ok (map command l).

(** [src/src/blackboard.cpp:344-346] Blackboard::clearCommands *)
Definition clearCommands (b : t) : res t :=
  let? cs := CircularBuffer.push_default [] (commands_ b) in Ok (set_commands b cs).
End commands.

(** ** Update *)

(** [src/src/blackboard.cpp:384-388] Blackboard::update *)
Fixpoint mark_sources (fuel : nat) (st : UpcStorage.t) (curId : Z) (ids : gset Z) : res (gset Z) :=
  if kRootUpcId <=? curId then
    match fuel with
    | O => OutOfFuel
    | S fuel => mark_sources fuel st (UpcStorage.sourceId st curId) (ids ∪ {[curId]})
    end
  else Ok ids.

(** One unit of fuel per post, and two for the root and an unknown UPC. *)
Definition chain_fuel (st : UpcStorage.t) : nat := S (S (length (UpcStorage.posts_ st))).

(** [src/src/blackboard.cpp:380-405] Blackboard::update *)
Definition prune_active (b : t) : res t :=
  let st := upcStorage_ b in
  let? ids := rfold (λ ids e, mark_sources (chain_fuel st) st e.1 ids) (upcs_ b) ∅ in
  let? ids := rfold (λ ids e, mark_sources (chain_fuel st) st e.1 ids) (BoardTasks.tasksById_ (tasks b)) ids in
  Ok (set_active b (filter (λ p, p.1 ∈ ids) (activeUpcs_ b))).

(** ** The update of a task *)

(** The [update] of the classes of [task.cpp]; that of [Task] does nothing.

    [src/src/task.h:56-56] Task::update *)
Definition base_update (fuel : nat) (b : t) (h : Task.heap) (r : Task.ref) : res (t * Task.heap) :=
  let? tk := of_option (h !! r) in
  match Task.cls tk with
  | Task.KTask _ => Ok (b, h)
  | Task.KProxy tid target => let? h := Task.proxy_update b h r tk tid target in Ok (b, h)
  | Task.KMulti ids ts pu policy dflt => let? h := Task.multi_update fuel b h r tk ids ts pu policy dflt in Ok (b, h)
  end.

Section update.
(** The virtual [update]: what the class of the object makes of the [update] of
    the class of [task.cpp] it is derived from.  It may do anything to the board
    and to all the tasks. *)
Context (virtual : (t → Task.heap → Task.ref → res (t * Task.heap)) → t → Task.heap → Task.ref → res (t * Task.heap)).
(** The milliseconds an update takes. *)
Context (clock : Z → Z).

(** [task->update(state_)]

    [src/src/blackboard.cpp:430-430] Blackboard::update *)
Definition task_update (fuel : nat) : t → Task.heap → Task.ref → res (t * Task.heap) :=
  virtual (base_update fuel).

(** [src/src/blackboard.cpp:423-463] Blackboard::update *)
Definition update_task (fuel : nat) (hb : Task.heap * t) (e : Z * Z) : res (Task.heap * t) :=
  let '(h, b) := hb in
  let '(id, it) := e in
  let? td := BoardTasks.deref (tasks b) it in
  let? r := of_option (BoardTasks.task td) in
  let? tk := of_option (h !! r) in
  let run := bool_decide (Task.status tk ≠ Cancelled) in
  let? bh := if run then task_update fuel b h r else Ok (b, h) in
  let '(b, h) := bh in
  let? ts := BoardTasks.record_task h (tasks b) id it td r (if run then Some (clock id) else None) in
  Ok (h, set_tasks b ts).

(** [src/src/blackboard.cpp:420-463] Blackboard::update *)
Definition update_tasks (fuel : nat) (h : Task.heap) (b : t) : res (Task.heap * t) :=
  rfold (update_task fuel) (reverse (BoardTasks.tasksById_ (tasks b))) (h, b).

(** [src/src/blackboard.cpp:348-499] Blackboard::update *)
Definition update (fuel : nat) (h : Task.heap) (b : t) (destroyed : list Z) : res (Task.heap * t) :=
  let? ts := BoardTasks.remove_pending h (tasks b) in
  let? b := prune_active (set_tasks b ts) in
  let b := set_tasks b (BoardTasks.clear_stats (BoardTasks.remove_destroyed (tasks b) destroyed)) in
  let? hb := update_tasks fuel h b in
  let? _ := BoardTasks.overlaps hb.1 (tasks hb.2) in
  Ok hb.
End update.

(** The warnings about units two UPCs claim with probability one.

    [src/src/blackboard.cpp:501-528] Blackboard::checkPostStep *)
Definition checkPostStep (b : t) : list (UnitPtr * Z * Z) :=
  (fold_left (λ acc e,
     fold_left (λ '(dup, warn) up,
       if feqb up.2 f32_1 then
         match al_find up.1 dup with
         | Some other => (dup, warn ++ [(up.1, e.1, other)])
         | None => (al_set up.1 e.1 dup, warn)
         end
       else (dup, warn)) (Upc.unit (upc e.2)) acc)
     (upcs_ b) ([], [])).2.

End Blackboard.
