(* ===== verification/BlackboardUpcs.v ===== *)
(** * UPCs and commands on the blackboard: theorems

    What posting, querying, consuming and pruning UPCs and posting commands
    do, on every board whose storage is well formed. *)

From S2P Require Import Prelude Floats Geometry CircularBuffer BuildTypes Units Upc UpcStorage.
From S2P Require Import UpcFilter Tasks BoardTasks Blackboard.

Module BlackboardUpcs.
Import Blackboard.

(** ** Invariant *)

(** UPCs on the board were posted, are active and agree with the storage. *)
Record wf (b : t) : Prop := {
  wf_upcs : smap_wf (upcs_ b);
  wf_storage : UpcStorage.wf (upcStorage_ b);
  wf_posted id ud : al_find id (upcs_ b) = Some ud →
    0 < id ≤ UpcStorage.size (upcStorage_ b) ∧ activeUpcs_ b !! id = Some (upc ud) ∧
    UpcStorage.sourceId (upcStorage_ b) id = source ud;
  wf_active id : is_Some (activeUpcs_ b !! id) → 0 < id ≤ UpcStorage.size (upcStorage_ b);
  wf_commands : CircularBuffer.wf (commands_ b)
}.

Lemma fresh_board_wf : wf make.
Proof.
  split.
  - constructor.
  - apply UpcStorage.no_posts_wf.
  - done.
  - intros id [u Hu]. simpl in Hu. by rewrite lookup_empty in Hu.
  - apply (CircularBuffer.make_models [] 16). lia.
Qed.

(** The board a [State] sets up. *)
Definition initial : t := addUPCFilter (addUPCFilter make (FAssignedUnits 1)) (FSanity 2).

Lemma initial_wf : wf initial.
Proof. destruct fresh_board_wf. by split. Qed.

(** ** Queries *)

Lemma find_if_spec pred l :
  match find_if pred l with
  | [] => filter (λ e, pred e = true) l = []
  | e :: l' => filter (λ e, pred e = true) l = e :: filter (λ e, pred e = true) l' ∧
               (length l' < length l)%nat
  end.
Proof.
  induction l as [|e l IH]; [done|]. cbn [find_if]. destruct (pred e) eqn:E.
  - rewrite filter_cons, decide_True by done. simpl. auto.
  - rewrite filter_cons, decide_False by congruence. destruct (find_if pred l); [done|].
    destruct IH as [IH ?]. split; [done|simpl; lia].
Qed.

Lemma selectUpcs_filter pred fuel it result : (length it ≤ fuel)%nat →
  selectUpcs fuel pred it result =
  Ok (result ++ map (λ e, (e.1, upc e.2)) (filter (λ e, pred e = true) it)).
Proof.
  revert it result. induction fuel as [|fuel IH]; intros it result Hf; cbn [selectUpcs];
    pose proof (find_if_spec pred it) as H; destruct (find_if pred it) as [|e it'].
  - by rewrite H, app_nil_r.
  - destruct H. lia.
  - by rewrite H, app_nil_r.
  - destruct H as [-> ?]. rewrite IH by lia. simpl. by rewrite <-app_assoc.
Qed.

(** The queries are the comprehensions they document: they terminate and
    return the UPCs on the board that satisfy the predicate, by increasing
    identifier, each with its tuple. *)
Theorem select_spec b pred :
  select b pred = Ok (map (λ e, (e.1, upc e.2)) (filter (λ e, pred e = true) (upcs_ b))).
Proof. unfold select. by rewrite selectUpcs_filter. Qed.

Lemma fold_erase_find {V} ids (m : list (Z * V)) id :
  al_find id (fold_left (λ m id, al_erase id m) ids m) = if decide (id ∈ ids) then None else al_find id m.
Proof.
  revert m. induction ids as [|i ids IH]; intros m; cbn [fold_left]; [done|].
  rewrite IH, al_find_erase. repeat case_decide; set_solver.
Qed.

Lemma fold_erase_wf {V} ids (m : list (Z * V)) : smap_wf m → smap_wf (fold_left (λ m id, al_erase id m) ids m).
Proof. revert m. induction ids; simpl; auto with cpp. Qed.

Lemma consumeUPCs_wf b ids : wf b → wf (consumeUPCs b ids).
Proof.
  intros [H1 H2 H3 H4 H5]. split; simpl; try done; [by apply fold_erase_wf|]. intros id ud.
  rewrite fold_erase_find. case_decide; [done|]. apply H3.
Qed.

(** Consuming removes exactly the given UPCs from the board; they stay
    active and stored, so that chains of sources still resolve. *)
Theorem consumeUPCs_spec b ids : wf b →
  wf (consumeUPCs b ids) ∧
  (∀ id, upcWithId (consumeUPCs b ids) id = if decide (id ∈ ids) then None else upcWithId b id) ∧
  activeUpcs_ (consumeUPCs b ids) = activeUpcs_ b ∧ upcStorage_ (consumeUPCs b ids) = upcStorage_ b.
Proof.
  intros Hwf. split_and!; [by apply consumeUPCs_wf|..]; try done.
  intros id. unfold upcWithId. simpl. rewrite fold_erase_find. by case_decide.
Qed.

(** ** Posting *)

Lemma task_of_unit_total h b u : BoardTasks.wf h (tasks b) → ∃ td, task_of_unit b u = Ok td.
Proof.
  intros Hwf. unfold task_of_unit, BoardTasks.taskDataWithUnit, BoardTasks.deref.
  destruct u as [u|]; simpl; [|eauto]. destruct (BoardTasks.tasksByUnit_ (tasks b) !! u) eqn:E; simpl; [|eauto].
  apply (BoardTasks.wf_byUnit _ _ Hwf) in E. apply BoardTasks.al_elem_find in E as [td ->]. simpl. eauto.
Qed.

Lemma run_filter_total h b f u org : BoardTasks.wf h (tasks b) → ∃ r, run_filter b f u org = Ok r.
Proof.
  intros Hwf. destruct f as [a|a]; simpl; [|eauto]. unfold AssignedUnitsFilter.filter.
  destruct (feqb _ _); [|eauto]. unfold AssignedUnitsFilter.filter_loop.
  match goal with |- context [rfold ?f ?l ?a] => destruct (rfold_defined f l a) as [m ->] end;
    [|simpl; eauto].
  intros acc [k p] _. simpl. destruct (fleb p f32_0); [eauto|].
  destruct (task_of_unit_total h b k Hwf) as [td ->]. simpl. case_match; eauto.
Qed.

Lemma run_filters_total h b fs u org : BoardTasks.wf h (tasks b) → ∃ r, run_filters b fs u org = Ok r.
Proof.
  intros Hwf. revert u. induction fs as [|f fs IH]; intros u; simpl; [eauto|].
  destruct (run_filter_total h b f u org Hwf) as [[v u'] ->]. simpl. destruct v; [apply IH|eauto].
Qed.

Lemma postUPC_wf b frame u src org d : wf b → src ≤ UpcStorage.size (upcStorage_ b) →
  let '(st, id) := UpcStorage.addUpc (upcStorage_ b) frame src org (Some u) d in
  wf (Board (map_ b) (commands_ b) (smap_set id (UD u src org) (upcs_ b)) st
        (<[id := u]> (activeUpcs_ b)) (upcFilters_ b) (tracked_ b) (tasks b) (unitAccessCounts_ b)).
Proof.
  intros [H1 H2 H3 H4 H5] Hsrc.
  pose proof (UpcStorage.addUpc_wf _ frame src org (Some u) d H2 Hsrc) as Hst.
  pose proof (UpcStorage.size_addUpc (upcStorage_ b) frame src org (Some u) d) as Hsz.
  pose proof (UpcStorage.addUpc_lookup_source (upcStorage_ b) frame src org (Some u) d) as Hnew.
  pose proof (λ i, UpcStorage.sourceId_addUpc (upcStorage_ b) frame src org (Some u) d i) as Hold.
  destruct (UpcStorage.addUpc _ _ _ _ _ _) as [st id] eqn:E. simpl in *.
  assert (id = UpcStorage.size (upcStorage_ b) + 1) as -> by (unfold UpcStorage.addUpc in E; congruence).
  assert (0 ≤ UpcStorage.size (upcStorage_ b)) by (unfold UpcStorage.size; lia).
  split; simpl; try done; [by apply smap_set_wf|..].
  - intros id ud. rewrite al_find_smap_set. case_decide as Hid.
    + subst. intros [= <-]. simpl. rewrite lookup_insert_eq, Hsz. split_and!; try done; lia.
    + intros (Hr & Ha & Hs)%H3. rewrite lookup_insert_ne, Hsz, Hold by lia. split_and!; try done; lia.
  - intros id. rewrite Hsz. destruct (decide (id = UpcStorage.size (upcStorage_ b) + 1)) as [->|].
    + intros _. lia.
    + rewrite lookup_insert_ne by done. intros ?%H4. lia.
Qed.

Lemma postUPC_keeps b frame u src org d b' id : wf b → src ≤ UpcStorage.size (upcStorage_ b) →
  postUPC b frame u src org d = Ok (b', id) → wf b'.
Proof.
  intros Hwf Hsrc. unfold postUPC. intros H. apply rbind_Ok_inv in H as ([v u'] & _ & H).
  destruct v; [|by injection H as <- <-].
  pose proof (postUPC_wf b frame u' src org d Hwf Hsrc) as Hwf'.
  destruct (UpcStorage.addUpc _ _ _ _ _ _) as [st id']. by injection H as <- <-.
Qed.

(** What a filter makes of a tuple it lets through.  That for gathering takes
    the units of other modules' tasks out of a Gather tuple; that for sanity
    clears null entries and clamps probabilities. *)
Definition accepts (b : t) (org : ModulePtr) (f : UPCFilter) (u u' : Upc.t) : Prop :=
  match f with
  | FAssignedUnits _ =>
      Upc.position u' = Upc.position u ∧ Upc.command u' = Upc.command u ∧ Upc.state u' = Upc.state u ∧
      Upc.scale u' = Upc.scale u ∧
      (feqb (Upc.commandProb u Command.Gather) f32_1 = false → u' = u) ∧
      (al_wf (Upc.unit u) → ∀ k p, al_find k (Upc.unit u) = Some p → 
         let taken := feqb (Upc.commandProb u Command.Gather) f32_1 = true ∧
                      AssignedUnitsFilter.assigned_elsewhere (task_of_unit b) org (k, p) in
         (taken → al_find k (Upc.unit u') = Some f32_0) ∧ (¬ taken → al_find k (Upc.unit u') = Some p)) ∧
      (al_wf (Upc.unit u) → ∀ k, al_find k (Upc.unit u) = None → al_find k (Upc.unit u') = None)
  | FSanity _ => SanityFilter.clean u ∧ SanityFilter.cleaned u u' ∧ SanityFilter.sane u'
  end.

(** Only the sanity filter rejects: a tuple with a probability that is not a
    number. *)
Definition rejects (f : UPCFilter) (u : Upc.t) : Prop :=
  match f with FAssignedUnits _ => False | FSanity _ => ¬ SanityFilter.clean u end.

(** A tuple goes through the filters in order, until one rejects it. *)
Inductive filtered (b : t) (org : ModulePtr) : list UPCFilter → Upc.t → option Upc.t → Prop :=
| filtered_none u : filtered b org [] u (Some u)
| filtered_rejected f fs u : rejects f u → filtered b org (f :: fs) u None
| filtered_accepted f fs u u' o : accepts b org f u u' → filtered b org fs u' o → filtered b org (f :: fs) u o.

Lemma assigned_accepts b org p u u' v : AssignedUnitsFilter.filter (task_of_unit b) u org = Ok (v, u') →
  v = true ∧ accepts b org (FAssignedUnits p) u u'.
Proof.
  intros H. assert (v = true ∧ Upc.scale u' = Upc.scale u ∧
    Upc.position u' = Upc.position u ∧ Upc.command u' = Upc.command u ∧ Upc.state u' = Upc.state u ∧
    (feqb (Upc.commandProb u Command.Gather) f32_1 = false → u' = u) ∧
    (al_wf (Upc.unit u) → ∀ k, al_find k (Upc.unit u) = None → al_find k (Upc.unit u') = None)) as (Hv & H1 & H2 & H3 & H4 & H5 & H6).
  { unfold AssignedUnitsFilter.filter in H. destruct (feqb _ _).
    - apply rbind_Ok_inv in H as (m & Hm & [= <- <-]). split_and!; try done. cbn. intros Hwf k Hk.
      destruct (AssignedUnitsFilter.filter_loop_find (task_of_unit b) org _ _ _ Hwf Hm k) as [[-> _]|(_ & q & Hq & _)]; [done|congruence].
    - by injection H as <- <-. }
  split; [done|]. split_and!; try done. intros Hwf k q Hk.
  destruct (AssignedUnitsFilter.filter_gather (task_of_unit b) u org v u' Hwf H) as (_ & _ & _ & _ & Hs).
  destruct (Hs k q Hk) as [Ht Hn]. split; [exact Ht|]. intros Hno. destruct (feqb (Upc.commandProb u Command.Gather) f32_1) eqn:E.
  - apply Hn. right. intros ?. by apply Hno.
  - apply Hn. by left.
Qed.

Lemma run_filters_filtered b org fs u v u' : run_filters b fs u org = Ok (v, u') →
  filtered b org fs u (if v then Some u' else None).
Proof.
  revert u. induction fs as [|f fs IH]; intros u; cbn [run_filters].
  { intros [= <- <-]. constructor. }
  intros ([w x] & Hf & H)%rbind_Ok_inv. destruct f as [p|p]; cbn [run_filter] in Hf.
  - apply (assigned_accepts b org p) in Hf as [-> Ha]. econstructor; [exact Ha|by apply IH].
  - injection Hf as Hf. destruct (SanityFilter.filter_accepts_sane_aux u) as [Hc Hs].
    pose proof (SanityFilter.filter_cleaned u) as Hcl. rewrite Hf in Hc, Hcl, Hs. cbn [fst snd] in Hc, Hcl, Hs. destruct w.
    + econstructor; [|by apply IH]. split_and!; [by apply Hc|by apply Hcl|by apply Hs].
    + injection H as <- <-. constructor. intros Hx. by apply Hc in Hx.
Qed.

(** C4 [postUPC] always returns, and what happens is decided by the filters, in
    their order.  A tuple that one of them rejects (the sanity filter: one with
    a probability that is not a number) leaves the board unchanged, under the
    identifier [kFilteredUpcId].  Otherwise what the filters make of the tuple
    (without the units of other modules' tasks if it is for gathering, without
    null entries, with probabilities clamped between zero and one) is on the board and among the
    active ones under a fresh identifier, with its source and origin; nothing
    else changes and the board stays well formed. *)
Theorem postUPC_spec h b frame u src org d : wf b → BoardTasks.wf h (tasks b) →
  src ≤ UpcStorage.size (upcStorage_ b) →
  ∃ o, filtered b org (upcFilters_ b) u o ∧
    match o with
    | None => postUPC b frame u src org d = Ok (b, kFilteredUpcId)
    | Some u' => let id := UpcStorage.size (upcStorage_ b) + 1 in
        ∃ b', postUPC b frame u src org d = Ok (b', id) ∧ wf b' ∧
        upcWithId b id = None ∧ al_find id (upcs_ b') = Some (UD u' src org) ∧ activeUpcs_ b' !! id = Some u' ∧
        UpcStorage.sourceId (upcStorage_ b') id = src ∧
        (∀ id', id' ≠ id → al_find id' (upcs_ b') = al_find id' (upcs_ b) ∧ activeUpcs_ b' !! id' = activeUpcs_ b !! id') ∧
        (∀ id', id' < id → UpcStorage.sourceId (upcStorage_ b') id' = UpcStorage.sourceId (upcStorage_ b) id') ∧
        tasks b' = tasks b ∧ commands_ b' = commands_ b ∧ map_ b' = map_ b
    end.
Proof.
  intros Hwf Ht Hsrc. unfold postUPC.
  destruct (run_filters_total h b (upcFilters_ b) u org Ht) as [[v u'] Hr].
  exists (if v then Some u' else None). split; [by apply run_filters_filtered|]. rewrite Hr. cbn [rbind].
  destruct v; [|done].
  pose proof (postUPC_wf b frame u' src org d Hwf Hsrc) as Hwf'.
  pose proof (UpcStorage.addUpc_lookup_source (upcStorage_ b) frame src org (Some u') d) as Hnew.
  pose proof (λ i, UpcStorage.sourceId_addUpc (upcStorage_ b) frame src org (Some u') d i) as Hold.
  destruct (UpcStorage.addUpc _ _ _ _ _ _) as [st id] eqn:E. simpl in Hnew, Hold.
  assert (id = UpcStorage.size (upcStorage_ b) + 1) as -> by (unfold UpcStorage.addUpc in E; congruence).
  eexists. split; [done|]. split_and!; try done; simpl.
  - unfold upcWithId. destruct (al_find _ (upcs_ b)) eqn:Ef; [|done].
    apply (wf_posted _ Hwf) in Ef as [? _]. lia.
  - by rewrite al_find_smap_set, decide_True.
  - apply lookup_insert_eq.
  - intros id' Hne. by rewrite al_find_smap_set, decide_False, lookup_insert_ne.
  - intros id' Hlt. apply Hold. lia.
Qed.

(** A Gather tuple: unit 1 is not of another module, the null entry goes, and
    the probability of unit 2 is clamped. *)
Definition example_gather : Upc.t :=
  Upc.UPCTuple [(Some 1, f32_1); (None, f32_1); (Some 2, f32_lit 3 2)] Upc.PEmpty [(Command.Gather, f32_1)] Upc.SEmpty 1.

Lemma postUPC_spec_witness :
  ∃ b' u', postUPC initial 7 example_gather kRootUpcId (Some 3) None = Ok (b', 1) ∧
    al_find 1 (upcs_ b') = Some (UD u' kRootUpcId (Some 3)) ∧ filtered initial (Some 3) (upcFilters_ initial) example_gather (Some u') ∧
    Upc.unit u' = [(Some 1, f32_1); (Some 2, f32_1)].
Proof.
  destruct (postUPC_spec ∅ initial 7 example_gather kRootUpcId (Some 3) None)
    as (o & Hf & H); [apply initial_wf|apply BoardTasks.no_tasks_wf|by vm_compute|].
  destruct o as [u'|]; [|by vm_compute in H]. destruct H as (b' & E & _ & _ & Hu & _).
  exists b', u'. split; [exact E|]. split; [exact Hu|]. split; [exact Hf|].
  vm_compute in E. injection E as <-. vm_compute in Hu. injection Hu as <-. vm_compute. reflexivity.
Defined.

(** ** Active UPCs *)

(** The identifiers the marking loop visits from [id]. *)
Inductive marked (st : UpcStorage.t) : Z → Z → Prop :=
| marked_self id : kRootUpcId ≤ id → marked st id id
| marked_source id a : kRootUpcId ≤ id → marked st (UpcStorage.sourceId st id) a → marked st id a.

Lemma mark_sources_spec st fuel cur ids : UpcStorage.wf st → cur + 1 < Z.of_nat fuel →
  ∃ ids', mark_sources fuel st cur ids = Ok ids' ∧ ∀ a, a ∈ ids' ↔ a ∈ ids ∨ marked st cur a.
Proof.
  intros Hwf. revert cur ids. induction fuel as [|fuel IH]; intros cur ids Hf; cbn [mark_sources].
  - replace (kRootUpcId <=? cur) with false by (unfold kRootUpcId; lia). eexists. split; [done|].
    intros a. split; [by left|]. intros [?|Hm]; [done|]. destruct Hm; unfold kRootUpcId in *; lia.
  - destruct (Z.leb_spec kRootUpcId cur).
    + pose proof (UpcStorage.sourceId_lt st cur Hwf) as Hlt. unfold kRootUpcId in *.
      destruct (IH (UpcStorage.sourceId st cur) (ids ∪ {[cur]})) as (ids' & -> & Hi); [lia|].
      eexists. split; [done|]. intros a. rewrite Hi, elem_of_union, elem_of_singleton. split.
      * intros [[?| ->]|?]; [by left|right; by constructor|right; by apply marked_source].
      * intros [?|Hm]; [auto|]. inversion Hm; subst; auto.
    + eexists. split; [done|]. intros a. split; [by left|]. intros [?|Hm]; [done|].
      destruct Hm; unfold kRootUpcId in *; lia.
Qed.

Lemma mark_unknown st fuel cur ids : UpcStorage.wf st → UpcStorage.size st < cur → (1 < fuel)%nat →
  mark_sources fuel st cur ids = Ok (ids ∪ {[cur]}).
Proof.
  intros Hwf Hc Hf. assert (0 ≤ UpcStorage.size st) by (unfold UpcStorage.size; lia).
  destruct fuel as [|[|fuel]]; [lia..|]. simpl.
  replace (kRootUpcId <=? cur) with true by (unfold kRootUpcId; blia).
  assert (UpcStorage.sourceId st cur = -1) as ->.
  { unfold UpcStorage.sourceId. by replace (cur <=? UpcStorage.size st) with false by blia; rewrite andb_false_r. }
  done.
Qed.

Lemma mark_chain st cur ids : UpcStorage.wf st →
  ∃ ids', mark_sources (chain_fuel st) st cur ids = Ok ids' ∧ ∀ a, a ∈ ids' ↔ a ∈ ids ∨ marked st cur a.
Proof.
  intros Hwf. destruct (decide (cur ≤ UpcStorage.size st)) as [Hle|Hgt].
  - apply mark_sources_spec; [done|]. unfold chain_fuel, UpcStorage.size in *. lia.
  - assert (0 ≤ UpcStorage.size st) by (unfold UpcStorage.size; lia).
    rewrite mark_unknown by (done || lia || (unfold chain_fuel; lia)).
    eexists. split; [done|]. intros a. rewrite elem_of_union, elem_of_singleton. split.
    + intros [?| ->]; [by left|right; constructor; unfold kRootUpcId; lia].
    + intros [?|Hm]; [by left|right]. inversion Hm as [|? ? ? Hm']; subst; [done|].
      assert (UpcStorage.sourceId st cur = -1) as E.
      { unfold UpcStorage.sourceId. by replace (cur <=? UpcStorage.size st) with false by blia; rewrite andb_false_r. }
      rewrite E in Hm'. inversion Hm'; unfold kRootUpcId in *; lia.
Qed.

Lemma mark_all {V} st (l : list (Z * V)) ids : UpcStorage.wf st →
  ∃ ids', rfold (λ ids e, mark_sources (chain_fuel st) st e.1 ids) l ids = Ok ids' ∧
    ∀ a, a ∈ ids' ↔ a ∈ ids ∨ ∃ e, e ∈ l ∧ marked st e.1 a.
Proof.
  intros Hwf. revert ids. induction l as [|e l IH]; intros ids; cbn [rfold].
  - eexists. split; [done|]. set_solver.
  - destruct (mark_chain st e.1 ids Hwf) as (i1 & -> & H1). cbn [rbind].
    destruct (IH i1) as (i2 & -> & H2). eexists. split; [done|]. intros a. rewrite H2, H1. set_solver.
Qed.

Lemma prune_active_ok b : UpcStorage.wf (upcStorage_ b) →
  ∃ m, prune_active b = Ok (set_active b m) ∧
    ∀ id u, m !! id = Some u ↔ activeUpcs_ b !! id = Some u ∧
      ((∃ e, e ∈ upcs_ b ∧ marked (upcStorage_ b) e.1 id) ∨
       (∃ e, e ∈ BoardTasks.tasksById_ (tasks b) ∧ marked (upcStorage_ b) e.1 id)).
Proof.
  intros Hwf. unfold prune_active. destruct (mark_all (upcStorage_ b) (upcs_ b) ∅ Hwf) as (i1 & -> & H1).
  cbn [rbind]. destruct (mark_all (upcStorage_ b) (BoardTasks.tasksById_ (tasks b)) i1 Hwf) as (i2 & -> & H2).
  cbn [rbind]. eexists. split; [done|]. intros id u. rewrite map_lookup_filter_Some. simpl.
  rewrite H2, H1. set_solver.
Qed.

(** Pruning terminates and keeps exactly the active UPCs that some UPC on
    the board or some task descends from (itself included). *)
Theorem prune_active_spec b : UpcStorage.wf (upcStorage_ b) →
  ∃ b', prune_active b = Ok b' ∧ upcs_ b' = upcs_ b ∧ upcStorage_ b' = upcStorage_ b ∧ tasks b' = tasks b ∧
    ∀ id u, activeUpcs_ b' !! id = Some u ↔ activeUpcs_ b !! id = Some u ∧
      ∃ cur, (cur ∈ (upcs_ b).*1 ∨ cur ∈ (BoardTasks.tasksById_ (tasks b)).*1) ∧
             marked (upcStorage_ b) cur id.
Proof.
  intros Hwf. destruct (prune_active_ok b Hwf) as (m & -> & Hm). eexists. split_and!; [done..|].
  intros id u. simpl. rewrite Hm. apply and_iff_compat_l. setoid_rewrite list_elem_of_fmap. split.
  - intros [(e & ? & ?)|(e & ? & ?)]; exists e.1; eauto 6.
  - intros (cur & [(e & -> & ?)|(e & -> & ?)] & ?); eauto.
Qed.

(** Two UPCs, the second from the first; the first has been consumed. *)
Definition example_board : t :=
  match postUPC initial 7 (Upc.makeSharpUPC (Some 1) Command.Scout) kRootUpcId (Some 3) None with
  | Ok (b, _) =>
      match postUPC b 8 (Upc.makeSharpUPC (Some 1) Command.Move) 1 (Some 4) None with
      | Ok (b, _) => consumeUPCs b [1]
      | _ => b
      end
  | _ => initial
  end.

Lemma example_board_wf : wf example_board.
Proof.
  unfold example_board.
  destruct (postUPC initial 7 _ kRootUpcId (Some 3) None) as [[b1 id1]| | |] eqn:E1; try apply initial_wf.
  assert (wf b1) as Hwf1 by (eapply postUPC_keeps; [apply initial_wf| |exact E1]; by vm_compute).
  assert (1 ≤ UpcStorage.size (upcStorage_ b1)) as S1.
  { vm_compute in E1. injection E1 as <- <-. vm_compute. discriminate. }
  destruct (postUPC b1 8 _ 1 (Some 4) None) as [[b2 id2]| | |] eqn:E2; try done.
  apply consumeUPCs_wf. by eapply postUPC_keeps.
Qed.

(** The consumed UPC stays active: the one on the board descends from it. *)
Lemma prune_active_spec_witness :
  ∃ b', prune_active example_board = Ok b' ∧ is_Some (activeUpcs_ b' !! 1) ∧ upcWithId example_board 1 = None.
Proof.
  destruct (prune_active_spec example_board) as (b' & H & _ & _ & _ & Ha).
  - apply example_board_wf.
  - exists b'. split; [exact H|]. split; [|vm_compute; reflexivity].
    eexists. apply Ha. split; [vm_compute; reflexivity|]. exists 2. split; [left; vm_compute; left|].
    apply marked_source; [by vm_compute|]. vm_compute. by constructor.
Defined.

Lemma prune_active_wf b b' : wf b → prune_active b = Ok b' → wf b'.
Proof.
  intros [H1 H2 H3 H4 H5] Hp. destruct (prune_active_ok b H2) as (m & Hp' & Hm). rewrite Hp' in Hp.
  injection Hp as <-. split; simpl; try done.
  - intros id ud Hid. destruct (H3 _ _ Hid) as (? & Ha & ?). split_and!; try done; try lia.
    apply Hm. split; [done|]. left. exists (id, ud). split; [by apply al_find_Some_in|].
    constructor. unfold kRootUpcId. simpl. lia.
  - intros id [u Hu]. apply H4. apply Hm in Hu as [? _]. eauto.
Qed.

(** ** Commands *)

(** The tuples that led to a command: the chain of sources as long as its
    entries are active. *)
Inductive led_by (b : t) : Z → Upc.t → Prop :=
| led_self id u : kRootUpcId < id → activeUpcs_ b !! id = Some u → led_by b id u
| led_source id u0 u : kRootUpcId < id → activeUpcs_ b !! id = Some u0 →
    led_by b (UpcStorage.sourceId (upcStorage_ b) id) u → led_by b id u.

Lemma or_commands_testbit m acc n : Z.testbit (or_commands acc m) n = true ↔
  Z.testbit acc n = true ∨
  ∃ c p, (c, p) ∈ m ∧ fleb kLastUpcCommandThreshold p = true ∧ Z.testbit c n = true.
Proof.
  revert acc. unfold or_commands. induction m as [|[c p] m IH]; intros acc; cbn [fold_left].
  - split; [by left|]. intros [?|(c & p & []%not_elem_of_nil & _)]; done.
  - rewrite IH. simpl. destruct (fleb kLastUpcCommandThreshold p) eqn:E.
    + rewrite Z.lor_spec, orb_true_iff. split.
      * intros [[?|?]|(c' & p' & ? & ?)]; [by left|right; exists c, p|right; exists c', p'];
          (split; [set_solver|done]).
      * intros [?|(c' & p' & [[= -> ->]|?]%elem_of_cons & ? & ?)]; [by left; left|by left; right|right].
        exists c', p'. done.
    + split.
      * intros [?|(c' & p' & ? & ?)]; [by left|right; exists c', p']. split; [set_solver|done].
      * intros [?|(c' & p' & [[= -> ->]|?]%elem_of_cons & ? & ?)]; [by left|congruence|right].
        exists c', p'. done.
Qed.

Lemma chain_commands_spec b fuel cur acc : UpcStorage.wf (upcStorage_ b) → cur < Z.of_nat fuel →
  ∃ c, chain_commands fuel b cur acc = Ok c ∧
    ∀ n, Z.testbit c n = true ↔ Z.testbit acc n = true ∨
      ∃ u k p, led_by b cur u ∧ (k, p) ∈ Upc.command u ∧
               fleb kLastUpcCommandThreshold p = true ∧ Z.testbit k n = true.
Proof.
  intros Hwf. revert cur acc. induction fuel as [|fuel IH]; intros cur acc Hf; cbn [chain_commands];
    unfold kRootUpcId at 1.
  - replace (0 <? cur) with false by lia. eexists. split; [done|]. intros n. split; [by left|].
    intros [?|(u & ? & ? & Hl & _)]; [done|]. destruct Hl; unfold kRootUpcId in *; lia.
  - destruct (Z.ltb_spec 0 cur).
    2:{ eexists. split; [done|]. intros n. split; [by left|].
        intros [?|(u & ? & ? & Hl & _)]; [done|]. destruct Hl; unfold kRootUpcId in *; lia. }
    destruct (activeUpcs_ b !! cur) as [u0|] eqn:E.
    2:{ eexists. split; [done|]. intros n. split; [by left|].
        intros [?|(u & ? & ? & Hl & _)]; [done|]. destruct Hl; congruence. }
    pose proof (UpcStorage.sourceId_lt (upcStorage_ b) cur Hwf).
    destruct (IH (UpcStorage.sourceId (upcStorage_ b) cur) (or_commands acc (Upc.command u0)))
      as (c & -> & Hc); [lia|].
    eexists. split; [done|]. intros n. rewrite Hc, or_commands_testbit. split.
    + intros [[?|(k & p & ? & ? & ?)]|(u & k & p & Hl & ?)]; [by left|right..].
      * exists u0, k, p. split; [by apply led_self|done].
      * exists u, k, p. split; [by eapply led_source|done].
    + intros [?|(u & k & p & Hl & Hr)]; [auto|]. inversion Hl; subst.
      * simplify_eq. left; right; eauto.
      * right. eauto.
Qed.

Lemma updateUnitAccessCounts_wf cu b c : wf b → wf (updateUnitAccessCounts cu b c).
Proof. intros []. unfold updateUnitAccessCounts. repeat case_match; by split. Qed.

Lemma updateUnitAccessCounts_eq cu b c :
  commands_ (updateUnitAccessCounts cu b c) = commands_ b ∧
  activeUpcs_ (updateUnitAccessCounts cu b c) = activeUpcs_ b ∧
  upcStorage_ (updateUnitAccessCounts cu b c) = upcStorage_ b.
Proof. unfold updateUnitAccessCounts. by repeat case_match. Qed.

Lemma led_by_ext b b' id u : activeUpcs_ b' = activeUpcs_ b → upcStorage_ b' = upcStorage_ b →
  led_by b id u → led_by b' id u.
Proof.
  intros E1 E2. induction 1; [apply led_self|eapply led_source]; rewrite ?E1, ?E2; eauto.
Qed.

(** Posting a command for a known unit terminates, marks the unit with the
    command's UPC, and records in [lastUpcCommands] exactly the commands that
    some tuple of the chain leading to it holds with probability at least one
    half; no other unit changes. *)
Theorem postCommand_unit cu fuel units b c src uid rest u : wf b → src < Z.of_nat fuel →
  code c = cu → args c = uid :: rest → units !! uid = Some u →
  ∃ units' b', postCommand cu fuel units b c src = Ok (units', b') ∧ wf b' ∧
    (∃ u', units' !! uid = Some u' ∧ Unit.lastUpcId u' = src ∧
       ∀ n, Z.testbit (Unit.lastUpcCommands u') n = true ↔
         ∃ t k p, led_by b src t ∧ (k, p) ∈ Upc.command t ∧
                  fleb kLastUpcCommandThreshold p = true ∧ Z.testbit k n = true) ∧
    (∀ i, i ≠ uid → units' !! i = units !! i).
Proof.
  intros Hwf Hf Hcode Hargs Hu. unfold postCommand.
  pose proof (updateUnitAccessCounts_wf cu b c Hwf) as Hwf1.
  destruct (updateUnitAccessCounts_eq cu b c) as (E1 & E2 & E3).
  destruct (CircularBuffer.at_modify_total (commands_ (updateUnitAccessCounts cu b c)) 0
              (λ l, l ++ [CP c src])) as [cs Hcs]; [apply Hwf1|].
  rewrite Hcs. cbn [rbind]. rewrite Hcode, Z.eqb_refl, Hargs, Hu.
  set (b1 := set_commands _ cs).
  destruct (chain_commands_spec b1 fuel src Command.None) as (m & -> & Hm); [apply Hwf1|done|].
  cbn [rbind]. do 2 eexists. split; [done|]. split_and!.
  - destruct Hwf1. split; simpl; try done. by eapply CircularBuffer.at_modify_wf.
  - rewrite lookup_insert_eq. eexists. split; [done|]. split; [by destruct u|]. intros n.
    assert (Unit.lastUpcCommands (Unit.set_lastUpcCommands m (Unit.set_lastUpcId src u)) = m) as ->
      by by destruct u.
    rewrite Hm. assert (Z.testbit Command.None n = false) as -> by apply Z.testbit_0_l.
    split; [intros [?|(t & k & p & Hl & ?)]; [done|]|intros (t & k & p & Hl & ?); right];
      exists t, k, p; (split; [|done]); eapply led_by_ext; try exact Hl; unfold b1; simpl; done.
  - intros i Hi. by rewrite lookup_insert_ne.
Qed.

Lemma postCommand_ok cu fuel units b c src : wf b → src < Z.of_nat fuel →
  ∃ units' b' cs, postCommand cu fuel units b c src = Ok (units', b') ∧
    CircularBuffer.at_modify (commands_ b) 0 (λ l, l ++ [CP c src]) = Ok cs ∧ commands_ b' = cs.
Proof.
  intros Hwf Hf. unfold postCommand. destruct (updateUnitAccessCounts_eq cu b c) as (E1 & _ & _). rewrite E1.
  destruct (CircularBuffer.at_modify_total (commands_ b) 0 (λ l, l ++ [CP c src])) as [cs ->]; [apply Hwf|].
  cbn [rbind]. case_match; [|by do 3 eexists]. case_match; [by do 3 eexists|]. case_match; [|by do 3 eexists].
  set (b1 := set_commands _ cs).
  destruct (chain_commands_spec b1 fuel src Command.None) as (m & -> & _);
    [by apply (updateUnitAccessCounts_wf cu b c Hwf)|done|].
  cbn [rbind]. by do 3 eexists.
Qed.

(** Once the first step has begun ([clearCommands] was called), posting a
    command returns, the command is the last of the commands of the current
    step, and the commands of the earlier steps still held are untouched. *)
Theorem postCommand_commands cu fuel units b c src : wf b → src < Z.of_nat fuel →
  0 < CircularBuffer.size (commands_ b) →
  ∃ units' b' now, postCommand cu fuel units b c src = Ok (units', b') ∧
    commands b 0 = Ok now ∧ commands b' 0 = Ok (now ++ [c]) ∧
    CircularBuffer.size (commands_ b') = CircularBuffer.size (commands_ b) ∧
    ∀ k, 0 < k < CircularBuffer.size (commands_ b) → commands b' k = commands b k.
Proof.
  intros Hwf Hf Hsz. destruct (postCommand_ok cu fuel units b c src Hwf Hf) as (units' & b' & cs & E & Hcs & Hb').
  destruct (CircularBuffer.at_modify_spec (commands_ b) (λ l, l ++ [CP c src]) cs) as (v & Hv & Hn & Hs & Ho);
    [apply Hwf|done|done|].
  exists units', b', (map command v). unfold commands. rewrite Hb'. unfold CircularBuffer.size in *. rewrite Hs.
  replace (- Z.min 0 _) with 0 by lia. rewrite Hv, Hn. split_and!; [done|done| |done|].
  - simpl. by rewrite map_app.
  - intros k Hk. replace (Z.min k _) with k by lia. rewrite Ho; [done|lia].
Qed.

(** Before the first [clearCommands] a posted command is lost: it goes to
    the last slot of the ring while [commands] reads the first. *)
Theorem commands_lost_before_first_step cu fuel c src : code c ≠ cu →
  ∃ b', postCommand cu fuel ∅ initial c src = Ok (∅, b') ∧ commands b' 0 = Ok [].
Proof.
  intros Hne. unfold postCommand, updateUnitAccessCounts. rewrite (proj2 (Z.eqb_neq _ _) Hne).
  eexists. split; [vm_compute; reflexivity|]. reflexivity.
Qed.

(** A new step starts with no commands and shifts the history by one. *)
Theorem clearCommands_spec b : wf b → 0 < CircularBuffer.size (commands_ b) →
  ∃ b', clearCommands b = Ok b' ∧ wf b' ∧ commands b' 0 = Ok [] ∧
    ∀ k, 0 ≤ k < CircularBuffer.size (commands_ b) → k + 1 < CircularBuffer.max_ (commands_ b) →
      commands b' (k + 1) = commands b k.
Proof.
  intros Hwf Hsz. unfold clearCommands.
  destruct (CircularBuffer.push_shift (commands_ b) []) as (cs & Hp & Hwf' & Hs & H0 & Hsh); [apply Hwf|].
  unfold CircularBuffer.push_default. rewrite Hp. cbn [rbind]. eexists. split; [done|].
  unfold commands, CircularBuffer.size in *. simpl. rewrite Hs. split_and!.
  - destruct Hwf. by split.
  - destruct (wf_commands _ Hwf) as (? & _ & _ & ? & _).
    replace (- Z.min 0 _) with 0 by lia. by rewrite H0.
  - intros k Hk Hk'. destruct (wf_commands _ Hwf) as (? & _ & _ & ? & _).
    replace (Z.min (k + 1) _) with (k + 1) by lia. replace (Z.min k _) with k by lia.
    rewrite Hsh by lia. done.
Qed.

Lemma clearCommands_wf b b' : wf b → clearCommands b = Ok b' → wf b'.
Proof.
  intros Hwf Hc. unfold clearCommands, CircularBuffer.push_default in Hc.
  apply rbind_Ok_inv in Hc as (cs & Hp & [= <-]). apply CircularBuffer.push_wf in Hp as [? _]; [|apply Hwf].
  destruct Hwf. by split.
Qed.

(** The example board in its first step. *)
Definition example_step : t := match clearCommands example_board with Ok b => b | _ => example_board end.
Lemma example_step_wf : wf example_step.
Proof. apply (clearCommands_wf example_board); [apply example_board_wf|vm_compute; reflexivity]. Qed.

Definition example_units : gmap Z Unit := {[1 := Unit.blank 1 BuildType.Zerg_Drone]}.

(** A command that comes from the second UPC: the unit gets its command and
    that of its source. *)
Lemma postCommand_unit_witness :
  ∃ units' b', postCommand 9 5 example_units example_step (CC 9 [1]) 2 = Ok (units', b') ∧
    wf b' ∧ Unit.lastUpcCommands <$> units' !! 1 = Some (Z.lor Command.Move Command.Scout).
Proof.
  destruct (postCommand_unit 9 5 example_units example_step (CC 9 [1]) 2 1 [] (Unit.blank 1 BuildType.Zerg_Drone))
    as (units' & b' & H & Hwf & _).
  - apply example_step_wf.
  - lia.
  - reflexivity.
  - reflexivity.
  - reflexivity.
  - exists units', b'. split; [exact H|]. split; [exact Hwf|]. vm_compute in H. injection H as <- _. reflexivity.
Defined.

Lemma postCommand_commands_witness :
  ∃ units' b', postCommand 9 5 example_units example_step (CC 9 [1]) 2 = Ok (units', b') ∧
    commands b' 0 = Ok [CC 9 [1]].
Proof.
  destruct (postCommand_commands 9 5 example_units example_step (CC 9 [1]) 2)
    as (units' & b' & now & H & Hn & Hc & _).
  - apply example_step_wf.
  - lia.
  - vm_compute. reflexivity.
  - exists units', b'. split; [exact H|]. vm_compute in Hn. injection Hn as <-. exact Hc.
Defined.

End BlackboardUpcs.
