(* ===== verification/BlackboardUpdate.v ===== *)
(** * The per-step update of the blackboard: theorems

    [Blackboard::update] on a consistent board: it never follows a dangling
    iterator or a null pointer, its loops and the proxies' recursion end, and
    what it leaves behind is characterised.

    The [update] a module's task class overrides may cancel other tasks, which
    takes back UPCs and units, as [AutoBuildTask::update] does; what it keeps to
    is [respects].  A task cancelled after its own turn leaves a record of the
    status it had then, and may leave units assigned to it: the theorems say
    so. *)

From S2P Require Import Prelude Floats Geometry CircularBuffer BuildTypes Units Upc UpcStorage.
From S2P Require Import UpcFilter Tasks BoardTasks Blackboard BlackboardUpcs.

Module BlackboardUpdate.
Import Blackboard.

(** ** Proxies *)

(** A target, once found, is the task of the UPC the proxy was made for, and
    that UPC is younger than the proxy's own.  No task has a negative
    identifier: that of a target given up, or of a UPC that was filtered. *)
Definition target_ok (h : Task.heap) (own id : Z) (o : option Task.ref) : Prop :=
  (id < 0 ∧ o = None) ∨ (own < id ∧ ∀ r, o = Some r → ∃ tk, h !! r = Some tk ∧ Task.upcId tk = id).

Definition task_ok (h : Task.heap) (tk : Task.t) : Prop :=
  0 ≤ Task.upcId tk ∧
  match Task.cls tk with
  | Task.KTask _ => True
  | Task.KProxy tid o => target_ok h (Task.upcId tk) tid o
  | Task.KMulti ids ts _ _ _ => Forall2 (target_ok h (Task.upcId tk)) ids ts
  end.

Definition heap_ok (h : Task.heap) : Prop := map_Forall (λ _, task_ok h) h.

(** Every task's identifier is within [fuel] of the largest one. *)
Definition ids_within (fuel : nat) (hi : Z) (h : Task.heap) : Prop :=
  map_Forall (λ _ tk, hi - Z.of_nat fuel < Task.upcId tk ≤ hi) h.

Lemma target_ok_mono h h' own id o : BoardTasks.keeps_ids h h' → target_ok h own id o → target_ok h' own id o.
Proof.
  intros Hk [?|[? Ht]]; [by left|right]. split; [done|]. intros r (tk & Hr & E)%Ht.
  destruct (Hk _ _ Hr) as (tk' & ? & ?). exists tk'. split; [done|congruence].
Qed.

Lemma targets_ok_mono h h' own ids ts : BoardTasks.keeps_ids h h' →
  Forall2 (target_ok h own) ids ts → Forall2 (target_ok h' own) ids ts.
Proof. intros Hk H. eapply Forall2_impl; [exact H|]. intros. by eapply target_ok_mono. Qed.

Lemma task_ok_mono h h' tk : BoardTasks.keeps_ids h h' → task_ok h tk → task_ok h' tk.
Proof.
  intros Hk [? H]. split; [done|]. destruct (Task.cls tk); [done|by eapply target_ok_mono|by eapply targets_ok_mono].
Qed.

Lemma heap_ok_insert h r tk tk' : heap_ok h → h !! r = Some tk → Task.upcId tk' = Task.upcId tk →
  task_ok h tk' → heap_ok (<[r := tk']> h).
Proof.
  intros Hh Hr E Ht. pose proof (BoardTasks.keeps_ids_insert h r tk tk' Hr E) as Hk.
  intros r' t0 [[<- <-]|[Hne H0]]%lookup_insert_Some; eapply task_ok_mono; eauto.
Qed.

Lemma proxiedUnits_total hi fuel h r tk : heap_ok h → h !! r = Some tk →
  (∀ r' tk', h !! r' = Some tk' → Task.upcId tk' ≤ hi) → hi - Task.upcId tk < Z.of_nat fuel →
  ∃ us, Task.proxiedUnits fuel h r = Ok us.
Proof.
  intros Hh Hr Hhi. revert r tk Hr. induction fuel as [|fuel IH]; intros r tk Hr Hf.
  - specialize (Hhi _ _ Hr). lia.
  - cbn [Task.proxiedUnits]. rewrite Hr. cbn [of_option rbind].
    pose proof (Hh _ _ Hr) as [_ Hok].
    destruct (Task.cls tk) as [d|tid [r'|]|ids ts pu pol df]; eauto.
    destruct Hok as [[_ ?]|[Hlt Ht]]; [done|]. destruct (Ht r' eq_refl) as (tk' & Hr' & E).
    apply (IH r' tk' Hr'). lia.
Qed.

Lemma collect_units_total hi fuel h ts : heap_ok h → ids_within fuel hi h → Task.live h ts →
  ∃ us, Task.collect_units fuel h ts = Ok us.
Proof.
  intros Hh Hf Hl. apply rfold_defined. intros acc [r|] Hr; [|eauto].
  destruct (Hl r Hr) as [tk Htk]. destruct (proxiedUnits_total hi fuel h r tk) as [us ->]; try done.
  - intros r' tk' H'. by apply (Hf r').
  - destruct (Hf _ _ Htk). lia.
  - simpl. eauto.
Qed.

(** ** The task objects of a board *)

(** The task object behind an iterator. *)
Definition object (h : Task.heap) (b : BoardTasks.t) (it : Z) : option Task.t :=
  match al_find it (BoardTasks.tasks_ b) with
  | Some td => match BoardTasks.task td with Some r => h !! r | None => None end
  | None => None
  end.

Definition holds (h : Task.heap) (b : BoardTasks.t) (it u : Z) : Prop :=
  ∃ tk, object h b it = Some tk ∧ u ∈ Task.units tk.

Definition is_cancelled (h : Task.heap) (b : BoardTasks.t) (it : Z) : Prop :=
  ∃ tk, object h b it = Some tk ∧ Task.status tk = Cancelled.

(** The node of a task. *)
Definition is_node (b : BoardTasks.t) (it : Z) (r : Task.ref) : Prop :=
  ∃ td, al_find it (BoardTasks.tasks_ b) = Some td ∧ BoardTasks.task td = Some r.

#[global] Instance is_node_dec b it r : Decision (is_node b it r).
Proof.
  unfold is_node. destruct (al_find it (BoardTasks.tasks_ b)) as [td|]; [|right; naive_solver].
  destruct (decide (BoardTasks.task td = Some r)); [left; eauto|right; naive_solver].
Defined.

Definition is_final (s : TaskStatus) : Prop := s = Success ∨ s = Failure ∨ s = Cancelled.

Lemma finished_final tk : Task.finished tk = true ↔ is_final (Task.status tk).
Proof. unfold Task.finished, is_final. rewrite !orb_true_iff, !bool_decide_eq_true. tauto. Qed.

(** ** What the update of a task may do *)

(** A board and heap on which [update] may be called. *)
Record ready (hi : Z) (fuel : nat) (h : Task.heap) (b : t) : Prop := {
  rd_board : BlackboardUpcs.wf b;
  rd_tasks : BoardTasks.wf h (tasks b);
  rd_heap : heap_ok h;
  rd_fuel : ids_within fuel hi h
}.

(** The update of the task [r] makes no task and keeps the identifiers of all
    of them; it posts no task and marks none for removal.  It changes another
    task only by cancelling it, which may take the task's units from it; then
    they may leave the index of units, which loses no other entry.  It may do anything to its own task, and remove or post
    UPCs and commands. *)
Record respects (h : Task.heap) (b : t) (r : Task.ref) (h' : Task.heap) (b' : t) : Prop := {
  rs_ids : BoardTasks.keeps_ids h h';
  rs_dom r' : is_Some (h' !! r') → is_Some (h !! r');
  rs_heap : heap_ok h';
  rs_board : BlackboardUpcs.wf b';
  rs_commands : CircularBuffer.size (commands_ b') = CircularBuffer.size (commands_ b);
  rs_tasks : tasks b' = BoardTasks.set_tasksByUnit (tasks b) (BoardTasks.tasksByUnit_ (tasks b'));
  rs_units u : BoardTasks.tasksByUnit_ (tasks b') !! u = BoardTasks.tasksByUnit_ (tasks b) !! u ∨
    (BoardTasks.tasksByUnit_ (tasks b') !! u = None ∧
     ∃ it, BoardTasks.tasksByUnit_ (tasks b) !! u = Some it ∧
       (is_node (tasks b) it r ∨ ¬ holds h' (tasks b) it u));
  rs_others r' tk : r' ≠ r → h !! r' = Some tk → ∃ tk', h' !! r' = Some tk' ∧
    (tk' = tk ∨ Task.status tk' = Cancelled ∧ Task.units tk' ⊆ Task.units tk)
}.

(** An update that returns, and keeps to this. *)
Definition lawful (hi : Z) (fuel : nat) (upd : t → Task.heap → Task.ref → res (t * Task.heap)) : Prop :=
  ∀ b h r, ready hi fuel h b → is_Some (h !! r) →
    ∃ b' h', upd b h r = Ok (b', h') ∧ respects h b r h' b'.

Lemma respects_insert hi fuel h b r tk tk' : ready hi fuel h b → h !! r = Some tk →
  Task.upcId tk' = Task.upcId tk → task_ok h tk' → respects h b r (<[r := tk']> h) b.
Proof.
  intros [Hb _ Hh _] Hr E Hok. split; try done.
  - by eapply BoardTasks.keeps_ids_insert.
  - intros r'. rewrite lookup_insert_is_Some. intros [<-|[_ ?]]; [eauto|done].
  - by eapply heap_ok_insert.
  - by destruct (tasks b).
  - by left.
  - intros r' tk0 Hne H0. exists tk0. rewrite lookup_insert_ne by done. auto.
Qed.

Lemma respects_refl hi fuel h b r tk : ready hi fuel h b → h !! r = Some tk → respects h b r h b.
Proof.
  intros Hr Htk. pose proof (respects_insert hi fuel h b r tk tk Hr Htk eq_refl) as H.
  rewrite insert_id in H by done. apply H. exact (rd_heap _ _ _ _ Hr _ _ Htk).
Qed.

Lemma ids_within_keep fuel hi h h' : BoardTasks.keeps_ids h h' → (∀ r, is_Some (h' !! r) → is_Some (h !! r)) →
  ids_within fuel hi h → ids_within fuel hi h'.
Proof.
  intros Hk Hd Hf r tk Hr. destruct (Hd r) as [tk0 H0]; [eauto|]. destruct (Hk _ _ H0) as (tk' & Hr' & E).
  assert (tk' = tk) as -> by congruence. rewrite E. by apply (Hf r).
Qed.

Lemma respects_ready hi fuel h b r h' b' : ready hi fuel h b → respects h b r h' b' → ready hi fuel h' b'.
Proof.
  intros [Hb Ht Hh Hf] [R1 R2 R3 R4 R5 R6 R7 R8]. split; [done| |done|by eapply ids_within_keep].
  rewrite R6. apply BoardTasks.wf_set_byUnit; [by eapply BoardTasks.wf_heap|]. intros u it Hu.
  destruct (R7 u) as [E|[E _]]; rewrite E in Hu; [|done]. by eapply BoardTasks.wf_byUnit.
Qed.

Lemma respects_trans h b r h1 b1 h2 b2 : respects h b r h1 b1 → respects h1 b1 r h2 b2 → respects h b r h2 b2.
Proof.
  intros R1 R2. pose proof (rs_tasks _ _ _ _ _ R1) as E1.
  assert (BoardTasks.tasks_ (tasks b1) = BoardTasks.tasks_ (tasks b)) as En by by rewrite E1. split.
  - eapply BoardTasks.keeps_ids_trans; [apply R1|apply R2].
  - intros r' H%(rs_dom _ _ _ _ _ R2). by apply (rs_dom _ _ _ _ _ R1).
  - apply R2.
  - apply R2.
  - rewrite (rs_commands _ _ _ _ _ R2). apply R1.
  - rewrite (rs_tasks _ _ _ _ _ R2), E1. done.
  - intros u. destruct (rs_units _ _ _ _ _ R2 u) as [E2|(E2 & it & Eit & Hit)]; rewrite E2.
    + destruct (rs_units _ _ _ _ _ R1 u) as [->|(-> & it & Eit & Hit)]; [by left|right].
      split; [done|]. exists it. split; [done|]. destruct Hit as [?|Hn]; [by left|].
      destruct (decide (is_node (tasks b) it r)) as [?|Hne]; [by left|right]. intros (tk2 & H2 & Hu).
      apply Hn. unfold object in H2. destruct (al_find it (BoardTasks.tasks_ (tasks b))) as [td|] eqn:Et; [|done].
      destruct (BoardTasks.task td) as [r'|] eqn:Er; [|done].
      destruct (rs_dom _ _ _ _ _ R2 r') as [tk1 H1]; [eauto|].
      destruct (rs_others _ _ _ _ _ R2 r' tk1) as (tk2' & H2' & Hor); [|done|].
      { intros ->. apply Hne. by exists td. }
      exists tk1. unfold object. rewrite Et, Er. split; [done|]. rewrite H2 in H2'. injection H2' as <-.
      destruct Hor as [->|[_ ?]]; [done|set_solver].
    + right. split; [done|]. destruct (rs_units _ _ _ _ _ R1 u) as [E0|(E0 & _)]; [|congruence].
      exists it. rewrite <-E0. split; [done|]. unfold is_node, holds, object in *. by rewrite <-En.
  - intros r' tk Hne H0. destruct (rs_others _ _ _ _ _ R1 r' tk Hne H0) as (tk1 & H1 & Hor1).
    destruct (rs_others _ _ _ _ _ R2 r' tk1 Hne H1) as (tk2 & H2 & Hor2). exists tk2. split; [done|].
    destruct Hor2 as [->|[? ?]]; [done|]. right. split; [done|]. destruct Hor1 as [->|[_ ?]]; set_solver.
Qed.

(** ** Cancelling *)

(** How far a task is from the youngest. *)
Definition depth (hi : Z) (h : Task.heap) (r : Task.ref) : nat :=
  match h !! r with Some tk => Z.to_nat (hi - Task.upcId tk) | None => 0 end.

Lemma heap_acyclic hi fuel h : heap_ok h → ids_within fuel hi h → Task.acyclic (depth hi h) h.
Proof.
  intros Hh Hf r t Ht. destruct (Hh _ _ Ht) as [_ Hok]. unfold Task.targets_of.
  assert (∀ id r', target_ok h (Task.upcId t) id (Some r') → is_Some (h !! r') ∧ (depth hi h r' < depth hi h r)%nat) as Htg.
  { intros id r' [[_ ?]|[Hlt H]]; [done|]. destruct (H r' eq_refl) as (tk & Hr' & <-). split; [eauto|].
    unfold depth. rewrite Hr', Ht. destruct (Hf _ _ Hr'), (Hf _ _ Ht). lia. }
  destruct (Task.cls t) as [d|tid o|ids ts pu pol df]; (split; [|try done]).
  - by intros ? ?%not_elem_of_nil.
  - intros r' Hr'. destruct o as [r0|]; [|by apply not_elem_of_nil in Hr'].
    apply list_elem_of_singleton in Hr' as ->. by eapply Htg.
  - intros r' (o & Hin & Eo)%list_elem_of_omap. cbn in Eo. subst o. apply list_elem_of_lookup in Hin as [i Hi].
    destruct (Forall2_lookup_r _ _ _ _ _ Hok Hi) as (id & _ & ?). by eapply Htg.
  - by eapply Forall2_length.
Qed.

Lemma effect_respects `{Task.Classes} t : Task.effect t = t ∨
  Task.status (Task.effect t) = Cancelled ∧ Task.units (Task.effect t) ⊆ Task.units t.
Proof.
  unfold Task.effect. destruct (Task.forwards t); [by left|]. destruct (_ && _); [by left|right].
  cbn. split; [done|]. case_match; set_solver.
Qed.

Lemma skel_ok h t t' : Task.skel t' = Task.skel t → task_ok h t → task_ok h t'.
Proof.
  intros E [? H]. assert (Task.upcId t' = Task.upcId t) as Ei by (unfold Task.skel in E; congruence).
  split; [by rewrite Ei|]. rewrite Ei. destruct t as [s i us k], t' as [s' i' us' k']. unfold Task.skel in E. cbn in *.
  destruct k, k'; cbn in *; simplify_eq; done.
Qed.

(** What [cancel] does to the board beside the tasks. *)
Lemma cancel_keeps_board `{Task.Classes} n h b r h' b' : BlackboardUpcs.wf b → BoardTasks.wf h (tasks b) →
  Task.cancel n b h r = Ok (b', h') →
  BlackboardUpcs.wf b' ∧ BoardTasks.wf h' (tasks b') ∧ commands_ b' = commands_ b ∧ upcStorage_ b' = upcStorage_ b ∧
  tasks b' = BoardTasks.set_tasksByUnit (tasks b) (BoardTasks.tasksByUnit_ (tasks b')) ∧
  ∀ u, BoardTasks.tasksByUnit_ (tasks b') !! u = BoardTasks.tasksByUnit_ (tasks b) !! u ∨
    (BoardTasks.tasksByUnit_ (tasks b') !! u = None ∧
     ∃ it, BoardTasks.tasksByUnit_ (tasks b) !! u = Some it ∧ ¬ holds h' (tasks b) it u).
Proof.
  intros Hb Hwf. apply (Task.cancel_board (λ (b' : t) (h' : Task.heap),
    BlackboardUpcs.wf b' ∧ BoardTasks.wf h' (tasks b') ∧ commands_ b' = commands_ b ∧ upcStorage_ b' = upcStorage_ b ∧
    tasks b' = BoardTasks.set_tasksByUnit (tasks b) (BoardTasks.tasksByUnit_ (tasks b')) ∧
    ∀ u, BoardTasks.tasksByUnit_ (tasks b') !! u = BoardTasks.tasksByUnit_ (tasks b) !! u ∨
      (BoardTasks.tasksByUnit_ (tasks b') !! u = None ∧
       ∃ it, BoardTasks.tasksByUnit_ (tasks b) !! u = Some it ∧ ¬ holds h' (tasks b) it u))).
  - intros b1 h1 ids (H1 & H2). split; [by apply BlackboardUpcs.consumeUPCs_wf|exact H2].
  - done.
  - intros b1 h1 r1 t1 b2 Hr Hu (H1 & H2 & H3 & H4 & H5 & H6).
    destruct (BoardTasks.updateTasksByUnit_no_units h1 (tasks b1) r1 t1 H2 Hr Hu) as [E Hwf1]. cbn.
    unfold updateTasksByUnit. rewrite E. intros [= <-]. split_and!; try done.
    + destruct H1. by split.
    + cbn. by rewrite H5.
    + cbn. intros u. destruct (BoardTasks.tasksByUnit_ (tasks b1) !! u) as [it|] eqn:Eu.
      * destruct (decide (it = BoardTasks.find_task r1 (BoardTasks.tasks_ (tasks b1)))) as [Eit|Hne].
        -- right. split.
           { apply eq_None_not_Some. intros [it' [E' Hn]%BoardTasks.erase_iter_lookup]. congruence. }
           exists it. destruct (H6 u) as [E6|[E6 _]]; [|congruence]. split; [by rewrite <-E6|].
           intros (tk & Hob & Hin). apply BoardTasks.wf_byUnit with (h := h1) in Eu; [|done].
           apply BoardTasks.al_elem_find in Eu as [td Htd].
           assert (BoardTasks.task td = Some r1) as Er.
           { eapply BoardTasks.find_task_node; [exact Htd|done|apply H2|]. unfold BoardTasks.end_.
             destruct (BoardTasks.wf_next _ _ H2) as [_ Hnx]. specialize (Hnx it (BoardTasks.al_find_elem _ _ _ Htd)). lia. }
           unfold object in Hob. rewrite H5 in Htd. cbn in Htd. rewrite Htd, Er, Hr in Hob.
           injection Hob as <-. rewrite Hu in Hin. set_solver.
        -- left. destruct (H6 u) as [E6|[E6 _]]; [|congruence]. rewrite <-E6, Eu. by apply BoardTasks.erase_iter_lookup.
      * assert (BoardTasks.erase_iter (BoardTasks.tasksByUnit_ (tasks b1)) (BoardTasks.find_task r1 (BoardTasks.tasks_ (tasks b1))) !! u = None) as ->.
        { apply eq_None_not_Some. intros [it' [E' Hn]%BoardTasks.erase_iter_lookup]. congruence. }
        destruct (H6 u) as [E6|[_ E6]]; [left|right]; [congruence|done].
  - intros b1 h1 r1 t1 t2 Hr Hsk Hsub (H1 & H2 & H3 & H4 & H5 & H6). split_and!; try done.
    + eapply BoardTasks.wf_heap; [|exact H2]. eapply BoardTasks.keeps_ids_insert; [done|]. unfold Task.skel in Hsk. congruence.
    + intros u. destruct (H6 u) as [?|(E & it & Eit & Hn)]; [by left|right]. split; [done|]. exists it. split; [done|].
      intros (tk & Hob & Hin). apply Hn. unfold holds, object in *. destruct (al_find it _) as [td|]; [|done].
      destruct (BoardTasks.task td) as [r'|]; [|done].
      apply lookup_insert_Some in Hob as [[<- <-]|[_ ?]]; [exists t1; split; [done|set_solver]|by exists tk].
  - split_and!; try done; [by destruct (tasks b)|by left].
Qed.

(** On its turn a task may cancel any task, itself included. *)
Lemma cancel_respects `{Task.Classes} hi fuel h b r r0 : ready hi fuel h b → is_Some (h !! r0) →
  ∃ b' h', Task.cancel fuel b h r0 = Ok (b', h') ∧ respects h b r h' b'.
Proof.
  intros [Hb Hwf Hh Hf] Hr. pose proof (heap_acyclic hi fuel h Hh Hf) as Ha.
  destruct (Task.cancel_ok_fuel (depth hi h) fuel b h r0 Ha Hr) as (b' & h' & E & C).
  { destruct Hr as [tk Htk]. unfold depth. rewrite Htk. destruct (Hf _ _ Htk). lia. }
  destruct (cancel_keeps_board fuel h b r0 h' b' Hb Hwf E) as (Hb' & _ & Hc & _ & Ht & Hu).
  pose proof (Task.cancelled_skel _ _ _ C) as Hsk. exists b', h'. split; [done|].
  assert (BoardTasks.keeps_ids h h') as Hk.
  { intros r' tk H0. destruct (Task.same_skel_lookup _ _ _ _ Hsk H0) as (tk' & ? & Es). exists tk'.
    split; [done|]. unfold Task.skel in Es. congruence. }
  split; try done.
  - intros r' [tk' H']. symmetry in Hsk. destruct (Task.same_skel_lookup _ _ _ _ Hsk H') as (? & ? & _). eauto.
  - intros r' tk' H'. symmetry in Hsk. destruct (Task.same_skel_lookup _ _ _ _ Hsk H') as (tk0 & H0 & Es).
    eapply task_ok_mono; [exact Hk|]. eapply skel_ok; [symmetry; exact Es|]. by apply (Hh r').
  - by rewrite Hc.
  - intros u. destruct (Hu u) as [?|(? & it & ? & ?)]; [by left|right]. split; [done|]. exists it. auto.
  - intros r' tk _ H0. destruct (C r') as [[-> _]|[_ ->]]; rewrite H0; cbn; eexists; (split; [done|]); [by left|].
    apply effect_respects.
Qed.

(** ** The classes of [task.cpp] *)

Lemma taskForId_ok h b id : BoardTasks.wf h (tasks b) →
  ∃ o, BoardTasks.taskForId (tasks b) id = Ok o ∧
       ∀ r, o = Some r → ∃ tk, h !! r = Some tk ∧ Task.upcId tk = id.
Proof.
  intros Hwf. unfold BoardTasks.taskForId, BoardTasks.deref.
  destruct (al_find id (BoardTasks.tasksById_ (tasks b))) as [it|] eqn:E; [|eexists; split; [done|]; done].
  destruct (BoardTasks.wf_byId _ _ Hwf _ _ E) as (td & r & tk & -> & Ho & Hr & Hid). simpl.
  rewrite Ho. eexists. split; [done|]. intros r' [= <-]. eauto.
Qed.

(** Looking for a target that was not found yet. *)
Lemma find_target_ok h b own id o : BoardTasks.wf h (tasks b) → heap_ok h → target_ok h own id o →
  ∃ o', (match o with Some r => Ok (Some r) | None => Task.board_taskForId b id end) = Ok o' ∧ target_ok h own id o'.
Proof.
  intros Hwf Hh Ho. destruct o as [r|]; [eauto|]. destruct (taskForId_ok h b id Hwf) as (o' & E & Ho').
  exists o'. split; [exact E|]. destruct Ho as [[Hid _]|[Hlt _]]; [left|by right]. split; [done|].
  destruct o' as [r|]; [|done]. destruct (Ho' r eq_refl) as (tk & Hr & Hi). destruct (Hh _ _ Hr) as [? _]. lia.
Qed.

Lemma find_targets_ok h b own ids ts : BoardTasks.wf h (tasks b) → heap_ok h → Forall2 (target_ok h own) ids ts →
  ∃ ts', Task.find_targets b ids ts = Ok ts' ∧ Forall2 (target_ok h own) ids ts'.
Proof.
  intros Hwf Hh. induction 1 as [|id o ids ts Ho _ IH]; cbn [Task.find_targets]; [eauto|].
  destruct (find_target_ok h b own id o Hwf Hh Ho) as (o' & -> & Ho').
  cbn [rbind]. destruct IH as (ts' & -> & Hts). cbn [rbind]. eauto.
Qed.

Lemma first_match_total h ts pol df cs : Task.live h ts → ∃ s, Task.first_match h ts pol df cs = Ok s.
Proof.
  intros Hl. induction cs as [|s cs IH]; cbn [Task.first_match]; [eauto|].
  assert (∃ b, Task.matchStatus h ts pol df s = Ok b) as [b ->].
  { unfold Task.matchStatus. case_match.
    - rewrite Task.match_any_spec by done. eauto.
    - rewrite Task.match_count_spec by done. simpl. eauto.
    - rewrite Task.match_all_spec by done. eauto. }
  simpl. destruct b; eauto.
Qed.

Lemma Forall2_live h own ids ts : Forall2 (target_ok h own) ids ts → Task.live h ts.
Proof.
  intros H r Hr. apply list_elem_of_lookup in Hr as [i Hi].
  destruct (Forall2_lookup_r _ _ _ _ _ H Hi) as (id & _ & [[_ ?]|[_ Ht]]); [done|].
  destruct (Ht r eq_refl) as (tk & ? & _). eauto.
Qed.

(** [ProxyTask] and [MultiProxyTask] change only themselves; no target dangles
    and the search through proxies of proxies ends. *)
Lemma base_lawful hi fuel : lawful hi fuel (base_update fuel).
Proof.
  intros b h r Hready [tk Hr]. pose proof Hready as [Hb Hwf Hh Hf]. unfold base_update. rewrite Hr. cbn [of_option rbind].
  pose proof (Hh _ _ Hr) as [Hid Hok].
  pose proof (λ tk', respects_insert hi fuel h b r tk tk' Hready Hr) as Hins.
  destruct (Task.cls tk) as [d|tid o|ids ts pu pol df] eqn:Ek.
  - exists b, h. split; [done|]. by eapply respects_refl.
  - unfold Task.proxy_update. destruct (find_target_ok h b _ tid o Hwf Hh Hok) as (o' & -> & Ho').
    cbn [rbind]. destruct o' as [r'|]; [|exists b, h; split; [done|by eapply respects_refl]].
    assert (∃ tk', h !! r' = Some tk') as (tk' & Hr').
    { destruct Ho' as [[_ ?]|[_ Ht]]; [done|]. destruct (Ht r' eq_refl) as (tk' & ? & _). eauto. }
    rewrite Hr'. cbn [of_option rbind]. do 2 eexists. split; [done|]. apply Hins; [done|]. by split.
  - unfold Task.multi_update. destruct (find_targets_ok h b _ _ _ Hwf Hh Hok) as (ts' & -> & Hts).
    cbn [rbind]. set (tk1 := Task.setStatus Unknown _).
    assert (∀ tk', Task.upcId tk' = Task.upcId tk → Task.live (<[r := tk']> h) ts') as Hlive.
    { intros tk' E. eapply Forall2_live, targets_ok_mono; [by eapply BoardTasks.keeps_ids_insert|exact Hts]. }
    destruct (first_match_total (<[r := tk1]> h) ts' pol df [Success; Cancelled; Failure; Ongoing; Unknown])
      as [s ->]; [by apply Hlive|]. cbn [rbind]. rewrite !insert_insert_eq.
    set (tk2 := Task.set_cls _ _). pose proof (Hins tk2 eq_refl) as H2.
    destruct H2 as [K2 D2 H2 _ _ _ _ _]; [by split|].
    destruct (collect_units_total hi fuel (<[r := tk2]> h) ts') as [us ->];
      [done|by eapply ids_within_keep|by apply Hlive|].
    cbn [rbind]. rewrite insert_insert_eq. do 2 eexists. split; [done|]. apply Hins; [done|]. by split.
Qed.

(** ** The loop over the tasks *)

(** The state after the tasks of [P] (the larger identifiers) were updated and
    those of [R] were not; [h0] and [b0] are the tasks and the board before. *)
Record loop_inv (h0 : Task.heap) (b0 : t) (R P : list (Z * Z)) (hi : Z) (fuel : nat) (h : Task.heap) (b : t) : Prop := {
  li_ready : ready hi fuel h b;
  li_commands : CircularBuffer.size (commands_ b) = CircularBuffer.size (commands_ b0);
  li_all : BoardTasks.tasksById_ (tasks b) = R ++ P;
  li_nodes : BoardTasks.tasks_ (tasks b) = BoardTasks.tasks_ (tasks b0);
  li_assigned u it : BoardTasks.tasksByUnit_ (tasks b) !! u = Some it →
    it ∈ R.*2 ∨ holds h (tasks b) it u ∨ is_cancelled h (tasks b) it;
  li_held u id it : (id, it) ∈ P → holds h (tasks b) it u → ¬ is_cancelled h (tasks b) it →
    (∀ e, e ∈ P → e.1 < id → ¬ holds h (tasks b) e.2 u ∧ ¬ is_cancelled h (tasks b) e.2) →
    BoardTasks.tasksByUnit_ (tasks b) !! u = Some it;
  li_status e tk : e ∈ P → object h (tasks b) e.2 = Some tk →
    ∃ s, BoardTasks.lastTaskStatus_ (tasks b) !! e.1 = Some s ∧ (s = Task.status tk ∨ Task.status tk = Cancelled);
  li_stays e : is_cancelled h0 (tasks b0) e → is_cancelled h (tasks b) e;
  li_was e : e ∈ P → is_cancelled h0 (tasks b0) e.2 → BoardTasks.lastTaskStatus_ (tasks b) !! e.1 = Some Cancelled;
  li_gone id : id ∉ P.*1 → BoardTasks.lastTaskStatus_ (tasks b) !! id = BoardTasks.lastTaskStatus_ (tasks b0) !! id;
  li_removed id : id ∈ BoardTasks.tasksToBeRemoved_ (tasks b) ↔
    ∃ it td s, (id, it) ∈ P ∧ al_find it (BoardTasks.tasks_ (tasks b0)) = Some td ∧
      BoardTasks.autoRemove td = true ∧ BoardTasks.lastTaskStatus_ (tasks b) !! id = Some s ∧ is_final s
}.

Lemma byId_inj h b id1 id2 it : BoardTasks.wf h b →
  al_find id1 (BoardTasks.tasksById_ b) = Some it → al_find id2 (BoardTasks.tasksById_ b) = Some it → id1 = id2.
Proof.
  intros Hwf H1 H2. destruct (BoardTasks.wf_byId _ _ Hwf _ _ H1) as (? & ? & ? & ? & ? & ? & ?).
  destruct (BoardTasks.wf_byId _ _ Hwf _ _ H2) as (? & ? & ? & ? & ? & ? & ?). simplify_eq. done.
Qed.

Lemma object_nodes h b b' it : BoardTasks.tasks_ b' = BoardTasks.tasks_ b → object h b' it = object h b it.
Proof. unfold object. by intros ->. Qed.

(** Updating the task of one node at most cancels those of the others. *)
Lemma object_other h b r h' b' it td it0 tk0 : BoardTasks.wf h (tasks b) → respects h b r h' b' →
  al_find it (BoardTasks.tasks_ (tasks b)) = Some td → BoardTasks.task td = Some r →
  it0 ≠ it → object h (tasks b) it0 = Some tk0 →
  ∃ tk, object h' (tasks b) it0 = Some tk ∧
    (tk = tk0 ∨ Task.status tk = Cancelled ∧ Task.units tk ⊆ Task.units tk0).
Proof.
  intros Hwf Hrs Hit Ho Hne. unfold object.
  destruct (al_find it0 (BoardTasks.tasks_ (tasks b))) as [td0|] eqn:E; [|done].
  destruct (BoardTasks.task td0) as [r0|] eqn:Eo; [|done]. intros H0. apply (rs_others _ _ _ _ _ Hrs); [|done].
  intros ->. destruct (BoardTasks.wf_live _ _ Hwf _ _ Hit) as (? & ? & ? & ? & ?).
  destruct (BoardTasks.wf_live _ _ Hwf _ _ E) as (? & ? & ? & ? & ?). simplify_eq.
Qed.

Lemma object_live h b it td r tk : al_find it (BoardTasks.tasks_ b) = Some td → BoardTasks.task td = Some r →
  h !! r = Some tk → object h b it = Some tk.
Proof. intros Hit Ho Hr. unfold object. by rewrite Hit, Ho. Qed.

Lemma object_posted h b e : BoardTasks.wf h b → e ∈ BoardTasks.tasksById_ b → ∃ tk, object h b e.2 = Some tk.
Proof.
  intros Hwf He. destruct e as [id it]. apply al_in_find in He; [|by apply smap_wf_al, Hwf].
  destruct (BoardTasks.wf_byId _ _ Hwf _ _ He) as (td & r & tk & Hit & Ho & Hr & _). exists tk. by eapply object_live.
Qed.

(** The entries after the one being updated have larger identifiers and belong
    to other nodes. *)
Lemma others_distinct h b R P id it : BoardTasks.wf h b → BoardTasks.tasksById_ b = (R ++ [(id, it)]) ++ P →
  ∀ e, e ∈ P → e.2 ≠ it ∧ id < e.1.
Proof.
  intros Hwf Hall e He. pose proof (BoardTasks.wf_sorted _ _ Hwf) as Hs.
  assert (id < e.1) as Hlt.
  { unfold smap_wf in Hs. rewrite Hall, !fmap_app in Hs. apply StronglySorted_app in Hs as (Hlt & _ & _).
    apply Hlt; [set_solver|]. by apply list_elem_of_fmap_2. }
  split; [|done]. intros <-. pose proof (smap_wf_al _ Hs) as Hal.
  assert (∀ e1, e1 ∈ BoardTasks.tasksById_ b → al_find e1.1 (BoardTasks.tasksById_ b) = Some e1.2) as Hin.
  { intros [id1 it1] ?. by apply al_in_find. }
  assert (id = e.1); [|lia]. apply (byId_inj h b id e.1 e.2 Hwf).
  - apply (Hin (id, e.2)). rewrite Hall. set_solver.
  - apply Hin. rewrite Hall. set_solver.
Qed.

(** What the record of one task does to the index of units. *)
Lemma record_lookup m us it u :
  BoardTasks.assign_units (BoardTasks.erase_iter m it) us it !! u =
  if decide (u ∈ us) then Some it else if decide (m !! u = Some it) then None else m !! u.
Proof.
  rewrite BoardTasks.assign_units_lookup. case_decide; [done|]. apply option_eq. intros it'.
  rewrite BoardTasks.erase_iter_lookup. case_decide; naive_solver.
Qed.

Section step.
Context (hi : Z) (fuel : nat) (h0 : Task.heap) (b0 : t) (R P : list (Z * Z)) (h : Task.heap) (b : t) (id it : Z).
Context (Hinv : loop_inv h0 b0 (R ++ [(id, it)]) P hi fuel h b).
Context (td : BoardTasks.TaskData) (r : Task.ref) (tk : Task.t) (h1 : Task.heap) (b1 : t) (tk1 : Task.t).
Context (Hit : al_find it (BoardTasks.tasks_ (tasks b)) = Some td) (Ho : BoardTasks.task td = Some r).
Context (Hr : h !! r = Some tk) (Hid : Task.upcId tk = id) (Hr1 : h1 !! r = Some tk1) (Hid1 : Task.upcId tk1 = id).
Context (Hrs : respects h b r h1 b1).
Context (Hcan : Task.status tk = Cancelled → Task.status tk1 = Cancelled).

Let Hwf : BoardTasks.wf h (tasks b) := rd_tasks _ _ _ _ (li_ready _ _ _ _ _ _ _ _ Hinv).

Lemma step_distinct e : e ∈ P → e.2 ≠ it ∧ id < e.1.
Proof using All. apply (others_distinct h (tasks b) R P id it Hwf), Hinv. Qed.

Lemma step_own : object h1 (tasks b) it = Some tk1.
Proof using All. by eapply object_live. Qed.

Lemma step_other it0 tk0 : it0 ≠ it → object h (tasks b) it0 = Some tk0 → ∃ tk, object h1 (tasks b) it0 = Some tk ∧
  (tk = tk0 ∨ Task.status tk = Cancelled ∧ Task.units tk ⊆ Task.units tk0).
Proof using All. intros Hne H0. exact (object_other h b r h1 b1 it td it0 tk0 Hwf Hrs Hit Ho Hne H0). Qed.

(** The task of an entry of [P], before and after. *)
Lemma step_entry e : e ∈ P → ∃ tk0 tk, object h (tasks b) e.2 = Some tk0 ∧ object h1 (tasks b) e.2 = Some tk ∧
  (tk = tk0 ∨ Task.status tk = Cancelled ∧ Task.units tk ⊆ Task.units tk0).
Proof using All.
  intros He. destruct (object_posted h (tasks b) e Hwf) as [tk0 H0].
  { rewrite (li_all _ _ _ _ _ _ _ _ Hinv). set_solver. }
  destruct (step_other e.2 tk0) as (tk2 & H2 & H); [by apply step_distinct|done|]. eauto.
Qed.

Lemma step_stays it0 : is_cancelled h (tasks b) it0 → is_cancelled h1 (tasks b) it0.
Proof using All.
  intros (tk0 & H0 & Hc). destruct (decide (it0 = it)) as [->|Hne].
  - rewrite (object_live h (tasks b) it td r tk Hit Ho Hr) in H0. injection H0 as <-.
    exists tk1. split; [apply step_own|auto].
  - destruct (step_other it0 tk0 Hne H0) as (tk2 & H2 & [->|[? _]]); by exists tk2 || by exists tk0.
Qed.

(** An entry that holds a unit or is not cancelled afterwards did so before. *)
Lemma step_back e : e ∈ P → ¬ is_cancelled h1 (tasks b) e.2 →
  ¬ is_cancelled h (tasks b) e.2 ∧ ∀ u, holds h1 (tasks b) e.2 u ↔ holds h (tasks b) e.2 u.
Proof using All.
  intros He Hn. split; [by intros ?%step_stays|]. destruct (step_entry e He) as (tk0 & tk2 & E0 & E2 & [->|[Hc _]]).
  - intros u. unfold holds. by rewrite E0, E2.
  - destruct Hn. by exists tk2.
Qed.

Lemma step_assigned u it0 : BoardTasks.tasksByUnit_ (tasks b1) !! u = Some it0 → it0 ≠ it →
  it0 ∈ R.*2 ∨ holds h1 (tasks b) it0 u ∨ is_cancelled h1 (tasks b) it0.
Proof using All.
  intros Hm Hne. assert (BoardTasks.tasksByUnit_ (tasks b) !! u = Some it0) as Hm0.
  { destruct (rs_units _ _ _ _ _ Hrs u) as [E|[E _]]; congruence. }
  apply (li_assigned _ _ _ _ _ _ _ _ Hinv) in Hm0 as [Hm0|[(tk0 & H0 & Hu)|Hc]].
  - rewrite fmap_app in Hm0. set_solver.
  - destruct (step_other it0 tk0 Hne H0) as (tk2 & H2 & [->|[? _]]); [right; left; by exists tk0|].
    right. right. by exists tk2.
  - right. right. by apply step_stays.
Qed.

Lemma step_held u id0 it0 : (id0, it0) ∈ P → holds h1 (tasks b) it0 u → ¬ is_cancelled h1 (tasks b) it0 →
  (∀ e, e ∈ P → e.1 < id0 → ¬ holds h1 (tasks b) e.2 u ∧ ¬ is_cancelled h1 (tasks b) e.2) →
  BoardTasks.tasksByUnit_ (tasks b1) !! u = Some it0.
Proof using All.
  intros He Hh Hn Hlow. destruct (step_back _ He Hn) as [Hn0 Hiff].
  assert (BoardTasks.tasksByUnit_ (tasks b) !! u = Some it0) as E.
  { apply (li_held _ _ _ _ _ _ _ _ Hinv u id0); [done|by apply Hiff|done|]. intros e He' Hlt.
    destruct (Hlow e He' Hlt) as [Hh1 Hc1]. destruct (step_back e He' Hc1) as [Hc0 Hiff1].
    split; [by rewrite <-Hiff1|done]. }
  destruct (rs_units _ _ _ _ _ Hrs u) as [->|(_ & it1 & E1 & Hc)]; [done|].
  assert (it1 = it0) as -> by congruence. destruct Hc as [(td0 & Ht0 & Hr0)|?]; [|done].
  destruct (step_distinct _ He) as [Hne _]. destruct Hne. cbn.
  destruct (BoardTasks.wf_live _ _ Hwf _ _ Hit) as (? & ? & ? & ? & ?).
  destruct (BoardTasks.wf_live _ _ Hwf _ _ Ht0) as (? & ? & ? & ? & ?). simplify_eq. done.
Qed.

(** The record of the updated task joins what is known of the others. *)
Lemma update_step_inv ts : BoardTasks.wf h1 ts → BoardTasks.tasksById_ ts = BoardTasks.tasksById_ (tasks b1) →
  BoardTasks.tasks_ ts = BoardTasks.tasks_ (tasks b1) →
  BoardTasks.tasksByUnit_ ts = BoardTasks.assign_units (BoardTasks.erase_iter (BoardTasks.tasksByUnit_ (tasks b1)) it) (Task.units tk1) it →
  BoardTasks.lastTaskStatus_ ts = <[Task.upcId tk1 := Task.status tk1]> (BoardTasks.lastTaskStatus_ (tasks b1)) →
  BoardTasks.tasksToBeRemoved_ ts =
    (if BoardTasks.autoRemove td && Task.finished tk1 then BoardTasks.tasksToBeRemoved_ (tasks b1) ++ [id]
     else BoardTasks.tasksToBeRemoved_ (tasks b1)) →
  loop_inv h0 b0 R ((id, it) :: P) hi fuel h1 (set_tasks b1 ts).
Proof using All.
  intros Hts Ei En Eu El Er. rewrite (rs_tasks _ _ _ _ _ Hrs) in Ei, En, El, Er. cbn in Ei, En, El, Er. rewrite Hid1 in El.
  pose proof (respects_ready _ _ _ _ _ _ _ (li_ready _ _ _ _ _ _ _ _ Hinv) Hrs) as [Hb1 _ Hh1 Hf1].
  assert (∀ it0, object h1 ts it0 = object h1 (tasks b) it0) as Eo by (intros; by apply object_nodes).
  assert (∀ it0 u, holds h1 ts it0 u ↔ holds h1 (tasks b) it0 u) as Eh by (intros; unfold holds; by rewrite Eo).
  assert (∀ it0, is_cancelled h1 ts it0 ↔ is_cancelled h1 (tasks b) it0) as Ec by (intros; unfold is_cancelled; by rewrite Eo).
  pose proof step_own as Hown. pose proof step_distinct as Hdis. pose proof Hinv as [_ I2 I3 I4 I5 I6 I7 I8 I9 I10 I11].
  split; cbn [set_tasks tasks commands_].
  - split; try done. destruct Hb1. by split.
  - by rewrite (rs_commands _ _ _ _ _ Hrs).
  - rewrite Ei, I3. by rewrite <-app_assoc.
  - by rewrite En.
  - intros u it0. rewrite Eh, Ec, Eu, record_lookup. case_decide as Hu.
    + intros [= <-]. right. left. by exists tk1.
    + case_decide as Hm; [done|]. intros Hm0. apply step_assigned; [done|]. by intros ->.
  - intros u id0 it0. rewrite Eh, Ec, Eu, record_lookup. setoid_rewrite Eh. setoid_rewrite Ec.
    intros [[= -> ->]|He]%elem_of_cons Hh Hn Hlow.
    + rewrite decide_True; [done|]. destruct Hh as (tk0 & E0 & ?). congruence.
    + destruct (Hdis _ He) as [Hne Hlt]. destruct (Hlow (id, it)) as [Hlo _]; [by left|done|].
      rewrite decide_False by (intros ?; apply Hlo; by exists tk1).
      rewrite (step_held u id0 it0 He Hh Hn); [|intros e ?; apply Hlow; by right].
      rewrite decide_False; [done|]. by intros [= ?].
  - intros e tk0. rewrite Eo, El. intros [->|He]%elem_of_cons E0; cbn in *.
    + rewrite lookup_insert_eq. exists (Task.status tk1). split; [done|]. left. congruence.
    + destruct (Hdis _ He) as [_ Hlt]. rewrite lookup_insert_ne by lia.
      destruct (step_entry e He) as (tkb & tka & Eb & Ea & Hor). destruct (I7 e tkb He Eb) as (s & Es & Hs).
      exists s. split; [done|]. rewrite Ea in E0. injection E0 as <-.
      destruct Hor as [->|[? _]]; [done|by right].
  - intros it0 H0. apply Ec, step_stays. by apply I8.
  - intros e. rewrite El. intros [->|He]%elem_of_cons Hc; cbn in *.
    + rewrite lookup_insert_eq. f_equal. apply Hcan. apply I8 in Hc as (tk0 & E0 & Hc).
      rewrite (object_live h (tasks b) it td r tk Hit Ho Hr) in E0. congruence.
    + destruct (Hdis _ He) as [_ Hlt]. rewrite lookup_insert_ne by lia. by apply I9.
  - intros id0. csimpl. rewrite El. intros [Hne Hn]%not_elem_of_cons. rewrite lookup_insert_ne by done. by apply I10.
  - intros id0. rewrite El, Er. assert (id0 ∈ P.*1 → id0 ≠ id) as Hne.
    { intros (e & -> & He)%list_elem_of_fmap E. destruct (Hdis _ He) as [_ Hlt]. lia. }
    transitivity (id0 ∈ BoardTasks.tasksToBeRemoved_ (tasks b) ∨
      id0 = id ∧ BoardTasks.autoRemove td = true ∧ Task.finished tk1 = true).
    { destruct (BoardTasks.autoRemove td), (Task.finished tk1); cbn; rewrite ?elem_of_app, ?list_elem_of_singleton; naive_solver. }
    rewrite I11, finished_final. split.
    + intros [(it0 & td0 & s & He & Ht & Ha & Es & Hs)|(-> & Ha & Hf)].
      * exists it0, td0, s. rewrite lookup_insert_ne by (intros ->; eapply Hne; [|done]; apply list_elem_of_fmap; by exists (id0, it0)).
        split_and!; [by right|done..].
      * exists it, td, (Task.status tk1). rewrite lookup_insert_eq. split_and!; [by left|by rewrite <-I4|done..].
    + intros (it0 & td0 & s & [[= -> ->]|He]%elem_of_cons & Ht & Ha & Es & Hs).
      * right. rewrite lookup_insert_eq in Es. rewrite <-I4 in Ht. split_and!; [done|congruence|congruence].
      * left. rewrite lookup_insert_ne in Es; [by exists it0, td0, s|].
        intros ->. eapply Hne; [|done]. apply list_elem_of_fmap. by exists (id0, it0).
Qed.
End step.

Section update.
Context (virtual : (t → Task.heap → Task.ref → res (t * Task.heap)) → t → Task.heap → Task.ref → res (t * Task.heap)).
Context (clock : Z → Z).

(** Overriding keeps an update lawful. *)
Definition user_ok (hi : Z) (fuel : nat) : Prop := ∀ base, lawful hi fuel base → lawful hi fuel (virtual base).

Lemma update_task_step h0 b0 R P hi fuel h b id it : user_ok hi fuel →
  loop_inv h0 b0 (R ++ [(id, it)]) P hi fuel h b →
  ∃ h' b', update_task virtual clock fuel (h, b) (id, it) = Ok (h', b') ∧
    loop_inv h0 b0 R ((id, it) :: P) hi fuel h' b' ∧
    (∃ tk, object h' (tasks b') it = Some tk ∧ BoardTasks.lastTaskStatus_ (tasks b') !! id = Some (Task.status tk)) ∧
    ∀ id', id' ≠ id → BoardTasks.lastTaskStatus_ (tasks b') !! id' = BoardTasks.lastTaskStatus_ (tasks b) !! id'.
Proof.
  intros Hu Hinv. pose proof (li_ready _ _ _ _ _ _ _ _ Hinv) as Hready. pose proof (rd_tasks _ _ _ _ Hready) as Hwf.
  assert (al_find id (BoardTasks.tasksById_ (tasks b)) = Some it) as Hid.
  { apply al_in_find; [apply smap_wf_al, (BoardTasks.wf_sorted _ _ Hwf)|].
    rewrite (li_all _ _ _ _ _ _ _ _ Hinv). set_solver. }
  destruct (BoardTasks.wf_byId _ _ Hwf _ _ Hid) as (td & r & tk & Hit & Ho & Hr & Hupc).
  unfold update_task, BoardTasks.deref. rewrite Hit. cbn [of_option rbind]. rewrite Ho.
  cbn [of_option rbind]. rewrite Hr. cbn [of_option rbind].
  set (run := bool_decide (Task.status tk ≠ Cancelled)).
  assert (∃ b1 h1, (if run then task_update virtual fuel b h r else Ok (b, h)) = Ok (b1, h1) ∧ respects h b r h1 b1 ∧
    (Task.status tk = Cancelled → h1 = h)) as (b1 & h1 & -> & Hrs & Hcan).
  { unfold run. case_bool_decide as Hc.
    - destruct (Hu _ (base_lawful hi fuel) b h r Hready) as (b1 & h1 & E & Hrs); [eauto|]. exists b1, h1. by split_and!.
    - exists b, h. split_and!; [done|by eapply respects_refl|done]. }
  cbn [rbind]. destruct (rs_ids _ _ _ _ _ Hrs _ _ Hr) as (tk1 & Hr1 & Hupc1).
  pose proof (rd_tasks _ _ _ _ (respects_ready _ _ _ _ _ _ _ Hready Hrs)) as Hwf1.
  assert (al_find it (BoardTasks.tasks_ (tasks b1)) = Some td) as Hit1 by by rewrite (rs_tasks _ _ _ _ _ Hrs).
  destruct (BoardTasks.record_task_ok h1 (tasks b1) id it td r tk1 (if run then Some (clock id) else None) Hwf1 Hit1 Hr1)
    as (ts & -> & Hwfs & Ei & En & Eu & El & Er).
  cbn [rbind]. do 2 eexists. split; [done|].
  assert (loop_inv h0 b0 R ((id, it) :: P) hi fuel h1 (set_tasks b1 ts)) as Hinv1.
  { eapply (update_step_inv hi fuel h0 b0 R P h b id it Hinv td r tk h1 b1 tk1); try done; [congruence|].
    intros Hc. rewrite (Hcan Hc) in Hr1. congruence. }
  assert (Task.upcId tk1 = id) as Hid1 by congruence. rewrite Hid1 in El.
  split_and!; [done| |]; cbn [tasks set_tasks]; rewrite El.
  - exists tk1. rewrite lookup_insert_eq. split; [|done]. eapply object_live; [by rewrite En|done|done].
  - intros id' Hne. rewrite lookup_insert_ne by done. by rewrite (rs_tasks _ _ _ _ _ Hrs).
Qed.

(** A turn of some task, and what task [e] is like right after its own, between
    the beginning and the end of the loop. *)
Definition board_turn (fuel : nat) (hb hb' : Task.heap * t) : Prop := ∃ e, update_task virtual clock fuel hb e = Ok hb'.
Definition after_turn (fuel : nat) (first last : Task.heap * t) (e : Z * Z) (tk : Task.t) : Prop :=
  ∃ hb h b, rtc (board_turn fuel) first hb ∧ update_task virtual clock fuel hb e = Ok (h, b) ∧
    rtc (board_turn fuel) (h, b) last ∧ object h (tasks b) e.2 = Some tk.

Lemma update_tasks_loop h0 b0 R P hi fuel h b : user_ok hi fuel → loop_inv h0 b0 R P hi fuel h b →
  ∃ h' b', rfold (update_task virtual clock fuel) (reverse R) (h, b) = Ok (h', b') ∧
    loop_inv h0 b0 [] (R ++ P) hi fuel h' b' ∧ rtc (board_turn fuel) (h, b) (h', b') ∧
    (∀ id, id ∉ R.*1 → BoardTasks.lastTaskStatus_ (tasks b') !! id = BoardTasks.lastTaskStatus_ (tasks b) !! id) ∧
    ∀ e, e ∈ R → ∃ tk, after_turn fuel (h, b) (h', b') e tk ∧
      BoardTasks.lastTaskStatus_ (tasks b') !! e.1 = Some (Task.status tk).
Proof.
  intros Hu. revert P h b. induction R as [|[id it] R IH] using rev_ind; intros P h b Hinv.
  - exists h, b. split_and!; try done. by intros e ?%not_elem_of_nil.
  - rewrite reverse_snoc. cbn [rfold].
    pose proof (others_distinct h (tasks b) R P id it (rd_tasks _ _ _ _ (li_ready _ _ _ _ _ _ _ _ Hinv))) as Hdis.
    assert (id ∉ R.*1) as Hnew.
    { pose proof (smap_wf_al _ (BoardTasks.wf_sorted _ _ (rd_tasks _ _ _ _ (li_ready _ _ _ _ _ _ _ _ Hinv)))) as Hal.
      rewrite (li_all _ _ _ _ _ _ _ _ Hinv) in Hal. unfold al_wf in Hal. rewrite !fmap_app in Hal.
      apply NoDup_app in Hal as (Hal & _ & _). apply NoDup_app in Hal as (_ & Hal & _). intros Hin.
      apply (Hal id Hin). by left. }
    destruct (update_task_step _ _ _ _ _ _ _ _ _ _ Hu Hinv) as (h1 & b1 & E & Hinv1 & (tk & Ho & El) & Hel).
    destruct (IH _ _ _ Hinv1) as (h' & b' & E' & Hinv' & Hrtc & Hsame & Hturn).
    rewrite E. cbn [rbind]. rewrite <-app_assoc. exists h', b'.
    assert (board_turn fuel (h, b) (h1, b1)) as Ht by by exists (id, it).
    split_and!; [done|done|by eapply rtc_l| |].
    + intros id'. rewrite fmap_app. intros [Hn Hne]%not_elem_of_app. rewrite Hsame by done. apply Hel.
      intros ->. apply Hne. by left.
    + intros e [He| ->%list_elem_of_singleton]%elem_of_app.
      * destruct (Hturn e He) as (tk' & (hb & h2 & b2 & R1 & E2 & R2 & O2) & E3). exists tk'. split; [|done].
        exists hb, h2, b2. split_and!; [by eapply rtc_l|done..].
      * exists tk. cbn. rewrite Hsame by done. split; [|done]. by exists (h, b), h1, b1.
Qed.

Lemma overlaps_total h b : BoardTasks.wf h b → ∃ w, BoardTasks.overlaps h b = Ok w.
Proof.
  intros Hwf. unfold BoardTasks.overlaps.
  match goal with |- context [rfold ?f ?l ?a] =>
    destruct (rfold_defined f l a) as [x ->]; [|simpl; eauto] end.
  intros [dup warn] [id it] Hin. rewrite elem_of_reverse in Hin.
  apply al_in_find in Hin; [|apply smap_wf_al, Hwf].
  destruct (BoardTasks.wf_byId _ _ Hwf _ _ Hin) as (td & r & tk & Hit & Ho & Hr & _).
  unfold BoardTasks.deref. simpl. rewrite Hit. simpl. rewrite Ho. simpl. rewrite Hr. simpl.
  case_decide; eauto.
Qed.

(** Everything [update] establishes, from the board [b0] without the tasks that
    were to be removed. *)
Lemma update_main hi fuel h b destroyed : user_ok hi fuel → ready hi fuel h b →
  ∃ h' b' b0, update virtual clock fuel h b destroyed = Ok (h', b') ∧
    loop_inv h b0 [] (BoardTasks.tasksById_ (tasks b0)) hi fuel h' b' ∧
    CircularBuffer.size (commands_ b0) = CircularBuffer.size (commands_ b) ∧
    (∀ id, al_find id (BoardTasks.tasksById_ (tasks b0)) =
       if decide (id ∈ BoardTasks.tasksToBeRemoved_ (tasks b)) then None
       else al_find id (BoardTasks.tasksById_ (tasks b))) ∧
    (∀ it td, al_find it (BoardTasks.tasks_ (tasks b0)) = Some td → al_find it (BoardTasks.tasks_ (tasks b)) = Some td) ∧
    BoardTasks.lastTaskStatus_ (tasks b0) = BoardTasks.lastTaskStatus_ (tasks b) ∧
    BoardTasks.wf h (tasks b0) ∧
    ∀ e, e ∈ BoardTasks.tasksById_ (tasks b0) → ∃ tk, after_turn fuel (h, b0) (h', b') e tk ∧
      BoardTasks.lastTaskStatus_ (tasks b') !! e.1 = Some (Task.status tk).
Proof.
  intros Hu [Hb Ht Hh Hf]. unfold update.
  destruct (BoardTasks.remove_pending_ok h (tasks b) Ht) as (ts & -> & Hts & Hn & Hi & Hl & Hnodes).
  cbn [rbind]. destruct (BlackboardUpcs.prune_active_ok (set_tasks b ts)) as (m & Hp & _); [apply Hb|].
  assert (BlackboardUpcs.wf (set_active (set_tasks b ts) m)) as Hb1.
  { eapply BlackboardUpcs.prune_active_wf; [|exact Hp]. destruct Hb. by split. }
  rewrite Hp. cbn [rbind]. set (ts1 := BoardTasks.clear_stats _).
  assert (BoardTasks.wf h ts1) as Hts1.
  { destruct (BoardTasks.remove_destroyed_wf h ts destroyed Hts). by split. }
  assert (BoardTasks.tasks_ ts1 = BoardTasks.tasks_ ts ∧ BoardTasks.tasksById_ ts1 = BoardTasks.tasksById_ ts ∧
    BoardTasks.lastTaskStatus_ ts1 = BoardTasks.lastTaskStatus_ ts ∧
    BoardTasks.tasksToBeRemoved_ ts1 = []) as (En & Ei & El & Er) by by split_and!.
  set (b1 := set_tasks _ ts1).
  destruct (update_tasks_loop h b1 (BoardTasks.tasksById_ ts1) [] hi fuel h b1 Hu) as (h' & b' & Hl' & Hinv & _ & _ & Hturn).
  { split; try done.
    - split; try done. destruct Hb1. by split.
    - by rewrite app_nil_r.
    - intros u it Hm. left. apply (BoardTasks.wf_byUnit _ _ Hts1), BoardTasks.al_elem_find in Hm as [td Htd].
      destruct (BoardTasks.wf_live _ _ Hts1 _ _ Htd) as (? & tk & _ & _ & E).
      apply list_elem_of_fmap. exists (Task.upcId tk, it). split; [done|]. by apply al_find_Some_in.
    - intros u id it He. by apply not_elem_of_nil in He.
    - intros e tk He. by apply not_elem_of_nil in He.
    - intros e He. by apply not_elem_of_nil in He.
    - intros id. change (tasks b1) with ts1. rewrite Er. split; [by intros ?%not_elem_of_nil|].
      intros (it & ? & ? & ?%not_elem_of_nil & _). done. }
  unfold update_tasks. unfold b1 at 1. cbn [tasks set_tasks]. rewrite Hl'. cbn [rbind fst snd].
  destruct (overlaps_total h' (tasks b')) as [w ->]; [apply Hinv|]. cbn [rbind].
  rewrite app_nil_r in Hinv. exists h', b', b1. by split_and!.
Qed.

(** C1 On a consistent board [update] returns: no iterator it follows dangles and
    no pointer is null, its loops over sources and proxies end, and the board it
    leaves is consistent again.  On its turn a task of a module may do anything to
    itself, cancel other tasks, and post or remove UPCs and commands; it is
    assumed to return, to post no task and to mark none for removal. *)
Theorem update_total hi fuel h b destroyed : user_ok hi fuel → ready hi fuel h b →
  ∃ h' b', update virtual clock fuel h b destroyed = Ok (h', b') ∧ ready hi fuel h' b'.
Proof.
  intros Hu Hr. destruct (update_main hi fuel h b destroyed Hu Hr) as (h' & b' & b0 & E & Hinv & _).
  exists h', b'. split; [done|]. apply Hinv.
Qed.

(** C2 [update] drops exactly the tasks marked for removal and keeps the status
    last recorded for them.  For each remaining task it records the status the
    task had right after its own turn, a moment between the turns of the tasks
    before and after it.  That is the status it has at the end, unless another
    task has cancelled it since; a task that was cancelled before the update is
    recorded as cancelled.  It marks for the next update exactly the tasks posted
    with auto-removal whose recorded status is final.  (The tasks of modules do
    on their turn what C1 says.) *)
Theorem update_lifecycle hi fuel h b destroyed : user_ok hi fuel → ready hi fuel h b →
  ∃ h' b', update virtual clock fuel h b destroyed = Ok (h', b') ∧
  (∀ id, BoardTasks.taskForId (tasks b') id =
     if decide (id ∈ BoardTasks.tasksToBeRemoved_ (tasks b)) then Ok None
     else BoardTasks.taskForId (tasks b) id) ∧
  (∀ id, BoardTasks.taskForId (tasks b') id = Ok None →
     BoardTasks.lastStatusOfTask (tasks b') id = BoardTasks.lastStatusOfTask (tasks b) id) ∧
  (∀ id r tk', BoardTasks.taskForId (tasks b') id = Ok (Some r) → h' !! r = Some tk' →
     (BoardTasks.lastStatusOfTask (tasks b') id = Task.status tk' ∨ Task.status tk' = Cancelled) ∧
     (∀ tk, h !! r = Some tk → Task.status tk = Cancelled → BoardTasks.lastStatusOfTask (tasks b') id = Cancelled) ∧
     ∃ b0 it tk, al_find id (BoardTasks.tasksById_ (tasks b')) = Some it ∧
       after_turn fuel (h, b0) (h', b') (id, it) tk ∧ BoardTasks.lastStatusOfTask (tasks b') id = Task.status tk) ∧
  (∀ id, id ∈ BoardTasks.tasksToBeRemoved_ (tasks b') ↔
     ∃ it td, al_find id (BoardTasks.tasksById_ (tasks b')) = Some it ∧ BoardTasks.deref (tasks b') it = Ok td ∧
       BoardTasks.autoRemove td = true ∧ is_final (BoardTasks.lastStatusOfTask (tasks b') id)).
Proof.
  intros Hu Hr. destruct (update_main hi fuel h b destroyed Hu Hr)
    as (h' & b' & b0 & E & Hinv & _ & Hi & Hn & Hlast & Hwf0 & Hturn).
  pose proof (rd_tasks _ _ _ _ (li_ready _ _ _ _ _ _ _ _ Hinv)) as Hwf.
  destruct Hinv as [_ _ I3 I4 _ _ I7 _ I9 I10 I11]. cbn [app] in I3. rewrite <-I3 in *.
  exists h', b'. split; [done|].
  assert (∀ id, BoardTasks.lastStatusOfTask (tasks b') id = default Unknown (BoardTasks.lastTaskStatus_ (tasks b') !! id)) as El.
  { intros id. unfold BoardTasks.lastStatusOfTask. by destruct (_ !! id). }
  assert (∀ id it, al_find id (BoardTasks.tasksById_ (tasks b')) = Some it → ∃ td r tk,
    al_find it (BoardTasks.tasks_ (tasks b')) = Some td ∧ BoardTasks.task td = Some r ∧ h' !! r = Some tk) as Hobj.
  { intros id it Ei. destruct (BoardTasks.wf_byId _ _ Hwf _ _ Ei) as (td & r & tk & Ht & Ho & Hrr & _). eauto 10. }
  split_and!.
  - intros id. unfold BoardTasks.taskForId, BoardTasks.deref. specialize (Hi id).
    destruct (al_find id (BoardTasks.tasksById_ (tasks b'))) as [it|] eqn:Ei; [|case_decide; [done|by rewrite <-Hi]].
    case_decide; [done|]. rewrite <-Hi. destruct (Hobj _ _ Ei) as (td & _ & _ & Ht & _).
    by rewrite Ht, (Hn it td) by by rewrite <-I4.
  - intros id. unfold BoardTasks.taskForId, BoardTasks.deref.
    destruct (al_find id _) as [it|] eqn:Ei; [destruct (Hobj _ _ Ei) as (td & r & tk & Ht & Ho & _); rewrite Ht; simpl; congruence|].
    intros _. rewrite El, I10, Hlast by by apply al_find_None. unfold BoardTasks.lastStatusOfTask. by destruct (_ !! id).
  - intros id r tk'. unfold BoardTasks.taskForId, BoardTasks.deref.
    destruct (al_find id _) as [it|] eqn:Ei; [|done]. destruct (Hobj _ _ Ei) as (td & r0 & tk0 & Ht & Ho & _).
    rewrite Ht. cbn [of_option rbind]. intros [= Ho'] Hr'. rewrite Ho in Ho'. injection Ho' as ->.
    pose proof Ei as Ef. apply al_find_Some_in in Ei. rewrite El. split_and!.
    + destruct (I7 (id, it) tk' Ei) as (s & Es & Hs); [by eapply object_live|]. cbn in Es. by rewrite Es.
    + intros tk Hrr Hc. pose proof (I9 (id, it) Ei) as H9. cbn in H9. rewrite H9; [done|]. exists tk. split; [|done].
      eapply object_live; [by rewrite <-I4|done|done].
    + destruct (Hturn (id, it) Ei) as (tk & Ht' & Es). cbn in Es. exists b0, it, tk. by rewrite Es.
  - intros id. rewrite I11, El. unfold BoardTasks.deref. rewrite I4. split.
    + intros (it & td & s & He & Ht & Ha & -> & Hs). exists it, td. rewrite Ht. split_and!; [|done..].
      apply al_in_find; [apply smap_wf_al, Hwf|done].
    + intros (it & td & Hf & Ht%of_option_Ok & Ha & Hs). apply al_find_Some_in in Hf.
      destruct (object_posted h' (tasks b') (id, it) Hwf Hf) as [tk Ho].
      destruct (I7 (id, it) tk Hf Ho) as (s & Es & _). cbn in Es. rewrite Es in Hs. exists it, td, s. done.
Qed.

(** C3 After [update] a unit is assigned only to a posted task that holds it or
    has been cancelled.  A task that holds a unit, and has not been cancelled,
    has it assigned to it when no task of a smaller UPC identifier holds the
    unit or has been cancelled.  So where no task has been cancelled a unit
    belongs to the task of smallest identifier that holds it, and to no task
    when none does: stale and destroyed assignments are gone.  (The tasks of
    modules do on their turn what C1 says.) *)
Theorem update_assigns hi fuel h b destroyed : user_ok hi fuel → ready hi fuel h b →
  ∃ h' b', update virtual clock fuel h b destroyed = Ok (h', b') ∧
    (∀ u it, BoardTasks.tasksByUnit_ (tasks b') !! u = Some it →
       it ∈ (BoardTasks.tasksById_ (tasks b')).*2 ∧ (holds h' (tasks b') it u ∨ is_cancelled h' (tasks b') it)) ∧
    (∀ u id it, al_find id (BoardTasks.tasksById_ (tasks b')) = Some it →
       holds h' (tasks b') it u → ¬ is_cancelled h' (tasks b') it →
       (∀ e, e ∈ BoardTasks.tasksById_ (tasks b') → e.1 < id →
          ¬ holds h' (tasks b') e.2 u ∧ ¬ is_cancelled h' (tasks b') e.2) →
       BoardTasks.taskDataWithUnit (tasks b') u = BoardTasks.deref (tasks b') it).
Proof.
  intros Hu Hr. destruct (update_main hi fuel h b destroyed Hu Hr) as (h' & b' & b0 & E & Hinv & _).
  pose proof (rd_tasks _ _ _ _ (li_ready _ _ _ _ _ _ _ _ Hinv)) as Hwf.
  destruct Hinv as [_ _ I3 _ I5 I6 _ _ _ _ _]. cbn [app] in I3. rewrite <-I3 in *. exists h', b'. split_and!; [done| |].
  - intros u it Hm. split.
    + apply (BoardTasks.wf_byUnit _ _ Hwf), BoardTasks.al_elem_find in Hm as [td Htd].
      destruct (BoardTasks.wf_live _ _ Hwf _ _ Htd) as (? & tk & _ & _ & Ei).
      apply list_elem_of_fmap. exists (Task.upcId tk, it). split; [done|]. by apply al_find_Some_in.
    + apply I5 in Hm as [Hm|Hm]; [by apply not_elem_of_nil in Hm|done].
  - intros u id it Hf Hh Hc Hlow. apply al_find_Some_in in Hf. unfold BoardTasks.taskDataWithUnit.
    by rewrite (I6 u id it Hf Hh Hc Hlow).
Qed.
End update.

(** ** An example *)

(** A task for UPC 5 with unit 10 and a controller, and a build order for UPC 3
    that waits for it. *)
Definition example_heap : Task.heap :=
  <[1 := Task.Task Ongoing 5 {[10]} (Task.KTask 1)]> (
  <[2 := Task.Task Ongoing 3 ∅ (Task.KMulti [5] [Some 1] ∅ Task.default_policy Unknown)]> ∅).
Definition example_tasks : BoardTasks.t :=
  match BoardTasks.postTask example_heap BoardTasks.make 1 (Some 7) true 0 with
  | Ok b => match BoardTasks.postTask example_heap b 2 None false 1 with Ok b => b | _ => BoardTasks.make end
  | _ => BoardTasks.make
  end.
Definition example_board : t := set_tasks BlackboardUpcs.initial example_tasks.

(** The build order cancels the task after its own turn, as
    [AutoBuildTask::update] does when the building has been started. *)
Definition example_user (fuel : nat) (base : t → Task.heap → Task.ref → res (t * Task.heap)) (b : t) (h : Task.heap)
    (r : Task.ref) : res (t * Task.heap) :=
  let? bh := base b h r in
  match bh.2 !! 1 with
  | Some _ => if decide (r = 2) then @Task.cancel t board Task.example_classes fuel bh.1 bh.2 1 else Ok bh
  | None => Ok bh
  end.

Lemma example_user_ok hi fuel : user_ok (example_user fuel) hi fuel.
Proof.
  intros base Hbase b h r Hready Hr. destruct (Hbase b h r Hready Hr) as (b1 & h1 & E & Hrs).
  unfold example_user. rewrite E. cbn [rbind fst snd]. destruct (h1 !! 1) as [tk|] eqn:E1; [|eauto].
  case_decide; [|eauto]. pose proof (respects_ready _ _ _ _ _ _ _ Hready Hrs) as Hready1.
  destruct (@cancel_respects Task.example_classes hi fuel h1 b1 r 1 Hready1) as (b2 & h2 & E2 & Hrs2); [eauto|].
  exists b2, h2. split; [exact E2|]. by eapply respects_trans.
Qed.

Lemma example_ready : ready 5 3 example_heap example_board.
Proof.
  assert (BoardTasks.wf example_heap example_tasks) as Hwf.
  { unfold example_tasks.
    destruct (BoardTasks.postTask_ok example_heap BoardTasks.make 1 (Task.Task Ongoing 5 {[10]} (Task.KTask 1))
      (Some 7) true 0) as (b & E & Hb & Et & Ei & _); [apply BoardTasks.no_tasks_wf|done|done|]. rewrite E.
    destruct (BoardTasks.postTask_ok example_heap b 2
      (Task.Task Ongoing 3 ∅ (Task.KMulti [5] [Some 1] ∅ Task.default_policy Unknown)) None false 1)
      as (b' & E' & Hb' & _); [done|done|by rewrite Ei|]. by rewrite E'. }
  split.
  - destruct BlackboardUpcs.initial_wf. by split.
  - exact Hwf.
  - apply map_Forall_insert_2; [by split; [simpl; lia|]|]. apply map_Forall_insert_2; [|apply map_Forall_empty].
    split; simpl; [lia|]. constructor; [|constructor]. right. split; [lia|]. intros r [= <-]. eexists. split; reflexivity.
  - apply map_Forall_insert_2; [simpl; lia|]. apply map_Forall_insert_2; [simpl; lia|apply map_Forall_empty].
Qed.

Lemma update_total_witness :
  ∃ h' b', update (example_user 3) (λ _, 0) 3 example_heap example_board [] = Ok (h', b') ∧ ready 5 3 h' b'.
Proof. apply update_total; [apply example_user_ok|apply example_ready]. Defined.

Definition example_after : Task.heap * t :=
  match update (example_user 3) (λ _, 0) 3 example_heap example_board [] with Ok hb => hb | _ => (∅, make) end.

Lemma example_after_eq :
  update (example_user 3) (λ _, 0) 3 example_heap example_board [] = Ok (example_after.1, example_after.2).
Proof. vm_compute. reflexivity. Qed.

(** The unit of the cancelled task is assigned to it until the next update. *)
Lemma update_assigns_witness :
  BoardTasks.tasksByUnit_ (tasks example_after.2) !! 10 = Some 1 ∧
  (holds example_after.1 (tasks example_after.2) 1 10 ∨ is_cancelled example_after.1 (tasks example_after.2) 1).
Proof.
  split; [vm_compute; reflexivity|].
  destruct (update_assigns (example_user 3) (λ _, 0) 5 3 example_heap example_board []
             (example_user_ok 5 3) example_ready) as (h' & b' & E & H & _).
  rewrite example_after_eq in E. injection E as <- <-. apply H. vm_compute. reflexivity.
Defined.

(** It was ongoing on its turn, so it stays for the next update. *)
Lemma update_lifecycle_witness :
  Task.status <$> example_after.1 !! 1 = Some Cancelled ∧
  BoardTasks.lastStatusOfTask (tasks example_after.2) 5 = Ongoing ∧
  BoardTasks.lastStatusOfTask (tasks example_after.2) 3 = Ongoing.
Proof.
  split; [vm_compute; reflexivity|]. split; [vm_compute; reflexivity|].
  destruct (update_lifecycle (example_user 3) (λ _, 0) 5 3 example_heap example_board []
             (example_user_ok 5 3) example_ready) as (h' & b' & E & _ & _ & H & _).
  rewrite example_after_eq in E. injection E as <- <-.
  destruct (H 3 2 (Task.Task Ongoing 3 ∅ (Task.KMulti [5] [Some 1] {[10]} Task.default_policy Unknown)))
    as [[E|E] _]; [vm_compute; reflexivity|vm_compute; reflexivity|exact E|discriminate E].
Defined.

End BlackboardUpdate.
