(* ===== verification/ResourceWorkers.v ===== *)
(** * Assignments of workers to resources ([src/modules/gatherer/resourceworkers.h], [resourceworkers.cpp])

    A two-way map: from a worker to the resource it gathers, and from every
    resource gathering is allowed from to its set of workers.  The second map
    is iterated over, so it is the list of its entries in iteration order.
    Workers and resources are pointers that may be null. *)

From S2P Require Import Prelude Units.

Module ResourceWorkers.

(** [src/src/modules/gatherer/resourceworkers.h:24-50] ResourceWorkers *)
Record t := RW {
  resourceByWorker : gmap Z Z;
  workersByResource : list (Z * gset Z)
}.

Definition make : t := RW ∅ [].

(** [src/src/modules/gatherer/resourceworkers.cpp:48-50] ResourceWorkers::containsResource *)
Definition containsResource (m : t) (r : UnitPtr) : bool :=
  match r with Some r => bool_decide (is_Some (al_find r (workersByResource m))) | None => false end.

(** [src/src/modules/gatherer/resourceworkers.cpp:66-69] ResourceWorkers::getResource *)
Definition getResource (m : t) (w : UnitPtr) : UnitPtr := w ≫= λ w, resourceByWorker m !! w.

(** [src/src/modules/gatherer/resourceworkers.cpp:72-76] ResourceWorkers::countWorkers *)
Definition countWorkers (m : t) (r : UnitPtr) : Z :=
  match r ≫= λ r, al_find r (workersByResource m) with Some ws => Z.of_nat (size ws) | None => 0 end.

(** [src/src/modules/gatherer/resourceworkers.cpp:30-38] ResourceWorkers::unassignWorker *)
Definition unassignWorker (m : t) (w : UnitPtr) : t :=
  match w with
  | None => m
  | Some w =>
      let byResource :=
        match resourceByWorker m !! w with
        | None => workersByResource m
        | Some r =>
            match al_find r (workersByResource m) with
            | None => workersByResource m
            | Some ws => al_set r (ws ∖ {[w]}) (workersByResource m)
            end
        end in
      RW (delete w (resourceByWorker m)) byResource
  end.

(** [src/src/modules/gatherer/resourceworkers.cpp:16-27] ResourceWorkers::assignWorker *)
Definition assignWorker (m : t) (w r : UnitPtr) : t :=
  let m := unassignWorker m w in
  match w, r with
  | Some w, Some r =>
      match al_find r (workersByResource m) with
      | Some ws => RW (<[w := r]> (resourceByWorker m)) (al_set r (ws ∪ {[w]}) (workersByResource m))
      | None => m
      end
  | _, _ => m
  end.

(** [src/src/modules/gatherer/resourceworkers.cpp:41-45] ResourceWorkers::includeResource *)
Definition includeResource (m : t) (r : UnitPtr) : t :=
  match r with
  | None => m
  | Some r =>
      match al_find r (workersByResource m) with
      | Some _ => m
      | None => RW (resourceByWorker m) (al_set r ∅ (workersByResource m))
      end
  end.

(** [src/src/modules/gatherer/resourceworkers.cpp:53-63] ResourceWorkers::excludeResource *)
Definition excludeResource (m : t) (r : UnitPtr) : t * bool :=
  match r with
  | None => (m, false)
  | Some r =>
      match al_find r (workersByResource m) with
      | Some ws =>
          (RW (fold_left (λ acc w, delete w acc) (elements ws) (resourceByWorker m))
              (al_erase r (workersByResource m)), true)
      | None => (m, false)
      end
  end.

(** ** The two directions agree *)

Record wf (m : t) : Prop := {
  wf_keys : al_wf (workersByResource m);
  wf_both w r : resourceByWorker m !! w = Some r ↔
    ∃ ws, al_find r (workersByResource m) = Some ws ∧ w ∈ ws
}.

(** ** The specification: a partial map into a set of allowed resources *)

Record spec := Spec { gathers : gmap Z Z; allowed : gset Z }.

Inductive op :=
| Assign (w r : UnitPtr)
| Unassign (w : UnitPtr)
| Include (r : UnitPtr)
| Exclude (r : UnitPtr).

Definition run (m : t) (o : op) : t :=
  match o with
  | Assign w r => assignWorker m w r
  | Unassign w => unassignWorker m w
  | Include r => includeResource m r
  | Exclude r => (excludeResource m r).1
  end.

Definition spec_run (s : spec) (o : op) : spec :=
  match o with
  | Assign (Some w) (Some r) =>
      if decide (r ∈ allowed s) then Spec (<[w := r]> (gathers s)) (allowed s)
      else Spec (delete w (gathers s)) (allowed s)
  | Assign (Some w) None | Unassign (Some w) => Spec (delete w (gathers s)) (allowed s)
  | Include (Some r) => Spec (gathers s) (allowed s ∪ {[r]})
  | Exclude (Some r) => Spec (filter (λ p, p.2 ≠ r) (gathers s)) (allowed s ∖ {[r]})
  | _ => s
  end.

Definition abstract (m : t) : spec := Spec (resourceByWorker m) (list_to_set (workersByResource m).*1).

Lemma make_wf : wf make.
Proof. split; [constructor|]. intros w r. simpl. rewrite lookup_empty. naive_solver. Qed.

Lemma in_keys {V} r (l : list (Z * V)) : r ∈ l.*1 ↔ is_Some (al_find r l).
Proof.
  destruct (al_find r l) as [ws|] eqn:E.
  - split; [eauto|]. intros _. apply al_find_Some_in in E. apply list_elem_of_fmap. by exists (r, ws).
  - apply al_find_None in E. split; [done|]. by intros [].
Qed.

Lemma allowed_in m r : r ∈ allowed (abstract m) ↔ is_Some (al_find r (workersByResource m)).
Proof. simpl. by rewrite elem_of_list_to_set, in_keys. Qed.

(** Replacing the set of one included resource. *)
Lemma al_set_keys {V} r (v : V) (l : list (Z * V)) : is_Some (al_find r l) → (al_set r v l).*1 = l.*1.
Proof. intros Hr. rewrite al_set_fst, decide_True; [done|]. by apply in_keys. Qed.

Lemma unassign_refines m w : wf m →
  wf (unassignWorker m w) ∧ abstract (unassignWorker m w) = spec_run (abstract m) (Unassign w) ∧
  (workersByResource (unassignWorker m w)).*1 = (workersByResource m).*1.
Proof.
  intros [Hk Hb]. destruct w as [w|]; [|by split; [split|]]. simpl.
  destruct (resourceByWorker m !! w) as [r|] eqn:Ew.
  - apply Hb in Ew as (ws & Er & Hw). rewrite Er. unfold abstract; simpl.
    rewrite al_set_keys by by rewrite Er. split_and!; try done. split; simpl; [by apply al_set_wf|].
    intros w' r'. rewrite lookup_delete_Some, Hb, al_find_set. split.
    + intros (Hne & ws' & E' & Hin). case_decide; subst; [|by eauto]. rewrite Er in E'. injection E' as <-.
      eexists. split; [done|]. set_solver.
    + intros (ws' & E' & Hin). case_decide; subst.
      * injection E' as <-. split; [set_solver|]. exists ws. set_solver.
      * split; [|by eauto]. intros <-. assert (r' = r); [|done].
        assert (resourceByWorker m !! w = Some r') as E1 by (apply Hb; eauto).
        assert (resourceByWorker m !! w = Some r) as E2 by (apply Hb; eauto). congruence.
  - unfold abstract; simpl. split_and!; try done. split; simpl; [done|]. intros w' r'.
    rewrite lookup_delete_Some, Hb. split; [by intros [_ ?]|]. intros Hr. split; [|done]. intros ->.
    apply Hb in Hr. congruence.
Qed.

Lemma assign_refines m w r : wf m →
  wf (assignWorker m w r) ∧ abstract (assignWorker m w r) = spec_run (abstract m) (Assign w r) ∧
  (workersByResource (assignWorker m w r)).*1 = (workersByResource m).*1.
Proof.
  intros Hwf. unfold assignWorker. destruct (unassign_refines m w Hwf) as ([Hk Hb] & Ha & Hkeys).
  set (m1 := unassignWorker m w) in *. destruct w as [w|]; [|by split; [split|]].
  destruct r as [r|]; [|by split; [split|]].
  assert (resourceByWorker m1 = delete w (resourceByWorker m)) as Hm1 by done. clearbody m1.
  assert (resourceByWorker m1 !! w = None) as Hw by (rewrite Hm1; apply lookup_delete_eq).
  assert (r ∈ allowed (abstract m) ↔ is_Some (al_find r (workersByResource m1))) as Hal.
  { rewrite allowed_in, <-!in_keys. by rewrite Hkeys. }
  cbn [spec_run]. destruct (al_find r (workersByResource m1)) as [ws|] eqn:Er.
  - rewrite decide_True by by apply Hal. unfold abstract; simpl. rewrite al_set_keys by by rewrite Er.
    rewrite Hkeys. split_and!; try done.
    + split; simpl; [by apply al_set_wf|]. intros w' r'. rewrite al_find_set. rewrite lookup_insert_Some, Hb.
      split.
      * intros [[<- <-]|(Hne & ws' & E' & Hin)]; [rewrite decide_True by done; eexists; split; [done|]; set_solver|].
        case_decide; subst; [|by eauto]. rewrite Er in E'. injection E' as <-. eexists. split; [done|]. set_solver.
      * intros (ws' & E' & Hin). destruct (decide (w' = w)) as [->|Hne].
        -- left. split; [done|]. case_decide; [done|]. exfalso.
           assert (resourceByWorker m1 !! w = Some r') by (apply Hb; eauto). congruence.
        -- right. split; [done|]. case_decide; subst; [|by eauto]. injection E' as <-. exists ws. set_solver.
    + f_equal. by rewrite Hm1, insert_delete_eq.
  - rewrite decide_False by (rewrite Hal; by intros []). split_and!; try done.
Qed.
Lemma include_refines m r : wf m →
  wf (includeResource m r) ∧ abstract (includeResource m r) = spec_run (abstract m) (Include r).
Proof.
  intros [Hk Hb]. destruct r as [r|]; [|by split; [split|]]. simpl.
  destruct (al_find r (workersByResource m)) as [ws|] eqn:Er.
  - split; [by split|]. unfold abstract. simpl. f_equal.
    assert (r ∈ (workersByResource m).*1) by by apply in_keys. set_solver.
  - split.
    + split; simpl; [by apply al_set_wf|]. intros w r'. rewrite Hb, al_find_set. case_decide; [|done]. subst. rewrite Er.
      split; intros (ws & ? & Hw); [done|]. simplify_eq. set_solver.
    + unfold abstract. simpl. f_equal. rewrite al_set_fst, decide_False by by rewrite in_keys, Er; intros [].
      rewrite list_to_set_app_L. set_solver.
Qed.

Lemma fold_delete_lookup {V} (l : list Z) (m : gmap Z V) k :
  fold_left (λ acc w, delete w acc) l m !! k = if decide (k ∈ l) then None else m !! k.
Proof.
  revert m. induction l as [|w l IH]; intros m; cbn [fold_left]; [done|]. rewrite IH, lookup_delete.
  repeat case_decide; set_solver.
Qed.

Lemma exclude_refines m r : wf m →
  wf (excludeResource m r).1 ∧ abstract (excludeResource m r).1 = spec_run (abstract m) (Exclude r).
Proof.
  intros [Hk Hb]. destruct r as [r|]; [|by split; [split|]]. unfold excludeResource.
  destruct (al_find r (workersByResource m)) as [ws|] eqn:Er.
  - assert (∀ w r', fold_left (λ acc w, delete w acc) (elements ws) (resourceByWorker m) !! w = Some r' ↔
              resourceByWorker m !! w = Some r' ∧ r' ≠ r) as Hd.
    { intros w r'. rewrite fold_delete_lookup. case_decide as Hw; rewrite elem_of_elements in Hw.
      - split; [done|]. intros [E Hne]. assert (resourceByWorker m !! w = Some r) by (apply Hb; eauto). congruence.
      - split; [|by intros [? _]]. intros E. split; [done|]. intros ->. apply Hb in E as (ws' & E' & ?). congruence. }
    split.
    + split; simpl; [by apply al_erase_wf|]. intros w r'. rewrite Hd, Hb, al_find_erase. case_decide; naive_solver.
    + unfold abstract. simpl. f_equal.
      * apply map_eq. intros w. apply option_eq. intros r'. by rewrite Hd, map_lookup_filter_Some.
      * apply set_eq. intros r'. rewrite elem_of_difference, !elem_of_list_to_set, !in_keys, al_find_erase, elem_of_singleton.
        case_decide; naive_solver.
  - split; [by split|]. unfold abstract. simpl. f_equal.
    + apply map_eq. intros w. apply option_eq. intros r'. rewrite map_lookup_filter_Some. simpl. split; [|by intros [? _]].
      intros E. split; [done|]. intros ->. apply Hb in E as (ws' & E' & ?). congruence.
    + apply al_find_None in Er. set_solver.
Qed.

Lemma run_refines m o : wf m → wf (run m o) ∧ abstract (run m o) = spec_run (abstract m) o.
Proof.
  intros Hwf. destruct o; simpl run.
  - by destruct (assign_refines m w r Hwf) as (? & ? & _).
  - by destruct (unassign_refines m w Hwf) as (? & ? & _).
  - by apply include_refines.
  - by apply exclude_refines.
Qed.

(** C25 The two-way map implements its specification: after any sequence of
    operations, null pointers and unknown resources included, the two
    directions agree, every worker gathers from at most one resource, which is
    allowed, and both are what the partial map of the specification says. *)
Theorem two_way_map_refines ops :
  let m := fold_left run ops make in
  wf m ∧ abstract m = fold_left spec_run ops (Spec ∅ ∅) ∧
  (∀ w r, getResource m (Some w) = Some r → containsResource m (Some r) = true) ∧
  (∀ r, countWorkers m (Some r) = Z.of_nat (size (filter (λ p, p.2 = r) (gathers (abstract m))))).
Proof.
  intros m. assert (wf m ∧ abstract m = fold_left spec_run ops (Spec ∅ ∅)) as [Hwf Ha].
  { subst m. change (Spec ∅ ∅) with (abstract make). generalize make_wf. generalize make.
    induction ops as [|o ops IH]; intros m Hwf; [done|]. cbn [fold_left].
    destruct (run_refines m o Hwf) as [Hwf' <-]. by apply IH. }
  split_and!; try done.
  - intros w r E. simpl in E. apply (wf_both _ Hwf) in E as (ws & E & _). simpl. rewrite E. by apply bool_decide_eq_true.
  - intros r. unfold countWorkers. simpl.
    assert (dom (filter (λ p, p.2 = r) (resourceByWorker m)) = default ∅ (al_find r (workersByResource m))) as Hd.
    { apply set_eq. intros w. rewrite elem_of_dom. split.
      - intros [r' [E Hr]%map_lookup_filter_Some]. simpl in Hr. subst r'. apply (wf_both _ Hwf) in E as (ws & -> & ?). done.
      - intros Hw. exists r. apply map_lookup_filter_Some. split; [|done]. apply (wf_both _ Hwf).
        destruct (al_find r (workersByResource m)); [eauto|set_solver]. }
    rewrite <-size_dom, Hd. by destruct (al_find r (workersByResource m)).
Qed.
End ResourceWorkers.
