(* ===== verification/Gatherer.v ===== *)
(** * Gathering ([src/modules/gatherer/gathererassignments.h], [gathererassignments.cpp])

    [GathererAssignments] gives every worker a resource: it keeps the two-way
    map of [ResourceWorkers] and a little state per worker, and in every frame
    it moves some workers to the resource with the best score.

    Parameters: the units of the game (as the module reads them), the bases
    and paths of [AreaInfo], the neutral units BWEM reports at chokepoints, the
    values on the blackboard, the random numbers, and [std::sort].  The flags
    have the defaults of the source.  Logging and drawing are left out. *)

From S2P Require Import Prelude Floats GameMechanics Algorithms Units ResourceWorkers.
From Stdlib Require Import SpecFloat.

Module Gatherer.

(** The members of a unit, and of its type, that the module reads. *)
Record unit := Unit {
  dead : bool; gone : bool; isMine : bool; completed : bool; remainingBuildTrainTime : Z;
  isResourceContainer : bool; isMinerals : bool; isGas : bool; isRefinery : bool;
  resources : Z; carryingResources : bool; topSpeed : float64;
  pixel_x : Z; pixel_y : Z;
  dimensionLeft : Z; dimensionUp : Z; dimensionRight : Z; dimensionDown : Z
}.

(** [src/src/utils/gamemechanics.h:110-120] pxDistanceBB *)
Definition pxDistanceBB (a b : unit) : Z :=
  GameMechanics.pxDistanceBB
    (pixel_x a - dimensionLeft a) (pixel_y a - dimensionUp a)
    (pixel_x a + dimensionRight a) (pixel_y a + dimensionDown a)
    (pixel_x b - dimensionLeft b) (pixel_y b - dimensionUp b)
    (pixel_x b + dimensionRight b) (pixel_y b + dimensionDown b).

(** A walktile has eight pixels.

    [src/src/utils/gamemechanics.h:122-124] distanceBB *)
Definition distanceBB (a b : unit) : float32 := SFdiv 24 128 (f32_of_Z (pxDistanceBB a b)) (f32_of_Z 8).

(** [src/src/modules/gatherer/gathererassignments.h:20-32] GathererAssignments::WorkerState *)
Record WorkerState := WS { framesSinceUpdate : Z; cooldownUntil : Z; lastResourceScore : float64 }.

Definition newWorker : WorkerState := WS kForever (- kForever) f64_0.

(** [src/src/modules/gatherer/gathererassignments.h:18-46] GathererAssignments *)
Record t := GA { resourceWorkers : ResourceWorkers.t; workers : list (Z * WorkerState) }.

(** [src/src/modules/gatherer/gathererassignments.cpp:91-93] GathererAssignments::addUnit *)
Definition addUnit (g : t) (u : Z) : t :=
  match al_find u (workers g) with
  | Some _ => g
  | None => GA (resourceWorkers g) (workers g ++ [(u, newWorker)])
  end.

(** [src/src/modules/gatherer/gathererassignments.cpp:95-98] GathererAssignments::removeUnit *)
Definition removeUnit (g : t) (u : Z) : t :=
  GA (ResourceWorkers.unassignWorker (resourceWorkers g) (Some u)) (al_erase u (workers g)).

(** [src/src/modules/gatherer/gathererassignments.cpp:101-116] isValidResource *)
Definition isValidResource (u : unit) : bool :=
  if dead u then false
  else if negb (isResourceContainer u) then false
  else if isMinerals u then negb (gone u)
  else isMine u && (completed u || (remainingBuildTrainTime u <? 24 * 2)).

(** *** The flags *)

(** [src/src/modules/gatherer/gathererassignments.cpp:19-22] FLAGS_gatherer_threat_cost *)
Definition gatherer_threat_cost : float64 := f64_of_Z 50.
(** [src/src/modules/gatherer/gathererassignments.cpp:24-27] FLAGS_gatherer_lookahead *)
Definition gatherer_lookahead : float64 := f64_of_Z (24 * 60).
(** [src/src/modules/gatherer/gathererassignments.cpp:29-32] FLAGS_gatherer_mining2 *)
Definition gatherer_mining2 : float64 := f64_lit 8 10.
(** [src/src/modules/gatherer/gathererassignments.cpp:34-37] FLAGS_gatherer_mining3 *)
Definition gatherer_mining3 : float64 := f64_lit 1 10.
(** [src/src/modules/gatherer/gathererassignments.cpp:39-42] FLAGS_gatherer_sticky_distance *)
Definition gatherer_sticky_distance : float64 := f64_of_Z 12.
(** [src/src/modules/gatherer/gathererassignments.cpp:44-47] FLAGS_gatherer_sticky_multiplier *)
Definition gatherer_sticky_multiplier : float64 := f64_of_Z 2.
(** [src/src/modules/gatherer/gathererassignments.cpp:49-53] FLAGS_gatherer_cooldown *)
Definition gatherer_cooldown : float64 := f64_of_Z 72.
(** [src/src/modules/gatherer/gathererassignments.cpp:55-58] FLAGS_gatherer_cooldown_noise *)
Definition gatherer_cooldown_noise : float64 := f64_of_Z 48.
(** [src/src/modules/gatherer/gathererassignments.cpp:60-63] FLAGS_gatherer_worker_updates *)
Definition gatherer_worker_updates : Z := 15.
(** [src/src/modules/gatherer/gathererassignments.cpp:65-68] FLAGS_gatherer_gas_ratio *)
Definition gatherer_gas_ratio : float64 := f64_lit 4 10.
(** [src/src/modules/gatherer/gathererassignments.cpp:70-73] FLAGS_gatherer_speed_bias *)
Definition gatherer_speed_bias : float64 := f64_of_Z 3.
(** [src/src/modules/gatherer/gathererassignments.cpp:75-78] FLAGS_gatherer_remove_blocks_at *)
Definition gatherer_remove_blocks_at : Z := 20.
(** [src/src/modules/gatherer/gathererassignments.cpp:80-83] FLAGS_gatherer_distance_mineral_threshold *)
Definition gatherer_distance_mineral_threshold : Z := 7.
(** [src/src/modules/gatherer/gathererassignments.cpp:89-89] kDistanceMining *)
Definition kDistanceMining : float64 := f64_of_Z (4 * 12).
(** [src/src/modules/gatherer/gathererassignments.cpp:119-119] lightYear *)
Definition lightYear : float64 := f64_of_Z (10 ^ 10).
(** [src/src/modules/gatherer/gathererassignments.cpp:336-336] kInvalid *)
Definition kInvalid : float64 := f64_of_Z (10 ^ 100).

(** *** Conversions *)

(** [float(d)] *)
Definition f32_of_f64 (d : float64) : float32 :=
  match d with
  | S754_finite s m e => binary_normalize 24 128 (if s then Z.neg m else Z.pos m) e false
  | _ => d
  end.

(** [int(d)]: towards zero; undefined when the result does not fit. *)
Definition int_of_f64 (d : float64) : res Z :=
  match d with
  | S754_zero _ => Ok 0
  | S754_finite s m e =>
      let a := if 0 <=? e then Z.pos m * 2 ^ e else Z.pos m / 2 ^ (- e) in
      let z := if s then - a else a in
      if (- 2 ^ 31 <=? z) && (z <? 2 ^ 31) then Ok z else Undefined
  | _ => Undefined
  end.

(** [std::round(d)]: to the nearest, halves away from zero. *)
Definition f64_round (d : float64) : float64 :=
  match d with
  | S754_finite s m e =>
      if 0 <=? e then d
      else let a := (2 * Z.pos m + 2 ^ (- e)) / 2 ^ (1 - e) in f64_of_Z (if s then - a else a)
  | _ => d
  end.

(** ** A step *)

(** [AreaInfo::BaseInfo]: its area and depot, and the minerals of the area. *)
Record base := Base { area : Z; resourceDepot : option Z; areaMinerals : Z }.

Record env := Env {
  units : gmap Z unit;
  liveUnits : list Z;
  myBases : list base;
  (** [areaInfo.tryGetArea(Position(resource))] *)
  areaOf : Z → option Z;
  (** [areaInfo.walkPathAreas] between two depots: the length of the path, and
      for each area on it whether the enemy's ground strength exceeds mine. *)
  walkPath : Z → Z → float32 * list bool;
  (** The neutral units at the chokepoints of each base's area. *)
  blockingNeutrals : list (list (option Z));
  minGasWorkers : option Z;
  maxGasWorkers : option Z;
  currentFrame : Z;
  (** [common::Rand::rand()], a 64-bit number. *)
  rand : nat → Z;
  sort : (Z → Z → bool) → list Z → list Z
}.

Section step.
Context (e : env).

Definition get (u : Z) : res unit := of_option (units e !! u).

Definition dist (a b : Z) : res float32 := let? ua := get a in let? ub := get b in Ok (distanceBB ua ub).

(** [src/src/modules/gatherer/gathererassignments.cpp:122-131] GathererAssignments::step *)
Definition remove_resources (rw : ResourceWorkers.t) : res ResourceWorkers.t :=
  let? gone := rfold (λ acc p, let? u := get p.1 in Ok (if isValidResource u then acc else acc ++ [p.1]))
                     (ResourceWorkers.workersByResource rw) [] in
  Ok (fold_left (λ rw r, (ResourceWorkers.excludeResource rw (Some r)).1) gone rw).

(** [src/src/modules/gatherer/gathererassignments.cpp:132-140] GathererAssignments::step *)
Definition add_resources (rw : ResourceWorkers.t) : res (list Z * ResourceWorkers.t) :=
  rfold (λ '(fresh, rw) u,
    let? v := get u in
    Ok (if isValidResource v then
          (if ResourceWorkers.containsResource rw (Some u) then fresh else fresh ++ [u],
           ResourceWorkers.includeResource rw (Some u))
        else (fresh, rw))) (liveUnits e) ([], rw).

(** [src/src/modules/gatherer/gathererassignments.cpp:142-146] GathererAssignments::step *)
Definition count_gas (rw : ResourceWorkers.t) : res Z :=
  rfold (λ n p, let? u := get p.1 in Ok (if isGas u then n + Z.of_nat (size p.2) else n))
        (ResourceWorkers.workersByResource rw) 0.

(** The key is a pair of indices of bases.

    [src/src/modules/gatherer/gathererassignments.cpp:148-173] GathererAssignments::step *)
Definition base_costs : list (nat * nat * float64) :=
  fold_left (λ costs ab,
    match ab with
    | (ia, a, (ib, b)) =>
        match resourceDepot a, resourceDepot b with
        | Some da, Some db =>
            match al_find (ia, ib) costs with
            | Some _ => costs
            | None =>
                let cost :=
                  if decide (ia = ib) then f32_0
                  else
                    let '(c, threats) := walkPath e da db in
                    if existsb id threats
                    then f32_of_f64 (f64_mul (f64_of_f32 c) gatherer_threat_cost) else c in
                al_set (ia, ib) (f64_of_f32 cost) (al_set (ib, ia) (f64_of_f32 cost) costs)
            end
        | _, _ => costs
        end
    end)
    (a ← imap (λ i a, (i, a)) (myBases e); b ← imap (λ i b, (i, b)) (myBases e); [(a.1, a.2, b)]) [].

(** Per resource: its distance to the closest depot of its area, and its base;
    per base: its resources.

    [src/src/modules/gatherer/gathererassignments.cpp:175-192] GathererAssignments::step *)
Record geography := Geo {
  depotDistances : list (Z * float64);
  resourceBases : list (Z * nat);
  baseResources : list (nat * list Z)
}.

(** [src/src/modules/gatherer/gathererassignments.cpp:182-191] GathererAssignments::step *)
Definition locate_resource (g : geography) (r : Z) : res geography :=
  rfold (λ g ib,
    let '(i, b) := ib in
    match resourceDepot b with
    | Some depot =>
        if bool_decide (Some (area b) = areaOf e r) then
          let? d := dist r depot in
          let d := f64_of_f32 d in
          if fltb d (default f64_0 (al_find r (depotDistances g)))
          then Ok (Geo (al_set r d (depotDistances g)) (al_set r i (resourceBases g))
                       (al_set i (default [] (al_find i (baseResources g)) ++ [r]) (baseResources g)))
          else Ok g
        else Ok g
    | None => Ok g
    end)
    (imap (λ i b, (i, b)) (myBases e))
    (Geo (al_set r lightYear (depotDistances g)) (resourceBases g) (baseResources g)).

(** [src/src/modules/gatherer/gathererassignments.cpp:178-192] GathererAssignments::step *)
Definition map_resources (rw : ResourceWorkers.t) : res geography :=
  rfold (λ g p, locate_resource g p.1) (ResourceWorkers.workersByResource rw) (Geo [] [] []).

(** [src/src/modules/gatherer/gathererassignments.cpp:194-199] GathererAssignments::step *)
Definition canDistanceMine : bool :=
  fold_left (λ n b, n + areaMinerals b) (myBases e) 0 <? gatherer_distance_mineral_threshold.

(** [src/src/modules/gatherer/gathererassignments.cpp:202-217] GathererAssignments::step *)
Definition mineral_blockers (numWorkers : Z) : gset Z :=
  if gatherer_remove_blocks_at <? numWorkers then
    fold_left (λ acc n,
      match n with
      | Some i => match units e !! i with
                  | Some u => if isMinerals u && negb (gone u) then acc ∪ {[i]} else acc
                  | None => acc
                  end
      | None => acc
      end) (concat (blockingNeutrals e)) ∅
  else ∅.

(** [src/src/modules/gatherer/gathererassignments.cpp:219-241] GathererAssignments::step *)
Definition gas_workers_max (rw : ResourceWorkers.t) (numWorkers : Z) : res Z :=
  let? n := int_of_f64 (f64_round (f64_mul gatherer_gas_ratio (f64_of_Z numWorkers))) in
  let n := match maxGasWorkers e with Some v => Z.min n v | None => n end in
  let n := match minGasWorkers e with Some v => Z.max n v | None => n end in
  let? absolute := rfold (λ acc p, let? u := get p.1 in Ok (acc + if isRefinery u then 3 else 0))
                         (ResourceWorkers.workersByResource rw) 0 in
  Ok (Z.min n absolute).

(** [src/src/modules/gatherer/gathererassignments.cpp:261-267] GathererAssignments::step *)
Definition newGasDistance (fresh : list Z) (w : Z) : res float32 :=
  rfold (λ m r, let? d := dist w r in Ok (fmin m d)) fresh (f32_of_Z (256 * 256 * 1000)).

(** [src/src/modules/gatherer/gathererassignments.cpp:269-282] GathererAssignments::step *)
Definition minGasDistance (rw : ResourceWorkers.t) (w : Z) : res float32 :=
  rfold (λ m p,
    let? gas := get p.1 in
    if isGas gas && (ResourceWorkers.countWorkers rw (Some p.1) <? 3)
    then let? d := dist w p.1 in Ok (fmin m d) else Ok m)
    (ResourceWorkers.workersByResource rw) (f32_of_Z (256 * 256 * 1000)).

(** The keys the comparison of two workers uses, computed before sorting.

    [src/src/modules/gatherer/gathererassignments.cpp:283-292] GathererAssignments::step *)
Definition sort_keys (rw : ResourceWorkers.t) (fresh : list Z) (ws : list (Z * WorkerState)) : res (gmap Z float32) :=
  rfold (λ m p,
    let? d := match fresh with [] => minGasDistance rw p.1 | _ => newGasDistance fresh p.1 end in
    Ok (<[p.1 := d]> m)) ws ∅.

(** The order of updates, and whether cooldowns are respected: the comparison
    switches that off, so it needs two workers.

    [src/src/modules/gatherer/gathererassignments.cpp:260-297] GathererAssignments::step *)
Definition update_order (rw : ResourceWorkers.t) (fresh : list Z) (ws : list (Z * WorkerState)) (gasNow gasMax : Z)
    : res (list Z * bool) :=
  if gasNow <? gasMax then
    let? keys := sort_keys rw fresh ws in
    Ok (sort e (λ a b, fltb (default f32_0 (keys !! a)) (default f32_0 (keys !! b))) ws.*1,
        (length ws <? 2)%nat)
  else
    Ok (sort e (λ a b, framesSinceUpdate (default newWorker (al_find b ws)) <?
                       framesSinceUpdate (default newWorker (al_find a ws))) ws.*1, true).

(** *** The score of a resource for a worker *)

(** [src/src/modules/gatherer/gathererassignments.cpp:344-371] scoreResource *)
Definition throughput (blockers : gset Z) (r : Z) (u : unit) (workersBefore : Z) : float64 :=
  if bool_decide (r ∈ blockers) then
    if workersBefore <? 1 then f64_of_Z 1000 else f64_lit 1 1000
  else if isGas u then
    let th := if workersBefore =? 3 then f64_lit 1 100
              else if workersBefore <? 3 then f64_1 else f64_lit 1 1000 in
    if resources u <? 8 then f64_mul th (f64_lit 1 4) else th
  else if workersBefore =? 0 then f64_1
  else if workersBefore =? 1 then gatherer_mining2
  else if workersBefore =? 2 then gatherer_mining3
  else f64_lit 1 1000.

(** What does not change while one worker is updated. *)
Record around := Around {
  blockers : gset Z; geo : geography; costs : list (nat * nat * float64);
  before : option Z; beforeDistance : float32; gasWorkerDesire : float64
}.

(** [src/src/modules/gatherer/gathererassignments.cpp:337-419] scoreResource *)
Definition scoreResource (a : around) (w : Z) (uw : unit) (pair : Z * gset Z) : res float64 :=
  let r := pair.1 in
  let? u := get r in
  let th := throughput (blockers a) r u (Z.of_nat (size pair.2)) in
  let depotToResource := default f64_0 (al_find r (depotDistances (geo a))) in
  let speed := f64_add gatherer_speed_bias (f64_div (f64_of_Z 12) (fmax (f64_of_Z 12) depotToResource)) in
  if fltb kDistanceMining depotToResource && negb canDistanceMine then Ok kInvalid
  else
    let stick := bool_decide (before a = Some r) && negb (carryingResources uw) && fltb f32_1 (beforeDistance a) in
    let baseFrom := before a ≫= λ b, al_find b (resourceBases (geo a)) in
    let baseTo := al_find r (resourceBases (geo a)) in
    let? workerToResource :=
      match baseFrom, baseTo with
      | Some f, Some t => if decide (f = t) then let? d := dist w r in Ok (f64_of_f32 d)
                          else Ok (default f64_0 (al_find (f, t) (costs a)))
      | _, _ => let? d := dist w r in Ok (f64_of_f32 d)
      end in
    let framesToResource :=
      f64_div (f64_add workerToResource (if stick then f64_0 else gatherer_sticky_distance))
              (fmax (f64_lit 1 100) (topSpeed uw)) in
    let framesGathering := fmax (f64_of_Z 24) (f64_sub gatherer_lookahead framesToResource) in
    let preference := if isGas u then gasWorkerDesire a else f64_1 in
    let stickiness := if stick then gatherer_sticky_multiplier else f64_1 in
    Ok (f64_mul (f64_mul (f64_mul (f64_mul (SFopp th) speed) framesGathering) preference) stickiness).

(** *** The update of a worker *)

Record loop := Loop { rw : ResourceWorkers.t; ws : list (Z * WorkerState); gasNow : Z; draws : nat }.

Definition worker (s : loop) (w : Z) : WorkerState := default newWorker (al_find w (ws s)).
Definition set_worker (s : loop) (w : Z) (v : WorkerState) : loop := Loop (rw s) (al_set w v (ws s)) (gasNow s) (draws s).

(** [common::Rand::rand() % 2 - 1] is unsigned.

    [src/src/modules/gatherer/gathererassignments.cpp:453-457] GathererAssignments::step *)
Definition cooldown (n : nat) : res Z :=
  int_of_f64 (f64_add (f64_add (f64_of_Z (currentFrame e)) gatherer_cooldown)
                      (f64_mul gatherer_cooldown_noise (f64_of_Z ((rand e n mod 2 - 1) mod 2 ^ 64)))).

(** [src/src/modules/gatherer/gathererassignments.cpp:424-458] GathererAssignments::step *)
Definition move_worker (s : loop) (w : Z) (resourceBefore : option Z) (gasBefore : bool) (after : Z) (score : float64)
    : res loop :=
  let? u := get after in
  let gas := if bool_decide (resourceBefore = Some after) then gasNow s
             else gasNow s - (if gasBefore then 1 else 0) + (if isGas u then 1 else 0) in
  let st := worker s w in
  let s := Loop (ResourceWorkers.assignWorker (rw s) (Some w) (Some after))
                (al_set w (WS (framesSinceUpdate st) (cooldownUntil st) score) (ws s)) gas (draws s) in
  if bool_decide (resourceBefore = Some after) then Ok s
  else
    let? c := cooldown (draws s) in
    let st := worker s w in
    Ok (Loop (rw s) (al_set w (WS (framesSinceUpdate st) c (lastResourceScore st)) (ws s)) (gasNow s) (S (draws s))).

(** The scores of all resources, and the best.

    [src/src/modules/gatherer/gathererassignments.cpp:421-423] GathererAssignments::step *)
Definition best_resource (a : around) (w : Z) (uw : unit) (rw : ResourceWorkers.t) : res (option (Z * float64)) :=
  let? scored := rfold (λ acc p, let? s := scoreResource a w uw p in Ok (acc ++ [(p.1, s)]))
                       (ResourceWorkers.workersByResource rw) [] in
  Ok (Algorithms.getBestScore fltb snd (λ s, feqb s kInvalid) (λ _, false) scored).

(** [src/src/modules/gatherer/gathererassignments.cpp:325-458] GathererAssignments::step *)
Definition reassign_worker (blk : gset Z) (g : geography) (cs : list (nat * nat * float64)) (gasMax : Z) (s : loop)
    (w : Z) (resourceBefore : option Z) (gasBefore : bool) (distBefore : float32) : res loop :=
  let st := worker s w in
  let s := set_worker s w (WS 0 (cooldownUntil st) (lastResourceScore st)) in
  let s := Loop (ResourceWorkers.unassignWorker (rw s) (Some w)) (ws s)
                (if gasBefore then gasNow s - 1 else gasNow s) (draws s) in
  let desire := if gasNow s <? gasMax then f64_1 else f64_lit 1 10 in
  let? uw := get w in
  let? best := best_resource (Around blk g cs resourceBefore distBefore desire) w uw (rw s) in
  match best with
  | None => Ok s
  | Some (after, score) => move_worker s w resourceBefore gasBefore after score
  end.

(** [src/src/modules/gatherer/gathererassignments.cpp:302-459] GathererAssignments::step *)
Definition update_worker (blk : gset Z) (g : geography) (cs : list (nat * nat * float64)) (gasMax : Z)
    (respectCooldown : bool) (acc : Z * loop) (w : Z) : res (Z * loop) :=
  let '(workerUpdates, s) := acc in
  let workerUpdates := workerUpdates + 1 in
  let st := worker s w in
  if gatherer_worker_updates <=? workerUpdates then
    Ok (workerUpdates, set_worker s w (WS (framesSinceUpdate st + 1) (cooldownUntil st) (lastResourceScore st)))
  else if respectCooldown && (currentFrame e <? cooldownUntil st) then Ok (workerUpdates, s)
  else
    let resourceBefore := ResourceWorkers.getResource (rw s) (Some w) in
    let? b := match resourceBefore with
              | None => Ok (false, false, f32_0)
              | Some r => let? u := get r in let? d := dist w r in
                  Ok (isMinerals u && fltb d (f32_of_Z 4) &&
                      (ResourceWorkers.countWorkers (rw s) (Some r) <? 4), isGas u, d)
              end in
    let '(about_to_mine, gasBefore, d) := b in
    if (about_to_mine : bool) then Ok (workerUpdates, s)
    else
      let? s := reassign_worker blk g cs gasMax s w resourceBefore gasBefore d in Ok (workerUpdates, s).

(** The saturation of every base with resources.

    [src/src/modules/gatherer/gathererassignments.cpp:461-479] GathererAssignments::step *)
Definition saturations (rw : ResourceWorkers.t) (g : geography) : res (list (nat * float32)) :=
  rfold (λ acc p,
    let? sums := rfold (λ '(minerals, gas, workers) r,
        let? u := get r in
        Ok (f64_add minerals (f64_of_Z (if isMinerals u then 1 else 0)),
            f64_add gas (f64_of_Z (if isGas u then 1 else 0)),
            f64_add workers (f64_of_Z (ResourceWorkers.countWorkers rw (Some r))))) p.2 (f64_0, f64_0, f64_0) in
    let '(minerals, gas, workers) := sums in
    let denominator := f64_add (f64_mul (f64_of_Z 3) gas) (f64_mul (f64_of_Z 2) minerals) in
    Ok (acc ++ [(p.1, f32_of_f64 (if fleb f64_0 denominator then f64_div workers denominator else f64_1))]))
    (baseResources g) [].

(** [src/src/modules/gatherer/gathererassignments.cpp:118-479] GathererAssignments::step *)
Definition step (g : t) : res (t * list (nat * float32)) :=
  let? m := remove_resources (resourceWorkers g) in
  let? r := add_resources m in
  let '(fresh, m) := r in
  let? gas := count_gas m in
  let? geo := map_resources m in
  let numWorkers := Z.of_nat (length (workers g)) in
  let? gasMax := gas_workers_max m numWorkers in
  let? o := update_order m fresh (workers g) gas gasMax in
  let '(order, respectCooldown) := o in
  let? s := rfold (update_worker (mineral_blockers numWorkers) geo base_costs gasMax respectCooldown)
                  order (0, Loop m (workers g) gas 0) in
  let? sat := saturations (rw s.2) geo in
  Ok (GA (rw s.2) (ws s.2), sat).

End step.
End Gatherer.
