(* ===== verification/GathererSteps.v ===== *)
(** * Gathering: theorems

    What a step of [GathererAssignments] does to the assignments of workers,
    and the greedy choice it makes for each of them. *)

From S2P Require Import Prelude Floats GameMechanics Algorithms Units ResourceWorkers Gatherer.

Module GathererSteps.
Import Gatherer.

(** ** The loops return *)

Section step.
Context (e : env).

(** The units are those of the game. *)
Record fine (g : t) : Prop := {
  fine_map : ResourceWorkers.wf (resourceWorkers g);
  fine_workers : al_wf (workers g);
  fine_known_workers w : w ∈ (workers g).*1 → is_Some (units e !! w);
  fine_known_resources r : r ∈ (ResourceWorkers.workersByResource (resourceWorkers g)).*1 → is_Some (units e !! r);
  fine_live u : u ∈ liveUnits e → is_Some (units e !! u);
  fine_depots b d : b ∈ myBases e → resourceDepot b = Some d → is_Some (units e !! d);
  fine_assigned w r : ResourceWorkers.resourceByWorker (resourceWorkers g) !! w = Some r → w ∈ (workers g).*1;
  fine_number : (length (workers g) ≤ 400)%nat;
  fine_sort lt l : sort e lt l ≡ₚ l
}.

Lemma get_ok u : is_Some (units e !! u) → ∃ v, get e u = Ok v ∧ units e !! u = Some v.
Proof. intros [v Hv]. exists v. unfold get. by rewrite Hv. Qed.

Lemma dist_ok a b : is_Some (units e !! a) → is_Some (units e !! b) → ∃ d, dist e a b = Ok d.
Proof. intros (u & Ea & _)%get_ok (v & Eb & _)%get_ok. unfold dist. rewrite Ea, Eb. simpl. eauto. Qed.

Definition valid (r : Z) : Prop := ∃ u, units e !! r = Some u ∧ isValidResource u = true.

#[local] Instance valid_dec r : Decision (valid r).
Proof.
  unfold valid. destruct (units e !! r) as [u|]; [|right; by intros (? & ? & _)].
  destruct (isValidResource u) eqn:E; [left; eauto|right; intros (? & [= <-] & ?); congruence].
Defined.

Definition keys (m : ResourceWorkers.t) : list Z := (ResourceWorkers.workersByResource m).*1.

Lemma keys_allowed m r : r ∈ keys m ↔ r ∈ ResourceWorkers.allowed (ResourceWorkers.abstract m).
Proof. unfold keys. simpl. by rewrite elem_of_list_to_set. Qed.

(** *** Resources *)

Lemma exclude_all l m : ResourceWorkers.wf m →
  let m' := fold_left (λ m r, (ResourceWorkers.excludeResource m (Some r)).1) l m in
  ResourceWorkers.wf m' ∧ (∀ r, r ∈ keys m' ↔ r ∈ keys m ∧ r ∉ l) ∧
  ∀ w r, ResourceWorkers.resourceByWorker m' !! w = Some r ↔ ResourceWorkers.resourceByWorker m !! w = Some r ∧ r ∉ l.
Proof.
  revert m. induction l as [|r0 l IH]; intros m Hwf; cbn [fold_left]; [set_solver|].
  destruct (ResourceWorkers.exclude_refines m (Some r0) Hwf) as [Hwf1 Ha].
  set (m1 := (ResourceWorkers.excludeResource m (Some r0)).1) in *.
  destruct (IH m1 Hwf1) as (Hwf' & Hk & Hr). split_and!; [done|..].
  - intros r. rewrite Hk, !keys_allowed, Ha. simpl. set_solver.
  - intros w r. rewrite Hr. change (ResourceWorkers.resourceByWorker m1) with (ResourceWorkers.gathers (ResourceWorkers.abstract m1)).
    rewrite Ha. simpl. rewrite map_lookup_filter_Some. simpl. set_solver.
Qed.

Lemma remove_resources_spec m : ResourceWorkers.wf m → (∀ r, r ∈ keys m → is_Some (units e !! r)) →
  ∃ m', remove_resources e m = Ok m' ∧ ResourceWorkers.wf m' ∧
    (∀ r, r ∈ keys m' ↔ r ∈ keys m ∧ valid r) ∧
    ∀ w r, ResourceWorkers.resourceByWorker m' !! w = Some r ↔ ResourceWorkers.resourceByWorker m !! w = Some r ∧ valid r.
Proof.
  intros Hwf Hk. unfold remove_resources.
  assert (∀ (l : list (Z * gset Z)) acc, (∀ p, p ∈ l → is_Some (units e !! p.1)) →
    rfold (λ acc p, let? u := get e p.1 in Ok (if isValidResource u then acc else acc ++ [p.1])) l acc =
    Ok (acc ++ filter (λ r, ¬ valid r) l.*1)) as Hl.
  { clear Hwf Hk. induction l as [|p l IH]; intros acc Hp; csimpl; [by rewrite app_nil_r|].
    destruct (get_ok p.1) as (v & -> & Hv); [apply Hp; by left|]. cbn [rbind].
    rewrite IH by (intros; apply Hp; by right). rewrite filter_cons.
    destruct (isValidResource v) eqn:Ev.
    - rewrite decide_False; [done|]. intros []. by exists v.
    - rewrite decide_True; [by rewrite <-app_assoc|]. intros (u & Hu & ?). congruence. }
  rewrite Hl by (intros p Hp; apply Hk, list_elem_of_fmap; eauto). cbn [rbind]. rewrite app_nil_l.
  destruct (exclude_all (filter (λ r, ¬ valid r) (keys m)) m Hwf) as (Hwf' & Hk' & Hr').
  eexists. split; [done|]. split_and!; [done|..].
  - intros r. rewrite Hk', list_elem_of_filter. destruct (decide (valid r)); tauto.
  - intros w r. rewrite Hr', list_elem_of_filter. split; intros [E Hv]; (split; [done|]); [|tauto].
    destruct (decide (valid r)); [done|]. destruct Hv. split; [done|].
    apply (ResourceWorkers.wf_both _ Hwf) in E as (ws & E & _). apply ResourceWorkers.in_keys. eauto.
Qed.

Lemma add_resources_spec m : ResourceWorkers.wf m → (∀ u, u ∈ liveUnits e → is_Some (units e !! u)) →
  ∃ fresh m', add_resources e m = Ok (fresh, m') ∧ ResourceWorkers.wf m' ∧
    (∀ r, r ∈ keys m' ↔ r ∈ keys m ∨ r ∈ liveUnits e ∧ valid r) ∧ (∀ r, r ∈ fresh → r ∈ liveUnits e) ∧
    ResourceWorkers.resourceByWorker m' = ResourceWorkers.resourceByWorker m.
Proof.
  unfold add_resources. generalize (liveUnits e) as l.
  assert (∀ l fresh0 m, ResourceWorkers.wf m → (∀ u, u ∈ l → is_Some (units e !! u)) →
    ∃ fresh m', rfold (λ '(fresh, rw) u,
      let? v := get e u in
      Ok (if isValidResource v then
            (if ResourceWorkers.containsResource rw (Some u) then fresh else fresh ++ [u],
             ResourceWorkers.includeResource rw (Some u))
          else (fresh, rw))) l (fresh0, m) = Ok (fresh, m') ∧ ResourceWorkers.wf m' ∧
    (∀ r, r ∈ keys m' ↔ r ∈ keys m ∨ r ∈ l ∧ valid r) ∧ (∀ r, r ∈ fresh → r ∈ fresh0 ∨ r ∈ l) ∧
    ResourceWorkers.resourceByWorker m' = ResourceWorkers.resourceByWorker m) as H.
  { induction l as [|u l IH]; intros fresh0 m0 Hwf Hl; cbn [rfold].
    { exists fresh0, m0. split_and!; set_solver. }
    destruct (get_ok u) as (v & -> & Hv); [apply Hl; by left|]. cbn [rbind].
    destruct (isValidResource v) eqn:Ev.
    - destruct (ResourceWorkers.include_refines m0 (Some u) Hwf) as [Hwf1 Ha].
      assert (valid u) by by exists v.
      edestruct IH as (fresh & m' & -> & Hwf' & Hk & Hf & Hr); [exact Hwf1|intros; apply Hl; by right|].
      do 2 eexists. split; [done|]. split_and!; [done|..].
      + intros r. rewrite Hk, !keys_allowed, Ha. simpl. set_solver.
      + intros r [Hin|?]%Hf; [|right; by right]. destruct (ResourceWorkers.containsResource _ _); set_solver.
      + rewrite Hr. change (ResourceWorkers.resourceByWorker (ResourceWorkers.includeResource m0 (Some u)))
          with (ResourceWorkers.gathers (ResourceWorkers.abstract (ResourceWorkers.includeResource m0 (Some u)))).
        by rewrite Ha.
    - assert (¬ valid u) by (intros (? & ? & ?); congruence).
      edestruct IH as (fresh & m' & -> & Hwf' & Hk & Hf & Hr); [exact Hwf|intros; apply Hl; by right|].
      do 2 eexists. split; [done|]. split_and!; [done|..]; [|set_solver|done].
      intros r. rewrite Hk. set_solver. }
  intros l Hwf Hl. destruct (H l [] m Hwf Hl) as (fresh & m' & E & ? & ? & Hf & ?).
  exists fresh, m'. split_and!; try done. intros r [?%not_elem_of_nil|?]%Hf; done.
Qed.

(** *** Counting and measuring *)

Definition known (l : list Z) : Prop := ∀ r, r ∈ l → is_Some (units e !! r).

Lemma known_entry m p : known (keys m) → p ∈ ResourceWorkers.workersByResource m → is_Some (units e !! p.1).
Proof. intros Hk Hp. apply Hk, list_elem_of_fmap. eauto. Qed.

Lemma count_gas_ok m : known (keys m) → ∃ n, count_gas e m = Ok n.
Proof.
  intros Hk. apply rfold_defined. intros n p Hp.
  destruct (get_ok p.1) as (v & -> & _); [by eapply known_entry|]. simpl. eauto.
Qed.

Lemma ratio_table : forallb (λ n, match int_of_f64 (f64_round (f64_mul gatherer_gas_ratio (f64_of_Z (Z.of_nat n)))) with
  | Ok k => (0 <=? k) && (k <=? Z.of_nat n) | _ => false end) (seq 0 401) = true.
Proof. vm_compute. reflexivity. Qed.

Lemma gas_workers_max_ok m n : known (keys m) → (n ≤ 400)%nat → ∃ k, gas_workers_max e m (Z.of_nat n) = Ok k.
Proof.
  intros Hk Hn. unfold gas_workers_max. pose proof ratio_table as H. rewrite forallb_forall in H.
  specialize (H n). destruct (int_of_f64 _); [|exfalso; assert (In n (seq 0 401)) as Hin by (apply in_seq; lia);
    by discriminate (H Hin)..]. cbn [rbind].
  match goal with |- context [rfold ?f ?l ?a] => destruct (rfold_defined f l a) as [k ->] end; [|simpl; eauto].
  intros acc p Hp. destruct (get_ok p.1) as (v & -> & _); [by eapply known_entry|]. simpl. eauto.
Qed.

Definition mapped (g : geography) (l : list Z) : Prop := ∀ i rs r, (i, rs) ∈ baseResources g → r ∈ rs → r ∈ l.

Lemma al_set_in {K V} `{EqDecision K} (k : K) (v : V) l x : x ∈ al_set k v l → x = (k, v) ∨ x ∈ l.
Proof.
  induction l as [|[k' v'] l IH]; csimpl; [set_solver|]. case_decide; subst; set_solver.
Qed.

Lemma map_resources_ok m : known (keys m) →
  (∀ b d, b ∈ myBases e → resourceDepot b = Some d → is_Some (units e !! d)) →
  ∃ g, map_resources e m = Ok g ∧ mapped g (keys m).
Proof.
  intros Hk Hd. unfold map_resources. apply (rfold_total (λ g, mapped g (keys m))).
  2:{ intros i rs r ?%not_elem_of_nil. done. }
  intros g p Hp Hm. unfold locate_resource. apply (rfold_total (λ g, mapped g (keys m))); [|exact Hm].
  intros g1 [i b] Hb Hm1. destruct (resourceDepot b) as [d|] eqn:Ed; [|eauto]. case_bool_decide; [|eauto].
  destruct (dist_ok p.1 d) as (x & ->).
  { by eapply known_entry. }
  { eapply Hd; [|exact Ed]. apply elem_of_lookup_imap in Hb as (j & b' & [= -> ->] & Hj). by eapply list_elem_of_lookup_2. }
  cbn [rbind]. case_match; [|eauto]. eexists. split; [done|]. intros j rs r. simpl.
  intros [[= -> ->]|Hin]%al_set_in Hr; [|by eapply Hm1].
  apply elem_of_app in Hr as [Hr| ->%list_elem_of_singleton]; [|apply list_elem_of_fmap; eauto].
  destruct (al_find i (baseResources g1)) as [rs'|] eqn:E; simpl in Hr; [|by apply not_elem_of_nil in Hr].
  by eapply Hm1; [apply al_find_Some_in|].
Qed.

Lemma saturations_ok m g l : mapped g l → known l → ∃ sat, saturations e m g = Ok sat.
Proof.
  intros Hm Hk. apply rfold_defined. intros acc p Hp.
  match goal with |- context [rfold ?f ?l ?a] => destruct (rfold_defined f l a) as [[[x y] z] ->] end; [|simpl; eauto].
  intros [[x y] z] r Hr. destruct (get_ok r) as (v & -> & _); [|simpl; eauto]. apply Hk. destruct p. by eapply Hm.
Qed.

Lemma sort_keys_ok m fresh ws : known (keys m) → known fresh → known ws.*1 → ∃ k, sort_keys e m fresh ws = Ok k.
Proof.
  intros Hk Hf Hw. apply rfold_defined. intros acc p Hp.
  assert (is_Some (units e !! p.1)) as Hp1 by (apply Hw, list_elem_of_fmap; eauto).
  assert (∃ d, newGasDistance e fresh p.1 = Ok d) as [d1 E1].
  { apply rfold_defined. intros m1 r Hr. destruct (dist_ok p.1 r) as [d ->]; [done|by apply Hf|]. simpl. eauto. }
  assert (∃ d, minGasDistance e m p.1 = Ok d) as [d2 E2].
  { apply rfold_defined. intros m1 q Hq. pose proof (known_entry m q Hk Hq) as Hq1.
    destruct (get_ok q.1 Hq1) as (v & -> & _). cbn [rbind]. case_match; [|eauto].
    destruct (dist_ok p.1 q.1 Hp1 Hq1) as [d ->]. simpl. eauto. }
  rewrite E1, E2. destruct fresh; simpl; eauto.
Qed.

Lemma update_order_ok m fresh ws a b : known (keys m) → known fresh → known ws.*1 → (∀ lt l, sort e lt l ≡ₚ l) →
  ∃ order rc, update_order e m fresh ws a b = Ok (order, rc) ∧ order ≡ₚ ws.*1.
Proof.
  intros Hk Hf Hw Hs. unfold update_order. destruct (a <? b).
  - destruct (sort_keys_ok m fresh ws Hk Hf Hw) as [k ->]. simpl. eauto.
  - eauto.
Qed.

(** *** Scores *)

Lemma scoreResource_ok a w uw p : is_Some (units e !! w) → is_Some (units e !! p.1) →
  ∃ s, scoreResource e a w uw p = Ok s.
Proof.
  intros Hw Hp. unfold scoreResource. destruct (get_ok p.1 Hp) as (u & -> & _). cbn [rbind].
  case_match; [eauto|]. destruct (dist_ok w p.1 Hw Hp) as [d ->]. cbn [rbind].
  repeat case_match; cbn [rbind]; eauto.
Qed.

Lemma score_all_ok a w uw m : is_Some (units e !! w) → known (keys m) →
  ∃ scored, rfold (λ acc p, let? s := scoreResource e a w uw p in Ok (acc ++ [(p.1, s)]))
                  (ResourceWorkers.workersByResource m) [] = Ok scored ∧
    (∀ r s, (r, s) ∈ scored ↔ ∃ ws, (r, ws) ∈ ResourceWorkers.workersByResource m ∧ scoreResource e a w uw (r, ws) = Ok s).
Proof.
  intros Hw Hk.
  assert (∀ (l : list (Z * gset Z)) acc, (∀ p, p ∈ l → is_Some (units e !! p.1)) →
    ∃ scored, rfold (λ acc p, let? s := scoreResource e a w uw p in Ok (acc ++ [(p.1, s)])) l acc = Ok scored ∧
      ∀ r s, (r, s) ∈ scored ↔ (r, s) ∈ acc ∨ ∃ ws, (r, ws) ∈ l ∧ scoreResource e a w uw (r, ws) = Ok s) as Hl.
  { induction l as [|p l IH]; intros acc Hl; cbn [rfold]; [exists acc; set_solver|].
    destruct (scoreResource_ok a w uw p Hw (Hl p (list_elem_of_here _ _))) as [s Es]. rewrite Es. cbn [rbind].
    destruct (IH (acc ++ [(p.1, s)])) as (scored & -> & Hs); [intros; apply Hl; by right|]. exists scored.
    split; [done|]. intros r s'. rewrite Hs, elem_of_app, list_elem_of_singleton. destruct p as [r0 ws0]. simpl. split.
    - intros [[?|[= -> ->]]|(ws & ? & ?)]; [by left|right; exists ws0; split; [by left|done]|right; exists ws; split; [by right|done]].
    - intros [?|(ws & [[= -> ->]|?]%elem_of_cons & ?)]; [auto| |right; eauto]. left; right. congruence. }
  destruct (Hl (ResourceWorkers.workersByResource m) []) as (scored & -> & Hs).
  { intros p Hp. by eapply known_entry. }
  exists scored. split; [done|]. intros r s. rewrite Hs. split; [intros [?%not_elem_of_nil|?]|]; eauto; done.
Qed.

(** The resource chosen for a worker: none other has a lower score. *)
Definition best_for (a : around) (w : Z) (uw : unit) (m : ResourceWorkers.t) (best : option (Z * float64)) : Prop :=
  match best with
  | Some (r, s) =>
      (∃ ws, (r, ws) ∈ ResourceWorkers.workersByResource m ∧ scoreResource e a w uw (r, ws) = Ok s) ∧
      feqb s kInvalid = false ∧
      ∀ r' ws' s', (r', ws') ∈ ResourceWorkers.workersByResource m → scoreResource e a w uw (r', ws') = Ok s' →
        feqb s' kInvalid = false → fltb s' s = false
  | None =>
      ∀ r' ws' s', (r', ws') ∈ ResourceWorkers.workersByResource m → scoreResource e a w uw (r', ws') = Ok s' →
        feqb s' kInvalid = true
  end.

Lemma best_resource_ok a w uw m : is_Some (units e !! w) → known (keys m) →
  ∃ best, best_resource e a w uw m = Ok best ∧ best_for a w uw m best.
Proof.
  intros Hw Hk. unfold best_resource. destruct (score_all_ok a w uw m Hw Hk) as (scored & -> & Hs). cbn [rbind].
  eexists. split; [done|].
  pose proof (Algorithms.getBestScore_spec fltb snd (λ s, feqb s kInvalid) (λ _, false)
                fltb_trans fltb_irrefl (λ s s' (H : false = true), False_ind _ (Bool.diff_false_true H)) scored) as Hb.
  destruct (Algorithms.getBestScore _ _ _ _ scored) as [[r s]|]; simpl in *.
  - destruct Hb as (Hin & Hv & Hu). split_and!; [by apply Hs|done|]. intros r' ws' s' Hin' Hsc Hv'.
    apply (Hu (r', s')); [apply Hs; eauto|done].
  - intros r' ws' s' Hin' Hsc. apply (Hb (r', s')). apply Hs. eauto.
Qed.

(** *** Moving one worker *)

Abbreviation resourceOf m w := (ResourceWorkers.resourceByWorker m !! w).

Lemma assign_lookup m w r w' : ResourceWorkers.wf m → r ∈ keys m →
  resourceOf (ResourceWorkers.assignWorker m (Some w) (Some r)) w' = if decide (w' = w) then Some r else resourceOf m w'.
Proof.
  intros Hwf Hr. destruct (ResourceWorkers.assign_refines m (Some w) (Some r) Hwf) as (_ & Ha & _).
  change (ResourceWorkers.resourceByWorker (ResourceWorkers.assignWorker m (Some w) (Some r)))
    with (ResourceWorkers.gathers (ResourceWorkers.abstract (ResourceWorkers.assignWorker m (Some w) (Some r)))).
  rewrite Ha. cbn [ResourceWorkers.spec_run]. rewrite decide_True by by apply keys_allowed. simpl.
  rewrite lookup_insert. repeat case_decide; congruence.
Qed.

Lemma unassign_lookup m w w' : resourceOf (ResourceWorkers.unassignWorker m (Some w)) w' =
  if decide (w' = w) then None else resourceOf m w'.
Proof. simpl. rewrite lookup_delete. repeat case_decide; congruence. Qed.

(** [m] returns something with [P], or is undefined because the new cooldown
    of a move is, the [n]-th for an [n] with [N]. *)
Definition returns_or_overflows {A} (N : nat → Prop) (P : A → Prop) (m : res A) : Prop :=
  match m with
  | Ok a => P a
  | Undefined => ∃ n, N n ∧ cooldown e n = Undefined
  | _ => False
  end.

Lemma cooldown_cases n : (∃ c, cooldown e n = Ok c) ∨ cooldown e n = Undefined.
Proof. unfold cooldown, int_of_f64. repeat case_match; eauto. Qed.

Lemma returns_bind {A B} N (P : A → Prop) (Q : B → Prop) (m : res A) (k : A → res B) :
  returns_or_overflows N P m → (∀ a, P a → returns_or_overflows N Q (k a)) → returns_or_overflows N Q (rbind m k).
Proof. intros Hm Hk. destruct m as [a| | |]; [by apply Hk|done..]. Qed.

Lemma returns_mono {A} (N N' : nat → Prop) (P Q : A → Prop) m :
  returns_or_overflows N P m → (∀ n, N n → N' n) → (∀ a, P a → Q a) → returns_or_overflows N' Q m.
Proof. intros Hm HN HP. destruct m; simpl in *; try done; [auto|]. destruct Hm as (n & ? & ?). eauto. Qed.

(** The state of the loop around one worker. *)
Record moved (w : Z) (s s' : loop) : Prop := {
  moved_wf : ResourceWorkers.wf (rw s');
  moved_keys : keys (rw s') = keys (rw s);
  moved_workers : (ws s').*1 = (ws s).*1;
  moved_others w' : w' ≠ w → resourceOf (rw s') w' = resourceOf (rw s) w';
  moved_draws : (draws s' ≤ S (draws s))%nat
}.

Lemma al_set_same {V} k (v : V) (l : list (Z * V)) : k ∈ l.*1 → (al_set k v l).*1 = l.*1.
Proof. intros. by rewrite al_set_fst, decide_True. Qed.

Lemma move_worker_ok s w (before : option Z) (gasBefore : bool) (after : Z) score : ResourceWorkers.wf (rw s) → w ∈ (ws s).*1 →
  known (keys (rw s)) → after ∈ keys (rw s) →
  returns_or_overflows (eq (draws s)) (λ s', moved w s s' ∧ resourceOf (rw s') w = Some after ∧
    gasNow s' = if bool_decide (before = Some after) then gasNow s
                else gasNow s - (if gasBefore then 1 else 0) + (if from_option isGas false (units e !! after) then 1 else 0))
    (move_worker e s w before gasBefore after score).
Proof.
  intros Hwf Hw Hk Ha. unfold move_worker. destruct (get_ok after (Hk _ Ha)) as (u & -> & Hu). cbn [rbind]. rewrite Hu.
  destruct (ResourceWorkers.assign_refines (rw s) (Some w) (Some after) Hwf) as (Hwf' & _ & Hkeys).
  assert (∀ v, (al_set w v (ws s)).*1 = (ws s).*1) as Hws by (intros; by apply al_set_same).
  assert (∀ w', w' ≠ w → resourceOf (ResourceWorkers.assignWorker (rw s) (Some w) (Some after)) w' = resourceOf (rw s) w')
    as Hoth by (intros; by rewrite assign_lookup, decide_False).
  assert (resourceOf (ResourceWorkers.assignWorker (rw s) (Some w) (Some after)) w = Some after) as Hres
    by by rewrite assign_lookup, decide_True.
  case_bool_decide.
  - split_and!; try done. split; try done; simpl; [by rewrite Hws|lia].
  - cbn [draws]. destruct (cooldown_cases (draws s)) as [[c ->]| Ec]; [|rewrite Ec; simpl; eauto]. cbn [rbind].
    split_and!; try done. split; try done; simpl. rewrite al_set_same; rewrite Hws; done.
Qed.

Lemma reassign_worker_ok blk g cs gasMax s w (before : option Z) (gasBefore : bool) d : ResourceWorkers.wf (rw s) → w ∈ (ws s).*1 →
  is_Some (units e !! w) → known (keys (rw s)) →
  returns_or_overflows (eq (draws s)) (λ s', ∃ uw best, moved w s s' ∧
    units e !! w = Some uw ∧ resourceOf (rw s') w = fst <$> best ∧
    let gas := if gasBefore then gasNow s - 1 else gasNow s in
    best_for (Around blk g cs before d (if gas <? gasMax then f64_1 else f64_lit 1 10)) w uw
             (ResourceWorkers.unassignWorker (rw s) (Some w)) best ∧
    gasNow s' = match best with
                | None => gas
                | Some (after, _) =>
                    if bool_decide (before = Some after) then gas
                    else gas - (if gasBefore then 1 else 0) + (if from_option isGas false (units e !! after) then 1 else 0)
                end) (reassign_worker e blk g cs gasMax s w before gasBefore d).
Proof.
  intros Hwf Hw Hwu Hk. unfold reassign_worker. cbv zeta.
  destruct (ResourceWorkers.unassign_refines (rw s) (Some w) Hwf) as (Hwf1 & _ & Hkeys).
  set (s1 := Loop _ _ _ _).
  assert (keys (rw s1) = keys (rw s)) as Hk1 by exact Hkeys.
  assert ((ws s1).*1 = (ws s).*1) as Hw1 by (subst s1; simpl; by apply al_set_same).
  assert (∀ w', w' ≠ w → resourceOf (rw s1) w' = resourceOf (rw s) w') as Ho1.
  { intros w' Hne. change (rw s1) with (ResourceWorkers.unassignWorker (rw s) (Some w)). by rewrite unassign_lookup, decide_False. }
  destruct (get_ok w Hwu) as (uw & -> & Huw). cbn [rbind].
  destruct (best_resource_ok (Around blk g cs before d (if gasNow s1 <? gasMax then f64_1 else f64_lit 1 10)) w uw (rw s1))
    as (best & Eb & Hb); [done|by rewrite Hk1|].
  rewrite Eb. cbn [rbind]. destruct best as [[after score]|].
  - assert (after ∈ keys (rw s1)) as Haft by (destruct Hb as ((x & Hin & _) & _); apply list_elem_of_fmap; by exists (after, x)).
    eapply returns_mono; [apply (move_worker_ok s1 w before gasBefore after score)|done|];
      [done|by rewrite Hw1|by rewrite Hk1|done|].
    intros s' ([M1 M2 M3 M4 M5] & Hres & Hg). exists uw, (Some (after, score)). split_and!; try done.
    split; [done|congruence|congruence| |done]. intros w' Hne. by rewrite M4, Ho1.
  - exists uw, None. split_and!; try done; [split; try done; simpl; lia|].
    change (rw s1) with (ResourceWorkers.unassignWorker (rw s) (Some w)). by rewrite unassign_lookup, decide_True.
Qed.

(** *** The loop over the workers *)

Lemma moved_refl w s : ResourceWorkers.wf (rw s) → moved w s s.
Proof. split; try done. lia. Qed.

Lemma update_worker_ok blk g cs gasMax rc n s w : ResourceWorkers.wf (rw s) → w ∈ (ws s).*1 →
  is_Some (units e !! w) → known (keys (rw s)) →
  returns_or_overflows (λ k, k = draws s ∧ n + 1 < gatherer_worker_updates)
    (λ r, r.1 = n + 1 ∧ moved w s r.2 ∧ (gatherer_worker_updates ≤ n + 1 → rw r.2 = rw s))
    (update_worker e blk g cs gasMax rc (n, s) w).
Proof.
  intros Hwf Hw Hwu Hk. unfold update_worker. cbv zeta. destruct (Z.leb_spec gatherer_worker_updates (n + 1)).
  { split; [done|]. split; [|done]. split; try done; simpl; [by apply al_set_same|lia]. }
  assert (∀ s', gatherer_worker_updates ≤ n + 1 → rw s' = rw s) as Hno by lia.
  destruct (rc && _); [split_and!; try done; by apply moved_refl|]. cbn [ResourceWorkers.getResource mbind option_bind].
  assert (∃ b1 b2 d, match resourceOf (rw s) w with
            | None => Ok (false, false, SpecFloat.S754_zero false)
            | Some r => let? u := get e r in let? d := dist e w r in
                Ok (isMinerals u && fltb d (f32_of_Z 4) && (ResourceWorkers.countWorkers (rw s) (Some r) <? 4), isGas u, d)
            end = Ok (b1, b2, d)) as (b1 & b2 & d & ->).
  { destruct (resourceOf (rw s) w) as [r|] eqn:Er; [|eauto].
    apply (ResourceWorkers.wf_both _ Hwf) in Er as (x & Er & _).
    assert (is_Some (units e !! r)) as Hr by (apply Hk, ResourceWorkers.in_keys; eauto).
    destruct (get_ok r Hr) as (u & -> & _), (dist_ok w r Hwu Hr) as [d ->]. simpl. eauto. }
  cbn [rbind]. destruct b1; [split_and!; try done; by apply moved_refl|].
  eapply returns_bind; [eapply returns_mono; [by apply reassign_worker_ok|by intros ? <-|intros s' Hs'; exact Hs']|].
  intros s' (uw & best & Hm & _). split_and!; [done|done|auto].
Qed.

Lemma update_all_ok blk g cs gasMax rc order : ∀ s n,
  ResourceWorkers.wf (rw s) → (∀ w, w ∈ order → w ∈ (ws s).*1 ∧ is_Some (units e !! w)) → known (keys (rw s)) →
  Z.of_nat (draws s) ≤ n →
  returns_or_overflows (λ k, Z.of_nat k < gatherer_worker_updates - 1) (λ r,
    let s' := r.2 in
    ResourceWorkers.wf (rw s') ∧ keys (rw s') = keys (rw s) ∧ (ws s').*1 = (ws s).*1 ∧
    ∃ changed, Z.of_nat (length changed) ≤ Z.max 0 (gatherer_worker_updates - 1 - n) ∧ changed ⊆ order ∧
      ∀ w, w ∉ changed → resourceOf (rw s') w = resourceOf (rw s) w)
    (rfold (update_worker e blk g cs gasMax rc) order (n, s)).
Proof.
  induction order as [|w order IH]; intros s n Hwf Ho Hk Hn; cbn [rfold].
  { split_and!; try done. exists []. split_and!; try done. simpl. lia. }
  destruct (Ho w) as [Hw Hwu]; [by left|].
  eapply returns_bind; [eapply returns_mono; [by apply update_worker_ok|intros k [-> ?]; lia|intros r Hr; exact Hr]|].
  intros [k s1] (Ek & [M1 M2 M3 M4 M5] & Hno). cbn [fst snd] in *. subst k.
  eapply returns_mono; [apply (IH s1 (n + 1))|done|]; [done| |by rewrite M2|lia|].
  { rewrite M3. intros w' Hin. apply Ho. by right. }
  intros [k s'] (Hwf' & Hk' & Hw' & ch & Hlen & Hsub & Hoth). cbn [fst snd] in *. split_and!; [done|congruence|congruence|].
  destruct (decide (gatherer_worker_updates ≤ n + 1)) as [Hlim|Hlim].
  - exists ch. split_and!; [lia|set_solver|]. intros w' Hw1. by rewrite Hoth, (Hno Hlim).
  - exists (w :: ch). split_and!; [simpl length; lia|set_solver|].
    intros w' [Hne Hw1]%not_elem_of_cons. by rewrite Hoth, M4.
Qed.

(** What a step that returns [g'] has done: the two-way map is consistent over
    the same workers; gathering is allowed from exactly the valid resources among
    the old ones and the live units; every worker gathers from such a resource;
    and fewer than [gatherer_worker_updates] workers are moved, every other one
    keeps its resource, or loses it when it became invalid. *)
Definition stepped (g g' : t) : Prop :=
  ResourceWorkers.wf (resourceWorkers g') ∧ (workers g').*1 = (workers g).*1 ∧
  (∀ r, r ∈ keys (resourceWorkers g') ↔ (r ∈ keys (resourceWorkers g) ∨ r ∈ liveUnits e) ∧ valid r) ∧
  (∀ w r, resourceOf (resourceWorkers g') w = Some r → w ∈ (workers g).*1 ∧ valid r) ∧
  ∃ changed, Z.of_nat (length changed) < gatherer_worker_updates ∧
    ∀ w r, w ∉ changed → resourceOf (resourceWorkers g') w = Some r ↔ resourceOf (resourceWorkers g) w = Some r ∧ valid r.

Lemma step_ok g : fine g →
  returns_or_overflows (λ k, Z.of_nat k < gatherer_worker_updates - 1) (λ r, stepped g r.1) (step e g).
Proof.
  intros [F1 F2 F3 F4 F5 F6 F7 F8 F9]. unfold step.
  destruct (remove_resources_spec (resourceWorkers g) F1 F4) as (m1 & -> & Hwf1 & Hk1 & Hr1). cbn [rbind].
  destruct (add_resources_spec m1 Hwf1 F5) as (fresh & m2 & -> & Hwf2 & Hk2 & Hf & Hr2). cbn [rbind].
  assert (∀ r, r ∈ keys m2 ↔ (r ∈ keys (resourceWorkers g) ∨ r ∈ liveUnits e) ∧ valid r) as Hkeys
    by (intros r; rewrite Hk2, Hk1; tauto).
  assert (known (keys m2)) as Hk by (intros r [_ (u & Hu & _)]%Hkeys; eauto).
  destruct (count_gas_ok m2 Hk) as [gas ->], (map_resources_ok m2 Hk F6) as (geo & -> & Hgeo). cbn [rbind].
  destruct (gas_workers_max_ok m2 (length (workers g)) Hk F8) as [gasMax ->]. cbn [rbind].
  destruct (update_order_ok m2 fresh (workers g) gas gasMax Hk) as (order & rc & -> & Hord);
    [intros r Hin; by apply F5, Hf|exact F3|exact F9|]. cbn [rbind].
  eapply returns_bind; [apply update_all_ok; [done| |done|done]|].
  { intros w. rewrite Hord. intros Hin. split; [done|]. by apply F3. }
  intros [k s'] (Hwf' & Hk' & Hw' & ch & Hlen & Hsub & Hoth). cbn [snd] in *.
  destruct (saturations_ok (rw s') geo (keys m2) Hgeo Hk) as [sat ->]. cbn [rbind].
  unfold stepped. simpl in *. split_and!; try done; [| |exists ch; split].
  - intros r. rewrite Hk'. apply Hkeys.
  - intros w r E. split.
    + destruct (decide (w ∈ ch)) as [Hin|Hin]; [by rewrite <-Hord; apply Hsub|]. rewrite Hoth, Hr2 in E by done.
      apply Hr1 in E as [E _]. by apply F7 in E.
    + apply (ResourceWorkers.wf_both _ Hwf') in E as (x & E & _). apply Hkeys. rewrite <-Hk'.
      apply ResourceWorkers.in_keys. eauto.
  - unfold gatherer_worker_updates in *. lia.
  - intros w r Hw. by rewrite Hoth, Hr2.
Qed.

(** The choice for one worker is greedy: it ends up on a resource whose
    score is valid and lowest among all allowed resources, counting the other
    workers as they are then; when no score is valid it ends up on none.  No
    other worker is moved. *)
Theorem gather_greedy blk g cs gasMax s w before gasBefore d : ResourceWorkers.wf (rw s) → w ∈ (ws s).*1 →
  is_Some (units e !! w) → known (keys (rw s)) → (∃ c, cooldown e (draws s) = Ok c) →
  ∃ s' uw best, reassign_worker e blk g cs gasMax s w before gasBefore d = Ok s' ∧ units e !! w = Some uw ∧
    resourceOf (rw s') w = fst <$> best ∧ (∀ w', w' ≠ w → resourceOf (rw s') w' = resourceOf (rw s) w') ∧
    ∃ desire, best_for (Around blk g cs before d desire) w uw (ResourceWorkers.unassignWorker (rw s) (Some w)) best.
Proof.
  intros Hwf Hw Hwu Hk [c Hc].
  pose proof (reassign_worker_ok blk g cs gasMax s w before gasBefore d Hwf Hw Hwu Hk) as Hm.
  destruct (reassign_worker _ _ _ _ _ _ _ _ _ _) as [s'| | |]; [|done|destruct Hm as (? & <- & ?); congruence|done].
  destruct Hm as (uw & best & [_ _ _ Hm _] & Hu & Hr & Hb & _). exists s', uw, best. split_and!; eauto.
Qed.

(** The count of gas workers drifts: a worker that stays on its refinery is
    subtracted and never added again, and one that leaves is subtracted
    twice. *)
Theorem gas_count_drifts blk g cs gasMax s w before d : ResourceWorkers.wf (rw s) → w ∈ (ws s).*1 →
  is_Some (units e !! w) → known (keys (rw s)) → (∃ c, cooldown e (draws s) = Ok c) →
  ∃ s', reassign_worker e blk g cs gasMax s w (Some before) true d = Ok s' ∧
    (resourceOf (rw s') w = Some before → gasNow s' = gasNow s - 1) ∧
    (∀ r, resourceOf (rw s') w = Some r → r ≠ before → from_option isGas false (units e !! r) = false →
       gasNow s' = gasNow s - 2).
Proof.
  intros Hwf Hw Hwu Hk [c Hc].
  pose proof (reassign_worker_ok blk g cs gasMax s w (Some before) true d Hwf Hw Hwu Hk) as Hm.
  destruct (reassign_worker _ _ _ _ _ _ _ _ _ _) as [s'| | |]; [|done|destruct Hm as (? & <- & ?); congruence|done].
  destruct Hm as (uw & best & _ & _ & Hr & _ & Hg). exists s'. split; [done|]. rewrite Hr. destruct best as [[after score]|]; csimpl; split; try done.
  - intros [= ->]. by rewrite bool_decide_true in Hg.
  - intros r [= ->] Hne Hgas. rewrite bool_decide_false in Hg by congruence. rewrite Hgas in Hg. lia.
Qed.
End step.

(** ** The cooldown *)

(** The new cooldown as a function of the frame and the parity of the draw. *)
Definition cooldown_at (frame parity : Z) : res Z :=
  int_of_f64 (f64_add (f64_add (f64_of_Z frame) gatherer_cooldown)
                      (f64_mul gatherer_cooldown_noise (f64_of_Z ((parity - 1) mod 2 ^ 64)))).

Definition cooldown_check (frame : Z) : bool :=
  match cooldown_at frame 1, cooldown_at frame 0 with Ok c, Undefined => c =? frame + 72 | _, _ => false end.

Lemma cooldown_table : forallb cooldown_check (seqZ 0 2880) = true.
Proof. vm_compute. reflexivity. Qed.

(** The noise is unsigned: when the draw is even it is [48 * (2^64 - 1)]
    frames, which does not fit the [int] it is cast to. *)
Lemma cooldown_parity e n : 0 ≤ currentFrame e < 2880 →
  cooldown e n = if decide (rand e n mod 2 = 0) then Undefined else Ok (currentFrame e + 72).
Proof.
  intros Hf. pose proof cooldown_table as H. rewrite forallb_forall in H. specialize (H (currentFrame e)).
  assert (cooldown_check (currentFrame e) = true) as Hc by (apply H, list_elem_of_In, elem_of_seqZ; lia).
  unfold cooldown_check in Hc. change (cooldown e n) with (cooldown_at (currentFrame e) (rand e n mod 2)).
  pose proof (Z.mod_pos_bound (rand e n) 2). case_decide as E.
  - rewrite E. destruct (cooldown_at (currentFrame e) 1); try done. by destruct (cooldown_at (currentFrame e) 0).
  - replace (rand e n mod 2) with 1 by lia. destruct (cooldown_at (currentFrame e) 1) as [c| | |]; try done.
    destruct (cooldown_at (currentFrame e) 0); try done. f_equal. lia.
Qed.

(** C26 A step of the gatherer throws nothing and runs out of nothing; it
    returns with the assignments in order, or it is undefined because the new
    cooldown of one of its (fewer than [gatherer_worker_updates]) moves does not
    fit an [int], which in the first two minutes is the case exactly when the
    draw for that move is even.  When it returns, the two-way map is consistent
    over the same workers; gathering is allowed from exactly the valid resources
    among the old ones and the live units; every worker gathers from such a
    resource; and fewer than [gatherer_worker_updates] workers are moved, every
    other one keeps its resource, or loses it when it became invalid. *)
Theorem gather_step e g : fine e g →
  match step e g with
  | Ok (g', _) => stepped e g g'
  | Undefined => ∃ n, Z.of_nat n < gatherer_worker_updates - 1 ∧ cooldown e n = Undefined
  | _ => False
  end ∧
  (0 ≤ currentFrame e < 2880 → ∀ n, cooldown e n = Undefined ↔ rand e n mod 2 = 0).
Proof.
  intros Hf. split.
  - pose proof (step_ok e g Hf) as H. by destruct (step e g) as [[g' sat]| | |].
  - intros Ht n. rewrite (cooldown_parity e n Ht). by case_decide.
Qed.

(** ** An example: a drone, a mineral patch and a hatchery *)

Definition example_unit (mineral : bool) (x : Z) : unit :=
  Gatherer.Unit false false true true 0 mineral mineral false false 1500 false (f64_of_Z 4) x 100 8 8 8 8.

Definition example_draws (draw : Z) : env :=
  Env {[1 := example_unit false 200; 5 := example_unit true 120; 6 := example_unit false 40]} [1; 5; 6]
      [Base 0 (Some 6) 8] (λ _, Some 0) (λ _ _, (f32_0, [])) [] None None 100 (λ _, draw) (λ _ l, l).
Definition example_env : env := example_draws 1.

Definition example_gatherer : t := addUnit (GA ResourceWorkers.make []) 1.

Lemma example_cooldown n : ∃ c, cooldown example_env n = Ok c.
Proof. eexists. vm_compute. reflexivity. Qed.

Lemma example_known u : u = 1 ∨ u = 5 ∨ u = 6 → is_Some (units example_env !! u).
Proof. intros [->|[->| ->]]; eexists; vm_compute; reflexivity. Qed.

Lemma example_fine draw : fine (example_draws draw) example_gatherer.
Proof.
  split; try done.
  - apply ResourceWorkers.make_wf.
  - apply NoDup_singleton.
  - intros w ->%list_elem_of_singleton. apply example_known. auto.
  - intros r Hr. by apply not_elem_of_nil in Hr.
  - intros u Hu. apply example_known. simpl in Hu. set_solver.
  - intros b d ->%list_elem_of_singleton [= <-]. apply example_known. auto.
  - simpl. lia.
Qed.

(** The drone is sent to the mineral patch; with an even draw it is not. *)
Lemma gather_step_witness :
  (∃ g' sat, step example_env example_gatherer = Ok (g', sat) ∧ ResourceWorkers.wf (resourceWorkers g') ∧
     ResourceWorkers.getResource (resourceWorkers g') (Some 1) = Some 5) ∧
  ∃ n, cooldown (example_draws 0) n = Undefined ∧ rand (example_draws 0) n mod 2 = 0.
Proof.
  pose proof (gather_step example_env example_gatherer (example_fine 1)) as [H1 _].
  pose proof (gather_step (example_draws 0) example_gatherer (example_fine 0)) as [H2 Hp]. split.
  - destruct (step example_env example_gatherer) as [[g' sat]| | |] eqn:E; [|vm_compute in E; discriminate E..].
    exists g', sat. split; [reflexivity|]. destruct H1 as (Hwf & _). split; [exact Hwf|].
    vm_compute in E. injection E as <- _. reflexivity.
  - destruct (step (example_draws 0) example_gatherer) as [[g' sat]| | |] eqn:E;
      [vm_compute in E; discriminate E|destruct H2| |destruct H2].
    destruct H2 as (n & _ & Hc). exists n. split; [exact Hc|]. apply Hp; [simpl; lia|exact Hc].
Defined.

Definition example_loop : loop :=
  Loop (ResourceWorkers.includeResource ResourceWorkers.make (Some 5)) (workers example_gatherer) 0 0.

Lemma gather_greedy_witness :
  ∃ s', reassign_worker example_env ∅ (Geo [] [] []) [] 0 example_loop 1 None false (f32_of_Z 0) = Ok s' ∧
    ResourceWorkers.getResource (rw s') (Some 1) = Some 5.
Proof.
  destruct (gather_greedy example_env ∅ (Geo [] [] []) [] 0 example_loop 1 None false (f32_of_Z 0))
    as (s' & uw & best & E & _).
  - apply (ResourceWorkers.include_refines ResourceWorkers.make (Some 5)), ResourceWorkers.make_wf.
  - left.
  - apply example_known. auto.
  - intros r ->%list_elem_of_singleton. apply example_known. auto.
  - apply example_cooldown.
  - exists s'. split; [exact E|]. vm_compute in E. injection E as <-. reflexivity.
Defined.
End GathererSteps.
