(* ===== verification/AreaCache.v ===== *)
(** * Areas near every walk tile ([src/areainfo.cpp], the cache)

    BWEM divides the walkable tiles of a map into areas.  [populateCache]
    extends this to the other tiles by a breadth-first search from the
    walkable ones.  BWEM's map is a parameter: its size in walk tiles and the
    area of a tile. *)

From S2P Require Import Prelude Floats Geometry.

Module AreaCache.

#[export] Existing Instance Vec2.t_eq_dec.

Section cache.
(** [map_->WalkSize()], and [map_->GetArea(WalkPosition(x, y))]'s identifier. *)
Context (width height : Z) (GetArea : Position → option Z).

(** [src/src/areainfo.cpp:142-142] AreaInfo::populateCache *)
Definition getId (p : Position) : Z := width * Vec2.y p + Vec2.x p.

(** The queue, the tiles seen, and [neighborAreaCache_]. *)
Record state := State { queue : list (Position * Z); seen : gset Z; cache : gmap Z Z }.

(** [src/src/areainfo.cpp:146-156] AreaInfo::populateCache *)
Definition seed : state :=
  fold_left (λ s x,
    fold_left (λ s y,
      match GetArea (Vec2.Pos x y) with
      | Some a => State (queue s ++ [(Vec2.Pos x y, a)]) (seen s ∪ {[getId (Vec2.Pos x y)]}) (cache s)
      | None => s
      end) (seqZ 0 height) s) (seqZ 0 width) (State [] ∅ ∅).

(** [src/src/areainfo.cpp:158-159] AreaInfo::populateCache *)
Definition dirs : list Position :=
  [Vec2.Pos (-1) 0; Vec2.Pos 1 0; Vec2.Pos 0 (-1); Vec2.Pos 0 1;
   Vec2.Pos (-1) (-1); Vec2.Pos 1 (-1); Vec2.Pos (-1) 1; Vec2.Pos 1 1].

(** [src/src/areainfo.cpp:169-170] AreaInfo::populateCache *)
Definition inside (p : Position) : bool :=
  (0 <=? Vec2.x p) && (0 <=? Vec2.y p) && (Vec2.x p <? width) && (Vec2.y p <? height).

(** [src/src/areainfo.cpp:166-175] AreaInfo::populateCache *)
Definition expand (pos : Position) (area : Z) (s : state) : state :=
  fold_left (λ s d,
    let next := Vec2.add pos d in
    if inside next && negb (bool_decide (getId next ∈ seen s))
    then State (queue s ++ [(next, area)]) (seen s ∪ {[getId next]}) (<[getId next := area]> (cache s))
    else s) dirs s.

(** [src/src/areainfo.cpp:161-176] AreaInfo::populateCache *)
Fixpoint search (fuel : nat) (s : state) : res state :=
  match queue s with
  | [] => Ok s
  | (pos, area) :: q =>
      match fuel with
      | O => OutOfFuel
      | S fuel => search fuel (expand pos area (State q (seen s) (cache s)))
      end
  end.

(** [src/src/areainfo.cpp:132-177] AreaInfo::populateCache *)
Definition populateCache (fuel : nat) : res (gmap Z Z) := let? s := search fuel seed in Ok (cache s).

(** [src/src/areainfo.cpp:179-194] AreaInfo::getCachedArea *)
Definition getCachedArea (cache : gmap Z Z) (p : Position) : option Z :=
  match GetArea p with
  | Some a => Some a
  | None => cache !! getId p
  end.

(** ** Distances on the grid *)

Definition cheb (p q : Position) : Z := Z.max (Z.abs (Vec2.x p - Vec2.x q)) (Z.abs (Vec2.y p - Vec2.y q)).

Definition walkable (p : Position) : Prop := inside p = true ∧ is_Some (GetArea p).

(** [p] is [k] tiles from the closest walkable tile. *)
Definition dist (p : Position) (k : Z) : Prop :=
  (∃ q, walkable q ∧ cheb p q = k) ∧ ∀ q, walkable q → k ≤ cheb p q.

(** [a] is the area of a closest walkable tile. *)
Definition nearest (p : Position) (a : Z) : Prop :=
  ∃ q, inside q = true ∧ GetArea q = Some a ∧ ∀ q', walkable q' → cheb p q ≤ cheb p q'.

Definition adjacent (p n : Position) : Prop := n ∈ map (Vec2.add p) dirs.

Lemma inside_iff p : inside p = true ↔ 0 ≤ Vec2.x p < width ∧ 0 ≤ Vec2.y p < height.
Proof. unfold inside. rewrite !andb_true_iff, !Z.leb_le, !Z.ltb_lt. lia. Qed.

Lemma getId_inj p q : inside p = true → inside q = true → getId p = getId q → p = q.
Proof.
  rewrite !inside_iff. destruct p as [x y], q as [x' y']. unfold getId. simpl. intros.
  assert (y = y') as -> by nia. f_equal. lia.
Qed.

Lemma adjacent_iff p n : adjacent p n ↔ cheb p n = 1.
Proof.
  unfold adjacent, dirs, cheb, Vec2.add. destruct p as [x y], n as [x' y']. simpl.
  rewrite !elem_of_cons, elem_of_nil. split.
  - intros H. repeat destruct H as [[= -> ->]|H]; try lia; done.
  - intros H. assert (x' - x = -1 ∨ x' - x = 0 ∨ x' - x = 1) as Hx by lia.
    assert (y' - y = -1 ∨ y' - y = 0 ∨ y' - y = 1) as Hy by lia.
    destruct Hx as [Hx|[Hx|Hx]], Hy as [Hy|[Hy|Hy]]; try lia;
      replace x' with (x + (x' - x)) by lia; replace y' with (y + (y' - y)) by lia; rewrite Hx, Hy; intuition.
Qed.

Lemma cheb_triangle p q r : cheb p r ≤ cheb p q + cheb q r.
Proof. unfold cheb. lia. Qed.

Lemma cheb_sym p q : cheb p q = cheb q p.
Proof. unfold cheb. lia. Qed.

Lemma cheb_nonneg p q : 0 ≤ cheb p q.
Proof. unfold cheb. lia. Qed.

Definition tiles : list Position := seqZ 0 width ≫= λ x, Vec2.Pos x <$> seqZ 0 height.

Lemma in_tiles p : p ∈ tiles ↔ inside p = true.
Proof.
  unfold tiles. rewrite list_elem_of_bind, inside_iff. split.
  - intros (x & (y & -> & Hy)%list_elem_of_fmap & Hx). rewrite elem_of_seqZ in *. simpl. lia.
  - destruct p as [x y]. simpl. intros H. exists x. rewrite list_elem_of_fmap. split.
    + exists y. rewrite elem_of_seqZ. split; [done|lia].
    + rewrite elem_of_seqZ. lia.
Qed.

(** When some walkable tile is within [m], there is a closest one. *)
Lemma dist_exists p m : 0 ≤ m → (∃ q, walkable q ∧ cheb p q ≤ m) → ∃ k, 0 ≤ k ≤ m ∧ dist p k.
Proof.
  intros Hm. revert m Hm. apply (natlike_ind (λ m, (∃ q, walkable q ∧ cheb p q ≤ m) → ∃ k, 0 ≤ k ≤ m ∧ dist p k)).
  - intros (q & Hq & E). exists 0. split; [lia|]. pose proof (cheb_nonneg p). split; [|auto].
    exists q. split; [done|]. specialize (H q). lia.
  - intros m Hm IH (q & Hq & E).
    destruct (decide (Exists (λ q, is_Some (GetArea q) ∧ cheb p q ≤ m) tiles)) as [Hex|Hno].
    + apply Exists_exists in Hex as (q' & Hin%in_tiles & Ha & Hle). destruct IH as (k & Hk & Hd).
      { exists q'. done. }
      exists k. split; [lia|done].
    + assert (∀ q', walkable q' → Z.succ m ≤ cheb p q') as Hge.
      { intros q' [Hi Ha]. destruct (decide (cheb p q' ≤ m)); [|lia]. destruct Hno. apply Exists_exists.
        exists q'. by rewrite in_tiles. }
      exists (Z.succ m). split; [lia|]. split; [|done]. exists q. split; [done|]. specialize (Hge q Hq). lia.
Qed.

Lemma dist_fun p k k' : dist p k → dist p k' → k = k'.
Proof. intros [(q & Hq & <-) H1] [(q' & Hq' & <-) H2]. specialize (H1 _ Hq'). specialize (H2 _ Hq). lia. Qed.

Lemma dist_zero p : inside p = true → dist p 0 → is_Some (GetArea p).
Proof.
  intros _ [(q & [_ Hq] & E) _]. replace p with q; [done|]. destruct p, q. unfold cheb in E. simpl in E. f_equal; lia.
Qed.

(** From a tile that is not walkable there is a step towards the closest one. *)
Lemma dist_step p k : inside p = true → dist p k → 0 < k →
  ∃ n, inside n = true ∧ adjacent n p ∧ dist n (k - 1).
Proof.
  rewrite inside_iff. intros Hp [(q & Hq & E) Hmin] Hk. pose proof (proj1 (inside_iff q) (proj1 Hq)) as Hqi.
  set (n := Vec2.Pos (Vec2.x p + Z.sgn (Vec2.x q - Vec2.x p)) (Vec2.y p + Z.sgn (Vec2.y q - Vec2.y p))).
  assert (cheb n q = k - 1 ∧ cheb n p = 1) as [En Ep].
  { clear -E Hk. unfold cheb in *. subst n. simpl.
    destruct (Z.sgn_spec (Vec2.x q - Vec2.x p)) as [[? ->]|[[? ->]|[? ->]]],
      (Z.sgn_spec (Vec2.y q - Vec2.y p)) as [[? ->]|[[? ->]|[? ->]]]; lia. }
  exists n. split_and!.
  - apply inside_iff. subst n. simpl. clear -Hp Hqi.
    destruct (Z.sgn_spec (Vec2.x q - Vec2.x p)) as [[? ->]|[[? ->]|[? ->]]],
      (Z.sgn_spec (Vec2.y q - Vec2.y p)) as [[? ->]|[[? ->]|[? ->]]]; lia.
  - by apply adjacent_iff.
  - split; [eauto|]. intros q' Hq'. specialize (Hmin q' Hq'). pose proof (cheb_triangle p n q').
    assert (cheb p n = cheb n p) by (unfold cheb; lia). lia.
Qed.

(** ** The seeds *)

Record seeded (s : state) (P : Position → Prop) : Prop := {
  seeded_queue p a : (p, a) ∈ queue s ↔ P p ∧ GetArea p = Some a;
  seeded_seen i : i ∈ seen s ↔ ∃ p, P p ∧ is_Some (GetArea p) ∧ i = getId p;
  seeded_cache : cache s = ∅;
  seeded_nodup : NoDup (queue s).*1
}.

Lemma seed_column s P x ys : seeded s P → NoDup ys → (∀ y, y ∈ ys → ¬ P (Vec2.Pos x y)) →
  seeded (fold_left (λ s y,
      match GetArea (Vec2.Pos x y) with
      | Some a => State (queue s ++ [(Vec2.Pos x y, a)]) (seen s ∪ {[getId (Vec2.Pos x y)]}) (cache s)
      | None => s
      end) ys s) (λ p, P p ∨ Vec2.x p = x ∧ Vec2.y p ∈ ys).
Proof.
  revert s P. induction ys as [|y ys IH]; intros s P Hs Hnd Hn; cbn [fold_left].
  { destruct Hs as [H1 H2 H3 H4]. split; try done.
    - intros p a. rewrite H1. split; [naive_solver|]. intros [[?|[_ ?%not_elem_of_nil]] ?]; done.
    - intros i. rewrite H2. split; [naive_solver|]. intros (p & [?|[_ ?%not_elem_of_nil]] & ?); [eauto|done]. }
  apply NoDup_cons in Hnd as [Hy Hnd].
  set (P1 := λ p, P p ∨ p = Vec2.Pos x y).
  assert (∀ s1, seeded s1 P1 → seeded (fold_left (λ s y,
      match GetArea (Vec2.Pos x y) with
      | Some a => State (queue s ++ [(Vec2.Pos x y, a)]) (seen s ∪ {[getId (Vec2.Pos x y)]}) (cache s)
      | None => s
      end) ys s1) (λ p, P p ∨ Vec2.x p = x ∧ Vec2.y p ∈ y :: ys)) as Hgo.
  { intros s1 Hs1. destruct (IH s1 P1 Hs1 Hnd) as [H1 H2 H3 H4].
    { intros y' Hy' [?|[= ->]]; [|done]. eapply Hn; [by right|done]. }
    assert (∀ p, P1 p ∨ Vec2.x p = x ∧ Vec2.y p ∈ ys ↔ P p ∨ Vec2.x p = x ∧ Vec2.y p ∈ y :: ys) as Hiff.
    { intros [px py]. unfold P1. simpl. rewrite elem_of_cons. split.
      - intros [[?|[= -> ->]]|[? ?]]; auto.
      - intros [?|[-> [->|?]]]; auto. }
    split; try done.
    - intros p a. rewrite H1. by rewrite Hiff.
    - intros i. rewrite H2. split; intros (p & Hp%Hiff & ?); eauto. }
  apply Hgo. destruct Hs as [H1 H2 H3 H4]. assert (¬ P (Vec2.Pos x y)) as Hnp by (apply Hn; by left).
  unfold P1. destruct (GetArea (Vec2.Pos x y)) as [a|] eqn:Ea.
  - split; simpl; try done.
    + intros p a'. rewrite elem_of_app, H1, list_elem_of_singleton. split.
      * intros [[? ?]|[= -> ->]]; auto.
      * intros [[?| ->] ?]; [auto|]. right. congruence.
    + intros i. rewrite elem_of_union, H2, elem_of_singleton. split.
      * intros [(p & ? & ? & ->)| ->]; [eauto|]. exists (Vec2.Pos x y). rewrite Ea. eauto.
      * intros (p & [?| ->] & ? & ->); eauto.
    + rewrite fmap_app. apply NoDup_app. split_and!; [done| |apply NoDup_singleton].
      intros p ([p' a'] & Ep & [Hp _]%H1)%list_elem_of_fmap Hp'%list_elem_of_singleton. simpl in Ep. by subst.
  - split; try done.
    + intros p a'. rewrite H1. split; [naive_solver|]. intros [[?| ->] ?]; [done|congruence].
    + intros i. rewrite H2. split; [naive_solver|]. intros (p & [?| ->] & [? ?] & ?); [eauto|congruence].
Qed.

Lemma seed_spec : seeded seed (λ p, inside p = true).
Proof.
  unfold seed.
  assert (∀ xs s P, seeded s P → NoDup xs → (∀ x y, x ∈ xs → ¬ P (Vec2.Pos x y)) →
    seeded (fold_left (λ s x,
      fold_left (λ s y,
        match GetArea (Vec2.Pos x y) with
        | Some a => State (queue s ++ [(Vec2.Pos x y, a)]) (seen s ∪ {[getId (Vec2.Pos x y)]}) (cache s)
        | None => s
        end) (seqZ 0 height) s) xs s) (λ p, P p ∨ Vec2.x p ∈ xs ∧ Vec2.y p ∈ seqZ 0 height)) as H.
  { induction xs as [|x xs IH]; intros s P Hs Hnd Hn; cbn [fold_left].
    { destruct Hs as [H1 H2 H3 H4]. split; try done.
      - intros p a. rewrite H1. split; [naive_solver|]. intros [[?|[?%not_elem_of_nil _]] ?]; done.
      - intros i. rewrite H2. split; [naive_solver|]. intros (p & [?|[?%not_elem_of_nil _]] & ?); [eauto|done]. }
    apply NoDup_cons in Hnd as [Hx Hnd].
    destruct (IH _ _ (seed_column s P x (seqZ 0 height) Hs (NoDup_seqZ 0 height) (λ y _, Hn x y (list_elem_of_here _ _))) Hnd)
      as [H1 H2 H3 H4].
    { intros x' y Hx' [?|[Heq _]]; [by eapply Hn; [right|]|]. simpl in Heq. by subst. }
    assert (∀ p, (P p ∨ Vec2.x p = x ∧ Vec2.y p ∈ seqZ 0 height) ∨ Vec2.x p ∈ xs ∧ Vec2.y p ∈ seqZ 0 height ↔
                 P p ∨ Vec2.x p ∈ x :: xs ∧ Vec2.y p ∈ seqZ 0 height) as Hiff
      by (intros p; rewrite elem_of_cons; tauto).
    split; try done.
    - intros p a. rewrite H1. by rewrite Hiff.
    - intros i. rewrite H2. split; intros (p & Hp%Hiff & ?); eauto. }
  destruct (H (seqZ 0 width) (State [] ∅ ∅) (λ _, False)) as [H1 H2 H3 H4]; [|apply NoDup_seqZ|auto|].
  { split; try done; [|set_solver|constructor]. intros p a. split; [by intros ?%not_elem_of_nil|by intros [? _]]. }
  assert (∀ p, False ∨ Vec2.x p ∈ seqZ 0 width ∧ Vec2.y p ∈ seqZ 0 height ↔ inside p = true) as Hiff
    by (intros p; rewrite inside_iff, !elem_of_seqZ; lia).
  split; try done.
  - intros p a. rewrite H1. by rewrite Hiff.
  - intros i. rewrite H2. split; intros (p & Hp%Hiff & ?); eauto.
Qed.

(** ** One tile *)

(** The tiles [news] are reached from a tile through the directions [ds]. *)
Record reached (pos : Position) (area : Z) (ds : list Position) (s s' : state) (news : list Position) : Prop := {
  reached_queue : queue s' = queue s ++ map (λ n, (n, area)) news;
  reached_seen i : i ∈ seen s' ↔ i ∈ seen s ∨ ∃ n, n ∈ news ∧ i = getId n;
  reached_cache i : cache s' !! i = if decide (i ∈ map getId news) then Some area else cache s !! i;
  reached_new n : n ∈ news → inside n = true ∧ (getId n ∉ seen s) ∧ n ∈ map (Vec2.add pos) ds;
  reached_all n : n ∈ map (Vec2.add pos) ds → inside n = true → getId n ∈ seen s';
  reached_nodup : NoDup (map getId news)
}.

Lemma expand_spec pos area s : ∃ news, reached pos area dirs s (expand pos area s) news.
Proof.
  unfold expand. generalize dirs as ds. intros ds. revert s. induction ds as [|d ds IH]; intros s; cbn [fold_left].
  { exists []. split; simpl; try done; [by rewrite app_nil_r|set_solver|by intros ? ?%not_elem_of_nil..|constructor]. }
  set (next := Vec2.add pos d). destruct (inside next) eqn:Ein; cbn [andb].
  2:{ destruct (IH s) as (news & [H1 H2 H3 H4 H5 H6]). exists news. split; try done.
      - intros n (? & ? & ?)%H4. split_and!; try done. csimpl. by right.
      - csimpl. intros n [->|Hn]%elem_of_cons Hi; [fold next in Hi; congruence|by apply H5]. }
  case_bool_decide as Hsn; cbn [negb].
  - destruct (IH s) as (news & [H1 H2 H3 H4 H5 H6]). exists news. split; try done.
    + intros n (? & ? & ?)%H4. split_and!; try done. csimpl. by right.
    + csimpl. intros n [->|Hn]%elem_of_cons Hi; [apply H2; by left|by apply H5].
  - destruct (IH (State (queue s ++ [(next, area)]) (seen s ∪ {[getId next]}) (<[getId next := area]> (cache s))))
      as (news & [H1 H2 H3 H4 H5 H6]). exists (next :: news). simpl in *. split; csimpl.
    + rewrite H1, <-app_assoc. done.
    + intros i. rewrite H2. set_solver.
    + intros i. rewrite H3, lookup_insert. repeat case_decide; set_solver.
    + intros n [->|Hn]%elem_of_cons; [split_and!; [done|done|by left]|].
      apply H4 in Hn as (? & ? & ?). split_and!; [done|set_solver|by right].
    + intros n [->|Hn]%elem_of_cons Hi; [apply H2; left; set_solver|by apply H5].
    + constructor; [|done]. intros (n & E & Hn%H4)%list_elem_of_fmap. destruct Hn as (_ & Hn & _). rewrite E in Hn. set_solver.
Qed.

(** ** The search *)

(** The queue holds tiles at distance [d] and then tiles at [d + 1], each with
    the area of a closest walkable tile; the walkable tiles are seen; and every
    tile seen is in the queue or has all its neighbours seen. *)
Record inv (d : Z) (near far : list (Position * Z)) (s : state) : Prop := {
  inv_queue : queue s = near ++ far;
  inv_near p a : (p, a) ∈ near → inside p = true ∧ dist p d ∧ nearest p a;
  inv_far p a : (p, a) ∈ far → inside p = true ∧ dist p (d + 1) ∧ nearest p a;
  inv_walkable p : walkable p → getId p ∈ seen s;
  inv_closed p n : inside p = true → getId p ∈ seen s → (p ∈ (queue s).*1) ∨
    (adjacent p n → inside n = true → getId n ∈ seen s);
  inv_cache i : is_Some (cache s !! i) → ∃ p, inside p = true ∧ i = getId p ∧ GetArea p = None;
  inv_nearest p a : inside p = true → cache s !! getId p = Some a → nearest p a;
  inv_cached p : inside p = true → getId p ∈ seen s → GetArea p = None → is_Some (cache s !! getId p);
  inv_seen_inside i : i ∈ seen s → ∃ p, inside p = true ∧ i = getId p
}.

Lemma inv_seed : inv 0 (queue seed) [] seed.
Proof.
  destruct seed_spec as [H1 H2 H3 H4]. split.
  - by rewrite app_nil_r.
  - intros p a [Hp Ha]%H1. assert (cheb p p = 0) as E by (unfold cheb; lia).
    assert (∀ q, 0 ≤ cheb p q) by (intros; unfold cheb; lia). split_and!; [done| |].
    + split; [|auto]. exists p. split; [split; [done|by rewrite Ha]|done].
    + exists p. rewrite E. auto.
  - by intros p a ?%not_elem_of_nil.
  - intros p [Hp Ha]. apply H2. eauto.
  - intros p n Hp Hs. left. apply H2 in Hs as (p' & Hp' & [a Ha] & E). apply getId_inj in E; [|done..]. subst p'.
    apply list_elem_of_fmap. exists (p, a). split; [done|]. by apply H1.
  - intros i [a Hi]. by rewrite H3, lookup_empty in Hi.
  - intros p a _ Hi. by rewrite H3, lookup_empty in Hi.
  - intros p Hp (p' & Hp' & [a Ha] & E)%H2 Hn. apply getId_inj in E; [|done..]. subst. congruence.
  - intros i (p & Hp & _ & ->)%H2. eauto.
Qed.

(** While the queue starts at distance [d], all tiles up to [d] were seen. *)
Lemma inv_seen_le d near far s : inv d near far s → ∀ k p, 0 ≤ k ≤ d → inside p = true → dist p k → getId p ∈ seen s.
Proof.
  intros Hinv k. destruct (decide (0 ≤ k)) as [Hk|]; [|lia]. revert k Hk.
  apply (natlike_ind (λ k, ∀ p, 0 ≤ k ≤ d → inside p = true → dist p k → getId p ∈ seen s)).
  - intros p _ Hp Hd. apply (inv_walkable _ _ _ _ Hinv). split; [done|]. by eapply dist_zero.
  - intros k Hk IH p Hkd Hp Hd. destruct (dist_step p (Z.succ k) Hp Hd) as (n & Hn & Ha & Hnd); [lia|].
    replace (Z.succ k - 1) with k in Hnd by lia.
    assert (getId n ∈ seen s) as Hns by (apply IH; [lia|done|done]).
    destruct (inv_closed _ _ _ _ Hinv n p Hn Hns) as [Hq|Hc]; [|by apply Hc].
    exfalso. apply list_elem_of_fmap in Hq as ([n' a] & -> & Hq). simpl in *.
    rewrite (inv_queue _ _ _ _ Hinv) in Hq. apply elem_of_app in Hq as [Hq|Hq].
    + apply (inv_near _ _ _ _ Hinv) in Hq as (_ & Hq & _). pose proof (dist_fun _ _ _ Hq Hnd). lia.
    + apply (inv_far _ _ _ _ Hinv) in Hq as (_ & Hq & _). pose proof (dist_fun _ _ _ Hq Hnd). lia.
Qed.

(** An unseen neighbour of a tile at distance [d] is one step further, and
    close to the same area. *)
Lemma next_dist d near far s p a n : inv d near far s → 0 ≤ d → dist p d → nearest p a → inside n = true →
  adjacent p n → getId n ∉ seen s → dist n (d + 1) ∧ nearest n a ∧ GetArea n = None.
Proof.
  intros Hinv Hd [(q0 & Hq0 & E0) Hmin] (q & Hq & Ha & Hqmin) Hn Hadj%adjacent_iff Hns.
  assert (GetArea n = None) as HN.
  { destruct (GetArea n) eqn:E; [|done]. destruct Hns. apply (inv_walkable _ _ _ _ Hinv). split; [done|eauto]. }
  assert (walkable q) as Hwq by (split; [done|eauto]).
  assert (cheb p q = d) as Epq by (pose proof (Hqmin q0 Hq0); pose proof (Hmin q Hwq); lia).
  assert (cheb n p = 1) as Hnp by by rewrite cheb_sym.
  assert (∀ q', walkable q' → d + 1 ≤ cheb n q') as Hge.
  { intros q' Hq'. destruct (decide (d + 1 ≤ cheb n q')); [done|]. destruct Hns.
    destruct (dist_exists n d) as (k & Hk & Hdk); [done|exists q'; split; [done|lia]|].
    by eapply inv_seen_le. }
  assert (cheb n q ≤ d + 1) by (pose proof (cheb_triangle n p q); lia).
  split_and!; [| |done].
  - split; [|done]. exists q. split; [done|]. pose proof (Hge q Hwq). lia.
  - exists q. split_and!; try done. intros q' Hq'. pose proof (Hge q' Hq'). lia.
Qed.

(** A layer is done: the next one is at the front. *)
Lemma inv_shift d far s : inv d [] far s → inv (d + 1) far [] s.
Proof.
  intros [H1 H2 H3 H4 H5 H6 H7 H8 H9]. split; try done; [by rewrite app_nil_r, H1|].
  by intros p a ?%not_elem_of_nil.
Qed.

(** The front tile is expanded: its unseen neighbours join the next layer. *)
Lemma inv_expand d p a near far s : 0 ≤ d → inv d ((p, a) :: near) far s →
  ∃ news, inv d near (far ++ map (λ n, (n, a)) news) (expand p a (State (near ++ far) (seen s) (cache s))) ∧
    reached p a dirs (State (near ++ far) (seen s) (cache s)) (expand p a (State (near ++ far) (seen s) (cache s))) news.
Proof.
  intros Hd Hinv. destruct (expand_spec p a (State (near ++ far) (seen s) (cache s))) as (news & Hr).
  exists news. split; [|done]. destruct Hr as [R1 R2 R3 R4 R5 R6]. cbn [queue seen cache] in *.
  destruct (inv_near _ _ _ _ Hinv p a) as (Hp & Hpd & Hpn); [by left|].
  assert (∀ n, n ∈ news → inside n = true ∧ dist n (d + 1) ∧ nearest n a ∧ GetArea n = None) as Hnew.
  { intros n (Hi & Hs & Hadj)%R4. split; [done|]. by eapply next_dist. }
  pose proof (inv_queue _ _ _ _ Hinv) as Hq. split.
  - by rewrite R1, app_assoc.
  - intros q b Hq'. apply (inv_near _ _ _ _ Hinv). by right.
  - intros q b [Hq'|(n & [= -> ->] & Hn)%list_elem_of_fmap]%elem_of_app; [by apply (inv_far _ _ _ _ Hinv)|].
    by apply Hnew in Hn as (? & ? & ? & _).
  - intros q Hw. apply R2. left. by apply (inv_walkable _ _ _ _ Hinv).
  - intros q n Hi [Hs|(n' & Hn' & E)]%R2.
    + destruct (decide (q = p)) as [->|Hne]; [right; intros; by apply R5|].
      destruct (inv_closed _ _ _ _ Hinv q n Hi Hs) as [Hin|Hc]; [left|right; intros; apply R2; left; by apply Hc].
      rewrite Hq in Hin. rewrite R1. csimpl in Hin. apply elem_of_cons in Hin as [?|Hin]; [done|].
      rewrite fmap_app. apply elem_of_app. by left.
    + left. apply getId_inj in E; [|done|by apply R4 in Hn' as [? _]]. subst q. rewrite R1, fmap_app.
      apply elem_of_app. right. apply list_elem_of_fmap. exists (n', a). split; [done|].
      apply list_elem_of_fmap. eauto.
  - intros i. rewrite R3. case_decide as Hin; [|apply (inv_cache _ _ _ _ Hinv)]. intros _.
    apply list_elem_of_fmap in Hin as (n & -> & Hn). exists n. apply Hnew in Hn as (? & _ & _ & ?). done.
  - intros q b Hi. rewrite R3. case_decide as Hin; [|by apply (inv_nearest _ _ _ _ Hinv)]. intros [= <-].
    apply list_elem_of_fmap in Hin as (n & E & Hn). apply Hnew in Hn as (Hni & _ & ? & _).
    apply getId_inj in E; [|done..]. by subst.
  - intros q Hi Hs Hno. rewrite R3. case_decide as Hin; [done|]. apply R2 in Hs as [Hs|(n & Hn & E)].
    + by apply (inv_cached _ _ _ _ Hinv).
    + destruct Hin. apply list_elem_of_fmap. eauto.
  - intros i [Hs|(n & Hn & ->)]%R2; [by apply (inv_seen_inside _ _ _ _ Hinv)|]. apply R4 in Hn as [? _]. eauto.
Qed.

Lemma reached_size p a s s' news : reached p a dirs s s' news → size (seen s') = (size (seen s) + length news)%nat.
Proof.
  intros [_ R2 _ R4 _ R6]. replace (seen s') with (seen s ∪ list_to_set (map getId news)).
  - rewrite size_union, size_list_to_set by (done || set_solver). by rewrite length_map.
  - apply leibniz_equiv. intros i. rewrite elem_of_union, R2, elem_of_list_to_set.
    split; (intros [?|Hi]; [by left|right]).
    + apply list_elem_of_fmap in Hi as (n & -> & ?). eauto.
    + destruct Hi as (n & ? & ->). apply list_elem_of_fmap. eauto.
Qed.

Lemma seen_bound d near far s : inv d near far s → (size (seen s) ≤ length tiles)%nat.
Proof.
  intros Hinv. transitivity (size (list_to_set (map getId tiles) : gset Z)).
  - apply subseteq_size. intros i Hi. apply (inv_seen_inside _ _ _ _ Hinv) in Hi as (p & Hp & ->).
    apply elem_of_list_to_set, list_elem_of_fmap. exists p. by rewrite in_tiles.
  - induction tiles as [|t ts IH]; [done|]. cbn [map list_to_set length].
    rewrite size_union_alt, size_singleton. pose proof (subseteq_size (C := gset Z)
      (list_to_set (map getId ts) ∖ {[getId t]}) (list_to_set (map getId ts)) ltac:(set_solver)). lia.
Qed.

(** The search ends: a tile enters the queue once. *)
Lemma search_ends fuel : ∀ d near far s, 0 ≤ d → inv d near far s →
  (length (queue s) + length tiles ≤ fuel + size (seen s))%nat →
  ∃ d' s', 0 ≤ d' ∧ search fuel s = Ok s' ∧ inv d' [] [] s'.
Proof.
  induction fuel as [|fuel IH]; intros d near far s Hd Hinv Hf;
    pose proof (inv_queue _ _ _ _ Hinv) as Hq; pose proof (seen_bound _ _ _ _ Hinv) as Hb.
  - destruct (queue s) as [|[p a] q] eqn:Es; [|simpl in Hf; lia]. symmetry in Hq. apply app_nil in Hq as [-> ->].
    exists d, s. cbn [search]. by rewrite Es.
  - assert (∃ d near far, 0 ≤ d ∧ inv d near far s ∧ (near = [] → far = [])) as (d0 & near0 & far0 & Hd0 & Hinv0 & Hne).
    { destruct near as [|x near]; [|exists d, (x :: near), far; done].
      exists (d + 1), far, []. split_and!; [lia|by apply inv_shift|done]. }
    clear Hinv Hq d near far Hd. pose proof (inv_queue _ _ _ _ Hinv0) as Hq.
    destruct near0 as [|[p a] near].
    + rewrite (Hne eq_refl) in *. exists d0, s. cbn [search]. by rewrite Hq.
    + destruct (inv_expand d0 p a near far0 s Hd0 Hinv0) as (news & Hinv & Hr).
      pose proof (reached_size _ _ _ _ _ Hr) as Hsz. pose proof (reached_queue _ _ _ _ _ _ Hr) as Hqu. simpl in Hsz, Hqu.
      cbn [search]. rewrite Hq. cbn [app].
      apply (IH d0 near (far0 ++ map (λ n, (n, a)) news)); [done|done|].
      rewrite Hsz, Hqu. rewrite Hq in Hf. cbn [length app] in Hf. rewrite length_app, length_map. lia.
Qed.

Lemma seed_size : (length (queue seed) ≤ size (seen seed))%nat.
Proof.
  destruct seed_spec as [H1 H2 _ H4]. transitivity (size (list_to_set (getId <$> (queue seed).*1) : gset Z)).
  - rewrite size_list_to_set; [by rewrite !length_fmap|]. apply NoDup_fmap_2_strong; [|done].
    intros p q ([p' a] & -> & [Hp _]%H1)%list_elem_of_fmap ([q' b] & -> & [Hq _]%H1)%list_elem_of_fmap E.
    by apply getId_inj.
  - apply subseteq_size. intros i (p & -> & ([p' a] & -> & [Hp Ha]%H1)%list_elem_of_fmap)%elem_of_list_to_set%list_elem_of_fmap.
    apply H2. exists p'. split_and!; [done| |done]. simpl in *. by rewrite Ha.
Qed.

Lemma length_tiles : length tiles = (Z.to_nat width * Z.to_nat height)%nat.
Proof.
  unfold tiles. rewrite <-(length_seqZ 0 width). induction (seqZ 0 width) as [|x xs IH]; [done|].
  cbn [mbind list_bind]. csimpl. rewrite length_app, length_fmap, length_seqZ, IH. done.
Qed.

(** With an empty queue, every tile of a map with a walkable tile was seen. *)
Lemma all_seen d s p : 0 ≤ d → inv d [] [] s → (∃ q, walkable q) → inside p = true → getId p ∈ seen s.
Proof.
  intros Hd Hinv [q Hq] Hp.
  destruct (dist_exists p (cheb p q)) as (k & Hk & Hdk); [apply cheb_nonneg|by exists q|].
  assert (∀ n, 0 ≤ n → inv (d + n) [] [] s) as Hall.
  { apply natlike_ind; [by rewrite Z.add_0_r|]. intros n _ Hn. rewrite Z.add_succ_r. by apply inv_shift. }
  eapply inv_seen_le; [apply (Hall k); lia| |done..]. lia.
Qed.

(** C27 [populateCache] returns after at most one round per walk tile, and then
    [getCachedArea] gives every tile of the map the area of a walkable tile at
    the smallest distance (in king moves); it gives none only when the map has no
    walkable tile. *)
Theorem cache_nearest fuel : (Z.to_nat width * Z.to_nat height ≤ fuel)%nat →
  ∃ c, populateCache fuel = Ok c ∧
    ∀ p, inside p = true →
      match getCachedArea c p with
      | Some a => nearest p a
      | None => ∀ q, ¬ walkable q
      end.
Proof.
  intros Hf. rewrite <-length_tiles in Hf. pose proof seed_size as Hs.
  destruct (search_ends fuel 0 _ _ _ ltac:(lia) inv_seed) as (d & s & Hd & Hsr & Hinv); [lia|].
  exists (cache s). unfold populateCache. rewrite Hsr. split; [done|]. intros p Hp. unfold getCachedArea.
  destruct (GetArea p) as [a|] eqn:Ea.
  - exists p. split_and!; [done..|]. intros q _. pose proof (cheb_nonneg p q).
    assert (cheb p p = 0) by (unfold cheb; lia). lia.
  - destruct (cache s !! getId p) as [a|] eqn:Ec; [by eapply inv_nearest|]. intros q Hq.
    destruct (inv_cached _ _ _ _ Hinv p Hp) as [a Ha]; [|done|congruence].
    apply (all_seen d); eauto.
Qed.

End cache.

(** A 4 by 3 map with the areas 7 and 9 at two opposite corners. *)
Definition corners (p : Position) : option Z :=
  if decide (p = Vec2.Pos 0 0) then Some 7 else if decide (p = Vec2.Pos 3 2) then Some 9 else None.

Lemma cache_nearest_witness :
  (12 ≤ 12)%nat ∧ (∃ c, populateCache 4 3 corners 12 = Ok c ∧ getCachedArea 4 corners c (Vec2.Pos 1 2) = Some 7) ∧
  ∃ c, populateCache 4 3 corners 12 = Ok c ∧
    ∀ p, inside 4 3 p = true →
      match getCachedArea 4 corners c p with
      | Some a => nearest 4 3 corners p a
      | None => ∀ q, ¬ walkable 4 3 corners q
      end.
Proof.
  split; [lia|]. split; [eexists; split; [vm_compute; reflexivity|vm_compute; reflexivity]|].
  apply (cache_nearest 4 3 corners 12). vm_compute. lia.
Defined.
End AreaCache.
