(* ===== verification/UpcToCommand.v ===== *)
(** * From UPCs to game commands ([src/modules/upctocommand.h], [upctocommand.cpp])

    [UPCToCommandModule] runs last in every frame: it walks over the UPCs on
    the board in a random order, turns the sharp ones into commands of the
    game, takes these off the board and posts the commands.

    TorchCraft's codes of commands are a class.  [std::shuffle] is a function
    that permutes its argument.  The board shares its tuples, so the key that
    [upc->command[Command::Cast]] inserts is written back to the board. *)

From S2P Require Import Prelude Floats Geometry CircularBuffer BuildTypes Units Upc UpcStorage.
From S2P Require Import UpcFilter Tasks BoardTasks Blackboard BlackboardUpcs.

Module UpcToCommand.
Import Blackboard.

(** [tc::BW::Command::CommandUnit] and the [tc::BW::UnitCommandType]s the
    module uses. *)
Class Codes := {
  CommandUnit : Z;
  Right_Click_Unit : Z;
  Build : Z;
  Build_Addon : Z;
  Morph : Z;
  Train : Z;
  Upgrade : Z;
  Research : Z;
  Move : Z;
  Attack_Unit : Z;
  Attack_Move : Z;
  Use_Tech_Unit : Z;
  Use_Tech_Position : Z;
  Cancel_Morph : Z;
  Return_Cargo : Z
}.

(** [src/src/modules/upctocommand.h:34-38] UPCToCommandModule::UPCToCommandState *)
Record UPCToCommandState := St {
  commandToUnit : gset Z;
  commands : list ClientCommand;
  upcIds : list Z
}.

Definition start : UPCToCommandState := St ∅ [] [].

(** The duplicate is only reported.

    [src/src/modules/upctocommand.cpp:24-39] UPCToCommandModule::checkDuplicateCommand *)
Definition checkDuplicateCommand (s : UPCToCommandState) (unit : Z) : UPCToCommandState :=
  if bool_decide (unit ∈ commandToUnit s) then s
  else St (commandToUnit s ∪ {[unit]}) (commands s) (upcIds s).

(** [src/src/modules/upctocommand.cpp:41-52] UPCToCommandModule::registerCommand *)
Definition registerCommand (s : UPCToCommandState) (unit upcId : Z) (c : ClientCommand) : UPCToCommandState :=
  let s := checkDuplicateCommand s unit in
  St (commandToUnit s) (commands s ++ [c]) (upcIds s ++ [upcId]).

Section module.
Context `{Codes, BuildType.Table}.
(** The units by identifier, and [unitsInfo().visibleUnits()]. *)
Context (units : gmap Z Unit) (visibleUnits : list Z).

(** [src/src/modules/upctocommand.cpp:71-76] UPCToCommandModule::stepUPC *)
Definition issue (s : UPCToCommandState) (upcId : Z) (unit : UnitPtr) (args : list Z) : res UPCToCommandState :=
  let? i := of_option unit in
  let? u := Upc.deref units unit in
  Ok (registerCommand s i upcId (CC CommandUnit (Unit.id u :: args))).

(** [src/src/modules/upctocommand.cpp:85-90] UPCToCommandModule::stepUPC *)
Fixpoint gather_at (s : UPCToCommandState) (upcId : Z) (unit : UnitPtr) (pos : Position) (targets : list Z)
    : res UPCToCommandState :=
  match targets with
  | [] => Ok s
  | i :: targets =>
      let? target := Upc.deref units (Some i) in
      if (Unit.x target =? Vec2.x pos) && (Unit.y target =? Vec2.y pos)
      then issue s upcId unit [Right_Click_Unit; Unit.id target]
      else gather_at s upcId unit pos targets
  end.

(** [src/src/modules/upctocommand.cpp:78-91] UPCToCommandModule::stepUPC *)
Definition gather (s : UPCToCommandState) (upcId : Z) (u : Upc.t) (unit : UnitPtr) : res UPCToCommandState :=
  match (Upc.positionUArgMax u).1 with
  | Some i =>
      let? dest := Upc.deref units (Some i) in issue s upcId unit [Right_Click_Unit; Unit.id dest]
  | None =>
      let? pos := Upc.positionArgMax units u in gather_at s upcId unit pos.1 visibleUnits
  end.

(** [src/src/modules/upctocommand.cpp:95-141] UPCToCommandModule::stepUPC *)
Definition create (s : UPCToCommandState) (upcId : Z) (u : Upc.t) (unit : UnitPtr) (prob : float32)
    (createType : Upc.BuildTypeMap) : res UPCToCommandState :=
  match createType with
  | [(type, _)] =>
      match unit with
      | None => Ok s
      | Some _ =>
        if fltb prob f32_1 then Ok s else
        let? us := Upc.deref units unit in
        let? type := of_option type in
        if BuildType.isWorker (Unit.type us) && BuildType.isBuilding type then
          let? p := Upc.positionArgMax units u in
          issue s upcId unit [Build; -1; Vec2.x p.1; Vec2.y p.1; BuildType.unit type]
        else if BuildType.isAddon type then
          issue s upcId unit [Build_Addon; -1; 0; 0; BuildType.unit type]
        else if BuildType.isUnit type then
          if BuildType.isBuilding type then issue s upcId unit [Morph; -1; 0; 0; BuildType.unit type]
          else issue s upcId unit [Train; -1; 0; 0; BuildType.unit type]
        else if negb (BuildType.upgrade type =? -1) then
          issue s upcId unit [Upgrade; -1; 0; 0; BuildType.upgrade type]
        else if negb (BuildType.tech type =? -1) then
          issue s upcId unit [Research; -1; 0; 0; BuildType.tech type]
        else Ok s
      end
  | _ => Ok s
  end.

(** The loops over [upc->unit]: every unit with a non-zero probability.

    [src/src/modules/upctocommand.cpp:173-189] UPCToCommandModule::stepUPC *)
Definition for_units (s : UPCToCommandState) (upcId : Z) (m : Upc.UnitMap) (args : res (list Z))
    : res UPCToCommandState :=
  rfold (λ s uprob,
    if feqb uprob.2 f32_0 then Ok s else let? a := args in issue s upcId uprob.1 a) m s.

(** The target of an attack or of a spell; without one the UPC is skipped.

    [src/src/modules/upctocommand.cpp:155-171] UPCToCommandModule::stepUPC *)
Definition target (u : Upc.t) : res (option (Z * Position)) :=
  match Upc.position u with
  | Upc.PUnitMap [] => Ok None
  | Upc.PUnitMap ((k, p) :: _) =>
      if feqb p f32_1 then
        let? tu := Upc.deref units k in Ok (Some (Unit.id tu, Vec2.origin))
      else Ok None
  | _ => let? p := Upc.positionArgMax units u in Ok (Some (-1, p.1))
  end.

(** [src/src/modules/upctocommand.cpp:153-190] UPCToCommandModule::stepUPC *)
Definition attack (s : UPCToCommandState) (upcId : Z) (u : Upc.t) : res UPCToCommandState :=
  let? t := target u in
  match t with
  | None => Ok s
  | Some (targetId, targetPos) =>
      for_units s upcId (Upc.unit u)
        (Ok (if 0 <=? targetId then [Attack_Unit; targetId]
             else [Attack_Move; -1; Vec2.x targetPos; Vec2.y targetPos]))
  end.

(** [src/src/modules/upctocommand.cpp:194-242] UPCToCommandModule::stepUPC *)
Definition cast (s : UPCToCommandState) (upcId : Z) (u : Upc.t) (spellType : Upc.BuildTypeMap)
    : res UPCToCommandState :=
  match spellType with
  | [(spell, _)] =>
      let? t := target u in
      match t with
      | None => Ok s
      | Some (targetId, targetPos) =>
          for_units s upcId (Upc.unit u)
            (let? spell := of_option spell in
             Ok (if 0 <=? targetId then [Use_Tech_Unit; targetId; 0; 0; BuildType.tech spell]
                 else [Use_Tech_Position; -1; Vec2.x targetPos; Vec2.y targetPos; BuildType.tech spell]))
      end
  | _ => Ok s
  end.

(** The last two branches.

    [src/src/modules/upctocommand.cpp:243-259] UPCToCommandModule::stepUPC *)
Definition cancel_or_return (s : UPCToCommandState) (upcId : Z) (u : Upc.t) : res UPCToCommandState :=
  if feqb (Upc.commandProb u Command.Cancel) f32_1 then for_units s upcId (Upc.unit u) (Ok [Cancel_Morph])
  else if feqb (Upc.commandProb u Command.ReturnCargo) f32_1
       then for_units s upcId (Upc.unit u) (Ok [Return_Cargo])
       else Ok s.

(** [upc->command[Command::Cast]]: its value, and the tuple in which the key
    now is.

    [src/src/modules/upctocommand.cpp:191-193] UPCToCommandModule::stepUPC *)
Definition command_cast (u : Upc.t) : float32 * Upc.t :=
  match al_find Command.Cast (Upc.command u) with
  | Some p => (p, u)
  | None => (f32_0, Upc.UPCTuple (Upc.unit u) (Upc.position u) (al_set Command.Cast f32_0 (Upc.command u))
                      (Upc.state u) (Upc.scale u))
  end.

(** The branches after [Command::Delete].

    [src/src/modules/upctocommand.cpp:191-259] UPCToCommandModule::stepUPC *)
Definition step_rest (s : UPCToCommandState) (upcId : Z) (u : Upc.t) : res (UPCToCommandState * Upc.t) :=
  let '(castProb, u') := if (length (Upc.unit u) =? 1)%nat then command_cast u else (f32_0, u) in
  let? s := match Upc.state u with
            | Upc.SBuildTypeMap spellType =>
                if feqb castProb f32_1 then cast s upcId u' spellType else cancel_or_return s upcId u'
            | _ => cancel_or_return s upcId u'
            end in
  Ok (s, u').

(** The branches up to [Command::Delete], for a tuple that is not about
    gathering or creating.

    [src/src/modules/upctocommand.cpp:142-259] UPCToCommandModule::stepUPC *)
Definition step_group (s : UPCToCommandState) (upcId : Z) (u : Upc.t) : res (UPCToCommandState * Upc.t) :=
  if feqb (Upc.commandProb u Command.Move) f32_1 || feqb (Upc.commandProb u Command.Flee) f32_1 then
    let? s := for_units s upcId (Upc.unit u)
                (let? pos := Upc.positionArgMax units u in Ok [Move; -1; Vec2.x pos.1; Vec2.y pos.1]) in
    Ok (s, u)
  else if feqb (Upc.commandProb u Command.Delete) f32_1 then
    let? s := attack s upcId u in Ok (s, u)
  else step_rest s upcId u.

(** [src/src/modules/upctocommand.cpp:66-260] UPCToCommandModule::stepUPC *)
Definition stepUPC (s : UPCToCommandState) (upcId : Z) (u : Upc.t) : res (UPCToCommandState * Upc.t) :=
  match Upc.unit u with
  | [(unit, prob)] =>
      if feqb (Upc.commandProb u Command.Gather) f32_1 then
        let? s := gather s upcId u unit in Ok (s, u)
      else
        match Upc.state u with
        | Upc.SBuildTypeMap createType =>
            if feqb (Upc.commandProb u Command.Create) f32_1 then
              let? s := create s upcId u unit prob createType in Ok (s, u)
            else step_group s upcId u
        | _ => step_group s upcId u
        end
  | _ => step_group s upcId u
  end.

(** The tuple [id] refers to has changed: the board, its active UPCs and the
    storage hold the same object. *)
Definition update_posts (st : UpcStorage.t) (id : Z) (u : Upc.t) : UpcStorage.t :=
  UpcStorage.UpcStorage
    (alter (λ p, UpcPost.UpcPost (UpcPost.frame p) (UpcPost.upcId p) (UpcPost.sourceId p) (UpcPost.module p)
                   ((λ _, u) <$> UpcPost.upc p) (UpcPost.data p)) (Z.to_nat (id - 1)) (UpcStorage.posts_ st))
    (UpcStorage.persistent_ st).

Definition write_upc (b : t) (id : Z) (u : Upc.t) : t :=
  Board (map_ b) (commands_ b)
    (map (λ e, if e.1 =? id then (e.1, UD u (source e.2) (origin e.2)) else e) (upcs_ b))
    (update_posts (upcStorage_ b) id u) (alter (λ _, u) id (activeUpcs_ b))
    (upcFilters_ b) (tracked_ b) (tasks b) (unitAccessCounts_ b).

(** [src/src/modules/upctocommand.cpp:279-283] UPCToCommandModule::step *)
Definition step_all (b : t) (l : list (Z * Upc.t)) (s : UPCToCommandState) : res (UPCToCommandState * t) :=
  rfold (λ '(s, b) upct,
    let? r := stepUPC s upct.1 upct.2 in
    let '(s, u') := r in Ok (s, write_upc b upct.1 u')) l (s, b).

End module.

(** [src/src/modules/upctocommand.cpp:54-64] UPCToCommandModule::postGameCommand *)
Definition postGameCommand `{Codes} (fuel : nat) (units : gmap Z Unit) (b : t) (s : UPCToCommandState)
    : res (gmap Z Unit * t) :=
  let b := consumeUPCs b (upcIds s) in
  rfold (λ '(units, b) i,
    let? c := of_option (commands s !! i) in
    let? id := of_option (upcIds s !! i) in
    postCommand CommandUnit fuel units b c id) (seq 0 (length (commands s))) (units, b).

(** [src/src/modules/upctocommand.cpp:262-287] UPCToCommandModule::step *)
Definition step `{Codes, BuildType.Table} (shuffle : list (Z * Upc.t) → list (Z * Upc.t)) (fuel : nat)
    (units : gmap Z Unit) (visibleUnits : list Z) (b : t) : res (gmap Z Unit * t) :=
  let? allUpcs := upcs b in
  let? r := step_all units visibleUnits b (shuffle allUpcs) start in
  let '(s, b) := r in
  postGameCommand fuel units b s.

End UpcToCommand.
