(* ===== verification/UpcCommands.v ===== *)
(** * From UPCs to game commands: theorems

    [UPCToCommandModule] on a board of usable tuples: what a sharp tuple is
    turned into, and what a step of the module does to the board, the
    commands of the frame and the units. *)

From S2P Require Import Prelude Floats Geometry CircularBuffer BuildTypes Units Upc UpcStorage.
From S2P Require Import UpcFilter Tasks BoardTasks Blackboard BlackboardUpcs UpcToCommand.

Module UpcCommands.
Import Blackboard BlackboardUpcs UpcToCommand.

(** ** Tuples up to zero probabilities of commands *)

(** Tuples a consumer cannot tell apart: [commandProb] reads a missing
    command as zero. *)
Record like (u v : Upc.t) : Prop := {
  like_unit : Upc.unit u = Upc.unit v;
  like_position : Upc.position u = Upc.position v;
  like_state : Upc.state u = Upc.state v;
  like_scale : Upc.scale u = Upc.scale v;
  like_command c : Upc.commandProb u c = Upc.commandProb v c
}.

#[global] Instance like_equivalence : Equivalence like.
Proof.
  split.
  - by split.
  - intros u v []. by split.
  - intros u v w [] []. split; congruence.
Qed.

#[global] Instance option_like_equivalence : Equivalence (option_Forall2 like).
Proof.
  split.
  - intros []; by constructor.
  - intros ? ? []; by constructor.
  - intros ? ? ? [u v H|]; inversion 1 as [? w|]; subst; constructor. by transitivity v.
Qed.

Lemma command_cast_like u : like u (command_cast u).2.
Proof.
  unfold command_cast. destruct (al_find Command.Cast (Upc.command u)) eqn:E; [done|].
  split; try done. intros c. unfold Upc.commandProb. simpl. rewrite al_find_set.
  case_decide; [by subst; rewrite E|done].
Qed.

Lemma command_cast_prob u : (command_cast u).1 = Upc.commandProb u Command.Cast.
Proof. unfold command_cast, Upc.commandProb. by destruct (al_find Command.Cast (Upc.command u)). Qed.

(** ** What a usable tuple is *)

Section module.
Context `{Codes, BuildType.Table}.
Context (units : gmap Z Unit) (visibleUnits : list Z).

Definition known (k : UnitPtr) : Prop := ∃ i v, k = Some i ∧ units !! i = Some v.

(** A tuple whose units are those of the game, whose position has a most likely
    place, and whose build types are sane (what the board's last filter
    checks). *)
Record usable (u : Upc.t) : Prop := {
  usable_state : SanityFilter.sane_state (Upc.state u);
  usable_units k p : (k, p) ∈ Upc.unit u → known k;
  usable_targets m k p : Upc.position u = Upc.PUnitMap m → (k, p) ∈ m → known k;
  usable_position : ∃ r, Upc.positionArgMax units u = Ok r
}.

(** Every object is filed under its own identifier. *)
Definition filed : Prop := ∀ i v, units !! i = Some v → Unit.id v = i.

Context (Hfiled : filed) (Hvisible : Forall (λ i, known (Some i)) visibleUnits).

(** ** One UPC *)

(** The module's state after it registered commands for one UPC. *)
Definition adds (s : UPCToCommandState) (id : Z) (l : list (Z * list Z)) : UPCToCommandState :=
  fold_left (λ s a, registerCommand s a.1 id (CC CommandUnit (a.1 :: a.2))) l s.

Lemma adds_app s id l l' : adds s id (l ++ l') = adds (adds s id l) id l'.
Proof. apply fold_left_app. Qed.

Lemma adds_eq s id l :
  commands (adds s id l) = commands s ++ map (λ a, CC CommandUnit (a.1 :: a.2)) l ∧
  upcIds (adds s id l) = upcIds s ++ map (λ _, id) l.
Proof.
  revert s. induction l as [|a l IH]; intros s; cbn [adds fold_left map]; [by rewrite !app_nil_r|].
  destruct (IH (registerCommand s a.1 id (CC CommandUnit (a.1 :: a.2)))) as [E1 E2].
  unfold adds in *. rewrite E1, E2. unfold registerCommand, checkDuplicateCommand.
  case_bool_decide; simpl; by rewrite <-!app_assoc.
Qed.

Lemma deref_filed k : known k → ∃ i v, k = Some i ∧ units !! i = Some v ∧ Upc.deref units k = Ok v ∧ Unit.id v = i.
Proof. intros (i & v & -> & Hv). exists i, v. unfold Upc.deref. rewrite Hv. eauto using Hfiled. Qed.

Lemma issue_known s id i a : known (Some i) → issue units s id (Some i) a = Ok (adds s id [(i, a)]).
Proof.
  intros (? & v & [= <-] & _ & Hd & Hid)%deref_filed. unfold issue. rewrite Hd. simpl. by rewrite Hid.
Qed.

(** The units a loop over the tuple addresses. *)
Definition addressed (m : Upc.UnitMap) : list Z :=
  omap (λ e, if feqb e.2 f32_0 then None else e.1) m.

Lemma addressed_in m i : i ∈ addressed m → ∃ p, (Some i, p) ∈ m ∧ feqb p f32_0 = false.
Proof.
  intros ([k p] & Hin & E)%list_elem_of_omap. simpl in E. destruct (feqb p f32_0) eqn:Ep; [done|].
  subst k. eauto.
Qed.

Lemma for_units_eq s id m a : (∀ k p, (k, p) ∈ m → known k) →
  for_units units s id m (Ok a) = Ok (adds s id (map (λ i, (i, a)) (addressed m))).
Proof.
  unfold for_units. revert s. induction m as [|[k p] m IH]; intros s Hm; cbn [rfold]; [done|].
  destruct (Hm k p) as (i & v & -> & Hv); [by left|]. csimpl.
  destruct (feqb p f32_0); cbn [rbind].
  - apply IH. intros. eapply Hm. by right.
  - rewrite issue_known by (by exists i, v). cbn [rbind map]. rewrite (IH _ (λ k p Hkp, Hm k p ltac:(by right))).
    by rewrite <-adds_app.
Qed.

(** A tuple becomes the orders [l], whatever came before. *)
Definition translates (u : Upc.t) (l : list (Z * list Z)) : Prop :=
  ∃ u', like u u' ∧ ∀ s id, stepUPC units visibleUnits s id u = Ok (adds s id l, u').

(** Orders of one tuple: all for units of the tuple. *)
Definition about (u : Upc.t) (l : list (Z * list Z)) : Prop :=
  ∀ i a, (i, a) ∈ l → ∃ p, (Some i, p) ∈ Upc.unit u.

Lemma about_addressed u a : about u (map (λ i, (i, a)) (addressed (Upc.unit u))).
Proof. intros i a' (j & [= -> ->] & Hj)%list_elem_of_fmap. apply addressed_in in Hj as (p & ? & _). eauto. Qed.

Lemma about_nil u : about u [].
Proof. intros i a []%not_elem_of_nil. Qed.

Lemma about_one u i p a : (Some i, p) ∈ Upc.unit u → about u [(i, a)].
Proof. intros Hin j b [= -> ->]%list_elem_of_singleton. eauto. Qed.

(** [f] registers orders for the tuple. *)
Definition orders (u : Upc.t) (f : UPCToCommandState → Z → res UPCToCommandState) : Prop :=
  ∃ l, about u l ∧ ∀ s id, f s id = Ok (adds s id l).

Lemma orders_none u : orders u (λ s _, Ok s).
Proof. exists []. auto using about_nil. Qed.

Lemma orders_issue u i p a : (Some i, p) ∈ Upc.unit u → known (Some i) →
  orders u (λ s id, issue units s id (Some i) a).
Proof. intros. exists [(i, a)]. eauto using about_one, issue_known. Qed.

Lemma orders_units u a : usable u → orders u (λ s id, for_units units s id (Upc.unit u) (Ok a)).
Proof. intros Hu. eexists. split; [apply about_addressed|]. intros. apply for_units_eq, Hu. Qed.

Lemma orders_like u v f : like u v → orders u f → orders v f.
Proof. intros [Eu _ _ _ _] (l & Ha & Hf). exists l. unfold about in *. rewrite <-Eu. eauto. Qed.

Lemma orders_gather_at u i p pos targets : (Some i, p) ∈ Upc.unit u → known (Some i) →
  Forall (λ i, known (Some i)) targets → orders u (λ s id, gather_at units s id (Some i) pos targets).
Proof.
  intros Hin Hi. induction 1 as [|j targets Hj _ IH]; cbn [gather_at]; [apply orders_none|].
  apply deref_filed in Hj as (? & v & [= <-] & _ & -> & Hid). cbn [rbind].
  case_match; [|done]. rewrite Hid. by eapply orders_issue.
Qed.

Lemma orders_gather u i p : usable u → (Some i, p) ∈ Upc.unit u →
  orders u (λ s id, gather units visibleUnits s id u (Some i)).
Proof.
  intros Hu Hin. pose proof (usable_units u Hu _ _ Hin) as Hi. unfold gather, Upc.positionUArgMax.
  destruct (usable_position u Hu) as [r Hr]. destruct (Upc.position u) as [| | |m|] eqn:Ep; cbn [fst];
    try (rewrite Hr; cbn [rbind]; by eapply orders_gather_at).
  pose proof (Upc.argmax_loop_spec m) as Hm. destruct (Upc.argmax_loop m) as [k q] eqn:Ek.
  destruct Hm as [_ [[Hkm _]|(-> & _ & _)]].
  - apply (usable_targets u Hu _ _ _ Ep), deref_filed in Hkm as (j & v & -> & _ & Hd & Hid). cbn [fst].
    rewrite Hd. cbn [rbind]. rewrite Hid. by eapply orders_issue.
  - exfalso. unfold Upc.positionArgMax, Upc.positionUArgMax in Hr. rewrite Ep, Ek in Hr. done.
Qed.

Lemma orders_create u i p m : usable u → (Some i, p) ∈ Upc.unit u → Upc.state u = Upc.SBuildTypeMap m →
  orders u (λ s id, create units s id u (Some i) p m).
Proof.
  intros Hu Hin Es. unfold create. destruct m as [|[ty q] [|]]; try apply orders_none.
  destruct (fltb p f32_1); [apply orders_none|].
  destruct (deref_filed (Some i)) as (? & v & [= <-] & Hv & -> & _); [by eapply usable_units|]. cbn [rbind].
  pose proof (usable_state u Hu) as Hs. rewrite Es in Hs.
  destruct Hs as [_ Hs]. apply Forall_inv in Hs. destruct ty as [ty|]; [|done]. cbn [rbind of_option].
  destruct (usable_position u Hu) as [r Hr].
  assert (known (Some i)) as Hi by by exists i, v.
  rewrite Hr. cbn [rbind]. repeat case_match; eauto using orders_none, orders_issue.
Qed.

Lemma target_known u : usable u → ∃ t, target units u = Ok t.
Proof.
  intros Hu. unfold target. destruct (usable_position u Hu) as [r ->]. cbn [rbind].
  destruct (Upc.position u) as [| | |m|] eqn:Ep; eauto. destruct m as [|[k p] m]; [eauto|].
  destruct (deref_filed k) as (i & v & _ & _ & -> & _); [by eapply usable_targets; [done..|left]|].
  case_match; cbn [rbind]; eauto.
Qed.

Lemma orders_attack u : usable u → orders u (λ s id, attack units s id u).
Proof.
  intros Hu. unfold attack. destruct (target_known u Hu) as [t ->]. cbn [rbind].
  destruct t as [[]|]; [by apply orders_units|apply orders_none].
Qed.

Lemma orders_cast u m : usable u → Upc.state u = Upc.SBuildTypeMap m →
  orders u (λ s id, cast units s id u m).
Proof.
  intros Hu Es. unfold cast. destruct m as [|[sp q] [|]]; try apply orders_none.
  destruct (target_known u Hu) as [t ->]. cbn [rbind].
  pose proof (usable_state u Hu) as Hs. rewrite Es in Hs.
  destruct Hs as [_ Hs]. apply Forall_inv in Hs. destruct sp as [sp|]; [|done]. cbn [rbind of_option].
  destruct t as [[]|]; [by apply orders_units|apply orders_none].
Qed.

Lemma orders_cancel u : usable u → orders u (λ s id, cancel_or_return units s id u).
Proof. intros Hu. unfold cancel_or_return. repeat case_match; auto using orders_units, orders_none. Qed.

#[local] Instance usable_proper : Proper (like ==> iff) usable.
Proof.
  assert (∀ u v, like u v → usable u → usable v) as Himp.
  { intros u v [E1 E2 E3 E4 _] [H1 H2 H3 [r H4]]. split; rewrite <-?E1, <-?E2, <-?E3; try done.
    exists r. rewrite <-H4. unfold Upc.positionArgMax, Upc.positionUArgMax. by rewrite E2, E4. }
  intros u v E. split; [by apply Himp|]. apply Himp. by symmetry.
Qed.

Lemma orders_translate u u' f : like u u' → orders u f →
  (∀ s id, stepUPC units visibleUnits s id u = rbind (f s id) (λ s, Ok (s, u'))) →
  ∃ l, translates u l ∧ about u l.
Proof.
  intros Hl (l & Ha & Hf) E. exists l. split; [|done]. exists u'. split; [done|]. intros. by rewrite E, Hf.
Qed.

Lemma step_rest_orders u : usable u → ∃ u' f, like u u' ∧ orders u f ∧
  ∀ s id, step_rest units s id u = rbind (f s id) (λ s, Ok (s, u')).
Proof.
  intros Hu. unfold step_rest.
  set (c := if (length (Upc.unit u) =? 1)%nat then command_cast u else (f32_0, u)).
  assert (like u c.2) as Hl by (subst c; case_match; [apply command_cast_like|done]).
  assert (usable c.2) as Hc by by rewrite <-Hl.
  exists c.2. destruct c as [p u']. cbn [snd] in *.
  assert (orders u (λ s id, cancel_or_return units s id u')) as Hcr.
  { eapply orders_like; [symmetry; exact Hl|]. by apply orders_cancel. }
  destruct (Upc.state u) as [|m| | | |] eqn:Es; try by eauto.
  destruct (feqb p f32_1); [|by eauto]. eexists _. split; [done|]. split; [|done].
  eapply orders_like; [symmetry; exact Hl|]. apply orders_cast; [done|]. by rewrite <-(like_state _ _ Hl).
Qed.

Lemma step_group_orders u : usable u → ∃ u' f, like u u' ∧ orders u f ∧
  ∀ s id, step_group units s id u = rbind (f s id) (λ s, Ok (s, u')).
Proof.
  intros Hu. unfold step_group. destruct (usable_position u Hu) as [r ->]. cbn [rbind].
  destruct (_ || _); [|destruct (feqb _ _)].
  - do 2 eexists. split; [reflexivity|]. split; [by apply orders_units|done].
  - do 2 eexists. split; [reflexivity|]. split; [by apply orders_attack|done].
  - by apply step_rest_orders.
Qed.

(** A usable tuple is translated without undefined behaviour, into orders for
    its own units. *)
Lemma usable_translates u : usable u → ∃ l, translates u l ∧ about u l.
Proof.
  intros Hu. destruct (step_group_orders u Hu) as (u' & f & Hl & Ho & E).
  assert (∀ g, (∀ s id, stepUPC units visibleUnits s id u = g s id) →
          (∀ s id, g s id = step_group units s id u) → ∃ l, translates u l ∧ about u l) as Hg.
  { intros g E1 E2. eapply orders_translate; [exact Hl|exact Ho|]. intros. by rewrite E1, E2, E. }
  unfold stepUPC in *. destruct (Upc.unit u) as [|[k p] [|]] eqn:Eu; try by eapply Hg.
  assert ((k, p) ∈ Upc.unit u) as Hin by (rewrite Eu; by left).
  destruct (usable_units u Hu k p Hin) as (i & v & -> & _).
  destruct (feqb (Upc.commandProb u Command.Gather) f32_1) eqn:Egt.
  - eapply orders_translate; [reflexivity|by eapply orders_gather|]. intros. unfold stepUPC. by rewrite Eu, Egt.
  - destruct (Upc.state u) as [|m| | | |] eqn:Es; try by eapply Hg.
    destruct (feqb (Upc.commandProb u Command.Create) f32_1) eqn:Ec; [|by eapply Hg].
    eapply orders_translate; [reflexivity|by eapply orders_create|]. intros. unfold stepUPC. by rewrite Eu, Egt, Es, Ec.
Qed.

(** ** Sharp tuples *)

(** The order a sharp tuple asks for, as the comment of the module and the
    helpers that make such tuples have it: one unit, one command, and one
    position, target or type. *)
Inductive sharp : Upc.t → Z → list Z → Prop :=
| sharp_move i p c : c = Command.Move ∨ c = Command.Flee →
    sharp (Upc.makeSharpUPC_pos (Some i) p c) i [Move; -1; Vec2.x p; Vec2.y p]
| sharp_follow i j v c : c = Command.Move ∨ c = Command.Flee → units !! j = Some v →
    sharp (Upc.makeSharpUPC_target (Some i) (Some j) c) i [Move; -1; Unit.x v; Unit.y v]
| sharp_attack i j : 0 ≤ j → known (Some j) →
    sharp (Upc.makeSharpUPC_target (Some i) (Some j) Command.Delete) i [Attack_Unit; j]
| sharp_attack_move i p :
    sharp (Upc.makeSharpUPC_pos (Some i) p Command.Delete) i [Attack_Move; -1; Vec2.x p; Vec2.y p]
| sharp_gather i j : known (Some j) →
    sharp (Upc.makeSharpUPC_target (Some i) (Some j) Command.Gather) i [Right_Click_Unit; j]
| sharp_build i v p ty : units !! i = Some v →
    BuildType.isWorker (Unit.type v) = true → BuildType.isBuilding ty = true →
    sharp (Upc.makeSharpUPC_pos_type (Some i) p Command.Create (Some ty)) i
          [Build; -1; Vec2.x p; Vec2.y p; BuildType.unit ty]
| sharp_addon i v p ty : units !! i = Some v → BuildType.isWorker (Unit.type v) = false →
    BuildType.isAddon ty = true →
    sharp (Upc.makeSharpUPC_pos_type (Some i) p Command.Create (Some ty)) i
          [Build_Addon; -1; 0; 0; BuildType.unit ty]
| sharp_morph i v p n : units !! i = Some v → BuildType.isWorker (Unit.type v) = false → n ≠ -1 →
    BuildType.isAddon (BuildType.UnitType n) = false → BuildType.isBuilding (BuildType.UnitType n) = true →
    sharp (Upc.makeSharpUPC_pos_type (Some i) p Command.Create (Some (BuildType.UnitType n))) i
          [Morph; -1; 0; 0; n]
| sharp_train i p n : n ≠ -1 →
    BuildType.isAddon (BuildType.UnitType n) = false → BuildType.isBuilding (BuildType.UnitType n) = false →
    sharp (Upc.makeSharpUPC_pos_type (Some i) p Command.Create (Some (BuildType.UnitType n))) i
          [Train; -1; 0; 0; n]
| sharp_upgrade i p n l : n ≠ -1 → BuildType.isAddon (BuildType.UpgradeType n l) = false →
    BuildType.isBuilding (BuildType.UpgradeType n l) = false →
    sharp (Upc.makeSharpUPC_pos_type (Some i) p Command.Create (Some (BuildType.UpgradeType n l))) i
          [Upgrade; -1; 0; 0; n]
| sharp_research i p n : n ≠ -1 → BuildType.isAddon (BuildType.TechType n) = false →
    BuildType.isBuilding (BuildType.TechType n) = false →
    sharp (Upc.makeSharpUPC_pos_type (Some i) p Command.Create (Some (BuildType.TechType n))) i
          [Research; -1; 0; 0; n]
| sharp_cast_at i p n :
    sharp (Upc.makeSharpUPC_pos_type (Some i) p Command.Cast (Some (BuildType.TechType n))) i
          [Use_Tech_Position; -1; Vec2.x p; Vec2.y p; n]
| sharp_cast_on i j n : 0 ≤ j → known (Some j) →
    sharp (Upc.makeSharpUPC_target_type (Some i) (Some j) Command.Cast (Some (BuildType.TechType n))) i
          [Use_Tech_Unit; j; 0; 0; n]
| sharp_cancel i : sharp (Upc.makeSharpUPC (Some i) Command.Cancel) i [Cancel_Morph]
| sharp_return i : sharp (Upc.makeSharpUPC (Some i) Command.ReturnCargo) i [Return_Cargo].

Lemma argmax_pos u p : Upc.position u = Upc.PPosition p → Upc.scale u = 1 →
  Upc.positionArgMax units u = Ok (p, f32_1).
Proof.
  intros Ep Es. unfold Upc.positionArgMax. rewrite Ep, Es. destruct p. unfold Vec2.scale. simpl.
  by rewrite !Z.mul_1_r.
Qed.

Lemma argmax_unit u j : Upc.position u = Upc.PUnitMap [(Some j, f32_1)] → known (Some j) →
  ∃ v, units !! j = Some v ∧ Unit.id v = j ∧ Upc.deref units (Some j) = Ok v ∧
    Upc.positionUArgMax u = (Some j, f32_1) ∧ Upc.positionArgMax units u = Ok (Unit.pos v, f32_1).
Proof.
  intros Ep (? & v & [= <-] & Hv & Hd & Hid)%deref_filed. exists v.
  assert (Upc.positionUArgMax u = (Some j, f32_1)) as Ea by (unfold Upc.positionUArgMax; by rewrite Ep).
  split_and!; try done. unfold Upc.positionArgMax. rewrite Ep, Ea. cbn [fst snd]. by rewrite Hd.
Qed.

Lemma for_units_one s id i a : known (Some i) →
  for_units units s id [(Some i, f32_1)] (Ok a) = Ok (adds s id [(i, a)]).
Proof. intros Hi. unfold for_units. cbn [rfold fst snd rbind]. by rewrite issue_known. Qed.

(** The branch a concrete command takes is decided by evaluation. *)
Ltac branch :=
  repeat match goal with
  | |- context [feqb (Upc.commandProb ?u ?c) f32_1] =>
      let r := eval vm_compute in (feqb (Upc.commandProb u c) f32_1) in
      replace (feqb (Upc.commandProb u c) f32_1) with r by reflexivity
  end; cbn [orb].

(** A sharp tuple with a position or a target and no build type. *)
Lemma sharp_translates_simple i a c pos :
  let u := Upc.UPCTuple [(Some i, f32_1)] pos [(c, f32_1)] Upc.SEmpty 1 in
  known (Some i) → c = Command.Move ∨ c = Command.Flee →
  (∃ p q, Upc.positionArgMax units u = Ok (p, q) ∧ a = [Move; -1; Vec2.x p; Vec2.y p]) → translates u [(i, a)].
Proof.
  intros u Hi Hc (p & q & Hp & ->). exists u. split; [reflexivity|]. intros s id. unfold stepUPC, step_group.
  rewrite Hp. cbn [rbind fst]. destruct Hc as [-> | ->]; subst u; branch; cbn [Upc.unit Upc.state];
    by rewrite for_units_one.
Qed.

Lemma sharp_translates_attack i a pos :
  let u := Upc.UPCTuple [(Some i, f32_1)] pos [(Command.Delete, f32_1)] Upc.SEmpty 1 in
  known (Some i) →
  (∃ j p, target units u = Ok (Some (j, p)) ∧
     a = if 0 <=? j then [Attack_Unit; j] else [Attack_Move; -1; Vec2.x p; Vec2.y p]) → translates u [(i, a)].
Proof.
  intros u Hi (j & p & Ht & ->). exists u. split; [reflexivity|]. intros s id.
  unfold stepUPC, step_group, attack. rewrite Ht. cbn [rbind]. subst u. branch. cbn [Upc.unit Upc.state].
  by rewrite for_units_one.
Qed.

Lemma sharp_translates_cast i a n pos :
  let u := Upc.UPCTuple [(Some i, f32_1)] pos [(Command.Cast, f32_1)]
             (Upc.SBuildTypeMap [(Some (BuildType.TechType n), f32_1)]) 1 in
  known (Some i) →
  (∃ j p, target units u = Ok (Some (j, p)) ∧
     a = if 0 <=? j then [Use_Tech_Unit; j; 0; 0; n] else [Use_Tech_Position; -1; Vec2.x p; Vec2.y p; n]) →
  translates u [(i, a)].
Proof.
  intros u Hi (j & p & Ht & ->). exists u. split; [reflexivity|]. intros s id.
  unfold stepUPC, step_group. subst u. branch. cbn [Upc.unit Upc.state].
  unfold step_rest. cbn [Upc.unit Upc.state length Nat.eqb]. unfold command_cast. cbn [Upc.command].
  replace (al_find Command.Cast [(Command.Cast, f32_1)]) with (Some f32_1) by reflexivity.
  change (feqb f32_1 f32_1) with true. unfold cast. rewrite Ht. cbn [rbind of_option Upc.unit BuildType.tech].
  by rewrite for_units_one.
Qed.

Lemma sharp_translates_create i v a pos ty :
  let u := Upc.UPCTuple [(Some i, f32_1)] pos [(Command.Create, f32_1)] (Upc.SBuildTypeMap [(Some ty, f32_1)]) 1 in
  units !! i = Some v →
  (∀ s id, create units s id u (Some i) f32_1 [(Some ty, f32_1)] = issue units s id (Some i) a) →
  translates u [(i, a)].
Proof.
  intros u Hv Hc. exists u. split; [reflexivity|]. intros s id. unfold stepUPC. subst u. branch.
  cbn [Upc.unit Upc.state]. rewrite Hc, issue_known; [done|]. by exists i, v.
Qed.

Lemma sharp_translates_bare i c a :
  let u := Upc.makeSharpUPC (Some i) c in
  known (Some i) → (c = Command.Cancel ∧ a = [Cancel_Morph]) ∨ (c = Command.ReturnCargo ∧ a = [Return_Cargo]) →
  translates u [(i, a)].
Proof.
  intros u Hi Hc. exists (command_cast u).2. split; [apply command_cast_like|]. intros s id.
  destruct Hc as [[-> ->]|[-> ->]]; unfold stepUPC, step_group; subst u; branch;
    cbn [Upc.unit Upc.state Upc.makeSharpUPC]; unfold step_rest, cancel_or_return, command_cast;
    cbn [Upc.unit Upc.state Upc.command Upc.makeSharpUPC length Nat.eqb].
  - replace (al_find Command.Cast [(Command.Cancel, f32_1)]) with (@None float32) by reflexivity.
    cbn [snd Upc.unit]. branch. by rewrite for_units_one.
  - replace (al_find Command.Cast [(Command.ReturnCargo, f32_1)]) with (@None float32) by reflexivity.
    cbn [snd Upc.unit]. branch. by rewrite for_units_one.
Qed.

Lemma target_pos u p : Upc.position u = Upc.PPosition p → Upc.scale u = 1 → target units u = Ok (Some (-1, p)).
Proof. intros Ep Es. unfold target. rewrite Ep, (argmax_pos u p) by done. done. Qed.

Lemma target_unit u j : Upc.position u = Upc.PUnitMap [(Some j, f32_1)] → known (Some j) →
  target units u = Ok (Some (j, Vec2.origin)).
Proof.
  intros Ep (v & _ & Hid & Hd & _)%(argmax_unit u j Ep). unfold target. rewrite Ep.
  change (feqb f32_1 f32_1) with true. cbn [fst snd]. rewrite Hd. cbn [rbind]. by rewrite Hid.
Qed.

Lemma create_sharp i v pos ty s id :
  let u := Upc.UPCTuple [(Some i, f32_1)] (Upc.PPosition pos) [(Command.Create, f32_1)]
             (Upc.SBuildTypeMap [(Some ty, f32_1)]) 1 in
  units !! i = Some v →
  create units s id u (Some i) f32_1 [(Some ty, f32_1)] =
  if BuildType.isWorker (Unit.type v) && BuildType.isBuilding ty
  then issue units s id (Some i) [Build; -1; Vec2.x pos; Vec2.y pos; BuildType.unit ty]
  else if BuildType.isAddon ty then issue units s id (Some i) [Build_Addon; -1; 0; 0; BuildType.unit ty]
  else if BuildType.isUnit ty then
    issue units s id (Some i) [if BuildType.isBuilding ty then Morph else Train; -1; 0; 0; BuildType.unit ty]
  else if negb (BuildType.upgrade ty =? -1) then issue units s id (Some i) [Upgrade; -1; 0; 0; BuildType.upgrade ty]
  else if negb (BuildType.tech ty =? -1) then issue units s id (Some i) [Research; -1; 0; 0; BuildType.tech ty]
  else Ok s.
Proof.
  intros u Hv. unfold create. change (fltb f32_1 f32_1) with false. unfold Upc.deref at 1. rewrite Hv.
  cbn [of_option rbind]. rewrite (argmax_pos u pos) by done. cbn [rbind fst].
  destruct (BuildType.isWorker (Unit.type v)), (BuildType.isBuilding ty); done.
Qed.

(** The case of a tuple that creates, from what the table says of its types. *)
Ltac create_case :=
  eapply sharp_translates_create; [eassumption|]; intros s id; erewrite create_sharp by eassumption;
  repeat match goal with
  | H : BuildType.isWorker _ = _ |- _ => rewrite H; clear H
  | H : BuildType.isBuilding _ = _ |- _ => rewrite H; clear H
  | H : BuildType.isAddon _ = _ |- _ => rewrite H; clear H
  end;
  rewrite ?andb_false_r; unfold BuildType.isUnit;
  cbn [andb BuildType.unit BuildType.upgrade BuildType.tech negb Z.eqb Pos.eqb];
  repeat match goal with H : ?n ≠ -1 |- _ => rewrite (proj2 (Z.eqb_neq n (-1)) H); clear H end; reflexivity.

Lemma sharp_translates u i a : sharp u i a → known (Some i) → translates u [(i, a)].
Proof.
  intros Hs Hi. pose proof Hi as (? & v0 & [= <-] & Hv0).
  destruct Hs; simplify_eq.
  - apply sharp_translates_simple; [done..|]. do 2 eexists. split; [by apply argmax_pos|done].
  - apply sharp_translates_simple; [done..|].
    destruct (argmax_unit (Upc.makeSharpUPC_target (Some i) (Some j) c) j) as (v' & Hv' & _ & _ & _ & Ea); [done|by exists j, v|].
    simplify_eq. do 2 eexists. split; [exact Ea|done].
  - apply sharp_translates_attack; [done|]. do 2 eexists. split; [by apply target_unit|].
    by rewrite (proj2 (Z.leb_le 0 j)).
  - apply sharp_translates_attack; [done|]. do 2 eexists. split; [by apply target_pos|done].
  - destruct (argmax_unit (Upc.makeSharpUPC_target (Some i) (Some j) Command.Gather) j)
      as (v' & _ & Hid & Hd & Ea & _); [done..|].
    eexists. split; [reflexivity|]. intros s id. unfold stepUPC. branch. unfold gather. rewrite Ea. cbn [fst].
    rewrite Hd. cbn [rbind Upc.unit Upc.makeSharpUPC_target]. by rewrite Hid, issue_known.
  - create_case.
  - create_case.
  - create_case.
  - create_case.
  - create_case.
  - create_case.
  - apply sharp_translates_cast; [done|]. do 2 eexists. split; [by apply target_pos|done].
  - apply sharp_translates_cast; [done|]. do 2 eexists. split; [by apply target_unit|].
    by rewrite (proj2 (Z.leb_le 0 j)).
  - apply sharp_translates_bare; auto.
  - apply sharp_translates_bare; auto.
Qed.

Lemma translates_fun u l l' : translates u l → translates u l' → l = l'.
Proof.
  intros (u1 & _ & H1) (u2 & _ & H2). specialize (H1 start 0). rewrite H2 in H1. injection H1 as E _.
  destruct (adds_eq start 0 l) as [E1 _], (adds_eq start 0 l') as [E2 _]. rewrite E, E1 in E2. simpl in E2.
  clear -E2. revert l' E2. induction l as [|[i a] l IH]; intros [|[i' a'] l'] E; try done.
  injection E as -> -> E. f_equal. by apply IH.
Qed.

(** ** The board *)

(** Boards with the same tasks and commands, and alike tuples. *)
Record alike (b b' : t) : Prop := {
  alike_tasks : tasks b' = tasks b;
  alike_commands : commands_ b' = commands_ b;
  alike_size : UpcStorage.size (upcStorage_ b') = UpcStorage.size (upcStorage_ b);
  alike_upcs id : option_Forall2 like (upcWithId b id) (upcWithId b' id)
}.

#[local] Instance alike_preorder : PreOrder alike.
Proof.
  split; [by split|]. intros b1 b2 b3 [? ? ? H1] [? ? ? H2]. split; try congruence.
  intros id. etransitivity; [apply H1|apply H2].
Qed.

Lemma al_find_write id u l id' :
  al_find id' (map (λ e, if e.1 =? id then (e.1, UD u (source e.2) (origin e.2)) else e) l) =
  (λ d, if decide (id' = id) then UD u (source d) (origin d) else d) <$> al_find id' l.
Proof.
  induction l as [|[k d] l IH]; csimpl; [done|]. destruct (Z.eqb_spec k id); csimpl;
    repeat case_decide; subst; try done; congruence.
Qed.

Lemma update_posts_source st id u i : UpcStorage.sourceId (update_posts st id u) i = UpcStorage.sourceId st i.
Proof.
  unfold UpcStorage.sourceId, UpcStorage.size, update_posts. simpl. rewrite length_alter.
  case_match; [|done]. rewrite list_lookup_alter. case_decide as E; [|done]. rewrite E.
  by destruct (UpcStorage.posts_ st !! Z.to_nat (i - 1)).
Qed.

Lemma update_posts_wf st id u : UpcStorage.wf st → UpcStorage.wf (update_posts st id u).
Proof.
  intros Hst i p Hp. cbn [update_posts UpcStorage.posts_] in Hp. rewrite list_lookup_alter in Hp.
  case_decide; [|exact (Hst i p Hp)]. subst i.
  apply fmap_Some in Hp as (q & Hq & ->). exact (Hst _ q Hq).
Qed.

Lemma write_upc_spec b id u0 u : wf b → option_Forall2 like (Some u0) (upcWithId b id) → like u0 u →
  wf (write_upc b id u) ∧ alike b (write_upc b id u).
Proof.
  intros [H1 H2 H3 H4 H5] Hb Hl.
  assert (UpcStorage.size (upcStorage_ (write_upc b id u)) = UpcStorage.size (upcStorage_ b)) as Hsz
    by (unfold UpcStorage.size; simpl; by rewrite length_alter).
  split; split; try done.
  - unfold smap_wf in *. simpl. rewrite <-list_fmap_compose.
    erewrite list_fmap_ext; [exact H1|]. intros ? [k d] _. simpl. by destruct (k =? id).
  - by apply update_posts_wf.
  - intros i ud Hi. rewrite Hsz. simpl in Hi. rewrite al_find_write in Hi. simpl. rewrite update_posts_source.
    apply fmap_Some in Hi as (d & (Hr & Ha & Hs)%H3 & ->). rewrite lookup_alter.
    case_decide; subst; [rewrite decide_True by done|rewrite decide_False by done]; simpl; rewrite ?Ha; done.
  - intros i Hi. rewrite Hsz. apply H4. revert Hi. simpl. rewrite lookup_alter. case_decide; [|done].
    subst i. by rewrite fmap_is_Some.
  - intros i. unfold upcWithId in *. simpl. rewrite al_find_write.
    destruct (al_find i (upcs_ b)) as [d|] eqn:E; simpl; [|constructor]. case_decide; [|by constructor].
    subst i. constructor. simpl. rewrite E in Hb. inversion Hb; subst. by transitivity u0.
Qed.

(** The commands the module collects for the UPCs it went over. *)
Definition posts (L : list (Z * list (Z * list Z))) : list CommandPost :=
  flat_map (λ r, map (λ a, CP (CC CommandUnit (a.1 :: a.2)) r.1) r.2) L.

Lemma collects_eq L s : let s' := fold_left (λ s r, adds s r.1 r.2) L s in
  commands s' = commands s ++ map command (posts L) ∧ upcIds s' = upcIds s ++ map sourceId (posts L).
Proof.
  revert s. induction L as [|r L IH]; intros s; cbn [fold_left posts flat_map]; [by rewrite !app_nil_r|].
  destruct (IH (adds s r.1 r.2)) as [-> ->], (adds_eq s r.1 r.2) as [-> ->].
  unfold posts. rewrite !map_app, !map_map, <-!app_assoc. done.
Qed.

Lemma step_all_spec l b s : wf b →
  (∀ id u, (id, u) ∈ l → usable u ∧ option_Forall2 like (Some u) (upcWithId b id)) →
  ∃ L b', step_all units visibleUnits b l s = Ok (fold_left (λ s r, adds s r.1 r.2) L s, b') ∧
    wf b' ∧ alike b b' ∧ Forall2 (λ e r, r.1 = e.1 ∧ translates e.2 r.2 ∧ about e.2 r.2) l L.
Proof.
  unfold step_all. revert b s. induction l as [|[id u] l IH]; intros b s Hwf Hl.
  { exists [], b. by split_and!. }
  destruct (Hl id u) as [Hu Hb]; [by left|].
  destruct (usable_translates u Hu) as (o & Ht & Ha). pose proof Ht as (u' & Hlu & Es).
  cbn [rfold fst snd]. rewrite Es. cbn [rbind].
  destruct (write_upc_spec b id u u' Hwf Hb Hlu) as [Hwf' Hal].
  destruct (IH (write_upc b id u') (adds s id o) Hwf') as (L & b' & -> & Hwfb & Hbb & HL).
  { intros id1 u1 Hin. destruct (Hl id1 u1) as [? Hb1]; [by right|]. split; [done|].
    etransitivity; [exact Hb1|]. apply Hal. }
  exists ((id, o) :: L), b'. split_and!; [done|done|by etransitivity|]. constructor; [done|exact HL].
Qed.

End module.

(** ** Posting the commands *)

Section posting.
Context `{Codes}.

Definition addresses (i : Z) (cp : CommandPost) : bool :=
  match args (command cp) with j :: _ => j =? i | [] => false end.

(** The UPC of the last command of [l] that is for unit [i]. *)
Definition last_source (i : Z) (l : list CommandPost) (dflt : Z) : Z :=
  fold_left (λ d cp, if addresses i cp then sourceId cp else d) l dflt.

Lemma postCommand_frame cu fuel units b c src units' b' : postCommand cu fuel units b c src = Ok (units', b') →
  upcs_ b' = upcs_ b ∧ tasks b' = tasks b ∧ upcStorage_ b' = upcStorage_ b.
Proof.
  unfold postCommand. intros (cs & _ & Hp)%rbind_Ok_inv.
  assert (∀ v, let b1 := set_commands (updateUnitAccessCounts cu b c) v in
            upcs_ b1 = upcs_ b ∧ tasks b1 = tasks b ∧ upcStorage_ b1 = upcStorage_ b) as Hb
    by (intros v; unfold updateUnitAccessCounts; by repeat case_match).
  repeat case_match; simplify_eq; try apply Hb.
  apply rbind_Ok_inv in Hp as (cmds & _ & [= <- <-]). apply Hb.
Qed.

Lemma post_all fuel l : ∀ units b now,
  wf b → UpcStorage.size (upcStorage_ b) < Z.of_nat fuel → 0 < CircularBuffer.size (commands_ b) →
  Blackboard.commands b 0 = Ok now →
  (∀ cp, cp ∈ l → sourceId cp ≤ UpcStorage.size (upcStorage_ b) ∧
     ∃ i a, command cp = CC CommandUnit (i :: a) ∧ is_Some (units !! i)) →
  ∃ units' b', rfold (λ '(units, b) cp, postCommand CommandUnit fuel units b (command cp) (sourceId cp)) l (units, b)
      = Ok (units', b') ∧ wf b' ∧ upcs_ b' = upcs_ b ∧ tasks b' = tasks b ∧
    Blackboard.commands b' 0 = Ok (now ++ map command l) ∧
    (∀ i, units !! i = None → units' !! i = None) ∧
    (∀ i v, units !! i = Some v → ∃ v', units' !! i = Some v' ∧
       Unit.lastUpcId v' = last_source i l (Unit.lastUpcId v)).
Proof.
  induction l as [|cp l IH]; intros units b now Hwf Hf Hsz Hnow Hl.
  { exists units, b. rewrite app_nil_r. split_and!; eauto. }
  destruct (Hl cp) as [Hs (i & a & Ec & [v Hv])]; [by left|]. cbn [rfold].
  destruct (postCommand_unit CommandUnit fuel units b (command cp) (sourceId cp) i a v)
    as (units1 & b1 & E & Hwf1 & (v1 & Hv1 & Hlast & _) & Hother); [done|lia|by rewrite Ec|by rewrite Ec|done|].
  destruct (postCommand_commands CommandUnit fuel units b (command cp) (sourceId cp) Hwf)
    as (units2 & b2 & now2 & E2 & Hn & Hc & Hsz' & _); [lia|done|].
  destruct (postCommand_frame _ _ _ _ _ _ _ _ E) as (Eu & Et & Est).
  rewrite E in E2. injection E2 as <- <-. rewrite Hnow in Hn. injection Hn as <-. rewrite E. cbn [rbind].
  destruct (IH units1 b1 (now ++ [command cp])) as (units' & b' & -> & Hwf' & Eu' & Et' & Hc' & Hn' & Hs'); try done.
  - by rewrite Est.
  - by rewrite Hsz'.
  - rewrite Est. intros cp' Hin. destruct (Hl cp') as [? (j & a' & ? & Hj)]; [by right|]. split; [done|].
    exists j, a'. split; [done|]. destruct (decide (j = i)) as [->|]; [by rewrite Hv1|by rewrite Hother].
  - exists units', b'. rewrite Hc', <-app_assoc. split_and!; try done; [by rewrite Eu'|by rewrite Et'|..].
    + intros j Hj. apply Hn'. destruct (decide (j = i)) as [->|]; [congruence|by rewrite Hother].
    + intros j w Hw. cbn [last_source fold_left]. unfold addresses at 2. rewrite Ec. cbn [args].
      destruct (Z.eqb_spec i j) as [->|].
      * rewrite Hv in Hw. injection Hw as <-. rewrite <-Hlast. by apply Hs'.
      * apply Hs'. by rewrite Hother.
Qed.

Lemma postGameCommand_eq fuel units b s l : commands s = map command l → upcIds s = map sourceId l →
  postGameCommand fuel units b s =
  rfold (λ '(units, b) cp, postCommand CommandUnit fuel units b (command cp) (sourceId cp)) l
        (units, consumeUPCs b (map sourceId l)).
Proof.
  intros Ec Ei. unfold postGameCommand. rewrite Ec, Ei, length_map. apply rfold_seq. intros i cp [u b1] Hi.
  by rewrite !list_lookup_fmap, Hi.
Qed.
End posting.

(** ** A step of the module *)

Section step.
Context `{Codes, BuildType.Table}.
Context (shuffle : list (Z * Upc.t) → list (Z * Upc.t)) (fuel : nat).
Context (units : gmap Z Unit) (visibleUnits : list Z) (b : t).

(** What the module relies on: a shuffle permutes, the board is well formed
    and in a step, units are filed under their identifiers, and the tuples on
    the board are usable. *)
Record ready : Prop := {
  ready_shuffle l : shuffle l ≡ₚ l;
  ready_board : wf b;
  ready_fuel : UpcStorage.size (upcStorage_ b) < Z.of_nat fuel;
  ready_step : 0 < CircularBuffer.size (commands_ b);
  ready_units : filed units;
  ready_visible : Forall (λ i, known units (Some i)) visibleUnits;
  ready_upcs id u : upcWithId b id = Some u → usable units u
}.

Lemma upcs_eq : upcs b = Ok (map (λ e, (e.1, upc e.2)) (upcs_ b)).
Proof. unfold upcs. rewrite select_spec. do 2 f_equal. by induction (upcs_ b) as [|e l IH]; [|rewrite filter_cons, decide_True, IH]. Qed.

Lemma in_upcs id u : wf b → (id, u) ∈ map (λ e, (e.1, upc e.2)) (upcs_ b) ↔ upcWithId b id = Some u.
Proof.
  intros Hwf. unfold upcWithId. rewrite fmap_Some. split.
  - intros ([i d] & [= -> ->] & Hin)%list_elem_of_fmap. exists d. split; [|done].
    apply al_in_find; [|done]. apply smap_wf_al, Hwf.
  - intros (d & Hd & ->). apply list_elem_of_fmap. exists (id, d). split; [done|]. by apply al_find_Some_in.
Qed.

Lemma posts_in L cp : cp ∈ posts L ↔ ∃ r a, r ∈ L ∧ a ∈ r.2 ∧ cp = CP (CC CommandUnit (a.1 :: a.2)) r.1.
Proof.
  unfold posts. rewrite list_elem_of_In, in_flat_map. setoid_rewrite <-list_elem_of_In.
  setoid_rewrite (list_elem_of_fmap _ _ cp). naive_solver.
Qed.

Lemma step_core : ready → ∃ l L units' b' now,
  l ≡ₚ map (λ e, (e.1, upc e.2)) (upcs_ b) ∧
  Forall2 (λ e r, r.1 = e.1 ∧ translates units visibleUnits e.2 r.2 ∧ about e.2 r.2) l L ∧
  step shuffle fuel units visibleUnits b = Ok (units', b') ∧ wf b' ∧ tasks b' = tasks b ∧
  Blackboard.commands b 0 = Ok now ∧ Blackboard.commands b' 0 = Ok (now ++ map command (posts L)) ∧
  (∀ id, option_Forall2 like (if decide (id ∈ map sourceId (posts L)) then None else upcWithId b id) (upcWithId b' id)) ∧
  (∀ i, units !! i = None → units' !! i = None) ∧
  (∀ i v, units !! i = Some v → ∃ v', units' !! i = Some v' ∧
     Unit.lastUpcId v' = last_source i (posts L) (Unit.lastUpcId v)).
Proof.
  intros [Hsh Hwf Hf Hst Hfi Hvi Hus]. set (l := map (λ e, (e.1, upc e.2)) (upcs_ b)).
  assert (∀ id u, (id, u) ∈ shuffle l → upcWithId b id = Some u) as Hin.
  { intros id u. rewrite (Hsh l). by apply in_upcs. }
  destruct (step_all_spec units visibleUnits Hfi Hvi (shuffle l) b start Hwf) as (L & b1 & E1 & Hwf1 & Hal & HL).
  { intros id u Hu%Hin. rewrite Hu. split; [by eapply Hus|]. by constructor. }
  destruct (collects_eq L start) as [Ec Ei]. simpl in Ec, Ei.
  assert (∃ now, Blackboard.commands b 0 = Ok now) as [now Hnow].
  { destruct (postCommand_commands 0 fuel ∅ b (CC 0 []) 0) as (_ & _ & now & _ & Hn & _);
      [done|unfold UpcStorage.size in Hf; lia|done|eauto]. }
  destruct (post_all fuel (posts L) units (consumeUPCs b1 (map sourceId (posts L))) now) as
    (units' & b' & E2 & Hwf' & Eu' & Et' & Hc' & Hno & Hso).
  - by apply consumeUPCs_wf.
  - simpl. by rewrite (alike_size _ _ Hal).
  - simpl. by rewrite (alike_commands _ _ Hal).
  - unfold Blackboard.commands. simpl. by rewrite (alike_commands _ _ Hal).
  - simpl. intros cp (r & [i a] & Hr & Ha & ->)%posts_in. simpl. rewrite (alike_size _ _ Hal).
    apply (Forall2_in_r _ _ _ _ HL) in Hr as ([id u] & He & -> & Ht & Hab). apply Hin in He. simpl in *. split.
    + unfold upcWithId in He. apply fmap_Some in He as (d & Hd & _). apply (wf_posted _ Hwf) in Hd. lia.
    + exists i, a. split; [done|]. apply Hab in Ha as (p & Hp). apply (usable_units _ _ (Hus _ _ He)) in Hp.
      destruct Hp as (? & v & [= <-] & ?). eauto.
  - exists (shuffle l), L, units', b', now. split_and!; try done.
    + unfold step. rewrite upcs_eq. cbn [rbind]. fold l. rewrite E1. cbn [rbind].
      by rewrite (postGameCommand_eq fuel units b1 _ (posts L)).
    + rewrite Et'. simpl. apply Hal.
    + intros id. unfold upcWithId at 2. rewrite Eu'. simpl. rewrite fold_erase_find.
      case_decide; [constructor|]. apply Hal.
Qed.
End step.

Section theorems.
Context `{Codes, BuildType.Table}.

(** C22 In whatever order it goes over the UPCs, a step of the module returns on
    a board of usable tuples: it appends commands to those of the frame, each
    for a unit of the UPC it comes from; it takes exactly the UPCs that gave
    commands off the board and leaves the others as they were; tasks are
    untouched; and every unit that got commands remembers the UPC of the last
    one. *)
Theorem commands_from_upcs shuffle fuel units visibleUnits b : ready shuffle fuel units visibleUnits b →
  ∃ units' b' now sent, step shuffle fuel units visibleUnits b = Ok (units', b') ∧ wf b' ∧ tasks b' = tasks b ∧
    Blackboard.commands b 0 = Ok now ∧ Blackboard.commands b' 0 = Ok (now ++ map command sent) ∧
    (∀ cp, cp ∈ sent → ∃ u i p a, upcWithId b (sourceId cp) = Some u ∧ (Some i, p) ∈ Upc.unit u ∧
       command cp = CC CommandUnit (i :: a)) ∧
    (∀ id, id ∈ map sourceId sent → upcWithId b' id = None) ∧
    (∀ id, id ∉ map sourceId sent → option_Forall2 like (upcWithId b id) (upcWithId b' id)) ∧
    (∀ i, units !! i = None → units' !! i = None) ∧
    (∀ i v, units !! i = Some v → ∃ v', units' !! i = Some v' ∧
       Unit.lastUpcId v' = last_source i sent (Unit.lastUpcId v)).
Proof.
  intros Hr. destruct (step_core shuffle fuel units visibleUnits b Hr)
    as (l & L & units' & b' & now & Hl & HL & E & Hwf & Et & Hn & Hc & Hu & Hno & Hso).
  exists units', b', now, (posts L). split_and!; try done.
  - intros cp (r & [i a] & Hin & Ha & ->)%posts_in.
    apply (Forall2_in_r _ _ _ _ HL) in Hin as ([id u] & He & -> & _ & Hab). rewrite Hl in He.
    apply in_upcs in He; [|apply Hr]. destruct (Hab _ _ Ha) as [p Hp]. exists u, i, p, a. done.
  - intros id Hid. specialize (Hu id). rewrite decide_True in Hu by done. by inversion Hu.
  - intros id Hid. specialize (Hu id). by rewrite decide_False in Hu.
Qed.

Lemma posts_of id k o :
  filter (λ cp, sourceId cp = id) (map (λ a, CP (CC CommandUnit (a.1 :: a.2)) k) o) =
  if decide (k = id) then map (λ a, CP (CC CommandUnit (a.1 :: a.2)) k) o else [].
Proof.
  induction o as [|x o IH]; csimpl; [by case_decide|]. rewrite filter_cons. simpl. rewrite IH.
  by repeat case_decide.
Qed.

Lemma posts_one units vis l L id u o :
  NoDup l.*1 → (id, u) ∈ l → translates units vis u o →
  Forall2 (λ e r, r.1 = e.1 ∧ translates units vis e.2 r.2 ∧ about e.2 r.2) l L →
  filter (λ cp, sourceId cp = id) (posts L) = map (λ a, CP (CC CommandUnit (a.1 :: a.2)) id) o.
Proof.
  intros Hnd Hin Ht HL. revert Hnd Hin. induction HL as [|[i v] [k o'] l L (Ei & Et & _) HL IH]; csimpl.
  { by intros _ ?%not_elem_of_nil. }
  simpl in Ei, Et. subst k. intros [Hi Hnd]%NoDup_cons Hin. unfold posts. cbn [flat_map fst snd].
  rewrite filter_app, posts_of. fold (posts L). apply elem_of_cons in Hin as [[= -> ->]|Hin].
  - rewrite decide_True, (translates_fun _ _ _ _ _ Et Ht) by done.
    assert (filter (λ cp, sourceId cp = i) (posts L) = []) as ->; [|by rewrite app_nil_r].
    apply elem_of_nil_inv. intros cp [<- (r & a & Hr & _ & ->)%posts_in]%list_elem_of_filter. apply Hi.
    apply (Forall2_in_r _ _ _ _ HL) in Hr as (e & He & -> & _). apply list_elem_of_fmap. by exists e.
  - rewrite IH, decide_False; [done| |done..]. intros ->. apply Hi, list_elem_of_fmap. by exists (id, u).
Qed.

Lemma sharp_sent shuffle fuel units visibleUnits b : ready shuffle fuel units visibleUnits b →
  ∃ units' b' now sent, step shuffle fuel units visibleUnits b = Ok (units', b') ∧
    Blackboard.commands b 0 = Ok now ∧ Blackboard.commands b' 0 = Ok (now ++ map command sent) ∧
    ∀ id u i a, upcWithId b id = Some u → sharp units u i a →
      filter (λ cp, sourceId cp = id) sent = [CP (CC CommandUnit (i :: a)) id] ∧ upcWithId b' id = None.
Proof.
  intros Hr. destruct (step_core shuffle fuel units visibleUnits b Hr)
    as (l & L & units' & b' & now & Hl & HL & E & Hwf & Et & Hn & Hc & Hu & Hno & Hso).
  exists units', b', now, (posts L). split_and!; try done. intros id u i a Hid Hs.
  assert (filter (λ cp, sourceId cp = id) (posts L) = [CP (CC CommandUnit (i :: a)) id]) as Hf.
  { eapply (posts_one _ _ _ _ _ u [(i, a)]); [| | |exact HL].
    - rewrite Hl, <-list_fmap_compose. apply smap_wf_al, Hr.
    - rewrite Hl. apply in_upcs; [apply Hr|done].
    - apply sharp_translates; [apply Hr|apply Hs|].
      assert (∃ p, (Some i, p) ∈ Upc.unit u) as [p Hp] by (destruct Hs; eexists; by left).
      by apply (usable_units _ _ (ready_upcs _ _ _ _ _ Hr _ _ Hid) _ _ Hp). }
  split; [done|]. specialize (Hu id). rewrite decide_True in Hu; [by inversion Hu|].
  assert (CP (CC CommandUnit (i :: a)) id ∈ posts L) as Hin.
  { assert (CP (CC CommandUnit (i :: a)) id ∈ filter (λ cp, sourceId cp = id) (posts L)) as Hin by (rewrite Hf; by left).
    by apply list_elem_of_filter in Hin as [_ ?]. }
  apply (list_elem_of_fmap_2 sourceId _ _ Hin).
Qed.

(** Sharp UPCs are executed: for a sharp UPC on the board, the step sends
    exactly one command that comes from it, the order the UPC stands for, to
    its unit, and takes the UPC off the board. *)
Theorem sharp_executed shuffle fuel units visibleUnits b id u i a : ready shuffle fuel units visibleUnits b →
  upcWithId b id = Some u → sharp units u i a →
  ∃ units' b' now sent, step shuffle fuel units visibleUnits b = Ok (units', b') ∧
    Blackboard.commands b 0 = Ok now ∧ Blackboard.commands b' 0 = Ok (now ++ map command sent) ∧
    filter (λ cp, sourceId cp = id) sent = [CP (CC CommandUnit (i :: a)) id] ∧
    upcWithId b' id = None.
Proof.
  intros Hr Hid Hs. destruct (sharp_sent _ _ _ _ _ Hr) as (units' & b' & now & sent & E & Hn & Hc & Hsent).
  destruct (Hsent id u i a Hid Hs). exists units', b', now, sent. done.
Qed.

(** A tuple the filters accept can still crash the module: with a position
    that is a unit map without a likely unit, [positionArgMax] dereferences
    null. *)
Theorem empty_target_undefined units visibleUnits s id i :
  let u := Upc.UPCTuple [(Some i, f32_1)] (Upc.PUnitMap []) [(Command.Move, f32_1)] Upc.SEmpty 1 in
  SanityFilter.sane u ∧ stepUPC units visibleUnits s id u = Undefined.
Proof. split; [|reflexivity]. split_and!; repeat constructor; try reflexivity; discriminate. Qed.
End theorems.

(** ** An example *)

#[export] Instance example_codes : Codes :=
  {| CommandUnit := 9; Right_Click_Unit := 35; Build := 2; Build_Addon := 3; Morph := 5; Train := 4;
     Upgrade := 7; Research := 6; Move := 10; Attack_Unit := 1; Attack_Move := 0; Use_Tech_Unit := 34;
     Use_Tech_Position := 33; Cancel_Morph := 40; Return_Cargo := 16 |}.

#[export] Instance example_table : BuildType.Table :=
  {| BuildType.builder _ := None; BuildType.mineralCost _ := f64_of_Z 50; BuildType.gasCost _ := f64_of_Z 0;
     BuildType.prerequisites _ := []; BuildType.buildTime _ := 300; BuildType.race _ := 0;
     BuildType.isAddon _ := false; BuildType.isWorker ty := bool_decide (ty = BuildType.Zerg_Drone);
     BuildType.supplyProvided _ := f64_of_Z 0; BuildType.supplyRequired _ := f64_of_Z 1;
     BuildType.isTwoUnitsInOneEgg _ := false; BuildType.isRefinery _ := false;
     BuildType.isBuilding _ := false; BuildType.isResourceDepot _ := false |}.

(** Unit 1 shall scout (not a command of the game) and cancel. *)
Definition example_upcs : t :=
  match postUPC initial 7 (Upc.makeSharpUPC (Some 1) Command.Scout) kRootUpcId (Some 3) None with
  | Ok (b, _) =>
      match postUPC b 8 (Upc.makeSharpUPC (Some 1) Command.Cancel) 1 (Some 4) None with
      | Ok (b, _) => match clearCommands b with Ok b => b | _ => b end
      | _ => b
      end
  | _ => initial
  end.

Lemma example_upcs_wf : wf example_upcs.
Proof.
  unfold example_upcs.
  destruct (postUPC initial 7 _ kRootUpcId (Some 3) None) as [[b1 id1]| | |] eqn:E1; try apply initial_wf.
  assert (wf b1) as Hwf1 by (eapply postUPC_keeps; [apply initial_wf| |exact E1]; by vm_compute).
  assert (1 ≤ UpcStorage.size (upcStorage_ b1)) as S1.
  { vm_compute in E1. injection E1 as <- <-. vm_compute. discriminate. }
  destruct (postUPC b1 8 _ 1 (Some 4) None) as [[b2 id2]| | |] eqn:E2; try done.
  assert (wf b2) by by eapply postUPC_keeps.
  destruct (clearCommands b2) eqn:E3; try done. by eapply clearCommands_wf.
Qed.

Lemma upcs_ready : ready reverse 5 example_units [] example_upcs.
Proof.
  split; try done.
  - intros l. apply reverse_Permutation.
  - apply example_upcs_wf.
  - intros i v. unfold example_units. rewrite lookup_singleton_Some. by intros [<- <-].
  - intros id u Hu. assert (Upc.unit u = [(Some 1, f32_1)] ∧ Upc.position u = Upc.PEmpty ∧ Upc.state u = Upc.SEmpty)
      as (E1 & E2 & E3).
    { unfold upcWithId in Hu. apply fmap_Some in Hu as (d & Hd%al_find_Some_in & ->). vm_compute in Hd.
      set_unfold. destruct Hd as [[= _ ->]|[[= _ ->]|[]]]; done. }
    split; rewrite ?E1, ?E2, ?E3; try done.
    + intros k p [= -> ->]%list_elem_of_singleton. by exists 1, (Unit.blank 1 BuildType.Zerg_Drone).
    + unfold Upc.positionArgMax. rewrite E2. eauto.
Qed.

Lemma commands_from_upcs_witness :
  ∃ units' b', step reverse 5 example_units [] example_upcs = Ok (units', b') ∧ wf b' ∧
    Blackboard.commands b' 0 = Ok [CC 9 [1; 40]].
Proof.
  destruct (commands_from_upcs reverse 5 example_units [] example_upcs upcs_ready)
    as (units' & b' & now & sent & H & Hwf & _).
  exists units', b'. split; [exact H|]. split; [exact Hwf|]. vm_compute in H. injection H as _ <-. reflexivity.
Defined.

Lemma sharp_executed_witness :
  ∃ units' b', step reverse 5 example_units [] example_upcs = Ok (units', b') ∧ upcWithId b' 2 = None ∧
    is_Some (upcWithId b' 1).
Proof.
  destruct (sharp_executed reverse 5 example_units [] example_upcs 2 (Upc.makeSharpUPC (Some 1) Command.Cancel) 1
              [Cancel_Morph] upcs_ready) as (units' & b' & now & sent & H & _ & _ & _ & Hn).
  - reflexivity.
  - apply sharp_cancel.
  - exists units', b'. split; [exact H|]. split; [exact Hn|]. vm_compute in H. injection H as _ <-.
    eexists. vm_compute. reflexivity.
Defined.

End UpcCommands.
