(* ===== verification/Controllers.v ===== *)
(** * Controllers ([src/controller.h], [src/controller.cpp])

    A controller commands units on behalf of tasks: it knows by which UPC it
    controls each unit, collects at most one UPC per unit in a step, and posts
    them under that source.  [Controller] belongs to one [ControllerTask],
    [SharedController] to any number of [SharedControllerTask]s.

    [keepUnit], [didSucceed] and [didFail] are virtual: they are the class
    [Virtual], with the base class's implementation as an instance.  The map of
    collected UPCs is a list in iteration order. *)

From S2P Require Import Prelude Floats Geometry BuildTypes Units Upc UpcStorage UpcFilter.
From S2P Require Import Tasks BoardTasks Blackboard.

Module Controllers.

(** [src/src/controller.h:102-105] ControllerBase *)
Record t := Controller {
  module_ : ModulePtr;
  units_ : gmap Z Z;
  upcs_ : list (Z * (Z * Upc.t));
  upcId_ : option Z
}.

(** [src/src/controller.cpp:16-16] ControllerBase::ControllerBase *)
Definition make (m : ModulePtr) : t := Controller m ∅ [] None.

Definition set_units (us : gmap Z Z) (c : t) : t := Controller (module_ c) us (upcs_ c) (upcId_ c).
Definition set_upcs (us : list (Z * (Z * Upc.t))) (c : t) : t := Controller (module_ c) (units_ c) us (upcId_ c).

(** [src/src/controller.cpp:18-20] ControllerBase::addUnit *)
Definition addUnit (c : t) (unit id : Z) : t := set_units (<[unit := id]> (units_ c)) c.

(** [src/src/controller.cpp:66-72] ControllerBase::isControllingUnitWith *)
Definition isControllingUnitWith (c : t) (unit id : Z) : bool :=
  match units_ c !! unit with None => false | Some id' => id' =? id end.

(** [src/src/controller.cpp:22-40] ControllerBase::removeUnit *)
Definition removeUnit (c : t) (unit id : Z) : t :=
  if isControllingUnitWith c unit id
  then set_upcs (al_erase unit (upcs_ c)) (set_units (delete unit (units_ c)) c)
  else c.

(** The tuple comes from one of the [makeSharpUPC]s.  A second UPC for a unit
    is reported and dropped: [emplace] keeps the first.

    [src/src/controller.h:78-100] ControllerBase::addUpc *)
Definition addUpc (c : t) (unit : Z) (upc : Upc.t) : t :=
  match units_ c !! unit with
  | None => c
  | Some sourceId =>
      if sourceId =? kInvalidUpcId then c
      else match al_find unit (upcs_ c) with
           | Some _ => c
           | None => set_upcs (upcs_ c ++ [(unit, (sourceId, upc))]) c
           end
  end.

(** [src/src/controller.cpp:57-64] ControllerBase::postUpcs *)
Definition postUpcs (c : t) (b : Blackboard.t) (frame : Z) : res (t * Blackboard.t) :=
  let? b := rfold (λ b it,
    let? r := Blackboard.postUPC b frame it.2.2 it.2.1 (module_ c) None in Ok r.1) (upcs_ c) b in
  Ok (set_upcs [] c, b).

(** [src/src/controller.cpp:84-86] Controller::setUpcId *)
Definition setUpcId (c : t) (id : Z) : t := Controller (module_ c) (units_ c) (upcs_ c) (Some id).

Class Virtual := {
  keepUnit : Unit → bool;
  didSucceed : t → bool;
  didFail : t → bool
}.

(** [src/src/controller.cpp:42-52] ControllerBase::keepUnit *)
Definition base_keepUnit (u : Unit) : bool :=
  if Unit.dead u then false else if negb (Unit.isMine u) then false else true.

(** [src/src/controller.h:163-165] Controller::didSucceed *)
Definition base_didSucceed (c : t) : bool := false.

(** [src/src/controller.cpp:76-82] Controller::didFail *)
Definition base_didFail (c : t) : bool := bool_decide (units_ c = ∅).

Definition base_class : Virtual :=
  {| keepUnit := base_keepUnit; didSucceed := base_didSucceed; didFail := base_didFail |}.

(** The units of a new task, in the order of its set. *)
Definition add_units (c : t) (units : gset Z) (id : Z) : t :=
  fold_left (λ c u, addUnit c u id) (elements units) c.

(** The status and the units of the task; the object's class data is [d].

    [src/src/controller.cpp:88-99] ControllerTask::ControllerTask *)
Definition ControllerTask (upcId : Z) (units : gset Z) (d : Z) (c : t) : Task.t * t :=
  (Task.setStatus Ongoing (Task.make upcId units d), setUpcId (add_units c units upcId) upcId).

(** [src/src/controller.cpp:154-164] SharedControllerTask::SharedControllerTask *)
Definition SharedControllerTask (upcId : Z) (units : gset Z) (d : Z) (c : t) : Task.t * t :=
  (Task.setStatus Ongoing (Task.make upcId units d), add_units c units upcId).

Section tasks.
Context `{Virtual}.
Context (units : gmap Z Unit).

(** [if (controller_->isControllingUnitWith(unit, upcId())) controller_->removeUnit(...)]

    [src/src/controller.cpp:117-119] ControllerTask::update *)
Definition drop (c : t) (unit id : Z) : t :=
  if isControllingUnitWith c unit id then removeUnit c unit id else c.

(** [src/src/controller.cpp:107-124] ControllerTask::update *)
Definition release (b : BoardTasks.t) (r : Task.ref) (tk : Task.t) (c : t) : res (gset Z * t) :=
  rfold (λ '(us, c) u,
    let? owner := BoardTasks.taskWithUnit b u in
    let? remove := if decide (owner = Some r)
                   then let? v := of_option (units !! u) in Ok (negb (keepUnit v))
                   else Ok true in
    if (remove : bool) then Ok (us ∖ {[u]}, drop c u (Task.upcId tk)) else Ok (us, c))
    (elements (Task.units tk)) (Task.units tk, c).

(** [src/src/controller.cpp:101-135] ControllerTask::update *)
Definition update (b : BoardTasks.t) (r : Task.ref) (tk : Task.t) (c : t) : res (Task.t * t) :=
  if decide (Task.status tk = Ongoing) then
    let? x := release b r tk c in
    let '(us, c) := x in
    let tk := Task.set_units us tk in
    Ok (if didSucceed c then Task.setStatus Success tk
        else if didFail c then Task.setStatus Failure tk else tk, c)
  else Ok (tk, c).

(** [src/src/controller.cpp:166-193] SharedControllerTask::update *)
Definition shared_update (b : BoardTasks.t) (r : Task.ref) (tk : Task.t) (c : t) : res (Task.t * t) :=
  if decide (Task.status tk = Ongoing) then
    let? x := release b r tk c in
    let '(us, c) := x in
    let tk := Task.set_units us tk in
    Ok (if decide (us = ∅) then Task.setStatus Failure tk else tk, c)
  else Ok (tk, c).
End tasks.

(** [src/src/controller.cpp:137-150] ControllerTask::cancel *)
Definition cancel (tk : Task.t) (c : t) : Task.t * t :=
  if decide (Task.status tk = Ongoing) then
    (Task.setStatus Cancelled (Task.set_units ∅ tk),
     fold_left (λ c u, drop c u (Task.upcId tk)) (elements (Task.units tk)) c)
  else (tk, c).

(** [src/src/controller.cpp:195-207] SharedControllerTask::cancel *)
Definition shared_cancel (tk : Task.t) (c : t) : Task.t * t :=
  if decide (Task.status tk = Ongoing) then
    (Task.setStatus Cancelled (Task.set_units ∅ tk),
     fold_left (λ c u, drop c u (Task.upcId tk)) (elements (Task.units tk)) c)
  else (tk, c).

(** Seen from the tasks, both are what [Task.cancel] makes of such a task. *)
Lemma cancel_effect `{Task.Classes} tk c d : Task.cls tk = Task.KTask d →
  Task.class_of d = Task.CControllerTask ∨ Task.class_of d = Task.CSharedControllerTask →
  (cancel tk c).1 = Task.effect tk ∧ (shared_cancel tk c).1 = Task.effect tk.
Proof.
  intros Hk Hd. assert (Task.with_controller tk = true ∧ Task.gives_up tk = true ∧ Task.forwards tk = false) as (E1 & E2 & E3).
  { unfold Task.with_controller, Task.gives_up, Task.forwards. rewrite Hk. by destruct Hd as [-> | ->]. }
  unfold cancel, shared_cancel, Task.effect. rewrite E1, E2, E3, Hk. cbn [andb].
  destruct tk as [s i us k]; cbn in *; subst k. case_decide; case_bool_decide; try done.
Qed.

(** *** Removing units *)

(** What a controller knows of a unit: its UPC, and the tuple collected. *)
Definition about (c : t) (u : Z) : option Z * option (Z * Upc.t) := (units_ c !! u, al_find u (upcs_ c)).

Lemma drop_about c u id u' :
  about (drop c u id) u' = if decide (u' = u ∧ units_ c !! u = Some id) then (None, None) else about c u'.
Proof.
  unfold drop, removeUnit, isControllingUnitWith, about. destruct (units_ c !! u) as [id'|] eqn:E.
  - destruct (Z.eqb_spec id' id) as [->|].
    + simpl. rewrite lookup_delete, al_find_erase. repeat case_decide; naive_solver.
    + rewrite decide_False; [done|]. naive_solver.
  - rewrite decide_False; [done|]. naive_solver.
Qed.

Lemma drops_about us c id u :
  about (fold_left (λ c u, drop c u id) us c) u =
  if decide (u ∈ us ∧ units_ c !! u = Some id) then (None, None) else about c u.
Proof.
  revert c. induction us as [|u0 us IH]; intros c; cbn [fold_left].
  - rewrite decide_False; [done|]. by intros [?%not_elem_of_nil _].
  - rewrite IH, drop_about. pose proof (drop_about c u0 id u) as Hd. unfold about in Hd at 1.
    destruct (decide (u = u0 ∧ units_ c !! u0 = Some id)) as [[-> E]|Hn].
    + injection Hd as Hd _. rewrite Hd. repeat case_decide; try done; set_solver.
    + injection Hd as -> _. repeat case_decide; set_solver.
Qed.

Lemma add_units_lookup us c id u :
  units_ (add_units c us id) !! u = if decide (u ∈ us) then Some id else units_ c !! u.
Proof.
  unfold add_units. transitivity (if decide (u ∈ elements us) then Some id else units_ c !! u);
    [|by repeat case_decide; set_solver].
  generalize (elements us). intros l. revert c. induction l as [|u0 l IH]; intros c; cbn [fold_left]; [done|].
  rewrite IH. simpl. rewrite lookup_insert. repeat case_decide; set_solver.
Qed.

Lemma add_units_upcs us c id : upcs_ (add_units c us id) = upcs_ c ∧ module_ (add_units c us id) = module_ c.
Proof. unfold add_units. revert c. induction (elements us) as [|u l IH]; intros c; [done|]. cbn [fold_left]. by rewrite !(proj1 (IH _)), !(proj2 (IH _)). Qed.

(** *** Releasing units *)

Section tasks.
Context `{Virtual}.
Context (units : gmap Z Unit) (h : Task.heap) (b : BoardTasks.t).
Context (Hwf : BoardTasks.wf h b).

(** The task [r] keeps the unit: the board assigns it to the task, and the
    controller wants to keep it. *)
Definition keeps (r : Task.ref) (u : Z) : Prop :=
  BoardTasks.taskWithUnit b u = Ok (Some r) ∧ ∃ v, units !! u = Some v ∧ keepUnit v = true.

#[global] Instance keeps_dec r u : Decision (keeps r u).
Proof.
  unfold keeps. destruct (BoardTasks.taskWithUnit b u) as [[r'|]| | |];
    try (right; intros [? _]; discriminate).
  destruct (decide (r' = r)) as [->|]; [|right; intros [? _]; congruence].
  destruct (units !! u) as [v|]; [|right; intros (_ & ? & ? & _); discriminate].
  destruct (keepUnit v) eqn:E; [left; eauto|right; intros (_ & ? & ? & ?); congruence].
Defined.

Lemma taskWithUnit_total u : ∃ o, BoardTasks.taskWithUnit b u = Ok o.
Proof using Hwf.
  unfold BoardTasks.taskWithUnit, BoardTasks.deref. destruct (BoardTasks.tasksByUnit_ b !! u) eqn:E; [|eauto].
  apply (BoardTasks.wf_byUnit _ _ Hwf) in E. apply BoardTasks.al_elem_find in E as [td ->]. simpl. eauto.
Qed.

(** The loop over the units of a task keeps what the task keeps, and takes the
    others away from the controller where it controls them for this task. *)
Lemma release_spec r tk c : (∀ u, u ∈ Task.units tk → is_Some (units !! u)) →
  ∃ us c', release units b r tk c = Ok (us, c') ∧ (∀ u, u ∈ us ↔ u ∈ Task.units tk ∧ keeps r u) ∧
    module_ c' = module_ c ∧
    ∀ u, about c' u = if decide (u ∈ Task.units tk ∧ ¬ keeps r u ∧ units_ c !! u = Some (Task.upcId tk))
                      then (None, None) else about c u.
Proof using Hwf.
  intros Hk. unfold release. set (id := Task.upcId tk).
  assert (∀ l (us0 : gset Z) c0, (∀ u, u ∈ l → is_Some (units !! u)) →
    ∃ (us : gset Z) c', rfold (λ '(us, c) u,
        let? owner := BoardTasks.taskWithUnit b u in
        let? remove := if decide (owner = Some r)
                       then let? v := of_option (units !! u) in Ok (negb (keepUnit v)) else Ok true in
        if (remove : bool) then Ok (us ∖ {[u]}, drop c u id) else Ok (us, c)) l (us0, c0) = Ok (us, c') ∧
      us = us0 ∖ list_to_set (filter (λ u, ¬ keeps r u) l) ∧
      c' = fold_left (λ c u, drop c u id) (filter (λ u, ¬ keeps r u) l) c0) as Hl.
  { induction l as [|u l IH]; intros us0 c0 Hu; cbn [rfold].
    { exists us0, c0. split_and!; [done|set_solver|done]. }
    destruct (taskWithUnit_total u) as [o Ho]. rewrite Ho. cbn [rbind].
    destruct (Hu u) as [v Hv]; [by left|]. rewrite Hv, filter_cons.
    assert (keeps r u ↔ o = Some r ∧ keepUnit v = true) as Hiff.
    { unfold keeps. rewrite Ho. split; [intros ([= ->] & v' & E' & ?); split; congruence|intros [-> ?]; eauto]. }
    destruct (decide (o = Some r)) as [->|Hn]; cbn [rbind of_option];
      [destruct (keepUnit v) eqn:Ek; cbn [negb rbind]|].
    - rewrite decide_False by (intros Hx; by apply Hx, Hiff). apply IH. set_solver.
    - rewrite decide_True by (intros Hx%Hiff; destruct Hx; congruence). cbn [fold_left].
      destruct (IH (us0 ∖ {[u]}) (drop c0 u id)) as (us & c' & -> & -> & ->); [set_solver|].
      do 2 eexists. split_and!; [done|set_solver|done].
    - rewrite decide_True by (intros Hx%Hiff; destruct Hx; congruence). cbn [fold_left].
      destruct (IH (us0 ∖ {[u]}) (drop c0 u id)) as (us & c' & -> & -> & ->); [set_solver|].
      do 2 eexists. split_and!; [done|set_solver|done]. }
  destruct (Hl (elements (Task.units tk)) (Task.units tk) c) as (us & c' & -> & -> & ->); [set_solver|].
  do 2 eexists. split; [done|]. split_and!.
  - intros u. rewrite elem_of_difference, elem_of_list_to_set, list_elem_of_filter, elem_of_elements.
    destruct (decide (keeps r u)); tauto.
  - generalize (filter (λ u, ¬ keeps r u) (elements (Task.units tk))). intros l. revert c.
    induction l as [|u l IH]; intros c; [done|]. cbn [fold_left]. rewrite IH. unfold drop, removeUnit.
    by repeat case_match.
  - intros u. rewrite drops_about. apply decide_ext. rewrite list_elem_of_filter, elem_of_elements. tauto.
Qed.
End tasks.

End Controllers.
