(* ===== verification/ControllerTasks.v ===== *)
(** * Controllers and their tasks: theorems

    A controller and the tasks it works for agree on the units they control
    through every history of calls, and what a controller schedules for its
    units becomes the commands of the frame. *)

From S2P Require Import Prelude Floats Geometry CircularBuffer BuildTypes Units Upc UpcStorage.
From S2P Require Import UpcFilter Tasks BoardTasks Blackboard BlackboardUpcs UpcToCommand UpcCommands.
From S2P Require Import Controllers.

Module ControllerTasks.
Import Controllers.

(** ** One task and its controller *)

(** The controller controls exactly the units of the task, by the task's UPC,
    and has collected UPCs for such units only. *)
Record agree (tk : Task.t) (c : t) : Prop := {
  agree_units u : units_ c !! u = if decide (u ∈ Task.units tk) then Some (Task.upcId tk) else None;
  agree_upcs u x : al_find u (upcs_ c) = Some x → u ∈ Task.units tk ∧ x.1 = Task.upcId tk
}.

Lemma agree_new id us d m : let '(tk, c) := ControllerTask id us d (make m) in agree tk c.
Proof.
  unfold ControllerTask. split; simpl.
  - intros u. rewrite add_units_lookup. simpl. by rewrite lookup_empty.
  - intros u x. by rewrite (proj1 (add_units_upcs us (make m) id)).
Qed.

Lemma agree_addUpc tk c u upc : agree tk c → agree tk (addUpc c u upc).
Proof.
  intros [H1 H2]. unfold addUpc. rewrite H1. case_decide; [|done]. case_match; [done|].
  destruct (al_find u (upcs_ c)) eqn:E; [done|]. split; [done|]. intros u' x. simpl.
  rewrite BoardTasks.al_find_snoc. destruct (al_find u' (upcs_ c)) eqn:E'; [intros [= <-]; by apply H2|].
  case_decide; [|done]. subst. by intros [= <-].
Qed.

Lemma agree_post tk c b frame c' b' : agree tk c → postUpcs c b frame = Ok (c', b') → agree tk c'.
Proof. intros [H1 H2] (b1 & _ & E)%rbind_Ok_inv. injection E as <- _. by split. Qed.

(** Taking the units [l] away from the task and from the controller. *)
Lemma agree_drop tk c us' c' : agree tk c → us' ⊆ Task.units tk →
  (∀ u, about c' u = if decide (u ∈ Task.units tk ∧ (u ∉ us') ∧ units_ c !! u = Some (Task.upcId tk))
                     then (None, None) else about c u) →
  ∀ s, agree (Task.setStatus s (Task.set_units us' tk)) c'.
Proof.
  intros [H1 H2] Hsub Ha s.
  assert (∀ u, about c' u = if decide (u ∈ us') then about c u else (None, None)) as Hb.
  { intros u. rewrite Ha, H1. destruct (decide (u ∈ us')) as [Hin|Hin].
    - rewrite decide_False by tauto. done.
    - destruct (decide (u ∈ Task.units tk)) as [Ht|Ht].
      + rewrite decide_True by done. done.
      + rewrite decide_False by tauto. unfold about. rewrite H1, decide_False by done.
        destruct (al_find u (upcs_ c)) eqn:E; [|done]. by apply H2 in E as [? _]. }
  split; intros u; specialize (Hb u); unfold about in Hb; simpl.
  - rewrite H1 in Hb. destruct (decide (u ∈ us')) as [Hin|Hin]; injection Hb as -> _; [|done].
    by rewrite decide_True by by apply Hsub.
  - intros x Hx. rewrite Hx in Hb. destruct (decide (u ∈ us')) as [Hin|Hin]; [|done]. injection Hb as _ Hb.
    symmetry in Hb. apply H2 in Hb as [_ ?]. done.
Qed.

Section one.
Context `{Virtual}.

Lemma update_eq units h b r tk c : BoardTasks.wf h b → (∀ u, u ∈ Task.units tk → is_Some (units !! u)) →
  Task.status tk = Ongoing →
  ∃ us c', update units b r tk c =
      Ok (if didSucceed c' then Task.setStatus Success (Task.set_units us tk)
          else if didFail c' then Task.setStatus Failure (Task.set_units us tk) else Task.set_units us tk, c') ∧
    (∀ u, u ∈ us ↔ u ∈ Task.units tk ∧ keeps units b r u) ∧ module_ c' = module_ c ∧
    (agree tk c → ∀ s, agree (Task.setStatus s (Task.set_units us tk)) c') ∧
    (∀ u, u ∈ us → al_find u (upcs_ c') = al_find u (upcs_ c)).
Proof.
  intros Hwf Hu Hs. unfold update. rewrite decide_True by done.
  destruct (release_spec units h b Hwf r tk c Hu) as (us & c' & -> & Hus & Hm & Ha). cbn [rbind].
  exists us, c'. split_and!; try done.
  - intros Hag. eapply agree_drop; [exact Hag|set_solver|]. intros u. rewrite Ha. apply decide_ext.
    rewrite Hus. destruct (decide (keeps units b r u)); tauto.
  - intros u Hin%Hus. specialize (Ha u). rewrite decide_False in Ha by tauto. unfold about in Ha. congruence.
Qed.

(** What can happen to a task and its controller: the controller collects or
    posts a UPC, the board updates or cancels the task. *)
Inductive step : Task.t * t → Task.t * t → Prop :=
| step_collect tk c u upc : step (tk, c) (tk, addUpc c u upc)
| step_post tk c b frame c' b' : postUpcs c b frame = Ok (c', b') → step (tk, c) (tk, c')
| step_update units h b r tk c tk' c' : BoardTasks.wf h b → (∀ u, u ∈ Task.units tk → is_Some (units !! u)) →
    update units b r tk c = Ok (tk', c') → step (tk, c) (tk', c')
| step_cancel tk c : step (tk, c) (cancel tk c).

Lemma agree_cancel tk c : agree tk c → agree (cancel tk c).1 (cancel tk c).2.
Proof.
  intros Hag. unfold cancel. case_decide; [|done]. cbn [fst snd]. eapply agree_drop; [exact Hag|set_solver|]. intros u.
  rewrite drops_about. apply decide_ext. rewrite elem_of_elements. set_solver.
Qed.

Lemma agree_step s s' : step s s' → agree s.1 s.2 → agree s'.1 s'.2.
Proof.
  destruct 1 as [|? ? ? ? ? ? Hp|? ? ? ? tk c tk' c' Hwf Hu Hup|]; simpl; intros Hag.
  - by apply agree_addUpc.
  - by eapply agree_post.
  - destruct (decide (Task.status tk = Ongoing)) as [Hs|Hs].
    + destruct (update_eq units h b r tk c Hwf Hu Hs) as (us & c1 & E & _ & _ & Ha & _).
      rewrite E in Hup. injection Hup as <- <-. specialize (Ha Hag).
      repeat case_match; [apply Ha..|]. specialize (Ha (Task.status tk)). destruct tk. exact Ha.
    + unfold update in Hup. rewrite decide_False in Hup by done. by injection Hup as <- <-.
  - by apply agree_cancel.
Qed.

(** Through every history of a [ControllerTask] (any collected and posted
    UPCs, any updates against any board, cancellation), the task and its
    controller agree: the controller controls exactly the task's units, under
    the task's UPC, and never holds a UPC for another unit or source. *)
Theorem controller_agrees id us d m tk c :
  rtc step (ControllerTask id us d (make m)) (tk, c) → agree tk c.
Proof.
  intros Hr. assert (agree (ControllerTask id us d (make m)).1 (ControllerTask id us d (make m)).2) as H0
    by apply (agree_new id us d m).
  change (agree (tk, c).1 (tk, c).2). remember (ControllerTask id us d (make m)) as s0 eqn:E. clear E.
  induction Hr; [done|]. by eapply IHHr, agree_step.
Qed.
End one.

(** One update of a [ControllerTask] with the base class's policy: it
    returns; the task keeps exactly the units the board assigns to it that are
    alive and mine; the UPCs collected for them stay collected; and the task
    fails exactly when no unit is left. *)
Theorem controller_task_update units h b r tk c : BoardTasks.wf h b → agree tk c →
  (∀ u, u ∈ Task.units tk → is_Some (units !! u)) → Task.status tk = Ongoing →
  ∃ tk' c', update (H := base_class) units b r tk c = Ok (tk', c') ∧ agree tk' c' ∧
    (∀ u, u ∈ Task.units tk' ↔ u ∈ Task.units tk ∧ BoardTasks.taskWithUnit b u = Ok (Some r) ∧
       ∃ v, units !! u = Some v ∧ Unit.dead v = false ∧ Unit.isMine v = true) ∧
    (∀ u, u ∈ Task.units tk' → al_find u (upcs_ c') = al_find u (upcs_ c)) ∧
    Task.status tk' = if decide (Task.units tk' = ∅) then Failure else Ongoing.
Proof.
  intros Hwf Hag Hu Hs.
  destruct (update_eq (H := base_class) units h b r tk c Hwf Hu Hs) as (us & c' & -> & Hus & _ & Ha & Hc).
  specialize (Ha Hag). cbn [base_class didSucceed didFail base_didSucceed].
  assert (units_ c' = ∅ ↔ us = ∅) as Hempty.
  { pose proof (agree_units _ _ (Ha Ongoing)) as E. simpl in E. split; intros E0.
    - apply set_eq. intros u. specialize (E u). rewrite E0, lookup_empty in E. case_decide; [done|set_solver].
    - apply map_empty. intros u. rewrite E, decide_False by set_solver. done. }
  assert (∀ v, base_keepUnit v = true ↔ Unit.dead v = false ∧ Unit.isMine v = true) as Hk.
  { intros v. unfold base_keepUnit. destruct (Unit.dead v), (Unit.isMine v); simpl; naive_solver. }
  do 2 eexists. split; [reflexivity|]. unfold base_didFail. case_bool_decide as E; simpl.
  - rewrite decide_True by by apply Hempty. split_and!; try done.
    intros u. rewrite Hus. unfold keeps. by setoid_rewrite Hk.
  - rewrite decide_False by by rewrite <-Hempty. split_and!; try done.
    + specialize (Ha Ongoing). destruct tk. simpl in *. by subst.
    + intros u. rewrite Hus. unfold keeps. by setoid_rewrite Hk.
Qed.

(** ** Several tasks and their shared controller *)

Section shared.
Context `{Virtual}.

(** The tasks of one shared controller, the controller, and to which task the
    board assigns each unit. *)
Record group := Group { members : gmap Z Task.t; ctl : t; own : Z → option Z }.

(** What can happen to it: a new task takes units over, the board takes units
    away from tasks (they died or went to other modules), or it updates or
    cancels a task. *)
Inductive gstep : group → group → Prop :=
| gstep_new g r id us d tk c : members g !! r = None →
    (∀ r' tk', members g !! r' = Some tk' → Task.upcId tk' ≠ id) →
    SharedControllerTask id us d (ctl g) = (tk, c) →
    gstep g (Group (<[r := tk]> (members g)) c (λ u, if decide (u ∈ us) then Some r else own g u))
| gstep_lose g own' : (∀ u r, own' u = Some r → is_Some (members g !! r) → own g u = Some r) →
    gstep g (Group (members g) (ctl g) own')
| gstep_collect g u upc : gstep g (Group (members g) (addUpc (ctl g) u upc) (own g))
| gstep_post g b frame c' b' : postUpcs (ctl g) b frame = Ok (c', b') → gstep g (Group (members g) c' (own g))
| gstep_update g units h b r tk tk' c' : members g !! r = Some tk → BoardTasks.wf h b →
    (∀ u, BoardTasks.taskWithUnit b u = Ok (own g u)) → (∀ u, u ∈ Task.units tk → is_Some (units !! u)) →
    shared_update units b r tk (ctl g) = Ok (tk', c') → gstep g (Group (<[r := tk']> (members g)) c' (own g))
| gstep_cancel g r tk tk' c' : members g !! r = Some tk → shared_cancel tk (ctl g) = (tk', c') →
    gstep g (Group (<[r := tk']> (members g)) c' (own g)).

Definition no_tasks (m : ModulePtr) (o : Z → option Z) : group := Group ∅ (make m) o.

(** A controlled unit is held by the task whose UPC controls it, and a task
    that holds a unit the board assigns to it controls it. *)
Record shared_inv (g : group) : Prop := {
  inv_held u id : units_ (ctl g) !! u = Some id →
    ∃ r tk, members g !! r = Some tk ∧ Task.upcId tk = id ∧ u ∈ Task.units tk;
  inv_owned u r tk : members g !! r = Some tk → own g u = Some r → u ∈ Task.units tk →
    units_ (ctl g) !! u = Some (Task.upcId tk);
  inv_ids r1 r2 tk1 tk2 : members g !! r1 = Some tk1 → members g !! r2 = Some tk2 →
    Task.upcId tk1 = Task.upcId tk2 → r1 = r2
}.

(** A task gave up the units outside of [us']. *)
Lemma shared_inv_drop g r tk us' st c' : shared_inv g → members g !! r = Some tk → us' ⊆ Task.units tk →
  (∀ u, units_ c' !! u = if decide (u ∈ Task.units tk ∧ (u ∉ us') ∧ units_ (ctl g) !! u = Some (Task.upcId tk))
                         then None else units_ (ctl g) !! u) →
  shared_inv (Group (<[r := Task.setStatus st (Task.set_units us' tk)]> (members g)) c' (own g)).
Proof.
  intros [H1 H2 H3] Hr Hsub Hc. split; simpl.
  - intros u id. rewrite Hc. case_decide as Hd; [done|]. intros E. destruct (H1 u id E) as (r1 & tk1 & Hr1 & Hid & Hu).
    destruct (decide (r1 = r)) as [->|Hne].
    + rewrite Hr in Hr1. injection Hr1 as <-. exists r, (Task.setStatus st (Task.set_units us' tk)).
      rewrite lookup_insert_eq. split_and!; try done. simpl. destruct (decide (u ∈ us')); [done|].
      destruct Hd. by rewrite E, Hid.
    + exists r1, tk1. by rewrite lookup_insert_ne.
  - intros u r1 tk1. rewrite lookup_insert. case_decide as Hd.
    + subst r1. intros [= <-] Ho Hu. simpl in *. rewrite Hc, decide_False by tauto. eapply H2; [done..|]. by apply Hsub.
    + intros Hr1 Ho Hu. pose proof (H2 _ _ _ Hr1 Ho Hu) as E. rewrite Hc, decide_False; [done|].
      intros (_ & _ & E'). rewrite E in E'. injection E' as E'. by apply Hd; eapply H3.
  - intros r1 r2 tk1 tk2. rewrite !lookup_insert.
    case_decide; case_decide; subst; try done; intros E1 E2; simplify_eq; simpl.
    + intros. by eapply H3.
    + intros. by eapply H3.
    + by apply H3.
Qed.

Lemma set_same_status tk us : Task.set_units us tk = Task.setStatus (Task.status tk) (Task.set_units us tk).
Proof. by destruct tk. Qed.

Lemma addUpc_units c u upc : units_ (addUpc c u upc) = units_ c.
Proof. unfold addUpc. by repeat case_match. Qed.

Lemma shared_step_inv g g' : gstep g g' → shared_inv g → shared_inv g'.
Proof.
  destruct 1 as [g r id us d tk c Hr Hid E|g own' Ho|g u upc|g b frame c' b' Hp
                |g units h b r tk tk' c' Hr Hwf Hown Hk Hup|g r tk tk' c' Hr Hc]; intros Hinv.
  - destruct Hinv as [H1 H2 H3]. injection E as <- <-. split; simpl.
    + intros u id'. rewrite add_units_lookup. case_decide as Hu.
      * intros [= <-]. exists r. eexists. rewrite lookup_insert_eq. done.
      * intros (r1 & tk1 & Hr1 & ?)%H1. exists r1, tk1. rewrite lookup_insert_ne; [done|]. congruence.
    + intros u r1 tk1. rewrite lookup_insert, add_units_lookup. repeat case_decide; subst; try done.
      * intros [= <-]. done.
      * intros [= <-]. done.
      * intros _ [= ?]. congruence.
      * by apply H2.
    + intros r1 r2 tk1 tk2. rewrite !lookup_insert. repeat case_decide; subst; try done.
      * intros [= <-] E2 Heq. by apply Hid in E2.
      * intros E1 [= <-] Heq. by apply Hid in E1.
      * by apply H3.
  - destruct Hinv as [H1 H2 H3]. split; simpl; try done. intros u r tk Hr Ho'.
    apply (H2 u r tk Hr), Ho; eauto.
  - destruct Hinv as [H1 H2 H3]. split; simpl; rewrite ?addUpc_units; done.
  - apply rbind_Ok_inv in Hp as (b1 & _ & E). injection E as <- _. by destruct Hinv.
  - unfold shared_update in Hup. destruct (decide (Task.status tk = Ongoing)) as [Hs|Hs].
    2:{ injection Hup as <- <-. rewrite insert_id by done. by destruct g. }
    destruct (release_spec units h b Hwf r tk (ctl g) Hk) as (us & c1 & E & Hus & _ & Ha).
    rewrite E in Hup. cbn [rbind] in Hup. injection Hup as <- <-.
    assert (∀ st, shared_inv (Group (<[r := Task.setStatus st (Task.set_units us tk)]> (members g)) c1 (own g))) as HI.
    { intros st. apply shared_inv_drop; [done|done|set_solver|]. intros u. specialize (Ha u).
      unfold Controllers.about in Ha. pose proof (Hus u).
      destruct (decide (u ∈ Task.units tk ∧ ¬ keeps units b r u ∧ units_ (ctl g) !! u = Some (Task.upcId tk)));
        injection Ha as -> _; [rewrite decide_True by tauto|rewrite decide_False by tauto]; done. }
    destruct (decide (us = ∅)); [apply HI|]. rewrite set_same_status. apply HI.
  - unfold shared_cancel in Hc. destruct (decide (Task.status tk = Ongoing)) as [Hs|Hs].
    2:{ injection Hc as <- <-. rewrite insert_id by done. by destruct g. }
    injection Hc as <- <-. apply shared_inv_drop; [done|done|set_solver|]. intros u.
    pose proof (drops_about (elements (Task.units tk)) (ctl g) (Task.upcId tk) u) as Ha. unfold Controllers.about in Ha.
    pose proof (elem_of_elements (Task.units tk) u).
    destruct (decide (u ∈ elements (Task.units tk) ∧ units_ (ctl g) !! u = Some (Task.upcId tk)));
      injection Ha as -> _; [rewrite decide_True by set_solver|rewrite decide_False by tauto]; done.
Qed.

(** C24 Through every history of a shared controller and its tasks: every unit
    it controls is held by the task whose UPC it is controlled by, and a task
    that holds a unit the board assigns to it controls the unit, also when it
    took the unit over from another task of the same controller.  So once the
    tasks hold only units assigned to them (as after their updates), the
    controller controls exactly the units of its tasks, each by its task. *)
Theorem shared_controller_consistent m o g : rtc gstep (no_tasks m o) g →
  (∀ u id, units_ (ctl g) !! u = Some id →
     ∃ r tk, members g !! r = Some tk ∧ Task.upcId tk = id ∧ u ∈ Task.units tk) ∧
  (∀ u r tk, members g !! r = Some tk → own g u = Some r → u ∈ Task.units tk →
     units_ (ctl g) !! u = Some (Task.upcId tk)) ∧
  ((∀ u r tk, members g !! r = Some tk → u ∈ Task.units tk → own g u = Some r) →
   ∀ u id, units_ (ctl g) !! u = Some id ↔
     ∃ r tk, members g !! r = Some tk ∧ Task.upcId tk = id ∧ u ∈ Task.units tk).
Proof.
  intros Hr. assert (shared_inv g) as [H1 H2 H3].
  { assert (shared_inv (no_tasks m o)) as H0.
    { split; simpl; intros *; rewrite lookup_empty; done. }
    remember (no_tasks m o) as g0 eqn:E. clear E. induction Hr; [done|]. by eapply IHHr, shared_step_inv. }
  split; [exact H1|]. split; [exact H2|]. intros Hset u id. split; [apply H1|]. intros (r & tk & Hr' & <- & Hu). by eapply H2; [done|eapply Hset|].
Qed.
End shared.

(** ** From a controller's UPCs to commands *)

Import BlackboardUpcs UpcToCommand UpcCommands.

Section executed.
Context `{Codes, BuildType.Table}.
Context (units : gmap Z Unit).

Lemma sharp_sane u i a : sharp units u i a → SanityFilter.sane u.
Proof. destruct 1; split_and!; repeat constructor; try reflexivity; try discriminate. Qed.

Lemma sharp_unit u i a : sharp units u i a → Upc.unit u = [(Some i, f32_1)].
Proof. by destruct 1. Qed.

Lemma sharp_usable u i a : filed units → sharp units u i a → known units (Some i) → usable units u.
Proof.
  intros Hf Hs Hi. split.
  - apply (sharp_sane _ _ _ Hs).
  - intros k p. rewrite (sharp_unit _ _ _ Hs). by intros [= -> ->]%list_elem_of_singleton.
  - intros m k p Ep Hin. destruct Hs; try discriminate; injection Ep as <-;
      apply list_elem_of_singleton in Hin as [= -> ->]; try done. by exists j, v.
  - destruct Hs; try (eexists; by apply argmax_pos); try (eexists; reflexivity);
      match goal with |- ∃ r, Upc.positionArgMax _ ?u = _ =>
        destruct (argmax_unit units Hf u j) as (? & _ & _ & _ & _ & ->); [done| |by eexists] end; try done.
    by exists j, v.
Qed.

(** The unit belongs to a task of the module, or to none. *)
Definition free_for (b : Blackboard.t) (org : ModulePtr) (i : Z) : Prop :=
  ∃ r o, Blackboard.task_of_unit b (Some i) = Ok (r, o) ∧ (r = None ∨ o = org).

(** The two filters of a [State]'s board let a module's sharp UPC for a unit
    of its own tasks through as it is. *)
Lemma sharp_passes b p1 p2 u i a org : sharp units u i a → Blackboard.upcFilters_ b = [Blackboard.FAssignedUnits p1; Blackboard.FSanity p2] →
  free_for b org i →
  Blackboard.run_filters b (Blackboard.upcFilters_ b) u org = Ok (true, u).
Proof.
  intros Hs -> (r & o & Ht & Hro). cbn [Blackboard.run_filters Blackboard.run_filter].
  assert (AssignedUnitsFilter.filter (Blackboard.task_of_unit b) u org = Ok (true, u)) as ->.
  { unfold AssignedUnitsFilter.filter. destruct (feqb _ _); [|done]. rewrite (sharp_unit _ _ _ Hs).
    unfold AssignedUnitsFilter.filter_loop. cbn [rfold fst snd]. change (fleb f32_1 f32_0) with false.
    rewrite Ht. cbn [rbind fst snd].
    assert (bool_decide (r = None) || bool_decide (o = org) = true) as ->
      by (apply orb_true_iff; rewrite !bool_decide_eq_true; exact Hro).
    cbn [rbind]. rewrite <-(sharp_unit _ _ _ Hs). by destruct u. }
  cbn [rbind]. rewrite (SanityFilter.filter_sane_id u (sharp_sane _ _ _ Hs)). done.
Qed.

Lemma postUPC_accept b frame u src org : wf b → src ≤ UpcStorage.size (Blackboard.upcStorage_ b) →
  Blackboard.run_filters b (Blackboard.upcFilters_ b) u org = Ok (true, u) →
  let id := UpcStorage.size (Blackboard.upcStorage_ b) + 1 in
  ∃ b', Blackboard.postUPC b frame u src org None = Ok (b', id) ∧ wf b' ∧
    UpcStorage.size (Blackboard.upcStorage_ b') = id ∧
    UpcStorage.sourceId (Blackboard.upcStorage_ b') id = src ∧
    (∀ i, i < id → UpcStorage.sourceId (Blackboard.upcStorage_ b') i = UpcStorage.sourceId (Blackboard.upcStorage_ b) i) ∧
    (∀ i, Blackboard.upcWithId b' i = if decide (i = id) then Some u else Blackboard.upcWithId b i) ∧
    Blackboard.tasks b' = Blackboard.tasks b ∧ Blackboard.upcFilters_ b' = Blackboard.upcFilters_ b ∧
    Blackboard.commands_ b' = Blackboard.commands_ b.
Proof.
  intros Hwf Hsrc Hr id. unfold Blackboard.postUPC. rewrite Hr. cbn [rbind].
  pose proof (postUPC_wf b frame u src org None Hwf Hsrc) as Hwf'.
  pose proof (UpcStorage.addUpc_lookup_source (Blackboard.upcStorage_ b) frame src org (Some u) None) as Hnew.
  pose proof (UpcStorage.size_addUpc (Blackboard.upcStorage_ b) frame src org (Some u) None) as Hsz.
  pose proof (λ i, UpcStorage.sourceId_addUpc (Blackboard.upcStorage_ b) frame src org (Some u) None i) as Hold.
  destruct (UpcStorage.addUpc _ _ _ _ _ _) as [st id'] eqn:E. simpl in Hnew, Hsz, Hold.
  assert (id' = id) as -> by (unfold UpcStorage.addUpc in E; subst id; congruence).
  eexists. split; [done|]. split; [done|]. simpl. split_and!; try done.
  - intros i Hi. apply Hold. subst id. lia.
  - intros i. unfold Blackboard.upcWithId. simpl. rewrite al_find_smap_set. by case_decide.
Qed.

(** Posting what a controller collected. *)
Lemma post_collected org frame p1 p2 l : ∀ b, wf b → Blackboard.upcFilters_ b = [Blackboard.FAssignedUnits p1; Blackboard.FSanity p2] →
  (∀ u src upc, (u, (src, upc)) ∈ l → src ≤ UpcStorage.size (Blackboard.upcStorage_ b) ∧
     (∃ a, sharp units upc u a) ∧ free_for b org u) →
  ∃ b', rfold (λ b it, let? r := Blackboard.postUPC b frame it.2.2 it.2.1 org None in Ok r.1) l b = Ok b' ∧ wf b' ∧
    UpcStorage.size (Blackboard.upcStorage_ b') = UpcStorage.size (Blackboard.upcStorage_ b) + Z.of_nat (length l) ∧
    Blackboard.tasks b' = Blackboard.tasks b ∧ Blackboard.commands_ b' = Blackboard.commands_ b ∧
    (∀ i, i ≤ UpcStorage.size (Blackboard.upcStorage_ b) →
       UpcStorage.sourceId (Blackboard.upcStorage_ b') i = UpcStorage.sourceId (Blackboard.upcStorage_ b) i) ∧
    (∀ i u, Blackboard.upcWithId b i = Some u → Blackboard.upcWithId b' i = Some u) ∧
    (∀ i u, Blackboard.upcWithId b' i = Some u →
       Blackboard.upcWithId b i = Some u ∨ ∃ v src, (v, (src, u)) ∈ l) ∧
    (∀ u src upc, (u, (src, upc)) ∈ l → ∃ i, Blackboard.upcWithId b' i = Some upc ∧
       UpcStorage.sourceId (Blackboard.upcStorage_ b') i = src).
Proof.
  induction l as [|[u [src upc]] l IH]; intros b Hwf Hfil Hl; cbn [rfold].
  { exists b. split_and!; try done; [simpl; lia|auto|]. by intros ? ? ? ?%not_elem_of_nil. }
  destruct (Hl u src upc) as (Hsrc & [a Hs] & Ht); [by left|]. cbn [fst snd].
  destruct (postUPC_accept b frame upc src org Hwf Hsrc) as (b1 & -> & Hwf1 & Hsz & Hnew & Hold & Hup & Ets & Efl & Ecm).
  { by eapply sharp_passes. }
  cbn [rbind fst]. set (id := UpcStorage.size (Blackboard.upcStorage_ b) + 1) in *.
  assert (Blackboard.upcWithId b id = None) as Hfresh.
  { unfold Blackboard.upcWithId. destruct (al_find id (Blackboard.upcs_ b)) eqn:E; [|done].
    apply (wf_posted _ Hwf) in E as [? _]. subst id. lia. }
  destruct (IH b1 Hwf1) as (b' & E & Hwf' & Hsz' & Et' & Ec' & Ho' & Hk' & Hi' & Hn').
  { by rewrite Efl. }
  { intros u1 src1 upc1 Hin. destruct (Hl u1 src1 upc1) as (? & ? & ?); [by right|]. split_and!; [lia|done|].
    unfold free_for, Blackboard.task_of_unit. by rewrite Ets. }
  exists b'. split; [exact E|]. split_and!; try done; try congruence.
  - rewrite Hsz', Hsz. subst id. simpl length. lia.
  - intros i Hi. rewrite Ho' by (rewrite Hsz; subst id; lia). apply Hold. subst id. lia.
  - intros i v Hv. apply Hk'. rewrite Hup, decide_False; [done|]. congruence.
  - intros i v Hv. apply Hi' in Hv as [Hv|(w & src1 & Hin)].
    + rewrite Hup in Hv. case_decide; [right; exists u, src|by left]. injection Hv as ->. by left.
    + right. exists w, src1. by right.
  - intros u1 src1 upc1 [[= -> -> ->]|Hin]%elem_of_cons; [|by eapply Hn'].
    exists id. split; [apply Hk'; by rewrite Hup, decide_True|]. rewrite Ho' by (rewrite Hsz; lia). done.
Qed.
End executed.

(** From a controller to the game: when a controller posts the sharp UPCs
    it collected for units of its module's tasks, and the last module of the
    frame runs on that board, then for every collected UPC exactly one command
    is sent under its identifier, the order the UPC stands for, and the UPC's
    source is the one by which the controller controls the unit. *)
Theorem collected_executed `{Codes, BuildType.Table} shuffle fuel units visibleUnits b c frame p1 p2 :
  ready shuffle fuel units visibleUnits b →
  UpcStorage.size (Blackboard.upcStorage_ b) + Z.of_nat (length (upcs_ c)) < Z.of_nat fuel →
  Blackboard.upcFilters_ b = [Blackboard.FAssignedUnits p1; Blackboard.FSanity p2] →
  (∀ u src upc, (u, (src, upc)) ∈ upcs_ c →
     src ≤ UpcStorage.size (Blackboard.upcStorage_ b) ∧ is_Some (units !! u) ∧
     (∃ a, sharp units upc u a) ∧ free_for b (module_ c) u) →
  ∃ c' b1 units' b2 now sent, postUpcs c b frame = Ok (c', b1) ∧ upcs_ c' = [] ∧ units_ c' = units_ c ∧
    UpcToCommand.step shuffle fuel units visibleUnits b1 = Ok (units', b2) ∧
    Blackboard.commands b 0 = Ok now ∧
    Blackboard.commands b2 0 = Ok (now ++ map Blackboard.command sent) ∧
    ∀ u src upc a, (u, (src, upc)) ∈ upcs_ c → sharp units upc u a →
      ∃ id, UpcStorage.sourceId (Blackboard.upcStorage_ b1) id = src ∧
        filter (λ cp, Blackboard.sourceId cp = id) sent =
          [Blackboard.CP (Blackboard.CC CommandUnit (u :: a)) id] ∧
        Blackboard.upcWithId b2 id = None.
Proof.
  intros Hr Hfuel Hfil Hl. unfold postUpcs.
  destruct (post_collected units (module_ c) frame p1 p2 (upcs_ c) b) as
    (b1 & -> & Hwf1 & Hsz & Et & Ec & Ho & Hk & Hi & Hn); [apply Hr|done| |].
  { intros u src upc Hin. destruct (Hl u src upc Hin) as (? & _ & ? & ?). done. }
  cbn [rbind]. assert (ready shuffle fuel units visibleUnits b1) as Hr1.
  { destruct Hr as [R1 R2 R3 R4 R5 R6 R7]. split; try done; [lia|by rewrite Ec|].
    intros id u [Hu|(v & src & Hin)]%Hi; [by eapply R7|]. destruct (Hl _ _ _ Hin) as (_ & [w Hw] & [a Ha] & _).
    eapply sharp_usable; [done|exact Ha|]. by exists v, w. }
  destruct (sharp_sent _ _ _ _ _ Hr1) as (units' & b2 & now & sent & E & Hnow & Hc & Hsent).
  exists (set_upcs [] c), b1, units', b2, now, sent. split_and!; try done.
  - unfold Blackboard.commands in *. by rewrite Ec in Hnow.
  - intros u src upc a Hin Hs. destruct (Hn u src upc Hin) as (id & Hid & Hsrc). exists id. split; [done|]. by eapply Hsent.
Qed.

(** ** Examples *)

Definition example_task : Task.t := (ControllerTask 1 {[1]} 0 (make None)).1.
Definition example_controller : t :=
  addUpc (ControllerTask 1 {[1]} 0 (make None)).2 1 (Upc.makeSharpUPC (Some 1) Command.ReturnCargo).

Lemma controller_agrees_witness :
  agree example_task example_controller ∧ units_ example_controller !! 1 = Some 1.
Proof.
  split; [|reflexivity]. apply (controller_agrees (H := base_class) 1 {[1]} 0 None).
  eapply rtc_l; [|apply rtc_refl]. apply step_collect.
Defined.

(** A unit no task holds on the board: the task loses it, and fails. *)
Lemma controller_task_update_witness :
  ∃ tk' c', update (H := base_class) example_units BoardTasks.make 7 example_task example_controller = Ok (tk', c') ∧
    agree tk' c' ∧ Task.status tk' = Failure.
Proof.
  destruct (controller_task_update example_units ∅ BoardTasks.make 7 example_task example_controller)
    as (tk' & c' & E & Hag & _).
  - apply BoardTasks.no_tasks_wf.
  - apply agree_addUpc, agree_new.
  - intros u Hu. change (u ∈ ({[1]} : gset Z)) in Hu. apply elem_of_singleton in Hu as ->. eexists. reflexivity.
  - reflexivity.
  - exists tk', c'. split; [exact E|]. split; [exact Hag|]. vm_compute in E. injection E as <- _. reflexivity.
Defined.

(** A second task takes unit 1 over from the first one. *)
Lemma shared_controller_consistent_witness :
  ∃ g, rtc (gstep (H := base_class)) (no_tasks None (λ _, None)) g ∧ units_ (ctl g) !! 1 = Some 8 ∧ own g 1 = Some 4.
Proof.
  set (m := SharedControllerTask 5 {[1]} 0 (make None)).
  set (g1 := Group {[3 := m.1]} m.2 (λ u, if decide (u ∈ ({[1]} : gset Z)) then Some 3 else None)).
  set (m2 := SharedControllerTask 8 {[1]} 0 m.2).
  set (g2 := Group (<[4 := m2.1]> {[3 := m.1]}) m2.2
               (λ u, if decide (u ∈ ({[1]} : gset Z)) then Some 4 else own g1 u)).
  assert (rtc (gstep (H := base_class)) (no_tasks None (λ _, None)) g2) as Hr.
  { eapply rtc_l; [apply (gstep_new (no_tasks None (λ _, None)) 3 5 {[1]} 0 m.1 m.2); done|].
    eapply rtc_l; [apply (gstep_new g1 4 8 {[1]} 0 m2.1 m2.2)|apply rtc_refl]; [done| |done].
    intros r' tk' Hr'. subst g1. cbn [members] in Hr'. apply lookup_singleton_Some in Hr' as [_ <-]. discriminate. }
  destruct (shared_controller_consistent (H := base_class) None (λ _, None) g2 Hr) as (_ & Hown & _).
  exists g2. split; [exact Hr|]. split; [|reflexivity]. by apply (Hown 1 4 m2.1).
Defined.

Lemma collected_executed_witness :
  ∃ c' b1 units' b2, postUpcs example_controller example_upcs 9 = Ok (c', b1) ∧
    UpcToCommand.step reverse 6 example_units [] b1 = Ok (units', b2) ∧
    Blackboard.commands b2 0 = Ok [Blackboard.CC 9 [1; 16]; Blackboard.CC 9 [1; 40]].
Proof.
  destruct (collected_executed reverse 6 example_units [] example_upcs example_controller 9 1 2)
    as (c' & b1 & units' & b2 & now & sent & E1 & _ & _ & E2 & _).
  - pose proof upcs_ready as [R1 R2 R3 R4 R5 R6 R7]. split; done.
  - by vm_compute.
  - reflexivity.
  - intros u src upc Hin. vm_compute in Hin. apply list_elem_of_singleton in Hin as [= -> -> ->].
    split_and!; [by vm_compute|by eexists|eexists; apply sharp_return|].
    exists None, None. split; [reflexivity|by left].
  - exists c', b1, units', b2. split; [exact E1|]. split; [exact E2|]. vm_compute in E1. injection E1 as _ <-.
    vm_compute in E2. injection E2 as _ <-. reflexivity.
Defined.

End ControllerTasks.
