(* ===== verification/Player.v ===== *)
(** * Players ([src/baseplayer.cpp], [src/player.cpp])

    A player owns the modules of a bot.  In each step it receives a frame,
    brings the state up to date, posts the commands queued with [queueCmds],
    steps the modules in the order they were added, and sends the commands of
    the board to the game.

    The game is a [tc::Client], a parameter with its state [C].  What the player
    relies on of [State], of type [S], is the class [Bot]; the modules are
    objects with virtual methods that act on the state.  The times measured
    and the log are not modelled; the commands [postStep] draws when verbose
    logging is on are. *)

From S2P Require Import Prelude Floats Geometry Units Blackboard.

Module Player.
Import Blackboard.

(** The numbers of [tc::BW::Command] and [tc::BW::Color] the players use. *)
Class GameCodes := {
  Quit : Z; SetSpeed : Z; SetGui : Z; SetCombineFrames : Z; SetFrameskip : Z; SetBlocking : Z;
  SetMaxFrameTimeMs : Z; MapHack : Z; DrawLine : Z; DrawTextScreen : Z; DrawCircle : Z; Blue : Z }.

(** What a player uses of the client and of the state. *)
Class Bot (C St : Type) := {
  receive : C → option C;
  send : list ClientCommand → C → option C;
  map_size : C → Z;
  game_ended : C → bool;
  frame_from_bwapi : C → Z;
  State_make : C → res St;
  State_update : C → St → res St;
  currentFrame : St → Z;
  setMapHack : bool → St → St;
  board_postCommand : St → ClientCommand → Z → res St;
  board_commands : St → res (list ClientCommand);
  myStartLocation : St → option Position
}.

Section player.
Context `{GameCodes} {C St : Type} `{Bot C St}.

(** A module: its name and virtual methods, and [onDrawCommand] when it is a
    [CherryVisDumperModule].

    [src/src/module.h:33-61] Module *)
Record module := Module {
  name : string;
  step_ : C → St → res St;
  onGameStart : C → St → res St;
  onGameEnd : C → St → res St;
  onDrawCommand : option (C → St → ClientCommand → res St)
}.

(** [src/src/baseplayer.h:97-124] BasePlayer *)
Record t := Player {
  frameskip_ : Z; combineFrames_ : Z; nonBlocking_ : bool; lastFrameStepped_ : Z; framesDropped_ : Z;
  modules_ : list module; top_ : option module; steps_ : Z; initialized_ : bool; firstStepDone_ : bool;
  draw_ : bool; mapHack_ : bool; pendingCmds_ : list ClientCommand }.

Definition set_modules (p : t) ms top := Player (frameskip_ p) (combineFrames_ p) (nonBlocking_ p) (lastFrameStepped_ p) (framesDropped_ p) ms top (steps_ p) (initialized_ p) (firstStepDone_ p) (draw_ p) (mapHack_ p) (pendingCmds_ p).
Definition set_frames (p : t) last dropped := Player (frameskip_ p) (combineFrames_ p) (nonBlocking_ p) last dropped (modules_ p) (top_ p) (steps_ p) (initialized_ p) (firstStepDone_ p) (draw_ p) (mapHack_ p) (pendingCmds_ p).
Definition set_status (p : t) n init first := Player (frameskip_ p) (combineFrames_ p) (nonBlocking_ p) (lastFrameStepped_ p) (framesDropped_ p) (modules_ p) (top_ p) n init first (draw_ p) (mapHack_ p) (pendingCmds_ p).
Definition set_config (p : t) skip combine nb draw hack := Player skip combine nb (lastFrameStepped_ p) (framesDropped_ p) (modules_ p) (top_ p) (steps_ p) (initialized_ p) (firstStepDone_ p) draw hack (pendingCmds_ p).
Definition set_pending (p : t) l := Player (frameskip_ p) (combineFrames_ p) (nonBlocking_ p) (lastFrameStepped_ p) (framesDropped_ p) (modules_ p) (top_ p) (steps_ p) (initialized_ p) (firstStepDone_ p) (draw_ p) (mapHack_ p) l.

(** [src/src/baseplayer.cpp:26-31] BasePlayer::kMaxStepDuration *)
Definition kMaxStepDuration : Z := 40.
(** In milliseconds.

    [src/src/baseplayer.cpp:28-29] BasePlayer::kMaxInitialStepDuration *)
Definition kMaxInitialStepDuration : Z := 9000.

(** [src/src/baseplayer.cpp:33-48] BasePlayer::BasePlayer *)
Definition make (c : C) : res (t * St) :=
  if map_size c <=? 0 then Throw "Uninitialized TorchCraft state" else
  let? s := State_make c in
  Ok (Player 1 3 false (currentFrame s) 0 [] None 0 false false true false [], s).

(** [src/src/baseplayer.cpp:58-82] BasePlayer::addModule *)
Definition addModule (p : t) (module : option module) : res t :=
  match module with
  | None => Throw "Attempting to add null module to player"
  | Some m =>
      if bool_decide (name m ∈ map name (modules_ p)) then Ok p
      else Ok (set_modules p (modules_ p ++ [m]) (match top_ p with None => Some m | Some t => Some t end))
  end.

(** [src/src/baseplayer.cpp:84-89] BasePlayer::addModules *)
Definition addModules (p : t) (ms : list (option module)) : res t := rfold addModule ms p.

(** [src/src/baseplayer.h:44-53] BasePlayer::findModule *)
Definition findDumper (p : t) : option (C → St → ClientCommand → res St) := head (omap onDrawCommand (modules_ p)).

(** [src/src/baseplayer.cpp:113-115] BasePlayer::setDraw *)
Definition setDraw (p : t) (draw : bool) : t :=
  set_config p (frameskip_ p) (combineFrames_ p) (nonBlocking_ p) draw (mapHack_ p).
(** [src/src/player.h:46-48] Player::setMapHack *)
Definition player_setMapHack (p : t) (on : bool) : t :=
  set_config p (frameskip_ p) (combineFrames_ p) (nonBlocking_ p) (draw_ p) on.
(** [src/src/player.cpp:25-30] Player::setFrameskip *)
Definition setFrameskip (p : t) (n : Z) : res t :=
  if initialized_ p then Throw "Set frameskip before calling init()" else
  Ok (set_config p n (combineFrames_ p) (nonBlocking_ p) (draw_ p) (mapHack_ p)).
(** [src/src/player.cpp:32-37] Player::setCombineFrames *)
Definition setCombineFrames (p : t) (n : Z) : res t :=
  if initialized_ p then Throw "Set combineFrames before calling init()" else
  Ok (set_config p (frameskip_ p) n (nonBlocking_ p) (draw_ p) (mapHack_ p)).
(** [src/src/player.cpp:39-44] Player::setNonBlocking *)
Definition setNonBlocking (p : t) (nonBlocking : bool) : res t :=
  if initialized_ p then Throw "Set nonBlocking before calling init()" else
  Ok (set_config p (frameskip_ p) (combineFrames_ p) nonBlocking (draw_ p) (mapHack_ p)).

(** [src/src/baseplayer.cpp:356-358] BasePlayer::queueCmds *)
Definition queueCmds (p : t) (cmds : list ClientCommand) : t := set_pending p (pendingCmds_ p ++ cmds).
(** [src/src/baseplayer.cpp:259-262] BasePlayer::leave *)
Definition leave (p : t) : t := set_pending p (pendingCmds_ p ++ [CC Quit []]).

(** [src/src/baseplayer.cpp:117-136] BasePlayer::stepModules *)
Definition stepModules (c : C) (p : t) (s : St) : res (t * St) :=
  let? s := rfold (λ s m, step_ m c s) (modules_ p) s in
  Ok (set_status p (steps_ p + 1) (initialized_ p) (firstStepDone_ p), s).

(** [src/src/utils/debugging.h:181-190] drawCircle *)
Definition drawCircle (a : Position) (radius color : Z) : ClientCommand :=
  CC DrawCircle [Vec2.x a * 8; Vec2.y a * 8; radius; color].

Context (vlog : bool).

(** The circles around our base when verbose logging is on.

    [src/src/baseplayer.cpp:283-289] BasePlayer::postStep *)
Definition base_marks (s : St) : list ClientCommand :=
  if vlog then
    match myStartLocation s with
    | Some a => [drawCircle a 50 Blue; drawCircle a 52 Blue]
    | None => []
    end
  else [].

(** [src/src/baseplayer.cpp:277-292] BasePlayer::postStep *)
Definition postStep (s : St) : res St := rfold (λ s cmd, board_postCommand s cmd kRootUpcId) (base_marks s) s.

(** [src/src/baseplayer.cpp:294-317] BasePlayer::doStep *)
Definition doStep (c : C) (p : t) (s : St) : res (t * St * list ClientCommand) :=
  let? s := State_update c s in
  if game_ended c then
    let? s := rfold (λ s m, onGameEnd m c s) (modules_ p) s in Ok (p, s, [])
  else
    let? s := rfold (λ s cmd, board_postCommand s cmd kRootUpcId) (pendingCmds_ p) s in
    let? r := stepModules c (set_pending p []) s in
    let '(p, s) := r in
    let? s := postStep s in
    let? l := board_commands s in
    Ok (p, s, l).

(** [src/src/baseplayer.cpp:170-173] BasePlayer::step *)
Definition isDrawCommand (cmd : ClientCommand) : bool := (DrawLine <=? code cmd) && (code cmd <=? DrawTextScreen).

(** The result of an operation on [int]. *)
Definition int_op (z : Z) : res Z := if (- 2 ^ 31 <=? z) && (z <? 2 ^ 31) then Ok z else Undefined.

(** [100 * framesDropped_ / state_->currentFrame()]

    [src/src/baseplayer.cpp:197-197] BasePlayer::step *)
Definition dropPercentage (dropped frame : Z) : res Z :=
  let? n := int_op (100 * dropped) in
  if frame =? 0 then Undefined else int_op (Z.quot n frame).

(** [src/src/baseplayer.cpp:192-201] BasePlayer::step *)
Definition count_dropped (p : t) (s : St) : res t :=
  let? d := int_op (currentFrame s - lastFrameStepped_ p) in
  let? d := int_op (d - combineFrames_ p) in
  let framesDroppedThisStep := Z.max 0 d in
  if 0 <? framesDroppedThisStep then
    let? dropped := int_op (framesDropped_ p + framesDroppedThisStep) in
    let? _ := dropPercentage dropped (currentFrame s) in
    Ok (set_frames p (currentFrame s) dropped)
  else Ok (set_frames p (currentFrame s) (framesDropped_ p)).

(** The commands of the step, with the new time budget after the first one.

    [src/src/baseplayer.cpp:159-168] BasePlayer::step *)
Definition add_budget (p : t) (cmds : list ClientCommand) : list ClientCommand :=
  if firstStepDone_ p then cmds else cmds ++ [CC SetMaxFrameTimeMs [kMaxStepDuration]].

(** [src/src/baseplayer.cpp:174-181] BasePlayer::step *)
Definition dump_draws (c : C) (p : t) (cmds : list ClientCommand) (s : St) : res St :=
  match findDumper p with
  | Some onDraw => rfold (onDraw c) (filter (λ cmd, isDrawCommand cmd = true) cmds) s
  | None => Ok s
  end.

(** [src/src/baseplayer.cpp:182-186] BasePlayer::step *)
Definition drop_draws (p : t) (cmds : list ClientCommand) : list ClientCommand :=
  if draw_ p then cmds else filter (λ cmd, isDrawCommand cmd = false) cmds.

(** [src/src/baseplayer.cpp:138-257] BasePlayer::step *)
Definition step (c : C) (p : t) (s : St) : res (C * t * St) :=
  if game_ended c then Ok (c, p, s) else
  match receive c with
  | None => Throw "Receive failure: "
  | Some c =>
      let? r := doStep c p s in
      let '(p, s, commands) := r in
      if game_ended c then Ok (c, p, s) else
      let commands := add_budget p commands in
      let p := set_status p (steps_ p) (initialized_ p) true in
      let? s := dump_draws c p commands s in
      match send (drop_draws p commands) c with
      | None => Throw "Send failure: "
      | Some c => let? p := count_dropped p s in Ok (c, p, s)
      end
  end.

(** [src/src/player.cpp:60-75] Player::init_ *)
Definition setup (p : t) : list ClientCommand :=
  [CC SetSpeed [0]; CC SetGui [1]; CC SetCombineFrames [combineFrames_ p]; CC SetFrameskip [frameskip_ p];
   CC SetBlocking [if nonBlocking_ p then 0 else 1]; CC SetMaxFrameTimeMs [kMaxInitialStepDuration]] ++
  (if mapHack_ p then [CC MapHack []] else []).

(** [src/src/player.cpp:56-87] Player::init_ *)
Definition init_ (c : C) (p : t) (s : St) : res (C * t * St) :=
  if initialized_ p then Throw "Assertion failed: !initialized_" else
  let p := set_status p 0 (initialized_ p) (firstStepDone_ p) in
  let s := if mapHack_ p then setMapHack true s else s in
  match send (setup p) c with
  | None => Throw "Send failure: "
  | Some c =>
      let? s := rfold (λ s m, onGameStart m c s) (modules_ p) s in
      Ok (c, set_status p (steps_ p) true false, s)
  end.

(** [src/src/player.cpp:46-54] Player::init *)
Definition init (c : C) (p : t) (s : St) : res (C * t * St) :=
  if 0 <? currentFrame s then Throw "Expecting fresh game in Player::init(), but current frame is "
  else init_ c p s.

(** [src/src/player.cpp:91-93] Player::run *)
Fixpoint loop (fuel : nat) (c : C) (p : t) (s : St) : res (C * t * St) :=
  match fuel with
  | O => OutOfFuel
  | S fuel =>
      let? r := step c p s in
      let '(c, p, s) := r in
      if game_ended c then Ok (c, p, s) else loop fuel c p s
  end.

(** [src/src/player.cpp:89-94] Player::run *)
Definition run (fuel : nat) (c : C) (p : t) (s : St) : res (C * t * St) :=
  let? r := init c p s in
  let '(c, p, s) := r in loop fuel c p s.

End player.
End Player.
