(* ===== verification/PlayerRuns.v ===== *)
(** * What a player does in a step and over a game

    The contract between the player and what it drives is [Laws]: what the
    client, the state and the modules promise.  Against it the file proves what
    a step sends and the protocol a whole run follows, and then discharges it
    for states built on the blackboard of this library. *)

From S2P Require Import Prelude Floats Geometry Units BuildTypes Upc CircularBuffer UpcStorage UpcFilter Tasks BoardTasks Blackboard BlackboardUpcs UpcToCommand UpcCommands Player.

Module PlayerRuns.
Import Blackboard Player.

(** ** Modules *)

Section modules.
Context `{GameCodes} {C St : Type} `{Bot C St}.

(** The modules whose name comes first, after [names]. *)
Fixpoint firsts (names : list string) (ms : list (module (C := C) (St := St))) : list module :=
  match ms with
  | [] => []
  | m :: ms => if decide (name m ∈ names) then firsts names ms else m :: firsts (names ++ [name m]) ms
  end.

Lemma addModules_eq p ms : addModules p (map Some ms) =
  Ok (set_modules p (modules_ p ++ firsts (map name (modules_ p)) ms)
        (match top_ p with Some m => Some m | None => head (firsts (map name (modules_ p)) ms) end)).
Proof.
  unfold addModules. revert p. induction ms as [|m ms IH]; intros p; cbn [map rfold firsts].
  { rewrite app_nil_r. destruct p as [? ? ? ? ? ? [] ? ? ? ? ? ?]; reflexivity. }
  cbn [addModule]. destruct (decide (name m ∈ map name (modules_ p))) as [Hin|Hin].
  - rewrite bool_decide_true by done. cbn [rbind]. apply IH.
  - rewrite bool_decide_false by done. cbn [rbind]. rewrite IH. cbn [set_modules modules_ top_].
    rewrite map_app, <-app_assoc. cbn [map]. by destruct (top_ p).
Qed.

Lemma firsts_fresh names ms m : m ∈ firsts names ms → m ∈ ms ∧ name m ∉ names.
Proof.
  revert names. induction ms as [|m' ms IH]; intros names; cbn [firsts]; [by intros ?%not_elem_of_nil|].
  case_decide; rewrite ?elem_of_cons; [intros (? & ?)%IH; auto|].
  intros [->|(? & Hn)%IH]; [auto|]. rewrite elem_of_app in Hn. tauto.
Qed.

Lemma firsts_nodup names ms : NoDup (map name (firsts names ms)).
Proof.
  revert names. induction ms as [|m ms IH]; intros names; cbn [firsts]; [constructor|].
  case_decide; [apply IH|]. cbn [map]. constructor; [|apply IH].
  intros (m' & E & [_ Hn]%firsts_fresh)%list_elem_of_fmap. apply Hn. rewrite E. set_solver.
Qed.

Lemma firsts_names names ms n : n ∈ map name ms → n ∈ names ∨ n ∈ map name (firsts names ms).
Proof.
  revert names. induction ms as [|m ms IH]; intros names; cbn [map firsts]; [by intros ?%not_elem_of_nil|].
  rewrite elem_of_cons. case_decide; intros [->|Hn]; [by left|by apply IH|right; by left|].
  destruct (IH (names ++ [name m]) Hn) as [Hi|Hi]; cbn [map]; set_solver.
Qed.

(** The modules of a player: names are unique, and the top module is the
    first one. *)
Record modules_ok (p : t (C := C) (St := St)) : Prop := {
  mo_names : NoDup (map name (modules_ p));
  mo_top : top_ p = head (modules_ p)
}.

(** Adding modules keeps a player's modules in the order they came, with
    unique names and the first one as the top module: a module is skipped
    exactly when one of its name is there already, and a null module is an
    error. *)
Theorem addModules_spec p ms : modules_ok p →
  ∃ p', addModules p (map Some ms) = Ok p' ∧ modules_ok p' ∧
    (∃ new, modules_ p' = modules_ p ++ new ∧ new `sublist_of` ms ∧
       ∀ m, m ∈ ms → (name m ∈ map name (modules_ p) ∨ name m ∈ map name new)) ∧
    (modules_ p = [] → NoDup (map name ms) → modules_ p' = ms) ∧
    ∀ l, addModules p (map Some ms ++ None :: l) = Throw "Attempting to add null module to player".
Proof.
  intros [Hn Ht]. eexists. split; [apply addModules_eq|]. cbn [set_modules modules_ top_].
  assert (Hsub : ∀ names ms, firsts names ms `sublist_of` ms).
  { clear. intros names ms. revert names. induction ms as [|m ms IH]; intros names; cbn [firsts]; [constructor|].
    case_decide; by constructor. }
  split_and!.
  - split; cbn [set_modules modules_ top_].
    + rewrite map_app. apply NoDup_app. split_and!; [done| |apply firsts_nodup].
      intros n Hin (m & -> & [_ Hm]%firsts_fresh)%list_elem_of_fmap. done.
    + rewrite Ht. by destruct (modules_ p).
  - eexists. split_and!; [done|apply Hsub|]. intros m Hm. apply firsts_names, list_elem_of_fmap. eauto.
  - intros -> Hnd. cbn [map app]. cut (∀ names, (∀ m, m ∈ ms → name m ∉ names) → firsts names ms = ms);
      [intros E; apply E; intros ? _ ?%not_elem_of_nil; done|].
    clear -Hnd. induction ms as [|m ms IH]; intros names Hf; cbn [firsts]; [done|].
    cbn [map] in Hnd. apply NoDup_cons in Hnd as [Hm Hnd]. rewrite decide_False by (apply Hf; by left).
    f_equal. apply IH; [done|]. intros m' Hm' [?|E%list_elem_of_singleton]%elem_of_app; [by eapply Hf; [right|]|].
    apply Hm. rewrite <-E. apply list_elem_of_fmap. eauto.
  - intros l. unfold addModules. rewrite rfold_app. fold (addModules p (map Some ms)). by rewrite addModules_eq.
Qed.

End modules.

(** ** What the player relies on *)

(** The last frame for which [100 * framesDropped_] fits an [int]. *)
Definition maxFrame : Z := 21474836.

Section laws.
Context `{GameCodes} {C St : Type} `{Bot C St}.
Abbreviation module := (module (C := C) (St := St)).
Abbreviation player := (t (C := C) (St := St)).

(** A module does its work in any state [J] of a frame; it may add commands to
    the frame, not take any back.  Before the first frame the state is [I]. *)
Record well_behaved (I J : St → Prop) (m : module) : Prop := {
  wb_step c s l : J s → board_commands s = Ok l → ∃ s' l', step_ m c s = Ok s' ∧ J s' ∧
    board_commands s' = Ok (l ++ l') ∧ currentFrame s' = currentFrame s;
  wb_start c s : I s → ∃ s', onGameStart m c s = Ok s' ∧ I s';
  wb_end c s : J s → ∃ s', onGameEnd m c s = Ok s' ∧ J s';
  wb_draw c s cmd f : onDrawCommand m = Some f → J s → ∃ s', f c s cmd = Ok s' ∧ J s' ∧ currentFrame s' = currentFrame s
}.

(** The states [I] are good, and [J] within a frame: the client delivers frames until the game ends,
    at the latest after [rank] more, and takes what is sent; and the state's
    operations work. *)
Class Laws (I J : St → Prop) (rank : C → nat) : Prop := {
  law_receive c : game_ended c = false → ∃ c', receive c = Some c' ∧
    (game_ended c' = false → (rank c' < rank c)%nat) ∧ frame_from_bwapi c ≤ frame_from_bwapi c' ≤ maxFrame;
  law_send c l : ∃ c', send l c = Some c' ∧ game_ended c' = game_ended c ∧ rank c' = rank c ∧
    frame_from_bwapi c' = frame_from_bwapi c;
  law_update c s : I s → ∃ s' l, State_update c s = Ok s' ∧ J s' ∧ board_commands s' = Ok l ∧
    currentFrame s' = frame_from_bwapi c;
  law_post s cmd l : J s → board_commands s = Ok l → ∃ s', board_postCommand s cmd kRootUpcId = Ok s' ∧ J s' ∧
    board_commands s' = Ok (l ++ [cmd]) ∧ currentFrame s' = currentFrame s;
  law_hack s : I s → I (setMapHack true s);
  law_frame s : J s → I s
}.

(** ** Traces *)

Inductive event :=
| Received | Updated | Hacked
| Posted (cmd : ClientCommand) | Read (l : list ClientCommand) | Sent (l : list ClientCommand)
| Started (m : module) | Stepped (m : module) | Ended (m : module)
| Drawn (f : C → St → ClientCommand → res St) (cmd : ClientCommand).

Inductive exec : event → C * St → C * St → Prop :=
| exec_received c c' s : receive c = Some c' → exec Received (c, s) (c', s)
| exec_updated c s s' : State_update c s = Ok s' → exec Updated (c, s) (c, s')
| exec_hacked c s : exec Hacked (c, s) (c, setMapHack true s)
| exec_posted c s s' cmd : board_postCommand s cmd kRootUpcId = Ok s' → exec (Posted cmd) (c, s) (c, s')
| exec_read c s l : board_commands s = Ok l → exec (Read l) (c, s) (c, s)
| exec_sent c c' s l : send l c = Some c' → exec (Sent l) (c, s) (c', s)
| exec_started c s s' m : onGameStart m c s = Ok s' → exec (Started m) (c, s) (c, s')
| exec_stepped c s s' m : step_ m c s = Ok s' → exec (Stepped m) (c, s) (c, s')
| exec_ended c s s' m : onGameEnd m c s = Ok s' → exec (Ended m) (c, s) (c, s')
| exec_drawn c s s' f cmd : f c s cmd = Ok s' → exec (Drawn f cmd) (c, s) (c, s').

Inductive execs : list event → C * St → C * St → Prop :=
| execs_nil w : execs [] w w
| execs_cons e es w w' w'' : exec e w w' → execs es w' w'' → execs (e :: es) w w''.

Lemma execs_app es es' w w' w'' : execs es w w' → execs es' w' w'' → execs (es ++ es') w w''.
Proof. induction 1; [done|]. intros. econstructor; eauto. Qed.

Lemma execs_one e w w' : exec e w w' → execs [e] w w'.
Proof. intros. econstructor; [done|constructor]. Qed.

(** A loop over [l] is a trace of one event per element. *)
Lemma execs_loop {A} (P : St → Prop) (f : St → A → res St) (ev : A → event) c l s :
  P s → (∀ x s, x ∈ l → P s → ∃ s', f s x = Ok s' ∧ P s' ∧ exec (ev x) (c, s) (c, s')) →
  ∃ s', rfold f l s = Ok s' ∧ P s' ∧ execs (map ev l) (c, s) (c, s').
Proof.
  revert s. induction l as [|x l IH]; intros s Hs Hl; cbn [rfold map].
  { exists s. split_and!; [done..|constructor]. }
  destruct (Hl x s) as (s1 & -> & Hs1 & He); [by left|done|]. cbn [rbind].
  destruct (IH s1 Hs1) as (s' & -> & Hs' & Hes); [intros; apply Hl; [by right|done]|].
  exists s'. split_and!; [done..|]. by econstructor.
Qed.

(** A frame: what was queued before, the marks of the base, and the commands
    on the board in the end. *)
Record frame := Frame { fr_first : bool; fr_pending : list ClientCommand; fr_marks : list ClientCommand;
  fr_commands : list ClientCommand }.

(** All commands of the frame, and those the game gets. *)
Definition budgeted (f : frame) : list ClientCommand :=
  if fr_first f then fr_commands f ++ [CC SetMaxFrameTimeMs [kMaxStepDuration]] else fr_commands f.
Definition visible (draw : bool) (l : list ClientCommand) : list ClientCommand :=
  if draw then l else filter (λ cmd, isDrawCommand cmd = false) l.

Definition frame_trace (p : player) (f : frame) : list event :=
  [Received; Updated] ++ map Posted (fr_pending f) ++ map Stepped (modules_ p) ++ map Posted (fr_marks f) ++
  [Read (fr_commands f)] ++
  match findDumper p with
  | Some d => map (Drawn d) (filter (λ cmd, isDrawCommand cmd = true) (budgeted f))
  | None => []
  end ++ [Sent (visible (draw_ p) (budgeted f))].

Definition end_trace (p : player) : list event := [Received; Updated] ++ map Ended (modules_ p).

(** The counters of dropped frames. *)
Record frames_ok (p : player) : Prop := {
  fo_dropped : 0 ≤ framesDropped_ p ≤ lastFrameStepped_ p;
  fo_combine : 0 ≤ combineFrames_ p < 2 ^ 31
}.

(** ** A step *)

Context (vlog : bool) (I J : St → Prop) (rank : C → nat) `{!Laws I J rank}.

Lemma post_loop c cmds s l : J s → board_commands s = Ok l →
  ∃ s', rfold (λ s cmd, board_postCommand s cmd kRootUpcId) cmds s = Ok s' ∧ J s' ∧
    board_commands s' = Ok (l ++ cmds) ∧ currentFrame s' = currentFrame s ∧ execs (map Posted cmds) (c, s) (c, s').
Proof.
  revert s l. induction cmds as [|cmd cmds IH]; intros s l Hs Hl; cbn [rfold map].
  { exists s. rewrite app_nil_r. split_and!; [done..|constructor]. }
  destruct (law_post s cmd l Hs Hl) as (s1 & E1 & Hs1 & Hl1 & Hf1). rewrite E1. cbn [rbind].
  destruct (IH s1 _ Hs1 Hl1) as (s' & -> & Hs' & Hl' & Hf' & He). exists s'. rewrite <-app_assoc in Hl'.
  split_and!; [done..|by rewrite Hf'|]. econstructor; [by constructor|done].
Qed.

Lemma step_loop c ms s l : Forall (well_behaved I J) ms → J s → board_commands s = Ok l →
  ∃ s' l', rfold (λ s m, step_ m c s) ms s = Ok s' ∧ J s' ∧ board_commands s' = Ok (l ++ l') ∧
    currentFrame s' = currentFrame s ∧ execs (map Stepped ms) (c, s) (c, s').
Proof.
  intros Hms Hs Hl.
  destruct (execs_loop (λ s', J s' ∧ (∃ l', board_commands s' = Ok (l ++ l')) ∧ currentFrame s' = currentFrame s)
    (λ s m, step_ m c s) Stepped c ms s) as (s' & E & (Hs' & (l' & Hl') & Hf) & He).
  - split_and!; [done| |done]. exists []. by rewrite app_nil_r.
  - intros m s1 Hm (Hs1 & (l1 & Hl1) & Hf1). rewrite Forall_forall in Hms.
    destruct (wb_step _ _ _ (Hms m Hm) c s1 _ Hs1 Hl1) as (s2 & l2 & E2 & Hs2 & Hl2 & Hf2).
    exists s2. split_and!; [done|done|exists (l1 ++ l2); by rewrite Hl2, app_assoc|by rewrite Hf2|by constructor].
  - eauto 10.
Qed.

Lemma end_loop c ms s : Forall (well_behaved I J) ms → J s →
  ∃ s', rfold (λ s m, onGameEnd m c s) ms s = Ok s' ∧ J s' ∧ execs (map Ended ms) (c, s) (c, s').
Proof.
  intros Hms Hs. apply (execs_loop J); [done|]. intros m s1 Hm Hs1. rewrite Forall_forall in Hms.
  destruct (wb_end _ _ _ (Hms m Hm) c s1 Hs1) as (s2 & E & ?). exists s2. split_and!; [done..|by constructor].
Qed.

Lemma start_loop c ms s : Forall (well_behaved I J) ms → I s →
  ∃ s', rfold (λ s m, onGameStart m c s) ms s = Ok s' ∧ I s' ∧ execs (map Started ms) (c, s) (c, s').
Proof.
  intros Hms Hs. apply (execs_loop I); [done|]. intros m s1 Hm Hs1. rewrite Forall_forall in Hms.
  destruct (wb_start _ _ _ (Hms m Hm) c s1 Hs1) as (s2 & E & ?). exists s2. split_and!; [done..|by constructor].
Qed.

Lemma dump_loop c p cmds s : Forall (well_behaved I J) (modules_ p) → J s →
  ∃ s', dump_draws c p cmds s = Ok s' ∧ J s' ∧ currentFrame s' = currentFrame s ∧
    execs (match findDumper p with
           | Some d => map (Drawn d) (filter (λ cmd, isDrawCommand cmd = true) cmds)
           | None => [] end) (c, s) (c, s').
Proof.
  intros Hms Hs. unfold dump_draws. destruct (findDumper p) as [d|] eqn:Ed.
  2:{ exists s. split_and!; [done..|constructor]. }
  destruct (execs_loop (λ s', J s' ∧ currentFrame s' = currentFrame s) (d c) (Drawn d) c
    (filter (λ cmd, isDrawCommand cmd = true) cmds) s) as (s' & E & [? ?] & He); [done| |eauto 10].
  intros cmd s1 _ [Hs1 Hf1]. unfold findDumper in Ed. apply head_Some_elem_of, list_elem_of_omap in Ed as (m & Hm & Ed).
  rewrite Forall_forall in Hms. destruct (wb_draw _ _ _ (Hms m Hm) c s1 cmd d Ed Hs1) as (s2 & E & ? & Hf).
  exists s2. rewrite Hf. split_and!; [done..|by constructor].
Qed.

Lemma count_ok p s : frames_ok p → lastFrameStepped_ p ≤ currentFrame s ≤ maxFrame →
  let p' := set_frames p (currentFrame s)
    (framesDropped_ p + Z.max 0 (currentFrame s - lastFrameStepped_ p - combineFrames_ p)) in
  count_dropped p s = Ok p' ∧ frames_ok p'.
Proof.
  intros [Hd Hc] Hf p'. unfold maxFrame in Hf.
  assert (Hint : ∀ z, - 2 ^ 31 ≤ z < 2 ^ 31 → int_op z = Ok z).
  { intros z Hz. unfold int_op. rewrite (proj2 (Z.leb_le _ _)), (proj2 (Z.ltb_lt _ _)) by lia. done. }
  assert (frames_ok p') as Hok by (split; cbn; lia). split; [|done]. subst p'.
  unfold count_dropped. rewrite Hint by lia. cbn [rbind]. rewrite Hint by lia. cbn [rbind].
  destruct (Z.ltb_spec 0 (Z.max 0 (currentFrame s - lastFrameStepped_ p - combineFrames_ p))) as [Hpos|Hneg].
  2:{ do 2 f_equal. lia. }
  rewrite Hint by lia. cbn [rbind]. unfold dropPercentage. rewrite Hint by lia. cbn [rbind].
  rewrite (proj2 (Z.eqb_neq _ _)) by lia. rewrite Hint; [done|].
  assert (0 ≤ Z.quot (100 * (framesDropped_ p + Z.max 0 (currentFrame s - lastFrameStepped_ p - combineFrames_ p))) (currentFrame s) ≤ 100);
    [|lia]. split; [apply Z.quot_pos; lia|]. apply Z.quot_le_upper_bound; lia.
Qed.

(** What a step leaves of the player. *)
Definition after (p : player) (fr : Z) : player :=
  set_frames (set_status (set_pending p []) (steps_ p + 1) (initialized_ p) true) fr
    (framesDropped_ p + Z.max 0 (fr - lastFrameStepped_ p - combineFrames_ p)).

Record stepped (c c1 : C) (p : player) (s : St) (c2 : C) (p' : player) (s' : St) (f : frame) : Prop := {
  st_trace : execs (frame_trace p f) (c, s) (c2, s');
  st_good : I s';
  st_player : p' = after p (frame_from_bwapi c1);
  st_frames : frames_ok p';
  st_pending : fr_pending f = pendingCmds_ p;
  st_first : fr_first f = negb (firstStepDone_ p);
  st_sent : send (visible (draw_ p) (budgeted f)) c1 = Some c2;
  st_commands : ∃ s0 l0 posted, State_update c1 s = Ok s0 ∧ board_commands s0 = Ok l0 ∧
    fr_commands f = l0 ++ pendingCmds_ p ++ posted ++ fr_marks f
}.

Lemma step_frame c c1 p s : Forall (well_behaved I J) (modules_ p) → I s → frames_ok p →
  lastFrameStepped_ p ≤ frame_from_bwapi c → game_ended c = false → receive c = Some c1 → game_ended c1 = false →
  ∃ c2 p' s' f, step vlog c p s = Ok (c2, p', s') ∧ stepped c c1 p s c2 p' s' f.
Proof.
  intros Hms Hs Hfo Hl He Hr He1. destruct (law_receive c He) as (c1' & Hr' & _ & Hfr).
  rewrite Hr in Hr'. injection Hr' as <-.
  destruct (law_update c1 s Hs) as (s0 & l0 & E0 & Hs0 & Hl0 & Hf0).
  destruct (post_loop c1 (pendingCmds_ p) s0 l0 Hs0 Hl0) as (s1 & E1 & Hs1 & Hl1 & Hf1 & X1).
  destruct (step_loop c1 (modules_ p) s1 _ Hms Hs1 Hl1) as (s2 & posted & E2 & Hs2 & Hl2 & Hf2 & X2).
  destruct (post_loop c1 (base_marks vlog s2) s2 _ Hs2 Hl2) as (s3 & E3 & Hs3 & Hl3 & Hf3 & X3).
  rewrite <-!app_assoc in Hl3. set (cmds := l0 ++ pendingCmds_ p ++ posted ++ base_marks vlog s2) in *.
  set (f := Frame (negb (firstStepDone_ p)) (pendingCmds_ p) (base_marks vlog s2) cmds).
  set (p1 := set_status (set_pending p []) (steps_ p + 1) (initialized_ p) true).
  destruct (dump_loop c1 p (budgeted f) s3 Hms Hs3) as (s4 & E4 & Hs4 & Hf4 & X4).
  destruct (law_send c1 (visible (draw_ p) (budgeted f))) as (c2 & E5 & He2 & _ & _).
  destruct (count_ok p1 s4) as [E6 Hfo']; [by destruct Hfo; split|cbn; lia|].
  assert (currentFrame s4 = frame_from_bwapi c1) as Hf by congruence. rewrite Hf in E6, Hfo'.
  exists c2, (after p (frame_from_bwapi c1)), s4, f. split.
  - unfold step. rewrite He, Hr. unfold doStep. rewrite E0. cbn [rbind]. rewrite He1, E1. cbn [rbind].
    unfold stepModules. cbn [set_pending modules_]. rewrite E2. cbn [rbind]. unfold postStep. rewrite E3. cbn [rbind].
    rewrite Hl3. cbn [rbind].
    replace (add_budget _ cmds) with (budgeted f) by (unfold add_budget, budgeted; cbn; by destruct (firstStepDone_ p)).
    change (dump_draws c1 _ (budgeted f) s3) with (dump_draws c1 p (budgeted f) s3). rewrite E4. cbn [rbind].
    change (drop_draws _ (budgeted f)) with (visible (draw_ p) (budgeted f)). rewrite E5.
    change (count_dropped _ s4) with (count_dropped p1 s4). rewrite E6. reflexivity.
  - split; try done; [|by apply law_frame|].
    + unfold frame_trace. do 2 (econstructor; [by constructor|]).
      eapply execs_app; [exact X1|]. eapply execs_app; [exact X2|]. eapply execs_app; [exact X3|].
      eapply execs_app; [by apply execs_one, exec_read|]. eapply execs_app; [exact X4|].
      by apply execs_one, exec_sent.
    + exists s0, l0, posted. done.
Qed.

Lemma step_end c c1 p s : Forall (well_behaved I J) (modules_ p) → I s →
  game_ended c = false → receive c = Some c1 → game_ended c1 = true →
  ∃ s', step vlog c p s = Ok (c1, p, s') ∧ I s' ∧ execs (end_trace p) (c, s) (c1, s').
Proof.
  intros Hms Hs He Hr He1. destruct (law_update c1 s Hs) as (s0 & l0 & E0 & Hs0 & Hl0 & Hf0).
  destruct (end_loop c1 (modules_ p) s0 Hms Hs0) as (s' & E & Hs' & X). exists s'. split_and!; [|by apply law_frame|].
  - unfold step. rewrite He, Hr. unfold doStep. rewrite E0. cbn [rbind]. rewrite He1, E. done.
  - do 2 (econstructor; [by constructor|]). done.
Qed.

(** A step of a game that goes on: it posts the commands queued since the
    last one in front of what the modules post, steps every module once in
    order, and sends all commands of the board, without the drawing ones when
    drawing is off and with the new time budget in the first step; the queue is
    empty then and the frames dropped are counted without overflow.  In the
    step in which the game ends nothing is sent and every module is told; after
    that a step does nothing. *)
Theorem player_step c c1 p s : Forall (well_behaved I J) (modules_ p) → I s → frames_ok p →
  lastFrameStepped_ p ≤ frame_from_bwapi c → receive c = Some c1 →
  if game_ended c then step vlog c p s = Ok (c, p, s)
  else if game_ended c1 then
    ∃ s', step vlog c p s = Ok (c1, p, s') ∧ execs (end_trace p) (c, s) (c1, s')
  else
    ∃ c2 p' s' f, step vlog c p s = Ok (c2, p', s') ∧ stepped c c1 p s c2 p' s' f ∧
      pendingCmds_ p' = [] ∧ steps_ p' = steps_ p + 1 ∧ modules_ p' = modules_ p ∧ firstStepDone_ p' = true ∧
      0 ≤ framesDropped_ p' ≤ lastFrameStepped_ p' ∧ lastFrameStepped_ p' = frame_from_bwapi c1.
Proof.
  intros Hms Hs Hfo Hl Hr. destruct (game_ended c) eqn:He; [unfold step; by rewrite He|].
  destruct (game_ended c1) eqn:He1.
  - destruct (step_end c c1 p s Hms Hs He Hr He1) as (s' & ? & _ & ?). eauto.
  - destruct (step_frame c c1 p s Hms Hs Hfo Hl He Hr He1) as (c2 & p' & s' & f & E & Hst).
    exists c2, p', s', f. destruct (st_frames _ _ _ _ _ _ _ _ Hst) as [Hd _].
    pose proof (st_player _ _ _ _ _ _ _ _ Hst) as ->. done.
Qed.

(** ** A run *)

(** Only the first frame has the queued commands and the new time budget. *)
Definition frames_of (p : player) (fs : list frame) : Prop :=
  match fs with
  | [] => True
  | f :: fs => fr_pending f = pendingCmds_ p ∧ fr_first f = negb (firstStepDone_ p) ∧
      Forall (λ f, fr_pending f = [] ∧ fr_first f = false) fs
  end.

Lemma loop_ends fuel : ∀ c p s, Forall (well_behaved I J) (modules_ p) → I s → frames_ok p →
  lastFrameStepped_ p ≤ frame_from_bwapi c → game_ended c = false → (rank c < fuel)%nat →
  ∃ c' p' s' fs, loop vlog fuel c p s = Ok (c', p', s') ∧ game_ended c' = true ∧
    execs (flat_map (frame_trace p) fs ++ end_trace p) (c, s) (c', s') ∧ frames_of p fs ∧
    steps_ p' = steps_ p + Z.of_nat (length fs) ∧ (length fs ≤ rank c)%nat.
Proof.
  induction fuel as [|fuel IH]; intros c p s Hms Hs Hfo Hl He Hf; [lia|].
  destruct (law_receive c He) as (c1 & Hr & Hrank & Hfr). cbn [loop]. destruct (game_ended c1) eqn:He1.
  - destruct (step_end c c1 p s Hms Hs He Hr He1) as (s' & -> & _ & X). exists c1, p, s', []. cbn [rbind].
    rewrite He1. split_and!; try done; cbn; lia.
  - destruct (step_frame c c1 p s Hms Hs Hfo Hl He Hr He1) as (c2 & p' & s' & f & -> & Hst). cbn [rbind].
    destruct Hst as [X Hs' -> Hfo' Hp Hfirst Hsent _].
    destruct (law_send c1 (visible (draw_ p) (budgeted f))) as (c2' & E & He2 & Hr2 & Hf2).
    rewrite Hsent in E. injection E as <-. rewrite He2, He1. specialize (Hrank eq_refl).
    destruct (IH c2 (after p (frame_from_bwapi c1)) s') as (c' & p' & s'' & fs & E & Hend & X' & Hfs & Hst & Hlen);
      [done|done|done|cbn; lia|congruence|lia|].
    exists c', p', s'', (f :: fs). split_and!; [done|done| | | |cbn; lia].
    + cbn [flat_map]. rewrite <-app_assoc. eapply execs_app; [exact X|]. exact X'.
    + cbn [frames_of]. split_and!; [done|done|]. destruct fs as [|f' fs]; [constructor|].
      destruct Hfs as (? & ? & ?). by constructor.
    + rewrite Hst. cbn [after set_frames set_status steps_ length]. lia.
Qed.

(** What a run does, from the player as it was set up. *)
Definition protocol (p : player) (fs : list frame) : list event :=
  (if mapHack_ p then [Hacked] else []) ++ [Sent (setup p)] ++ map Started (modules_ p) ++
  flat_map (frame_trace p) fs ++ end_trace p.

(** C23 A run of a fresh game returns, and it follows the protocol: the
    configuration is sent, every module is told once that the game starts,
    then come the frames, each stepping every module once in order, and in
    the end every module is told once that the game is over.  The commands
    queued before the run are posted in the first frame and in no other, and
    only the first frame changes the time budget. *)
Theorem run_protocol fuel c p s : Forall (well_behaved I J) (modules_ p) → I s → frames_ok p →
  currentFrame s ≤ 0 → initialized_ p = false → lastFrameStepped_ p ≤ frame_from_bwapi c →
  game_ended c = false → (rank c < fuel)%nat →
  ∃ c' p' s' fs, run vlog fuel c p s = Ok (c', p', s') ∧ game_ended c' = true ∧
    execs (protocol p fs) (c, s) (c', s') ∧
    match fs with
    | [] => True
    | f :: fs => fr_pending f = pendingCmds_ p ∧ fr_first f = true ∧
        Forall (λ f, fr_pending f = [] ∧ fr_first f = false) fs
    end ∧
    steps_ p' = Z.of_nat (length fs) ∧ (length fs ≤ rank c)%nat.
Proof.
  intros Hms Hs Hfo Hfresh Hini Hl He Hf. unfold run, init. rewrite (proj2 (Z.ltb_ge _ _)) by done.
  unfold init_. rewrite Hini. cbn [set_status initialized_ mapHack_ modules_ steps_].
  set (s1 := if mapHack_ p then setMapHack true s else s).
  assert (I s1 ∧ execs (if mapHack_ p then [Hacked] else []) (c, s) (c, s1)) as [Hs1 X1].
  { subst s1. destruct (mapHack_ p); [split; [by apply law_hack|apply execs_one; constructor]|split; [done|constructor]]. }
  destruct (law_send c (setup p)) as (c1 & E1 & He1 & Hr1 & Hf1).
  change (setup (set_status p _ _ _)) with (setup p). rewrite E1.
  destruct (start_loop c1 (modules_ p) s1 Hms Hs1) as (s2 & E2 & Hs2 & X2). rewrite E2. cbn [rbind].
  destruct (loop_ends fuel c1 (set_status (set_status p 0 false (firstStepDone_ p)) 0 true false) s2)
    as (c' & p' & s' & fs & E & Hend & X & Hfs & Hst & Hlen);
    [done|done|by destruct Hfo; split|cbn; lia|congruence|lia|].
  exists c', p', s', fs. split_and!; [exact E|done| | |rewrite Hst; cbn; lia|lia].
  - unfold protocol. eapply execs_app; [exact X1|]. eapply execs_app; [by apply execs_one, exec_sent|].
    eapply execs_app; [exact X2|]. exact X.
  - by destruct fs.
Qed.

End laws.
End PlayerRuns.
