(* ===== verification/BoardPlayer.v ===== *)
(** * A player on the blackboard

    [PlayerRuns] is about any state that keeps the contract [Laws].  Here the
    state is built on the blackboard of this library: [State::update] clears the
    commands of the last frame, lets the rest of the state look at the new
    frame, and updates the board.  The file discharges [Laws] for it, and
    follows a UPC from the board to the game when the last module is
    [UPCToCommandModule]. *)

From S2P Require Import Prelude Floats Geometry Units BuildTypes Upc CircularBuffer UpcStorage UpcFilter Tasks BoardTasks Blackboard BlackboardUpcs BlackboardUpdate UpcToCommand UpcCommands Player PlayerRuns.

Module BoardPlayer.
Import Blackboard Player PlayerRuns.

(** The parts of [State] the player and [UPCToCommandModule] work on; [rest] is
    everything else. *)
Record state (R : Type) := State {
  board_ : Blackboard.t; units_ : gmap Z Unit; visibleUnits_ : list Z; heap_ : Task.heap;
  destroyed_ : list Z; currentFrame_ : Z; mapHack_on : bool; start_ : option Position; rest : R }.
Arguments State {R}.
Arguments board_ {R}. Arguments units_ {R}. Arguments visibleUnits_ {R}. Arguments heap_ {R}.
Arguments destroyed_ {R}. Arguments currentFrame_ {R}. Arguments mapHack_on {R}. Arguments start_ {R}. Arguments rest {R}.

Definition set_board {R} (s : state R) h us b : state R :=
  State b us (visibleUnits_ s) h (destroyed_ s) (currentFrame_ s) (mapHack_on s) (start_ s) (rest s).

(** The game behind the client. *)
Class Client (C : Type) := {
  cl_receive : C → option C; cl_send : list ClientCommand → C → option C; cl_map_size : C → Z;
  cl_game_ended : C → bool; cl_frame : C → Z }.

Section state.
Context `{UpcToCommand.Codes, GameCodes, BuildType.Table} {C R : Type} `{Client C}.
(** What the state does with a frame between the clearing of the commands and
    the update of the board: map, units, tiles, areas and trackers. *)
Context (observe : C → state R → res (state R)) (create : C → res (state R)).
Context (virtual : (Blackboard.t → Task.heap → Task.ref → res (Blackboard.t * Task.heap)) →
  Blackboard.t → Task.heap → Task.ref → res (Blackboard.t * Task.heap)) (clock : Z → Z).
Context (fuel : nat).

(** [src/src/state.cpp:118-232] State::update *)
Definition update (c : C) (s : state R) : res (state R) :=
  let? b := clearCommands (board_ s) in
  let? s := observe c (set_board s (heap_ s) (units_ s) b) in
  let? hb := Blackboard.update virtual clock fuel (heap_ s) (board_ s) (destroyed_ s) in
  Ok (set_board s hb.1 (units_ s) hb.2).

Definition post (s : state R) (cmd : ClientCommand) (src : Z) : res (state R) :=
  let? r := Blackboard.postCommand UpcToCommand.CommandUnit fuel (units_ s) (board_ s) cmd src in
  Ok (set_board s (heap_ s) r.1 r.2).

(** [src/src/state.h:196-198] State::setMapHack *)
Definition hack (h : bool) (s : state R) : state R :=
  State (board_ s) (units_ s) (visibleUnits_ s) (heap_ s) (destroyed_ s) (currentFrame_ s) h (start_ s) (rest s).

#[export] Instance bot : Bot C (state R) :=
  {| receive := cl_receive; send := cl_send; map_size := cl_map_size; game_ended := cl_game_ended;
     frame_from_bwapi := cl_frame; State_make := create; State_update := update; currentFrame := currentFrame_;
     setMapHack := hack; board_postCommand := post; board_commands s := Blackboard.commands (board_ s) 0;
     myStartLocation := start_ |}.

(** The module, with what it inherits from [Module]; nothing happens at the
    start and at the end of a game.

    [src/src/modules/upctocommand.cpp:262-287] UPCToCommandModule::step *)
Definition UPCToCommandModule (shuffle : list (Z * Upc.t) → list (Z * Upc.t)) : module (C := C) (St := state R) :=
  Module "UPCToCommand"
    (λ _ s,
      let? r := UpcToCommand.step shuffle fuel (units_ s) (visibleUnits_ s) (board_ s) in
      Ok (set_board s (heap_ s) r.1 r.2))
    (λ _ s, Ok s) (λ _ s, Ok s) None.

(** ** The contract *)

Lemma commands_total b : BlackboardUpcs.wf b → ∃ l, Blackboard.commands b 0 = Ok l.
Proof.
  intros Hb. unfold Blackboard.commands.
  destruct (CircularBuffer.at_total (commands_ b) (- Z.min 0 (CircularBuffer.size (commands_ b) - 1)) (BlackboardUpcs.wf_commands _ Hb)) as [v ->].
  cbn [rbind]. eauto.
Qed.

(** Good states: the board can be updated; in a frame it has commands. *)
Definition good (hi : Z) (s : state R) : Prop := BlackboardUpdate.ready hi fuel (heap_ s) (board_ s).
Definition in_frame (hi : Z) (s : state R) : Prop := good hi s ∧ 0 < CircularBuffer.size (commands_ (board_ s)).

(** The rest of the state: it looks at the frame and leaves the board usable,
    with the commands as they are. *)
Definition observes (hi : Z) : Prop := ∀ c s, good hi s → ∃ s', observe c s = Ok s' ∧ good hi s' ∧
  commands_ (board_ s') = commands_ (board_ s) ∧ currentFrame_ s' = cl_frame c.

(** The client: frames come until the game ends, after at most [rank] more. *)
Definition delivers (rank : C → nat) : Prop :=
  (∀ c, cl_game_ended c = false → ∃ c', cl_receive c = Some c' ∧
     (cl_game_ended c' = false → (rank c' < rank c)%nat) ∧ cl_frame c ≤ cl_frame c' ≤ maxFrame) ∧
  (∀ c l, ∃ c', cl_send l c = Some c' ∧ cl_game_ended c' = cl_game_ended c ∧ rank c' = rank c ∧ cl_frame c' = cl_frame c).

Lemma update_frame hi c s : observes hi → BlackboardUpdate.user_ok virtual hi fuel → good hi s →
  ∃ s' l, update c s = Ok s' ∧ in_frame hi s' ∧ Blackboard.commands (board_ s') 0 = Ok l ∧ currentFrame_ s' = cl_frame c.
Proof.
  intros Hobs Huser [Hb Ht Hh Hf]. unfold update.
  destruct (CircularBuffer.push_shift (commands_ (board_ s)) []) as (cs & Ecs & Hcs & Hsz & Hat & _); [apply Hb|].
  assert (clearCommands (board_ s) = Ok (set_commands (board_ s) cs)) as E1
    by (unfold clearCommands, CircularBuffer.push_default; by rewrite Ecs).
  pose proof (BlackboardUpcs.clearCommands_wf _ _ Hb E1) as Hb1. rewrite E1. cbn [rbind].
  destruct (Hobs c (set_board s (heap_ s) (units_ s) (set_commands (board_ s) cs))) as (s1 & E2 & Hg1 & Ec1 & Ef1).
  { by split. }
  rewrite E2. cbn [rbind].
  destruct (BlackboardUpdate.update_main virtual clock hi fuel _ _ (destroyed_ s1) Huser Hg1)
    as (h' & b' & b0 & E3 & Hinv & Hsz0 & _). rewrite E3. cbn [rbind fst snd].
  assert (0 < CircularBuffer.size (commands_ b')) as Hpos.
  { rewrite (BlackboardUpdate.li_commands _ _ _ _ _ _ _ _ Hinv), Hsz0, Ec1. cbn [set_board board_ set_commands commands_].
    unfold CircularBuffer.size. rewrite Hsz. destruct (BlackboardUpcs.wf_commands _ Hb) as (Hm & _ & _ & Hs & _). lia. }
  pose proof (BlackboardUpdate.li_ready _ _ _ _ _ _ _ _ Hinv) as Hr'.
  destruct (commands_total b' (BlackboardUpdate.rd_board _ _ _ _ Hr')) as [l El].
  eexists _, l. split; [done|]. cbn [set_board board_ heap_ currentFrame_]. by split_and!.
Qed.

Lemma postCommand_wf cu units b cmd src units' b' : BlackboardUpcs.wf b →
  Blackboard.postCommand cu fuel units b cmd src = Ok (units', b') → BlackboardUpcs.wf b'.
Proof.
  intros Hwf%(BlackboardUpcs.updateUnitAccessCounts_wf cu b cmd). unfold postCommand.
  intros (cs & Hcs & Hp)%rbind_Ok_inv.
  assert (BlackboardUpcs.wf (set_commands (updateUnitAccessCounts cu b cmd) cs)) as Hwf'.
  { destruct Hwf. split; simpl; try done. by eapply CircularBuffer.at_modify_wf. }
  repeat case_match; simplify_eq; try done. apply rbind_Ok_inv in Hp as (m & _ & [= <- <-]). done.
Qed.

Lemma post_frame hi s cmd l : (0 < fuel)%nat → in_frame hi s → Blackboard.commands (board_ s) 0 = Ok l →
  ∃ s', post s cmd kRootUpcId = Ok s' ∧ in_frame hi s' ∧ Blackboard.commands (board_ s') 0 = Ok (l ++ [cmd]) ∧
    currentFrame_ s' = currentFrame_ s.
Proof.
  intros Hf [[Hb Ht Hh Hw] Hsz] Hl. unfold post.
  destruct (BlackboardUpcs.postCommand_commands UpcToCommand.CommandUnit fuel (units_ s) (board_ s) cmd kRootUpcId)
    as (us & b & now & E & Hn & Hc & Hs & _); [done|unfold kRootUpcId; lia|done|].
  rewrite E. cbn [rbind fst snd]. rewrite Hl in Hn. injection Hn as <-. eexists. split; [done|].
  destruct (UpcCommands.postCommand_frame _ _ _ _ _ _ _ _ E) as (Eu & Et & Est). split_and!; [|done|done].
  split; cbn [set_board board_ heap_]; [|by rewrite Hs]. split; cbn [set_board board_ heap_]; try done; [|by rewrite Et].
  by eapply postCommand_wf.
Qed.

#[export] Instance board_laws hi rank : observes hi → BlackboardUpdate.user_ok virtual hi fuel → delivers rank →
  (0 < fuel)%nat → Laws (good hi) (in_frame hi) rank.
Proof.
  intros Hobs Huser [Hrec Hsend] Hf. split.
  - exact Hrec.
  - exact Hsend.
  - intros c s Hs. destruct (update_frame hi c s Hobs Huser Hs) as (s' & l & E & Hs' & Hc & Hfr). exists s', l. done.
  - intros s cmd l Hs Hl. by apply post_frame.
  - intros s [Hb Ht Hh Hw]. by split.
  - by intros s [Hs _].
Qed.

(** ** From a UPC to the game *)

(** C21 A player whose last module is [UPCToCommandModule] carries out the sharp
    UPCs that are on the board when that module's turn comes: the commands the
    step hands to the client hold, for every such UPC, the order it stands for
    to its unit, after the commands queued before the step and behind those the
    other modules posted, and the UPC is off the board. *)
Theorem upcs_reach_game shuffle c c1 p pre s s0 s1 s2 :
  modules_ p = pre ++ [UPCToCommandModule shuffle] → findDumper p = None →
  isDrawCommand (CC UpcToCommand.CommandUnit []) = false →
  cl_game_ended c = false → cl_receive c = Some c1 → cl_game_ended c1 = false →
  update c1 s = Ok s0 → rfold (λ s cmd, post s cmd kRootUpcId) (pendingCmds_ p) s0 = Ok s1 →
  rfold (λ s m, step_ m c1 s) pre s1 = Ok s2 →
  UpcCommands.ready shuffle fuel (units_ s2) (visibleUnits_ s2) (board_ s2) →
  ∃ s3 now sent cmds, Blackboard.commands (board_ s2) 0 = Ok now ∧ currentFrame_ s3 = currentFrame_ s2 ∧
    cmds = visible (draw_ p) (now ++ map command sent ++
             (if firstStepDone_ p then [] else [CC SetMaxFrameTimeMs [kMaxStepDuration]])) ∧
    step false c p s =
      (match cl_send cmds c1 with
       | None => Throw "Send failure: "
       | Some c2 =>
           let? p' := count_dropped (set_status (set_pending p []) (steps_ p + 1) (initialized_ p) true) s3 in
           Ok (c2, p', s3)
       end) ∧
    (∀ id u i a, upcWithId (board_ s2) id = Some u → UpcCommands.sharp (units_ s2) u i a →
       filter (λ cp, sourceId cp = id) sent = [CP (CC UpcToCommand.CommandUnit (i :: a)) id] ∧
       CC UpcToCommand.CommandUnit (i :: a) ∈ cmds ∧ upcWithId (board_ s3) id = None).
Proof.
  intros Hms Hd Hcu He Hr He1 E0 E1 E2 Hready.
  destruct (UpcCommands.sharp_sent _ _ _ _ _ Hready) as (us & b & now & sent & E3 & Hn & Hc & Hsent).
  set (s3 := set_board s2 (heap_ s2) us b). eexists s3, now, sent, _. split; [done|]. split; [done|]. split; [done|]. split.
  - unfold step. cbn [game_ended receive bot]. rewrite He, Hr. unfold doStep. cbn [State_update board_postCommand game_ended bot].
    rewrite E0. cbn [rbind]. rewrite He1, E1. cbn [rbind]. unfold stepModules. cbn [set_pending modules_].
    rewrite Hms, rfold_app, E2. cbn [rbind rfold UPCToCommandModule step_]. rewrite E3. cbn [rbind fst snd]. fold s3.
    unfold postStep, base_marks. cbn [rfold rbind board_commands bot]. change (board_ s3) with b. rewrite Hc. cbn [rbind].
    unfold dump_draws. change (findDumper _) with (findDumper p). rewrite Hd. cbn [rbind].
    change (drop_draws _ ?l) with (visible (draw_ p) l). unfold add_budget. cbn [set_status set_pending firstStepDone_].
    destruct (firstStepDone_ p); [rewrite app_nil_r|rewrite app_assoc]; reflexivity.
  - intros id u i a Hu Hsh. destruct (Hsent id u i a Hu Hsh) as [Hf Hno]. split_and!; [done| |done].
    assert (CC UpcToCommand.CommandUnit (i :: a) ∈ map command sent) as Hin.
    { apply list_elem_of_fmap. exists (CP (CC UpcToCommand.CommandUnit (i :: a)) id). split; [done|].
      assert (CP (CC UpcToCommand.CommandUnit (i :: a)) id ∈ filter (λ cp, sourceId cp = id) sent) as Hx
        by (rewrite Hf; by left). by apply list_elem_of_filter in Hx as [_ ?]. }
    unfold visible. destruct (draw_ p); [|apply list_elem_of_filter; split; [done|]];
      apply elem_of_app; right; apply elem_of_app; by left.
Qed.

End state.

(** ** A short game *)

#[local] Existing Instance UpcCommands.example_codes.
#[local] Existing Instance UpcCommands.example_table.

(** The frame, how many more there are, and whether the game ended. *)
Record clock_client := Clock { cc_frame : Z; cc_left : nat; cc_ended : bool; cc_log : list (list ClientCommand) }.

#[export] Instance example_client : Client clock_client :=
  {| cl_receive c := Some (Clock (cc_frame c + 3) (pred (cc_left c)) (Nat.eqb (cc_left c) 0) (cc_log c));
     cl_send l c := Some (Clock (cc_frame c) (cc_left c) (cc_ended c) (cc_log c ++ [l]));
     cl_map_size _ := 128; cl_game_ended := cc_ended; cl_frame c := Z.min (cc_frame c) maxFrame |}.

#[export] Instance example_game_codes : GameCodes :=
  {| Quit := 0; SetSpeed := 4; SetGui := 6; SetCombineFrames := 11; SetFrameskip := 8; SetBlocking := 14;
     SetMaxFrameTimeMs := 15; MapHack := 12; DrawLine := 20; DrawTextScreen := 26; DrawCircle := 23; Blue := 165 |}.

Definition example_observe (c : clock_client) (s : state unit) : res (state unit) :=
  Ok (State (board_ s) (units_ s) (visibleUnits_ s) (heap_ s) (destroyed_ s) (cl_frame c) (mapHack_on s) (start_ s) (rest s)).
Definition example_create (c : clock_client) : res (state unit) :=
  Ok (State BlackboardUpdate.example_board ∅ [] BlackboardUpdate.example_heap [] 0 false None ()).

Definition example_bot : Bot clock_client (state unit) :=
  bot example_observe example_create (BlackboardUpdate.example_user 3) (λ _, 0) 3.
#[local] Existing Instance example_bot.

(** A module that draws a line and pings. *)
Definition pinger : module (C := clock_client) (St := state unit) :=
  Module "Pinger" (λ _ s, let? s := post 3 s (CC DrawLine []) kRootUpcId in post 3 s (CC 30 []) kRootUpcId)
    (λ _ s, Ok s) (λ _ s, Ok s) None.

#[export] Instance example_laws : Laws (C := clock_client) (good 3 5) (in_frame 3 5) cc_left.
Proof.
  apply (board_laws example_observe example_create (BlackboardUpdate.example_user 3) (λ _, 0) 3 5 cc_left); [|apply BlackboardUpdate.example_user_ok| |lia].
  - intros c s Hs. eexists. split; [done|]. destruct Hs. by split_and!.
  - split.
    + intros c Hc. eexists. split; [done|]. cbn [cl_frame cl_game_ended example_client cc_frame cc_left cc_ended]. split; [|lia].
      destruct (cc_left c); [done|]. cbn. lia.
    + intros c l. eexists. by split_and!.
Qed.

Lemma pinger_ok : well_behaved (good 3 5) (in_frame 3 5) pinger.
Proof.
  split; cbn [pinger step_ onGameStart onGameEnd onDrawCommand]; [|eauto|eauto|done].
  intros c s l Hs Hl.
  destruct (post_frame (R := unit) 3 5 s (CC DrawLine []) l) as (s1 & -> & Hs1 & Hl1 & Hf1); [lia|done|done|].
  cbn [rbind]. destruct (post_frame (R := unit) 3 5 s1 (CC 30 []) _ ltac:(lia) Hs1 Hl1) as (s2 & -> & Hs2 & Hl2 & Hf2).
  rewrite <-app_assoc in Hl2. eexists _, _. split_and!; [done|done|exact Hl2|]. etransitivity; [exact Hf2|exact Hf1].
Qed.

Definition example_player : Player.t :=
  setDraw (leave (Player 1 3 false 0 0 [pinger] (Some pinger) 0 false false true false [])) false.
Definition example_state : state unit := State BlackboardUpdate.example_board ∅ [] BlackboardUpdate.example_heap [] 0 false None ().
Definition example_clock : clock_client := Clock 0 2 false [].

Lemma addModules_spec_witness :
  modules_ok (set_modules example_player [] None) ∧
  ∃ p', addModules (set_modules example_player [] None) (map Some [pinger; pinger]) = Ok p' ∧ modules_ok p' ∧
    map name (modules_ p') = ["Pinger"].
Proof.
  split; [by split; [constructor|]|].
  destruct (addModules_spec (set_modules example_player [] None) [pinger; pinger]) as (p' & E & Hok & _);
    [by split; [constructor|]|].
  exists p'. split; [exact E|]. split; [exact Hok|]. vm_compute in E. injection E as <-. reflexivity.
Defined.

Lemma example_frames : frames_ok example_player.
Proof. split; cbn; lia. Qed.

Lemma example_good : good 3 5 example_state.
Proof. apply BlackboardUpdate.example_ready. Qed.

(** The first step sends the queued command, the ping and the time budget. *)
Lemma player_step_witness :
  ∃ c2 p' s' f, step false example_clock example_player example_state = Ok (c2, p', s') ∧
    stepped (good 3 5) example_clock (Clock 3 1 false []) example_player example_state c2 p' s' f ∧
    cc_log c2 = [[CC 0 []; CC 30 []; CC 15 [40]]].
Proof.
  destruct (player_step false (good 3 5) (in_frame 3 5) cc_left example_clock (Clock 3 1 false []) example_player example_state)
    as (c2 & p' & s' & f & E & Hst & _).
  - constructor; [apply pinger_ok|constructor].
  - apply example_good.
  - apply example_frames.
  - by vm_compute.
  - reflexivity.
  - exists c2, p', s', f. split; [exact E|]. split; [exact Hst|]. vm_compute in E. injection E as <- _ _. reflexivity.
Defined.

(** The game has two frames. *)
Lemma run_protocol_witness :
  ∃ c' p' s' fs, run false 3 example_clock example_player example_state = Ok (c', p', s') ∧
    execs (protocol example_player fs) (example_clock, example_state) (c', s') ∧ steps_ p' = 2 ∧
    cc_log c' = [setup example_player; [CC 0 []; CC 30 []; CC 15 [40]]; [CC 30 []]].
Proof.
  destruct (run_protocol false (good 3 5) (in_frame 3 5) cc_left 3 example_clock example_player example_state)
    as (c' & p' & s' & fs & E & _ & X & _).
  - constructor; [apply pinger_ok|constructor].
  - apply example_good.
  - apply example_frames.
  - by vm_compute.
  - reflexivity.
  - by vm_compute.
  - reflexivity.
  - cbn. lia.
  - exists c', p', s', fs. split; [exact E|]. split; [exact X|].
    vm_compute in E. injection E as <- <- _. split; reflexivity.
Defined.

(** A module that posts the tuples of [UpcCommands.example_upcs], followed by
    the module that carries them out. *)
Definition planner : module (C := clock_client) (St := state unit) :=
  Module "Planner" (λ _ s, Ok (set_board s (heap_ s) BlackboardUpcs.example_units UpcCommands.example_upcs))
    (λ _ s, Ok s) (λ _ s, Ok s) None.

Definition example_bot5 : Bot clock_client (state unit) :=
  bot example_observe example_create (BlackboardUpdate.example_user 5) (λ _, 0) 5.

Definition planning_player : Player.t :=
  Player 1 3 false 0 0 [planner; UPCToCommandModule 5 reverse] (Some planner) 0 false false true false [].

Lemma planning_count s : currentFrame_ s = 3 →
  ∃ p', count_dropped (H0 := example_bot5) (set_status (set_pending planning_player []) 1 false true) s = Ok p'.
Proof.
  intros Hf. eexists. apply count_ok.
  - split; cbn [set_status set_pending planning_player framesDropped_ lastFrameStepped_ combineFrames_]; lia.
  - cbn [set_status set_pending planning_player lastFrameStepped_ currentFrame example_bot5 bot]. rewrite Hf. by vm_compute.
Qed.

Lemma upcs_reach_game_witness :
  (match step (H0 := example_bot5) false example_clock planning_player example_state with
   | Ok (c2, _, s3) => Some (cc_log c2, upcWithId (board_ s3) 2)
   | _ => None
   end) = Some ([[CC 9 [1; 40]; CC 15 [40]]], None) ∧
  ∃ s3 cmds c2 p', step (H0 := example_bot5) false example_clock planning_player example_state = Ok (c2, p', s3) ∧
    cc_log c2 = [cmds] ∧ CC 9 [1; 40] ∈ cmds ∧ upcWithId (board_ s3) 2 = None.
Proof.
  split; [vm_compute; reflexivity|].
  destruct (update example_observe (BlackboardUpdate.example_user 5) (λ _, 0) 5 (Clock 3 1 false []) example_state)
    as [s0| | |] eqn:E0; [|by vm_compute in E0..].
  destruct (upcs_reach_game example_observe example_create (BlackboardUpdate.example_user 5) (λ _, 0) 5 reverse
    example_clock (Clock 3 1 false []) planning_player [planner] example_state s0 s0
    (set_board s0 (heap_ s0) BlackboardUpcs.example_units UpcCommands.example_upcs))
    as (s3 & now & sent & cmds & Hn & Hf & Hc & E & Hsh).
  - reflexivity.
  - reflexivity.
  - reflexivity.
  - reflexivity.
  - reflexivity.
  - reflexivity.
  - exact E0.
  - reflexivity.
  - reflexivity.
  - vm_compute in E0. injection E0 as <-. apply UpcCommands.upcs_ready.
  - destruct (Hsh 2 (Upc.makeSharpUPC (Some 1) Command.Cancel) 1 [UpcToCommand.Cancel_Morph]) as (_ & Hin & Hno);
      [reflexivity|apply UpcCommands.sharp_cancel|].
    cbn [cl_send example_client] in E.
    assert (currentFrame_ s3 = 3) as Hf3.
    { rewrite Hf. vm_compute in E0. injection E0 as <-. reflexivity. }
    destruct (planning_count s3 Hf3) as [p' Ep].
    assert (step (H0 := example_bot5) false example_clock planning_player example_state = Ok (Clock 3 1 false [cmds], p', s3))
      as E'.
    { unfold example_bot5 in *. etransitivity; [exact E|]. cbn [planning_player steps_ initialized_]. change (0 + 1) with 1.
      fold planning_player. rewrite Ep. reflexivity. }
    exists s3, cmds, (Clock 3 1 false [cmds]), p'. split; [exact E'|]. split; [reflexivity|]. split; [exact Hin|exact Hno].
Defined.
End BoardPlayer.
