(* ===== verification/Trackers.v ===== *)
(** * Trackers ([src/tracker.h], [src/tracker.cpp], [src/commandtrackers.h],
    [src/commandtrackers.cpp], [State::updateTrackers])

    A tracker is the state of the base class and of one of its subclasses; the
    three virtual functions dispatch on the subclass.  What a tracker reads of
    the game is the record [env]; the set of units the blackboard tracks is
    threaded through the calls.  BWAPI's table from commands to orders is a
    parameter. *)

From S2P Require Import Prelude Floats Geometry BuildTypes GameMechanics Units.

(** [src/src/tracker.h:16-32] TrackerStatus *)
Inductive TrackerStatus := NotTracking | Pending | Timeout | Ongoing | Success | Failure | Cancelled.

#[global] Instance TrackerStatus_eq_dec : EqDecision TrackerStatus.
Proof. solve_decision. Defined.

(** The commands of [tc::BW::UnitCommandType] the trackers name. *)
Inductive UnitCommandType := Build | Morph | Build_Addon | Train | Upgrade | Research.

Module Tracker.

(** What the trackers read of [State]. *)
Record env := Env {
  units : gmap Z Unit;
  currentFrame : Z;
  myUnitsOfType : BuildType → list Z;
  newUnits : list Z;
  tech2StatusMap_ : gmap Z bool;
  upgrade2LevelMap_ : gmap Z Z
}.

(** [src/src/state.cpp:87-98] State::hasResearched *)
Definition hasResearched (e : env) (ty : BuildType) : bool :=
  match tech2StatusMap_ e !! BuildType.tech ty with Some b => b | None => false end.

(** [src/src/state.cpp:100-112] State::getUpgradeLevel *)
Definition getUpgradeLevel (e : env) (ty : BuildType) : Z :=
  match upgrade2LevelMap_ e !! BuildType.upgrade ty with Some n => n | None => 0 end.

(** The members of the subclasses.

    [src/src/commandtrackers.h:26-141] MovementTracker *)
Inductive cls :=
| KMovement (units_ : gset Z) (target_ : Position) (mind_ : float32)
| KBuild (unit_ : Z) (target_ : UnitPtr) (type_ : BuildType) (startedPendingFrame_ : Z)
| KUpgrade (unit_ : Z) (type_ : BuildType)
| KResearch (unit_ : Z) (type_ : BuildType)
| KAttack (units_ enemies_ : gset Z).

(** [src/src/tracker.h:47-85] Tracker *)
Record t := Tracker { status_ : TrackerStatus; time_ : Z; timeout_ : Z; kind : cls }.

(** [src/src/commandtrackers.cpp:21-32] MovementTracker::MovementTracker *)
Definition MovementTracker (us : gset Z) (targetX targetY : Z) (mind : float32) (timeout : Z) : t :=
  Tracker Pending 0 timeout (KMovement us (Vec2.Pos targetX targetY) mind).
(** [src/src/commandtrackers.cpp:109-112] BuildTracker::BuildTracker *)
Definition BuildTracker (unit : Z) (type : BuildType) (timeout : Z) : t :=
  Tracker Pending 0 timeout (KBuild unit None type (-1)).
(** [src/src/commandtrackers.cpp:301-304] UpgradeTracker::UpgradeTracker *)
Definition UpgradeTracker (unit : Z) (type : BuildType) (timeout : Z) : t :=
  Tracker Pending 0 timeout (KUpgrade unit type).
(** [src/src/commandtrackers.cpp:347-350] ResearchTracker::ResearchTracker *)
Definition ResearchTracker (unit : Z) (type : BuildType) (timeout : Z) : t :=
  Tracker Pending 0 timeout (KResearch unit type).
(** [src/src/commandtrackers.cpp:393-400] AttackTracker::AttackTracker *)
Definition AttackTracker (us enemies : gset Z) (timeout : Z) : t :=
  Tracker Pending 0 timeout (KAttack us enemies).

(** [src/src/tracker.h:56-58] Tracker::cancel *)
Definition cancel (t : t) : Tracker.t := Tracker Cancelled (time_ t) (timeout_ t) (kind t).
(** [src/src/tracker.h:59-62] Tracker::failed *)
Definition failed (t : t) : bool :=
  bool_decide (status_ t = Failure) || bool_decide (status_ t = Timeout).
(** [src/src/tracker.h:63-65] Tracker::succeeded *)
Definition succeeded (t : t) : bool := bool_decide (status_ t = Success).

Definition set_status (s : TrackerStatus) (t : t) : Tracker.t := Tracker s (time_ t) (timeout_ t) (kind t).
Definition set_time (n : Z) (t : t) : Tracker.t := Tracker (status_ t) n (timeout_ t) (kind t).
Definition set_kind (k : cls) (t : t) : Tracker.t := Tracker (status_ t) (time_ t) (timeout_ t) k.

Section with_game.
Context {table : BuildTable}.
(** [tc::BW::commandToOrders] *)
Context (commandToOrders : UnitCommandType → list Z).

Definition deref (e : env) (i : Z) : res Unit := of_option (units e !! i).

(** [std::find_first_of] over the orders of a unit and those of a command.

    [src/src/utils/commands.h:20-31] isExecutingCommand *)
Definition isExecutingCommand (u : Unit) (c : UnitCommandType) : bool :=
  existsb (λ o1, existsb (λ o2, Unit.order_type o1 =? o2) (commandToOrders c)) (Unit.orders u).

(** [src/src/utils/algorithms.h:180-193] centerOfUnits *)
Definition centerOfUnits (e : env) (us : gset Z) : res Position :=
  if decide (us = ∅) then Ok (Vec2.Pos 0 0)
  else
    let? p := rfold (λ p i, let? u := deref e i in Ok (Vec2.add p (Unit.pos u))) (elements us) Vec2.origin in
    Ok (Vec2.div p (Z.of_nat (size us))).

(** The loop that removes dead units from a set.

    [src/src/commandtrackers.cpp:461-469] AttackTracker::updateEnemies *)
Definition remove_dead (e : env) (us : gset Z) : res (gset Z) :=
  rfold (λ acc i, let? u := deref e i in Ok (if Unit.dead u then acc ∖ {[i]} else acc)) (elements us) us.

(** A search that stops at the first unit with a property. *)
Fixpoint any_unit (e : env) (p : Unit → bool) (l : list Z) : res bool :=
  match l with
  | [] => Ok false
  | i :: l => let? u := deref e i in if p u then Ok true else any_unit e p l
  end.

(** [unit->unit.velocityX != 0 || unit->unit.velocityY != 0] *)
Definition moving_pending (u : Unit) : bool :=
  negb (feqb (Unit.velocityX u) f64_0) || negb (feqb (Unit.velocityY u) f64_0).
(** [unit->unit.velocityX != 0 && unit->unit.velocityY != 0] *)
Definition moving_ongoing (u : Unit) : bool :=
  negb (feqb (Unit.velocityX u) f64_0) && negb (feqb (Unit.velocityY u) f64_0).
(** [unit->unit.groundCD > 0 || unit->unit.airCD > 0] *)
Definition firing (u : Unit) : bool := (0 <? Unit.groundCD u) || (0 <? Unit.airCD u).

(** ** Movement *)

(** [src/src/commandtrackers.cpp:34-60] MovementTracker::updatePending *)
Definition movement_pending (e : env) (t : t) us target mind : res (bool * Tracker.t) :=
  let? us := remove_dead e us in
  let t := set_kind (KMovement us target mind) t in
  if decide (us = ∅) then Ok (true, set_status Failure t)
  else
    let? m := any_unit e moving_pending (elements us) in
    if (m : bool) then Ok (true, set_status Ongoing t) else Ok (false, t).

(** [src/src/commandtrackers.cpp:62-107] MovementTracker::updateOngoing *)
Definition movement_ongoing (e : env) (t : t) us target mind : res (bool * Tracker.t) :=
  let? us := remove_dead e us in
  let t := set_kind (KMovement us target mind) t in
  if decide (us = ∅) then Ok (true, set_status Failure t)
  else
    let? center := centerOfUnits e us in
    if fltb (Vec2.distanceTo center target) (f64_of_f32 mind) then Ok (true, set_status Success t)
    else
      let? found := any_unit e moving_ongoing (elements us) in
      if (found : bool) then Ok (false, t) else Ok (true, set_status Pending (set_time 0 t)).

(** ** Construction *)

(** [src/src/commandtrackers.h:66-66] BuildTracker::kMorphTimeout *)
Definition kMorphTimeout : Z := 4.
(** [src/src/commandtrackers.h:67-67] BuildTracker::kMorphDistanceThreshold *)
Definition kMorphDistanceThreshold : float32 := f32_of_Z 4.
(** [src/src/commandtrackers.h:68-68] BuildTracker::kNotBuildingTimeout *)
Definition kNotBuildingTimeout : Z := 4.

(** [src/src/commandtrackers.cpp:252-259] BuildTracker::findTargetForDrone *)
Definition findTargetForDrone (e : env) (u : Unit) (target : UnitPtr) (type : BuildType) : res UnitPtr :=
  rfold (λ target i,
    let? c := deref e i in
    if Unit.beingConstructed c && Unit.morphing c &&
       fltb (GameMechanics.distance (Unit.x u) (Unit.y u) (Unit.x c) (Unit.y c)) kMorphDistanceThreshold
    then Ok (Some i) else Ok target) (myUnitsOfType e type) target.

(** [src/src/commandtrackers.cpp:273-284] BuildTracker::findTarget *)
Fixpoint target_of_orders (e : env) (type : BuildType) (orders : list Unit.order) : UnitPtr :=
  match orders with
  | [] => None
  | o :: orders =>
      if existsb (λ ot, Unit.order_type o =? ot) (commandToOrders Build) then
        match units e !! Unit.targetId o with
        | Some tu => if BuildType.eqb (Unit.type tu) type then Some (Unit.targetId o)
                     else target_of_orders e type orders
        | None => target_of_orders e type orders
        end
      else target_of_orders e type orders
  end.

(** [src/src/commandtrackers.cpp:287-297] BuildTracker::findTarget *)
Fixpoint target_of_new (e : env) (tracked : gset Z) (type : BuildType) (l : list Z) : res UnitPtr :=
  match l with
  | [] => Ok None
  | i :: l =>
      let? c := deref e i in
      if Unit.isMine c && BuildType.eqb (Unit.type c) type && negb (Unit.completed c) &&
         negb (bool_decide (Unit.id c ∈ tracked))
      then Ok (Some i) else target_of_new e tracked type l
  end.

(** [unit_->constructingType == type_] *)
Definition is_type (o : option BuildType) (type : BuildType) : bool := bool_decide (o = Some type).

(** [src/src/commandtrackers.cpp:261-299] BuildTracker::findTarget *)
Definition findTarget (e : env) (tracked : gset Z) (unit : Z) (u : Unit) (target : UnitPtr) (type : BuildType)
    : res (gset Z * UnitPtr) :=
  match target with
  | Some _ => Ok (tracked, target)
  | None =>
      if Unit.morphing u then
        if BuildType.eqb (Unit.type u) type || is_type (Unit.constructingType u) type
        then Ok (tracked, Some unit) else Ok (tracked, None)
      else if BuildType.isWorker (Unit.type u) then
        Ok (tracked, target_of_orders e type (Unit.orders u))
      else
        let? o := target_of_new e tracked type (newUnits e) in
        match o with
        | Some i => let? c := deref e i in Ok (tracked ∪ {[Unit.id c]}, Some i)
        | None => Ok (tracked, None)
        end
  end.

(** [src/src/commandtrackers.cpp:145-152] BuildTracker::updatePending *)
Definition command_pending (u : Unit) (type : BuildType) : UnitCommandType :=
  if Unit.morphing u && negb (BuildType.isBuilding (Unit.type u)) then Morph
  else if BuildType.isAddon type then Build_Addon
  else if negb (BuildType.isBuilding type) then Train
  else Build.

(** [src/src/commandtrackers.cpp:234-241] BuildTracker::updateOngoing *)
Definition command_ongoing (unit : Z) (u : Unit) (target : UnitPtr) (type : BuildType) : UnitCommandType :=
  if Unit.morphing u && negb (BuildType.isBuilding (Unit.type u)) then Morph
  else if BuildType.isAddon type then Build_Addon
  else if BuildType.isBuilding (Unit.type u) && bool_decide (Some unit ≠ target) then Train
  else Build.

(** [src/src/commandtrackers.cpp:114-198] BuildTracker::updatePending *)
Definition build_pending (e : env) (tracked : gset Z) (t : t) unit target type started
    : res (bool * gset Z * Tracker.t) :=
  let started := if started <? 0 then currentFrame e else started in
  let keep o s := set_kind (KBuild unit o type s) t in
  let? u := deref e unit in
  if Unit.dead u then
    if negb (BuildType.eqb (Unit.type u) BuildType.Zerg_Drone) then
      Ok (true, tracked, set_status Failure (keep target started))
    else if Unit.lastSeen u + kMorphTimeout <? currentFrame e then
      Ok (true, tracked, set_status Failure (keep target started))
    else
      let? o := findTargetForDrone e u target type in
      match o with
      | Some _ => Ok (true, tracked, set_status Ongoing (keep o (-1)))
      | None => Ok (false, tracked, keep o started)
      end
  else if isExecutingCommand u (command_pending u type) then
    let? r := findTarget e tracked unit u target type in
    let '(tracked, o) := r in
    match o with
    | Some _ => Ok (true, tracked, set_status Ongoing (keep o (-1)))
    | None => Ok (false, tracked, keep o started)
    end
  else if kNotBuildingTimeout <? currentFrame e - started then
    Ok (false, tracked, set_status Timeout (keep target started))
  else Ok (false, tracked, keep target started).

(** [src/src/commandtrackers.cpp:219-232] BuildTracker::updateOngoing *)
Definition target_done (e : env) (target : UnitPtr) : res (option (TrackerStatus * Z)) :=
  match target with
  | None => Ok None
  | Some i =>
      let? c := deref e i in
      if Unit.completed c then Ok (Some (Success, Unit.id c))
      else if Unit.dead c then Ok (Some (Failure, Unit.id c))
      else Ok None
  end.

(** [src/src/commandtrackers.cpp:200-250] BuildTracker::updateOngoing *)
Definition build_ongoing (e : env) (tracked : gset Z) (t : t) unit target type started
    : res (bool * gset Z * Tracker.t) :=
  let keep o := set_kind (KBuild unit o type started) t in
  let? u := deref e unit in
  let unitDeadNotBuildingExtractor := Unit.dead u && negb (BuildType.eqb type BuildType.Zerg_Extractor) in
  let unitTypeIncoherent :=
    negb (is_type (BuildType.builder type) (Unit.type u)) && negb (BuildType.eqb (Unit.type u) type) &&
    (negb (Unit.morphing u) || negb (is_type (Unit.constructingType u) type)) in
  if unitDeadNotBuildingExtractor || negb (Unit.isMine u) || unitTypeIncoherent then
    Ok (true, tracked, set_status Failure t)
  else
    let? r := findTarget e tracked unit u target type in
    let '(tracked, o) := r in
    let? d := target_done e o in
    match d with
    | Some (s, id) => Ok (true, tracked ∖ {[id]}, set_status s (keep o))
    | None =>
        if negb (isExecutingCommand u (command_ongoing unit u o type)) then
          Ok (true, tracked, set_status Failure (keep o))
        else Ok (false, tracked, keep o)
    end.

(** ** Upgrades and research *)

(** [src/src/commandtrackers.cpp:306-322] UpgradeTracker::updatePending *)
Definition upgrade_pending (e : env) (t : t) unit type : res (bool * Tracker.t) :=
  let? u := deref e unit in
  if Unit.dead u then Ok (true, set_status Failure t)
  else if Unit.upgrading u && is_type (Unit.upgradingType u) type then Ok (true, set_status Ongoing t)
  else if isExecutingCommand u Upgrade then Ok (true, set_status Ongoing t)
  else Ok (false, t).

(** [src/src/commandtrackers.cpp:324-345] UpgradeTracker::updateOngoing *)
Definition upgrade_ongoing (e : env) (t : t) unit type : res (bool * Tracker.t) :=
  let? u := deref e unit in
  if Unit.dead u then Ok (true, set_status Failure t)
  else if getUpgradeLevel e type =? BuildType.level type then Ok (true, set_status Success t)
  else if Unit.upgrading u && is_type (Unit.upgradingType u) type then Ok (false, t)
  else if negb (isExecutingCommand u Upgrade) then Ok (true, set_status Failure t)
  else Ok (false, t).

(** [src/src/commandtrackers.cpp:352-369] ResearchTracker::updatePending *)
Definition research_pending (e : env) (t : t) unit type : res (bool * Tracker.t) :=
  let? u := deref e unit in
  if Unit.dead u then Ok (true, set_status Failure t)
  else if Unit.researching u && is_type (Unit.researchingType u) type then Ok (true, set_status Ongoing t)
  else if isExecutingCommand u Research then Ok (true, set_status Ongoing t)
  else Ok (false, t).

(** [src/src/commandtrackers.cpp:371-391] ResearchTracker::updateOngoing *)
Definition research_ongoing (e : env) (t : t) unit type : res (bool * Tracker.t) :=
  let? u := deref e unit in
  if Unit.dead u then Ok (true, set_status Failure t)
  else if hasResearched e type then Ok (true, set_status Success t)
  else if Unit.researching u && is_type (Unit.researchingType u) type then Ok (false, t)
  else if negb (isExecutingCommand u Research) then Ok (true, set_status Failure t)
  else Ok (false, t).

(** ** Attacks *)

(** [src/src/commandtrackers.cpp:406-428] AttackTracker::updatePending *)
Definition attack_pending (e : env) (t : t) us enemies : res (bool * Tracker.t) :=
  let? enemies := remove_dead e enemies in
  let t := set_kind (KAttack us enemies) t in
  if decide (enemies = ∅) then Ok (true, set_status Success t)
  else if decide (us = ∅) then Ok (true, set_status Failure t)
  else
    let? f := any_unit e firing (elements us) in
    if (f : bool) then Ok (true, set_status Ongoing t) else Ok (false, t).

(** [src/src/commandtrackers.cpp:430-459] AttackTracker::updateOngoing *)
Definition attack_ongoing (e : env) (t : t) us enemies : res (bool * Tracker.t) :=
  let? enemies := remove_dead e enemies in
  let t := set_kind (KAttack us enemies) t in
  if decide (enemies = ∅) then Ok (true, set_status Success t)
  else if decide (us = ∅) then Ok (true, set_status Failure t)
  else
    let? f := any_unit e firing (elements us) in
    if (f : bool) then Ok (false, set_time 0 t)
    else
      let t := set_time (time_ t + 1) t in
      if timeout_ t <? time_ t then Ok (true, set_status Timeout t) else Ok (false, t).

(** ** Dispatch *)

Definition untracked (tracked : gset Z) (m : res (bool * t)) : res (bool * gset Z * t) :=
  let? r := m in Ok (r.1, tracked, r.2).

(** [src/src/commandtrackers.cpp:402-404] AttackTracker::updateNotTracking *)
Definition updateNotTracking (e : env) (tracked : gset Z) (t : t) : res (bool * gset Z * Tracker.t) :=
  Ok (false, tracked, t).

(** The virtual [updatePending]. *)
Definition updatePending (e : env) (tracked : gset Z) (t : t) : res (bool * gset Z * Tracker.t) :=
  match kind t with
  | KMovement us target mind => untracked tracked (movement_pending e t us target mind)
  | KBuild unit target type started => build_pending e tracked t unit target type started
  | KUpgrade unit type => untracked tracked (upgrade_pending e t unit type)
  | KResearch unit type => untracked tracked (research_pending e t unit type)
  | KAttack us enemies => untracked tracked (attack_pending e t us enemies)
  end.

(** The virtual [updateOngoing]. *)
Definition updateOngoing (e : env) (tracked : gset Z) (t : t) : res (bool * gset Z * Tracker.t) :=
  match kind t with
  | KMovement us target mind => untracked tracked (movement_ongoing e t us target mind)
  | KBuild unit target type started => build_ongoing e tracked t unit target type started
  | KUpgrade unit type => untracked tracked (upgrade_ongoing e t unit type)
  | KResearch unit type => untracked tracked (research_ongoing e t unit type)
  | KAttack us enemies => untracked tracked (attack_ongoing e t us enemies)
  end.

(** [src/src/tracker.cpp:14-52] Tracker::update *)
Definition update (e : env) (tracked : gset Z) (t : t) : res (bool * gset Z * Tracker.t) :=
  match status_ t with
  | NotTracking =>
      let t := set_time (time_ t + 1) t in
      if timeout_ t <? time_ t then Ok (true, tracked, set_status Timeout t)
      else
        let? r := updateNotTracking e tracked t in
        let '(changed, tracked, t) := r in
        if (changed : bool) then
          Ok (true, tracked, if decide (status_ t = Pending) then set_time 0 t else t)
        else Ok (false, tracked, t)
  | Pending =>
      let t := set_time (time_ t + 1) t in
      if timeout_ t <? time_ t then Ok (true, tracked, set_status Timeout t)
      else
        let? r := updatePending e tracked t in
        let '(changed, tracked, t) := r in
        if (changed : bool) then
          Ok (true, tracked, if decide (status_ t = Ongoing) then set_time 0 t else t)
        else Ok (false, tracked, t)
  | Ongoing => updateOngoing e tracked t
  | _ => Ok (false, tracked, t)
  end.

(** Whether [updateTrackers] drops a tracker with this status. *)
Definition terminal (s : TrackerStatus) : bool :=
  match s with Timeout | Success | Failure | Cancelled => true | _ => false end.

(** [src/src/state.cpp:374-401] State::updateTrackers *)
Fixpoint updateTrackers (e : env) (tracked : gset Z) (l : list t) : res (gset Z * list Tracker.t) :=
  match l with
  | [] => Ok (tracked, [])
  | tr :: l =>
      let? r := update e tracked tr in
      let '(_, tracked, tr) := r in
      let? r := updateTrackers e tracked l in
      let '(tracked, l) := r in
      Ok (tracked, if terminal (status_ tr) then l else tr :: l)
  end.

(** ** The status machine *)

(** Follows every branch of a virtual function that returned. *)
Ltac branches :=
  repeat first
    [ progress inv_res
    | progress simplify_eq
    | match goal with
      | H : context [let '(_, _) := ?x in _] |- _ => destruct x eqn:?
      | H : context [if ?b then _ else _] |- _ => destruct b eqn:?
      | H : context [match ?o with Some _ => _ | None => _ end] |- _ => destruct o eqn:?
      end ].

Ltac unfold_virtual :=
  unfold untracked, movement_pending, build_pending, upgrade_pending, research_pending, attack_pending,
    movement_ongoing, build_ongoing, upgrade_ongoing, research_ongoing, attack_ongoing in *.

(** The edges of the status machine of each tracker. *)
Definition edge (k : cls) (s s' : TrackerStatus) : Prop :=
  match s, s' with
  | NotTracking, Timeout | Pending, (Timeout | Failure | Ongoing) | Ongoing, (Success | Failure) => True
  | Pending, Success | Ongoing, Timeout => match k with KAttack _ _ => True | _ => False end
  | Ongoing, Pending => match k with KMovement _ _ _ => True | _ => False end
  | _, _ => False
  end.

Definition same_kind (k k' : cls) : Prop :=
  match k, k' with
  | KMovement _ _ _, KMovement _ _ _ | KBuild _ _ _ _, KBuild _ _ _ _ | KUpgrade _ _, KUpgrade _ _
  | KResearch _ _, KResearch _ _ | KAttack _ _, KAttack _ _ => True
  | _, _ => False
  end.

(** What a call of [updatePending] may do to a pending tracker. *)
Lemma updatePending_spec e tr t b tr' t' : updatePending e tr t = Ok (b, tr', t') → status_ t = Pending →
  same_kind (kind t) (kind t') ∧ time_ t' = time_ t ∧ timeout_ t' = timeout_ t ∧
  (status_ t' = Pending ∧ b = false ∨
   edge (kind t) Pending (status_ t') ∧
     (b = true ∨ b = false ∧ status_ t' = Timeout ∧ ∃ u o ty f, kind t = KBuild u o ty f)).
Proof.
  unfold updatePending. destruct (kind t) eqn:Ek; intros H Hs; unfold_virtual; branches;
    simpl; rewrite ?Hs, ?Ek; split_and!; try done; naive_solver.
Qed.

Lemma updateOngoing_spec e tr t b tr' t' : updateOngoing e tr t = Ok (b, tr', t') → status_ t = Ongoing →
  same_kind (kind t) (kind t') ∧ timeout_ t' = timeout_ t ∧
  (status_ t' = Ongoing ∧ b = false ∨ edge (kind t) Ongoing (status_ t') ∧ b = true).
Proof.
  unfold updateOngoing. destruct (kind t) eqn:Ek; intros H Hs; unfold_virtual; branches;
    simpl; rewrite ?Hs, ?Ek; split_and!; try done; try naive_solver.
  all: match goal with H : target_done _ _ = Ok _ |- _ => unfold target_done in H; branches; naive_solver end.
Qed.

Ltac close_status :=
  split_and!; simpl in *; try done; try (by left); try (by right); try (intros; naive_solver lia).

Lemma updateBase_spec e tr t b tr' t' : update e tr t = Ok (b, tr', t') →
  same_kind (kind t) (kind t') ∧ timeout_ t' = timeout_ t ∧
  (status_ t' = status_ t ∨ edge (kind t) (status_ t) (status_ t')) ∧
  (terminal (status_ t) = true → b = false ∧ tr' = tr ∧ t' = t) ∧
  (status_ t = NotTracking ∨ status_ t = Pending → status_ t' = status_ t → 
     time_ t' = time_ t + 1 ∧ time_ t' ≤ timeout_ t) ∧
  ((∀ u o ty f, kind t ≠ KBuild u o ty f) → b = true ↔ status_ t' ≠ status_ t).
Proof.
  assert (∀ k, same_kind k k) as Hk by by intros [].
  unfold update. destruct (status_ t) eqn:Es.
  - destruct (timeout_ (set_time (time_ t + 1) t) <? time_ (set_time (time_ t + 1) t)) eqn:Et; simpl in Et;
      unfold updateNotTracking; simpl; intros [= <- <- <-]; simpl; rewrite ?Es; close_status.
  - destruct (timeout_ (set_time (time_ t + 1) t) <? time_ (set_time (time_ t + 1) t)) eqn:Et; simpl in Et.
    + intros [= <- <- <-]; simpl; close_status.
    + intros H. apply rbind_Ok_inv in H as ([[b1 tr1] t1] & Hp & H).
      destruct (updatePending_spec _ _ _ _ _ _ Hp) as (K & T1 & T2 & S); [done|]. simpl in *.
      destruct b1; injection H as <- <- <-.
      * destruct S as [[_ ?]|[S [_|(? & _)]]]; [done| |done].
        assert (status_ t1 ≠ Pending) as Hne by (intros E; by rewrite E in S).
        case_decide; close_status.
      * destruct S as [[S _]|[S [?|(_ & E & u & o & ty & f & Hb)]]]; [rewrite S; close_status|done|].
        rewrite E in *. close_status.
  - intros [= <- <- <-]. rewrite Es. close_status.
  - intros H. destruct (updateOngoing_spec _ _ _ _ _ _ H Es) as (K & T & [[S ->]|[S ->]]).
    + rewrite S. close_status.
    + assert (status_ t' ≠ Ongoing) as Hne by (intros E; by rewrite E in S). close_status.
  - intros [= <- <- <-]. rewrite Es. close_status.
  - intros [= <- <- <-]. rewrite Es. close_status.
  - intros [= <- <- <-]. rewrite Es. close_status.
Qed.

(** ** Updating is defined *)

(** The game knows every unit that a tracker or a list of it points to. *)
Definition known (e : env) (i : Z) : Prop := is_Some (units e !! i).
Definition env_ok (e : env) : Prop :=
  (∀ ty i, i ∈ myUnitsOfType e ty → known e i) ∧ ∀ i, i ∈ newUnits e → known e i.
Definition known_cls (e : env) (k : cls) : Prop :=
  match k with
  | KMovement us _ _ => ∀ i, i ∈ us → known e i
  | KBuild u o _ _ => known e u ∧ ∀ i, o = Some i → known e i
  | KUpgrade u _ | KResearch u _ => known e u
  | KAttack us en => (∀ i, i ∈ us → known e i) ∧ ∀ i, i ∈ en → known e i
  end.

Lemma deref_known e i : known e i → ∃ u, deref e i = Ok u.
Proof. intros [u Hu]. exists u. unfold deref. by rewrite Hu. Qed.

Lemma remove_dead_total e us : (∀ i, i ∈ us → known e i) → ∃ us', remove_dead e us = Ok us' ∧ us' ⊆ us.
Proof.
  intros Hk. apply (rfold_total (λ acc, acc ⊆ us)); [|done]. intros acc i Hi Hs.
  destruct (deref_known e i) as [u ->]; [apply Hk; by apply elem_of_elements in Hi|].
  eexists. split; [done|]. case_match; set_solver.
Qed.

Lemma any_unit_total e p l : (∀ i, i ∈ l → known e i) → ∃ b, any_unit e p l = Ok b.
Proof.
  induction l as [|i l IH]; intros Hk; cbn [any_unit]; [eauto|].
  destruct (deref_known e i) as [u ->]; [apply Hk; by left|]. cbn [rbind].
  case_match; [eauto|]. apply IH. intros j Hj. apply Hk. by right.
Qed.

Lemma any_elements_total e p (us : gset Z) : (∀ i, i ∈ us → known e i) → ∃ b, any_unit e p (elements us) = Ok b.
Proof. intros Hk. apply any_unit_total. intros i Hi%elem_of_elements. auto. Qed.

Lemma centerOfUnits_total e us : (∀ i, i ∈ us → known e i) → ∃ c, centerOfUnits e us = Ok c.
Proof.
  intros Hk. unfold centerOfUnits. case_decide; [eauto|].
  destruct (rfold_total (λ _, True) (λ p i, let? u := deref e i in Ok (Vec2.add p (Unit.pos u)))
    (elements us) Vec2.origin) as (p & -> & _); [|done|simpl; eauto].
  intros acc i Hi _. destruct (deref_known e i) as [u ->]; [apply Hk; by apply elem_of_elements in Hi|].
  simpl. eauto.
Qed.

Lemma findTargetForDrone_total e u o ty : env_ok e → (∀ i, o = Some i → known e i) →
  ∃ o', findTargetForDrone e u o ty = Ok o' ∧ ∀ i, o' = Some i → known e i.
Proof.
  intros [Hm _] Ho. apply (rfold_total (λ o, ∀ i, o = Some i → known e i)); [|done].
  intros acc i Hi Ha. destruct (deref_known e i) as [c ->]; [by eapply Hm|]. cbn [rbind].
  case_match; eexists; (split; [done|]); [|done]. intros j [= <-]. by eapply Hm.
Qed.

Lemma target_of_new_total e tr ty l : (∀ i, i ∈ l → known e i) →
  ∃ o, target_of_new e tr ty l = Ok o ∧ ∀ i, o = Some i → known e i.
Proof.
  induction l as [|i l IH]; intros Hk; cbn [target_of_new]; [by exists None|].
  destruct (deref_known e i) as [u ->]; [apply Hk; by left|]. cbn [rbind]. case_match.
  - exists (Some i). split; [done|]. intros j [= <-]. apply Hk. by left.
  - apply IH. intros j Hj. apply Hk. by right.
Qed.

Lemma target_of_orders_known e ty os i : target_of_orders e ty os = Some i → known e i.
Proof. induction os as [|o os IH]; simpl; [done|]. repeat case_match; try done. intros [= <-]. by eexists. Qed.

Lemma findTarget_total e tr unit u o ty : env_ok e → known e unit → (∀ i, o = Some i → known e i) →
  ∃ tr' o', findTarget e tr unit u o ty = Ok (tr', o') ∧ ∀ i, o' = Some i → known e i.
Proof.
  intros He Hu Ho. unfold findTarget. destruct o as [i|]; [by do 2 eexists|].
  case_match; [case_match; do 2 eexists; (split; [done|]); naive_solver|].
  case_match; [do 2 eexists; split; [done|]; intros; by eapply target_of_orders_known|].
  destruct (target_of_new_total e tr ty (newUnits e)) as (o & -> & Hk); [apply He|]. cbn [rbind].
  destruct o as [i|]; [|by do 2 eexists]. destruct (deref_known e i) as [c ->]; [by apply Hk|].
  cbn [rbind]. by do 2 eexists.
Qed.

(** An outcome that is defined and points to known units. *)
Definition fine (e : env) (m : res (bool * gset Z * t)) : Prop :=
  ∃ b tr' t', m = Ok (b, tr', t') ∧ known_cls e (kind t').

Lemma fine_Ok e b tr t : known_cls e (kind t) → fine e (Ok (b, tr, t)).
Proof. intros H. by exists b, tr, t. Qed.
Ltac fine_done := cbn [rbind]; try (apply fine_Ok; simpl; solve [auto]).

Lemma movement_fine e tr t us p d : (∀ i, i ∈ us → known e i) →
  fine e (untracked tr (movement_pending e t us p d)) ∧ fine e (untracked tr (movement_ongoing e t us p d)).
Proof.
  intros Hk. destruct (remove_dead_total e us Hk) as (us' & E & Hs).
  assert (∀ i, i ∈ us' → known e i) as Hk' by set_solver.
  unfold untracked, movement_pending, movement_ongoing. rewrite E. cbn [rbind]. split; case_decide; fine_done.
  - destruct (any_elements_total e moving_pending us' Hk') as [b ->]. cbn [rbind]. destruct b; fine_done.
  - destruct (centerOfUnits_total e us' Hk') as [c ->]. cbn [rbind]. case_match; fine_done.
    destruct (any_elements_total e moving_ongoing us' Hk') as [b ->]. cbn [rbind]. destruct b; fine_done.
Qed.

Lemma attack_fine e tr t us en : (∀ i, i ∈ us → known e i) → (∀ i, i ∈ en → known e i) →
  fine e (untracked tr (attack_pending e t us en)) ∧ fine e (untracked tr (attack_ongoing e t us en)).
Proof.
  intros Hk Hn. destruct (remove_dead_total e en Hn) as (en' & E & Hs).
  assert (∀ i, i ∈ en' → known e i) as Hn' by set_solver.
  unfold untracked, attack_pending, attack_ongoing. rewrite E. cbn [rbind].
  destruct (any_elements_total e firing us Hk) as [b ->].
  split; repeat case_decide; destruct b; fine_done.
  case_match; fine_done.
Qed.

Lemma build_fine e tr t unit o ty f : env_ok e → known e unit → (∀ i, o = Some i → known e i) →
  fine e (build_pending e tr t unit o ty f) ∧
  (kind t = KBuild unit o ty f → fine e (build_ongoing e tr t unit o ty f)).
Proof.
  intros He Hu Ho. destruct (deref_known e unit Hu) as [u E]. unfold build_pending, build_ongoing. rewrite E.
  cbn [rbind]. destruct (findTarget_total e tr unit u o ty He Hu Ho) as (tr' & o' & Ef & Hk).
  rewrite Ef. cbn [rbind]. split.
  - destruct (findTargetForDrone_total e u o ty He Ho) as (o2 & -> & Hk2). cbn [rbind].
    destruct o', o2; repeat case_match; apply fine_Ok; simpl; auto.
  - intros Et. case_match; [apply fine_Ok; simpl; rewrite Et; by split|]. unfold target_done. destruct o' as [i|].
    + destruct (deref_known e i (Hk i eq_refl)) as [c ->]. cbn [rbind].
      repeat case_match; simplify_eq; apply fine_Ok; simpl; auto.
    + cbn [rbind]. case_match; apply fine_Ok; simpl; auto.
Qed.

Lemma tech_fine e tr t unit ty : known e unit → known_cls e (kind t) →
  fine e (untracked tr (upgrade_pending e t unit ty)) ∧ fine e (untracked tr (upgrade_ongoing e t unit ty)) ∧
  fine e (untracked tr (research_pending e t unit ty)) ∧ fine e (untracked tr (research_ongoing e t unit ty)).
Proof.
  intros Hu Hk. destruct (deref_known e unit Hu) as [u E]. unfold_virtual. rewrite E. cbn [rbind].
  split_and!; repeat case_match; cbn [rbind]; by apply fine_Ok.
Qed.

Lemma update_fine e tr t : env_ok e → known_cls e (kind t) → fine e (update e tr t).
Proof.
  intros He Hk. unfold update.
  assert (∀ m, fine e m → fine e (let? r := m in let '(changed, tracked, t) := r in
    if (changed : bool) then Ok (true, tracked, if decide (status_ t = Ongoing) then set_time 0 t else t)
    else Ok (false, tracked, t))) as Hwrap.
  { intros m (b & tr1 & t1 & -> & H1). cbn [rbind]. destruct b; [case_decide|]; apply fine_Ok; done. }
  destruct (status_ t); try by apply fine_Ok.
  - case_match; [by apply fine_Ok|]. cbn [rbind]. by apply fine_Ok.
  - case_match; [by apply fine_Ok|]. apply Hwrap. unfold updatePending. simpl in *.
    destruct (kind t) eqn:Ek; simpl in Hk.
    + by apply movement_fine.
    + destruct Hk. by apply build_fine.
    + apply tech_fine; [done|]. simpl. by rewrite Ek.
    + apply tech_fine; [done|]. simpl. by rewrite Ek.
    + destruct Hk. by apply attack_fine.
  - unfold updateOngoing. destruct (kind t) eqn:Ek; simpl in Hk.
    + by apply movement_fine.
    + destruct Hk. by apply build_fine.
    + apply tech_fine; [done|]. by rewrite Ek.
    + apply tech_fine; [done|]. by rewrite Ek.
    + destruct Hk. by apply attack_fine.
Qed.

(** C40 Updating a tracker is defined and keeps it valid as long as the game
    knows the units it points to.  It only moves along the edges of its status
    machine, and once it has timed out, succeeded, failed or been cancelled,
    nothing changes any more. *)
Theorem update_status_machine e tr t : env_ok e → known_cls e (kind t) →
  ∃ b tr' t', update e tr t = Ok (b, tr', t') ∧ known_cls e (kind t') ∧
    (status_ t' = status_ t ∨ edge (kind t) (status_ t) (status_ t')) ∧
    (terminal (status_ t) = true → b = false ∧ tr' = tr ∧ t' = t).
Proof.
  intros He Hk. destruct (update_fine e tr t He Hk) as (b & tr' & t' & E & Hk').
  exists b, tr', t'. apply updateBase_spec in E as E'. destruct E' as (_ & _ & ? & ? & _). done.
Qed.

(** [update] reports a change exactly when the status changed, for every
    tracker but the build tracker. *)
Theorem update_reports_change e tr t b tr' t' : update e tr t = Ok (b, tr', t') →
  (∀ u o ty f, kind t ≠ KBuild u o ty f) → b = true ↔ status_ t' ≠ status_ t.
Proof. intros H. apply updateBase_spec in H as (_ & _ & _ & _ & _ & ?). done. Qed.

(** A build tracker whose worker ignores the order for more than
    [kNotBuildingTimeout] frames times out without reporting the change. *)
Theorem build_timeout_unreported e tr t unit ty started u :
  kind t = KBuild unit None ty started → status_ t = Pending → time_ t < timeout_ t →
  units e !! unit = Some u → Unit.dead u = false →
  isExecutingCommand u (command_pending u ty) = false →
  0 ≤ started → kNotBuildingTimeout < currentFrame e - started →
  ∃ t', update e tr t = Ok (false, tr, t') ∧ status_ t' = Timeout.
Proof.
  intros Hk Hs Ht Hu Hd Hc H0 Hl. unfold update. rewrite Hs. simpl.
  replace (timeout_ t <? time_ t + 1) with false by lia.
  unfold updatePending. simpl. rewrite Hk. unfold build_pending, deref. rewrite Hu. simpl.
  rewrite Hd, Hc. replace (started <? 0) with false by lia.
  replace (kNotBuildingTimeout <? currentFrame e - started) with true by lia. simpl. eauto.
Qed.

(** ** Waiting is bounded *)

(** A tracker that keeps status [s] through a sequence of updates. *)
Inductive stays (s : TrackerStatus) : gset Z → t → list env → t → Prop :=
| stays_nil tr t : stays s tr t [] t
| stays_cons tr t e es b tr1 t1 t2 : update e tr t = Ok (b, tr1, t1) → status_ t1 = s →
    stays s tr1 t1 es t2 → stays s tr t (e :: es) t2.

(** No tracker waits for ever: it leaves [NotTracking] and [Pending] after
    at most the rest of its timeout, whatever the game does. *)
Theorem waiting_bounded s tr t es t' : s = NotTracking ∨ s = Pending → status_ t = s →
  stays s tr t es t' → Z.of_nat (length es) ≤ Z.max 0 (timeout_ t - time_ t).
Proof.
  intros Hs. induction 2 as [|tr t e es b tr1 t1 t2 Hu Hs1 _ IH]; [simpl; lia|].
  apply updateBase_spec in Hu as (_ & Ht & _ & _ & Hw & _).
  rewrite H in Hw. destruct (Hw Hs Hs1). specialize (IH Hs1). simpl. lia.
Qed.

(** ** Success means success *)

Lemma remove_dead_spec e us us' : remove_dead e us = Ok us' →
  us' ⊆ us ∧ ∀ i, i ∈ us → ∃ u, units e !! i = Some u ∧ (i ∈ us' ↔ Unit.dead u = false).
Proof.
  unfold remove_dead. intros H.
  assert (∀ (l : list Z) (acc acc' : gset Z), rfold (λ acc i, let? u := deref e i in Ok (if Unit.dead u then acc ∖ {[i]} else acc)) l acc
    = Ok acc' → acc' ⊆ acc ∧ (∀ i, i ∈ acc' ↔ i ∈ acc ∧ ∀ u, i ∈ l → units e !! i = Some u → Unit.dead u = false) ∧
      ∀ i, i ∈ l → is_Some (units e !! i)) as Hl.
  { clear. induction l as [|i l IH]; intros acc acc' H; cbn [rfold] in H.
    - inv_res. split_and!; set_solver.
    - apply rbind_Ok_inv in H as (acc1 & H1 & H2). apply rbind_Ok_inv in H1 as (u & Hu & H1).
      apply of_option_Ok in Hu. injection H1 as <-. destruct (IH _ _ H2) as (Hs & Hm & Hk). split_and!.
      + destruct (Unit.dead u); set_solver.
      + intros j. rewrite Hm. destruct (decide (j = i)) as [->|Hne].
        * destruct (Unit.dead u) eqn:Ed; split; [set_solver|..].
          -- intros [_ Hx]. specialize (Hx u (list_elem_of_here _ _) Hu). congruence.
          -- intros [? Hx]. split; [done|]. intros u' _ Hu'. simplify_eq. done.
          -- intros [? Hx]. split; [done|]. intros. eapply Hx; [by right|done].
        * assert (j ∈ (if Unit.dead u then acc ∖ {[i]} else acc) ↔ j ∈ acc) as -> by (destruct (Unit.dead u); set_solver).
          split; intros [? Hx]; (split; [done|]); intros u'; [intros [?|?]%elem_of_cons|intros ?]; try done;
            apply Hx; set_solver.
      + intros j [->|?]%elem_of_cons; [eauto|by apply Hk]. }
  apply Hl in H as (Hs & Hm & Hk). split; [done|]. intros i Hi.
  destruct (Hk i) as [u Hu]; [by apply elem_of_elements|]. exists u. split; [done|].
  rewrite Hm. split.
  - intros [_ Hx]. apply Hx; [by apply elem_of_elements|done].
  - intros Hd. split; [done|]. intros u' _ Hu'. by simplify_eq.
Qed.

(** What a successful tracker's command has achieved. *)
Definition achieved (e : env) (tr' : gset Z) (k k' : cls) : Prop :=
  match k, k' with
  | KMovement us target mind, KMovement us' _ _ =>
      us' ≠ ∅ ∧ us' ⊆ us ∧ (∀ i, i ∈ us' → ∃ u, units e !! i = Some u ∧ Unit.dead u = false) ∧
      ∃ c, centerOfUnits e us' = Ok c ∧ fltb (Vec2.distanceTo c target) (f64_of_f32 mind) = true
  | KBuild _ _ ty _, KBuild _ (Some i) _ _ =>
      ∃ c, units e !! i = Some c ∧ Unit.completed c = true ∧ Unit.id c ∉ tr'
  | KUpgrade _ ty, KUpgrade _ _ => getUpgradeLevel e ty = BuildType.level ty
  | KResearch _ ty, KResearch _ _ => hasResearched e ty = true
  | KAttack us enemies, KAttack _ _ => ∀ i, i ∈ enemies → ∃ u, units e !! i = Some u ∧ Unit.dead u = true
  | _, _ => False
  end.

Lemma remove_dead_empty e us : remove_dead e us = Ok ∅ →
  ∀ i, i ∈ us → ∃ u, units e !! i = Some u ∧ Unit.dead u = true.
Proof.
  intros H%remove_dead_spec i Hi. destruct H as [_ H]. destruct (H i Hi) as (u & Hu & Hd).
  exists u. split; [done|]. destruct (Unit.dead u); [done|]. exfalso. by apply (not_elem_of_empty (C := gset Z) i), Hd.
Qed.

Lemma attack_success e t us en b t' : attack_pending e t us en = Ok (b, t') ∨ attack_ongoing e t us en = Ok (b, t') →
  status_ t ≠ Success → status_ t' = Success → ∃ us' en', kind t' = KAttack us' en' ∧
    ∀ i, i ∈ en → ∃ u, units e !! i = Some u ∧ Unit.dead u = true.
Proof.
  intros [H|H] Hn Hs; unfold_virtual; branches; simpl in *; try done;
    do 2 eexists; (split; [done|]); by apply remove_dead_empty.
Qed.

(** A tracker reports success only when its command is accomplished: the
    surviving units have arrived, the building or unit is completed (and no
    longer tracked), the upgrade has its level, the technology is researched,
    or every enemy is dead. *)
Theorem success_achieved e tr t b tr' t' : update e tr t = Ok (b, tr', t') →
  status_ t ≠ Success → status_ t' = Success → achieved e tr' (kind t) (kind t').
Proof.
  unfold update. destruct (status_ t) eqn:Es; intros H Hn Hs.
  - unfold updateNotTracking in H. branches; simpl in *; try done. congruence.
  - destruct (timeout_ _ <? time_ _); [by simplify_eq|]. apply rbind_Ok_inv in H as ([[b1 tr1] t1] & Hp & H).
    assert (tr' = tr1 ∧ kind t' = kind t1 ∧ status_ t1 = Success) as (-> & -> & Hs1).
    { destruct b1; simplify_eq; [case_decide|]; done. }
    clear H Hs. unfold updatePending in Hp. simpl in Hp. destruct (kind t) eqn:Ek.
    1-4: exfalso; unfold_virtual; branches; simpl in *; congruence.
    unfold untracked in Hp. apply rbind_Ok_inv in Hp as ([b2 t2] & Hp & E). simplify_eq/=.
    destruct (attack_success e _ _ _ _ _ (or_introl Hp)) as (us' & en' & -> & Hd); [simpl; congruence|done|]. done.
  - simplify_eq. congruence.
  - clear Hn. unfold updateOngoing in H. destruct (kind t) eqn:Ek.
    + unfold_virtual. branches; simpl in *; try congruence.
      match goal with Hr : remove_dead _ _ = Ok _ |- _ =>
        destruct (remove_dead_spec _ _ _ Hr) as [Hsub Hd] end. split_and!; try done; [|eauto].
      intros i Hi. destruct (Hd i) as (u & Hu & Hx); [set_solver|]. exists u. split; [done|by apply Hx].
    + unfold_virtual. branches; simpl in *; try congruence;
        (match goal with Ht : target_done _ _ = Ok _ |- _ => unfold target_done in Ht end;
         branches; try done;
         match goal with Hd : deref _ ?i = Ok ?c, Hc : Unit.completed ?c = true |- _ =>
           exists c; apply of_option_Ok in Hd end; split_and!; [done|done|set_solver]).
    + unfold_virtual. branches; simpl in *; try congruence. rewrite Ek. by apply Z.eqb_eq.
    + unfold_virtual. branches; simpl in *; try congruence. by rewrite Ek.
    + unfold untracked in H. apply rbind_Ok_inv in H as ([b2 t2] & Hp & E). simplify_eq/=.
      destruct (attack_success e _ _ _ _ _ (or_intror Hp)) as (us' & en' & -> & Hd); [simpl; congruence|done|]. done.
  - done.
  - simplify_eq. congruence.
  - simplify_eq. congruence.
Qed.

(** [updateTrackers] is defined when the game knows the trackers' units: it
    updates every tracker once, in order, and keeps exactly those that are
    still waiting or ongoing. *)
Theorem updateTrackers_keeps e tr l : env_ok e → Forall (λ t, known_cls e (kind t)) l →
  ∃ tr' l' updated, updateTrackers e tr l = Ok (tr', l') ∧ length updated = length l ∧
    (∀ i t0, l !! i = Some t0 → ∃ t1 tr0 b tr1, updated !! i = Some t1 ∧ update e tr0 t0 = Ok (b, tr1, t1)) ∧
    l' = filter (λ t, terminal (status_ t) = false) updated.
Proof.
  intros He Hl. revert tr. induction Hl as [|t0 l Hk _ IH]; intros tr; cbn [updateTrackers].
  - exists tr, [], []. split_and!; [done|done| |done]. intros i t0 H. by destruct i.
  - destruct (update_fine e tr t0 He Hk) as (b & tr1 & t1 & E & _). rewrite E. cbn [rbind].
    destruct (IH tr1) as (tr2 & l2 & upd & -> & Hlen & Hup & ->). cbn [rbind].
    do 2 eexists. exists (t1 :: upd). split_and!; [done|simpl; lia|..].
    + intros [|i] t2; simpl; [intros [= <-]; eauto 10|apply Hup].
    + rewrite filter_cons. by destruct (terminal (status_ t1)).
Qed.
End with_game.

(** ** An example game *)

(** A table in which every type is a unit built by nothing. *)
Definition example_table : BuildTable :=
  {| BuildType.builder _ := None; BuildType.mineralCost _ := f64_0; BuildType.gasCost _ := f64_0;
     BuildType.prerequisites _ := []; BuildType.buildTime _ := 0; BuildType.race _ := 0;
     BuildType.isAddon _ := false; BuildType.isWorker _ := false; BuildType.supplyProvided _ := f64_0;
     BuildType.supplyRequired _ := f64_0; BuildType.isTwoUnitsInOneEgg _ := false;
     BuildType.isRefinery _ := false; BuildType.isBuilding _ := false;
     BuildType.isResourceDepot _ := false |}.

(** One idle drone, at frame 10, with upgrade 3 at level 1. *)
Definition example_env : env :=
  Env {[1 := Unit.blank 1 BuildType.Zerg_Drone]} 10 (λ _, []) [] ∅ {[3 := 1]}.
Definition example_orders (c : UnitCommandType) : list Z := [7].
Definition example_upgrade (s : TrackerStatus) : t := Tracker s 0 5 (KUpgrade 1 (BuildType.UpgradeType 3 1)).

Lemma example_env_ok : env_ok example_env.
Proof. split; [intros ty i Hi|intros i Hi]; by apply not_elem_of_nil in Hi. Qed.

Lemma update_status_machine_witness :
  ∃ b tr' t', update (table := example_table) example_orders example_env ∅ (example_upgrade Ongoing) = Ok (b, tr', t') ∧
    (status_ t' = Ongoing ∨ edge (KUpgrade 1 (BuildType.UpgradeType 3 1)) Ongoing (status_ t')).
Proof.
  destruct (update_status_machine (table := example_table) example_orders example_env ∅ (example_upgrade Ongoing))
    as (b & tr' & t' & H1 & _ & H2 & _).
  - apply example_env_ok.
  - vm_compute. by eexists.
  - exists b, tr', t'. split; [exact H1|exact H2].
Defined.

Lemma update_reports_change_witness :
  true = true ↔ Success ≠ status_ (example_upgrade Ongoing).
Proof.
  apply (update_reports_change (table := example_table) example_orders example_env ∅ (example_upgrade Ongoing) true ∅
    (Tracker Success 0 5 (KUpgrade 1 (BuildType.UpgradeType 3 1)))).
  - vm_compute. reflexivity.
  - discriminate.
Defined.

Lemma build_timeout_unreported_witness :
  ∃ t', update (table := example_table) example_orders example_env ∅
      (Tracker Pending 0 60 (KBuild 1 None BuildType.Zerg_Hatchery 2)) = Ok (false, ∅, t') ∧ status_ t' = Timeout.
Proof.
  apply (build_timeout_unreported (table := example_table) example_orders example_env ∅
    (Tracker Pending 0 60 (KBuild 1 None BuildType.Zerg_Hatchery 2)) 1 BuildType.Zerg_Hatchery 2
    (Unit.blank 1 BuildType.Zerg_Drone)); (reflexivity || (simpl; unfold kNotBuildingTimeout; lia)).
Defined.

Lemma waiting_bounded_witness :
  Z.of_nat (length [example_env]) ≤ Z.max 0 (timeout_ (example_upgrade Pending) - time_ (example_upgrade Pending)).
Proof.
  apply (waiting_bounded (table := example_table) example_orders Pending ∅ (example_upgrade Pending) [example_env]
    (set_time 1 (example_upgrade Pending))).
  - by right.
  - reflexivity.
  - eapply stays_cons; [vm_compute; reflexivity|reflexivity|constructor].
Defined.

Lemma success_achieved_witness :
  achieved example_env ∅ (KUpgrade 1 (BuildType.UpgradeType 3 1)) (KUpgrade 1 (BuildType.UpgradeType 3 1)).
Proof.
  apply (success_achieved (table := example_table) example_orders example_env ∅ (example_upgrade Ongoing) true ∅
    (Tracker Success 0 5 (KUpgrade 1 (BuildType.UpgradeType 3 1)))).
  - vm_compute. reflexivity.
  - discriminate.
  - reflexivity.
Defined.

Lemma updateTrackers_keeps_witness :
  ∃ tr' l', updateTrackers (table := example_table) example_orders example_env ∅
      [example_upgrade Pending; example_upgrade Ongoing] = Ok (tr', l') ∧
    l' = [set_time 1 (example_upgrade Pending)].
Proof.
  destruct (updateTrackers_keeps (table := example_table) example_orders example_env ∅
    [example_upgrade Pending; example_upgrade Ongoing]) as (tr' & l' & upd & H1 & _).
  - apply example_env_ok.
  - repeat constructor; vm_compute; by eexists.
  - exists tr', l'. split; [exact H1|]. vm_compute in H1. injection H1 as _ <-. reflexivity.
Defined.
End Tracker.
