(* ===== verification/Builder.v ===== *)
(** * Builder controllers ([src/modules/builderc.cpp])

    A builder controller produces one unit, building, upgrade or technology.
    It takes a builder from the board under a task of its own, reserves the
    costs until construction has started, issues the order and follows it with
    a tracker; [WorkerBuilderController] also moves the worker and a detector
    to the place and others out of the way.

    A controller, its tasks and its trackers are shared objects: tasks are
    in the heap, a tracker is its position in the list of all trackers made.
    What the game says about units and types, and the functions of other
    components (placement, safe paths, bases), are the record [env] and the
    class [Kinds]. *)

From S2P Require Import Prelude Floats Geometry BuildTypes Units GameMechanics Upc UpcStorage UpcFilter.
From Stdlib Require Import SpecFloat.
From S2P Require Import Trackers Tiles Algorithms Tasks BoardTasks Blackboard Controllers.

Module Builder.

(** Facts about types.  Costs are [double]s that hold BWAPI's integers; supply
    is in halves, so that it is an integer too. *)
Class Kinds := {
  mineralCost : BuildType → Z;
  gasCost : BuildType → Z;
  supplyRequired : BuildType → Z;
  tileWidth : BuildType → Z;
  tileHeight : BuildType → Z;
  dimensions : BuildType → Z * Z * Z * Z;
  isDetector : BuildType → bool;
  isNonUsable : BuildType → bool;
  producesLarva : BuildType → bool;
  isUpgrade : BuildType → bool;
  isTech : BuildType → bool
}.

(** What [Unit] has besides [Units.Unit]: left, up, right and down of the box. *)
Record traits := Traits {
  active : bool; idle : bool; flying : bool; invincible : bool; detected : bool; burrowed : bool;
  pixel_x : Z; pixel_y : Z; topSpeed : float64; lastLarvaSpawn : Z; movingTarget : Position }.

Record env := Env {
  frame : Z; mapWidth : Z; mapHeight : Z;
  trait : Z → traits;
  myUnits : list Z; visibleUnits : list Z;
  myUnitsOfType : BuildType → list Z; myCompletedUnitsOfType : BuildType → list Z;
  upgradeLevel : BuildType → Z; typeLevel : BuildType → Z; hasResearched : BuildType → bool;
  (** [module->name()] contains "Scouting" or "Harass". *)
  scoutsOrHarasses : ModulePtr → bool;
  myClosestBaseIdx : Position → Z; saturation : Z → float64;
  (** [builderhelpers::canBuildAt(state, type, pos, true)] *)
  canBuildAt : BuildType → Position → bool;
  (** [movefilters::safeMoveTo(state, unit, pos)] *)
  safeMoveTo : Z → Position → Position;
  (** The numbers of [tc::BW::Order] and the commands. *)
  MoveToMinerals : Z; ReturnMinerals : Z; MoveToGas : Z; ReturnGas : Z;
  CommandUnit : Z; Unburrow : Z; commandFuel : nat
}.

(** [src/src/modules/builder.h:24-35] BuilderControllerData *)
Record shared := Shared {
  ore : Z; gas : Z; used_psi : Z; total_psi : Z;
  lastIncomeHistoryUpdate : Z; mineralsHistory : list Z; gasHistory : list Z;
  currentMineralsPerFrame : float64; currentGasPerFrame : float64;
  recentAssignedBuilders : list (Z * (Z * BuildType * Position)) }.

(** [src/src/modules/builderc.h:103-116] WorkerBuilderController *)
Record place := Place {
  pos_ : Position; detector_ : UnitPtr; lastCheckLocation_ : Z; lastMoveUnitsInTheWay_ : Z;
  moveAttempts_ : Z; movedUnits_ : list Z; buildAttempts_ : Z; moving_ : bool; building_ : bool }.

(** A [WorkerBuilderController] when it has a [place], and else a
    [BuilderController].  [trackerStatus_] is only logged.

    [src/src/modules/builderc.h:67-75] BuilderControllerBase *)
Record ctl := Ctl {
  base : Controllers.t; type_ : BuildType; builder_ : UnitPtr; unitProbs_ : Upc.UnitMap;
  succeeded_ : bool; failed_ : bool; priority_ : float32;
  lastUpdate_ : Z; constructionStarted_ : bool; tracker_ : option nat; worker : option place }.

Definition set_base (c : ctl) v := Ctl v (type_ c) (builder_ c) (unitProbs_ c) (succeeded_ c) (failed_ c) (priority_ c) (lastUpdate_ c) (constructionStarted_ c) (tracker_ c) (worker c).
Definition set_builder (c : ctl) v := Ctl (base c) (type_ c) v (unitProbs_ c) (succeeded_ c) (failed_ c) (priority_ c) (lastUpdate_ c) (constructionStarted_ c) (tracker_ c) (worker c).
Definition set_outcome (c : ctl) s f := Ctl (base c) (type_ c) (builder_ c) (unitProbs_ c) s f (priority_ c) (lastUpdate_ c) (constructionStarted_ c) (tracker_ c) (worker c).
Definition set_priority (c : ctl) v := Ctl (base c) (type_ c) (builder_ c) (unitProbs_ c) (succeeded_ c) (failed_ c) v (lastUpdate_ c) (constructionStarted_ c) (tracker_ c) (worker c).
Definition set_lastUpdate (c : ctl) v := Ctl (base c) (type_ c) (builder_ c) (unitProbs_ c) (succeeded_ c) (failed_ c) (priority_ c) v (constructionStarted_ c) (tracker_ c) (worker c).
Definition set_started (c : ctl) v := Ctl (base c) (type_ c) (builder_ c) (unitProbs_ c) (succeeded_ c) (failed_ c) (priority_ c) (lastUpdate_ c) v (tracker_ c) (worker c).
Definition set_tracker (c : ctl) v := Ctl (base c) (type_ c) (builder_ c) (unitProbs_ c) (succeeded_ c) (failed_ c) (priority_ c) (lastUpdate_ c) (constructionStarted_ c) v (worker c).
Definition set_worker (c : ctl) v := Ctl (base c) (type_ c) (builder_ c) (unitProbs_ c) (succeeded_ c) (failed_ c) (priority_ c) (lastUpdate_ c) (constructionStarted_ c) (tracker_ c) v.

Definition set_detector (p : place) v := Place (pos_ p) v (lastCheckLocation_ p) (lastMoveUnitsInTheWay_ p) (moveAttempts_ p) (movedUnits_ p) (buildAttempts_ p) (moving_ p) (building_ p).
Definition set_check (p : place) v := Place (pos_ p) (detector_ p) v (lastMoveUnitsInTheWay_ p) (moveAttempts_ p) (movedUnits_ p) (buildAttempts_ p) (moving_ p) (building_ p).
Definition set_moved (p : place) last us := Place (pos_ p) (detector_ p) (lastCheckLocation_ p) last (moveAttempts_ p) us (buildAttempts_ p) (moving_ p) (building_ p).
Definition set_attempts (p : place) m b := Place (pos_ p) (detector_ p) (lastCheckLocation_ p) (lastMoveUnitsInTheWay_ p) m (movedUnits_ p) b (moving_ p) (building_ p).
Definition set_phase (p : place) m b := Place (pos_ p) (detector_ p) (lastCheckLocation_ p) (lastMoveUnitsInTheWay_ p) (moveAttempts_ p) (movedUnits_ p) (buildAttempts_ p) m b.

(** The parts of the state a controller changes. *)
Record world := World {
  board : Blackboard.t; heap : Task.heap; nextTask : Z; units : gmap Z Unit; busyUntil : gmap Z Z;
  trackers : list Tracker.t; bcdata : shared; tiles : Tiles.state }.

Definition set_board (w : world) b h n us := World b h n us (busyUntil w) (trackers w) (bcdata w) (tiles w).
Definition set_busy (w : world) v := World (board w) (heap w) (nextTask w) (units w) v (trackers w) (bcdata w) (tiles w).
Definition set_data (w : world) v := World (board w) (heap w) (nextTask w) (units w) (busyUntil w) (trackers w) v (tiles w).
Definition set_tilesInfo (w : world) v := World (board w) (heap w) (nextTask w) (units w) (busyUntil w) (trackers w) (bcdata w) v.

(** [state->addTracker<T>(...)]

    [src/src/state.h:112-117] State::addTracker *)
Definition addTracker (w : world) (t : Tracker.t) : world * nat :=
  (World (board w) (heap w) (nextTask w) (units w) (busyUntil w) (trackers w ++ [t]) (bcdata w) (tiles w), length (trackers w)).

Section builder.
Context `{Kinds, BuildType.Table} (e : env).

Definition unit (w : world) (u : Z) : res Unit := of_option (units w !! u).

(** The task for [upcId_], a [ControllerTask] made with this controller. *)
Definition build_task (w : world) (c : ctl) : res (option (Task.t * Z)) :=
  let? id := of_option (Controllers.upcId_ (base c)) in
  let? t := BoardTasks.taskForId (Blackboard.tasks (board w)) id in
  match t with
  | None => Ok None
  | Some r =>
      let? tk := of_option (heap w !! r) in
      Ok (match Task.cls tk with Task.KTask d => Some (tk, d) | _ => None end)
  end.

(** [upc->unit[unit] = 1; upc->command[Command::Create] = 0.5; ...]

    [src/src/modules/builderc.cpp:69-72] BuilderControllerBase::grabUnit *)
Definition grab_upc (u : Z) : Upc.t :=
  Upc.UPCTuple [(Some u, f32_1)] Upc.PEmpty [(Command.Create, f32_lit 1 2); (Command.Move, f32_lit 1 2)] Upc.SEmpty 1.

(** [src/src/modules/builderc.cpp:50-87] BuilderControllerBase::grabUnit *)
Definition grabUnit (w : world) (c : ctl) (u : Z) : res (world * ctl) :=
  let? bt := build_task w c in
  match bt with
  | None => Ok (w, c)
  | Some (ctask, d) =>
      if Task.finished ctask then Ok (w, c) else
      let? id := of_option (Controllers.upcId_ (base c)) in
      let m := Controllers.module_ (base c) in
      let? r := Blackboard.postUPC (board w) (frame e) (grab_upc u) id m None in
      let '(b, newId) := r in
      let b := Blackboard.consumeUPCs b [newId] in
      let '(tk, cb) := Controllers.ControllerTask newId {[u]} d (base c) in
      let h := <[nextTask w := tk]> (heap w) in
      let? b := Blackboard.postTask h b (nextTask w) m true (frame e) in
      Ok (set_board w b h (nextTask w + 1) (units w), set_base c (Controllers.addUnit cb u newId))
  end.

(** [src/src/modules/builderc.cpp:89-112] BuilderControllerBase::releaseUnit *)
Definition releaseUnit (w : world) (c : ctl) (u : Z) : res (world * ctl) :=
  let? t := BoardTasks.taskWithUnitOfModule (Blackboard.tasks (board w)) u (Controllers.module_ (base c)) in
  match t with
  | None =>
      Ok (w, set_base c (Controllers.set_upcs (al_erase u (Controllers.upcs_ (base c)))
                           (Controllers.set_units (delete u (Controllers.units_ (base c))) (base c))))
  | Some r =>
      let? tk := of_option (heap w !! r) in
      let c := set_base c (Controllers.removeUnit (base c) u (Task.upcId tk)) in
      let h := <[r := Task.removeUnit u tk]> (heap w) in
      let? ts := BoardTasks.updateTasksByUnit h (Blackboard.tasks (board w)) r in
      Ok (set_board w (Blackboard.set_tasks (board w) ts) h (nextTask w) (units w), c)
  end.

(** [src/src/modules/builderc.cpp:234-247] BuilderControllerBase::cancelled *)
Definition cancelled (w : world) (c : ctl) : res bool :=
  let? bt := build_task w c in
  Ok (match bt with Some (ctask, _) => bool_decide (Task.status ctask = Tasks.Cancelled) | None => false end).

(** Collect a UPC for a unit. *)
Definition add (c : ctl) (u : Z) (upc : Upc.t) : ctl := set_base c (Controllers.addUpc (base c) u upc).

(** *** Scores of builders *)

Definition kdInfty : float64 := S754_infinity false.

Definition remaining (u : Unit) : float64 :=
  f64_of_Z (Unit.remainingBuildTrainTime u + Unit.remainingUpgradeResearchTime u).

Definition owned_by_us (w : world) (c : ctl) (u : Z) : res bool :=
  let? td := BoardTasks.taskDataWithUnit (Blackboard.tasks (board w)) u in
  Ok (bool_decide (BoardTasks.owner td = Controllers.module_ (base c))).

(** [if (u->type != type_->builder) return kdInfty; if (!u->active()) return kdInfty;] *)
Definition eligible (c : ctl) (i : Z) (u : Unit) : bool :=
  bool_decide (BuildType.builder (type_ c) = Some (Unit.type u)) && active (trait e i).

(** [src/src/modules/builderc.cpp:116-138] BuilderControllerBase::defaultUnitBuilderScore *)
Definition defaultUnitBuilderScore (w : world) (c : ctl) (i : Z) : res float64 :=
  let? u := unit w i in
  if negb (eligible c i u) then Ok kdInfty else
  if BuildType.isAddon (type_ c) && bool_decide (Unit.addon u ≠ None) then Ok kdInfty else
  if bool_decide (builder_ c = Some i) then Ok (f64_add (f64_sub f64_0 (f64_of_Z 10)) (remaining u)) else
  let? ours := owned_by_us w c i in
  Ok (if (ours : bool) then kdInfty else f64_add f64_0 (remaining u)).

(** [src/src/modules/builderc.cpp:144-151] BuilderControllerBase::larvaBuilderScore *)
Definition larvaCount (w : world) : res (list (Z * Z)) :=
  rfold (λ m i,
    let? u := unit w i in
    match Unit.associatedUnit u with
    | None => Ok m
    | Some a => let? ua := unit w a in Ok (al_set (Unit.id ua) (default 0 (al_find (Unit.id ua) m) + 1) m)
    end) (myCompletedUnitsOfType e BuildType.Zerg_Larva) [].

(** [src/src/basetypes.h:38-38] kLarvaFrames *)
Definition kLarvaFrames : Z := 342.

(** [utils::clamp(v, 0.0, 1.0)] *)
Definition clamp01 (v : float64) : float64 := fmax f64_0 (fmin v f64_1).

(** [src/src/modules/builderc.cpp:172-185] BuilderControllerBase::larvaBuilderScore *)
Definition larva_bonus (w : world) (counts : list (Z * Z)) (i : Z) (u : Unit) : res float64 :=
  match Unit.associatedUnit u with
  | None => Ok f64_0
  | Some a =>
      let? ua := unit w a in
      if producesLarva (Unit.type ua) then
        match al_find (Unit.id ua) counts with
        | None => Ok f64_0
        | Some n =>
            let larva := f64_add (f64_of_Z n)
              (clamp01 (f64_div (f64_of_Z (frame e - lastLarvaSpawn (trait e i))) (f64_of_Z kLarvaFrames))) in
            let bonus := f64_sub (f64_of_Z 4) larva in
            Ok (f64_add f64_0 (f64_mul bonus bonus))
        end
      else Ok f64_0
  end.

(** [src/src/modules/builderc.cpp:153-200] BuilderControllerBase::larvaBuilderScore *)
Definition larvaBuilderScore (w : world) (c : ctl) (preferSaturation : bool) (i : Z) : res float64 :=
  let? counts := larvaCount w in
  let? u := unit w i in
  if negb (eligible c i u) then Ok kdInfty else
  if bool_decide (builder_ c = Some i) then Ok (f64_add (f64_sub f64_0 (f64_of_Z 10)) (remaining u)) else
  let? ours := owned_by_us w c i in
  if (ours : bool) then Ok kdInfty else
  let? score := larva_bonus w counts i u in
  let idx := myClosestBaseIdx e (Unit.pos u) in
  let score :=
    if 0 <=? idx then
      let sat := saturation e idx in
      f64_add score (f64_mul (f64_of_Z 4) (if preferSaturation then f64_sub f64_1 sat else sat))
    else score in
  Ok (f64_add score (remaining u)).

(** [src/src/modules/builderc.cpp:203-232] BuilderControllerBase::hatcheryTechBuilderScore *)
Definition hatcheryTechBuilderScore (w : world) (c : ctl) (i : Z) : res float64 :=
  let? u := unit w i in
  if negb (eligible c i u) then Ok kdInfty else
  let? ours := if bool_decide (builder_ c = Some i) then Ok false else owned_by_us w c i in
  if (ours : bool) then Ok kdInfty else
  let score := if bool_decide (builder_ c = Some i) then f64_sub f64_0 (f64_of_Z 10) else f64_0 in
  let score := f64_add score (f64_of_Z (10 * myClosestBaseIdx e (Unit.pos u))) in
  let score := if Unit.morphing u then f64_add score (f64_of_Z (Unit.remainingBuildTrainTime u)) else score in
  Ok (f64_add score (f64_of_Z (Unit.remainingUpgradeResearchTime u))).

(** What the current order of a worker adds.

    [src/src/modules/builderc.cpp:277-292] BuilderControllerBase::findBuilder *)
Definition order_cost (i : Z) (u : Unit) : float64 :=
  match Unit.orders u with
  | o :: _ =>
      if idle (trait e i) then f64_0 else
      let ty := Unit.order_type o in
      if ty =? MoveToMinerals e then f64_of_Z 15
      else if ty =? ReturnMinerals e then f64_of_Z 60
      else if ty =? MoveToGas e then f64_of_Z 75
      else if ty =? ReturnGas e then f64_of_Z 90
      else f64_of_Z 150
  | [] => f64_0
  end.

Definition distance_to (u : Unit) (p : Position) : float32 :=
  GameMechanics.distance (Unit.x u) (Unit.y u) (Vec2.x p) (Vec2.y p).

(** [src/src/modules/builderc.cpp:255-307] BuilderControllerBase::findBuilder *)
Definition workerBuilderScore (w : world) (c : ctl) (pos : Position) (i : Z) : res float64 :=
  let? u := unit w i in
  if negb (eligible c i u) then Ok kdInfty else
  let travel := f64_div (f64_of_f32 (distance_to u pos)) (topSpeed (trait e i)) in
  if bool_decide (builder_ c = Some i) then Ok (f64_add (f64_sub f64_0 (f64_of_Z 10)) travel) else
  let? td := BoardTasks.taskDataWithUnit (Blackboard.tasks (board w)) i in
  if bool_decide (BoardTasks.owner td = Controllers.module_ (base c)) then Ok kdInfty else
  if bool_decide (BoardTasks.task td ≠ None) && bool_decide (BoardTasks.owner td ≠ None) &&
     scoutsOrHarasses e (BoardTasks.owner td) then Ok kdInfty else
  let r := f64_add f64_0 (order_cost i u) in
  let r := match al_find i (recentAssignedBuilders (bcdata w)) with
           | Some (_, ty, p) =>
               if bool_decide (ty = type_ c) &&
                  fleb (GameMechanics.distance (Vec2.x p) (Vec2.y p) (Vec2.x pos) (Vec2.y pos)) (f32_of_Z 48)
               then f64_sub r (f64_of_Z 1000) else r
           | None => r
           end in
  Ok (f64_add r travel).

(** *** Choosing a builder *)

(** [src/src/modules/builderc.cpp:314-330] BuilderControllerBase::findBuilder *)
Definition candidates (w : world) (c : ctl) : res (list Z) :=
  let? cs := rfold (λ cs it,
    if fltb f32_0 it.2 then
      let? i := of_option it.1 in
      let? u := unit w i in
      Ok (if bool_decide (BuildType.builder (type_ c) = Some (Unit.type u)) then cs ++ [i] else cs)
    else Ok cs) (unitProbs_ c) [] in
  match cs with
  | [] => Ok (match BuildType.builder (type_ c) with Some ty => myCompletedUnitsOfType e ty | None => [] end)
  | _ => Ok cs
  end.

(** [utils::getBestScoreCopy(candidates, builderScore, kdInfty)] *)
Definition best_scored (score : Z → res float64) (l : list Z) : res UnitPtr :=
  let? scored := rfold (λ acc i, let? s := score i in Ok (acc ++ [(i, s)])) l [] in
  Ok (fst <$> Algorithms.getBestScore fltb snd (λ s, feqb s kdInfty) (λ _, false) scored).

(** Give up a builder that is not eligible any more, and look for another.

    [src/src/modules/builderc.cpp:309-330] BuilderControllerBase::findBuilder *)
Definition choose (score : ctl → Z → res float64) (w : world) (c : ctl) : res (world * ctl) :=
  let? gone := match builder_ c with
               | Some i => let? s := score c i in Ok (feqb s kdInfty)
               | None => Ok false
               end in
  let '(w, c) := match builder_ c with
                 | Some i => if (gone : bool) then (set_busy w (<[i := 0]> (busyUntil w)), set_builder c None) else (w, c)
                 | None => (w, c)
                 end in
  match builder_ c with
  | Some _ => Ok (w, c)
  | None =>
      let? l := candidates w c in
      let? i := best_scored (score c) l in
      Ok (w, set_builder c i)
  end.

(** [src/src/modules/builderc.cpp:336-348] BuilderControllerBase::findBuilder *)
Definition unit_score (w : world) (c : ctl) : Z → res float64 :=
  if bool_decide (type_ c = BuildType.Zerg_Drone) then larvaBuilderScore w c false
  else if bool_decide (BuildType.builder (type_ c) = Some BuildType.Zerg_Larva) then larvaBuilderScore w c true
  else if bool_decide (type_ c = BuildType.Zerg_Lair) || bool_decide (type_ c = BuildType.Zerg_Hive)
  then hatcheryTechBuilderScore w c
  else defaultUnitBuilderScore w c.

Definition by_worker (ty : BuildType) : bool :=
  BuildType.isBuilding ty && match BuildType.builder ty with Some b => BuildType.isWorker b | None => false end.

(** [pos.x != -1 || pos.y != -1] *)
Definition placed (pos : Position) : bool := negb (Vec2.x pos =? -1) || negb (Vec2.y pos =? -1).

(** [src/src/modules/builderc.cpp:249-376] BuilderControllerBase::findBuilder *)
Definition findBuilder (w : world) (c : ctl) (pos : Position) : res (world * ctl) :=
  if by_worker (type_ c) then
    if placed pos then choose (λ c, workerBuilderScore w c pos) w c
    else Ok (w, set_builder c None)
  else choose (unit_score w) w c.

(** *** Prerequisites and resources *)

(** [src/src/utils/gamemechanics.h:280-311] prerequisitesReady *)
Definition prerequisite_ready (ty : BuildType) : bool :=
  let some (l : list Z) := negb (bool_decide (l = [])) in
  if BuildType.isUnit ty then
    some (myCompletedUnitsOfType e ty) ||
    (if bool_decide (ty = BuildType.Zerg_Spire) then some (myUnitsOfType e BuildType.Zerg_Greater_Spire)
     else if bool_decide (ty = BuildType.Zerg_Hatchery)
     then some (myCompletedUnitsOfType e BuildType.Zerg_Lair) || some (myUnitsOfType e BuildType.Zerg_Hive)
     else if bool_decide (ty = BuildType.Zerg_Lair) then some (myUnitsOfType e BuildType.Zerg_Hive)
     else false)
  else if isUpgrade ty then typeLevel e ty <=? upgradeLevel e ty
  else if isTech ty then hasResearched e ty
  else false.

(** [src/src/utils/gamemechanics.h:277-314] prerequisitesReady *)
Definition prerequisitesReady (ty : BuildType) : bool := forallb prerequisite_ready (BuildType.prerequisites ty).

Definition spend (d : shared) (ty : BuildType) : shared :=
  Shared (ore d - mineralCost ty) (gas d - gasCost ty) (used_psi d) (total_psi d) (lastIncomeHistoryUpdate d)
    (mineralsHistory d) (gasHistory d) (currentMineralsPerFrame d) (currentGasPerFrame d) (recentAssignedBuilders d).

Definition set_recent (d : shared) v : shared :=
  Shared (ore d) (gas d) (used_psi d) (total_psi d) (lastIncomeHistoryUpdate d)
    (mineralsHistory d) (gasHistory d) (currentMineralsPerFrame d) (currentGasPerFrame d) v.

(** Reserve the costs until construction has started.

    [src/src/modules/builderc.cpp:576-579] WorkerBuilderController::step *)
Definition reserve (w : world) (c : ctl) : world :=
  if constructionStarted_ c then w else set_data w (spend (bcdata w) (type_ c)).

(** What is left after the reservations covers the costs, there is supply,
    and the prerequisites are there.

    [src/src/modules/builderc.cpp:876-894] BuilderController::step *)
Definition canBuild (w : world) (c : ctl) : bool :=
  let ty := type_ c in
  let d := bcdata w in
  constructionStarted_ c ||
  (negb (negb (mineralCost ty =? 0) && (ore d <? 0)) &&
   negb (negb (gasCost ty =? 0) && (gas d <? 0)) &&
   negb (negb (supplyRequired ty =? 0) && (2 * total_psi d <? 2 * used_psi d + supplyRequired ty)) &&
   prerequisitesReady ty).

(** [lastUpdate_ > 0 && frame - lastUpdate_ < 4]

    [src/src/modules/builderc.cpp:870-873] BuilderController::step *)
Definition too_soon (c : ctl) : bool := (0 <? lastUpdate_ c) && (frame e - lastUpdate_ c <? 4).

(** *** [BuilderController] *)

Definition status (w : world) (n : nat) : res TrackerStatus :=
  let? t := of_option (trackers w !! n) in Ok (Tracker.status_ t).

(** [src/src/modules/builderc.cpp:825-859] BuilderController::step *)
Definition follow (w : world) (c : ctl) : res ctl :=
  match tracker_ c with
  | None => Ok c
  | Some n =>
      let? s := status w n in
      Ok (match s with
          | Trackers.Ongoing => set_started c true
          | Trackers.Success => set_outcome c true (failed_ c)
          | Trackers.Timeout | Trackers.Failure => set_tracker (set_lastUpdate c 0) None
          | Trackers.Cancelled => set_outcome c (succeeded_ c) true
          | Trackers.Pending | Trackers.NotTracking => c
          end)
  end.

Definition postUpcs (w : world) (c : ctl) : res (world * ctl) :=
  let? r := Controllers.postUpcs (base c) (board w) (frame e) in
  Ok (set_board w r.2 (heap w) (nextTask w) (units w), set_base c r.1).

(** [src/src/modules/builderc.cpp:911-922] BuilderController::step *)
Definition issue (w : world) (c : ctl) : res (world * ctl) :=
  match builder_ c, tracker_ c with
  | Some i, None =>
      let? u := unit w i in
      let c := add c i (Upc.makeSharpUPC_pos_type (Some i) (Unit.pos u) Command.Create (Some (type_ c))) in
      let t := if isUpgrade (type_ c) then Tracker.UpgradeTracker i (type_ c) 15
               else if isTech (type_ c) then Tracker.ResearchTracker i (type_ c) 15
               else Tracker.BuildTracker i (type_ c) 15 in
      let '(w, n) := addTracker w t in
      Ok (w, set_tracker c (Some n))
  | _, _ => Ok (w, c)
  end.

(** [src/src/modules/builderc.cpp:819-925] BuilderController::step *)
Definition builder_step (w : world) (c : ctl) : res (world * ctl) :=
  if succeeded_ c || failed_ c then Ok (w, c) else
  let? cc := cancelled w c in
  if (cc : bool) then Ok (w, c) else
  let? c := follow w c in
  if succeeded_ c || failed_ c then Ok (w, c) else
  let w := reserve w c in
  if too_soon c then Ok (w, c) else
  let c := set_lastUpdate c (frame e) in
  if negb (canBuild w c) then Ok (w, c) else
  let? wc := match builder_ c, tracker_ c with
             | None, None =>
                 let? wc := findBuilder w c (Vec2.Pos 0 0) in
                 match builder_ wc.2 with Some i => grabUnit wc.1 wc.2 i | None => Ok wc end
             | _, _ => Ok (w, c)
             end in
  let? wc := issue wc.1 wc.2 in
  postUpcs wc.1 wc.2.

(** [src/src/modules/builderc.cpp:927-932] BuilderController::removeUnit *)
Definition builder_removeUnit (c : ctl) (u id : Z) : ctl :=
  let c := if bool_decide (builder_ c = Some u) then set_builder c None else c in
  set_base c (Controllers.removeUnit (base c) u id).

(** *** [WorkerBuilderController] *)

(** [src/src/modules/builderc.cpp:21-21] kMaxBuildAttempts *)
Definition kMaxBuildAttempts : Z := 3.

(** [src/src/modules/builderc.cpp:378-399] WorkerBuilderController::WorkerBuilderController *)
Definition WorkerBuilderController (m : ModulePtr) (ty : BuildType) (probs : Upc.UnitMap) (pos : Position) : res ctl :=
  if negb (BuildType.isBuilding ty) then Throw "Building expected, got " else
  match BuildType.builder ty with
  | None => Throw "Don't know how to build "
  | Some b =>
      if negb (BuildType.isWorker b) then Throw "No worker required to build " else
      Ok (Ctl (Controllers.make m) ty None probs false false f32_0 0 false None
            (Some (Place pos None 0 0 0 [] 0 false false)))
  end.

(** [src/src/modules/builderc.cpp:808-817] BuilderController::BuilderController *)
Definition BuilderController (m : ModulePtr) (ty : BuildType) (probs : Upc.UnitMap) : ctl :=
  Ctl (Controllers.make m) ty None probs false false f32_0 0 false None None.

(** [src/src/modules/builderc.cpp:408-419] WorkerBuilderController::step *)
Definition check_location (c : ctl) (p : place) : ctl :=
  if negb (building_ p) && (11 <=? frame e - lastCheckLocation_ p) then
    let c := set_worker c (Some (set_check p (frame e))) in
    if canBuildAt e (type_ c) (pos_ p) then c else set_outcome c (succeeded_ c) true
  else c.

(** [src/src/modules/builderc.cpp:421-453] WorkerBuilderController::step *)
Definition follow_move (s : TrackerStatus) (c : ctl) (p : place) : ctl :=
  let stop := Some (set_phase p false (building_ p)) in
  match s with
  | Trackers.Success => set_worker (set_tracker (set_lastUpdate c 0) None) stop
  | Trackers.Cancelled => set_worker (set_tracker (set_outcome c (succeeded_ c) true) None) stop
  | Trackers.Timeout | Trackers.Failure => set_worker (set_tracker c None) stop
  | _ => c
  end.

(** [src/src/modules/builderc.cpp:454-495] WorkerBuilderController::step *)
Definition follow_build (s : TrackerStatus) (c : ctl) (p : place) : ctl :=
  let stop := Some (set_phase p (moving_ p) false) in
  match s with
  | Trackers.Ongoing => set_started c true
  | Trackers.Success => set_worker (set_outcome c true (failed_ c)) stop
  | Trackers.Timeout | Trackers.Failure =>
      let c := if buildAttempts_ p <? kMaxBuildAttempts then set_lastUpdate c 0 else set_outcome c (succeeded_ c) true in
      set_worker (set_tracker c None) stop
  | Trackers.Cancelled => set_outcome c (succeeded_ c) true
  | _ => c
  end.

(** [src/src/modules/builderc.cpp:421-498] WorkerBuilderController::step *)
Definition follow_worker (w : world) (c : ctl) (p : place) : res ctl :=
  match tracker_ c with
  | None => Ok c
  | Some n => let? s := status w n in Ok (if moving_ p then follow_move s c p else follow_build s c p)
  end.

Definition release_all (w : world) (c : ctl) (us : list Z) : res (world * ctl) :=
  rfold (λ '(w, c) u, releaseUnit w c u) us (w, c).

(** [src/src/modules/builderc.cpp:568-574] WorkerBuilderController::step *)
Definition release_moved (w : world) (c : ctl) (p : place) : res (world * ctl) :=
  if negb (lastMoveUnitsInTheWay_ p =? 0) && (30 <=? frame e - lastMoveUnitsInTheWay_ p) then
    let? wc := release_all w c (movedUnits_ p) in
    Ok (wc.1, set_worker wc.2 (Some (set_moved p 0 [])))
  else Ok (w, c).

(** The frames until the missing resources are there.

    [src/src/modules/builderc.cpp:617-623] WorkerBuilderController::step *)
Definition time_to_afford (w : world) (c : ctl) : float64 :=
  let d := bcdata w in
  let t := if mineralCost (type_ c) =? 0 then f64_0
           else fmax f64_0 (f64_div (f64_of_Z (- ore d)) (currentMineralsPerFrame d)) in
  if gasCost (type_ c) =? 0 then t else fmax t (f64_div (f64_of_Z (- gas d)) (currentGasPerFrame d)).

(** [src/src/modules/builderc.cpp:612-637] WorkerBuilderController::step *)
Definition look_for_builder (w : world) (c : ctl) (p : place) (moveOnly : bool) : res (world * ctl) :=
  match builder_ c with
  | Some _ => Ok (w, c)
  | None =>
      if building_ p then Ok (w, c) else
      let? wc := findBuilder w c (pos_ p) in
      let '(w, c) := wc in
      match builder_ c with
      | None => Ok (w, c)
      | Some i =>
          let? u := unit w i in
          if moveOnly && placed (pos_ p) &&
             fltb (f64_div (f64_of_f32 (distance_to u (pos_ p))) (topSpeed (trait e i))) (time_to_afford w c)
          then Ok (w, set_builder c None)
          else grabUnit w c i
      end
  end.

(** [src/src/modules/builderc.cpp:641-664] WorkerBuilderController::step *)
Definition send_detector (w : world) (c : ctl) (p : place) : res (world * ctl * place) :=
  match detector_ p with
  | None =>
      let? d := best_scored (λ i,
        let? u := unit w i in
        let? t := BoardTasks.taskWithUnit (Blackboard.tasks (board w)) i in
        Ok (if negb (isDetector (Unit.type u)) || BuildType.isBuilding (Unit.type u) || negb (active (trait e i)) ||
               bool_decide (t ≠ None) then kdInfty else f64_of_f32 (distance_to u (pos_ p)))) (myUnits e) in
      match d with
      | None => Ok (w, c, p)
      | Some i => let? wc := grabUnit w c i in Ok (wc.1, wc.2, set_detector p (Some i))
      end
  | Some i =>
      let tgt := safeMoveTo e i (pos_ p) in
      if (Vec2.x tgt <? 0) || (Vec2.y tgt <? 0) then Ok (w, c, p)
      else if fltb (f64_of_Z 4) (Vec2.distanceTo tgt (movingTarget (trait e i)))
      then Ok (w, add c i (Upc.makeSharpUPC_pos (Some i) tgt Command.Move), p)
      else Ok (w, c, p)
  end.

(** *** Moving units out of the way *)

(** A neighbour is added through the tile the search is at: it is the walkability
    of that one that counts.

    [src/src/modules/builderc.cpp:531-544] WorkerBuilderController::step *)
Definition add_tile (w : world) (fly : bool) (start : Position) (t : Tiles.tile) (acc : gset Z * list Z) (n : Z)
    : res (gset Z * list Z) :=
  let '(visited, open) := acc in
  if negb fly && (negb (Tiles.entirelyWalkable t) || bool_decide (Tiles.building t ≠ None)) then Ok acc else
  let? nt := of_option (Tiles.tiles (tiles w) !! Z.to_nat n) in
  if bool_decide (n ∈ visited) then Ok acc else
  let visited := visited ∪ {[n]} in
  if fleb (GameMechanics.distance (Tiles.x nt) (Tiles.y nt) (Vec2.x start) (Vec2.y start)) (f32_of_Z 80)
  then Ok (visited, open ++ [n]) else Ok (visited, open).

(** [src/src/modules/builderc.cpp:546-557] WorkerBuilderController::step *)
Definition neighbours (t : Tiles.tile) (n : Z) : list Z :=
  (if 0 <? Tiles.x t then [n - 1] else []) ++
  (if 0 <? Tiles.y t then [n - Tiles.tilesWidth] else []) ++
  (if Tiles.x t <? mapWidth e - 4 then [n + 1] else []) ++
  (if Tiles.y t <? mapHeight e - 4 then [n + Tiles.tilesHeight] else []).

(** [src/src/modules/builderc.cpp:521-560] WorkerBuilderController::step *)
Fixpoint move_away_loop (fuel : nat) (w : world) (fly : bool) (start source : Position) (distance : float32)
    (visited : gset Z) (open : list Z) : res Position :=
  match open with
  | [] => Ok (Vec2.Pos 0 0)
  | n :: open =>
      match fuel with
      | O => OutOfFuel
      | S fuel =>
          let? t := of_option (Tiles.tiles (tiles w) !! Z.to_nat n) in
          if fleb distance (GameMechanics.distance (Tiles.x t) (Tiles.y t) (Vec2.x source) (Vec2.y source))
          then Ok (Vec2.Pos (Tiles.x t) (Tiles.y t))
          else
            let? r := rfold (add_tile w fly start t) (neighbours t n) (visited, open) in
            move_away_loop fuel w fly start source distance r.1 r.2
      end
  end.

(** The counter of the searches of a step, a byte, stands for a fresh set.

    [src/src/modules/builderc.cpp:504-561] WorkerBuilderController::step *)
Definition findMoveAwayPos (w : world) (i : Z) (source : Position) (distance : float32) : res Position :=
  let? u := unit w i in
  let? n := Tiles.getTile (tiles w) (Unit.x u) (Unit.y u) in
  move_away_loop (S (S (length (Tiles.tiles (tiles w))))) w (flying (trait e i)) (Unit.pos u) source distance ∅ [n].

(** [src/src/modules/builderc.cpp:24-36] pxDistanceOfUnit *)
Definition pxDistanceOfUnit (i : Z) (u : Unit) (ty : BuildType) (pos : Position) : Z :=
  let '(l, up, r, d) := dimensions (Unit.type u) in
  let x := pixel_x (trait e i) in
  let y := pixel_y (trait e i) in
  GameMechanics.pxDistanceBB (x - l) (y - up) (x + r) (y + d)
    (Vec2.x pos * 8) (Vec2.y pos * 8) ((Vec2.x pos + tileWidth ty * 4) * 8) ((Vec2.y pos + tileHeight ty * 4) * 8).

(** A unit in the way is taken over and moved.

    [src/src/modules/builderc.cpp:712-732] WorkerBuilderController::step *)
Definition shove (w : world) (c : ctl) (p : place) (i : Z) : res (world * ctl * place) :=
  let? b := of_option (builder_ c) in
  let? ub := unit w b in
  let? target := findMoveAwayPos w i (Unit.pos ub) (f32_of_Z 16) in
  let p := set_moved p (frame e) (if bool_decide (i ∈ movedUnits_ p) then movedUnits_ p else movedUnits_ p ++ [i]) in
  let? wc := grabUnit w c i in
  let '(w, c) := wc in
  let? w := if burrowed (trait e i) then
              let? id := of_option (Controllers.upcId_ (base c)) in
              let? u := unit w i in
              let? r := Blackboard.postCommand (CommandUnit e) (commandFuel e) (units w) (board w)
                          (Blackboard.CC (CommandUnit e) [Unit.id u; Unburrow e]) id in
              Ok (set_board w r.2 (heap w) (nextTask w) r.1)
            else Ok w in
  Ok (w, add c i (Upc.makeSharpUPC_pos (Some i) target Command.Move), p).

(** The loop ends at the first unit that has to be killed.

    [src/src/modules/builderc.cpp:705-740] WorkerBuilderController::step *)
Fixpoint clear_way (l : list Z) (w : world) (c : ctl) (p : place) (movedUnits : Z)
    : res (world * ctl * place * Z * option Z) :=
  match l with
  | [] => Ok (w, c, p, movedUnits, None)
  | i :: l =>
      let? u := unit w i in
      if negb (flying (trait e i)) && negb (invincible (trait e i)) && bool_decide (builder_ c ≠ Some i) &&
         detected (trait e i) && negb (BuildType.isBuilding (Unit.type u)) then
        let d := pxDistanceOfUnit i u (type_ c) (pos_ p) in
        if Unit.isMine u && negb (isNonUsable (Unit.type u)) && (d <=? 16) then
          let? r := shove w c p i in
          let '(w, c, p) := r in clear_way l w c p (movedUnits + 1)
        else if d <=? 0 then Ok (w, c, p, movedUnits, Some i)
        else clear_way l w c p movedUnits
      else clear_way l w c p movedUnits
  end.

(** [src/src/modules/builderc.cpp:756-773] WorkerBuilderController::step *)
Definition block_tiles (w : world) (c : ctl) (p : place) : world :=
  let x0 := Vec2.x (pos_ p) in
  let y0 := Vec2.y (pos_ p) in
  set_tilesInfo w (fold_left (λ ts y, fold_left (λ ts x,
    match Tiles.tryGetTile ts x y with
    | Some n => Tiles.set_tiles ts (alter (λ t,
        Tiles.set_blockedUntil (Z.max (Tiles.blockedUntil t) (frame e + 15 * 30)) t) (Z.to_nat n) (Tiles.tiles ts))
    | None => ts
    end) (seqZ x0 (4 * tileWidth (type_ c))) ts) (seqZ y0 (4 * tileHeight (type_ c))) (tiles w)).

(** [src/src/modules/builderc.cpp:748-779] WorkerBuilderController::step *)
Definition attempt (w : world) (c : ctl) (p : place) (i movedUnits : Z) : world * ctl * place :=
  let moves := if movedUnits =? 0 then moveAttempts_ p else moveAttempts_ p + 1 in
  let builds := if (movedUnits =? 0) || (12 <=? moves) then buildAttempts_ p + 1 else buildAttempts_ p in
  let '(w, builds) := if kMaxBuildAttempts <? builds then (block_tiles w c p, 0) else (w, builds) in
  let '(w, n) := addTracker w (Tracker.BuildTracker i (type_ c) 15) in
  (w, add (set_tracker c (Some n)) i (Upc.makeSharpUPC_pos_type (Some i) (pos_ p) Command.Create (Some (type_ c))),
   set_phase (set_attempts p moves builds) (moving_ p) true).

(** [src/src/modules/builderc.cpp:704-784] WorkerBuilderController::step *)
Definition start_building (w : world) (c : ctl) (p : place) (i : Z) : res (world * ctl * place) :=
  let? r := clear_way (visibleUnits e) w c p 0 in
  let '(w, c, p, movedUnits, killUnit) := r in
  match killUnit with
  | Some k =>
      let? wc := release_all w c (movedUnits_ p) in
      Ok (wc.1, add wc.2 i (Upc.makeSharpUPC_target (Some i) (Some k) Command.Delete),
          set_moved p (lastMoveUnitsInTheWay_ p) [])
  | None => Ok (attempt w c p i movedUnits)
  end.

(** [src/src/modules/builderc.cpp:683-703] WorkerBuilderController::step *)
Definition send_builder (w : world) (c : ctl) (p : place) (i : Z) (target : Position) (threshold : float32)
    : world * ctl * place :=
  let safe := safeMoveTo e i target in
  let tgt := if (Vec2.x safe <? 0) || (Vec2.y safe <? 0) then target else safe in
  if fltb (f64_of_Z 4) (Vec2.distanceTo tgt (movingTarget (trait e i))) then
    let c := add c i (Upc.makeSharpUPC_pos (Some i) tgt Command.Move) in
    match tracker_ c with
    | Some _ => (w, c, p)
    | None =>
        let '(w, n) := addTracker w (Tracker.MovementTracker {[i]} (Vec2.x target) (Vec2.y target) threshold 15) in
        (w, set_tracker c (Some n), set_phase p true (building_ p))
    end
  else (w, c, p).

(** [src/src/modules/builderc.cpp:672-678] WorkerBuilderController::step *)
Definition targetPosition (ty : BuildType) (pos : Position) : Position :=
  Vec2.Pos (Z.min (Vec2.x pos + tileWidth ty * 4 / 2) (mapWidth e - 1))
           (Z.min (Vec2.y pos + tileHeight ty * 4 / 2) (mapHeight e - 1)).

(** [src/src/modules/builderc.cpp:639-787] WorkerBuilderController::step *)
Definition work (w : world) (c : ctl) (p : place) (moveOnly : bool) : res (world * ctl * place) :=
  match builder_ c with
  | Some i =>
      if BuildType.isBuilding (type_ c) && placed (pos_ p) then
        let? r := send_detector w c p in
        let '(w, c, p) := r in
        let threshold := if BuildType.isRefinery (type_ c) then f32_of_Z 24 else f32_of_Z 8 in
        let target := targetPosition (type_ c) (pos_ p) in
        let? u := unit w i in
        if fleb threshold (distance_to u target) then Ok (send_builder w c p i target threshold)
        else if bool_decide (tracker_ c = None) && negb moveOnly then start_building w c p i
        else Ok (w, c, p)
      else Ok (w, c, p)
  | None => Ok (w, c, p)
  end.

(** [src/src/modules/builderc.cpp:607-610] WorkerBuilderController::step *)
Definition remember (w : world) (c : ctl) (p : place) : world :=
  match builder_ c with
  | Some i => if placed (pos_ p)
              then set_data w (set_recent (bcdata w) (al_set i (frame e, type_ c, pos_ p) (recentAssignedBuilders (bcdata w))))
              else w
  | None => w
  end.

(** [src/src/modules/builderc.cpp:401-789] WorkerBuilderController::step *)
Definition worker_step (w : world) (c : ctl) : res (world * ctl) :=
  if succeeded_ c || failed_ c then Ok (w, c) else
  let? cc := cancelled w c in
  if (cc : bool) then Ok (w, c) else
  let? p := of_option (worker c) in
  let c := check_location c p in
  if failed_ c then Ok (w, c) else
  let? p := of_option (worker c) in
  let? c := follow_worker w c p in
  if succeeded_ c || failed_ c then Ok (w, c) else
  let? p := of_option (worker c) in
  let? wc := release_moved w c p in
  let '(w, c) := wc in
  let w := reserve w c in
  if too_soon c then Ok (w, c) else
  let c := set_lastUpdate c (frame e) in
  let moveOnly := negb (canBuild w c) in
  let? p := of_option (worker c) in
  let w := remember w c p in
  let? wc := look_for_builder w c p moveOnly in
  let? r := work wc.1 wc.2 p moveOnly in
  let '(w, c, p) := r in
  postUpcs w (set_worker c (Some p)).

(** [src/src/modules/builderc.cpp:791-799] WorkerBuilderController::removeUnit *)
Definition worker_removeUnit (c : ctl) (u id : Z) : ctl :=
  let c := if bool_decide (builder_ c = Some u) then set_builder c None else c in
  let c := set_worker c ((λ p, if bool_decide (detector_ p = Some u) then set_detector p None else p) <$> worker c) in
  set_base c (Controllers.removeUnit (base c) u id).

(** [controller->step(state)] *)
Definition step (w : world) (c : ctl) : res (world * ctl) :=
  match worker c with Some _ => worker_step w c | None => builder_step w c end.

End builder.
End Builder.
