(* ===== verification/BuilderSteps.v ===== *)
(** * Runs of builder controllers

    What a [WorkerBuilderController] does over any sequence of steps, while the
    trackers it follows, the board and the units change around it. *)

From S2P Require Import Prelude Floats Geometry BuildTypes Units GameMechanics Upc UpcStorage UpcFilter.
From S2P Require Import Trackers Tiles Algorithms Tasks BoardTasks Blackboard Controllers Builder.

Module BuilderSteps.
Import Builder.

Section steps.
Context `{Kinds, BuildType.Table}.

(** ** What the helpers leave alone *)

(** Tasks are made at fresh addresses and keep the controller they are made with. *)
Definition fresh (w : world) : Prop := ∀ r tk, heap w !! r = Some tk → r < nextTask w.
Record grows (w w' : world) : Prop := {
  gr_next : nextTask w ≤ nextTask w';
  gr_fresh : fresh w → fresh w';
  gr_heap : ∀ r tk, heap w !! r = Some tk → r < nextTask w →
    ∃ tk', heap w' !! r = Some tk' ∧ Task.cls tk' = Task.cls tk }.

#[export] Instance grows_refl : Reflexive grows.
Proof. intros w. split; [done|done|eauto]. Qed.
#[export] Instance grows_trans : Transitive grows.
Proof.
  intros w1 w2 w3 [N1 F1 H1] [N2 F2 H2]. split; [lia|auto|]. intros r tk Hr Hlt.
  destruct (H1 r tk Hr Hlt) as (tk2 & Hr2 & <-). apply (H2 r tk2 Hr2). lia.
Qed.

Lemma grows_same w w' : heap w' = heap w → nextTask w' = nextTask w → grows w w'.
Proof. intros E1 E2. split; unfold fresh; rewrite ?E1, ?E2; [lia|done|eauto]. Qed.

Lemma grows_new w w' tk : heap w' = <[nextTask w := tk]> (heap w) → nextTask w' = nextTask w + 1 → grows w w'.
Proof.
  intros E1 E2. split; unfold fresh; rewrite ?E1, ?E2; [lia|..].
  - intros Hf r tk'. destruct (decide (r = nextTask w)) as [->|Hne]; [lia|]. rewrite lookup_insert_ne by done.
    intros Hr%Hf. lia.
  - intros r tk' Hr Hlt. exists tk'. rewrite lookup_insert_ne by lia. done.
Qed.

Lemma grows_update w w' r tk tk' : heap w !! r = Some tk → heap w' = <[r := tk']> (heap w) → nextTask w' = nextTask w →
  Task.cls tk' = Task.cls tk → grows w w'.
Proof.
  intros Hr E1 E2 Ec. split; unfold fresh; rewrite ?E1, ?E2; [lia|..].
  - intros Hf r2 tk2. destruct (decide (r2 = r)) as [->|Hne]; [by eauto|]. rewrite lookup_insert_ne by done. apply Hf.
  - intros r2 tk2 Hr2 Hlt. destruct (decide (r2 = r)) as [->|Hne].
    + exists tk'. rewrite lookup_insert_eq. split; [done|congruence].
    + exists tk2. rewrite lookup_insert_ne by done. done.
Qed.

#[local] Hint Extern 0 (grows _ _) => apply grows_same; reflexivity : core.

Record same_ctl (c c' : ctl) : Prop := {
  sc_type : type_ c' = type_ c; sc_succeeded : succeeded_ c' = succeeded_ c; sc_failed : failed_ c' = failed_ c;
  sc_started : constructionStarted_ c' = constructionStarted_ c; sc_update : lastUpdate_ c' = lastUpdate_ c;
  sc_tracker : tracker_ c' = tracker_ c; sc_worker : worker c' = worker c;
  sc_priority : priority_ c' = priority_ c }.

Record same_world (w w' : world) : Prop := {
  sw_trackers : trackers w' = trackers w; sw_tiles : tiles w' = tiles w; sw_data : bcdata w' = bcdata w;
  sw_grows : grows w w' }.

#[export] Instance same_ctl_refl : Reflexive same_ctl.
Proof. by split. Qed.
#[export] Instance same_ctl_trans : Transitive same_ctl.
Proof. intros c1 c2 c3 [] []. split; congruence. Qed.
#[export] Instance same_world_refl : Reflexive same_world.
Proof. by split. Qed.
#[export] Instance same_world_trans : Transitive same_world.
Proof. intros c1 c2 c3 [] []. split; [congruence..|by etransitivity]. Qed.

Lemma same_set_base c b : same_ctl c (set_base c b).
Proof. by split. Qed.
Lemma same_set_builder c b : same_ctl c (set_builder c b).
Proof. by split. Qed.
Lemma same_set_board w b h n us : grows w (set_board w b h n us) → same_world w (set_board w b h n us).
Proof. by split. Qed.
Lemma same_set_busy w v : same_world w (set_busy w v).
Proof. by split. Qed.

(** Both at once, for a function that returns a pair. *)
Definition quiet (w : world) (c : ctl) (r : res (world * ctl)) : Prop :=
  ∀ w' c', r = Ok (w', c') → same_world w w' ∧ same_ctl c c'.

Lemma quiet_Ok w c w' c' : same_world w w' → same_ctl c c' → quiet w c (Ok (w', c')).
Proof. intros ? ? ? ? [= <- <-]. done. Qed.

Lemma quiet_bind {A} w c (m : res A) k : (∀ a, m = Ok a → quiet w c (k a)) → quiet w c (rbind m k).
Proof. intros Hk w' c' (a & Ha & Hr)%rbind_Ok_inv. by eapply Hk. Qed.

Lemma quiet_then w c r k : quiet w c r → (∀ w' c', quiet w' c' (k (w', c'))) → quiet w c (rbind r k).
Proof.
  intros Hr Hk w2 c2 ([w1 c1] & E1 & E2)%rbind_Ok_inv. destruct (Hr _ _ E1), (Hk _ _ _ _ E2).
  split; by etransitivity.
Qed.

Lemma grabUnit_quiet e w c u : quiet w c (grabUnit e w c u).
Proof.
  unfold grabUnit. apply quiet_bind. intros bt _. destruct bt as [[tk d]|]; [|by apply quiet_Ok].
  destruct (Task.finished tk); [by apply quiet_Ok|]. apply quiet_bind. intros id _. apply quiet_bind.
  intros [b newId] _. apply quiet_bind. intros b' _. apply quiet_Ok; [|done].
  by eapply same_set_board, grows_new.
Qed.

Lemma releaseUnit_quiet w c u : quiet w c (releaseUnit w c u).
Proof.
  unfold releaseUnit. apply quiet_bind. intros [r|] _; [|by apply quiet_Ok]. apply quiet_bind. intros tk Htk.
  apply quiet_bind. intros ts _. apply quiet_Ok; [|done]. destruct (heap w !! r) as [tk'|] eqn:Er; [|done].
  injection Htk as ->. apply same_set_board. 
  apply (grows_update w _ r tk (Task.removeUnit u tk)); [done..|]. unfold Task.removeUnit. by case_decide.
Qed.

Lemma release_all_quiet us : ∀ w c, quiet w c (release_all w c us).
Proof.
  unfold release_all. induction us as [|u us IH]; intros w c; cbn [rfold]; [by apply quiet_Ok|].
  apply quiet_then; [apply releaseUnit_quiet|]. intros. apply IH.
Qed.

Lemma choose_quiet e score w c : quiet w c (choose e score w c).
Proof.
  unfold choose. apply quiet_bind. intros gone _.
  destruct (builder_ c) as [i|] eqn:Eb.
  - destruct gone; [|rewrite Eb; by apply quiet_Ok]. cbn [set_builder builder_].
    apply quiet_bind. intros l _. apply quiet_bind. intros j _. by apply quiet_Ok.
  - rewrite Eb. apply quiet_bind. intros l _. apply quiet_bind. intros j _. by apply quiet_Ok.
Qed.

Lemma findBuilder_quiet e w c pos : quiet w c (findBuilder e w c pos).
Proof.
  unfold findBuilder. repeat case_match; try apply choose_quiet. by apply quiet_Ok.
Qed.

Lemma look_quiet e w c p b : quiet w c (look_for_builder e w c p b).
Proof.
  unfold look_for_builder. destruct (builder_ c); [by apply quiet_Ok|]. destruct (building_ p); [by apply quiet_Ok|].
  apply quiet_then; [apply findBuilder_quiet|]. intros w1 c1. destruct (builder_ c1) as [i|]; [|by apply quiet_Ok].
  apply quiet_bind. intros u _. case_match; [by apply quiet_Ok|apply grabUnit_quiet].
Qed.

Lemma postUpcs_quiet e w c : quiet w c (postUpcs e w c).
Proof. unfold postUpcs. apply quiet_bind. intros r _. by apply quiet_Ok. Qed.

(** The state machine of a place: what the detector and moved units leave. *)
Record same_place (p p' : place) : Prop := {
  sp_pos : pos_ p' = pos_ p; sp_moves : moveAttempts_ p' = moveAttempts_ p; sp_builds : buildAttempts_ p' = buildAttempts_ p;
  sp_moving : moving_ p' = moving_ p; sp_building : building_ p' = building_ p }.

#[export] Instance same_place_refl : Reflexive same_place.
Proof. by split. Qed.
#[export] Instance same_place_trans : Transitive same_place.
Proof. intros c1 c2 c3 [] []. split; congruence. Qed.

Lemma send_detector_quiet e w c p w' c' p' : send_detector e w c p = Ok (w', c', p') →
  same_world w w' ∧ same_ctl c c' ∧ same_place p p'.
Proof.
  unfold send_detector. destruct (detector_ p) as [i|].
  - repeat case_match; intros [= <- <- <-]; done.
  - intros (d & _ & E)%rbind_Ok_inv. destruct d as [i|]; [|injection E as <- <- <-; done].
    apply rbind_Ok_inv in E as ([w1 c1] & Eg & [= <- <- <-]). destruct (grabUnit_quiet _ _ _ _ _ _ Eg). done.
Qed.

Lemma shove_quiet e w c p i w' c' p' : shove e w c p i = Ok (w', c', p') →
  same_world w w' ∧ same_ctl c c' ∧ same_place p p'.
Proof.
  unfold shove. intros (b & _ & E)%rbind_Ok_inv. apply rbind_Ok_inv in E as (ub & _ & E).
  apply rbind_Ok_inv in E as (tgt & _ & E). apply rbind_Ok_inv in E as ([w1 c1] & Eg & E).
  destruct (grabUnit_quiet _ _ _ _ _ _ Eg) as [Hw Hc]. apply rbind_Ok_inv in E as (w2 & E2 & [= <- <- <-]).
  split_and!; [|etransitivity; [exact Hc|apply same_set_base]|done]. etransitivity; [exact Hw|].
  destruct (burrowed _); [|by injection E2 as <-]. apply rbind_Ok_inv in E2 as (id & _ & E2).
  apply rbind_Ok_inv in E2 as (u & _ & E2). apply rbind_Ok_inv in E2 as (r & _ & [= <-]). done.
Qed.

Lemma clear_way_quiet e l : ∀ w c p n w' c' p' n' k, 0 ≤ n → clear_way e l w c p n = Ok (w', c', p', n', k) →
  same_world w w' ∧ same_ctl c c' ∧ same_place p p' ∧ 0 ≤ n'.
Proof.
  induction l as [|i l IH]; intros w c p n w' c' p' n' k Hn; cbn [clear_way]; [by intros [= <- <- <- <- <-]|].
  intros (u & _ & E)%rbind_Ok_inv. case_match; [|by eapply IH]. case_match.
  - apply rbind_Ok_inv in E as ([[w1 c1] p1] & Es & E). destruct (shove_quiet _ _ _ _ _ _ _ _ Es) as (Hw & Hc & Hp).
    destruct (IH w1 c1 p1 (n + 1) w' c' p' n' k ltac:(lia) E) as (? & ? & ? & ?). split_and!; [by etransitivity..|done].
  - case_match; [by injection E as <- <- <- <- <-|by eapply IH].
Qed.

(** ** The machine *)

(** Orders to build, among the trackers made since [n]. *)
Definition is_build (t : Tracker.t) : bool := match Tracker.kind t with Tracker.KBuild _ _ _ _ => true | _ => false end.
Definition orders (w w' : world) : nat :=
  length (filter (λ t, is_build t = true) (drop (length (trackers w)) (trackers w'))).

(** The tracker a controller follows is of the right kind. *)
Definition follows (c : ctl) (p : place) (w : world) : Prop :=
  match tracker_ c with
  | None => True
  | Some n => ∃ t, trackers w !! n = Some t ∧
      match Tracker.kind t with
      | Tracker.KMovement _ _ _ => moving_ p = true
      | Tracker.KBuild _ _ ty _ => moving_ p = false ∧ ty = type_ c
      | _ => False
      end
  end.

(** Attempts so far: at most eleven more for units in the way. *)
Definition spent (p : place) : Z := Z.min (moveAttempts_ p) 11 + buildAttempts_ p.

Record sound (w : world) (c : ctl) (p : place) : Prop := {
  so_place : worker c = Some p;
  so_follows : follows c p w;
  so_moving : moving_ p = true → is_Some (tracker_ c) ∧ buildAttempts_ p < kMaxBuildAttempts;
  so_builds : 0 ≤ buildAttempts_ p ≤ kMaxBuildAttempts;
  so_moves : 0 ≤ moveAttempts_ p;
  so_idle : tracker_ c = None → failed_ c = true ∨ buildAttempts_ p < kMaxBuildAttempts;
  so_succeeded : succeeded_ c = true → ∃ n t u o f, tracker_ c = Some n ∧ trackers w !! n = Some t ∧
    Tracker.kind t = Tracker.KBuild u o (type_ c) f ∧ Tracker.status_ t = Trackers.Success;
  so_one : succeeded_ c = true → failed_ c = false
}.

(** What a step may do besides: no tiles, and at most one order to build. *)
Record progress (w w' : world) (p p' : place) : Prop := {
  pr_trackers : trackers w `prefix_of` trackers w';
  pr_tiles : tiles w' = tiles w;
  pr_orders : spent p' = spent p + Z.of_nat (orders w w')
}.

Lemma progress_same w w' p p' : same_world w w' → same_place p p' → progress w w' p p'.
Proof.
  intros [E1 E2 _] [? Em Eb ? ?]. split; [by rewrite E1|done|]. unfold orders, spent.
  rewrite E1, drop_all, Em, Eb. cbn. lia.
Qed.

Lemma progress_app w w' p p' t : trackers w' = trackers w ++ [t] → tiles w' = tiles w →
  spent p' = spent p + (if is_build t then 1 else 0) → progress w w' p p'.
Proof.
  intros E1 E2 E3. split; [rewrite E1; by apply prefix_app_r|done|]. unfold orders. rewrite E1, drop_app_length, E3.
  rewrite filter_cons. destruct (is_build t); [rewrite decide_True by done|rewrite decide_False by done]; done.
Qed.

Lemma progress_l w w1 w' p p1 p' : same_world w w1 → same_place p p1 → progress w1 w' p1 p' → progress w w' p p'.
Proof.
  intros [E1 E2 _] [? Em Eb ? ?] [P1 P2 P3]. split; [by rewrite <-E1|congruence|].
  unfold orders, spent in *. by rewrite <-E1, <-Em, <-Eb.
Qed.

Lemma follows_same w w' c c' p p' : trackers w' = trackers w → tracker_ c' = tracker_ c → type_ c' = type_ c →
  moving_ p' = moving_ p → follows c p w → follows c' p' w'.
Proof. unfold follows. intros -> -> -> ->. done. Qed.

Lemma sound_same w w' c c' p p' : same_world w w' → same_ctl c c' → same_place p p' → worker c' = Some p' →
  sound w c p → sound w' c' p'.
Proof.
  intros [E1 E2 _] [C1 C2 C3 C4 C5 C6 C7] [P1 P2 P3 P4 P5] Hw [S1 S2 S3 S4 S5 S6 S7 S8]. split; try done.
  - by eapply follows_same.
  - by rewrite P4, C6, P3.
  - by rewrite P3.
  - by rewrite P2.
  - by rewrite C6, C3, P3.
  - rewrite C2, C6, E1, C1. done.
  - by rewrite C2, C3.
Qed.

(** A step that is not finished works on [sound] data with a pair of [world]
    and controller and the place kept aside. *)
Definition aside (c : ctl) (p : place) : ctl := set_worker c (Some p).

Lemma follow_sound w c p c' : sound w c p → succeeded_ c = false → failed_ c = false → follow_worker w c p = Ok c' →
  ∃ p', sound w c' p' ∧ spent p' = spent p ∧ type_ c' = type_ c.
Proof.
  intros [S1 S2 S3 S4 S5 S6 S7 S8] Hns Hnf. unfold follow_worker, follows in *.
  destruct (tracker_ c) as [n|] eqn:En; [|intros [= <-]; exists p; split_and!; try done; split; unfold follows; rewrite ?En; done].
  destruct S2 as (t & Ht & Hk). unfold status. rewrite Ht. cbn [rbind of_option]. intros [= <-].
  destruct (moving_ p) eqn:Em.
  - destruct (S3 eq_refl) as [_ Hb].
    assert (∀ c1, tracker_ c1 = None → succeeded_ c1 = false → worker c1 = Some (set_phase p false (building_ p)) →
      sound w c1 (set_phase p false (building_ p))) as Hstop.
    { intros c1 E1 E2 E3. split; unfold follows; rewrite ?E1, ?E2; try done. right. done. }
    destruct (Tracker.status_ t) eqn:Es; cbn [follow_move].
    all: try (exists p; split_and!; [|done|done]; split; unfold follows; rewrite ?En, ?Em; eauto; done).
    all: eexists; (split_and!; [apply Hstop|done|done]); done.
  - assert (∃ u o f, Tracker.kind t = Tracker.KBuild u o (type_ c) f) as (u & o & f & Hkind).
    { destruct (Tracker.kind t); try done. destruct Hk as [_ ->]. eauto. }
    assert (∃ t, trackers w !! n = Some t ∧ match Tracker.kind t with
      | Tracker.KMovement _ _ _ => moving_ p = true
      | Tracker.KBuild _ _ ty _ => moving_ p = false ∧ ty = type_ c
      | _ => False end) as Hf by (exists t; rewrite Hkind; done).
    rewrite Em in Hf.
    destruct (Tracker.status_ t) eqn:Es; cbn [follow_build].
    all: try (exists p; split_and!; [|done|done]; split; unfold follows; cbn; rewrite ?En, ?Em, ?Hnf, ?Hns; eauto; done).
    + exists (set_phase p (moving_ p) false).
      destruct (Z.ltb_spec (buildAttempts_ p) kMaxBuildAttempts); (split_and!; [|done..]);
        (split; unfold follows; cbn; rewrite ?Em, ?Hns; try done; intros _; auto).
    + exists (set_phase p (moving_ p) false). split_and!; [|done..].
      split; unfold follows; cbn; rewrite ?En, ?Em; try done.
      intros _. exists n, t, u, o, f. done.
    + exists (set_phase p (moving_ p) false).
      destruct (Z.ltb_spec (buildAttempts_ p) kMaxBuildAttempts); (split_and!; [|done..]);
        (split; unfold follows; cbn; rewrite ?Em, ?Hns; try done; intros _; auto).
Qed.

Lemma aside_same c p : worker c = Some p → aside c p = c.
Proof. destruct c. cbn. by intros ->. Qed.

(** Changes that only touch the place's bookkeeping. *)
Lemma sound_refresh w w' c c' p p' : same_world w w' → same_ctl c c' → same_place p p' →
  sound w (aside c p) p → sound w' (aside c' p') p'.
Proof.
  intros [E1 E2 _] [C1 C2 C3 C4 C5 C6 C7] [P1 P2 P3 P4 P5] [S1 S2 S3 S4 S5 S6 S7 S8]. split; cbn [aside set_worker]; cbn.
  - done.
  - by eapply (follows_same w w' (aside c p)).
  - by rewrite P4, C6, P3.
  - by rewrite P3.
  - by rewrite P2.
  - by rewrite C6, C3, P3.
  - rewrite C2, C6, E1, C1. done.
  - by rewrite C2, C3.
Qed.

(** A new tracker for an idle controller. *)
Lemma sound_track w c p t p' : sound w (aside c p) p → tracker_ c = None → succeeded_ c = false → failed_ c = false →
  (match Tracker.kind t with
   | Tracker.KMovement _ _ _ => moving_ p' = true
   | Tracker.KBuild _ _ ty _ => moving_ p' = false ∧ ty = type_ c
   | _ => False end) →
  (moving_ p' = true → buildAttempts_ p' < kMaxBuildAttempts) → 0 ≤ buildAttempts_ p' ≤ kMaxBuildAttempts → 0 ≤ moveAttempts_ p' →
  ∀ w' c', trackers w' = trackers w ++ [t] → tracker_ c' = Some (length (trackers w)) → type_ c' = type_ c →
    succeeded_ c' = false → failed_ c' = false → sound w' (aside c' p') p'.
Proof.
  intros [S1 S2 S3 S4 S5 S6 S7 S8] Hn Hs Hf Hk Hm Hb Hmv w' c' Ew Ec Ety Es Ef.
  split; cbn [aside set_worker]; cbn; rewrite ?Ec, ?Es, ?Ef; try done.
  - unfold follows. cbn. rewrite Ec. exists t. rewrite Ew, lookup_app_r, Nat.sub_diag by lia. split; [done|].
    rewrite Ety. done.
  - intros Hmove. split; [eauto|auto].
Qed.

Lemma attempt_sound e w c p i n w' c' p' : 0 ≤ n → sound w (aside c p) p → tracker_ c = None → succeeded_ c = false → failed_ c = false →
  attempt e w c p i n = (w', c', p') → sound w' (aside c' p') p' ∧ progress w w' p p'.
Proof.
  intros Hn Hs Ht Hsu Hf. unfold attempt. pose proof Hs as [S1 S2 S3 S4 S5 S6 S7 S8].
  cbn [aside set_worker tracker_ failed_] in *. destruct (S6 Ht) as [Hx|Hb]; [congruence|]. unfold kMaxBuildAttempts in *.
  assert (moving_ p = false) as Em by (destruct (moving_ p); [|done]; destruct S3 as [[? Hx] _]; [done|congruence]).
  set (moves := if n =? 0 then moveAttempts_ p else moveAttempts_ p + 1).
  set (builds := if (n =? 0) || (12 <=? moves) then buildAttempts_ p + 1 else buildAttempts_ p).
  assert (0 ≤ moves) as Hmoves by (subst moves; destruct (n =? 0); lia).
  assert (0 ≤ builds ≤ 3) as Hbuilds by (subst builds; destruct (_ || _); lia).
  rewrite (proj2 (Z.ltb_ge 3 builds)) by lia. cbn [addTracker]. intros [= <- <- <-].
  assert (spent (set_phase (set_attempts p moves builds) (moving_ p) true) = spent p + 1) as Hsp.
  { unfold spent. cbn. subst builds moves. destruct (Z.eqb_spec n 0); cbn [orb]; [lia|].
    destruct (Z.leb_spec 12 (moveAttempts_ p + 1)); lia. }
  split.
  - eapply sound_track; [exact Hs|done|done|done| | | | |cbn; done|done|done|done|done]; cbn; rewrite ?Em; done.
  - by eapply progress_app.
Qed.

Lemma send_sound e w c p i tgt th w' c' p' : sound w (aside c p) p → succeeded_ c = false → failed_ c = false →
  send_builder e w c p i tgt th = (w', c', p') → sound w' (aside c' p') p' ∧ progress w w' p p'.
Proof.
  intros Hs Hsu Hf. unfold send_builder.
  set (t := if (Vec2.x (safeMoveTo e i tgt) <? 0) || (Vec2.y (safeMoveTo e i tgt) <? 0) then tgt else safeMoveTo e i tgt).
  case_match.
  2:{ intros [= <- <- <-]. split; [by eapply sound_refresh|by apply progress_same]. }
  cbn [add set_base tracker_]. destruct (tracker_ c) as [n|] eqn:En.
  { intros [= <- <- <-]. split; [|by apply progress_same]. eapply sound_refresh; [done|apply same_set_base|done|done]. }
  cbn [addTracker]. intros [= <- <- <-]. pose proof Hs as [S1 S2 S3 S4 S5 S6 S7 S8].
  cbn [aside set_worker tracker_ failed_] in *. destruct (S6 En) as [Hx|Hb]; [congruence|]. split.
  - eapply sound_track; [exact Hs|done|done|done| | | | |cbn; done|done|done|done|done]; cbn; done.
  - eapply progress_app; [done|done|]. unfold spent. cbn. lia.
Qed.

Lemma work_sound e w c p mo w' c' p' : sound w (aside c p) p → succeeded_ c = false → failed_ c = false →
  work e w c p mo = Ok (w', c', p') → sound w' (aside c' p') p' ∧ progress w w' p p'.
Proof.
  intros Hs Hsu Hf. unfold work. destruct (builder_ c) as [i|] eqn:Eb.
  2:{ intros [= <- <- <-]. split; [by eapply sound_refresh|by apply progress_same]. }
  case_match.
  2:{ intros [= <- <- <-]. split; [by eapply sound_refresh|by apply progress_same]. }
  intros ([[w1 c1] p1] & Ed & E)%rbind_Ok_inv. destruct (send_detector_quiet _ _ _ _ _ _ _ Ed) as (Hw1 & Hc1 & Hp1).
  pose proof (sound_refresh _ _ _ _ _ _ Hw1 Hc1 Hp1 Hs) as Hs1.
  assert (succeeded_ c1 = false ∧ failed_ c1 = false) as [Hsu1 Hf1] by (destruct Hc1; split; congruence).
  apply rbind_Ok_inv in E as (u & _ & E). case_match.
  { assert (send_builder e w1 c1 p1 i (targetPosition e (type_ c1) (pos_ p1))
      (if BuildType.isRefinery (type_ c1) then f32_of_Z 24 else f32_of_Z 8) = (w', c', p')) as E' by congruence.
    destruct (send_sound _ _ _ _ _ _ _ _ _ _ Hs1 Hsu1 Hf1 E') as [Hs' Hp']. split; [done|by eapply progress_l]. }
  case_match eqn:Hgo.
  2:{ injection E as <- <- <-. split; [done|by apply progress_same]. }
  apply andb_true_iff in Hgo as [Hno%bool_decide_eq_true _]. unfold start_building in E.
  apply rbind_Ok_inv in E as ([[[[w2 c2] p2] n2] k2] & Ec & E).
  destruct (clear_way_quiet _ _ _ _ _ _ _ _ _ _ _ (Z.le_refl 0) Ec) as (Hw2 & Hc2 & Hp2 & Hn2).
  pose proof (sound_refresh _ _ _ _ _ _ Hw2 Hc2 Hp2 Hs1) as Hs2.
  assert (succeeded_ c2 = false ∧ failed_ c2 = false ∧ tracker_ c2 = None) as (Hsu2 & Hf2 & Hno2)
    by (destruct Hc2; split_and!; congruence).
  destruct k2 as [k|].
  - apply rbind_Ok_inv in E as ([w3 c3] & Er & [= <- <- <-]). destruct (release_all_quiet _ _ _ _ _ Er) as [Hw3 Hc3].
    assert (same_world w w3) as Hw by (etransitivity; [exact Hw1|etransitivity; [exact Hw2|exact Hw3]]).
    split; [|apply progress_same; [done|etransitivity; [exact Hp1|etransitivity; [exact Hp2|by split]]]].
    apply (sound_refresh w2 w3 c2 _ p2); [exact Hw3| |by split|exact Hs2]. destruct Hc3. by split.
  - assert (attempt e w2 c2 p2 i n2 = (w', c', p')) as E' by congruence.
    destruct (attempt_sound _ _ _ _ _ _ _ _ _ Hn2 Hs2 Hno2 Hsu2 Hf2 E') as [Hs' Hp'].
    split; [done|]. eapply progress_l; [exact Hw1|exact Hp1|]. by eapply progress_l.
Qed.

Lemma sound_world w w' c p : trackers w' = trackers w → sound w c p → sound w' c p.
Proof.
  intros E [S1 S2 S3 S4 S5 S6 S7 S8]. split; try done; [by eapply follows_same|]. by rewrite E.
Qed.

Lemma sound_place w c p p' : same_place p p' → sound w c p → sound w (set_worker c (Some p')) p'.
Proof.
  intros Hp Hs. change (set_worker c (Some p')) with (aside c p'). eapply sound_refresh; [done|done|exact Hp|].
  rewrite aside_same; [done|apply Hs].
Qed.

Lemma sound_fail w c p : sound w c p → succeeded_ c = false → sound w (set_outcome c (succeeded_ c) true) p.
Proof. intros [S1 S2 S3 S4 S5 S6 S7 S8] Hs. rewrite Hs. split; cbn; try done. auto. Qed.

Lemma progress_w w w1 w' p p1 p' : trackers w1 = trackers w → tiles w1 = tiles w → spent p1 = spent p →
  progress w1 w' p1 p' → progress w w' p p'.
Proof.
  intros E1 E2 Hp [P1 P2 P3]. split; [by rewrite <-E1|congruence|].
  unfold orders in *. by rewrite <-E1, <-Hp.
Qed.

Lemma progress_r w w1 w' p p' : same_world w1 w' → progress w w1 p p' → progress w w' p p'.
Proof. intros [E1 E2 _] [P1 P2 P3]. split; [by rewrite E1|congruence|]. unfold orders in *. by rewrite E1. Qed.

Lemma progress_refl w p p' : spent p' = spent p → progress w w p p'.
Proof. intros E. split; [done|done|]. unfold orders. rewrite drop_all. cbn. lia. Qed.

Lemma check_sound e w c p : sound w c p → succeeded_ c = false →
  ∃ p', sound w (check_location e c p) p' ∧ spent p' = spent p ∧ type_ (check_location e c p) = type_ c ∧
    succeeded_ (check_location e c p) = false.
Proof.
  intros Hs Hsu. unfold check_location. case_match; [|by exists p].
  exists (set_check p (frame e)).
  assert (sound w (set_worker c (Some (set_check p (frame e)))) (set_check p (frame e))) as Hs'
    by (apply (sound_place w c p); [by split|done]).
  destruct (canBuildAt _ _ _); split_and!; try done. by apply sound_fail.
Qed.

Lemma work_type e w c p mo w' c' p' : work e w c p mo = Ok (w', c', p') → type_ c' = type_ c.
Proof.
  unfold work. destruct (builder_ c) as [i|]; [|by intros [= <- <- <-]]. case_match; [|by intros [= <- <- <-]].
  intros ([[w1 c1] p1] & Ed & E)%rbind_Ok_inv. destruct (send_detector_quiet _ _ _ _ _ _ _ Ed) as (_ & [Ht _ _ _ _ _ _] & _).
  rewrite <-Ht. apply rbind_Ok_inv in E as (u & _ & E). case_match.
  { injection E as E. unfold send_builder in E. repeat case_match; simplify_eq; done. }
  case_match; [|by injection E as <- <- <-]. unfold start_building in E.
  apply rbind_Ok_inv in E as ([[[[w2 c2] p2] n2] k2] & Ec & E).
  destruct (clear_way_quiet _ _ _ _ _ _ _ _ _ _ _ (Z.le_refl 0) Ec) as (_ & [Ht2 _ _ _ _ _ _] & _). rewrite <-Ht2.
  destruct k2 as [k|].
  - apply rbind_Ok_inv in E as ([w3 c3] & Er & [= <- <- <-]). destruct (release_all_quiet _ _ _ _ _ Er) as [_ [Ht3 _ _ _ _ _ _]].
    done.
  - injection E as E. unfold attempt in E. case_match. cbn [addTracker] in E. by injection E as <- <- <-.
Qed.

(** After the checks: the part of the step that works. *)
Lemma work_step_sound e w c p w' c' : sound w c p → succeeded_ c = false → failed_ c = false →
  (let moveOnly := negb (canBuild e w c) in
   let? wc := look_for_builder e (remember e w c p) c p moveOnly in
   let? r := work e wc.1 wc.2 p moveOnly in
   let '(w, c, p) := r in
   postUpcs e w (set_worker c (Some p))) = Ok (w', c') →
  ∃ p', sound w' c' p' ∧ progress w w' p p' ∧ type_ c' = type_ c.
Proof.
  intros Hs Hsu Hf ([w1 c1] & E1 & E)%rbind_Ok_inv. destruct (look_quiet _ _ _ _ _ _ _ E1) as [Hw1 Hc1].
  apply rbind_Ok_inv in E as ([[w2 c2] p2] & E2 & E). destruct (postUpcs_quiet _ _ _ _ _ E) as [Hw3 Hc3].
  assert (trackers (remember e w c p) = trackers w ∧ tiles (remember e w c p) = tiles w) as [Et Ei]
    by (unfold remember; by repeat case_match).
  assert (sound w1 (aside c1 p) p) as Hs1.
  { eapply sound_refresh; [exact Hw1|exact Hc1|done|]. rewrite aside_same by apply Hs. by eapply sound_world. }
  assert (succeeded_ c1 = false ∧ failed_ c1 = false) as [Hsu1 Hf1] by (destruct Hc1; split; congruence).
  destruct (work_sound _ _ _ _ _ _ _ _ Hs1 Hsu1 Hf1 E2) as [Hs2 Hp2]. exists p2. split_and!.
  - eapply sound_same; [exact Hw3|exact Hc3|done| |exact Hs2]. destruct Hc3 as [_ _ _ _ _ _ ->]. done.
  - eapply progress_r; [exact Hw3|]. eapply progress_w; [..|exact Hp2]; [..|done].
    + destruct Hw1. congruence.
    + destruct Hw1. congruence.
  - destruct Hc3 as [Ht _ _ _ _ _ _], Hc1 as [Ht1 _ _ _ _ _ _]. rewrite Ht. cbn. rewrite <-Ht1.
    by eapply work_type.
Qed.

Lemma release_moved_sound e w c p w' c' : sound w c p → release_moved e w c p = Ok (w', c') →
  ∃ p', sound w' c' p' ∧ same_world w w' ∧ spent p' = spent p ∧ type_ c' = type_ c ∧
    succeeded_ c' = succeeded_ c ∧ failed_ c' = failed_ c.
Proof.
  intros Hs. unfold release_moved. case_match; [|intros [= <- <-]; exists p; by split_and!].
  intros ([w1 c1] & E & [= <- <-])%rbind_Ok_inv. destruct (release_all_quiet _ _ _ _ _ E) as [Hw Hc].
  exists (set_moved p 0 []). destruct Hc as [C1 C2 C3 C4 C5 C6 C7]. split_and!; try done.
  apply (sound_refresh w w1 c c1 p); [done|by split|by split|]. rewrite aside_same; [done|apply Hs].
Qed.

Lemma worker_step_sound e w c p w' c' : sound w c p → worker_step e w c = Ok (w', c') →
  ∃ p', sound w' c' p' ∧ progress w w' p p' ∧ type_ c' = type_ c ∧
    (succeeded_ c = true ∨ failed_ c = true → w' = w ∧ c' = c).
Proof.
  intros Hs. unfold worker_step. destruct (succeeded_ c) eqn:Esu; cbn [orb].
  { intros [= <- <-]. exists p. split_and!; [done|by apply progress_refl|done|done]. }
  destruct (failed_ c) eqn:Ef; [intros [= <- <-]; exists p; split_and!; [done|by apply progress_refl|done|done]|].
  intros E. cut (∃ p', sound w' c' p' ∧ progress w w' p p' ∧ type_ c' = type_ c).
  { intros (p' & ? & ? & ?). exists p'. split_and!; try done. by intros [?|?]. }
  revert E. intros (cc & _ & E)%rbind_Ok_inv.
  destruct cc; [injection E as <- <-; exists p; split_and!; [done|by apply progress_refl|done]|].
  apply rbind_Ok_inv in E as (p0 & Ep0 & E). rewrite (so_place _ _ _ Hs) in Ep0. injection Ep0 as <-.
  destruct (check_sound e w c p Hs Esu) as (p1 & Hs1 & Hsp1 & Ht1 & Hsu1).
  set (c1 := check_location e c p) in *.
  destruct (failed_ c1) eqn:Ef1; [injection E as <- <-; exists p1; split_and!; [done|by apply progress_refl|done]|].
  apply rbind_Ok_inv in E as (p0 & Ep0 & E). rewrite (so_place _ _ _ Hs1) in Ep0. injection Ep0 as <-.
  apply rbind_Ok_inv in E as (c2 & Efo & E).
  destruct (follow_sound _ _ _ _ Hs1 Hsu1 Ef1 Efo) as (p2 & Hs2 & Hsp2 & Ht2).
  destruct (succeeded_ c2 || failed_ c2) eqn:Efin.
  { injection E as <- <-. exists p2. split_and!; [done|apply progress_refl; congruence|congruence]. }
  apply orb_false_iff in Efin as [Hsu2 Hf2].
  apply rbind_Ok_inv in E as (p0 & Ep0 & E). rewrite (so_place _ _ _ Hs2) in Ep0. injection Ep0 as <-.
  apply rbind_Ok_inv in E as ([w3 c3] & Er & E).
  destruct (release_moved_sound _ _ _ _ _ _ Hs2 Er) as (p3 & Hs3 & [Et3 Ei3 _] & Hsp3 & Ht3 & Hsu3 & Hf3).
  set (w4 := reserve w3 c3) in *.
  assert (trackers w4 = trackers w ∧ tiles w4 = tiles w) as [Et4 Ei4]
    by (subst w4; unfold reserve; destruct (constructionStarted_ c3); cbn [set_data trackers tiles]; done).
  assert (sound w4 c3 p3) as Hs4 by (eapply sound_world; [|exact Hs3]; congruence).
  assert (spent p3 = spent p) as Hsp by by rewrite Hsp3, Hsp2, Hsp1. assert (type_ c3 = type_ c) as Hty by by rewrite Ht3, Ht2, Ht1.
  destruct (too_soon e c3).
  { injection E as <- <-. exists p3. split_and!; [done| |done].
    eapply progress_w; [exact Et4|exact Ei4|exact Hsp|by apply progress_refl]. }
  set (c4 := set_lastUpdate c3 (frame e)) in *.
  assert (sound w4 c4 p3) as Hs5 by (destruct Hs4; by split).
  apply rbind_Ok_inv in E as (p0 & Ep0 & E). rewrite (so_place _ _ _ Hs5) in Ep0. injection Ep0 as <-.
  destruct (work_step_sound e w4 c4 p3 w' c' Hs5) as (p' & Hs' & Hp' & Ht'); [cbn; congruence..|exact E|].
  exists p'. split_and!; [done| |by rewrite Ht'].
  by eapply progress_w; [exact Et4|exact Ei4|exact Hsp|].
Qed.

(** ** Runs *)

(** Trackers move on by themselves; finished ones stay as they are. *)
Definition tracker_moves (t t' : Tracker.t) : Prop :=
  (match Tracker.kind t, Tracker.kind t' with
   | Tracker.KMovement _ _ _, Tracker.KMovement _ _ _ => True
   | Tracker.KBuild u _ ty _, Tracker.KBuild u' _ ty' _ => ty' = ty
   | Tracker.KMovement _ _ _, _ | Tracker.KBuild _ _ _ _, _ => False
   | _, _ => True
   end) ∧ (Tracker.terminal (Tracker.status_ t) = true → t' = t).

(** A controller as it is made with its task, in any world. *)
Definition initial (c : ctl) : Prop :=
  ∃ m ty probs pos c0 id prio, WorkerBuilderController m ty probs pos = Ok c0 ∧
    c = set_priority (set_base c0 (Controllers.setUpcId (base c0) id)) prio.

(** What happens to a controller; [n] counts its orders to build. *)
Inductive happens : world * ctl * nat → world * ctl * nat → Prop :=
| happens_step e w c n w' c' : worker_step e w c = Ok (w', c') → happens (w, c, n) (w', c', n + orders w w')%nat
| happens_remove w c n u id : happens (w, c, n) (w, worker_removeUnit c u id, n)
| happens_priority w c n v : happens (w, c, n) (w, set_priority c v, n)
| happens_world w c n w' : (∀ i t, trackers w !! i = Some t → ∃ t', trackers w' !! i = Some t' ∧ tracker_moves t t') →
    happens (w, c, n) (w', c, n).

Definition valid (ty : BuildType) (st : world * ctl * nat) : Prop :=
  let '(w, c, n) := st in ∃ p, sound w c p ∧ Z.of_nat n = spent p ∧ type_ c = ty.

Lemma initial_valid w c : initial c → valid (type_ c) (w, c, 0%nat).
Proof.
  intros (m & ty & probs & pos & c0 & id & prio & E & ->). unfold WorkerBuilderController in E.
  repeat case_match; simplify_eq. exists (Place pos None 0 0 0 [] 0 false false). split; [|done].
  split; cbn; unfold kMaxBuildAttempts; try done; lia.
Qed.

Lemma moves_sound w w' c p : (∀ i t, trackers w !! i = Some t → ∃ t', trackers w' !! i = Some t' ∧ tracker_moves t t') →
  sound w c p → sound w' c p.
Proof.
  intros Hm [S1 S2 S3 S4 S5 S6 S7 S8]. split; try done.
  - unfold follows in *. destruct (tracker_ c) as [n|]; [|done]. destruct S2 as (t & Ht & Hk).
    destruct (Hm n t Ht) as (t' & Ht' & Hkk & _). exists t'. split; [done|].
    destruct (Tracker.kind t), (Tracker.kind t'); try done. destruct Hk as [? ->]. by subst.
  - intros Hs. destruct (S7 Hs) as (n & t & u & o & f & E1 & E2 & E3 & E4). destruct (Hm n t E2) as (t' & Ht' & _ & Hter).
    rewrite (Hter ltac:(by rewrite E4)) in Ht'. exists n, t, u, o, f. done.
Qed.

Lemma happens_valid ty st st' : happens st st' → valid ty st → valid ty st'.
Proof.
  intros Hh. destruct Hh as [e w c n w' c' E|w c n u id|w c n v|w c n w' Hm]; intros (p & Hs & Hn & Hty).
  - destruct (worker_step_sound _ _ _ _ _ _ Hs E) as (p' & Hs' & [_ _ Ho] & Ht & _). exists p'. split_and!; [done|lia|congruence].
  - exists (if bool_decide (detector_ p = Some u) then set_detector p None else p).
    split_and!; [|by case_bool_decide|unfold worker_removeUnit; cbn; by case_bool_decide]. unfold worker_removeUnit.
    destruct Hs as [S1 S2 S3 S4 S5 S6 S7 S8].
    repeat case_bool_decide; split; cbn; rewrite ?S1; cbn; rewrite ?bool_decide_true, ?bool_decide_false by done; done.
  - exists p. split_and!; [|done|done]. destruct Hs. by split.
  - exists p. split_and!; [|done|done]. by eapply moves_sound.
Qed.

(** C14 Whatever happens around it, a [WorkerBuilderController] orders its
    building at most fourteen times, gives up after its third attempt with a
    free place fails, and reports success only for a tracker that followed a
    building of its type to the end, never together with failure.  Its steps
    leave the tiles alone: the code that blocks the place after too many
    attempts is never reached.  A finished controller does nothing. *)
Theorem builder_gives_up w0 c0 w c n : initial c0 → rtc happens (w0, c0, 0%nat) (w, c, n) →
  (n ≤ 14)%nat ∧ type_ c = type_ c0 ∧
  (∃ p, worker c = Some p ∧ 0 ≤ buildAttempts_ p ≤ kMaxBuildAttempts ∧
     (buildAttempts_ p = kMaxBuildAttempts → is_Some (tracker_ c) ∨ failed_ c = true)) ∧
  (succeeded_ c = true → failed_ c = false ∧ ∃ i t u o f, tracker_ c = Some i ∧ trackers w !! i = Some t ∧
     Tracker.kind t = Tracker.KBuild u o (type_ c0) f ∧ Tracker.status_ t = Trackers.Success) ∧
  ∀ e w' c', worker_step e w c = Ok (w', c') →
    tiles w' = tiles w ∧ (succeeded_ c = true ∨ failed_ c = true → w' = w ∧ c' = c).
Proof.
  intros Hi Hr. assert (valid (type_ c0) (w, c, n)) as (p & Hs & Hn & Ht).
  { pose proof (initial_valid w0 c0 Hi) as H0'. revert H0'. generalize (type_ c0). intros ty. clear Hi.
    remember (w0, c0, 0%nat) as a eqn:Ea. remember (w, c, n) as b eqn:Eb. clear Ea Eb.
    induction Hr; [done|]. intros Hv. by eapply IHHr, happens_valid. }
  pose proof Hs as [S1 S2 S3 S4 S5 S6 S7 S8]. unfold kMaxBuildAttempts in *. split_and!.
  - unfold spent in Hn. lia.
  - done.
  - exists p. split_and!; [done|lia|lia|]. intros Hb. destruct (tracker_ c) as [i|] eqn:Et; [left; eauto|right].
    destruct (S6 eq_refl); [done|lia].
  - intros Hsu. split; [auto|]. rewrite <-Ht. auto.
  - intros e w' c' E. destruct (worker_step_sound _ _ _ _ _ _ Hs E) as (p' & _ & [_ Htl _] & _ & Hfin). auto.
Qed.

End steps.
End BuilderSteps.
