(* ===== verification/BuilderModule.v ===== *)
(** * The builder module ([src/modules/builder.cpp])

    [BuilderModule] makes a controller and a task for every Create UPC it can
    act on, sets priorities, and steps the controllers in the order of their
    priorities; they share the resources of the frame.  Controllers are objects,
    known by their address to the tasks that belong to them. *)

From S2P Require Import Prelude Floats Geometry BuildTypes Units GameMechanics Upc UpcStorage UpcFilter.
From S2P Require Import Trackers Tiles Algorithms Tasks BoardTasks Blackboard Controllers Builder BuilderSteps.

Module BuilderModule.
Import Builder.

Record state := State { wd : world; ctls : gmap Z ctl; nextCtl : Z }.

(** [state->resources()] *)
Record resources := Resources { r_ore : Z; r_gas : Z; r_used : Z; r_total : Z }.

Section module.
Context `{Kinds, BuildType.Table} (e : env) (rs : resources).
(** The module, and [std::sort] with the comparison of priorities. *)
Context (self : ModulePtr) (sort : (Task.ref → float32) → list Task.ref → list Task.ref).

(** ** Shared data *)

(** [src/src/modules/builder.cpp:40-45] BuilderModule::step *)
Fixpoint record_history (n : nat) (hist : list Z) (current : Z) : list Z :=
  match n with
  | O => hist
  | S n => record_history n ((if 300 <=? Z.of_nat (length hist) then tail hist else hist) ++ [current]) current
  end.

(** [src/src/modules/builder.cpp:46-49] BuilderModule::step *)
Fixpoint gained (hist : list Z) : Z :=
  match hist with
  | a :: (b :: _) as l => Z.max (b - a) 0 + gained l
  | _ => 0
  end.

(** [src/src/modules/builder.cpp:39-51] BuilderModule::step *)
Definition calculateAverage (n : nat) (hist : list Z) (current : Z) : list Z * float64 :=
  let hist := record_history n hist current in
  (hist, f64_div (f64_of_Z (gained hist)) (f64_of_Z (Z.of_nat (length hist)))).

(** [src/src/modules/builder.cpp:33-56] BuilderModule::step *)
Definition update_income (d : shared) : shared :=
  if 8 <=? frame e - lastIncomeHistoryUpdate d then
    let n := Z.to_nat (frame e - lastIncomeHistoryUpdate d) in
    let '(mh, mf) := calculateAverage n (mineralsHistory d) (r_ore rs) in
    let '(gh, gf) := calculateAverage n (gasHistory d) (r_gas rs) in
    Shared (ore d) (gas d) (used_psi d) (total_psi d) (frame e) mh gh mf gf (recentAssignedBuilders d)
  else d.

(** [src/src/modules/builder.cpp:58-65] BuilderModule::step *)
Definition forget_builders (d : shared) : shared :=
  set_recent d (filter (λ p, frame e - p.2.1.1 < 15 * 25) (recentAssignedBuilders d)).

(** [src/src/modules/builder.cpp:67-67] BuilderModule::step *)
Definition set_resources (d : shared) : shared :=
  Shared (r_ore rs) (r_gas rs) (r_used rs) (r_total rs) (lastIncomeHistoryUpdate d)
    (mineralsHistory d) (gasHistory d) (currentMineralsPerFrame d) (currentGasPerFrame d) (recentAssignedBuilders d).

(** ** New tasks *)

(** What to build and where, when a UPC says so clearly.

    [src/src/modules/builder.cpp:74-101] BuilderModule::step *)
Definition request (us : gmap Z Unit) (u : Upc.t) : res (option (BuildType * option Position)) :=
  let '(ct, prob) := Upc.createTypeArgMax u in
  match ct with
  | None => Ok None
  | Some ty =>
      if fltb prob (f32_lit 99 100) then Ok None else
      match BuildType.builder ty with
      | None => Ok None
      | Some _ =>
          if by_worker ty then
            let? pp := Upc.positionArgMax us u in
            let '(pos, prob) := pp in
            if fltb prob (f32_lit 99 100) || (Vec2.x pos <? 0) || (Vec2.y pos <? 0) then Ok None
            else Ok (Some (ty, Some pos))
          else Ok (Some (ty, None))
      end
  end.

(** [src/src/modules/builder.cpp:103-119] BuilderModule::step *)
Definition new_task (s : state) (id : Z) (u : Upc.t) (ty : BuildType) (place : option Position) : res state :=
  let? c := match place with
            | Some pos => WorkerBuilderController self ty (Upc.unit u) pos
            | None => Ok (BuilderController self ty (Upc.unit u))
            end in
  let '(tk, cb) := Controllers.ControllerTask id ∅ (nextCtl s) (base c) in
  let c := set_priority (set_base c cb) (f32_of_Z id) in
  let w := wd s in
  let b := Blackboard.consumeUPCs (board w) [id] in
  let h := <[nextTask w := tk]> (heap w) in
  let? b := Blackboard.postTask h b (nextTask w) self true (frame e) in
  Ok (State (set_board w b h (nextTask w + 1) (units w)) (<[nextCtl s := c]> (ctls s)) (nextCtl s + 1)).

(** [src/src/modules/builder.cpp:69-122] BuilderModule::step *)
Definition new_tasks (s : state) : res state :=
  let? us := Blackboard.upcsWithSharpCommand (board (wd s)) Command.Create in
  rfold (λ s it,
    let? r := request (units (wd s)) it.2 in
    match r with None => Ok s | Some (ty, place) => new_task s it.1 it.2 ty place end) us s.

(** ** Priorities *)

Definition task (s : state) (r : option Task.ref) : res (Task.ref * Task.t * Z) :=
  let? r := of_option r in
  let? tk := of_option (heap (wd s) !! r) in
  match Task.cls tk with Task.KTask d => Ok (r, tk, d) | _ => Undefined end.

Definition tasks_of (s : state) : res (list (Task.ref * Task.t * Z)) :=
  let? l := BoardTasks.tasksOfModule (Blackboard.tasks (board (wd s))) self in
  rfold (λ acc r, let? t := task s r in Ok (acc ++ [t])) l [].

(** [src/src/modules/builder.cpp:131-143] BuilderModule::step *)
Fixpoint set_task_priority (s : state) (l : list (Task.ref * Task.t * Z)) (id : Z) (prio : float32) : res state :=
  match l with
  | [] => Ok s
  | (r, tk, d) :: l =>
      if Task.upcId tk =? id then
        let? c := of_option (ctls s !! d) in Ok (State (wd s) (<[d := set_priority c prio]> (ctls s)) (nextCtl s))
      else set_task_priority s l id prio
  end.

(** [src/src/modules/builder.cpp:124-146] BuilderModule::step *)
Definition set_priorities (s : state) : res state :=
  let? us := Blackboard.upcsWithSharpCommand (board (wd s)) Command.SetCreatePriority in
  rfold (λ s it,
    let? s := match Upc.state it.2 with
              | Upc.SSetCreatePriority id prio => let? l := tasks_of s in set_task_priority s l id prio
              | _ => Ok s
              end in
    let w := wd s in
    Ok (State (set_board w (Blackboard.consumeUPCs (board w) [it.1]) (heap w) (nextTask w) (units w)) (ctls s) (nextCtl s)))
    us s.

(** ** Stepping the controllers *)

(** [ctask->cancel(state)] with the controller's own [removeUnit].

    [src/src/controller.cpp:137-150] ControllerTask::cancel *)
Definition cancel_task (s : state) (r : Task.ref) (tk : Task.t) (d : Z) : res state :=
  if bool_decide (Task.status tk = Tasks.Ongoing) then
    let? c := of_option (ctls s !! d) in
    let c := fold_left (λ c u,
      if Controllers.isControllingUnitWith (base c) u (Task.upcId tk)
      then match worker c with
           | Some _ => worker_removeUnit c u (Task.upcId tk)
           | None => builder_removeUnit c u (Task.upcId tk)
           end
      else c) (elements (Task.units tk)) c in
    let w := wd s in
    let h := <[r := Task.setStatus Tasks.Cancelled (Task.set_units ∅ tk)]> (heap w) in
    Ok (State (set_board w (board w) h (nextTask w) (units w)) (<[d := c]> (ctls s)) (nextCtl s))
  else Ok s.

(** A finished task takes the other tasks of its controller with it.

    [src/src/modules/builder.cpp:175-188] BuilderModule::step *)
Definition cancel_others (s : state) (all : list Task.ref) (r : Task.ref) (d : Z) : res state :=
  rfold (λ s r2,
    if bool_decide (r = r2) then Ok s else
    let? t := task s (Some r2) in
    let '(_, tk2, d2) := t in
    if negb (Task.finished tk2) && (d2 =? d) then cancel_task s r2 tk2 d2 else Ok s) all s.

(** [src/src/modules/builder.cpp:163-173] BuilderModule::step *)
Definition step_controller (s : state) (stepped : gset Z) (d : Z) : res (state * gset Z) :=
  if bool_decide (d ∈ stepped) then Ok (s, stepped) else
  let? c := of_option (ctls s !! d) in
  let? wc := Builder.step e (wd s) c in
  Ok (State wc.1 (<[d := wc.2]> (ctls s)) (nextCtl s), stepped ∪ {[d]}).

(** [src/src/modules/builder.cpp:162-189] BuilderModule::step *)
Definition step_task (all : list Task.ref) (acc : state * gset Z) (r : Task.ref) : res (state * gset Z) :=
  let '(s, stepped) := acc in
  let? t := task s (Some r) in
  let '(_, _, d) := t in
  let? x := step_controller s stepped d in
  let '(s, stepped) := x in
  let? t := task s (Some r) in
  let '(_, tk, _) := t in
  let? s := if Task.finished tk then cancel_others s all r d else Ok s in
  Ok (s, stepped).

Definition priority_of (s : state) (r : Task.ref) : float32 :=
  match heap (wd s) !! r with
  | Some tk => match Task.cls tk with
               | Task.KTask d => from_option priority_ f32_0 (ctls s !! d)
               | _ => f32_0
               end
  | None => f32_0
  end.

(** [src/src/modules/builder.cpp:148-189] BuilderModule::step *)
Definition step_controllers (s : state) : res state :=
  let? l := tasks_of s in
  let all := sort (priority_of s) (map (λ t, t.1.1) l) in
  let? x := rfold (step_task all) all (s, ∅) in
  Ok x.1.

(** [src/src/modules/builder.cpp:25-190] BuilderModule::step *)
Definition step (s : state) : res state :=
  let w := set_data (wd s) (set_resources (forget_builders (update_income (bcdata (wd s))))) in
  let? s := new_tasks (State w (ctls s) (nextCtl s)) in
  let? s := set_priorities s in
  step_controllers s.

End module.
End BuilderModule.
