(* ===== verification/BuilderFunds.v ===== *)
(** * What builder controllers spend

    Within a frame all controllers draw on the same resources.  The theorem
    says that the module never orders what the resources of the frame do not
    cover, on top of what controllers of higher priority have reserved. *)

From S2P Require Import Prelude Floats Geometry BuildTypes Units GameMechanics Upc UpcStorage UpcFilter.
From S2P Require Import Trackers Tiles Algorithms Tasks BoardTasks Blackboard Controllers Builder BuilderSteps BuilderModule.

Module BuilderFunds.
Import Builder BuilderSteps.

Section funds.
Context `{Kinds, BuildType.Table}.

(** The resources left, and the orders given. *)
Definition funds (d : shared) : Z * Z * Z * Z := (ore d, gas d, used_psi d, total_psi d).
Definition production (t : Tracker.t) : bool :=
  match Tracker.kind t with
  | Tracker.KBuild _ _ _ _ | Tracker.KUpgrade _ _ | Tracker.KResearch _ _ => true
  | _ => false
  end.
Definition given (w w' : world) : list Tracker.t :=
  filter (λ t, production t = true) (drop (length (trackers w)) (trackers w')).

(** What is left covers the costs, and there is supply. *)
Definition covered (d : shared) (ty : BuildType) : Prop :=
  (mineralCost ty ≠ 0 → 0 ≤ ore d) ∧ (gasCost ty ≠ 0 → 0 ≤ gas d) ∧
  (supplyRequired ty ≠ 0 → 2 * used_psi d + supplyRequired ty ≤ 2 * total_psi d).

Lemma canBuild_covered e w c : canBuild e w c = true → constructionStarted_ c = false →
  covered (bcdata w) (type_ c) ∧ prerequisitesReady e (type_ c) = true.
Proof.
  unfold canBuild. intros Hc Hst. rewrite Hst in Hc. cbn [orb] in Hc. rewrite !andb_true_iff, !negb_true_iff, !andb_false_iff, !negb_false_iff in Hc.
  rewrite !Z.eqb_eq, !Z.ltb_ge in Hc. unfold covered. intuition.
Qed.

(** The controller goes on waiting for its construction to start. *)
Definition pending (w : world) (c c' : ctl) : bool :=
  negb (succeeded_ c' || failed_ c' || constructionStarted_ c') &&
  match cancelled w c with Ok b => negb b | _ => false end.

(** A step's books: the costs are put aside exactly when it is pending. *)
Record booked (e : env) (w : world) (c : ctl) (w' : world) (c' : ctl) : Prop := {
  bk_type : type_ c' = type_ c;
  bk_priority : priority_ c' = priority_ c;
  bk_trackers : trackers w `prefix_of` trackers w';
  bk_grows : grows w w';
  bk_funds : funds (bcdata w') = funds (if pending w c c' then spend (bcdata w) (type_ c) else bcdata w);
  bk_order : given w w' ≠ [] → constructionStarted_ c' = false →
    pending w c c' = true ∧ covered (bcdata w') (type_ c) ∧ prerequisitesReady e (type_ c) = true
}.

Lemma given_same w w' : trackers w' = trackers w → given w w' = [].
Proof. intros E. unfold given. by rewrite E, drop_all. Qed.

Lemma covered_ext d d' ty : funds d' = funds d → covered d ty → covered d' ty.
Proof. unfold funds, covered. intros [= -> -> -> ->]. done. Qed.

(** Nothing happened to the funds, and nothing was ordered. *)
Lemma booked_idle e w c c' : type_ c' = type_ c → priority_ c' = priority_ c →
  succeeded_ c' = true ∨ failed_ c' = true ∨ cancelled w c = Ok true → booked e w c w c'.
Proof.
  intros Ht Hpr Hd. split; [done|done|done|done| |by rewrite given_same].
  assert (pending w c c' = false) as ->; [|done]. unfold pending.
  destruct Hd as [ -> | [ -> | -> ] ]; [done|by rewrite orb_true_r|apply andb_false_r].
Qed.

(** The costs are reserved, and what follows only orders when it may. *)
Lemma booked_reserve e w0 w c1 w' c' (c : ctl) : cancelled w0 c = Ok false → succeeded_ c' || failed_ c' = false →
  trackers w = trackers w0 → bcdata w = bcdata w0 → type_ c1 = type_ c → type_ c' = type_ c →
  constructionStarted_ c' = constructionStarted_ c1 →
  funds (bcdata w') = funds (bcdata (reserve w c1)) → priority_ c' = priority_ c →
  trackers w `prefix_of` trackers w' → grows w0 w' →
  (given w w' ≠ [] → canBuild e w' c1 = true) → booked e w0 c w' c'.
Proof.
  intros Hcc Hfin Et Eb T1 T2 Est Ef Hpr Hpre Hgr Hg. unfold reserve in Ef.
  assert (pending w0 c c' = negb (constructionStarted_ c')) as Ep by (unfold pending; by rewrite Hcc, Hfin, andb_true_r).
  split; rewrite ?Ep; [done|done|by rewrite <-Et|done|..].
  - rewrite Est. destruct (constructionStarted_ c1); cbn in *; rewrite Eb in Ef; [done|]. by rewrite <-T1.
  - unfold given in *. rewrite <-Et. intros Hgiven Es. rewrite Es. rewrite Est in Es.
    destruct (canBuild_covered e w' c1 (Hg Hgiven) Es) as [Hc Hp]. by rewrite T1 in Hc, Hp.
Qed.

Lemma canBuild_ext e w w' c c' : funds (bcdata w') = funds (bcdata w) → type_ c' = type_ c →
  constructionStarted_ c' = constructionStarted_ c → canBuild e w' c' = canBuild e w c.
Proof. unfold canBuild, funds. intros [= -> -> -> ->] -> ->. done. Qed.

(** ** [BuilderController] *)

Lemma follow_type w c c' : follow w c = Ok c' → type_ c' = type_ c ∧ priority_ c' = priority_ c.
Proof.
  unfold follow. destruct (tracker_ c); [|by intros [= <-]]. intros (s & _ & [= <-])%rbind_Ok_inv. by destruct s.
Qed.

Lemma issue_effect w c w' c' : issue w c = Ok (w', c') → bcdata w' = bcdata w ∧ type_ c' = type_ c ∧
  constructionStarted_ c' = constructionStarted_ c ∧ priority_ c' = priority_ c ∧
  trackers w `prefix_of` trackers w' ∧ grows w w' ∧ succeeded_ c' = succeeded_ c ∧ failed_ c' = failed_ c.
Proof.
  unfold issue. destruct (builder_ c) as [i|], (tracker_ c) as [n|]; try (intros [= <- <-]; done).
  intros (u & _ & E)%rbind_Ok_inv. cbn [addTracker] in E. injection E as <- <-. split_and!; try done.
  - by apply prefix_app_r.
  - by apply grows_same.
Qed.

Lemma reserve_effect w c : trackers (reserve w c) = trackers w ∧ grows w (reserve w c).
Proof. unfold reserve. destruct (constructionStarted_ c); [done|]. split; [done|by apply grows_same]. Qed.

Lemma builder_step_booked e w c w' c' : builder_step e w c = Ok (w', c') → booked e w c w' c'.
Proof.
  unfold builder_step. destruct (succeeded_ c || failed_ c) eqn:Efin.
  { intros [= <- <-]. apply booked_idle; [done|done|]. apply orb_true_iff in Efin. tauto. }
  intros (cc & Ecc & E)%rbind_Ok_inv. destruct cc; [injection E as <- <-; apply booked_idle; auto|].
  apply rbind_Ok_inv in E as (c1 & Efo & E). destruct (follow_type _ _ _ Efo) as [T1 P1].
  destruct (succeeded_ c1 || failed_ c1) eqn:Efin1.
  { injection E as <- <-. apply booked_idle; [done|done|]. apply orb_true_iff in Efin1. tauto. }
  destruct (reserve_effect w c1) as [Et1 G1]. set (w1 := reserve w c1) in *.
  destruct (too_soon e c1).
  { injection E as <- <-. apply (booked_reserve e w w c1); rewrite ?Et1; try done. by rewrite given_same. }
  destruct (canBuild e w1 (set_lastUpdate c1 (frame e))) eqn:Ecan; cbn [negb] in E.
  2:{ injection E as <- <-. apply (booked_reserve e w w c1); rewrite ?Et1; try done. by rewrite given_same. }
  apply rbind_Ok_inv in E as ([w2 c2] & E2 & E). apply rbind_Ok_inv in E as ([w3 c3] & E3 & E).
  assert (same_world w1 w2 ∧ same_ctl (set_lastUpdate c1 (frame e)) c2) as [Hw2 Hc2].
  { revert E2. cbn [set_lastUpdate builder_ tracker_]. destruct (builder_ c1), (tracker_ c1); try (intros [= <- <-]; done).
    intros E2. revert E2. apply quiet_then; [apply findBuilder_quiet|]. intros w4 c4. cbn [fst snd].
    destruct (builder_ c4); [apply grabUnit_quiet|by apply quiet_Ok]. }
  destruct (issue_effect _ _ _ _ E3) as (D3 & T3 & S3 & P3 & Et3 & G3 & Su3 & F3).
  destruct (postUpcs_quiet _ _ _ _ _ E) as [[Et4 _ D4 G4] [T4 Su4 F4 S4 _ _ _ P4]].
  destruct Hw2 as [Et2 _ D2 G2], Hc2 as [T2 Su2 F2 S2 _ _ _ P2].
  cbn [fst snd] in *. cbn in T2, Su2, F2, S2, P2.
  assert (bcdata w' = bcdata w1) as D by congruence.
  apply (booked_reserve e w w c1); [done|congruence|done|done|done|congruence|congruence|by rewrite D|congruence|..].
  - rewrite Et4, <-Et1, <-Et2. exact Et3.
  - etransitivity; [exact G1|]. etransitivity; [exact G2|]. etransitivity; [exact G3|exact G4].
  - intros _. rewrite <-Ecan. apply canBuild_ext; [by rewrite D|done|done].
Qed.

(** ** [WorkerBuilderController] *)

(** What sending and ordering change besides the tracker that follows them. *)
Record tracked (w : world) (c : ctl) (w' : world) (c' : ctl) : Prop := {
  tr_data : bcdata w' = bcdata w; tr_started : constructionStarted_ c' = constructionStarted_ c;
  tr_succeeded : succeeded_ c' = succeeded_ c; tr_failed : failed_ c' = failed_ c;
  tr_priority : priority_ c' = priority_ c; tr_trackers : trackers w `prefix_of` trackers w'; tr_grows : grows w w' }.

Lemma tracked_quiet w c w1 c1 w' c' : same_world w w1 → same_ctl c c1 → tracked w1 c1 w' c' → tracked w c w' c'.
Proof.
  intros [E1 _ D1 G1] [_ Su1 F1 S1 _ _ _ P1] [D S Su F P E G]. split; [congruence..| |by etransitivity]. by rewrite <-E1.
Qed.

Lemma tracked_refl w c : tracked w c w c.
Proof. by split. Qed.

Lemma tracked_app w c w' c' t : trackers w' = trackers w ++ [t] → bcdata w' = bcdata w → heap w' = heap w → nextTask w' = nextTask w →
  constructionStarted_ c' = constructionStarted_ c → succeeded_ c' = succeeded_ c → failed_ c' = failed_ c →
  priority_ c' = priority_ c → tracked w c w' c'.
Proof. intros E D Hh Hn S Su F P. split; [done..| |by apply grows_same]. rewrite E. by apply prefix_app_r. Qed.

Lemma send_tracked e w c p i tgt th w' c' p' : send_builder e w c p i tgt th = (w', c', p') →
  tracked w c w' c' ∧ given w w' = [].
Proof.
  unfold send_builder. cbn [addTracker]. destruct (fltb _ _); [|intros [= <- <- <-]; by rewrite given_same].
  cbn [add set_base tracker_]. destruct (tracker_ c); intros [= <- <- <-].
  - rewrite given_same by done. split; [|done]. by split.
  - split; [by eapply tracked_app|]. unfold given. cbn [trackers]. by rewrite drop_app_length.
Qed.

Lemma attempt_tracked e w c p i n w' c' p' : attempt e w c p i n = (w', c', p') → tracked w c w' c'.
Proof.
  unfold attempt. cbn [addTracker]. destruct (kMaxBuildAttempts <? _); intros [= <- <- <-]; by eapply tracked_app.
Qed.

Lemma work_effect e w c p mo w' c' p' : work e w c p mo = Ok (w', c', p') →
  tracked w c w' c' ∧ (given w w' ≠ [] → mo = false).
Proof.
  unfold work. destruct (builder_ c) as [i|]; [|intros [= <- <- <-]; by rewrite given_same].
  case_match; [|intros [= <- <- <-]; by rewrite given_same].
  intros ([[w1 c1] p1] & Ed & E)%rbind_Ok_inv.
  destruct (send_detector_quiet _ _ _ _ _ _ _ Ed) as (Hw1 & Hc1 & _).
  cut (tracked w1 c1 w' c' ∧ (given w1 w' ≠ [] → mo = false)).
  { intros [Ht Hg]. split; [by eapply tracked_quiet|]. destruct Hw1 as [Ew _ _ _]. unfold given in *. by rewrite <-Ew. }
  apply rbind_Ok_inv in E as (u & _ & E). case_match.
  { injection E as E. destruct (send_tracked _ _ _ _ _ _ _ _ _ _ E) as [? ->]. done. }
  destruct (bool_decide (tracker_ c1 = None) && negb mo) eqn:Hgo; [|injection E as <- <- <-; by rewrite given_same].
  apply andb_true_iff in Hgo as [_ Hmo%negb_true_iff]. unfold start_building in E. split; [|done].
  apply rbind_Ok_inv in E as ([[[[w2 c2] p2] n2] k2] & Ec & E).
  destruct (clear_way_quiet _ _ _ _ _ _ _ _ _ _ _ (Z.le_refl 0) Ec) as (Hw2 & Hc2 & _).
  eapply tracked_quiet; [exact Hw2|exact Hc2|]. destruct k2 as [k|].
  - apply rbind_Ok_inv in E as ([w3 c3] & Er & [= <- <- <-]).
    destruct (release_all_quiet _ _ _ _ _ Er) as [Hw3 Hc3].
    eapply tracked_quiet; [exact Hw3|etransitivity; [exact Hc3|apply same_set_base]|apply tracked_refl].
  - injection E as E. by eapply attempt_tracked.
Qed.

Lemma follow_worker_type w c p c' : follow_worker w c p = Ok c' → type_ c' = type_ c ∧ priority_ c' = priority_ c.
Proof.
  unfold follow_worker. destruct (tracker_ c); [|by intros [= <-]]. intros (s & _ & [= <-])%rbind_Ok_inv.
  destruct (moving_ p), s; cbn; try done; by case_match.
Qed.

Lemma release_moved_effect e w c p w' c' : release_moved e w c p = Ok (w', c') →
  same_world w w' ∧ type_ c' = type_ c ∧ priority_ c' = priority_ c ∧ succeeded_ c' = succeeded_ c ∧ failed_ c' = failed_ c.
Proof.
  unfold release_moved. case_match; [|by intros [= <- <-]]. intros ([w1 c1] & E & [= <- <-])%rbind_Ok_inv.
  destruct (release_all_quiet _ _ _ _ _ E) as [? []]. done.
Qed.

Lemma remember_effect e w c p : funds (bcdata (remember e w c p)) = funds (bcdata w) ∧
  trackers (remember e w c p) = trackers w ∧ grows w (remember e w c p).
Proof. unfold remember. repeat case_match; split_and!; try done. by apply grows_same. Qed.

(** The part of the step after the costs are reserved. *)
Lemma worker_works e w c p w' c' :
  (let? wc := look_for_builder e (remember e w c p) c p (negb (canBuild e w c)) in
   let? r := work e wc.1 wc.2 p (negb (canBuild e w c)) in
   let '(w, c, p) := r in
   postUpcs e w (set_worker c (Some p))) = Ok (w', c') →
  type_ c' = type_ c ∧ constructionStarted_ c' = constructionStarted_ c ∧ priority_ c' = priority_ c ∧
  succeeded_ c' = succeeded_ c ∧ failed_ c' = failed_ c ∧ funds (bcdata w') = funds (bcdata w) ∧ trackers w `prefix_of` trackers w' ∧ grows w w' ∧
  (given w w' ≠ [] → canBuild e w c = true).
Proof.
  intros ([w5 c5] & E5 & E)%rbind_Ok_inv. destruct (look_quiet _ _ _ _ _ _ _ E5) as [[Et5 _ D5 G5] [T5 Su5 F5 S5 _ _ _ P5]].
  apply rbind_Ok_inv in E as ([[w6 c6] p6] & E6 & E). cbn [fst snd] in *.
  destruct (work_effect _ _ _ _ _ _ _ _ E6) as ([D6 S6 Su6 F6 P6 Et6 G6] & Hg6). pose proof (work_type _ _ _ _ _ _ _ _ E6) as T6.
  destruct (postUpcs_quiet _ _ _ _ _ E) as [[Et7 _ D7 G7] [T7 Su7 F7 S7 _ _ _ P7]]. cbn in T7, Su7, F7, S7, P7.
  destruct (remember_effect e w c p) as (Dr & Etr & Gr). split_and!; try congruence.
  - etransitivity; [exact Gr|]. etransitivity; [exact G5|]. by etransitivity.
  - intros Hgiven. rewrite <-(negb_involutive (canBuild e w c)). rewrite Hg6; [done|].
    intros Hno. apply Hgiven. unfold given in *. rewrite Et7. by rewrite Et5, Etr in Hno.
Qed.

Lemma worker_step_booked e w c w' c' : worker_step e w c = Ok (w', c') → booked e w c w' c'.
Proof.
  unfold worker_step. destruct (succeeded_ c || failed_ c) eqn:Efin.
  { intros [= <- <-]. apply booked_idle; [done|done|]. apply orb_true_iff in Efin. tauto. }
  intros (cc & Ecc & E)%rbind_Ok_inv. destruct cc; [injection E as <- <-; apply booked_idle; auto|].
  apply rbind_Ok_inv in E as (p0 & _ & E). set (c1 := check_location e c p0) in *.
  assert (type_ c1 = type_ c ∧ priority_ c1 = priority_ c) as [T1 P1] by (subst c1; unfold check_location; by repeat case_match).
  destruct (failed_ c1) eqn:Ef1; [injection E as <- <-; apply booked_idle; auto|].
  apply rbind_Ok_inv in E as (p1 & _ & E). apply rbind_Ok_inv in E as (c2 & Efo & E).
  destruct (follow_worker_type _ _ _ _ Efo) as [T2 P2].
  destruct (succeeded_ c2 || failed_ c2) eqn:Efin2.
  { injection E as <- <-. apply booked_idle; [congruence|congruence|]. apply orb_true_iff in Efin2. tauto. }
  apply rbind_Ok_inv in E as (p2 & _ & E). apply rbind_Ok_inv in E as ([w3 c3] & Er & E).
  destruct (release_moved_effect _ _ _ _ _ _ Er) as ([Et3 _ D3 G3] & T3 & P3 & Su3 & F3).
  rewrite <-Su3, <-F3 in Efin2.
  assert (type_ c3 = type_ c) as T by congruence. assert (priority_ c3 = priority_ c) as P by congruence.
  destruct (reserve_effect w3 c3) as [Et4 G4]. set (w4 := reserve w3 c3) in *.
  assert (grows w w4) as G by (by etransitivity).
  destruct (too_soon e c3).
  { injection E as <- <-. apply (booked_reserve e w w3 c3); rewrite ?Et4; try done. by rewrite given_same. }
  apply rbind_Ok_inv in E as (p4 & _ & E).
  destruct (worker_works e w4 (set_lastUpdate c3 (frame e)) p4 w' c' E) as (T5 & S5 & P5 & Su5 & F5 & D5 & Et5 & G5 & Hg).
  cbn in T5, S5, P5, Su5, F5. apply (booked_reserve e w w3 c3); [done|congruence|done|done|done|congruence|done|done|congruence|by rewrite <-Et4|by etransitivity|].
  intros Hgiven. rewrite (canBuild_ext e w4 w' (set_lastUpdate c3 (frame e)) c3) by done. apply Hg.
  unfold given in *. by rewrite Et4.
Qed.

Lemma step_booked e w c w' c' : Builder.step e w c = Ok (w', c') → booked e w c w' c'.
Proof. unfold Builder.step. destruct (worker c); [apply worker_step_booked|apply builder_step_booked]. Qed.

(** ** A frame of the module *)

(** A controller that was stepped, for the first of its tasks in the order. *)
Record entry := Entry { ref : Task.ref; addr : Z; before : world; was : ctl; after : world; now : ctl }.

(** Nothing else orders or spends between two steps. *)
Definition meets (w w' : world) : Prop := funds (bcdata w') = funds (bcdata w) ∧ trackers w' = trackers w.

Inductive spree (e : env) : world → list entry → world → Prop :=
| spree_nil w w' : meets w w' → spree e w [] w'
| spree_cons w x l w' : meets w (before x) → Builder.step e (before x) (was x) = Ok (after x, now x) →
    spree e (after x) l w' → spree e w (x :: l) w'.

(** What the pending controllers of a log have put aside. *)
Fixpoint reserved (f : BuildType → Z) (l : list entry) : Z :=
  match l with
  | [] => 0
  | x :: l => (if pending (before x) (was x) (now x) then f (type_ (was x)) else 0) + reserved f l
  end.

Lemma reserved_app f l1 l2 : reserved f (l1 ++ l2) = reserved f l1 + reserved f l2.
Proof. induction l1 as [|x l1 IH]; cbn; [done|]. rewrite IH. lia. Qed.

#[export] Instance meets_refl : Reflexive meets.
Proof. by split. Qed.
#[export] Instance meets_trans : Transitive meets.
Proof. intros w1 w2 w3 [] []. split; congruence. Qed.

Lemma spree_l e w w1 l w' : meets w w1 → spree e w1 l w' → spree e w l w'.
Proof. intros Hm Hs. destruct Hs; constructor; try done; by etransitivity. Qed.

(** Funds along a log. *)
Lemma spree_funds e w l1 x l2 w' : spree e w (l1 ++ x :: l2) w' →
  ore (bcdata (after x)) = ore (bcdata w) - reserved mineralCost (l1 ++ [x]) ∧
  gas (bcdata (after x)) = gas (bcdata w) - reserved gasCost (l1 ++ [x]) ∧
  used_psi (bcdata (after x)) = used_psi (bcdata w) ∧ total_psi (bcdata (after x)) = total_psi (bcdata w) ∧
  booked e (before x) (was x) (after x) (now x).
Proof.
  assert (∀ w y, meets w (before y) → Builder.step e (before y) (was y) = Ok (after y, now y) →
    ore (bcdata (after y)) = ore (bcdata w) - reserved mineralCost [y] ∧
    gas (bcdata (after y)) = gas (bcdata w) - reserved gasCost [y] ∧
    used_psi (bcdata (after y)) = used_psi (bcdata w) ∧ total_psi (bcdata (after y)) = total_psi (bcdata w)) as Hone.
  { intros v y [Hf _] Hb%step_booked. destruct Hb as [_ _ _ _ Hb _]. unfold funds in *. cbn.
    destruct (pending _ _ _); cbn in Hb; injection Hb as ? ? ? ?; injection Hf as ? ? ? ?; lia. }
  revert w. induction l1 as [|y l1 IH]; intros w Hs; inversion Hs as [|? ? ? ? Hm Hst Hrest]; subst; clear Hs.
  - destruct (Hone _ _ Hm Hst) as (? & ? & ? & ?). cbn [app]. split_and!; try done. by apply step_booked.
  - destruct (IH _ Hrest) as (? & ? & ? & ? & ?), (Hone _ _ Hm Hst) as (? & ? & ? & ?). cbn [app reserved] in *.
    split_and!; try done; lia.
Qed.

(** The controller a task belongs to. *)
Definition owner (s : BuilderModule.state) (r : Task.ref) : option Z :=
  match heap (BuilderModule.wd s) !! r with
  | Some tk => match Task.cls tk with Task.KTask d => Some d | _ => None end
  | None => None
  end.

(** Tasks keep their controllers, and controllers their priorities. *)
Record stable (s s' : BuilderModule.state) : Prop := {
  st_grows : grows (BuilderModule.wd s) (BuilderModule.wd s');
  st_priority : ∀ d, priority_ <$> BuilderModule.ctls s' !! d = priority_ <$> BuilderModule.ctls s !! d }.

#[export] Instance stable_refl : Reflexive stable.
Proof. by split. Qed.
#[export] Instance stable_trans : Transitive stable.
Proof. intros s1 s2 s3 [G1 P1] [G2 P2]. split; [by etransitivity|]. intros d. by rewrite P2. Qed.

Lemma stable_owner s s' r d : fresh (BuilderModule.wd s) → stable s s' → owner s r = Some d → owner s' r = Some d.
Proof.
  intros Hf [[_ _ Hh] _]. unfold owner. destruct (heap (BuilderModule.wd s) !! r) as [tk|] eqn:Er; [|done].
  destruct (Hh r tk Er (Hf _ _ Er)) as (tk' & -> & ->). done.
Qed.

Lemma owner_priority s r d : owner s r = Some d →
  BuilderModule.priority_of s r = from_option priority_ f32_0 (BuilderModule.ctls s !! d).
Proof. unfold owner, BuilderModule.priority_of. by repeat case_match; intros [= ->]. Qed.

Lemma from_priority (o o' : option ctl) : priority_ <$> o' = priority_ <$> o →
  from_option priority_ f32_0 o' = from_option priority_ f32_0 o.
Proof. destruct o, o'; cbn; congruence. Qed.

Lemma task_owner s r r' tk d : BuilderModule.task s (Some r) = Ok (r', tk, d) →
  r' = r ∧ heap (BuilderModule.wd s) !! r = Some tk ∧ owner s r = Some d.
Proof.
  unfold BuilderModule.task, owner. cbn [of_option rbind]. intros (tk0 & E%of_option_Ok & E2)%rbind_Ok_inv.
  rewrite E. destruct (Task.cls tk0) eqn:Ec; try done. by injection E2 as <- -> <-.
Qed.

Lemma removed_priority (us : list Z) id : ∀ c, priority_ (fold_left (λ c u,
  if Controllers.isControllingUnitWith (base c) u id
  then match worker c with Some _ => worker_removeUnit c u id | None => builder_removeUnit c u id end
  else c) us c) = priority_ c.
Proof.
  induction us as [|u us IH]; intros c; [done|]. cbn [fold_left]. rewrite IH.
  destruct (Controllers.isControllingUnitWith _ _ _); [|done].
  destruct (worker c); unfold worker_removeUnit, builder_removeUnit; by case_bool_decide.
Qed.

Lemma update_priority (m : gmap Z ctl) d c c' : m !! d = Some c → priority_ c' = priority_ c →
  ∀ d', priority_ <$> <[d := c']> m !! d' = priority_ <$> m !! d'.
Proof.
  intros Hd Hp d'. destruct (decide (d' = d)) as [->|Hne]; [|by rewrite lookup_insert_ne].
  rewrite lookup_insert_eq, Hd. cbn. by rewrite Hp.
Qed.

Lemma cancel_task_stable s r tk d s' : heap (BuilderModule.wd s) !! r = Some tk → BuilderModule.cancel_task s r tk d = Ok s' →
  stable s s' ∧ meets (BuilderModule.wd s) (BuilderModule.wd s').
Proof.
  intros Hr. unfold BuilderModule.cancel_task. case_bool_decide; [|by intros [= <-]].
  intros (c & Hc%of_option_Ok & [= <-])%rbind_Ok_inv. split; [|done]. split.
  - by apply (grows_update _ _ r tk (Task.setStatus Tasks.Cancelled (Task.set_units ∅ tk))).
  - apply (update_priority _ _ c); [done|]. apply removed_priority.
Qed.

Lemma cancel_others_stable s all r d s' : BuilderModule.cancel_others s all r d = Ok s' →
  stable s s' ∧ meets (BuilderModule.wd s) (BuilderModule.wd s').
Proof.
  unfold BuilderModule.cancel_others. apply (rfold_inv (λ s1, stable s s1 ∧ meets (BuilderModule.wd s) (BuilderModule.wd s1))); [|done].
  intros s1 r2 s2 _ [Hs Hm]. case_bool_decide; [by intros [= <-]|].
  intros ([[r' tk] d'] & (-> & Hr & _)%task_owner & E)%rbind_Ok_inv. case_match; [|by injection E as <-].
  destruct (cancel_task_stable _ _ _ _ _ Hr E). split; by etransitivity.
Qed.

(** One task of the loop: its controller is stepped unless it was before. *)
Lemma step_task_log e all s stepped r s' stepped' : BuilderModule.step_task e all (s, stepped) r = Ok (s', stepped') →
  stable s s' ∧ ∃ d, owner s r = Some d ∧
  ((d ∈ stepped ∧ stepped' = stepped ∧ meets (BuilderModule.wd s) (BuilderModule.wd s')) ∨
   (¬ (d ∈ stepped) ∧ stepped' = stepped ∪ {[d]} ∧ ∃ c w1 c1, BuilderModule.ctls s !! d = Some c ∧
      Builder.step e (BuilderModule.wd s) c = Ok (w1, c1) ∧ meets w1 (BuilderModule.wd s'))).
Proof.
  unfold BuilderModule.step_task. intros ([[r1 tk1] d] & (_ & _ & Ho)%task_owner & E)%rbind_Ok_inv.
  apply rbind_Ok_inv in E as ([s1 st1] & E1 & E). apply rbind_Ok_inv in E as ([[r2 tk2] d2] & _ & E).
  apply rbind_Ok_inv in E as (s2 & E2 & [= <- <-]).
  assert (stable s1 s2 ∧ meets (BuilderModule.wd s1) (BuilderModule.wd s2)) as [Hs2 Hm2]
    by (destruct (Task.finished tk2); [by eapply cancel_others_stable|by injection E2 as <-]).
  unfold BuilderModule.step_controller in E1. case_bool_decide as Hin.
  - injection E1 as <- <-. split; [done|]. exists d. split; [done|by left].
  - apply rbind_Ok_inv in E1 as (c & Hc%of_option_Ok & E1). apply rbind_Ok_inv in E1 as ([w1 c1] & Hst & [= <- <-]).
    split.
    + destruct (step_booked _ _ _ _ _ Hst) as [_ Hp _ Hg _ _]. etransitivity; [|exact Hs2]. split; [exact Hg|].
      by apply (update_priority _ _ c).
    + exists d. split; [done|]. right. split_and!; [done|done|]. by exists c, w1, c1.
Qed.

(** The loop over the tasks [l], in their order. *)
Record logged (e : env) (s : BuilderModule.state) (stepped : gset Z) (l : list Task.ref) (s' : BuilderModule.state)
    (log : list entry) : Prop := {
  lg_spree : spree e (BuilderModule.wd s) log (BuilderModule.wd s');
  lg_order : (ref <$> log) `sublist_of` l;
  lg_nodup : NoDup (addr <$> log);
  lg_fresh : ∀ d, d ∈ addr <$> log → d ∉ stepped;
  lg_all : ∀ r, r ∈ l → ∃ d, owner s r = Some d ∧ (d ∈ stepped ∨ d ∈ addr <$> log);
  lg_owner : ∀ x, x ∈ log → owner s (ref x) = Some (addr x) ∧ BuilderModule.priority_of s (ref x) = priority_ (was x)
}.

Lemma owner_back s s' r d d' : fresh (BuilderModule.wd s) → stable s s' → owner s r = Some d' → owner s' r = Some d →
  owner s r = Some d.
Proof. intros Hf Hst Ho Ho'. rewrite (stable_owner _ _ _ _ Hf Hst Ho) in Ho'. congruence. Qed.

Lemma step_tasks_log e all l : ∀ s stepped s' stepped', fresh (BuilderModule.wd s) → (∀ r, r ∈ l → is_Some (owner s r)) →
  rfold (BuilderModule.step_task e all) l (s, stepped) = Ok (s', stepped') → ∃ log, logged e s stepped l s' log.
Proof.
  induction l as [|r l IH]; intros s stepped s' stepped' Hf Ho; cbn [rfold].
  { intros [= <- <-]. exists []. split; [by constructor|done|constructor|by intros ? ?%elem_of_nil..]. }
  intros ([s1 st1] & (Hst & d & Hd & Hcase)%step_task_log & E)%rbind_Ok_inv.
  pose proof (gr_fresh _ _ (st_grows _ _ Hst) Hf) as Hf1.
  destruct (IH s1 st1 s' stepped' Hf1) as [log [L1 L2 L3 L4 L5 L6]]; [|exact E|].
  { intros r' Hr'. destruct (Ho r') as [d' Hd']; [set_solver|]. exists d'. exact (stable_owner _ _ _ _ Hf Hst Hd'). }
  assert (∀ x, x ∈ log → owner s (ref x) = Some (addr x) ∧ BuilderModule.priority_of s (ref x) = priority_ (was x)) as Hold.
  { intros x Hx. destruct (L6 x Hx) as [O1 P1]. destruct (Ho (ref x)) as [d' Hd'].
    { apply elem_of_cons; right. eapply elem_of_sublist; [|exact L2]. by apply list_elem_of_fmap_2. }
    pose proof (owner_back _ _ _ _ _ Hf Hst Hd' O1) as O. split; [done|]. rewrite <-P1.
    rewrite (owner_priority _ _ _ O), (owner_priority _ _ _ O1). symmetry. apply from_priority, Hst. }
  assert (∀ r', r' ∈ l → ∃ d', owner s r' = Some d' ∧ (d' ∈ st1 ∨ d' ∈ addr <$> log)) as Hall.
  { intros r' Hr'. destruct (L5 r' Hr') as (d' & O1 & Hin). destruct (Ho r') as [d2 Hd2]; [set_solver|].
    exists d'. split; [by eapply owner_back|done]. }
  destruct Hcase as [(Hin & -> & Hm)|(Hnin & -> & c & w1 & c1 & Hc & Hstep & Hm)].
  - exists log. split; [by eapply spree_l|by apply sublist_cons|done|done| |done].
    intros r' [->|Hr']%elem_of_cons; [|by apply Hall]. exists d. auto.
  - exists (Entry r d (BuilderModule.wd s) c w1 c1 :: log). split; cbn.
    + constructor; [done|done|]. by eapply spree_l.
    + by apply sublist_skip.
    + apply NoDup_cons. split; [|done]. intros Hx%L4. set_solver.
    + intros d' [->|Hx%L4]%elem_of_cons; [done|]. set_solver.
    + intros r' [->|Hr']%elem_of_cons; [exists d; split; [done|right; apply elem_of_cons; auto]|].
      destruct (Hall r' Hr') as (d' & O & Hd'). exists d'. split; [done|]. rewrite elem_of_cons. set_solver.
    + intros x [->|Hx]%elem_of_cons; [|by apply Hold]. cbn. split; [done|].
      by rewrite (owner_priority _ _ _ Hd), Hc.
Qed.

(** *** Before the controllers *)

Definition prelude (s s1 : BuilderModule.state) : Prop :=
  meets (BuilderModule.wd s) (BuilderModule.wd s1) ∧ grows (BuilderModule.wd s) (BuilderModule.wd s1).

#[export] Instance prelude_refl : Reflexive prelude.
Proof. by split. Qed.
#[export] Instance prelude_trans : Transitive prelude.
Proof. intros s1 s2 s3 [M1 G1] [M2 G2]. split; by etransitivity. Qed.

Lemma new_tasks_prelude e self s s1 : BuilderModule.new_tasks e self s = Ok s1 → prelude s s1.
Proof.
  unfold BuilderModule.new_tasks. intros (us & _ & E)%rbind_Ok_inv. revert E. apply (rfold_inv (prelude s)); [|done].
  intros s2 [id u] s3 _ Hs (rq & _ & E)%rbind_Ok_inv. destruct rq as [[ty pl]|]; [|by injection E as <-].
  etransitivity; [exact Hs|]. unfold BuilderModule.new_task in E. apply rbind_Ok_inv in E as (c & _ & E).
  apply rbind_Ok_inv in E as (b & _ & [= <-]). split; [done|]. by eapply grows_new.
Qed.

Lemma set_task_priority_prelude s l id prio s1 : BuilderModule.set_task_priority s l id prio = Ok s1 → prelude s s1.
Proof.
  induction l as [|[[r tk] d] l IH]; cbn [BuilderModule.set_task_priority]; [by intros [= <-]|].
  case_match; [|exact IH]. intros (c & _ & [= <-])%rbind_Ok_inv. split; [done|by apply grows_same].
Qed.

Lemma set_priorities_prelude self s s1 : BuilderModule.set_priorities self s = Ok s1 → prelude s s1.
Proof.
  unfold BuilderModule.set_priorities. intros (us & _ & E)%rbind_Ok_inv. revert E. apply (rfold_inv (prelude s)); [|done].
  intros s2 it s3 _ Hs (s4 & E4 & [= <-])%rbind_Ok_inv. etransitivity; [exact Hs|].
  assert (prelude s2 s4) as Hs4.
  { destruct (Upc.state it.2); try by injection E4 as <-. apply rbind_Ok_inv in E4 as (l & _ & E4).
    by eapply set_task_priority_prelude. }
  etransitivity; [exact Hs4|]. split; [done|by apply grows_same].
Qed.

Lemma tasks_of_owner self s l : BuilderModule.tasks_of self s = Ok l → ∀ r tk d, (r, tk, d) ∈ l → owner s r = Some d.
Proof.
  unfold BuilderModule.tasks_of. intros (rs & _ & E)%rbind_Ok_inv. revert E.
  apply (rfold_inv (λ l : list (Task.ref * Task.t * Z), ∀ r tk d, (r, tk, d) ∈ l → owner s r = Some d)).
  - intros acc o acc' _ Hacc ([[r0 tk0] d0] & Et & [= <-])%rbind_Ok_inv r tk d [Hin|Hin%list_elem_of_singleton]%elem_of_app;
      [by eapply Hacc|]. injection Hin as -> -> ->. destruct o as [r'|]; [|done].
    destruct (task_owner _ _ _ _ _ Et) as (-> & _ & Ho). done.
  - intros r tk d Hin%elem_of_nil. done.
Qed.

(** The tasks of the module when its controllers are stepped. *)
Definition ready (e : env) (rs : BuilderModule.resources) (self : ModulePtr) (s s1 : BuilderModule.state) : Prop :=
  ∃ s0, BuilderModule.new_tasks e self (BuilderModule.State (set_data (BuilderModule.wd s)
      (BuilderModule.set_resources rs (BuilderModule.forget_builders e (BuilderModule.update_income e rs (bcdata (BuilderModule.wd s))))))
      (BuilderModule.ctls s) (BuilderModule.nextCtl s)) = Ok s0 ∧ BuilderModule.set_priorities self s0 = Ok s1.

(** The price of an order that a controller gives before construction has started. *)
Definition affordable (e : env) (rs : BuilderModule.resources) (earlier : list entry) (x : entry) : Prop :=
  let ty := type_ (was x) in
  pending (before x) (was x) (now x) = true ∧ prerequisitesReady e ty = true ∧
  (mineralCost ty ≠ 0 → reserved mineralCost earlier + mineralCost ty ≤ BuilderModule.r_ore rs) ∧
  (gasCost ty ≠ 0 → reserved gasCost earlier + gasCost ty ≤ BuilderModule.r_gas rs) ∧
  (supplyRequired ty ≠ 0 → 2 * BuilderModule.r_used rs + supplyRequired ty ≤ 2 * BuilderModule.r_total rs).

Lemma spree_affordable e rs w l1 x l2 w' :
  funds (bcdata w) = (BuilderModule.r_ore rs, BuilderModule.r_gas rs, BuilderModule.r_used rs, BuilderModule.r_total rs) →
  spree e w (l1 ++ x :: l2) w' → given (before x) (after x) ≠ [] → constructionStarted_ (now x) = false → affordable e rs l1 x.
Proof.
  intros [= E1 E2 E3 E4] (O & G & U & T & Hb)%spree_funds Hg Hst. destruct Hb as [_ _ _ _ _ Ho].
  destruct (Ho Hg Hst) as (Hp & (C1 & C2 & C3) & Hpre). rewrite reserved_app in O, G. cbn [reserved] in O, G.
  rewrite Hp in O, G. unfold affordable. split_and!; [done|done|..]; intros Hne.
  - specialize (C1 Hne). lia.
  - specialize (C2 Hne). lia.
  - specialize (C3 Hne). lia.
Qed.

Lemma spree_left e rs w log w' :
  funds (bcdata w) = (BuilderModule.r_ore rs, BuilderModule.r_gas rs, BuilderModule.r_used rs, BuilderModule.r_total rs) →
  spree e w log w' → ore (bcdata w') = BuilderModule.r_ore rs - reserved mineralCost log ∧
    gas (bcdata w') = BuilderModule.r_gas rs - reserved gasCost log.
Proof.
  intros Hf Hs. assert (∀ w l w', spree e w l w' → ore (bcdata w') = ore (bcdata w) - reserved mineralCost l ∧
    gas (bcdata w') = gas (bcdata w) - reserved gasCost l) as Hall.
  { clear. intros w l w' Hs. induction Hs as [w w' [Hm _]|w x l w' Hm Hst Hs [IH1 IH2]]; cbn [reserved].
    - injection Hm as -> -> _ _. lia.
    - destruct (spree_funds e w [] x [] (after x)) as (O & G & _); [by apply spree_cons; [..|apply spree_nil]|]. cbn in O, G. lia. }
  injection Hf as E1 E2 _ _. destruct (Hall _ _ _ Hs). lia.
Qed.

(** A list of controllers in the order of their priorities. *)
Definition by_priority {A} (f : A → float32) : list A → Prop := StronglySorted (λ a b, fltb (f b) (f a) = false).

Lemma by_priority_log f (log : list entry) all : (ref <$> log) `sublist_of` all → (∀ x, x ∈ log → f (ref x) = priority_ (was x)) →
  by_priority f all → by_priority (priority_ ∘ was) log.
Proof.
  intros Hsub Hf Hall. assert (by_priority f (ref <$> log)) as Hs.
  { clear Hf. induction Hsub as [|r l1 l2 Hsub IH|r l1 l2 Hsub IH]; [done|..].
    - apply StronglySorted_inv in Hall as [Hall Hr]. constructor; [by apply IH|].
      rewrite Forall_forall in Hr |- *. intros r2 Hr2. apply Hr. by eapply elem_of_sublist.
    - apply StronglySorted_inv in Hall as [Hall _]. by apply IH. }
  clear Hsub Hall. induction log as [|x log IH]; [constructor|]. cbn in Hs. apply StronglySorted_inv in Hs as [Hs Hx].
  constructor; [apply IH; [|done]; intros; apply Hf; by right|]. rewrite Forall_forall in Hx. apply Forall_forall. intros y Hy. cbn.
  rewrite <-!Hf; [|by left|by right]. apply Hx. by apply list_elem_of_fmap_2.
Qed.

(** C13 Builder controllers never order what they cannot pay: in a frame the
    module steps every controller that has a task exactly once, in the order of
    priorities, and nothing else orders; whenever a controller whose
    construction has not started gives an order, the resources of the frame
    cover its costs on top of all that the pending controllers stepped before
    it have put aside, there is supply, and the prerequisites are there.  What
    is left at the end is the frame's resources less what was put aside. *)
Theorem no_overspending e rs self sort s s' : (∀ f l, sort f l ≡ₚ l) → fresh (BuilderModule.wd s) →
  BuilderModule.step e rs self sort s = Ok s' →
  ∃ s1 l log, ready e rs self s s1 ∧ BuilderModule.tasks_of self s1 = Ok l ∧ spree e (BuilderModule.wd s1) log (BuilderModule.wd s') ∧
    NoDup (addr <$> log) ∧ (∀ d, d ∈ addr <$> log ↔ ∃ r tk, (r, tk, d) ∈ l) ∧
    (by_priority (BuilderModule.priority_of s1) (sort (BuilderModule.priority_of s1) (map (λ t, t.1.1) l)) →
     by_priority (priority_ ∘ was) log) ∧
    (∀ l1 x l2, log = l1 ++ x :: l2 → given (before x) (after x) ≠ [] → constructionStarted_ (now x) = false →
       affordable e rs l1 x) ∧
    ore (bcdata (BuilderModule.wd s')) = BuilderModule.r_ore rs - reserved mineralCost log ∧
    gas (bcdata (BuilderModule.wd s')) = BuilderModule.r_gas rs - reserved gasCost log.
Proof.
  intros Hsort Hf. unfold BuilderModule.step. intros (s0 & E0 & E)%rbind_Ok_inv. apply rbind_Ok_inv in E as (s1 & E1 & E).
  pose proof (new_tasks_prelude _ _ _ _ E0) as [[F0 _] G0]. destruct (set_priorities_prelude _ _ _ E1) as [[F1 _] G1].
  assert (fresh (BuilderModule.wd s1)) as Hf1 by (apply (gr_fresh _ _ G1), (gr_fresh _ _ G0), Hf).
  assert (funds (bcdata (BuilderModule.wd s1)) = (BuilderModule.r_ore rs, BuilderModule.r_gas rs, BuilderModule.r_used rs, BuilderModule.r_total rs))
    as Hfunds by by rewrite F1, F0.
  unfold BuilderModule.step_controllers in E. apply rbind_Ok_inv in E as (l & El & E).
  apply rbind_Ok_inv in E as ([s2 stepped] & E & [= <-]). set (all := sort _ _) in *.
  assert (∀ r, r ∈ all ↔ ∃ tk d, (r, tk, d) ∈ l) as Hall.
  { intros r. subst all. rewrite Hsort, list_elem_of_fmap. split; [intros ([[r' tk] d] & -> & ?); eauto|].
    intros (tk & d & Hin). by exists (r, tk, d). }
  destruct (step_tasks_log e all all s1 ∅ s2 stepped Hf1) as [log [L1 L2 L3 _ L5 L6]]; [|exact E|].
  { intros r (tk & d & Hin)%Hall. rewrite (tasks_of_owner _ _ _ El _ _ _ Hin). eauto. }
  exists s1, l, log. split_and!; [by exists s0|done|done|done|..].
  - intros d. split.
    + intros (x & -> & Hx)%list_elem_of_fmap. destruct (L6 x Hx) as [Ho _].
      destruct (proj1 (Hall (ref x))) as (tk & d & Hin); [eapply elem_of_sublist; [|exact L2]; by apply list_elem_of_fmap_2|].
      rewrite (tasks_of_owner _ _ _ El _ _ _ Hin) in Ho. injection Ho as ->. eauto.
    + intros (r & tk & Hin). destruct (L5 r) as (d' & Ho & [?|?]); [apply Hall; eauto|set_solver|].
      rewrite (tasks_of_owner _ _ _ El _ _ _ Hin) in Ho. by injection Ho as ->.
  - apply by_priority_log; [exact L2|]. intros x Hx. apply L6, Hx.
  - intros l1 x l2 -> Hg Hst. by eapply spree_affordable.
  - by eapply spree_left.
  - by eapply spree_left.
Qed.

End funds.
End BuilderFunds.
