(* ===== verification/BuilderExample.v ===== *)
(** * Two orders and money for one

    Two requests for a worker reach the builder module, with one command center
    and the minerals for one of them; and a controller that waits for a place. *)

From S2P Require Import Prelude Floats Geometry BuildTypes Units GameMechanics Upc UpcStorage UpcFilter.
From S2P Require Import Trackers Tiles Algorithms Tasks BoardTasks Blackboard BlackboardUpcs Controllers Builder BuilderSteps BuilderModule BuilderFunds.

Module BuilderExample.
Import Builder BuilderSteps BuilderFunds.

#[export] Instance example_types : BuildType.Table :=
  {| BuildType.builder ty := if bool_decide (ty = BuildType.Terran_SCV) then Some BuildType.Terran_Command_Center
                             else if bool_decide (ty = BuildType.Terran_Barracks) then Some BuildType.Terran_SCV else None;
     BuildType.mineralCost _ := f64_of_Z 50; BuildType.gasCost _ := f64_of_Z 0;
     BuildType.prerequisites _ := []; BuildType.buildTime _ := 300; BuildType.race _ := 1;
     BuildType.isAddon _ := false; BuildType.isWorker ty := bool_decide (ty = BuildType.Terran_SCV);
     BuildType.supplyProvided _ := f64_of_Z 0; BuildType.supplyRequired _ := f64_of_Z 1;
     BuildType.isTwoUnitsInOneEgg _ := false; BuildType.isRefinery _ := false;
     BuildType.isBuilding ty := bool_decide (ty = BuildType.Terran_Barracks); BuildType.isResourceDepot _ := false |}.

#[export] Instance example_kinds : Kinds :=
  {| mineralCost _ := 50; gasCost _ := 0; supplyRequired _ := 2; tileWidth _ := 4; tileHeight _ := 3;
     dimensions _ := (8, 8, 8, 8); isDetector _ := false; isNonUsable _ := false; producesLarva _ := false;
     isUpgrade _ := false; isTech _ := false |}.

Definition example_env : env :=
  {| frame := 100; mapWidth := 512; mapHeight := 512;
     trait _ := Traits true true false false true false 80 80 (f64_of_Z 1) 0 (Vec2.Pos 0 0);
     myUnits := [1]; visibleUnits := [1]; myUnitsOfType _ := [];
     myCompletedUnitsOfType ty := if bool_decide (ty = BuildType.Terran_Command_Center) then [1] else [];
     upgradeLevel _ := 0; typeLevel _ := 0; hasResearched _ := false; scoutsOrHarasses _ := false;
     myClosestBaseIdx _ := -1; saturation _ := f64_0; canBuildAt _ _ := true; safeMoveTo _ p := p;
     MoveToMinerals := 1; ReturnMinerals := 2; MoveToGas := 3; ReturnGas := 4;
     CommandUnit := 9; Unburrow := 22; commandFuel := 5 |}.

Definition order_scv : Upc.t :=
  Upc.UPCTuple [(Some 1, f32_1)] Upc.PEmpty [(Command.Create, f32_1)]
    (Upc.SBuildTypeMap [(Some BuildType.Terran_SCV, f32_1)]) 1.

(** Two orders, as UPCs 1 and 2. *)
Definition example_board : Blackboard.t :=
  match Blackboard.postUPC BlackboardUpcs.initial 7 order_scv kRootUpcId (Some 3) None with
  | Ok (b, _) => match Blackboard.postUPC b 7 order_scv kRootUpcId (Some 3) None with Ok (b, _) => b | _ => b end
  | _ => BlackboardUpcs.initial
  end.

Definition example_world : world :=
  World example_board ∅ 0 {[1 := Unit.blank 1 BuildType.Terran_Command_Center]} ∅ []
    (Shared 0 0 0 0 98 [] [] f64_0 f64_0 []) (Tiles.State [] 0 0 [] 0 0 0).

Definition example_state : BuilderModule.state := BuilderModule.State example_world ∅ 0.
Definition example_resources : BuilderModule.resources := BuilderModule.Resources 75 0 4 10.
Definition no_sort (f : Task.ref → float32) (l : list Task.ref) : list Task.ref := l.

(** One worker is ordered; both controllers have put 50 minerals aside. *)
Lemma no_overspending_witness :
  ∃ s' s1 log, BuilderModule.step example_env example_resources (Some 2) no_sort example_state = Ok s' ∧
    ready example_env example_resources (Some 2) example_state s1 ∧
    spree example_env (BuilderModule.wd s1) log (BuilderModule.wd s') ∧
    length (trackers (BuilderModule.wd s')) = 1%nat ∧ reserved mineralCost log = 100.
Proof.
  destruct (BuilderModule.step example_env example_resources (Some 2) no_sort example_state) as [s'| | |] eqn:E;
    [|vm_compute in E; discriminate..].
  destruct (no_overspending example_env example_resources (Some 2) no_sort example_state s')
    as (s1 & l & log & Hr & Hl & Hs & _ & _ & _ & _ & Hore & _).
  - intros f l. reflexivity.
  - intros r tk Hx. vm_compute in Hx. discriminate.
  - exact E.
  - exists s', s1, log. split; [reflexivity|]. split; [exact Hr|]. split; [exact Hs|].
    vm_compute in E. injection E as <-. split; [reflexivity|].
    change (-25 = 75 - reserved mineralCost log) in Hore. lia.
Defined.

(** A controller for a barracks. *)
Definition example_controller : ctl :=
  set_priority (Ctl (Controllers.setUpcId (Controllers.make (Some 2)) 1) BuildType.Terran_Barracks None [] false false f32_0 0
    false None (Some (Place (Vec2.Pos 40 40) None 0 0 0 [] 0 false false))) f32_0.

(** It waits for a worker: there is none, and nothing is ordered. *)
Lemma builder_gives_up_witness :
  ∃ w c, rtc happens (example_world, example_controller, 0%nat) (w, c, 0%nat) ∧ type_ c = BuildType.Terran_Barracks ∧
    lastUpdate_ c = 100 ∧ is_Some (worker c).
Proof.
  destruct (worker_step example_env example_world example_controller) as [[w c]| | |] eqn:E; [|vm_compute in E; discriminate..].
  assert (rtc happens (example_world, example_controller, 0%nat) (w, c, 0%nat)) as Hr.
  { eapply rtc_l; [|apply rtc_refl]. assert (orders example_world w = 0%nat) as Ho.
    { vm_compute in E. injection E as <- <-. reflexivity. }
    pose proof (happens_step example_env example_world example_controller 0 w c E) as Hh. rewrite Ho in Hh. exact Hh. }
  destruct (builder_gives_up example_world example_controller w c 0) as (_ & Ht & (p & Hp & _) & _).
  - exists (Some 2), BuildType.Terran_Barracks, [], (Vec2.Pos 40 40), (Ctl (Controllers.make (Some 2)) BuildType.Terran_Barracks
      None [] false false f32_0 0 false None (Some (Place (Vec2.Pos 40 40) None 0 0 0 [] 0 false false))), 1, f32_0.
    split; reflexivity.
  - exact Hr.
  - exists w, c. split; [exact Hr|]. split; [exact Ht|]. split; [|by exists p].
    vm_compute in E. injection E as <- <-. reflexivity.
Defined.

End BuilderExample.
