(* ===== verification/Placement.v ===== *)
(** * Where to put buildings ([src/modules/builderhelper.cpp])

    The rules by which the building placer finds a place: whether a building
    can stand somewhere ([canBuildAt]), whether the group of buildings it would
    belong to stays small and walls nothing in ([buildingLayoutValid]), and the
    breadth-first search over build tiles that puts the two together.  The
    search tries a place by reserving it for a moment, so the tiles are threaded
    through.  What BWAPI knows of types, the lists of units and the areas are
    parameters. *)

From S2P Require Import Prelude Floats Geometry BuildTypes Units GameMechanics Upc Algorithms UnitsInfo Tiles.

Module Placement.
Import Tiles.

(** Facts about types besides [UnitsInfo.Attributes]. *)
Class Facts := {
  requiresCreep : BuildType → bool;
  requiresPsi : BuildType → bool;
  hasGroundWeapon : BuildType → bool;
  hasAirWeapon : BuildType → bool;
  canProduce : BuildType → bool
}.

(** What is read of the state besides the tiles. *)
Record view := View {
  frame : Z; units : gmap Z Unit;
  pixel_x : Z → Z; pixel_y : Z → Z; buildX : Z → Z; buildY : Z → Z;
  myPylons : list Z; resourceUnits : list Z; myResourceDepots : list Z; myWorkers : list Z;
  myClosestBaseIdx : Position → Z;
  (** The area of a position, its identifier for [positionProb], and the bases of an area. *)
  areaAt : Position → option Upc.area;
  baseLocations : Upc.area → list Position }.

Section placement.
Context {table : BuildType.Table} {attributes : UnitsInfo.Attributes} {facts : Facts} (v : view).

Definition unit (u : Z) : res Unit := of_option (units v !! u).
Definition tileWidth (ty : BuildType) : Z := UnitsInfo.tileWidth ty.
Definition tileHeight (ty : BuildType) : Z := UnitsInfo.tileHeight ty.

(** ** Power *)

(** [src/src/modules/builderhelper.cpp:956-960] psiFieldMask *)
Definition psiFieldMask : list (list bool) :=
  [[true; true; true; true; true; true; true; true];
   [true; true; true; true; true; true; true; true];
   [true; true; true; true; true; true; true; false];
   [true; true; true; true; true; true; false; false];
   [true; true; true; false; false; false; false; false]].

(** [src/src/modules/builderhelper.cpp:962-975] isInPsionicMatrixRange *)
Definition isInPsionicMatrixRange (relX relY : Z) : res bool :=
  let x := Z.abs relX in
  let y := Z.abs relY in
  if (256 <=? x) || (160 <=? y) then Ok false else
  let x := if relX <? 0 then x - 1 else x in
  let y := if relY <? 0 then y - 1 else y in
  let? row := at_ psiFieldMask (y / 32) in
  at_ row (x / 32).

(** [src/src/modules/builderhelper.cpp:263-279] canBuildAt *)
Definition checkPsi (ty : BuildType) (px py : Z) : res bool :=
  let centerPixelX := 8 * px + Z.quot (32 * tileWidth ty) 2 in
  let centerPixelY := 8 * py + Z.quot (32 * tileHeight ty) 2 in
  rfold (λ found i,
    if (found : bool) then Ok true else
    let? u := unit i in
    if Unit.completed u || (Unit.remainingBuildTrainTime u <=? 30)
    then isInPsionicMatrixRange (centerPixelX - pixel_x v i) (centerPixelY - pixel_y v i)
    else Ok false) (myPylons v) false.

(** ** Can a building stand here? *)

(** [src/src/modules/builderhelper.cpp:308-309] canBuildAt *)
Definition isDefence (ty : BuildType) : bool :=
  hasGroundWeapon ty || hasAirWeapon ty || bool_decide (ty = BuildType.Zerg_Creep_Colony).

(** [tile.building->type], for a tile with a building. *)
Definition building_type (t : tile) : res (option BuildType) :=
  match building t with
  | Some i => let? u := unit i in Ok (Some (Unit.type u))
  | None => Ok None
  end.

(** The checks for one tile, in order.

    [src/src/modules/builderhelper.cpp:323-404] canBuildAt *)
Definition tileOk (ty : BuildType) (ignoreReserved : bool) (t : tile) : res bool :=
  if negb (buildable t) || (reservedAsUnbuildable t && negb ignoreReserved) then Ok false else
  let? b := building_type t in
  if BuildType.isRefinery ty && negb (bool_decide (b = Some BuildType.Resource_Vespene_Geyser)) then Ok false else
  if negb (bool_decide (b = None)) &&
     (negb (bool_decide (b = Some BuildType.Resource_Vespene_Geyser)) || negb (BuildType.isRefinery ty)) then Ok false else
  if requiresCreep ty && negb (hasCreep t) && (frame v + 24 * 9 <? expectsCreepBy t) then Ok false else
  if negb (requiresCreep ty) && bool_decide (ty ≠ BuildType.Zerg_Hatchery) && hasCreep t then Ok false else
  let? psi := if requiresPsi ty then checkPsi ty (x t) (y t) else Ok true in
  if negb psi then Ok false else
  if negb (BuildType.isResourceDepot ty) && negb (BuildType.isRefinery ty) && negb (isDefence ty) && reservedForGathering t
  then Ok false else
  if BuildType.isResourceDepot ty && resourceDepotUnbuildable t then Ok false else
  if negb (BuildType.isResourceDepot ty) && reservedForResourceDepot t then Ok false else
  Ok (negb (frame v <? blockedUntil t)).

(** The area of a building with its left upper corner at [pos], unless it
    leaves the map.

    [src/src/modules/builderhelper.cpp:283-302] canBuildAt *)
Definition footprint (s : state) (ty : BuildType) (pos : Position) : option (nat * nat * Z * Z) :=
  let beginX := u32 (Vec2.x pos) / XYWalktilesPerBuildtile in
  let beginY := u32 (Vec2.y pos) / XYWalktilesPerBuildtile in
  let endX := u32 (beginX + tileWidth ty) in
  let endY := u32 (beginY + tileHeight ty) in
  if (mapTileWidth_ s <=? beginX) || (mapTileWidth_ s <=? endX) then None else
  if (mapTileHeight_ s <=? beginY) || (mapTileHeight_ s <=? endY) then None else
  Some (Z.to_nat (u32 (endY - beginY)), Z.to_nat (u32 (endX - beginX)),
        u32 (tilesWidth - u32 (endX - beginX)), u32 (tilesWidth * beginY + beginX)).

(** A loop over the area that leaves at the first tile that fails. *)
Definition all_tiles (s : state) (ok : tile → res bool) (fp : nat * nat * Z * Z) : res bool :=
  let '(rows, cols, stride, ptr) := fp in
  let? r := for_rows (λ acc ptr, if (acc : bool) then let? t := getAt s ptr in ok t else Ok false) rows cols stride true ptr in
  Ok r.1.

(** [src/src/modules/builderhelper.cpp:256-408] canBuildAt *)
Definition canBuildAt (s : state) (ty : BuildType) (pos : Position) (ignoreReserved : bool) : res bool :=
  match footprint s ty pos with
  | None => Ok false
  | Some fp => all_tiles s (tileOk ty ignoreReserved) fp
  end.

(** [src/src/modules/builderhelper.cpp:410-440] checkCreepAt *)
Definition checkCreepAt (s : state) (ty : BuildType) (pos : Position) : res bool :=
  match footprint s ty pos with
  | None => Ok false
  | Some fp =>
      if bool_decide (ty = BuildType.Zerg_Hatchery) then Ok true
      else all_tiles s (λ t, Ok (eqb (hasCreep t) (requiresCreep ty))) fp
  end.

(** ** Reservations with room for an addon *)

(** [src/src/modules/builderhelper.cpp:977-988] getAddon *)
Definition getAddon (ty : BuildType) : option BuildType :=
  if bool_decide (ty = BuildType.Terran_Command_Center) then Some BuildType.Terran_Comsat_Station
  else if bool_decide (ty = BuildType.Terran_Factory) then Some BuildType.Terran_Machine_Shop
  else if bool_decide (ty = BuildType.Terran_Starport) then Some BuildType.Terran_Control_Tower
  else if bool_decide (ty = BuildType.Terran_Science_Facility) then Some BuildType.Terran_Physics_Lab
  else None.

(** [src/src/modules/builderhelper.cpp:67-70] fullReserveImpl *)
Definition addonX (ty : BuildType) (px : Z) : Z := px + XYWalktilesPerBuildtile * tileWidth ty.
Definition addonY (ty addon : BuildType) (py : Z) : Z := py + XYWalktilesPerBuildtile * (tileHeight ty - tileHeight addon).

(** The rest does not run when there was an exception. *)
Definition and_then (r : res (state * option string)) (k : state → res (state * option string)) : res (state * option string) :=
  let? se := r in match se.2 with Some _ => Ok se | None => k se.1 end.

(** [src/src/modules/builderhelper.cpp:50-84] fullReserveImpl *)
Definition fullReserveImpl (reserve : bool) (s : state) (ty : BuildType) (px py : Z) : res (state * option string) :=
  match getAddon ty with
  | Some addon =>
      and_then (reserveAreaImpl reserve s ty px py) (λ s,
        reserveAreaImpl reserve s addon (addonX ty px) (addonY ty addon py))
  | None => reserveAreaImpl reserve s ty px py
  end.

(** [src/src/modules/builderhelper.cpp:764-766] fullReserve *)
Definition fullReserve (s : state) (ty : BuildType) (pos : Position) := fullReserveImpl true s ty (Vec2.x pos) (Vec2.y pos).
(** [src/src/modules/builderhelper.cpp:768-770] fullUnreserve *)
Definition fullUnreserve (s : state) (ty : BuildType) (pos : Position) := fullReserveImpl false s ty (Vec2.x pos) (Vec2.y pos).

(** ** The layout of a base *)

(** The marks of a search; a tile without one is [vNotVisited]. *)
Inductive mark := vOccupiedVisited | vNeighboringFreeTileNotVisited | vNeighboringFreeTileVisited.
#[export] Instance mark_eq_dec : EqDecision mark.
Proof. solve_decision. Defined.

Record layout := Layout {
  visited : gmap Z mark; open : list Z; firstEmptyTile : option Z; neighboringEmptyTileCount : Z;
  minTileX : Z; maxTileX : Z; minTileY : Z; maxTileY : Z }.

(** [src/src/modules/builderhelper.cpp:832-833] buildingLayoutValid *)
Definition freeTile (t : tile) : bool :=
  entirelyWalkable t && bool_decide (building t = None) && negb (reservedAsUnbuildable t).

(** [src/src/modules/builderhelper.cpp:825-845] buildingLayoutValid *)
Definition add_neighbour (s : state) (l : layout) (index : Z) : res layout :=
  if negb ((0 <=? index) && (index <? size)) then Undefined else
  match visited l !! index with
  | Some _ => Ok l
  | None =>
      let? t := getAt s index in
      let go m o f n := Layout (<[index := m]> (visited l)) o f n (minTileX l) (maxTileX l) (minTileY l) (maxTileY l) in
      Ok (if freeTile t
          then go vNeighboringFreeTileNotVisited (open l)
                 (match firstEmptyTile l with Some f => Some f | None => Some index end) (neighboringEmptyTileCount l + 1)
          else go vOccupiedVisited (if buildable t then open l ++ [index] else open l) (firstEmptyTile l) (neighboringEmptyTileCount l))
  end.

(** [src/src/modules/builderhelper.cpp:798-799] buildingLayoutValid *)
Definition tileLimit : Z := 12.

(** One direction of the box; [None] when it gets too large.

    [src/src/modules/builderhelper.cpp:851-862] buildingLayoutValid *)
Definition widen (lo hi tx : Z) : option (Z * Z) :=
  let lo' := if tx <? lo then tx else lo in
  if (tx <? lo) && (tileLimit <? 1 + hi - lo') then None else
  let hi' := if hi <? tx then tx else hi in
  if (hi <? tx) && (tileLimit <? 1 + hi' - lo') then None else Some (lo', hi').

(** [src/src/modules/builderhelper.cpp:883-906] buildingLayoutValid *)
Definition around (index : Z) : list Z :=
  [index - 1; index - 1 - tilesWidth; index - tilesWidth; index + 1 - tilesWidth;
   index + 1; index + 1 + tilesWidth; index + tilesWidth; index - 1 + tilesWidth].

(** The first search: from the building over what is occupied.

    [src/src/modules/builderhelper.cpp:821-907] buildingLayoutValid *)
Fixpoint occupied_search (fuel : nat) (s : state) (l : layout) : res (option layout) :=
  match open l with
  | [] => Ok (Some l)
  | index :: o =>
      match fuel with
      | O => OutOfFuel
      | S fuel =>
          let tileX := index mod tilesWidth in
          let tileY := index / tilesWidth in
          match widen (minTileX l) (maxTileX l) tileX with
          | None => Ok None
          | Some (x0, x1) =>
              match widen (minTileY l) (maxTileY l) tileY with
              | None => Ok None
              | Some (y0, y1) =>
                  if (tileX =? 0) || (tileX =? u32 (mapTileWidth_ s - 1)) then Ok None else
                  if (tileY =? 0) || (tileY =? u32 (mapTileHeight_ s - 1)) then Ok None else
                  let? l := rfold (add_neighbour s) (around index)
                              (Layout (visited l) o (firstEmptyTile l) (neighboringEmptyTileCount l) x0 x1 y0 y1) in
                  occupied_search fuel s l
              end
          end
      end
  end.

(** [src/src/modules/builderhelper.cpp:921-930] buildingLayoutValid *)
Definition add_free (acc : gmap Z mark * list Z * Z) (index : Z) : res (gmap Z mark * list Z * Z) :=
  let '(vis, o, n) := acc in
  if negb ((0 <=? index) && (index <? size)) then Undefined else
  if bool_decide (vis !! index = Some vNeighboringFreeTileNotVisited)
  then Ok (<[index := vNeighboringFreeTileVisited]> vis, o ++ [index], n - 1)
  else Ok acc.

(** The neighbours on the map, at the sides.

    [src/src/modules/builderhelper.cpp:932-947] buildingLayoutValid *)
Definition beside (s : state) (index : Z) : list Z :=
  let tileX := index mod tilesWidth in
  let tileY := index / tilesWidth in
  (if tileX =? 0 then [] else [index - 1]) ++ (if tileY =? 0 then [] else [index - tilesWidth]) ++
  (if tileX =? u32 (mapTileWidth_ s - 1) then [] else [index + 1]) ++
  (if tileY =? u32 (mapTileHeight_ s - 1) then [] else [index + tilesWidth]).

(** The second search: over the free tiles next to the buildings.

    [src/src/modules/builderhelper.cpp:917-948] buildingLayoutValid *)
Fixpoint free_search (fuel : nat) (s : state) (acc : gmap Z mark * list Z * Z) : res Z :=
  let '(vis, o, n) := acc in
  match o with
  | [] => Ok n
  | index :: o =>
      match fuel with
      | O => OutOfFuel
      | S fuel => let? acc := rfold add_free (beside s index) (vis, o, n) in free_search fuel s acc
      end
  end.

Definition layoutFuel : nat := S (Z.to_nat size).

(** [src/src/modules/builderhelper.cpp:783-954] buildingLayoutValid *)
Definition buildingLayoutValid (s : state) (startPos : Position) : res bool :=
  let startTileX := u32 (Vec2.x startPos) / XYWalktilesPerBuildtile in
  let startTileY := u32 (Vec2.y startPos) / XYWalktilesPerBuildtile in
  let startIndex := u32 (tilesWidth * startTileY + startTileX) in
  if Z.of_nat (length (tiles s)) <=? startIndex then Throw "vector::_M_range_check" else
  let? r := occupied_search layoutFuel s
              (Layout {[startIndex := vOccupiedVisited]} [startIndex] None 0 startTileX startTileX startTileY startTileY) in
  match r with
  | None => Ok false
  | Some l =>
      match firstEmptyTile l with
      | None => Ok true
      | Some f =>
          let? n := free_search layoutFuel s
                      (<[f := vNeighboringFreeTileVisited]> (visited l), [f], neighboringEmptyTileCount l - 1) in
          Ok (n =? 0)
      end
  end.

(** ** The search for a place *)

(** [upc.positionProb(x, y)]; the null pointer of an unknown area is undefined. *)
Definition chance := Z → Z → res float32.
Definition positionProb (u : Upc.t) : chance :=
  Upc.positionProb (units v) (λ p, Upc.area_id <$> areaAt v p) u.

(** An exception leaves the function. *)
Definition thrown (r : res (state * option string)) : res state :=
  let? se := r in match se.2 with Some msg => Throw msg | None => Ok se.1 end.

(** [src/src/modules/builderhelper.cpp:990-1027] canPlaceBuildingAtTile *)
Definition canPlaceBuildingAtTile (prob : chance) (s : state) (ty : BuildType) (t : tile) : res (state * bool) :=
  let? can := canBuildAt s ty (Vec2.Pos (x t) (y t)) false in
  if negb can then Ok (s, false) else
  let? p := prob (x t) (y t) in
  if feqb p f32_0 then Ok (s, false) else
  match getAddon ty with
  | Some addon =>
      let ax := addonX ty (x t) in
      let ay := addonY ty addon (y t) in
      let? can := canBuildAt s addon (Vec2.Pos ax ay) false in
      if negb can then Ok (s, false) else
      let? s := thrown (reserveArea s ty (x t) (y t)) in
      let? s := thrown (reserveArea s addon ax ay) in
      let? ok := buildingLayoutValid s (Vec2.Pos (x t) (y t)) in
      let? s := thrown (unreserveArea s ty (x t) (y t)) in
      let? s := thrown (unreserveArea s addon ax ay) in
      Ok (s, ok)
  | None =>
      let? s := thrown (reserveArea s ty (x t) (y t)) in
      let? ok := buildingLayoutValid s (Vec2.Pos (x t) (y t)) in
      let? s := thrown (unreserveArea s ty (x t) (y t)) in
      Ok (s, ok)
  end.

(** [src/src/modules/builderhelper.cpp:163-174] findBuildLocation *)
Definition seed (s : state) (acc : gset Z * list Z) (loc : Position) : res (gset Z * list Z) :=
  let '(vis, o) := acc in
  if (Vec2.x loc <? 0) || (Vec2.y loc <? 0) then Ok acc else
  let index := u32 (tilesWidth * (u32 (Vec2.y loc) / XYWalktilesPerBuildtile) + u32 (Vec2.x loc) / XYWalktilesPerBuildtile) in
  Ok (if index <? Z.of_nat (length (tiles s)) then (vis ∪ {[index]}, o ++ [index]) else acc).

(** [src/src/modules/builderhelper.cpp:197-208] findBuildLocation *)
Definition add_open (s : state) (acc : gset Z * list Z) (index : Z) : res (gset Z * list Z) :=
  let '(vis, o) := acc in
  if negb ((0 <=? index) && (index <? size)) then Undefined else
  if bool_decide (index ∈ vis) then Ok acc else
  let? t := getAt s index in
  Ok (vis ∪ {[index]}, if entirelyWalkable t then o ++ [index] else o).

Definition maxValidLocations : nat := 64.
Definition maxIterations : nat := 1024.

(** The tiles, and the valid locations in the order they were found.

    [src/src/modules/builderhelper.cpp:182-226] findBuildLocation *)
Fixpoint search (iterations : nat) (prob : chance) (ty : BuildType) (s : state) (vis : gset Z) (o : list Z) (valid : list Z)
    : res (state * list Z) :=
  match o, iterations with
  | [], _ | _, O => Ok (s, valid)
  | index :: o, S iterations =>
      let? t := getAt s index in
      let? r := canPlaceBuildingAtTile prob s ty t in
      let '(s, ok) := r in
      let valid := if (ok : bool) then valid ++ [index] else valid in
      if (ok : bool) && (maxValidLocations <=? length valid)%nat then Ok (s, valid) else
      let? r := rfold (add_open s) (beside s index) (vis, o) in
      search iterations prob ty s r.1 r.2 valid
  end.

(** [src/src/modules/builderhelper.cpp:148-236] findBuildLocation *)
Definition findBuildLocation (score : state → BuildType → tile → res float64) (s : state) (seeds : list Position)
    (ty : BuildType) (prob : chance) : res (state * Position) :=
  if (mapTileWidth_ s <=? 1) || (mapTileHeight_ s <=? 1) then Ok (s, Vec2.Pos (-1) (-1)) else
  let? so := rfold (seed s) seeds (∅, []) in
  let? r := search maxIterations prob ty s so.1 so.2 [] in
  let '(s, valid) := r in
  let? scored := rfold (λ acc i, let? t := getAt s i in let? sc := score s ty t in Ok (acc ++ [(t, sc)])) valid [] in
  match Algorithms.getBestScore fltb snd (λ _, false) (λ _, false) scored with
  | Some (t, _) => Ok (s, Vec2.Pos (x t) (y t))
  | None => Ok (s, Vec2.Pos (-1) (-1))
  end.

End placement.
End Placement.
