(* ===== verification/PlacementRules.v ===== *)
(** * What the placement rules mean

    [canBuildAt] against a description of a free place, and trying a place:
    reserving it, with room for an addon, and giving it back. *)

From S2P Require Import Prelude Floats Geometry BuildTypes Units GameMechanics Upc Algorithms UnitsInfo Tiles Placement.

Module PlacementRules.
Import Tiles Placement.

Section rules.
Context {table : BuildType.Table} {attributes : UnitsInfo.Attributes} {facts : Facts} (v : view).

(** ** Power *)

(** The field of a pylon: rows of 32 pixels, of which eight, eight, seven, six
    and three columns are covered on each side. *)
Definition in_field (relX relY : Z) : Prop :=
  let x := if relX <? 0 then - relX - 1 else relX in
  let y := if relY <? 0 then - relY - 1 else relY in
  (y < 64 ∧ x < 256) ∨ (y < 96 ∧ x < 224) ∨ (y < 128 ∧ x < 192) ∨ (y < 160 ∧ x < 96).

Lemma mask_spec i j : 0 ≤ i < 5 → 0 ≤ j < 8 →
  ∃ row, at_ psiFieldMask i = Ok row ∧ ∃ b, at_ row j = Ok b ∧
    (b = true ↔ i < 2 ∨ (i < 3 ∧ j < 7) ∨ (i < 4 ∧ j < 6) ∨ j < 3).
Proof.
  intros Hi Hj. assert (i = 0 ∨ i = 1 ∨ i = 2 ∨ i = 3 ∨ i = 4) as Ei by lia.
  assert (j = 0 ∨ j = 1 ∨ j = 2 ∨ j = 3 ∨ j = 4 ∨ j = 5 ∨ j = 6 ∨ j = 7) as Ej by lia.
  destruct Ei as [->|[->|[->|[->| ->]]]]; eexists; (split; [reflexivity|]);
    destruct Ej as [->|[->|[->|[->|[->|[->|[->| ->]]]]]]]; eexists; (split; [reflexivity|]); split; intros; try done; lia.
Qed.

(** On the border of the field a unit to the left or above counts as inside of
    it only below 256 and 160 pixels. *)
Lemma field_spec relX relY : ∃ b, isInPsionicMatrixRange relX relY = Ok b ∧
  (b = true ↔ Z.abs relX < 256 ∧ Z.abs relY < 160 ∧ in_field relX relY).
Proof.
  unfold isInPsionicMatrixRange, in_field. destruct (Z.leb_spec 256 (Z.abs relX)); cbn [orb]; [exists false; split; [done|]; lia|].
  destruct (Z.leb_spec 160 (Z.abs relY)); [exists false; split; [done|]; lia|].
  set (x := if relX <? 0 then _ else _). set (y := if relY <? 0 then Z.abs relY - 1 else _).
  assert (0 ≤ x < 256 ∧ x = if relX <? 0 then - relX - 1 else relX) as [Hx Ex] by (subst x; destruct (Z.ltb_spec relX 0); lia).
  assert (0 ≤ y < 160 ∧ y = if relY <? 0 then - relY - 1 else relY) as [Hy Ey] by (subst y; destruct (Z.ltb_spec relY 0); lia).
  rewrite <-Ex, <-Ey. clearbody x y.
  destruct (mask_spec (y / 32) (x / 32)) as (row & -> & b & Eb & Hb); [Z.div_mod_to_equations; lia..|].
  cbn [rbind]. exists b. split; [done|]. rewrite Hb. Z.div_mod_to_equations. lia.
Qed.

(** A finished pylon covers the middle of a building with its corner at [px], [py]. *)
Definition powered (ty : BuildType) (px py : Z) : Prop :=
  ∃ i u, i ∈ myPylons v ∧ units v !! i = Some u ∧ (Unit.completed u = true ∨ Unit.remainingBuildTrainTime u ≤ 30) ∧
    let dx := 8 * px + Z.quot (32 * tileWidth ty) 2 - pixel_x v i in
    let dy := 8 * py + Z.quot (32 * tileHeight ty) 2 - pixel_y v i in
    Z.abs dx < 256 ∧ Z.abs dy < 160 ∧ in_field dx dy.

(** The units the rules ask for exist. *)
Record known (s : state) : Prop := {
  kn_pylons : ∀ i, i ∈ myPylons v → is_Some (units v !! i);
  kn_buildings : ∀ p t i, tiles s !! p = Some t → building t = Some i → is_Some (units v !! i)
}.

Lemma psi_spec ty px py : (∀ i, i ∈ myPylons v → is_Some (units v !! i)) →
  ∃ b, checkPsi v ty px py = Ok b ∧ (b = true ↔ powered ty px py).
Proof.
  unfold checkPsi, powered. generalize (8 * px + Z.quot (32 * tileWidth ty) 2) as cx, (8 * py + Z.quot (32 * tileHeight ty) 2) as cy.
  intros cx cy. cbn zeta.
  assert (∀ l found, (∀ i, i ∈ l → is_Some (units v !! i)) → ∃ b, rfold (λ (found : bool) i,
    if found then Ok true else
    let? u := unit v i in
    if Unit.completed u || (Unit.remainingBuildTrainTime u <=? 30)
    then isInPsionicMatrixRange (cx - pixel_x v i) (cy - pixel_y v i) else Ok false) l found = Ok b ∧
    (b = true ↔ found = true ∨ ∃ i u, i ∈ l ∧ units v !! i = Some u ∧ (Unit.completed u = true ∨ Unit.remainingBuildTrainTime u ≤ 30) ∧
      Z.abs (cx - pixel_x v i) < 256 ∧ Z.abs (cy - pixel_y v i) < 160 ∧ in_field (cx - pixel_x v i) (cy - pixel_y v i))) as Hall.
  { induction l as [|i l IH]; intros found Hl; cbn [rfold].
    - exists found. split; [done|]. split; [auto|]. intros [?|(i & u & []%not_elem_of_nil & _)]. done.
    - assert (∀ i, i ∈ l → is_Some (units v !! i)) as Hl' by (intros; apply Hl; by right).
      destruct found; cbn [rbind].
      + destruct (IH true Hl') as (b & -> & Hb). exists b. split; [done|]. split; [auto|]. intros _. apply Hb. auto.
      + destruct (Hl i) as [u Hu]; [by left|]. assert (unit v i = Ok u) as -> by (unfold unit; by rewrite Hu). cbn [rbind].
        set (r := if (_ || _) then isInPsionicMatrixRange _ _ else Ok false).
        assert (∃ b, r = Ok b ∧ (b = true ↔ (Unit.completed u = true ∨ Unit.remainingBuildTrainTime u ≤ 30) ∧
          Z.abs (cx - pixel_x v i) < 256 ∧ Z.abs (cy - pixel_y v i) < 160 ∧ in_field (cx - pixel_x v i) (cy - pixel_y v i))) as (b & Er & Hb).
        { subst r. destruct (_ || _) eqn:Ec.
          - apply orb_true_iff in Ec. rewrite Z.leb_le in Ec.
            destruct (field_spec (cx - pixel_x v i) (cy - pixel_y v i)) as (b & -> & Hb). exists b. split; [done|]. tauto.
          - apply orb_false_iff in Ec as [Ec1 Ec2]. apply Z.leb_gt in Ec2. exists false. split; [done|]. split; [done|].
            intros [[?|?] _]; [congruence|lia]. }
        rewrite Er. cbn [rbind]. destruct (IH b Hl') as (b' & -> & Hb'). exists b'. split; [done|]. rewrite Hb', Hb. split.
        * intros [?|(j & w & Hj & ?)]; right; [exists i, u; split; [by left|done]|exists j, w; split; [by right|done]].
        * intros [?|(j & w & [->|Hj]%elem_of_cons & Hw & ?)]; [done| |right; by exists j, w]. left. by simplify_eq. }
  intros Hl. destruct (Hall _ false Hl) as (b & E & Hb). exists b. split; [exact E|]. rewrite Hb. split; [by intros [?|?]|auto].
Qed.

(** ** One tile *)

(** The building on a tile is of type [ty]. *)
Definition holds (t : tile) (ty : BuildType) : Prop :=
  ∃ i u, building t = Some i ∧ units v !! i = Some u ∧ Unit.type u = ty.

(** A building of type [ty] may cover the tile. *)
Record suitable (ty : BuildType) (ignoreReserved : bool) (t : tile) : Prop := {
  su_buildable : buildable t = true;
  su_reserved : reservedAsUnbuildable t = true → ignoreReserved = true;
  su_building : if BuildType.isRefinery ty then holds t BuildType.Resource_Vespene_Geyser else building t = None;
  su_creep : requiresCreep ty = true → hasCreep t = true ∨ expectsCreepBy t ≤ frame v + 216;
  su_no_creep : requiresCreep ty = false → ty ≠ BuildType.Zerg_Hatchery → hasCreep t = false;
  su_psi : requiresPsi ty = true → powered ty (x t) (y t);
  su_gathering : reservedForGathering t = true →
    BuildType.isResourceDepot ty = true ∨ BuildType.isRefinery ty = true ∨ isDefence ty = true;
  su_depot : if BuildType.isResourceDepot ty then resourceDepotUnbuildable t = false else reservedForResourceDepot t = false;
  su_blocked : blockedUntil t ≤ frame v
}.

Lemma building_spec s p t : known s → tiles s !! p = Some t →
  ∃ b, building_type v t = Ok b ∧ (b = None ↔ building t = None) ∧ ∀ ty, b = Some ty ↔ holds t ty.
Proof.
  intros Hk Ht. unfold building_type, holds. destruct (building t) as [i|] eqn:Eb.
  - destruct (kn_buildings _ Hk p t i Ht Eb) as [u Hu]. unfold unit. rewrite Hu. exists (Some (Unit.type u)).
    split_and!; [done|done|]. intros ty. split; [intros [= <-]; by exists i, u|]. intros (j & w & [= <-] & Hw & <-). by simplify_eq.
  - exists None. split_and!; [done|done|]. intros ty. split; [done|]. by intros (? & ? & ? & _).
Qed.

Lemma suitable_no ty ign t (b : bool) : b = false → ¬ suitable ty ign t → b = true ↔ suitable ty ign t.
Proof. intros -> Hn. by split. Qed.

(** The next check of a tile. *)
Ltac check_fails E := match goal with |- ∃ _, (if ?c then Ok false else _) = _ ∧ _ => destruct c eqn:E end.

Lemma tileOk_spec s p ty ign t : known s → tiles s !! p = Some t →
  ∃ b, tileOk v ty ign t = Ok b ∧ (b = true ↔ suitable ty ign t).
Proof.
  intros Hk Ht. unfold tileOk. destruct (building_spec s p t Hk Ht) as (b & -> & Hnone & Hb).
  destruct (psi_spec ty (x t) (y t) (kn_pylons _ Hk)) as (psi & Epsi & Hpsi).
  check_fails E1.
  { exists false. split; [done|]. split; [done|]. intros [S1 S2 _ _ _ _ _ _ _]. rewrite S1 in E1. cbn in E1.
    apply andb_true_iff in E1 as [E1 E2]. rewrite (S2 E1) in E2. done. }
  apply orb_false_iff in E1 as [E1%negb_false_iff E1']. cbn [rbind].
  check_fails E2.
  { exists false. split; [done|]. split; [done|]. intros [_ _ S3 _ _ _ _ _ _]. apply andb_true_iff in E2 as [E2 E2'].
    rewrite E2 in S3. apply Hb in S3. rewrite S3 in E2'. by rewrite bool_decide_true in E2'. }
  check_fails E3.
  { exists false. split; [done|]. split; [done|]. intros [_ _ S3 _ _ _ _ _ _]. apply andb_true_iff in E3 as [E3 E3'].
    destruct (BuildType.isRefinery ty).
    - apply Hb in S3. rewrite S3 in E3'. by rewrite bool_decide_true in E3'.
    - apply Hnone in S3. rewrite S3 in E3. done. }
  assert (if BuildType.isRefinery ty then holds t BuildType.Resource_Vespene_Geyser else building t = None) as S3.
  { destruct (BuildType.isRefinery ty); cbn [andb] in *.
    - apply negb_false_iff, bool_decide_eq_true in E2. by apply Hb.
    - rewrite orb_true_r, andb_true_r in E3. apply negb_false_iff, bool_decide_eq_true in E3. by apply Hnone. }
  clear E2 E3. check_fails E4.
  { exists false. split; [done|]. split; [done|]. intros [_ _ _ S4 _ _ _ _ _]. rewrite !andb_true_iff in E4.
    destruct E4 as [[E4 E5] E6]. apply Z.ltb_lt in E6. destruct (S4 E4) as [S4'|S4']; [by rewrite S4' in E5|lia]. }
  check_fails E5.
  { exists false. split; [done|]. split; [done|]. intros [_ _ _ _ S5 _ _ _ _]. rewrite !andb_true_iff, negb_true_iff, bool_decide_eq_true in E5.
    destruct E5 as [[E5 E6] E7]. rewrite (S5 E5 E6) in E7. done. }
  assert (∃ q, (if requiresPsi ty then checkPsi v ty (x t) (y t) else Ok true) = Ok q ∧
    (q = true ↔ (requiresPsi ty = true → powered ty (x t) (y t)))) as (q & -> & Hq).
  { destruct (requiresPsi ty); [exists psi; split; [done|]; rewrite Hpsi; naive_solver|by exists true]. }
  cbn [rbind]. destruct q; cbn [negb].
  2:{ exists false. split; [done|]. split; [done|]. intros [_ _ _ _ _ S6 _ _ _]. by apply Hq in S6. }
  check_fails E6.
  { exists false. split; [done|]. split; [done|]. intros [_ _ _ _ _ _ S7 _ _]. rewrite !andb_true_iff, !negb_true_iff in E6.
    destruct E6 as [[[E6 E7] E8] E9]. destruct (S7 E9) as [?|[?|?]]; congruence. }
  check_fails E7.
  { exists false. split; [done|]. split; [done|]. intros [_ _ _ _ _ _ _ S8 _]. apply andb_true_iff in E7 as [E7 E8].
    rewrite E7 in S8. congruence. }
  check_fails E8.
  { exists false. split; [done|]. split; [done|]. intros [_ _ _ _ _ _ _ S8 _]. apply andb_true_iff in E8 as [E8%negb_true_iff E9].
    rewrite E8 in S8. congruence. }
  eexists. split; [done|]. rewrite negb_true_iff, Z.ltb_ge. split; [|by intros []].
  intros Hbl. split; try done.
  - intros Hr. rewrite Hr in E1'. by apply negb_false_iff in E1'.
  - intros Hc. rewrite Hc in E4. destruct (hasCreep t); [by left|right]. cbn in E4. apply Z.ltb_ge in E4. lia.
  - intros Hc Hty. rewrite Hc, bool_decide_true in E5 by done. done.
  - by apply Hq.
  - intros Hg. rewrite Hg, andb_true_r in E6. destruct (BuildType.isResourceDepot ty), (BuildType.isRefinery ty), (isDefence ty); auto.
  - destruct (BuildType.isResourceDepot ty); [by rewrite andb_true_l in E7|done].
Qed.

(** ** The whole area *)

Lemma footprint_spec s ty pos : WF s → in_int (Vec2.x pos) → in_int (Vec2.y pos) → sane_size ty →
  match footprint s ty pos with
  | None => ¬ fits s ty (Vec2.x pos) (Vec2.y pos)
  | Some (rows, cols, stride, ptr) => fits s ty (Vec2.x pos) (Vec2.y pos) ∧
      cells rows cols (Z.of_nat cols + stride) ptr = area ty (Vec2.x pos) (Vec2.y pos)
  end.
Proof.
  destruct pos as [px py]. cbn [Vec2.x Vec2.y]. intros HW HX HY [Hw Hh]. unfold footprint, XYWalktilesPerBuildtile. cbn [Vec2.x Vec2.y].
  unfold tileWidth, tileHeight. pose proof HW as [_ HmW HmH]. unfold tilesWidth, tilesHeight in HmW, HmH. unfold in_int in *.
  destruct (decide (fits s ty px py)) as [Hf|Hf].
  - pose proof Hf as (HX0 & HY0 & Ha & Hb). rewrite !u32_div4 by lia. pose proof (Z.div_pos px 4). pose proof (Z.div_pos py 4).
    rewrite !(u32_small (px / 4 + _)), !(u32_small (py / 4 + _)) by lia.
    repeat match goal with |- context [Z.leb ?a ?b] => replace (Z.leb a b) with false by lia end. cbn [orb].
    rewrite !(u32_small (_ + _ - _)) by lia. rewrite (u32_small (tilesWidth - _)) by (unfold tilesWidth; lia).
    rewrite (u32_small (tilesWidth * _ + _)) by (unfold tilesWidth; lia). split; [done|]. unfold area, tile_index.
    replace (px / 4 + UnitsInfo.tileWidth ty - px / 4) with (UnitsInfo.tileWidth ty) by lia.
    replace (py / 4 + UnitsInfo.tileHeight ty - py / 4) with (UnitsInfo.tileHeight ty) by lia.
    by replace (Z.of_nat (Z.to_nat (UnitsInfo.tileWidth ty)) + (tilesWidth - UnitsInfo.tileWidth ty)) with tilesWidth by lia.
  - destruct (_ || _) eqn:E1; [done|]. destruct (_ || _) eqn:E2 in |- *; [done|]. exfalso. apply Hf.
    rewrite !orb_false_iff, !Z.leb_gt in E1, E2. destruct E1 as [E1 E3], E2 as [E2 E4].
    assert (0 ≤ px) as HX0 by (destruct (Z_lt_le_dec px 0); [pose proof (u32_negative px); lia|done]).
    assert (0 ≤ py) as HY0 by (destruct (Z_lt_le_dec py 0); [pose proof (u32_negative py); lia|done]).
    rewrite !u32_div4 in * by lia. pose proof (Z.div_pos px 4). pose proof (Z.div_pos py 4).
    rewrite u32_small in E3, E4 by lia. by split_and!.
Qed.

Lemma all_tiles_spec s (ok : tile → res bool) (P : tile → Prop) rows cols stride ptr :
  WF s → in_grid (cells rows cols (Z.of_nat cols + stride) ptr) →
  (∀ p t, tiles s !! p = Some t → ∃ b, ok t = Ok b ∧ (b = true ↔ P t)) →
  ∃ b, all_tiles s ok (rows, cols, stride, ptr) = Ok b ∧
    (b = true ↔ ∀ p t, p ∈ cells rows cols (Z.of_nat cols + stride) ptr → tiles s !! Z.to_nat p = Some t → P t).
Proof.
  intros HW Hg Hok. unfold all_tiles. rewrite for_rows_rfold. revert Hg. generalize (cells rows cols (Z.of_nat cols + stride) ptr) as l.
  intros l Hg. assert (∀ acc : bool, ∃ b, rfold (λ (acc : bool) ptr, if acc then let? t := getAt s ptr in ok t else Ok false) l acc = Ok b ∧
    (b = true ↔ acc = true ∧ ∀ p t, p ∈ l → tiles s !! Z.to_nat p = Some t → P t)) as Hl.
  { induction l as [|p l IH]; intros acc; cbn [rfold].
    { exists acc. split; [done|]. split; [|by intros []]. intros ->. split; [done|]. by intros ? ? ?%not_elem_of_nil. }
    assert (in_grid l) as Hg' by (intros q Hq; apply Hg; by right). destruct acc; cbn [rbind].
    - destruct (getAt_ok s p HW) as (t & -> & Ht); [apply Hg; by left|]. cbn [rbind].
      destruct (Hok _ t Ht) as (b & -> & Hb). cbn [rbind]. destruct (IH Hg' b) as (b' & -> & Hb'). exists b'. split; [done|].
      rewrite Hb', Hb. split.
      + intros [HP Hall]. split; [done|]. intros q t' [->|Hq]%elem_of_cons Ht'; [by simplify_eq|by eapply Hall].
      + intros [_ Hall]. split; [apply (Hall p t); [by left|done]|]. intros q t' Hq. apply Hall. by right.
    - destruct (IH Hg' false) as (b' & -> & Hb'). exists b'. split; [done|]. rewrite Hb'. split; intros []; done. }
  destruct (Hl true) as (b & -> & Hb). cbn [rbind fst]. exists b. split; [done|]. rewrite Hb. naive_solver.
Qed.

(** Reading the area of a building. *)
Lemma area_check s ty pos ok P : WF s → in_int (Vec2.x pos) → in_int (Vec2.y pos) → sane_size ty →
  (∀ p t, tiles s !! p = Some t → ∃ b, ok t = Ok b ∧ (b = true ↔ P t)) →
  ∃ b, (match footprint s ty pos with None => Ok false | Some fp => all_tiles s ok fp end) = Ok b ∧
    (b = true ↔ fits s ty (Vec2.x pos) (Vec2.y pos) ∧
       ∀ p t, p ∈ area ty (Vec2.x pos) (Vec2.y pos) → tiles s !! Z.to_nat p = Some t → P t).
Proof.
  intros HW HX HY Hsz Hok. pose proof (footprint_spec s ty pos HW HX HY Hsz) as Hf.
  destruct (footprint s ty pos) as [[[[rows cols] stride] ptr]|].
  - destruct Hf as [Hf Ec]. destruct (all_tiles_spec s ok P rows cols stride ptr HW) as (b & E & Hb);
      [rewrite Ec; by eapply area_grid|done|]. exists b. split; [done|]. rewrite Hb, Ec. tauto.
  - exists false. split; [done|]. split; [done|]. tauto.
Qed.

Lemma canBuildAt_ok s ty pos ign : WF s → in_int (Vec2.x pos) → in_int (Vec2.y pos) → sane_size ty → known s →
  ∃ b, canBuildAt v s ty pos ign = Ok b ∧
    (b = true ↔ fits s ty (Vec2.x pos) (Vec2.y pos) ∧
       ∀ p t, p ∈ area ty (Vec2.x pos) (Vec2.y pos) → tiles s !! Z.to_nat p = Some t → suitable ty ign t).
Proof.
  intros HW HX HY Hsz Hk. apply area_check; [done..|]. intros p t Ht. by eapply tileOk_spec.
Qed.

End rules.
End PlacementRules.
