(* ===== verification/PlacementLayout.v ===== *)
(** * What [buildingLayoutValid] decides

    The tiles around a new building fall into those that are occupied and those
    that are free.  The search accepts the building exactly when the group of
    occupied tiles it joins is small and keeps away from the border of the map,
    and the free tiles around the group are connected. *)

From S2P Require Import Prelude Floats Geometry BuildTypes Units UnitsInfo Tiles Placement.

Module PlacementLayout.
Import Tiles Placement.

(** ** Marks *)

Definition fresh_marks (vis : gmap Z mark) : gmap Z mark := filter (λ p, p.2 = vNeighboringFreeTileNotVisited) vis.
Definition count (vis : gmap Z mark) : Z := Z.of_nat (base.size (fresh_marks vis)).

Lemma lookup_fresh vis i : is_Some (fresh_marks vis !! i) ↔ vis !! i = Some vNeighboringFreeTileNotVisited.
Proof.
  unfold fresh_marks. split.
  - intros [m Hm]. apply map_lookup_filter_Some in Hm as [Hv Hm]. cbn in Hm. by rewrite Hv, Hm.
  - intros Hv. eexists. by apply map_lookup_filter_Some.
Qed.

Lemma fresh_None vis i : vis !! i ≠ Some vNeighboringFreeTileNotVisited → fresh_marks vis !! i = None.
Proof. intros Hv. destruct (fresh_marks vis !! i) eqn:E; [|done]. destruct Hv. apply lookup_fresh. by eexists. Qed.

Lemma count_new vis i : vis !! i = None → count (<[i := vNeighboringFreeTileNotVisited]> vis) = count vis + 1.
Proof.
  intros Hi. unfold count, fresh_marks. rewrite map_filter_insert_True by done.
  rewrite map_size_insert_None; [lia|]. apply fresh_None. by rewrite Hi.
Qed.

Lemma count_other vis i m : vis !! i = None → m ≠ vNeighboringFreeTileNotVisited → count (<[i := m]> vis) = count vis.
Proof.
  intros Hi Hm. unfold count, fresh_marks. rewrite map_filter_insert_False by done. by rewrite delete_id.
Qed.

Lemma count_visit vis i : vis !! i = Some vNeighboringFreeTileNotVisited →
  count (<[i := vNeighboringFreeTileVisited]> vis) = count vis - 1.
Proof.
  intros Hi. unfold count, fresh_marks. rewrite map_filter_insert_False by done. rewrite map_filter_delete.
  destruct (proj2 (lookup_fresh vis i) Hi) as [m Hm]. pose proof (map_size_ne_0_lookup_2 (fresh_marks vis) i (mk_is_Some _ _ Hm)).
  rewrite map_size_delete_Some by (by eexists). unfold fresh_marks in *. lia.
Qed.

Lemma free_count_zero vis : count vis = 0 ↔ ∀ i, vis !! i ≠ Some vNeighboringFreeTileNotVisited.
Proof.
  unfold count. split.
  - intros H0 i Hi%lookup_fresh. assert (base.size (fresh_marks vis) = 0%nat) as E by lia.
    apply map_size_empty_inv in E. rewrite E in Hi. destruct Hi as [? Hi]. by rewrite lookup_empty in Hi.
  - intros Hn. assert (fresh_marks vis = ∅) as ->; [|by rewrite map_size_empty]. apply map_empty. intros i. by apply fresh_None.
Qed.

(** At most as many marks as there are tiles. *)
Definition in_range (vis : gmap Z mark) : Prop := ∀ i, is_Some (vis !! i) → 0 ≤ i < Tiles.size.

Lemma marks_bound vis : in_range vis → (base.size vis ≤ Z.to_nat Tiles.size)%nat.
Proof.
  intros Hr. rewrite <-(size_dom (D := gset Z)). transitivity (base.size (list_to_set (seqZ 0 Tiles.size) : gset Z)).
  - apply subseteq_size. intros i Hi%elem_of_dom. rewrite elem_of_list_to_set, elem_of_seqZ. specialize (Hr i Hi). lia.
  - rewrite size_list_to_set by apply NoDup_seqZ. rewrite length_seqZ. lia.
Qed.

(** ** The reference *)

Definition col (p : Z) : Z := p mod tilesWidth.
Definition row (p : Z) : Z := p / tilesWidth.

Section layout.
Context (s : state) (i0 : Z).

Definition is_tile (f : tile → Prop) (p : Z) : Prop := ∃ t, 0 ≤ p ∧ tiles s !! Z.to_nat p = Some t ∧ f t.
Definition free : Z → Prop := is_tile (λ t, freeTile t = true).
Definition solid : Z → Prop := is_tile (λ t, freeTile t = false ∧ buildable t = true).

(** The group of buildings that the tile [i0] belongs to. *)
Definition joined (p q : Z) : Prop := q ∈ around p ∧ q ≠ i0 ∧ solid q.
Definition group : Z → Prop := rtc joined i0.
(** The free tiles around the group. *)
Definition fringe (q : Z) : Prop := q ≠ i0 ∧ free q ∧ ∃ p, group p ∧ q ∈ around p.

Definition inner (p : Z) : Prop :=
  col p ≠ 0 ∧ col p ≠ mapTileWidth_ s - 1 ∧ row p ≠ 0 ∧ row p ≠ mapTileHeight_ s - 1.

(** The group is at most twelve tiles wide and high and stays off the border. *)
Definition compact : Prop :=
  (∀ p, group p → inner p) ∧
  ∀ p q, group p → group q → Z.abs (col p - col q) < 12 ∧ Z.abs (row p - row q) < 12.

(** From any free tile around the group one gets to any other along such tiles. *)
Definition connected : Prop := ∀ p q, fringe p → fringe q → rtc (λ a b, b ∈ beside s a ∧ fringe b) p q.

(** *** Geometry *)

Definition on_tile (p : Z) : Prop := 0 ≤ p ∧ col p < mapTileWidth_ s ∧ row p < mapTileHeight_ s.

Context (HW : WF s).

Lemma col_row p : p = tilesWidth * row p + col p ∧ 0 ≤ col p < tilesWidth.
Proof. unfold col, row, tilesWidth. Z.div_mod_to_equations. lia. Qed.

Lemma on_tile_range p : on_tile p → 0 ≤ p < Tiles.size.
Proof using HW.
  intros (Hp & Hc & Hr). destruct (col_row p) as [E Hc']. destruct HW as [_ Hw Hh].
  unfold Tiles.size, tilesHeight, tilesWidth in *. lia.
Qed.

Lemma col_row_unique p c r : p = tilesWidth * r + c → 0 ≤ c < tilesWidth → col p = c ∧ row p = r.
Proof. intros -> Hc. unfold col, row, tilesWidth in *. Z.div_mod_to_equations. lia. Qed.

Lemma around_spec p q : on_tile p → inner p → q ∈ around p →
  on_tile q ∧ Z.abs (col q - col p) ≤ 1 ∧ Z.abs (row q - row p) ≤ 1.
Proof using HW.
  intros (Hp & Hc & Hr) (I1 & I2 & I3 & I4) Hq. destruct (col_row p) as [E Hc'].
  assert (0 ≤ row p) by (unfold row, tilesWidth; apply Z.div_pos; lia). destruct HW as [_ Hw Hh].
  assert (∃ dx dy, -1 ≤ dx ≤ 1 ∧ -1 ≤ dy ≤ 1 ∧ q = tilesWidth * (row p + dy) + (col p + dx)) as (dx & dy & Hx & Hy & Eq).
  { unfold around, tilesWidth in *. rewrite !elem_of_cons, elem_of_nil in Hq.
    destruct Hq as [->|[->|[->|[->|[->|[->|[->|[->|[]]]]]]]]];
      [exists (-1), 0|exists (-1), (-1)|exists 0, (-1)|exists 1, (-1)|exists 1, 0|exists 1, 1|exists 0, 1|exists (-1), 1]; lia. }
  destruct (col_row_unique q (col p + dx) (row p + dy) Eq) as [Ec Er]; [unfold tilesWidth in *; lia|].
  split_and!; [|rewrite Ec; lia|rewrite Er; lia]. unfold on_tile. rewrite Ec, Er. unfold tilesWidth in *. split_and!; lia.
Qed.

Lemma beside_spec p q : on_tile p → q ∈ beside s p ↔ on_tile q ∧
  ((row q = row p ∧ Z.abs (col q - col p) = 1) ∨ (col q = col p ∧ Z.abs (row q - row p) = 1)).
Proof using HW.
  intros (Hp & Hc & Hr). destruct (col_row p) as [E Hc'].
  assert (0 ≤ row p) as Hr0 by (unfold row, tilesWidth; apply Z.div_pos; lia). destruct HW as [_ Hw Hh].
  unfold beside. fold (col p) (row p).
  rewrite !u32_small by (unfold tilesWidth, tilesHeight in *; lia). unfold tilesWidth, tilesHeight in *.
  assert (∀ (b : bool) a, q ∈ (if b then [] else [a]) ↔ b = false ∧ q = a) as Hif.
  { intros [] a; rewrite ?list_elem_of_singleton, ?elem_of_nil; naive_solver. }
  rewrite !elem_of_app, !Hif, !Z.eqb_neq. split.
  - intros Hq. assert (∃ c r, q = 256 * r + c ∧ 0 ≤ c < mapTileWidth_ s ∧ 0 ≤ r < mapTileHeight_ s ∧
      ((r = row p ∧ Z.abs (c - col p) = 1) ∨ (c = col p ∧ Z.abs (r - row p) = 1))) as (c & r & Eq & Hcc & Hrr & Hcase).
    { destruct Hq as [[? ->]|[[? ->]|[[? ->]|[? ->]]]];
        [exists (col p - 1), (row p)|exists (col p), (row p - 1)|exists (col p + 1), (row p)|exists (col p), (row p + 1)]; lia. }
    destruct (col_row_unique q c r Eq) as [-> ->]; [unfold tilesWidth; lia|]. unfold on_tile.
    destruct (col_row_unique q c r Eq) as [-> ->]; [unfold tilesWidth; lia|]. split; [lia|done].
  - intros [(Hq & Hqc & Hqr) Hcase]. destruct (col_row q) as [Eq Hq']. unfold tilesWidth in *.
    assert (0 ≤ row q) by (unfold row, tilesWidth; apply Z.div_pos; lia). lia.
Qed.

Lemma beside_sym p q : on_tile p → q ∈ beside s p → p ∈ beside s q.
Proof using HW.
  intros Hp Hq. apply beside_spec in Hq as [Hq Hc]; [|done]. apply beside_spec; [done|]. split; [done|]. lia.
Qed.

Lemma around_in_grid p q : on_tile p → inner p → q ∈ around p → 0 ≤ q < Tiles.size.
Proof using HW. intros H1 H2 H3. destruct (around_spec p q H1 H2 H3) as [Hq _]. by apply on_tile_range. Qed.

Lemma tile_cases p : 0 ≤ p < Tiles.size → ∃ t, getAt s p = Ok t ∧ tiles s !! Z.to_nat p = Some t ∧
  (free p ↔ freeTile t = true) ∧ (solid p ↔ freeTile t = false ∧ buildable t = true).
Proof using HW.
  intros Hp. destruct (getAt_ok s p HW Hp) as (t & E & Ht). exists t. split_and!; try done; unfold free, solid, is_tile; split.
  - intros (t' & _ & Ht' & Hf). by simplify_eq.
  - intros Hf. exists t. split_and!; [lia|done|done].
  - intros (t' & _ & Ht' & Hf). by simplify_eq.
  - intros Hf. exists t. split_and!; [lia|done|by destruct Hf..].
Qed.

Lemma free_solid p : free p → solid p → False.
Proof. intros (t & _ & H1 & H2) (t' & _ & H3 & H4 & _). simplify_eq. congruence. Qed.

(** *** The first search *)

Definition boxed (l : layout) (p : Z) : Prop := minTileX l ≤ col p ≤ maxTileX l ∧ minTileY l ≤ row p ≤ maxTileY l.
Definition realized (f : Z → Z) (lo hi : Z) : Prop :=
  (∃ a, group a ∧ f a = lo) ∧ (∃ b, group b ∧ f b = hi) ∧ lo ≤ hi ≤ lo + 11.

(** The state of the search; the neighbours of [cur] are being looked at. *)
Record inv (cur : option Z) (l : layout) : Prop := {
  iv_range : in_range (visited l);
  iv_start : visited l !! i0 = Some vOccupiedVisited;
  iv_occupied : ∀ q, visited l !! q = Some vOccupiedVisited → q = i0 ∨ ¬ free q;
  iv_free : ∀ q, visited l !! q = Some vNeighboringFreeTileNotVisited → fringe q ∧ on_tile q;
  iv_marks : ∀ q, visited l !! q ≠ Some vNeighboringFreeTileVisited;
  iv_open : ∀ q, q ∈ open l → visited l !! q = Some vOccupiedVisited ∧ group q ∧ on_tile q;
  iv_closed : ∀ p, visited l !! p = Some vOccupiedVisited → p = i0 ∨ solid p → p ∉ open l →
    inner p ∧ boxed l p ∧ (cur ≠ Some p → ∀ q, q ∈ around p → is_Some (visited l !! q));
  iv_box : realized col (minTileX l) (maxTileX l) ∧ realized row (minTileY l) (maxTileY l);
  iv_first : match firstEmptyTile l with
             | Some f => visited l !! f = Some vNeighboringFreeTileNotVisited
             | None => ∀ q, visited l !! q ≠ Some vNeighboringFreeTileNotVisited
             end;
  iv_count : neighboringEmptyTileCount l = count (visited l)
}.

Definition left_to_do (l : layout) : nat := length (open l) + (Z.to_nat Tiles.size - base.size (visited l)).

Lemma insert_bound (vis : gmap Z mark) i m : in_range vis → 0 ≤ i < Tiles.size → vis !! i = None →
  in_range (<[i := m]> vis) ∧ base.size (<[i := m]> vis) = S (base.size vis) ∧ (S (base.size vis) ≤ Z.to_nat Tiles.size)%nat.
Proof.
  intros Hr Hi Hn. assert (in_range (<[i := m]> vis)) as Hr'.
  { intros j Hj. destruct (decide (j = i)) as [->|Hne]; [done|]. rewrite lookup_insert_ne in Hj by done. by apply Hr. }
  split; [done|]. pose proof (marks_bound _ Hr') as Hb. rewrite map_size_insert_None in * by done. done.
Qed.

Lemma add_neighbour_inv cur l p q : inv cur l → group p → on_tile p → inner p → q ∈ around p →
  ∃ l', add_neighbour s l q = Ok l' ∧ inv cur l' ∧ is_Some (visited l' !! q) ∧
    (∀ i, is_Some (visited l !! i) → visited l' !! i = visited l !! i) ∧ (left_to_do l' ≤ left_to_do l)%nat ∧ boxed l' = boxed l.
Proof using HW.
  intros Hi Hp Hon Hin Hq. destruct (around_spec p q Hon Hin Hq) as (Honq & _). pose proof (on_tile_range q Honq) as Hqr.
  unfold add_neighbour. replace ((0 <=? q) && (q <? Tiles.size)) with true by (symmetry; apply andb_true_iff; lia). cbn [negb].
  destruct (visited l !! q) as [m|] eqn:Eq; [exists l; split_and!; try done; by eexists|].
  destruct (tile_cases q Hqr) as (t & -> & Ht & Hfree & Hsolid). cbn [rbind].
  assert (q ≠ i0) as Hq0 by (intros ->; rewrite (iv_start _ _ Hi) in Eq; done).
  pose proof Hi as [R S O F M P C B E N].
  set (m := if freeTile t then vNeighboringFreeTileNotVisited else vOccupiedVisited).
  destruct (insert_bound (visited l) q m R Hqr Eq) as (R' & Esz & Hsz).
  assert (∀ i, is_Some (visited l !! i) → <[q := m]> (visited l) !! i = visited l !! i) as Hkeep.
  { intros i Hs. rewrite lookup_insert_ne; [done|]. intros ->. rewrite Eq in Hs. by destruct Hs. }
  assert (∀ i m', visited l !! i = Some m' → <[q := m]> (visited l) !! i = Some m') as Hkeep'.
  { intros i m' Hm'. rewrite Hkeep; [done|by eexists]. }
  assert (∀ i m', <[q := m]> (visited l) !! i = Some m' → (i = q ∧ m' = m) ∨ (i ≠ q ∧ visited l !! i = Some m')) as Hinv.
  { intros i m' Hm'. apply lookup_insert_Some in Hm' as [[-> ->]|[? ?]]; auto. }
  assert (∀ i, is_Some (visited l !! i) → is_Some (<[q := m]> (visited l) !! i)) as Hsome.
  { intros i Hs. by rewrite Hkeep. }
  destruct (freeTile t) eqn:Ef; eexists; (split; [reflexivity|]); subst m.
  - split_and!; cbn [visited]; [|rewrite lookup_insert_eq; by eexists|done| |done].
    2:{ unfold left_to_do. cbn [open visited]. rewrite Esz. lia. }
    split; cbn [visited open firstEmptyTile neighboringEmptyTileCount minTileX maxTileX minTileY maxTileY]; try done.
    + by apply Hkeep'.
    + intros i [[-> ?]|[_ Hm]]%Hinv; [done|by apply O].
    + intros i [[-> _]|[_ Hm]]%Hinv; [|by apply F]. split; [|done]. split_and!; [done|by apply Hfree|by exists p].
    + intros i [[-> ?]|[_ Hm]]%Hinv; [done|by apply M in Hm].
    + intros i Hio. destruct (P i Hio) as (? & ? & ?). split_and!; [by apply Hkeep'|done|done].
    + intros i [[-> ?]|[_ Hm]]%Hinv Hs Hno; [done|]. destruct (C i Hm Hs Hno) as (? & ? & Hall). split_and!; [done|done|].
      intros Hc j Hj. apply Hsome. by apply Hall.
    + destruct (firstEmptyTile l) as [f|]; [by apply Hkeep'|]. apply lookup_insert_eq.
    + rewrite count_new by done. lia.
  - assert (¬ free q) as Hnf by (rewrite Hfree; congruence).
    split_and!; cbn [visited]; [|rewrite lookup_insert_eq; by eexists|done| |done].
    2:{ unfold left_to_do. cbn [open visited]. rewrite Esz. destruct (buildable t); rewrite ?length_app; cbn [length]; lia. }
    split; cbn [visited open firstEmptyTile neighboringEmptyTileCount minTileX maxTileX minTileY maxTileY]; try done.
    + by apply Hkeep'.
    + intros i [[-> ?]|[_ Hm]]%Hinv; [by right|by apply O].
    + intros i [[-> ?]|[_ Hm]]%Hinv; [done|by apply F].
    + intros i [[-> ?]|[_ Hm]]%Hinv; [done|by apply M in Hm].
    + intros i Hio. assert (i ∈ open l ∨ (i = q ∧ buildable t = true)) as [Hio'|[-> Hb]].
      { destruct (buildable t); [|by left]. apply elem_of_app in Hio as [?|?%list_elem_of_singleton]; auto. }
      * destruct (P i Hio') as (? & ? & ?). split_and!; [by apply Hkeep'|done|done].
      * split_and!; [apply lookup_insert_eq| |done]. eapply rtc_r; [exact Hp|]. split_and!; [done|done|by apply Hsolid].
    + intros i Hm Hs Hno. assert (i ∉ open l) as Hno' by (intros ?; apply Hno; destruct (buildable t); [apply elem_of_app; by left|done]).
      apply Hinv in Hm as [[-> _]|[_ Hm]].
      * exfalso. destruct Hs as [?|Hs]; [done|]. apply Hsolid in Hs as [_ Hb]. apply Hno. rewrite Hb. apply elem_of_app. right. by left.
      * destruct (C i Hm Hs Hno') as (? & ? & Hall). split_and!; [done|done|]. intros Hc j Hj. apply Hsome. by apply Hall.
    + destruct (firstEmptyTile l) as [f|]; [by apply Hkeep'|]. intros i [[-> ?]|[_ Hm]]%Hinv; [done|by apply E in Hm].
    + by rewrite count_other.
Qed.

Lemma add_all_inv cur p qs : ∀ l, inv cur l → group p → on_tile p → inner p → (∀ q, q ∈ qs → q ∈ around p) →
  ∃ l', rfold (add_neighbour s) qs l = Ok l' ∧ inv cur l' ∧ (∀ q, q ∈ qs → is_Some (visited l' !! q)) ∧
    (∀ i, is_Some (visited l !! i) → visited l' !! i = visited l !! i) ∧ (left_to_do l' ≤ left_to_do l)%nat.
Proof using HW.
  induction qs as [|q qs IH]; intros l Hi Hp Hon Hin Hqs; cbn [rfold].
  { exists l. split_and!; try done. by intros q ?%elem_of_nil. }
  destruct (add_neighbour_inv cur l p q Hi Hp Hon Hin) as (l1 & -> & H1 & H2 & H3 & H4 & _); [apply Hqs; by left|]. cbn [rbind].
  destruct (IH l1 H1 Hp Hon Hin) as (l2 & -> & K1 & K2 & K3 & K4); [intros; apply Hqs; by right|].
  exists l2. split_and!; [done|done| | |lia].
  - intros q' [->|Hq']%elem_of_cons; [by rewrite K3|by apply K2].
  - intros i Hs. rewrite K3, H3; [done|done|by rewrite H3].
Qed.

Lemma widen_spec lo hi c : lo ≤ hi ≤ lo + 11 →
  match widen lo hi c with
  | Some (lo', hi') => lo' = Z.min lo c ∧ hi' = Z.max hi c ∧ hi' ≤ lo' + 11
  | None => 12 ≤ hi - c ∨ 12 ≤ c - lo
  end.
Proof.
  intros H. unfold widen, tileLimit. destruct (Z.ltb_spec c lo), (Z.ltb_spec hi c); cbn [andb]; try lia;
    repeat match goal with |- context [?a <? ?b] => destruct (Z.ltb_spec a b) end; lia.
Qed.

Lemma realized_widen f lo hi p : group p → realized f lo hi → Z.max hi (f p) ≤ Z.min lo (f p) + 11 →
  realized f (Z.min lo (f p)) (Z.max hi (f p)).
Proof.
  intros Hp ((a & Ha & Ea) & (b & Hb & Eb) & Hle) Hw. split_and!; [| |lia..].
  - destruct (Z.le_ge_cases lo (f p)); [exists a|exists p]; split; try done; lia.
  - destruct (Z.le_ge_cases (f p) hi); [exists b|exists p]; split; try done; lia.
Qed.

Lemma not_compact f lo hi p : (f = col ∨ f = row) → group p → realized f lo hi → 12 ≤ hi - f p ∨ 12 ≤ f p - lo → ¬ compact.
Proof.
  intros Hf Hp ((a & Ha & Ea) & (b & Hb & Eb) & _) Hw [_ Hc]. pose proof (Hc p a Hp Ha) as H1. pose proof (Hc p b Hp Hb) as H2.
  destruct Hf as [-> | ->]; lia.
Qed.

(** A tile is taken from the queue. *)
Lemma pop_inv l p o x0 x1 y0 y1 : inv None l → open l = p :: o → inner p → group p →
  x0 = Z.min (minTileX l) (col p) → x1 = Z.max (maxTileX l) (col p) → x1 ≤ x0 + 11 →
  y0 = Z.min (minTileY l) (row p) → y1 = Z.max (maxTileY l) (row p) → y1 ≤ y0 + 11 →
  inv (Some p) (Layout (visited l) o (firstEmptyTile l) (neighboringEmptyTileCount l) x0 x1 y0 y1).
Proof.
  intros [R S O F M P C B E N] Eo Hin Hp -> -> Hx -> -> Hy.
  split; cbn [visited open firstEmptyTile neighboringEmptyTileCount minTileX maxTileX minTileY maxTileY]; try done.
  - intros q Hq. apply P. rewrite Eo. by right.
  - intros q Hm Hs Hno. destruct (decide (q = p)) as [->|Hne].
    + split_and!; [done| |done]. unfold boxed. cbn. lia.
    + destruct (C q Hm Hs) as (? & Hb & Hall); [rewrite Eo; by intros [?|?]%elem_of_cons|].
      split_and!; [done| |by intros _; apply Hall]. unfold boxed in *. cbn. lia.
  - destruct B as [Bx By]. split; by apply realized_widen.
Qed.

Lemma occupied_search_spec fuel : ∀ l, inv None l → (left_to_do l ≤ fuel)%nat →
  ∃ r, occupied_search fuel s l = Ok r ∧
    match r with Some l' => inv None l' ∧ open l' = [] | None => ¬ compact end.
Proof using HW.
  induction fuel as [|fuel IH]; intros l Hi Hfuel; cbn [occupied_search].
  { destruct (open l) as [|p o] eqn:Eo; [by exists (Some l)|]. unfold left_to_do in Hfuel. rewrite Eo in Hfuel. cbn in Hfuel. lia. }
  destruct (open l) as [|p o] eqn:Eo; [by exists (Some l)|].
  destruct (iv_open _ _ Hi p) as (Hm & Hp & Hon); [rewrite Eo; by left|]. destruct (iv_box _ _ Hi) as [Bx By].
  fold (col p) (row p).
  pose proof (widen_spec (minTileX l) (maxTileX l) (col p) (proj2 (proj2 Bx))) as Wx.
  destruct (widen (minTileX l) (maxTileX l) (col p)) as [[x0 x1]|].
  2:{ exists None. split; [done|]. eapply (not_compact col); eauto. }
  pose proof (widen_spec (minTileY l) (maxTileY l) (row p) (proj2 (proj2 By))) as Wy.
  destruct (widen (minTileY l) (maxTileY l) (row p)) as [[y0 y1]|].
  2:{ exists None. split; [done|]. eapply (not_compact row); eauto. }
  destruct Hon as (Hp0 & Hc & Hr). destruct (col_row p) as [Ep Hcol]. destruct HW as [Hsz Hw Hh].
  assert (0 ≤ row p) by (unfold row, tilesWidth; apply Z.div_pos; lia).
  rewrite !u32_small by (unfold tilesWidth, tilesHeight in *; lia).
  destruct (_ || _) eqn:E1.
  { exists None. split; [done|]. intros [Hin _]. apply Hin in Hp as (? & ? & _). rewrite orb_true_iff, !Z.eqb_eq in E1. lia. }
  destruct (_ || _) eqn:E2 in |- *.
  { exists None. split; [done|]. intros [Hin _]. apply Hin in Hp as (_ & _ & ? & ?). rewrite orb_true_iff, !Z.eqb_eq in E2. lia. }
  rewrite !orb_false_iff, !Z.eqb_neq in E1, E2. assert (inner p) as Hin by (unfold inner; tauto).
  destruct Wx as (Ex0 & Ex1 & Hwx), Wy as (Ey0 & Ey1 & Hwy).
  set (l1 := Layout (visited l) o (firstEmptyTile l) (neighboringEmptyTileCount l) x0 x1 y0 y1).
  assert (inv (Some p) l1) as Hi1 by (by apply pop_inv).
  destruct (add_all_inv (Some p) p (around p) l1 Hi1) as (l2 & -> & Hi2 & Hall & Hkeep & Hm2); [done..|]. cbn [rbind].
  apply IH.
  - destruct Hi2 as [R S O F M P C B E N]. split; try done. intros q Hq Hs Hno. destruct (C q Hq Hs Hno) as (? & ? & Ha).
    split_and!; [done|done|]. intros _. destruct (decide (q = p)) as [->|Hne]; [done|]. apply Ha. congruence.
  - assert (left_to_do l = S (left_to_do l1)) by (unfold left_to_do; rewrite Eo; reflexivity). lia.
Qed.

(** After the search the marks are those of the reference. *)
Lemma final_group l p : inv None l → open l = [] → on_tile i0 → group p →
  visited l !! p = Some vOccupiedVisited ∧ (p = i0 ∨ solid p) ∧ on_tile p.
Proof using HW.
  intros Hi Ho H0 Hp. unfold group in Hp. revert p Hp. refine (rtc_ind_r _ _ _ _).
  - split_and!; [apply (iv_start _ _ Hi)|by left|done].
  - intros a b _ (Hab & Hb0 & Hsb) (Hm & Hs & Hon). destruct (iv_closed _ _ Hi a Hm Hs) as (Hin & _ & Hall); [rewrite Ho; by intros ?%elem_of_nil|].
    destruct (around_spec a b Hon Hin Hab) as [Honb _]. split_and!; [|by right|done].
    destruct (Hall ltac:(done) b Hab) as [[] Hm']; [done| |by apply (iv_marks _ _ Hi) in Hm'].
    exfalso. apply (iv_free _ _ Hi) in Hm' as [(_ & Hf & _) _]. by eapply free_solid.
Qed.

Lemma final_compact l : inv None l → open l = [] → on_tile i0 → compact.
Proof using HW.
  intros Hi Ho H0. assert (∀ p, group p → inner p ∧ boxed l p) as Hall.
  { intros p Hp. destruct (final_group l p Hi Ho H0 Hp) as (Hm & Hs & _).
    destruct (iv_closed _ _ Hi p Hm Hs) as (? & ? & _); [rewrite Ho; by intros ?%elem_of_nil|done]. }
  split; [intros p Hp; by apply Hall|]. destruct (iv_box _ _ Hi) as [(_ & _ & Bx) (_ & _ & By)].
  intros p q [_ Hp]%Hall [_ Hq]%Hall. unfold boxed in *. lia.
Qed.

Lemma final_fringe l q : inv None l → open l = [] → on_tile i0 → fringe q ↔ visited l !! q = Some vNeighboringFreeTileNotVisited.
Proof using HW.
  intros Hi Ho H0. split; [|intros Hq; by apply (iv_free _ _ Hi) in Hq as [? _]]. intros (Hq0 & Hf & p & Hp & Hq).
  destruct (final_group l p Hi Ho H0 Hp) as (Hm & Hs & Hon).
  destruct (iv_closed _ _ Hi p Hm Hs) as (Hin & _ & Hall); [rewrite Ho; by intros ?%elem_of_nil|].
  destruct (Hall ltac:(done) q Hq) as [[] Hm']; [|done|by apply (iv_marks _ _ Hi) in Hm'].
  destruct (iv_occupied _ _ Hi q Hm'); done.
Qed.

(** *** The second search *)

(** From a free tile around the group to the next one. *)
Definition step (a b : Z) : Prop := b ∈ beside s a ∧ fringe b.

(** The state of the second search, which began at [f]; the neighbours of [cur]
    are being looked at. *)
Record finv (f : Z) (cur : option Z) (vis : gmap Z mark) (o : list Z) (n : Z) : Prop := {
  fi_range : in_range vis;
  fi_fringe : ∀ q, fringe q ↔ vis !! q = Some vNeighboringFreeTileNotVisited ∨ vis !! q = Some vNeighboringFreeTileVisited;
  fi_start : vis !! f = Some vNeighboringFreeTileVisited;
  fi_reached : ∀ q, vis !! q = Some vNeighboringFreeTileVisited → rtc step f q;
  fi_open : ∀ q, q ∈ o → vis !! q = Some vNeighboringFreeTileVisited;
  fi_closed : ∀ p, vis !! p = Some vNeighboringFreeTileVisited → p ∉ o → cur ≠ Some p →
    ∀ q, q ∈ beside s p → vis !! q ≠ Some vNeighboringFreeTileNotVisited;
  fi_count : n = count vis
}.

Lemma free_count_pos vis : 0 ≤ count vis.
Proof. unfold count. lia. Qed.

Lemma add_free_inv f p q vis o n : finv f (Some p) vis o n → on_tile p →
  vis !! p = Some vNeighboringFreeTileVisited → q ∈ beside s p →
  ∃ vis' o' n', add_free (vis, o, n) q = Ok (vis', o', n') ∧ finv f (Some p) vis' o' n' ∧
    vis' !! q ≠ Some vNeighboringFreeTileNotVisited ∧
    (∀ i, vis !! i ≠ Some vNeighboringFreeTileNotVisited → vis' !! i = vis !! i) ∧
    (length o' + Z.to_nat n' = length o + Z.to_nat n)%nat.
Proof using HW.
  intros [R F S C O K N] Hp Hm Hq. apply beside_spec in Hq as Hq'; [|done]. destruct Hq' as [Hon _].
  pose proof (on_tile_range q Hon) as Hr. unfold add_free.
  replace ((0 <=? q) && (q <? Tiles.size)) with true by (symmetry; apply andb_true_iff; lia). cbn [negb].
  case_bool_decide as Eq; [|exists vis, o, n; split_and!; done].
  assert (p ≠ q) as Hpq by congruence. assert (f ≠ q) as Hfq by congruence.
  do 3 eexists. split; [reflexivity|]. split_and!.
  - split.
    + intros i Hi. destruct (decide (i = q)) as [->|]; [done|]. rewrite lookup_insert_ne in Hi by done. by apply R.
    + intros i. rewrite F. destruct (decide (i = q)) as [->|]; [rewrite lookup_insert_eq; tauto|by rewrite lookup_insert_ne].
    + by rewrite lookup_insert_ne.
    + intros i Hi. destruct (decide (i = q)) as [->|]; [|rewrite lookup_insert_ne in Hi by done; by apply C].
      eapply rtc_r; [by apply C|]. split; [done|]. apply F. by left.
    + intros i [Hi|Hi%list_elem_of_singleton]%elem_of_app; [|subst; apply lookup_insert_eq].
      destruct (decide (i = q)) as [->|]; [apply lookup_insert_eq|]. rewrite lookup_insert_ne by done. by apply O.
    + intros i Hi Hno Hc j Hj. rewrite elem_of_app, list_elem_of_singleton in Hno.
      destruct (decide (j = q)) as [->|]; [by rewrite lookup_insert_eq|]. rewrite lookup_insert_ne by done.
      rewrite lookup_insert_ne in Hi by (intros ->; tauto). apply (K i Hi); tauto.
    + rewrite count_visit by done. lia.
  - by rewrite lookup_insert_eq.
  - intros i Hi. rewrite lookup_insert_ne; [done|]. congruence.
  - pose proof (count_visit _ _ Eq) as E. pose proof (free_count_pos (<[q:=vNeighboringFreeTileVisited]> vis)).
    rewrite length_app. cbn [length]. lia.
Qed.

Lemma add_all_free f p qs : ∀ vis o n, finv f (Some p) vis o n → on_tile p →
  vis !! p = Some vNeighboringFreeTileVisited → (∀ q, q ∈ qs → q ∈ beside s p) →
  ∃ vis' o' n', rfold add_free qs (vis, o, n) = Ok (vis', o', n') ∧ finv f (Some p) vis' o' n' ∧
    (∀ q, q ∈ qs → vis' !! q ≠ Some vNeighboringFreeTileNotVisited) ∧
    (∀ i, vis !! i ≠ Some vNeighboringFreeTileNotVisited → vis' !! i = vis !! i) ∧
    (length o' + Z.to_nat n' = length o + Z.to_nat n)%nat.
Proof using HW.
  induction qs as [|q qs IH]; intros vis o n Hi Hp Hm Hqs; cbn [rfold].
  { exists vis, o, n. split_and!; try done. by intros q ?%elem_of_nil. }
  destruct (add_free_inv f p q vis o n Hi Hp Hm) as (vis1 & o1 & n1 & -> & H1 & H2 & H3 & H4); [apply Hqs; by left|]. cbn [rbind].
  destruct (IH vis1 o1 n1 H1 Hp) as (vis2 & o2 & n2 & -> & K1 & K2 & K3 & K4);
    [by rewrite H3, Hm by (rewrite Hm; done)|intros; apply Hqs; by right|].
  exists vis2, o2, n2. split_and!; [done|done| | |lia].
  - intros q' [->|Hq']%elem_of_cons; [by rewrite K3|by apply K2].
  - intros i Hs. rewrite K3, H3; [done|done|by rewrite H3].
Qed.

Lemma step_sym f p : (∀ q, fringe q → on_tile q) → fringe f → rtc step f p → rtc step p f.
Proof using HW.
  intros Hon Hf Hp. revert f Hp Hf. refine (rtc_ind_l _ _ _ _).
  - intros _. apply rtc_refl.
  - intros a b (Hab & Hb) _ IH Ha. eapply rtc_r; [by apply IH|]. split; [|done]. apply beside_sym; [by apply Hon|done].
Qed.

Lemma free_search_spec fuel f : (∀ q, fringe q → on_tile q) → ∀ vis o n, finv f None vis o n →
  (length o + Z.to_nat n ≤ fuel)%nat → ∃ m, free_search fuel s (vis, o, n) = Ok m ∧ (m = 0 ↔ connected).
Proof using HW.
  intros Hon. induction fuel as [|fuel IH]; intros vis [|p o] n Hi Hfuel; cbn [free_search length] in *; try lia;
    [| |idtac].
  3:{ pose proof Hi as [R F S C O K N]. assert (vis !! p = Some vNeighboringFreeTileVisited) as Hm by (apply O; by left).
      assert (on_tile p) as Hp by (apply Hon, F; by right).
      assert (finv f (Some p) vis o n) as Hi1.
      { split; try done; [intros q Hq; apply O; by right|]. intros q Hq Hno Hc. apply K; [done| |done].
        intros [->|?]%elem_of_cons; [by apply Hc|done]. }
      destruct (add_all_free f p (beside s p) vis o n Hi1 Hp Hm) as (vis' & o' & n' & -> & H1 & H2 & H3 & H4); [done|]. cbn [rbind].
      apply IH; [|lia]. destruct H1 as [R' F' S' C' O' K' N']. split; try done.
      intros q Hq Hno _. destruct (decide (q = p)) as [->|]; [done|]. apply K'; [done|done|congruence]. }
  all: destruct Hi as [R F S C O K N]; exists n; split; [done|]; rewrite N, free_count_zero; split.
  all: try (intros Hn p q Hp Hq; apply F in Hp as Hp'; apply F in Hq as Hq';
    destruct Hp' as [?%Hn|Hp']; [done|]; destruct Hq' as [?%Hn|Hq']; [done|];
    transitivity f; [apply step_sym; [done| |by apply C]; apply F; by right|by apply C]).
  all: intros Hc i Hi; assert (rtc step f i) as Hr by (apply Hc; apply F; auto);
    assert (vis !! i = Some vNeighboringFreeTileVisited) as Hv; [|congruence]; clear Hi; revert i Hr;
    refine (rtc_ind_r _ _ _ _); [done|]; intros a b _ (Hab & Hb) Ha;
    apply F in Hb as [Hb|Hb]; [|done]; exfalso; apply (K a Ha) in Hb; try done; by intros ?%elem_of_nil.
Qed.

(** *** Both searches *)

Lemma inv_initial : on_tile i0 →
  inv None (Layout {[i0 := vOccupiedVisited]} [i0] None 0 (col i0) (col i0) (row i0) (row i0)).
Proof using HW.
  intros Hon. assert (∀ i m, ({[i0 := vOccupiedVisited]} : gmap Z mark) !! i = Some m → i = i0 ∧ m = vOccupiedVisited) as Hl.
  { intros i m Hm. by apply lookup_singleton_Some in Hm as [-> <-]. }
  assert (group i0) as Hg by apply rtc_refl.
  split; cbn [visited open firstEmptyTile neighboringEmptyTileCount minTileX maxTileX minTileY maxTileY].
  - intros i [m Hm]. apply Hl in Hm as [-> _]. by apply on_tile_range.
  - apply lookup_singleton_eq.
  - intros q [-> _]%Hl. by left.
  - by intros q [_ ?]%Hl.
  - by intros q [_ ?]%Hl.
  - intros q ->%list_elem_of_singleton. split_and!; [apply lookup_singleton_eq|done|done].
  - intros p [-> _]%Hl _ Hno. destruct Hno. by left.
  - split; split_and!; try (by exists i0); lia.
  - by intros q [_ ?]%Hl.
  - symmetry. apply free_count_zero. by intros q [_ ?]%Hl.
Qed.

Lemma finv_initial l f : inv None l → open l = [] → on_tile i0 → firstEmptyTile l = Some f →
  finv f None (<[f := vNeighboringFreeTileVisited]> (visited l)) [f] (neighboringEmptyTileCount l - 1).
Proof using HW.
  intros Hi Ho H0 Hf. pose proof (iv_first _ _ Hi) as Hm. rewrite Hf in Hm.
  split.
  - intros i Hs. destruct (decide (i = f)) as [->|]; [|rewrite lookup_insert_ne in Hs by done; by apply (iv_range _ _ Hi)].
    apply (iv_range _ _ Hi). by eexists.
  - intros q. rewrite (final_fringe l q) by done. destruct (decide (q = f)) as [->|]; [rewrite lookup_insert_eq; tauto|].
    rewrite lookup_insert_ne by done. pose proof (iv_marks _ _ Hi q). tauto.
  - apply lookup_insert_eq.
  - intros q Hq. destruct (decide (q = f)) as [->|]; [apply rtc_refl|]. rewrite lookup_insert_ne in Hq by done.
    by apply (iv_marks _ _ Hi) in Hq.
  - intros q ->%list_elem_of_singleton. apply lookup_insert_eq.
  - intros p Hp Hno _ q _. destruct (decide (p = f)) as [->|]; [destruct Hno; by left|].
    rewrite lookup_insert_ne in Hp by done. by apply (iv_marks _ _ Hi) in Hp.
  - rewrite count_visit by done. by rewrite (iv_count _ _ Hi).
Qed.

Lemma count_bound l : inv None l → (Z.to_nat (count (visited l)) ≤ Z.to_nat Tiles.size)%nat.
Proof.
  intros Hi. transitivity (base.size (visited l)); [|apply marks_bound, (iv_range _ _ Hi)]. unfold count, fresh_marks.
  rewrite Nat2Z.id. apply map_size_filter.
Qed.

(** The two searches, one after the other. *)
Lemma searches_spec : on_tile i0 → ∃ b, (
  let? r := occupied_search layoutFuel s (Layout {[i0 := vOccupiedVisited]} [i0] None 0 (col i0) (col i0) (row i0) (row i0)) in
  match r with
  | None => Ok false
  | Some l =>
      match firstEmptyTile l with
      | None => Ok true
      | Some f =>
          let? n := free_search layoutFuel s
                      (<[f := vNeighboringFreeTileVisited]> (visited l), [f], neighboringEmptyTileCount l - 1) in
          Ok (n =? 0)
      end
  end) = Ok b ∧ (b = true ↔ compact ∧ connected).
Proof using HW.
  intros Hon. destruct (occupied_search_spec layoutFuel _ (inv_initial Hon)) as (r & -> & Hr).
  { unfold left_to_do, layoutFuel. cbn [open visited length]. rewrite map_size_singleton. lia. }
  cbn [rbind]. destruct r as [l|]; [|exists false; split; [done|]; split; [done|tauto]].
  destruct Hr as [Hi Ho]. pose proof (final_compact l Hi Ho Hon) as Hc.
  destruct (firstEmptyTile l) as [f|] eqn:Ef.
  - destruct (free_search_spec layoutFuel f) with (vis := <[f := vNeighboringFreeTileVisited]> (visited l)) (o := [f])
      (n := neighboringEmptyTileCount l - 1) as (m & -> & Hm).
    + intros q Hq. apply (final_fringe l) in Hq; [|done..]. by apply (iv_free _ _ Hi) in Hq as [_ ?].
    + by apply finv_initial.
    + pose proof (count_bound l Hi). rewrite (iv_count _ _ Hi). unfold layoutFuel. cbn [length]. lia.
    + exists (m =? 0). split; [done|]. rewrite Z.eqb_eq, Hm. tauto.
  - exists true. split; [done|]. split; [|done]. intros _. split; [done|]. intros p q Hp.
    pose proof (iv_first _ _ Hi) as Hn. rewrite Ef in Hn. apply (final_fringe l) in Hp; [|done..]. by apply Hn in Hp.
Qed.

End layout.

(** The check after a building has been marked reserved: on every map and for
    every place on it, the two searches come to an end and accept the place
    exactly when the group of occupied tiles it joins fits into a square of
    twelve tiles and keeps off the border of the map, and from each free tile
    around the group one gets to every other one along such tiles. *)
Lemma layout_decides s pos : WF s → 0 ≤ Vec2.x pos → 0 ≤ Vec2.y pos → on_map s (Vec2.x pos / 4) (Vec2.y pos / 4) →
  let i0 := tile_index (Vec2.x pos / 4) (Vec2.y pos / 4) in
  ∃ b, buildingLayoutValid s pos = Ok b ∧ (b = true ↔ compact s i0 ∧ connected s i0).
Proof.
  intros HW Hx Hy Hm i0. pose proof (tile_index_range _ _ _ HW Hm) as Hr. fold i0 in Hr.
  pose proof HW as [Hsz Hw Hh]. unfold on_map, tilesWidth, tilesHeight, Tiles.size in *.
  destruct (col_row_unique i0 (Vec2.x pos / 4) (Vec2.y pos / 4)) as [Ec Er]; [done|unfold tilesWidth; lia|].
  unfold buildingLayoutValid, XYWalktilesPerBuildtile. rewrite !u32_div4 by (Z.div_mod_to_equations; lia). unfold tilesWidth.
  rewrite u32_small by (Z.div_mod_to_equations; lia). fold (tile_index (Vec2.x pos / 4) (Vec2.y pos / 4)).
  change (256 * (Vec2.y pos / 4) + Vec2.x pos / 4) with i0. rewrite Hsz.
  match goal with |- context [?n <=? i0] => assert ((n <=? i0) = false) as -> by (apply Z.leb_gt; lia) end. rewrite <-Ec, <-Er.
  apply searches_spec; [done|]. unfold on_tile. rewrite Ec, Er. lia.
Qed.

End PlacementLayout.
