(* ===== verification/PlacementSearch.v ===== *)
(** * Trying a place, and the search for the best one

    [canPlaceBuildingAtTile] reserves the room of a building and its addon, looks
    at the layout that would result and gives the room back; [findBuildLocation]
    does so for the tiles it reaches from the seeds, in breadth-first order. *)

From S2P Require Import Prelude Floats Geometry BuildTypes Units UnitsInfo GameMechanics Upc Algorithms Tiles.
From S2P Require Import Placement PlacementRules PlacementLayout.

Module PlacementSearch.
Import Tiles Placement PlacementRules PlacementLayout.

Section search.
Context {table : BuildType.Table} {attributes : UnitsInfo.Attributes} {facts : Facts} (v : view).

(** ** Trying a place *)

(** A building of type [ty] can stand at walk tile [px], [py]. *)
Definition can_stand (s : state) (ty : BuildType) (px py : Z) : Prop :=
  fits s ty px py ∧ ∀ p t, p ∈ area ty px py → tiles s !! Z.to_nat p = Some t → suitable v ty false t.

Lemma canBuildAt_stand s ty px py : WF s → in_int px → in_int py → sane_size ty → known v s →
  ∃ b, canBuildAt v s ty (Vec2.Pos px py) false = Ok b ∧ (b = true ↔ can_stand s ty px py).
Proof. intros HW Hx Hy Hsz Hk. by apply canBuildAt_ok. Qed.

(** The room of a building and its addon. *)
Definition room (ty : BuildType) (px py : Z) : list Z :=
  area ty px py ++ match getAddon ty with Some a => area a (addonX ty px) (addonY ty a py) | None => [] end.

(** The tiles while the place is tried. *)
Definition taken (s : state) (ty : BuildType) (px py : Z) : state :=
  set_tiles s (upd (set_reserved true) (room ty px py) (tiles s)).

(** The place of a tile is good. *)
Record placeable (prob : chance) (s : state) (ty : BuildType) (px py : Z) : Prop := {
  pl_stand : can_stand s ty px py;
  pl_chance : ∃ p, prob px py = Ok p ∧ feqb p f32_0 = false;
  pl_addon : ∀ a, getAddon ty = Some a → can_stand s a (addonX ty px) (addonY ty a py);
  pl_compact : compact (taken s ty px py) (tile_index (px / 4) (py / 4));
  pl_connected : connected (taken s ty px py) (tile_index (px / 4) (py / 4))
}.

Lemma stand_free s ty px py : can_stand s ty px py → all_reserved false s (area ty px py).
Proof.
  intros [_ Hall] p t Hp Ht. pose proof (su_reserved _ _ _ _ (Hall p t Hp Ht)) as Hr.
  destruct (reservedAsUnbuildable t); [|done]. by discriminate Hr.
Qed.

(** Nobody has reserved the area of a building, and it is on the map. *)
Definition free_at (s : state) (ty : BuildType) (px py : Z) : Prop := fits s ty px py ∧ all_reserved false s (area ty px py).

Lemma stand_free_at s ty px py : can_stand s ty px py → free_at s ty px py.
Proof. intros H. split; [apply H|by apply stand_free]. Qed.

(** The types of buildings and their addons have dimensions. *)
Definition sane (ty : BuildType) : Prop := sane_size ty ∧ ∀ a, getAddon ty = Some a → sane_size a.

Lemma nodup_area ty px py : sane_size ty → NoDup (area ty px py).
Proof. intros [Hw Hh]. apply NoDup_cells. unfold tilesWidth. lia. Qed.

(** The addon stands to the right of its building. *)
Lemma addon_beside s ty a px py p : WF s → sane_size ty → sane_size a → fits s ty px py → fits s a (addonX ty px) (addonY ty a py) →
  p ∈ area ty px py → p ∉ area a (addonX ty px) (addonY ty a py).
Proof.
  intros [_ Hw Hh] [Hs1 Hs2] [Ha1 Ha2] (Hx & Hy & F1 & F2) (Ax & Ay & F3 & F4).
  unfold area. rewrite !elem_of_cells. intros (r & c & Hr & Hc & ->) (r' & c' & Hr' & Hc' & E).
  revert Ax Ay F3 F4 E. unfold addonX, addonY, tile_index, XYWalktilesPerBuildtile, tileWidth, tileHeight, tilesWidth, tilesHeight in *.
  replace (px + 4 * UnitsInfo.tileWidth ty) with (px + UnitsInfo.tileWidth ty * 4) by lia.
  replace (py + 4 * (UnitsInfo.tileHeight ty - UnitsInfo.tileHeight a)) with (py + (UnitsInfo.tileHeight ty - UnitsInfo.tileHeight a) * 4) by lia.
  rewrite !Z.div_add by lia. intros. assert (0 ≤ px / 4) by (apply Z.div_pos; lia). lia.
Qed.

(** Reserving a free place and giving a reserved place back. *)
Lemma thrown_reserve b s ty px py : WF s → in_int px → in_int py → sane_size ty → fits s ty px py →
  all_reserved (negb b) s (area ty px py) →
  thrown (reserveAreaImpl b s ty px py) = Ok (set_tiles s (upd (set_reserved b) (area ty px py) (tiles s))).
Proof.
  intros HW Hx Hy Hsz Hf Hall. destruct (reserveAreaImpl_ok b s ty px py HW Hx Hy Hsz) as [H1 _].
  by rewrite (H1 Hf Hall).
Qed.

Lemma fits_upd s f l ty px py : fits (set_tiles s (upd f l (tiles s))) ty px py ↔ fits s ty px py.
Proof. done. Qed.

Lemma reserved_after b s l : WF s → NoDup l → in_grid l → all_reserved b (set_tiles s (upd (set_reserved b) l (tiles s))) l.
Proof.
  intros HW Hn Hg p t Hp. rewrite reserved_upd by (done || by apply Hg). rewrite decide_True by done.
  destruct (tiles s !! Z.to_nat p); [|done]. by intros [= <-].
Qed.

Lemma reserved_apart b c s l l' : WF s → NoDup l → in_grid l → in_grid l' → (∀ p, p ∈ l' → p ∉ l) →
  all_reserved b s l' → all_reserved b (set_tiles s (upd (set_reserved c) l (tiles s))) l'.
Proof.
  intros HW Hn Hg Hg' Hd Hall p t Hp. rewrite reserved_upd by (done || by apply Hg'). rewrite decide_False by auto.
  by apply Hall.
Qed.

Lemma stand_on_map s ty px py : sane_size ty → fits s ty px py → on_map s (px / 4) (py / 4).
Proof. intros [? ?] (? & ? & ? & ?). unfold on_map. assert (0 ≤ px / 4 ∧ 0 ≤ py / 4) by (split; apply Z.div_pos; lia). lia. Qed.

(** What is left of the function once the buildings can stand. *)
Lemma layout_taken s ty px py : WF s → sane_size ty → fits s ty px py →
  ∃ b, buildingLayoutValid (taken s ty px py) (Vec2.Pos px py) = Ok b ∧
    (b = true ↔ compact (taken s ty px py) (tile_index (px / 4) (py / 4)) ∧ connected (taken s ty px py) (tile_index (px / 4) (py / 4))).
Proof.
  intros HW Hsz Hf. pose proof (stand_on_map s ty px py Hsz Hf). destruct Hf as (? & ? & _).
  apply layout_decides; [by apply wf_upd|done..].
Qed.

Lemma try_plain s ty px py : WF s → in_int px → in_int py → sane_size ty → getAddon ty = None → free_at s ty px py →
  (let? s := thrown (reserveArea s ty px py) in
   let? ok := buildingLayoutValid s (Vec2.Pos px py) in
   let? s := thrown (unreserveArea s ty px py) in Ok (s, ok)) =
  (let? ok := buildingLayoutValid (taken s ty px py) (Vec2.Pos px py) in Ok (s, ok)).
Proof.
  intros HW Hx Hy Hsz Ha [Hf Hfree].
  unfold reserveArea. rewrite thrown_reserve by done. cbn [rbind].
  assert (taken s ty px py = set_tiles s (upd (set_reserved true) (area ty px py) (tiles s))) as <-.
  { unfold taken, room. rewrite Ha. by rewrite app_nil_r. }
  destruct (buildingLayoutValid _ _); cbn [rbind]; try done. unfold unreserveArea.
  assert (room ty px py = area ty px py) as Er by (unfold room; by rewrite Ha, app_nil_r).
  assert (NoDup (area ty px py)) by (by apply nodup_area). assert (in_grid (area ty px py)) by (by eapply area_grid).
  rewrite thrown_reserve; [|by apply wf_upd|done..|].
  - unfold taken. rewrite set_tiles_twice, Er. cbn [rbind tiles set_tiles]. by rewrite (upd_undo true), set_tiles_same.
  - unfold taken. rewrite Er. by apply reserved_after.
Qed.

Lemma wf_tiles s ts : WF s → length ts = length (tiles s) → WF (set_tiles s ts).
Proof. intros [] E. constructor; cbn; [by rewrite E|done|done]. Qed.

(** Taking two areas that do not meet and giving them back in the same order. *)
Lemma two_areas l1 l2 s : WF s → NoDup l1 → NoDup l2 → in_grid l1 → in_grid l2 → (∀ p, p ∈ l1 → p ∉ l2) →
  all_reserved false s l1 → all_reserved false s l2 →
  upd (set_reserved false) l2 (upd (set_reserved false) l1 (upd (set_reserved true) (l1 ++ l2) (tiles s))) = tiles s.
Proof.
  intros HW Hn1 Hn2 Hg1 Hg2 Hd Hf1 Hf2. assert (NoDup (l1 ++ l2)) as Hn by (by apply NoDup_app).
  assert (in_grid (l1 ++ l2)) as Hg by (intros p [?|?]%elem_of_app; auto). apply list_eq. intros i. rewrite !lookup_upd by done.
  assert (tiles s !! i = tiles s !! Z.to_nat (Z.of_nat i)) as E by (by rewrite Nat2Z.id).
  assert (∀ l, all_reserved false s l → Z.of_nat i ∈ l → set_reserved false <$> (set_reserved true <$> tiles s !! i) = tiles s !! i) as Hback.
  { intros l Hl Hi. destruct (tiles s !! i) as [t|] eqn:Et; [|done]. cbn [fmap option_fmap option_map]. f_equal.
    apply (set_reserved_undo true). by apply (Hl (Z.of_nat i)). }
  destruct (decide (Z.of_nat i ∈ l1)) as [H1|H1].
  - rewrite decide_False by auto. rewrite decide_True by (apply elem_of_app; auto). by apply (Hback l1).
  - destruct (decide (Z.of_nat i ∈ l2)) as [H2|H2].
    + rewrite decide_True by (apply elem_of_app; auto). by apply (Hback l2).
    + rewrite decide_False; [done|]. by intros [?|?]%elem_of_app.
Qed.

Lemma try_addon s ty a px py : WF s → in_int px → in_int py → sane_size ty → sane_size a → getAddon ty = Some a →
  in_int (addonX ty px) → in_int (addonY ty a py) → free_at s ty px py → free_at s a (addonX ty px) (addonY ty a py) →
  (let? s := thrown (reserveArea s ty px py) in
   let? s := thrown (reserveArea s a (addonX ty px) (addonY ty a py)) in
   let? ok := buildingLayoutValid s (Vec2.Pos px py) in
   let? s := thrown (unreserveArea s ty px py) in
   let? s := thrown (unreserveArea s a (addonX ty px) (addonY ty a py)) in Ok (s, ok)) =
  (let? ok := buildingLayoutValid (taken s ty px py) (Vec2.Pos px py) in Ok (s, ok)).
Proof.
  intros HW Hx Hy Hsz Hsa Ha Hax Hay [Hf1 Hfree1] [Hf2 Hfree2].
  pose proof (addon_beside s ty a px py) as Hd. specialize (λ p, Hd p HW Hsz Hsa Hf1 Hf2).
  assert (room ty px py = area ty px py ++ area a (addonX ty px) (addonY ty a py)) as Er by (unfold room; by rewrite Ha).
  unfold taken. rewrite Er. revert Hf2 Hfree2 Hax Hay Hd. generalize (addonX ty px) as ax, (addonY ty a py) as ay. intros ax ay Hf2 Hfree2 Hax Hay Hd.
  pose proof (nodup_area ty px py Hsz) as Hn1. pose proof (nodup_area a ax ay Hsa) as Hn2.
  pose proof (area_grid _ _ _ _ HW Hf1) as Hg1. pose proof (area_grid _ _ _ _ HW Hf2) as Hg2.
  assert (∀ p, p ∈ area a ax ay → p ∉ area ty px py) as Hd' by (intros p H1 H2; by apply (Hd p H2)).
  unfold reserveArea, unreserveArea. rewrite thrown_reserve by done. cbn [rbind].
  rewrite thrown_reserve; [|by apply wf_upd|done..|by apply reserved_apart]. cbn [rbind]. rewrite set_tiles_twice. cbn [tiles set_tiles].
  rewrite <-upd_app. destruct (buildingLayoutValid _ _); cbn [rbind]; try done.
  rewrite thrown_reserve; [|by apply wf_upd|done..|]. 2:{ rewrite upd_app, <-(set_tiles_twice s (upd (set_reserved true) (area ty px py) (tiles s))).
    apply reserved_apart; [by apply wf_upd|done..|by apply reserved_after]. }
  cbn [rbind]. rewrite set_tiles_twice. cbn [tiles set_tiles].
  rewrite thrown_reserve; [|apply wf_tiles; [done|by rewrite !length_upd]|done..|].
  - cbn [rbind]. rewrite set_tiles_twice. cbn [tiles set_tiles]. by rewrite two_areas, set_tiles_same.
  - intros p t Hp. cbn [tiles set_tiles]. rewrite upd_app. rewrite !lookup_upd by done.
    assert (Z.of_nat (Z.to_nat p) = p) as -> by (apply Z2Nat.id; by apply Hg2).
    rewrite decide_False by auto. rewrite decide_True by done. rewrite fmap_Some. by intros (t' & _ & ->).
Qed.

Lemma addon_int s ty a px py : WF s → sane ty → getAddon ty = Some a → fits s ty px py →
  in_int (addonX ty px) ∧ in_int (addonY ty a py).
Proof.
  intros [_ Hw Hh] [[Hs1 Hs2] Hsa] Ea (F1 & F2 & F3 & F4). destruct (Hsa a Ea).
  unfold in_int, addonX, addonY, XYWalktilesPerBuildtile, tileWidth, tileHeight, tilesWidth, tilesHeight in *.
  Z.div_mod_to_equations. lia.
Qed.

(** Trying a place always gives an answer and leaves no trace. *)
Lemma canPlace_ok prob s ty t : WF s → in_int (x t) → in_int (y t) → sane ty → known v s → (∃ p, prob (x t) (y t) = Ok p) →
  ∃ b, canPlaceBuildingAtTile v prob s ty t = Ok (s, b) ∧ (b = true ↔ placeable prob s ty (x t) (y t)).
Proof.
  unfold canPlaceBuildingAtTile. generalize (x t) as px, (y t) as py. intros px py HW Hx Hy [Hsz Hsane] Hk [p Hp].
  destruct (canBuildAt_stand s ty px py HW Hx Hy Hsz Hk) as (b & -> & Hb). cbn [rbind].
  destruct b; cbn [negb]; [|exists false; split; [done|]; split; [done|]; intros [H1 _ _ _ _]; by apply Hb in H1].
  assert (can_stand s ty px py) as Hst by (by apply Hb). rewrite Hp. cbn [rbind].
  destruct (feqb p f32_0) eqn:Ep.
  { exists false. split; [done|]. split; [done|]. intros [_ (q & Hq & Eq) _ _ _]. congruence. }
  destruct (layout_taken s ty px py HW Hsz (proj1 Hst)) as (ok & Eok & Hok).
  destruct (getAddon ty) as [a|] eqn:Ea.
  - destruct (addon_int s ty a px py HW) as [Hax Hay]; [split; [done|by rewrite Ea]|done|apply Hst|].
    destruct (canBuildAt_stand s a _ _ HW Hax Hay (Hsane a eq_refl) Hk) as (b & -> & Hb'). cbn [rbind].
    destruct b; cbn [negb].
    + rewrite try_addon, Eok by (auto; apply stand_free_at; auto; by apply Hb'). exists ok. split; [done|]. rewrite Hok. split.
      * intros [H1 H2]. split; try done; [by exists p|]. intros a' Ea'. assert (a' = a) as -> by congruence. by apply Hb'.
      * by intros [].
    + exists false. split; [done|]. split; [done|]. intros [_ _ H3 _ _]. assert (can_stand s a (addonX ty px) (addonY ty a py)) as Hc by auto. by apply Hb' in Hc.
  - rewrite try_plain, Eok by (done || by apply stand_free_at). exists ok. split; [done|]. rewrite Hok. split.
    + intros [H1 H2]. split; try done; [by exists p|]. congruence.
    + by intros [].
Qed.

(** ** The tiles that are tried *)

(** [entirelyWalkable] of the tile at an index. *)
Definition walk (s : state) (q : Z) : bool := match tiles s !! Z.to_nat q with Some t => entirelyWalkable t | None => false end.

Definition expand (s : state) (vo : gset Z * list Z) (q : Z) : gset Z * list Z :=
  if bool_decide (q ∈ vo.1) then vo else (vo.1 ∪ {[q]}, if walk s q then vo.2 ++ [q] else vo.2).

(** The first [n] tiles of the breadth-first search. *)
Fixpoint explored (n : nat) (s : state) (vis : gset Z) (o : list Z) : list Z :=
  match o, n with
  | [], _ | _, O => []
  | i :: o, S n => i :: (let vo := foldl (expand s) (vis, o) (beside s i) in explored n s vo.1 vo.2)
  end.

Definition side_step (s : state) (a b : Z) : Prop := b ∈ beside s a ∧ walk s b = true.

Lemma expand_all s l : ∀ vis o, let vo := foldl (expand s) (vis, o) l in
  (∀ q, q ∈ vo.1 ↔ q ∈ vis ∨ q ∈ l) ∧ (∀ q, q ∈ vo.2 ↔ q ∈ o ∨ (q ∈ l ∧ (q ∉ vis) ∧ walk s q = true)).
Proof.
  induction l as [|r l IH]; intros vis o; cbn [foldl].
  { split; intros q; cbn; rewrite elem_of_nil; tauto. }
  assert (expand s (vis, o) r = if bool_decide (r ∈ vis) then (vis, o) else (vis ∪ {[r]}, if walk s r then o ++ [r] else o)) as -> by done.
  case_bool_decide as Hr; [|set (vis' := vis ∪ {[r]}); set (o' := if walk s r then o ++ [r] else o)].
  - destruct (IH vis o) as [H1 H2]. cbn zeta in H1, H2. split; intros q; rewrite ?H1, ?H2, elem_of_cons; [|naive_solver].
    split; [tauto|]. intros [?|[->|?]]; auto.
  - destruct (IH vis' o') as [H1 H2]. cbn zeta in H1, H2. split; intros q; rewrite ?H1, ?H2, elem_of_cons; subst vis' o'.
    + rewrite elem_of_union, elem_of_singleton. tauto.
    + rewrite elem_of_union, elem_of_singleton. destruct (decide (q = r)) as [->|Hne].
      * destruct (walk s r) eqn:Ew; rewrite ?elem_of_app, ?list_elem_of_singleton; naive_solver.
      * destruct (walk s r); rewrite ?elem_of_app, ?list_elem_of_singleton; tauto.
Qed.

(** Each tile that is tried is reached from the queue. *)
Lemma explored_sound n s : ∀ vis o i, i ∈ explored n s vis o → ∃ j, j ∈ o ∧ rtc (side_step s) j i.
Proof.
  induction n as [|n IH]; intros vis [|j o] i; cbn [explored]; try by intros ?%elem_of_nil.
  destruct (expand_all s (beside s j) vis o) as [_ H2]. cbn zeta in H2. intros [->|Hi]%elem_of_cons.
  - exists j. split; [by left|apply rtc_refl].
  - apply IH in Hi as (k & Hk & Hki). apply H2 in Hk as [Hk|(Hk & _ & Hw)].
    + exists k. split; [by right|done].
    + exists j. split; [by left|]. eapply rtc_l; [|exact Hki]. done.
Qed.

(** When the queue runs empty, the neighbours of every tile were seen. *)
Lemma explored_closed n s : ∀ vis o, (length (explored n s vis o) < n)%nat →
  (∀ i, i ∈ o → i ∈ explored n s vis o) ∧
  ∀ i j, i ∈ explored n s vis o → side_step s i j → j ∈ explored n s vis o ∨ j ∈ vis.
Proof.
  induction n as [|n IH]; intros vis [|k o]; cbn [explored length]; intros Hl; try lia.
  { split; [by intros i ?%elem_of_nil|]. by intros i j ?%elem_of_nil. }
  destruct (expand_all s (beside s k) vis o) as [H1 H2]. cbn zeta in H1, H2.
  set (vo := foldl (expand s) (vis, o) (beside s k)) in *. destruct (IH vo.1 vo.2) as [I1 I2]; [lia|]. split.
  - intros i [->|Hi]%elem_of_cons; [by left|right]. apply I1, H2. by left.
  - intros i j Hi [Hb Hw]. rewrite elem_of_cons.
    assert (j ∈ beside s k → j ∈ vis ∨ j ∈ explored n s vo.1 vo.2) as Hnew.
    { intros Hk. destruct (decide (j ∈ vis)); [by left|right]. apply I1, H2. auto. }
    apply elem_of_cons in Hi as [->|Hi]; [destruct (Hnew Hb); auto|].
    destruct (I2 i j Hi) as [?|[?|Hk]%H1]; [done|auto|auto|]. destruct (Hnew Hk); auto.
Qed.

Lemma explored_complete n s starts : (length (explored n s (list_to_set starts) starts) < n)%nat →
  ∀ i j, j ∈ starts → rtc (side_step s) j i → i ∈ explored n s (list_to_set starts) starts.
Proof.
  intros Hl. destruct (explored_closed n s _ _ Hl) as [H1 H2]. intros i j Hj Hi. revert i Hi. refine (rtc_ind_r _ _ _ _).
  - by apply H1.
  - intros a b _ Hab Ha. destruct (H2 a b Ha Hab) as [?|Hb%elem_of_list_to_set]; [done|by apply H1].
Qed.

Lemma steps_on_map s i j : WF s → on_tile s i → rtc (side_step s) i j → on_tile s j.
Proof.
  intros HW Hi Hj. revert j Hj. refine (rtc_ind_r _ _ _ _); [done|]. intros a b _ [Hb _] Ha. by apply (beside_spec s HW a b) in Hb as [? _].
Qed.

(** ** The search *)

(** Each tile of the map has its own coordinates. *)
Definition located (s : state) : Prop :=
  ∀ p t, on_tile s p → tiles s !! Z.to_nat p = Some t → x t = 4 * col p ∧ y t = 4 * row p.

Context (prob : chance) (s : state) (ty : BuildType).
Context (HW : WF s) (HL : located s) (HK : known v s) (HT : sane ty) (HP : ∀ px py, ∃ p, prob px py = Ok p).

(** The building can be placed on the tile at an index. *)
Definition place_ok (p : Z) : Prop := placeable prob s ty (4 * col p) (4 * row p).

(** What the code finds out about a tile. *)
Definition good (p : Z) : bool :=
  match (let? t := getAt s p in canPlaceBuildingAtTile v prob s ty t) with Ok r => r.2 | _ => false end.

Lemma tile_at p : on_tile s p → ∃ t, getAt s p = Ok t ∧ x t = 4 * col p ∧ y t = 4 * row p.
Proof using HL HW.
  intros Hp. pose proof (on_tile_range s HW p Hp) as Hr. destruct (getAt_ok s p HW Hr) as (t & Et & Ht).
  exists t. destruct (HL p t Hp Ht). auto.
Qed.

Lemma tile_int p t : on_tile s p → x t = 4 * col p → y t = 4 * row p → in_int (x t) ∧ in_int (y t).
Proof using HW.
  intros (Hp & Hc & Hr) -> ->. destruct (col_row p) as [_ Hcol]. destruct HW as [_ Hw Hh].
  assert (0 ≤ row p) by (unfold row, tilesWidth; apply Z.div_pos; lia). unfold in_int, tilesWidth, tilesHeight in *. lia.
Qed.

Lemma try_tile p : on_tile s p → ∃ t, getAt s p = Ok t ∧ canPlaceBuildingAtTile v prob s ty t = Ok (s, good p).
Proof using HW HL HK HT HP.
  intros Hp. destruct (tile_at p Hp) as (t & Et & Ex & Ey). destruct (tile_int p t Hp Ex Ey).
  destruct (canPlace_ok prob s ty t) as (b & Eb & _); [done..|]. exists t. unfold good. rewrite Et. cbn [rbind]. by rewrite Eb.
Qed.

Lemma good_spec p : on_tile s p → good p = true ↔ place_ok p.
Proof using HW HL HK HT HP.
  intros Hp. destruct (tile_at p Hp) as (t & Et & Ex & Ey). destruct (tile_int p t Hp Ex Ey).
  destruct (canPlace_ok prob s ty t) as (b & Eb & Hb); [done..|]. unfold good, place_ok. rewrite Et. cbn [rbind].
  rewrite Eb, <-Ex, <-Ey. exact Hb.
Qed.

Lemma add_open_all l : ∀ vis o, (∀ q, q ∈ l → on_tile s q) → rfold (add_open s) l (vis, o) = Ok (foldl (expand s) (vis, o) l).
Proof using HW.
  induction l as [|q l IH]; intros vis o Hl; cbn [rfold foldl]; [done|].
  pose proof (on_tile_range s HW q (Hl q ltac:(by left))) as Hr. unfold add_open at 1, expand at 2. cbn [fst snd].
  replace ((0 <=? q) && (q <? Tiles.size)) with true by (symmetry; apply andb_true_iff; lia). cbn [negb].
  case_bool_decide; [apply IH; intros; apply Hl; by right|].
  destruct (getAt_ok s q HW Hr) as (t & Et & Ht). rewrite Et. unfold walk. rewrite Ht. cbn [rbind].
  apply IH. intros; apply Hl; by right.
Qed.

Lemma search_ok n : ∀ vis o valid, (∀ i, i ∈ o → on_tile s i) → (length valid < maxValidLocations)%nat →
  Placement.search v n prob ty s vis o valid = Ok (s, take maxValidLocations (valid ++ filter (λ i, good i = true) (explored n s vis o))).
Proof using HW HL HK HT HP.
  induction n as [|n IH]; intros vis [|i o] valid Ho Hv; cbn [Placement.search explored];
    try (by rewrite filter_nil, app_nil_r, take_ge by lia).
  destruct (try_tile i) as (t & -> & Ec); [apply Ho; by left|]. cbn [rbind]. rewrite Ec. cbn [rbind].
  assert (∀ q, q ∈ beside s i → on_tile s q) as Hb.
  { intros q Hq. by destruct (proj1 (beside_spec s HW i q (Ho i ltac:(by left))) Hq). }
  assert (∀ valid, (length valid < maxValidLocations)%nat →
    (let? r := rfold (add_open s) (beside s i) (vis, o) in Placement.search v n prob ty s r.1 r.2 valid) =
    Ok (s, take maxValidLocations (valid ++ filter (λ i, good i = true) (let vo := foldl (expand s) (vis, o) (beside s i) in explored n s vo.1 vo.2)))) as Hrest.
  { intros val Hval. rewrite add_open_all by done. cbn [rbind]. apply IH; [|done]. intros q Hq.
    apply (expand_all s (beside s i) vis o) in Hq as [Hq|[Hq _]]; [apply Ho; by right|by apply Hb]. }
  rewrite filter_cons. destruct (good i); cbn [andb].
  - rewrite decide_True by done. destruct (Nat.leb_spec maxValidLocations (length (valid ++ [i]))) as [Hle|Hlt].
    + assert (∀ l, take maxValidLocations (valid ++ i :: l) = valid ++ [i]) as ->; [|done]. intros l.
      rewrite cons_middle, (assoc_L (++)), take_app_le by done. rewrite take_ge; [done|].
      rewrite length_app in *. cbn [length] in *. lia.
    + rewrite Hrest by done. by rewrite <-(assoc_L (++)).
  - rewrite decide_False by done. by apply Hrest.
Qed.

#[local] Opaque explored.

(** *** The seeds *)

(** A seed left of or above the map is skipped; the others are on the map. *)
Definition seed_tiles (seeds : list Position) : list Z :=
  omap (λ p, if (Vec2.x p <? 0) || (Vec2.y p <? 0) then None else Some (tile_index (Vec2.x p / 4) (Vec2.y p / 4))) seeds.
Definition seeds_on_map (seeds : list Position) : Prop :=
  ∀ p, p ∈ seeds → 0 ≤ Vec2.x p → 0 ≤ Vec2.y p → on_map s (Vec2.x p / 4) (Vec2.y p / 4).

Lemma index_on_tile tx ty' : on_map s tx ty' → on_tile s (tile_index tx ty').
Proof using HW.
  intros [Hx Hy]. destruct HW as [_ Hw _]. destruct (col_row_unique (tile_index tx ty') tx ty' eq_refl) as [Ec Er].
  - unfold tilesWidth in *. lia.
  - unfold on_tile. rewrite Ec, Er. unfold tile_index, tilesWidth. lia.
Qed.

Lemma seed_all seeds : seeds_on_map seeds → ∀ vis o, rfold (seed s) seeds (vis, o) =
  Ok (vis ∪ list_to_set (seed_tiles seeds), o ++ seed_tiles seeds).
Proof using HW.
  induction seeds as [|p seeds IH]; intros Hs vis o; cbn [rfold seed_tiles omap list_omap].
  { rewrite app_nil_r. cbn [list_to_set]. by rewrite union_empty_r_L. }
  assert (seeds_on_map seeds) as Hs' by (intros q Hq; apply Hs; by right). unfold seed at 1.
  destruct (_ || _) eqn:E; cbn [rbind]; [by apply IH|]. rewrite orb_false_iff, !Z.ltb_ge in E. destruct E as [Ex Ey].
  pose proof (Hs p ltac:(by left) Ex Ey) as Hm. pose proof (tile_index_range s _ _ HW Hm) as Hr.
  pose proof HW as [Hsz Hw Hh]. unfold XYWalktilesPerBuildtile. unfold on_map, Tiles.size, tilesWidth, tilesHeight in *.
  rewrite !u32_div4 by (Z.div_mod_to_equations; lia). rewrite u32_small by (Z.div_mod_to_equations; lia).
  change (256 * (Vec2.y p / 4) + Vec2.x p / 4) with (tile_index (Vec2.x p / 4) (Vec2.y p / 4)).
  assert ((tile_index (Vec2.x p / 4) (Vec2.y p / 4) <? Z.of_nat (length (tiles s))) = true) as -> by (apply Z.ltb_lt; lia).
  rewrite IH by done. cbn [list_to_set]. by rewrite <-!(assoc_L _).
Qed.

Lemma seeds_on_tile seeds i : seeds_on_map seeds → i ∈ seed_tiles seeds → on_tile s i.
Proof using HW.
  intros Hs (p & Hp & E)%list_elem_of_omap. destruct (_ || _) eqn:Eb; [done|]. injection E as <-.
  rewrite orb_false_iff, !Z.ltb_ge in Eb. apply index_on_tile. apply Hs; tauto.
Qed.

(** The tiles that are tried for these seeds. *)
Definition tried (seeds : list Position) : list Z := explored maxIterations s (list_to_set (seed_tiles seeds)) (seed_tiles seeds).

Lemma tried_on_tile seeds i : seeds_on_map seeds → i ∈ tried seeds → on_tile s i.
Proof using HW.
  intros Hs (j & Hj & Hji)%explored_sound. eapply steps_on_map; [done| |exact Hji]. by eapply seeds_on_tile.
Qed.

(** *** The best of the places *)

Context (score : state → BuildType → tile → res float64) (HS : ∀ t, ∃ d, score s ty t = Ok d).

Definition score_at (p : Z) : float64 :=
  match (let? t := getAt s p in score s ty t) with Ok d => d | _ => f64_0 end.

Lemma scores_ok l : (∀ i, i ∈ l → on_tile s i) → ∀ acc, ∃ ts,
  rfold (λ acc i, let? t := getAt s i in let? sc := score s ty t in Ok (acc ++ [(t, sc)])) l acc = Ok (acc ++ ts) ∧
  Forall2 (λ i z, getAt s i = Ok z.1 ∧ z.2 = score_at i) l ts.
Proof using HW HS HL.
  induction l as [|i l IH]; intros Hl acc; cbn [rfold]; [exists []; by rewrite app_nil_r|].
  destruct (tile_at i) as (t & Et & _); [apply Hl; by left|]. rewrite Et. cbn [rbind]. destruct (HS t) as [d Ed]. rewrite Ed. cbn [rbind].
  destruct (IH (λ j Hj, Hl j (list_elem_of_further _ _ _ Hj)) (acc ++ [(t, d)])) as (ts & -> & Hts).
  exists ((t, d) :: ts). rewrite <-(assoc_L (++)). split; [done|]. constructor; [|done]. cbn. split; [done|].
  unfold score_at. rewrite Et. cbn [rbind]. by rewrite Ed.
Qed.

Lemma best_place l : (∀ i, i ∈ l → on_tile s i) → ∃ ts,
  rfold (λ acc i, let? t := getAt s i in let? sc := score s ty t in Ok (acc ++ [(t, sc)])) l [] = Ok ts ∧
  match Algorithms.getBestScore fltb snd (λ _, false) (λ _, false) ts with
  | Some z => ∃ i, i ∈ l ∧ x z.1 = 4 * col i ∧ y z.1 = 4 * row i ∧ ∀ j, j ∈ l → fltb (score_at j) (score_at i) = false
  | None => l = []
  end.
Proof using HW HS HL.
  intros Hl. destruct (scores_ok l Hl []) as (ts & -> & Hts). exists ts. split; [done|].
  pose proof (Algorithms.getBestScore_spec (A := tile * float64) fltb snd (λ _, false) (λ _, false) fltb_trans fltb_irrefl ltac:(done) ts) as Hb.
  destruct (Algorithms.getBestScore _ _ _ _ ts) as [z|].
  - destruct Hb as (Hz & _ & Hu). apply list_elem_of_lookup in Hz as [k Hk].
    destruct (Forall2_lookup_r _ _ _ _ _ Hts Hk) as (i & Hi & Et & Es). apply list_elem_of_lookup_2 in Hi as Hi'.
    destruct (tile_at i) as (t & Et' & Ex & Ey); [by apply Hl|]. assert (z.1 = t) as -> by congruence.
    exists i. split_and!; [done..|]. intros j Hj. apply list_elem_of_lookup in Hj as [m Hm].
    destruct (Forall2_lookup_l _ _ _ _ _ Hts Hm) as (z' & Hz' & _ & Es'). rewrite <-Es, <-Es'.
    apply (Hu z'); [by eapply list_elem_of_lookup_2|done].
  - destruct l as [|i l]; [done|]. destruct (Forall2_cons_inv_l _ _ _ _ Hts) as (z & ts' & _ & _ & ->). by specialize (Hb z ltac:(by left)).
Qed.

Lemma found_spec seeds : seeds_on_map seeds → ∃ found,
  Placement.search v maxIterations prob ty s (list_to_set (seed_tiles seeds)) (seed_tiles seeds) [] = Ok (s, found) ∧
  (∀ i, i ∈ found → i ∈ tried seeds ∧ place_ok i) ∧
  ((length found < maxValidLocations)%nat → ∀ i, i ∈ tried seeds → place_ok i → i ∈ found).
Proof using HW HL HK HT HP.
  intros Hs. rewrite search_ok by (try (intros i; by apply seeds_on_tile); cbn [length]; unfold maxValidLocations; lia).
  change (explored maxIterations s (list_to_set (seed_tiles seeds)) (seed_tiles seeds)) with (tried seeds). eexists. split; [done|]. cbn [app]. split.
  - intros i Hi%elem_of_take. destruct Hi as (k & Hi & _). apply list_elem_of_lookup_2, list_elem_of_filter in Hi as [Hg Hi].
    split; [done|]. apply good_spec; [by eapply tried_on_tile|done].
  - intros Hlen i Hi Hp. rewrite take_ge; [|rewrite length_take in Hlen; lia].
    apply list_elem_of_filter. split; [|done]. apply good_spec; [by eapply tried_on_tile|done].
Qed.

(** The whole search, and what is known of the places it found. *)
Lemma findBuildLocation_found seeds : seeds_on_map seeds → 1 < mapTileWidth_ s → 1 < mapTileHeight_ s →
  ∃ pos found, findBuildLocation v score s seeds ty prob = Ok (s, pos) ∧
    (∀ i, i ∈ found → i ∈ tried seeds ∧ place_ok i) ∧
    ((length found < maxValidLocations)%nat → ∀ i, i ∈ tried seeds → place_ok i → i ∈ found) ∧
    (found = [] → pos = Vec2.Pos (-1) (-1)) ∧
    (found ≠ [] → ∃ i, i ∈ found ∧ pos = Vec2.Pos (4 * col i) (4 * row i) ∧ ∀ j, j ∈ found → fltb (score_at j) (score_at i) = false).
Proof using HW HL HK HT HP HS.
  intros Hs Hw Hh. destruct (found_spec seeds Hs) as (found & Ef & F1 & F2).
  destruct (best_place found) as (ts & Ets & Hbest); [intros i Hi; eapply tried_on_tile; [done..|by apply F1]|].
  unfold findBuildLocation. replace ((mapTileWidth_ s <=? 1) || (mapTileHeight_ s <=? 1)) with false by (symmetry; apply orb_false_iff; lia).
  rewrite seed_all by done. cbn [rbind fst snd app]. rewrite (left_id_L ∅ (∪)), Ef. cbn [rbind]. rewrite Ets. cbn [rbind].
  destruct (Algorithms.getBestScore _ _ _ _ ts) as [[t d]|].
  - destruct Hbest as (i & Hi & Ex & Ey & Hu). exists (Vec2.Pos (x t) (y t)), found. cbn [fst] in Ex, Ey. rewrite Ex, Ey.
    split_and!; [done..|intros ->; by apply not_elem_of_nil in Hi|]. intros _. by exists i.
  - subst found. by exists (Vec2.Pos (-1) (-1)), [].
Qed.

End search.

Section claims.
Context {table : BuildType.Table} {attributes : UnitsInfo.Attributes} {facts : Facts} (v : view).

(** C20 [canBuildAt] always answers on a well-formed map, and says yes exactly
    when the area of the building is on the map, away from its last row and
    column, and each tile of it is suitable: buildable, not reserved, without a
    building (or with a geyser, for a refinery), with the creep or the power the
    type asks for, not needed for gathering or for a resource depot, and not
    blocked. *)
Theorem canBuildAt_spec s ty px py ignoreReserved : WF s → in_int px → in_int py → sane_size ty → known v s →
  ∃ b, canBuildAt v s ty (Vec2.Pos px py) ignoreReserved = Ok b ∧
    (b = true ↔ fits s ty px py ∧
       ∀ p t, p ∈ area ty px py → tiles s !! Z.to_nat p = Some t → suitable v ty ignoreReserved t).
Proof. intros HW Hx Hy Hsz Hk. by apply canBuildAt_ok. Qed.

(** C19 The two searches of [buildingLayoutValid] come to an end for each place on
    the map, and accept it exactly when the group of occupied tiles it joins fits
    into a square of twelve tiles and keeps off the border of the map, and from
    each free tile around that group one gets to every other one along such
    tiles: nothing is walled in. *)
Theorem layout_valid_spec s px py : WF s → 0 ≤ px → 0 ≤ py → on_map s (px / 4) (py / 4) →
  ∃ b, buildingLayoutValid s (Vec2.Pos px py) = Ok b ∧
    (b = true ↔ compact s (tile_index (px / 4) (py / 4)) ∧ connected s (tile_index (px / 4) (py / 4))).
Proof. intros HW Hx Hy Hm. exact (layout_decides s (Vec2.Pos px py) HW Hx Hy Hm). Qed.

(** Trying a place reserves the room of the building and of its addon, asks
    for the layout, and gives the room back: no call throws, the tiles are what
    they were, and the answer is whether building and addon can stand there, the
    UPC allows the position, and the layout with both of them is compact and
    connected. *)
Theorem canPlace_spec prob s ty t : WF s → in_int (x t) → in_int (y t) → sane ty → known v s → (∃ p, prob (x t) (y t) = Ok p) →
  ∃ b, canPlaceBuildingAtTile v prob s ty t = Ok (s, b) ∧ (b = true ↔ placeable v prob s ty (x t) (y t)).
Proof. apply canPlace_ok. Qed.

(** C18 [findBuildLocation] comes to an end and leaves the tiles as they were.  The
    tiles it tries can be reached from a seed over walkable tiles, and these are
    all of them when there are fewer than 1024.  It collects places where the
    building can be placed, all among the tiles it tries when there are fewer
    than 64, and returns one whose score no other one beats; [(-1, -1)] only when
    there is none. *)
Theorem findBuildLocation_spec prob s ty score seeds :
  WF s → located s → known v s → sane ty → (∀ px py, ∃ p, prob px py = Ok p) → (∀ t, ∃ d, score s ty t = Ok d) →
  seeds_on_map s seeds → 1 < mapTileWidth_ s → 1 < mapTileHeight_ s →
  ∃ pos found, findBuildLocation v score s seeds ty prob = Ok (s, pos) ∧
    (∀ i, i ∈ tried s seeds → ∃ j, j ∈ seed_tiles seeds ∧ rtc (side_step s) j i) ∧
    ((length (tried s seeds) < 1024)%nat → ∀ i j, j ∈ seed_tiles seeds → rtc (side_step s) j i → i ∈ tried s seeds) ∧
    (∀ i, i ∈ found → i ∈ tried s seeds ∧ place_ok v prob s ty i) ∧
    ((length found < 64)%nat → ∀ i, i ∈ tried s seeds → place_ok v prob s ty i → i ∈ found) ∧
    (found = [] → pos = Vec2.Pos (-1) (-1)) ∧
    (found ≠ [] → ∃ i, i ∈ found ∧ pos = Vec2.Pos (4 * col i) (4 * row i) ∧
       ∀ j, j ∈ found → fltb (score_at s ty score j) (score_at s ty score i) = false).
Proof.
  intros HW HL HK HT HP HS Hs Hw Hh.
  destruct (findBuildLocation_found v prob s ty HW HL HK HT HP score HS seeds Hs Hw Hh) as (pos & found & E & F1 & F2 & F3 & F4).
  exists pos, found. split; [done|]. split; [apply explored_sound|]. split; [apply explored_complete|]. done.
Qed.

End claims.
End PlacementSearch.
