(* ===== verification/PlacementUpc.v ===== *)
(** * Positions for building UPCs ([src/modules/builderhelper.cpp])

    How places are scored, where refineries and resource depots go, from where a
    search starts, and the position a UPC for a building gets. *)

From Stdlib Require Import SpecFloat.
From S2P Require Import Prelude Floats Geometry BuildTypes Units GameMechanics Upc Algorithms UnitsInfo Tiles.
From S2P Require Import Placement PlacementRules PlacementLayout PlacementSearch.

Module PlacementUpc.
Import Tiles Placement PlacementRules PlacementLayout PlacementSearch.

Section upc.
Context {table : BuildType.Table} {attributes : UnitsInfo.Attributes} {facts : Facts} (v : view).

Definition kdInfty : float64 := S754_infinity false.

(** ** The score of a place *)

(** My building on a tile. *)
Definition my_building (t : tile) : res (option (Z * Unit)) :=
  match building t with
  | Some i => let? u := unit v i in Ok (if Unit.isMine u then Some (i, u) else None)
  | None => Ok None
  end.

(** A tile next to the place: how many were occupied, and the score.

    [src/src/modules/builderhelper.cpp:1038-1068] scoreBuildingAtTile *)
Definition visit (s : state) (ty : BuildType) (t : tile) (acc : Z * float64) (pos : Z * Z) : res (Z * float64) :=
  let '(n, r) := acc in
  match tryGetTile s pos.1 pos.2 with
  | None => Ok (n, f64_sub r f64_1)
  | Some i =>
      let? nt := getAt s i in
      let? mine := my_building nt in
      let '(n, r) := if bool_decide (mine ≠ None) || reservedAsUnbuildable nt then (n + 1, f64_sub r f64_1) else (n, r) in
      match mine with
      | None => Ok (n, r)
      | Some (b, u) =>
          let r := if eqb (canProduce ty) (canProduce (Unit.type u)) then r else f64_add r (f64_lit 3 2) in
          let r := if (buildX v b =? x t) && (tileWidth ty =? tileWidth (Unit.type u)) then f64_sub r (f64_of_Z 1000) else r in
          let r := if (buildY v b =? y t) && (tileHeight ty =? tileHeight (Unit.type u)) then f64_sub r (f64_of_Z 1000) else r in
          Ok (n, r)
      end
  end.

(** The tiles above and below, and at the sides.

    [src/src/modules/builderhelper.cpp:1070-1089] scoreBuildingAtTile *)
Definition rim (ty : BuildType) (t : tile) : list (Z * Z) :=
  let w := tileWidth ty in
  let h := tileHeight ty in
  let k := XYWalktilesPerBuildtile in
  concat (map (λ i, [(x t + k * i, y t - k); (x t + k * i, y t + k * h)]) (range 0 w)) ++
  concat (map (λ i, [(x t - k, y t + k * i); (x t + k * w, y t + k * i)]) (range 0 h)).

(** [src/src/modules/builderhelper.cpp:1029-1107] scoreBuildingAtTile *)
Definition scoreBuildingAtTile (s : state) (ty : BuildType) (t : tile) : res float64 :=
  let? nr := rfold (visit s ty t) (rim ty t) (0, f64_0) in
  let '(n, r) := nr in
  let r := if bool_decide (ty = BuildType.Zerg_Hatchery) then f64_add r (f64_of_Z (n * 4)) else r in
  Ok (if reservedForGathering t && isDefence ty then f64_add r (f64_of_Z 50000) else r).

(** ** Refineries and resource depots *)

(** [src/src/modules/builderhelper.cpp:28-28] kMaxGeyserToRefineryDistance *)
Definition kMaxGeyserToRefineryDistance : Z := 4 * 12.

(** [src/src/modules/builderhelper.cpp:464-472] findGeyserForRefinery *)
Definition nearest_depot (u : Unit) : res float64 :=
  rfold (λ best i,
    let? depot := unit v i in
    if Unit.completed depot then
      let d := f64_of_f32 (GameMechanics.distance (Unit.x depot) (Unit.y depot) (Unit.x u) (Unit.y u)) in
      Ok (if fltb d best then d else best)
    else Ok best) (myResourceDepots v) kdInfty.

(** [src/src/modules/builderhelper.cpp:448-478] findGeyserForRefinery *)
Definition geyser_score (s : state) (ty : BuildType) (prob : chance) (i : Z) : res float64 :=
  let? u := unit v i in
  if negb (bool_decide (Unit.type u = BuildType.Resource_Vespene_Geyser)) then Ok kdInfty else
  let? can := canBuildAt v s ty (Vec2.Pos (buildX v i) (buildY v i)) false in
  if negb can then Ok kdInfty else
  let? p := prob (buildX v i) (buildY v i) in
  if feqb p f32_0 then Ok kdInfty else
  let baseIdx := myClosestBaseIdx v (Unit.pos u) in
  let? d := nearest_depot u in
  if fleb (f64_of_Z kMaxGeyserToRefineryDistance) d then Ok kdInfty else
  Ok (f64_mul d (f64_of_Z (baseIdx + 1))).

(** [src/src/modules/builderhelper.cpp:442-481] findGeyserForRefinery *)
Definition findGeyserForRefinery (s : state) (ty : BuildType) (prob : chance) : res UnitPtr :=
  let? scored := rfold (λ acc i, let? d := geyser_score s ty prob i in Ok (acc ++ [(i, d)])) (resourceUnits v) [] in
  Ok (fst <$> Algorithms.getBestScore fltb snd (λ d, feqb d kdInfty) (λ _, false) scored).

Definition XYPixelsPerWalktile : Z := 8.

(** [src/src/modules/builderhelper.cpp:483-493] findRefineryLocation *)
Definition findRefineryLocation (s : state) (ty : BuildType) (prob : chance) : res Position :=
  let? r := findGeyserForRefinery s ty prob in
  match r with
  | Some i =>
      let? u := unit v i in
      Ok (Vec2.Pos (Z.quot (pixel_x v i - UnitsInfo.dimensionLeft (Unit.type u)) XYPixelsPerWalktile)
                   (Z.quot (pixel_y v i - UnitsInfo.dimensionUp (Unit.type u)) XYPixelsPerWalktile))
  | None => Ok (Vec2.Pos (-1) (-1))
  end.

(** [src/src/modules/builderhelper.cpp:559-581] findResourceDepotLocation *)
Fixpoint findResourceDepotLocation (s : state) (ty : BuildType) (candidates : list Position) : res Position :=
  match candidates with
  | [] => Ok (Vec2.Pos (-1) (-1))
  | c :: candidates =>
      let loc := Vec2.Pos (Vec2.x c - Z.quot (UnitsInfo.dimensionLeft ty) XYPixelsPerWalktile)
                          (Vec2.y c - Z.quot (UnitsInfo.dimensionUp ty) XYPixelsPerWalktile) in
      let? can := canBuildAt v s ty loc false in
      if can then Ok loc else findResourceDepotLocation s ty candidates
  end.

(** [list::sort] with the comparison of the lengths keeps the order of entries
    of the same length. *)
Fixpoint insert_by_length (p : Position * Z) (l : list (Position * Z)) : list (Position * Z) :=
  match l with
  | [] => [p]
  | q :: l => if p.2 <=? q.2 then p :: q :: l else q :: insert_by_length p l
  end.

(** The bases of the map, with the centre in pixels and the length of the path
    from my start location, [None] when that is not known.

    [src/src/modules/builderhelper.cpp:596-628] candidateExpansionResourceDepotLocationsDistances *)
Definition candidateExpansionResourceDepotLocationsDistances (bases : option (list (Position * Z))) : list (Position * Z) :=
  match bases with
  | None => []
  | Some l =>
      foldr insert_by_length []
        (map (λ b, (Vec2.Pos (Z.quot (Vec2.x b.1) XYPixelsPerWalktile) (Z.quot (Vec2.y b.1) XYPixelsPerWalktile), b.2))
          (filter (λ b, 0 ≤ b.2) l))
  end.

(** The results are written from the begin of an empty vector on.

    [src/src/modules/builderhelper.cpp:583-594] candidateExpansionResourceDepotLocations *)
Definition candidateExpansionResourceDepotLocations (bases : option (list (Position * Z))) : res (list Position) :=
  match candidateExpansionResourceDepotLocationsDistances bases with
  | [] => Ok []
  | _ => Undefined
  end.

(** ** Seeds *)

(** [src/src/modules/builderhelper.cpp:637-645] buildLocationSeeds *)
Definition upc_seeds (u : Upc.t) : list Position :=
  match Upc.position u with
  | Upc.PPosition p => [Vec2.scale p (Upc.scale u)]
  | Upc.PArea a => baseLocations v a
  | _ => []
  end.

(** [src/src/modules/builderhelper.cpp:647-651] buildLocationSeeds *)
Definition builder_seeds (prob : chance) (builder : UnitPtr) : res (list Position) :=
  match builder with
  | None => Ok []
  | Some i =>
      let? u := unit v i in
      let? p := prob (Unit.x u) (Unit.y u) in
      Ok (if fltb f32_0 p then [Vec2.Pos (Unit.x u) (Unit.y u)] else [])
  end.

(** [src/src/modules/builderhelper.cpp:653-661] buildLocationSeeds *)
Fixpoint depot_seeds (prob : chance) (few : bool) (depots : list Z) (acc : list Position) : res (list Position) :=
  match depots with
  | [] => Ok acc
  | i :: depots =>
      let? u := unit v i in
      let? p := prob (Unit.x u) (Unit.y u) in
      if fltb f32_0 p then
        let acc := acc ++ [Vec2.Pos (Unit.x u) (Unit.y u)] in
        if few then Ok acc else depot_seeds prob few depots acc
      else depot_seeds prob few depots acc
  end.

(** [src/src/modules/builderhelper.cpp:630-668] buildLocationSeeds *)
Definition buildLocationSeeds (u : Upc.t) (builder : UnitPtr) : res (list Position) :=
  let prob := positionProb v u in
  let? b := builder_seeds prob builder in
  let few := (Z.of_nat (length (myResourceDepots v)) <=? 3) || (Z.of_nat (length (myWorkers v)) <? 30) in
  let? seeds := depot_seeds prob few (myResourceDepots v) (upc_seeds u ++ b) in
  match seeds with
  | [] => rfold (λ acc i, let? w := unit v i in Ok (acc ++ [Vec2.Pos (Unit.x w) (Unit.y w)])) (myWorkers v) []
  | _ => Ok seeds
  end.

(** ** The position of a UPC *)

(** A place close to [upcPos] in its area; a position without an area has a null
    pointer in its place, which is read.

    [src/src/modules/builderhelper.cpp:107-118] upcWithPositionForBuilding *)
Definition close_by (s : state) (ty : BuildType) (u : Upc.t) (upcPos : Position) : res (state * Position) :=
  let prob : chance :=
    match areaAt v upcPos with
    | Some a => positionProb v (Upc.UPCTuple (Upc.unit u) (Upc.PArea a) (Upc.command u) (Upc.state u) (Upc.scale u))
    | None => λ _ _, Undefined
    end in
  findBuildLocation v (λ _ _ t, Ok (f64_of_f32 (GameMechanics.distance (x t) (y t) (Vec2.x upcPos) (Vec2.y upcPos))))
    s [upcPos] ty prob.

(** [src/src/modules/builderhelper.cpp:91-130] upcWithPositionForBuilding *)
Definition choose_position (s : state) (u : Upc.t) (ty : BuildType) : res (state * Position) :=
  let? pp := Upc.positionArgMax (units v) u in
  let '(upcPos, prob) := pp in
  if fltb (f32_lit 99 100) prob then
    let? can := canBuildAt v s ty upcPos false in
    if can then Ok (s, upcPos) else close_by s ty u upcPos
  else if BuildType.isRefinery ty then
    let? pos := findRefineryLocation s ty (positionProb v u) in Ok (s, pos)
  else
    let? seeds := buildLocationSeeds u None in
    findBuildLocation v scoreBuildingAtTile s seeds ty (positionProb v u).

(** [src/src/modules/builderhelper.cpp:87-146] upcWithPositionForBuilding *)
Definition upcWithPositionForBuilding (s : state) (u : Upc.t) (ty : BuildType) : res (state * option Upc.t) :=
  let? r := choose_position s u ty in
  let '(s, pos) := r in
  if (Vec2.x pos =? -1) && (Vec2.y pos =? -1) then Ok (s, None)
  else Ok (s, Some (Upc.UPCTuple (Upc.unit u) (Upc.PPosition pos) (Upc.command u) (Upc.state u) 1)).

(** ** Each function gives an answer *)

Lemma tile_found s px py i : WF s → tryGetTile s px py = Some i → ∃ t, getAt s i = Ok t ∧ tiles s !! Z.to_nat i = Some t.
Proof.
  intros HW E. apply getAt_ok; [done|]. pose proof HW as [_ Hw Hh]. unfold tryGetTile, XYWalktilesPerBuildtile in E.
  destruct (_ || _) eqn:Eb; [done|]. injection E as <-. rewrite !Z.geb_leb, orb_false_iff, !Z.leb_gt in Eb.
  pose proof (u32_range px). pose proof (u32_range py). unfold Tiles.size, tilesWidth, tilesHeight in *.
  assert (0 ≤ u32 px / 4) by (apply Z.div_pos; lia). assert (0 ≤ u32 py / 4) by (apply Z.div_pos; lia).
  rewrite u32_small by lia. lia.
Qed.

Lemma visit_total s ty t acc p : WF s → known v s → ∃ r, visit s ty t acc p = Ok r.
Proof.
  intros HW HK. destruct acc as [n r]. unfold visit. destruct (tryGetTile s p.1 p.2) as [i|] eqn:E; [|by eexists].
  destruct (tile_found s _ _ _ HW E) as (nt & -> & Hnt). cbn [rbind].
  assert (∃ m, my_building nt = Ok m) as [m ->].
  { unfold my_building. destruct (building nt) as [b|] eqn:Eb; [|by eexists].
    destruct (kn_buildings _ _ HK _ _ _ Hnt Eb) as [u Hu]. unfold unit. rewrite Hu. cbn. by eexists. }
  cbn [rbind]. destruct (_ || _), m as [[b u]|]; by eexists.
Qed.

Lemma score_total s ty t : WF s → known v s → ∃ d, scoreBuildingAtTile s ty t = Ok d.
Proof.
  intros HW HK. unfold scoreBuildingAtTile.
  assert (∀ l acc, ∃ r, rfold (visit s ty t) l acc = Ok r) as Hall.
  { induction l as [|p l IH]; intros acc; cbn [rfold]; [by eexists|].
    destruct (visit_total s ty t acc p HW HK) as [a ->]. apply IH. }
  destruct (Hall (rim ty t) (0, f64_0)) as [[n r] ->]. by eexists.
Qed.

(** *** The units and seeds of a request *)

Definition spot_on_map (s : state) (px py : Z) : Prop := 0 ≤ px → 0 ≤ py → on_map s (px / 4) (py / 4).

(** The lists of units hold units of the game, which are on the map. *)
Record known_lists (s : state) : Prop := {
  kl_units : ∀ i, i ∈ resourceUnits v ++ myResourceDepots v ++ myWorkers v → ∃ u, units v !! i = Some u ∧ spot_on_map s (Unit.x u) (Unit.y u);
  kl_bases : ∀ a p, p ∈ baseLocations v a → spot_on_map s (Vec2.x p) (Vec2.y p);
  (** A geyser's build tile is its left upper corner. *)
  kl_corner : ∀ i u, units v !! i = Some u → Unit.type u = BuildType.Resource_Vespene_Geyser →
    in_int (buildX v i) ∧ in_int (buildY v i) ∧
    buildX v i = Z.quot (pixel_x v i - UnitsInfo.dimensionLeft (Unit.type u)) XYPixelsPerWalktile ∧
    buildY v i = Z.quot (pixel_y v i - UnitsInfo.dimensionUp (Unit.type u)) XYPixelsPerWalktile
}.

Lemma kl_unit s i (l : list Z) : known_lists s → l ∈ [resourceUnits v; myResourceDepots v; myWorkers v] → i ∈ l →
  ∃ u, unit v i = Ok u ∧ units v !! i = Some u ∧ spot_on_map s (Unit.x u) (Unit.y u).
Proof.
  intros HL Hl Hi. destruct (kl_units _ HL i) as (u & Hu & Hm).
  { rewrite !elem_of_app. rewrite !elem_of_cons, elem_of_nil in Hl. naive_solver. }
  exists u. unfold unit. rewrite Hu. done.
Qed.

Definition total (prob : chance) : Prop := ∀ px py, ∃ p, prob px py = Ok p.

Lemma nearest_depot_total s u : known_lists s → ∃ d, nearest_depot u = Ok d.
Proof.
  intros HL. unfold nearest_depot. assert (∀ i, i ∈ myResourceDepots v → ∃ u, unit v i = Ok u) as Hd.
  { intros i Hi. destruct (kl_unit s i (myResourceDepots v) HL) as (w & Hw & _); [set_solver|done|by exists w]. }
  revert Hd. generalize (myResourceDepots v) as l, kdInfty as best. induction l as [|i l IH]; intros best Hd; cbn [rfold]; [by eexists|].
  destruct (Hd i ltac:(by left)) as [w ->]. cbn [rbind]. destruct (Unit.completed w); cbn [rbind]; apply IH; intros; apply Hd; by right.
Qed.

(** The geyser that is chosen has room for a refinery. *)
Lemma geyser_score_ok s ty prob i : WF s → known v s → known_lists s → sane ty → total prob → i ∈ resourceUnits v →
  ∃ d, geyser_score s ty prob i = Ok d ∧
    (feqb d kdInfty = false → ∃ u, units v !! i = Some u ∧ Unit.type u = BuildType.Resource_Vespene_Geyser ∧
      can_stand v s ty (buildX v i) (buildY v i)).
Proof.
  intros HW HK HL [Hsz _] HP Hi. destruct (kl_unit s i (resourceUnits v) HL) as (u & Eu & Hu & _); [set_solver|done|].
  unfold geyser_score. rewrite Eu. cbn [rbind]. case_bool_decide as Ety; cbn [negb]; [|by exists kdInfty].
  destruct (kl_corner _ HL i u Hu Ety) as (Hx & Hy & _).
  destruct (canBuildAt_stand v s ty _ _ HW Hx Hy Hsz HK) as (b & -> & Hb). cbn [rbind].
  destruct b; cbn [negb]; [|by exists kdInfty]. destruct (HP (buildX v i) (buildY v i)) as [p ->]. cbn [rbind].
  destruct (feqb p f32_0); [by exists kdInfty|]. destruct (nearest_depot_total s u HL) as [d ->]. cbn [rbind].
  destruct (fleb _ d); [by exists kdInfty|]. eexists. split; [done|]. intros _. exists u. split_and!; [done|done|]. by apply Hb.
Qed.

Lemma refinery_ok s ty prob : WF s → known v s → known_lists s → sane ty → total prob →
  ∃ pos, findRefineryLocation s ty prob = Ok pos ∧ (pos = Vec2.Pos (-1) (-1) ∨ can_stand v s ty (Vec2.x pos) (Vec2.y pos)).
Proof.
  intros HW HK HL HT HP. unfold findRefineryLocation, findGeyserForRefinery.
  assert (∀ l acc, (∀ i, i ∈ l → i ∈ resourceUnits v) → ∃ ts,
    rfold (λ acc i, let? d := geyser_score s ty prob i in Ok (acc ++ [(i, d)])) l acc = Ok (acc ++ ts) ∧
    ∀ z, z ∈ ts → z.1 ∈ l ∧ geyser_score s ty prob z.1 = Ok z.2) as Hall.
  { induction l as [|i l IH]; intros acc Hl; cbn [rfold]; [exists []; rewrite app_nil_r; split; [done|]; by intros z ?%elem_of_nil|].
    destruct (geyser_score_ok s ty prob i) as (d & Ed & _); [done..|apply Hl; by left|]. rewrite Ed. cbn [rbind].
    destruct (IH (acc ++ [(i, d)])) as (ts & -> & Hts); [intros; apply Hl; by right|].
    exists ((i, d) :: ts). rewrite <-(assoc_L (++)). split; [done|]. intros z [->|Hz]%elem_of_cons; [split; [by left|done]|].
    destruct (Hts z Hz). split; [by right|done]. }
  destruct (Hall (resourceUnits v) [] ltac:(done)) as (ts & -> & Hts). cbn [rbind app].
  pose proof (Algorithms.getBestScore_spec (A := Z * float64) fltb snd (λ d, feqb d kdInfty) (λ _, false) fltb_trans fltb_irrefl ltac:(done) ts) as Hb.
  destruct (Algorithms.getBestScore _ _ _ _ ts) as [[i d]|]; cbn [fmap option_fmap option_map rbind fst]; [|eexists; split; [done|by left]].
  destruct Hb as (Hz & Hinv & _). destruct (Hts _ Hz) as [Hi Ed]. cbn [fst snd] in *.
  destruct (geyser_score_ok s ty prob i) as (d' & Ed' & Hd'); [done..|]. assert (d' = d) as -> by congruence.
  destruct (Hd' Hinv) as (u & Hu & Ety & Hst). unfold unit. rewrite Hu. cbn [of_option rbind]. eexists. split; [done|]. right. cbn [Vec2.x Vec2.y].
  destruct (kl_corner _ HL i u Hu Ety) as (_ & _ & <- & <-). done.
Qed.

(** *** Seeds *)

Lemma seeds_app s l1 l2 : seeds_on_map s l1 → seeds_on_map s l2 → seeds_on_map s (l1 ++ l2).
Proof. intros H1 H2 p [Hp|Hp]%elem_of_app; [by apply H1|by apply H2]. Qed.
Lemma seeds_one s px py : spot_on_map s px py → seeds_on_map s [Vec2.Pos px py].
Proof. by intros Hm p ->%list_elem_of_singleton. Qed.
Lemma seeds_nil s : seeds_on_map s [].
Proof. by intros p ?%elem_of_nil. Qed.

Lemma depot_seeds_ok s prob few l : total prob → (∀ i, i ∈ l → ∃ u, unit v i = Ok u ∧ spot_on_map s (Unit.x u) (Unit.y u)) →
  ∀ acc, seeds_on_map s acc → ∃ seeds, depot_seeds prob few l acc = Ok seeds ∧ seeds_on_map s seeds.
Proof.
  intros HP. induction l as [|i l IH]; intros Hl acc Hacc; cbn [depot_seeds]; [by exists acc|].
  destruct (Hl i ltac:(by left)) as (u & -> & Hm). cbn [rbind]. destruct (HP (Unit.x u) (Unit.y u)) as [p ->]. cbn [rbind].
  assert (∀ i, i ∈ l → ∃ u, unit v i = Ok u ∧ spot_on_map s (Unit.x u) (Unit.y u)) as Hl' by (intros; apply Hl; by right).
  assert (seeds_on_map s (acc ++ [Vec2.Pos (Unit.x u) (Unit.y u)])) as Hacc' by (by apply seeds_app, seeds_one).
  destruct (fltb f32_0 p); [destruct few; [by eexists|]|]; by apply IH.
Qed.

Lemma worker_seeds_ok s l : (∀ i, i ∈ l → ∃ u, unit v i = Ok u ∧ spot_on_map s (Unit.x u) (Unit.y u)) →
  ∀ acc, seeds_on_map s acc → ∃ seeds, rfold (λ acc i, let? w := unit v i in Ok (acc ++ [Vec2.Pos (Unit.x w) (Unit.y w)])) l acc = Ok seeds ∧
    seeds_on_map s seeds.
Proof.
  induction l as [|i l IH]; intros Hl acc Hacc; cbn [rfold]; [by exists acc|].
  destruct (Hl i ltac:(by left)) as (u & -> & Hm). cbn [rbind]. apply IH; [intros; apply Hl; by right|]. by apply seeds_app, seeds_one.
Qed.

(** The position of the UPC, when it has one, is on the map. *)
Definition upc_on_map (s : state) (u : Upc.t) : Prop :=
  ∀ p, Upc.position u = Upc.PPosition p → spot_on_map s (Vec2.x p * Upc.scale u) (Vec2.y p * Upc.scale u).

Lemma buildLocationSeeds_ok s u : known_lists s → upc_on_map s u → total (positionProb v u) →
  ∃ seeds, buildLocationSeeds u None = Ok seeds ∧ seeds_on_map s seeds.
Proof.
  intros HL HU HP. unfold buildLocationSeeds. cbn [builder_seeds rbind]. rewrite app_nil_r.
  assert (seeds_on_map s (upc_seeds u)) as Hu.
  { unfold upc_seeds. destruct (Upc.position u) as [|p|a| |] eqn:Ep; try apply seeds_nil.
    - apply seeds_one. exact (HU p Ep).
    - intros p Hp Hx Hy. by apply (kl_bases _ HL a p). }
  destruct (depot_seeds_ok s (positionProb v u)
    ((Z.of_nat (length (myResourceDepots v)) <=? 3) || (Z.of_nat (length (myWorkers v)) <? 30)) (myResourceDepots v) HP) with (acc := upc_seeds u)
    as (seeds & -> & Hs); [|done|].
  { intros i Hi. destruct (kl_unit s i (myResourceDepots v) HL) as (w & Hw & _ & Hm); [set_solver|done|by exists w]. }
  cbn [rbind]. destruct seeds as [|p seeds]; [|by eexists]. apply worker_seeds_ok; [|apply seeds_nil].
  intros i Hi. destruct (kl_unit s i (myWorkers v) HL) as (w & Hw & _ & Hm); [set_solver|done|by exists w].
Qed.

(** *** The position *)

(** The result of the search, as [choose_position] uses it. *)
Lemma search_stands s ty prob score seeds : WF s → located s → known v s → sane ty → total prob → (∀ t, ∃ d, score s ty t = Ok d) →
  seeds_on_map s seeds → 1 < mapTileWidth_ s → 1 < mapTileHeight_ s →
  ∃ pos, findBuildLocation v score s seeds ty prob = Ok (s, pos) ∧
    (pos = Vec2.Pos (-1) (-1) ∨ placeable v prob s ty (Vec2.x pos) (Vec2.y pos)).
Proof.
  intros HW HL HK HT HP HS Hs Hw Hh.
  destruct (findBuildLocation_found v prob s ty HW HL HK HT HP score HS seeds Hs Hw Hh) as (pos & found & E & F1 & _ & F3 & F4).
  exists pos. split; [done|]. destruct found as [|i found]; [left; by apply F3|right].
  destruct F4 as (j & Hj & -> & _); [done|]. by apply F1.
Qed.

(** A request that can be answered: its most probable position is known and on
    the map, in some area when the request insists on it. *)
Record answerable (s : state) (u : Upc.t) : Prop := {
  an_argmax : ∃ pos p, Upc.positionArgMax (units v) u = Ok (pos, p) ∧ in_int (Vec2.x pos) ∧ in_int (Vec2.y pos) ∧
    (fltb (f32_lit 99 100) p = true → spot_on_map s (Vec2.x pos) (Vec2.y pos) ∧ is_Some (areaAt v pos));
  an_total : total (positionProb v u);
  an_upc : upc_on_map s u
}.

Lemma area_total u a : Upc.position u = Upc.PArea a → total (positionProb v u).
Proof. intros E px py. unfold positionProb, Upc.positionProb. rewrite E. case_bool_decide; by eexists. Qed.

Lemma choose_position_ok s u ty : WF s → located s → known v s → known_lists s → sane ty → answerable s u →
  1 < mapTileWidth_ s → 1 < mapTileHeight_ s →
  ∃ pos, choose_position s u ty = Ok (s, pos) ∧
    (pos = Vec2.Pos (-1) (-1) ∨ can_stand v s ty (Vec2.x pos) (Vec2.y pos)) ∧
    ∀ q p, Upc.positionArgMax (units v) u = Ok (q, p) → fltb (f32_lit 99 100) p = true → can_stand v s ty (Vec2.x q) (Vec2.y q) → pos = q.
Proof.
  intros HW HL HK HKL HT [(q & p & Eq & Hx & Hy & Hsharp) HP HU] Hw Hh. unfold choose_position. rewrite Eq. cbn [rbind].
  destruct (fltb (f32_lit 99 100) p) eqn:Ep.
  - destruct (Hsharp eq_refl) as [Hm [a Ha]]. destruct q as [qx qy]. cbn [Vec2.x Vec2.y] in *.
    destruct (canBuildAt_stand v s ty qx qy HW Hx Hy (proj1 HT) HK) as (b & -> & Hb). cbn [rbind]. destruct b.
    + exists (Vec2.Pos qx qy). split_and!; [done|right; by apply Hb|]. intros ? ? [= <- <-]. done.
    + unfold close_by. rewrite Ha. set (ua := Upc.UPCTuple _ _ _ _ _).
      edestruct (search_stands s ty (positionProb v ua)) as (pos & -> & Hpos);
        [done..|by eapply area_total|intros t; by eexists|by apply seeds_one|done|done|].
      exists pos. split_and!; [done| |].
      * destruct Hpos as [?|[]]; auto.
      * intros ? ? [= <- <-] _ Hst. by apply Hb in Hst.
  - assert (∀ q' p', Ok (q, p) = Ok (q', p') → fltb (f32_lit 99 100) p' = true → False) as Hno by (intros ? ? [= <- <-]; congruence).
    destruct (BuildType.isRefinery ty).
    + destruct (refinery_ok s ty (positionProb v u)) as (pos & -> & Hpos); [done..|]. cbn [rbind]. exists pos. split_and!; [done|done|].
      intros ? ? E1 E2. by destruct (Hno _ _ E1 E2).
    + destruct (buildLocationSeeds_ok s u HKL HU HP) as (seeds & -> & Hs). cbn [rbind].
      destruct (search_stands s ty (positionProb v u) scoreBuildingAtTile seeds) as (pos & -> & Hpos); [done..| |done|done|done|].
      { intros t. by apply score_total. }
      exists pos. split_and!; [done| |intros ? ? E1 E2; by destruct (Hno _ _ E1 E2)]. destruct Hpos as [?|[]]; auto.
Qed.

(** C17 A UPC for a building gets a position at which the building can stand, on the
    tiles as they are, or none.  A sharp position of its own is kept when the
    building can stand there.  The tiles are the same afterwards, the scale is one
    and the rest of the UPC stays. *)
Theorem upcWithPosition_spec s u ty : WF s → located s → known v s → known_lists s → sane ty → answerable s u →
  1 < mapTileWidth_ s → 1 < mapTileHeight_ s →
  ∃ r, upcWithPositionForBuilding s u ty = Ok (s, r) ∧
    (∀ u', r = Some u' → ∃ pos, can_stand v s ty (Vec2.x pos) (Vec2.y pos) ∧
       u' = Upc.UPCTuple (Upc.unit u) (Upc.PPosition pos) (Upc.command u) (Upc.state u) 1) ∧
    ∀ q p, Upc.positionArgMax (units v) u = Ok (q, p) → fltb (f32_lit 99 100) p = true → can_stand v s ty (Vec2.x q) (Vec2.y q) →
      r = Some (Upc.UPCTuple (Upc.unit u) (Upc.PPosition q) (Upc.command u) (Upc.state u) 1).
Proof.
  intros HW HL HK HKL HT HA Hw Hh. destruct (choose_position_ok s u ty) as (pos & E & Hpos & Hq); [done..|].
  unfold upcWithPositionForBuilding. rewrite E. cbn [rbind].
  assert (∀ q, can_stand v s ty (Vec2.x q) (Vec2.y q) → (Vec2.x q =? -1) && (Vec2.y q =? -1) = false) as Hne.
  { intros q' [(? & ? & _) _]. apply andb_false_iff. left. apply Z.eqb_neq. lia. }
  destruct Hpos as [->|Hst].
  - exists None. split_and!; [done|done|]. intros q p Eqp Ep Hst. rewrite (Hq q p Eqp Ep Hst) in *.
    exfalso. specialize (Hne q Hst). by rewrite <-(Hq q p Eqp Ep Hst) in Hne.
  - rewrite Hne by done. eexists. split_and!; [done| |].
    + intros u' [= <-]. exists pos. done.
    + intros q p Eqp Ep Hst'. by rewrite (Hq q p Eqp Ep Hst').
Qed.

End upc.
End PlacementUpc.
