(* ===== verification/PlacementKept.v ===== *)
(** * Looking for a place leaves the tiles alone

    Without assumptions about units and UPCs: whenever the search for a place
    returns, the tiles are what they were, and the position consists of ints.
    And what [fullReserve] and [fullUnreserve] do with the room of a building. *)

From S2P Require Import Prelude Floats Geometry BuildTypes Units GameMechanics Upc Algorithms UnitsInfo Tiles.
From S2P Require Import Placement PlacementRules PlacementLayout PlacementSearch PlacementUpc.

Module PlacementKept.
Import Tiles Placement PlacementRules PlacementLayout PlacementSearch PlacementUpc.

Section kept.
Context {table : BuildType.Table} {attributes : UnitsInfo.Attributes} {facts : Facts} (v : view).

Definition int_pos (p : Position) : Prop := in_int (Vec2.x p) ∧ in_int (Vec2.y p).
(** The coordinates of tiles are ints. *)
Definition int_tiles (s : state) : Prop := ∀ i t, tiles s !! i = Some t → in_int (x t) ∧ in_int (y t).

Lemma at_inv {A} (l : list A) i a : at_ l i = Ok a → 0 ≤ i ∧ l !! Z.to_nat i = Some a.
Proof. unfold at_. destruct (Z.leb_spec 0 i); [|done]. destruct (l !! Z.to_nat i) eqn:E; [|done]. by intros [= <-]. Qed.

Lemma int_at s i t : int_tiles s → getAt s i = Ok t → in_int (x t) ∧ in_int (y t).
Proof. intros HI [_ E]%at_inv. by eapply HI. Qed.

(** ** Free places *)

Lemma tileOk_free ty t : tileOk v ty false t = Ok true → reservedAsUnbuildable t = false.
Proof. unfold tileOk. destruct (buildable t), (reservedAsUnbuildable t); done. Qed.

Lemma all_tiles_true s ok rows cols stride ptr : WF s → in_grid (cells rows cols (Z.of_nat cols + stride) ptr) →
  all_tiles s ok (rows, cols, stride, ptr) = Ok true →
  ∀ p t, p ∈ cells rows cols (Z.of_nat cols + stride) ptr → tiles s !! Z.to_nat p = Some t → ok t = Ok true.
Proof.
  intros HW Hg. unfold all_tiles. rewrite for_rows_rfold. revert Hg. generalize (cells rows cols (Z.of_nat cols + stride) ptr) as l.
  intros l Hg. set (f := λ (acc : bool) ptr, if acc then let? t := getAt s ptr in ok t else Ok false).
  assert (∀ l', rfold f l' false ≠ Ok true) as Hfalse by (intros l'; induction l' as [|q l' IH]; cbn [rfold]; [done|exact IH]).
  assert (rfold f l true = Ok true → ∀ p t, p ∈ l → tiles s !! Z.to_nat p = Some t → ok t = Ok true) as Hl.
  { clear ptr. induction l as [|q l IH]; cbn [rfold]; intros E p t; [by intros ?%elem_of_nil|].
    assert (in_grid l) as Hg' by (intros p' Hp'; apply Hg; by right).
    destruct (getAt_ok s q HW) as (tq & Eq & Hq); [apply Hg; by left|]. assert (f true q = ok tq) as Ef by (unfold f; by rewrite Eq). rewrite Ef in E.
    destruct (ok tq) as [[]| | |] eqn:Eok; cbn [rbind] in E; try done; try (by apply Hfalse in E).
    intros [->|Hp]%elem_of_cons Ht; [by simplify_eq|]. by eapply IH. }
  destruct (rfold f l true) as [b| | |]; by cbn [rbind].
Qed.

Lemma canBuildAt_free s ty px py : WF s → in_int px → in_int py → sane_size ty →
  canBuildAt v s ty (Vec2.Pos px py) false = Ok true → free_at s ty px py.
Proof.
  intros HW Hx Hy Hsz. unfold canBuildAt. pose proof (footprint_spec s ty (Vec2.Pos px py) HW Hx Hy Hsz) as Hf.
  destruct (footprint s ty _) as [[[[rows cols] stride] ptr]|]; [|done]. destruct Hf as [Hf Ec]. intros E.
  split; [done|]. intros p t Hp Ht. eapply tileOk_free, all_tiles_true; [done| |exact E| |exact Ht]; rewrite Ec; [by eapply area_grid|done].
Qed.

(** ** The search *)

Ltac step_in H := match type of H with
  | rbind ?e _ = Ok _ => let E := fresh "E" in destruct e eqn:E; cbn [rbind] in H; try discriminate H
  end.

Lemma canPlace_kept prob s ty t s' b : WF s → in_int (x t) → in_int (y t) → sane ty →
  canPlaceBuildingAtTile v prob s ty t = Ok (s', b) → s' = s.
Proof.
  unfold canPlaceBuildingAtTile. generalize (x t) as px, (y t) as py. intros px py HW Hx Hy HT H.
  step_in H. destruct a; cbn [negb] in H; [|congruence]. step_in H. destruct (feqb a f32_0); [congruence|].
  pose proof (canBuildAt_free s ty px py HW Hx Hy (proj1 HT) E) as Hfree.
  destruct (getAddon ty) as [ad|] eqn:Ea.
  - destruct (addon_int s ty ad px py HW HT Ea (proj1 Hfree)) as [Hax Hay].
    step_in H. destruct a0; cbn [negb] in H; [|congruence].
    rewrite try_addon in H; [|done|done|done|apply (proj1 HT)|by apply HT|done|done|done|done|].
    + step_in H. congruence.
    + apply canBuildAt_free; [done|done|done|by apply HT|done].
  - rewrite try_plain in H; [|done|done|done|apply (proj1 HT)|done|done]. step_in H. congruence.
Qed.

Lemma search_kept n prob ty : ∀ s vis o valid s' found, WF s → int_tiles s → sane ty →
  Placement.search v n prob ty s vis o valid = Ok (s', found) → s' = s.
Proof.
  induction n as [|n IH]; intros s vis [|i o] valid s' found HW HI HT H; cbn [Placement.search] in H; try congruence.
  step_in H. destruct (int_at s i a HI E) as [Hx Hy]. step_in H. destruct a0 as [s1 ok].
  assert (s1 = s) as -> by (by eapply canPlace_kept). destruct (_ && _); [congruence|]. step_in H. by eapply IH.
Qed.

Lemma findBuildLocation_kept score s seeds ty prob s' pos : WF s → int_tiles s → sane ty →
  findBuildLocation v score s seeds ty prob = Ok (s', pos) → s' = s ∧ int_pos pos.
Proof.
  intros HW HI HT. unfold findBuildLocation. generalize maxIterations as n. intros n H.
  assert (int_pos (Vec2.Pos (-1) (-1))) as Hno by (unfold int_pos, in_int; cbn; lia).
  destruct (_ || _); [by simplify_eq|]. step_in H. step_in H. destruct a0 as [s1 found].
  assert (s1 = s) as -> by (by eapply search_kept).
  assert (∀ l acc ts, rfold (λ acc i, let? t := getAt s i in let? sc := score s ty t in Ok (acc ++ [(t, sc)])) l acc = Ok ts →
    (∀ z, z ∈ acc → in_int (x z.1) ∧ in_int (y z.1)) → ∀ z, z ∈ ts → in_int (x z.1) ∧ in_int (y z.1)) as Hall.
  { induction l as [|i l IH]; intros acc ts Hl Hacc; cbn [rfold] in Hl; [by simplify_eq|].
    destruct (getAt s i) eqn:Ei; cbn [rbind] in Hl; try done. destruct (score s ty a0); cbn [rbind] in Hl; try done.
    eapply IH; [exact Hl|]. intros z [?| ->%list_elem_of_singleton]%elem_of_app; [by apply Hacc|]. by eapply int_at. }
  step_in H. specialize (Hall _ _ _ E1 ltac:(by intros z ?%elem_of_nil)).
  pose proof (Algorithms.getBestScore_spec (A := tile * float64) fltb snd (λ _, false) (λ _, false) fltb_trans fltb_irrefl ltac:(done) a0) as Hb.
  destruct (Algorithms.getBestScore _ _ _ _ a0) as [[t d]|]; simplify_eq; [|done]. split; [done|]. by apply (Hall (t, d)), Hb.
Qed.

(** ** UPCs *)

(** The most probable position of a UPC consists of ints. *)
Definition int_upc (u : Upc.t) : Prop := ∀ q p, Upc.positionArgMax (units v) u = Ok (q, p) → int_pos q.
(** So does the left upper corner of each unit, in walk tiles. *)
Definition int_units : Prop := ∀ i u, units v !! i = Some u →
  in_int (Z.quot (pixel_x v i - UnitsInfo.dimensionLeft (Unit.type u)) 8) ∧
  in_int (Z.quot (pixel_y v i - UnitsInfo.dimensionUp (Unit.type u)) 8).

Lemma refinery_int s ty prob pos : int_units → findRefineryLocation v s ty prob = Ok pos → int_pos pos.
Proof.
  intros HU H. unfold findRefineryLocation in H. step_in H. destruct a as [i|]; [|simplify_eq; unfold int_pos, in_int; cbn; lia].
  unfold unit in H. destruct (units v !! i) eqn:Ei; cbn [of_option rbind] in H; [|done]. simplify_eq. by apply HU.
Qed.

Lemma choose_position_kept s u ty s' pos : WF s → int_tiles s → sane ty → int_upc u → int_units →
  choose_position v s u ty = Ok (s', pos) → s' = s ∧ int_pos pos.
Proof.
  intros HW HI HT HU HV H. unfold choose_position in H. step_in H. destruct a as [q p]. pose proof (HU q p E) as Hq.
  destruct (fltb _ p).
  - step_in H. destruct a; [by simplify_eq|]. by eapply findBuildLocation_kept.
  - destruct (BuildType.isRefinery ty).
    + step_in H. simplify_eq. split; [done|]. by eapply refinery_int.
    + step_in H. by eapply findBuildLocation_kept.
Qed.

Lemma upc_kept s u ty s' r : WF s → int_tiles s → sane ty → int_upc u → int_units →
  PlacementUpc.upcWithPositionForBuilding v s u ty = Ok (s', r) →
  s' = s ∧ ∀ u', r = Some u' → ∃ pos, Upc.position u' = Upc.PPosition pos ∧ Upc.scale u' = 1 ∧ int_pos pos.
Proof.
  intros HW HI HT HU HV H. unfold PlacementUpc.upcWithPositionForBuilding in H. step_in H. destruct a as [s1 pos].
  destruct (choose_position_kept s u ty s1 pos) as [-> Hp]; [done..|]. destruct (_ && _); simplify_eq; split; try done.
  intros u' [= <-]. by exists pos.
Qed.

(** ** The room of a building *)

(** It is on the map. *)
Definition room_fits (s : state) (ty : BuildType) (px py : Z) : Prop :=
  fits s ty px py ∧ ∀ a, getAddon ty = Some a → fits s a (addonX ty px) (addonY ty a py).

Lemma room_ok s ty px py : WF s → sane ty → room_fits s ty px py → NoDup (room ty px py) ∧ in_grid (room ty px py).
Proof.
  intros HW [Hsz Hsane] [Hf Ha]. unfold room. destruct (getAddon ty) as [a|].
  - assert (sane_size a) as Hsa by auto. assert (fits s a (addonX ty px) (addonY ty a py)) as Hfa by auto. split.
    + apply NoDup_app. split_and!; [by apply nodup_area| |by apply nodup_area]. intros p. by eapply addon_beside.
    + intros p [Hp|Hp]%elem_of_app; eapply area_grid in Hp; eauto.
  - rewrite app_nil_r. split; [by apply nodup_area|by eapply area_grid].
Qed.

Lemma all_reserved_or b s l : all_reserved b s l ∨ ¬ all_reserved b s l.
Proof.
  induction l as [|p l [IH|IH]]; [left; by intros p t ?%elem_of_nil| |].
  - destruct (tiles s !! Z.to_nat p) as [t|] eqn:Et; [destruct (eqb (reservedAsUnbuildable t) b) eqn:Eb|].
    + left. intros q t' [->|Hq]%elem_of_cons Ht'; [|by eapply IH]. apply eqb_prop in Eb. by simplify_eq.
    + right. intros Hall. rewrite (Hall p t) in Eb; [by destruct b|by left|done].
    + left. intros q t' [->|Hq]%elem_of_cons Ht'; [congruence|by eapply IH].
  - right. intros Hall. apply IH. intros q t Hq. apply Hall. by right.
Qed.

Lemma reserve_area_inv b s ty px py s' : WF s → in_int px → in_int py → sane_size ty →
  reserveAreaImpl b s ty px py = Ok (s', None) →
  fits s ty px py ∧ all_reserved (negb b) s (area ty px py) ∧ s' = set_tiles s (upd (set_reserved b) (area ty px py) (tiles s)).
Proof.
  intros HW Hx Hy Hsz H. destruct (reserveAreaImpl_ok b s ty px py HW Hx Hy Hsz) as [H1 H2].
  destruct (decide (fits s ty px py)) as [Hf|Hf]; [|destruct H2 as [msg H2]; [tauto|congruence]].
  destruct (all_reserved_or (negb b) s (area ty px py)) as [Hall|Hall]; [|destruct H2 as [msg H2]; [tauto|congruence]].
  rewrite (H1 Hf Hall) in H. by simplify_eq.
Qed.

Lemma all_reserved_app b s l1 l2 : all_reserved b s (l1 ++ l2) ↔ all_reserved b s l1 ∧ all_reserved b s l2.
Proof. unfold all_reserved. setoid_rewrite elem_of_app. naive_solver. Qed.

(** Taking the room of a building, or giving it back: it works when the room is on
    the map and in the other state, and then all of its tiles change. *)
Lemma full_ok b s ty px py : WF s → in_int px → in_int py → sane ty → room_fits s ty px py →
  all_reserved (negb b) s (room ty px py) →
  thrown (fullReserveImpl b s ty px py) = Ok (set_tiles s (upd (set_reserved b) (room ty px py) (tiles s))).
Proof.
  intros HW Hx Hy HT [Hf Hfa] Hall. unfold fullReserveImpl. destruct HT as [Hsz Hsane] eqn:EHT. clear EHT.
  unfold room in *. destruct (getAddon ty) as [a|] eqn:Ea.
  - apply all_reserved_app in Hall as [H1 H2]. assert (sane_size a) as Hsa by auto.
    assert (fits s a (addonX ty px) (addonY ty a py)) as Hf2 by auto.
    destruct (addon_int s ty a px py HW) as [Hax Hay]; [split; [done|by rewrite Ea]|done|done|].
    destruct (reserveAreaImpl_ok b s ty px py HW Hx Hy Hsz) as [E1 _]. rewrite (E1 Hf H1). cbn [and_then rbind snd fst].
    set (s1 := set_tiles s _). assert (WF s1) as HW1 by (by apply wf_upd).
    destruct (reserveAreaImpl_ok b s1 a (addonX ty px) (addonY ty a py) HW1 Hax Hay Hsa) as [E2 _]. rewrite E2; [|done|].
    + unfold thrown, s1. cbn [rbind snd fst]. rewrite set_tiles_twice. cbn [tiles set_tiles]. by rewrite <-upd_app.
    + apply reserved_apart; [done|by apply nodup_area|by eapply area_grid|by eapply area_grid| |done].
      intros p Hp Hp'. by eapply (addon_beside s ty a px py).
  - rewrite app_nil_r in *. destruct (reserveAreaImpl_ok b s ty px py HW Hx Hy Hsz) as [E1 _]. by rewrite (E1 Hf Hall).
Qed.

Lemma full_inv b s ty px py s' : WF s → in_int px → in_int py → sane ty →
  thrown (fullReserveImpl b s ty px py) = Ok s' →
  room_fits s ty px py ∧ all_reserved (negb b) s (room ty px py) ∧ s' = set_tiles s (upd (set_reserved b) (room ty px py) (tiles s)).
Proof.
  intros HW Hx Hy HT H. assert (fullReserveImpl b s ty px py = Ok (s', None)) as H'.
  { unfold thrown in H. destruct (fullReserveImpl b s ty px py) as [[s1 [m|]]| | |]; cbn [rbind snd fst] in H; by simplify_eq. }
  clear H. destruct HT as [Hsz Hsane] eqn:EHT. clear EHT. unfold fullReserveImpl in H'. unfold room, room_fits.
  destruct (getAddon ty) as [a|] eqn:Ea.
  - destruct (reserveAreaImpl b s ty px py) as [[s1 [m|]]| | |] eqn:E1; cbn [and_then rbind snd fst] in H'; try congruence.
    apply reserve_area_inv in E1 as (Hf & H1 & ->); [|done..]. assert (sane_size a) as Hsa by auto.
    destruct (addon_int s ty a px py HW) as [Hax Hay]; [split; [done|by rewrite Ea]|done|done|].
    apply reserve_area_inv in H' as (Hf2 & H2 & ->); [|by apply wf_upd|done..].
    assert (fits s a (addonX ty px) (addonY ty a py)) as Hf2' by exact Hf2.
    split_and!; [done|by intros ? [= <-]| |rewrite set_tiles_twice; cbn [tiles set_tiles]; by rewrite <-upd_app].
    apply all_reserved_app. split; [done|]. intros p t Hp Ht. apply (H2 p t Hp).
    rewrite reserved_upd; [|done|by apply nodup_area|by eapply area_grid|by eapply area_grid in Hp; eauto; apply Hp].
    rewrite decide_False; [done|]. intros Hp'. by eapply (addon_beside s ty a px py).
  - rewrite app_nil_r. apply reserve_area_inv in H' as (Hf & H1 & ->); [|done..]. done.
Qed.

End kept.
End PlacementKept.
