(* ===== verification/BuildingPlacer.v ===== *)
(** * The building placer module ([src/modules/buildingplacer.cpp])

    [BuildingPlacerModule] answers Create UPCs for buildings with UPCs that have a
    position, keeps the place reserved while a proxy task follows the building,
    and looks for another place when the building fails.  The objects of its task
    class extend [ProxyTask]: what the base class holds is in the heap of tasks,
    the members of the subclass are in a map beside it.  The learned model is a
    parameter. *)

From S2P Require Import Prelude Floats Geometry BuildTypes Units GameMechanics Upc UpcStorage UpcFilter Algorithms UnitsInfo Tiles.
From S2P Require Import Tasks BoardTasks Blackboard Placement PlacementRules PlacementLayout PlacementSearch PlacementUpc.

Module BuildingPlacer.
Import Placement.

(** [src/src/modules/buildingplacer.cpp:27-36] BuildingPlacerTask *)
Record bptask := BP { reserved_ : bool; sourceUpc : Upc.t; type : BuildType; pos : Position; respawn : bool }.

(** The members of the module, and the objects it works with.

    [src/src/modules/buildingplacer.h:38-54] BuildingPlacerModule *)
Record state := State {
  board : Blackboard.t; heap : Task.heap; nextTask : Task.ref; bps : gmap Task.ref bptask;
  tiles : Tiles.state; firstStep_ : bool; baseLocations_ : list Position }.

Definition set_board (s : state) b := State b (heap s) (nextTask s) (bps s) (tiles s) (firstStep_ s) (baseLocations_ s).
Definition set_heap (s : state) h := State (board s) h (nextTask s) (bps s) (tiles s) (firstStep_ s) (baseLocations_ s).
Definition set_bps (s : state) m := State (board s) (heap s) (nextTask s) m (tiles s) (firstStep_ s) (baseLocations_ s).
Definition set_tilesInfo (s : state) t := State (board s) (heap s) (nextTask s) (bps s) t (firstStep_ s) (baseLocations_ s).

Definition set_reserved (b : bptask) r := BP r (sourceUpc b) (type b) (pos b) (respawn b).
Definition set_respawn (b : bptask) r := BP (reserved_ b) (sourceUpc b) (type b) (pos b) r.
(** [src/src/modules/buildingplacer.cpp:58-60] BuildingPlacerTask::setPosition *)
Definition setPosition (b : bptask) p := BP (reserved_ b) (sourceUpc b) (type b) p (respawn b).

Section placer.
Context {table : BuildType.Table} {attributes : UnitsInfo.Attributes} {facts : Facts} (v : view).
(** The frame and the module. *)
Context (currentFrame : Z) (self : ModulePtr).
(** The learned model, if one is loaded: a position for a UPC and the area of the
    place the rules have found. *)
Context (model_ : option (Tiles.state → Upc.t → option Upc.area → res Position)).

(** ** Tasks *)

Definition bp (s : state) (r : Task.ref) : res bptask := of_option (bps s !! r).

(** [src/src/modules/buildingplacer.cpp:62-69] BuildingPlacerTask::reserveLocation *)
Definition reserveLocation (s : state) (r : Task.ref) : res state :=
  let? b := bp s r in
  let? ts := if reserved_ b then Ok (tiles s) else thrown (fullReserve (tiles s) (type b) (pos b)) in
  Ok (set_bps (set_tilesInfo s ts) (<[r := set_reserved b true]> (bps s))).

(** [src/src/modules/buildingplacer.cpp:71-78] BuildingPlacerTask::unreserveLocation *)
Definition unreserveLocation (s : state) (r : Task.ref) : res state :=
  let? b := bp s r in
  let? ts := if reserved_ b then thrown (fullUnreserve (tiles s) (type b) (pos b)) else Ok (tiles s) in
  Ok (set_bps (set_tilesInfo s ts) (<[r := set_reserved b false]> (bps s))).

(** [src/src/modules/buildingplacer.cpp:80-99] BuildingPlacerTask::update *)
Definition update (s : state) (r : Task.ref) : res state :=
  let? tk := of_option (heap s !! r) in
  match Task.cls tk with
  | Task.KProxy tid target =>
      let? h := Task.proxy_update (board s) (heap s) r tk tid target in
      let s := set_heap s h in
      let? tk := of_option (heap s !! r) in
      if Task.finished tk then
        if bool_decide (Task.status tk = Failure) then
          let? b := bp s r in
          Ok (set_heap (set_bps s (<[r := set_respawn b true]> (bps s)))
                (<[r := Task.setStatus Unknown (Task.set_cls (Task.KProxy (-1) None) tk)]> (heap s)))
        else unreserveLocation s r
      else Ok s
  | _ => Undefined
  end.

(** [src/src/modules/buildingplacer.cpp:101-104] BuildingPlacerTask::cancel *)
Definition cancel `{Task.Classes} (fuel : nat) (s : state) (r : Task.ref) : res state :=
  let? bh := Task.cancel fuel (board s) (heap s) r in
  unreserveLocation (set_heap (set_board s bh.1) bh.2) r.

(** [src/src/modules/buildingplacer.cpp:54-56] BuildingPlacerTask::setTarget *)
Definition setTarget (s : state) (r : Task.ref) (id : Z) : res state :=
  let? tk := of_option (heap s !! r) in
  match Task.cls tk with
  | Task.KProxy _ target => Ok (set_heap s (<[r := Task.set_cls (Task.KProxy id target) tk]> (heap s)))
  | _ => Undefined
  end.

(** ** Positions *)

(** A base whose centre is at the position of the UPC, which is its left upper
    corner.

    [src/src/modules/buildingplacer.cpp:276-293] BuildingPlacerModule::upcWithPositionForBuilding *)
Definition planned_expansion (s : state) (u : Upc.t) (ty : BuildType) : res bool :=
  if BuildType.isResourceDepot ty then
    let? pp := Upc.positionArgMax (units v) u in
    let '(upcPos, prob) := pp in
    Ok (fltb (f32_lit 99 100) prob && existsb (Vec2.eqb (Vec2.add upcPos (Vec2.Pos 8 6))) (baseLocations_ s))
  else Ok false.

(** [src/src/modules/buildingplacer.cpp:295-327] BuildingPlacerModule::upcWithPositionForBuilding *)
Definition by_model (predict : Tiles.state → Upc.t → option Upc.area → res Position) (ts : Tiles.state) (seed : Upc.t) : res Upc.t :=
  let? pp := Upc.positionArgMax (units v) seed in
  let '(seedPos, prob) := pp in
  if fltb prob (f32_lit 99 100) then Throw "Unexpected low probability for pre-selected building location" else
  let? p := predict ts seed (areaAt v seedPos) in
  Ok (Upc.UPCTuple (Upc.unit seed) (Upc.PPosition p) (Upc.command seed) (Upc.state seed) 1).

(** [src/src/modules/buildingplacer.cpp:257-328] BuildingPlacerModule::upcWithPositionForBuilding *)
Definition upcWithPositionForBuilding (s : state) (u : Upc.t) (ty : BuildType) : res (state * option Upc.t) :=
  let? r := PlacementUpc.upcWithPositionForBuilding v (tiles s) u ty in
  let s := set_tilesInfo s r.1 in
  match model_, r.2 with
  | Some predict, Some seed =>
      if BuildType.isRefinery ty then Ok (s, Some seed) else
      let? expansion := planned_expansion s u ty in
      if (expansion : bool) then Ok (s, Some seed) else
      let? u' := by_model predict (tiles s) seed in Ok (s, Some u')
  | _, seed => Ok (s, seed)
  end.

(** A building that a worker builds.

    [src/src/modules/buildingplacer.cpp:147-150] BuildingPlacerModule::step *)
Definition position_for (s : state) (u : Upc.t) (ty : BuildType) : res (state * option Upc.t) :=
  if BuildType.isBuilding ty then
    let? b := of_option (BuildType.builder ty) in
    if BuildType.isWorker b then upcWithPositionForBuilding s u ty else Ok (s, None)
  else Ok (s, None).

(** [newUpc->position.get<Position>()] *)
Definition position_of (u : Upc.t) : res Position :=
  match Upc.position u with Upc.PPosition p => Ok p | _ => Throw "bad variant access" end.

(** ** The step *)

(** [src/src/modules/buildingplacer.cpp:112-118] BuildingPlacerModule::step *)
Definition cache_bases (bases : list Position) (s : state) : state :=
  match baseLocations_ s with
  | [] => State (board s) (heap s) (nextTask s) (bps s) (tiles s) (firstStep_ s) bases
  | _ => s
  end.

(** The dummy pass of the first frame.

    [src/src/modules/buildingplacer.cpp:120-132] BuildingPlacerModule::step *)
Definition first_step (s : state) : res state :=
  if firstStep_ s then
    let s := State (board s) (heap s) (nextTask s) (bps s) (tiles s) false (baseLocations_ s) in
    let u := Upc.UPCTuple [] Upc.PEmpty [(Upc.Command.Create, f32_1)]
               (Upc.SBuildTypeMap [(Some BuildType.Zerg_Hatchery, f32_1)]) 1 in
    let? r := upcWithPositionForBuilding s u BuildType.Zerg_Hatchery in Ok r.1
  else Ok s.

(** [src/src/modules/buildingplacer.cpp:157-167] BuildingPlacerModule::step *)
Definition post_task (s : state) (id : Z) (u : Upc.t) (ty : BuildType) (u' : Upc.t) : res state :=
  let? p := position_of u' in
  let? bi := Blackboard.postUPC (board s) currentFrame u' id self None in
  let '(b, newUpcId) := bi in
  if 0 <=? newUpcId then
    let r := nextTask s in
    let s := State (Blackboard.consumeUPCs b [id]) (<[r := Task.ProxyTask newUpcId id]> (heap s)) (r + 1)
               (<[r := BP false u ty p false]> (bps s)) (tiles s) (firstStep_ s) (baseLocations_ s) in
    let? s := reserveLocation s r in
    let? b := Blackboard.postTask (heap s) (board s) r self true currentFrame in
    Ok (set_board s b)
  else Ok (set_board s b).

(** [src/src/modules/buildingplacer.cpp:134-168] BuildingPlacerModule::step *)
Definition new_task (s : state) (it : Z * Upc.t) : res state :=
  let '(id, u) := it in
  let '(ct, prob) := Upc.createTypeArgMax u in
  if fltb prob (f32_lit 99 100) then Ok s else
  let? ty := of_option ct in
  let? r := position_for s u ty in
  let '(s, nu) := r in
  match nu with None => Ok s | Some u' => post_task s id u ty u' end.

(** [src/src/modules/buildingplacer.cpp:134-168] BuildingPlacerModule::step *)
Definition new_tasks (s : state) : res state :=
  let? us := Blackboard.upcsWithSharpCommand (board s) Upc.Command.Create in
  rfold new_task us s.

Definition task_of (s : state) (o : option Task.ref) : res (Task.ref * Task.t) :=
  let? r := of_option o in
  let? tk := of_option (heap s !! r) in Ok (r, tk).

(** [src/src/modules/buildingplacer.cpp:177-189] BuildingPlacerModule::step *)
Fixpoint forward_priority (s : state) (l : list (option Task.ref)) (id : Z) (u : Upc.t) (target : Z) (prio : float32) : res state :=
  match l with
  | [] => Ok s
  | o :: l =>
      let? rt := task_of s o in
      if Task.upcId rt.2 =? target then
        match Task.cls rt.2 with
        | Task.KProxy tid _ =>
            let u' := Upc.UPCTuple (Upc.unit u) (Upc.position u) (Upc.command u) (Upc.SSetCreatePriority tid prio) (Upc.scale u) in
            let? bi := Blackboard.postUPC (board s) currentFrame u' id self None in
            Ok (set_board s (if 0 <=? bi.2 then Blackboard.consumeUPCs bi.1 [id] else bi.1))
        | _ => Undefined
        end
      else forward_priority s l id u target prio
  end.

(** [src/src/modules/buildingplacer.cpp:169-191] BuildingPlacerModule::step *)
Definition forward_priorities (s : state) : res state :=
  let? us := Blackboard.upcsWithSharpCommand (board s) Upc.Command.SetCreatePriority in
  rfold (λ s it,
    match Upc.state it.2 with
    | Upc.SSetCreatePriority target prio =>
        let? l := BoardTasks.tasksOfModule (Blackboard.tasks (board s)) self in
        forward_priority s l it.1 it.2 target prio
    | _ => Ok s
    end) us s.

(** [src/src/modules/buildingplacer.cpp:195-220] BuildingPlacerModule::step *)
Definition retry (s : state) (o : option Task.ref) : res state :=
  let? rt := task_of s o in
  let '(r, tk) := rt in
  let? b := bp s r in
  if negb (respawn b) then Ok s else
  let? s := unreserveLocation s r in
  let? pu := position_for s (sourceUpc b) (type b) in
  let '(s, nu) := pu in
  match nu with
  | None => Ok s
  | Some u' =>
      let? p := position_of u' in
      let? bi := Blackboard.postUPC (board s) currentFrame u' (Task.upcId tk) self None in
      let s := set_board s bi.1 in
      if 0 <=? bi.2 then
        let? b := bp s r in
        let s := set_bps s (<[r := setPosition (set_respawn b false) p]> (bps s)) in
        let? s := setTarget s r bi.2 in
        reserveLocation s r
      else Ok s
  end.

(** [src/src/modules/buildingplacer.cpp:193-220] BuildingPlacerModule::step *)
Definition retries (s : state) : res state :=
  let? l := BoardTasks.tasksOfModule (Blackboard.tasks (board s)) self in
  rfold retry l s.

(** [src/src/modules/buildingplacer.cpp:109-221] BuildingPlacerModule::step *)
Definition step (bases : list Position) (s : state) : res state :=
  let s := cache_bases bases s in
  let? s := first_step s in
  let? s := new_tasks s in
  let? s := forward_priorities s in
  retries s.

(** [src/src/modules/buildingplacer.cpp:252-254] BuildingPlacerModule::onGameStart *)
Definition onGameStart (s : state) : state := State (board s) (heap s) (nextTask s) (bps s) (tiles s) true [].

End placer.
End BuildingPlacer.
