(* ===== verification/BuildingPlacerKept.v ===== *)
(** * The reservations of the building placer

    Each tile that is marked reserved is held by one task of the building placer,
    or was reserved by somebody else; a task gives back what it has taken, and
    giving back never fails. *)

From S2P Require Import Prelude Floats Geometry BuildTypes Units GameMechanics Upc UpcStorage UpcFilter Algorithms UnitsInfo Tiles.
From S2P Require Import Tasks BoardTasks Blackboard Placement PlacementRules PlacementLayout PlacementSearch PlacementUpc PlacementKept BuildingPlacer.

Module BuildingPlacerKept.
Import Placement PlacementSearch PlacementKept BuildingPlacer.

Section kept.
Context {table : BuildType.Table} {attributes : UnitsInfo.Attributes} {facts : Facts} (v : view).
Context (currentFrame : Z) (self : ModulePtr).
Context (model_ : option (Tiles.state → Upc.t → option Upc.area → res Position)).

(** Types have dimensions, units and the positions the model gives ints. *)
Context (Hsane : ∀ ty, sane ty) (Hunits : int_units v).
Context (Hmodel : ∀ predict ts u a p, model_ = Some predict → predict ts u a = Ok p → int_pos p).

Definition room_of (b : bptask) : list Z := room (type b) (Vec2.x (pos b)) (Vec2.y (pos b)).
(** The task keeps a tile reserved. *)
Definition holds (s : state) (r : Task.ref) (p : Z) : Prop :=
  ∃ b, bps s !! r = Some b ∧ reserved_ b = true ∧ p ∈ room_of b.
(** The mark of a tile. *)
Definition marked (ts : Tiles.state) (p : Z) : Prop :=
  ∃ t, Tiles.tiles ts !! Z.to_nat p = Some t ∧ Tiles.reservedAsUnbuildable t = true.

(** [base] are the tiles others have reserved. *)
Record inv (base : Z → Prop) (s : state) : Prop := {
  in_wf : Tiles.WF (tiles s);
  in_ints : int_tiles (tiles s);
  in_fresh : ∀ r b, bps s !! r = Some b → r < nextTask s;
  in_task : ∀ r b, bps s !! r = Some b → int_pos (pos b) ∧ int_upc v (sourceUpc b);
  in_fits : ∀ r b, bps s !! r = Some b → reserved_ b = true → room_fits (tiles s) (type b) (Vec2.x (pos b)) (Vec2.y (pos b));
  in_apart : ∀ r r' p, holds s r p → holds s r' p → r = r';
  in_others : ∀ r p, holds s r p → ¬ base p;
  in_marks : ∀ p, 0 ≤ p < Tiles.size → marked (tiles s) p ↔ (∃ r, holds s r p) ∨ base p
}.

(** Nothing of this depends on the board and the heap. *)
Lemma inv_board base s b : inv base s → inv base (set_board s b).
Proof. intros []. by constructor. Qed.
Lemma inv_heap base s h : inv base s → inv base (set_heap s h).
Proof. intros []. by constructor. Qed.

Lemma int_upd f l ts : (∀ t, Tiles.x (f t) = Tiles.x t ∧ Tiles.y (f t) = Tiles.y t) → int_tiles ts →
  int_tiles (Tiles.set_tiles ts (Tiles.upd f l (Tiles.tiles ts))).
Proof.
  intros Hf HI. cbn. assert (∀ l tl, (∀ i t, tl !! i = Some t → in_int (Tiles.x t) ∧ in_int (Tiles.y t)) →
    ∀ i t, Tiles.upd f l tl !! i = Some t → in_int (Tiles.x t) ∧ in_int (Tiles.y t)) as Hall.
  { clear l. induction l as [|p l IH]; intros tl Htl; [exact Htl|]. apply IH. intros i t Ht.
    destruct (decide (i = Z.to_nat p)) as [->|Hne].
    - rewrite list_lookup_alter_eq in Ht. apply fmap_Some in Ht as (t0 & Ht0 & ->). destruct (Hf t0) as [-> ->]. by eapply Htl.
    - rewrite list_lookup_alter_ne in Ht by done. by eapply Htl. }
  intros i t. apply Hall, HI.
Qed.

Lemma marked_upd b l ts p : Tiles.WF ts → NoDup l → Tiles.in_grid l → 0 ≤ p < Tiles.size →
  marked (Tiles.set_tiles ts (Tiles.upd (Tiles.set_reserved b) l (Tiles.tiles ts))) p ↔ (if decide (p ∈ l) then b = true else marked ts p).
Proof.
  intros HW Hn Hg Hp. unfold marked. destruct (Tiles.getAt_ok ts p HW Hp) as (t & _ & Ht).
  rewrite Tiles.reserved_upd by (done || lia). case_decide; [|done]. rewrite Ht. cbn. split.
  - by intros (t' & [= <-] & ?).
  - intros ->. by eexists.
Qed.

Lemma all_marked b ts l : Tiles.in_grid l → Tiles.WF ts → Tiles.all_reserved b ts l ↔ ∀ p, p ∈ l → (marked ts p ↔ b = true).
Proof.
  intros Hg HW. unfold Tiles.all_reserved, marked. split.
  - intros Hall p Hp. destruct (Tiles.getAt_ok ts p HW (Hg p Hp)) as (t & _ & Ht). rewrite Ht. specialize (Hall p t Hp Ht). subst b.
    split; [by intros (? & [= <-] & ?)|]. intros ?. by exists t.
  - intros Hall p t Hp Ht. specialize (Hall p Hp). rewrite Ht in Hall. destruct (Tiles.reservedAsUnbuildable t) eqn:Er, b; try done.
    + symmetry. apply Hall. by exists t.
    + destruct (proj2 Hall eq_refl) as (? & [= <-] & ?). congruence.
Qed.

(** ** Giving a place back *)

Lemma room_grid s base r b : inv base s → bps s !! r = Some b → reserved_ b = true → NoDup (room_of b) ∧ Tiles.in_grid (room_of b).
Proof. intros Hi Hb Hr. eapply room_ok; [apply (in_wf _ _ Hi)|done|by apply (in_fits _ _ Hi r)]. Qed.

(** The reservation of one task changes; what the others hold stays. *)
Lemma holds_insert s r b' r' p ts n : holds (State (board s) (heap s) n (<[r := b']> (bps s)) ts (firstStep_ s) (baseLocations_ s)) r' p ↔
  (r' = r ∧ reserved_ b' = true ∧ p ∈ room_of b') ∨ (r' ≠ r ∧ holds s r' p).
Proof.
  unfold holds. cbn [bps]. destruct (decide (r' = r)) as [->|Hne].
  - rewrite lookup_insert_eq. split; [intros (b & [= <-] & ?); auto|]. intros [(_ & ?)|[]]; [by exists b'|done].
  - rewrite lookup_insert_ne by done. naive_solver.
Qed.

Lemma unreserve_ok base s r b : inv base s → bps s !! r = Some b →
  ∃ ts, unreserveLocation s r = Ok (State (board s) (heap s) (nextTask s) (<[r := set_reserved b false]> (bps s)) ts (firstStep_ s) (baseLocations_ s)) ∧
    inv base (State (board s) (heap s) (nextTask s) (<[r := set_reserved b false]> (bps s)) ts (firstStep_ s) (baseLocations_ s)) ∧
    ∀ p, 0 ≤ p < Tiles.size → marked ts p ↔ marked (tiles s) p ∧ ¬ holds s r p.
Proof using Hsane.
  intros Hi Hb. pose proof Hi as [W I F T Fi A O M]. unfold unreserveLocation, bp. rewrite Hb. cbn [of_option rbind].
  assert (∀ p, holds s r p ↔ reserved_ b = true ∧ p ∈ room_of b) as Hr.
  { intros p. unfold holds. rewrite Hb. split; [by intros (? & [= <-] & ?)|]. intros. by exists b. }
  assert (∃ ts, (if reserved_ b then thrown (fullUnreserve (tiles s) (type b) (pos b)) else Ok (tiles s)) = Ok ts ∧
    Tiles.WF ts ∧ int_tiles ts ∧ Tiles.mapTileWidth_ ts = Tiles.mapTileWidth_ (tiles s) ∧ Tiles.mapTileHeight_ ts = Tiles.mapTileHeight_ (tiles s) ∧
    ∀ p, 0 ≤ p < Tiles.size → marked ts p ↔ marked (tiles s) p ∧ ¬ holds s r p) as (ts & -> & HW & HI & Hw & Hh & Hm).
  { destruct (reserved_ b) eqn:Er.
    - destruct (room_grid s base r b Hi Hb Er) as [Hn Hg]. destruct (T r b Hb) as [[Hx Hy] _].
      unfold fullUnreserve. rewrite (full_ok false); [|done|done|done|done|by apply (Fi r)|].
      + eexists. split; [done|]. split_and!; [by apply Tiles.wf_upd|by apply int_upd|done|done|]. intros p Hp.
        rewrite marked_upd by done. rewrite Hr. case_decide as Hd; [|tauto]. split; [done|]. by intros [_ []].
      + apply all_marked; [done|done|]. intros p Hp. rewrite M by (by apply Hg). split; [done|]. intros _. left. exists r. by apply Hr.
    - exists (tiles s). split_and!; try done. intros p Hp. rewrite Hr. naive_solver. }
  cbn [rbind]. exists ts. split_and!; [done| |exact Hm]. constructor; cbn [tiles bps nextTask]; try done.
  - intros r' b' [[-> <-]|[_ Hb']]%lookup_insert_Some; [by eapply F|by eapply F].
  - intros r' b' [[-> <-]|[_ Hb']]%lookup_insert_Some; [exact (T _ _ Hb)|exact (T _ _ Hb')].
  - intros r' b' [[-> <-]|[_ Hb']]%lookup_insert_Some Hres; [done|]. specialize (Fi r' b' Hb' Hres).
    unfold room_fits, Tiles.fits in *. by rewrite Hw, Hh.
  - intros r1 r2 p. rewrite !holds_insert. cbn [reserved_ set_reserved]. naive_solver.
  - intros r' p. rewrite holds_insert. cbn [reserved_ set_reserved]. naive_solver.
  - intros p Hp. rewrite Hm, M by done. setoid_rewrite holds_insert. cbn [reserved_ set_reserved]. split.
    + intros [[[r' Hr']|?] Hn]; [|by right]. left. exists r'. right. split; [by intros ->|done].
    + intros [(r' & [(_ & ? & _)|[Hne Hr']])|Hbase]; [done| |].
      * split; [left; by exists r'|]. intros Hrp. by rewrite (A _ _ _ Hr' Hrp) in Hne.
      * split; [by right|]. intros Hrp. by apply (O _ _ Hrp).
Qed.

(** ** Taking a place *)

(** The members of a task change, but not what it holds. *)
Lemma inv_insert base s r b' bd h n : inv base s → nextTask s ≤ n → r < n → int_pos (pos b') → int_upc v (sourceUpc b') →
  (reserved_ b' = true → room_fits (tiles s) (type b') (Vec2.x (pos b')) (Vec2.y (pos b'))) →
  (∀ p, reserved_ b' = true ∧ p ∈ room_of b' ↔ holds s r p) →
  inv base (State bd h n (<[r := b']> (bps s)) (tiles s) (firstStep_ s) (baseLocations_ s)).
Proof.
  intros [W I F T Fi A O M] Hn Hr Hp Hu Hf Hsame.
  assert (∀ r' p, holds (State bd h n (<[r := b']> (bps s)) (tiles s) (firstStep_ s) (baseLocations_ s)) r' p ↔ holds s r' p) as Hh.
  { intros r' p. etransitivity; [exact (holds_insert s r b' r' p (tiles s) n)|].
    rewrite Hsame. destruct (decide (r' = r)) as [->|]; tauto. }
  constructor; cbn [tiles bps nextTask]; try done.
  - intros r' c [[-> <-]|[_ Hc]]%lookup_insert_Some; [done|]. specialize (F r' c Hc). lia.
  - intros r' c [[-> <-]|[_ Hc]]%lookup_insert_Some; [done|exact (T _ _ Hc)].
  - intros r' c [[-> <-]|[_ Hc]]%lookup_insert_Some; [done|exact (Fi _ _ Hc)].
  - intros r1 r2 p. rewrite !Hh. apply A.
  - intros r' p. rewrite Hh. apply O.
  - intros p Hpr. setoid_rewrite Hh. by apply M.
Qed.

Lemma reserve_kept base s r s' : inv base s → reserveLocation s r = Ok s' → inv base s' ∧ board s' = board s ∧ heap s' = heap s.
Proof using Hsane.
  intros Hi H. pose proof Hi as [W I F T Fi A O M]. unfold reserveLocation, bp in H.
  destruct (bps s !! r) as [b|] eqn:Hb; cbn [of_option rbind] in H; [|done].
  destruct (T r b Hb) as [[Hx Hy] Hu].
  destruct (reserved_ b) eqn:Er; cbn [rbind] in H.
  { simplify_eq. split_and!; try done. apply (inv_insert base s r); [done|apply Z.le_refl|by eapply F|done|done|intros _; exact (Fi r b Hb Er)|].
    intros p. unfold holds. rewrite Hb. cbn [reserved_ set_reserved]. unfold room_of. cbn. naive_solver. }
  destruct (thrown _) as [ts| | |] eqn:Et; cbn [rbind] in H; try done. simplify_eq. split_and!; try done.
  apply full_inv in Et as (Hf & Hall & ->); [|done..]. destruct (room_ok (tiles s) (type b) (Vec2.x (pos b)) (Vec2.y (pos b)) W (Hsane _) Hf) as [Hn Hg].
  assert (∀ p, p ∈ room_of b → ¬ marked (tiles s) p) as Hfree.
  { intros p Hp. pose proof (proj1 (all_marked false _ _ Hg W) Hall) as Hall'. rewrite (Hall' p Hp). done. }
  assert (∀ r' p, holds s r' p → p ∈ room_of b → False) as Hno.
  { intros r' p Hr' Hp. apply (Hfree p Hp), M; [by apply Hg|]. left. by exists r'. }
  set (ts := Tiles.set_tiles _ _). pose proof (λ r' p, holds_insert s r (set_reserved b true) r' p ts (nextTask s)) as Hh.
  cbn [reserved_ set_reserved] in Hh. change (room_of (set_reserved b true)) with (room_of b) in Hh.
  constructor; cbn [tiles bps nextTask set_bps set_tilesInfo board heap firstStep_ baseLocations_].
  - by apply Tiles.wf_upd.
  - by apply int_upd.
  - intros r' c [[-> <-]|[_ Hc]]%lookup_insert_Some; [by eapply F|by eapply F].
  - intros r' c [[-> <-]|[_ Hc]]%lookup_insert_Some; [exact (T _ _ Hb)|exact (T _ _ Hc)].
  - intros r' c [[-> <-]|[_ Hc]]%lookup_insert_Some; [done|exact (Fi _ _ Hc)].
  - intros r1 r2 p H1%Hh H2%Hh. destruct H1 as [(-> & _ & Hp)|[_ H1]], H2 as [(-> & _ & Hp')|[_ H2]]; [done| | |by eapply A];
      exfalso; by eapply Hno.
  - intros r' p [(-> & _ & Hp)|[_ H1]]%Hh; [|by eapply O]. intros Hbase. apply (Hfree p Hp), M; [by apply Hg|]. by right.
  - intros p Hp. unfold ts. rewrite marked_upd by done. setoid_rewrite Hh. case_decide as Hd.
    + split; [intros _; left; exists r; by left|done].
    + rewrite M by done. split; (intros [[r' Hr']|?]; [left; exists r'|by right]).
      * right. split; [|done]. intros ->. destruct Hr' as (c & Hc & Hres & _). rewrite Hb in Hc. congruence.
      * destruct Hr' as [(_ & _ & ?)|[_ ?]]; done.
Qed.

(** The place is free: taking it works. *)
Lemma reserve_works base s r b : inv base s → bps s !! r = Some b →
  room_fits (tiles s) (type b) (Vec2.x (pos b)) (Vec2.y (pos b)) → (∀ p, p ∈ room_of b → ¬ marked (tiles s) p) →
  ∃ s', reserveLocation s r = Ok s'.
Proof using Hsane.
  intros [W I F T Fi A O M] Hb Hf Hfree. destruct (T r b Hb) as [[Hx Hy] _]. unfold reserveLocation, bp. rewrite Hb. cbn [of_option rbind].
  destruct (reserved_ b); [by eexists|]. unfold fullReserve. rewrite (full_ok true); [by eexists|done..|].
  destruct (room_ok (tiles s) (type b) (Vec2.x (pos b)) (Vec2.y (pos b)) W (Hsane _) Hf) as [Hn Hg].
  apply all_marked; [done|done|]. intros p Hp. specialize (Hfree p Hp). naive_solver.
Qed.

(** ** The operations *)

Ltac step_in H := match type of H with
  | rbind ?e _ = Ok _ => let E := fresh "E" in destruct e eqn:E; cbn [rbind] in H; try discriminate H
  end.

(** The module's choice of a position. *)
Lemma choose_kept base s u ty s' r : inv base s → int_upc v u → upcWithPositionForBuilding v model_ s u ty = Ok (s', r) →
  s' = s ∧ ∀ u' p, r = Some u' → position_of u' = Ok p → int_pos p.
Proof using Hsane Hunits Hmodel.
  intros Hi Hu H. unfold upcWithPositionForBuilding in H. step_in H. destruct a as [ts seed].
  destruct (upc_kept v (tiles s) u ty ts seed) as [-> Hseed]; [apply (in_wf _ _ Hi)|apply (in_ints _ _ Hi)|done|done|done|done|].
  cbn [fst snd] in H. assert (set_tilesInfo s (tiles s) = s) as Es by (by destruct s). rewrite Es in H.
  assert (∀ u' p, seed = Some u' → position_of u' = Ok p → int_pos p) as Hsp.
  { intros u' p Hs Hp. destruct (Hseed u' Hs) as (q & Eq & _ & Hq). unfold position_of in Hp. rewrite Eq in Hp. by simplify_eq. }
  destruct model_ as [predict|] eqn:Em; [|by simplify_eq]. destruct seed as [seed|]; [|by simplify_eq].
  destruct (BuildType.isRefinery ty); [by simplify_eq|]. step_in H. destruct a; [by simplify_eq|]. step_in H. simplify_eq. split; [done|].
  intros u' p [= <-] Hp. unfold by_model in E1. step_in E1. destruct a0 as [q pr]. destruct (fltb pr _); [done|]. step_in E1. simplify_eq.
  cbn in Hp. simplify_eq. by eapply Hmodel.
Qed.

Lemma place_kept base s u ty s' r : inv base s → int_upc v u → position_for v model_ s u ty = Ok (s', r) →
  s' = s ∧ ∀ u' p, r = Some u' → position_of u' = Ok p → int_pos p.
Proof using Hsane Hunits Hmodel.
  intros Hi Hu H. unfold position_for in H. destruct (BuildType.isBuilding ty); [|by simplify_eq].
  step_in H. destruct (BuildType.isWorker a); [by eapply choose_kept|by simplify_eq].
Qed.

Lemma unreserve_kept base s r s' : inv base s → unreserveLocation s r = Ok s' → inv base s' ∧ heap s' = heap s ∧
  nextTask s' = nextTask s ∧ (∀ p, ¬ holds s' r p) ∧ ∀ b, bps s' !! r = Some b → reserved_ b = false.
Proof using Hsane.
  intros Hi H. destruct (bps s !! r) as [b|] eqn:Hb; [|unfold unreserveLocation, bp in H; by rewrite Hb in H].
  destruct (unreserve_ok base s r b Hi Hb) as (ts & E & Hi' & _). rewrite E in H. simplify_eq. split_and!; try done.
  - intros p Hp. apply holds_insert in Hp as [(_ & ? & _)|[? _]]; done.
  - cbn [bps]. rewrite lookup_insert_eq. by intros b' [= <-].
Qed.

Lemma placer_update_kept base s r s' : inv base s → update s r = Ok s' → inv base s'.
Proof using Hsane.
  intros Hi H. unfold update in H. step_in H. destruct (Task.cls a) as [|tid target|]; try done. step_in H. step_in H.
  assert (inv base (set_heap s a0)) as Hi1 by (by apply inv_heap).
  destruct (Task.finished a1); [|by simplify_eq]. case_bool_decide.
  - destruct (bp (set_heap s a0) r) as [b| | |] eqn:Hb; cbn [rbind] in H; try done. simplify_eq. unfold bp in Hb. cbn [bps set_heap] in Hb.
    destruct (bps s !! r) as [b'|] eqn:Hb'; cbn [of_option] in Hb; simplify_eq. destruct (in_task _ _ Hi r b Hb').
    apply inv_heap, (inv_insert base s r); [done|apply Z.le_refl|by eapply (in_fresh _ _ Hi)|done|done|exact (in_fits _ _ Hi r b Hb')|].
    intros p. unfold holds. rewrite Hb'. cbn. split; [intros [? ?]; by exists b|]. by intros (? & [= <-] & ?).
  - by apply (unreserve_kept base) in H as [? _].
Qed.

Lemma cancel_kept {classes : Task.Classes} base fuel s r s' : inv base s → cancel fuel s r = Ok s' → inv base s'.
Proof using Hsane.
  intros Hi H. unfold cancel in H. step_in H. apply (unreserve_kept base) in H as [? _]; [done|]. by apply inv_heap, inv_board.
Qed.

Lemma new_task_kept base s it s' : inv base s → int_upc v it.2 → new_task v currentFrame self model_ s it = Ok s' → inv base s'.
Proof using Hsane Hunits Hmodel.
  intros Hi Hu H. destruct it as [id u]. unfold new_task in H. destruct (Upc.createTypeArgMax u) as [ct prob].
  destruct (fltb prob _); [by simplify_eq|]. step_in H. step_in H. destruct a0 as [s1 nu].
  destruct (place_kept base s u a s1 nu Hi Hu E0) as [-> Hp]. destruct nu as [u'|]; [|by simplify_eq].
  unfold post_task in H. step_in H. step_in H. destruct a1 as [b newUpcId]. destruct (0 <=? newUpcId); [|simplify_eq; by apply inv_board].
  cbn zeta in H. step_in H. step_in H. simplify_eq. apply inv_board.
  eapply reserve_kept in E3 as [? _]; [done|]. apply (inv_insert base s); [done|lia|lia|by eapply Hp|done|done|].
  intros p. cbn. split; [by intros []|]. intros (c & Hc & _). apply (in_fresh _ _ Hi) in Hc. lia.
Qed.

Lemma retry_kept base s o s' : inv base s → retry v currentFrame self model_ s o = Ok s' → inv base s'.
Proof using Hsane Hunits Hmodel.
  intros Hi H. unfold retry in H. step_in H. destruct a as [r tk]. step_in H. rename a into b.
  destruct (respawn b); cbn [negb] in H; [|by simplify_eq]. step_in H. rename a into s1.
  destruct (unreserve_kept base s r s1 Hi E1) as (Hi1 & Hh1 & Hn1 & Hno & Hres).
  assert (bps s !! r = Some b) as Hb by (unfold bp in E0; destruct (bps s !! r); cbn in E0; by simplify_eq).
  destruct (in_task _ _ Hi r b Hb) as [_ Hu]. step_in H. destruct a as [s2 nu].
  destruct (place_kept base s1 (sourceUpc b) (type b) s2 nu Hi1 Hu E2) as [-> Hp]. destruct nu as [u'|]; [|by simplify_eq].
  step_in H. step_in H. cbn zeta in H. destruct (0 <=? a0.2); [|simplify_eq; by apply inv_board].
  step_in H. rename a1 into b1. cbn zeta in H. step_in H. rename a1 into s3.
  assert (bps s1 !! r = Some b1) as Hb1 by (unfold bp in E5; cbn [bps set_board] in E5; destruct (bps s1 !! r); cbn in E5; by simplify_eq).
  eapply reserve_kept in H as [? _]; [done|]. unfold setTarget in E6. step_in E6. destruct (Task.cls a1); try done. simplify_eq.
  destruct (in_task _ _ Hi1 r b1 Hb1). apply inv_heap, (inv_insert base s1 r); [done|apply Z.le_refl|by eapply (in_fresh _ _ Hi1)|by eapply Hp|done| |].
  - cbn. rewrite (Hres b1 Hb1). done.
  - intros p. cbn. rewrite (Hres b1 Hb1). split; [by intros []|]. by intros ?%Hno.
Qed.

Lemma forward_kept base l : ∀ s id u target prio s', inv base s → forward_priority currentFrame self s l id u target prio = Ok s' → inv base s'.
Proof.
  induction l as [|o l IH]; intros s id u target prio s' Hi H; cbn [forward_priority] in H; [by simplify_eq|].
  step_in H. destruct (_ =? _); [|by eapply IH]. destruct (Task.cls a.2); try done. step_in H. simplify_eq. by apply inv_board.
Qed.

(** The UPCs that ask for something consist of ints, as far as positions go. *)
Definition int_requests (b : Blackboard.t) : Prop :=
  ∀ us, Blackboard.upcsWithSharpCommand b Upc.Command.Create = Ok us → Forall (λ it, int_upc v it.2) us.

Lemma step_kept base bases s s' : inv base s → int_requests (board s) → step v currentFrame self model_ bases s = Ok s' → inv base s'.
Proof using Hsane Hunits Hmodel.
  intros Hi Hq H. unfold step in H.
  assert (inv base (cache_bases bases s) ∧ board (cache_bases bases s) = board s) as [Hi0 Eb0].
  { unfold cache_bases. destruct (baseLocations_ s); [|done]. split; [|done]. by destruct Hi. }
  cbn zeta in H. step_in H. assert (inv base a ∧ board a = board (cache_bases bases s)) as [Hi1 Eb1].
  { unfold first_step in E. destruct (firstStep_ _); [|by simplify_eq]. cbn zeta in E. step_in E. destruct a0 as [s2 r]. simplify_eq.
    apply (choose_kept base) in E0 as [-> _]; [cbn; split; [by destruct Hi0|done]|by destruct Hi0|].
    intros q p Hqp. unfold Upc.positionArgMax in Hqp. cbn in Hqp. simplify_eq. unfold int_pos, in_int. cbn. lia. }
  step_in H. step_in H.
  assert (inv base a0) as Hi2.
  { unfold new_tasks in E0. step_in E0. rename a2 into us. eapply (rfold_inv (inv base)); [|exact Hi1|exact E0].
    assert (Forall (λ it, int_upc v it.2) us) as Hus by (apply Hq; by rewrite <-Eb0, <-Eb1). rewrite Forall_forall in Hus.
    intros s1 it s2 Hit H1. by apply new_task_kept, Hus. }
  assert (inv base a1) as Hi3.
  { unfold forward_priorities in E1. step_in E1. eapply (rfold_inv (inv base)); [|exact Hi2|exact E1].
    intros s1 it s2 _ H1 H2. cbn beta in H2. destruct (Upc.state it.2); try (by simplify_eq). step_in H2. by eapply forward_kept. }
  unfold retries in H. step_in H. eapply (rfold_inv (inv base)); [|exact Hi3|exact H].
  intros s1 o s2 _ H1 H2. by eapply retry_kept.
Qed.

End kept.
End BuildingPlacerKept.
