(* ===== verification/BuildingPlacerRuns.v ===== *)
(** * What the building placer guarantees

    Over any sequence of frames: who holds which tiles, that places are given
    back, and what becomes of a task when its building ends or fails.  And a gap
    in the rules: a sharp position is taken without a look at the addon. *)

From S2P Require Import Prelude Floats Geometry BuildTypes Units GameMechanics Upc UpcStorage UpcFilter Algorithms UnitsInfo Tiles.
From S2P Require Import Tasks BoardTasks Blackboard Placement PlacementRules PlacementLayout PlacementSearch PlacementUpc PlacementKept.
From S2P Require Import BuildingPlacer BuildingPlacerKept.

Module BuildingPlacerRuns.
Import Placement PlacementRules PlacementSearch PlacementUpc PlacementKept BuildingPlacer BuildingPlacerKept.

Section runs.
Context {table : BuildType.Table} {attributes : UnitsInfo.Attributes} {facts : Facts} {classes : Task.Classes} (self : ModulePtr).
Context (model_ : option (Tiles.state → Upc.t → option Upc.area → res Position)).

(** Positions and sources of the tasks are ints in what is known of the units. *)
Definition int_sources (v : view) (s : state) : Prop :=
  int_units v ∧ ∀ r b, bps s !! r = Some b → int_upc v (sourceUpc b).

(** What happens to the module: it is stepped, its tasks are updated and
    cancelled, a game starts, units move, and others work on the board, the tasks
    and the tiles, without touching the marks. *)
Inductive happens : view * state → view * state → Prop :=
| h_step v currentFrame bases s s' : int_requests v (board s) →
    step v currentFrame self model_ bases s = Ok s' → happens (v, s) (v, s')
| h_update v r s s' : update s r = Ok s' → happens (v, s) (v, s')
| h_cancel v fuel r s s' : cancel fuel s r = Ok s' → happens (v, s) (v, s')
| h_start v s : happens (v, s) (v, onGameStart s)
| h_frame v v' s : int_sources v' s → happens (v, s) (v', s)
| h_others v s bd h ts : Tiles.WF ts → int_tiles ts →
    Tiles.mapTileWidth_ ts = Tiles.mapTileWidth_ (tiles s) → Tiles.mapTileHeight_ ts = Tiles.mapTileHeight_ (tiles s) →
    (∀ p, marked ts p ↔ marked (tiles s) p) →
    happens (v, s) (v, State bd h (nextTask s) (bps s) ts (firstStep_ s) (baseLocations_ s)).

Lemma happens_inv base vs vs' : (∀ ty, sane ty) → (∀ predict ts u a p, model_ = Some predict → predict ts u a = Ok p → int_pos p) →
  happens vs vs' → int_units vs.1 ∧ inv vs.1 base vs.2 → int_units vs'.1 ∧ inv vs'.1 base vs'.2.
Proof.
  intros Hsane Hmodel H [Hu Hi]. destruct H as [v cf bases s s' Hq H|v r s s' H|v fuel r s s' H|v s|v v' s [Hu' Hs]|v s bd h ts HW HI Ew Eh Hm];
    cbn [fst snd] in *; (split; [done|]).
  - by eapply step_kept.
  - by eapply placer_update_kept.
  - by eapply cancel_kept.
  - by destruct Hi.
  - destruct Hi as [W I F T Fi A O M]. constructor; try done. intros r b Hb. split; [apply (T r b Hb)|by eapply Hs].
  - destruct Hi as [W I F T Fi A O M]. constructor; try done.
    + intros r b Hb Hr. specialize (Fi r b Hb Hr). unfold room_fits, Tiles.fits in *. cbn [tiles]. by rewrite Ew, Eh.
    + intros p Hp. cbn [tiles]. rewrite Hm. by apply M.
Qed.

(** C16 The reservations of the building placer, over any sequence of frames from a
    start without tasks: a tile is marked reserved exactly when it was so in the
    beginning or one task holds it; no tile is held twice, and none that was
    reserved before; and giving back the place of a task never fails and clears
    exactly the tiles it holds. *)
Theorem placer_reservations v0 s0 v s : (∀ ty, sane ty) → (∀ predict ts u a p, model_ = Some predict → predict ts u a = Ok p → int_pos p) →
  int_units v0 → bps s0 = ∅ → Tiles.WF (tiles s0) → int_tiles (tiles s0) → rtc happens (v0, s0) (v, s) →
  (∀ p, 0 ≤ p < Tiles.size → marked (tiles s) p ↔ (∃ r, holds s r p) ∨ marked (tiles s0) p) ∧
  (∀ r r' p, holds s r p → holds s r' p → r = r') ∧
  (∀ r p, holds s r p → ¬ marked (tiles s0) p) ∧
  (∀ r b, bps s !! r = Some b → ∃ s', unreserveLocation s r = Ok s' ∧
     ∀ p, 0 ≤ p < Tiles.size → marked (tiles s') p ↔ marked (tiles s) p ∧ ¬ holds s r p).
Proof.
  intros Hsane Hmodel Hu Hb HW HI Hruns.
  assert (∀ r p, ¬ holds s0 r p) as Hno by (intros r p (b & Hrb & _); by rewrite Hb in Hrb).
  assert (inv v0 (marked (tiles s0)) s0) as H0.
  { constructor; try done; try (intros r b Hrb; by rewrite Hb in Hrb).
    - intros r r' p Hp. by apply Hno in Hp.
    - intros r p Hp. by apply Hno in Hp.
    - intros p Hp. split; [by right|]. intros [[r Hr]|?]; [by apply Hno in Hr|done]. }
  assert (int_units v ∧ inv v (marked (tiles s0)) s) as [Hu' Hi].
  { assert (∀ vs vs', rtc happens vs vs' → int_units vs.1 ∧ inv vs.1 (marked (tiles s0)) vs.2 → int_units vs'.1 ∧ inv vs'.1 (marked (tiles s0)) vs'.2) as Hall.
    { induction 1 as [|a b c Hab _ IH]; [done|]. intros Ha. apply IH. by eapply happens_inv. }
    by apply (Hall (v0, s0) (v, s)). }
  split_and!; [apply Hi|apply Hi|apply Hi|]. intros r b Hrb.
  destruct (unreserve_ok v Hsane _ s r b Hi Hrb) as (ts & E & _ & Hm). eexists. split; [exact E|exact Hm].
Qed.

(** The update of a task that follows another one.  As long as that one is under
    way, its status is taken over.  When it succeeds or is cancelled, so is the
    task, and its place is given back.  When it fails, the task forgets it, keeps
    its place and asks for a new one. *)
Theorem placer_update_spec v base s r b tid tgt tk t : (∀ ty, sane ty) → inv v base s → bps s !! r = Some b →
  heap s !! r = Some tk → Task.cls tk = Task.KProxy tid (Some tgt) → heap s !! tgt = Some t → tgt ≠ r →
  ∃ s' tk' b', update s r = Ok s' ∧ heap s' !! r = Some tk' ∧ bps s' !! r = Some b' ∧ inv v base s' ∧
    match Task.status t with
    | Failure => Task.status tk' = Unknown ∧ Task.cls tk' = Task.KProxy (-1) None ∧ respawn b' = true ∧ reserved_ b' = reserved_ b ∧ tiles s' = tiles s
    | Success | Cancelled => Task.status tk' = Task.status t ∧ reserved_ b' = false ∧
        ∀ p, 0 ≤ p < Tiles.size → marked (tiles s') p ↔ marked (tiles s) p ∧ ¬ holds s r p
    | _ => Task.status tk' = Task.status t ∧ b' = b ∧ tiles s' = tiles s
    end.
Proof.
  intros Hsane Hi Hb Hr Hcls Ht Hne. unfold update. rewrite Hr. cbn [of_option rbind]. rewrite Hcls. unfold Task.proxy_update. cbn [rbind].
  rewrite Ht. cbn [of_option rbind]. set (tk1 := Task.setStatus (Task.status t) _). set (s1 := set_heap s _).
  assert (heap s1 !! r = Some tk1) as Hr1 by apply lookup_insert_eq. rewrite Hr1. cbn [of_option rbind].
  assert (inv v base s1) as Hi1 by (by apply inv_heap). assert (Task.status tk1 = Task.status t) as Est by done.
  unfold Task.finished. rewrite Est. unfold bp. assert (bps s1 !! r = Some b) as Hb1 by done. rewrite Hb1. cbn [of_option rbind].
  destruct (unreserve_ok v Hsane base s1 r b Hi1 Hb1) as (ts & E & Hi2 & Hm).
  destruct (Task.status t) eqn:Es.
  - exists s1, tk1, b. split_and!; done.
  - exists s1, tk1, b. split_and!; done.
  - repeat (case_bool_decide; try done). cbn [orb]. eexists _, tk1, _. split; [exact E|]. split; [exact Hr1|]. split; [apply lookup_insert_eq|].
    split_and!; done.
  - repeat (case_bool_decide; try done). cbn [orb]. eexists _, tk1, _. split; [exact E|]. split; [exact Hr1|]. split; [apply lookup_insert_eq|].
    split_and!; done.
  - repeat (case_bool_decide; try done). cbn [orb]. eexists _, _, _. split; [reflexivity|]. split; [apply lookup_insert_eq|]. split; [apply lookup_insert_eq|].
    split; [|done]. destruct (in_task _ _ _ Hi1 r b Hb1).
    apply inv_heap, (inv_insert v base s1 r); [done|apply Z.le_refl|by eapply (in_fresh _ _ _ Hi1)|done|done|exact (in_fits _ _ _ Hi1 r b Hb1)|].
    intros p. unfold holds. rewrite Hb1. cbn. split; [intros [? ?]; by exists b|]. by intros (? & [= <-] & ?).
Qed.

(** A UPC whose sharp position is good for a building with an addon keeps that
    position also where the addon has no room; reserving the place then throws,
    and the tiles of the building stay marked. *)
Theorem sharp_addon_throws v ts u ty a q p : Tiles.WF ts → located ts → known v ts → known_lists v ts → sane ty → answerable v ts u →
  1 < Tiles.mapTileWidth_ ts → 1 < Tiles.mapTileHeight_ ts →
  Upc.positionArgMax (units v) u = Ok (q, p) → fltb (f32_lit 99 100) p = true → can_stand v ts ty (Vec2.x q) (Vec2.y q) →
  getAddon ty = Some a → ¬ free_at ts a (addonX ty (Vec2.x q)) (addonY ty a (Vec2.y q)) →
  ∃ u' msg, PlacementUpc.upcWithPositionForBuilding v ts u ty = Ok (ts, Some u') ∧ Upc.position u' = Upc.PPosition q ∧
    fullReserve ts ty q = Ok (Tiles.set_tiles ts (Tiles.upd (Tiles.set_reserved true) (Tiles.area ty (Vec2.x q) (Vec2.y q)) (Tiles.tiles ts)), Some msg).
Proof.
  intros HW HL HK HKL HT HA Hw Hh Eq Hp Hst Ha Hno.
  destruct (choose_position_ok v ts u ty) as (pos & E & _ & Hpos); [done..|]. rewrite (Hpos q p Eq Hp Hst) in E.
  pose proof (stand_free_at v ts ty _ _ Hst) as [Hf Hfree].
  destruct (an_argmax _ _ _ HA) as (q' & p' & Eq' & Hx & Hy & _). assert (q' = q) as -> by congruence.
  unfold PlacementUpc.upcWithPositionForBuilding. rewrite E. cbn [rbind].
  assert ((Vec2.x q =? -1) && (Vec2.y q =? -1) = false) as -> by (apply andb_false_iff; left; apply Z.eqb_neq; destruct Hf; lia).
  eexists. unfold fullReserve, fullReserveImpl. rewrite Ha. destruct (addon_int ts ty a _ _ HW HT Ha Hf) as [Hax Hay].
  destruct (Tiles.reserveAreaImpl_ok true ts ty _ _ HW Hx Hy (proj1 HT)) as [E1 _]. rewrite (E1 Hf Hfree). cbn [and_then rbind snd fst].
  set (ts1 := Tiles.set_tiles ts _). assert (Tiles.WF ts1) as HW1 by (by apply Tiles.wf_upd). assert (Tiles.sane_size a) as Hsa by (by apply HT).
  destruct (Tiles.reserveAreaImpl_ok true ts1 a _ _ HW1 Hax Hay Hsa) as [_ E2].
  destruct E2 as [msg ->]; [|by exists msg]. intros [Hf2 Hall]. apply Hno. split; [exact Hf2|]. intros i t Hi Ht.
  apply (Hall i t Hi). unfold ts1. assert (Tiles.fits ts a (addonX ty (Vec2.x q)) (addonY ty a (Vec2.y q))) as Hf2' by exact Hf2.
  pose proof (Tiles.area_grid _ _ _ _ HW Hf2' i Hi). rewrite Tiles.reserved_upd; [|done|by apply nodup_area, (proj1 HT)|by eapply Tiles.area_grid|lia].
  rewrite decide_False; [done|]. intros Hi'. by eapply (addon_beside ts ty a); [done|apply (proj1 HT)|..].
Qed.

End runs.
End BuildingPlacerRuns.
