(* ===== verification/PlacementExample.v ===== *)
(** * An example map for the building placer

    A map of eight by eight walkable and buildable tiles, and the theorems about
    placing buildings at work on it. *)

From S2P Require Import Prelude Floats Geometry BuildTypes Units GameMechanics Upc UpcStorage UpcFilter Algorithms UnitsInfo UnitGroups Tiles.
From S2P Require Import Tasks BoardTasks Blackboard Placement PlacementRules PlacementLayout PlacementSearch PlacementUpc PlacementKept.
From S2P Require Import BuildingPlacer BuildingPlacerKept BuildingPlacerRuns.

Module PlacementExample.
Import Placement PlacementRules PlacementLayout PlacementSearch PlacementUpc PlacementKept BuildingPlacer BuildingPlacerKept BuildingPlacerRuns.

#[local] Existing Instance Tasks.Task.example_classes.

#[local] Existing Instance UnitGroups.example_types.
#[local] Existing Instance UnitGroups.example_attributes.
#[local] Instance example_facts : Facts := {|
  requiresCreep := λ _, false; requiresPsi := λ _, false; hasGroundWeapon := λ _, false;
  hasAirWeapon := λ _, false; canProduce := λ _, false |}.

Definition example_area : Upc.area := Upc.Area 0 16 16 (Vec2.Pos 0 0) (Vec2.Pos 32 32).
Definition example_view : view :=
  View 100 ∅ (λ _, 0) (λ _, 0) (λ _, 0) (λ _, 0) [] [] [] [] (λ _, 0) (λ _, Some example_area) (λ _, []).

Definition ground (i : nat) : Tiles.tile :=
  Tiles.set_static (4 * (Z.of_nat i mod 256)) (4 * (Z.of_nat i / 256)) true 0 true Tiles.tile0.
Definition example_tiles : Tiles.state :=
  Tiles.State (ground <$> seq 0 (Z.to_nat Tiles.size)) 8 8 [] 0 0 0.

Lemma example_tile i t : Tiles.tiles example_tiles !! i = Some t → t = ground i ∧ (i < Z.to_nat Tiles.size)%nat.
Proof.
  unfold example_tiles. cbn [Tiles.tiles]. rewrite list_lookup_fmap. intros Hi. apply fmap_Some in Hi as (j & Hj & ->).
  apply lookup_seq in Hj as [-> Hj]. done.
Qed.

Lemma example_wf : Tiles.WF example_tiles.
Proof.
  constructor; unfold example_tiles; cbn [Tiles.tiles Tiles.mapTileWidth_ Tiles.mapTileHeight_]; [by rewrite length_fmap, length_seq|..];
    unfold Tiles.tilesWidth, Tiles.tilesHeight; lia.
Qed.

Lemma example_located : located example_tiles.
Proof.
  intros p t (Hp & _) Ht. apply example_tile in Ht as [-> _]. unfold ground. cbn. rewrite Z2Nat.id by done. done.
Qed.

Lemma example_tiles_known : known example_view example_tiles.
Proof.
  constructor; [by intros i ?%elem_of_nil|]. intros p t i Ht Hb. apply example_tile in Ht as [-> _]. done.
Qed.

Lemma example_types_sane ty : sane ty.
Proof. split; [|intros a _]; unfold Tiles.sane_size; cbn; lia. Qed.

Lemma example_ints : int_tiles example_tiles.
Proof.
  intros i t Ht. apply example_tile in Ht as [-> Hi]. unfold ground, in_int, Tiles.size, Tiles.tilesWidth, Tiles.tilesHeight in *. cbn.
  Z.div_mod_to_equations. lia.
Qed.

Lemma example_stand a px py : a ≠ BuildType.Resource_Vespene_Geyser → Tiles.fits example_tiles a px py → can_stand example_view example_tiles a px py.
Proof.
  intros _ Hf. split; [done|]. intros p t _ Ht. apply example_tile in Ht as [-> _]. by constructor.
Qed.

Lemma example_tiles_fits ty px py : Tiles.fits example_tiles ty px py ↔ 0 ≤ px < 24 ∧ 0 ≤ py < 24.
Proof.
  unfold Tiles.fits, example_tiles.
  cbn [Tiles.mapTileWidth_ Tiles.mapTileHeight_ UnitsInfo.tileWidth UnitsInfo.tileHeight UnitGroups.example_attributes].
  Z.div_mod_to_equations. lia.
Qed.

Lemma example_on_map px py : 0 ≤ px < 32 → 0 ≤ py < 32 → Tiles.on_map example_tiles (px / 4) (py / 4).
Proof. intros Hx Hy. unfold Tiles.on_map, example_tiles. cbn [Tiles.mapTileWidth_ Tiles.mapTileHeight_]. Z.div_mod_to_equations. lia. Qed.

(** ** The theorems at work *)

Lemma canBuildAt_spec_witness : canBuildAt example_view example_tiles BuildType.Protoss_Pylon (Vec2.Pos 8 8) false = Ok true.
Proof.
  destruct (canBuildAt_spec example_view example_tiles BuildType.Protoss_Pylon 8 8 false) as (b & E & Hb);
    [apply example_wf|unfold in_int; lia|unfold in_int; lia|apply example_types_sane|apply example_tiles_known|].
  rewrite E. f_equal. apply Hb. apply example_stand; [done|]. apply example_tiles_fits. lia.
Defined.

Lemma layout_valid_spec_witness : ∃ b, buildingLayoutValid example_tiles (Vec2.Pos 12 12) = Ok b ∧
  (b = true ↔ compact example_tiles 771 ∧ connected example_tiles 771).
Proof.
  apply (layout_valid_spec example_tiles 12 12); [apply example_wf|lia|lia|]. apply (example_on_map 12 12); lia.
Defined.

Lemma findBuildLocation_spec_witness : ∃ pos,
  findBuildLocation example_view (λ _ _ _, Ok f64_0) example_tiles [Vec2.Pos 12 12] BuildType.Protoss_Pylon (λ _ _, Ok f32_1) = Ok (example_tiles, pos).
Proof.
  destruct (findBuildLocation_spec example_view (λ _ _, Ok f32_1) example_tiles BuildType.Protoss_Pylon (λ _ _ _, Ok f64_0) [Vec2.Pos 12 12])
    as (pos & found & E & _); [apply example_wf|apply example_located|apply example_tiles_known|apply example_types_sane| | | |done|done|by exists pos].
  - intros px py. by exists f32_1.
  - intros t. by exists f64_0.
  - intros p ->%list_elem_of_singleton _ _. apply (example_on_map 12 12); lia.
Defined.

Lemma canPlace_spec_witness : ∃ b, canPlaceBuildingAtTile example_view (λ _ _, Ok f32_1) example_tiles BuildType.Terran_Command_Center (ground 771) = Ok (example_tiles, b).
Proof.
  destruct (canPlace_spec example_view (λ _ _, Ok f32_1) example_tiles BuildType.Terran_Command_Center (ground 771)) as (b & E & _);
    [apply example_wf|vm_compute; split; [discriminate|reflexivity]|vm_compute; split; [discriminate|reflexivity]|apply example_types_sane|apply example_tiles_known|by exists f32_1|by exists b].
Defined.

(** A request with a sharp position. *)
Definition example_upc : Upc.t := Upc.UPCTuple [] (Upc.PPosition (Vec2.Pos 4 4)) [(Upc.Command.Create, f32_1)] Upc.SEmpty 1.

Lemma example_lists : known_lists example_view example_tiles.
Proof.
  constructor; [by intros i ?%elem_of_nil|by intros a p ?%elem_of_nil|by intros i u Hu].
Qed.

Lemma example_answerable : answerable example_view example_tiles example_upc.
Proof.
  constructor.
  - exists (Vec2.Pos 4 4), f32_1. split; [done|]. split; [unfold in_int; cbn; lia|]. split; [unfold in_int; cbn; lia|].
    intros _. split; [intros _ _; apply example_on_map; cbn; lia|by eexists].
  - intros px py. unfold positionProb, Upc.positionProb. cbn [Upc.position example_upc Upc.scale]. destruct (_ && _); by eexists.
  - intros p [= <-] _ _. apply example_on_map; cbn; lia.
Qed.

Lemma example_fits_cc : Tiles.fits example_tiles BuildType.Terran_Command_Center 4 4.
Proof. apply example_tiles_fits. lia. Qed.

Lemma upcWithPosition_spec_witness :
  PlacementUpc.upcWithPositionForBuilding example_view example_tiles example_upc BuildType.Terran_Command_Center =
  Ok (example_tiles, Some (Upc.UPCTuple [] (Upc.PPosition (Vec2.Pos 4 4)) [(Upc.Command.Create, f32_1)] Upc.SEmpty 1)).
Proof.
  destruct (upcWithPosition_spec example_view example_tiles example_upc BuildType.Terran_Command_Center) as (r & E & _ & H);
    [apply example_wf|apply example_located|apply example_tiles_known|apply example_lists|apply example_types_sane|apply example_answerable|done|done|].
  rewrite E. rewrite (H (Vec2.Pos 4 4) f32_1); [done|done|done|]. apply example_stand; [done|apply example_fits_cc].
Defined.

(** A task whose building has failed. *)
Definition example_heap : Task.heap := {[1 := Task.ProxyTask 7 5; 2 := Task.Task Failure 7 ∅ (Task.KTask 0)]}.
Definition example_linked : Task.heap := <[1 := Task.set_cls (Task.KProxy 7 (Some 2)) (Task.ProxyTask 7 5)]> example_heap.
Definition example_state (m : gmap Task.ref bptask) : state := State Blackboard.make example_linked 3 m example_tiles false [].
Definition example_bp : bptask := BP false example_upc BuildType.Terran_Command_Center (Vec2.Pos 4 4) false.

Lemma example_int : int_upc example_view example_upc.
Proof. intros q p Hq. unfold Upc.positionArgMax in Hq. cbn in Hq. simplify_eq. unfold int_pos, in_int. cbn. lia. Qed.

Lemma example_unmarked p : ¬ marked example_tiles p.
Proof. intros (t & Ht & Hr). apply example_tile in Ht as [-> _]. done. Qed.

Lemma example_only r b : bps (example_state {[1 := example_bp]}) !! r = Some b → r = 1 ∧ b = example_bp.
Proof. intros Hb. cbn [bps example_state] in Hb. by apply lookup_singleton_Some in Hb as [<- <-]. Qed.

Lemma example_inv : inv example_view (λ _, False) (example_state {[1 := example_bp]}).
Proof.
  assert (∀ r p, ¬ holds (example_state {[1 := example_bp]}) r p) as Hno.
  { intros r p (b & Hb & Hr & _). by apply example_only in Hb as [_ ->]. }
  constructor.
  - apply example_wf.
  - apply example_ints.
  - intros r b [-> _]%example_only. cbn [nextTask example_state]. lia.
  - intros r b [_ ->]%example_only. split; [unfold int_pos, in_int; cbn; lia|apply example_int].
  - by intros r b [_ ->]%example_only.
  - intros r r' p Hp. by apply Hno in Hp.
  - auto.
  - intros p _. split; [by intros ?%example_unmarked|]. intros [[r Hr]|[]]. by apply Hno in Hr.
Qed.

Lemma placer_update_spec_witness : ∃ s', update (example_state {[1 := example_bp]}) 1 = Ok s' ∧
  respawn <$> (bps s' !! 1) = Some true.
Proof.
  destruct (placer_update_spec example_view (λ _, False) (example_state {[1 := example_bp]}) 1 example_bp 7 2
    (Task.set_cls (Task.KProxy 7 (Some 2)) (Task.ProxyTask 7 5)) (Task.Task Failure 7 ∅ (Task.KTask 0))) as (s' & tk' & b' & E & _ & Hb & _ & H);
    [apply example_types_sane|apply example_inv|reflexivity|reflexivity|reflexivity|reflexivity|discriminate|].
  exists s'. rewrite Hb. split; [exact E|]. cbn. destruct H as (_ & _ & H & _). by rewrite H.
Defined.

Lemma placer_reservations_witness : bps (example_state ∅) = ∅ ∧ ¬ marked (tiles (example_state ∅)) 771.
Proof.
  split; [reflexivity|]. intros Hm.
  destruct (placer_reservations None None example_view (example_state ∅) example_view (example_state ∅)) as (H & _ & H3 & _).
  - apply example_types_sane.
  - discriminate.
  - by intros i u Hu.
  - reflexivity.
  - apply example_wf.
  - apply example_ints.
  - eapply rtc_l; [|apply rtc_refl]. apply (h_step None None example_view 100 [] (example_state ∅)); [|reflexivity].
    intros us Hus. assert (us = []) as -> by (cbn in Hus; congruence). constructor.
  - apply (H 771 ltac:(vm_compute; split; [discriminate|reflexivity])) in Hm as [[r Hr]|Hm];
      [destruct Hr as (b & Hb & _); cbn [bps example_state] in Hb; by rewrite lookup_empty in Hb|by apply example_unmarked in Hm].
Defined.

(** The addon of a command centre at the right border has no room. *)
Definition example_border : Upc.t := Upc.UPCTuple [] (Upc.PPosition (Vec2.Pos 20 4)) [(Upc.Command.Create, f32_1)] Upc.SEmpty 1.

Lemma example_border_answerable : answerable example_view example_tiles example_border.
Proof.
  constructor.
  - exists (Vec2.Pos 20 4), f32_1. split; [done|]. split; [unfold in_int; cbn; lia|]. split; [unfold in_int; cbn; lia|].
    intros _. split; [intros _ _; apply example_on_map; cbn; lia|by eexists].
  - intros px py. unfold positionProb, Upc.positionProb. cbn [Upc.position example_border Upc.scale]. destruct (_ && _); by eexists.
  - intros p [= <-] _ _. apply example_on_map; cbn; lia.
Qed.

Lemma sharp_addon_throws_witness : ∃ u' msg ts,
  PlacementUpc.upcWithPositionForBuilding example_view example_tiles example_border BuildType.Terran_Command_Center = Ok (example_tiles, Some u') ∧
  fullReserve example_tiles BuildType.Terran_Command_Center (Vec2.Pos 20 4) = Ok (ts, Some msg).
Proof.
  destruct (sharp_addon_throws example_view example_tiles example_border BuildType.Terran_Command_Center BuildType.Terran_Comsat_Station
    (Vec2.Pos 20 4) f32_1) as (u' & msg & E1 & _ & E2);
    [apply example_wf|apply example_located|apply example_tiles_known|apply example_lists|apply example_types_sane|apply example_border_answerable
    |done|done|done|done| |done| |].
  - apply example_stand; [done|]. apply example_tiles_fits. cbn. lia.
  - intros [Hf%example_tiles_fits _]. revert Hf. unfold addonX, tileWidth, Tiles.XYWalktilesPerBuildtile.
    cbn [Vec2.x UnitsInfo.tileWidth UnitGroups.example_attributes]. lia.
  - exists u', msg. eexists. split; [exact E1|exact E2].
Defined.

End PlacementExample.
