(* ===== verification/Scouting.v ===== *)
(** * The scouting module ([src/modules/scouting.cpp])

    [ScoutingModule] sends units to look for the enemy: a task per scout with the
    place it goes to and what it is to find out.  What the task class adds to
    [Task] is in a map beside the heap of tasks.  Where a sneaking overlord goes,
    safe paths, the areas and what units see are parameters. *)

From Stdlib Require Import SpecFloat.
From S2P Require Import Prelude Floats Geometry BuildTypes Units GameMechanics Upc UpcStorage UpcFilter Algorithms.
From S2P Require Import Tasks BoardTasks Blackboard.

Module Scouting.

(** [src/src/modules/scouting.h:19-25] ScoutingGoal *)
Inductive ScoutingGoal := FindEnemyBase | ExploreEnemyBase | FindEnemyExpand | SneakyOverlord | Automatic.
#[export] Instance goal_eq_dec : EqDecision ScoutingGoal.
Proof. solve_decision. Defined.

(** [src/src/modules/scouting.cpp:511-516] ScoutingTask *)
Record stask := STask { location_ : Position; goal_ : ScoutingGoal; targetVisited_ : bool; targetScouted_ : bool }.
Definition set_location (t : stask) p := STask p (goal_ t) (targetVisited_ t) (targetScouted_ t).
Definition set_goal (t : stask) g := STask (location_ t) g (targetVisited_ t) (targetScouted_ t).
Definition set_visited (t : stask) b := STask (location_ t) (goal_ t) b (targetScouted_ t).
Definition set_scouted (t : stask) b := STask (location_ t) (goal_ t) (targetVisited_ t) b.

(** What is known of a unit besides [Units.Unit]. *)
Record traits := Traits {
  active : bool; idle : bool; flying : bool; sightRange : Z; movingTarget : Position; beingAttackedByEnemies : list Z }.

Record env := Env {
  frame : Z; mapSize : Z;
  units : gmap Z Unit; trait : Z → traits; isBuilding : BuildType → bool;
  myUnits : list Z; visibleEnemyUnits : list Z;
  (** Of [AreaInfo]: the candidates, my start, the number of enemy bases, and
      whether the area of a position is an enemy base or a possible start. *)
  candidateEnemyStartLocations : list Position; myStartLocation : Position; numEnemyBases : Z;
  areaFlags : Position → res (bool * bool);
  (** The choke points of the nearest area, path lengths of BWEM and [walkPath]. *)
  chokePoints : Position → list Position; pathLength : Position → Position → Z; walkDistance : Position → Position → float32;
  safeMoveTo : Z → Position → Position;
  (** [SneakyOverlordImpl::update]: what it returns and the location it sets. *)
  sneak : Task.ref → Z → Position → res (bool * Position);
  MoveToMinerals : Z; MoveToGas : Z }.

(** The module and what it works with. *)
Record state := State {
  board : Blackboard.t; heap : Task.heap; nextTask : Task.ref; stasks : gmap Task.ref stask;
  startingLocations_ : list (Position * Z); scoutingGoal_ : ScoutingGoal }.
Definition set_board (s : state) b := State b (heap s) (nextTask s) (stasks s) (startingLocations_ s) (scoutingGoal_ s).
Definition set_heap (s : state) h := State (board s) h (nextTask s) (stasks s) (startingLocations_ s) (scoutingGoal_ s).
Definition set_stasks (s : state) m := State (board s) (heap s) (nextTask s) m (startingLocations_ s) (scoutingGoal_ s).
Definition set_locations (s : state) l := State (board s) (heap s) (nextTask s) (stasks s) l (scoutingGoal_ s).

#[local] Existing Instance Vec2.t_eq_dec.

Section scouting.
Context (e : env) (self : ModulePtr).

Definition unit (u : Z) : res Unit := of_option (units e !! u).
(** [src/src/areainfo.cpp:342-344] AreaInfo::foundEnemyStartLocation *)
Definition foundEnemyStartLocation : bool := (length (candidateEnemyStartLocations e) =? 1)%nat.

(** ** Tasks *)

Definition task (s : state) (r : Task.ref) : res (Task.t * stask) :=
  let? tk := of_option (heap s !! r) in
  let? st := of_option (stasks s !! r) in Ok (tk, st).
Definition set_status (s : state) (r : Task.ref) (tk : Task.t) (st : TaskStatus) : state :=
  set_heap s (<[r := Task.setStatus st tk]> (heap s)).
Definition set_stask (s : state) (r : Task.ref) (st : stask) : state := set_stasks s (<[r := st]> (stasks s)).

(** [*units().begin()]; scouting tasks have one unit.

    [src/src/modules/scouting.cpp:435-440] ScoutingTask::getUnit *)
Definition getUnit (tk : Task.t) : res Z := of_option (head (elements (Task.units tk))).

(** [src/src/modules/scouting.cpp:479-509] ScoutingTask::foundBlockedChoke *)
Definition foundBlockedChoke (tk : Task.t) (st : stask) : res bool :=
  let? u := getUnit tk in
  rfold (λ found i,
    let? other := unit i in
    Ok (found || existsb (λ c,
      fltb (GameMechanics.distance (Vec2.x c) (Vec2.y c) (Unit.x other) (Unit.y other)) (f32_of_Z 42))
      (chokePoints e (location_ st)))) (beingAttackedByEnemies (trait e u)) false.

(** [src/src/modules/scouting.cpp:411-418] ScoutingTask::update *)
Definition sees_building (u : Unit) (i : Z) : res bool :=
  rfold (λ found b,
    let? bldg := unit b in
    Ok (found || (isBuilding e (Unit.type bldg) &&
      fleb (GameMechanics.distance (Unit.x bldg) (Unit.y bldg) (Unit.x u) (Unit.y u)) (f32_of_Z (sightRange (trait e i))))))
    (visibleEnemyUnits e) false.

(** [src/src/modules/scouting.cpp:378-433] ScoutingTask::update *)
Definition update (s : state) (r : Task.ref) : res state :=
  let? ts := task s r in
  let '(tk, st) := ts in
  if Task.finished tk then Ok s else
  let? flags := areaFlags e (location_ st) in
  let '(isEnemyBase, isPossibleEnemyStartLocation) := flags in
  let? visited := if isEnemyBase || negb isPossibleEnemyStartLocation then Ok true else foundBlockedChoke tk st in
  let st := set_visited st visited in
  let? tk := BoardTasks.removeDeadOrReassignedUnits (Blackboard.tasks (board s)) r tk in
  let s := set_heap (set_stask s r st) (<[r := tk]> (heap s)) in
  if bool_decide (Task.units tk = ∅) then Ok (set_status s r tk Failure) else
  let? i := getUnit tk in
  let? u := unit i in
  let? sees := sees_building u i in
  let st := if (sees : bool) || (bool_decide (goal_ st = FindEnemyBase) && foundEnemyStartLocation) then set_scouted st true else st in
  let? st := if bool_decide (goal_ st = SneakyOverlord) then
               let? bp := sneak e r i (location_ st) in
               let st := set_location st bp.2 in
               Ok (if (bp.1 : bool) then st else set_goal st FindEnemyBase)
             else Ok st in
  Ok (set_stask s r st).

(** The answer, and whether the task fails.

    [src/src/modules/scouting.cpp:450-468] ScoutingTask::satisfiesGoal *)
Definition satisfiesGoal (st : stask) : bool * bool :=
  match goal_ st with
  | ExploreEnemyBase => (targetScouted_ st, false)
  | FindEnemyBase | FindEnemyExpand => (targetVisited_ st, false)
  | SneakyOverlord => (false, false)
  | Automatic => (true, true)
  end.

(** [src/src/modules/scouting.cpp:470-477] ScoutingTask::resetLocation *)
Definition resetLocation (st : stask) (p : Position) : stask := STask p (goal_ st) false false.

(** ** Goals and locations *)

(** [src/src/modules/scouting.cpp:525-537] ScoutingModule::goal *)
Definition goal (s : state) : ScoutingGoal :=
  if bool_decide (scoutingGoal_ s ≠ Automatic) then scoutingGoal_ s
  else if negb foundEnemyStartLocation then FindEnemyBase
  else if foundEnemyStartLocation && (numEnemyBases e =? 0) then ExploreEnemyBase
  else FindEnemyExpand.

(** [src/src/modules/scouting.cpp:781-788] ScoutingModule::nextScoutingLocation *)
Definition travel (i : Z) (u : Unit) (p : Position) : float32 :=
  if flying (trait e i) then GameMechanics.distance (Unit.x u) (Unit.y u) (Vec2.x p) (Vec2.y p)
  else SFopp (walkDistance e (Unit.pos u) p).

(** [std::numeric_limits<int>::max()] *)
Definition int_max : Z := 2 ^ 31 - 1.

(** The best location so far, when it was visited, and its distance.

    [src/src/modules/scouting.cpp:778-794] ScoutingModule::nextScoutingLocation *)
Definition consider (i : Z) (u : Unit) (best : Position * Z * float32) (loc : Position * Z) : Position * Z * float32 :=
  let '(bestPos, lastFrame, minDist) := best in
  let '(p, f) := loc in
  let d := travel i u p in
  if (f <? lastFrame) || ((f =? lastFrame) && fltb d minDist) then (p, f, d) else best.

(** [src/src/modules/scouting.cpp:768-796] ScoutingModule::nextScoutingLocation *)
Definition nextScoutingLocation (i : Z) (u : Unit) (locations : list (Position * Z)) : Position :=
  (fold_left (consider i u) locations (Vec2.Pos (-1) (-1), int_max, S754_infinity false)).1.1.

Definition tasks_of (s : state) : res (list Task.ref) :=
  let? l := BoardTasks.tasksOfModule (Blackboard.tasks (board s)) self in
  rfold (λ acc o, let? r := of_option o in Ok (acc ++ [r])) l [].

(** [src/src/modules/scouting.cpp:810-816] ScoutingModule::updateLocations *)
Definition touch (s : state) (locations : list (Position * Z)) (r : Task.ref) : res (list (Position * Z)) :=
  let? st := of_option (stasks s !! r) in
  Ok (match al_find (location_ st) locations with
      | Some _ => al_set (location_ st) (frame e) locations
      | None => locations
      end).

(** [src/src/modules/scouting.cpp:798-826] ScoutingModule::updateLocations *)
Definition updateLocations (s : state) (locations : list (Position * Z)) (candidates : list Position) : res (list (Position * Z)) :=
  let locations := match locations with
                   | [] => fold_left (λ l p, match al_find p l with Some _ => l | None => al_set p (-1) l end) candidates []
                   | _ => locations
                   end in
  if (length locations <? 2)%nat then Ok locations else
  let? ts := tasks_of s in
  let? locations := rfold (touch s) ts locations in
  Ok (filter (λ l, l.1 ∈ candidates) locations).

(** ** Scouts *)

(** [src/src/modules/scouting.cpp:680-718] ScoutingModule::findUnit *)
Definition unitScore (s : state) (candidates : Upc.UnitMap) (pos : Position) (i : Z) : res float64 :=
  let kdInfty := S754_infinity false in
  match al_find (Some i) candidates with
  | None => Ok kdInfty
  | Some p =>
      if fleb p f32_0 then Ok kdInfty else
      let? td := BoardTasks.taskDataWithUnit (Blackboard.tasks (board s)) i in
      let? tk := match BoardTasks.task td with
                 | Some r => let? tk := of_option (heap s !! r) in Ok (Some tk)
                 | None => Ok None
                 end in
      let? u := unit i in
      if bool_decide (BoardTasks.owner td = self) then
        let? tk := of_option tk in
        if Task.finished tk then
          let l := if (0 <? Vec2.x pos) && (0 <? Vec2.y pos) then pathLength e (Unit.pos u) pos else 0 in
          Ok (f64_of_Z (-2 * mapSize e + l))
        else Ok kdInfty
      else if negb (active (trait e i)) then Ok (f64_of_Z (-200))
      else if bool_decide (Task.status <$> tk = Some Success) then Ok (f64_of_Z (-100))
      else match Unit.orders u with
           | o :: _ =>
               if idle (trait e i) then Ok (f64_of_Z 100)
               else if Units.Unit.order_type o =? MoveToMinerals e then Ok (f64_of_Z 15)
               else if Units.Unit.order_type o =? MoveToGas e then Ok (f64_of_Z 50)
               else Ok (f64_of_Z 100)
           | [] => Ok (f64_of_Z 100)
           end
  end.

(** [src/src/modules/scouting.cpp:670-722] ScoutingModule::findUnit *)
Definition findUnit (s : state) (candidates : Upc.UnitMap) (pos : Position) : res UnitPtr :=
  let? scored := rfold (λ acc i, let? d := unitScore s candidates pos i in Ok (acc ++ [(i, d)])) (myUnits e) [] in
  Ok (fst <$> Algorithms.getBestScore fltb snd (λ d, feqb d (S754_infinity false)) (λ _, false) scored).

(** ** UPCs and tasks *)

(** [src/src/modules/scouting.cpp:742-766] ScoutingModule::postMoveUPC *)
Definition postMoveUPC (s : state) (baseUpcId i : Z) (loc : Position) (useSafeMove : bool) : res (state * bool) :=
  let tgt := if useSafeMove then safeMoveTo e i loc else loc in
  if fleb (Vec2.distanceTo tgt (movingTarget (trait e i))) (f64_of_Z 4) then Ok (s, true) else
  let u := Upc.UPCTuple [(Some i, f32_1)] (Upc.PPosition tgt) [(Upc.Command.Move, f32_1)] Upc.SEmpty 1 in
  let? bi := Blackboard.postUPC (board s) (frame e) u baseUpcId self None in
  Ok (set_board s bi.1, 0 <=? bi.2).

(** [src/src/modules/scouting.cpp:373-376] ScoutingTask::ScoutingTask *)
Definition ScoutingTask (id i : Z) : Task.t := Task.setStatus Ongoing (Task.make id {[i]} 0).

(** [src/src/modules/scouting.cpp:724-740] ScoutingModule::postTask *)
Definition postTask (s : state) (baseUpcId i : Z) (loc : Position) (g : ScoutingGoal) : res (state * bool) :=
  let? sb := postMoveUPC s baseUpcId i loc true in
  let '(s, ok) := sb in
  if negb ok then Ok (s, false) else
  let r := nextTask s in
  let h := <[r := ScoutingTask baseUpcId i]> (heap s) in
  let? b := Blackboard.postTask h (board s) r self false (frame e) in
  Ok (State b h (r + 1) (<[r := STask loc g false false]> (stasks s)) (startingLocations_ s) (scoutingGoal_ s), true).

(** ** The step *)

(** A scout that has done what it was sent for.

    [src/src/modules/scouting.cpp:557-587] ScoutingModule::step *)
Definition goal_reached (s : state) (r : Task.ref) (tk : Task.t) (st : stask) (i : Z) : res state :=
  if bool_decide (goal_ st = FindEnemyBase) && bool_decide (goal s = FindEnemyBase) then
    let? u := unit i in
    let tgt := nextScoutingLocation i u (startingLocations_ s) in
    let s := set_stask s r (resetLocation st tgt) in
    let? sb := postMoveUPC s (Task.upcId tk) i tgt true in
    let '(s, ok) := sb in
    if (ok : bool) then Ok (set_locations s (al_set tgt (frame e) (startingLocations_ s)))
    else let? h := Task.base_cancel (heap s) r in Ok (set_heap s h)
  else Ok (set_status s r tk Success).

(** [src/src/modules/scouting.cpp:547-596] ScoutingModule::step *)
Definition step_task (s : state) (r : Task.ref) : res state :=
  let? ts := task s r in
  let? s := if Task.finished ts.1 then Ok s else update s r in
  let? ts := task s r in
  let '(tk, st) := ts in
  if Task.finished tk then Ok s else
  let? i := getUnit tk in
  let '(satisfied, fails) := satisfiesGoal st in
  let s := if (fails : bool) then set_status s r tk Failure else s in
  if (satisfied : bool) then goal_reached s r tk st i
  else let? sb := postMoveUPC s (Task.upcId tk) i (location_ st) (negb (bool_decide (goal_ st = SneakyOverlord))) in Ok sb.1.

(** [src/src/modules/scouting.cpp:608-627] ScoutingModule::step *)
Definition choose_scout (s : state) (u : Upc.t) : res UnitPtr :=
  match goal s with
  | FindEnemyBase => findUnit s (Upc.unit u) (Vec2.Pos (-1) (-1))
  | FindEnemyExpand | ExploreEnemyBase =>
      match startingLocations_ s with
      | [(p, _)] => findUnit s (Upc.unit u) p
      | _ => Ok None
      end
  | SneakyOverlord | Automatic => Ok None
  end.

(** [src/src/modules/scouting.cpp:601-646] ScoutingModule::step *)
Definition step_upc (s : state) (it : Z * Upc.t) : res state :=
  let '(id, u) := it in
  match Upc.unit u with
  | [] => Ok (set_board s (Blackboard.consumeUPCs (board s) [id]))
  | _ =>
      let? scout := choose_scout s u in
      match scout with
      | None => Ok s
      | Some i =>
          let? un := unit i in
          let s := set_board s (Blackboard.consumeUPCs (board s) [id]) in
          let g := if bool_decide (Unit.type un = BuildType.Zerg_Overlord) then SneakyOverlord else goal s in
          let tgt := nextScoutingLocation i un (startingLocations_ s) in
          let? sb := postTask s id i tgt g in
          let '(s, ok) := sb in
          Ok (if (ok : bool) then set_locations s (al_set tgt (frame e) (startingLocations_ s)) else s)
      end
  end.

(** [src/src/modules/scouting.cpp:650-667] ScoutingModule::step *)
Definition clean_up (s : state) (r : Task.ref) : res state :=
  let? ts := task s r in
  let tk := ts.1 in
  if negb (Task.finished tk) then Ok s else
  let? s := match elements (Task.units tk) with
            | [] => Ok s
            | _ =>
                let? i := getUnit tk in
                let? chk := BoardTasks.taskWithUnit (Blackboard.tasks (board s)) i in
                if bool_decide (chk = Some r) then
                  let? sb := postMoveUPC s (Task.upcId tk) i (myStartLocation e) true in Ok sb.1
                else Ok s
            end in
  Ok (set_board s (Blackboard.set_tasks (board s) (BoardTasks.markTaskForRemoval (Blackboard.tasks (board s)) (Task.upcId tk)))).

(** [src/src/modules/scouting.cpp:539-668] ScoutingModule::step *)
Definition step (s : state) : res state :=
  let? l := updateLocations s (startingLocations_ s) (candidateEnemyStartLocations e) in
  let s := set_locations s l in
  let? ts := tasks_of s in
  let? s := rfold step_task ts s in
  let? us := Blackboard.upcsWithSharpCommand (board s) Upc.Command.Scout in
  let? s := rfold step_upc us s in
  let? ts := tasks_of s in
  rfold clean_up ts s.

End scouting.

(** [src/src/modules/scouting.cpp:521-523] ScoutingModule::setScoutingGoal *)
Definition setScoutingGoal (s : state) (g : ScoutingGoal) : state :=
  State (board s) (heap s) (nextTask s) (stasks s) (startingLocations_ s) g.

End Scouting.
