(* ===== verification/ScoutingSteps.v ===== *)
(** * Which scout is sent where, and when scouting ends

    Properties of [Scouting]: the location a scout is sent to, the scout that is
    chosen, the upkeep of the start locations and the removal of finished
    tasks. *)

From Stdlib Require Import SpecFloat.
From S2P Require Import Prelude Floats Geometry BuildTypes Units GameMechanics Upc UpcStorage UpcFilter Algorithms.
From S2P Require Import Tasks BoardTasks Blackboard Scouting.
Import Scouting.

#[local] Existing Instance Vec2.t_eq_dec.

Section scouting.
Context (e : env) (self : ModulePtr).

(** ** The next location *)

(** No location of [l] is to be preferred to [b]. *)
Definition preferred (i : Z) (u : Unit) (l : list (Position * Z)) (b : Position * Z) : Prop :=
  ∀ p f, (p, f) ∈ l → b.2 ≤ f ∧ (f = b.2 → fltb (travel e i u p) (travel e i u b.1) = false).

(** What the loop has found after the locations [seen]. *)
Definition chosen (i : Z) (u : Unit) (seen : list (Position * Z)) (best : Position * Z * float32) : Prop :=
  match seen with
  | [] => best = (Vec2.Pos (-1) (-1), int_max, S754_infinity false)
  | _ => best.1 ∈ seen ∧ best.2 = travel e i u best.1.1 ∧ preferred i u seen best.1
  end.

Lemma consider_chosen i u seen best loc : loc.2 < int_max → chosen i u seen best → chosen i u (seen ++ [loc]) (consider e i u best loc).
Proof.
  destruct loc as [p f], best as [[bp bf] bd]. cbn [consider snd]. intros Hf Hc.
  assert (∀ P : Prop, (seen = [] → P) → (seen ≠ [] → P) → P) as Hcase by (intros P H1 H2; destruct seen; [by apply H1|by apply H2]).
  apply Hcase; intros Hs.
  { subst seen. injection Hc as -> -> ->. rewrite (proj2 (Z.ltb_lt _ _) Hf). cbn. split; [by left|]. split; [done|].
    intros p' f' [= -> ->]%list_elem_of_singleton. split; [done|]. intros _. apply fltb_irrefl. }
  assert ((bp, bf) ∈ seen ∧ bd = travel e i u bp ∧ preferred i u seen (bp, bf)) as (Hin & -> & Hp) by (by destruct seen).
  assert (∀ b, chosen i u (seen ++ [(p, f)]) b ↔ b.1 ∈ seen ++ [(p, f)] ∧ b.2 = travel e i u b.1.1 ∧ preferred i u (seen ++ [(p, f)]) b.1) as Hch
    by (intros b; by destruct seen).
  destruct ((f <? bf) || ((f =? bf) && fltb (travel e i u p) (travel e i u bp))) eqn:E; apply Hch; cbn [fst snd].
  - split; [set_solver|]. split; [done|]. intros p' f' [Hp'|[= -> ->]%list_elem_of_singleton]%elem_of_app; cbn [fst snd]; [|by rewrite fltb_irrefl].
    destruct (Hp _ _ Hp') as [H1 H2]; cbn [fst snd] in *. apply orb_true_iff in E as [E%Z.ltb_lt|[E%Z.eqb_eq Ed]%andb_true_iff]; [lia|].
    subst f. split; [done|]. intros Hf'. specialize (H2 Hf'). destruct (fltb (travel e i u p') (travel e i u p)) eqn:Et; [|done].
    by rewrite (fltb_trans _ _ _ Et Ed) in H2.
  - apply orb_false_iff in E as [E1%Z.ltb_ge E2]. split; [set_solver|]. split; [done|].
    intros p' f' [Hp'|[= -> ->]%list_elem_of_singleton]%elem_of_app; [by apply Hp|]. cbn [fst snd]. split; [done|]. intros ->.
    by rewrite Z.eqb_refl in E2.
Qed.

Lemma consider_all i u l seen best : (∀ p f, (p, f) ∈ l → f < int_max) → chosen i u seen best →
  chosen i u (seen ++ l) (fold_left (consider e i u) l best).
Proof.
  revert seen best. induction l as [|[p f] l IH]; intros seen best Hl Hc; cbn [fold_left]; [by rewrite app_nil_r|].
  replace (seen ++ (p, f) :: l) with ((seen ++ [(p, f)]) ++ l) by (by rewrite <- app_assoc).
  apply IH; [intros p' f' ?; apply (Hl p'); by right|]. apply consider_chosen; [apply (Hl p); by left|done].
Qed.

(** Where the next scout goes: to a start location that was visited longest
    ago, among those one that no other is nearer than (for units on the ground,
    farther than); with no location at all it is the invalid position. *)
Theorem nextScoutingLocation_spec i u locations : (∀ p f, (p, f) ∈ locations → f < int_max) →
  match locations with
  | [] => nextScoutingLocation e i u locations = Vec2.Pos (-1) (-1)
  | _ => ∃ f, (nextScoutingLocation e i u locations, f) ∈ locations ∧
           preferred i u locations (nextScoutingLocation e i u locations, f)
  end.
Proof.
  intros Hl. pose proof (consider_all i u locations [] (Vec2.Pos (-1) (-1), int_max, S754_infinity false) Hl eq_refl) as H. cbn [app] in H.
  unfold nextScoutingLocation. destruct locations as [|l0 ls]; [done|].
  destruct (fold_left _ _ _) as [[bp bf] bd]. destruct H as (Hin & _ & Hp). by exists bf.
Qed.

(** ** The upkeep of the locations *)

(** The scout of [r] is on its way to [p]. *)
Definition target (s : state) (p : Position) (r : Task.ref) : Prop := location_ <$> stasks s !! r = Some p.
#[local] Instance target_dec s p r : Decision (target s p r).
Proof. unfold target. apply _. Defined.

Lemma touch_spec s locations r st : stasks s !! r = Some st → ∃ l, touch e s locations r = Ok l ∧
  ∀ p, al_find p l = if decide (p = location_ st) then (λ _, frame e) <$> al_find p locations else al_find p locations.
Proof.
  intros Hr. unfold touch. rewrite Hr. cbn [of_option rbind]. eexists. split; [done|]. intros p.
  destruct (al_find (location_ st) locations) as [f|] eqn:E.
  - rewrite al_find_set. case_decide; [subst; by rewrite E|done].
  - case_decide; [subst; by rewrite E|done].
Qed.

Lemma touch_all s ts locations : (∀ r, r ∈ ts → is_Some (stasks s !! r)) → ∃ l, rfold (touch e s) ts locations = Ok l ∧
  ∀ p, al_find p l = if decide (Exists (target s p) ts) then (λ _, frame e) <$> al_find p locations else al_find p locations.
Proof.
  revert locations. induction ts as [|r ts IH]; intros locations Hts; cbn [rfold].
  - eexists. split; [done|]. intros p. rewrite decide_False; [done|]. by intros ?%Exists_nil.
  - destruct (Hts r ltac:(by left)) as [st Hst]. destruct (touch_spec s locations r st Hst) as (l1 & E1 & H1). rewrite E1. cbn [rbind].
    destruct (IH l1) as (l & E & H); [intros r' Hr'; apply Hts; by right|]. exists l. split; [done|]. intros p. rewrite H, H1.
    assert (target s p r ↔ p = location_ st) as Ht by (unfold target; rewrite Hst; cbn; split; congruence).
    destruct (decide (Exists (target s p) ts)) as [Hd|Hd].
    + rewrite (decide_True (P := Exists _ (r :: ts))) by (by right). case_decide; [by destruct (al_find p locations)|done].
    + destruct (decide (p = location_ st)) as [Hp|Hp].
      * rewrite decide_True; [done|]. left. by apply Ht.
      * rewrite decide_False; [done|]. by intros [?%Ht|?]%Exists_cons.
Qed.

Lemma tasks_of_ok s : BoardTasks.wf (heap s) (Blackboard.tasks (board s)) → ∃ ts, tasks_of self s = Ok ts ∧
  ∀ r, r ∈ ts → ∃ it td, al_find it (BoardTasks.tasks_ (Blackboard.tasks (board s))) = Some td ∧ BoardTasks.owner td = self ∧ BoardTasks.task td = Some r.
Proof.
  intros Hwf. set (b := Blackboard.tasks (board s)) in *. unfold tasks_of, BoardTasks.tasksOfModule. fold b.
  pose (mine := λ r : Task.ref, ∃ it td, al_find it (BoardTasks.tasks_ b) = Some td ∧ BoardTasks.owner td = self ∧ BoardTasks.task td = Some r).
  destruct (rfold_total (λ l, ∀ o, o ∈ l → ∃ r, o = Some r ∧ mine r) (λ result e0,
    if decide (e0.1 = self) then let? td := BoardTasks.deref b e0.2 in Ok (result ++ [BoardTasks.task td]) else Ok result)
    (BoardTasks.tasksByModule_ b) []) as (l & E & Hl); [|by intros o ?%not_elem_of_nil|].
  { intros acc [m it] Hin Hacc. cbn [fst snd]. case_decide as Hm; [|by eexists]. subst m.
    rewrite (BoardTasks.wf_byModule _ _ Hwf) in Hin. apply list_elem_of_fmap in Hin as ([it' td] & [= Hm ->] & Hin).
    apply (al_in_find it' td) in Hin; [|apply (BoardTasks.wf_nodes _ _ Hwf)].
    destruct (BoardTasks.wf_live _ _ Hwf _ _ Hin) as (r & tk & Hr & _). unfold BoardTasks.deref. rewrite Hin. cbn [of_option rbind]. eexists. split; [done|].
    intros o [?| ->%list_elem_of_singleton]%elem_of_app; [by apply Hacc|]. exists r. split; [done|]. by exists it', td. }
  rewrite E. cbn [rbind]. destruct (rfold_total (λ ts, ∀ r, r ∈ ts → mine r) (λ acc o, let? r := of_option o in Ok (acc ++ [r])) l []) as (ts & E2 & Hts);
    [|by intros r ?%not_elem_of_nil|].
  { intros acc o Ho Hacc. destruct (Hl o Ho) as (r & -> & Hr). cbn [of_option rbind]. eexists. split; [done|].
    intros r' [?| ->%list_elem_of_singleton]%elem_of_app; [by apply Hacc|done]. }
  exists ts. by split.
Qed.

(** Every task of the module is a scouting task. *)
Definition typed (s : state) : Prop := ∀ it td r, al_find it (BoardTasks.tasks_ (Blackboard.tasks (board s))) = Some td →
  BoardTasks.owner td = self → BoardTasks.task td = Some r → is_Some (stasks s !! r).

(** With two locations or more, the ones that are no candidates any more are
    dropped, those a scout is going to are visited now, and the others stay. *)
Theorem updateLocations_spec s locations candidates : BoardTasks.wf (heap s) (Blackboard.tasks (board s)) → typed s → (2 ≤ length locations)%nat →
  ∃ ts l, tasks_of self s = Ok ts ∧ updateLocations e self s locations candidates = Ok l ∧
    ∀ p f, al_find p l = Some f ↔
      p ∈ candidates ∧ (if decide (Exists (target s p) ts) then (λ _, frame e) <$> al_find p locations else al_find p locations) = Some f.
Proof.
  intros Hwf Hty Hlen. destruct (tasks_of_ok s Hwf) as (ts & Ets & Hts).
  destruct (touch_all s ts locations) as (l & El & Hl). { intros r Hr. destruct (Hts r Hr) as (it & td & ? & ? & ?). by eapply Hty. }
  exists ts, (filter (λ l, l.1 ∈ candidates) l). split; [done|]. split.
  { unfold updateLocations. destruct locations as [|x locs]; [cbn in Hlen; lia|].
    rewrite (proj2 (Nat.ltb_ge _ _)) by done. rewrite Ets. cbn [rbind]. rewrite El. done. }
  intros p f. rewrite <- Hl. clear. induction l as [|[p' f'] l IH]; [cbn; naive_solver|].
  rewrite filter_cons. cbn [fst]. destruct (decide (p' ∈ candidates)); cbn [al_find]; destruct (decide (p = p')); naive_solver.
Qed.

(** ** The scout *)

(** The data of the task a unit has: [deref] never fails on a consistent board. *)
Lemma data_of h b i : BoardTasks.wf h b → ∃ td, BoardTasks.taskDataWithUnit b i = Ok td ∧
  match BoardTasks.task td with Some r => is_Some (h !! r) | None => td = BoardTasks.no_data end.
Proof.
  intros Hwf. unfold BoardTasks.taskDataWithUnit, BoardTasks.deref. destruct (BoardTasks.tasksByUnit_ b !! i) as [it|] eqn:E; [|by eexists].
  apply (BoardTasks.wf_byUnit _ _ Hwf) in E. apply BoardTasks.al_elem_find in E as [td Hf]. rewrite Hf. exists td. split; [done|].
  destruct (BoardTasks.wf_live _ _ Hwf _ _ Hf) as (r & tk & -> & Hr & _). by eexists.
Qed.

(** A unit may be sent when the UPC names it with a positive probability, and
    when it is no scout already. *)
Definition eligible (s : state) (candidates : Upc.UnitMap) (i : Z) : Prop :=
  (∃ p, al_find (Some i) candidates = Some p ∧ fleb p f32_0 = false) ∧
  ∀ td r tk, BoardTasks.taskDataWithUnit (Blackboard.tasks (board s)) i = Ok td → BoardTasks.owner td = self →
    BoardTasks.task td = Some r → heap s !! r = Some tk → Task.finished tk = true.

(** What the search assumes of the game: units it knows, and scores that fit. *)
Definition known (pos : Position) : Prop :=
  self ≠ None ∧ ∀ i, i ∈ myUnits e → ∃ u, units e !! i = Some u ∧ Z.abs (-2 * mapSize e + pathLength e (Unit.pos u) pos) < 2 ^ 53.

Lemma unitScore_spec s candidates pos i : BoardTasks.wf (heap s) (Blackboard.tasks (board s)) → known pos → Z.abs (-2 * mapSize e) < 2 ^ 53 →
  i ∈ myUnits e → ∃ d, unitScore e self s candidates pos i = Ok d ∧ (feqb d (S754_infinity false) = false ↔ eligible s candidates i).
Proof.
  intros Hwf [Hself Hk] Hsz Hi. destruct (Hk i Hi) as (u & Hu & Hlen). unfold unitScore, eligible.
  destruct (al_find (Some i) candidates) as [p|]; [|eexists; split; [done|]; split; [done|by intros [(? & ? & _) _]]].
  destruct (fleb p f32_0) eqn:Ep; [eexists; split; [done|]; split; [done|intros [(? & [= <-] & ?) _]; congruence]|].
  destruct (data_of _ _ i Hwf) as (td & Htd & Ht). rewrite Htd. cbn [rbind].
  match goal with |- ∃ d, ?L = Ok d ∧ (_ ↔ _ ∧ ?Q) =>
    enough (∃ d, L = Ok d ∧ (feqb d (S754_infinity false) = false ↔ Q)) as (d & Ed & Hd)
      by (exists d; split; [exact Ed|]; rewrite Hd; split; [intros; split; [by exists p|done]|by intros [_ ?]])
  end.
  unfold unit. rewrite Hu.
  destruct (BoardTasks.task td) as [r|] eqn:Er.
  - destruct Ht as [tk Hr]. rewrite Hr. cbn [of_option rbind]. case_bool_decide as Ho.
    + destruct (Task.finished tk) eqn:Ef.
      * eexists. split; [done|]. split; [|intros _].
        -- intros _ td' r' tk' [= <-] _ Er' Hr'. congruence.
        -- apply f64_of_Z_finite. destruct (_ && _); [done|]. by rewrite Z.add_0_r.
      * eexists. split; [done|]. split; [done|]. intros H. specialize (H td r tk eq_refl Ho Er Hr). congruence.
    + repeat case_match; (eexists; split; [reflexivity|]); (split; [intros _ td' r' tk' [= <-] Ho'; congruence|reflexivity]).
  - subst td. cbn [of_option rbind BoardTasks.owner BoardTasks.no_data]. rewrite bool_decide_false by congruence.
    repeat case_match; (eexists; split; [reflexivity|]); (split; [intros _ td' r' tk' [= <-] Ho'; by cbn in Ho'; congruence|reflexivity]).
Qed.

(** The scored units, in the order of [myUnits]. *)
Lemma scored_spec s candidates pos us acc : (∀ i, i ∈ us → ∃ d, unitScore e self s candidates pos i = Ok d) →
  ∃ l, rfold (λ acc i, let? d := unitScore e self s candidates pos i in Ok (acc ++ [(i, d)])) us acc = Ok (acc ++ l) ∧
       l.*1 = us ∧ ∀ i d, (i, d) ∈ l → unitScore e self s candidates pos i = Ok d.
Proof.
  revert acc. induction us as [|i us IH]; intros acc H; cbn [rfold].
  - exists []. rewrite app_nil_r. split; [done|]. split; [done|]. by intros ? ? ?%not_elem_of_nil.
  - destruct (H i ltac:(by left)) as [d Hd]. rewrite Hd. cbn [rbind].
    destruct (IH (acc ++ [(i, d)])) as (l & E & E1 & El); [intros j Hj; apply H; by right|].
    exists ((i, d) :: l). rewrite E, <- app_assoc. split; [done|]. split; [csimpl; by rewrite E1|].
    intros j d' [[= -> ->]|Hj]%elem_of_cons; [done|by apply El].
Qed.

(** The scout that is sent: among my units it is one that the UPC names with a
    positive probability and that is not scouting already, with the lowest score
    of all such units; there is none exactly when no unit can be sent.  The
    search never reads a dangling task. *)
Theorem findUnit_spec s candidates pos : BoardTasks.wf (heap s) (Blackboard.tasks (board s)) → known pos → Z.abs (-2 * mapSize e) < 2 ^ 53 →
  ∃ o, findUnit e self s candidates pos = Ok o ∧
    match o with
    | Some i => i ∈ myUnits e ∧ eligible s candidates i ∧ ∃ d, unitScore e self s candidates pos i = Ok d ∧
        ∀ j d', j ∈ myUnits e → eligible s candidates j → unitScore e self s candidates pos j = Ok d' → fltb d' d = false
    | None => ∀ i, i ∈ myUnits e → ¬ eligible s candidates i
    end.
Proof.
  intros Hwf Hk Hsz. pose proof (λ i, unitScore_spec s candidates pos i Hwf Hk Hsz) as Hsc.
  destruct (scored_spec s candidates pos (myUnits e) []) as (l & E & E1 & El); [intros i Hi; destruct (Hsc i Hi) as (d & ? & _); eauto|].
  unfold findUnit. rewrite E. cbn [rbind app]. eexists. split; [done|].
  assert (∀ i d, (i, d) ∈ l → i ∈ myUnits e) as Hin by (intros i d Hd; rewrite <- E1; apply list_elem_of_fmap; by exists (i, d)).
  assert (∀ i, i ∈ myUnits e → ∃ d, (i, d) ∈ l) as Hex
    by (intros i Hi; rewrite <- E1 in Hi; apply list_elem_of_fmap in Hi as ([? d] & -> & ?); by exists d).
  pose proof (Algorithms.getBestScore_spec fltb snd (λ d, feqb d (S754_infinity false)) (λ _, false) fltb_trans fltb_irrefl ltac:(done) l) as Hb.
  destruct (Algorithms.getBestScore _ _ _ _ l) as [[i d]|]; cbn [fmap option_fmap option_map fst].
  - destruct Hb as (Hl & Hv & Hu). cbn in Hv. destruct (Hsc i (Hin _ _ Hl)) as (d0 & Hd & Hel).
    rewrite (El _ _ Hl) in Hd. injection Hd as <-. split; [by eapply Hin|]. split; [by apply Hel|]. exists d. split; [by apply El|].
    intros j d' Hj Hje Hd'. destruct (Hex j Hj) as [d2 Hjl]. rewrite (El _ _ Hjl) in Hd'. injection Hd' as <-.
    destruct (Hsc j Hj) as (d3 & Hd3 & Hel3). rewrite (El _ _ Hjl) in Hd3. injection Hd3 as <-.
    apply (Hu (j, d2) Hjl). by apply Hel3.
  - intros i Hi Hel. destruct (Hex i Hi) as [d Hl]. specialize (Hb _ Hl). cbn in Hb.
    destruct (Hsc i Hi) as (d0 & Hd & Hiff). rewrite (El _ _ Hl) in Hd. injection Hd as <-. apply Hiff in Hel. congruence.
Qed.

(** ** The end of a task *)

Lemma postMoveUPC_keeps s baseId i loc safe s' ok : postMoveUPC e self s baseId i loc safe = Ok (s', ok) →
  heap s' = heap s ∧ stasks s' = stasks s ∧ startingLocations_ s' = startingLocations_ s ∧
  Blackboard.tasks (board s') = Blackboard.tasks (board s).
Proof.
  unfold postMoveUPC, Blackboard.postUPC. intros H. case_match; [by injection H as <- _|].
  destruct (Blackboard.run_filters _ _ _ _) as [[valid u]| | |]; cbn [rbind] in H; [|done..].
  destruct valid; [|by injection H as <- _]. destruct (UpcStorage.addUpc _ _ _ _ _ _) as [st id]. by injection H as <- _.
Qed.

(** The task list and its indexes, without what waits for removal. *)
Definition same_tasks (b b' : BoardTasks.t) : Prop :=
  BoardTasks.tasks_ b' = BoardTasks.tasks_ b ∧ BoardTasks.tasksByModule_ b' = BoardTasks.tasksByModule_ b ∧
  ∀ id, id ∈ BoardTasks.tasksToBeRemoved_ b → id ∈ BoardTasks.tasksToBeRemoved_ b'.

#[local] Instance same_tasks_preorder : PreOrder same_tasks.
Proof. split; [by intros b|]. intros b1 b2 b3 (E1 & E2 & E3) (F1 & F2 & F3). split_and!; [congruence..|auto]. Qed.

Lemma tasks_of_same s s' : same_tasks (Blackboard.tasks (board s)) (Blackboard.tasks (board s')) → tasks_of self s' = tasks_of self s.
Proof. intros (E1 & E2 & _). unfold tasks_of, BoardTasks.tasksOfModule, BoardTasks.deref. by rewrite E1, E2. Qed.

Definition removed_soon (s : state) (r : Task.ref) : Prop :=
  ∀ tk, heap s !! r = Some tk → Task.finished tk = true → Task.upcId tk ∈ BoardTasks.tasksToBeRemoved_ (Blackboard.tasks (board s)).

Lemma clean_up_spec s r s' : clean_up e self s r = Ok s' →
  heap s' = heap s ∧ same_tasks (Blackboard.tasks (board s)) (Blackboard.tasks (board s')) ∧ removed_soon s' r.
Proof.
  unfold clean_up, task, removed_soon. intros H. destruct (heap s !! r) as [tk|] eqn:Er; [|done]. cbn [of_option rbind] in H.
  destruct (stasks s !! r); [|done]. cbn [of_option rbind fst] in H.
  destruct (Task.finished tk) eqn:Ef; cbn [negb] in H; [|injection H as <-; split_and!; [done|done|intros tk' ? ?; congruence]].
  apply rbind_Ok_inv in H as (s1 & H1 & [= <-]).
  assert (heap s1 = heap s ∧ Blackboard.tasks (board s1) = Blackboard.tasks (board s)) as [E1 E2].
  { destruct (elements (Task.units tk)); [by injection H1 as <-|].
    apply rbind_Ok_inv in H1 as (i & _ & H1). apply rbind_Ok_inv in H1 as (o & _ & H1). case_bool_decide; [|by injection H1 as <-].
    apply rbind_Ok_inv in H1 as ([s2 ok] & Hp & [= <-]). apply postMoveUPC_keeps in Hp as (? & ? & ? & ?). done. }
  cbn. rewrite E1, E2. split_and!; [done|unfold same_tasks; cbn; set_solver|].
  intros tk' Htk' _. rewrite Htk' in Er. injection Er as ->. set_solver.
Qed.

Lemma clean_all ts s s' : rfold (clean_up e self) ts s = Ok s' →
  heap s' = heap s ∧ same_tasks (Blackboard.tasks (board s)) (Blackboard.tasks (board s')) ∧ ∀ r, r ∈ ts → removed_soon s' r.
Proof.
  revert s. induction ts as [|r ts IH]; intros s H; cbn [rfold] in H.
  - injection H as <-. split_and!; [done..|by intros r ?%not_elem_of_nil].
  - apply rbind_Ok_inv in H as (s1 & H1 & H2). apply clean_up_spec in H1 as (E1 & S1 & R1). destruct (IH _ H2) as (E2 & S2 & R2).
    split_and!; [congruence|by etransitivity|]. intros r' [->|Hr]%elem_of_cons; [|by apply R2].
    intros tk Hk Hf. apply S2. apply R1; [congruence|done].
Qed.

(** A step leaves no finished scouting task behind: after it, every task of the
    module that is finished is marked for removal. *)
Theorem step_removes_finished s s' ts r tk : step e self s = Ok s' → tasks_of self s' = Ok ts → r ∈ ts → heap s' !! r = Some tk →
  Task.finished tk = true → Task.upcId tk ∈ BoardTasks.tasksToBeRemoved_ (Blackboard.tasks (board s')).
Proof.
  intros H Hts Hr Hk Hf. unfold step in H. do 5 (apply rbind_Ok_inv in H as (? & _ & H)). apply rbind_Ok_inv in H as (ts' & Hts' & H).
  apply clean_all in H as (_ & HS & HR). rewrite (tasks_of_same _ _ HS) in Hts. assert (ts' = ts) as -> by congruence.
  by apply (HR r Hr).
Qed.
End scouting.

(** ** An example *)

(** A drone scouts, another one does not. *)
Definition example_env : env := {|
  frame := 100; mapSize := 512 * 512;
  units := {[1 := Unit.blank 1 BuildType.Zerg_Drone; 2 := Unit.blank 2 BuildType.Zerg_Drone]};
  trait := λ _, Traits true false false 28 (Vec2.Pos 0 0) []; isBuilding := λ _, false;
  myUnits := [1; 2]; visibleEnemyUnits := [];
  candidateEnemyStartLocations := [Vec2.Pos 40 40; Vec2.Pos 200 200]; myStartLocation := Vec2.Pos 300 300; numEnemyBases := 0;
  areaFlags := λ _, Ok (true, true);
  chokePoints := λ _, []; pathLength := λ _ _, 0; walkDistance := λ _ _, f32_1; safeMoveTo := λ _ p, p;
  sneak := λ _ _ p, Ok (true, p); MoveToMinerals := 1; MoveToGas := 2 |}.

Definition example_heap : Task.heap := {[1 := ScoutingTask 5 1]}.
Definition example_tasks : BoardTasks.t :=
  match BoardTasks.postTask example_heap BoardTasks.make 1 (Some 7) false 90 with Ok b => b | _ => BoardTasks.make end.
Definition example_state : state :=
  State (Blackboard.set_tasks Blackboard.make example_tasks) example_heap 2 {[1 := STask (Vec2.Pos 40 40) FindEnemyBase false false]}
    [(Vec2.Pos 40 40, 90); (Vec2.Pos 200 200, -1)] ExploreEnemyBase.

Lemma example_consistent : BoardTasks.wf example_heap example_tasks.
Proof.
  destruct (BoardTasks.postTask_ok example_heap BoardTasks.make 1 (ScoutingTask 5 1) (Some 7) false 90) as (b & E & H & _);
    [apply BoardTasks.no_tasks_wf|reflexivity|reflexivity|]. unfold example_tasks. by rewrite E.
Qed.

Lemma nextScoutingLocation_spec_witness :
  nextScoutingLocation example_env 2 (Unit.blank 2 BuildType.Zerg_Drone) (startingLocations_ example_state) = Vec2.Pos 200 200.
Proof.
  destruct (nextScoutingLocation_spec example_env 2 (Unit.blank 2 BuildType.Zerg_Drone) (startingLocations_ example_state)) as (f & Hin & Hp).
  - intros p f Hin. assert (f = 90 ∨ f = -1) as Hf by (cbn in Hin; set_solver). unfold int_max. lia.
  - destruct (Hp (Vec2.Pos 200 200) (-1)) as [Hf _]; [set_solver|]. cbn [snd] in Hf.
    apply elem_of_cons in Hin as [Hin|Hin]; [assert (f = 90) by congruence; lia|]. apply list_elem_of_singleton in Hin. congruence.
Defined.

Lemma findUnit_spec_witness : findUnit example_env (Some 7) example_state [(Some 1, f32_1); (Some 2, f32_1)] (Vec2.Pos (-1) (-1)) = Ok (Some 2).
Proof.
  destruct (findUnit_spec example_env (Some 7) example_state [(Some 1, f32_1); (Some 2, f32_1)] (Vec2.Pos (-1) (-1))) as (o & E & H).
  - apply example_consistent.
  - split; [done|]. intros i [->|[->|?%not_elem_of_nil]%elem_of_cons]%elem_of_cons; [..|done]; (eexists; split; [reflexivity|]); reflexivity.
  - reflexivity.
  - rewrite E. destruct o as [i|].
    + destruct H as (Hi & [_ Hel] & _). apply elem_of_cons in Hi as [->|[->|?%not_elem_of_nil]%elem_of_cons]; [|done..].
      specialize (Hel (BoardTasks.TD (Some 1) (Some 7) false 90) 1 (ScoutingTask 5 1) eq_refl eq_refl eq_refl eq_refl). discriminate.
    + exfalso. apply (H 2); [set_solver|]. split; [eexists; split; reflexivity|]. intros td r tk Htd. vm_compute in Htd. by injection Htd as <-.
Defined.

Definition example_after : state := match step example_env (Some 7) example_state with Ok s => s | _ => example_state end.

Lemma step_removes_finished_witness : 5 ∈ BoardTasks.tasksToBeRemoved_ (Blackboard.tasks (board example_after)).
Proof.
  assert (∃ tk, heap example_after !! 1 = Some tk ∧ Task.upcId tk = 5 ∧ Task.finished tk = true) as (tk & Hk & <- & Hf)
    by (eexists; split_and!; vm_compute; reflexivity).
  apply (step_removes_finished example_env (Some 7) example_state example_after [1] 1 tk); [|vm_compute; reflexivity|by left|done|done].
  unfold example_after. destruct (step example_env (Some 7) example_state) eqn:E; [done|vm_compute in E; discriminate E..].
Defined.
