(* ===== verification/CombatSim.v ===== *)
(** * The combat simulation ([src/combatsim.cpp])

    [CombatSim] predicts a fight: two teams of units that pick targets, walk and
    shoot, in steps of two frames.  Hit points are [double]s that only ever hold
    multiples of a quarter, and shields and damage integers: [hp] counts
    quarters.  Scores are [double]s.  A [SimUnit*] is a position in the vector of
    the other team, which does not change during a fight.  [int] arithmetic that
    overflows is undefined. *)

From S2P Require Import Prelude Floats Geometry BuildTypes Units GameMechanics Algorithms.
From Stdlib Require Import SpecFloat.

Module CombatSim.

(** Facts about types that the simulation reads. *)
Class Arms := {
  size : BuildType → Z;
  airWeaponCooldown : BuildType → Z;
  groundWeaponCooldown : BuildType → Z;
  restrictedByDarkSwarm : BuildType → bool;
  isNonUsable : BuildType → bool;
  hasAirWeapon : BuildType → bool;
  hasGroundWeapon : BuildType → bool;
  maxHp : BuildType → Z;
  maxShields : BuildType → Z
}.

(** [src/src/combatsim.h:28-48] SimUnit *)
Record SimUnit := Sim {
  x : Z; y : Z; hp : Z; shields : Z; armor : Z; maxSpeed : Z; flying : bool; underDarkSwarm : bool;
  type : BuildType; target : option nat; targetInRange : bool; cooldownUntil : Z;
  groundDamage : Z; airDamage : Z; groundDamageType : Z; airDamageType : Z; groundRange : Z; airRange : Z }.

(** [src/src/combatsim.h:50-54] Team *)
Record Team := MkTeam { startHp : Z; endHp : Z; units : list SimUnit }.

(** [src/src/combatsim.h:56-57] CombatSim *)
Record t := MkSim { speedMult : float64; team0 : Team; team1 : Team }.

Definition make (mult : float64) : t := MkSim mult (MkTeam 0 0 []) (MkTeam 0 0 []).

Definition set_hp (u : SimUnit) v := Sim (x u) (y u) v (shields u) (armor u) (maxSpeed u) (flying u) (underDarkSwarm u) (type u) (target u) (targetInRange u) (cooldownUntil u) (groundDamage u) (airDamage u) (groundDamageType u) (airDamageType u) (groundRange u) (airRange u).
Definition set_shields (u : SimUnit) v := Sim (x u) (y u) (hp u) v (armor u) (maxSpeed u) (flying u) (underDarkSwarm u) (type u) (target u) (targetInRange u) (cooldownUntil u) (groundDamage u) (airDamage u) (groundDamageType u) (airDamageType u) (groundRange u) (airRange u).
Definition set_pos (u : SimUnit) px py := Sim px py (hp u) (shields u) (armor u) (maxSpeed u) (flying u) (underDarkSwarm u) (type u) (target u) (targetInRange u) (cooldownUntil u) (groundDamage u) (airDamage u) (groundDamageType u) (airDamageType u) (groundRange u) (airRange u).
Definition set_target (u : SimUnit) v b := Sim (x u) (y u) (hp u) (shields u) (armor u) (maxSpeed u) (flying u) (underDarkSwarm u) (type u) v b (cooldownUntil u) (groundDamage u) (airDamage u) (groundDamageType u) (airDamageType u) (groundRange u) (airRange u).
Definition set_cooldown (u : SimUnit) v := Sim (x u) (y u) (hp u) (shields u) (armor u) (maxSpeed u) (flying u) (underDarkSwarm u) (type u) (target u) (targetInRange u) v (groundDamage u) (airDamage u) (groundDamageType u) (airDamageType u) (groundRange u) (airRange u).
Definition set_units (t : Team) us := MkTeam (startHp t) (endHp t) us.

(** An [int], undefined when it overflows. *)
Definition int (z : Z) : res Z := if (- 2 ^ 31 <=? z) && (z <? 2 ^ 31) then Ok z else Undefined.

(** The conversion of a [double] to [int] drops the fraction. *)
Definition int_of_double (f : float64) : res Z :=
  match f with
  | S754_zero _ => Ok 0
  | S754_finite s m e =>
      let v := if 0 <=? e then Z.pos m * 2 ^ e else Z.pos m / 2 ^ (- e) in
      int (if s then - v else v)
  | _ => Undefined
  end.

Section sim.
Context `{Arms, BuildType.Table}.

(** In quarters.

    [src/src/combatsim.cpp:12-36] damageTypeModifier *)
Definition damageTypeModifier (damageType unitSize : Z) : Z :=
  if (damageType =? 1) && (unitSize =? 1) then 2
  else if (damageType =? 1) && (unitSize =? 2) then 3
  else if (damageType =? 1) && (unitSize =? 3) then 4
  else if (damageType =? 2) && (unitSize =? 1) then 4
  else if (damageType =? 2) && (unitSize =? 2) then 2
  else if (damageType =? 2) && (unitSize =? 3) then 1
  else 4.

(** ** Adding units *)

(** What the simulation reads of a [Unit] besides [Units.Unit]. *)
Record info := Info {
  active : bool; visible : bool; detected : bool; isFlying : bool; darkSwarm : bool; topSpeed : float64;
  health : Z; shield : Z; unitArmor : Z; groundATK : Z; airATK : Z; groundDmgType : Z; airDmgType : Z;
  unitGroundRange : Z; unitAirRange : Z }.

(** [src/src/combatsim.cpp:40-46] CombatSim::addUnit *)
Definition fights (u : Unit) (i : info) : bool :=
  negb (isNonUsable (Unit.type u) || negb (active i)) &&
  negb (BuildType.isBuilding (Unit.type u) && negb (hasAirWeapon (Unit.type u)) &&
        negb (hasGroundWeapon (Unit.type u)) && bool_decide (Unit.type u ≠ BuildType.Terran_Bunker)).

(** Weapons the game does not report: bunkers, interceptors and reavers.

    [src/src/combatsim.cpp:74-92] CombatSim::addUnit *)
Definition arm (u : SimUnit) : SimUnit :=
  let with_arms gd gt gr ad at_ ar :=
    Sim (x u) (y u) (hp u) (shields u) (armor u) (maxSpeed u) (flying u) (underDarkSwarm u) (type u) (target u)
      (targetInRange u) (cooldownUntil u) gd ad gt at_ gr ar in
  if bool_decide (type u = BuildType.Terran_Bunker) then with_arms 6 3 (4 * 6) 6 3 (4 * 6)
  else if bool_decide (type u = BuildType.Protoss_Interceptor) then with_arms 6 0 (4 * 4) 6 0 (4 * 4)
  else if bool_decide (type u = BuildType.Protoss_Reaver)
  then with_arms 100 0 (4 * 8) (airDamage u) (airDamageType u) (airRange u)
  else u.

(** Undetected enemies are taken to be unhurt.

    [src/src/combatsim.cpp:51-92] CombatSim::addUnit *)
Definition enlist (mult : float64) (u : Unit) (i : info) : res SimUnit :=
  let? px := int (Z.shiftl (Unit.x u) 8) in
  let? py := int (Z.shiftl (Unit.y u) 8) in
  let unseen := Unit.isEnemy u && visible i && negb (detected i) in
  let? speed := int_of_double (f64_mul (f64_mul (topSpeed i) (f64_of_Z 256)) mult) in
  Ok (arm (Sim px py (4 * (if unseen then maxHp (Unit.type u) else health i))
             (if unseen then maxShields (Unit.type u) else shield i) (unitArmor i) speed (isFlying i) (darkSwarm i)
             (Unit.type u) None false (Z.max (Unit.groundCD u) (Unit.airCD u))
             (groundATK i) (airATK i) (groundDmgType i) (airDmgType i) (unitGroundRange i) (unitAirRange i))).

(** [src/src/combatsim.cpp:39-94] CombatSim::addUnit *)
Definition addUnit (s : t) (u : Unit) (i : info) : res (t * bool) :=
  if negb (fights u i) then Ok (s, false) else
  let? su := enlist (speedMult s) u i in
  Ok (if Unit.isMine u
      then (MkSim (speedMult s) (set_units (team0 s) (units (team0 s) ++ [su])) (team1 s), true)
      else (MkSim (speedMult s) (team0 s) (set_units (team1 s) (units (team1 s) ++ [su])), true)).

(** ** A unit's turn *)

Definition damage_to (u e : SimUnit) : Z := if flying e then airDamage u else groundDamage u.
Definition range_to (u e : SimUnit) : Z := if flying e then airRange u else groundRange u.

Definition kdInfty : float64 := S754_infinity false.

(** [src/src/combatsim.cpp:126-139] CombatSim::run *)
Definition score (u e : SimUnit) : float64 :=
  let damage := if 0 <? hp e then damage_to u e else 0 in
  if damage =? 0 then kdInfty else
  f64_add
    (f64_mul (fmax (f64_sub (f64_of_f32 (GameMechanics.distance (x u) (y u) (x e) (y e)))
                            (f64_mul (f64_of_Z (range_to u e)) (f64_of_Z 256))) f64_0)
             (f64_of_Z 100))
    (f64_lit (4 * shields e + hp e - 4 * damage) 4).

(** [utils::getBestScorePointer(enemyTeam.units, score, kdInfty)]

    [src/src/combatsim.cpp:124-140] CombatSim::run *)
Definition pick (u : SimUnit) (es : list SimUnit) : option nat :=
  fst <$> Algorithms.getBestScore fltb (λ p : nat * SimUnit, score u p.2) (λ s, feqb s kdInfty) (λ _, false) (imap pair es).

(** Shields take the damage first; half a hit point is always lost to a hit that
    gets through, none under a dark swarm.

    [src/src/combatsim.cpp:158-184] CombatSim::run *)
Definition hit (u e : SimUnit) : SimUnit :=
  let damage := damage_to u e in
  let '(e, damage) :=
    if shields e =? 0 then (e, damage)
    else if shields e - damage <? 0 then (set_shields e 0, - (shields e - damage))
    else (set_shields e (shields e - damage), 0) in
  if damage =? 0 then e else
  let d := damage * damageTypeModifier (if flying e then airDamageType u else groundDamageType u) (size (type e)) - 4 * armor e in
  let d := if d <? 2 then 2 else d in
  let d := if restrictedByDarkSwarm (type u) && (underDarkSwarm u || underDarkSwarm e) then 0 else d in
  set_hp e (if hp e - d <? 0 then 0 else hp e - d).

(** [src/src/combatsim.cpp:185-192] CombatSim::run *)
Definition cooldown_of (ty : BuildType) (air : bool) : Z :=
  if bool_decide (ty = BuildType.Terran_Bunker) then 4
  else if bool_decide (ty = BuildType.Protoss_Interceptor) then 45
  else if bool_decide (ty = BuildType.Protoss_Reaver) then 60
  else if air then airWeaponCooldown ty else groundWeaponCooldown ty.

(** A scourge dies with its attack.

    [src/src/combatsim.cpp:193-199] CombatSim::run *)
Definition reload (frame : Z) (u : SimUnit) (air : bool) : res SimUnit :=
  let u := if bool_decide (type u = BuildType.Zerg_Scourge) then set_hp u 0 else u in
  let? c := int (cooldownUntil u + cooldown_of (type u) air) in
  let? c := if c <=? frame then int (frame + 1) else Ok c in
  Ok (set_cooldown u c).

Definition resolution : Z := 2.

(** [src/src/combatsim.cpp:203-205] CombatSim::run *)
Definition walk (u : SimUnit) (dx dy : Z) : res SimUnit :=
  let d := GameMechanics.pxdistance 0 0 (Z.shiftr dx 8) (Z.shiftr dy 8) in
  if d =? 0 then Undefined else
  let? mx := int (dx * maxSpeed u) in
  let? my := int (dy * maxSpeed u) in
  let? px := int (x u + Z.quot (Z.shiftr mx 8) d * resolution) in
  let? py := int (y u + Z.quot (Z.shiftr my 8) d * resolution) in
  Ok (set_pos u px py).

(** [src/src/combatsim.cpp:146-207] CombatSim::run *)
Definition engage (frame : Z) (u : SimUnit) (k : nat) (es : list SimUnit) : res (SimUnit * list SimUnit) :=
  let? e := of_option (es !! k) in
  let? dx := int (x e - x u) in
  let? dy := int (y e - y u) in
  let dxi := Z.shiftr dx 8 in
  let dyi := Z.shiftr dy 8 in
  let? range := int (4 + range_to u e) in
  let? near := int (range * range) in
  let? far := int (dxi * dxi + dyi * dyi) in
  if far <=? near then
    let u := set_target u (target u) true in
    if cooldownUntil u <=? frame then
      let es := <[k := hit u e]> es in
      let? u := reload frame u (flying e) in
      Ok (u, es)
    else Ok (u, es)
  else let? u := walk u dx dy in Ok (u, es).

(** A unit's turn, and whether it had something to do.  The old target is read
    before a new one is chosen.

    [src/src/combatsim.cpp:116-208] CombatSim::run *)
Definition turn (frame : Z) (u : SimUnit) (es : list SimUnit) : res (SimUnit * list SimUnit * bool) :=
  if hp u <=? 0 then Ok (u, es, false) else
  let? _ := match target u with Some k => let? e := of_option (es !! k) in Ok (hp e) | None => Ok 0 end in
  let tgt := pick u es in
  let u := set_target u tgt false in
  match tgt with
  | None => Ok (u, es, false)
  | Some k => let? r := engage frame u k es in Ok (r, true)
  end.

(** ** The fight *)

(** [src/src/combatsim.cpp:115-209] CombatSim::run *)
Fixpoint turns (frame : Z) (us es : list SimUnit) : res (list SimUnit * list SimUnit * bool) :=
  match us with
  | [] => Ok ([], es, false)
  | u :: us =>
      let? r := turn frame u es in
      let '(u, es, busy) := r in
      let? r := turns frame us es in
      let '(us, es, busy') := r in
      Ok (u :: us, es, busy || busy')
  end.

(** Both teams in turn.

    [src/src/combatsim.cpp:109-210] CombatSim::run *)
Definition round (frame : Z) (s : t) : res (t * bool) :=
  let? r := turns frame (units (team0 s)) (units (team1 s)) in
  let '(us, es, busy) := r in
  let? r := turns frame es us in
  let '(es, us, busy') := r in
  Ok (MkSim (speedMult s) (set_units (team0 s) us) (set_units (team1 s) es), busy || busy').

(** [src/src/combatsim.cpp:108-215] CombatSim::run *)
Fixpoint rounds (fuel : nat) (frame frames : Z) (s : t) : res t :=
  if frame <? frames then
    match fuel with
    | O => OutOfFuel
    | S fuel =>
        let? r := round frame s in
        let? frame := int (frame + resolution) in
        if r.2 then rounds fuel frame frames r.1 else Ok r.1
    end
  else Ok s.

Definition total (us : list SimUnit) : Z := foldr (λ u a, hp u + 4 * shields u + a) 0 us.

(** [src/src/combatsim.cpp:96-224] CombatSim::run *)
Definition run (frames : Z) (s : t) : res t :=
  let start t := MkTeam (total (units t)) (endHp t) (units t) in
  let stop t := MkTeam (startHp t) (total (units t)) (units t) in
  let? s := rounds (Z.to_nat frames) 0 frames (MkSim (speedMult s) (start (team0 s)) (start (team1 s))) in
  Ok (MkSim (speedMult s) (stop (team0 s)) (stop (team1 s))).

(** ** Fight or flee *)

Definition add_all (s : t) (us : list (Unit * info)) : res (t * list (Unit * info)) :=
  rfold (λ '(s, team) u,
    let? r := addUnit s u.1 u.2 in
    Ok (r.1, if r.2 then team ++ [u] else team)) us (s, []).

(** Workers and overlords of the enemy do not count. *)
Definition combatant (u : Unit * info) : bool :=
  negb (BuildType.isWorker (Unit.type u.1)) && bool_decide (Unit.type u.1 ≠ BuildType.Zerg_Overlord).

(** [src/src/modules/tactics.cpp:1122-1142] TacticsState::combatSimCalculateFightScoreMod *)
Definition simulate (mult : float64) (allies enemies : list (Unit * info))
    : res (t * list (Unit * info) * list (Unit * info)) :=
  let? a := add_all (make mult) allies in
  let '(s, allyTeam) := a in
  let? b := add_all s (filter (λ u, combatant u = true) enemies) in
  let '(s, enemyTeam) := b in
  let? s := run (10 * 24) s in
  Ok (s, allyTeam, enemyTeam).

(** The flags [q_val] and [relative_vs_absolute], and [subjectiveValue]. *)
Context (q_val relative_vs_absolute : float64) (subjectiveValue : BuildType → float64).

(** [src/src/modules/tactics.cpp:180-186] convertSimToScore *)
Definition calcTeamValue (us : list (Unit * info)) : float64 :=
  fold_left (λ v u, f64_add v (subjectiveValue (Unit.type u.1))) us f64_0.

(** [src/src/modules/tactics.cpp:188-199] convertSimToScore *)
Definition calcUnitScore (su : info) (eu : SimUnit) (q : float64) : float64 :=
  let startHS := f64_of_Z (health su + shield su) in
  let endHS := f64_lit (hp eu + 4 * shields eu) 4 in
  let damageFraction := f64_div (f64_sub startHS endHS) startHS in
  let death := if hp eu <=? 0 then f64_1 else f64_0 in
  f64_mul (subjectiveValue (type eu)) (f64_add (f64_mul q damageFraction) (f64_mul (f64_sub f64_1 q) death)).

(** [src/src/modules/tactics.cpp:201-209] convertSimToScore *)
Definition calcTeamScore (startUnits : list (Unit * info)) (endUnits : list SimUnit) (q : float64) : res float64 :=
  rfold (λ sc p, let? eu := of_option (endUnits !! p.1) in Ok (f64_add sc (calcUnitScore (p.2).2 eu q)))
    (imap pair startUnits) f64_0.

Definition not_nan (f : float64) : float64 := if isnan f then f64_0 else f.

(** [src/src/modules/tactics.cpp:168-231] convertSimToScore *)
Definition convertSimToScore (s : t) (allies enemies : list (Unit * info)) : res float64 :=
  match allies, enemies with
  | [], _ => Ok (f64_of_Z (-1))
  | _, [] => Ok f64_1
  | _, _ =>
      let? myPain := calcTeamScore allies (units (team0 s)) q_val in
      let? enemyPain := calcTeamScore enemies (units (team1 s)) q_val in
      let relativePain := not_nan (f64_sub (f64_div myPain (calcTeamValue allies)) (f64_div enemyPain (calcTeamValue enemies))) in
      let absolutePain := not_nan (f64_sub (f64_div (f64_mul (f64_of_Z 2) myPain) (f64_add myPain enemyPain)) f64_1) in
      let rva := relative_vs_absolute in
      let damageScore := f64_add (f64_mul rva relativePain) (f64_mul (f64_sub f64_1 rva) absolutePain) in
      Ok (f64_mul (f64_of_Z (-1)) damageScore)
  end.

(** The average of two simulations, the second at half speed.

    [src/src/modules/tactics.cpp:1120-1147] TacticsState::combatSimCalculateFightScoreMod *)
Definition fightScore (allies enemies : list (Unit * info)) : res float64 :=
  let? score := rfold (λ score mult,
    let? r := simulate mult allies enemies in
    let '(s, allyTeam, enemyTeam) := r in
    let? v := convertSimToScore s allyTeam enemyTeam in
    Ok (f64_add score v)) [f64_1; f64_lit 1 2] f64_0 in
  Ok (f64_div score (f64_of_Z 2)).

End sim.
End CombatSim.
