(* ===== verification/CombatRuns.v ===== *)
(** * What the combat simulation predicts

    A simulated fight never overflows and ends, only takes hit points away, and
    only from units that some enemy can shoot at.  Seen step by step it is a
    sequence of deeds of units that are alive ([tick]). *)

From S2P Require Import Prelude Floats Geometry BuildTypes Units GameMechanics Algorithms CombatSim.

Module CombatRuns.
Import CombatSim.

Section runs.
Context `{Arms, BuildType.Table}.

(** ** What a unit never changes *)

Record stats := Stats {
  s_armor : Z; s_speed : Z; s_flying : bool; s_dark : bool; s_type : BuildType; s_gd : Z; s_ad : Z;
  s_gt : Z; s_at : Z; s_gr : Z; s_ar : Z }.
Definition stats_of (u : SimUnit) : stats :=
  Stats (armor u) (maxSpeed u) (flying u) (underDarkSwarm u) (type u) (groundDamage u) (airDamage u)
    (groundDamageType u) (airDamageType u) (groundRange u) (airRange u).

(** [u] has a weapon against [e]. *)
Definition threatens (u e : SimUnit) : Prop := damage_to u e ≠ 0.
(** The same, for a unit with these stats. *)
Definition threat (a : stats) (e : SimUnit) : Prop := (if flying e then s_ad a else s_gd a) ≠ 0.

(** A unit after (a part of) a fight against enemies with the stats [S]. *)
Record worn (S : list stats) (u u' : SimUnit) : Prop := {
  wo_stats : stats_of u' = stats_of u;
  wo_hp : hp u' ≤ hp u;
  wo_shields : shields u' ≤ shields u;
  wo_dead : hp u ≤ 0 → hp u' = hp u ∧ x u' = x u ∧ y u' = y u;
  wo_unharmed : (∀ a, a ∈ S → ¬ threat a u) → type u ≠ BuildType.Zerg_Scourge → hp u' = hp u ∧ shields u' = shields u
}.

(** Types whose cooldowns are those of the game. *)
Definition paced (ty : BuildType) : Prop := ∀ air, 0 ≤ cooldown_of ty air ≤ 2 ^ 16.

(** A unit as it can be in a fight against [n] enemies: a map has at most 1024
    walk tiles to a side; a unit does not outrun its weapon. *)
Record fit (n : nat) (u : SimUnit) : Prop := {
  fi_hp : 0 ≤ hp u;
  fi_shields : 0 ≤ shields u;
  fi_x : 0 ≤ x u < 2 ^ 18;
  fi_y : 0 ≤ y u < 2 ^ 18;
  fi_speed : 0 ≤ maxSpeed u ≤ 2 ^ 12;
  fi_ground : 0 ≤ groundDamage u ∧ (groundDamage u ≠ 0 → 0 ≤ groundRange u ≤ 2 ^ 10 ∧ maxSpeed u ≤ 384 + 64 * groundRange u);
  fi_air : 0 ≤ airDamage u ∧ (airDamage u ≠ 0 → 0 ≤ airRange u ≤ 2 ^ 10 ∧ maxSpeed u ≤ 384 + 64 * airRange u);
  fi_cooldown : 0 ≤ cooldownUntil u ≤ 2 ^ 24;
  fi_paced : paced (type u);
  fi_target : ∀ k, target u = Some k → (k < n)%nat
}.

Lemma int_Ok z : - 2 ^ 31 ≤ z < 2 ^ 31 → int z = Ok z.
Proof. intros Hz. unfold int. replace ((_ <=? _) && (_ <? _)) with true; [done|]. symmetry. apply andb_true_iff. lia. Qed.

(** ** Targets *)

(** The target is a living enemy the unit can shoot at, and none scores better. *)
Lemma pick_spec u es : match pick u es with
  | Some k => ∃ e, es !! k = Some e ∧ 0 < hp e ∧ threatens u e ∧
      ∀ e', e' ∈ es → 0 < hp e' → threatens u e' → fltb (score u e') (score u e) = false
  | None => ∀ e, e ∈ es → feqb (score u e) kdInfty = true
  end.
Proof.
  assert (∀ e, feqb (score u e) kdInfty = false → 0 < hp e ∧ threatens u e) as Hfin.
  { intros e. unfold score, threatens. destruct (Z.ltb_spec 0 (hp e)); [|done].
    destruct (Z.eqb_spec (damage_to u e) 0); [done|]. auto. }
  unfold pick.
  pose proof (Algorithms.getBestScore_spec fltb (λ p : nat * SimUnit, score u p.2) (λ s, feqb s kdInfty) (λ _, false)
    fltb_trans fltb_irrefl (λ s s' (E : false = true), False_ind _ (diff_false_true E)) (imap pair es)) as Hb.
  assert (∀ p : nat * SimUnit, p ∈ imap pair es ↔ es !! p.1 = Some p.2) as Himap.
  { intros [k e]. rewrite list_elem_of_lookup. cbn. split.
    - intros [i Hi]. rewrite list_lookup_imap in Hi. destruct (es !! i) eqn:E; cbn in Hi; congruence.
    - intros He. exists k. by rewrite list_lookup_imap, He. }
  destruct (Algorithms.getBestScore _ _ _ _ _) as [[k e]|]; cbn.
  - destruct Hb as (Hin%Himap & Hv & Hu). cbn in *. destruct (Hfin e Hv). exists e. split_and!; try done.
    intros e' [k' He']%list_elem_of_lookup _ _. destruct (feqb (score u e') kdInfty) eqn:Einf.
    + destruct (score u e') as [[]|[]| |[]]; try done. by destruct (score u e) as [[]|[]| |[]].
    + apply (Hu (k', e')); [by apply Himap|done].
  - intros e [k He]%list_elem_of_lookup. by apply (Hb (k, e)), Himap.
Qed.

(** ** Steps of a turn *)

Lemma worn_refl S u : worn S u u.
Proof. by split. Qed.

Lemma worn_trans S u1 u2 u3 : worn S u1 u2 → worn S u2 u3 → worn S u1 u3.
Proof.
  intros [S1 H1 T1 D1 U1] [S2 H2 T2 D2 U2].
  assert (flying u2 = flying u1 ∧ type u2 = type u1) as [Ef Et] by (by injection S1). split; [congruence|lia|lia|..].
  - intros Hd. destruct (D1 Hd) as (E1 & E2 & E3). rewrite <-E1, <-E2, <-E3. apply D2. lia.
  - intros Hn Ht. destruct (U1 Hn Ht) as [<- <-]. apply U2; [|by rewrite Et].
    intros a Ha. unfold threat. rewrite Ef. by apply Hn.
Qed.

(** Changes that leave hit points and stats alone. *)
Lemma worn_moved S u u' : stats_of u' = stats_of u → hp u' = hp u → shields u' = shields u → 0 < hp u → worn S u u'.
Proof. intros E1 E2 E3 Hp. split; [done|lia|lia|lia|done]. Qed.

Lemma damage_nonneg n u e : fit n u → 0 ≤ damage_to u e.
Proof. intros Hu. unfold damage_to. destruct (flying e); [apply (fi_air _ _ Hu)|apply (fi_ground _ _ Hu)]. Qed.

Lemma hit_effect n m u e : fit n u → fit m e → 0 < hp e →
  fit m (hit u e) ∧ stats_of (hit u e) = stats_of e ∧ hp (hit u e) ≤ hp e ∧ shields (hit u e) ≤ shields e.
Proof.
  intros Hu He Hp. pose proof (damage_nonneg n u e Hu) as Hd. pose proof (fi_shields _ _ He) as Hsh. unfold hit.
  set (b := if shields e =? 0 then (e, damage_to u e) else _).
  assert (fit m b.1 ∧ stats_of b.1 = stats_of e ∧ hp b.1 = hp e ∧ shields b.1 ≤ shields e) as (Hb & E1 & E2 & E3).
  { subst b. destruct (Z.eqb_spec (shields e) 0); [done|]. destruct (Z.ltb_spec (shields e - damage_to u e) 0).
    - split_and!; try done. destruct He; by split.
    - split_and!; [|done|done|cbn; lia]. destruct He; split; try done; cbn; lia. }
  destruct b as [e1 d1]. cbn [fst] in *. destruct (d1 =? 0); [split_and!; try done; lia|].
  set (d2 := if restrictedByDarkSwarm _ && _ then 0 else _).
  assert (0 ≤ d2) as Hd2 by (subst d2; destruct (_ && _); [done|]; destruct (Z.ltb_spec (d1 * damageTypeModifier
    (if flying e1 then airDamageType u else groundDamageType u) (size (type e1)) - 4 * armor e1) 2); lia).
  split_and!; [|done| |done].
  - destruct Hb; split; try done; cbn; destruct (Z.ltb_spec (hp e1 - d2) 0); lia.
  - cbn. destruct (Z.ltb_spec (hp e1 - d2) 0); lia.
Qed.

Lemma reload_effect n frame u air : fit n u → 0 ≤ frame ≤ 2 ^ 23 → cooldownUntil u ≤ frame → 0 < hp u →
  ∃ u', reload frame u air = Ok u' ∧ fit n u' ∧ stats_of u' = stats_of u ∧ shields u' = shields u ∧ hp u' ≤ hp u ∧
    (type u ≠ BuildType.Zerg_Scourge → hp u' = hp u).
Proof.
  intros Hu Hf Hc Hp. unfold reload.
  set (u1 := if bool_decide _ then set_hp u 0 else u).
  assert (fit n u1 ∧ stats_of u1 = stats_of u ∧ shields u1 = shields u ∧ hp u1 ≤ hp u ∧ cooldownUntil u1 = cooldownUntil u ∧
    (type u ≠ BuildType.Zerg_Scourge → hp u1 = hp u)) as (Hu1 & E1 & E2 & E3 & E4 & E5).
  { subst u1. case_bool_decide; [|done]. split_and!; try done; [|cbn; lia]. destruct Hu; by split. }
  pose proof (fi_paced _ _ Hu1 air) as Hpc. pose proof (fi_cooldown _ _ Hu1) as Hcd.
  rewrite int_Ok by lia. cbn [rbind].
  destruct (Z.leb_spec (cooldownUntil u1 + cooldown_of (type u1) air) frame); [rewrite int_Ok by lia|]; cbn [rbind];
    (eexists; split_and!; [reflexivity| |done..]); destruct Hu1; split; try done; cbn; lia.
Qed.

(** A stride goes towards the target and not past it. *)
Lemma stride dx ms d : 0 ≤ ms → ms ≤ 128 * d → 2 ≤ d →
  let v := Z.quot (Z.shiftr (dx * ms) 8) d * resolution in (0 ≤ v ≤ dx) ∨ (dx ≤ v ≤ 0).
Proof.
  intros H1 H2 H3. cbn zeta. unfold resolution. rewrite Z.shiftr_div_pow2 by lia. change (2 ^ 8) with 256.
  destruct (Z.le_gt_cases 0 dx) as [Hp|Hn].
  - left. pose proof (Z.mul_div_le (dx * ms) 256 ltac:(lia)) as Hq. set (q := dx * ms / 256) in *.
    assert (0 ≤ q) by (apply Z.div_pos; nia). rewrite Z.quot_div_nonneg by lia.
    pose proof (Z.mul_div_le q d ltac:(lia)). assert (0 ≤ q / d) by (apply Z.div_pos; lia). split; [lia|]. nia.
  - right. pose proof (Z.mod_pos_bound (dx * ms) 256 ltac:(lia)) as Hr. pose proof (Z.div_mod (dx * ms) 256 ltac:(lia)) as Hq.
    set (q := dx * ms / 256) in *. assert (q ≤ 0) by nia. replace q with (- - q) by lia. rewrite Z.quot_opp_l by lia.
    rewrite Z.quot_div_nonneg by lia. pose proof (Z.mul_div_le (- q) d ltac:(lia)).
    assert (0 ≤ - q / d) by (apply Z.div_pos; lia). split; [|lia].
    assert (2 * - q ≤ - dx * d + 1) by nia. nia.
Qed.

(** Out of reach, a unit is at least as far away as its speed demands. *)
Lemma out_of_reach a b r : 0 ≤ r → Z.abs a < 2 ^ 28 → Z.abs b < 2 ^ 28 → (4 + r) * (4 + r) < a * a + b * b →
  384 + 64 * r ≤ 128 * GameMechanics.pxdistance 0 0 a b ∧ 2 ≤ GameMechanics.pxdistance 0 0 a b.
Proof.
  intros Hr Ha Hb Hf. unfold GameMechanics.pxdistance. rewrite !Z.sub_0_l, !Z.abs_opp.
  destruct (GameMechanics.disthelper_bounds (Z.abs a) (Z.abs b)) as [Hd _]; [unfold GameMechanics.px_range; lia..|].
  set (d := GameMechanics.disthelper _ _) in *. assert (a * a ≤ d * d) by nia. assert (b * b ≤ d * d) by nia.
  assert (6 + r ≤ 2 * d) by nia. lia.
Qed.

Lemma shiftr8_small z : Z.abs z < 2 ^ 18 → Z.abs (Z.shiftr z 8) ≤ 2 ^ 10.
Proof. intros Hz. rewrite Z.shiftr_div_pow2 by lia. change (2 ^ 8) with 256. Z.div_mod_to_equations. lia. Qed.

(** [b] is on the way from [a] to [c]. *)
Definition between (a b c : Z) : Prop := a ≤ b ≤ c ∨ c ≤ b ≤ a.

Lemma walk_effect n m u e r : fit n u → fit m e → 0 ≤ r → maxSpeed u ≤ 384 + 64 * r →
  let dx := x e - x u in let dy := y e - y u in
  (4 + r) * (4 + r) < Z.shiftr dx 8 * Z.shiftr dx 8 + Z.shiftr dy 8 * Z.shiftr dy 8 →
  ∃ px py, walk u dx dy = Ok (set_pos u px py) ∧ 0 ≤ px < 2 ^ 18 ∧ 0 ≤ py < 2 ^ 18 ∧
    between (x u) px (x e) ∧ between (y u) py (y e).
Proof.
  intros Hu He Hr Hs dx dy Hfar. pose proof (fi_x _ _ Hu). pose proof (fi_y _ _ Hu). pose proof (fi_x _ _ He).
  pose proof (fi_y _ _ He). pose proof (fi_speed _ _ Hu) as Hsp. unfold walk.
  destruct (out_of_reach (Z.shiftr dx 8) (Z.shiftr dy 8) r) as [Hd Hd2]; [done|..|done|];
    [pose proof (shiftr8_small dx); lia|pose proof (shiftr8_small dy); lia|].
  set (d := GameMechanics.pxdistance 0 0 _ _) in *. replace (d =? 0) with false by (symmetry; apply Z.eqb_neq; lia).
  rewrite (int_Ok (dx * maxSpeed u)) by nia. rewrite (int_Ok (dy * maxSpeed u)) by nia. cbn [rbind].
  destruct (stride dx (maxSpeed u) d) as [Hx|Hx]; [lia..| |];
    (destruct (stride dy (maxSpeed u) d) as [Hy|Hy]; [lia..| |]);
    (rewrite int_Ok by lia; cbn [rbind]; rewrite int_Ok by lia; cbn [rbind];
     eexists _, _; split_and!; [reflexivity|unfold between; lia..]).
Qed.

Lemma fit_moved n u u' : fit n u → stats_of u' = stats_of u → hp u' = hp u → shields u' = shields u →
  0 ≤ x u' < 2 ^ 18 → 0 ≤ y u' < 2 ^ 18 → 0 ≤ cooldownUntil u' ≤ 2 ^ 24 → (∀ k, target u' = Some k → (k < n)%nat) → fit n u'.
Proof.
  intros [] [= E1 E2 E3 E4 E5 E6 E7 E8 E9 E10 E11] Ehp Esh Hx Hy Hc Ht.
  split; rewrite ?Ehp, ?Esh, ?E2, ?E5, ?E6, ?E7, ?E10, ?E11; done.
Qed.

(** One unit's turn against [es]: what it does to itself and to its target. *)
Record played (n m : nat) (A : list stats) (u : SimUnit) (es : list SimUnit) (u' : SimUnit) (es' : list SimUnit) : Prop := {
  pl_fit : fit n u'; pl_fits : Forall (fit m) es';
  pl_worn : worn (stats_of <$> es) u u'; pl_worns : Forall2 (worn A) es es' }.

Lemma Forall2_worn_refl A es : Forall2 (worn A) es es.
Proof. induction es; constructor; [apply worn_refl|done]. Qed.

Lemma played_alone n m A u es u' : fit n u' → Forall (fit m) es → worn (stats_of <$> es) u u' → played n m A u es u' es.
Proof. intros. split; [done..|apply Forall2_worn_refl]. Qed.

Lemma played_hit n m A u u' es k e : fit n u → fit n u' → Forall (fit m) es → worn (stats_of <$> es) u u' →
  stats_of u ∈ A → es !! k = Some e → 0 < hp e → threatens u e → played n m A u es u' (<[k := hit u e]> es).
Proof.
  intros Hu Hu' Hes Hw HA He Hp Hth. pose proof (proj1 (Forall_lookup _ _) Hes k e He) as Hfe.
  destruct (hit_effect n m u e Hu Hfe Hp) as (Hf & E1 & E2 & E3). split; [done| |done|].
  - by apply Forall_insert.
  - rewrite <-(list_insert_id es k e He) at 1. apply Forall2_insert; [apply Forall2_worn_refl|].
    split; [done|done|done|lia|]. intros Hno. exfalso. by apply (Hno _ HA).
Qed.

Lemma weapon n u e : fit n u → threatens u e → 0 ≤ range_to u e ≤ 2 ^ 10 ∧ maxSpeed u ≤ 384 + 64 * range_to u e.
Proof.
  intros Hu. unfold threatens, damage_to, range_to. destruct (flying e); intros Hd;
    [by apply (fi_air _ _ Hu)|by apply (fi_ground _ _ Hu)].
Qed.

Lemma engage_spec n m A frame u es k e : 0 ≤ frame ≤ 2 ^ 23 → fit n u → Forall (fit m) es → stats_of u ∈ A →
  es !! k = Some e → 0 < hp u → 0 < hp e → threatens u e →
  ∃ u' es', engage frame u k es = Ok (u', es') ∧ played n m A u es u' es'.
Proof.
  intros Hf Hu Hes HA He Hpu Hpe Hth. pose proof (proj1 (Forall_lookup _ _) Hes k e He) as Hfe.
  destruct (weapon n u e Hu Hth) as [Hr Hs]. pose proof (fi_x _ _ Hu). pose proof (fi_y _ _ Hu). pose proof (fi_x _ _ Hfe).
  pose proof (fi_y _ _ Hfe). unfold engage. rewrite He. cbn [of_option rbind].
  pose proof (shiftr8_small (x e - x u) ltac:(lia)). pose proof (shiftr8_small (y e - y u) ltac:(lia)).
  do 5 (rewrite int_Ok by nia; cbn [rbind]). case_match eqn:Enear.
  - set (u1 := set_target u (target u) true).
    assert (fit n u1) as Hu1 by (destruct Hu; by split).
    assert (worn (stats_of <$> es) u u1) as Hw1 by by apply worn_moved.
    cbn [cooldownUntil set_target u1]. destruct (Z.leb_spec (cooldownUntil u) frame) as [Hc|Hc].
    + destruct (reload_effect n frame u1 (flying e) Hu1 Hf Hc Hpu) as (u2 & -> & Hf2 & E1 & E2 & E3 & E4).
      cbn [rbind]. exists u2, (<[k := hit u1 e]> es). split; [done|]. change (hit u1 e) with (hit u e).
      eapply played_hit; try done. split; [done|done|by rewrite E2|lia|]. intros _ Hns. split; [by apply E4|done].
    + exists u1, es. split; [done|by apply played_alone].
  - apply Z.leb_gt in Enear.
    destruct (walk_effect n m u e (range_to u e) Hu Hfe) as (px & py & -> & Hx & Hy & _); [lia..|].
    cbn [rbind]. eexists _, es. split; [done|]. apply played_alone; [|done|by apply worn_moved].
    apply (fit_moved n u); [done..|apply (fi_cooldown _ _ Hu)|apply (fi_target _ _ Hu)].
Qed.

Lemma turn_spec m A frame u es : 0 ≤ frame ≤ 2 ^ 23 → fit (length es) u → Forall (fit m) es → stats_of u ∈ A →
  ∃ u' es' b, turn frame u es = Ok (u', es', b) ∧ played (length es) m A u es u' es'.
Proof.
  intros Hf Hu Hes HA. unfold turn. destruct (Z.leb_spec (hp u) 0) as [Hd|Hp].
  { exists u, es, false. split; [done|]. apply played_alone; [done|done|apply worn_refl]. }
  assert (∃ v, (match target u with Some k => let? e := of_option (es !! k) in Ok (hp e) | None => Ok 0 end) = Ok v) as [v ->].
  { destruct (target u) as [k|] eqn:Et; [|eauto]. destruct (lookup_lt_is_Some_2 es k (fi_target _ _ Hu k Et)) as [e ->]. cbn. eauto. }
  cbn [rbind]. pose proof (pick_spec u es) as Hpick. set (u1 := set_target u (pick u es) false).
  assert (fit (length es) u1) as Hu1.
  { apply (fit_moved _ u); try apply Hu; try done. cbn. intros k Ek. rewrite Ek in Hpick. destruct Hpick as (e & He & _).
    by eapply lookup_lt_Some. }
  assert (worn (stats_of <$> es) u u1) as Hw1 by by apply worn_moved.
  destruct (pick u es) as [k|] eqn:Ek.
  - destruct Hpick as (e & He & Hpe & Hth & _).
    destruct (engage_spec (length es) m A frame u1 es k e Hf Hu1 Hes HA He Hp Hpe Hth) as (u' & es' & E & [P1 P2 P3 P4]).
    rewrite E. cbn [rbind]. exists u', es', true. split; [done|]. split; try done. by eapply worn_trans.
  - exists u1, es, false. split; [done|]. by apply played_alone.
Qed.

(** ** The fight *)

Lemma worn_all_trans A us1 us2 us3 : Forall2 (worn A) us1 us2 → Forall2 (worn A) us2 us3 → Forall2 (worn A) us1 us3.
Proof.
  intros H1. revert us3. induction H1 as [|u1 u2 us1 us2 Hw _ IH]; intros us3; [by intros ->%Forall2_nil_inv_l|].
  intros (u3 & us3' & Hw3 & Hrest & ->)%Forall2_cons_inv_l. constructor; [by eapply worn_trans|by apply IH].
Qed.

Lemma worn_stats A us us' : Forall2 (worn A) us us' → stats_of <$> us' = stats_of <$> us.
Proof. induction 1 as [|u u' us us' Hw _ IH]; [done|]. cbn. by rewrite IH, (wo_stats _ _ _ Hw). Qed.

Lemma turns_spec m A frame us : ∀ es, 0 ≤ frame ≤ 2 ^ 23 → Forall (fit (length es)) us → Forall (fit m) es →
  (∀ u, u ∈ us → stats_of u ∈ A) →
  ∃ us' es' b, turns frame us es = Ok (us', es', b) ∧ Forall (fit (length es)) us' ∧ Forall (fit m) es' ∧
    Forall2 (worn (stats_of <$> es)) us us' ∧ Forall2 (worn A) es es'.
Proof.
  induction us as [|u us IH]; intros es Hf Hus Hes HA; cbn [turns].
  { exists [], es, false. split_and!; try done. apply Forall2_worn_refl. }
  apply Forall_cons in Hus as [Hu Hus].
  destruct (turn_spec m A frame u es Hf Hu Hes) as (u1 & es1 & b1 & -> & [P1 P2 P3 P4]); [by apply HA; left|].
  cbn [rbind]. pose proof (Forall2_length _ _ _ P4) as El.
  destruct (IH es1 Hf) as (us' & es' & b & -> & Q1 & Q2 & Q3 & Q4);
    [by rewrite <-El|done|by intros u' Hu'; apply HA; right|]. cbn [rbind].
  rewrite (worn_stats _ _ _ P4) in Q3. rewrite <-El in Q1.
  exists (u1 :: us'), es', (b1 || b). split_and!; [done|by apply Forall_cons|done|by constructor|by eapply worn_all_trans].
Qed.

(** Two teams that can fight each other. *)
Definition ready (s : t) : Prop :=
  Forall (fit (length (units (team1 s)))) (units (team0 s)) ∧ Forall (fit (length (units (team0 s)))) (units (team1 s)).

(** The units after a fight: each is worn down by the other team. *)
Definition fought (s s' : t) : Prop :=
  Forall2 (worn (stats_of <$> units (team1 s))) (units (team0 s)) (units (team0 s')) ∧
  Forall2 (worn (stats_of <$> units (team0 s))) (units (team1 s)) (units (team1 s')).

#[export] Instance fought_refl : Reflexive fought.
Proof. intros s. split; apply Forall2_worn_refl. Qed.
#[export] Instance fought_trans : Transitive fought.
Proof.
  intros s1 s2 s3 [A1 A2] [B1 B2]. rewrite (worn_stats _ _ _ A2) in B1. rewrite (worn_stats _ _ _ A1) in B2.
  split; by eapply worn_all_trans.
Qed.

Lemma round_spec frame s : 0 ≤ frame ≤ 2 ^ 23 → ready s →
  ∃ s' b, round frame s = Ok (s', b) ∧ ready s' ∧ fought s s' ∧
    startHp (team0 s') = startHp (team0 s) ∧ startHp (team1 s') = startHp (team1 s).
Proof.
  intros Hf [H0' H1']. unfold round. set (us := units (team0 s)) in *. set (es := units (team1 s)) in *.
  destruct (turns_spec (length us) (stats_of <$> us) frame us es Hf H0' H1')
    as (us1 & es1 & b1 & -> & P1 & P2 & P3 & P4); [by intros; apply list_elem_of_fmap_2|]. cbn [rbind].
  pose proof (Forall2_length _ _ _ P3) as L1. pose proof (Forall2_length _ _ _ P4) as L2.
  destruct (turns_spec (length es) (stats_of <$> es) frame es1 us1 Hf) as (es2 & us2 & b2 & -> & Q1 & Q2 & Q3 & Q4);
    [by rewrite <-L1|done|intros; rewrite <-(worn_stats _ _ _ P4); by apply list_elem_of_fmap_2|]. cbn [rbind].
  pose proof (Forall2_length _ _ _ Q3) as L3. pose proof (Forall2_length _ _ _ Q4) as L4.
  rewrite (worn_stats _ _ _ P3) in Q3. eexists _, _. split_and!; [reflexivity|..]; unfold ready, fought; cbn;
    [by rewrite <-L3, <-L2, <-L4, <-L1 in *| |done|done].
  split; by eapply worn_all_trans.
Qed.

Lemma rounds_spec fuel : ∀ frame frames s, 0 ≤ frame → frames ≤ 2 ^ 22 → frames - frame ≤ Z.of_nat fuel → ready s →
  ∃ s', rounds fuel frame frames s = Ok s' ∧ ready s' ∧ fought s s' ∧
    startHp (team0 s') = startHp (team0 s) ∧ startHp (team1 s') = startHp (team1 s).
Proof.
  induction fuel as [|fuel IH]; intros frame frames s Hf Hfs Hfuel Hs; cbn [rounds];
    destruct (Z.ltb_spec frame frames) as [Hlt|Hge]; try lia; try by exists s.
  destruct (round_spec frame s ltac:(lia) Hs) as (s1 & b & -> & Hs1 & Hw & E0 & E1). cbn [rbind fst snd].
  unfold resolution. rewrite int_Ok by lia. cbn [rbind]. destruct b; [|by exists s1].
  destruct (IH (frame + 2) frames s1) as (s' & -> & Hs' & Hw' & E0' & E1'); [lia..|done|].
  exists s'. split_and!; [done|done|by etransitivity|congruence|congruence].
Qed.

(** ** One deed at a time *)

(** The best target: a living enemy the unit has a weapon against, none of which
    scores better. *)
Definition aims (u : SimUnit) (es : list SimUnit) (k : nat) (e : SimUnit) : Prop :=
  es !! k = Some e ∧ 0 < hp e ∧ threatens u e ∧
  ∀ e', e' ∈ es → 0 < hp e' → threatens u e' → fltb (score u e') (score u e) = false.

(** In walk tiles, with a margin of four. *)
Definition in_range (u e : SimUnit) : Prop :=
  let dx := Z.shiftr (x e - x u) 8 in let dy := Z.shiftr (y e - y u) 8 in
  dx * dx + dy * dy ≤ (4 + range_to u e) * (4 + range_to u e).

(** What a living unit may do against [es]: nothing, wait for its weapon, shoot
    (only its target is hit), or walk towards its target (nobody else changes). *)
Inductive deed (frame : Z) (u : SimUnit) (es : list SimUnit) : SimUnit → list SimUnit → Prop :=
| deed_none : (∀ e, e ∈ es → feqb (score u e) kdInfty = true) → deed frame u es (set_target u None false) es
| deed_reload k e : aims u es k e → in_range u e → frame < cooldownUntil u →
    deed frame u es (set_target u (Some k) true) es
| deed_shot k e u' : aims u es k e → in_range u e → cooldownUntil u ≤ frame →
    stats_of u' = stats_of u → x u' = x u → y u' = y u → shields u' = shields u →
    hp u' = (if bool_decide (type u = BuildType.Zerg_Scourge) then 0 else hp u) →
    cooldownUntil u' = Z.max (cooldownUntil u + cooldown_of (type u) (flying e)) (frame + 1) →
    deed frame u es u' (<[k := hit u e]> es)
| deed_walk k e px py : aims u es k e → ¬ in_range u e → between (x u) px (x e) → between (y u) py (y e) →
    deed frame u es (set_pos (set_target u (Some k) false) px py) es.

(** The turn of the [n]-th unit: a unit without hit points does nothing. *)
Definition moves (frame : Z) (n : nat) (us es us' es' : list SimUnit) : Prop :=
  ∃ u, us !! n = Some u ∧
    (hp u ≤ 0 ∧ us' = us ∧ es' = es ∨ 0 < hp u ∧ ∃ u', us' = <[n := u']> us ∧ deed frame u es u' es').

(** A moment of the fight: the frame, how many units have had their turn in this
    round (ours first), and both teams. *)
Record moment := Moment { now : Z; turns_taken : nat; ours : list SimUnit; theirs : list SimUnit }.

Inductive tick : moment → moment → Prop :=
| tick_ours f n us es us' es' : moves f n us es us' es' → tick (Moment f n us es) (Moment f (S n) us' es')
| tick_theirs f n us es us' es' : moves f n es us es' us' →
    tick (Moment f (length us + n) us es) (Moment f (S (length us + n)) us' es')
| tick_round f us es : tick (Moment f (length us + length es) us es) (Moment (f + 2) 0 us es).

Lemma moves_length f n us es us' es' : moves f n us es us' es' → length us' = length us ∧ length es' = length es.
Proof.
  intros (u & _ & [(_ & -> & ->)|(_ & u' & -> & Hd)]); [done|]. rewrite length_insert. split; [done|].
  destruct Hd; try done. by rewrite length_insert.
Qed.

Lemma reload_deed frame u air u' : reload frame u air = Ok u' →
  stats_of u' = stats_of u ∧ x u' = x u ∧ y u' = y u ∧ shields u' = shields u ∧
  hp u' = (if bool_decide (type u = BuildType.Zerg_Scourge) then 0 else hp u) ∧
  cooldownUntil u' = Z.max (cooldownUntil u + cooldown_of (type u) air) (frame + 1).
Proof.
  assert (∀ z c, int z = Ok c → c = z) as Hint by (intros z c; unfold int; case_match; congruence).
  unfold reload. set (u1 := if bool_decide _ then _ else _).
  assert (stats_of u1 = stats_of u ∧ x u1 = x u ∧ y u1 = y u ∧ shields u1 = shields u ∧ type u1 = type u ∧
    hp u1 = (if bool_decide (type u = BuildType.Zerg_Scourge) then 0 else hp u) ∧ cooldownUntil u1 = cooldownUntil u)
    as (E1 & E2 & E3 & E4 & E5 & E6 & E7) by (unfold u1; by case_bool_decide).
  intros (c & ->%Hint & Hq)%rbind_Ok_inv. apply rbind_Ok_inv in Hq as (c & Hc & [= <-]).
  rewrite E5, E7 in Hc. split_and!; try done. cbn.
  destruct (Z.leb_spec (cooldownUntil u + cooldown_of (type u) air) frame); [apply Hint in Hc as ->|injection Hc as <-]; lia.
Qed.

(** A turn that is taken is one of these deeds. *)
Lemma turn_deed m frame u es u' es' b : fit (length es) u → Forall (fit m) es → 0 < hp u →
  turn frame u es = Ok (u', es', b) → deed frame u es u' es'.
Proof.
  intros Hu Hes Hp. unfold turn. destruct (Z.leb_spec (hp u) 0); [lia|]. intros (v & _ & Hq)%rbind_Ok_inv.
  pose proof (pick_spec u es) as Hpick. destruct (pick u es) as [k|]; [|injection Hq as <- <- <-; by constructor].
  assert (∃ e, aims u es k e) as [e Ha] by exact Hpick. clear Hpick. pose proof Ha as (He & Hpe & Hth & _).
  pose proof (proj1 (Forall_lookup _ _) Hes k e He) as Hfe.
  destruct (weapon _ u e Hu Hth) as [Hr Hs]. pose proof (fi_x _ _ Hu). pose proof (fi_y _ _ Hu). pose proof (fi_x _ _ Hfe).
  pose proof (fi_y _ _ Hfe). apply rbind_Ok_inv in Hq as ([u2 es2] & Hq & [= <- <- <-]).
  set (u1 := set_target u (Some k) false) in *. revert Hq. unfold engage. rewrite He. cbn [of_option rbind].
  assert (x u1 = x u ∧ y u1 = y u ∧ range_to u1 e = range_to u e) as (-> & -> & ->) by done.
  pose proof (shiftr8_small (x e - x u) ltac:(lia)). pose proof (shiftr8_small (y e - y u) ltac:(lia)).
  do 5 (rewrite int_Ok by nia; cbn [rbind]). case_match eqn:Enear.
  - apply Z.leb_le in Enear. cbn [cooldownUntil set_target u1]. destruct (Z.leb_spec (cooldownUntil u) frame) as [Hc|Hc].
    + intros (u3 & Hr3 & [= <- <-])%rbind_Ok_inv. apply reload_deed in Hr3 as (E1 & E2 & E3 & E4 & E5 & E6).
      by apply (deed_shot frame u es k e).
    + intros [= <- <-]. by apply (deed_reload frame u es k e).
  - apply Z.leb_gt in Enear. intros (u3 & Hw & [= <- <-])%rbind_Ok_inv.
    assert (fit (length es) u1) as Hu1.
    { apply (fit_moved _ u); try apply Hu; try done. intros k' [= <-]. by eapply lookup_lt_Some. }
    destruct (walk_effect _ m u1 e (range_to u e) Hu1 Hfe) as (px & py & Ew & _ & _ & Hx & Hy); [lia|exact Hs|exact Enear|].
    change (walk u1 (x e - x u) (y e - y u) = Ok (set_pos u1 px py)) in Ew. rewrite Ew in Hw. injection Hw as <-.
    apply (deed_walk frame u es k e); [done|unfold in_range; lia|done|done].
Qed.

(** A team's turns, one after the other, seen from moments [M]. *)
Lemma turns_ticks m frame (M : nat → list SimUnit → list SimUnit → moment)
    (HM : ∀ n us es us' es', moves frame n us es us' es' → tick (M n us es) (M (S n) us' es')) :
  ∀ us es pre us' es' b, 0 ≤ frame ≤ 2 ^ 23 → Forall (fit (length es)) us → Forall (fit m) es →
    turns frame us es = Ok (us', es', b) →
    rtc tick (M (length pre) (pre ++ us) es) (M (length pre + length us)%nat (pre ++ us') es').
Proof.
  induction us as [|u us IH]; intros es pre us' es' b Hf Hus Hes; cbn [turns].
  { intros [= <- <- <-]. by rewrite Nat.add_0_r. }
  apply Forall_cons in Hus as [Hu Hus].
  destruct (turn_spec m [stats_of u] frame u es Hf Hu Hes) as (u1 & es1 & b1 & Et & [P1 P2 P3 P4]); [by left|].
  rewrite Et. cbn [rbind]. pose proof (Forall2_length _ _ _ P4) as El.
  intros ([[us2 es2] b2] & H2 & [= <- <- <-])%rbind_Ok_inv.
  assert (moves frame (length pre) (pre ++ u :: us) es (pre ++ u1 :: us) es1) as Hm.
  { exists u. split; [by rewrite list_lookup_middle|]. destruct (Z.le_gt_cases (hp u) 0) as [Hd|Hd].
    - left. unfold turn in Et. rewrite (proj2 (Z.leb_le _ _) Hd) in Et. by injection Et as <- <- <-.
    - right. split; [lia|]. exists u1. split; [by rewrite insert_app_r_alt, Nat.sub_diag by done|].
      eapply turn_deed; [done|done|lia|done]. }
  eapply rtc_l; [by apply HM|].
  specialize (IH es1 (pre ++ [u1]) us2 es2 b2 Hf). rewrite <-!app_assoc, length_app in IH. cbn in IH.
  cbn [length]. replace (length pre + S (length us))%nat with (length pre + 1 + length us)%nat by lia.
  replace (S (length pre)) with (length pre + 1)%nat by lia. apply IH; [by rewrite <-El|done|done].
Qed.

Lemma round_ticks frame s s' b : 0 ≤ frame ≤ 2 ^ 23 → ready s → round frame s = Ok (s', b) →
  rtc tick (Moment frame 0 (units (team0 s)) (units (team1 s)))
    (Moment frame (length (units (team0 s')) + length (units (team1 s'))) (units (team0 s')) (units (team1 s'))).
Proof.
  intros Hf [H0' Hq']. unfold round. set (us := units (team0 s)) in *. set (es := units (team1 s)) in *.
  destruct (turns_spec (length us) (stats_of <$> us) frame us es Hf H0' Hq')
    as (us1 & es1 & b1 & E1 & P1 & P2 & P3 & P4); [by intros; apply list_elem_of_fmap_2|]. rewrite E1. cbn [rbind].
  pose proof (Forall2_length _ _ _ P3) as L1. pose proof (Forall2_length _ _ _ P4) as L2.
  intros ([[es2 us2] b2] & E2 & [= <- <-])%rbind_Ok_inv. cbn [units team0 team1 set_units].
  pose proof (turns_ticks (length us) frame (Moment frame) (tick_ours frame) us es [] us1 es1 b1 Hf H0' Hq' E1) as T1.
  rewrite L1 in P2.
  pose proof (turns_ticks (length es) frame (λ n es us, Moment frame (length us + n) us es)) as T2. cbn in T1, T2.
  specialize (T2 ltac:(intros n es0 us0 es' us' Hm; destruct (moves_length _ _ _ _ _ _ Hm) as [_ ->];
    rewrite <-plus_n_Sm; by constructor) es1 us1 [] es2 us2 b2 Hf P2 P1 E2). cbn in T2.
  rewrite Nat.add_0_r in T2. rewrite L1 in T1.
  destruct (turns_spec (length es) (stats_of <$> es) frame es1 us1 Hf) as (es3 & us3 & b3 & E3 & _ & _ & Q3 & Q4);
    [done|done|intros; rewrite <-(worn_stats _ _ _ P4); by apply list_elem_of_fmap_2|].
  rewrite E2 in E3. injection E3 as <- <- <-. rewrite <-(Forall2_length _ _ _ Q3). by etransitivity.
Qed.

Lemma rounds_ticks fuel : ∀ frame frames s s', 0 ≤ frame → frames ≤ 2 ^ 22 → ready s → rounds fuel frame frames s = Ok s' →
  ∃ f n, f ≤ Z.max frame (frames + 1) ∧ rtc tick (Moment frame 0 (units (team0 s)) (units (team1 s)))
    (Moment f n (units (team0 s')) (units (team1 s'))).
Proof.
  induction fuel as [|fuel IH]; intros frame frames s s' Hf Hfs Hs; cbn [rounds];
    destruct (Z.ltb_spec frame frames) as [Hlt|Hge]; try done;
    try (intros [= <-]; exists frame, 0%nat; split; [lia|done]).
  destruct (round_spec frame s ltac:(lia) Hs) as (s1 & b & E & Hs1 & _). rewrite E. cbn [rbind fst snd].
  apply round_ticks in E; [|lia|done]. unfold resolution. rewrite int_Ok by lia. cbn [rbind]. destruct b.
  - intros Hq. destruct (IH (frame + 2) frames s1 s') as (f & n & Hfn & Ht); [lia|lia|done|done|].
    exists f, n. split; [lia|]. etransitivity; [exact E|]. eapply rtc_l; [constructor|exact Ht].
  - intros [= <-]. eexists frame, _. split; [lia|exact E].
Qed.

Lemma total_worn A us us' : Forall2 (worn A) us us' → total us' ≤ total us.
Proof. 
  induction 1 as [|u u' us us' [_ Hh Hs _ _] _ IH]; [done|].
  change (hp u' + 4 * shields u' + total us' ≤ hp u + 4 * shields u + total us). lia.
Qed.

(** The fight between [us] and [es], one deed at a time, that ends with the teams
    of [s]. *)
Definition fight (frames : Z) (us es : list SimUnit) (s : t) : Prop :=
  ∃ f n, f ≤ Z.max 0 (frames + 1) ∧ rtc tick (Moment 0 0 us es) (Moment f n (units (team0 s)) (units (team1 s))).

Lemma run_spec frames s : frames ≤ 2 ^ 22 → ready s →
  ∃ s', run frames s = Ok s' ∧ ready s' ∧ fought s s' ∧ fight frames (units (team0 s)) (units (team1 s)) s' ∧
    startHp (team0 s') = total (units (team0 s)) ∧ endHp (team0 s') = total (units (team0 s')) ∧
    startHp (team1 s') = total (units (team1 s)) ∧ endHp (team1 s') = total (units (team1 s')).
Proof.
  intros Hf Hs. unfold run.
  destruct (rounds_spec (Z.to_nat frames) 0 frames
    (MkSim (speedMult s) (MkTeam (total (units (team0 s))) (endHp (team0 s)) (units (team0 s)))
      (MkTeam (total (units (team1 s))) (endHp (team1 s)) (units (team1 s))))) as (s' & E & Hs' & Hw & E0 & E1); [lia..|done|].
  edestruct (rounds_ticks (Z.to_nat frames) 0 frames) as (f & n & Hfn & Ht); [..|exact E|]; [lia|done|exact Hs|].
  rewrite E. cbn [rbind]. eexists. split_and!; [reflexivity|done|done| |done..]. by exists f, n.
Qed.

(** ** Predictions *)

(** What the game reports: a map of at most 1024 walk tiles, interceptors fly at
    up to 5.5 and all others at up to 1.5 walk tiles a frame. *)
Record legal (mult : float64) (u : Unit * info) : Prop := {
  le_x : 0 ≤ Unit.x u.1 < 2 ^ 10;
  le_y : 0 ≤ Unit.y u.1 < 2 ^ 10;
  le_hp : 0 ≤ health u.2 ∧ 0 ≤ maxHp (Unit.type u.1);
  le_shields : 0 ≤ shield u.2 ∧ 0 ≤ maxShields (Unit.type u.1);
  le_speed : ∃ v, int_of_double (f64_mul (f64_mul (topSpeed u.2) (f64_of_Z 256)) mult) = Ok v ∧
    0 ≤ v ≤ (if bool_decide (Unit.type u.1 = BuildType.Protoss_Interceptor) then 1408 else 384);
  le_ground : 0 ≤ groundATK u.2 ∧ 0 ≤ unitGroundRange u.2 ≤ 2 ^ 10;
  le_air : 0 ≤ airATK u.2 ∧ 0 ≤ unitAirRange u.2 ≤ 2 ^ 10;
  le_cooldown : 0 ≤ Z.max (Unit.groundCD u.1) (Unit.airCD u.1) ≤ 2 ^ 24;
  le_paced : paced (Unit.type u.1)
}.

Lemma enlist_fit n mult u : legal mult u → ∃ su, enlist mult u.1 u.2 = Ok su ∧ fit n su.
Proof.
  intros [Lx Ly Lh Ls (v & Ev & Lv) Lg La Lc Lp]. unfold enlist. rewrite !Z.shiftl_mul_pow2 by lia.
  rewrite !int_Ok by lia. rewrite Ev. cbn [rbind]. eexists. split; [reflexivity|]. unfold arm. cbn [type].
  repeat case_bool_decide; try congruence; split; cbn; try done; try lia; try (case_match; lia).
Qed.

Definition enlisted (mult : float64) (us : list (Unit * info)) (sus : list SimUnit) : Prop :=
  Forall2 (λ u su, enlist mult u.1 u.2 = Ok su) us sus.
Definition chosen (us : list (Unit * info)) : list (Unit * info) := filter (λ u, fights u.1 u.2 = true) us.

Lemma enlisted_snoc mult us sus u su : enlisted mult us sus → enlist mult u.1 u.2 = Ok su → enlisted mult (us ++ [u]) (sus ++ [su]).
Proof. intros H1 H2. apply Forall2_app; [done|by repeat constructor]. Qed.

(** Units of one side join the team of that side, in order. *)
Lemma add_all_spec mine us : ∀ s team, (∀ u, u ∈ us → legal (speedMult s) u ∧ Unit.isMine u.1 = mine) →
  ∃ sus, enlisted (speedMult s) (chosen us) sus ∧ (∀ n, Forall (fit n) sus) ∧
    rfold (λ '(s, team) u, let? r := addUnit s u.1 u.2 in Ok (r.1, if r.2 then team ++ [u] else team)) us (s, team) =
    Ok (if mine then MkSim (speedMult s) (set_units (team0 s) (units (team0 s) ++ sus)) (team1 s)
        else MkSim (speedMult s) (team0 s) (set_units (team1 s) (units (team1 s) ++ sus)), team ++ chosen us).
Proof.
  induction us as [|u us IH]; intros s team Hus; cbn [rfold].
  { exists []. split_and!; [constructor|constructor|]. rewrite !app_nil_r. destruct s as [m [] []], mine; done. }
  destruct (Hus u) as [Hl Hm]; [by left|]. unfold chosen. rewrite filter_cons. fold (chosen us). unfold addUnit at 1.
  destruct (fights u.1 u.2) eqn:Ef; cbn [negb].
  - destruct (enlist_fit 0 _ u Hl) as (su & Esu & _). rewrite Esu. cbn [rbind]. rewrite Hm.
    set (s1 := if mine then MkSim (speedMult s) (set_units (team0 s) (units (team0 s) ++ [su])) (team1 s)
               else MkSim (speedMult s) (team0 s) (set_units (team1 s) (units (team1 s) ++ [su]))).
    destruct (IH s1 (team ++ [u])) as (sus & H1 & H2 & H3).
    { intros u' Hu'. subst s1. destruct mine; (apply Hus; by right). }
    assert (speedMult s1 = speedMult s) as Es1 by (subst s1; by destruct mine). rewrite Es1 in H1, H3.
    exists (su :: sus). split_and!; [by constructor| |].
    + intros n. apply Forall_cons. split; [|apply H2]. destruct (enlist_fit n _ u Hl) as (su' & E' & Hf). congruence.
    + rewrite decide_True by done. subst s1. destruct mine; cbn [fst snd] in *; rewrite H3; cbn;
        by rewrite <-!app_assoc.
  - cbn [rbind fst snd]. rewrite decide_False by done. apply IH. intros u' Hu'. apply Hus. by right.
Qed.

Definition sides (mult : float64) (allies enemies : list (Unit * info)) : Prop :=
  (∀ u, u ∈ allies → legal mult u ∧ Unit.isMine u.1 = true) ∧ (∀ u, u ∈ enemies → legal mult u ∧ Unit.isMine u.1 = false).

(** A prediction that is true to the units it started with. *)
Definition prediction (mult : float64) (allies enemies : list (Unit * info)) (s : t) : Prop :=
  ∃ us es, enlisted mult allies us ∧ enlisted mult enemies es ∧
    Forall2 (worn (stats_of <$> es)) us (units (team0 s)) ∧ Forall2 (worn (stats_of <$> us)) es (units (team1 s)) ∧
    fight (10 * 24) us es s ∧
    (∀ u, u ∈ units (team0 s) ++ units (team1 s) → 0 ≤ hp u ∧ 0 ≤ shields u ∧ 0 ≤ x u < 2 ^ 18 ∧ 0 ≤ y u < 2 ^ 18) ∧
    startHp (team0 s) = total us ∧ endHp (team0 s) = total (units (team0 s)) ∧ endHp (team0 s) ≤ startHp (team0 s) ∧
    startHp (team1 s) = total es ∧ endHp (team1 s) = total (units (team1 s)) ∧ endHp (team1 s) ≤ startHp (team1 s).

Lemma simulate_spec mult allies enemies : sides mult allies enemies →
  let foes := chosen (filter (λ u, combatant u = true) enemies) in
  ∃ s, simulate mult allies enemies = Ok (s, chosen allies, foes) ∧ prediction mult (chosen allies) foes s.
Proof.
  intros [Ha He] foes. unfold simulate, add_all.
  destruct (add_all_spec true allies (make mult) [] Ha) as (us & U1 & U2 & U3). rewrite U3. cbn [rbind].
  set (s1 := MkSim _ _ _) at 1.
  destruct (add_all_spec false (filter (λ u, combatant u = true) enemies) s1 []) as (es & E1 & E2 & E3).
  { intros u [_ Hu]%list_elem_of_filter. by apply He. }
  rewrite E3. cbn [rbind]. set (s2 := MkSim _ _ _).
  destruct (run_spec (10 * 24) s2) as (s' & -> & [R1 R2] & [F1 F2] & Ft & T1 & T2 & T3 & T4); [lia|by split; apply Forall_forall; apply Forall_forall|].
  cbn [rbind]. exists s'. split; [done|]. cbn in *. exists us, es. split_and!; try done.
  - intros u [Hu|Hu]%elem_of_app.
    + apply (proj1 (Forall_forall _ _) R1) in Hu as []. done.
    + apply (proj1 (Forall_forall _ _) R2) in Hu as []. done.
  - rewrite T1, T2. by eapply total_worn.
  - rewrite T3, T4. by eapply total_worn.
Qed.

(** ** Scores *)

Context (q_val relative_vs_absolute : float64) (subjectiveValue : BuildType → float64).

Lemma calcTeamScore_ok us (sus : list SimUnit) q : length us = length sus →
  ∃ v, calcTeamScore subjectiveValue us sus q = Ok v.
Proof.
  intros Hl. unfold calcTeamScore. apply rfold_defined. intros acc [k u] [i Hi]%list_elem_of_lookup.
  rewrite list_lookup_imap in Hi. destruct (us !! i) eqn:Eu; cbn in Hi; [|done]. injection Hi as -> ->. cbn.
  destruct (lookup_lt_is_Some_2 sus k) as [su ->]; [|cbn; eauto]. rewrite <-Hl. by eapply lookup_lt_Some.
Qed.

Lemma convert_ok mult allies enemies s : prediction mult allies enemies s →
  ∃ v, convertSimToScore q_val relative_vs_absolute subjectiveValue s allies enemies = Ok v.
Proof.
  intros (us & es & E1 & E2 & W1 & W2 & _). unfold convertSimToScore. destruct allies as [|a allies]; [eauto|].
  destruct enemies as [|b enemies]; [eauto|].
  destruct (calcTeamScore_ok (a :: allies) (units (team0 s)) q_val) as [v1 ->].
  { by rewrite (Forall2_length _ _ _ E1), (Forall2_length _ _ _ W1). }
  destruct (calcTeamScore_ok (b :: enemies) (units (team1 s)) q_val) as [v2 ->]; [|cbn; eauto].
  by rewrite (Forall2_length _ _ _ E2), (Forall2_length _ _ _ W2).
Qed.

(** C15 The combat simulation predicts a fight.  For units as the game reports
    them both simulations end, within their 240 frames and without integer
    overflow, division by zero or a stray pointer, and the score is computed.
    The teams of a simulation are the units that fight, in order; a unit keeps
    its stats, its hit points and shields only go down, not below zero, and it
    stays on the map; a unit that no enemy has a weapon against is not hurt (a
    scourge kills itself).  The teams at the end are reached from those at the
    start in a fight in which each round, every two frames, gives every unit one
    turn, ours first: a unit without hit points at its turn, whether it started
    so or was killed in the fight, does nothing, and a living one does one deed,
    which is to wait, to shoot a best target in range when its weapon is ready,
    or to walk towards it, not past it.  [startHp] and [endHp] are the hit points
    before and after, and no team gains any. *)
Theorem fight_predicted allies enemies :
  (∀ mult, mult ∈ [f64_1; f64_lit 1 2] → sides mult allies enemies) →
  (∃ v, fightScore q_val relative_vs_absolute subjectiveValue allies enemies = Ok v) ∧
  ∀ mult, mult ∈ [f64_1; f64_lit 1 2] →
    let foes := chosen (filter (λ u, combatant u = true) enemies) in
    ∃ s, simulate mult allies enemies = Ok (s, chosen allies, foes) ∧ prediction mult (chosen allies) foes s.
Proof.
  intros Hs. split.
  - unfold fightScore. destruct (rfold_defined (λ score mult,
      let? r := simulate mult allies enemies in
      let '(s, allyTeam, enemyTeam) := r in
      let? v := convertSimToScore q_val relative_vs_absolute subjectiveValue s allyTeam enemyTeam in
      Ok (f64_add score v)) [f64_1; f64_lit 1 2] f64_0) as [v ->]; [|cbn; eauto].
    intros acc mult Hm. destruct (simulate_spec _ _ _ (Hs mult Hm)) as (s & -> & Hp). cbn [rbind].
    destruct (convert_ok _ _ _ _ Hp) as [v ->]. cbn. eauto.
  - intros mult Hm. by apply simulate_spec, Hs.
Qed.

End runs.

(** ** Examples *)

#[export] Instance example_arms : Arms :=
  {| size _ := 1; airWeaponCooldown _ := 15; groundWeaponCooldown _ := 15; restrictedByDarkSwarm _ := true;
     isNonUsable _ := false; hasAirWeapon _ := true; hasGroundWeapon _ := true; maxHp _ := 40; maxShields _ := 0 |}.

#[export] Instance example_types : BuildType.Table :=
  {| BuildType.builder _ := None; BuildType.mineralCost _ := f64_of_Z 50; BuildType.gasCost _ := f64_of_Z 0;
     BuildType.prerequisites _ := []; BuildType.buildTime _ := 300; BuildType.race _ := 1;
     BuildType.isAddon _ := false; BuildType.isWorker _ := false;
     BuildType.supplyProvided _ := f64_of_Z 0; BuildType.supplyRequired _ := f64_of_Z 1;
     BuildType.isTwoUnitsInOneEgg _ := false; BuildType.isRefinery _ := false;
     BuildType.isBuilding _ := false; BuildType.isResourceDepot _ := false |}.

(** A marine of ours, and one of theirs that is or is not detected. *)
Definition marine (i px : Z) (mine : bool) : Unit :=
  Unit.Unit i px 100 false false mine (negb mine) 0 BuildType.Terran_Marine None None None 0 0 None 0 None 0
    f64_0 f64_0 0 0 [] kInvalidUpcId 0.
Definition rifle (seen : bool) : info :=
  Info true true seen false false (f64_lit 1 2) (if seen then 40 else 0) 0 0 6 6 0 0 16 16.

Definition example_allies : list (Unit * info) := [(marine 1 100 true, rifle true); (marine 2 102 true, rifle true)].
Definition example_enemies : list (Unit * info) := [(marine 3 130 false, rifle true)].

(** Two marines beat one. *)
Lemma fight_predicted_witness :
  (∃ v, fightScore (f64_lit 1 5) (f64_lit 3 4) (λ _, f64_of_Z 1) example_allies example_enemies = Ok v ∧ fltb f64_0 v = true) ∧
  ∃ s, simulate f64_1 example_allies example_enemies = Ok (s, example_allies, example_enemies) ∧
    endHp (team1 s) = 0 ∧ 0 < endHp (team0 s) < startHp (team0 s).
Proof.
  destruct (fight_predicted (f64_lit 1 5) (f64_lit 3 4) (λ _, f64_of_Z 1) example_allies example_enemies) as [[v Hv] Hs].
  - intros mult Hm. assert (∃ k, 0 ≤ k ≤ 384 ∧ int_of_double (f64_mul (f64_mul (f64_lit 1 2) (f64_of_Z 256)) mult) = Ok k) as (k & Hk & Ek).
    { apply elem_of_cons in Hm as [->|Hm]; [|apply list_elem_of_singleton in Hm as ->].
      - exists 128. split; [lia|]. vm_compute. reflexivity.
      - exists 64. split; [lia|]. vm_compute. reflexivity. }
    assert (∀ i px mine, 0 ≤ px < 1024 → legal mult (marine i px mine, rifle true)) as Hl.
    { intros i px mine Hpx. split; cbn; try lia; [exists k; split; [exact Ek|]; rewrite bool_decide_false by done; lia|]. intros air. by destruct air. }
    split; intros u Hu; set_unfold.
    + destruct Hu as [->|[->|[]]]; (split; [apply Hl; lia|done]).
    + destruct Hu as [->|[]]. split; [apply Hl; lia|done].
  - split; [exists v; split; [exact Hv|]; vm_compute in Hv; injection Hv as <-; reflexivity|].
    destruct (Hs f64_1) as (s & E & _); [by left|]. exists s. split; [exact E|]. vm_compute in E. injection E as <-.
    vm_compute. auto.
Defined.

(** An enemy that is not detected is reported without hit points, and starts the
    simulation with all of them: its share of the damage is a division by zero,
    and the score says to flee from it at any odds. *)
Lemma cloaked_enemy_infinite :
  fightScore (f64_lit 1 5) (f64_lit 3 4) (λ _, f64_of_Z 1) example_allies [(marine 3 1000 false, rifle false)] =
  Ok (SpecFloat.S754_infinity true).
Proof. vm_compute. reflexivity. Qed.

End CombatRuns.
