(* ===== verification/AutoBuild.v ===== *)
(** * The build-order simulator ([src/modules/autobuild.h], [src/modules/autobuild.cpp])

    A [BuildState] is the game as the build planner imagines it; [advance] runs
    it forward until a thing can be put into production, [depbuild] builds what
    is missing first, [nodelay] squeezes other things in without delaying the
    thing, and [AutoBuildTask] stacks requests into a queue.

    [st.units[t]] on an absent key makes an empty entry; no operation tells it
    from an absent one, so the model does not add it.  A type's race is one of
    three, the index of the supply arrays.  A pointer to a unit of the state is
    the vector it is in and its index; a use after [erase] has moved the
    element is undefined. *)

From S2P Require Import Prelude Floats Geometry BuildTypes Units.

Module AutoBuild.
Import BuildType.

(** [src/src/modules/autobuild.h:26-31] BuildStateUnit *)
Record BuildStateUnit := BSU {
  bu_type : BuildType;
  busyUntil : Z;
  bu_addon : option BuildType;
  larvaTimer : Z
}.

(** The callback of an entry is the identity of a closure.

    [src/src/modules/autobuild.h:33-36] BuildEntry *)
Record BuildEntry := BE { be_type : option BuildType; be_pos : Position; builtCallback : option Z }.

(** [src/src/modules/autobuild.h:38-40] BuildEntry::operator== *)
Definition entry_eqb (a b : BuildEntry) : bool :=
  bool_decide (be_type a = be_type b) && Vec2.eqb (be_pos a) (be_pos b).

(** [BuildEntry{type}]: an entry without position or callback. *)
Definition entry (ty : BuildType) : BuildEntry := BE (Some ty) Vec2.origin None.

(** [std::array<double, 3>] *)
Record supply := Sup { sup0 : float64; sup1 : float64; sup2 : float64 }.
Definition sup_get (a : supply) (race : Z) : float64 :=
  if race =? 0 then sup0 a else if race =? 1 then sup1 a else sup2 a.
Definition sup_upd (a : supply) (race : Z) (f : float64 → float64) : supply :=
  if race =? 0 then Sup (f (sup0 a)) (sup1 a) (sup2 a)
  else if race =? 1 then Sup (sup0 a) (f (sup1 a)) (sup2 a)
  else Sup (sup0 a) (sup1 a) (f (sup2 a)).

(** [src/src/modules/autobuild.h:54-77] BuildState *)
Record BuildState := BS {
  frame : Z;
  st_race : Z;
  minerals : float64;
  gas : float64;
  mineralsPerFramePerGatherer : float64;
  gasPerFramePerGatherer : float64;
  usedSupply : supply;
  maxSupply : supply;
  inprodSupply : supply;
  units : gmap BuildType (list BuildStateUnit);
  upgradesAndTech : gset BuildType;
  production : list (Z * BuildType);
  buildOrder : list (Z * BuildEntry);
  morphingHatcheries : list BuildStateUnit;
  workers : Z;
  refineries : Z;
  availableGases : Z;
  autoBuildRefineries : bool;
  autoBuildHatcheries : bool;
  isExpanding : bool
}.

Definition no_supply : supply := Sup f64_0 f64_0 f64_0.

(** [BuildState st;] *)
Definition fresh : BuildState :=
  BS 0 0 f64_0 f64_0 f64_0 f64_0 no_supply no_supply no_supply ∅ ∅ [] [] [] 0 0 0 true true false.

(** Assignments to members. *)
Definition set_money (m g : float64) (s : BuildState) : BuildState :=
  BS (frame s) (st_race s) m g (mineralsPerFramePerGatherer s) (gasPerFramePerGatherer s) (usedSupply s) (maxSupply s) (inprodSupply s) (units s) (upgradesAndTech s) (production s) (buildOrder s) (morphingHatcheries s) (workers s) (refineries s) (availableGases s) (autoBuildRefineries s) (autoBuildHatcheries s) (isExpanding s).
Definition set_frame (f : Z) (s : BuildState) : BuildState :=
  BS f (st_race s) (minerals s) (gas s) (mineralsPerFramePerGatherer s) (gasPerFramePerGatherer s) (usedSupply s) (maxSupply s) (inprodSupply s) (units s) (upgradesAndTech s) (production s) (buildOrder s) (morphingHatcheries s) (workers s) (refineries s) (availableGases s) (autoBuildRefineries s) (autoBuildHatcheries s) (isExpanding s).
Definition set_supplies (us mx ip : supply) (s : BuildState) : BuildState :=
  BS (frame s) (st_race s) (minerals s) (gas s) (mineralsPerFramePerGatherer s) (gasPerFramePerGatherer s) us mx ip (units s) (upgradesAndTech s) (production s) (buildOrder s) (morphingHatcheries s) (workers s) (refineries s) (availableGases s) (autoBuildRefineries s) (autoBuildHatcheries s) (isExpanding s).
Definition set_units (u : gmap BuildType (list BuildStateUnit)) (s : BuildState) : BuildState :=
  BS (frame s) (st_race s) (minerals s) (gas s) (mineralsPerFramePerGatherer s) (gasPerFramePerGatherer s) (usedSupply s) (maxSupply s) (inprodSupply s) u (upgradesAndTech s) (production s) (buildOrder s) (morphingHatcheries s) (workers s) (refineries s) (availableGases s) (autoBuildRefineries s) (autoBuildHatcheries s) (isExpanding s).
Definition set_tech (u : gset BuildType) (s : BuildState) : BuildState :=
  BS (frame s) (st_race s) (minerals s) (gas s) (mineralsPerFramePerGatherer s) (gasPerFramePerGatherer s) (usedSupply s) (maxSupply s) (inprodSupply s) (units s) u (production s) (buildOrder s) (morphingHatcheries s) (workers s) (refineries s) (availableGases s) (autoBuildRefineries s) (autoBuildHatcheries s) (isExpanding s).
Definition set_production (p : list (Z * BuildType)) (s : BuildState) : BuildState :=
  BS (frame s) (st_race s) (minerals s) (gas s) (mineralsPerFramePerGatherer s) (gasPerFramePerGatherer s) (usedSupply s) (maxSupply s) (inprodSupply s) (units s) (upgradesAndTech s) p (buildOrder s) (morphingHatcheries s) (workers s) (refineries s) (availableGases s) (autoBuildRefineries s) (autoBuildHatcheries s) (isExpanding s).
Definition set_buildOrder (p : list (Z * BuildEntry)) (s : BuildState) : BuildState :=
  BS (frame s) (st_race s) (minerals s) (gas s) (mineralsPerFramePerGatherer s) (gasPerFramePerGatherer s) (usedSupply s) (maxSupply s) (inprodSupply s) (units s) (upgradesAndTech s) (production s) p (morphingHatcheries s) (workers s) (refineries s) (availableGases s) (autoBuildRefineries s) (autoBuildHatcheries s) (isExpanding s).
Definition set_morphing (m : list BuildStateUnit) (s : BuildState) : BuildState :=
  BS (frame s) (st_race s) (minerals s) (gas s) (mineralsPerFramePerGatherer s) (gasPerFramePerGatherer s) (usedSupply s) (maxSupply s) (inprodSupply s) (units s) (upgradesAndTech s) (production s) (buildOrder s) m (workers s) (refineries s) (availableGases s) (autoBuildRefineries s) (autoBuildHatcheries s) (isExpanding s).
Definition set_counts (w r g : Z) (s : BuildState) : BuildState :=
  BS (frame s) (st_race s) (minerals s) (gas s) (mineralsPerFramePerGatherer s) (gasPerFramePerGatherer s) (usedSupply s) (maxSupply s) (inprodSupply s) (units s) (upgradesAndTech s) (production s) (buildOrder s) (morphingHatcheries s) w r g (autoBuildRefineries s) (autoBuildHatcheries s) (isExpanding s).
Definition set_expanding (s : BuildState) : BuildState :=
  BS (frame s) (st_race s) (minerals s) (gas s) (mineralsPerFramePerGatherer s) (gasPerFramePerGatherer s) (usedSupply s) (maxSupply s) (inprodSupply s) (units s) (upgradesAndTech s) (production s) (buildOrder s) (morphingHatcheries s) (workers s) (refineries s) (availableGases s) (autoBuildRefineries s) (autoBuildHatcheries s) true.

(** ** Queries *)

Definition units_at (st : BuildState) (ty : BuildType) : list BuildStateUnit := default [] (units st !! ty).

(** [src/src/modules/autobuild.cpp:61-67] hasUnit *)
Definition hasUnit (st : BuildState) (ty : BuildType) : bool :=
  match units st !! ty with Some (_ :: _) => true | _ => false end.
(** [src/src/modules/autobuild.cpp:69-71] hasUpgrade *)
Definition hasUpgrade (st : BuildState) (ty : BuildType) : bool := bool_decide (ty ∈ upgradesAndTech st).
(** [src/src/modules/autobuild.cpp:73-75] hasTech *)
Definition hasTech (st : BuildState) (ty : BuildType) : bool := bool_decide (ty ∈ upgradesAndTech st).
(** [src/src/modules/autobuild.cpp:77-83] has *)
Definition has (st : BuildState) (ty : BuildType) : bool :=
  if isUnit ty then hasUnit st ty else bool_decide (ty ∈ upgradesAndTech st).

(** [src/src/modules/autobuild.cpp:160-164] larvaCount *)
Definition larvaCount (st : BuildState) (u : BuildStateUnit) : Z :=
  Z.max (Z.min (Z.quot (frame st - larvaTimer u) kLarvaFrames) 3) 0.

Definition sum_larva (st : BuildState) (l : list BuildStateUnit) : Z :=
  fold_left (λ r u, r + larvaCount st u) l 0.

(** The loop over [st.units] visits the three hatchery types in some order.

    [src/src/modules/autobuild.cpp:85-104] countUnits *)
Definition countUnits (st : BuildState) (ty : BuildType) : Z :=
  if eqb ty Zerg_Larva then
    sum_larva st (units_at st Zerg_Hatchery) + sum_larva st (units_at st Zerg_Lair) +
    sum_larva st (units_at st Zerg_Hive)
  else Z.of_nat (length (units_at st ty)).

(** [src/src/modules/autobuild.cpp:106-113] isInProduction *)
Definition isInProduction (st : BuildState) (ty : BuildType) : bool :=
  existsb (λ v, eqb (snd v) ty) (production st).
(** [src/src/modules/autobuild.cpp:115-117] hasOrInProduction *)
Definition hasOrInProduction (st : BuildState) (ty : BuildType) : bool := has st ty || isInProduction st ty.

(** [src/src/modules/autobuild.cpp:123-128] framesUntil *)
Fixpoint frames_until_loop (now : Z) (ty : BuildType) (l : list (Z * BuildType)) : Z :=
  match l with
  | [] => kForever
  | (f, t) :: l => if eqb t ty then f - now else frames_until_loop now ty l
  end.
(** [src/src/modules/autobuild.cpp:119-129] framesUntil *)
Definition framesUntil (st : BuildState) (ty : BuildType) : Z :=
  if has st ty then 0 else frames_until_loop (frame st) ty (production st).

(** [src/src/modules/autobuild.cpp:131-139] countProduction *)
Definition countProduction (st : BuildState) (ty : BuildType) : Z :=
  fold_left (λ r v, if eqb (snd v) ty then r + 1 else r) (production st) 0.

(** [src/src/modules/autobuild.cpp:140-147] countPlusProduction *)
Definition count_own (st : BuildState) (ty : BuildType) : Z :=
  (if isUnit ty then countUnits st ty else if has st ty then 1 else 0) + countProduction st ty.

(** The recursion ends at the Hive and at the Greater Spire.

    [src/src/modules/autobuild.cpp:140-158] countPlusProduction *)
Fixpoint countPlusProduction_rec (fuel : nat) (st : BuildState) (ty : BuildType) : res Z :=
  match fuel with
  | O => OutOfFuel
  | S fuel =>
      let r := count_own st ty in
      let more t := let? m := countPlusProduction_rec fuel st t in Ok (r + m) in
      if eqb ty Zerg_Hatchery then more Zerg_Lair
      else if eqb ty Zerg_Lair then more Zerg_Hive
      else if eqb ty Zerg_Spire then more Zerg_Greater_Spire
      else Ok r
  end.
(** [src/src/modules/autobuild.cpp:140-158] countPlusProduction *)
Definition countPlusProduction (st : BuildState) (ty : BuildType) : res Z := countPlusProduction_rec 3 st ty.

(** ** Changes *)

Section with_table.
Context {table : BuildTable}.

(** [src/src/modules/autobuild.cpp:166-180] addUnit *)
Definition addUnit (st : BuildState) (ty : BuildType) : BuildState :=
  let st := set_units (<[ty := units_at st ty ++ [BSU ty 0 None 0]]> (units st)) st in
  let st := set_counts (if isWorker ty then workers st + 1 else workers st)
              (if isRefinery ty then refineries st + 1 else refineries st) (availableGases st) st in
  set_supplies (sup_upd (usedSupply st) (race ty) (λ x, f64_add x (supplyRequired ty)))
    (sup_upd (maxSupply st) (race ty) (λ x, f64_add x (supplyProvided ty))) (inprodSupply st) st.

(** [BuildStateUnit& r = addUnit(st, ty)] and what is then assigned to [r]. *)
Definition modify_last (st : BuildState) (ty : BuildType) (f : BuildStateUnit → BuildStateUnit) : BuildState :=
  let l := units_at st ty in
  set_units (<[ty := match last l with Some u => take (length l - 1) l ++ [f u] | None => l end]> (units st)) st.

(** [src/src/modules/autobuild.cpp:182-193] removeUnit *)
Definition removeUnit (st : BuildState) (ty : BuildType) (i : nat) : res BuildState :=
  let? u := of_option (units_at st ty !! i) in
  if negb (eqb (bu_type u) ty) then Undefined else
  let st := set_supplies (sup_upd (usedSupply st) (race ty) (λ x, f64_sub x (supplyRequired ty)))
    (sup_upd (maxSupply st) (race ty) (λ x, f64_sub x (supplyProvided ty))) (inprodSupply st) st in
  let st := set_counts (if isWorker ty then workers st - 1 else workers st)
              (if isRefinery ty then refineries st - 1 else refineries st) (availableGases st) st in
  Ok (set_units (<[ty := delete i (units_at st ty)]> (units st)) st).

(** The scan from the end for the last entry with a frame up to [f].

    [src/src/modules/autobuild.cpp:195-210] emplaceProd *)
Fixpoint emplace_rev {T} (f : Z) (t : T) (rl : list (Z * T)) : list (Z * T) :=
  match rl with
  | [] => [(f, t)]
  | p :: rl' => if p.1 <=? f then (f, t) :: p :: rl' else p :: emplace_rev f t rl'
  end.
(** [src/src/modules/autobuild.cpp:195-210] emplaceProd *)
Definition emplaceProd {T} (l : list (Z * T)) (f : Z) (t : T) : list (Z * T) :=
  reverse (emplace_rev f t (reverse l)).

(** ** Advancing the simulation *)

(** The outcomes of [advance]: the null pointer, the three marker objects, or a
    type that has to be built first.

    [src/src/modules/autobuild.cpp:345-355] advance *)
Inductive outcome := Done | Failed | TimedOut | BuiltDep | Need (ty : BuildType).

(** A morphed building that satisfies the need for the one it came from.

    [src/src/modules/autobuild.cpp:386-393] advance *)
Definition upgraded (st : BuildState) (prereq : BuildType) : bool :=
  (eqb prereq Zerg_Spire && hasOrInProduction st Zerg_Greater_Spire) ||
  (eqb prereq Zerg_Hatchery && hasOrInProduction st Zerg_Hive) ||
  (eqb prereq Zerg_Hatchery && hasOrInProduction st Zerg_Lair) ||
  (eqb prereq Zerg_Lair && hasOrInProduction st Zerg_Hive).

(** [src/src/modules/autobuild.cpp:375-405] advance *)
Fixpoint check_prereqs (st : BuildState) (bld : BuildType) (l : list BuildType)
    (addonRequired : option BuildType) (inProd : bool) : BuildType + (option BuildType * bool) :=
  match l with
  | [] => inr (addonRequired, inProd)
  | p :: l =>
      if eqb p Zerg_Larva then check_prereqs st bld l addonRequired inProd
      else
        let addonRequired :=
          if isAddon p && bool_decide (builder p = builder bld) &&
             match builder bld with Some b => negb (isAddon b) | None => false end
          then Some p else addonRequired in
        if has st p || upgraded st p then check_prereqs st bld l addonRequired inProd
        else if isInProduction st p then check_prereqs st bld l addonRequired true
        else inl p
  end.

(** The check repeated when something was completed; it asks [hasUnit].

    [src/src/modules/autobuild.cpp:437-459] advance *)
Definition recheck_prereqs (st : BuildState) (bld : BuildType) : bool :=
  existsb (λ p, negb (eqb p Zerg_Larva) && negb (hasUnit st p) && negb (upgraded st p)) (prerequisites bld).

(** [src/src/modules/autobuild.cpp:418-423] advance *)
Fixpoint attach_addon (now : Z) (ty : BuildType) (l : list BuildStateUnit) : list BuildStateUnit :=
  match l with
  | [] => []
  | v :: l =>
      if (busyUntil v <=? now) && bool_decide (bu_addon v = None)
      then BSU (bu_type v) (busyUntil v) (Some ty) (larvaTimer v) :: l
      else v :: attach_addon now ty l
  end.

(** [src/src/modules/autobuild.cpp:417-424] advance *)
Definition addon_done (st : BuildState) (ty : BuildType) : BuildState :=
  match isAddon ty, builder ty with
  | true, Some b => set_units (<[b := attach_addon (frame st) ty (units_at st b)]> (units st)) st
  | _, _ => st
  end.

(** [src/src/modules/autobuild.cpp:414-436] advance *)
Definition complete_one (st : BuildState) (ty : BuildType) : BuildState :=
  if isUnit ty then
    let st := addon_done st ty in
    let st := set_supplies (sup_upd (usedSupply st) (race ty) (λ x, f64_sub x (supplyRequired ty)))
                (maxSupply st)
                (sup_upd (inprodSupply st) (race ty) (λ x, f64_sub x (supplyProvided ty))) st in
    let st := addUnit st ty in
    if bool_decide (builder ty = Some Zerg_Lair) || bool_decide (builder ty = Some Zerg_Hive)
    then set_morphing (take (length (morphingHatcheries st) - 1) (morphingHatcheries st)) st
    else st
  else set_tech (upgradesAndTech st ∪ {[ty]}) st.

(** [src/src/modules/autobuild.cpp:413-460] advance *)
Fixpoint complete (bld : option BuildType) (prod : list (Z * BuildType)) (st : BuildState) (inProd : bool)
    : BuildState * bool :=
  match prod with
  | (f, ty) :: rest =>
      if f <=? frame st then
        let st := complete_one (set_production rest st) ty in
        let inProd := match bld with Some b => if inProd then recheck_prereqs st b else false | None => inProd end in
        complete bld rest st inProd
      else (st, inProd)
  | [] => (st, inProd)
  end.

(** [src/src/modules/autobuild.cpp:463-471] advance *)
Definition addBuilt (st : BuildState) (ty : BuildType) (subtractBuildTime : bool) : BuildState :=
  let st := set_buildOrder (emplaceProd (buildOrder st)
              (frame st - (if subtractBuildTime then buildTime ty else 0)) (entry ty)) st in
  let st := addUnit st ty in
  set_money (f64_sub (minerals st) (mineralCost ty)) (f64_sub (gas st) (gasCost ty)) st.

Definition isArchon (ty : BuildType) : bool := eqb ty Protoss_Archon || eqb ty Protoss_Dark_Archon.

(** Whether [build] is blocked by supply, and what to do about it: an outcome
    (with the state), or [hasSupply].

    [src/src/modules/autobuild.cpp:492-535] advance *)
Definition check_supply (st : BuildState) (bld : BuildType) : (outcome * BuildState) + bool :=
  if isUnit bld && negb (feqb (supplyRequired bld) f64_0) &&
     negb (bool_decide (builder bld = Some Zerg_Mutalisk)) && negb (isArchon bld) then
    let nextSupply := f64_add (sup_get (usedSupply st) (race bld)) (supplyRequired bld) in
    let mx := sup_get (maxSupply st) (race bld) in
    let cap := f64_add mx (sup_get (inprodSupply st) (race bld)) in
    let sup := getRaceSupplyDepot (race bld) in
    if fleb (f64_of_Z 200) nextSupply then inl (Failed, st)
    else if fltb cap nextSupply then
      if (fltb (f64_of_Z 10) mx || match production st with [] => true | _ => false end) &&
         (fltb cap nextSupply ||
          (fleb (f64_add (mineralCost bld) (mineralCost sup)) (minerals st) &&
           fltb (f64_sub cap nextSupply) (f64_of_Z 30)))
      then if fltb mx (f64_of_Z 16) then inl (Need sup, st) else inl (BuiltDep, addBuilt st sup true)
      else inr false
    else inr true
  else inr true.

(** A pointer to a unit of the state. *)
Inductive unit_ptr := InUnits (ty : BuildType) (i : nat) | InMorphing (i : nat).

(** [src/src/modules/autobuild.cpp:548-556] advance *)
Fixpoint larva_scan (now : Z) (mk : nat → unit_ptr) (i : nat) (l : list BuildStateUnit)
    (best : Z) (ptr : option unit_ptr) : Z * option unit_ptr :=
  match l with
  | [] => (best, ptr)
  | u :: l =>
      let t := now - larvaTimer u in
      if (342 <=? t) && (best <? t) then larva_scan now mk (S i) l t (Some (mk i))
      else larva_scan now mk (S i) l best ptr
  end.

(** [src/src/modules/autobuild.cpp:541-557] advance *)
Definition find_larva (st : BuildState) : option unit_ptr * bool :=
  let step '(best, ptr, ex) '(mk, l) :=
    match ptr with
    | Some _ => (best, ptr, ex)
    | None =>
        let '(best, ptr) := larva_scan (frame st) mk 0 l best None in
        (best, ptr, ex || negb (bool_decide (l = [])))
    end in
  let '(_, ptr, ex) :=
    fold_left step
      [(InUnits Zerg_Hive, units_at st Zerg_Hive); (InUnits Zerg_Lair, units_at st Zerg_Lair);
       (InUnits Zerg_Hatchery, units_at st Zerg_Hatchery); (InMorphing, morphingHatcheries st)]
      (0, None, false) in
  (ptr, ex).

(** [src/src/modules/autobuild.cpp:559-573] advance *)
Fixpoint builder_scan (now : Z) (bld : BuildType) (addonRequired : option BuildType) (i : nat)
    (l : list BuildStateUnit) (ex : bool) : option nat * bool :=
  match l with
  | [] => (None, ex)
  | u :: l =>
      if isAddon bld && bool_decide (bu_addon u ≠ None) then builder_scan now bld addonRequired (S i) l ex
      else if bool_decide (addonRequired ≠ None) && bool_decide (bu_addon u ≠ addonRequired)
      then builder_scan now bld addonRequired (S i) l ex
      else if busyUntil u <=? now then (Some i, true)
      else builder_scan now bld addonRequired (S i) l true
  end.

(** The first unit that is not the builder: index 0, or 1 when that is it.

    [src/src/modules/autobuild.cpp:574-587] advance *)
Definition second_builder (l : list BuildStateUnit) (i : nat) : option nat :=
  match i with
  | O => if decide (1 < length l)%nat then Some 1%nat else None
  | S _ => Some 0%nat
  end.

(** [src/src/modules/autobuild.cpp:537-588] advance *)
Definition find_builder (st : BuildState) (bld bb : BuildType) (addonRequired : option BuildType)
    : option unit_ptr * option nat * bool :=
  if eqb bb Zerg_Larva then let '(p, ex) := find_larva st in (p, None, ex)
  else
    let l := units_at st bb in
    let '(o, ex) := builder_scan (frame st) bld addonRequired 0 l false in
    match o with
    | None => (None, None, ex)
    | Some i =>
        if isArchon bld then
          match second_builder l i with
          | Some j => (Some (InUnits bb i), Some j, ex)
          | None => (None, None, false)
          end
        else (Some (InUnits bb i), None, ex)
    end.

Definition deref_ptr (st : BuildState) (p : unit_ptr) : res BuildStateUnit :=
  match p with
  | InUnits ty i => of_option (units_at st ty !! i)
  | InMorphing i => of_option (morphingHatcheries st !! i)
  end.
Definition store_ptr (st : BuildState) (p : unit_ptr) (u : BuildStateUnit) : BuildState :=
  match p with
  | InUnits ty i => set_units (<[ty := <[i := u]> (units_at st ty)]> (units st)) st
  | InMorphing i => set_morphing (<[i := u]> (morphingHatcheries st)) st
  end.

(** What the builder's members become.

    [src/src/modules/autobuild.cpp:615-626] advance *)
Definition occupy (st : BuildState) (bld bb : BuildType) (u : BuildStateUnit) : BuildStateUnit :=
  let u :=
    if eqb bb Zerg_Larva then
      if 342 * 3 <=? frame st - larvaTimer u
      then BSU (bu_type u) (busyUntil u) (bu_addon u) (frame st - 342 * 2)
      else BSU (bu_type u) (busyUntil u) (bu_addon u) (larvaTimer u + 342)
    else BSU (bu_type u) (frame st + buildTime bld) (bu_addon u) (larvaTimer u) in
  if eqb bld Terran_Nuclear_Missile then BSU (bu_type u) INT_MAX (bu_addon u) (larvaTimer u) else u.

(** [src/src/modules/autobuild.cpp:631-641] advance *)
Definition enqueue (st : BuildState) (bld : BuildType) (thing : BuildEntry) : BuildState :=
  let add s := set_supplies (sup_upd (usedSupply s) (race bld) (λ x, f64_add x (supplyRequired bld)))
                 (maxSupply s) (sup_upd (inprodSupply s) (race bld) (λ x, f64_add x (supplyProvided bld))) s in
  let prod s := set_production (emplaceProd (production s) (frame s + buildTime bld) bld) s in
  let st := prod (add st) in
  let st := set_buildOrder (emplaceProd (buildOrder st) (frame st) thing) st in
  let st := if isTwoUnitsInOneEgg bld then prod (add st) else st in
  set_money (f64_sub (minerals st) (mineralCost bld)) (f64_sub (gas st) (gasCost bld)) st.

(** The builder is used up by morphing or merging.

    [src/src/modules/autobuild.cpp:645-657] advance *)
Definition use_up (st : BuildState) (bld bb : BuildType) (p : unit_ptr) (second : option nat) : res BuildState :=
  let? u := deref_ptr st p in
  if (race (bu_type u) =? Race_Zerg) && negb (eqb bb Zerg_Larva) then
    if isUnit bld then
      let st := if eqb (bu_type u) Zerg_Lair || eqb (bu_type u) Zerg_Hive
                then set_morphing (morphingHatcheries st ++ [u]) st else st in
      match p with
      | InUnits ty i => removeUnit st ty i
      | InMorphing _ => Undefined
      end
    else Ok st
  else if isArchon bld then
    match p, second with
    | InUnits ty i, Some j =>
        let? st := removeUnit st ty i in
        if (i <? j)%nat then Undefined else removeUnit st ty j
    | _, _ => Undefined
    end
  else Ok st.

(** [src/src/modules/autobuild.cpp:614-663] advance *)
Definition start_building (st : BuildState) (bld bb : BuildType) (thing : BuildEntry) (p : unit_ptr)
    (second : option nat) : res BuildState :=
  let? u := deref_ptr st p in
  let st := store_ptr st p (occupy st bld bb u) in
  let st := if isResourceDepot bld && Vec2.neqb (be_pos thing) Vec2.origin then set_expanding st else st in
  let st := enqueue st bld thing in
  let? u := deref_ptr st p in
  let st := if isAddon bld then store_ptr st p (BSU (bu_type u) (busyUntil u) (Some bld) (larvaTimer u)) else st in
  use_up st bld bb p second.

(** [src/src/modules/autobuild.cpp:667-681] advance *)
Definition pass_time (st : BuildState) (endFrame : Z) : BuildState :=
  let f := Z.min 15 (endFrame - frame st) in
  let gasWorkers := Z.min (3 * refineries st) (Z.quot (workers st) 4) in
  let mineralWorkers := workers st - gasWorkers in
  let gasPerWorker := f64_mul (fmax (gasPerFramePerGatherer st) (f64_lit 1 10)) (f64_lit 85 100) in
  let mineralsPerWorker := f64_mul (fmax (mineralsPerFramePerGatherer st) (f64_lit 5 100)) (f64_lit 85 100) in
  let mineralIncome := f64_mul mineralsPerWorker (f64_of_Z mineralWorkers) in
  let gasIncome := f64_mul gasPerWorker (f64_of_Z gasWorkers) in
  set_frame (frame st + f)
    (set_money (f64_add (minerals st) (f64_mul mineralIncome (f64_of_Z f)))
               (f64_add (gas st) (f64_mul gasIncome (f64_of_Z f))) st).

(** The attempt to build in one round of the loop: an outcome, or on to the
    next round.

    [src/src/modules/autobuild.cpp:462-665] advance *)
Definition try_build (st : BuildState) (thing : BuildEntry) (bld bb : BuildType)
    (addonRequired : option BuildType) (inProd : bool) : res ((outcome * BuildState) + BuildState) :=
  let enoughMinerals := feqb (mineralCost bld) f64_0 || fleb (mineralCost bld) (minerals st) in
  let enoughGas := feqb (gasCost bld) f64_0 || fleb (gasCost bld) (gas st) in
  let refinery := getRaceRefinery (race bld) in
  if autoBuildRefineries st && negb (availableGases st =? 0) && enoughMinerals && negb enoughGas &&
     fleb (f64_add (mineralCost bld) (mineralCost refinery)) (minerals st) then
    let st := addBuilt st refinery false in
    Ok (inl (BuiltDep, set_counts (workers st) (refineries st + 1) (availableGases st - 1) st))
  else
    match check_supply st bld with
    | inl o => Ok (inl o)
    | inr hasSupply =>
        if enoughMinerals && enoughGas && hasSupply && negb inProd then
          let '(ptr, second, ex) := find_builder st bld bb addonRequired in
          match ptr with
          | Some p => let? st := start_building st bld bb thing p second in Ok (inl (Done, st))
          | None =>
              if ex then Ok (inr st)
              else if eqb bb Zerg_Larva then
                if hasOrInProduction st Zerg_Hatchery || hasOrInProduction st Zerg_Lair ||
                   hasOrInProduction st Zerg_Hive
                then Ok (inr st) else Ok (inl (Need Zerg_Hatchery, st))
              else if isInProduction st bb then Ok (inr st)
              else Ok (inl (Need (default bb addonRequired), st))
          end
        else Ok (inr st)
    end.

(** [src/src/modules/autobuild.cpp:412-690] advance *)
Fixpoint advance_loop (fuel : nat) (st : BuildState) (thing : BuildEntry) (bld : option (BuildType * BuildType))
    (addonRequired : option BuildType) (inProd : bool) (endFrame : Z) : res (outcome * BuildState) :=
  match fuel with
  | O => OutOfFuel
  | S fuel =>
      let '(st, inProd) := complete (fst <$> bld) (production st) st inProd in
      let? r := match bld with
                | Some (b, bb) => try_build st thing b bb addonRequired inProd
                | None => Ok (inr st)
                end in
      match r with
      | inl o => Ok o
      | inr st =>
          let st := pass_time st endFrame in
          if endFrame <=? frame st then Ok (TimedOut, st)
          else advance_loop fuel st thing bld addonRequired inProd endFrame
      end
  end.

(** [src/src/modules/autobuild.cpp:356-691] advance *)
Definition advance (fuel : nat) (st : BuildState) (thing : BuildEntry) (endFrame : Z) : res (outcome * BuildState) :=
  if endFrame <=? frame st then Ok (TimedOut, st)
  else
    match be_type thing with
    | None => advance_loop fuel st thing None None false endFrame
    | Some bld =>
        match builder bld with
        | None => Throw "autobuild::advance: build has no builder"
        | Some bb =>
            match check_prereqs st bld (prerequisites bld) None false with
            | inl p => Ok (Need p, st)
            | inr (addonRequired, inProd) =>
                advance_loop fuel st thing (Some (bld, bb)) addonRequired inProd endFrame
            end
        end
    end.

(** [src/src/modules/autobuild.cpp:700-755] depbuild *)
Fixpoint depbuild_loop (depth fuel : nat) (st prevSt : BuildState) (thing : BuildEntry) (endFrame : Z)
    : res (bool * BuildState) :=
  match depth with
  | O => OutOfFuel
  | S depth =>
      let? r := advance fuel st thing endFrame in
      let '(o, st) := r in
      let reset := if frame st =? frame prevSt then st else prevSt in
      match o with
      | Done | BuiltDep => Ok (true, st)
      | Failed | TimedOut => Ok (false, reset)
      | Need ty =>
          if bool_decide (Some ty = be_type thing) ||
             match builder ty with
             | Some b => bool_decide (builder b = Some ty) && negb (hasOrInProduction reset b)
             | None => false
             end
          then Ok (false, reset)
          else if isWorker ty then Ok (false, reset)
          else depbuild_loop depth fuel reset prevSt (entry ty) endFrame
      end
  end.

(** [src/src/modules/autobuild.cpp:693-756] depbuild *)
Definition depbuild (depth fuel : nat) (st prevSt : BuildState) (thing : BuildEntry) : res (bool * BuildState) :=
  depbuild_loop depth fuel st prevSt thing (frame st + 15 * 60 * 10).

(** A request of the queue: it changes the state and tells whether it built. *)
Definition request := BuildState → res (bool * BuildState).

(** [src/src/modules/autobuild.cpp:758-830] nodelayStage2 *)
Definition nodelayStage2 (depth fuel : nat) (st thingSt : BuildState) (thing : BuildEntry) (other : request)
    : res (bool * BuildState) :=
  let? r := other st in
  let '(ok, st) := r in
  if (ok : bool) then
    if frame thingSt <=? frame st then Ok (true, thingSt)
    else
      let otherSt := st in
      let? r := depbuild depth fuel st otherSt thing in
      let '(ok, st) := r in
      if (ok : bool) then
        if frame st <=? frame thingSt then Ok (true, otherSt) else Ok (true, thingSt)
      else Ok (true, thingSt)
  else Ok (true, thingSt).

(** [src/src/modules/autobuild.cpp:832-863] nodelay *)
Definition nodelay (depth fuel : nat) (st : BuildState) (thing : BuildEntry) (other : request)
    : res (bool * BuildState) :=
  let prevSt := st in
  let? r := depbuild depth fuel st prevSt thing in
  let '(ok, st) := r in
  if (ok : bool) then nodelayStage2 depth fuel prevSt st thing other
  else other prevSt.

(** ** Schedules stay sorted *)

Definition by_frame {T} (l : list (Z * T)) : Prop := StronglySorted Z.le l.*1.

Lemma by_frame_snoc {T} (l : list (Z * T)) p :
  by_frame (l ++ [p]) ↔ by_frame l ∧ ∀ q, q ∈ l → q.1 ≤ p.1.
Proof.
  unfold by_frame. rewrite fmap_app. simpl. split.
  - intros H. split.
    + eapply StronglySorted_app_1_l, H.
    + intros q Hq. eapply StronglySorted_app_1_elem_of; [exact H| |by apply list_elem_of_singleton].
      apply list_elem_of_fmap. eauto.
  - intros [H1 H2]. apply StronglySorted_app_2; [|done|repeat constructor].
    intros x1 x2 (q & -> & Hq)%list_elem_of_fmap ->%list_elem_of_singleton. by apply H2.
Qed.

Lemma emplaceProd_snoc {T} (l : list (Z * T)) p f (t : T) :
  emplaceProd (l ++ [p]) f t = if p.1 <=? f then l ++ [p; (f, t)] else emplaceProd l f t ++ [p].
Proof.
  unfold emplaceProd. rewrite reverse_snoc. simpl. destruct (p.1 <=? f).
  - by rewrite !reverse_cons, reverse_involutive, <-app_assoc.
  - by rewrite reverse_cons.
Qed.

Lemma emplaceProd_split {T} (l : list (Z * T)) f (t : T) : by_frame l →
  emplaceProd l f t = filter (λ p, p.1 ≤ f) l ++ (f, t) :: filter (λ p, f < p.1) l.
Proof.
  induction l as [|p l IH] using rev_ind; [done|]. intros [Hs Hp]%by_frame_snoc.
  rewrite emplaceProd_snoc, !filter_app. destruct (Z.leb_spec p.1 f).
  - assert (filter (λ q, q.1 ≤ f) l = l) as ->.
    { apply list_filter_all. intros q Hq%Hp. lia. }
    assert (filter (λ q, f < q.1) l = []) as ->.
    { apply list_filter_none. intros q Hq%Hp. lia. }
    rewrite !filter_cons, !filter_nil. rewrite decide_True, decide_False by lia. by rewrite <-app_assoc.
  - rewrite (IH Hs), !filter_cons, !filter_nil. rewrite decide_False, decide_True by lia.
    rewrite app_nil_r, <-app_assoc. done.
Qed.

Lemma emplaceProd_sorted {T} (l : list (Z * T)) f (t : T) : by_frame l → by_frame (emplaceProd l f t).
Proof.
  induction l as [|p l IH] using rev_ind; [repeat constructor|]. intros [Hs Hp]%by_frame_snoc.
  rewrite emplaceProd_snoc. destruct (Z.leb_spec p.1 f).
  - change [p; (f, t)] with ([p] ++ [(f, t)]). rewrite app_assoc, !by_frame_snoc. split; [done|].
    intros q [Hq| ->%list_elem_of_singleton]%elem_of_app; simpl; [|done]. specialize (Hp q Hq). lia.
  - apply by_frame_snoc. split; [by apply IH|]. intros q. rewrite emplaceProd_split by done.
    rewrite elem_of_app, elem_of_cons, !list_elem_of_filter. intros [[_ ?]|[->|[_ ?]]]; simpl; [by apply Hp|lia|by apply Hp].
Qed.

(** Scheduling keeps a schedule sorted by frame and stable: the new entry
    goes after every entry that is due no later and before every later one,
    and no entry is lost or reordered. *)
Theorem emplaceProd_spec {T} (l : list (Z * T)) f (t : T) : by_frame l →
  by_frame (emplaceProd l f t) ∧
  emplaceProd l f t = filter (λ p, p.1 ≤ f) l ++ (f, t) :: filter (λ p, f < p.1) l.
Proof. intros Hl. split; [by apply emplaceProd_sorted|by apply emplaceProd_split]. Qed.

Lemma elem_of_emplaceProd {T} (l : list (Z * T)) f (t : T) : (f, t) ∈ emplaceProd l f t.
Proof.
  induction l as [|p l IH] using rev_ind; [by left|]. rewrite emplaceProd_snoc.
  destruct (p.1 <=? f); set_solver.
Qed.

Lemma elem_of_emplaceProd_old {T} (l : list (Z * T)) f (t : T) x : x ∈ l → x ∈ emplaceProd l f t.
Proof.
  induction l as [|p l IH] using rev_ind; [set_solver|]. rewrite emplaceProd_snoc.
  destruct (p.1 <=? f); set_solver.
Qed.

(** ** What one round of the simulation keeps *)

(** The clock and the two schedules are untouched. *)
Definition same_sched (st st' : BuildState) : Prop :=
  frame st' = frame st ∧ production st' = production st ∧ buildOrder st' = buildOrder st.

(** A unit is filed under its type. *)
Definition typed (st : BuildState) : Prop :=
  map_Forall (λ ty l, Forall (λ u, bu_type u = ty) l) (units st).

Lemma typed_at st ty : typed st → Forall (λ u, bu_type u = ty) (units_at st ty).
Proof.
  intros Ht. unfold units_at. destruct (units st !! ty) eqn:E; simpl; [by apply (Ht ty)|constructor].
Qed.

Lemma typed_set st ty l : typed st → Forall (λ u, bu_type u = ty) l →
  typed (set_units (<[ty := l]> (units st)) st).
Proof. intros Ht Hl. by apply map_Forall_insert_2. Qed.

Lemma same_sched_refl st : same_sched st st.
Proof. done. Qed.

Lemma same_sched_trans st1 st2 st3 : same_sched st1 st2 → same_sched st2 st3 → same_sched st1 st3.
Proof. unfold same_sched. intuition congruence. Qed.

Lemma addUnit_keeps st ty : same_sched st (addUnit st ty) ∧ (typed st → typed (addUnit st ty)).
Proof.
  split; [done|]. intros Ht. unfold addUnit. simpl.
  apply (typed_set st ty (units_at st ty ++ [BSU ty 0 None 0]) Ht).
  apply Forall_app. split; [by apply typed_at|]. by repeat constructor.
Qed.

Lemma attach_addon_typed now ty b l : Forall (λ u, bu_type u = b) l →
  Forall (λ u, bu_type u = b) (attach_addon now ty l).
Proof. induction 1; simpl; [constructor|]. case_match; by repeat constructor. Qed.

Lemma complete_one_keeps st ty : same_sched st (complete_one st ty) ∧ (typed st → typed (complete_one st ty)).
Proof.
  unfold complete_one. destruct (isUnit ty); [|done]. set (st1 := addon_done st ty).
  assert (same_sched st st1 ∧ (typed st → typed st1)) as [S1 T1].
  { unfold st1, addon_done. destruct (isAddon ty), (builder ty) as [b|]; try done. split; [done|]. intros Ht.
    apply typed_set; [done|]. by apply attach_addon_typed, typed_at. }
  set (st2 := set_supplies _ _ _ st1). destruct (addUnit_keeps st2 ty) as [S2 T2].
  case_match; (split; [exact (same_sched_trans _ _ _ S1 S2)|]); intros Ht; apply T2; unfold st2; by apply T1.
Qed.

Lemma by_frame_tail {T} (p : Z * T) l : by_frame (p :: l) → by_frame l.
Proof. unfold by_frame. simpl. by inversion 1. Qed.

Lemma complete_keeps bld prod st ip : production st = prod →
  let st' := (complete bld prod st ip).1 in
  frame st' = frame st ∧ buildOrder st' = buildOrder st ∧ (typed st → typed st') ∧
  (by_frame prod → by_frame (production st') ∧ ∀ f ty, (f, ty) ∈ production st' → frame st < f).
Proof.
  revert st ip. induction prod as [|[f ty] prod IH]; intros st ip Hp; cbn [complete].
  - split_and!; try done. simpl. rewrite Hp. intros _. split; [constructor|set_solver].
  - destruct (Z.leb_spec f (frame st)); simpl.
    + destruct (complete_one_keeps (set_production prod st) ty) as [(F1 & P1 & B1) T1].
      destruct (IH (complete_one (set_production prod st) ty)
        (match bld with Some b => if ip then recheck_prereqs (complete_one (set_production prod st) ty) b else false
                      | None => ip end) P1) as (F2 & B2 & T2 & Hs). simpl in *.
      split_and!; [congruence|congruence|auto|]. intros Hby%by_frame_tail.
      destruct (Hs Hby) as [? Hlt]. split; [done|]. intros f' ty' ?%Hlt. lia.
    + split_and!; try done. intros Hby. rewrite Hp. split; [done|]. intros f' ty' Hin.
      unfold by_frame in Hby. simpl in Hby. inversion Hby as [|? ? _ Hall]; subst.
      rewrite Forall_forall in Hall. apply elem_of_cons in Hin as [[= -> ->]|Hin]; [lia|].
      specialize (Hall f'). assert (f ≤ f'); [|lia]. apply Hall, list_elem_of_fmap. by exists (f', ty').
Qed.

Lemma addBuilt_keeps st ty b : frame (addBuilt st ty b) = frame st ∧
  production (addBuilt st ty b) = production st ∧ (typed st → typed (addBuilt st ty b)) ∧
  (by_frame (buildOrder st) → by_frame (buildOrder (addBuilt st ty b))).
Proof.
  unfold addBuilt. set (st1 := set_buildOrder _ st). destruct (addUnit_keeps st1 ty) as [(F & P & B) T].
  split_and!; [done|done|exact T|]. intros Hb. simpl. by apply emplaceProd_sorted.
Qed.

Lemma removeUnit_ok st ty i u : typed st → units_at st ty !! i = Some u →
  ∃ st', removeUnit st ty i = Ok st' ∧ same_sched st st' ∧ typed st'.
Proof.
  intros Ht Hi. unfold removeUnit. rewrite Hi. simpl.
  assert (bu_type u = ty) as E.
  { pose proof (typed_at st ty Ht) as Hall. rewrite Forall_forall in Hall. apply Hall. by eapply list_elem_of_lookup_2. }
  rewrite E, eqb_refl. simpl. eexists. split; [done|]. split; [done|].
  apply map_Forall_insert_2; [|exact Ht]. apply Forall_delete. exact (typed_at st ty Ht).
Qed.

Lemma deref_units st ty i u : deref_ptr st (InUnits ty i) = Ok u → units_at st ty !! i = Some u.
Proof. apply of_option_Ok. Qed.

Lemma store_ptr_keeps st p u u' : deref_ptr st p = Ok u → bu_type u' = bu_type u →
  same_sched st (store_ptr st p u') ∧ (typed st → typed (store_ptr st p u')) ∧
  deref_ptr (store_ptr st p u') p = Ok u'.
Proof.
  intros Hd E. destruct p as [ty i|i]; simpl in *; apply of_option_Ok in Hd.
  - split_and!; [done|..].
    + intros Ht. apply typed_set; [done|]. pose proof (typed_at st ty Ht) as Hall.
      apply Forall_insert; [done|]. rewrite E. rewrite Forall_forall in Hall.
      apply Hall. by eapply list_elem_of_lookup_2.
    + unfold units_at at 1. simpl. rewrite lookup_insert_eq. simpl.
      rewrite list_lookup_insert_eq; [done|]. by eapply lookup_lt_Some.
  - split_and!; [done|done|]. simpl. rewrite list_lookup_insert_eq; [done|]. by eapply lookup_lt_Some.
Qed.

(** ** Finding a builder *)

Definition valid_ptr (st : BuildState) (bb : BuildType) (p : unit_ptr) : Prop :=
  (∃ u, deref_ptr st p = Ok u) ∧ (eqb bb Zerg_Larva = false → ∃ i, p = InUnits bb i).

Lemma larva_scan_ptr now mk k l best o : 
  (∃ i, (larva_scan now mk k l best o).2 = Some (mk (k + i)%nat) ∧ (i < length l)%nat) ∨
  (larva_scan now mk k l best o).2 = o.
Proof.
  revert k best o. induction l as [|u l IH]; intros k best o; cbn [larva_scan]; [by right|].
  destruct ((342 <=? _) && _).
  - destruct (IH (S k) (now - larvaTimer u) (Some (mk k))) as [(i & -> & Hi)|E].
    + left. exists (S i). simpl. split; [f_equal; f_equal; lia|lia].
    + left. exists 0%nat. rewrite E. simpl. split; [f_equal; f_equal; lia|lia].
  - destruct (IH (S k) best o) as [(i & -> & Hi)|E]; [left|by right].
    exists (S i). simpl. split; [f_equal; f_equal; lia|lia].
Qed.

Lemma find_larva_valid st bb p ex : eqb bb Zerg_Larva = true → find_larva st = (Some p, ex) → valid_ptr st bb p.
Proof.
  intros Hbb Hf. split; [|congruence]. revert Hf. unfold find_larva.
  set (step := λ '(best, ptr, ex) '(mk, l), _).
  assert (∀ srcs best o ex0, (∀ mk l, (mk, l) ∈ srcs → ∀ i, (i < length l)%nat → ∃ u, deref_ptr st (mk i) = Ok u) →
    (∀ q, o = Some q → ∃ u, deref_ptr st q = Ok u) →
    ∀ best' q ex', fold_left step srcs (best, o, ex0) = (best', Some q, ex') → ∃ u, deref_ptr st q = Ok u) as Hfold.
  { induction srcs as [|[mk l] srcs IH]; intros best o ex0 Hsrc Ho best' q ex'; cbn [fold_left].
    - intros [= -> -> ->]. by apply Ho.
    - intros Hf. destruct o as [q0|]; unfold step at 2 in Hf; simpl in Hf.
      + eapply IH; [|exact Ho|exact Hf]. intros. eapply Hsrc; [by right|done].
      + destruct (larva_scan (frame st) mk 0 l best None) as [b1 o1] eqn:El.
        eapply IH; [| |exact Hf]; [intros; eapply Hsrc; [by right|done]|].
        intros q1 ->. pose proof (larva_scan_ptr (frame st) mk 0 l best None) as Hl. rewrite El in Hl.
        destruct Hl as [(i & [= ->] & Hi)|[=]]. simpl. eapply Hsrc; [by left|done]. }
  intros Hf. destruct (fold_left step _ _) as [[b1 o1] ex1] eqn:E. injection Hf as -> ->.
  eapply Hfold; [| |exact E]; [|done].
  intros mk l Hin i Hi. repeat (apply elem_of_cons in Hin as [[= -> ->]|Hin]);
    [..|by apply not_elem_of_nil in Hin]; simpl;
    destruct (lookup_lt_is_Some_2 _ _ Hi) as [u ->]; by exists u.
Qed.

Lemma builder_scan_valid now bld ar k l ex i ex' : builder_scan now bld ar k l ex = (Some i, ex') →
  ∃ j u, i = (k + j)%nat ∧ l !! j = Some u ∧ busyUntil u ≤ now ∧ (ar ≠ None → bu_addon u = ar).
Proof.
  revert k ex. induction l as [|u l IH]; intros k ex; cbn [builder_scan]; [done|].
  assert (∀ e, builder_scan now bld ar (S k) l e = (Some i, ex') →
    ∃ j u0, i = (k + j)%nat ∧ (u :: l) !! j = Some u0 ∧ busyUntil u0 ≤ now ∧ (ar ≠ None → bu_addon u0 = ar)) as Hrec.
  { intros e (j & u0 & -> & ? & ?)%IH. exists (S j), u0. split; [lia|done]. }
  destruct (isAddon bld && _); [apply Hrec|].
  destruct (bool_decide (ar ≠ None) && bool_decide (bu_addon u ≠ ar)) eqn:Ea; [apply Hrec|].
  destruct (Z.leb_spec (busyUntil u) now); [|apply Hrec]. intros [= <- <-].
  exists 0%nat, u. split_and!; [lia|done|done|]. intros Har. rewrite bool_decide_true in Ea by done.
  simpl in Ea. by apply bool_decide_eq_false, dec_stable in Ea.
Qed.

Lemma removeUnit_keeps st ty i st' : removeUnit st ty i = Ok st' →
  same_sched st st' ∧ (typed st → typed st').
Proof.
  unfold removeUnit. intros H. apply rbind_Ok_inv in H as (u & Hu%of_option_Ok & H).
  case_match; [done|]. injection H as <-. split; [done|]. intros Ht.
  apply map_Forall_insert_2; [|exact Ht]. apply Forall_delete. exact (typed_at st ty Ht).
Qed.

Lemma use_up_keeps st bld bb p o st' : use_up st bld bb p o = Ok st' →
  same_sched st st' ∧ (typed st → typed st').
Proof.
  unfold use_up. intros H. apply rbind_Ok_inv in H as (u & _ & H). case_match; [case_match|].
  - destruct p as [ty i|]; [|done]. apply removeUnit_keeps in H as [S T].
    destruct (eqb (bu_type u) Zerg_Lair || _); [|done]. split; [exact S|]. intros Ht. by apply T.
  - injection H as <-. done.
  - destruct (isArchon bld); [|injection H as <-; done].
    destruct p as [ty i|]; [|done]. destruct o as [j|]; [|done].
    apply rbind_Ok_inv in H as (st1 & H1 & H). apply removeUnit_keeps in H1 as [S1 T1].
    case_match; [done|]. apply removeUnit_keeps in H as [S2 T2].
    split; [by eapply same_sched_trans|auto].
Qed.

(** What putting [bld] into production does to the schedules. *)
Definition started (st st' : BuildState) (bld : BuildType) (thing : BuildEntry) : Prop :=
  frame st' = frame st ∧
  production st' =
    (let p := emplaceProd (production st) (frame st + buildTime bld) bld in
     if isTwoUnitsInOneEgg bld then emplaceProd p (frame st + buildTime bld) bld else p) ∧
  buildOrder st' = emplaceProd (buildOrder st) (frame st) thing.

Lemma enqueue_started st bld thing : started st (enqueue st bld thing) bld thing ∧
  units (enqueue st bld thing) = units st ∧ morphingHatcheries (enqueue st bld thing) = morphingHatcheries st.
Proof. unfold started, enqueue. destruct (isTwoUnitsInOneEgg bld); done. Qed.

Lemma deref_ptr_ext st st' p : units st' = units st → morphingHatcheries st' = morphingHatcheries st →
  deref_ptr st' p = deref_ptr st p.
Proof. intros E1 E2. destruct p; simpl; unfold units_at; by rewrite ?E1, ?E2. Qed.

(** The state in which the builder is occupied and the thing in production. *)
Lemma start_building_mid st bld bb thing p u : deref_ptr st p = Ok u →
  ∃ st1 u1, started st st1 bld thing ∧ (typed st → typed st1) ∧ deref_ptr st1 p = Ok u1 ∧
    bu_type u1 = bu_type u ∧
    ∀ second, start_building st bld bb thing p second = use_up st1 bld bb p second.
Proof.
  intros Hu. unfold start_building. rewrite Hu. cbn [rbind].
  assert (bu_type (occupy st bld bb u) = bu_type u) as Eo by (unfold occupy; repeat case_match; done).
  destruct (store_ptr_keeps st p u _ Hu Eo) as ((F1 & P1 & B1) & T1 & D1).
  set (st1 := store_ptr st p (occupy st bld bb u)) in *.
  set (st2 := if isResourceDepot bld && _ then _ else _).
  assert (frame st2 = frame st1 ∧ production st2 = production st1 ∧ buildOrder st2 = buildOrder st1 ∧
    units st2 = units st1 ∧ morphingHatcheries st2 = morphingHatcheries st1) as (F2 & P2 & B2 & U2 & M2)
    by (unfold st2; case_match; done).
  destruct (enqueue_started st2 bld thing) as ((F3 & P3 & B3) & U3 & M3).
  set (st3 := enqueue st2 bld thing) in *.
  assert (deref_ptr st3 p = Ok (occupy st bld bb u)) as D3.
  { rewrite (deref_ptr_ext st1 st3); [done|congruence|congruence]. }
  rewrite D3. cbn [rbind].
  assert (typed st → typed st3) as T3.
  { intros Ht. unfold typed. rewrite U3, U2. by apply T1. }
  assert (started st st3 bld thing) as S3.
  { unfold started. rewrite P3, B3, F3, F2, F1, P2, P1, B2, B1. done. }
  destruct (isAddon bld).
  - set (u' := BSU _ _ _ _). destruct (store_ptr_keeps st3 p _ u' D3 eq_refl) as ((F4 & P4 & B4) & T4 & D4).
    exists (store_ptr st3 p u'), u'. split_and!; [|auto|done|done|done].
    destruct S3 as (SF & SP & SB). unfold started. rewrite F4, P4, B4. done.
  - exists st3, (occupy st bld bb u). done.
Qed.

Lemma start_building_keeps st bld bb thing p o st' : start_building st bld bb thing p o = Ok st' →
  started st st' bld thing ∧ (typed st → typed st').
Proof.
  intros H. pose proof H as H0. unfold start_building in H0. apply rbind_Ok_inv in H0 as (u & Hu & _).
  destruct (start_building_mid st bld bb thing p u Hu) as (st1 & u1 & S1 & T1 & D1 & E1 & Heq).
  rewrite Heq in H. apply use_up_keeps in H as [(F & P & B) T].
  split; [|auto]. unfold started in *. rewrite F, P, B. done.
Qed.

(** What building [bld] costs. *)
Definition paid (st st' : BuildState) (bld : BuildType) : Prop :=
  minerals st' = f64_sub (minerals st) (mineralCost bld) ∧ gas st' = f64_sub (gas st) (gasCost bld).

Lemma removeUnit_money st ty i st' : removeUnit st ty i = Ok st' → minerals st' = minerals st ∧ gas st' = gas st.
Proof. unfold removeUnit. intros (u & _ & H)%rbind_Ok_inv. case_match; [done|]. by injection H as <-. Qed.

Lemma use_up_money st bld bb p o st' : use_up st bld bb p o = Ok st' → minerals st' = minerals st ∧ gas st' = gas st.
Proof.
  unfold use_up. intros (u & _ & H)%rbind_Ok_inv. case_match; [case_match|].
  - destruct p; [|done]. apply removeUnit_money in H as [-> ->]. by case_match.
  - by injection H as <-.
  - case_match; [|by injection H as <-]. destruct p as [ty i|]; [|done]. destruct o; [|done].
    apply rbind_Ok_inv in H as (st1 & Hr1%removeUnit_money & H). case_match; [done|].
    apply removeUnit_money in H as [-> ->]. done.
Qed.

Lemma store_ptr_money st p u : minerals (store_ptr st p u) = minerals st ∧ gas (store_ptr st p u) = gas st.
Proof. by destruct p. Qed.

Lemma start_building_paid st bld bb thing p o st' : start_building st bld bb thing p o = Ok st' → paid st st' bld.
Proof.
  unfold start_building. intros (u & _ & H)%rbind_Ok_inv. apply rbind_Ok_inv in H as (u' & _ & H).
  apply use_up_money in H as [Em Eg]. unfold paid. rewrite Em, Eg. clear Em Eg.
  set (st1 := store_ptr st p (occupy st bld bb u)). destruct (store_ptr_money st p (occupy st bld bb u)) as [E1 E2].
  fold st1 in E1, E2. set (st2 := if isResourceDepot bld && _ then _ else _).
  assert (minerals st2 = minerals st1 ∧ gas st2 = gas st1) as [E3 E4] by (unfold st2; by case_match).
  assert (minerals (enqueue st2 bld thing) = f64_sub (minerals st2) (mineralCost bld) ∧
    gas (enqueue st2 bld thing) = f64_sub (gas st2) (gasCost bld)) as [E5 E6] by (unfold enqueue; by case_match).
  case_match; rewrite ?(proj1 (store_ptr_money _ _ _)), ?(proj2 (store_ptr_money _ _ _)); split; congruence.
Qed.

Lemma start_building_total st bld bb thing p : typed st → valid_ptr st bb p → isArchon bld = false →
  ∃ st', start_building st bld bb thing p None = Ok st'.
Proof.
  intros Ht [[u Hu] Hp] Ha. destruct (start_building_mid st bld bb thing p u Hu) as (st1 & u1 & S1 & T1 & D1 & E1 & ->).
  unfold use_up. rewrite D1, Ha. cbn [rbind]. case_match eqn:Er; [|eauto].
  case_match; [|eauto]. apply andb_prop in Er as [_ Er%negb_true_iff]. destruct (Hp Er) as [i ->].
  set (st2 := if eqb (bu_type u1) Zerg_Lair || _ then _ else _).
  destruct (removeUnit_ok st2 bb i u1) as (st' & -> & _); [..|eauto].
  - unfold st2. case_match; by apply T1.
  - apply deref_units in D1. unfold st2. by case_match.
Qed.

Lemma deref_ptr_fuel st p : deref_ptr st p ≠ OutOfFuel.
Proof. destruct p; apply of_option_fuel. Qed.

Lemma removeUnit_fuel st ty i : removeUnit st ty i ≠ OutOfFuel.
Proof. apply rbind_fuel; [apply of_option_fuel|]. intros u _. by case_match. Qed.

Lemma start_building_fuel st bld bb thing p o : start_building st bld bb thing p o ≠ OutOfFuel.
Proof.
  unfold start_building, use_up.
  apply rbind_fuel; [apply deref_ptr_fuel|intros u _]. apply rbind_fuel; [apply deref_ptr_fuel|intros u1 _].
  apply rbind_fuel; [apply deref_ptr_fuel|intros u2 _].
  case_match; [case_match; [|done]; destruct p; [apply removeUnit_fuel|done]|].
  case_match; [|done]. destruct p; [|done]. destruct o; [|done].
  apply rbind_fuel; [apply removeUnit_fuel|]. intros st1 _. case_match; [done|apply removeUnit_fuel].
Qed.

Definition throws {A} (m : res A) : Prop := ∃ s, m = Throw s.

Lemma rbind_no_throw {A B} (m : res A) (k : A → res B) :
  ¬ throws m → (∀ a, m = Ok a → ¬ throws (k a)) → ¬ throws (rbind m k).
Proof. intros Hm Hk [s H]. destruct m; simpl in *; try done; [eapply Hk; [done|]; by exists s|]. apply Hm. by eexists. Qed.

Lemma of_option_no_throw {A} (o : option A) : ¬ throws (of_option o).
Proof. intros [s H]. by destruct o. Qed.

Lemma removeUnit_no_throw st ty i : ¬ throws (removeUnit st ty i).
Proof. apply rbind_no_throw; [apply of_option_no_throw|]. intros u _ [s H]. by case_match. Qed.

Lemma no_throw_start st bld bb thing p o : ¬ throws (start_building st bld bb thing p o).
Proof.
  assert (∀ st p, ¬ throws (deref_ptr st p)) as Hd by (intros ? []; apply of_option_no_throw).
  assert (∀ st : BuildState, ¬ throws (Ok st)) as Hok by by intros ? [].
  assert (¬ throws (A := BuildState) Undefined) as Hun by by intros [].
  unfold start_building, use_up.
  apply rbind_no_throw; [apply Hd|intros u _]. apply rbind_no_throw; [apply Hd|intros u1 _].
  apply rbind_no_throw; [apply Hd|intros u2 _].
  case_match; [case_match; [|done]; destruct p; [apply removeUnit_no_throw|done]|].
  case_match; [|done]. destruct p; [|done]. destruct o; [|done].
  apply rbind_no_throw; [apply removeUnit_no_throw|]. intros st1 _. case_match; [done|apply removeUnit_no_throw].
Qed.

(** ** One attempt *)

Definition sched_ok (st : BuildState) : Prop := by_frame (production st) ∧ by_frame (buildOrder st).

(** Enough minerals and gas, as [advance] checks it. *)
Definition affordable (st : BuildState) (bld : BuildType) : Prop :=
  (feqb (mineralCost bld) f64_0 || fleb (mineralCost bld) (minerals st)) = true ∧
  (feqb (gasCost bld) f64_0 || fleb (gasCost bld) (gas st)) = true.

(** What [advance] may ask for before [bld]. *)
Definition needs (bld : BuildType) (d : BuildType) : Prop :=
  d ∈ prerequisites bld ∧ d ≠ Zerg_Larva ∨ builder bld = Some d ∧ d ≠ Zerg_Larva ∨
  feqb (supplyRequired bld) f64_0 = false ∧ d = getRaceSupplyDepot (race bld) ∨
  builder bld = Some Zerg_Larva ∧ d = Zerg_Hatchery.

(** What [advance] may build first, or ask for, on behalf of [bld]. *)
Definition asks (bld d : BuildType) : Prop :=
  needs bld d ∨ feqb (gasCost bld) f64_0 = false ∧ d = getRaceRefinery (race bld).

(** What an outcome leaves in the build order: the thing itself at the current
    frame, something built ahead of it (a depot is entered as started early
    enough to be finished now), or nothing new. *)
Definition ordered (bld : BuildType) (thing : BuildEntry) (st : BuildState) (o : outcome) (st' : BuildState) : Prop :=
  match o with
  | Done => buildOrder st' = emplaceProd (buildOrder st) (frame st') thing
  | BuiltDep =>
      ∃ d f, asks bld d ∧ (f = frame st' ∨ f = frame st' - buildTime d) ∧
        buildOrder st' = emplaceProd (buildOrder st) f (entry d)
  | _ => buildOrder st' = buildOrder st
  end.

Lemma find_builder_valid st bld bb ar p o ex : find_builder st bld bb ar = (Some p, o, ex) →
  valid_ptr st bb p ∧ (isArchon bld = false → o = None).
Proof.
  unfold find_builder. destruct (eqb bb Zerg_Larva) eqn:El.
  - destruct (find_larva st) as [p0 ex0] eqn:Ef. intros [= -> <- <-].
    split; [by eapply find_larva_valid|done].
  - destruct (builder_scan (frame st) bld ar 0 (units_at st bb) false) as [[i|] ex0] eqn:Es; [|done].
    destruct (builder_scan_valid _ _ _ _ _ _ _ _ Es) as (j & u & -> & Hj & _). simpl.
    assert (valid_ptr st bb (InUnits bb j)) as Hv.
    { split; [|by exists j]. exists u. simpl. by rewrite Hj. }
    destruct (isArchon bld); [|by intros [= <- <- <-]].
    destruct (second_builder (units_at st bb) j); [|done]. by intros [= <- <- <-].
Qed.

Lemma started_sched st st' bld thing : started st st' bld thing → sched_ok st → sched_ok st'.
Proof.
  intros (F & P & B) [H1 H2]. unfold sched_ok. rewrite P, B. split; [|by apply emplaceProd_sorted].
  simpl. case_match; by repeat apply emplaceProd_sorted.
Qed.

(** Case analysis on the outermost test of the left-hand side. *)
Ltac split_if := match goal with |- (if ?c then _ else _) = _ → _ => destruct c eqn:? end.

Lemma check_supply_keeps st bld o st' : check_supply st bld = inl (o, st') →
  frame st' = frame st ∧ o ≠ TimedOut ∧ o ≠ Done ∧ (sched_ok st → sched_ok st') ∧ (typed st → typed st') ∧
  (∀ d, o = Need d → feqb (supplyRequired bld) f64_0 = false ∧ d = getRaceSupplyDepot (race bld)) ∧
  ∀ thing, ordered bld thing st o st'.
Proof.
  unfold check_supply. split_if; [|done]. split_if.
  { intros [= <- <-]. by split_and!. }
  assert (feqb (supplyRequired bld) f64_0 = false) as Hs.
  { destruct (feqb (supplyRequired bld) f64_0); [|done]. rewrite andb_false_r in *. done. }
  split_if; [|done]. split_if; [|done]. split_if; intros [= <- <-].
  - split_and!; try done. by intros d [= <-].
  - destruct (addBuilt_keeps st (getRaceSupplyDepot (race bld)) true) as (F & P & T & B).
    split_and!; try done; [intros [Hp Ho]; split; [by rewrite P|by apply B]|].
    intros thing. do 2 eexists. split; [left; right; right; left; split; [done|reflexivity]|]. split; [by right|done].
Qed.

Lemma try_build_spec st thing bld bb ar ip r : builder bld = Some bb →
  (∀ d, ar = Some d → d ∈ prerequisites bld ∧ d ≠ Zerg_Larva) →
  try_build st thing bld bb ar ip = Ok r →
  match r with
  | inl (o, st') =>
      frame st' = frame st ∧ o ≠ TimedOut ∧ (sched_ok st → sched_ok st') ∧ (typed st → typed st') ∧
      (o = Done → started st st' bld thing ∧ paid st st' bld ∧ affordable st bld ∧ ip = false) ∧
      (∀ d, o = Need d → needs bld d) ∧ ordered bld thing st o st'
  | inr st' => st' = st
  end.
Proof.
  intros Hbb Har. unfold try_build. set (em := _ || fleb (mineralCost bld) _). set (eg := _ || fleb (gasCost bld) _).
  case_match eqn:Erf.
  - intros [= <-]. destruct (addBuilt_keeps st (getRaceRefinery (race bld)) false) as (F & P & T & B).
    split_and!; try done; [intros [Hp Ho]; split; [exact (eq_ind_r by_frame Hp P)|exact (B Ho)]|].
    exists (getRaceRefinery (race bld)), (frame st). split_and!; [right; split; [|done]|by left|].
    + apply andb_prop in Erf as [[_ Eg%negb_true_iff]%andb_prop _]. unfold eg in Eg. by apply orb_false_iff in Eg as [-> _].
    + unfold addBuilt. cbn. by rewrite Z.sub_0_r.
  - destruct (check_supply st bld) as [[o st']|hs] eqn:Es.
    + intros [= <-]. destruct (check_supply_keeps _ _ _ _ Es) as (F & N1 & N2 & S & T & D & O).
      split_and!; try done. intros d Hd. right; right; left. by apply D.
    + destruct (em && eg && hs && negb ip) eqn:Eok; [|by intros [= <-]].
      apply andb_prop in Eok as [[[Em Eg]%andb_prop _]%andb_prop Eip%negb_true_iff].
      destruct (find_builder st bld bb ar) as [[ptr sec] ex] eqn:Ef. destruct ptr as [p|].
      * intros Hs. apply rbind_Ok_inv in Hs as (st1 & Hs & [= <-]).
        pose proof (start_building_paid _ _ _ _ _ _ _ Hs). apply start_building_keeps in Hs as [S1 T1].
        split_and!; try done; [apply S1|by eapply started_sched|].
        destruct S1 as (F & _ & B). simpl. by rewrite F.
      * destruct ex; [by intros [= <-]|]. destruct (eqb_spec bb Zerg_Larva) as [->|Hnl].
        -- case_match; intros [= <-]; [done|]. split_and!; try done. intros d [= <-].
           right; right; right. done.
        -- case_match; intros [= <-]; [done|]. split_and!; try done. intros d [= <-].
           destruct ar as [d|]; simpl; [left; by apply Har|right; left; done].
Qed.

Lemma try_build_total st thing bld bb ar ip : typed st → isArchon bld = false →
  ∃ r, try_build st thing bld bb ar ip = Ok r.
Proof.
  intros Ht Ha. unfold try_build. case_match; [eauto|]. case_match; [eauto|]. case_match; [|eauto].
  destruct (find_builder st bld bb ar) as [[ptr sec] ex] eqn:Ef. destruct ptr as [p|].
  - destruct (find_builder_valid _ _ _ _ _ _ _ Ef) as [Hv Ho]. rewrite (Ho Ha).
    destruct (start_building_total st bld bb thing p Ht Hv Ha) as [st' ->]. simpl. eauto.
  - repeat case_match; eauto.
Qed.

Lemma try_build_fuel st thing bld bb ar ip : try_build st thing bld bb ar ip ≠ OutOfFuel.
Proof.
  unfold try_build. case_match; [done|]. case_match; [done|]. case_match; [|done].
  destruct (find_builder st bld bb ar) as [[[p|] sec] ex].
  - apply rbind_fuel; [apply start_building_fuel|done].
  - by repeat case_match.
Qed.

Lemma try_build_no_throw st thing bld bb ar ip : ¬ throws (try_build st thing bld bb ar ip).
Proof.
  assert (∀ r : (outcome * BuildState) + BuildState, ¬ throws (Ok r)) as Hok by by intros ? [].
  unfold try_build. case_match; [apply Hok|]. case_match; [apply Hok|]. case_match; [|apply Hok].
  destruct (find_builder st bld bb ar) as [[[p|] sec] ex].
  - apply rbind_no_throw; [apply no_throw_start|]. intros; apply Hok.
  - repeat (case_match; try apply Hok).
Qed.

(** ** Advancing *)

Definition well_formed (st : BuildState) : Prop := sched_ok st ∧ typed st.

Lemma complete_well_formed bld st ip : well_formed st →
  well_formed (complete bld (production st) st ip).1 ∧
  frame (complete bld (production st) st ip).1 = frame st.
Proof.
  intros [[H1 H2] H3]. destruct (complete_keeps bld (production st) st ip eq_refl) as (F & B & T & P).
  destruct (P H1) as [P1 _]. split; [|done]. split; [split; [done|by rewrite B]|auto].
Qed.

Lemma pass_time_frame st endFrame : frame (pass_time st endFrame) = frame st + Z.min 15 (endFrame - frame st).
Proof. done. Qed.

(** A round without building: what is finished joins, and time passes. *)
Definition waits (bld : BuildType) (endFrame : Z) (st st' : BuildState) : Prop :=
  ∃ ip, st' = pass_time (complete (Some bld) (production st) st ip).1 endFrame.

(** [bld] is built in [st'] after some rounds of waiting from [st], in a state
    in which it was affordable; its price is paid there, and the thing goes into
    production and into the build order at that frame. *)
Definition built_when_affordable (st : BuildState) (bld : BuildType) (thing : BuildEntry) (endFrame : Z)
    (st' : BuildState) : Prop :=
  ∃ st1 ip, rtc (waits bld endFrame) st st1 ∧
    let st0 := (complete (Some bld) (production st1) st1 ip).1 in
    affordable st0 bld ∧ paid st0 st' bld ∧ started st0 st' bld thing.

(** What a run of [advance] that ends in [o] guarantees. *)
Record advanced (st : BuildState) (bld : option BuildType) (thing : BuildEntry) (endFrame : Z)
    (o : outcome) (st' : BuildState) : Prop := {
  adv_frame : frame st ≤ frame st' ≤ endFrame;
  adv_timeout : o = TimedOut ↔ frame st' = endFrame;
  adv_wf : well_formed st';
  adv_done b : o = Done → bld = Some b → built_when_affordable st b thing endFrame st';
  adv_none : bld = None → o = TimedOut;
  adv_need b d : o = Need d → bld = Some b → needs b d;
  adv_order b : bld = Some b → ordered b thing st o st'
}.

(** A run from a state with the same build order. *)
Lemma ordered_from bld thing st st1 o st' : buildOrder st1 = buildOrder st →
  ordered bld thing st1 o st' → ordered bld thing st o st'.
Proof. unfold ordered. intros ->. done. Qed.


Lemma advance_loop_spec fuel st thing bld ar ip endFrame : well_formed st → frame st < endFrame →
  (∀ b bb, bld = Some (b, bb) → builder b = Some bb ∧ ∀ d, ar = Some d → d ∈ prerequisites b ∧ d ≠ Zerg_Larva) →
  (Z.to_nat (endFrame - frame st) ≤ fuel)%nat →
  match advance_loop fuel st thing bld ar ip endFrame with
  | Ok (o, st') => advanced st (fst <$> bld) thing endFrame o st'
  | OutOfFuel => False
  | Throw _ => False
  | Undefined => ∃ b bb, bld = Some (b, bb) ∧ isArchon b = true
  end.
Proof.
  revert st ip. induction fuel as [|fuel IH]; intros st ip Hwf Hlt Hb Hf; [lia|]. cbn [advance_loop].
  destruct (complete_well_formed (fst <$> bld) st ip Hwf) as [Hwf1 F1].
  pose proof (proj1 (proj2 (complete_keeps (fst <$> bld) (production st) st ip eq_refl))) as B1.
  destruct (complete (fst <$> bld) (production st) st ip) as [st1 ip1] eqn:Ec. simpl in Hwf1, F1, B1.
  set (m := match bld with Some _ => _ | None => _ end).
  assert (match m with
    | Ok (inl (o, st')) => ∃ b bb, bld = Some (b, bb) ∧ try_build st1 thing b bb ar ip1 = Ok (inl (o, st'))
    | Ok (inr st') => st' = st1
    | Undefined => ∃ b bb, bld = Some (b, bb) ∧ isArchon b = true
    | _ => False end) as Hm.
  { unfold m. destruct bld as [[b bb]|]; [|done]. destruct (Hb b bb eq_refl) as [Hb1 Hb2].
    pose proof (try_build_fuel st1 thing b bb ar ip1). pose proof (try_build_total st1 thing b bb ar ip1) as Htot.
    pose proof (try_build_spec st1 thing b bb ar ip1) as Hsp.
    destruct (try_build st1 thing b bb ar ip1) as [[[o st']|st']|s| |] eqn:Et.
    - eauto.
    - by apply (Hsp (inr st')).
    - apply (try_build_no_throw st1 thing b bb ar ip1). by exists s.
    - destruct (isArchon b) eqn:Ea; [eauto|]. by destruct (Htot (proj2 Hwf1) eq_refl).
    - done. }
  destruct m as [[[o st']|st']|s| |]; cbn [rbind]; try done.
  - destruct Hm as (b & bb & -> & Et). destruct (Hb b bb eq_refl) as [Hb1 Hb2].
    destruct (try_build_spec _ _ _ _ _ _ _ Hb1 Hb2 Et) as (F & N & S & T & D & Nd & O).
    split; simpl; try done.
    + lia.
    + split; [done|lia].
    + split; [apply S, Hwf1|apply T, Hwf1].
    + intros b0 Ho [= <-]. destruct (D Ho) as (D1 & D2 & D3 & _). exists st, ip. simpl in Ec. rewrite Ec. by split.
    + intros b0 d Ho [= <-]. by apply Nd.
    + intros b0 [= <-]. by apply (ordered_from b thing st st1).
  - subst st'. set (st2 := pass_time st1 endFrame).
    assert (well_formed st2) as Hwf2 by exact Hwf1.
    assert (frame st2 = frame st + Z.min 15 (endFrame - frame st)) as F2 by (unfold st2; rewrite pass_time_frame; lia).
    destruct (Z.leb_spec endFrame (frame st2)).
    + split; try done; [lia|split; [intros _; lia|done]].
    + specialize (IH st2 ip1 Hwf2 ltac:(lia) Hb ltac:(lia)).
      destruct (advance_loop fuel st2 thing bld ar ip1 endFrame) as [[o st']| | |]; try done.
      destruct IH as [A1 A2 A3 A4 A5 A6 A7]. split; try done; [lia| |].
      * intros b0 Ho Eb. destruct (A4 b0 Ho Eb) as (st3 & ip3 & Hw & H3). exists st3, ip3. split; [|exact H3].
        eapply rtc_l; [|exact Hw]. exists ip. by rewrite <-Eb, Ec.
      * intros b0 Eb. by apply (ordered_from b0 thing st st2), A7.
Qed.

Lemma check_prereqs_spec st bld l ar ip : (∀ d, ar = Some d → d ∈ prerequisites bld ∧ d ≠ Zerg_Larva) →
  l ⊆ prerequisites bld →
  match check_prereqs st bld l ar ip with
  | inl p => p ∈ prerequisites bld ∧ p ≠ Zerg_Larva ∧ has st p = false ∧ isInProduction st p = false
  | inr (ar', _) => ∀ d, ar' = Some d → d ∈ prerequisites bld ∧ d ≠ Zerg_Larva
  end.
Proof.
  revert ar ip. induction l as [|p l IH]; intros ar ip Har Hl; cbn [check_prereqs]; [done|].
  destruct (eqb_spec p Zerg_Larva) as [->|Hp]; [apply IH; [done|set_solver]|].
  set (ar' := if isAddon p && _ && _ then _ else _).
  assert (∀ d, ar' = Some d → d ∈ prerequisites bld ∧ d ≠ Zerg_Larva) as Har'.
  { unfold ar'. case_match; [|done]. intros d [= <-]. split; [set_solver|done]. }
  destruct (has st p || upgraded st p) eqn:Eh; [apply IH; [done|set_solver]|].
  destruct (isInProduction st p) eqn:Ei; [apply IH; [done|set_solver]|].
  apply orb_false_iff in Eh as [-> _]. split_and!; try done. set_solver.
Qed.

Definition buildable (b : BuildType) : Prop := is_Some (builder b) ∧ isArchon b = false.
Definition buildable_thing (thing : BuildEntry) : Prop := ∀ b, be_type thing = Some b → buildable b.

Lemma advance_ok fuel st thing endFrame : well_formed st → buildable_thing thing → frame st < endFrame →
  (Z.to_nat (endFrame - frame st) ≤ fuel)%nat →
  ∃ o st', advance fuel st thing endFrame = Ok (o, st') ∧ advanced st (be_type thing) thing endFrame o st'.
Proof.
  intros Hwf Hb Hlt Hf. unfold advance. replace (endFrame <=? frame st) with false by lia.
  destruct (be_type thing) as [b|] eqn:Et.
  - destruct (Hb b Et) as [[bb Hbb] Ha]. rewrite Hbb.
    pose proof (check_prereqs_spec st b (prerequisites b) None false) as Hp.
    destruct (check_prereqs st b (prerequisites b) None false) as [p|[ar ip]].
    + destruct Hp as (Hp1 & Hp2 & _); [done|done|]. do 2 eexists. split; [done|]. split; try done; [lia|split; [done|lia]|].
      intros b0 d [= <-] [= <-]. left. done.
    + pose proof (advance_loop_spec fuel st thing (Some (b, bb)) ar ip endFrame Hwf Hlt) as Hl.
      destruct (advance_loop fuel st thing (Some (b, bb)) ar ip endFrame) as [[o st']| | |].
      * do 2 eexists. split; [done|]. apply Hl; [|done]. intros ? ? [= <- <-]. split; [done|]. by apply Hp.
      * exfalso. apply Hl; [|done]. intros ? ? [= <- <-]. split; [done|]. by apply Hp.
      * exfalso. destruct Hl as (b0 & bb0 & [= <- <-] & ?); [|done|congruence].
        intros ? ? [= <- <-]. split; [done|]. by apply Hp.
      * exfalso. apply Hl; [|done]. intros ? ? [= <- <-]. split; [done|]. by apply Hp.
  - pose proof (advance_loop_spec fuel st thing None None false endFrame Hwf Hlt) as Hl.
    destruct (advance_loop fuel st thing None None false endFrame) as [[o st']| | |].
    + do 2 eexists. split; [done|]. by apply Hl.
    + exfalso. by apply Hl.
    + exfalso. by destruct Hl as (? & ? & ? & ?).
    + exfalso. by apply Hl.
Qed.

(** C8 [advance] returns (one round per frame is enough fuel) for everything
    that has a builder and is not an archon.  It never goes back in time nor
    past [endFrame], times out exactly when it reaches it, keeps both
    schedules sorted and every unit under its type.  When it reports success it
    has only waited, from the state it was given, for a state in which there
    were minerals and gas for the thing, and has started it there: the resulting
    state is that state with the price paid and the thing in production and in
    the build order at the current frame.  What it reports missing is a real
    dependency. *)
Theorem advance_spec fuel st thing endFrame : well_formed st → buildable_thing thing → frame st < endFrame →
  (Z.to_nat (endFrame - frame st) ≤ fuel)%nat →
  ∃ o st', advance fuel st thing endFrame = Ok (o, st') ∧
    frame st ≤ frame st' ≤ endFrame ∧ (o = TimedOut ↔ frame st' = endFrame) ∧ well_formed st' ∧
    (∀ b, be_type thing = Some b → o = Done →
       built_when_affordable st b thing endFrame st' ∧
       (frame st' + buildTime b, b) ∈ production st' ∧ (frame st', thing) ∈ buildOrder st') ∧
    (∀ b d, be_type thing = Some b → o = Need d → needs b d).
Proof.
  intros Hwf Hb Hlt Hf. destruct (advance_ok fuel st thing endFrame Hwf Hb Hlt Hf) as (o & st' & E & [A1 A2 A3 A4 A5 A6 A7]).
  exists o, st'. split_and!; try done; try apply A1; eauto.
  intros b Eb Ho. pose proof (A4 b Ho Eb) as Hbuilt. split; [done|].
  destruct Hbuilt as (st1 & ip & _ & _ & _ & F & P & B). split.
  - rewrite P, <-F. simpl. case_match; apply elem_of_emplaceProd.
  - rewrite B, <-F. apply elem_of_emplaceProd.
Qed.

(** Merging an archon from the first of two templars uses the second through
    a pointer that the removal of the first has invalidated. *)
Theorem archon_merge_undefined st bld bb thing u : typed st → isArchon bld = true →
  units_at st bb !! 0%nat = Some u → race bb ≠ Race_Zerg →
  start_building st bld bb thing (InUnits bb 0) (second_builder (units_at st bb) 0) = Undefined.
Proof.
  intros Ht Ha Hu Hr. assert (deref_ptr st (InUnits bb 0) = Ok u) as Hd by (simpl; by rewrite Hu).
  destruct (start_building_mid st bld bb thing _ u Hd) as (st1 & u1 & S1 & T1 & D1 & E1 & ->).
  assert (bu_type u = bb) as Eu.
  { pose proof (typed_at st bb Ht) as Hall. rewrite Forall_forall in Hall. apply Hall. by eapply list_elem_of_lookup_2. }
  unfold use_up. rewrite D1. cbn [rbind]. rewrite E1, Eu, Ha. rewrite (proj2 (Z.eqb_neq _ _) Hr). cbn [andb].
  destruct (second_builder (units_at st bb) 0) as [j|] eqn:Es; [|done].
  destruct (removeUnit_ok st1 bb 0 u1 (T1 Ht)) as (st2 & -> & _); [by apply deref_units in D1|].
  assert (j = 1%nat) as -> by (unfold second_builder in Es; case_decide; congruence). done.
Qed.

(** ** Dependencies *)

(** The tech tree is acyclic: what a type needs, workers apart, has a smaller
    rank and can be built. *)
Definition tech_tree (rank : BuildType → nat) : Prop :=
  ∀ b d, needs b d → isWorker d = false → (rank d < rank b)%nat ∧ buildable d.

(** What building [thing] with its dependencies comes to: exactly one more item
    in the build order, which is the thing, at the current frame, or something
    it needs first, directly or not. *)
Definition one_step (b : BuildType) (thing : BuildEntry) (st st' : BuildState) : Prop :=
  ∃ e f, buildOrder st' = emplaceProd (buildOrder st) f e ∧
    (e = thing ∧ f = frame st' ∨
     ∃ d, e = entry d ∧ tc asks b d ∧ (f = frame st' ∨ f = frame st' - buildTime d)).

Lemma ordered_step b thing st o st' : ordered b thing st o st' → o = Done ∨ o = BuiltDep → one_step b thing st st'.
Proof.
  intros H [-> | ->]; simpl in H.
  - exists thing, (frame st'). split; [done|by left].
  - destruct H as (d & f & Ha & Hf & B). exists (entry d), f. split; [done|]. right. exists d. split_and!; [done|by constructor|done].
Qed.

(** A step towards something needed is a step towards what needs it. *)
Lemma one_step_needed b d thing st st' : asks b d → one_step d (entry d) st st' → one_step b thing st st'.
Proof.
  intros Ha (e & f & B & [[-> ->]|(d' & -> & Hd & Hf)]).
  - exists (entry d), (frame st'). split; [done|]. right. exists d. split_and!; [done|by constructor|by left].
  - exists (entry d'), f. split; [done|]. right. exists d'. split_and!; [done|by eapply tc_l|done].
Qed.

Lemma one_step_from b thing st1 st st' : buildOrder st1 = buildOrder st → one_step b thing st1 st' → one_step b thing st st'.
Proof. intros E (e & f & B & H). exists e, f. by rewrite B, E. Qed.

Lemma depbuild_loop_ok rank depth fuel st prevSt thing b endFrame : tech_tree rank →
  well_formed st → well_formed prevSt → frame st = frame prevSt → buildOrder st = buildOrder prevSt →
  frame st < endFrame → be_type thing = Some b → buildable b → (rank b < depth)%nat →
  (Z.to_nat (endFrame - frame st) ≤ fuel)%nat →
  ∃ ok st', depbuild_loop depth fuel st prevSt thing endFrame = Ok (ok, st') ∧ well_formed st' ∧
    frame st ≤ frame st' ≤ endFrame ∧ (ok = false → frame st' = frame prevSt) ∧
    (ok = true → one_step b thing st st').
Proof.
  intros Htree. revert st thing b. induction depth as [|depth IH]; intros st thing b Hwf Hwp Hf Hbo Hlt Hb Hbb Hr Hfuel; [lia|].
  cbn [depbuild_loop].
  destruct (advance_ok fuel st thing endFrame Hwf) as (o & st1 & -> & [A1 A2 A3 A4 A5 A6 A7]);
    [intros b0; rewrite Hb; by intros [= <-]|done|done|].
  cbn [rbind]. specialize (A7 b Hb). set (rs := if frame st1 =? frame prevSt then st1 else prevSt).
  assert (well_formed rs ∧ frame rs = frame prevSt) as [Hrs Frs].
  { unfold rs. destruct (Z.eqb_spec (frame st1) (frame prevSt)); done. }
  assert (∃ ok st', Ok (false, rs) = Ok (ok, st') ∧ well_formed st' ∧ frame st ≤ frame st' ≤ endFrame ∧
    (ok = false → frame st' = frame prevSt) ∧ (ok = true → one_step b thing st st')) as Hfail.
  { exists false, rs. split_and!; try done; lia. }
  destruct o as [| | | |ty]; try exact Hfail.
  1,2: exists true, st1; split_and!; try done; try lia; intros _; apply (ordered_step _ _ _ _ _ A7); auto.
  destruct (bool_decide (Some ty = be_type thing) || _); [exact Hfail|].
  destruct (isWorker ty) eqn:Ew; [exact Hfail|].
  destruct (Htree b ty (A6 b ty eq_refl Hb) Ew) as [Hlt' Hbty].
  assert (buildOrder rs = buildOrder st) as Brs by (unfold rs; case_match; [exact A7|done]).
  destruct (IH rs (entry ty) ty Hrs Hwp) as (ok & st' & -> & ? & ? & ? & Hstep); try done; try lia; [congruence|].
  exists ok, st'. split_and!; try done; try lia. intros Hok. apply (one_step_from _ _ rs); [done|].
  apply (one_step_needed b ty); [|auto]. left. by apply (A6 b ty).
Qed.

(** C9 Building a thing with its dependencies terminates on an acyclic tech
    tree; a failure gives the clock back, and a success takes at most ten
    minutes of simulated play. *)
Theorem depbuild_spec rank depth fuel st thing b : tech_tree rank → well_formed st →
  be_type thing = Some b → buildable b → (rank b < depth)%nat → 9000 ≤ Z.of_nat fuel →
  ∃ ok st', depbuild depth fuel st st thing = Ok (ok, st') ∧ well_formed st' ∧
    frame st ≤ frame st' ≤ frame st + 9000 ∧ (ok = false → frame st' = frame st).
Proof.
  intros Ht Hwf Hb Hbb Hr Hf. unfold depbuild.
  destruct (depbuild_loop_ok rank depth fuel st st thing b (frame st + 9000)) as (ok & st' & E & ?);
    try done; try lia. exists ok, st'. split_and!; try done; by destruct_and!.
Qed.

(** The other request fits in before the thing: it succeeds, earlier than the
    thing's next step would be made, and that step can still be made after it by
    the same frame. *)
Definition fits_before (depth fuel : nat) (st thingSt : BuildState) (thing : BuildEntry) (other : request)
    (otherSt final : BuildState) : Prop :=
  other st = Ok (true, otherSt) ∧ frame otherSt < frame thingSt ∧
  depbuild depth fuel otherSt otherSt thing = Ok (true, final) ∧ frame final ≤ frame thingSt.

(** The other request is chosen exactly when it fits in. *)
Lemma nodelay_choice depth fuel st thing other thingSt ok st' :
  depbuild depth fuel st st thing = Ok (true, thingSt) →
  nodelay depth fuel st thing other = Ok (ok, st') →
  ok = true ∧
  ((∃ final, fits_before depth fuel st thingSt thing other st' final) ∨
   st' = thingSt ∧ ∀ otherSt final, ¬ fits_before depth fuel st thingSt thing other otherSt final).
Proof.
  intros Hd. unfold nodelay, fits_before. rewrite Hd. cbn [rbind]. unfold nodelayStage2. intros H.
  assert ((∀ otherSt final, ¬ fits_before depth fuel st thingSt thing other otherSt final) →
    Ok (true, thingSt) = Ok (ok, st') → ok = true ∧
    ((∃ final, fits_before depth fuel st thingSt thing other st' final) ∨
     st' = thingSt ∧ ∀ otherSt final, ¬ fits_before depth fuel st thingSt thing other otherSt final)) as Hno
    by (intros Hn [= <- <-]; auto).
  apply rbind_Ok_inv in H as ([ok1 st1] & Ho & H).
  destruct ok1; [|apply Hno; [intros ? ? (?&?&?&?); congruence|done]].
  destruct (Z.leb_spec (frame thingSt) (frame st1)).
  { apply Hno; [intros ? ? (E&?&?&?)|done]. rewrite Ho in E. injection E as ->. lia. }
  apply rbind_Ok_inv in H as ([ok2 st2] & Hd2 & H).
  destruct ok2; [|apply Hno; [intros ? ? (E&?&?&?); rewrite Ho in E; injection E as ->; congruence|done]].
  destruct (Z.leb_spec (frame st2) (frame thingSt)).
  - injection H as <- <-. split; [done|]. left. by exists st2.
  - apply Hno; [intros ? ? (E&?&E2&?)|done]. rewrite Ho in E. injection E as ->. rewrite Hd2 in E2. injection E2 as ->. lia.
Qed.
End with_table.

(** ** An example tech tree *)

(** Zerglings come from larvae and need a pool; pools and hatcheries come from
    drones.  Everything is free and takes ten frames. *)
Definition example_table : BuildTable :=
  {| BuildType.builder b :=
       if eqb b Zerg_Zergling then Some Zerg_Larva
       else if eqb b Zerg_Spawning_Pool || eqb b Zerg_Hatchery then Some Zerg_Drone else None;
     BuildType.mineralCost _ := f64_0; BuildType.gasCost _ := f64_0;
     BuildType.prerequisites b := if eqb b Zerg_Zergling then [Zerg_Larva; Zerg_Spawning_Pool] else [];
     BuildType.buildTime _ := 10; BuildType.race _ := Race_Zerg; BuildType.isAddon _ := false;
     BuildType.isWorker b := eqb b Zerg_Drone; BuildType.supplyProvided _ := f64_0;
     BuildType.supplyRequired _ := f64_0; BuildType.isTwoUnitsInOneEgg _ := false;
     BuildType.isRefinery _ := false; BuildType.isBuilding _ := false;
     BuildType.isResourceDepot _ := false |}.

Definition example_rank (b : BuildType) : nat := if eqb b Zerg_Zergling then 1 else 0.

Lemma example_tree : tech_tree (table := example_table) example_rank.
Proof.
  intros b d Hn Hw. unfold needs in Hn. simpl in *.
  destruct (eqb_spec b Zerg_Zergling) as [->|Hb]; unfold example_rank; simpl.
  - assert (d = Zerg_Spawning_Pool ∨ d = Zerg_Hatchery) as [-> | ->].
    { destruct Hn as [[Hn ?]|[[Hn ?]|[[Hn _]|[_ ->]]]].
      - apply elem_of_cons in Hn as [?|Hn]; [done|]. left. by apply list_elem_of_singleton in Hn.
      - by injection Hn as <-.
      - discriminate Hn.
      - by right. }
    + split; [vm_compute; constructor|]. split; [by exists Zerg_Drone|reflexivity].
    + split; [vm_compute; constructor|]. split; [by exists Zerg_Drone|reflexivity].
  - exfalso. destruct Hn as [[Hn _]|[[Hn ?]|[[Hn _]|[Hn _]]]].
    + by apply not_elem_of_nil in Hn.
    + destruct (eqb b Zerg_Spawning_Pool || eqb b Zerg_Hatchery); [|done].
      injection Hn as <-. discriminate Hw.
    + discriminate Hn.
    + destruct (eqb b Zerg_Spawning_Pool || eqb b Zerg_Hatchery); discriminate Hn.
Qed.

Lemma fresh_wf : well_formed fresh.
Proof. split; [split; constructor|]. apply map_Forall_empty. Qed.

(** A state with one drone. *)
Definition example_state : BuildState := addUnit (table := example_table) fresh Zerg_Drone.

Lemma example_state_wf : well_formed example_state.
Proof.
  destruct (addUnit_keeps (table := example_table) fresh Zerg_Drone) as [_ T].
  destruct fresh_wf as [H1 H2]. split; [exact H1|by apply T].
Qed.

Lemma emplaceProd_spec_witness :
  by_frame (emplaceProd [(1, Zerg_Drone); (5, Zerg_Drone)] 1 Zerg_Larva) ∧
  emplaceProd [(1, Zerg_Drone); (5, Zerg_Drone)] 1 Zerg_Larva =
    [(1, Zerg_Drone); (1, Zerg_Larva); (5, Zerg_Drone)].
Proof.
  destruct (emplaceProd_spec [(1, Zerg_Drone); (5, Zerg_Drone)] 1 Zerg_Larva) as [H1 H2].
  - repeat constructor; simpl; lia.
  - split; [exact H1|]. rewrite H2. reflexivity.
Defined.

Lemma example_pool : buildable_thing (table := example_table) (entry Zerg_Spawning_Pool).
Proof. intros b [= <-]. split; [by exists Zerg_Drone|reflexivity]. Qed.

Lemma advance_spec_witness :
  ∃ o st', advance (table := example_table) 5 example_state (entry Zerg_Spawning_Pool) 5 = Ok (o, st') ∧
    o = Done ∧ (frame st' + 10, Zerg_Spawning_Pool) ∈ production st'.
Proof.
  destruct (advance_spec (table := example_table) 5 example_state (entry Zerg_Spawning_Pool) 5)
    as (o & st' & H1 & _ & _ & _ & H2 & _); [apply example_state_wf|apply example_pool|simpl; lia|simpl; lia|].
  assert (o = Done) as Ho by (vm_compute in H1; congruence).
  exists o, st'. split; [exact H1|]. split; [exact Ho|]. apply (H2 Zerg_Spawning_Pool eq_refl Ho).
Defined.

Lemma depbuild_spec_witness :
  ∃ ok st', depbuild (table := example_table) 2 (Z.to_nat 9000) example_state example_state (entry Zerg_Zergling) = Ok (ok, st') ∧
    well_formed st'.
Proof.
  destruct (depbuild_spec (table := example_table) example_rank 2 (Z.to_nat 9000) example_state (entry Zerg_Zergling) Zerg_Zergling)
    as (ok & st' & H1 & H2 & _).
  - apply example_tree.
  - apply example_state_wf.
  - reflexivity.
  - split; [by exists Zerg_Larva|reflexivity].
  - vm_compute. constructor.
  - lia.
  - exists ok, st'. split; [exact H1|exact H2].
Defined.

(** A success need not have built the thing: for a zergling without a pool
    it only puts the pool into the build order. *)
Theorem depbuild_stops_at_dependency :
  ∃ st', depbuild (table := example_table) 2 (Z.to_nat 9000) example_state example_state (entry Zerg_Zergling) = Ok (true, st') ∧
    (λ p, be_type p.2) <$> buildOrder st' = [Some Zerg_Spawning_Pool] ∧
    (λ p, p.2) <$> production st' = [Zerg_Spawning_Pool].
Proof. eexists. split; [vm_compute; reflexivity|]. split; reflexivity. Qed.

Definition example_built : BuildState :=
  match depbuild (table := example_table) 2 1 example_state example_state (entry Zerg_Spawning_Pool) with
  | Ok (_, st) => st
  | _ => fresh
  end.

(** Two high templars, both idle. *)
Definition example_protoss : BuildTable :=
  {| BuildType.builder b := if eqb b Protoss_Archon then Some Protoss_High_Templar else None;
     BuildType.mineralCost _ := f64_0; BuildType.gasCost _ := f64_0; BuildType.prerequisites _ := [];
     BuildType.buildTime _ := 10; BuildType.race _ := Race_Protoss; BuildType.isAddon _ := false;
     BuildType.isWorker _ := false; BuildType.supplyProvided _ := f64_0;
     BuildType.supplyRequired _ := f64_0; BuildType.isTwoUnitsInOneEgg _ := false;
     BuildType.isRefinery _ := false; BuildType.isBuilding _ := false;
     BuildType.isResourceDepot _ := false |}.
Definition example_templars : BuildState :=
  addUnit (table := example_protoss) (addUnit (table := example_protoss) fresh Protoss_High_Templar) Protoss_High_Templar.

Lemma archon_merge_undefined_witness :
  start_building (table := example_protoss) example_templars Protoss_Archon Protoss_High_Templar (entry Protoss_Archon)
    (InUnits Protoss_High_Templar 0) (second_builder (units_at example_templars Protoss_High_Templar) 0) = Undefined ∧
  advance (table := example_protoss) 5 example_templars (entry Protoss_Archon) 5 = Undefined.
Proof.
  split; [|vm_compute; reflexivity].
  apply (archon_merge_undefined (table := example_protoss) example_templars Protoss_Archon Protoss_High_Templar
    (entry Protoss_Archon) (BSU Protoss_High_Templar 0 None 0)).
  - apply addUnit_keeps, addUnit_keeps, fresh_wf.
  - reflexivity.
  - reflexivity.
  - discriminate.
Defined.
End AutoBuild.
