(* ===== verification/AutoBuildTask.v ===== *)
(** * Build-order tasks ([src/modules/autobuild.cpp])

    [getMyState], which reads the game into a [BuildState]; the requests of
    [AutoBuildTask] and their queue; and [simEvaluateFor].

    The queue is the closure the code builds: a function on states.  The
    virtual [preBuild], [buildStep] and [postBuild] are parameters; a
    [buildStep] is the sequence of requests it makes in a state. *)

From S2P Require Import Prelude Floats Geometry BuildTypes Units AutoBuild.

Module AutoBuildTask.
Import BuildType AutoBuild.

Section with_table.
Context {table : BuildTable}.

(** ** The current state of the game *)

(** What [getMyState] reads: the player's resources and the game's units. *)
Record game := Game {
  currentFrame : Z;
  ore : Z;
  gas_ : Z;
  used_psi : Z;
  total_psi : Z;
  mineralsKey : option float64;
  gasKey : option float64;
  (** [builderhelpers::findGeyserForRefinery] found one *)
  geyserAvailable : bool;
  myUnits : list Unit;
  all_units : gmap Z Unit;
  upgradeLevel : BuildType → Z;
  researched : BuildType → bool;
  allUpgradeTypes : list BuildType;
  allTechTypes : list BuildType
}.

(** [++larvaCount[u->associatedUnit]] for every larva.

    [src/src/modules/autobuild.cpp:234-240] getMyState *)
Definition count_larva (us : list Unit) (u : Z) : Z :=
  fold_left (λ n l, if eqb (Unit.type l) Zerg_Larva && bool_decide (Unit.associatedUnit l = Some u)
                    then n + 1 else n) us 0.

(** [src/src/modules/autobuild.cpp:247-258] getMyState *)
Definition add_research (g : game) (u : Unit) (st : BuildState) : BuildState :=
  let due := frame st + Unit.remainingUpgradeResearchTime u in
  let st := match Unit.upgrading u, Unit.upgradingType u with
            | true, Some t => set_production (emplaceProd (production st) due t) st
            | _, _ => st
            end in
  match Unit.researching u, Unit.researchingType u with
  | true, Some t => set_production (emplaceProd (production st) due t) st
  | _, _ => st
  end.

(** The type a unit counts as; none for a larva or an empty egg.

    [src/src/modules/autobuild.cpp:243-270] getMyState *)
Definition counted_type (u : Unit) : option BuildType :=
  let t := if eqb (Unit.type u) Terran_Siege_Tank_Siege_Mode then Terran_Siege_Tank_Tank_Mode else Unit.type u in
  if eqb t Zerg_Larva then None
  else
    let o := if eqb t Zerg_Egg || eqb t Zerg_Cocoon then Unit.constructingType u else Some t in
    match o with
    | None => None
    | Some t => Some (if eqb t Zerg_Lurker_Egg then Zerg_Lurker else t)
    end.

(** [src/src/modules/autobuild.cpp:271-292] getMyState *)
Definition add_unfinished (g : game) (u : Unit) (t : BuildType) (st : BuildState) : BuildState :=
  let due := frame st + Unit.remainingBuildTrainTime u in
  let st := set_production (emplaceProd (production st) due t) st in
  let st := if isTwoUnitsInOneEgg t then set_production (emplaceProd (production st) due t) st else st in
  let st := if eqb t Zerg_Lair || eqb t Zerg_Hive then
              set_morphing (morphingHatcheries st ++
                [BSU t (frame st + Unit.remainingUpgradeResearchTime u) None
                   (frame st - 342 * count_larva (myUnits g) (Unit.id u))]) st
            else st in
  set_supplies (usedSupply st) (maxSupply st)
    (sup_upd (inprodSupply st) (race t) (λ x, f64_add x (supplyProvided t))) st.

(** An armed silo is first marked busy for ever; the [else] branch that follows
    assigns [busyUntil] again.

    [src/src/modules/autobuild.cpp:297-310] getMyState *)
Definition assign_busy (g : game) (u : Unit) (t : BuildType) (now : Z) (r : BuildStateUnit) : BuildStateUnit :=
  let r := if eqb t Terran_Nuclear_Silo && negb (Unit.associatedCount u =? 0)
           then BSU (bu_type r) INT_MAX (bu_addon r) (larvaTimer r) else r in
  if eqb t Zerg_Hatchery || eqb t Zerg_Lair || eqb t Zerg_Hive
  then BSU (bu_type r) (now + Unit.remainingUpgradeResearchTime u) (bu_addon r)
         (now - 342 + Unit.remainingBuildTrainTime u - 342 * count_larva (myUnits g) (Unit.id u))
  else BSU (bu_type r) (now + Z.max (Unit.remainingBuildTrainTime u) (Unit.remainingUpgradeResearchTime u))
         (bu_addon r) (larvaTimer r).

(** [src/src/modules/autobuild.cpp:293-311] getMyState *)
Definition add_finished (g : game) (u : Unit) (t : BuildType) (st : BuildState) : BuildState :=
  let addon := match Unit.addon u with
               | Some a => Unit.type <$> all_units g !! a
               | None => None
               end in
  modify_last (addUnit st t) t
    (λ r, assign_busy g u t (frame st)
            (BSU (bu_type r) (busyUntil r) (match addon with Some _ => addon | None => bu_addon r end) (larvaTimer r))).

(** [src/src/modules/autobuild.cpp:242-312] getMyState *)
Definition add_unit (g : game) (st : BuildState) (u : Unit) : BuildState :=
  let st := add_research g u st in
  match counted_type u with
  | None => st
  | Some t =>
      if negb (Unit.completed u) || Unit.morphing u then add_unfinished g u t st
      else add_finished g u t st
  end.

(** [src/src/modules/autobuild.cpp:314-324] getMyState *)
Definition known_tech (g : game) : gset BuildType :=
  list_to_set (List.filter (λ t, level t <=? upgradeLevel g t) (allUpgradeTypes g)) ∪
  list_to_set (List.filter (researched g) (allTechTypes g)).

(** [src/src/modules/autobuild.cpp:329-340] getMyState *)
Definition guess_race (st : BuildState) : Z :=
  let scvs := countUnits st Terran_SCV in
  let probes := countUnits st Protoss_Probe in
  let drones := countUnits st Zerg_Drone in
  let best := Z.max scvs (Z.max probes drones) in
  if best =? scvs then Race_Terran
  else if best =? probes then Race_Protoss
  else if best =? drones then Race_Zerg
  else Race_Terran.

Definition fill (x : float64) : supply := Sup x x x.

(** [src/src/modules/autobuild.cpp:213-232] getMyState *)
Definition initial (g : game) : BuildState :=
  BS (currentFrame g) 0 (f64_of_Z (ore g)) (f64_of_Z (gas_ g))
    (default f64_0 (mineralsKey g)) (default f64_0 (gasKey g))
    no_supply no_supply no_supply ∅ ∅ [] [] [] 0 0
    (if geyserAvailable g then 1 else 0) true true false.

(** [src/src/modules/autobuild.cpp:212-343] getMyState *)
Definition getMyState (g : game) : BuildState :=
  let st := fold_left (add_unit g) (myUnits g) (initial g) in
  let st := set_tech (known_tech g) st in
  let st := set_supplies (fill (f64_div (f64_of_Z (used_psi g)) (f64_of_Z 2)))
              (fill (f64_div (f64_of_Z (total_psi g)) (f64_of_Z 2))) (inprodSupply st) st in
  BS (frame st) (guess_race st) (minerals st) (gas st) (mineralsPerFramePerGatherer st)
    (gasPerFramePerGatherer st) (usedSupply st) (maxSupply st) (inprodSupply st) (units st)
    (upgradesAndTech st) (production st) (buildOrder st) (morphingHatcheries st) (workers st)
    (refineries st) (availableGases st) (autoBuildRefineries st) (autoBuildHatcheries st) (isExpanding st).

(** ** Requests *)

(** What a [buildStep] starts from: a queue that builds nothing. *)
Definition empty_queue : request := λ st, Ok (false, st).

Section with_fuel.
Context (depth fuel : nat).

(** The closure [queue] becomes.

    [src/src/modules/autobuild.cpp:875-881] AutoBuildTask::build *)
Definition push (thing : BuildEntry) (queue : request) : request :=
  λ st, nodelay depth fuel st thing queue.

(** The overloads with a position and a callback, a callback, or a position
    differ in the entry they push.

    [src/src/modules/autobuild.cpp:867-907] AutoBuildTask::build *)
Definition build_entry (cur : BuildState) (ty : BuildType) (pos : Position) (cb : option Z) (queue : request)
    : request :=
  if negb (isUnit ty) && hasOrInProduction cur ty then queue else push (BE (Some ty) pos cb) queue.

(** A lurker also asks for the hydralisk it morphs from; that inner call is for
    a unit that is no lurker, so it only pushes.

    [src/src/modules/autobuild.cpp:909-921] AutoBuildTask::build *)
Definition build (cur : BuildState) (ty : BuildType) (queue : request) : request :=
  if negb (isUnit ty) && hasOrInProduction cur ty then queue
  else
    let queue := if eqb ty Zerg_Lurker && has cur Lurker_Aspect
                 then build_entry cur Zerg_Hydralisk Vec2.origin None queue else queue in
    push (entry ty) queue.

(** [src/src/modules/autobuild.cpp:923-929] AutoBuildTask::buildN *)
Definition buildN (cur : BuildState) (ty : BuildType) (n : Z) (queue : request) : res (bool * request) :=
  let? c := countPlusProduction cur ty in
  if n <=? c then Ok (true, queue) else Ok (false, build cur ty queue).

(** [src/src/modules/autobuild.cpp:931-936] AutoBuildTask::buildN *)
Definition buildN_simultaneous (cur : BuildState) (ty : BuildType) (n simultaneous : Z) (queue : request)
    : res (bool * request) :=
  if simultaneous <=? countProduction cur ty then Ok (true, queue) else buildN cur ty n queue.

(** [src/src/modules/autobuild.cpp:938-947] AutoBuildTask::buildN *)
Definition buildN_at (cur : BuildState) (ty : BuildType) (n : Z) (pos : Position) (queue : request)
    : res (bool * request) :=
  let? c := countPlusProduction cur ty in
  if n <=? c then Ok (true, queue) else Ok (false, build_entry cur ty pos None queue).

(** [src/src/modules/autobuild.cpp:949-955] AutoBuildTask::upgrade *)
Definition upgrade (cur : BuildState) (ty : BuildType) (queue : request) : res (bool * request) :=
  if has cur ty then Ok (true, queue)
  else let? r := buildN cur ty 1 queue in Ok (false, r.2).

(** [src/src/modules/autobuild.h:281-286] DefaultAutoBuildTask::Target *)
Record Target := Tgt { tgt_type : BuildType; tgt_n : Z }.

(** [src/src/modules/autobuild.h:298-306] DefaultAutoBuildTask::buildStep *)
Definition default_buildStep (targets : list Target) (st : BuildState) : res (BuildState * request) :=
  let? q := rfold (λ q t, if tgt_n t =? -1 then Ok (build st (tgt_type t) q)
                          else let? r := buildN st (tgt_type t) (tgt_n t) q in Ok r.2)
              targets empty_queue in
  Ok (st, q).

(** ** Simulating a build order *)

(** The virtual members of a task: [buildStep] gets the state by reference and
    leaves a queue behind. *)
Record task_code := TaskCode {
  preBuild : BuildState → BuildState;
  buildStep : BuildState → res (BuildState * request);
  postBuild : BuildState → BuildState
}.

(** One round: the requests of [buildStep], then the queue they make.

    [src/src/modules/autobuild.cpp:1253-1257] AutoBuildTask::simEvaluateFor *)
Definition run_queue (code : task_code) (st : BuildState) : res (bool * BuildState) :=
  let? r := buildStep code st in
  r.2 r.1.

(** The loop; [prev] is [previousToLastState].

    [src/src/modules/autobuild.cpp:1249-1258] AutoBuildTask::simEvaluateFor *)
Fixpoint sim_loop (rounds : nat) (code : task_code) (st prev : BuildState) (endFrame : Z)
    : res (BuildState * BuildState) :=
  if frame st <? endFrame then
    match rounds with
    | O => OutOfFuel
    | S rounds =>
        let? r := run_queue code st in
        let '(ok, st') := r in
        if (ok : bool) then sim_loop rounds code st' st endFrame else Ok (st', st)
    end
  else Ok (st, prev).

(** [src/src/modules/autobuild.cpp:1236-1271] AutoBuildTask::simEvaluateFor *)
Definition simEvaluateFor (rounds : nat) (code : task_code) (argSt : BuildState) (frames : Z) : res BuildState :=
  let endFrame := frame argSt + frames in
  let st := preBuild code argSt in
  let? r := sim_loop rounds code st fresh endFrame in
  let '(st, prev) := r in
  let st := postBuild code st in
  let st := if endFrame <? frame st then prev else st in
  if frame st <? endFrame
  then let? r := advance fuel st (BE None Vec2.origin None) endFrame in Ok r.2
  else Ok st.

(** ** Properties *)

Lemma modify_last_wf st ty f : well_formed st → (∀ u, bu_type (f u) = bu_type u) →
  well_formed (modify_last st ty f).
Proof.
  intros [Hs Ht] Hf. split; [exact Hs|]. apply typed_set; [done|].
  pose proof (typed_at st ty Ht) as Hall. destruct (last (units_at st ty)) as [u|] eqn:El; [|done].
  apply Forall_app. split; [by apply Forall_take|]. constructor; [|done]. rewrite Hf.
  rewrite Forall_forall in Hall. apply Hall. by apply last_Some_elem_of.
Qed.

Lemma set_production_wf st f t : well_formed st → well_formed (set_production (emplaceProd (production st) f t) st).
Proof. intros [[Hp Ho] Ht]. split; [|exact Ht]. split; [by apply emplaceProd_sorted|exact Ho]. Qed.

Lemma addUnit_wf st ty : well_formed st → well_formed (addUnit st ty).
Proof. intros [Hs Ht]. split; [exact Hs|]. by apply addUnit_keeps. Qed.

Lemma add_unit_wf g st u : well_formed st → well_formed (add_unit g st u).
Proof.
  intros Hwf. unfold add_unit.
  assert (well_formed (add_research g u st)) as Hwf1.
  { unfold add_research. repeat case_match; auto using set_production_wf. }
  destruct (counted_type u) as [t|]; [|done]. case_match.
  - unfold add_unfinished. repeat case_match; repeat apply set_production_wf; try done;
      exact (set_production_wf _ _ _ (set_production_wf _ _ _ Hwf1)) || exact (set_production_wf _ _ _ Hwf1).
  - unfold add_finished. apply modify_last_wf; [by apply addUnit_wf|].
    intros r. unfold assign_busy. by repeat case_match.
Qed.

(** The units that [getMyState] takes for finished ones of type [t]. *)
Definition finished_as (t : BuildType) (u : Unit) : Prop :=
  counted_type u = Some t ∧ Unit.completed u = true ∧ Unit.morphing u = false.
#[global] Instance finished_as_dec t u : Decision (finished_as t u) := ltac:(unfold finished_as; apply _).

Lemma add_research_units g u st : units (add_research g u st) = units st ∧ frame (add_research g u st) = frame st.
Proof. unfold add_research. by repeat case_match. Qed.

Lemma units_at_insert st ty l ty' :
  units_at (set_units (<[ty := l]> (units st)) st) ty' = if decide (ty = ty') then l else units_at st ty'.
Proof.
  unfold units_at. simpl. destruct (decide (ty = ty')) as [->|]; [by rewrite lookup_insert_eq|].
  by rewrite lookup_insert_ne.
Qed.

Lemma addUnit_at st ty ty' :
  units_at (addUnit st ty) ty' = if decide (ty = ty') then units_at st ty ++ [BSU ty 0 None 0] else units_at st ty'.
Proof. exact (units_at_insert st ty _ ty'). Qed.

Lemma add_finished_at g u t st t' : units_at (add_finished g u t st) t' =
  if decide (t = t') then
    units_at st t ++ [assign_busy g u t (frame st)
      (BSU t 0 (match Unit.addon u with Some a => Unit.type <$> all_units g !! a | None => None end) 0)]
  else units_at st t'.
Proof.
  unfold add_finished, modify_last. rewrite units_at_insert. rewrite !addUnit_at.
  destruct (decide (t = t')) as [->|]; [|done]. rewrite decide_True by done.
  rewrite last_snoc, length_app. simpl. rewrite Nat.add_sub, take_app_length. do 4 f_equal.
  by case_match.
Qed.

Lemma add_unit_at g st u t :
  length (units_at (add_unit g st u) t) =
    (length (units_at st t) + if decide (finished_as t u) then 1 else 0)%nat ∧
  frame (add_unit g st u) = frame st.
Proof.
  unfold add_unit. destruct (add_research_units g u st) as [Eu Ef].
  assert (∀ t', units_at (add_research g u st) t' = units_at st t') as Eat by (intros; unfold units_at; by rewrite Eu).
  destruct (counted_type u) as [t0|] eqn:Ec.
  2: { rewrite decide_False by (intros (?&?&?); congruence). rewrite Eat. split; [lia|done]. }
  destruct (Unit.completed u) eqn:Eco, (Unit.morphing u) eqn:Emo; cbn [negb orb].
  2: { rewrite add_finished_at. split; [|exact Ef].
       destruct (decide (t0 = t)) as [->|].
       - rewrite decide_True by done. rewrite length_app, Eat. simpl. lia.
       - rewrite decide_False by (intros (?&?&?); congruence). rewrite Eat. lia. }
  all: rewrite decide_False by (intros (?&?&?); congruence);
    assert (units (add_unfinished g u t0 (add_research g u st)) = units st ∧
            frame (add_unfinished g u t0 (add_research g u st)) = frame st) as [E1 E2]
      by (rewrite <-Eu, <-Ef; unfold add_unfinished; by repeat case_match);
    unfold units_at; rewrite E1; split; [lia|done].
Qed.

Lemma read_units g l st : well_formed st →
  well_formed (fold_left (add_unit g) l st) ∧ frame (fold_left (add_unit g) l st) = frame st ∧
  ∀ t, length (units_at (fold_left (add_unit g) l st) t) =
       (length (units_at st t) + length (filter (finished_as t) l))%nat.
Proof.
  revert st. induction l as [|u l IH]; intros st Hst; simpl; [split_and!; [done|done|intros; lia]|].
  destruct (IH (add_unit g st u) (add_unit_wf g st u Hst)) as (H1 & H2 & H3).
  split_and!; [done|by rewrite H2; apply (add_unit_at g st u Zerg_Larva)|]. intros t. rewrite H3.
  destruct (add_unit_at g st u t) as [-> _]. rewrite filter_cons. case_decide; simpl; lia.
Qed.

(** The state read from the game is at the game's frame, holds exactly the
    finished units of each type, and satisfies the invariant the simulation
    relies on: both schedules sorted, each unit filed under its type. *)
Theorem getMyState_spec g :
  well_formed (getMyState g) ∧ frame (getMyState g) = currentFrame g ∧
  ∀ t, length (units_at (getMyState g) t) = length (filter (finished_as t) (myUnits g)).
Proof.
  assert (well_formed (initial g)) as H0 by (split; [split; constructor|apply map_Forall_empty]).
  destruct (read_units g (myUnits g) (initial g) H0) as (H1 & H2 & H3).
  split; [exact H1|]. split; [exact H2|]. intros t. exact (H3 t).
Qed.

(** An armed silo is not busy: nothing is left of the assignment of [INT_MAX]. *)
Theorem armed_silo_idle g u st : frame st = currentFrame g →
  Unit.remainingBuildTrainTime u = 0 → Unit.remainingUpgradeResearchTime u = 0 →
  busyUntil <$> last (units_at (add_finished g u Terran_Nuclear_Silo st) Terran_Nuclear_Silo) =
    Some (currentFrame g).
Proof.
  intros Hf H1 H2. rewrite add_finished_at, decide_True, last_snoc by done. simpl.
  unfold assign_busy. rewrite H1, H2, Hf. simpl; f_equal; lia.
Qed.

(** ** The queue *)

(** A request that always returns, keeps the invariant, never goes back in
    time, and leaves the state alone when it builds nothing. *)
Definition request_ok (q : request) : Prop :=
  ∀ st, well_formed st →
    ∃ ok st', q st = Ok (ok, st') ∧ well_formed st' ∧ frame st ≤ frame st' ∧ (ok = false → st' = st).

Lemma empty_queue_ok : request_ok empty_queue.
Proof. intros st Hwf. exists false, st. split_and!; try done; lia. Qed.

Section tech_tree.
Context (rank : BuildType → nat) (tree : tech_tree rank) (fuel_enough : 9000 ≤ Z.of_nat fuel).

Definition in_tree (b : BuildType) : Prop := buildable b ∧ (rank b < depth)%nat.

Lemma depbuild_ok st thing b : well_formed st → be_type thing = Some b → in_tree b →
  ∃ ok st', depbuild depth fuel st st thing = Ok (ok, st') ∧ well_formed st' ∧ frame st ≤ frame st'.
Proof.
  intros Hwf Hb [Hbb Hr]. unfold depbuild.
  destruct (depbuild_loop_ok rank depth fuel st st thing b (frame st + 9000)) as (ok & st' & E & ? & ? & _);
    try done; try lia. exists ok, st'. split_and!; [done|done|lia].
Qed.

Lemma push_ok thing b q : be_type thing = Some b → in_tree b → request_ok q → request_ok (push thing q).
Proof.
  intros Hb Hin Hq st Hwf. unfold push, nodelay.
  destruct (depbuild_ok st thing b Hwf Hb Hin) as (ok & thingSt & -> & Hwt & Ht). cbn [rbind].
  destruct ok; [|by apply Hq]. unfold nodelayStage2.
  assert (∃ ok st', Ok (true, thingSt) = Ok (ok, st') ∧ well_formed st' ∧ frame st ≤ frame st' ∧
    (ok = false → st' = st)) as Hthing by (exists true, thingSt; by split_and!).
  destruct (Hq st Hwf) as (ok & st1 & -> & Hw1 & H1 & _). cbn [rbind]. destruct ok; [|exact Hthing].
  case_match; [exact Hthing|].
  destruct (depbuild_ok st1 thing b Hw1 Hb Hin) as (ok & st2 & -> & _). cbn [rbind].
  destruct ok; [|exact Hthing]. case_match; [|exact Hthing]. exists true, st1. by split_and!.
Qed.

Lemma depbuild_step st thing b st' : well_formed st → be_type thing = Some b → in_tree b →
  depbuild depth fuel st st thing = Ok (true, st') → one_step b thing st st'.
Proof.
  intros Hwf Hb [Hbb Hr] E.
  destruct (depbuild_loop_ok rank depth fuel st st thing b (frame st + 9000)) as (ok & st1 & E1 & _ & _ & _ & H);
    try done; try lia. unfold depbuild in E. replace (15 * 60 * 10) with 9000 in E by done.
  rewrite E1 in E. injection E as -> ->. auto.
Qed.

(** C10 Squeezing something in never puts off the next step towards the thing:
    the thing itself, or the first piece missing for it, going into the build
    order.  When [depbuild] makes that step alone by the frame of [thingSt],
    [nodelay] returns one of two states.  It takes the state after the other
    request exactly when that request succeeds before that frame and [depbuild]
    can still make a step towards the thing after it and by that frame; in every
    other case it takes [thingSt].  Each step adds exactly one item to the build
    order, the thing or something it needs first, directly or not. *)
Theorem nodelay_on_time st thing b other thingSt : well_formed st → be_type thing = Some b → in_tree b →
  request_ok other → depbuild depth fuel st st thing = Ok (true, thingSt) →
  one_step b thing st thingSt ∧
  ∃ st', nodelay depth fuel st thing other = Ok (true, st') ∧ well_formed st' ∧
  ((∃ final, fits_before depth fuel st thingSt thing other st' final ∧ one_step b thing st' final) ∨
   st' = thingSt ∧ ∀ otherSt final, ¬ fits_before depth fuel st thingSt thing other otherSt final).
Proof.
  intros Hwf Hb Hin Ho Hd. split; [by eapply depbuild_step|].
  destruct (push_ok thing b other Hb Hin Ho st Hwf) as (ok & st' & E & Hw & _).
  destruct (nodelay_choice _ _ _ _ _ _ _ _ Hd E) as [-> [[final H]|H]]; exists st'; split_and!; try done; [|by right].
  left. exists final. split; [done|]. destruct H as (_ & _ & Hf & _). by eapply depbuild_step.
Qed.

Lemma build_entry_ok cur ty pos cb q : in_tree ty → request_ok q → request_ok (build_entry cur ty pos cb q).
Proof. intros Hin Hq. unfold build_entry. case_match; [done|]. by apply (push_ok _ ty). Qed.

Lemma build_ok cur ty q : in_tree ty → (ty = Zerg_Lurker → in_tree Zerg_Hydralisk) →
  request_ok q → request_ok (build cur ty q).
Proof.
  intros Hin Hl Hq. unfold build. case_match; [done|]. apply (push_ok _ ty); [done|done|].
  destruct (eqb_spec ty Zerg_Lurker) as [->|]; simpl; [|done].
  case_match; [apply build_entry_ok; auto|done].
Qed.

Lemma countPlusProduction_total st ty : ∃ c, countPlusProduction st ty = Ok c.
Proof.
  unfold countPlusProduction. cbn [countPlusProduction_rec].
  destruct (eqb_spec ty Zerg_Hatchery); [cbn; eauto|]. destruct (eqb_spec ty Zerg_Lair); [cbn; eauto|].
  destruct (eqb_spec ty Zerg_Spire); cbn; eauto.
Qed.

(** The types a task asks for directly. *)
Definition target_ok (t : Target) : Prop :=
  in_tree (tgt_type t) ∧ (tgt_type t = Zerg_Lurker → in_tree Zerg_Hydralisk).

Lemma default_targets_ok targets st q : Forall target_ok targets → request_ok q →
  ∃ q', rfold (λ q t, if tgt_n t =? -1 then Ok (build st (tgt_type t) q)
                      else let? r := buildN st (tgt_type t) (tgt_n t) q in Ok r.2) targets q = Ok q' ∧
    request_ok q'.
Proof.
  intros Ht. revert q. induction Ht as [|t l [Hin Hl] _ IH]; intros q Hq; [by exists q|]. cbn [rfold].
  case_match; cbn [rbind]; [by apply IH, build_ok|]. unfold buildN.
  destruct (countPlusProduction_total st (tgt_type t)) as [c ->]. cbn [rbind].
  case_match; cbn [rbind snd]; apply IH; [done|by apply build_ok].
Qed.

(** A build order over the tech tree always returns from a round of
    requests: the queue it stacks keeps the invariant, never goes back in time
    and leaves the state as it was when it could not build anything. *)
Theorem default_buildStep_queue targets st : Forall target_ok targets →
  ∃ q, default_buildStep targets st = Ok (st, q) ∧
    ∀ st0, well_formed st0 → ∃ ok st', q st0 = Ok (ok, st') ∧ well_formed st' ∧ frame st0 ≤ frame st' ∧
      (ok = false → st' = st0).
Proof.
  intros Ht. destruct (default_targets_ok targets st empty_queue Ht empty_queue_ok) as (q & E & Hq).
  exists q. unfold default_buildStep. rewrite E. done.
Qed.

(** A request for more of something is skipped exactly when there is enough
    of it, counting what is in production and the buildings it morphs into; a
    technology that is there or under way is never requested again. *)
Theorem buildN_spec cur ty n q :
  ∃ c, countPlusProduction cur ty = Ok c ∧
    buildN cur ty n q = Ok (bool_decide (n ≤ c), if decide (n ≤ c) then q else build cur ty q) ∧
    (isUnit ty = false → hasOrInProduction cur ty = true → build cur ty q = q).
Proof.
  destruct (countPlusProduction_total cur ty) as [c Ec]. exists c. split_and!; [done|..].
  - unfold buildN. rewrite Ec. cbn [rbind]. destruct (Z.leb_spec n c).
    + rewrite bool_decide_true, decide_True by done. done.
    + rewrite bool_decide_false, decide_False by lia. done.
  - intros Hu Hh. unfold build. by rewrite Hu, Hh.
Qed.
End tech_tree.

(** ** The simulation *)

(** What [simEvaluateFor] relies on of the virtual members. *)
Record code_ok (code : task_code) : Prop := {
  pre_ok st : well_formed st → well_formed (preBuild code st) ∧ frame (preBuild code st) = frame st;
  post_ok st : well_formed st → well_formed (postBuild code st) ∧ frame (postBuild code st) = frame st;
  step_ok st : well_formed st → ∃ st' q, buildStep code st = Ok (st', q) ∧
    well_formed st' ∧ frame st' = frame st ∧ request_ok q
}.

(** A round that builds something before the end. *)
Definition round (code : task_code) (endFrame : Z) (st st' : BuildState) : Prop :=
  frame st < endFrame ∧ run_queue code st = Ok (true, st').

Lemma run_queue_ok code st : code_ok code → well_formed st →
  ∃ ok st', run_queue code st = Ok (ok, st') ∧ well_formed st' ∧ frame st ≤ frame st' ∧
    (ok = false → frame st' = frame st).
Proof.
  intros Hc Hwf. destruct (step_ok code Hc st Hwf) as (st1 & q & E & Hw1 & F1 & Hq).
  destruct (Hq st1 Hw1) as (ok & st' & E' & ? & ? & Hff). exists ok, st'. unfold run_queue. rewrite E.
  cbn [rbind snd fst]. split_and!; [done|done|lia|]. intros Hf. rewrite (Hff Hf). done.
Qed.

(** The loop is either still building after all its rounds, or it ends: before
    the end with a state no request could change, or at or past the end with
    the state before the last request at hand. *)
Lemma sim_loop_ok rounds code st prev endFrame : code_ok code → well_formed st → well_formed prev →
  (frame st ≤ endFrame ∨ frame prev < endFrame) →
  (∃ st', nsteps (round code endFrame) rounds st st' ∧ frame st' < endFrame) ∨
  ∃ st1 st2, sim_loop rounds code st prev endFrame = Ok (st1, st2) ∧ well_formed st1 ∧ well_formed st2 ∧
    (frame st1 ≤ endFrame ∨ frame st2 < endFrame) ∧ frame st ≤ frame st1 ∧
    (st2 = prev ∧ st1 = st ∨ frame st ≤ frame st2).
Proof.
  intros Hc. revert st prev. induction rounds as [|n IH]; intros st prev Hwf Hwp Hend; cbn [sim_loop].
  all: destruct (Z.ltb_spec (frame st) endFrame) as [Hlt|];
    [|right; exists st, prev; split_and!; auto; lia].
  { left. exists st. split; [constructor|done]. }
  destruct (run_queue_ok code st Hc Hwf) as (ok & st' & E & Hw' & Hf & Hfail). rewrite E. cbn [rbind].
  destruct ok.
  - destruct (IH st' st Hw' Hwf ltac:(auto)) as [(st2 & Hn & Hl)|(st1 & st2 & E1 & ? & ? & ? & ? & Hp)].
    + left. exists st2. split; [|done]. econstructor; [by split|done].
    + right. exists st1, st2. split_and!; auto; [lia|]. right. destruct Hp as [[-> _]|]; lia.
  - right. exists st', st. rewrite (Hfail eq_refl). split_and!; auto; lia.
Qed.

(** C11 Simulating a build order for [frames] frames ends exactly [frames]
    frames later, in a state that satisfies the invariant, unless more than
    [rounds] requests succeeded before that. *)
Theorem simEvaluateFor_end rounds code st frames : code_ok code → well_formed st →
  0 ≤ frames ≤ Z.of_nat fuel →
  (∃ st', nsteps (round code (frame st + frames)) rounds (preBuild code st) st' ∧
     frame st' < frame st + frames) ∨
  ∃ st', simEvaluateFor rounds code st frames = Ok st' ∧ well_formed st' ∧ frame st' = frame st + frames.
Proof.
  intros Hc Hwf Hfr. destruct (pre_ok code Hc st Hwf) as [Hw0 F0].
  destruct (sim_loop_ok rounds code (preBuild code st) fresh (frame st + frames) Hc Hw0 fresh_wf)
    as [Hrun|(st1 & st2 & E & Hw1 & Hw2 & Hor & Hge & Hp)]; [lia|by left|right].
  unfold simEvaluateFor. rewrite E. cbn [rbind]. destruct (post_ok code Hc st1 Hw1) as [Hwp Fp].
  set (st3 := if _ <? frame (postBuild code st1) then st2 else _).
  assert (well_formed st3 ∧ frame st ≤ frame st3 ≤ frame st + frames) as [Hw3 F3].
  { unfold st3. destruct (Z.ltb_spec (frame st + frames) (frame (postBuild code st1))); split; [done| |done|lia].
    rewrite Fp in *. destruct Hor as [?|?]; [lia|]. destruct Hp as [[_ ->]|?]; lia. }
  destruct (Z.ltb_spec (frame st3) (frame st + frames)); [|exists st3; split_and!; [done|done|lia]].
  destruct (advance_ok fuel st3 (BE None Vec2.origin None) (frame st + frames) Hw3) as (o & st4 & -> & [A1 A2 A3 A4 A5 A6]);
    [done|done|lia|].
  exists st4. cbn [rbind snd]. split_and!; [done|done|]. by apply A2, A5.
Qed.
End with_fuel.
End with_table.

(** ** An example build order: one spawning pool *)

Definition example_targets : list Target := [Tgt Zerg_Spawning_Pool 1].
Definition example_fuel : nat := Z.to_nat 9000.

Lemma example_targets_ok : Forall (target_ok (table := example_table) 2 example_rank) example_targets.
Proof.
  constructor; [|constructor]. split; [|intros [=]].
  split; [split; [by exists Zerg_Drone|reflexivity]|vm_compute; lia].
Qed.

Definition example_code : task_code :=
  TaskCode id (default_buildStep (table := example_table) 2 example_fuel example_targets) id.

Lemma example_code_ok : code_ok example_code.
Proof.
  split; [done|done|]. intros st Hwf.
  destruct (default_targets_ok (table := example_table) 2 example_fuel example_rank example_tree ltac:(done)
    example_targets st empty_queue example_targets_ok empty_queue_ok) as (q & E & Hq).
  exists st, q. split_and!; try done. simpl. unfold default_buildStep. by rewrite E.
Qed.

Lemma default_buildStep_queue_witness :
  ∃ q, default_buildStep (table := example_table) 2 example_fuel example_targets example_state = Ok (example_state, q) ∧
    ∃ ok st', q example_state = Ok (ok, st') ∧ well_formed st'.
Proof.
  destruct (default_buildStep_queue (table := example_table) 2 example_fuel example_rank example_tree ltac:(done)
    example_targets example_state example_targets_ok) as (q & E & Hq).
  exists q. split; [exact E|]. destruct (Hq example_state example_state_wf) as (ok & st' & H1 & H2 & _).
  exists ok, st'. split; [exact H1|exact H2].
Defined.

Lemma nodelay_on_time_witness :
  nodelay (table := example_table) 2 example_fuel example_state (entry Zerg_Spawning_Pool) empty_queue =
    Ok (true, example_built).
Proof.
  destruct (nodelay_on_time (table := example_table) 2 example_fuel example_rank example_tree ltac:(done)
    example_state (entry Zerg_Spawning_Pool) Zerg_Spawning_Pool empty_queue example_built)
    as (_ & st' & E & _ & [(final & [E' _] & _)|[-> _]]).
  - apply example_state_wf.
  - reflexivity.
  - exact (proj1 (Forall_inv example_targets_ok)).
  - apply empty_queue_ok.
  - vm_compute. reflexivity.
  - discriminate E'.
  - exact E.
Defined.

Lemma buildN_spec_witness :
  (buildN (table := example_table) 2 1 example_state Zerg_Drone 1 empty_queue = Ok (true, empty_queue)).
Proof.
  destruct (buildN_spec (table := example_table) 2 1 example_state Zerg_Drone 1 empty_queue) as (c & Hc & H & _).
  vm_compute in Hc. injection Hc as <-. rewrite H. reflexivity.
Defined.

Lemma simEvaluateFor_end_witness :
  ∃ st', simEvaluateFor (table := example_table) example_fuel 2 example_code example_state 20 = Ok st' ∧ well_formed st' ∧ frame st' = 20.
Proof.
  destruct (simEvaluateFor_end (table := example_table) example_fuel 2 example_code example_state 20) as [(st' & Hn & _)|(st' & H1 & H2 & H3)].
  - apply example_code_ok.
  - apply example_state_wf.
  - vm_compute. split; discriminate.
  - exfalso. inversion Hn as [|? ? st1 ? [_ E1] Hn1]. subst.
    inversion Hn1 as [|? ? st2 ? [_ E2] _]. subst.
    assert (run_queue example_code example_state = Ok (true, example_built)) as E by (vm_compute; reflexivity).
    simpl in E1. unfold id in E1. rewrite E in E1. injection E1 as <-. vm_compute in E2. discriminate E2.
  - exists st'. split; [exact H1|]. split; [exact H2|exact H3].
Defined.

End AutoBuildTask.
