(* ===== verification/AutoBuildSchedule.v ===== *)
(** * Scheduling the build order ([src/modules/autobuild.cpp])

    How an [AutoBuildTask] keeps one UPC on the board per item of the build
    order that is due: [update], which drops what has been started, and the
    second half of [evaluate], which matches the scheduled UPCs with the new
    build order, posts UPCs for the items without one and cancels the rest.

    The identifiers and the targets are two parallel vectors, and every
    identifier is looked up in a hash map whose iterator is used unchecked: the
    invariant [plan_ok] makes this safe.  Drawing, logging and the figures for
    the gatherers are left out; a callback is the identity of a closure.

    [update] cancels tasks and removes UPCs while [Blackboard::update] runs it;
    [plan_update_respects] shows that it stays within what the theorems about the
    board allow a task's update to do. *)

From S2P Require Import Prelude Floats Geometry BuildTypes Units Upc UpcStorage UpcFilter Tasks BoardTasks.
From S2P Require Import Blackboard BlackboardUpcs BlackboardUpdate AutoBuild.

Module AutoBuildSchedule.
Import BuildType AutoBuild.

(** The members of a task that follow its UPCs.

    [src/src/modules/autobuild.h:122-124] AutoBuildTask *)
Record plan := Plan {
  targetUpcIds_ : list Z;
  targets_ : list (option Task.ref);
  scheduledUpcs : gmap Z (BuildEntry * float32)
}.

(** [targetUpcIds_.erase(begin() + i); targets_.erase(begin() + i);] *)
Definition erase_at (i : nat) (p : plan) : plan :=
  Plan (delete i (targetUpcIds_ p)) (delete i (targets_ p)) (scheduledUpcs p).
Definition unschedule (id : Z) (p : plan) : plan :=
  Plan (targetUpcIds_ p) (targets_ p) (delete id (scheduledUpcs p)).

(** ** [update] *)

(** What [update] changes: the board, the tasks, the plan, and the callbacks
    called so far. *)
Record ustate := US { u_board : Blackboard.t; u_heap : Task.heap; u_plan : plan; u_called : list Z }.

(** The first item of the unit's type.

    [src/src/modules/autobuild.cpp:991-999] AutoBuildTask::update *)
Fixpoint scan_unit (sched : gmap Z (BuildEntry * float32)) (utype : option BuildType) (ids : list Z) (i : nat)
    : res (option (nat * Z * BuildEntry)) :=
  match ids with
  | [] => Ok None
  | id :: ids =>
      let? e := of_option (sched !! id) in
      if bool_decide (be_type e.1 = utype) then Ok (Some (i, id, e.1)) else scan_unit sched utype ids (S i)
  end.

(** [src/src/modules/autobuild.cpp:990-1016] AutoBuildTask::update *)
Definition newUnit `{Task.Classes} (fuel : nat) (s : ustate) (u : Unit) : res ustate :=
  let utype := if eqb (Unit.type u) Zerg_Egg then Unit.constructingType u else Some (Unit.type u) in
  let p := u_plan s in
  let? o := scan_unit (scheduledUpcs p) utype (targetUpcIds_ p) 0 in
  match o with
  | None => Ok s
  | Some (i, id, e) =>
      let called := u_called s ++ option_list (builtCallback e) in
      let? target := of_option (targets_ p !! i) in
      let? bh := match target with
                 | Some r => Task.cancel fuel (u_board s) (u_heap s) r
                 | None => Ok (u_board s, u_heap s)
                 end in
      Ok (US bh.1 bh.2 (unschedule id (erase_at i p)) called)
  end.

(** [src/src/modules/autobuild.cpp:978-1034] AutoBuildTask::update *)
Definition plan_update `{Task.Classes} (fuel : nat) (s : ustate) (newUnits startedMorphing : list Unit) : res ustate :=
  let p := u_plan s in
  let? ts := Task.find_targets (u_board s) (targetUpcIds_ p) (targets_ p) in
  let s := US (u_board s) (u_heap s) (Plan (targetUpcIds_ p) ts (scheduledUpcs p)) (u_called s) in
  let? s := rfold (newUnit fuel) (List.filter Unit.isMine newUnits) s in
  rfold (newUnit fuel) (List.filter Unit.isMine startedMorphing) s.

(** ** [evaluate] *)

Fixpoint index_of (id : Z) (l : list Z) : option nat :=
  match l with
  | [] => None
  | x :: l => if x =? id then Some 0%nat else S <$> index_of id l
  end.

(** Takes back the UPCs nobody has consumed.

    [src/src/modules/autobuild.cpp:1122-1131] AutoBuildTask::evaluate *)
Definition drop_posted (mod_ : ModulePtr) (b : Blackboard.t) (p : plan) : res (Blackboard.t * plan) :=
  let? mine := Blackboard.upcsFrom b mod_ in
  rfold (λ '(b, p) v,
    match index_of v.1 (targetUpcIds_ p) with
    | Some i => Ok (Blackboard.consumeUPCs b [v.1], erase_at i p)
    | None => Ok (b, p)
    end) mine (b, p).

(** [src/src/modules/autobuild.cpp:1133-1145] AutoBuildTask::evaluate *)
Fixpoint drop_finished (h : Task.heap) (ids : list Z) (ts : list (option Task.ref))
    (sched : gmap Z (BuildEntry * float32)) : res plan :=
  match ids, ts with
  | [], ts => Ok (Plan [] ts sched)
  | id :: ids, [] => Undefined
  | id :: ids, o :: ts =>
      let? gone := match o with
                   | None => Ok true
                   | Some r => let? t := of_option (h !! r) in Ok (Task.finished t)
                   end in
      if (gone : bool) then drop_finished h ids ts (delete id sched)
      else
        let? p := drop_finished h ids ts sched in
        Ok (Plan (id :: targetUpcIds_ p) (o :: targets_ p) (scheduledUpcs p))
  end.

Section schedule.
(** The frame, the module and the UPC of the task. *)
Context (frame : Z) (mod_ : ModulePtr) (own : Z).

(** What the loop over the build order changes. *)
Record sstate := SS {
  s_board : Blackboard.t;
  s_sched : gmap Z (BuildEntry * float32);
  upcMatched : gset Z;
  newUpcs : list Z;
  priority : float32
}.

(** [src/src/modules/autobuild.cpp:1149-1157] AutoBuildTask::evaluate *)
Definition sendPriority (b : Blackboard.t) (id : Z) (prio : float32) : res Blackboard.t :=
  let upc := Upc.UPCTuple [] Upc.PEmpty [(Command.SetCreatePriority, f32_1)] (Upc.SSetCreatePriority id prio) 1 in
  let? r := Blackboard.postUPC b frame upc own mod_ None in
  Ok r.1.

(** [src/src/modules/autobuild.cpp:1174-1184] AutoBuildTask::evaluate *)
Fixpoint find_match (sched : gmap Z (BuildEntry * float32)) (matched : gset Z) (thing : BuildEntry) (ids : list Z)
    : res (option (Z * (BuildEntry * float32))) :=
  match ids with
  | [] => Ok None
  | id :: ids =>
      let? e := of_option (sched !! id) in
      if entry_eqb e.1 thing && bool_decide (id ∉ matched) then Ok (Some (id, e))
      else find_match sched matched thing ids
  end.

(** [src/src/modules/autobuild.cpp:1190-1197] AutoBuildTask::evaluate *)
Definition create_upc (thing : BuildEntry) : Upc.t :=
  let pos := be_pos thing in
  Upc.UPCTuple []
    (if Vec2.neqb pos Vec2.kInvalidPosition && Vec2.neqb pos Vec2.origin then Upc.PPosition pos else Upc.PEmpty)
    [(Command.Create, f32_1)] (Upc.SBuildTypeMap [(be_type thing, f32_1)]) 1.

(** [src/src/modules/autobuild.cpp:1167-1207] AutoBuildTask::evaluate *)
Definition schedule_item (ids : list Z) (s : sstate) (thing : BuildEntry) : res sstate :=
  let prio := f32_add (priority s) f32_1 in
  let? m := find_match (s_sched s) (upcMatched s) thing ids in
  match m with
  | Some (id, e) =>
      let matched := upcMatched s ∪ {[id]} in
      if negb (feqb e.2 prio) then
        let? b := sendPriority (s_board s) id prio in
        Ok (SS b (<[id := (e.1, prio)]> (s_sched s)) matched (newUpcs s) prio)
      else Ok (SS (s_board s) (s_sched s) matched (newUpcs s) prio)
  | None =>
      let? r := Blackboard.postUPC (s_board s) frame (create_upc thing) own mod_ None in
      let '(b, id) := r in
      if id =? kFilteredUpcId then Ok (SS b (s_sched s) (upcMatched s) (newUpcs s) prio)
      else
        let? b := sendPriority b id prio in
        Ok (SS b (<[id := (thing, prio)]> (s_sched s)) (upcMatched s) (newUpcs s ++ [id]) prio)
  end.

(** The items before the break.

    [src/src/modules/autobuild.cpp:1163-1166] AutoBuildTask::evaluate *)
Fixpoint due (order : list (Z * BuildEntry)) : list BuildEntry :=
  match order with
  | [] => []
  | (f, thing) :: order => if frame + 15 * 30 <=? f then [] else thing :: due order
  end.

(** [src/src/modules/autobuild.cpp:1210-1226] AutoBuildTask::evaluate *)
Fixpoint cancel_unmatched `{Task.Classes} (fuel : nat) (b : Blackboard.t) (h : Task.heap) (matched : gset Z)
    (ids : list Z) (ts : list (option Task.ref)) (sched : gmap Z (BuildEntry * float32))
    : res (Blackboard.t * Task.heap * plan) :=
  match ids, ts with
  | [], ts => Ok (b, h, Plan [] ts sched)
  | id :: ids, [] => Undefined
  | id :: ids, o :: ts =>
      if decide (id ∈ matched) then
        let? r := cancel_unmatched fuel b h matched ids ts sched in
        let '(b, h, p) := r in
        Ok (b, h, Plan (id :: targetUpcIds_ p) (o :: targets_ p) (scheduledUpcs p))
      else
        let? bh := match o with Some r => Task.cancel fuel b h r | None => Ok (b, h) end in
        cancel_unmatched fuel bh.1 bh.2 matched ids ts (delete id sched)
  end.

(** [src/src/modules/autobuild.cpp:1121-1231] AutoBuildTask::evaluate *)
Definition reschedule `{Task.Classes} (fuel : nat) (b : Blackboard.t) (h : Task.heap) (p : plan) (order : list (Z * BuildEntry))
    : res (Blackboard.t * Task.heap * plan) :=
  let? bp := drop_posted mod_ b p in
  let '(b, p) := bp in
  let? p := drop_finished h (targetUpcIds_ p) (targets_ p) (scheduledUpcs p) in
  let? s := rfold (schedule_item (targetUpcIds_ p)) (due order) (SS b (scheduledUpcs p) ∅ [] f32_0) in
  let? r := cancel_unmatched fuel (s_board s) h (upcMatched s) (targetUpcIds_ p) (targets_ p) (s_sched s) in
  let '(b, h, p) := r in
  Ok (b, h, Plan (targetUpcIds_ p ++ newUpcs s) (targets_ p ++ replicate (length (newUpcs s)) None) (scheduledUpcs p)).
End schedule.

(** ** Invariant *)

(** The vectors are parallel and every identifier is scheduled once, under an
    identifier the storage has given out. *)
Record plan_ok (b : Blackboard.t) (p : plan) : Prop := {
  po_len : length (targets_ p) = length (targetUpcIds_ p);
  po_nodup : NoDup (targetUpcIds_ p);
  po_sched id : id ∈ targetUpcIds_ p → is_Some (scheduledUpcs p !! id);
  po_known id : id ∈ targetUpcIds_ p → id ≤ UpcStorage.size (Blackboard.upcStorage_ b)
}.

(** The board and the tasks around it. *)
Record world_ok (rank : Task.ref → nat) (fuel : nat) (b : Blackboard.t) (h : Task.heap) : Prop := {
  w_board : BlackboardUpcs.wf b;
  w_tasks : BoardTasks.wf h (Blackboard.tasks b);
  w_acyclic : Task.acyclic rank h;
  w_fuel r : is_Some (h !! r) → (rank r < fuel)%nat
}.

Lemma elem_of_delete_index {A} (l : list A) i x y : NoDup l → l !! i = Some x →
  y ∈ delete i l ↔ y ∈ l ∧ y ≠ x.
Proof.
  intros Hn. revert i. induction Hn as [|z l Hz Hn IH]; intros [|i]; csimpl; intros Hi; try done.
  - simplify_eq. rewrite elem_of_cons. split; [intros H; split; [by right|by intros ->]|naive_solver].
  - rewrite !elem_of_cons, (IH i Hi). apply list_elem_of_lookup_2 in Hi. split; [|naive_solver].
    intros [->|[? ?]]; [split; [by left|by intros ->]|naive_solver].
Qed.

Lemma NoDup_delete {A} (l : list A) i : NoDup l → NoDup (delete i l).
Proof. intros Hn. eapply sublist_NoDup; [exact Hn|]. apply sublist_delete. Qed.

Lemma erase_at_ok b p i id : plan_ok b p → targetUpcIds_ p !! i = Some id →
  plan_ok b (erase_at i p) ∧ plan_ok b (unschedule id (erase_at i p)).
Proof.
  intros [Hl Hn Hs Hk] Hi. assert (is_Some (targets_ p !! i)) as [o Ho].
  { apply lookup_lt_is_Some. rewrite Hl. by eapply lookup_lt_Some. }
  assert (∀ x, x ∈ delete i (targetUpcIds_ p) → x ∈ targetUpcIds_ p ∧ x ≠ id) as He.
  { intros x. by apply elem_of_delete_index. }
  assert (length (delete i (targets_ p)) = length (delete i (targetUpcIds_ p))) as Hlen.
  { rewrite !length_delete by eauto. lia. }
  split; (split; simpl; [exact Hlen|by apply NoDup_delete|..]).
  - intros x [? _]%He. auto.
  - intros x [? _]%He. auto.
  - intros x [? ?]%He. rewrite lookup_delete_ne by done. auto.
  - intros x [? _]%He. auto.
Qed.

Lemma live_delete h i ts : Task.live h ts → Task.live h (delete i ts).
Proof. intros Hl r Hr%list_elem_of_delete_inv. by apply Hl. Qed.

Lemma plan_ok_storage b b' p : plan_ok b p →
  UpcStorage.size (Blackboard.upcStorage_ b) ≤ UpcStorage.size (Blackboard.upcStorage_ b') → plan_ok b' p.
Proof. intros [Hl Hn Hs Hk] Hle. split; try done. intros id Hid%Hk. lia. Qed.

(** Cancelling a task that exists succeeds and keeps the world. *)
Lemma cancel_world `{Task.Classes} rank fuel b h r : world_ok rank fuel b h → is_Some (h !! r) →
  ∃ b' h', Task.cancel fuel b h r = Ok (b', h') ∧ world_ok rank fuel b' h' ∧
    (∀ ts, Task.live h ts → Task.live h' ts) ∧ Blackboard.upcStorage_ b' = Blackboard.upcStorage_ b.
Proof.
  intros [Hb Ht Ha Hf] Hr. destruct (Task.cancel_ok_fuel rank fuel b h r Ha Hr (Hf r Hr)) as (b' & h' & E & C).
  pose proof (Task.cancelled_skel _ _ _ C) as Hsk.
  destruct (BlackboardUpdate.cancel_keeps_board fuel h b r h' b' Hb Ht E) as (Hb' & Ht' & _ & Es & _).
  assert (∀ x, is_Some (h !! x) ↔ is_Some (h' !! x)) as Hdom.
  { intros x. split; intros [t Hx].
    - destruct (Task.same_skel_lookup _ _ _ _ Hsk Hx) as (? & ? & _). eauto.
    - symmetry in Hsk. destruct (Task.same_skel_lookup _ _ _ _ Hsk Hx) as (? & ? & _). eauto. }
  exists b', h'. split_and!; [done| |intros ts Hl x Hx; by apply Hdom, Hl|done].
  split; [done|done|by eapply Task.acyclic_skel|intros x Hx; by apply Hf, Hdom].
Qed.

(** ** [update] keeps the plan *)

Definition ustate_ok (rank : Task.ref → nat) (fuel : nat) (s : ustate) : Prop :=
  world_ok rank fuel (u_board s) (u_heap s) ∧ plan_ok (u_board s) (u_plan s) ∧
  Task.live (u_heap s) (targets_ (u_plan s)).

Lemma scan_unit_ok sched ut ids k : (∀ id, id ∈ ids → is_Some (sched !! id)) →
  ∃ o, scan_unit sched ut ids k = Ok o ∧
    match o with
    | Some (i, id, e) => (k ≤ i)%nat ∧ ids !! (i - k)%nat = Some id ∧ be_type e = ut
    | None => True
    end.
Proof.
  revert k. induction ids as [|id ids IH]; intros k Hs; cbn [scan_unit]; [by exists None|].
  destruct (Hs id) as [e ->]; [by left|]. cbn [of_option rbind]. case_bool_decide.
  - eexists. split; [done|]. simpl. rewrite Nat.sub_diag. done.
  - destruct (IH (S k)) as (o & -> & Ho); [intros x Hx; apply Hs; by right|]. exists o. split; [done|].
    destruct o as [[[i x] e0]|]; [|done]. destruct Ho as (? & ? & ?). split_and!; [lia| |done].
    replace (i - k)%nat with (S (i - S k)) by lia. done.
Qed.

Lemma newUnit_ok `{Task.Classes} rank fuel s u : ustate_ok rank fuel s → ∃ s', newUnit fuel s u = Ok s' ∧ ustate_ok rank fuel s'.
Proof.
  intros (Hw & Hp & Hl). unfold newUnit. set (ut := if eqb _ _ then _ else _).
  destruct (scan_unit_ok (scheduledUpcs (u_plan s)) ut (targetUpcIds_ (u_plan s)) 0) as (o & -> & Ho);
    [apply Hp|]. cbn [rbind]. destruct o as [[[i id] e]|]; [|by exists s].
  destruct Ho as (_ & Hi & _). rewrite Nat.sub_0_r in Hi.
  assert (is_Some (targets_ (u_plan s) !! i)) as [o Eo].
  { apply lookup_lt_is_Some. rewrite (po_len _ _ Hp). by eapply lookup_lt_Some. }
  rewrite Eo. cbn [of_option rbind]. destruct (erase_at_ok _ _ _ _ Hp Hi) as [_ Hp'].
  destruct o as [r|].
  - destruct (cancel_world rank fuel (u_board s) (u_heap s) r Hw) as (b' & h' & -> & Hw' & Hl' & Es).
    { apply Hl. by eapply list_elem_of_lookup_2. }
    cbn [rbind]. eexists. split; [done|]. split_and!; simpl; [done| |by apply Hl', live_delete].
    eapply plan_ok_storage; [exact Hp'|]. by rewrite Es.
  - cbn [rbind]. eexists. split; [done|]. split_and!; simpl; [done|done|by apply live_delete].
Qed.

Lemma newUnits_ok `{Task.Classes} rank fuel us s : ustate_ok rank fuel s →
  ∃ s', rfold (newUnit fuel) us s = Ok s' ∧ ustate_ok rank fuel s'.
Proof. intros Hs. apply rfold_total; [|done]. intros acc u _. apply newUnit_ok. Qed.

Lemma plan_targets_ok rank fuel b h ids ts : world_ok rank fuel b h → length ts = length ids → Task.live h ts →
  ∃ ts', Task.find_targets b ids ts = Ok ts' ∧ length ts' = length ids ∧ Task.live h ts'.
Proof.
  intros Hw. revert ts. induction ids as [|id ids IH]; intros [|o ts] Hlen Hl; simplify_eq/=; [by exists []|].
  assert (Task.live h ts) as Hl' by (intros r Hr; apply Hl; by right).
  assert (∃ o', match o with Some r => Ok (Some r) | None => BoardTasks.taskForId (Blackboard.tasks b) id end = Ok o' ∧
    ∀ r, o' = Some r → is_Some (h !! r)) as (o' & -> & Ho).
  { destruct o as [r|]; [exists (Some r); split; [done|]; intros ? [= <-]; apply Hl; by left|].
    unfold BoardTasks.taskForId, BoardTasks.deref.
    destruct (al_find id (BoardTasks.tasksById_ (Blackboard.tasks b))) as [it|] eqn:E; [|by exists None].
    destruct (BoardTasks.wf_byId _ _ (w_tasks _ _ _ _ Hw) _ _ E) as (td & r & tk & -> & Er & Hr & _).
    cbn [of_option rbind]. exists (BoardTasks.task td). split; [done|]. intros r0 Er0. simplify_eq. eauto. }
  cbn [rbind]. destruct (IH ts Hlen Hl') as (ts' & -> & Hlen' & Hl2). cbn [rbind].
  exists (o' :: ts'). split_and!; [done|simpl; lia|]. intros r [E|Hr]%elem_of_cons; [by apply Ho|by apply Hl2].
Qed.

(** [AutoBuildTask::update] is safe: no iterator into the scheduled UPCs and
    no index of the targets is ever invalid, and the plan stays consistent. *)
Theorem plan_update_ok `{Task.Classes} rank fuel s newUnits startedMorphing : ustate_ok rank fuel s →
  ∃ s', plan_update fuel s newUnits startedMorphing = Ok s' ∧ ustate_ok rank fuel s'.
Proof.
  intros (Hw & Hp & Hl). unfold plan_update.
  destruct (plan_targets_ok rank fuel (u_board s) (u_heap s) (targetUpcIds_ (u_plan s)) (targets_ (u_plan s)) Hw)
    as (ts & -> & Hlen & Hl'); [apply Hp|done|]. cbn [rbind].
  set (s1 := US _ _ _ _). assert (ustate_ok rank fuel s1) as Hs1.
  { destruct Hp. by split_and!. }
  destruct (newUnits_ok rank fuel (List.filter Unit.isMine newUnits) s1 Hs1) as (s2 & -> & Hs2). cbn [rbind].
  by apply newUnits_ok.
Qed.

Lemma respects_same hi fuel h b r : BlackboardUpdate.ready hi fuel h b → BlackboardUpdate.respects h b r h b.
Proof.
  intros [Hb Ht Hh Hf]. split; try done.
  - apply BoardTasks.keeps_ids_refl.
  - by destruct (Blackboard.tasks b).
  - by left.
  - intros r' tk _ Hr. exists tk. auto.
Qed.

Lemma found_live h b ids ts ts' : BoardTasks.wf h (Blackboard.tasks b) → Task.live h ts →
  Task.find_targets b ids ts = Ok ts' → Task.live h ts'.
Proof.
  intros Hwf. revert ts ts'. induction ids as [|id ids IH]; intros [|o ts] ts' Hl; cbn [Task.find_targets];
    [by intros [= <-]..|done|].
  intros (o' & Ho & E)%rbind_Ok_inv. apply rbind_Ok_inv in E as (ts2 & E2 & [= <-]).
  assert (Task.live h ts2) as Hl2 by (eapply IH; [|exact E2]; intros r Hr; apply Hl; by right).
  intros r [<-|Hr]%elem_of_cons; [|by apply Hl2]. destruct o as [r0|]; [injection Ho as <-; apply Hl; by left|].
  destruct (BlackboardUpdate.taskForId_ok h b id Hwf) as (o2 & E3 & H3). cbn in Ho. rewrite E3 in Ho. injection Ho as ->.
  destruct (H3 r eq_refl) as (tk & ? & _). eauto.
Qed.

(** What the board's update allows a task on its turn: cancelling others. *)
Lemma newUnit_respects `{Task.Classes} hi fuel r s u s' : BlackboardUpdate.ready hi fuel (u_heap s) (u_board s) →
  Task.live (u_heap s) (targets_ (u_plan s)) → newUnit fuel s u = Ok s' →
  BlackboardUpdate.respects (u_heap s) (u_board s) r (u_heap s') (u_board s') ∧
  Task.live (u_heap s') (targets_ (u_plan s')).
Proof.
  intros Hready Hl. unfold newUnit. intros (o & _ & E)%rbind_Ok_inv.
  destruct o as [[[i id] e]|]; [|injection E as <-; split; [by eapply respects_same|done]].
  apply rbind_Ok_inv in E as (o & Ho%of_option_Ok & E). destruct o as [r0|].
  - apply rbind_Ok_inv in E as ([b' h'] & E & [= <-]). cbn.
    destruct (BlackboardUpdate.cancel_respects hi fuel (u_heap s) (u_board s) r r0 Hready) as (b2 & h2 & E2 & Hrs).
    { apply Hl. by eapply list_elem_of_lookup_2. }
    rewrite E in E2. injection E2 as <- <-. split; [done|]. intros r1 Hr1%list_elem_of_delete_inv.
    destruct (Hl r1 Hr1) as [tk Htk]. destruct (BlackboardUpdate.rs_ids _ _ _ _ _ Hrs _ _ Htk) as (? & ? & _). eauto.
  - injection E as <-. cbn. split; [by eapply respects_same|by apply live_delete].
Qed.

(** [AutoBuildTask::update] is an update as [Blackboard::update] expects one. *)
Theorem plan_update_respects `{Task.Classes} hi fuel r s newUnits startedMorphing s' :
  BlackboardUpdate.ready hi fuel (u_heap s) (u_board s) → Task.live (u_heap s) (targets_ (u_plan s)) →
  plan_update fuel s newUnits startedMorphing = Ok s' →
  BlackboardUpdate.respects (u_heap s) (u_board s) r (u_heap s') (u_board s').
Proof.
  intros Hready Hl. unfold plan_update. intros (ts & Hts & E)%rbind_Ok_inv. apply rbind_Ok_inv in E as (s1 & E1 & E2).
  assert (Task.live (u_heap s) ts) as Hl1 by (by eapply found_live; [apply Hready|exact Hl|exact Hts]).
  set (I := λ s1, BlackboardUpdate.respects (u_heap s) (u_board s) r (u_heap s1) (u_board s1) ∧
    Task.live (u_heap s1) (targets_ (u_plan s1))).
  assert (∀ us s1 s2, I s1 → rfold (newUnit fuel) us s1 = Ok s2 → I s2) as Hloop.
  { intros us s2 s3 H2 H3. apply (rfold_inv I) in H3; [done| |done]. intros s4 u s5 _ [H4 Hl4] H5.
    destruct (newUnit_respects hi fuel r s4 u s5) as [Hr5 Hl5]; [by eapply BlackboardUpdate.respects_ready|done|done|].
    split; [by eapply BlackboardUpdate.respects_trans|done]. }
  eapply (Hloop _ s1 s'); [|exact E2]. eapply Hloop; [|exact E1]. split; [by eapply respects_same|exact Hl1].
Qed.

(** ** Dropping what is obsolete *)

Lemma index_of_lookup id l i : index_of id l = Some i → l !! i = Some id.
Proof.
  revert i. induction l as [|x l IH]; intros i; cbn [index_of]; [done|].
  destruct (Z.eqb_spec x id) as [->|]; [by intros [= <-]|].
  destruct (index_of id l) as [j|]; simpl; [|done]. intros [= <-]. simpl. by apply IH.
Qed.

(** A board that differs in the UPCs on it only. *)
Definition same_but_upcs (b b' : Blackboard.t) : Prop :=
  Blackboard.tasks b' = Blackboard.tasks b ∧ Blackboard.upcStorage_ b' = Blackboard.upcStorage_ b.

Lemma drop_posted_ok rank fuel mod_ b h p : world_ok rank fuel b h → plan_ok b p → Task.live h (targets_ p) →
  ∃ b' p', drop_posted mod_ b p = Ok (b', p') ∧ world_ok rank fuel b' h ∧ plan_ok b' p' ∧
    Task.live h (targets_ p') ∧ same_but_upcs b b'.
Proof.
  intros Hw Hp Hl. unfold drop_posted, Blackboard.upcsFrom, Blackboard.select.
  rewrite BlackboardUpcs.selectUpcs_filter by done. cbn [rbind].
  set (I := λ bp : Blackboard.t * plan, world_ok rank fuel bp.1 h ∧ plan_ok bp.1 bp.2 ∧
    Task.live h (targets_ bp.2) ∧ same_but_upcs b bp.1).
  match goal with |- context [rfold ?f ?l ?a] => destruct (rfold_total I f l a) as ([b' p'] & -> & H) end;
    [|by split_and!|exists b', p'; split; [done|exact H]].
  intros [b1 p1] v _ (H1 & H2 & H3 & H4). destruct (index_of v.1 (targetUpcIds_ p1)) as [i|] eqn:E;
    [|eexists; split; [done|]; by split_and!].
  eexists. split; [done|]. apply index_of_lookup in E. destruct (erase_at_ok _ _ _ _ H2 E) as [H2' _].
  split_and!; simpl; [|by eapply plan_ok_storage|by apply live_delete|done].
  destruct H1 as [Hb Ht Ha Hf]. split; [by apply BlackboardUpcs.consumeUPCs_wf|done|done|done].
Qed.

Lemma drop_finished_ok b h ids ts sched : plan_ok b (Plan ids ts sched) → Task.live h ts →
  ∃ p', drop_finished h ids ts sched = Ok p' ∧ plan_ok b p' ∧ Task.live h (targets_ p') ∧
    (∀ id, id ∈ targetUpcIds_ p' → id ∈ ids) ∧ (∀ id, id ∉ ids → scheduledUpcs p' !! id = sched !! id).
Proof.
  revert ts sched. induction ids as [|id ids IH]; intros ts sched [Hlen Hn Hs Hk] Hl; simpl in *.
  { destruct ts; [|done]. eexists. split; [done|]. by split_and!. }
  destruct ts as [|o ts]; [done|]. simpl in Hlen. apply NoDup_cons in Hn as [Hid Hn].
  assert (∃ g : bool, match o with None => Ok true | Some r => let? t := of_option (h !! r) in Ok (Task.finished t) end = Ok g)
    as [g ->].
  { destruct o as [r|]; [|eauto]. destruct (Hl r) as [t ->]; [by left|]. simpl. eauto. }
  assert (Task.live h ts) as Hl' by (intros r Hr; apply Hl; by right).
  cbn [rbind]. destruct g.
  - destruct (IH ts (delete id sched)) as (p' & -> & Hp' & Hl2 & Hsub & Hsame); [|done|].
    + split; simpl; [lia|done|..]; intros x Hx; [|apply Hk; by right].
      rewrite lookup_delete_ne by (intros ->; done). apply Hs. by right.
    + exists p'. split_and!; [done..| |]; intros x Hx; [right; auto|].
      apply not_elem_of_cons in Hx as [? ?]. rewrite Hsame, lookup_delete_ne by done. done.
  - destruct (IH ts sched) as (p' & -> & [Hlen' Hn' Hs' Hk'] & Hl2 & Hsub & Hsame); [|done|].
    + split; simpl; [lia|done|..]; intros x Hx; [apply Hs|apply Hk]; by right.
    + cbn [rbind]. eexists. split; [done|]. split_and!; simpl.
      * split; simpl; [lia|apply NoDup_cons; split; [by intros ?%Hsub|done]|..].
        -- intros x [->|Hx]%elem_of_cons; [|auto].
           rewrite Hsame by done. apply Hs. by left.
        -- intros x [->|Hx]%elem_of_cons; [apply Hk; by left|auto].
      * intros r [E|Hr]%elem_of_cons; [apply Hl; rewrite E; by left|by apply Hl2].
      * intros x [->|Hx]%elem_of_cons; [by left|right; auto].
      * intros x [_ Hx]%not_elem_of_cons. auto.
Qed.

(** ** Posting what is due *)

Section properties.
Context (frame : Z) (mod_ : ModulePtr) (own : Z).

(** The filters accept a request to create something. *)
Lemma create_accepted b fs thing :
  ∃ u, Blackboard.run_filters b fs (create_upc thing) mod_ = Ok (true, u).
Proof.
  set (Q := λ u, Upc.unit u = [] ∧ Upc.command u = [(Command.Create, f32_1)] ∧
    match Upc.position u with Upc.PEmpty | Upc.PPosition _ => True | _ => False end ∧
    match Upc.state u with
    | Upc.SEmpty => True | Upc.SBuildTypeMap m => ∃ t, m = [(t, f32_1)] | _ => False end).
  assert (∀ f u, Q u → ∃ u', Blackboard.run_filter b f u mod_ = Ok (true, u') ∧ Q u') as Hf.
  { intros [a|a] [un po co st sc] (H1 & H2 & H3 & H4); simpl in *; subst.
    - eexists. split; [reflexivity|]. by split_and!.
    - unfold SanityFilter.filter. simpl.
      destruct po; try done; (destruct st; try done; [|destruct H4 as [[t|] ->]]);
        (eexists; split; [vm_compute; reflexivity|]); split_and!; try done; by eexists. }
  assert (Q (create_upc thing)) as HQ.
  { unfold create_upc. split_and!; simpl; [done|done| |by eexists]. by destruct (Vec2.neqb _ _ && _). }
  revert HQ. generalize (create_upc thing). induction fs as [|f fs IH]; intros u Hu; cbn [Blackboard.run_filters]; [eauto|].
  destruct (Hf f u Hu) as (u' & -> & Hu'). cbn [rbind]. by apply IH.
Qed.

Abbreviation bsize b := (UpcStorage.size (Blackboard.upcStorage_ b)).

(** What the scheduling loop needs of the board. *)
Definition board_ok (h : Task.heap) (b : Blackboard.t) : Prop :=
  BlackboardUpcs.wf b ∧ BoardTasks.wf h (Blackboard.tasks b) ∧ own ≤ bsize b.

Lemma post_accepted h b u u' : board_ok h b →
  Blackboard.run_filters b (Blackboard.upcFilters_ b) u mod_ = Ok (true, u') →
  ∃ b', Blackboard.postUPC b frame u own mod_ None = Ok (b', bsize b + 1) ∧ board_ok h b' ∧
    bsize b' = bsize b + 1 ∧ Blackboard.tasks b' = Blackboard.tasks b.
Proof.
  intros (Hb & Ht & Ho) E.
  assert (∃ b', Blackboard.postUPC b frame u own mod_ None = Ok (b', bsize b + 1) ∧
    Blackboard.tasks b' = Blackboard.tasks b ∧ bsize b' = bsize b + 1) as (b' & Ep & Et & Es).
  { unfold Blackboard.postUPC. rewrite E. cbn [rbind].
    pose proof (UpcStorage.size_addUpc (Blackboard.upcStorage_ b) frame own mod_ (Some u') None) as Hsz.
    destruct (UpcStorage.addUpc _ _ _ _ _ _) as [st id] eqn:Ea. simpl in Hsz.
    assert (id = bsize b + 1) as -> by (unfold UpcStorage.addUpc in Ea; congruence).
    eexists. split; [done|]. done. }
  exists b'. split; [done|]. split; [|done]. unfold board_ok. rewrite Et, Es.
  split_and!; [by eapply BlackboardUpcs.postUPC_keeps|done|lia].
Qed.

Lemma sendPriority_ok h b id prio : board_ok h b →
  ∃ b', sendPriority frame mod_ own b id prio = Ok b' ∧ board_ok h b' ∧ bsize b ≤ bsize b' ∧
    Blackboard.tasks b' = Blackboard.tasks b.
Proof.
  intros Hok. unfold sendPriority. set (u := Upc.UPCTuple _ _ _ _ _).
  destruct (BlackboardUpcs.run_filters_total h b (Blackboard.upcFilters_ b) u mod_) as [[v u'] E]; [apply Hok|].
  destruct v.
  - destruct (post_accepted h b u u' Hok E) as (b' & -> & ? & ? & ?). cbn [rbind fst].
    exists b'. split_and!; [done|done|lia|done].
  - unfold Blackboard.postUPC. rewrite E. cbn [rbind fst]. exists b. split_and!; [done|done|lia|done].
Qed.

Lemma find_match_ok sched matched thing ids : (∀ id, id ∈ ids → is_Some (sched !! id)) →
  ∃ o, find_match sched matched thing ids = Ok o ∧
    match o with
    | Some (id, e) => id ∈ ids ∧ (id ∉ matched) ∧ sched !! id = Some e ∧ entry_eqb e.1 thing = true
    | None => True
    end.
Proof.
  induction ids as [|id ids IH]; intros Hs; cbn [find_match]; [by exists None|].
  destruct (Hs id) as [e He]; [by left|]. rewrite He. cbn [of_option rbind].
  destruct (entry_eqb e.1 thing && bool_decide (id ∉ matched)) eqn:E.
  - apply andb_true_iff in E as [E1 E2%bool_decide_eq_true]. eexists. split; [done|]. split_and!; [by left|done..].
  - destruct IH as (o & -> & Ho); [intros x Hx; apply Hs; by right|]. exists o. split; [done|].
    destruct o as [[x e0]|]; [|done]. destruct Ho as (? & ?). split; [by right|done].
Qed.

Lemma entry_eqb_refl e : entry_eqb e e = true.
Proof.
  unfold entry_eqb, Vec2.eqb. rewrite bool_decide_true by done. by rewrite !Z.eqb_refl.
Qed.

(** The priority of the item at position [i]: [i + 1], counted in [float]. *)
Fixpoint prio_at (i : nat) : float32 :=
  match i with O => f32_add f32_0 f32_1 | S i => f32_add (prio_at i) f32_1 end.

(** The item [thing] is scheduled under [id] with the priority of place [i]. *)
Definition scheduled_as (sched : gmap Z (BuildEntry * float32)) (i : nat) (thing : BuildEntry) (id : Z) : Prop :=
  ∃ e, sched !! id = Some e ∧ entry_eqb e.1 thing = true ∧ (e.2 = prio_at i ∨ feqb e.2 (prio_at i) = true).

(** The loop after the items [done_] have been scheduled under [chosen]. *)
Record sched_inv (h : Task.heap) (ids : list Z) (b0 : Blackboard.t) (done_ : list BuildEntry) (chosen : list Z)
    (s : sstate) : Prop := {
  si_board : board_ok h (s_board s);
  si_tasks : Blackboard.tasks (s_board s) = Blackboard.tasks b0;
  si_size : bsize b0 ≤ bsize (s_board s);
  si_prio : priority s = match done_ with [] => f32_0 | _ => prio_at (length done_ - 1) end;
  si_items : Forall2 (λ it id, scheduled_as (s_sched s) it.1 it.2 id) (imap pair done_) chosen;
  si_nodup : NoDup chosen;
  si_chosen id : id ∈ chosen ↔ id ∈ upcMatched s ∨ id ∈ newUpcs s;
  si_matched id : id ∈ upcMatched s → id ∈ ids;
  si_new id : id ∈ newUpcs s → bsize b0 < id ≤ bsize (s_board s);
  si_newdup : NoDup (newUpcs s);
  si_dom id : id ∈ ids → is_Some (s_sched s !! id)
}.

Lemma scheduled_as_insert sched i thing id x e : x ≠ id → scheduled_as sched i thing id →
  scheduled_as (<[x := e]> sched) i thing id.
Proof. intros Hne (e0 & H1 & H2). exists e0. by rewrite lookup_insert_ne. Qed.

Lemma items_insert sched (items : list (nat * BuildEntry)) chosen x e : x ∉ chosen →
  Forall2 (λ it id, scheduled_as sched it.1 it.2 id) items chosen →
  Forall2 (λ it id, scheduled_as (<[x := e]> sched) it.1 it.2 id) items chosen.
Proof.
  intros Hx H. induction H as [|it id items chosen H1 _ IH]; [constructor|].
  apply not_elem_of_cons in Hx as [? ?]. constructor; [by apply scheduled_as_insert|by apply IH].
Qed.

Lemma prio_step h ids b0 done_ chosen s : sched_inv h ids b0 done_ chosen s →
  f32_add (priority s) f32_1 = prio_at (length done_).
Proof.
  intros Hi. rewrite (si_prio _ _ _ _ _ _ Hi). destruct done_ as [|x l]; [done|]. simpl. by rewrite Nat.sub_0_r.
Qed.

(** An item that a scheduled UPC matches keeps it and gets its new priority. *)
Lemma step_matched h ids b0 done_ chosen s thing id e : sched_inv h ids b0 done_ chosen s →
  (∀ x, x ∈ ids → x ≤ bsize b0) →
  id ∈ ids → id ∉ upcMatched s → s_sched s !! id = Some e → entry_eqb e.1 thing = true →
  ∀ b e', board_ok h b → bsize (s_board s) ≤ bsize b → Blackboard.tasks b = Blackboard.tasks (s_board s) →
    e'.1 = e.1 → e'.2 = prio_at (length done_) ∨ feqb e'.2 (prio_at (length done_)) = true →
    sched_inv h ids b0 (done_ ++ [thing]) (chosen ++ [id])
      (SS b (<[id := e']> (s_sched s)) (upcMatched s ∪ {[id]}) (newUpcs s) (prio_at (length done_))).
Proof.
  intros [I1 I2 I3 I4 I5 I6 I7 I8 I9 I10 I11] Hids Hid Hm He Heq b e' Hb Hsz Ht E1 E2.
  assert (id ∉ chosen) as Hnc.
  { intros [?|Hn]%I7; [done|]. apply I9 in Hn. apply Hids in Hid. lia. }
  split; simpl; try done; try lia; try congruence.
  - destruct (done_ ++ [thing]) eqn:E; [by destruct done_|]. rewrite <-E, length_app. simpl. by rewrite Nat.add_sub.
  - rewrite imap_app. apply Forall2_app; [by apply items_insert|]. constructor; [|constructor].
    simpl. rewrite Nat.add_0_r. exists e'. rewrite lookup_insert_eq. split; [done|]. rewrite E1. done.
  - apply NoDup_app. split_and!; [done| |apply NoDup_singleton]. intros x Hx ->%list_elem_of_singleton. done.
  - intros x. rewrite elem_of_app, I7, list_elem_of_singleton. set_solver.
  - intros x. rewrite elem_of_union, elem_of_singleton. intros [?| ->]; auto.
  - intros x Hx%I9. lia.
  - intros x Hx. destruct (decide (x = id)) as [->|]; [rewrite lookup_insert_eq; eauto|].
    rewrite lookup_insert_ne by done. auto.
Qed.

(** An item without a UPC gets a fresh one. *)
Lemma step_new h ids b0 done_ chosen s thing b : sched_inv h ids b0 done_ chosen s →
  (∀ x, x ∈ ids → x ≤ bsize b0) → board_ok h b → bsize (s_board s) < bsize b →
  Blackboard.tasks b = Blackboard.tasks (s_board s) →
  let id := bsize (s_board s) + 1 in
  sched_inv h ids b0 (done_ ++ [thing]) (chosen ++ [id])
    (SS b (<[id := (thing, prio_at (length done_))]> (s_sched s)) (upcMatched s) (newUpcs s ++ [id])
       (prio_at (length done_))).
Proof.
  intros [I1 I2 I3 I4 I5 I6 I7 I8 I9 I10 I11] Hids Hb Hsz Ht id.
  assert (∀ x, x ∈ newUpcs s ∨ x ∈ ids → x ≠ id) as Hne.
  { intros x [Hx%I9|Hx%Hids]; unfold id; lia. }
  assert (id ∉ chosen) as Hnc.
  { intros [Hx%I8|Hx]%I7; by apply (Hne id); auto. }
  split; simpl; try done; try lia; try congruence.
  - destruct (done_ ++ [thing]) eqn:E; [by destruct done_|]. rewrite <-E, length_app. simpl. by rewrite Nat.add_sub.
  - rewrite imap_app. apply Forall2_app; [by apply items_insert|]. constructor; [|constructor].
    simpl. rewrite Nat.add_0_r. eexists. rewrite lookup_insert_eq. split; [done|]. split; [apply entry_eqb_refl|by left].
  - apply NoDup_app. split_and!; [done| |apply NoDup_singleton]. intros x Hx ->%list_elem_of_singleton. done.
  - intros x. rewrite !elem_of_app, I7, list_elem_of_singleton. tauto.
  - intros x [Hx%I9| ->%list_elem_of_singleton]%elem_of_app; unfold id; lia.
  - apply NoDup_app. split_and!; [done| |apply NoDup_singleton]. intros x Hx ->%list_elem_of_singleton.
    apply (Hne id); auto.
  - intros x Hx. rewrite lookup_insert_ne by (symmetry; apply Hne; auto). auto.
Qed.

Lemma schedule_item_ok h ids b0 done_ chosen s thing : sched_inv h ids b0 done_ chosen s →
  (∀ x, x ∈ ids → x ≤ bsize b0) →
  ∃ s' id, schedule_item frame mod_ own ids s thing = Ok s' ∧
    sched_inv h ids b0 (done_ ++ [thing]) (chosen ++ [id]) s'.
Proof.
  intros Hi Hids. pose proof (prio_step _ _ _ _ _ _ Hi) as Hp. unfold schedule_item. rewrite Hp.
  destruct (find_match_ok (s_sched s) (upcMatched s) thing ids (si_dom _ _ _ _ _ _ Hi)) as (o & -> & Ho).
  cbn [rbind]. pose proof (si_board _ _ _ _ _ _ Hi) as Hb. destruct o as [[id e]|].
  - destruct Ho as (Hid & Hm & He & Heq).
    pose proof (step_matched _ _ _ _ _ _ _ _ _ Hi Hids Hid Hm He Heq) as Hstep.
    destruct (feqb e.2 (prio_at (length done_))) eqn:Ef; cbn [negb].
    + do 2 eexists. split; [done|].
      rewrite <-(insert_id (s_sched s) id e He). apply Hstep; try done. by right.
    + destruct (sendPriority_ok h (s_board s) id (prio_at (length done_)) Hb) as (b' & -> & Hb' & Hsz & Ht).
      cbn [rbind]. do 2 eexists. split; [done|]. apply Hstep; try done. by left.
  - destruct (create_accepted (s_board s) (Blackboard.upcFilters_ (s_board s)) thing) as [u' Ea].
    destruct (post_accepted h (s_board s) _ _ Hb Ea) as (b1 & -> & Hb1 & Hs1 & Ht1). cbn [rbind].
    assert (0 ≤ bsize (s_board s)) by (unfold UpcStorage.size; lia).
    replace (bsize (s_board s) + 1 =? kFilteredUpcId) with false by (unfold kFilteredUpcId; lia).
    destruct (sendPriority_ok h b1 (bsize (s_board s) + 1) (prio_at (length done_)) Hb1) as (b2 & -> & Hb2 & Hs2 & Ht2).
    cbn [rbind]. do 2 eexists. split; [done|]. apply step_new; [done|done|done|lia|congruence].
Qed.

Lemma schedule_all_ok h ids b0 items done_ chosen s : sched_inv h ids b0 done_ chosen s →
  (∀ x, x ∈ ids → x ≤ bsize b0) →
  ∃ s' chosen', rfold (schedule_item frame mod_ own ids) items s = Ok s' ∧
    sched_inv h ids b0 (done_ ++ items) (chosen ++ chosen') s'.
Proof.
  intros Hi Hids. revert done_ chosen s Hi. induction items as [|x items IH]; intros done_ chosen s Hi; cbn [rfold].
  { exists s, []. by rewrite !app_nil_r. }
  destruct (schedule_item_ok _ _ _ _ _ _ x Hi Hids) as (s1 & id & -> & Hi1). cbn [rbind].
  destruct (IH _ _ _ Hi1) as (s2 & chosen' & -> & Hi2). exists s2, (id :: chosen').
  rewrite <-!app_assoc in Hi2. done.
Qed.

(** ** Cancelling the rest *)

Lemma cancel_target `{Task.Classes} rank fuel b h o : world_ok rank fuel b h → Task.live h [o] →
  ∃ b' h', match o with Some r => Task.cancel fuel b h r | None => Ok (b, h) end = Ok (b', h') ∧
    world_ok rank fuel b' h' ∧ (∀ ts, Task.live h ts → Task.live h' ts) ∧
    Blackboard.upcStorage_ b' = Blackboard.upcStorage_ b.
Proof.
  intros Hw Hl. destruct o as [r|]; [|by exists b, h]. apply cancel_world; [done|]. apply Hl. by left.
Qed.

Lemma cancel_unmatched_ok `{Task.Classes} rank fuel b h matched ids ts sched : world_ok rank fuel b h →
  length ts = length ids → NoDup ids → Task.live h ts →
  ∃ b' h' p', cancel_unmatched fuel b h matched ids ts sched = Ok (b', h', p') ∧ world_ok rank fuel b' h' ∧
    targetUpcIds_ p' = filter (λ id, id ∈ matched) ids ∧ length (targets_ p') = length (targetUpcIds_ p') ∧
    Task.live h' (targets_ p') ∧ (∀ l, Task.live h l → Task.live h' l) ∧
    Blackboard.upcStorage_ b' = Blackboard.upcStorage_ b ∧
    ∀ id, id ∈ matched ∨ id ∉ ids → scheduledUpcs p' !! id = sched !! id.
Proof.
  intros Hw. revert b h ts sched Hw. induction ids as [|id ids IH]; intros b h ts sched Hw Hlen Hn Hl; cbn [cancel_unmatched].
  { destruct ts; [|done]. do 3 eexists. split; [done|]. by split_and!. }
  destruct ts as [|o ts]; [done|]. simpl in Hlen. apply NoDup_cons in Hn as [Hid Hn].
  assert (Task.live h ts) as Hl' by (intros r Hr; apply Hl; by right).
  assert (Task.live h [o]) as Hlo by (intros r Hr%list_elem_of_singleton; apply Hl; subst; by left).
  rewrite filter_cons. destruct (decide (id ∈ matched)) as [Hm|Hm].
  - destruct (IH b h ts sched Hw ltac:(lia) Hn Hl') as (b' & h' & p' & -> & Hw' & Hids & Hlen' & Hlive & Hk & Hst & Hsame).
    cbn [rbind]. do 3 eexists. split; [done|]. simpl. rewrite Hids, <-Hids. split_and!; try done; [simpl; lia|..].
    + intros r [E|Hr]%elem_of_cons; [apply (Hk _ Hlo); rewrite E; by left|by apply Hlive].
    + intros x [Hx|Hx]; apply Hsame; [by left|right]. by intros ?; apply Hx; right.
  - destruct (cancel_target rank fuel b h o Hw Hlo) as (b1 & h1 & -> & Hw1 & Hk1 & Hst1). cbn [rbind fst snd].
    destruct (IH b1 h1 ts (delete id sched) Hw1 ltac:(lia) Hn (Hk1 _ Hl'))
      as (b' & h' & p' & -> & Hw' & Hids & Hlen' & Hlive & Hk & Hst & Hsame).
    do 3 eexists. split; [done|]. split_and!; try done; [auto|congruence|].
    intros x Hx. assert (x ≠ id) as Hne by (destruct Hx as [?|Hx]; [congruence|intros ->; apply Hx; by left]).
    rewrite Hsame, lookup_delete_ne by (done || (destruct Hx as [?|Hx]; [by left|right; by intros ?; apply Hx; right])).
    done.
Qed.

(** C12 Rescheduling returns.  It never uses an invalid iterator or index, and the
    plan it leaves is consistent: every item that is due is scheduled under a
    UPC of its own with the priority of its place in the build order, and the
    task follows exactly these UPCs. *)
Theorem reschedule_spec `{Task.Classes} rank fuel b h p order : world_ok rank fuel b h → plan_ok b p → Task.live h (targets_ p) →
  own ≤ bsize b →
  ∃ b' h' p' chosen, reschedule frame mod_ own fuel b h p order = Ok (b', h', p') ∧
    world_ok rank fuel b' h' ∧ plan_ok b' p' ∧ Task.live h' (targets_ p') ∧
    NoDup chosen ∧ (∀ id, id ∈ targetUpcIds_ p' ↔ id ∈ chosen) ∧
    Forall2 (λ it id, scheduled_as (scheduledUpcs p') it.1 it.2 id) (imap pair (due frame order)) chosen.
Proof.
  intros Hw Hp Hl Ho. unfold reschedule.
  destruct (drop_posted_ok rank fuel mod_ b h p Hw Hp Hl) as (b1 & p1 & -> & Hw1 & Hp1 & Hl1 & Ht1 & Hs1). cbn [rbind].
  destruct p1 as [ids1 ts1 sched1]. simpl in *.
  destruct (drop_finished_ok b1 h ids1 ts1 sched1 Hp1 Hl1) as (p2 & -> & Hp2 & Hl2 & _). cbn [rbind].
  set (s0 := SS b1 (scheduledUpcs p2) ∅ [] f32_0).
  assert (sched_inv h (targetUpcIds_ p2) b1 [] [] s0) as Hi0.
  { split; simpl; try done; try set_solver.
    - split_and!; [apply Hw1|apply Hw1|by rewrite Hs1].
    - constructor.
    - constructor.
    - apply Hp2. }
  destruct (schedule_all_ok h (targetUpcIds_ p2) b1 (due frame order) [] [] s0 Hi0 (po_known _ _ Hp2))
    as (s & chosen & -> & [J1 J2 J3 J4 J5 J6 J7 J8 J9 J10 J11]). cbn [rbind]. simpl in *.
  assert (world_ok rank fuel (s_board s) h) as Hw2.
  { destruct Hw1, J1 as (? & ? & ?). by split. }
  destruct (cancel_unmatched_ok rank fuel (s_board s) h (upcMatched s) (targetUpcIds_ p2) (targets_ p2) (s_sched s) Hw2)
    as (b3 & h3 & p3 & -> & Hw3 & Hids & Hlen & Hl3 & _ & Hs3 & Hsame); [apply Hp2|apply Hp2|done|]. cbn [rbind].
  assert (∀ id, id ∈ chosen → scheduledUpcs p3 !! id = s_sched s !! id) as Hkeep.
  { intros id [Hm|Hn]%J7; apply Hsame; [by left|right]. intros Hin%(po_known _ _ Hp2). apply J9 in Hn. lia. }
  assert (∀ id, id ∈ targetUpcIds_ p3 ++ newUpcs s ↔ id ∈ chosen) as Hfollow.
  { intros id. rewrite elem_of_app, J7, Hids, list_elem_of_filter. split; [tauto|].
    intros [Hm|?]; [left; split; [done|by apply J8]|by right]. }
  assert (Forall2 (λ it id, scheduled_as (scheduledUpcs p3) it.1 it.2 id) (imap pair (due frame order)) chosen) as Hall.
  { apply Forall2_same_length_lookup. split; [by eapply Forall2_length|]. intros i it id Hit Hid.
    destruct (Forall2_lookup_lr _ _ _ _ _ _ J5 Hit Hid) as (e & He & ?). exists e.
    rewrite Hkeep by by eapply list_elem_of_lookup_2. done. }
  do 3 eexists. exists chosen. split; [done|]. split_and!; simpl; try done.
  - split; simpl.
    + rewrite !length_app, length_replicate. lia.
    + rewrite Hids. apply NoDup_app. split_and!; [apply NoDup_filter, Hp2| |done].
      intros id [_ Hin%(po_known _ _ Hp2)]%list_elem_of_filter Hn%J9. lia.
    + intros id Hid. apply Hfollow in Hid. rewrite Hkeep by done. apply J7 in Hid as Hid'.
      apply list_elem_of_lookup in Hid as [i Hi]. destruct (Forall2_lookup_r _ _ _ _ _ J5 Hi) as (it & _ & e & He & _).
      eauto.
    + intros id. rewrite Hs3. intros [Hin|Hn]%elem_of_app; [|by apply J9].
      rewrite Hids in Hin. apply list_elem_of_filter in Hin as [_ Hin%(po_known _ _ Hp2)]. lia.
  - intros r [Hr|Hr]%elem_of_app; [by apply Hl3|]. by apply elem_of_replicate in Hr as [? _].
Qed.
End properties.

(** ** An example: a spawning pool is due *)

#[local] Existing Instance Task.example_classes.

Definition example_order : list (Z * BuildEntry) := [(10, entry Zerg_Spawning_Pool); (900, entry Zerg_Hatchery)].
Definition example_plan : plan := Plan [] [] ∅.

Lemma example_world : world_ok (λ _, 0%nat) 1 BlackboardUpcs.initial ∅.
Proof.
  split; [apply BlackboardUpcs.initial_wf|apply BoardTasks.no_tasks_wf|..].
  - intros r t Ht. by rewrite lookup_empty in Ht.
  - intros r [t Ht]. by rewrite lookup_empty in Ht.
Qed.

Lemma example_plan_ok : plan_ok BlackboardUpcs.initial example_plan.
Proof. split; simpl; [done|constructor|set_solver|set_solver]. Qed.

Lemma no_targets h : Task.live h [].
Proof. intros r Hr. by apply not_elem_of_nil in Hr. Qed.

Lemma reschedule_spec_witness :
  ∃ b' h' p', reschedule 0 (Some 3) kRootUpcId 1 BlackboardUpcs.initial ∅ example_plan example_order = Ok (b', h', p') ∧
    plan_ok b' p' ∧ targetUpcIds_ p' = [1] ∧ Blackboard.upcWithId b' 1 = Some (create_upc (entry Zerg_Spawning_Pool)).
Proof.
  destruct (reschedule_spec 0 (Some 3) kRootUpcId (λ _, 0%nat) 1 BlackboardUpcs.initial ∅ example_plan example_order)
    as (b' & h' & p' & chosen & E & _ & Hp & _).
  - apply example_world.
  - apply example_plan_ok.
  - apply no_targets.
  - by vm_compute.
  - exists b', h', p'. split; [exact E|]. split; [exact Hp|]. vm_compute in E. injection E as <- _ <-.
    split; vm_compute; reflexivity.
Defined.

(** A pool with a callback is scheduled under the first UPC of the example board. *)
Definition example_scheduled : ustate :=
  US BlackboardUpcs.example_board ∅
    (Plan [1] [None] {[1 := (BE (Some Zerg_Spawning_Pool) Vec2.origin (Some 7), f32_1)]}) [].

Lemma plan_update_ok_witness :
  ∃ s', plan_update 1 example_scheduled [Unit.blank 5 Zerg_Spawning_Pool] [] = Ok s' ∧
    plan_ok (u_board s') (u_plan s') ∧ targetUpcIds_ (u_plan s') = [] ∧ u_called s' = [7].
Proof.
  destruct (plan_update_ok (λ _, 0%nat) 1 example_scheduled [Unit.blank 5 Zerg_Spawning_Pool] [])
    as (s' & E & _ & Hp & _).
  - split_and!; simpl.
    + destruct example_world as [_ _ Ha Hf]. split; [apply BlackboardUpcs.example_board_wf| |exact Ha|exact Hf].
      assert (Blackboard.tasks BlackboardUpcs.example_board = BoardTasks.make) as -> by (vm_compute; reflexivity).
      apply BoardTasks.no_tasks_wf.
    + split; simpl; [done|apply NoDup_singleton|..]; intros id ->%list_elem_of_singleton; vm_compute; [by eexists|done].
    + intros r Hr%list_elem_of_singleton. discriminate Hr.
  - exists s'. split; [exact E|]. split; [exact Hp|]. vm_compute in E. injection E as <-. split; reflexivity.
Defined.

End AutoBuildSchedule.
